(* ===== verification/_CoqProject ===== *)
-Q . S2P
Prelude.v
JsString.v
Errors.v
Steps.v
Sessions.v
Incidents.v
Deliveries.v
DomainClaims.v
Nginx.v
NginxRows.v
Maintenance.v
JsValue.v
JsObject.v
Certificates.v
MonitorSettings.v
TrafficPolicy.v
Monitor.v
Wireguard.v
WireguardStatus.v
WireguardKeys.v
NginxLexer.v
AlertText.v
UploadRelay.v
UploadRelayInv.v
UploadRelayWork.v
FirewallAddresses.v
Firewall.v
FirewallRender.v
FirewallPreview.v
FirewallDownload.v
FirewallLists.v
TwoFactor.v
Access.v
Login.v
Users.v
LoginFactor.v
ConfigFiles.v
HostResponses.v
AccessListInput.v
AccessLists.v
ProxyHosts.v
CertificateHosts.v
CertificateStore.v
Archives.v
Backups.v
Restores.v
DbMigrate.v
