(* ===== verification/Prelude.v ===== *)
(** * Verification of the ShieldPM backend

    ShieldPM is a reverse-proxy manager: an Express backend (src/backend) keeps
    hosts, users and settings in an SQL database, renders Nginx configurations
    from them, and watches the hosts.  This library models the stateful core
    of that backend and proves what makes it correct.  The frontend, the
    templates and the images are outside it.

    ** The parts and how they interact

    - src/backend/internal/auth-session-service.js and sessions.js issue,
      rotate and revoke refresh tokens over the table [auth_sessions];
      src/backend/routes/tokens.js and routes/oidc.js open a session after the
      checks of src/backend/internal/token.js, and src/backend/lib/access.js
      decides what its token may do.
    - Every write of a proxy, redirection or dead host goes through
      src/backend/lib/host-domain-claims.js, then its configuration is staged
      and activated by src/backend/internal/nginx.js; proxy-host.js does so for
      one host, records versions (host-revisions.js) and undoes what fails
      (src/backend/lib/host-rollback.js), access-list.js for the hosts of a
      list, with the credential files of
      src/backend/lib/access-list-files.js; scheduled on/off
      switching (src/backend/internal/maintenance.js) drives the same
      activation for batches of hosts.
    - src/backend/internal/certificate.js keeps the certificates that hosts refer
      to, with their files, and detaches hosts from one that is gone through the
      same staging, reload and rollback of nginx.js.
    - src/backend/internal/proxy-host-monitor.js probes the upstreams of the
      hosts and stores each accepted check through
      src/backend/internal/incidents.js: observations, rollups, incidents, and
      an outbox of notifications that a worker in the same file delivers.
      src/backend/lib/host-traffic-policy.js defines the upstream pools probed.
    - src/backend/internal/wireguard.js manages the tunnel server and its peers
      with src/backend/lib/wireguard-status.js for the live counters.
    - src/backend/internal/firewall-list.js keeps IP lists (downloaded by
      src/backend/lib/firewall-download.js, parsed by
      src/backend/lib/firewall-addresses.js); lib/firewall-policy.js validates
      the firewall settings of a host, lib/firewall-render.js compiles them
      with its lists to Nginx maps, lib/firewall-preview.js hides the tables in
      previews, and an update of a list re-activates its hosts as one batch.
    - src/backend/internal/upload-relay.js stores uploads in chunks and
      forwards a finished one to the origin, across crashes.
    - src/backend/internal/2fa-service.js enrols and checks second factors
      before a session is issued.
    - src/backend/internal/user.js, setup.js, password-reset.js and
      auth-password.js create and change the accounts those sessions belong to.
    - src/backend/lib/instance-backup.js writes and checks archives of the whole
      instance; src/backend/lib/backup-restore.js replaces the data directory
      by a staged archive when the process starts.
    - src/backend/lib/db-migrate.js moves an SQLite database to a database server
      at the first start with one.
    - src/backend/lib/firewall-geoip-config.js reads Nginx configurations back.

    ** The files, and what they model

    Shared: this file (tables, results, reachability, list lemmas);
    JsString (string operations); JsValue (untyped JSON values); JsObject
    (objects as tables of properties); Errors (src/backend/lib/error.js);
    Steps (handlers as sequences of steps that keep a state when they throw,
    with the rules for what they keep and what holds where they fail).

    - Sessions: the record [auth_db] is the session table and the user rows;
      [createRefreshSession], [refreshTokenPair] (its locked read
      [refresh_read] and its conditional writes [refresh_write] are two steps,
      so clients may race), [revokeSession], [revokeFamily], [list_devices],
      [revoke], [revokeOthers].  Theorems: one live session per family, death
      of a family on replay, single use, confinement of sign-out.
    - Access: the schemas of src/backend/lib/access/, the scopes of tokens and
      the check [can].  Theorems: a permission is granted exactly when role,
      scope and table say so; who may manage nothing changes nothing.
    - Login: the routes that lead to an access token as steps of a site with
      its throttle, its pending tokens and the sessions of Sessions, against the
      interface [SecondFactor].  POST /tokens is a thread ([login], [stage]) that
      goes on statement by statement ([advance]), any number of them side by
      side; [patience] is how long one may take until it has registered its
      failure.  LoginFactor: TwoFactor behind that interface.
      Theorems: no session without the second factor, but for an account that has
      the pending scope as a role; an identifier is admitted only while it has at
      most four recent failures.
    - Users: the handlers of accounts over users, credentials, permissions and
      sessions.  A handler reads and decides ([plan]), and what it decided is
      carried out later, in one transaction ([perform]): between the two, other
      requests run.  Theorems: an address is held by one account, editing a
      profile changes no privilege, an account is created by an administrator
      or as the first one, changing a password ends the sessions.
    - Incidents: the record [store] is the incident tables, [recordCheck],
      [resetHost], [removeHost], [setMute], [hostDetail], [enqueue] the
      functions of the same names.  Theorems: one open incident per host,
      exact attribution of observed time, reports that add up, one
      announcement per subscriber.
    - Deliveries: the outbox worker of the same source ([claim], [finish],
      [reclaim], [cleanup], [retry]) as steps of the machine [outbox], whose
      second component is the rows being sent; target settings
      ([saveTarget], [deleteTarget]).  Theorems: bounded attempts, final
      states, refinement of an abstract life cycle, guarded settings.
    - DomainClaims: [withHostDomainClaims] as one transaction over the record
      [registry].  Theorems: soundness of the registry, no second owner, exact
      ownership, refusal and grant.
    - Nginx: the record [node] is the configuration directory, the running
      configuration and the host rows; backup, render, test, reload, commit
      and rollback, for one host ([configureHost]), for a staged batch
      ([activateStaged]) and for groups ([bulkGenerateConfigGroups]).
      Theorems: all-or-nothing activation, restored service, retirement of
      removed filters.
      NginxRows: what a batch can do to rows and to files of others.
    - ProxyHosts: the handlers of proxy hosts ([create_host], [update_host],
      [enable], [disable], [delete_host]) and [restore_revision] as steps over
      the registry of DomainClaims, whose world is the [node] of Nginx, with
      [record], [prune], [restoreHostState] and [rethrowAfterHostRollback].
      Theorems: a failed change restores rows, files, server and claims; an
      accepted update is live with exactly its names; histories are bounded.
    - CertificateHosts: [cleanUpMissingCertificates] as one action on the [node]
      of Nginx; the rows are followed through its phases by relations between
      the rows at the start and now ([forward], [published], [backward]).
      CertificateStore: creating, uploading, renewing, renaming and deleting
      certificates over the record [vault] (table, directories, [node]), with
      the lock of Certbot.  Theorems: hosts are detached together or restored,
      an upload replaces the pair or nothing, a deletion detaches hosts first,
      what lies on disk is always the pair of the row, unless the assistant
      writes the metadata of one.
    - AccessListInput, AccessLists: the checks of a list and the text of its
      files; creating, changing and deleting a list with its rollback.
      Theorems: a server that reads password files as documented
      ([PasswordFileLaws]) finds the users of a list in its file, a failed change
      keeps the list, a successful one is published to every host.
    - ConfigFiles: capturing and restoring files with their modes and links.
      HostResponses: the masks of responses and the merge of hidden values.
      Theorems: captured files come back, masked lists hide every secret.
    - Maintenance: the poll [processMaintenance] on top of Nginx.  Theorems:
      activate or keep the job, completion preserves the schedule, timers.
    - Certificates, MonitorSettings, AlertText: the computing half of the
      monitor: the PEM reader [validCertificateBundle], settings validation
      [assertMonitorConfig], [resolveTarget], [decideAlert], [probePool] and
      the German alert messages.
    - Monitor: the other half as a machine: [run_start] takes a snapshot of
      the settings, [run_finish] accepts or drops its check ([persistCheck]),
      with edits, resets and removals in between; it embeds the [store] of
      Incidents.  Theorems: stale checks are discarded, bounded history.
    - TrafficPolicy: [normalizeUpstreamPool], [normalizeCachePolicy],
      [validateHostTrafficPolicy] and the observation cache.  Theorems:
      idempotent normal form, bounds, freshness of observations.
    - Wireguard, WireguardKeys, WireguardStatus: the handlers and the
      rendered configurations over [wg_state]; the key files under racing and
      crashing processes; the shared status snapshot.  Theorems: distinct
      addresses, published configuration, exact client configuration,
      permanent identity, no stale snapshot.
    - UploadRelay: the handlers and the worker of the upload relay as steps of
      a machine with crashes and restarts and a trace of events;
      UploadRelayInv: its invariant; UploadRelayWork: the schedule.  Theorems:
      an origin is called only on request and with exactly the acknowledged
      bytes, which are kept until then; every queued upload is settled.
    - FirewallAddresses: [normalizeAddress] and [parseIpList]; Firewall:
      [normalizeFirewallPolicy]; FirewallRender: [buildFirewallRender] and the
      Nginx maps of the template; FirewallPreview: the scanner of previews;
      FirewallDownload: address checks, redirects and limits of a download;
      FirewallLists: the service over hosts, lists and the [node] of Nginx.
      Theorems: canonical normal forms, stored lists read back, the rendered
      maps decide like the policy, previews hide the tables, downloads only
      reach public hosts, a list update is all or nothing, stored lists render.
    - TwoFactor: handlers as programs over single database statements
      ([prog], [stmt]), run side by side ([sys_step]); the proofs go through
      [safe], a weakest precondition with the facts a program has learned.
      Theorems: single use of every factor, well-typed rows, acceptance of
      valid codes, recovery codes leave with the last method.
    - Archives: the file system with directories, files and links, the walk of
      the kernel through it, the checks of a manifest ([read_manifest]) and the
      unpacking of a payload ([open_payload]).  Theorems: unpacking writes only
      below its directory, links of a restored archive lead inside.
    - Backups: copying the data directory into a payload ([copyData]) and the
      creation of a backup.  Theorem: what is archived is what is unpacked.
    - Restores: the replacement of the data directory at the start as steps
      over the disk and its journal, with crashes between any two steps.
      Theorems: the instance served is the old or the new one, whole; a start
      that is not interrupted comes to an end.
    - DbMigrate: [importSqliteDatabase] over a [source] and a [destination] with
      its constraints: [readSchema], the order of the tables, [readBatches],
      [convertRow], both passes over a table and [resetSequence], which a rollback
      does not undo.  Theorems: a consistent database is moved; what arrives is
      exactly what was there, or no row changes; an order of the tables is found exactly when there is one.
    - NginxLexer: the incremental lexer, one character per step.  Theorem:
      quoted directives are read back whatever the chunks.

    Interfaces between parts are classes: [NginxEnv] (what Maintenance knows
    of rendering and of the server), [PoolPolicy] (what Monitor knows of
    pools), [KeyHash], [AuthEnv], [UrlPolicy], [X509], [Platform], [Ipaddr]
    with [IpaddrLaws], [RelayEnv], [IpLib] with [IpLaws], [UrlLib], [GeoLib]
    with [GeoLaws], [Sha256], [PasswordHash], [IpRange], [TextDecode], [HostFirewall], [ListEnv],
    [TwoFaEnv], [Jwt], [Ajv], [LoginEnv], [SecondFactor], [Posix],
    [CredentialLib] with [CredentialLaws], [PasswordFile] with
    [PasswordFileLaws], [HostRules], [Toolbox].  Every theorem proved against one
    of them is also applied to a concrete instance in the last section of its
    file.

    ** Conventions

    A table is the list of its rows in primary-key order.  A handler is a
    function from state and request to a [result]; an exception is [Throw] of
    an [error] of Errors.v.  A handler that writes and may throw afterwards
    returns its result together with the state it leaves.  A
    database transaction is one state function that returns the old state when
    it throws.  Where the code can be interleaved, by other requests, crashes
    or retries, the phases between its awaits are the steps of an inductive
    relation, and invariants are proved of all reachable states; liveness is
    [eventually], over every choice of the steps.  A random identifier is an
    argument of the request, new where the code relies on it.

    Instants are milliseconds (the tables' ISO strings in UTC have the same
    order), days are day numbers.  JSON columns are kept as values.  Strings
    are sequences of code units below 256, with German literals in UTF-8;
    the properties concerned are stated so that this only loosens a bound.
    An object literal's keys are assumed not to be array indices, so that
    insertion order is enumeration order.  Numbers are exact integers of type
    [Z]; the ranges the code enforces are stated where they matter.

    ** Fuel and bounds

    Almost all recursion is structural.  [Incidents.attribute_loop] gets one
    unit of fuel per calendar day it may touch ([attribute_fuel]), which the
    attribution theorem shows to be enough.  [JsString.show_digits] has fuel
    one above the binary logarithm of its number, hence above the count of its
    decimal digits.  [Certificates.read_bundle] recurses on the number of
    certificates still allowed, which is the code's own limit.
    [WireguardKeys.run_alone] takes a number of steps, and four are proved
    enough.  The persist retries of the monitor are the code's own
    [MAX_PERSIST_ATTEMPTS].  The walk of Archives follows at most 40 links,
    as the kernel does, and fails beyond.  [Restores.run] is given a number of
    steps; the theorem of termination shows that twice the names of the old and
    the new instance and four more are enough.  [DbMigrate.read_loop] has a page
    for each row and the empty one at the end, and [DbMigrate.order_loop] one
    step for each table, which is how often the code's loop runs.

    ** What is a parameter, and what is not modelled

    Parameters, because their code is not in the repository: SHA-256, HMAC,
    random numbers, JWT signing, encryption of stored secrets, the X.509
    parser, [node:net]'s [isIP], [JSON.parse], ipaddr.js, the template engine,
    nginx itself, the WireGuard tools, and every network delivery.  Laws
    assumed of them are named hypotheses ([IpaddrLaws], [BareAddresses],
    injectivity of a hash where a theorem needs it) and each is shown to hold
    of a concrete function.

    Not modelled yet: the expansion of include patterns of the configuration
    reader, redirection hosts, dead hosts and streams, GitOps, analytics, dynamic
    DNS and the assistant.  Left out on purpose: of certificates, their download, the arguments of Certbot and the
    .der files of OCSP; of backups, their encryption and compression, the snapshot of the
    database, the rehearsal of Nginx and the list of jobs; of accounts, the
    audit entries and the listings; the detection of GeoIP databases (its result is an argument of the
    renderer), the sorting of overviews, HTTP routing and schemas, audit-log writes, read-only listings,
    timers that only start other functions, process and socket I/O, and the
    frontend.

    Simplifications: removing the directory of an upload is one step; after a
    test that passed, the signal to reload is taken to arrive, and the statements
    of the rollback of [cleanUpMissingCertificates] to succeed; a downloaded list
    is text of code units below 256, so it never begins with a byte order mark; a
    deadline of a download is a failed lookup or response; the operations on
    one firewall list are atomic, as its queue makes them.  A downloaded list
    may grow when its addresses are normalised, so [stored_lists_always_render]
    assumes of the stored text that it is within the parser's limit.  The
    directories above a path are not modelled; a copy of an object is the same
    table; the hand-off of the terminal is left out, and the requests that follow
    a login are answered in one step each; the answers of access lists are not composed with
    their masks.  Of a changed host only the database, the files and the server
    are modelled: the reset of its monitor, Git polling, its OAuth2 proxy and the
    notice to listeners come after, and the repair of MySQL dates is left out.
    Of a database that is moved, foreign keys are checked row by row, columns
    with fractions do not occur, and bringing the destination's schema up to date
    is a parameter.
    The tables of hosts hold one type of rows, so a host's other columns are a
    parameter of each component ([co_rest], [gb_rest], [n_body]).

    ** This file

    A table is the list of its rows in primary-key order, so that
    [ORDER BY id] is the order of the list and an auto-increment insert
    appends.  A query builder chain of the source is one of the operations
    below applied to a boolean row predicate. *)

From stdpp Require Export base tactics numbers list option strings relations.
From Stdlib Require Export ZArith Lia.

#[global] Open Scope Z_scope.

Declare Scope shield_scope.
Delimit Scope shield_scope with shield.

(** ** Results of fallible code *)

Inductive result (E A : Type) : Type :=
| Ok (a : A)
| Throw (e : E).
Arguments Ok {E A} _.
Arguments Throw {E A} _.

Definition rbind {E A B} (m : result E A) (k : A -> result E B) : result E B :=
  match m with
  | Ok a => k a
  | Throw e => Throw e
  end.

Definition rmap {E A B} (f : A -> B) (m : result E A) : result E B :=
  rbind m (fun a => Ok (f a)).

(** The guard [if (c) throw e;] of a validator. *)
Definition throw_if {E} (c : bool) (e : E) : result E unit :=
  if c then Throw e else Ok tt.

Definition is_ok {E A} (m : result E A) : bool :=
  match m with Ok _ => true | Throw _ => false end.

(** [xs.map(f)] where [f] may throw: the first exception wins. *)
Fixpoint rmapM {E A B} (f : A -> result E B) (xs : list A) : result E (list B) :=
  match xs with
  | [] => Ok []
  | x :: xs' => rbind (f x) (fun y => rmap (cons y) (rmapM f xs'))
  end.

Notation "'let?' x := m 'in' k" := (rbind m (fun x => k))
  (at level 10, x pattern, m at level 100, k at level 200) : shield_scope.
Notation "'throw' e 'when' c ';;' k" := (rbind (throw_if c e) (fun _ => k))
  (at level 10, e at level 99, c at level 99, k at level 200) : shield_scope.

#[global] Open Scope shield_scope.

(** ** Tables *)

Section Table.
Context {R : Type}.
Implicit Types (p : R -> bool) (t : list R).

(** [.where(p)] *)
Definition select_where p t : list R := List.filter p t.
(** [.where(p).patch(f)], and the number of rows it reports. *)
Definition patch_where p (f : R -> R) t : list R :=
  map (fun r => if p r then f r else r) t.
Definition count_where p t : nat := length (List.filter p t).
(** [.where(p).delete()] *)
Definition delete_where p t : list R := List.filter (fun r => negb (p r)) t.
(** [.where(p).first()] *)
Definition first_where p t : option R := List.find p t.

Lemma in_select p t r : In r (select_where p t) <-> In r t /\ p r = true.
Proof. apply filter_In. Qed.

Lemma in_delete p t r : In r (delete_where p t) <-> In r t /\ p r = false.
Proof. unfold delete_where. rewrite filter_In, negb_true_iff. done. Qed.

Lemma in_patch p f t r :
  In r (patch_where p f t) <->
  (exists r0, In r0 t /\ p r0 = true /\ r = f r0) \/ (In r t /\ p r = false).
Proof.
  unfold patch_where. rewrite in_map_iff. split.
  - intros (r0 & <- & Hin). destruct (p r0) eqn:E; eauto.
  - intros [(r0 & Hin & Hp & ->) | [Hin Hp]].
    + exists r0. by rewrite Hp.
    + exists r. by rewrite Hp.
Qed.

Lemma first_where_Some p t r :
  first_where p t = Some r -> In r t /\ p r = true.
Proof. apply find_some. Qed.

Lemma first_where_None p t r :
  first_where p t = None -> In r t -> p r = false.
Proof. intros H. by apply find_none. Qed.

Lemma count_where_zero p t :
  count_where p t = 0%nat <-> forall r, In r t -> p r = false.
Proof.
  unfold count_where. split.
  - intros H r Hin. destruct (p r) eqn:E; [|done].
    assert (In r (List.filter p t)) as Hf by (apply filter_In; done).
    apply nil_length_inv in H. by rewrite H in Hf.
  - intros H. induction t as [|x t IH]; [done|]. simpl.
    rewrite (H x) by (by left). apply IH. intros r Hr. apply H. by right.
Qed.

Lemma map_patch {K} (key : R -> K) p f t :
  (forall r, key (f r) = key r) -> map key (patch_where p f t) = map key t.
Proof.
  intros Hk. unfold patch_where. rewrite map_map. apply map_ext. intros r.
  destruct (p r); auto.
Qed.

Lemma patch_where_none p f t :
  (forall r, In r t -> p r = false) -> patch_where p f t = t.
Proof.
  intros H. unfold patch_where. induction t as [|x t IH]; [done|]. simpl.
  rewrite (H x) by (by left). f_equal. apply IH. intros r Hr. apply H. by right.
Qed.

Lemma select_deleted p t : select_where p (delete_where p t) = [].
Proof.
  unfold select_where, delete_where. induction t as [|x t IH]; [done|]. simpl.
  destruct (p x) eqn:E; simpl; [done|]. by rewrite E.
Qed.

Lemma delete_deleted p t : delete_where p (delete_where p t) = delete_where p t.
Proof.
  unfold delete_where. induction t as [|x t IH]; [done|]. simpl.
  destruct (p x) eqn:E; simpl; [done|]. rewrite E. simpl. by f_equal.
Qed.

Lemma select_all p t : (forall r, In r t -> p r = true) -> select_where p t = t.
Proof.
  unfold select_where. induction t as [|x t IH]; [done|]. simpl. intros H.
  rewrite (H x) by (by left). f_equal. apply IH. intros r Hr. apply H. by right.
Qed.

Lemma delete_all p t : (forall r, In r t -> p r = true) -> delete_where p t = [].
Proof.
  unfold delete_where. induction t as [|x t IH]; [done|]. simpl. intros H.
  rewrite (H x) by (by left). simpl. apply IH. intros r Hr. apply H. by right.
Qed.

(** A primary key identifies one row. *)
Lemma key_unique {K} (key : R -> K) t r r' :
  List.NoDup (map key t) -> In r t -> In r' t -> key r = key r' -> r = r'.
Proof.
  induction t as [|x t IH]; [done|]. simpl. intros Hnd Hr Hr' Hk.
  inversion Hnd as [|? ? Hx Hnd']; subst.
  destruct Hr as [->|Hr], Hr' as [->|Hr']; try done.
  - destruct Hx. rewrite Hk. by apply in_map.
  - destruct Hx. rewrite <- Hk. by apply in_map.
  - by apply IH.
Qed.

Lemma key_fresh_app {K} (key : R -> K) t r :
  List.NoDup (map key t) -> ~ In (key r) (map key t) ->
  List.NoDup (map key (t ++ [r])).
Proof.
  intros Hnd Hr. rewrite map_app. simpl. apply NoDup_ListNoDup.
  apply NoDup_ListNoDup in Hnd. apply NoDup_app. split; [done|]. split.
  - intros x Hx Hin. apply list_elem_of_singleton in Hin as ->.
    destruct Hr. by apply list_elem_of_In.
  - apply NoDup_singleton.
Qed.

Lemma NoDup_map_delete {K} (key : R -> K) p t :
  List.NoDup (map key t) -> List.NoDup (map key (delete_where p t)).
Proof.
  unfold delete_where. induction t as [|x t IH]; [done|]. simpl. intros Hnd.
  inversion Hnd as [|? ? Hx Hnd']; subst. destruct (p x); simpl; [by apply IH|].
  constructor; [|by apply IH]. intros Hin. apply Hx.
  apply in_map_iff in Hin as (y & Hy & Hin). apply filter_In in Hin as [Hin _].
  rewrite <- Hy. by apply in_map.
Qed.
End Table.

Lemma NoDup_map_select {R K} (key : R -> K) p (t : list R) :
  List.NoDup (map key t) -> List.NoDup (map key (select_where p t)).
Proof.
  intros Hnd. assert (select_where p t = delete_where (fun r => negb (p r)) t) as ->.
  { unfold select_where, delete_where. apply List.filter_ext. intros r. by rewrite negb_involutive. }
  by apply NoDup_map_delete.
Qed.

(** Looking a row up by its primary key finds it. *)
Lemma find_by_key {R} (key : R -> Z) (t : list R) r :
  List.NoDup (map key t) -> In r t -> first_where (fun x => key x =? key r) t = Some r.
Proof.
  intros Hnd Hin. destruct (first_where _ t) as [x|] eqn:E.
  - apply first_where_Some in E as [Hx Hk]. apply Z.eqb_eq in Hk. f_equal.
    by eapply (key_unique key).
  - apply (first_where_None _ _ r) in E; [|done]. simpl in E. by rewrite Z.eqb_refl in E.
Qed.

(** ** Reachability *)

Section Reachability.
Context {S : Type} (init : S -> Prop) (step : S -> S -> Prop).

Inductive reachable : S -> Prop :=
| reachable_init s : init s -> reachable s
| reachable_step s s' : reachable s -> step s s' -> reachable s'.

(** A state property preserved by every step, from the initial states on. *)
Lemma invariant_reachable (P : S -> Prop) :
  (forall s, init s -> P s) ->
  (forall s s', P s -> step s s' -> P s') ->
  forall s, reachable s -> P s.
Proof. intros Hi Hs s Hr. induction Hr; eauto. Qed.
End Reachability.

(** Liveness: whatever choices a system makes by itself, it cannot stop before
    [P] holds and reaches it after finitely many steps. *)
Inductive eventually {S : Type} (step : S -> S -> Prop) (P : S -> Prop) (s : S) : Prop :=
| eventually_now : P s -> eventually step P s
| eventually_later :
    (exists s', step s s') -> (forall s', step s s' -> eventually step P s') -> eventually step P s.

(** Progress under an invariant, with a measure that every step decreases. *)
Lemma eventually_measure {S : Type} (step : S -> S -> Prop) (P Inv : S -> Prop) (f : S -> nat) :
  (forall s, Inv s -> P s \/ exists s', step s s') ->
  (forall s s', Inv s -> step s s' -> Inv s' /\ (f s' < f s)%nat) ->
  forall s, Inv s -> eventually step P s.
Proof.
  intros Hp Hs s. remember (f s) as n eqn:En. revert s En.
  induction n as [n IH] using (well_founded_induction lt_wf). intros s -> Hi.
  destruct (Hp s Hi) as [|Hex]; [by apply eventually_now|]. apply eventually_later; [done|].
  intros s' Hst. destruct (Hs _ _ Hi Hst) as [Hi' Hlt]. by apply (IH _ Hlt).
Qed.

(** ** Automation *)

Create HintDb shield.

Create Rewrite HintDb shield_rw.
#[export] Hint Rewrite @in_select @in_delete @in_patch : shield_rw.

(** Case analysis on the guard that blocks the goal or a hypothesis. *)
Ltac split_if :=
  match goal with
  | H : context [if ?c then _ else _] |- _ => destruct c eqn:?
  | |- context [if ?c then _ else _] => destruct c eqn:?
  end.

Ltac split_ifs := repeat (split_if; simplify_eq/=; try done).

(** Split a chain of boolean connectives into facts about the tests. *)
Ltac boolify :=
  repeat match goal with
  | H : _ && _ = true |- _ => apply andb_true_iff in H as [? ?]
  | H : _ || _ = false |- _ => apply orb_false_iff in H as [? ?]
  | H : negb _ = true |- _ => apply negb_true_iff in H
  | H : negb _ = false |- _ => apply negb_false_iff in H
  | H : Z.eqb _ _ = true |- _ => apply Z.eqb_eq in H
  | H : Z.eqb _ _ = false |- _ => apply Z.eqb_neq in H
  | H : Z.leb _ _ = true |- _ => apply Z.leb_le in H
  | H : Z.leb _ _ = false |- _ => apply Z.leb_gt in H
  | H : Z.ltb _ _ = true |- _ => apply Z.ltb_lt in H
  | H : Z.ltb _ _ = false |- _ => apply Z.ltb_ge in H
  | H : String.eqb _ _ = true |- _ => apply String.eqb_eq in H
  | H : String.eqb _ _ = false |- _ => apply String.eqb_neq in H
  | H : bool_decide _ = true |- _ => apply bool_decide_eq_true in H
  | H : bool_decide _ = false |- _ => apply bool_decide_eq_false in H
  end.

(** Peel one successful step of the result monad off a hypothesis. *)
Ltac ok_inv H :=
  match type of H with
  | rbind (throw_if ?c _) _ = Ok _ =>
      let E := fresh "G" in destruct c eqn:E; [by inversion H|]; simpl in H
  | rbind ?m _ = Ok _ =>
      let a := fresh "v" in let E := fresh "E" in
      destruct m as [a|] eqn:E; [simpl in H | by inversion H]
  | rmap _ ?m = Ok _ =>
      let a := fresh "v" in let E := fresh "E" in
      destruct m as [a|] eqn:E; [simpl in H | by inversion H]
  end.

(** Peel the successful steps off [H], one after another. *)
Ltac ok_all H := repeat ok_inv H.

Lemma Forall2_in_r {A B} (R : A -> B -> Prop) xs ys y :
  Forall2 R xs ys -> In y ys -> exists x, In x xs /\ R x y.
Proof. induction 1 as [|a b xs ys Hab _ IH]; [done|]. intros [<-|Hin]; [exists a; simpl; eauto|]. destruct (IH Hin) as (x & ? & ?). exists x. simpl. eauto. Qed.

Lemma Forall2_in_l {A B} (R : A -> B -> Prop) xs ys x :
  Forall2 R xs ys -> In x xs -> exists y, In y ys /\ R x y.
Proof. induction 1 as [|a b xs ys Hab _ IH]; [done|]. intros [<-|Hin]; [exists b; simpl; eauto|]. destruct (IH Hin) as (y & ? & ?). exists y. simpl. eauto. Qed.

Lemma rmapM_ok {E A B} (f : A -> result E B) xs ys :
  rmapM f xs = Ok ys <-> Forall2 (fun x y => f x = Ok y) xs ys.
Proof.
  revert ys. induction xs as [|x xs IH]; intros ys; simpl.
  - split; [by intros [= <-]; constructor | by inversion 1].
  - split.
    + destruct (f x) as [y|] eqn:Ex; simpl; [|done].
      destruct (rmapM f xs) as [ys'|] eqn:Exs; simpl; [|done].
      intros [= <-]. constructor; [done|]. by apply IH.
    + inversion 1 as [|? y ? ys' Hy Hys]; subst. rewrite Hy. simpl.
      apply IH in Hys. by rewrite Hys.
Qed.
