(* ===== verification/JsString.v ===== *)
(** The string operations of the language that the modelled code uses.

    A string is a sequence of code units; the development works with code
    units below 256 (the Latin-1 range), which is where the program's tests
    on characters live.  [length] is [s.length], and every function below is
    total, as its JavaScript counterpart is. *)

From S2P Require Import Prelude.
From Stdlib Require Export Ascii.
From Stdlib Require String.
#[local] Set Warnings "-notation-overridden".
From Stdlib Require Export NArith.

#[global] Arguments String.append !_ _ / : simpl nomatch.
#[local] Open Scope string_scope.
#[local] Open Scope Z_scope.
#[local] Set Warnings "-notation-overridden".

Abbreviation strlen s := (Z.of_nat (String.length s)).

(** The numeric value of a code unit, [s.charCodeAt(i)]. *)
Definition code (c : ascii) : Z := Z.of_N (N_of_ascii c).
Definition in_range (lo hi : Z) (c : ascii) : bool := (lo <=? code c) && (code c <=? hi).

Definition is_digit (c : ascii) : bool := in_range 48 57 c.
Definition is_upper (c : ascii) : bool := in_range 65 90 c.
Definition is_lower (c : ascii) : bool := in_range 97 122 c.
Definition is_alpha (c : ascii) : bool := is_upper c || is_lower c.
Definition is_alnum (c : ascii) : bool := is_alpha c || is_digit c.
Definition is_hex_lower (c : ascii) : bool := is_digit c || in_range 97 102 c.
Definition is_hex (c : ascii) : bool := is_hex_lower c || in_range 65 70 c.

(** White space and line terminators below 256: the class trimmed by
    [String.prototype.trim] and matched by [\s]. *)
Definition is_space (c : ascii) : bool :=
  in_range 9 13 c || (code c =? 32) || (code c =? 160).

(** [\p{Cc}]: the control characters. *)
Definition is_control (c : ascii) : bool := (code c <=? 31) || in_range 127 159 c.

(** ** Case mapping *)

(** [toLowerCase] on one code unit: A-Z and the Latin-1 capitals. *)
Definition lower_char (c : ascii) : ascii :=
  if is_upper c || (in_range 192 222 c && negb (code c =? 215))
  then ascii_of_N (N_of_ascii c + 32) else c.

(** [toUpperCase] on one code unit.  The sharp s expands to two letters; the
    micro sign and y with diaeresis leave the Latin-1 range, so they are kept. *)
Definition upper_char (c : ascii) : string :=
  if code c =? 223 then "SS"%string
  else if is_lower c || (in_range 224 254 c && negb (code c =? 247))
  then String (ascii_of_N (N_of_ascii c - 32)) EmptyString
  else String c EmptyString.

Fixpoint smap (f : ascii -> ascii) (s : string) : string :=
  match s with
  | EmptyString => EmptyString
  | String c s' => String (f c) (smap f s')
  end.

Definition to_lower (s : string) : string := smap lower_char s.

Fixpoint to_upper (s : string) : string :=
  match s with
  | EmptyString => EmptyString
  | String c s' => (upper_char c ++ to_upper s')%string
  end.

(** ** Tests over all or some characters *)

Fixpoint all_chars (p : ascii -> bool) (s : string) : bool :=
  match s with
  | EmptyString => true
  | String c s' => p c && all_chars p s'
  end.

Definition any_char (p : ascii -> bool) (s : string) : bool :=
  negb (all_chars (fun c => negb (p c)) s).

Definition has_char (c : ascii) (s : string) : bool := any_char (Ascii.eqb c) s.

(** ** Prefixes, suffixes and substrings *)

Fixpoint starts_with (p s : string) : bool :=
  match p, s with
  | EmptyString, _ => true
  | String a p', String b s' => Ascii.eqb a b && starts_with p' s'
  | String _ _, EmptyString => false
  end.

Fixpoint ends_with (p s : string) : bool :=
  String.eqb p s ||
  match s with
  | EmptyString => false
  | String _ s' => ends_with p s'
  end.

(** [s.includes(p)] *)
Fixpoint includes (p s : string) : bool :=
  starts_with p s ||
  match s with
  | EmptyString => false
  | String _ s' => includes p s'
  end.

Fixpoint drop_str (n : nat) (s : string) : string :=
  match n, s with
  | O, _ => s
  | S n', String _ s' => drop_str n' s'
  | S _, EmptyString => EmptyString
  end.

Fixpoint take_str (n : nat) (s : string) : string :=
  match n, s with
  | O, _ => EmptyString
  | S n', String c s' => String c (take_str n' s')
  | S _, EmptyString => EmptyString
  end.

(** [s.slice(a, b)] for non-negative positions. *)
Definition slice (a b : nat) (s : string) : string := take_str (b - a) (drop_str a s).

Fixpoint drop_while (p : ascii -> bool) (s : string) : string :=
  match s with
  | EmptyString => EmptyString
  | String c s' => if p c then drop_while p s' else s
  end.

(** Drop the longest suffix of [p]-characters. *)
Fixpoint drop_while_end (p : ascii -> bool) (s : string) : string :=
  match s with
  | EmptyString => EmptyString
  | String c s' =>
      match drop_while_end p s' with
      | EmptyString => if p c then EmptyString else String c EmptyString
      | s'' => String c s''
      end
  end.

(** [s.trim()] *)
Definition trim (s : string) : string := drop_while_end is_space (drop_while is_space s).

(** ** Splitting and joining *)

(** [s.split(c)] for a one-character separator: never empty. *)
Fixpoint split_on (c : ascii) (s : string) : list string :=
  match s with
  | EmptyString => [EmptyString]
  | String d s' =>
      if Ascii.eqb c d then EmptyString :: split_on c s'
      else match split_on c s' with
           | [] => [String d EmptyString]
           | w :: ws => String d w :: ws
           end
  end.

(** [xs.join(sep)] *)
Fixpoint join (sep : string) (xs : list string) : string :=
  match xs with
  | [] => EmptyString
  | [x] => x
  | x :: xs' => (x ++ sep ++ join sep xs')%string
  end.

(** [s || t] on values that are a string or absent: the empty string is
    falsy. *)
Definition truthy (o : option string) : bool :=
  match o with
  | Some (String _ _) => true
  | _ => false
  end.
Definition js_or (a b : option string) : option string := if truthy a then a else b.

(** ** Decimal numerals *)

Definition digit_char (n : Z) : ascii := ascii_of_N (Z.to_N (48 + n)).

Fixpoint show_digits (fuel : nat) (n : Z) (acc : string) : string :=
  match fuel with
  | O => acc
  | S fuel' =>
      let acc' := String (digit_char (n mod 10)) acc in
      if n <? 10 then acc' else show_digits fuel' (n / 10) acc'
  end.

(** [String(n)] of an integer.  One more digit than the binary length is
    always enough fuel. *)
Definition show_Z (n : Z) : string :=
  let m := Z.abs n in
  let s := show_digits (S (Z.to_nat (Z.log2_up (m + 1)))) m EmptyString in
  if n <? 0 then String "-" s else s.

Definition digit_value (c : ascii) : Z := code c - 48.

(** The value of a string of decimal digits. *)
Fixpoint read_digits (acc : Z) (s : string) : Z :=
  match s with
  | EmptyString => acc
  | String c s' => read_digits (acc * 10 + digit_value c) s'
  end.
Definition read_Z (s : string) : Z := read_digits 0 s.

(** ** Lemmas *)

Lemma drop_str_app p s : drop_str (String.length p) (p ++ s) = s.
Proof. induction p as [|c p IH]; simpl; auto. Qed.

Lemma take_str_app p s : take_str (String.length p) (p ++ s) = p.
Proof. induction p as [|c p IH]; simpl; [by destruct s|by rewrite IH]. Qed.

Lemma code_range c : 0 <= code c < 256.
Proof. unfold code. pose proof (N_ascii_bounded c). lia. Qed.

Lemma code_inj c d : code c = code d -> c = d.
Proof.
  unfold code. intros H. assert (N_of_ascii c = N_of_ascii d) as E by lia.
  rewrite <- (ascii_N_embedding c), <- (ascii_N_embedding d). by rewrite E.
Qed.

Lemma append_nil_r s : (s ++ "")%string = s.
Proof. induction s as [|c s IH]; [done|]. simpl. by rewrite IH. Qed.

Lemma append_assoc a b c : ((a ++ b) ++ c)%string = (a ++ b ++ c)%string.
Proof. induction a as [|x a IH]; [done|]. simpl. by rewrite IH. Qed.

Lemma length_append a b : strlen (a ++ b) = strlen a + strlen b.
Proof. induction a as [|c a IH]; simpl; lia. Qed.

Lemma all_chars_append p a b : all_chars p (a ++ b) = all_chars p a && all_chars p b.
Proof. induction a as [|c a IH]; [done|]. simpl. by rewrite IH, andb_assoc. Qed.

Lemma all_chars_impl (p q : ascii -> bool) s :
  (forall c, p c = true -> q c = true) -> all_chars p s = true -> all_chars q s = true.
Proof.
  intros H. induction s as [|c s IH]; [done|]. simpl. rewrite !andb_true_iff.
  intros [Hc Hs]. auto.
Qed.

Lemma has_char_append c a b : has_char c (a ++ b) = has_char c a || has_char c b.
Proof. unfold has_char, any_char. rewrite all_chars_append. by rewrite negb_andb. Qed.

Lemma has_char_cons c d s : has_char c (String d s) = Ascii.eqb c d || has_char c s.
Proof. unfold has_char, any_char. simpl. by rewrite negb_andb, negb_involutive. Qed.

Lemma split_on_nonempty c s : split_on c s <> [].
Proof.
  induction s as [|d s IH]; [done|]. simpl. destruct (Ascii.eqb c d); [done|].
  by destruct (split_on c s).
Qed.

(** Joining the parts of a split gives the string back. *)
Lemma join_split c s : join (String c EmptyString) (split_on c s) = s.
Proof.
  induction s as [|d s IH]; [done|]. simpl.
  destruct (Ascii.eqb_spec c d) as [->|Hne].
  - destruct (split_on d s) as [|w ws] eqn:E; [by destruct (split_on_nonempty d s)|].
    simpl in *. by rewrite IH.
  - destruct (split_on c s) as [|w ws] eqn:E; [by destruct (split_on_nonempty c s)|].
    destruct ws; simpl in *; by rewrite IH.
Qed.

Lemma split_on_no_sep c s : Forall (fun w => has_char c w = false) (split_on c s).
Proof.
  induction s as [|d s IH]; [by repeat constructor|]. simpl.
  destruct (Ascii.eqb_spec c d) as [->|Hne]; [by constructor|].
  destruct (split_on c s) as [|w ws].
  - repeat constructor. rewrite has_char_cons. by destruct (Ascii.eqb_spec c d).
  - inversion IH; subst. constructor; [|done]. rewrite has_char_cons.
    by destruct (Ascii.eqb_spec c d).
Qed.

(** Splitting on a separator inside the first part's end. *)
Lemma split_on_append c w s :
  has_char c w = false ->
  split_on c (w ++ String c s) = w :: split_on c s.
Proof.
  induction w as [|d w IH]; simpl.
  - intros _. by rewrite Ascii.eqb_refl.
  - rewrite has_char_cons. intros [Hd Hw]%orb_false_iff. rewrite Hd, IH by done. done.
Qed.

Lemma split_on_single c w : has_char c w = false -> split_on c w = [w].
Proof.
  induction w as [|d w IH]; [done|]. rewrite has_char_cons. simpl.
  intros [Hd Hw]%orb_false_iff. by rewrite Hd, IH.
Qed.

(** Splitting a joined list of separator-free parts gives the list back. *)
Lemma split_join c ws :
  ws <> [] -> Forall (fun w => has_char c w = false) ws ->
  split_on c (join (String c EmptyString) ws) = ws.
Proof.
  induction ws as [|w ws IH]; [done|]. intros _ Hall. inversion Hall; subst.
  destruct ws as [|w' ws]; [by apply split_on_single|].
  change (join (String c EmptyString) (w :: w' :: ws))
    with (w ++ String c (join (String c EmptyString) (w' :: ws)))%string.
  rewrite split_on_append by done. by rewrite IH.
Qed.

(** ** Suffixes *)

Fixpoint last_char (s : string) : option ascii :=
  match s with
  | EmptyString => None
  | String c EmptyString => Some c
  | String _ s' => last_char s'
  end.

Lemma last_char_append a c b : last_char (a ++ String c b) = last_char (String c b).
Proof. induction a as [|x a IH]; [done|]. simpl String.append. rewrite <- IH. by destruct a. Qed.

Lemma ends_with_spec p s : ends_with p s = true <-> exists q, s = (q ++ p)%string.
Proof.
  induction s as [|c s IH].
  - simpl. rewrite orb_false_r, String.eqb_eq. split; [by intros ->; exists ""%string|].
    intros [[|x q] Hq]; [by simpl in Hq|done].
  - cbn [ends_with]. rewrite orb_true_iff, String.eqb_eq, IH. split.
    + intros [->|[q ->]]; [by exists ""%string|by exists (String c q)].
    + intros [[|x q] Hq]; simpl in Hq; [by left|]. injection Hq as -> ->. right. by eexists.
Qed.

Lemma ends_with_false p c s :
  last_char s <> last_char (String c p) -> ends_with (String c p) s = false.
Proof.
  intros H. apply not_true_is_false. rewrite ends_with_spec. intros [q ->]. apply H, last_char_append.
Qed.

Lemma append_inj_r a b c : (a ++ b)%string = (a ++ c)%string -> b = c.
Proof. induction a as [|x a IH]; [done|]. simpl. intros [= H]. auto. Qed.

Lemma append_inj_l a b c : (a ++ c)%string = (b ++ c)%string -> a = b.
Proof.
  revert b. induction a as [|x a IH]; intros [|y b] H; [done| | |].
  - apply (f_equal (fun s => strlen s)) in H. rewrite !length_append in H. simpl in H. lia.
  - apply (f_equal (fun s => strlen s)) in H. rewrite !length_append in H. simpl in H. lia.
  - simpl in H. injection H as -> H. f_equal. auto.
Qed.

(** ** Numerals *)

Lemma digit_value_char n : 0 <= n < 10 -> digit_value (digit_char n) = n.
Proof.
  intros H. unfold digit_value, digit_char, code. rewrite N_ascii_embedding; lia.
Qed.

Lemma read_show_digits fuel n acc :
  0 <= n < 2 ^ Z.of_nat fuel -> (0 < fuel)%nat ->
  read_digits 0 (show_digits fuel n acc) = read_digits n acc.
Proof.
  revert n acc. induction fuel as [|fuel IH]; intros n acc Hn Hf; [lia|]. cbn [show_digits].
  destruct (Z.ltb_spec n 10) as [Hlt|Hge].
  - cbn [read_digits]. rewrite digit_value_char by (apply Z.mod_pos_bound; lia).
    rewrite Z.mod_small by lia. done.
  - rewrite Nat2Z.inj_succ, Z.pow_succ_r in Hn by lia.
    rewrite IH.
    + cbn [read_digits]. rewrite digit_value_char by (apply Z.mod_pos_bound; lia).
      f_equal. rewrite (Z.div_mod n 10) at 3 by lia. lia.
    + split; [apply Z.div_pos; lia|]. apply Z.div_lt_upper_bound; lia.
    + destruct fuel; lia.
Qed.

(** Reading a printed natural number gives it back. *)
Lemma read_show n : 0 <= n -> read_Z (show_Z n) = n.
Proof.
  intros Hn. unfold read_Z, show_Z. replace (n <? 0) with false by (symmetry; apply Z.ltb_ge; lia).
  rewrite read_show_digits; [simpl; lia| |lia].
  rewrite Z.abs_eq by lia. split; [done|]. rewrite Nat2Z.inj_succ, Z2Nat.id by apply Z.log2_up_nonneg.
  rewrite Z.pow_succ_r by apply Z.log2_up_nonneg.
  destruct (decide (n = 0)) as [->|Hne]; [done|].
  pose proof (Z.log2_up_spec (n + 1) ltac:(lia)). lia.
Qed.

Lemma show_Z_inj a b : 0 <= a -> 0 <= b -> show_Z a = show_Z b -> a = b.
Proof. intros Ha Hb H. rewrite <- (read_show a), <- (read_show b) by done. by rewrite H. Qed.

(** ** Lower case *)

Lemma lower_char_idem c : lower_char (lower_char c) = lower_char c.
Proof. destruct c as [[] [] [] [] [] [] [] []]; reflexivity. Qed.

Lemma to_lower_idem s : to_lower (to_lower s) = to_lower s.
Proof.
  unfold to_lower. induction s as [|c s IH]; [done|]. simpl. by rewrite lower_char_idem, IH.
Qed.

(** ** Trimming twice *)

Lemma drop_while_end_keeps q c s :
  q c = false -> exists r, drop_while_end q (String c s) = String c r.
Proof. intros Hc. simpl. destruct (drop_while_end q s); [rewrite Hc|]; by eexists. Qed.

Lemma drop_while_cases q s : drop_while q s = "" \/ exists c r, drop_while q s = String c r /\ q c = false.
Proof.
  induction s as [|c s IH]; [by left|]. simpl. destruct (q c) eqn:E; [done|]. right. by exists c, s.
Qed.

Lemma drop_while_end_idem q s : drop_while_end q (drop_while_end q s) = drop_while_end q s.
Proof.
  induction s as [|c s IH]; [done|]. simpl. destruct (drop_while_end q s) as [|d r] eqn:E.
  - destruct (q c) eqn:Ec; [done|]. simpl. by rewrite Ec.
  - change (drop_while_end q (String c (String d r))) with
      (match drop_while_end q (String d r) with
       | EmptyString => if q c then EmptyString else String c EmptyString
       | r' => String c r' end). by rewrite IH.
Qed.

Lemma trim_idem s : trim (trim s) = trim s.
Proof.
  unfold trim. destruct (drop_while_cases is_space s) as [-> | (c & r & -> & Hc)]; [done|].
  destruct (drop_while_end_keeps is_space c r Hc) as (r' & Hr).
  assert (drop_while is_space (drop_while_end is_space (String c r)) = drop_while_end is_space (String c r)) as ->.
  { rewrite Hr. simpl. by rewrite Hc. }
  apply drop_while_end_idem.
Qed.

Lemma to_lower_length s : strlen (to_lower s) = strlen s.
Proof. unfold to_lower. induction s as [|c s IH]; [done|]. simpl. lia. Qed.

Lemma starts_with_app p s : starts_with p (p ++ s) = true.
Proof. induction p as [|c p IH]; [done|]. simpl. by rewrite Ascii.eqb_refl. Qed.

Lemma starts_with_length p s : starts_with p s = true -> strlen p <= strlen s.
Proof.
  revert s. induction p as [|c p IH]; intros [|d s]; cbn [starts_with String.length]; try done; try lia.
  intros [_ Hs]%andb_true_iff. apply IH in Hs. lia.
Qed.

Lemma includes_length p s : includes p s = true -> strlen p <= strlen s.
Proof.
  induction s as [|c s IH]; cbn [includes].
  - rewrite orb_false_r. apply starts_with_length.
  - intros [Hs|Hs]%orb_true_iff; [by apply starts_with_length|]. apply IH in Hs. cbn [String.length]. lia.
Qed.

(** ** Digits *)

Lemma digit_char_digit n : 0 <= n < 10 -> is_digit (digit_char n) = true.
Proof.
  intros Hn. unfold is_digit, in_range, digit_char, code. rewrite N_ascii_embedding by lia.
  apply andb_true_iff. rewrite !Z.leb_le. lia.
Qed.

Lemma show_digits_chars fuel n acc :
  0 <= n -> all_chars is_digit acc = true -> all_chars is_digit (show_digits fuel n acc) = true.
Proof.
  revert n acc. induction fuel as [|fuel IH]; intros n acc Hn Hacc; [done|]. simpl.
  assert (all_chars is_digit (String (digit_char (n mod 10)) acc) = true) as Hc.
  { simpl. rewrite digit_char_digit, Hacc; [done|]. apply Z.mod_pos_bound. lia. }
  destruct (n <? 10); [exact Hc|]. apply IH; [|done]. apply Z.div_pos; lia.
Qed.

Lemma show_Z_digits n : 0 <= n -> all_chars is_digit (show_Z n) = true.
Proof.
  intros Hn. unfold show_Z. replace (n <? 0) with false by (symmetry; apply Z.ltb_ge; lia).
  apply show_digits_chars; [lia|done].
Qed.

(** A character that no string of the class holds. *)
Lemma all_chars_no c p s : all_chars p s = true -> p c = false -> has_char c s = false.
Proof.
  intros Hs Hc. induction s as [|d s IH]; [done|]. simpl in Hs. apply andb_true_iff in Hs as [Hd Hs].
  rewrite has_char_cons, IH by done. rewrite orb_false_r. apply Ascii.eqb_neq. intros ->. congruence.
Qed.

(** ** Lines *)

Definition LF : string := String (ascii_of_nat 10) "".

Definition single_line (s : string) : Prop := has_char (ascii_of_nat 10) s = false.

Lemma split_line l rest : single_line l -> split_on (ascii_of_nat 10) (l ++ LF ++ rest) = l :: split_on (ascii_of_nat 10) rest.
Proof. intros Hl. unfold LF. simpl. by apply split_on_append. Qed.

Lemma single_app a b : single_line a -> single_line b -> single_line (a ++ b).
Proof. unfold single_line. intros Ha Hb. by rewrite has_char_append, Ha, Hb. Qed.

Lemma single_show n : single_line (show_Z n).
Proof.
  destruct (Z.le_gt_cases 0 n) as [Hn|Hn]; [by eapply all_chars_no; [apply show_Z_digits|]|].
  unfold single_line, show_Z. replace (n <? 0) with true by (symmetry; apply Z.ltb_lt; lia).
  rewrite has_char_cons. by eapply all_chars_no; [apply show_digits_chars; [lia|done]|].
Qed.

(** *** Lengths *)

Lemma show_digits_length fuel n acc k :
  0 <= n < 10 ^ k -> 1 <= k -> strlen (show_digits fuel n acc) <= k + strlen acc.
Proof.
  revert n acc k. induction fuel as [|fuel IH]; intros n acc k Hn Hk; [simpl; lia|]. cbn [show_digits].
  destruct (n <? 10) eqn:E; [cbn [String.length]; lia|]. apply Z.ltb_ge in E.
  assert (1 < k) as Hk'. { destruct (Z.eq_dec k 1) as [->|]; [simpl in Hn; lia|lia]. }
  etransitivity; [apply (IH _ _ (k - 1)); [|lia]|cbn [String.length]; lia].
  split; [apply Z.div_pos; lia|]. apply Z.div_lt_upper_bound; [lia|].
  replace (10 * 10 ^ (k - 1)) with (10 ^ k); [lia|]. rewrite <- Z.pow_succ_r by lia. f_equal. lia.
Qed.

Lemma show_Z_length n k : 0 <= n < 10 ^ k -> 1 <= k -> strlen (show_Z n) <= k.
Proof.
  intros Hn Hk. unfold show_Z. replace (n <? 0) with false by (symmetry; apply Z.ltb_ge; lia).
  rewrite Z.abs_eq by lia. pose proof (show_digits_length (S (Z.to_nat (Z.log2_up (n + 1)))) n "" k Hn Hk) as Hs.
  change (strlen "") with 0 in Hs. lia.
Qed.

Fixpoint total_length (ws : list string) : Z :=
  match ws with [] => 0 | w :: ws' => strlen w + total_length ws' end.

Lemma total_length_nonneg ws : 0 <= total_length ws.
Proof. induction ws; simpl; lia. Qed.

Lemma total_length_app a b : total_length (a ++ b) = total_length a + total_length b.
Proof. induction a; simpl; lia. Qed.

Lemma join_length sep ws : ws <> [] ->
  strlen (join sep ws) = total_length ws + strlen sep * (Z.of_nat (length ws) - 1).
Proof.
  induction ws as [|w ws IH]; [done|]. intros _. destruct ws as [|w' ws]; [simpl; lia|].
  change (join sep (w :: w' :: ws)) with (w ++ sep ++ join sep (w' :: ws))%string.
  rewrite !length_append, IH by done. cbn [total_length length]. lia.
Qed.

Lemma take_str_length n s : strlen (take_str n s) <= Z.of_nat n.
Proof. revert s. induction n as [|n IH]; intros [|c s]; cbn; try lia. specialize (IH s). lia. Qed.

(** The length of the literals of a concatenation. *)
Ltac literal_lengths :=
  rewrite ?length_append;
  repeat match goal with
  | |- context [Z.of_nat (String.length ?s)] =>
      let n := eval vm_compute in (Z.of_nat (String.length s)) in
      lazymatch n with
      | Z0 => change (Z.of_nat (String.length s)) with n
      | Z.pos _ => change (Z.of_nat (String.length s)) with n
      end
  end.

(** ** Trimming only removes *)

Lemma all_chars_trim p s : all_chars p s = true -> all_chars p (trim s) = true.
Proof.
  intros Hs. unfold trim. assert (Hd : all_chars p (drop_while is_space s) = true).
  { induction s as [|c s IH]; [done|]. simpl in *. apply andb_true_iff in Hs as [Hc Hs].
    destruct (is_space c); [by apply IH|]. simpl. by rewrite Hc, Hs. }
  revert Hd. generalize (drop_while is_space s). intros t. induction t as [|c t IH]; [done|]. simpl.
  intros [Hc Ht]%andb_true_iff. specialize (IH Ht). destruct (drop_while_end is_space t) as [|d r].
  - destruct (is_space c); [done|]. simpl. by rewrite Hc.
  - simpl in *. by rewrite Hc, IH.
Qed.

Lemma has_char_all c s : has_char c s = false <-> all_chars (fun d => negb (Ascii.eqb c d)) s = true.
Proof.
  induction s as [|d s IH]; [done|]. rewrite has_char_cons, orb_false_iff. simpl.
  rewrite andb_true_iff, negb_true_iff, IH. done.
Qed.

Lemma has_char_trim c s : has_char c s = false -> has_char c (trim s) = false.
Proof. rewrite !has_char_all. apply all_chars_trim. Qed.

Lemma trim_length s : strlen (trim s) <= strlen s.
Proof.
  unfold trim. assert (Hd : strlen (drop_while is_space s) <= strlen s).
  { induction s as [|c s IH]; [done|]. simpl. destruct (is_space c); cbn [String.length]; lia. }
  assert (He : forall t, strlen (drop_while_end is_space t) <= strlen t); [|by etransitivity; [apply He|]].
  induction t as [|c t IH]; [done|]. simpl. destruct (drop_while_end is_space t) as [|d r].
  - destruct (is_space c); cbn [String.length] in *; lia.
  - cbn [String.length] in *. lia.
Qed.

(** [xs.includes(x)] *)
Lemma existsb_eqb_In (x : string) xs : existsb (String.eqb x) xs = true <-> In x xs.
Proof.
  rewrite existsb_exists. split; [by intros (y & ? & ->%String.eqb_eq)|].
  intros. exists x. by rewrite String.eqb_refl.
Qed.

