(* ===== verification/Errors.v ===== *)
(** The error classes of src/backend/lib/error.js: what an exception carries
    when a handler throws it, and what the response layer may show of it. *)

From S2P Require Import Prelude JsString.
#[local] Open Scope string_scope.
#[local] Open Scope Z_scope.

Inductive error_class : Type :=
| CPermission | CItemNotFound | CAuth | CInternal | CInternalValidation
| CConfiguration | CCache | CValidation | CAssertionFailed | CUnauthorized | CCommand
| CNative.

(** [public] says whether the message may reach a client; [status] is the
    response status, which a command error does not set. *)
Record error : Type := MkError {
  e_class : error_class;
  e_message : string;
  e_public : bool;
  e_status : option Z
}.

Definition default_message (message : string) (fallback : string) : string :=
  if String.eqb message "" then fallback else message.

Definition PermissionError (message : string) : error :=
  MkError CPermission (default_message message "Permission Denied") true (Some 403).

(** The identifier is interpolated when it is truthy. *)
Definition ItemNotFoundError (id : option Z) : error :=
  MkError CItemNotFound
    (match id with
     | Some n => if n =? 0 then "Not Found" else "Not Found - " ++ show_Z n
     | None => "Not Found"
     end)
    true (Some 404).

Definition AuthError (message : string) : error := MkError CAuth message true (Some 400).
Definition InternalError (message : string) : error := MkError CInternal message false (Some 500).
Definition InternalValidationError (message : string) : error :=
  MkError CInternalValidation message false (Some 400).
Definition ConfigurationError (message : string) : error :=
  MkError CConfiguration message true (Some 400).
Definition CacheError (message : string) : error := MkError CCache message false (Some 500).
Definition ValidationError (message : string) : error :=
  MkError CValidation message true (Some 400).
Definition AssertionFailedError (message : string) : error :=
  MkError CAssertionFailed message false (Some 400).
Definition UnauthorizedError (message : string) : error :=
  MkError CUnauthorized (default_message message "Unauthorized") true (Some 401).
Definition CommandError (stdErr : string) : error := MkError CCommand stdErr false None.

(** An error of the language itself (TypeError, Error): no status, not public. *)
Definition NativeError (message : string) : error := MkError CNative message false None.

Abbreviation fallible := (result error).
