(* ===== verification/Steps.v ===== *)
(** Handlers as sequences of steps: a step returns or throws, and leaves a state
    behind either way.  [through P m] says that [m] keeps an invariant whichever
    way it ends; [do*] sequences steps as [await] does. *)

From S2P Require Import Prelude Errors.
#[local] Open Scope list_scope.

Definition step (S A : Type) : Type := S -> fallible A * S.

Section Steps.
Context {S : Type}.
Implicit Types (s : S).

Definition done_with {A} (a : A) : step S A := fun s => (Ok a, s).
Definition throws {A} (e : error) : step S A := fun s => (Throw e, s).
Definition and_then {A C} (m : step S A) (k : A -> step S C) : step S C :=
  fun s => match m s with (Ok a, s') => k a s' | (Throw e, s') => (Throw e, s') end.
Definition of_result {A} (r : fallible A) : step S A := fun s => (r, s).
(** A step that may fail before it does anything. *)
Definition unless (fault : option error) : step S unit := fun s => (match fault with Some e => Throw e | None => Ok tt end, s).
Definition update_state (f : S -> S) : step S unit := fun s => (Ok tt, f s).
Definition read_state {A} (f : S -> A) : step S A := fun s => (Ok (f s), s).
(** A query that may throw. *)
Definition query {A} (f : S -> fallible A) : step S A := fun s => (f s, s).
(** [try { m } catch (e) { k(e) }] *)
Definition catching {A} (m : step S A) (k : error -> step S A) : step S A :=
  fun s => match m s with (Ok a, s') => (Ok a, s') | (Throw e, s') => k e s' end.
End Steps.

Notation "'do*' x := m 'in' k" := (and_then m (fun x => k)) (at level 10, x pattern, m at level 100, k at level 200) : shield_scope.

Section Rules.
Context {S : Type}.
Implicit Types (s : S) (P : S -> Prop).

(** *** Invariants *)

Definition through {A} P (m : step S A) : Prop := forall s r s', P s -> m s = (r, s') -> P s'.

Lemma through_then {A C} P (m : step S A) (k : A -> step S C) :
  through P m -> (forall a, through P (k a)) -> through P (and_then m k).
Proof.
  intros Hm Hk s r s' Hp. unfold and_then. destruct (m s) as [[a|e] s1] eqn:E; apply Hm in E; try done; [by apply Hk|by intros [= <- <-]].
Qed.

Lemma through_catching {A} P (m : step S A) k : through P m -> (forall e, through P (k e)) -> through P (catching m k).
Proof.
  intros Hm Hk s r s' Hp. unfold catching. destruct (m s) as [[a|e] s1] eqn:E; apply Hm in E; try done; [by intros [= <- <-]|by apply Hk].
Qed.

Lemma through_result {A} P (r : fallible A) : through P (of_result r).
Proof. by intros s r' s' Hp [= <- <-]. Qed.
Lemma through_unless P fault : through P (unless fault).
Proof. by intros s r s' Hp [= <- <-]. Qed.
Lemma through_done {A} P (a : A) : through P (done_with a).
Proof. by intros s r s' Hp [= <- <-]. Qed.
Lemma through_throws {A} P e : through (A := A) P (throws e).
Proof. by intros s r s' Hp [= <- <-]. Qed.
Lemma through_read {A} P (f : S -> A) : through P (read_state f).
Proof. by intros s r s' Hp [= <- <-]. Qed.
Lemma through_query {A} P (f : S -> fallible A) : through P (query f).
Proof. by intros s r s' Hp [= <- <-]. Qed.
Lemma through_update P f : (forall s, P s -> P (f s)) -> through P (update_state f).
Proof. intros Hf s r s' Hp [= <- <-]. auto. Qed.

(** *** Failures *)

(** What holds where [m], started from [s], throws. *)
Definition fails_with {A} (Q : S -> Prop) s (m : step S A) : Prop := forall e s', m s = (Throw e, s') -> Q s'.

Lemma then_fails {A C} P (Q : S -> Prop) s (m : step S A) (k : A -> step S C) : P s -> (forall s1, P s1 -> Q s1) -> through P m ->
  (forall a s1, m s = (Ok a, s1) -> P s1 -> fails_with Q s1 (k a)) -> fails_with Q s (and_then m k).
Proof.
  intros Hp Hpq Hm Hk e s'. unfold and_then. destruct (m s) as [[a|e1] s1] eqn:E; pose proof (Hm _ _ _ Hp E) as Hp1.
  - by apply Hk.
  - intros [= _ <-]. auto.
Qed.

Lemma through_fails {A} P s (m : step S A) : P s -> through P m -> fails_with P s m.
Proof. intros Hp Hm e s' Hs. by eapply Hm. Qed.

(** *** Results *)

Lemma then_ok {A C} (m : step S A) (k : A -> step S C) s c s' : and_then m k s = (Ok c, s') ->
  exists a s1, m s = (Ok a, s1) /\ k a s1 = (Ok c, s').
Proof. unfold and_then. destruct (m s) as [[a|e] s1]; [|done]. eauto. Qed.

Lemma unless_ok fault s (u : unit) s' : unless fault s = (Ok u, s') -> s' = s.
Proof. unfold unless. destruct fault; [done|]. by intros [= _ <-]. Qed.
End Rules.

#[export] Hint Resolve through_then through_catching through_result through_unless through_done through_throws through_read through_query : shield.
