(* ===== verification/Sessions.v ===== *)
(** Browser sessions: refresh-token issue, rotation, replay detection and
    revocation (src/backend/internal/auth-session-service.js with its model
    and token helpers), and the device list of
    src/backend/internal/sessions.js.

    The state is the [auth_sessions] table and the [user] rows its relation
    loads.  A refresh is one database transaction; its read phase and its
    write phase are separate steps of the machine, so that two clients may
    race on one token. *)

From S2P Require Import Prelude JsString Errors.
#[local] Open Scope string_scope.
#[local] Open Scope list_scope.
#[local] Open Scope Z_scope.

(** ** Data *)

Record user : Type := MkUser {
  u_id : Z;
  u_name : string;
  u_email : string;
  u_nickname : string;
  u_avatar : string;
  u_roles : list string;
  u_is_deleted : bool;
  u_is_disabled : bool
}.

(** One row of [auth_sessions]; instants are milliseconds. *)
Record session : Type := MkSession {
  s_id : Z;
  s_user_id : Z;
  s_family_id : string;
  s_parent : option Z;
  s_token_hash : string;
  s_jti : string;
  s_scope : list string;
  s_created_at : Z;
  s_expires_at : Z;
  s_last_used_at : option Z;
  s_rotated_at : option Z;
  s_revoked_at : option Z;
  s_revoked_reason : option string;
  s_replaced_by : option Z;
  s_ip : option string;
  s_user_agent : option string
}.

(** The request facts a session records; absent fields are [None]. *)
Record request_meta : Type := MkMeta {
  m_ip : option string;
  m_created_ip : option string;
  m_userAgent : option string;
  m_user_agent : option string;
  m_created_user_agent : option string;
  m_family_id : option string;
  m_familyId : option string
}.

Definition no_meta : request_meta := MkMeta None None None None None None None.

(** The service's database: the two tables and the next auto-increment id. *)
Record auth_db : Type := MkDb {
  db_sessions : list session;
  db_next_id : Z;
  db_users : list user
}.

Definition set_sessions (t : list session) (d : auth_db) : auth_db :=
  MkDb t (db_next_id d) (db_users d).

(** ** Token helpers *)

(** The scope column: an array, a single scope, or something else. *)
Inductive scope_arg : Type :=
| ScopeList (l : list string)
| ScopeString (s : string)
| ScopeOther.

Definition normalizeScope (scope : scope_arg) : list string :=
  match scope with
  | ScopeList l => l
  | ScopeString s => if String.eqb (trim s) "" then [] else [trim s]
  | ScopeOther => []
  end.

Definition orElseNull (a b : option string) : option string :=
  if truthy a then a else if truthy b then b else None.

(** [a || b || c || null] *)
Definition sanitizeMeta (meta : request_meta) : option string * option string :=
  (orElseNull (m_ip meta) (m_created_ip meta),
   orElseNull (js_or (m_userAgent meta) (m_user_agent meta)) (m_created_user_agent meta)).

(** What the service takes from outside: the hash, the random generators,
    the access-token signer and the date library.  [add_days now n] is
    [dayjs().add(n, "d")]. *)
Class AuthEnv : Type := {
  sha256_hex : string -> string;
  add_days : Z -> Z -> Z
}.

(** One call's random draws: a new refresh token, a new family identifier
    and a new token identifier, and what signing the access token gives. *)
Record draws : Type := MkDraws {
  r_refresh_token : string;
  r_family_id : string;
  r_jti : string;
  r_access_token : fallible string
}.

Section Service.
Context `{AuthEnv}.

(** [crypto.createHash] refuses a token that is not a non-empty string. *)
Definition hashToken (rawToken : string) : fallible string :=
  throw NativeError "rawToken must be a non-empty string" when (String.eqb rawToken "") ;;
  Ok (sha256_hex rawToken).

(** [format("YYYY-MM-DD HH:mm:ss")] keeps whole seconds. *)
Definition whole_seconds (t : Z) : Z := t / 1000 * 1000.

Definition refresh_expiry (now : Z) : Z := whole_seconds (add_days now 30).

Definition createRefreshSession (now : Z) (d : auth_db) (u : user) (scope : scope_arg)
    (rawRefreshToken familyId jti : string) (parentSessionId : option Z)
    (meta : request_meta) : fallible (session * auth_db) :=
  let? h := hashToken rawRefreshToken in
  (* The unique keys of the table. *)
  throw NativeError "UNIQUE constraint failed"
    when (existsb (fun x => String.eqb (s_token_hash x) h || String.eqb (s_jti x) jti)
            (db_sessions d)) ;;
  let '(ip, agent) := sanitizeMeta meta in
  let s := MkSession (db_next_id d) (u_id u) familyId parentSessionId h jti
             (normalizeScope scope) now (refresh_expiry now)
             None None None None None ip agent in
  Ok (s, MkDb (db_sessions d ++ [s]) (db_next_id d + 1) (db_users d)).

Definition revoke_row (now : Z) (reason : string) (s : session) : session :=
  MkSession (s_id s) (s_user_id s) (s_family_id s) (s_parent s) (s_token_hash s)
    (s_jti s) (s_scope s) (s_created_at s) (s_expires_at s) (s_last_used_at s)
    (s_rotated_at s) (Some now) (Some reason) (s_replaced_by s) (s_ip s) (s_user_agent s).

Definition rotate_row (now next : Z) (s : session) : session :=
  MkSession (s_id s) (s_user_id s) (s_family_id s) (s_parent s) (s_token_hash s)
    (s_jti s) (s_scope s) (s_created_at s) (s_expires_at s) (Some now)
    (Some now) (s_revoked_at s) (s_revoked_reason s) (Some next) (s_ip s) (s_user_agent s).

Definition is_null {A} (o : option A) : bool :=
  match o with None => true | Some _ => false end.

Definition unrevoked (s : session) : bool := is_null (s_revoked_at s).

Definition revokeSession (now : Z) (sessionId : Z) (reason : string) (d : auth_db)
    : fallible auth_db :=
  throw ValidationError "sessionId is required" when (sessionId =? 0) ;;
  Ok (set_sessions
        (patch_where (fun s => (s_id s =? sessionId) && unrevoked s)
           (revoke_row now reason) (db_sessions d)) d).

Definition in_family (familyId : string) (s : session) : bool :=
  String.eqb (s_family_id s) familyId.

Definition revoke_family_rows (now : Z) (familyId reason : string) (d : auth_db) : auth_db :=
  set_sessions
    (patch_where (fun s => in_family familyId s && unrevoked s)
       (revoke_row now reason) (db_sessions d)) d.

Definition revokeFamily (now : Z) (familyId reason : string) (d : auth_db)
    : fallible auth_db :=
  throw ValidationError "familyId is required" when (String.eqb familyId "") ;;
  Ok (revoke_family_rows now familyId reason d).

(** The response body of an issue or a refresh. *)
Record token_response : Type := MkResponse {
  t_access_token : string;
  t_refresh_token : string;
  t_session : session;
  t_user : user
}.

Definition issueTokenPair (now : Z) (u : user) (scope : scope_arg) (meta : request_meta)
    (r : draws) (d : auth_db) : fallible (token_response * auth_db) :=
  let normalizedScope := ScopeList (normalizeScope scope) in
  let familyId := default "" (js_or (js_or (m_family_id meta) (m_familyId meta))
                                    (Some (r_family_id r))) in
  let? sd := createRefreshSession now d u normalizedScope (r_refresh_token r)
               familyId (r_jti r) None meta in
  let? access := r_access_token r in
  Ok (MkResponse access (r_refresh_token r) (fst sd) u, snd sd).

(** *** Refresh *)

Definition live (s : session) : bool :=
  is_null (s_revoked_at s) && is_null (s_rotated_at s) && is_null (s_replaced_by s).

(** A date is truthy, an id is truthy when it is not zero. *)
Definition was_rotated (s : session) : bool :=
  negb (is_null (s_rotated_at s)) ||
  match s_replaced_by s with Some n => negb (n =? 0) | None => false end.

Definition expired (now : Z) (s : session) : bool := s_expires_at s <? now.

Definition user_of (d : auth_db) (s : session) : option user :=
  first_where (fun u => u_id u =? s_user_id s) (db_users d).

Definition available (u : option user) : option user :=
  match u with
  | Some u => if u_is_deleted u || u_is_disabled u then None else Some u
  | None => None
  end.

Definition by_hash (h : string) (d : auth_db) : option session :=
  first_where (fun s => String.eqb (s_token_hash s) h) (db_sessions d).

(** What the read phase of the transaction decides to write. *)
Inductive plan : Type :=
| PlanExpired (s : session)
| PlanReplay (s : session)
| PlanUnavailable (s : session)
| PlanRotate (s : session) (u : user).

Definition plan_session (p : plan) : session :=
  match p with
  | PlanExpired s | PlanReplay s | PlanUnavailable s | PlanRotate s _ => s
  end.

Definition refresh_read (now : Z) (rawRefreshToken : option string) (d : auth_db)
    : fallible plan :=
  match rawRefreshToken with
  | None | Some EmptyString => Throw (AuthError "Invalid refresh token")
  | Some raw =>
      let? h := hashToken raw in
      match by_hash h d with
      | None => Throw (AuthError "Invalid refresh token")
      | Some s =>
          throw AuthError "Refresh token has been revoked"
            when (negb (is_null (s_revoked_at s))) ;;
          Ok (if expired now s then PlanExpired s
              else if was_rotated s then PlanReplay s
              else match available (user_of d s) with
                   | None => PlanUnavailable s
                   | Some u => PlanRotate s u
                   end)
      end
  end.

(** The outcome of a transaction: what the caller sees, and the database
    after commit or rollback. *)
Definition outcome (A : Type) : Type := fallible A * auth_db.

(** [return { error }] after a committed write. *)
Definition reject_after {A} (m : fallible auth_db) (e : error) (d : auth_db) : outcome A :=
  match m with
  | Ok d' => (Throw e, d')
  | Throw e' => (Throw e', d)
  end.

(** The conditional rotation: the rows of the WHERE clause. *)
Definition rotatable (sessionId : Z) (s : session) : bool :=
  (s_id s =? sessionId) && live s.

Definition refresh_write (now : Z) (p : plan) (meta : request_meta) (r : draws)
    (d : auth_db) : outcome token_response :=
  match p with
  | PlanExpired s =>
      reject_after (revokeSession now (s_id s) "expired_refresh_token" d)
        (AuthError "Refresh token has expired") d
  | PlanReplay s =>
      reject_after (revokeFamily now (s_family_id s) "refresh_token_replay_detected" d)
        (UnauthorizedError "Refresh token replay detected") d
  | PlanUnavailable s =>
      reject_after (revokeFamily now (s_family_id s) "user_unavailable" d)
        (AuthError "User cannot be loaded for refresh token") d
  | PlanRotate s u =>
      match createRefreshSession now d u (ScopeList (s_scope s)) (r_refresh_token r)
              (s_family_id s) (r_jti r) (Some (s_id s)) meta with
      | Throw e => (Throw e, d)
      | Ok (next, d1) =>
          if Nat.eqb (count_where (rotatable (s_id s)) (db_sessions d1)) 0 then
            reject_after
              (revokeFamily now (s_family_id s) "refresh_token_rotation_race" d1)
              (UnauthorizedError "Refresh token replay detected") d
          else
            let d2 := set_sessions
                        (patch_where (rotatable (s_id s)) (rotate_row now (s_id next))
                           (db_sessions d1)) d1 in
            match r_access_token r with
            | Throw e => (Throw e, d)
            | Ok access => (Ok (MkResponse access (r_refresh_token r) next u), d2)
            end
      end
  end.

(** The handler, when nothing else runs between its two phases. *)
Definition refreshTokenPair (now : Z) (rawRefreshToken : option string)
    (meta : request_meta) (r : draws) (d : auth_db) : outcome token_response :=
  match refresh_read now rawRefreshToken d with
  | Throw e => (Throw e, d)
  | Ok p => refresh_write now p meta r d
  end.
End Service.

(** ** The device list: src/backend/internal/sessions.js *)

(** The caller: [access.token.getUserId(0)], whether
    [access.can("users:update", userId)] grants, and the refresh cookie. *)
Record caller : Type := MkCaller {
  c_user_id : Z;
  c_permitted : bool;
  c_refresh_cookie : option string
}.

(** An entry of the audit log. *)
Record audit_entry : Type := MkAudit {
  a_action : string;
  a_object_type : string;
  a_object_id : Z;
  a_detail : string
}.

Definition MAX_SAFE_INTEGER : Z := 9007199254740991.

Definition safe_id (n : Z) : bool := (n <=? MAX_SAFE_INTEGER) && (0 <? n).

Definition PAGE_SIZE : nat := 100.

Section Devices.
Context `{AuthEnv}.

Definition owned_by (userId : Z) (s : session) : bool := s_user_id s =? userId.

(** [where("expires_at", ">", now)] compares with the formatted now, which
    has whole seconds. *)
Definition unexpired (now : Z) (s : session) : bool := whole_seconds now <? s_expires_at s.

Definition context (now : Z) (c : caller) (d : auth_db) : fallible (Z * string) :=
  throw UnauthorizedError "Authentication required" when (negb (safe_id (c_user_id c))) ;;
  throw PermissionError "Permission Denied" when (negb (c_permitted c)) ;;
  match c_refresh_cookie c with
  | None | Some EmptyString =>
      Throw (ValidationError "Sign in again to manage browser sessions")
  | Some raw =>
      let? h := hashToken raw in
      match first_where (fun s => String.eqb (s_token_hash s) h && owned_by (c_user_id c) s
                                  && unrevoked s && unexpired now s) (db_sessions d) with
      | None => Throw (ValidationError
                  "This browser session cannot manage sessions; sign in again")
      | Some s => Ok (c_user_id c, s_family_id s)
      end
  end.

Definition active (now : Z) (userId : Z) (d : auth_db) : list session :=
  select_where (fun s => owned_by userId s && live s && unexpired now s) (db_sessions d).

(** [new Map(rows.map((row) => [row.family_id, row])).values()]: a family
    keeps its first position and its last row. *)
Fixpoint map_set (s : session) (m : list session) : list session :=
  match m with
  | [] => [s]
  | x :: m' => if String.eqb (s_family_id x) (s_family_id s) then s :: m'
               else x :: map_set s m'
  end.
Definition by_family (rows : list session) : list session :=
  fold_left (fun m s => map_set s m) rows [].

Record device : Type := MkDevice {
  dv_family_id : string;
  dv_current : bool;
  dv_created_at : Z;
  dv_last_active_at : Z;
  dv_expires_at : Z;
  dv_ip : option string;
  dv_user_agent : option string
}.

(** [min("created_at")] over the user's rows of the family. *)
Definition first_seen (userId : Z) (familyId : string) (d : auth_db) : option Z :=
  match select_where (fun s => owned_by userId s && in_family familyId s) (db_sessions d) with
  | [] => None
  | s :: ss => Some (fold_left (fun a x => Z.min a (s_created_at x)) ss (s_created_at s))
  end.

Definition list_devices (now : Z) (c : caller) (d : auth_db)
    : fallible (list device * bool) :=
  let? ctx := context now c d in
  let '(userId, currentFamily) := ctx in
  let rows := firstn (S PAGE_SIZE) (rev (active now userId d)) in
  let families := firstn PAGE_SIZE (by_family rows) in
  let families' :=
    if existsb (in_family currentFamily) families then families
    else match first_where (in_family currentFamily) (active now userId d) with
         | Some cur => cur :: firstn (PAGE_SIZE - 1) families
         | None => families
         end in
  let device_of (s : session) :=
    MkDevice (s_family_id s) (in_family currentFamily s)
      (default (s_created_at s) (first_seen userId (s_family_id s) d))
      (default (s_created_at s) (s_last_used_at s))
      (s_expires_at s) (s_ip s) (s_user_agent s) in
  Ok (map device_of families', Nat.ltb PAGE_SIZE (length rows)).

(** Hexadecimal groups of 8, 4, 4, 4 and 12 joined by hyphens. *)
Definition is_uuid (s : string) : bool :=
  match split_on "-" s with
  | [a; b; c; e; f] =>
      forallb (fun w => all_chars is_hex w) [a; b; c; e; f] &&
      (strlen a =? 8) && (strlen b =? 4) && (strlen c =? 4) && (strlen e =? 4) &&
      (strlen f =? 12)
  | _ => false
  end.

Definition revoke (now : Z) (c : caller) (familyId : option string) (d : auth_db)
    : fallible (auth_db * list audit_entry) :=
  let fam := default "" familyId in
  throw ValidationError "Invalid session family ID" when (negb (is_uuid fam)) ;;
  let? ctx := context now c d in
  let '(userId, currentFamily) := ctx in
  throw ValidationError "Use logout to end the current browser session"
    when (String.eqb fam currentFamily) ;;
  let hit s := owned_by userId s && in_family fam s && unrevoked s in
  throw ItemNotFoundError None when (Nat.eqb (count_where hit (db_sessions d)) 0) ;;
  Ok (set_sessions (patch_where hit (revoke_row now "device_revoked") (db_sessions d)) d,
      [MkAudit "updated" "user" userId fam]).

Definition revokeOthers (now : Z) (c : caller) (d : auth_db)
    : fallible (nat * auth_db * list audit_entry) :=
  let? ctx := context now c d in
  let '(userId, currentFamily) := ctx in
  let hit s := owned_by userId s && negb (in_family currentFamily s) && unrevoked s in
  Ok (count_where hit (db_sessions d),
      set_sessions (patch_where hit (revoke_row now "other_devices_revoked")
                      (db_sessions d)) d,
      [MkAudit "updated" "user" userId "other_sessions_revoked"]).
End Devices.

(** ** The service as a machine *)

(** The database and the refreshes whose read phase has run. *)
Record auth_state : Type := MkAuth {
  st_db : auth_db;
  st_inflight : list (plan * request_meta)
}.

Section Machine.
Context `{AuthEnv}.

Definition family_used (fam : string) (d : auth_db) : bool :=
  existsb (in_family fam) (db_sessions d).

(** Every call of the service, each at its own time.  Only an issue draws a
    family: a random UUID that no row has. *)
Inductive auth_step : auth_state -> auth_state -> Prop :=
| step_issue now u scope meta r d q resp d' :
    m_family_id meta = None -> m_familyId meta = None ->
    r_family_id r <> "" -> family_used (r_family_id r) d = false ->
    issueTokenPair now u scope meta r d = Ok (resp, d') ->
    auth_step (MkAuth d q) (MkAuth d' q)
| step_read now raw meta d q p :
    refresh_read now raw d = Ok p ->
    auth_step (MkAuth d q) (MkAuth d ((p, meta) :: q))
| step_write now p meta r d q1 q2 res d' :
    refresh_write now p meta r d = (res, d') ->
    auth_step (MkAuth d (q1 ++ (p, meta) :: q2)) (MkAuth d' (q1 ++ q2))
| step_revoke_session now id reason d q d' :
    revokeSession now id reason d = Ok d' -> auth_step (MkAuth d q) (MkAuth d' q)
| step_logout now fam reason d q d' :
    revokeFamily now fam reason d = Ok d' -> auth_step (MkAuth d q) (MkAuth d' q)
| step_device_revoke now c fam d q d' log :
    revoke now c fam d = Ok (d', log) -> auth_step (MkAuth d q) (MkAuth d' q)
| step_revoke_others now c d q n d' log :
    revokeOthers now c d = Ok (n, d', log) -> auth_step (MkAuth d q) (MkAuth d' q)
| step_users us d q :
    auth_step (MkAuth d q) (MkAuth (MkDb (db_sessions d) (db_next_id d) us) q).

Definition auth_init (s : auth_state) : Prop :=
  db_sessions (st_db s) = [] /\ 0 < db_next_id (st_db s) /\ st_inflight s = [].
End Machine.

(** ** Invariant *)

Section Invariant.
Context `{AuthEnv}.

Definition id_family (s : session) : Z * string := (s_id s, s_family_id s).

Definition one_live (t : list session) : Prop :=
  forall s1 s2, In s1 t -> In s2 t -> live s1 = true -> live s2 = true ->
    s_family_id s1 = s_family_id s2 -> s1 = s2.

Record db_inv (d : auth_db) : Prop := {
  inv_ids : List.NoDup (map s_id (db_sessions d));
  inv_bound : forall s, In s (db_sessions d) -> 0 < s_id s < db_next_id d;
  inv_next : 0 < db_next_id d;
  inv_live : one_live (db_sessions d)
}.

(** A refresh in flight refers to a row that is still there. *)
Definition auth_inv (st : auth_state) : Prop :=
  db_inv (st_db st) /\
  Forall (fun pm => In (id_family (plan_session (fst pm)))
                      (map id_family (db_sessions (st_db st)))) (st_inflight st).

Lemma live_revoked now reason s : live (revoke_row now reason s) = false.
Proof. done. Qed.

Lemma live_rotated now n s : live (rotate_row now n s) = false.
Proof. unfold live. simpl. by rewrite andb_false_r. Qed.

Lemma live_unrevoked s : live s = true -> unrevoked s = true.
Proof. unfold live, unrevoked. intros ?. by boolify. Qed.

(** A patch that keeps keys and never leaves a touched row live. *)
Section KillPatch.
Context (p : session -> bool) (f : session -> session).
Hypothesis f_id : forall s, s_id (f s) = s_id s.
Hypothesis f_family : forall s, s_family_id (f s) = s_family_id s.
Hypothesis f_dead : forall s, live (f s) = false.

Lemma live_in_kill t s :
  In s (patch_where p f t) -> live s = true -> In s t /\ p s = false.
Proof.
  rewrite in_patch. intros [(s0 & _ & _ & ->)|[? ?]] Hl; [|done].
  by rewrite f_dead in Hl.
Qed.

Lemma kill_ids t : map s_id (patch_where p f t) = map s_id t.
Proof. by apply map_patch. Qed.

Lemma kill_keys t : map id_family (patch_where p f t) = map id_family t.
Proof. apply map_patch. intros s. unfold id_family. by rewrite f_id, f_family. Qed.

Lemma kill_bound t b :
  (forall s, In s t -> 0 < s_id s < b) ->
  forall s, In s (patch_where p f t) -> 0 < s_id s < b.
Proof.
  intros Hb s. rewrite in_patch. intros [(s0 & Hin & _ & ->)|[Hin _]]; [|auto].
  rewrite f_id. auto.
Qed.

Lemma kill_one_live t : one_live t -> one_live (patch_where p f t).
Proof.
  intros Hol s1 s2 H1 H2 L1 L2. apply live_in_kill in H1 as [H1 _]; [|done].
  apply live_in_kill in H2 as [H2 _]; [|done]. by apply Hol.
Qed.

Lemma kill_inv d : db_inv d -> db_inv (set_sessions (patch_where p f (db_sessions d)) d).
Proof.
  intros [Hi Hb Hn Hl]. constructor; simpl; [by rewrite kill_ids|by apply kill_bound|done|].
  by apply kill_one_live.
Qed.
End KillPatch.

Lemma revoke_inv p now reason d :
  db_inv d -> db_inv (set_sessions (patch_where p (revoke_row now reason) (db_sessions d)) d).
Proof. by apply kill_inv. Qed.

Lemma revoke_keys p now reason t :
  map id_family (patch_where p (revoke_row now reason) t) = map id_family t.
Proof. by apply kill_keys. Qed.

(** What an insert adds. *)
Lemma create_spec now d u scope raw fam jti parent meta s d' :
  createRefreshSession now d u scope raw fam jti parent meta = Ok (s, d') ->
  db_sessions d' = db_sessions d ++ [s] /\ db_next_id d' = db_next_id d + 1 /\
  db_users d' = db_users d /\ s_id s = db_next_id d /\ s_family_id s = fam /\
  s_parent s = parent /\ s_user_id s = u_id u /\ s_scope s = normalizeScope scope /\
  live s = true /\ hashToken raw = Ok (s_token_hash s) /\
  s_expires_at s = refresh_expiry now /\
  (forall x, In x (db_sessions d) -> s_token_hash x <> s_token_hash s).
Proof.
  unfold createRefreshSession. intros Hc. ok_inv Hc. ok_inv Hc.
  destruct (sanitizeMeta meta) as [ip agent]. injection Hc as <- <-. simpl.
  do 11 (split; [done|]). intros x Hx Heq.
  apply not_true_iff_false in G. apply G. apply existsb_exists. exists x.
  split; [done|]. by rewrite Heq, String.eqb_refl.
Qed.

Lemma insert_ids d s :
  db_inv d -> s_id s = db_next_id d ->
  List.NoDup (map s_id (db_sessions d ++ [s])) /\
  (forall x, In x (db_sessions d ++ [s]) -> 0 < s_id x < db_next_id d + 1).
Proof.
  intros [Hi Hb Hn _] Hs. split.
  - apply key_fresh_app; [done|]. intros (x & Hx & Hin)%in_map_iff.
    specialize (Hb _ Hin). lia.
  - intros x [Hx|[<-|[]]]%in_app_or; [specialize (Hb _ Hx)|]; lia.
Qed.

Lemma issue_inv d s d' :
  db_inv d -> s_id s = db_next_id d -> family_used (s_family_id s) d = false ->
  db_sessions d' = db_sessions d ++ [s] -> db_next_id d' = db_next_id d + 1 -> db_inv d'.
Proof.
  intros Hinv Hid Hf Ht Hn. destruct (insert_ids _ _ Hinv Hid) as [Hi Hb].
  pose proof (inv_next _ Hinv). constructor; rewrite ?Ht, ?Hn; [done|done|lia|].
  assert (forall x, In x (db_sessions d) -> s_family_id x <> s_family_id s) as Hne.
  { intros x Hx Heq. apply not_true_iff_false in Hf. apply Hf. apply existsb_exists.
    exists x. split; [done|]. unfold in_family. by apply String.eqb_eq. }
  intros s1 s2 [H1|[<-|[]]]%in_app_or [H2|[<-|[]]]%in_app_or L1 L2 Hfam; try done.
  - by apply (inv_live _ Hinv).
  - by destruct (Hne s1).
  - by destruct (Hne s2).
Qed.

(** The race branch: after the family is revoked only other families are
    live. *)
Lemma revoke_family_inv now fam reason d s d' :
  db_inv d -> s_id s = db_next_id d -> s_family_id s = fam ->
  db_sessions d' = db_sessions d ++ [s] -> db_next_id d' = db_next_id d + 1 ->
  db_inv (revoke_family_rows now fam reason d').
Proof.
  intros Hinv Hid Hf Ht Hn. destruct (insert_ids _ _ Hinv Hid) as [Hi Hb].
  pose proof (inv_next _ Hinv). constructor; simpl; rewrite ?Ht, ?Hn; [| |lia|].
  - by rewrite kill_ids.
  - by apply kill_bound.
  - assert (forall x, In x (patch_where
               (fun x => in_family fam x && unrevoked x) (revoke_row now reason)
               (db_sessions d ++ [s])) -> live x = true -> In x (db_sessions d)) as Hold.
    { intros x Hx Hl. apply live_in_kill in Hx as [Hx Hp]; [|done|done].
      apply in_app_or in Hx as [Hx|[<-|[]]]; [done|].
      rewrite (live_unrevoked _ Hl), andb_true_r in Hp. unfold in_family in Hp.
      by apply String.eqb_neq in Hp. }
    intros s1 s2 H1 H2 L1 L2. apply (inv_live _ Hinv); auto.
Qed.
End Invariant.

Section Rotation.
Context `{AuthEnv}.

(** The winning branch: the presented row loses its life to the new one. *)
Lemma rotate_inv now d s n d1 :
  db_inv d -> In (id_family s) (map id_family (db_sessions d)) ->
  s_id n = db_next_id d -> s_family_id n = s_family_id s ->
  db_sessions d1 = db_sessions d ++ [n] -> db_next_id d1 = db_next_id d + 1 ->
  count_where (rotatable (s_id s)) (db_sessions d1) <> 0%nat ->
  db_inv (set_sessions (patch_where (rotatable (s_id s)) (rotate_row now (s_id n))
                          (db_sessions d1)) d1).
Proof.
  intros Hinv Hkey Hid Hfam Ht Hn Hc.
  apply in_map_iff in Hkey as (s1 & [= Eid Efam] & Hs1).
  destruct (insert_ids _ _ Hinv Hid) as [Hi Hb]. pose proof (inv_next _ Hinv).
  pose proof (inv_bound _ Hinv _ Hs1) as Hb1.
  assert (live s1 = true) as L1.
  { apply not_false_iff_true. intros L1. apply Hc. apply count_where_zero.
    intros r Hr. rewrite Ht in Hr. unfold rotatable.
    destruct (s_id r =? s_id s) eqn:E; [|done]. boolify. simpl.
    apply in_app_or in Hr as [Hr|[<-|[]]]; [|lia].
    rewrite (key_unique s_id (db_sessions d) r s1) by (try apply Hinv; congruence). done. }
  constructor; simpl; rewrite ?Ht, ?Hn; [by rewrite kill_ids|by apply kill_bound|lia|].
  assert (forall x, In x (patch_where (rotatable (s_id s)) (rotate_row now (s_id n))
             (db_sessions d ++ [n])) -> live x = true ->
           x = n \/ (In x (db_sessions d) /\ s_family_id x <> s_family_id s)) as Hold.
  { intros x Hx Hl. apply live_in_kill in Hx as [Hx Hp]; [|intros; apply live_rotated|done].
    apply in_app_or in Hx as [Hx|[<-|[]]]; [right|by left]. split; [done|]. intros Heq.
    assert (x = s1) as -> by (apply (inv_live _ Hinv); congruence).
    unfold rotatable in Hp. rewrite Hl, Eid, Z.eqb_refl in Hp. done. }
  intros x y Hx Hy Lx Ly Heq.
  destruct (Hold x Hx Lx) as [->|[? ?]], (Hold y Hy Ly) as [->|[? ?]]; try congruence.
  by apply (inv_live _ Hinv).
Qed.

Lemma rotate_keys now n t :
  map id_family (patch_where (rotatable n) (rotate_row now n) t) = map id_family t.
Proof. by apply kill_keys. Qed.

Lemma write_inv now p meta r d res d' :
  db_inv d -> In (id_family (plan_session p)) (map id_family (db_sessions d)) ->
  refresh_write now p meta r d = (res, d') ->
  db_inv d' /\ (forall k, In k (map id_family (db_sessions d)) ->
                          In k (map id_family (db_sessions d'))).
Proof.
  intros Hinv Hkey Hw. destruct p as [s|s|s|s u]; simpl in Hw, Hkey.
  - unfold revokeSession in Hw. destruct (s_id s =? 0); simpl in Hw;
      injection Hw as _ <-; [done|]. split; [by apply revoke_inv|]. simpl.
    by rewrite revoke_keys.
  - unfold revokeFamily in Hw. destruct (String.eqb _ ""); simpl in Hw;
      injection Hw as _ <-; [done|]. split; [by apply revoke_inv|]. simpl.
    by rewrite revoke_keys.
  - unfold revokeFamily in Hw. destruct (String.eqb _ ""); simpl in Hw;
      injection Hw as _ <-; [done|]. split; [by apply revoke_inv|]. simpl.
    by rewrite revoke_keys.
  - destruct (createRefreshSession _ _ _ _ _ _ _ _ _) as [[n d1]|e] eqn:Ec;
      [|injection Hw as _ <-; done].
    apply create_spec in Ec as (Ht & Hn & _ & Hid & Hf & _).
    destruct (Nat.eqb_spec (count_where (rotatable (s_id s)) (db_sessions d1)) 0) as [E0|E0].
    + unfold revokeFamily in Hw. destruct (String.eqb _ ""); simpl in Hw;
        injection Hw as _ <-; [done|]. split; [by eapply revoke_family_inv|].
      simpl. rewrite revoke_keys, Ht, map_app. intros k Hk. by apply in_or_app; left.
    + destruct (r_access_token r); injection Hw as _ <-; [|done].
      split; [by eapply rotate_inv|]. simpl. rewrite kill_keys by done.
      rewrite Ht, map_app. intros k Hk. by apply in_or_app; left.
Qed.

Lemma read_key now raw d p :
  refresh_read now raw d = Ok p -> In (plan_session p) (db_sessions d).
Proof.
  unfold refresh_read. destruct raw as [[|c raw]|]; try done. intros Hr. ok_inv Hr.
  destruct (by_hash v d) as [s|] eqn:Eh; [|done].
  apply first_where_Some in Eh as [Hin _]. ok_inv Hr. injection Hr as <-.
  destruct (expired now s); [done|]. destruct (was_rotated s); [done|].
  by destruct (available (user_of d s)).
Qed.

Lemma inflight_mono (d d' : auth_db) (q : list (plan * request_meta)) :
  (forall k, In k (map id_family (db_sessions d)) -> In k (map id_family (db_sessions d'))) ->
  Forall (fun pm => In (id_family (plan_session (fst pm))) (map id_family (db_sessions d))) q ->
  Forall (fun pm => In (id_family (plan_session (fst pm))) (map id_family (db_sessions d'))) q.
Proof. intros Hm HF. eapply Forall_impl; [exact HF|]. auto. Qed.

Lemma issue_spec now u scope meta r d resp d' :
  m_family_id meta = None -> m_familyId meta = None -> r_family_id r <> "" ->
  issueTokenPair now u scope meta r d = Ok (resp, d') ->
  createRefreshSession now d u (ScopeList (normalizeScope scope)) (r_refresh_token r)
    (r_family_id r) (r_jti r) None meta = Ok (t_session resp, d').
Proof.
  intros E1 E2 E3 Hi. unfold issueTokenPair in Hi. rewrite E1, E2 in Hi. simpl in Hi.
  ok_inv Hi. ok_inv Hi. injection Hi as <- <-. by destruct v.
Qed.

Lemma auth_step_inv st st' : auth_inv st -> auth_step st st' -> auth_inv st'.
Proof.
  intros [Hinv Hq] Hstep. inversion Hstep; subst; simpl in *.
  - apply issue_spec in H4 as Hc; [|done|done|done].
    apply create_spec in Hc as (Ht & Hn & _ & Hid & Hf & _).
    split; simpl; [eapply issue_inv; eauto; by rewrite Hf|].
    revert Hq. apply inflight_mono. rewrite Ht, map_app. intros k Hk.
    by apply in_or_app; left.
  - split; simpl; [done|]. constructor; [|done]. simpl. apply in_map. by eapply read_key.
  - apply Forall_app in Hq as [Hq1 Hq2]. inversion Hq2; subst.
    destruct (write_inv _ _ _ _ _ _ _ Hinv H3 H0) as [Hinv' Hm]. split; simpl; [done|].
    apply Forall_app. split; by eapply inflight_mono.
  - unfold revokeSession in H0. ok_inv H0. injection H0 as <-.
    split; [by apply revoke_inv|]. simpl. by rewrite revoke_keys.
  - unfold revokeFamily in H0. ok_inv H0. injection H0 as <-.
    split; [by apply revoke_inv|]. simpl. by rewrite revoke_keys.
  - unfold revoke in H0. ok_inv H0. ok_inv H0. destruct v as [uid cur]. ok_inv H0. ok_inv H0.
    injection H0 as <- _. split; [by apply revoke_inv|]. simpl. by rewrite revoke_keys.
  - unfold revokeOthers in H0. ok_inv H0. destruct v as [uid cur].
    injection H0 as _ <- _. split; [by apply revoke_inv|]. simpl. by rewrite revoke_keys.
  - split; simpl; [|done]. by destruct Hinv.
Qed.

Lemma auth_reachable_inv st : reachable auth_init auth_step st -> auth_inv st.
Proof.
  apply invariant_reachable; [|apply auth_step_inv].
  intros [d q] (Ht & Hn & Hq). simpl in *. split; simpl; [|by rewrite Hq].
  constructor; rewrite ?Ht; [constructor|done|done|]. by intros ? ? [].
Qed.
End Rotation.

(** ** Theorems *)

Section Death.
Context `{AuthEnv}.

(** Every row of the family is revoked, and there is one. *)
Definition dead (fam : string) (d : auth_db) : Prop :=
  family_used fam d = true /\
  forall s, In s (db_sessions d) -> s_family_id s = fam -> s_revoked_at s <> None.

Lemma family_used_keys fam d :
  family_used fam d = true <-> In fam (map snd (map id_family (db_sessions d))).
Proof.
  unfold family_used. rewrite existsb_exists, map_map, in_map_iff. simpl. split.
  - intros (s & Hin & E). unfold in_family in E. boolify. eauto.
  - intros (s & E & Hin). exists s. split; [done|]. unfold in_family. by apply String.eqb_eq.
Qed.

Lemma dead_patch fam d p f :
  (forall s, s_id (f s) = s_id s) -> (forall s, s_family_id (f s) = s_family_id s) ->
  (forall s, s_revoked_at s <> None -> s_revoked_at (f s) <> None) ->
  dead fam d -> dead fam (set_sessions (patch_where p f (db_sessions d)) d).
Proof.
  intros Hi Hf Hr [Hu Hd]. split.
  - apply family_used_keys. simpl. rewrite map_patch; [by apply family_used_keys|].
    intros s. unfold id_family. by rewrite Hi, Hf.
  - intros s. simpl. rewrite in_patch. intros [(s0 & Hin & _ & ->)|[Hin _]] Hs.
    + rewrite Hf in Hs. auto.
    + auto.
Qed.

Lemma dead_revoke fam d p now reason :
  dead fam d ->
  dead fam (set_sessions (patch_where p (revoke_row now reason) (db_sessions d)) d).
Proof. apply dead_patch; done. Qed.

Lemma revoke_family_dead now fam reason d :
  family_used fam d = true -> dead fam (revoke_family_rows now fam reason d).
Proof.
  intros Hu. split.
  - apply family_used_keys. simpl. rewrite revoke_keys. by apply family_used_keys.
  - intros s. simpl. rewrite in_patch. intros [(s0 & _ & _ & ->)|[Hin Hp]] Hs; [done|].
    unfold in_family in Hp. rewrite Hs, String.eqb_refl in Hp. simpl in Hp.
    unfold unrevoked in Hp. by destruct (s_revoked_at s).
Qed.

Lemma dead_write fam now p meta r d res d' :
  db_inv d -> In (id_family (plan_session p)) (map id_family (db_sessions d)) ->
  dead fam d -> refresh_write now p meta r d = (res, d') -> dead fam d'.
Proof.
  intros Hinv Hkey Hdead Hw. destruct p as [s|s|s|s u]; simpl in Hw, Hkey.
  1-3: unfold revokeSession, revokeFamily, throw_if in Hw; split_ifs;
       try done; by apply dead_revoke.
  destruct (createRefreshSession _ _ _ _ _ _ _ _ _) as [[n d1]|e] eqn:Ec;
    [|injection Hw as _ <-; done].
  apply create_spec in Ec as (Ht & _ & _ & Hid & Hf & _).
  assert (family_used fam d1 = true) as Hu1.
  { destruct Hdead as [Hu _]. unfold family_used in *. rewrite Ht, existsb_app, Hu. done. }
  destruct (Nat.eqb_spec (count_where (rotatable (s_id s)) (db_sessions d1)) 0) as [E0|E0].
  - unfold revokeFamily, throw_if in Hw.
    destruct (String.eqb _ ""); simpl in Hw; injection Hw as _ <-; [done|].
    destruct (decide (fam = s_family_id s)) as [->|Hne]; [by apply revoke_family_dead|].
    apply dead_revoke. split; [done|]. intros x Hx Hxf. rewrite Ht in Hx.
    apply in_app_or in Hx as [Hx|[<-|[]]]; [by apply Hdead|congruence].
  - destruct (r_access_token r); injection Hw as _ <-; [|done].
    destruct (decide (fam = s_family_id s)) as [->|Hne].
    + exfalso. apply E0. apply count_where_zero. intros x Hx. unfold rotatable.
      destruct (s_id x =? s_id s) eqn:E; [|done]. boolify. simpl.
      apply in_map_iff in Hkey as (s1 & [= E1 E2] & Hs1).
      pose proof (inv_bound _ Hinv _ Hs1). rewrite Ht in Hx.
      apply in_app_or in Hx as [Hx|[<-|[]]]; [|lia].
      rewrite (key_unique s_id (db_sessions d) x s1) by (try apply Hinv; congruence).
      apply not_true_iff_false. intros L%live_unrevoked.
      destruct Hdead as [_ Hd]. specialize (Hd s1 Hs1 E2). unfold unrevoked in L.
      by destruct (s_revoked_at s1).
    + apply dead_patch; [done..|]. split; [done|]. intros x Hx Hxf. rewrite Ht in Hx.
      apply in_app_or in Hx as [Hx|[<-|[]]]; [by apply Hdead|congruence].
Qed.

Lemma dead_step fam st st' :
  auth_inv st -> dead fam (st_db st) -> auth_step st st' -> dead fam (st_db st').
Proof.
  intros [Hinv Hq] Hdead Hstep. inversion Hstep; subst; simpl in *; try done.
  - apply issue_spec in H4 as Hc; [|done|done|done].
    apply create_spec in Hc as (Ht & _ & _ & _ & Hf & _). destruct Hdead as [Hu Hd].
    split; [unfold family_used in *; by rewrite Ht, existsb_app, Hu|].
    intros x Hx Hxf. rewrite Ht in Hx.
    apply in_app_or in Hx as [Hx|[<-|[]]]; [by apply Hd|]. exfalso. congruence.
  - apply Forall_app in Hq as [_ Hq]. inversion Hq; subst. by eapply dead_write.
  - unfold revokeSession in H0. ok_inv H0. injection H0 as <-. by apply dead_revoke.
  - unfold revokeFamily in H0. ok_inv H0. injection H0 as <-. by apply dead_revoke.
  - unfold revoke in H0. ok_inv H0. ok_inv H0. destruct v. ok_inv H0. ok_inv H0.
    injection H0 as <- _. by apply dead_revoke.
  - unfold revokeOthers in H0. ok_inv H0. destruct v.
    injection H0 as _ <- _. by apply dead_revoke.
Qed.

Lemma dead_forever fam st st' :
  auth_inv st -> dead fam (st_db st) -> rtc auth_step st st' -> dead fam (st_db st').
Proof.
  intros Hinv Hd Hr. induction Hr as [|x y z Hxy _ IH]; [done|].
  apply IH; [by eapply auth_step_inv|by eapply dead_step].
Qed.

Lemma dead_refused fam d raw s now :
  dead fam d -> raw <> "" -> by_hash (sha256_hex raw) d = Some s -> s_family_id s = fam ->
  refresh_read now (Some raw) d = Throw (AuthError "Refresh token has been revoked").
Proof.
  intros [_ Hd] Hraw Hh Hs. pose proof Hh as Hh'. apply first_where_Some in Hh' as [Hin _].
  specialize (Hd s Hin Hs). unfold refresh_read. destruct raw as [|c raw]; [done|].
  unfold hashToken. simpl. rewrite Hh. by destruct (s_revoked_at s).
Qed.
End Death.

Section SingleUse.
Context `{AuthEnv}.

Lemma by_hash_app h d n d' :
  db_sessions d' = db_sessions d ++ [n] -> forall s, by_hash h d = Some s ->
  by_hash h d' = Some s.
Proof.
  intros Ht s. unfold by_hash, first_where. rewrite Ht. clear Ht.
  induction (db_sessions d) as [|x t IH]; [done|]. simpl. destruct (String.eqb _ h); auto.
Qed.

Lemma by_hash_patch h p f t s :
  (forall x, s_token_hash (f x) = s_token_hash x) ->
  first_where (fun x => String.eqb (s_token_hash x) h) t = Some s ->
  first_where (fun x => String.eqb (s_token_hash x) h) (patch_where p f t) =
    Some (if p s then f s else s).
Proof.
  intros Hf. unfold first_where, patch_where. induction t as [|x t IH]; [done|]. simpl.
  replace (s_token_hash (if p x then f x else x)) with (s_token_hash x)
    by (destruct (p x); [by rewrite Hf|done]).
  destruct (String.eqb (s_token_hash x) h); [by intros [= <-]|done].
Qed.

Lemma read_rotate now raw d s u :
  refresh_read now (Some raw) d = Ok (PlanRotate s u) ->
  by_hash (sha256_hex raw) d = Some s /\ expired now s = false /\
  available (user_of d s) = Some u.
Proof.
  unfold refresh_read, hashToken. destruct raw as [|c raw]; [done|]. simpl.
  destruct (by_hash _ d) as [s0|]; [|done].
  destruct (s_revoked_at s0); [done|]. simpl.
  destruct (expired now s0) eqn:Eexp; [done|]. destruct (was_rotated s0); [done|].
  destruct (available (user_of d s0)) eqn:Eu; [|done]. by intros [= <- <-].
Qed.

(** What a write phase that answers with a token pair did. *)
Lemma write_ok now s u meta r d resp d' :
  refresh_write now (PlanRotate s u) meta r d = (Ok resp, d') ->
  let n := t_session resp in
  exists d1, createRefreshSession now d u (ScopeList (s_scope s)) (r_refresh_token r)
               (s_family_id s) (r_jti r) (Some (s_id s)) meta = Ok (n, d1) /\
    count_where (rotatable (s_id s)) (db_sessions d1) <> 0%nat /\
    t_refresh_token resp = r_refresh_token r /\ t_user resp = u /\
    d' = set_sessions (patch_where (rotatable (s_id s)) (rotate_row now (s_id n))
                         (db_sessions d1)) d1.
Proof.
  simpl. destruct (createRefreshSession _ _ _ _ _ _ _ _ _) as [[n d1]|]; [|done].
  destruct (Nat.eqb_spec (count_where (rotatable (s_id s)) (db_sessions d1)) 0).
  { unfold revokeFamily, throw_if. by destruct (String.eqb _ ""). }
  destruct (r_access_token r); [|done]. intros [= <- <-]. simpl. eauto 10.
Qed.

(** The rotatable row is the presented one, and it is live. *)
Lemma rotatable_is_presented d s n d1 :
  db_inv d -> In s (db_sessions d) -> s_id n = db_next_id d ->
  db_sessions d1 = db_sessions d ++ [n] ->
  count_where (rotatable (s_id s)) (db_sessions d1) <> 0%nat -> live s = true.
Proof.
  intros Hinv Hin Hid Ht Hc. apply not_false_iff_true. intros L. apply Hc.
  apply count_where_zero. intros x Hx. unfold rotatable.
  destruct (s_id x =? s_id s) eqn:E; [|done]. boolify. simpl. rewrite Ht in Hx.
  pose proof (inv_bound _ Hinv _ Hin).
  apply in_app_or in Hx as [Hx|[<-|[]]]; [|lia].
  by rewrite (key_unique s_id (db_sessions d) x s) by (try apply Hinv; done).
Qed.

Lemma refresh_ok now raw meta r d resp d' :
  db_inv d -> refreshTokenPair now (Some raw) meta r d = (Ok resp, d') ->
  let n := t_session resp in
  exists s u,
    by_hash (sha256_hex raw) d = Some s /\ live s = true /\ expired now s = false /\
    available (user_of d s) = Some u /\ t_user resp = u /\
    s_parent n = Some (s_id s) /\ s_family_id n = s_family_id s /\
    s_user_id n = u_id u /\ s_scope n = s_scope s /\ live n = true /\
    In n (db_sessions d') /\
    by_hash (sha256_hex raw) d' = Some (rotate_row now (s_id n) s).
Proof.
  intros Hinv Href n. unfold refreshTokenPair in Href.
  destruct (refresh_read now (Some raw) d) as [p|] eqn:Er; [|done].
  destruct p as [s|s|s|s u].
  1-3: simpl in Href; unfold revokeSession, revokeFamily, throw_if in Href; split_ifs.
  pose proof (read_key _ _ _ _ Er) as Hin. simpl in Hin.
  apply read_rotate in Er as (Hh & He & Hu).
  apply write_ok in Href as (d1 & Hc & Hcount & _ & Hut & ->). fold n in Hc |- *.
  apply create_spec in Hc as (Ht & _ & _ & Hid & Hf & Hp & Huid & Hsc & Hl & _).
  assert (live s = true) as L by (eapply rotatable_is_presented; eauto).
  exists s, u. split_and!; try done.
  - simpl. apply in_patch. right. rewrite Ht. split; [apply in_or_app; right; by left|].
    unfold rotatable. pose proof (inv_bound _ Hinv _ Hin). apply andb_false_iff. left.
    apply Z.eqb_neq. lia.
  - unfold by_hash. simpl. erewrite by_hash_patch;
      [|done|eapply (by_hash_app _ d n d1); done].
    unfold rotatable. by rewrite Z.eqb_refl, L.
Qed.
End SingleUse.

(** A row that lost its life never lives again. *)
Section Spent.
Context `{AuthEnv}.

Definition spent (i : Z) (d : auth_db) : Prop :=
  i < db_next_id d /\ forall s, In s (db_sessions d) -> s_id s = i -> live s = false.

Lemma spent_kill i d p f :
  (forall s, s_id (f s) = s_id s) -> (forall s, live (f s) = false) ->
  spent i d -> spent i (set_sessions (patch_where p f (db_sessions d)) d).
Proof.
  intros Hi Hl [Hb Hs]. split; [done|]. intros s. simpl. rewrite in_patch.
  intros [(s0 & _ & _ & ->)|[Hin _]] Hid; [apply Hl|by apply Hs].
Qed.

Lemma spent_insert i d d' n :
  db_sessions d' = db_sessions d ++ [n] -> db_next_id d' = db_next_id d + 1 ->
  s_id n = db_next_id d -> spent i d -> spent i d'.
Proof.
  intros Ht Hn Hid [Hb Hs]. split; [lia|]. rewrite Ht.
  intros s [Hin|[<-|[]]]%in_app_or E; [by apply Hs|lia].
Qed.

Lemma spent_write i now p meta r d res d' :
  spent i d -> refresh_write now p meta r d = (res, d') -> spent i d'.
Proof.
  intros Hs Hw. destruct p as [s|s|s|s u]; simpl in Hw.
  1-3: unfold revokeSession, revokeFamily, throw_if in Hw; split_ifs; try done;
       by apply spent_kill.
  destruct (createRefreshSession _ _ _ _ _ _ _ _ _) as [[n d1]|e] eqn:Ec;
    [|injection Hw as _ <-; done].
  apply create_spec in Ec as (Ht & Hn & _ & Hid & _).
  assert (spent i d1) as Hs1 by (by eapply spent_insert).
  destruct (Nat.eqb _ 0).
  - unfold revokeFamily, throw_if in Hw.
    destruct (String.eqb _ ""); simpl in Hw; injection Hw as _ <-; [done|].
    by apply spent_kill.
  - destruct (r_access_token r); injection Hw as _ <-; [|done].
    apply spent_kill; [done|intros; apply live_rotated|done].
Qed.

Lemma spent_step i st st' : auth_step st st' -> spent i (st_db st) -> spent i (st_db st').
Proof.
  intros Hstep Hs. inversion Hstep; subst; simpl in *; try done.
  - apply issue_spec in H4 as Hc; [|done|done|done].
    apply create_spec in Hc as (Ht & Hn & _ & Hid & _). by eapply spent_insert.
  - by eapply spent_write.
  - unfold revokeSession in H0. ok_inv H0. injection H0 as <-. by apply spent_kill.
  - unfold revokeFamily in H0. ok_inv H0. injection H0 as <-. by apply spent_kill.
  - unfold revoke in H0. ok_inv H0. ok_inv H0. destruct v. ok_inv H0. ok_inv H0.
    injection H0 as <- _. by apply spent_kill.
  - unfold revokeOthers in H0. ok_inv H0. destruct v.
    injection H0 as _ <- _. by apply spent_kill.
Qed.

Lemma spent_forever i st st' :
  rtc auth_step st st' -> spent i (st_db st) -> spent i (st_db st').
Proof. induction 1; eauto using spent_step. Qed.

(** A rotation of a spent row cannot win. *)
Lemma spent_write_throws i now s u meta r d :
  spent i d -> s_id s = i ->
  exists e, fst (refresh_write now (PlanRotate s u) meta r d) = Throw e.
Proof.
  intros [Hb Hs] Hi. destruct (refresh_write now (PlanRotate s u) meta r d) as [[resp|e] d'] eqn:Hw;
    [|simpl; eauto]. exfalso.
  apply write_ok in Hw as (d1 & Hc & Hcount & _). apply Hcount, count_where_zero.
  apply create_spec in Hc as (Ht & _ & _ & Hid & _). rewrite Ht. unfold rotatable.
  intros x [Hin|[<-|[]]]%in_app_or; (destruct (_ =? s_id s) eqn:E; [boolify|done]).
  - apply Hs; congruence.
  - lia.
Qed.
End Spent.

(** *** Claims *)

Section Claims.
Context `{AuthEnv}.

(** C1: in every state the service can reach, with any number of refreshes
    racing, logouts, device revocations and account changes in between, a
    token family has at most one live session (neither revoked nor rotated
    nor replaced). *)
Theorem family_has_one_live_session st :
  reachable auth_init auth_step st -> one_live (db_sessions (st_db st)).
Proof. intros Hr. apply auth_reachable_inv in Hr as [Hinv _]. apply Hinv. Qed.

(** C2: presenting a refresh token that was already rotated, and is neither
    expired nor revoked, is answered with the replay error, and the answer is
    final: the whole family is revoked in the committed state, and in every later
    state every token of the family is refused.  (An expired one only revokes its
    own row, a revoked one changes nothing.) *)
Theorem replay_ends_the_family st now raw meta r s :
  reachable auth_init auth_step st -> raw <> "" ->
  by_hash (sha256_hex raw) (st_db st) = Some s -> s_family_id s <> "" ->
  unrevoked s = true -> expired now s = false -> was_rotated s = true ->
  let d' := revoke_family_rows now (s_family_id s) "refresh_token_replay_detected" (st_db st) in
  refreshTokenPair now (Some raw) meta r (st_db st) =
    (Throw (UnauthorizedError "Refresh token replay detected"), d') /\
  forall st' now' raw' s',
    rtc auth_step (MkAuth d' (st_inflight st)) st' -> raw' <> "" ->
    by_hash (sha256_hex raw') (st_db st') = Some s' -> s_family_id s' = s_family_id s ->
    refresh_read now' (Some raw') (st_db st') =
      Throw (AuthError "Refresh token has been revoked").
Proof.
  intros Hr Hraw Hh Hfam Hun Hexp Hrot d'. apply auth_reachable_inv in Hr as Hinv.
  pose proof Hh as Hin. apply first_where_Some in Hin as [Hin _].
  assert (family_used (s_family_id s) (st_db st) = true) as Hu.
  { apply existsb_exists. exists s. split; [done|]. apply String.eqb_refl. }
  split.
  - unfold refreshTokenPair, refresh_read, hashToken.
    destruct raw as [|c raw]; [done|]. simpl. rewrite Hh.
    unfold unrevoked in Hun. rewrite Hun. simpl. rewrite Hexp, Hrot. simpl.
    unfold revokeFamily, throw_if. apply String.eqb_neq in Hfam. by rewrite Hfam.
  - intros st' now' raw' s' Hsteps Hraw' Hh' Hs'. eapply dead_refused; eauto.
    apply (dead_forever _ (MkAuth d' (st_inflight st)) st'); [|by apply revoke_family_dead|done].
    destruct Hinv as [Hi Hq]. split; simpl; [by apply revoke_inv|].
    by rewrite revoke_keys.
Qed.

(** a refresh that succeeds was given the token of a live, unexpired
    session of an available user, and hands on its family, user and scope to
    a new live session whose parent it is.  The same token never works
    again: presented a second time it is refused, and while it has not
    expired the second presentation revokes the family, the new session
    included. *)
Theorem refresh_token_is_single_use st now raw meta r resp d' :
  reachable auth_init auth_step st ->
  refreshTokenPair now (Some raw) meta r (st_db st) = (Ok resp, d') ->
  let n := t_session resp in
  (exists s u, by_hash (sha256_hex raw) (st_db st) = Some s /\ live s = true /\
     expired now s = false /\ available (user_of (st_db st) s) = Some u /\
     s_parent n = Some (s_id s) /\ s_family_id n = s_family_id s /\
     s_user_id n = u_id u /\ s_scope n = s_scope s /\ live n = true /\
     In n (db_sessions d')) /\
  (forall now' meta' r', exists e, fst (refreshTokenPair now' (Some raw) meta' r' d') = Throw e) /\
  (forall now' meta' r', s_family_id n <> "" ->
     (forall s, by_hash (sha256_hex raw) d' = Some s -> expired now' s = false) ->
     dead (s_family_id n) (snd (refreshTokenPair now' (Some raw) meta' r' d'))).
Proof.
  intros Hr Href n. apply auth_reachable_inv in Hr as [Hinv _].
  destruct (refresh_ok _ _ _ _ _ _ _ Hinv Href) as
    (s & u & Hh & L & He & Hu & _ & Hp & Hf & Huid & Hsc & Ln & Hn & Hh'). fold n in Hh', Hn.
  assert (raw <> "") as Hraw by (intros ->; done).
  assert (s_revoked_at s = None) as Hrev.
  { unfold live, is_null in L. by destruct (s_revoked_at s). }
  split; [eauto 15|]. split; intros now' meta' r'; [|intros Hfam Hexp].
  all: unfold refreshTokenPair, refresh_read, hashToken; destruct raw as [|c raw]; [done|].
  all: simpl; rewrite Hh'; simpl; rewrite Hrev; simpl.
  - unfold expired. simpl. destruct (s_expires_at s <? now'); simpl;
      unfold revokeSession, revokeFamily, throw_if; split_ifs; eauto.
  - rewrite (Hexp _ Hh'). simpl. fold n in Hf. rewrite Hf in Hfam |- *.
    unfold revokeFamily, throw_if. apply String.eqb_neq in Hfam. rewrite Hfam. simpl.
    apply revoke_family_dead. apply existsb_exists. exists n. split; [done|].
    unfold in_family. by apply String.eqb_eq.
Qed.

(** Two requests that race on one token cannot both win.  Once the
    write phase of one has answered with a token pair, the write phase of
    the other, whenever it comes and whatever ran in between, is refused. *)
Theorem racing_refreshes_have_one_winner st now s u meta r resp d1 q1 q2 :
  reachable auth_init auth_step st ->
  st_inflight st = q1 ++ (PlanRotate s u, meta) :: q2 ->
  refresh_write now (PlanRotate s u) meta r (st_db st) = (Ok resp, d1) ->
  forall st' now' u' meta' r', rtc auth_step (MkAuth d1 (q1 ++ q2)) st' ->
    exists e, fst (refresh_write now' (PlanRotate s u') meta' r' (st_db st')) = Throw e.
Proof.
  intros Hr Hq Hw st' now' u' meta' r' Hsteps.
  apply auth_reachable_inv in Hr as [Hinv Hfl]. rewrite Hq in Hfl.
  apply Forall_app in Hfl as [_ Hfl]. inversion Hfl as [|? ? Hkey _]; subst. simpl in Hkey.
  apply in_map_iff in Hkey as (s1 & [= Eid Efam] & Hs1).
  pose proof (inv_bound _ Hinv _ Hs1).
  eapply (spent_write_throws (s_id s)); [|done].
  eapply spent_forever; [exact Hsteps|]. simpl.
  apply write_ok in Hw as (d2 & Hc & _ & _ & _ & ->).
  apply create_spec in Hc as (Ht & Hn & _ & Hid & _).
  split; simpl; [lia|]. intros x. rewrite in_patch. unfold rotatable.
  intros [(x0 & _ & _ & ->)|[Hx Hp]] Hxi; [apply live_rotated|].
  rewrite Hxi, Z.eqb_refl in Hp. done.
Qed.

(** signing out other devices touches nothing but the caller's own
    sessions outside the browser's family, and afterwards no other family of
    the caller is usable; the reported count is the number of sessions that
    were ended. *)
Theorem revoke_others_is_confined now c d n d' log :
  revokeOthers now c d = Ok (n, d', log) ->
  exists cur, context now c d = Ok (c_user_id c, cur) /\
    Forall2 (fun s s' =>
      if owned_by (c_user_id c) s && negb (in_family cur s) && unrevoked s
      then s' = revoke_row now "other_devices_revoked" s else s' = s)
      (db_sessions d) (db_sessions d') /\
    (forall s, In s (db_sessions d') -> s_user_id s = c_user_id c -> live s = true ->
       s_family_id s = cur) /\
    n = count_where (fun s => owned_by (c_user_id c) s && negb (in_family cur s)
                              && unrevoked s) (db_sessions d) /\
    db_users d' = db_users d.
Proof.
  unfold revokeOthers. intros Hro. destruct (context now c d) as [[uid cur]|] eqn:Ec; [|done].
  simpl in Hro. injection Hro as <- <- _.
  assert (uid = c_user_id c) as ->.
  { unfold context in Ec. ok_inv Ec. ok_inv Ec.
    destruct (c_refresh_cookie c) as [[|? ?]|]; try done. ok_inv Ec.
    destruct (first_where _ _); [|done]. by injection Ec as <- _. }
  exists cur. split; [done|]. split_and!; try done; simpl.
  - induction (db_sessions d) as [|s t IH]; simpl; constructor; [|done].
    by destruct (owned_by _ s && _ && _).
  - intros s. rewrite in_patch. intros [(s0 & _ & _ & ->)|[Hin Hp]] Hu L; [done|].
    unfold owned_by in Hp. rewrite Hu, Z.eqb_refl, (live_unrevoked _ L) in Hp.
    rewrite andb_true_r in Hp. simpl in Hp. apply negb_false_iff in Hp.
    by apply String.eqb_eq in Hp.
Qed.
End Claims.

(** ** A concrete run *)

Section DemoRun.
Definition demo_env : AuthEnv :=
  {| sha256_hex := fun s => s; add_days := fun now n => now + n * 86400000 |}.
#[local] Existing Instance demo_env.

Definition alice : user := MkUser 7 "Alice" "a@example.org" "alice" "" ["user"] false false.
Definition demo_draws (tok fam jti : string) : draws := MkDraws tok fam jti (Ok "jwt").
Definition demo_start : auth_state := MkAuth (MkDb [] 1 [alice]) [].

Definition db_after {A} (m : fallible (A * auth_db)) (d : auth_db) : auth_db :=
  match m with Ok (_, d') => d' | Throw _ => d end.

(** Alice signs in: token t1 in family f1. *)
Definition demo_db1 : auth_db :=
  db_after (issueTokenPair 1000 alice (ScopeString "user") no_meta (demo_draws "t1" "f1" "j1")
              (st_db demo_start)) (st_db demo_start).
Definition demo_row1 : session :=
  MkSession 1 7 "f1" None "t1" "j1" ["user"] 1000 (2592001 * 1000) None None None None None None None.
(** Two tabs read t1 at once; the first of them rotates it to t2. *)
Definition demo_db2 : auth_db :=
  snd (refresh_write 2000 (PlanRotate demo_row1 alice) no_meta (demo_draws "t2" "x" "j2") demo_db1).

Definition demo_racing : auth_state :=
  MkAuth demo_db1 [(PlanRotate demo_row1 alice, no_meta); (PlanRotate demo_row1 alice, no_meta)].
Definition demo_rotated : auth_state :=
  MkAuth demo_db2 [(PlanRotate demo_row1 alice, no_meta)].

Lemma demo_racing_reachable : reachable auth_init auth_step demo_racing.
Proof.
  do 2 (eapply reachable_step; [|eapply (step_read 1500 (Some "t1")); vm_compute; reflexivity]).
  eapply reachable_step;
    [|eapply (step_issue 1000 alice (ScopeString "user") no_meta (demo_draws "t1" "f1" "j1")
         (st_db demo_start));
      [reflexivity|reflexivity|done|reflexivity|vm_compute; reflexivity]].
  apply reachable_init. by repeat split.
Defined.

Lemma demo_rotated_reachable : reachable auth_init auth_step demo_rotated.
Proof.
  eapply reachable_step; [apply demo_racing_reachable|].
  apply (step_write 2000 (PlanRotate demo_row1 alice) no_meta (demo_draws "t2" "x" "j2")
           demo_db1 [] _ _ _ (surjective_pairing _)).
Defined.

Lemma family_has_one_live_session_witness :
  one_live (db_sessions demo_db2) /\ length (db_sessions demo_db2) = 2%nat.
Proof.
  split; [|reflexivity].
  apply (family_has_one_live_session demo_rotated). apply demo_rotated_reachable.
Defined.

Definition demo_db2_dead : auth_db :=
  revoke_family_rows 3000 "f1" "refresh_token_replay_detected" demo_db2.

Lemma replay_ends_the_family_witness :
  refreshTokenPair 3000 (Some "t1") no_meta (demo_draws "t3" "x" "j3") demo_db2 =
    (Throw (UnauthorizedError "Refresh token replay detected"), demo_db2_dead) /\
  refresh_read 4000 (Some "t2") demo_db2_dead =
    Throw (AuthError "Refresh token has been revoked").
Proof.
  edestruct (replay_ends_the_family demo_rotated 3000 "t1" no_meta (demo_draws "t3" "x" "j3")
               (rotate_row 2000 2 demo_row1)) as [Hreplay Hdead];
    [apply demo_rotated_reachable|done|reflexivity|done|reflexivity|reflexivity|reflexivity|].
  split; [exact Hreplay|].
  eapply (Hdead (MkAuth demo_db2_dead (st_inflight demo_rotated)));
    [apply rtc_refl|done|reflexivity|reflexivity].
Defined.

Lemma refresh_token_is_single_use_witness :
  exists resp, refreshTokenPair 2000 (Some "t1") no_meta (demo_draws "t2" "x" "j2") demo_db1 =
                 (Ok resp, demo_db2) /\
  dead "f1" (snd (refreshTokenPair 2500 (Some "t1") no_meta (demo_draws "t3" "x" "j3") demo_db2)).
Proof.
  eexists. split; [vm_compute; reflexivity|].
  edestruct (refresh_token_is_single_use demo_racing 2000 "t1" no_meta
               (demo_draws "t2" "x" "j2")) as (_ & _ & Hdead);
    [apply demo_racing_reachable|vm_compute; reflexivity|].
  apply (Hdead 2500 no_meta (demo_draws "t3" "x" "j3")); [done|].
  vm_compute. by intros s [= <-].
Defined.

Lemma racing_refreshes_have_one_winner_witness :
  exists e, fst (refresh_write 2100 (PlanRotate demo_row1 alice) no_meta
                   (demo_draws "t3" "x" "j3") demo_db2) = Throw e.
Proof.
  eapply (racing_refreshes_have_one_winner demo_racing 2000 demo_row1 alice no_meta
            (demo_draws "t2" "x" "j2") _ demo_db2 []) with (st' := demo_rotated);
    [apply demo_racing_reachable|reflexivity|vm_compute; reflexivity|].
  apply rtc_refl.
Defined.

(** A second device of Alice's, family f9, signed out from the first. *)
Definition demo_db3 : auth_db :=
  db_after (issueTokenPair 2000 alice (ScopeString "user") no_meta (demo_draws "t9" "f9" "j9")
              demo_db2) demo_db2.

Lemma revoke_others_is_confined_witness :
  exists n d' log, revokeOthers 3000 (MkCaller 7 true (Some "t2")) demo_db3 = Ok (n, d', log) /\
    n = 1%nat /\
    (forall s, In s (db_sessions d') -> s_user_id s = 7 -> live s = true -> s_family_id s = "f1").
Proof.
  eexists _, _, _. split; [vm_compute; reflexivity|]. split; [reflexivity|].
  edestruct (revoke_others_is_confined 3000 (MkCaller 7 true (Some "t2")) demo_db3)
    as (cur & Hc & _ & Hlive & _); [vm_compute; reflexivity|].
  vm_compute in Hc. injection Hc as <-. exact Hlive.
Defined.
End DemoRun.
