(* ===== verification/Incidents.v ===== *)
(** Incident history of the host monitor: observations, daily and latency
    rollups, incidents, alarm mutes and the outbox of notification deliveries
    (src/backend/internal/incidents.js, first half; the delivery worker is in
    Deliveries.v).

    Instants are milliseconds since the epoch.  The tables hold them as ISO
    strings in UTC, whose order is the order of the instants; a day is
    [slice(0, 10)] of such a string, here the day number, and a latency bucket
    is the minute.  [isMuted], [recordCheck], [resetHost] and [removeHost] run
    inside the transaction of their caller, so each is one state function. *)

From S2P Require Import Prelude JsString Errors.
#[local] Open Scope string_scope.
#[local] Open Scope list_scope.
#[local] Open Scope Z_scope.

Definition DAY_MS : Z := 86400000.
Definition MINUTE_MS : Z := 60000.
Definition MAX_ATTEMPTS : Z := 5.

Definition day_of (t : Z) : Z := t / DAY_MS.
Definition day_start (d : Z) : Z := d * DAY_MS.
Definition bucket_of (t : Z) : Z := t / MINUTE_MS * MINUTE_MS.

(** ** Data *)

Inductive health : Type := Up | Down | Unknown.

Definition health_eqb (a b : health) : bool :=
  match a, b with
  | Up, Up | Down, Down | Unknown, Unknown => true
  | _, _ => false
  end.

(** The result of one check. *)
Record check_result : Type := MkResult {
  r_state : health;
  r_response_ms : option Z;
  r_status_code : option Z;
  r_message : option string
}.

Record observation : Type := MkObservation {
  o_host : Z;
  o_checked_at : Z;
  o_state : health;
  o_interval : Z
}.

Record daily : Type := MkDaily {
  d_host : Z;
  d_day : Z;
  d_up_ms : Z;
  d_down_ms : Z;
  d_checks : Z
}.

Record latency : Type := MkLatency {
  l_host : Z;
  l_bucket : Z;
  l_samples : Z;
  l_total_ms : Z;
  l_min_ms : Z;
  l_max_ms : Z
}.

Record incident : Type := MkIncident {
  i_id : Z;
  i_host : Z;
  i_opened_at : Z;
  i_last_seen_at : Z;
  i_resolved_at : option Z;
  i_resolution : option string;
  i_message : string;
  i_failure_count : Z
}.

Record mute : Type := MkMute {
  m_host : Z;
  m_starts_at : Z;
  m_ends_at : Z;
  m_reason : string
}.

Inductive channel : Type := Webhook | Ntfy | Discord.

Record target : Type := MkTarget {
  t_id : Z;
  t_owner : Z;
  t_name : string;
  t_type : channel;
  t_enabled : bool;
  t_host_ids : list Z;
  t_secret : string * string;
  t_version : Z
}.

Inductive event : Type := Opened | Resolved.

Record payload : Type := MkPayload {
  p_event : event;
  p_incident_id : Z;
  p_host_id : Z;
  p_state : health;
  p_message : string;
  p_checked_at : Z
}.

Inductive delivery_status : Type := Pending | Sending | Sent | Failed | Muted | Cancelled.

Record delivery : Type := MkDelivery {
  dl_id : Z;
  dl_target_id : Z;
  dl_incident_id : Z;
  dl_host_id : Z;
  dl_event : event;
  dl_payload : payload;
  dl_status : delivery_status;
  dl_attempts : Z;
  dl_next_attempt_at : Z;
  dl_created_on : Z;
  dl_last_error : option string;
  dl_sent_at : option Z
}.

(** The columns of [proxy_host] that the incident code reads. *)
Record host_row : Type := MkHost {
  h_id : Z;
  h_owner : Z;
  h_enabled : bool;
  h_is_deleted : bool
}.

(** The columns of the monitor configuration that [recordCheck] reads. *)
Record check_config : Type := MkConfig {
  c_interval_seconds : Z;
  c_alert_enabled : bool
}.

Record store : Type := MkStore {
  observations : list observation;
  dailies : list daily;
  latencies : list latency;
  incidents : list incident;
  mutes : list mute;
  targets : list target;
  deliveries : list delivery;
  next_incident : Z;
  next_target : Z;
  next_delivery : Z
}.

Definition set_observations v (s : store) : store :=
  MkStore v (dailies s) (latencies s) (incidents s) (mutes s) (targets s) (deliveries s)
    (next_incident s) (next_target s) (next_delivery s).
Definition set_dailies v (s : store) : store :=
  MkStore (observations s) v (latencies s) (incidents s) (mutes s) (targets s) (deliveries s)
    (next_incident s) (next_target s) (next_delivery s).
Definition set_latencies v (s : store) : store :=
  MkStore (observations s) (dailies s) v (incidents s) (mutes s) (targets s) (deliveries s)
    (next_incident s) (next_target s) (next_delivery s).
Definition set_incidents v n (s : store) : store :=
  MkStore (observations s) (dailies s) (latencies s) v (mutes s) (targets s) (deliveries s)
    n (next_target s) (next_delivery s).
Definition set_mutes v (s : store) : store :=
  MkStore (observations s) (dailies s) (latencies s) (incidents s) v (targets s) (deliveries s)
    (next_incident s) (next_target s) (next_delivery s).
Definition set_targets v n (s : store) : store :=
  MkStore (observations s) (dailies s) (latencies s) (incidents s) (mutes s) v (deliveries s)
    (next_incident s) n (next_delivery s).
Definition set_deliveries v n (s : store) : store :=
  MkStore (observations s) (dailies s) (latencies s) (incidents s) (mutes s) (targets s) v
    (next_incident s) (next_target s) n.

(** ** Operations *)

(** [text(value, max)]: control characters become blanks, then trim and cut. *)
Definition text (value : option string) (max : nat) : string :=
  match value with
  | Some v => take_str max (trim (smap (fun c => if is_control c then " "%char else c) v))
  | None => ""
  end.

Definition of_host (h : Z) (o : observation) : bool := o_host o =? h.

Definition getMute (hostId : Z) (s : store) : option mute :=
  first_where (fun m => m_host m =? hostId) (mutes s).

Definition isMuted (hostId checkedAt : Z) (s : store) : bool :=
  match getMute hostId s with
  | Some m => (m_starts_at m <=? checkedAt) && (checkedAt <? m_ends_at m)
  | None => false
  end.

Definition is_day (hostId day : Z) (r : daily) : bool := (d_host r =? hostId) && (d_day r =? day).

(** Milliseconds and checks to add to a day; absent fields count as zero. *)
Record day_patch : Type := MkDayPatch { dp_up_ms : Z; dp_down_ms : Z; dp_checks : Z }.

Definition add_patch (p : day_patch) (r : daily) : daily :=
  MkDaily (d_host r) (d_day r) (d_up_ms r + dp_up_ms p) (d_down_ms r + dp_down_ms p)
    (d_checks r + dp_checks p).

Definition addDaily (hostId day : Z) (p : day_patch) (t : list daily) : list daily :=
  match first_where (is_day hostId day) t with
  | Some _ => patch_where (is_day hostId day) (add_patch p) t
  | None => t ++ [MkDaily hostId day (dp_up_ms p) (dp_down_ms p) (dp_checks p)]
  end.

Definition state_patch (st : health) (ms : Z) : day_patch :=
  match st with
  | Up => MkDayPatch ms 0 0
  | Down => MkDayPatch 0 ms 0
  | Unknown => MkDayPatch 0 0 0
  end.

(** The loop that cuts an interval at day boundaries.  Every round but the
    last ends at a midnight, so [days spanned + 1] rounds are enough. *)
Fixpoint attribute_loop (fuel : nat) (hostId : Z) (st : health) (start stop : Z)
    (t : list daily) : list daily :=
  match fuel with
  | O => t
  | S fuel' =>
      if start <? stop then
        let day := day_of start in
        let boundary := Z.min stop (day_start day + DAY_MS) in
        attribute_loop fuel' hostId st boundary stop
          (addDaily hostId day (state_patch st (boundary - start)) t)
      else t
  end.

Definition attribute_fuel (start stop : Z) : nat := Z.to_nat (day_of stop - day_of start + 1).

Definition attribute_interval (hostId : Z) (st : health) (start stop : Z) (t : list daily)
    : list daily :=
  attribute_loop (attribute_fuel start stop) hostId st start stop t.

Definition bucket_row (hostId bucket : Z) (r : latency) : bool :=
  (l_host r =? hostId) && (l_bucket r =? bucket).

Definition add_sample (v : Z) (r : latency) : latency :=
  MkLatency (l_host r) (l_bucket r) (l_samples r + 1) (l_total_ms r + v)
    (Z.min (l_min_ms r) v) (Z.max (l_max_ms r) v).

Definition record_latency (hostId checkedAt : Z) (r : check_result) (t : list latency)
    : list latency :=
  match r_state r, r_response_ms r with
  | Up, Some ms =>
      let bucket := bucket_of checkedAt in
      let value := Z.max 0 ms in
      match first_where (bucket_row hostId bucket) t with
      | Some _ => patch_where (bucket_row hostId bucket) (add_sample value) t
      | None => t ++ [MkLatency hostId bucket 1 value value value]
      end
  | _, _ => t
  end.

(** [enqueue]: one outbox row per enabled target of the host's owner that
    subscribes to the host (or to every host), at most 100 targets. *)
Definition subscribes (host : host_row) (t : target) : bool :=
  bool_decide (t_host_ids t = []) || existsb (Z.eqb (h_id host)) (t_host_ids t).

Definition owner_targets (host : host_row) (ts : list target) : list target :=
  firstn 100 (select_where (fun t => (t_owner t =? h_owner host) && t_enabled t) ts).

Definition new_delivery (host : host_row) (incidentId : Z) (ev : event) (r : check_result)
    (checkedAt : Z) (muted : bool) (t : target) (id : Z) : delivery :=
  MkDelivery id (t_id t) incidentId (h_id host) ev
    (MkPayload ev incidentId (h_id host) (r_state r) (text (r_message r) 255) checkedAt)
    (if muted then Muted else Pending) 0 checkedAt checkedAt
    (if muted then Some "Suppressed by scheduled alarm mute" else None) None.

Fixpoint insert_deliveries (mk : target -> Z -> delivery) (ts : list target) (id : Z)
    (t : list delivery) : list delivery * Z :=
  match ts with
  | [] => (t, id)
  | x :: ts' => insert_deliveries mk ts' (id + 1) (t ++ [mk x id])
  end.

Definition enqueue (host : host_row) (config : check_config) (incidentId : Z) (ev : event)
    (r : check_result) (checkedAt : Z) (muted : bool) (s : store) : store :=
  if c_alert_enabled config then
    let '(t, n) := insert_deliveries (new_delivery host incidentId ev r checkedAt muted)
                     (List.filter (subscribes host) (owner_targets host (targets s)))
                     (next_delivery s) (deliveries s) in
    set_deliveries t n s
  else s.

Definition open_incident (hostId : Z) (i : incident) : bool :=
  (i_host i =? hostId) && match i_resolved_at i with None => true | Some _ => false end.

Definition seen_again (checkedAt : Z) (r : check_result) (i : incident) : incident :=
  MkIncident (i_id i) (i_host i) (i_opened_at i) checkedAt (i_resolved_at i) (i_resolution i)
    (text (r_message r) 255) (i_failure_count i + 1).

Definition resolve (at_ : Z) (seen : option Z) (how : string) (i : incident) : incident :=
  MkIncident (i_id i) (i_host i) (i_opened_at i) (default (i_last_seen_at i) seen) (Some at_)
    (Some how) (i_message i) (i_failure_count i).

Definition has_id (id : Z) (i : incident) : bool := i_id i =? id.

(** The incident part of [recordCheck]. *)
Definition record_incident (host : host_row) (config : check_config) (r : check_result)
    (checkedAt : Z) (muted : bool) (s : store) : store :=
  let open_ := first_where (open_incident (h_id host)) (incidents s) in
  match r_state r, open_ with
  | Down, Some i =>
      set_incidents (patch_where (has_id (i_id i)) (seen_again checkedAt r) (incidents s))
        (next_incident s) s
  | Down, None =>
      let id := next_incident s in
      enqueue host config id Opened r checkedAt muted
        (set_incidents (incidents s ++ [MkIncident id (h_id host) checkedAt checkedAt None None
                                          (text (r_message r) 255) 1]) (id + 1) s)
  | Up, Some i =>
      enqueue host config (i_id i) Resolved r checkedAt muted
        (set_incidents (patch_where (has_id (i_id i))
                          (resolve checkedAt (Some checkedAt) "recovered") (incidents s))
           (next_incident s) s)
  | _, _ => s
  end.

Definition put_observation (o : observation) (t : list observation) : list observation :=
  match first_where (of_host (o_host o)) t with
  | Some _ => patch_where (of_host (o_host o)) (fun _ => o) t
  | None => t ++ [o]
  end.

(** How long the previous observation still counts. *)
Definition counted_until (checkedAt : Z) (prev : observation) : Z :=
  Z.min checkedAt (o_checked_at prev + o_interval prev * 1000).

Definition recordCheck (host : host_row) (config : check_config) (r : check_result)
    (checkedAt : Z) (muted : bool) (s : store) : store :=
  let previous := first_where (of_host (h_id host)) (observations s) in
  if match previous with Some p => checkedAt <=? o_checked_at p | None => false end then s
  else
    let t1 := match previous with
              | Some p =>
                  match o_state p with
                  | Unknown => dailies s
                  | st => attribute_interval (h_id host) st (o_checked_at p)
                            (counted_until checkedAt p) (dailies s)
                  end
              | None => dailies s
              end in
    let t2 := addDaily (h_id host) (day_of checkedAt) (MkDayPatch 0 0 1) t1 in
    let s1 := set_latencies (record_latency (h_id host) checkedAt r (latencies s))
                (set_dailies t2 s) in
    let s2 := set_observations
                (put_observation (MkObservation (h_id host) checkedAt (r_state r)
                                    (c_interval_seconds config)) (observations s1)) s1 in
    record_incident host config r checkedAt muted s2.

Definition resetHost (now hostId : Z) (s : store) : store :=
  let s1 := set_observations (delete_where (of_host hostId) (observations s)) s in
  set_incidents (patch_where (open_incident hostId) (resolve now None "monitor_changed")
                   (incidents s1)) (next_incident s1) s1.

Definition removeHost (hostId : Z) (s : store) : store :=
  MkStore (delete_where (of_host hostId) (observations s))
    (delete_where (fun r => d_host r =? hostId) (dailies s))
    (delete_where (fun r => l_host r =? hostId) (latencies s))
    (delete_where (fun i => i_host i =? hostId) (incidents s))
    (delete_where (fun m => m_host m =? hostId) (mutes s))
    (targets s)
    (delete_where (fun d => dl_host_id d =? hostId) (deliveries s))
    (next_incident s) (next_target s) (next_delivery s).

(** ** Reads and settings behind the access check *)

(** The caller: the user id of the token (default 1), what
    [access.can("proxy_hosts:<operation>")] grants, and whether it may see
    every host ([true] or visibility "all"). *)
Record viewer : Type := MkViewer {
  v_user_id : Z;
  v_can : string -> bool;
  v_all : bool
}.

Definition MAX_SAFE : Z := 9007199254740991.

Definition idNumber (value : Z) : fallible Z :=
  throw ValidationError "Invalid identifier" when (negb ((value <=? MAX_SAFE) && (0 <? value))) ;;
  Ok value.

Definition getHost (v : viewer) (hostId : Z) (operation : string) (hosts : list host_row)
    : fallible host_row :=
  let? id := idNumber hostId in
  throw PermissionError "Permission Denied" when (negb (v_can v operation)) ;;
  match first_where (fun h => (h_id h =? id) && negb (h_is_deleted h)
                              && (v_all v || (h_owner h =? v_user_id v))) hosts with
  | Some h => Ok h
  | None => Throw (ItemNotFoundError (Some id))
  end.

(** One day of the history; [coverage_percent] is [known / duration * 100] and
    [uptime_percent] is [up / known * 100] when the divisor is not zero. *)
Record day_report : Type := MkDayReport {
  dr_day : Z;
  dr_up_ms : Z;
  dr_down_ms : Z;
  dr_unknown_ms : Z;
  dr_duration : Z;
  dr_checks : Z
}.

(** What the running observation adds to the day that starts at [date]. *)
Definition running_ms (host : host_row) (o : option observation) (now date : Z) : day_patch :=
  match o with
  | Some o =>
      let start := Z.max date (o_checked_at o) in
      let stop := Z.min (Z.min now (date + DAY_MS)) (o_checked_at o + o_interval o * 1000) in
      if h_enabled host && (start <? stop) then state_patch (o_state o) (stop - start)
      else MkDayPatch 0 0 0
  | None => MkDayPatch 0 0 0
  end.

Definition day_report_of (host : host_row) (now day : Z) (s : store) : day_report :=
  let date := day_start day in
  let row := first_where (is_day (h_id host) day) (dailies s) in
  let duration := Z.max 0 (Z.min DAY_MS (now - date)) in
  let extra := running_ms host (first_where (of_host (h_id host)) (observations s)) now date in
  let up := match row with Some r => d_up_ms r | None => 0 end + dp_up_ms extra in
  let down := match row with Some r => d_down_ms r | None => 0 end + dp_down_ms extra in
  MkDayReport day up down (Z.max 0 (duration - (up + down))) duration
    (match row with Some r => d_checks r | None => 0 end).

Definition hostDetail (v : viewer) (now hostId days : Z) (hosts : list host_row) (s : store)
    : fallible (list day_report) :=
  let? host := getHost v hostId "get" hosts in
  throw ValidationError "Days must be from 1 to 365" when ((days <? 1) || (365 <? days)) ;;
  let today := day_of now in
  let first := today - (days - 1) in
  Ok (map (fun i => day_report_of host now (first + Z.of_nat i) s) (seq 0 (Z.to_nat days))).

(** A mute window as requested; [None] is a date that does not parse. *)
Record mute_request : Type := MkMuteRequest {
  mr_starts_at : option Z;
  mr_ends_at : option Z;
  mr_reason : option string
}.

Definition setMute (v : viewer) (now hostId : Z) (data : option mute_request)
    (hosts : list host_row) (s : store) : fallible (option mute * store) :=
  let? host := getHost v hostId "update" hosts in
  match data with
  | None =>
      Ok (None, set_mutes (delete_where (fun m => m_host m =? h_id host) (mutes s)) s)
  | Some d =>
      match mr_starts_at d, mr_ends_at d with
      | Some starts, Some ends =>
          throw ValidationError "Provide a future alarm mute window, at most 366 days"
            when ((ends <=? starts) || (366 * DAY_MS <? ends - starts) || (ends <=? now)) ;;
          let m := MkMute (h_id host) starts ends (text (mr_reason d) 255) in
          Ok (Some m,
              set_mutes (match getMute (h_id host) s with
                         | Some _ => patch_where (fun x => m_host x =? h_id host) (fun _ => m)
                                       (mutes s)
                         | None => mutes s ++ [m]
                         end) s)
      | _, _ =>
          Throw (ValidationError "Provide a future alarm mute window, at most 366 days")
      end
  end.

(** ** The history as a machine *)

(** The store, and per host the instant of its last accepted check.  Checks of
    one host are accepted in the order of their instants (one check per host
    runs at a time); checks of different hosts may be committed in any order. *)
Record history : Type := MkHistory { hs_store : store; hs_clock : Z -> Z }.

Definition tick_clock (clk : Z -> Z) (h t : Z) : Z -> Z :=
  fun x => if x =? h then Z.max (clk x) t else clk x.

Inductive history_step : history -> history -> Prop :=
| hist_check host config r at_ muted s clk :
    clk (h_id host) <= at_ -> 0 <= c_interval_seconds config ->
    history_step (MkHistory s clk)
      (MkHistory (recordCheck host config r at_ muted s) (tick_clock clk (h_id host) at_))
| hist_reset now hostId s clk :
    history_step (MkHistory s clk) (MkHistory (resetHost now hostId s) clk)
| hist_remove hostId s clk :
    history_step (MkHistory s clk) (MkHistory (removeHost hostId s) clk)
| hist_mute v now hostId data hosts s clk m s' :
    setMute v now hostId data hosts s = Ok (m, s') ->
    history_step (MkHistory s clk) (MkHistory s' clk)
| hist_outbox s clk t n tt m :
    history_step (MkHistory s clk) (MkHistory (set_targets tt m (set_deliveries t n s)) clk).

Definition history_init (h : history) : Prop :=
  observations (hs_store h) = [] /\ dailies (hs_store h) = [] /\ incidents (hs_store h) = [].

(** ** Day accounting *)

(** How much of a day has passed at an instant. *)
Definition elapsed (day t : Z) : Z := Z.max 0 (Z.min DAY_MS (t - day_start day)).

Definition day_key (r : daily) : Z * Z := (d_host r, d_day r).

Definition within (h t : Z) (rows : list daily) : Prop :=
  forall r, In r rows -> d_host r = h ->
    0 <= d_up_ms r /\ 0 <= d_down_ms r /\ d_up_ms r + d_down_ms r <= elapsed (d_day r) t.

Lemma elapsed_mono day t t' : t <= t' -> elapsed day t <= elapsed day t'.
Proof. unfold elapsed. lia. Qed.

Lemma within_mono h t t' rows : t <= t' -> within h t rows -> within h t' rows.
Proof.
  intros Ht Hw r Hr Hh. destruct (Hw r Hr Hh) as (? & ? & ?).
  pose proof (elapsed_mono (d_day r) t t' Ht). lia.
Qed.

Lemma day_bounds t : day_start (day_of t) <= t < day_start (day_of t) + DAY_MS.
Proof. unfold day_start, day_of, DAY_MS. pose proof (Z.div_mod t 86400000). pose proof (Z.mod_pos_bound t 86400000). lia. Qed.

Lemma is_day_spec h d r : is_day h d r = true <-> d_host r = h /\ d_day r = d.
Proof. unfold is_day. rewrite andb_true_iff, !Z.eqb_eq. done. Qed.

Lemma in_addDaily h d p t r :
  In r (addDaily h d p t) ->
  In r t \/ (exists r0, In r0 t /\ is_day h d r0 = true /\ r = add_patch p r0) \/
  r = MkDaily h d (dp_up_ms p) (dp_down_ms p) (dp_checks p).
Proof.
  unfold addDaily. destruct (first_where _ t).
  - rewrite in_patch. intros [?|[? _]]; auto.
  - intros [?|[<-|[]]]%in_app_or; auto.
Qed.

Lemma addDaily_keys h d p t :
  List.NoDup (map day_key t) -> List.NoDup (map day_key (addDaily h d p t)).
Proof.
  intros Hnd. unfold addDaily. destruct (first_where _ t) eqn:E.
  - by rewrite map_patch.
  - apply key_fresh_app; [done|]. intros (r & [= Hh Hd] & Hin)%in_map_iff.
    eapply first_where_None in E; [|done]. apply not_true_iff_false in E. apply E.
    by apply is_day_spec.
Qed.

Lemma within_addDaily_other h h' d p t rows :
  h <> h' -> within h t rows -> within h t (addDaily h' d p rows).
Proof.
  intros Hne Hw r [Hr|[(r0 & Hr & Hd & ->)| ->]]%in_addDaily Hh; simpl in *; [auto| |congruence].
  apply is_day_spec in Hd as [? _]. congruence.
Qed.

(** One piece of an interval, inside its day. *)
Lemma within_piece h st start b rows :
  start < b -> b <= day_start (day_of start) + DAY_MS -> within h start rows ->
  within h b (addDaily h (day_of start) (state_patch st (b - start)) rows).
Proof.
  intros Hlt Hb Hw. pose proof (day_bounds start) as Hd.
  assert (elapsed (day_of start) start = start - day_start (day_of start)) as E1
    by (unfold elapsed; lia).
  assert (elapsed (day_of start) b = b - day_start (day_of start)) as E2
    by (unfold elapsed; lia).
  assert (within h b rows) as Hwb by (eapply within_mono; [|done]; lia).
  intros r [Hr|[(r0 & Hr & Hday & ->)| ->]]%in_addDaily Hh; [by apply Hwb| |].
  - apply is_day_spec in Hday as [? Ed]. simpl in *. destruct (Hw r0 Hr) as (? & ? & ?); [done|].
    rewrite Ed in *. destruct st; simpl; lia.
  - simpl in *. destruct st; simpl; lia.
Qed.

Lemma attribute_loop_within fuel h st start stop rows :
  start <= stop -> within h start rows ->
  within h stop (attribute_loop fuel h st start stop rows).
Proof.
  revert start rows. induction fuel as [|fuel IH]; intros start rows Hle Hw; simpl.
  - by eapply within_mono.
  - destruct (start <? stop) eqn:E; boolify; [|by eapply within_mono].
    pose proof (day_bounds start). apply IH; [lia|]. apply within_piece; [lia|lia|done].
Qed.

Lemma attribute_loop_other fuel h h' st start stop t rows :
  h <> h' -> within h t rows -> within h t (attribute_loop fuel h' st start stop rows).
Proof.
  intros Hne. revert start rows. induction fuel as [|fuel IH]; intros start rows Hw; simpl; [done|].
  destruct (start <? stop); [|done]. apply IH. by apply within_addDaily_other.
Qed.

Lemma attribute_loop_keys fuel h st start stop rows :
  List.NoDup (map day_key rows) ->
  List.NoDup (map day_key (attribute_loop fuel h st start stop rows)).
Proof.
  revert start rows. induction fuel as [|fuel IH]; intros start rows Hw; simpl; [done|].
  destruct (start <? stop); [|done]. apply IH. by apply addDaily_keys.
Qed.

(** *** Totals *)

Section Totals.
Context (sel : daily -> Z) (selp : day_patch -> Z).
Hypothesis sel_add : forall p r, sel (add_patch p r) = sel r + selp p.
Hypothesis sel_new : forall h d p, sel (MkDaily h d (dp_up_ms p) (dp_down_ms p) (dp_checks p)) = selp p.

Fixpoint total (h : Z) (t : list daily) : Z :=
  match t with
  | [] => 0
  | r :: t' => (if d_host r =? h then sel r else 0) + total h t'
  end.

Lemma total_app h t u : total h (t ++ u) = total h t + total h u.
Proof. induction t as [|r t IH]; simpl; [done|]. rewrite IH. lia. Qed.

Lemma total_patch_one h d p t :
  List.NoDup (map day_key t) -> (exists r, In r t /\ is_day h d r = true) ->
  total h (patch_where (is_day h d) (add_patch p) t) = total h t + selp p.
Proof.
  induction t as [|x t IH]; intros Hnd (r & Hr & Hd); [done|]. simpl in *.
  inversion Hnd as [|? ? Hx Hnd']; subst. destruct (is_day h d x) eqn:Ex.
  - rewrite patch_where_none.
    + apply is_day_spec in Ex as [Eh _]. simpl. rewrite Eh, Z.eqb_refl, sel_add. lia.
    + intros y Hy. apply not_true_iff_false. intros Hyd. apply Hx.
      apply is_day_spec in Ex as [? ?], Hyd as [? ?]. apply in_map_iff. exists y.
      split; [unfold day_key; congruence|done].
  - destruct Hr as [->|Hr]; [congruence|]. simpl.
    fold (patch_where (is_day h d) (add_patch p) t). rewrite IH; [lia|done|eauto].
Qed.

Lemma addDaily_total h d p t :
  List.NoDup (map day_key t) -> total h (addDaily h d p t) = total h t + selp p.
Proof.
  intros Hnd. unfold addDaily. destruct (first_where _ t) eqn:E.
  - apply first_where_Some in E. apply total_patch_one; eauto.
  - rewrite total_app. simpl. rewrite sel_new, Z.eqb_refl. lia.
Qed.

Lemma attribute_stopped fuel h st stop t : attribute_loop fuel h st stop stop t = t.
Proof. destruct fuel; simpl; [done|]. by rewrite Z.ltb_irrefl. Qed.

Lemma day_of_next d : day_of (day_start d + DAY_MS) = d + 1.
Proof. unfold day_of, day_start, DAY_MS. rewrite <- Z.mul_succ_l. apply Z.div_mul. lia. Qed.

Lemma day_of_mono t t' : t <= t' -> day_of t <= day_of t'.
Proof. intros. unfold day_of, DAY_MS. apply Z.div_le_mono; lia. Qed.

Lemma attribute_loop_total fuel h st start stop t (c : Z) :
  (forall ms, selp (state_patch st ms) = c * ms) ->
  List.NoDup (map day_key t) -> start <= stop ->
  (attribute_fuel start stop <= fuel)%nat ->
  total h (attribute_loop fuel h st start stop t) = total h t + c * (stop - start).
Proof.
  intros Hc. revert start t. induction fuel as [|fuel IH]; intros start t Hnd Hle Hf.
  - unfold attribute_fuel in Hf. pose proof (day_of_mono _ _ Hle). lia.
  - simpl. destruct (start <? stop) eqn:E; boolify; [|replace stop with start by lia; lia].
    destruct (Z.min_spec stop (day_start (day_of start) + DAY_MS)) as [[? ->]|[? ->]].
    + rewrite attribute_stopped, addDaily_total, Hc by done. lia.
    + rewrite IH; [|by apply addDaily_keys|lia|].
      * rewrite addDaily_total, Hc by done. lia.
      * unfold attribute_fuel in *. rewrite day_of_next. pose proof (day_of_mono _ _ Hle). lia.
Qed.
End Totals.

(** *** The invariant of the history *)

(** At most one incident per host stays open. *)
Definition one_open (t : list incident) : Prop :=
  forall i j, In i t -> In j t -> i_host i = i_host j ->
    i_resolved_at i = None -> i_resolved_at j = None -> i = j.

Record history_inv (hs : history) : Prop := {
  hi_days : List.NoDup (map day_key (dailies (hs_store hs)));
  hi_obs : List.NoDup (map o_host (observations (hs_store hs)));
  hi_obs_clock : forall o, In o (observations (hs_store hs)) ->
    o_checked_at o <= hs_clock hs (o_host o) /\ 0 <= o_interval o /\
    within (o_host o) (o_checked_at o) (dailies (hs_store hs));
  hi_within : forall h, within h (hs_clock hs h) (dailies (hs_store hs));
  hi_open : one_open (incidents (hs_store hs))
}.

Lemma open_incident_spec h i :
  open_incident h i = true <-> i_host i = h /\ i_resolved_at i = None.
Proof. unfold open_incident. rewrite andb_true_iff, Z.eqb_eq. destruct (i_resolved_at i); intuition congruence. Qed.

(** [enqueue] writes deliveries only. *)
Lemma enqueue_frame host config id ev r at_ muted s :
  let s' := enqueue host config id ev r at_ muted s in
  observations s' = observations s /\ dailies s' = dailies s /\ latencies s' = latencies s /\
  incidents s' = incidents s /\ mutes s' = mutes s /\ targets s' = targets s /\
  next_incident s' = next_incident s.
Proof.
  unfold enqueue. destruct (c_alert_enabled config); [|done].
  by destruct (insert_deliveries _ _ _ _).
Qed.

Lemma record_incident_frame host config r at_ muted s :
  let s' := record_incident host config r at_ muted s in
  observations s' = observations s /\ dailies s' = dailies s /\ latencies s' = latencies s /\
  mutes s' = mutes s /\ targets s' = targets s.
Proof.
  unfold record_incident.
  destruct (r_state r), (first_where (open_incident (h_id host)) (incidents s)); try done;
    match goal with |- context [enqueue ?a ?b ?c ?d ?e ?f ?g ?s0] =>
      destruct (enqueue_frame a b c d e f g s0) as (? & ? & ? & ? & ? & ? & ?) end;
    simpl in *; split_and!; congruence.
Qed.

Lemma one_open_patch p f t :
  (forall i, i_host (f i) = i_host i) ->
  (forall i, i_resolved_at (f i) <> None) ->
  one_open t -> one_open (patch_where p f t).
Proof.
  intros Hh Hr Ho i j Hi Hj Hij Ri Rj. rewrite in_patch in Hi, Hj.
  destruct Hi as [(i0 & _ & _ & ->)|[Hi _]]; [by destruct (Hr i0)|].
  destruct Hj as [(j0 & _ & _ & ->)|[Hj _]]; [by destruct (Hr j0)|].
  by apply Ho.
Qed.

Lemma one_open_seen at_ r x t :
  one_open t -> In x t -> i_resolved_at x = None ->
  one_open (patch_where (has_id (i_id x)) (seen_again at_ r) t).
Proof.
  intros Ho Hx Rx i j Hi Hj Hij Ri Rj. rewrite in_patch in Hi, Hj.
  assert (forall k k0, In k0 t -> has_id (i_id x) k0 = true -> k = seen_again at_ r k0 ->
            i_resolved_at k = None -> i_resolved_at k0 = None) as Hres
    by (intros k k0 _ _ ->; done).
  destruct Hi as [(i0 & Hi & Pi & Ei)|[Hi Pi]], Hj as [(j0 & Hj & Pj & Ej)|[Hj Pj]]; subst; simpl in *.
  - by rewrite (Ho i0 j0).
  - rewrite (Ho i0 j) in Pi by done. congruence.
  - rewrite (Ho i j0) in Pi by done. congruence.
  - by apply Ho.
Qed.

Lemma record_incident_open host config r at_ muted s :
  one_open (incidents s) -> one_open (incidents (record_incident host config r at_ muted s)).
Proof.
  intros Ho. unfold record_incident.
  destruct (r_state r), (first_where (open_incident (h_id host)) (incidents s)) as [x|] eqn:E; try done.
  - rewrite (proj1 (proj2 (proj2 (proj2 (enqueue_frame _ _ _ _ _ _ _ _))))). simpl.
    by apply one_open_patch.
  - simpl. apply first_where_Some in E as [Hx Hop]. apply open_incident_spec in Hop as [_ Rx].
    by apply one_open_seen.
  - rewrite (proj1 (proj2 (proj2 (proj2 (enqueue_frame _ _ _ _ _ _ _ _))))). simpl.
    intros i j Hi Hj Hij Ri Rj.
    assert (forall k, In k (incidents s) -> i_resolved_at k = None -> i_host k <> h_id host) as Hno.
    { intros k Hk Rk Hkh. eapply first_where_None in E; [|done].
      apply not_true_iff_false in E. apply E. by apply open_incident_spec. }
    apply in_app_or in Hi as [Hi|[<-|[]]]; apply in_app_or in Hj as [Hj|[<-|[]]];
      simpl in *; [by apply Ho| | |done].
    + by destruct (Hno i).
    + by destruct (Hno j).
Qed.

(** Counting a check leaves the accounted time alone. *)
Lemma within_count h h' d t rows :
  within h t rows -> within h t (addDaily h' d (MkDayPatch 0 0 1) rows).
Proof.
  intros Hw r [Hr|[(r0 & Hr & _ & ->)| ->]]%in_addDaily Hh; [by apply Hw| |].
  - simpl in *. destruct (Hw r0 Hr Hh) as (? & ? & ?). rewrite !Z.add_0_r. done.
  - simpl. unfold elapsed. lia.
Qed.

Lemma put_observation_hosts o t :
  List.NoDup (map o_host t) -> List.NoDup (map o_host (put_observation o t)).
Proof.
  intros Hnd. unfold put_observation. destruct (first_where _ t) eqn:E.
  - replace (map o_host (patch_where _ _ t)) with (map o_host t); [done|].
    unfold patch_where. rewrite map_map. apply map_ext_in. intros x _.
    destruct (of_host (o_host o) x) eqn:Ex; [|done]. unfold of_host in Ex. by boolify.
  - apply key_fresh_app; [done|]. intros (x & Hx & Hin)%in_map_iff.
    eapply first_where_None in E; [|done]. unfold of_host in E. by boolify.
Qed.

Lemma in_put_observation o t x :
  In x (put_observation o t) -> x = o \/ (In x t /\ o_host x <> o_host o).
Proof.
  unfold put_observation. destruct (first_where _ t) eqn:E.
  - rewrite in_patch. intros [(x0 & _ & _ & ->)|[Hx Hp]]; [by left|right].
    unfold of_host in Hp. by boolify.
  - intros [Hx|[<-|[]]]%in_app_or; [right|by left]. split; [done|].
    eapply first_where_None in E; [|done]. unfold of_host in E. by boolify.
Qed.

(** The instant up to which a host's time is accounted once a check is
    accepted. *)
Definition settled (h checkedAt : Z) (previous : option observation) (t : list daily)
    : list daily :=
  match previous with
  | Some p =>
      match o_state p with
      | Unknown => t
      | st => attribute_interval h st (o_checked_at p) (counted_until checkedAt p) t
      end
  | None => t
  end.

Lemma settled_within h checkedAt previous t0 t :
  match previous with
  | Some p => o_checked_at p < checkedAt /\ 0 <= o_interval p /\ within h (o_checked_at p) t
  | None => t0 <= checkedAt /\ within h t0 t
  end -> within h checkedAt (settled h checkedAt previous t).
Proof.
  destruct previous as [p|]; simpl.
  - intros (Hlt & Hi & Hw). unfold counted_until.
    assert (within h checkedAt t) by (eapply within_mono; [|done]; lia).
    destruct (o_state p); [| |done];
      (eapply within_mono; [|apply attribute_loop_within; [|done]]; lia).
  - intros [Hle Hw]. by eapply within_mono.
Qed.

Lemma settled_other h h' checkedAt previous t0 t :
  h <> h' -> within h t0 t -> within h t0 (settled h' checkedAt previous t).
Proof.
  intros Hne Hw. destruct previous as [p|]; simpl; [|done].
  destruct (o_state p); [| |done]; by apply attribute_loop_other.
Qed.

Lemma settled_keys h checkedAt previous t :
  List.NoDup (map day_key t) -> List.NoDup (map day_key (settled h checkedAt previous t)).
Proof.
  intros Hnd. destruct previous as [p|]; simpl; [|done].
  destruct (o_state p); [| |done]; by apply attribute_loop_keys.
Qed.

(** What an accepted check does to the tables of the history. *)
Lemma recordCheck_tables host config r at_ muted s :
  let previous := first_where (of_host (h_id host)) (observations s) in
  match previous with Some p => at_ <=? o_checked_at p | None => false end = false ->
  let s' := recordCheck host config r at_ muted s in
  dailies s' = addDaily (h_id host) (day_of at_) (MkDayPatch 0 0 1)
                 (settled (h_id host) at_ previous (dailies s)) /\
  observations s' = put_observation (MkObservation (h_id host) at_ (r_state r)
                      (c_interval_seconds config)) (observations s) /\
  exists s0, incidents s0 = incidents s /\ deliveries s0 = deliveries s /\
             targets s0 = targets s /\ next_incident s0 = next_incident s /\
             s' = record_incident host config r at_ muted s0.
Proof.
  intros previous Hfresh. unfold recordCheck. fold previous. rewrite Hfresh. simpl.
  match goal with |- context [record_incident ?a ?b ?c ?d ?e ?s0] =>
    destruct (record_incident_frame a b c d e s0) as (Ho & Hd & _) end.
  simpl in Ho, Hd. split_and!; [by rewrite Hd|by rewrite Ho|]. eexists. split_and!; [| | | |reflexivity]; done.
Qed.

Lemma recordCheck_inv host config r at_ muted s clk :
  clk (h_id host) <= at_ -> 0 <= c_interval_seconds config ->
  history_inv (MkHistory s clk) ->
  history_inv (MkHistory (recordCheck host config r at_ muted s) (tick_clock clk (h_id host) at_)).
Proof.
  intros Hclk Hint [Hk Ho Hc Hw Hone]. simpl in *.
  assert (forall h, clk h <= tick_clock clk (h_id host) at_ h) as Hmono
    by (intros h; unfold tick_clock; destruct (h =? h_id host); lia).
  destruct (match first_where (of_host (h_id host)) (observations s) with
            | Some p => at_ <=? o_checked_at p | None => false end) eqn:Hfresh.
  { unfold recordCheck. rewrite Hfresh. constructor; simpl; try done.
    - intros o Hin. destruct (Hc o Hin) as (? & ? & ?). specialize (Hmono (o_host o)).
      split_and!; [lia|done|done].
    - intros h. eapply within_mono; [apply Hmono|apply Hw]. }
  destruct (recordCheck_tables host config r at_ muted s Hfresh) as (Hd & Hob & s0 & Hi0 & _ & _ & _ & Hs').
  set (previous := first_where (of_host (h_id host)) (observations s)) in *.
  assert (within (h_id host) at_ (settled (h_id host) at_ previous (dailies s))) as Hself.
  { apply (settled_within _ _ _ (clk (h_id host))). destruct previous as [p|] eqn:Ep.
    - apply first_where_Some in Ep as [Hin Hh]. unfold of_host in Hh. boolify.
      destruct (Hc p Hin) as (? & ? & Hwp). rewrite Hh in Hwp. split_and!; done.
    - by split. }
  constructor; simpl; rewrite ?Hd, ?Hob.
  - apply addDaily_keys. by apply settled_keys.
  - by apply put_observation_hosts.
  - intros o [->|[Hin Hne]]%in_put_observation; simpl in *.
    + unfold tick_clock. rewrite Z.eqb_refl. split_and!; [lia|done|]. by apply within_count.
    + destruct (Hc o Hin) as (? & ? & ?). specialize (Hmono (o_host o)).
      split_and!; [lia|done|]. apply within_count. by apply settled_other.
  - intros h. apply within_count. unfold tick_clock. destruct (Z.eqb_spec h (h_id host)) as [->|Hne].
    + eapply within_mono; [|done]. lia.
    + by apply settled_other.
  - rewrite Hs'. apply record_incident_open. by rewrite Hi0.
Qed.

Lemma within_filter h t p rows : within h t rows -> within h t (delete_where p rows).
Proof. intros Hw r [Hr _]%in_delete. by apply Hw. Qed.

Lemma history_step_inv hs hs' : history_inv hs -> history_step hs hs' -> history_inv hs'.
Proof.
  intros Hinv Hstep. inversion Hstep; subst; [by apply recordCheck_inv| | | |].
  - destruct Hinv as [Hk Ho Hc Hw Hone]. constructor; simpl in *; try done.
    + by apply NoDup_map_delete.
    + intros o [Hin _]%in_delete. auto.
    + by apply one_open_patch.
  - destruct Hinv as [Hk Ho Hc Hw Hone]. constructor; simpl in *.
    + by apply NoDup_map_delete.
    + by apply NoDup_map_delete.
    + intros o [Hin _]%in_delete. destruct (Hc o Hin) as (? & ? & ?). split_and!; [done..|].
      by apply within_filter.
    + intros h. by apply within_filter.
    + intros i j [Hi _]%in_delete [Hj _]%in_delete. by apply Hone.
  - unfold setMute in H. ok_inv H. destruct data as [d|].
    + destruct (mr_starts_at d), (mr_ends_at d); try done. ok_inv H. injection H as _ <-.
      by destruct Hinv.
    + injection H as _ <-. by destruct Hinv.
  - by destruct Hinv.
Qed.

Lemma history_reachable_inv hs : reachable history_init history_step hs -> history_inv hs.
Proof.
  apply invariant_reachable; [|apply history_step_inv].
  intros [s clk] (Ho & Hd & Hi). simpl in *.
  constructor; simpl; rewrite ?Ho, ?Hd, ?Hi; try constructor; try done; by intros ? ? [].
Qed.

(** *** Identifiers of incidents *)

(** No identifier is given twice, and the next one is new. *)
Definition ids_ok (s : store) : Prop :=
  List.NoDup (map i_id (incidents s)) /\ Forall (fun i => i_id i < next_incident s) (incidents s).

Lemma ids_same s s' : incidents s' = incidents s -> next_incident s' = next_incident s -> ids_ok s -> ids_ok s'.
Proof. unfold ids_ok. by intros -> ->. Qed.

Lemma ids_patch p f s s' : (forall i, i_id (f i) = i_id i) -> incidents s' = patch_where p f (incidents s) ->
  next_incident s' = next_incident s -> ids_ok s -> ids_ok s'.
Proof.
  intros Hf Hi Hn [Hnd Hlt]. unfold ids_ok. rewrite Hi, Hn, map_patch by done. split; [done|].
  rewrite Forall_forall in Hlt |- *. intros i [(i0 & Hin & _ & ->)|[Hin _]]%list_elem_of_In%in_patch; [rewrite Hf|]; by apply Hlt, list_elem_of_In.
Qed.

Lemma ids_record_incident host config r at_ muted s : ids_ok s -> ids_ok (record_incident host config r at_ muted s).
Proof.
  intros Hok. unfold record_incident.
  assert (forall id ev s0, ids_ok s0 -> ids_ok (enqueue host config id ev r at_ muted s0)) as Henq.
  { intros id ev s0. destruct (enqueue_frame host config id ev r at_ muted s0) as (_ & _ & _ & Hi & _ & _ & Hn). by apply ids_same. }
  destruct (r_state r), (first_where (open_incident (h_id host)) (incidents s)) as [x|]; try done.
  - apply Henq. eapply ids_patch; [|reflexivity|reflexivity|exact Hok]; done.
  - eapply ids_patch; [|reflexivity|reflexivity|exact Hok]; done.
  - apply Henq. destruct Hok as [Hnd Hlt]. split; simpl.
    + apply key_fresh_app; [done|]. simpl. intros (i & Hid & Hin)%in_map_iff. rewrite Forall_forall in Hlt.
      apply list_elem_of_In, Hlt in Hin. lia.
    + apply Forall_app. split; [|constructor; [simpl; lia|done]]. eapply Forall_impl; [exact Hlt|]. simpl. lia.
Qed.

Lemma history_step_ids hs hs' : ids_ok (hs_store hs) -> history_step hs hs' -> ids_ok (hs_store hs').
Proof.
  intros Hok Hstep. inversion Hstep; subst; simpl in *.
  - destruct (match first_where (of_host (h_id host)) (observations s) with
              | Some p => at_ <=? o_checked_at p | None => false end) eqn:Hfresh; [unfold recordCheck; by rewrite Hfresh|].
    destruct (recordCheck_tables host config r at_ muted s Hfresh) as (_ & _ & s0 & Hi0 & _ & _ & Hn0 & ->).
    apply ids_record_incident. by apply (ids_same s).
  - eapply ids_patch; [|reflexivity|reflexivity|exact Hok]; done.
  - destruct Hok as [Hnd Hlt]. split; simpl; [by apply NoDup_map_delete|].
    rewrite Forall_forall in Hlt |- *. intros i [Hin _]%list_elem_of_In%in_delete. by apply Hlt, list_elem_of_In.
  - unfold setMute in H. ok_inv H. destruct data as [d|].
    + destruct (mr_starts_at d), (mr_ends_at d); try done. ok_inv H. injection H as _ <-. by apply (ids_same s).
    + injection H as _ <-. by apply (ids_same s).
  - by apply (ids_same s).
Qed.

Lemma history_reachable_ids hs : reachable history_init history_step hs -> ids_ok (hs_store hs).
Proof.
  apply (invariant_reachable _ _ (fun hs => ids_ok (hs_store hs))); [|apply history_step_ids]. intros [s clk] (_ & _ & Hi). simpl in *.
  unfold ids_ok. rewrite Hi. split; constructor.
Qed.

(** ** Theorems *)

Lemma getHost_ok v hostId op hosts h :
  getHost v hostId op hosts = Ok h ->
  h_id h = hostId /\ h_is_deleted h = false /\ (v_all v = true \/ h_owner h = v_user_id v) /\
  v_can v op = true /\ In h hosts.
Proof.
  unfold getHost, idNumber. intros Hg. ok_inv Hg. unfold throw_if in E.
  split_ifs. destruct (v_can v op) eqn:Ec; [|done]. simpl in Hg.
  destruct (first_where _ hosts) as [h0|] eqn:Ef; [|done]. simplify_eq.
  apply first_where_Some in Ef as [Hin Hp]. apply andb_true_iff in Hp as [Hp Hv].
  boolify. split_and!; try done. destruct (v_all v); [by left|right]. simpl in Hv. by boolify.
Qed.

Lemma day_report_sound host now day s clk :
  history_inv (MkHistory s clk) -> clk (h_id host) <= now ->
  let r := day_report_of host now day s in
  0 <= dr_up_ms r /\ 0 <= dr_down_ms r /\
  dr_up_ms r + dr_down_ms r <= elapsed day now /\ dr_duration r = elapsed day now.
Proof.
  intros [_ _ Hc Hw _] Hnow. simpl in *.
  assert (forall t, within (h_id host) t (dailies s) ->
    let row := first_where (is_day (h_id host) day) (dailies s) in
    0 <= match row with Some r => d_up_ms r | None => 0 end /\
    0 <= match row with Some r => d_down_ms r | None => 0 end /\
    match row with Some r => d_up_ms r | None => 0 end +
    match row with Some r => d_down_ms r | None => 0 end <= elapsed day t) as Hrow.
  { intros t Ht. simpl. destruct (first_where _ (dailies s)) as [x|] eqn:Ex.
    - apply first_where_Some in Ex as [Hin Hd]. apply is_day_spec in Hd as [Hh <-]. by apply Ht.
    - unfold elapsed. lia. }
  unfold day_report_of. simpl. unfold running_ms.
  destruct (first_where (of_host (h_id host)) (observations s)) as [o|] eqn:Eo; simpl.
  - apply first_where_Some in Eo as [Hin Hh]. unfold of_host in Hh. boolify.
    destruct (Hc o Hin) as (Hle & Hi & Hwo). rewrite Hh in *.
    destruct (Hrow _ Hwo) as (? & ? & ?). fold (elapsed day now). unfold elapsed in *.
    destruct (h_enabled host); simpl; [|lia].
    destruct (_ <? _) eqn:Elt; simpl; boolify; [|lia]. destruct (o_state o); simpl; lia.
  - destruct (Hrow _ (Hw (h_id host))) as (? & ? & ?). fold (elapsed day now).
    pose proof (elapsed_mono day _ _ Hnow). lia.
Qed.

(** C13: whatever checks, resets, removals and mutes led to the current store,
    a host has at most one open incident, and no two incidents have the same
    identifier. *)
Theorem one_open_incident_per_host hs :
  reachable history_init history_step hs ->
  one_open (incidents (hs_store hs)) /\ List.NoDup (map i_id (incidents (hs_store hs))).
Proof.
  intros Hr. split; [apply history_reachable_inv in Hr; apply Hr|]. by apply history_reachable_ids in Hr as [Hnd _].
Qed.

(** the availability report is consistent: it has one entry per requested
    day, the last one for today, and in each entry the up, down and unknown
    time are non-negative and add up to the part of the day that has passed,
    so neither coverage nor uptime can exceed 100 percent. *)
Theorem availability_report_adds_up hs v now hostId days hosts reports :
  reachable history_init history_step hs -> hs_clock hs hostId <= now ->
  hostDetail v now hostId days hosts (hs_store hs) = Ok reports ->
  Z.of_nat (length reports) = days /\
  (forall r, last reports = Some r -> dr_day r = day_of now) /\
  forall r, In r reports ->
    0 <= dr_up_ms r /\ 0 <= dr_down_ms r /\ 0 <= dr_unknown_ms r /\
    dr_up_ms r + dr_down_ms r + dr_unknown_ms r = dr_duration r /\
    0 <= dr_duration r <= DAY_MS.
Proof.
  intros Hr Hclk Hd. apply history_reachable_inv in Hr. destruct hs as [s clk]. simpl in *.
  unfold hostDetail in Hd. ok_inv Hd. ok_inv Hd. injection Hd as <-. boolify.
  apply getHost_ok in E as (<- & _). split; [|split].
  - rewrite length_map, length_seq. lia.
  - intros r. destruct (Z.to_nat days) as [|n] eqn:En; [done|]. rewrite seq_S, map_app. simpl.
    rewrite last_snoc. intros [= <-]. simpl. lia.
  - intros r (i & <- & _)%in_map_iff.
    destruct (day_report_sound v0 now (day_of now - (days - 1) + Z.of_nat i) s clk) as (? & ? & Hle & Hdur);
      [done|lia|].
    rewrite Hdur in *. split_and!; try done.
    + simpl. lia.
    + unfold day_report_of in *. simpl in *. rewrite Hdur. lia.
    + unfold elapsed. lia.
    + unfold elapsed. pose proof (eq_refl DAY_MS). unfold DAY_MS in *. lia.
Qed.

(** an accepted check attributes to the previous state exactly the time
    that its observation covered, at most one interval of it, spread over the
    days it falls in; time after an unknown observation is not counted. *)
Theorem accepted_check_attributes_observed_time host config r at_ muted s p :
  List.NoDup (map day_key (dailies s)) ->
  first_where (of_host (h_id host)) (observations s) = Some p ->
  o_checked_at p < at_ -> 0 <= o_interval p ->
  let s' := recordCheck host config r at_ muted s in
  let covered := Z.min at_ (o_checked_at p + o_interval p * 1000) - o_checked_at p in
  total d_up_ms (h_id host) (dailies s') =
    total d_up_ms (h_id host) (dailies s) + (if health_eqb (o_state p) Up then covered else 0) /\
  total d_down_ms (h_id host) (dailies s') =
    total d_down_ms (h_id host) (dailies s) + (if health_eqb (o_state p) Down then covered else 0) /\
  total d_checks (h_id host) (dailies s') = total d_checks (h_id host) (dailies s) + 1.
Proof.
  intros Hk Hp Hlt Hi. simpl.
  destruct (recordCheck_tables host config r at_ muted s) as (Hd & _ & _).
  { rewrite Hp. apply Z.leb_gt. lia. }
  rewrite Hd, Hp. pose proof (settled_keys (h_id host) at_ (Some p) _ Hk) as Hk'.
  rewrite (addDaily_total d_up_ms dp_up_ms), (addDaily_total d_down_ms dp_down_ms),
    (addDaily_total d_checks dp_checks) by done.
  simpl settled. simpl dp_up_ms. simpl dp_down_ms. simpl dp_checks.
  assert (o_checked_at p <= counted_until at_ p) by (unfold counted_until; lia).
  assert (forall sel selp c st,
    (forall q x, sel (add_patch q x) = sel x + selp q) ->
    (forall h d q, sel (MkDaily h d (dp_up_ms q) (dp_down_ms q) (dp_checks q)) = selp q) ->
    (forall ms, selp (state_patch st ms) = c * ms) ->
    total sel (h_id host) (attribute_interval (h_id host) st (o_checked_at p)
      (counted_until at_ p) (dailies s)) =
    total sel (h_id host) (dailies s) + c * (counted_until at_ p - o_checked_at p)) as Htot.
  { intros sel selp c st Ha Hn Hc. unfold attribute_interval.
    by apply (attribute_loop_total sel selp Ha Hn). }
  unfold counted_until in *. destruct (o_state p); simpl.
  - rewrite (Htot _ dp_up_ms 1), (Htot _ dp_down_ms 0), (Htot _ dp_checks 0) by (intros; simpl; lia).
    lia.
  - rewrite (Htot _ dp_up_ms 0), (Htot _ dp_down_ms 1), (Htot _ dp_checks 0) by (intros; simpl; lia).
    lia.
  - lia.
Qed.

(** *** Announcements of an outage *)

Definition subscribers (host : host_row) (ts : list target) : list target :=
  List.filter (subscribes host) (owner_targets host ts).

(** Checks of one host, in order. *)
Definition record_all (host : host_row) (config : check_config) (muted : bool)
    (events : list (Z * check_result)) (s : store) : store :=
  fold_left (fun s e => recordCheck host config (snd e) (fst e) muted s) events s.

(** The host's observation, if any, is older than [t]. *)
Definition observed_before (h t : Z) (s : store) : Prop :=
  forall p, first_where (of_host h) (observations s) = Some p -> o_checked_at p < t.

(** Strictly increasing instants from [t] on. *)
Fixpoint increasing (t : Z) (events : list (Z * check_result)) : Prop :=
  match events with
  | [] => True
  | e :: es => t < fst e /\ increasing (fst e) es
  end.

Lemma first_where_put o t : first_where (of_host (o_host o)) (put_observation o t) = Some o.
Proof.
  unfold put_observation. destruct (first_where (of_host (o_host o)) t) eqn:E.
  - revert E. unfold first_where, patch_where, of_host. induction t as [|x t IH]; [done|]. simpl.
    destruct (o_host x =? o_host o) eqn:Ex; [by rewrite Z.eqb_refl|by rewrite Ex].
  - revert E. unfold first_where, of_host. induction t as [|x t IH]; simpl; [by rewrite Z.eqb_refl|].
    by destruct (o_host x =? o_host o).
Qed.

Lemma insert_deliveries_spec mk ts id t :
  exists new, insert_deliveries mk ts id t = (t ++ new, id + Z.of_nat (length ts)) /\
    Forall2 (fun x d => exists i, d = mk x i) ts new.
Proof.
  revert id t. induction ts as [|x ts IH]; intros id t; simpl.
  - exists []. rewrite app_nil_r, Z.add_0_r. split; [done|constructor].
  - destruct (IH (id + 1) (t ++ [mk x id])) as (new & -> & Hall).
    exists (mk x id :: new). rewrite <- app_assoc. split; [f_equal; lia|]. constructor; eauto.
Qed.

(** One announcement per subscriber. *)
Definition announces (host : host_row) (id : Z) (ev : event) (ts : list target)
    (ds : list delivery) : Prop :=
  Forall2 (fun t d => dl_target_id d = t_id t /\ dl_incident_id d = id /\ dl_event d = ev /\
                      dl_host_id d = h_id host) ts ds.

Lemma enqueue_announces host config id ev r at_ muted s :
  c_alert_enabled config = true ->
  exists new, deliveries (enqueue host config id ev r at_ muted s) = deliveries s ++ new /\
    announces host id ev (subscribers host (targets s)) new.
Proof.
  intros Ha. unfold enqueue. rewrite Ha. fold (subscribers host (targets s)).
  destruct (insert_deliveries_spec (new_delivery host id ev r at_ muted) (subscribers host (targets s))
              (next_delivery s) (deliveries s)) as (new & -> & Hall).
  exists new. split; [done|]. eapply Forall2_impl; [exact Hall|].
  by intros t d [i ->].
Qed.

Section Outage.
Context (host : host_row) (config : check_config) (muted : bool).

(** During an outage the table is the earlier incidents, none of them open
    for the host, and one open incident. *)
Definition ongoing (old : list incident) (n count t : Z) (ds : list delivery)
    (ts : list target) (s : store) : Prop :=
  (exists x, incidents s = old ++ [x] /\ i_id x = n /\ i_host x = h_id host /\
             i_resolved_at x = None /\ i_failure_count x = count) /\
  deliveries s = ds /\ targets s = ts /\
  (forall p, first_where (of_host (h_id host)) (observations s) = Some p -> o_checked_at p = t).

Definition closed_before (old : list incident) (n : Z) : Prop :=
  forall i, In i old -> open_incident (h_id host) i = false /\ i_id i < n.

Lemma find_ongoing old n x :
  closed_before old n -> i_host x = h_id host -> i_resolved_at x = None ->
  first_where (open_incident (h_id host)) (old ++ [x]) = Some x.
Proof.
  intros Hc Hh Hr. unfold first_where. induction old as [|y old IH]; simpl.
  - by rewrite (proj2 (open_incident_spec _ _) (conj Hh Hr)).
  - rewrite (proj1 (Hc y (or_introl eq_refl))). apply IH. intros i Hi. apply Hc. by right.
Qed.

Lemma patch_ongoing old n f x :
  closed_before old n -> i_id x = n ->
  patch_where (has_id n) f (old ++ [x]) = old ++ [f x].
Proof.
  intros Hc Hx. unfold patch_where. rewrite map_app. simpl. unfold has_id at 2.
  rewrite Hx, Z.eqb_refl. f_equal. fold (patch_where (has_id n) f old).
  apply patch_where_none. intros i Hi. unfold has_id. apply Z.eqb_neq.
  destruct (Hc i Hi). lia.
Qed.

Lemma accepted_tables t r s :
  observed_before (h_id host) t s ->
  exists s0, recordCheck host config r t muted s = record_incident host config r t muted s0 /\
    incidents s0 = incidents s /\ deliveries s0 = deliveries s /\ targets s0 = targets s /\
    next_incident s0 = next_incident s /\
    first_where (of_host (h_id host)) (observations (recordCheck host config r t muted s)) =
      Some (MkObservation (h_id host) t (r_state r) (c_interval_seconds config)).
Proof.
  intros Hb. destruct (recordCheck_tables host config r t muted s) as (_ & Hob & s0 & Hi & Hd & Ht & Hn & Hs).
  { destruct (first_where _ (observations s)) as [p|] eqn:E; [|done]. specialize (Hb p E).
    apply Z.leb_gt. lia. }
  exists s0. split_and!; try done. rewrite Hob.
  apply (first_where_put (MkObservation (h_id host) t (r_state r) (c_interval_seconds config))).
Qed.

Lemma ongoing_step old n count t0 ds ts t r s :
  closed_before old n -> t0 < t -> r_state r <> Up ->
  ongoing old n count t0 ds ts s ->
  ongoing old n (count + (if health_eqb (r_state r) Down then 1 else 0)) t ds ts
    (recordCheck host config r t muted s).
Proof.
  intros Hc Ht Hr [(x & Hi & Hx & Hh & Hres & Hcnt) (Hd & Hts & Hobs)].
  destruct (accepted_tables t r s) as (s0 & Hs & Hi0 & Hd0 & Ht0 & _ & Ho').
  { intros p Hp. rewrite (Hobs p Hp). lia. }
  split_and!; rewrite ?Ho'; [| | |by intros p [= <-]].
  - rewrite Hs. unfold record_incident. rewrite Hi0, Hi, (find_ongoing old n x) by done.
    destruct (r_state r); [done| |]; simpl.
    + rewrite Hx, patch_ongoing by done. eexists. split_and!; [reflexivity|done..|]. simpl. lia.
    + rewrite Hi0, Hi. exists x. split_and!; try done. lia.
  - rewrite Hs. unfold record_incident. rewrite Hi0, Hi, (find_ongoing old n x) by done.
    destruct (r_state r); simpl; congruence.
  - rewrite Hs. unfold record_incident. rewrite Hi0, Hi, (find_ongoing old n x) by done.
    destruct (r_state r); simpl; congruence.
Qed.

(** The failed checks of a run. *)
Fixpoint failures (events : list (Z * check_result)) : Z :=
  match events with
  | [] => 0
  | e :: es => (if health_eqb (r_state (snd e)) Down then 1 else 0) + failures es
  end.

Lemma ongoing_run old n events count t0 ds ts s :
  closed_before old n -> increasing t0 events ->
  Forall (fun e => r_state (snd e) <> Up) events -> ongoing old n count t0 ds ts s ->
  exists t1, increasing t0 events /\ (t1 = t0 \/ In t1 (map fst events)) /\
    ongoing old n (count + failures events) t1 ds ts (record_all host config muted events s) /\
    forall e, increasing t0 (events ++ [e]) -> t1 < fst e.
Proof.
  intros Hc. revert count t0 s. induction events as [|e es IH]; intros count t0 s Hinc Hall Hon; simpl in *.
  - exists t0. rewrite Z.add_0_r. split_and!; auto. by intros e [? _].
  - destruct Hinc as [Hlt Hinc]. inversion Hall; subst.
    destruct (IH (count + (if health_eqb (r_state (snd e)) Down then 1 else 0)) (fst e)
                (recordCheck host config (snd e) (fst e) muted s)) as (t1 & _ & Ht1 & Hon' & Hnext);
      [done|done|by eapply ongoing_step|].
    exists t1. split_and!; auto.
    + right. destruct Ht1 as [->|?]; auto.
    + by rewrite Z.add_assoc.
    + intros e' [_ ?]. auto.
Qed.
Lemma increasing_app events e t :
  increasing t (events ++ [e]) -> increasing t events /\ t < fst e.
Proof.
  revert t. induction events as [|x es IH]; intros t; simpl; [by intros [? _]|].
  intros [Hx Hes]. destruct (IH _ Hes). split; [done|lia].
Qed.

(** The first failing check opens the incident. *)
Lemma outage_opens t r s :
  c_alert_enabled config = true ->
  (forall i, In i (incidents s) ->
     open_incident (h_id host) i = false /\ i_id i < next_incident s) ->
  observed_before (h_id host) t s -> r_state r = Down ->
  exists opened, announces host (next_incident s) Opened (subscribers host (targets s)) opened /\
    ongoing (incidents s) (next_incident s) 1 t (deliveries s ++ opened) (targets s)
      (recordCheck host config r t muted s).
Proof.
  intros Ha Hold Hb Hr.
  destruct (accepted_tables t r s Hb) as (a & Hs & Hi & Hd & Ht & Hn & Ho).
  assert (first_where (open_incident (h_id host)) (incidents s) = None) as Hnone.
  { destruct (first_where _ (incidents s)) as [x|] eqn:E; [|done].
    apply first_where_Some in E as [Hin Hop]. by rewrite (proj1 (Hold x Hin)) in Hop. }
  rewrite Hs in Ho |- *. unfold record_incident in *. rewrite Hr, Hi, Hnone in *.
  match goal with |- context [enqueue ?h ?c ?i ?e ?r ?t ?m ?s0] =>
    destruct (enqueue_announces h c i e r t m s0 Ha) as (opened & Hdl & Han);
    destruct (enqueue_frame h c i e r t m s0) as (_ & _ & _ & Hinc & _ & Htg & _) end.
  simpl in *. exists opened. rewrite Hn in *.
  split; [by rewrite <- Ht|].
  unfold ongoing. rewrite Hinc, Hdl, Htg, Ho. split_and!; [|by rewrite Hd|done|by intros p [= <-]].
  by eexists.
Qed.

(** The first success resolves it. *)
Lemma outage_closes old n count t0 t r ds ts s :
  c_alert_enabled config = true ->
  closed_before old n -> t0 < t -> r_state r = Up -> ongoing old n count t0 ds ts s ->
  exists x resolved,
    let s' := recordCheck host config r t muted s in
    incidents s' = old ++ [x] /\ i_id x = n /\ i_resolved_at x = Some t /\
    i_failure_count x = count /\ deliveries s' = ds ++ resolved /\
    announces host n Resolved (subscribers host ts) resolved.
Proof.
  intros Ha Hc Ht Hr [(x & Hi & Hx & Hh & Hres & Hcnt) (Hd & Hts & Hobs)].
  destruct (accepted_tables t r s) as (a & Hs & Hi0 & Hd0 & Ht0 & _ & _).
  { intros p Hp. rewrite (Hobs p Hp). lia. }
  simpl. rewrite Hs. unfold record_incident. rewrite Hr, Hi0, Hi, (find_ongoing old n x) by done.
  match goal with |- context [enqueue ?h ?c ?i ?e ?r ?t ?m ?s0] =>
    destruct (enqueue_announces h c i e r t m s0 Ha) as (resolved & Hdl & Han);
    destruct (enqueue_frame h c i e r t m s0) as (_ & _ & _ & Hinc & _ & Htg & _) end.
  eexists _, resolved. rewrite Hinc, Hdl. simpl. rewrite Hx, patch_ongoing by done.
  split_and!; try reflexivity; try done; [by rewrite Hd0, Hd|].
  rewrite Hx in Han. simpl in Han. by rewrite Ht0, Hts in Han.
Qed.
End Outage.

(** an outage is announced exactly once when it starts and once when it
    ends.  From a state with no open incident, a failing check, then any
    number of failing or undetermined checks, then a succeeding check, leave
    one new incident, resolved, that counts every failed check, and enqueue
    for every subscribed target one opening and one resolution and nothing
    else, however many checks failed in between. *)
Theorem outage_is_announced_once host config muted s t0 down mid t1 up :
  c_alert_enabled config = true ->
  (forall i, In i (incidents s) ->
     open_incident (h_id host) i = false /\ i_id i < next_incident s) ->
  observed_before (h_id host) t0 s ->
  r_state down = Down -> Forall (fun e => r_state (snd e) <> Up) mid -> r_state up = Up ->
  increasing t0 (mid ++ [(t1, up)]) ->
  let s' := record_all host config muted ((t0, down) :: mid ++ [(t1, up)]) s in
  let id := next_incident s in
  (exists x, incidents s' = incidents s ++ [x] /\ i_id x = id /\ i_resolved_at x = Some t1 /\
             i_failure_count x = 1 + failures mid) /\
  exists opened resolved,
    deliveries s' = deliveries s ++ opened ++ resolved /\
    announces host id Opened (subscribers host (targets s)) opened /\
    announces host id Resolved (subscribers host (targets s)) resolved.
Proof.
  intros Ha Hold Hb Hd Hmid Hu Hinc s' id.
  destruct (outage_opens host config muted t0 down s Ha Hold Hb Hd) as (opened & Hop & Hon).
  assert (closed_before host (incidents s) id) as Hc by done.
  destruct (increasing_app mid (t1, up) t0 Hinc) as [Hinc' _].
  destruct (ongoing_run host config muted (incidents s) id mid 1 t0 _ _ _ Hc Hinc' Hmid Hon)
    as (t2 & _ & _ & Hon' & Hnext).
  destruct (outage_closes host config muted (incidents s) id (1 + failures mid) t2 t1 up _ _ _
              Ha Hc (Hnext _ Hinc) Hu Hon') as (x & resolved & Hx & Hid & Hres & Hcnt & Hdl & Han).
  assert (s' = recordCheck host config up t1 muted
                 (record_all host config muted mid (recordCheck host config down t0 muted s))) as ->.
  { unfold s', record_all. simpl. by rewrite fold_left_app. }
  split; [exists x; by split_and!|]. exists opened, resolved. split_and!; [|done|done].
  by rewrite Hdl, app_assoc.
Qed.

(** ** A concrete history *)

Section DemoHistory.
Definition demo_host : host_row := MkHost 1 7 true false.
Definition demo_config : check_config := MkConfig 60 true.
Definition demo_viewer : viewer := MkViewer 7 (fun _ => true) false.
Definition demo_target : target := MkTarget 1 7 "phone" Ntfy true [] ("https://x", "") 1.
Definition demo_store : store := MkStore [] [] [] [] [] [demo_target] [] 1 2 1.
Definition result_of (st : health) : check_result := MkResult st (Some 12) (Some 200) (Some "HTTP 200").
Definition demo_clock : Z -> Z := fun _ => 0.

(** Up just before midnight of day 0, down just after. *)
Definition demo_up : store :=
  recordCheck demo_host demo_config (result_of Up) (DAY_MS - 10000) false demo_store.
Definition demo_down : store :=
  recordCheck demo_host demo_config (result_of Down) (DAY_MS + 20000) false demo_up.
Definition demo_history : history :=
  MkHistory demo_down (tick_clock (tick_clock demo_clock 1 (DAY_MS - 10000)) 1 (DAY_MS + 20000)).

Lemma demo_history_reachable : reachable history_init history_step demo_history.
Proof.
  eapply reachable_step;
    [|apply (hist_check demo_host demo_config (result_of Down) (DAY_MS + 20000) false);
      vm_compute; discriminate].
  eapply reachable_step;
    [|apply (hist_check demo_host demo_config (result_of Up) (DAY_MS - 10000) false);
      vm_compute; discriminate].
  apply reachable_init. by repeat split.
Defined.

Lemma one_open_incident_per_host_witness :
  (one_open (incidents demo_down) /\ List.NoDup (map i_id (incidents demo_down))) /\ length (incidents demo_down) = 1%nat.
Proof.
  split; [|reflexivity]. exact (one_open_incident_per_host demo_history demo_history_reachable).
Defined.

Lemma availability_report_adds_up_witness :
  exists a b, hostDetail demo_viewer (DAY_MS + 30000) 1 2 [demo_host] demo_down = Ok [a; b] /\
    dr_up_ms a = 10000 /\ dr_up_ms b = 20000 /\ dr_down_ms b = 10000 /\
    dr_up_ms b + dr_down_ms b + dr_unknown_ms b = dr_duration b.
Proof.
  eexists _, _. split; [vm_compute; reflexivity|]. split; [reflexivity|].
  split; [reflexivity|]. split; [reflexivity|].
  edestruct (availability_report_adds_up demo_history demo_viewer (DAY_MS + 30000) 1 2 [demo_host])
    as (_ & _ & Hall);
    [apply demo_history_reachable|vm_compute; discriminate|vm_compute; reflexivity|].
  eapply Hall. right. left. reflexivity.
Defined.

Lemma accepted_check_attributes_observed_time_witness :
  total d_up_ms 1 (dailies demo_down) = total d_up_ms 1 (dailies demo_up) + 30000.
Proof.
  edestruct (accepted_check_attributes_observed_time demo_host demo_config (result_of Down)
               (DAY_MS + 20000) false demo_up) as [Hup _];
    [vm_compute; repeat constructor; by intros []|vm_compute; reflexivity
    |vm_compute; reflexivity|vm_compute; discriminate|exact Hup].
Defined.

Lemma outage_is_announced_once_witness :
  length (deliveries (record_all demo_host demo_config false
    [(1000, result_of Down); (2000, result_of Down); (3000, result_of Unknown);
     (4000, result_of Up)] demo_store)) = 2%nat.
Proof.
  edestruct (outage_is_announced_once demo_host demo_config false demo_store 1000 (result_of Down)
               [(2000, result_of Down); (3000, result_of Unknown)] 4000 (result_of Up))
    as (_ & opened & resolved & Hd & Ho & Hr);
    [reflexivity|by intros ? []|by intros ? [=]|reflexivity|by repeat constructor|reflexivity
    |by repeat split|].
  simpl app in Hd. rewrite Hd. simpl. rewrite length_app.
  apply Forall2_length in Ho, Hr. simpl in Ho, Hr. rewrite <- Ho, <- Hr. reflexivity.
Defined.
End DemoHistory.
