(* ===== verification/Deliveries.v ===== *)
(** Notification targets and the delivery worker of
    src/backend/internal/incidents.js: claiming, sending, retrying and
    recovering outbox rows, and the version-checked target settings.

    The worker is one process: a tick reclaims interrupted rows, then sends at
    most two rows at a time and ends when both are finished.  A crash loses
    the rows being sent and nothing else. *)

From S2P Require Import Prelude JsString Errors Incidents.
#[local] Open Scope string_scope.
#[local] Open Scope list_scope.
#[local] Open Scope Z_scope.

#[local] Arguments Nat.leb : simpl never.

(** ** Delivery rows *)

Definition with_status (st : delivery_status) (err : option string) (d : delivery) : delivery :=
  MkDelivery (dl_id d) (dl_target_id d) (dl_incident_id d) (dl_host_id d) (dl_event d)
    (dl_payload d) st (dl_attempts d) (dl_next_attempt_at d) (dl_created_on d) err (dl_sent_at d).

Definition claim_row (now : Z) (d : delivery) : delivery :=
  MkDelivery (dl_id d) (dl_target_id d) (dl_incident_id d) (dl_host_id d) (dl_event d)
    (dl_payload d) Sending (dl_attempts d + 1) (now + 5 * 60000) (dl_created_on d)
    (dl_last_error d) (dl_sent_at d).

Definition sent_row (now : Z) (d : delivery) : delivery :=
  MkDelivery (dl_id d) (dl_target_id d) (dl_incident_id d) (dl_host_id d) (dl_event d)
    (dl_payload d) Sent (dl_attempts d) (dl_next_attempt_at d) (dl_created_on d) None (Some now).

(** The back-off doubles from thirty seconds up to an hour. *)
Definition backoff (attempts : Z) : Z := Z.min 3600000 (30000 * 2 ^ (attempts - 1)).

Definition failed_row (now attempts : Z) (message : string) (d : delivery) : delivery :=
  MkDelivery (dl_id d) (dl_target_id d) (dl_incident_id d) (dl_host_id d) (dl_event d)
    (dl_payload d) (if MAX_ATTEMPTS <=? attempts then Failed else Pending) (dl_attempts d)
    (now + backoff attempts) (dl_created_on d) (Some message) (dl_sent_at d).

Definition retry_row (now : Z) (d : delivery) : delivery :=
  MkDelivery (dl_id d) (dl_target_id d) (dl_incident_id d) (dl_host_id d) (dl_event d)
    (dl_payload d) Pending 0 now (dl_created_on d) None (dl_sent_at d).

Definition status_eqb (a b : delivery_status) : bool :=
  match a, b with
  | Pending, Pending | Sending, Sending | Sent, Sent | Failed, Failed | Muted, Muted
  | Cancelled, Cancelled => true
  | _, _ => false
  end.

Definition row_id (id : Z) (d : delivery) : bool := dl_id d =? id.

Definition patch_deliveries (p : delivery -> bool) (f : delivery -> delivery) (s : store) : store :=
  set_deliveries (patch_where p f (deliveries s)) (next_delivery s) s.

(** ** The worker *)

(** The claiming transaction: the row, with its new attempt count, or nothing. *)
Definition claim (now id : Z) (s : store) : option (delivery * store) :=
  match first_where (row_id id) (deliveries s) with
  | Some row =>
      if negb (status_eqb (dl_status row) Pending) || (now <? dl_next_attempt_at row) then None
      else Some (claim_row now row, patch_deliveries (row_id id) (claim_row now) s)
  | None => None
  end.

(** What [deliverNotification] did. *)
Inductive send_result : Type := SendOk | SendFailed (message : string).

Definition HTTP_PREFIX : string := "Notification endpoint returned HTTP ".

(** [/^Notification endpoint returned HTTP \d{3}$/] *)
Definition is_http_message (m : string) : bool :=
  starts_with HTTP_PREFIX m &&
  (let rest := drop_str (String.length HTTP_PREFIX) m in
   (strlen rest =? 3) && all_chars is_digit rest).

Definition public_failure (m : string) : string :=
  if is_http_message m then m
  else "Notification delivery failed; check endpoint, HTTPS and credentials".

(** Target and host still want the notification. *)
Definition eligible (d : delivery) (hosts : list host_row) (s : store) : bool :=
  match first_where (fun t => t_id t =? dl_target_id d) (targets s),
        first_where (fun h => (h_id h =? dl_host_id d) && negb (h_is_deleted h)) hosts with
  | Some t, Some h =>
      t_enabled t && (h_owner h =? t_owner t) &&
      (bool_decide (t_host_ids t = []) || existsb (Z.eqb (h_id h)) (t_host_ids t))
  | _, _ => false
  end.

(** The rest of [deliverOne] for a claimed row. *)
Definition finish (now : Z) (claimed : delivery) (sent : send_result) (hosts : list host_row)
    (s : store) : store :=
  let mine := row_id (dl_id claimed) in
  if negb (eligible claimed hosts s) then
    patch_deliveries mine
      (with_status Cancelled (Some "Target or host subscription is no longer enabled")) s
  else if isMuted (dl_host_id claimed) now s then
    patch_deliveries mine (with_status Muted (Some "Suppressed by scheduled alarm mute")) s
  else
    match sent with
    | SendOk => patch_deliveries mine (sent_row now) s
    | SendFailed m =>
        patch_deliveries mine (failed_row now (dl_attempts claimed) (public_failure m)) s
    end.

Definition lease_over (now : Z) (d : delivery) : bool :=
  status_eqb (dl_status d) Sending && (dl_next_attempt_at d <=? now).

(** The first two statements of a tick. *)
Definition reclaim (now : Z) (s : store) : store :=
  let s1 := patch_deliveries (fun d => lease_over now d && (MAX_ATTEMPTS <=? dl_attempts d))
              (with_status Failed
                 (Some "Final delivery attempt was interrupted; retry explicitly if needed")) s in
  patch_deliveries (fun d => lease_over now d && (dl_attempts d <? MAX_ATTEMPTS))
    (with_status Pending (Some "Previous delivery attempt was interrupted")) s1.

(** The rows a tick sends. *)
Definition due (now : Z) (s : store) : list delivery :=
  firstn 20 (select_where (fun d => status_eqb (dl_status d) Pending
                                    && (dl_next_attempt_at d <=? now)) (deliveries s)).

(** The hourly retention of a tick. *)
Definition cleanup (now : Z) (s : store) : store :=
  let old := now - 366 * DAY_MS in
  MkStore (observations s)
    (delete_where (fun r => d_day r <? day_of old) (dailies s))
    (delete_where (fun r => l_bucket r <? now - 7 * DAY_MS) (latencies s))
    (delete_where (fun i => match i_resolved_at i with Some t => t <? old | None => false end)
       (incidents s))
    (mutes s) (targets s)
    (delete_where (fun d => (dl_created_on d <? old) && negb (status_eqb (dl_status d) Sending))
       (deliveries s))
    (next_incident s) (next_target s) (next_delivery s).

(** ** Settings *)

Definition own_target (v : viewer) (targetId : Z) (s : store) : fallible target :=
  let? id := idNumber targetId in
  match first_where (fun t => (t_id t =? id) && (t_owner t =? v_user_id v)) (targets s) with
  | Some t => Ok t
  | None => Throw (ItemNotFoundError (Some targetId))
  end.

Definition ownTarget (v : viewer) (targetId : Z) (operation : string) (s : store)
    : fallible target :=
  throw PermissionError "Permission Denied" when (negb (v_can v operation)) ;;
  own_target v targetId s.

Definition retry (v : viewer) (now deliveryId : Z) (hosts : list host_row) (s : store)
    : fallible store :=
  let? id := idNumber deliveryId in
  match first_where (row_id id) (deliveries s) with
  | None => Throw (ItemNotFoundError (Some deliveryId))
  | Some row =>
      let? _ := ownTarget v (dl_target_id row) "update" s in
      let? _ := getHost v (dl_host_id row) "update" hosts in
      throw ValidationError "Only failed, pending or muted deliveries may be retried"
        when (negb (status_eqb (dl_status row) Failed || status_eqb (dl_status row) Pending
                    || status_eqb (dl_status row) Muted)) ;;
      let same d := row_id id d && status_eqb (dl_status d) (dl_status row)
                    && (dl_attempts d =? dl_attempts row) in
      throw ValidationError "Delivery changed while retrying; refresh its status"
        when (Nat.eqb (count_where same (deliveries s)) 0) ;;
      Ok (patch_deliveries same (retry_row now) s)
  end.

Definition deleteTarget (v : viewer) (targetId : Z) (s : store) : fallible store :=
  let? t := ownTarget v targetId "update" s in
  Ok (set_targets (delete_where (fun x => t_id x =? t_id t) (targets s)) (next_target s)
        (set_deliveries (delete_where (fun d => dl_target_id d =? t_id t) (deliveries s))
           (next_delivery s) s)).

(** The URL policy of notification-http.js, which this component relies on. *)
Class UrlPolicy : Type := {
  validateNotificationUrl : string -> channel -> bool
}.

Record target_data : Type := MkTargetData {
  td_name : string;
  td_type : channel;
  td_enabled : bool;
  td_host_ids : list Z;
  td_url : option string;
  td_token : option string;
  td_version : Z
}.

Definition channel_eqb (a b : channel) : bool :=
  match a, b with
  | Webhook, Webhook | Ntfy, Ntfy | Discord, Discord => true
  | _, _ => false
  end.

(** Credentials are kept only while the channel type stays the same. *)
Definition merged_secret (current : option target) (d : target_data) : string * string :=
  let old := match current with
             | Some t => if channel_eqb (t_type t) (td_type d) then t_secret t else ("", "")
             | None => ("", "")
             end in
  (default "" (js_or (td_url d) (Some (fst old))), default (snd old) (td_token d)).

Definition bad_token (token : string) : bool :=
  has_char (ascii_of_N 13) token || has_char (ascii_of_N 10) token || (4096 <? strlen token).

Section SaveTarget.
Context `{UrlPolicy}.

Definition check_subscription (v : viewer) (hosts : list host_row) (hostId : Z) : fallible unit :=
  let? host := getHost v hostId "update" hosts in
  throw_if (negb (h_owner host =? v_user_id v))
    (ValidationError "Notification targets may subscribe only to your own hosts").

Definition saveTarget (v : viewer) (targetId : option Z) (d : target_data)
    (hosts : list host_row) (s : store) : fallible (target * store) :=
  throw PermissionError "Permission Denied" when (negb (v_can v "update")) ;;
  let owner := v_user_id v in
  let editing := match targetId with Some n => if n =? 0 then None else Some n | None => None end in
  throw ValidationError "At most 100 notification targets are allowed"
    when (match editing with
          | None => Nat.leb 100 (count_where (fun t => t_owner t =? owner) (targets s))
          | Some _ => false
          end) ;;
  let? _ := rmapM (check_subscription v hosts) (td_host_ids d) in
  let? current := match editing with
                  | Some n => rmap Some (own_target v n s)
                  | None => Ok None
                  end in
  throw ValidationError "Notification target changed; reload before saving"
    when (match current with Some t => negb (t_version t =? td_version d) | None => false end) ;;
  let secret := merged_secret current d in
  throw ValidationError "Notification endpoint must be a public HTTPS URL without URL credentials"
    when (negb (validateNotificationUrl (fst secret) (td_type d))) ;;
  throw ValidationError "Invalid notification bearer token"
    when (bad_token (snd secret)) ;;
  let row id version := MkTarget id owner (td_name d) (td_type d) (td_enabled d) (td_host_ids d)
                          secret version in
  match current with
  | Some t =>
      let t' := row (t_id t) (t_version t + 1) in
      Ok (t', set_targets (patch_where (fun x => t_id x =? t_id t) (fun _ => t') (targets s))
                (next_target s) s)
  | None =>
      let t' := row (next_target s) 1 in
      Ok (t', set_targets (targets s ++ [t']) (next_target s + 1) s)
  end.
End SaveTarget.

(** ** The outbox as a machine *)

(** The store and the claimed rows that the running tick is sending. *)
Record outbox : Type := MkOutbox { ob_store : store; ob_workers : list delivery }.

Section Machine.
Context `{UrlPolicy}.

Inductive outbox_step : outbox -> outbox -> Prop :=
| ob_reclaim now s :
    outbox_step (MkOutbox s []) (MkOutbox (reclaim now s) [])
| ob_claim now id s w row s' :
    claim now id s = Some (row, s') ->
    outbox_step (MkOutbox s w) (MkOutbox s' (row :: w))
| ob_finish now row sent hosts s w1 w2 :
    outbox_step (MkOutbox s (w1 ++ row :: w2)) (MkOutbox (finish now row sent hosts s) (w1 ++ w2))
| ob_crash s w :
    outbox_step (MkOutbox s w) (MkOutbox s [])
| ob_cleanup now s w :
    outbox_step (MkOutbox s w) (MkOutbox (cleanup now s) w)
| ob_retry v now id hosts s s' w :
    retry v now id hosts s = Ok s' -> outbox_step (MkOutbox s w) (MkOutbox s' w)
| ob_save v id d hosts s t s' w :
    saveTarget v id d hosts s = Ok (t, s') -> outbox_step (MkOutbox s w) (MkOutbox s' w)
| ob_delete v id s s' w :
    deleteTarget v id s = Ok s' -> outbox_step (MkOutbox s w) (MkOutbox s' w)
| ob_check host config r at_ muted s w :
    outbox_step (MkOutbox s w) (MkOutbox (recordCheck host config r at_ muted s) w)
| ob_reset now hostId s w :
    outbox_step (MkOutbox s w) (MkOutbox (resetHost now hostId s) w)
| ob_remove hostId s w :
    outbox_step (MkOutbox s w) (MkOutbox (removeHost hostId s) w)
| ob_mute v now hostId data hosts s m s' w :
    setMute v now hostId data hosts s = Ok (m, s') -> outbox_step (MkOutbox s w) (MkOutbox s' w).

Definition outbox_init (o : outbox) : Prop :=
  deliveries (ob_store o) = [] /\ ob_workers o = [].
End Machine.

(** ** The life of one row *)

(** Every change a row may undergo, whatever operation makes it. *)
Inductive lifecycle : delivery -> delivery -> Prop :=
| lc_claim now d :
    dl_status d = Pending -> dl_next_attempt_at d <= now -> lifecycle d (claim_row now d)
| lc_drop st err d :
    dl_status d = Sending -> st = Cancelled \/ st = Muted -> lifecycle d (with_status st err d)
| lc_sent now d : dl_status d = Sending -> lifecycle d (sent_row now d)
| lc_fail now m d : dl_status d = Sending -> lifecycle d (failed_row now (dl_attempts d) m d)
| lc_interrupted err d :
    dl_status d = Sending ->
    lifecycle d (with_status (if MAX_ATTEMPTS <=? dl_attempts d then Failed else Pending) err d)
| lc_retry now d :
    dl_status d = Failed \/ dl_status d = Pending \/ dl_status d = Muted ->
    lifecycle d (retry_row now d).

Definition new_row (d : delivery) : Prop :=
  dl_attempts d = 0 /\ (dl_status d = Pending \/ dl_status d = Muted).

(** How often a row may have been handed to an endpoint, by its status. *)
Definition row_ok (d : delivery) : Prop :=
  0 <= dl_attempts d <= MAX_ATTEMPTS /\
  (dl_status d = Pending -> dl_attempts d < MAX_ATTEMPTS) /\
  (dl_status d = Sending -> 1 <= dl_attempts d).

Lemma lifecycle_id d d' : lifecycle d d' -> dl_id d' = dl_id d.
Proof. by destruct 1. Qed.

Lemma lifecycle_row_ok d d' : lifecycle d d' -> row_ok d -> row_ok d'.
Proof.
  unfold row_ok, MAX_ATTEMPTS. intros Hl (Hb & Hp & Hs).
  destruct Hl as [now d Hst _|st err d Hst Hwhich|now d Hst|now m d Hst|err d Hst|now d Hst];
    simpl; try specialize (Hs Hst); try specialize (Hp Hst);
    try (split_and!; intros; done || lia).
  - destruct Hwhich as [-> | ->]; split_and!; intros; done || lia.
  - unfold MAX_ATTEMPTS. destruct (5 <=? dl_attempts d) eqn:E; boolify; split_and!; intros; done || lia.
  - unfold MAX_ATTEMPTS. destruct (5 <=? dl_attempts d) eqn:E; boolify; split_and!; intros; done || lia.
Qed.

Lemma new_row_ok d : new_row d -> row_ok d.
Proof.
  unfold new_row, row_ok, MAX_ATTEMPTS. intros [-> Hst].
  split_and!; try lia. by destruct Hst as [-> | ->].
Qed.

Lemma status_eqb_eq a b : status_eqb a b = true <-> a = b.
Proof. by destruct a, b. Qed.

(** ** What each operation does to the table *)

(** Rows keep their primary key, nothing reuses one, and only rows of [Q]
    change. *)
Record table_step (Q : delivery -> Prop) (s s' : store) : Prop := {
  ts_ids : List.NoDup (map dl_id (deliveries s)) -> (forall d, In d (deliveries s) -> dl_id d < next_delivery s) ->
           List.NoDup (map dl_id (deliveries s'));
  ts_next : next_delivery s <= next_delivery s';
  ts_rows : forall d', In d' (deliveries s') ->
    (new_row d' /\ next_delivery s <= dl_id d' < next_delivery s') \/
    exists d, In d (deliveries s) /\ (d' = d \/ (lifecycle d d' /\ Q d))
}.

Lemma table_step_same Q s s' :
  deliveries s' = deliveries s -> next_delivery s' = next_delivery s -> table_step Q s s'.
Proof. intros Hd Hn. constructor; rewrite ?Hd, ?Hn; eauto. lia. Qed.

Lemma table_step_from Q s0 s s' :
  deliveries s0 = deliveries s -> next_delivery s0 = next_delivery s ->
  table_step Q s0 s' -> table_step Q s s'.
Proof. intros Hd Hn [H1 H2 H3]. rewrite Hd, Hn in *. by constructor. Qed.

Lemma table_step_delete Q p s s' :
  deliveries s' = delete_where p (deliveries s) -> next_delivery s' = next_delivery s ->
  table_step Q s s'.
Proof.
  intros Hd Hn. constructor; rewrite ?Hd, ?Hn; try lia.
  - intros. by apply NoDup_map_delete.
  - intros d' [Hin _]%in_delete. eauto.
Qed.

Lemma table_step_patch Q p f s s' :
  deliveries s' = patch_where p f (deliveries s) -> next_delivery s' = next_delivery s ->
  (forall d, In d (deliveries s) -> p d = true -> lifecycle d (f d) /\ Q d) ->
  (forall d, dl_id (f d) = dl_id d) ->
  table_step Q s s'.
Proof.
  intros Hd Hn Hf Hid. constructor; rewrite ?Hd, ?Hn; try lia.
  - intros. by rewrite map_patch.
  - intros d' [(d & Hin & Hp & ->) | [Hin _]]%in_patch; eauto 6.
Qed.

Lemma insert_deliveries_fresh mk ts id t :
  (forall x i, new_row (mk x i) /\ dl_id (mk x i) = i) ->
  exists new, insert_deliveries mk ts id t = (t ++ new, id + Z.of_nat (length ts)) /\
    List.NoDup (map dl_id new) /\
    (forall d, In d new -> new_row d /\ id <= dl_id d < id + Z.of_nat (length ts)).
Proof.
  intros Hmk. revert id t. induction ts as [|x ts IH]; intros id t; simpl.
  - exists []. rewrite app_nil_r, Z.add_0_r. split_and!; [done|constructor|by intros ? []].
  - destruct (IH (id + 1) (t ++ [mk x id])) as (new & -> & Hnd & Hall).
    destruct (Hmk x id) as [Hnew Hid].
    exists (mk x id :: new). rewrite <- app_assoc. split_and!.
    + f_equal; lia.
    + simpl. constructor; [|done]. rewrite Hid. intros Hin.
      apply in_map_iff in Hin as (d & Hd & Hin). apply Hall in Hin as [_ ?]. lia.
    + intros d [<-|Hin]; [rewrite Hid; split; [done|lia]|].
      apply Hall in Hin as [? ?]. split; [done|lia].
Qed.

Lemma enqueue_table Q host config id ev r at_ muted s :
  table_step Q s (enqueue host config id ev r at_ muted s).
Proof.
  unfold enqueue. destruct (c_alert_enabled config); [|by apply table_step_same].
  edestruct (insert_deliveries_fresh (new_delivery host id ev r at_ muted)) as (new & -> & Hnd & Hall).
  { intros x i. unfold new_row. simpl. destruct muted; auto. }
  constructor; simpl; try lia.
  - intros Ho Hf. rewrite map_app. apply NoDup_ListNoDup, NoDup_app.
    apply NoDup_ListNoDup in Hnd, Ho. split_and!; [done| |done].
    intros k Hk Hk'. apply list_elem_of_In, in_map_iff in Hk as (d & <- & Hin).
    apply list_elem_of_In, in_map_iff in Hk' as (d' & Heq & Hin').
    apply Hf in Hin. apply Hall in Hin' as [_ ?]. lia.
  - intros d' [Hin|Hin]%in_app_iff; [eauto|]. left. apply Hall in Hin. done.
Qed.

Lemma record_incident_table Q host config r at_ muted s :
  table_step Q s (record_incident host config r at_ muted s).
Proof.
  unfold record_incident.
  destruct (r_state r), (first_where (open_incident (h_id host)) (incidents s)); try by apply table_step_same.
  all: eapply table_step_from, enqueue_table; done.
Qed.

Lemma recordCheck_table Q host config r at_ muted s :
  table_step Q s (recordCheck host config r at_ muted s).
Proof.
  unfold recordCheck. destruct (match _ with Some _ => _ | None => _ end);
    [by apply table_step_same|].
  match goal with |- table_step Q s (record_incident ?a ?b ?c ?d ?e ?s0) =>
    apply (table_step_from _ s0); [done|done|exact (record_incident_table _ a b c d e s0)] end.
Qed.

Lemma reclaim_table now s : table_step (fun d => dl_status d = Sending) s (reclaim now s).
Proof.
  constructor; unfold reclaim, patch_deliveries; simpl; try lia.
  - intros Hnd _. by rewrite !map_patch.
  - intros d' [(d1 & Hin & Hp & ->) | [Hin _]]%in_patch; right.
    + apply in_patch in Hin as [(d & Hin & Hq & ->) | [Hin Hq]]; [by simpl in *|].
      exists d1. split; [done|]. right. boolify.
      unfold lease_over in *. boolify.
      pose proof (lc_interrupted (Some "Previous delivery attempt was interrupted") d1) as Hl.
      replace (MAX_ATTEMPTS <=? dl_attempts d1) with false in Hl by (symmetry; apply Z.leb_gt; lia).
      apply status_eqb_eq in H. by split; [apply Hl|].
    + apply in_patch in Hin as [(d & Hin & Hq & ->) | [Hin _]]; [|eauto].
      exists d. split; [done|]. right. unfold lease_over in Hq. apply andb_true_iff in Hq as [Hq Hm].
      pose proof (lc_interrupted (Some "Final delivery attempt was interrupted; retry explicitly if needed") d) as Hl.
      rewrite Hm in Hl. boolify. apply status_eqb_eq in H. by split; [apply Hl|].
Qed.

Lemma retry_table v now id hosts s s' : retry v now id hosts s = Ok s' -> table_step (fun d => dl_status d <> Sending) s s'.
Proof.
  unfold retry. intros H. ok_inv H. destruct (first_where _ _) as [row|]; [|done].
  do 2 ok_inv H. ok_inv H. ok_inv H. injection H as <-.
  eapply table_step_patch; [reflexivity|reflexivity| |done].
  intros d _ Hp. apply andb_true_iff in Hp as [Hp _]. apply andb_true_iff in Hp as [_ Hst].
  apply status_eqb_eq in Hst.
  apply negb_false_iff, orb_true_iff in G.
  split; [apply lc_retry|]; rewrite Hst;
    destruct G as [[Hf|Hf]%orb_true_iff|Hf]; apply status_eqb_eq in Hf; rewrite Hf; auto.
Qed.

Lemma deleteTarget_table Q v id s s' : deleteTarget v id s = Ok s' -> table_step Q s s'.
Proof.
  unfold deleteTarget. intros H. ok_inv H. injection H as <-.
  by eapply table_step_delete.
Qed.

Lemma saveTarget_table `{UrlPolicy} Q v id d hosts s t s' :
  saveTarget v id d hosts s = Ok (t, s') -> table_step Q s s'.
Proof.
  unfold saveTarget. intros Hs. do 6 (ok_inv Hs || idtac). repeat ok_inv Hs.
  destruct (match id with Some _ => _ | None => _ end); simplify_eq/=;
    repeat match goal with H : rmap _ _ = Ok _ |- _ => ok_inv H end;
    simplify_eq/=; try (by apply table_step_same);
    match goal with H : context [match ?c with Some _ => _ | None => _ end] |- _ => destruct c end;
    simplify_eq/=; by apply table_step_same.
Qed.

Lemma setMute_table Q v now id data hosts s m s' :
  setMute v now id data hosts s = Ok (m, s') -> table_step Q s s'.
Proof.
  unfold setMute. intros H. ok_inv H. destruct data as [d|].
  - destruct (mr_starts_at d), (mr_ends_at d); try done. ok_inv H. injection H as _ <-.
    by apply table_step_same.
  - injection H as _ <-. by apply table_step_same.
Qed.

Lemma cleanup_table Q now s : table_step Q s (cleanup now s).
Proof. by eapply table_step_delete. Qed.

Lemma claim_spec now id s row s' :
  claim now id s = Some (row, s') ->
  exists d, In d (deliveries s) /\ dl_id d = id /\ dl_status d = Pending /\
    dl_next_attempt_at d <= now /\ row = claim_row now d /\
    s' = patch_deliveries (row_id id) (claim_row now) s.
Proof.
  unfold claim. destruct (first_where (row_id id) (deliveries s)) as [d|] eqn:E; [|done].
  apply first_where_Some in E as [Hin Hid]. unfold row_id in Hid. boolify.
  destruct (_ || _) eqn:G; [done|]. intros [= <- <-]. boolify.
  exists d. split_and!; try done. by apply status_eqb_eq.
Qed.

(** ** The invariant of the outbox *)

Record outbox_inv (o : outbox) : Prop := {
  oi_ids : List.NoDup (map dl_id (deliveries (ob_store o)));
  oi_fresh : forall d, In d (deliveries (ob_store o)) -> dl_id d < next_delivery (ob_store o);
  oi_rows : forall d, In d (deliveries (ob_store o)) -> row_ok d;
  oi_worker_ids : List.NoDup (map dl_id (ob_workers o));
  oi_workers : forall w, In w (ob_workers o) ->
    dl_id w < next_delivery (ob_store o) /\
    forall d, In d (deliveries (ob_store o)) -> dl_id d = dl_id w ->
      dl_status d = Sending /\ dl_attempts d = dl_attempts w
}.

(** A step that moves no row a remaining worker holds. *)
Lemma outbox_inv_step Q s s' w w' :
  outbox_inv (MkOutbox s w) -> table_step Q s s' ->
  List.NoDup (map dl_id w') -> (forall x, In x w' -> In x w) ->
  (forall x d, In x w' -> In d (deliveries s) -> dl_id d = dl_id x -> ~ Q d) ->
  outbox_inv (MkOutbox s' w').
Proof.
  intros [Hids Hfresh Hrows Hwids Hw] [Ti Tn Tr] Hnd Hsub Hkeep. simpl in *.
  constructor; simpl; auto.
  - intros d' [[_ ?]|(d & Hin & [->|[Hl _]])]%Tr; [lia| |].
    + apply Hfresh in Hin. lia.
    + rewrite (lifecycle_id _ _ Hl). apply Hfresh in Hin. lia.
  - intros d' [[Hn _]|(d & Hin & [->|[Hl _]])]%Tr; eauto using new_row_ok, lifecycle_row_ok.
  - intros x Hx. destruct (Hw x (Hsub x Hx)) as [Hlt Hmine]. split; [lia|].
    intros d' [[_ ?]|(d & Hd & [->|[Hl HQ]])]%Tr Hid; [lia|auto|].
    destruct (Hkeep x d Hx Hd); [|done]. pose proof (lifecycle_id _ _ Hl). congruence.
Qed.

(** Rows in flight are Sending, so a step that moves no Sending row leaves
    them alone. *)
Lemma outbox_inv_quiet s s' w :
  outbox_inv (MkOutbox s w) -> table_step (fun d => dl_status d <> Sending) s s' ->
  outbox_inv (MkOutbox s' w).
Proof.
  intros Hinv Ht. eapply outbox_inv_step; eauto; [by destruct Hinv|].
  intros x d Hx Hin Hid. pose proof Hinv as [_ _ _ _ Hw]. simpl in Hw.
  destruct (Hw x Hx) as [_ Hmine]. destruct (Hmine d Hin Hid) as [Hs _]. intros HQ. by apply HQ.
Qed.

(** Finishing touches the worker's own row only, by a lifecycle change. *)
Lemma finish_table now row sent hosts s w1 w2 :
  outbox_inv (MkOutbox s (w1 ++ row :: w2)) ->
  table_step (fun d => dl_id d = dl_id row) s (finish now row sent hosts s).
Proof.
  intros Hinv. pose proof Hinv as [_ _ _ _ Hw]. simpl in Hw.
  destruct (Hw row) as [_ Hmine]; [apply in_elt|].
  assert (forall f, (forall d, dl_status d = Sending -> dl_attempts d = dl_attempts row ->
                      lifecycle d (f d)) -> (forall d, dl_id (f d) = dl_id d) ->
            table_step (fun d => dl_id d = dl_id row) s
              (patch_deliveries (row_id (dl_id row)) f s)) as Hpatch.
  { intros f Hf Hid. eapply table_step_patch; try done. intros d Hin Hp.
    unfold row_id in Hp. boolify. destruct (Hmine d Hin Hp). auto. }
  unfold finish. destruct (negb _); [|destruct (isMuted _ _ _); [|destruct sent]];
    apply Hpatch; try done; intros d Hs Ha; rewrite <- ?Ha.
  - apply lc_drop; auto.
  - apply lc_drop; auto.
  - by apply lc_sent.
  - by apply lc_fail.
Qed.

Lemma claim_table now id s row s' :
  claim now id s = Some (row, s') ->
  List.NoDup (map dl_id (deliveries s)) ->
  table_step (fun d => dl_id d = id /\ dl_status d = Pending) s s'.
Proof.
  intros (d0 & Hin0 & Hid0 & Hp0 & Hle & -> & ->)%claim_spec Hnd.
  eapply table_step_patch; try done. intros d Hin Hp. unfold row_id in Hp. boolify.
  assert (d = d0) as -> by (apply (key_unique dl_id (deliveries s)); try done; congruence).
  split; [|done]. by apply lc_claim.
Qed.

Lemma outbox_inv_claim now id s w row s' :
  outbox_inv (MkOutbox s w) -> claim now id s = Some (row, s') ->
  outbox_inv (MkOutbox s' (row :: w)).
Proof.
  intros Hinv Hc. pose proof Hinv as [Hids Hfresh _ Hwids Hw]. simpl in *.
  pose proof (claim_table _ _ _ _ _ Hc Hids) as Ht.
  assert (outbox_inv (MkOutbox s' w)) as Hinv'.
  { eapply outbox_inv_step; eauto. intros x d Hx Hin Hid [_ Hp].
    destruct (Hw x Hx) as [_ Hmine]. destruct (Hmine d Hin Hid). congruence. }
  apply claim_spec in Hc as (d0 & Hin0 & Hid0 & Hp0 & _ & -> & ->).
  destruct Hinv' as [Hids' Hfresh' Hrows' _ Hw']. simpl in *.
  constructor; simpl; try done.
  - constructor; [|done]. intros (x & Hx & Hin)%in_map_iff.
    simpl in Hx. destruct (Hw x Hin) as [_ Hmine]. destruct (Hmine d0 Hin0); congruence.
  - intros x [<-|Hx]; [|by apply Hw']. simpl. split; [by apply Hfresh|].
    intros d [(d1 & Hd1 & Hp1 & ->) | [Hd1 Hp1]]%in_patch Hid; unfold row_id in *; boolify.
    + assert (d1 = d0) as -> by (apply (key_unique dl_id (deliveries s)); try done; congruence). done.
    + congruence.
Qed.

Section Invariant.
Context `{UrlPolicy}.

(** Every step of the machine is a step of the table. *)
Lemma outbox_step_table o o' :
  outbox_inv o -> outbox_step o o' ->
  exists Q, table_step Q (ob_store o) (ob_store o').
Proof.
  intros Hinv Hs. destruct Hs; simpl; try by eexists; apply table_step_same with (Q := fun _ => True).
  - eexists. apply reclaim_table.
  - eexists. eapply claim_table; [done|]. by destruct Hinv.
  - eexists. by eapply finish_table.
  - eexists. apply cleanup_table with (Q := fun _ => True).
  - eexists. by eapply retry_table.
  - eexists. by eapply saveTarget_table with (Q := fun _ => True).
  - eexists. by eapply deleteTarget_table with (Q := fun _ => True).
  - eexists. apply recordCheck_table with (Q := fun _ => True).
  - eexists. by eapply table_step_delete with (Q := fun _ => True).
  - eexists. by eapply setMute_table with (Q := fun _ => True).
Qed.

Lemma outbox_step_inv o o' : outbox_inv o -> outbox_step o o' -> outbox_inv o'.
Proof.
  intros Hinv Hs. destruct Hs.
  - eapply outbox_inv_step; [done|apply reclaim_table|constructor|by intros x []|by intros x d []].
  - by eapply outbox_inv_claim.
  - pose proof Hinv as [_ _ _ Hwids _]. simpl in Hwids. rewrite map_app in Hwids. simpl in Hwids.
    apply NoDup_remove in Hwids as [Hnd Hni]. rewrite <- map_app in Hnd, Hni.
    eapply outbox_inv_step; eauto using finish_table.
    + intros x. rewrite !in_app_iff. simpl. tauto.
    + intros x d Hx Hin Hid Heq. apply Hni. apply in_map_iff. exists x. split; [congruence|done].
  - eapply outbox_inv_step with (Q := fun _ => False); eauto;
      [by apply table_step_same|constructor|by intros x []].
  - eapply outbox_inv_quiet; eauto using cleanup_table.
  - eapply outbox_inv_quiet; eauto using retry_table.
  - eapply outbox_inv_quiet; eauto using saveTarget_table.
  - eapply outbox_inv_quiet; eauto using deleteTarget_table.
  - eapply outbox_inv_quiet; eauto using recordCheck_table.
  - eapply outbox_inv_quiet; eauto. by apply table_step_same.
  - eapply outbox_inv_quiet; eauto. by eapply table_step_delete.
  - eapply outbox_inv_quiet; eauto using setMute_table.
Qed.

Lemma outbox_reachable_inv o : reachable outbox_init outbox_step o -> outbox_inv o.
Proof.
  apply invariant_reachable; [|apply outbox_step_inv].
  intros [s w] [Hd Hw]. simpl in *. subst w.
  constructor; simpl; rewrite ?Hd; try constructor; try done; by intros ? [].
Qed.

(** A row in a status that no lifecycle edge leaves stays as it is. *)
Lemma final_row_step o o' d :
  outbox_inv o -> outbox_step o o' -> dl_status d = Sent \/ dl_status d = Cancelled ->
  dl_id d < next_delivery (ob_store o) ->
  (forall x, In x (deliveries (ob_store o)) -> dl_id x = dl_id d -> x = d) ->
  dl_id d < next_delivery (ob_store o') /\
  (forall x, In x (deliveries (ob_store o')) -> dl_id x = dl_id d -> x = d).
Proof.
  intros Hinv Hs Hd Hlt Hx. destruct (outbox_step_table _ _ Hinv Hs) as [Q [_ Tn Tr]].
  split; [lia|]. intros x [[_ ?]|(y & Hy & [->|[Hl _]])]%Tr Hid; [lia|auto|].
  pose proof (lifecycle_id _ _ Hl). rewrite (Hx y Hy) in Hl by congruence.
  inversion Hl; subst; destruct Hd; repeat match goal with H : _ \/ _ |- _ => destruct H end;
    congruence.
Qed.

Lemma final_row_steps o o' d :
  outbox_inv o -> rtc outbox_step o o' -> dl_status d = Sent \/ dl_status d = Cancelled ->
  In d (deliveries (ob_store o)) ->
  forall x, In x (deliveries (ob_store o')) -> dl_id x = dl_id d -> x = d.
Proof.
  intros Hinv Hs Hd Hin. pose proof Hinv as [Hids Hfresh _ _ _].
  pose proof (Hfresh d Hin) as Hlt.
  assert (forall x, In x (deliveries (ob_store o)) -> dl_id x = dl_id d -> x = d) as Hx
    by (intros x Hxin ?; eapply (key_unique dl_id); eauto).
  clear Hids Hfresh Hin. induction Hs as [o|o o1 o' Hstep _ IH]; [done|].
  destruct (final_row_step o o1 d) as [? ?]; eauto using outbox_step_inv.
Qed.
End Invariant.

(** ** A failing endpoint *)

Section Failing.
Context (id : Z) (message : string) (hosts : list host_row).

(** One send attempt that fails. *)
Definition failed_attempt (now : Z) (s : store) : store :=
  match claim now id s with
  | Some (row, s') => finish now row (SendFailed message) hosts s'
  | None => s
  end.

(** The row is alone under its id, wanted and not muted. *)
Definition sendable (d : delivery) (s : store) : Prop :=
  first_where (row_id id) (deliveries s) = Some d /\
  eligible d hosts s = true /\ getMute (dl_host_id d) s = None.

Lemma first_where_patch (f : delivery -> delivery) t d :
  (forall x, dl_id (f x) = dl_id x) ->
  first_where (row_id id) t = Some d ->
  first_where (row_id id) (patch_where (row_id id) f t) = Some (f d).
Proof.
  intros Hid. unfold first_where, row_id in *. induction t as [|x t IH]; [done|]. simpl.
  destruct (dl_id x =? id) eqn:E; simpl; rewrite ?Hid, ?E; [congruence|auto].
Qed.

Lemma failed_attempt_step now d s :
  sendable d s -> dl_status d = Pending -> dl_next_attempt_at d <= now ->
  sendable (failed_row now (dl_attempts d + 1) (public_failure message) (claim_row now d))
    (failed_attempt now s).
Proof.
  intros (Hd & He & Hm) Hst Hle. unfold failed_attempt, claim. rewrite Hd, Hst. simpl.
  replace (now <? _) with false by (symmetry; apply Z.ltb_ge; lia).
  pose proof (first_where_Some _ _ _ Hd) as [_ Hid]. unfold row_id in Hid. boolify.
  unfold finish. change (eligible (claim_row now d) hosts _) with (eligible d hosts s).
  rewrite He. simpl. unfold isMuted. change (getMute (dl_host_id d) _) with (getMute (dl_host_id d) s).
  rewrite Hm, Hid.
  split; [|done]. simpl. by apply first_where_patch, first_where_patch.
Qed.

(** Each attempt comes an hour or more after the one before. *)
Fixpoint spaced (t : Z) (times : list Z) : Prop :=
  match times with
  | [] => True
  | u :: times' => t <= u /\ spaced (u + 3600000) times'
  end.

Lemma backoff_bound a : backoff a <= 3600000.
Proof. unfold backoff. lia. Qed.

Lemma failed_attempts_run times d s t0 :
  sendable d s -> dl_status d = Pending -> dl_next_attempt_at d <= t0 -> spaced t0 times ->
  0 <= dl_attempts d -> dl_attempts d + Z.of_nat (length times) <= MAX_ATTEMPTS ->
  exists d', sendable d' (fold_left (fun s now => failed_attempt now s) times s) /\
    dl_attempts d' = dl_attempts d + Z.of_nat (length times) /\
    (dl_status d' = if MAX_ATTEMPTS <=? dl_attempts d' then
                      match times with [] => Pending | _ => Failed end
                    else Pending).
Proof.
  revert d s t0. induction times as [|now times IH]; intros d s t0 Hd Hst Hle Hsp Ha Hmax.
  - exists d. rewrite Z.add_0_r. split_and!; [done|done|]. rewrite Hst. by destruct (_ <=? _).
  - simpl in Hsp. destruct Hsp as [Ht Hsp].
    pose proof (failed_attempt_step now d s Hd Hst ltac:(lia)) as Hd'.
    set (d' := failed_row _ _ _ _) in Hd'. simpl fold_left.
    simpl length in *. rewrite Nat2Z.inj_succ in *.
    assert (dl_attempts d' = dl_attempts d + 1) as Ha' by done.
    destruct times as [|u times].
    + exists d'. split; [done|]. split; [simpl; lia|]. rewrite Ha'. subst d'. simpl.
      by destruct (_ <=? _).
    + simpl length in *. rewrite Nat2Z.inj_succ in *.
      assert (dl_status d' = Pending) as Hst'.
      { subst d'. simpl. destruct (MAX_ATTEMPTS <=? _) eqn:E; [boolify; lia|done]. }
      destruct (IH d' (failed_attempt now s) (now + 3600000)) as (x & Hx & Hxa & Hxs); try done.
      * subst d'. simpl. pose proof (backoff_bound (dl_attempts d + 1)). lia.
      * lia.
      * rewrite Ha'. simpl length. lia.
      * exists x. split; [done|]. split; [rewrite Hxa, Ha'; simpl length; lia|].
        rewrite Hxs. by destruct (_ <=? _).
Qed.
End Failing.

(** ** Settings *)

Lemma own_target_ok v id s t :
  own_target v id s = Ok t -> In t (targets s) /\ t_id t = id /\ t_owner t = v_user_id v.
Proof.
  unfold own_target, idNumber. intros H. ok_inv H. ok_inv E. injection E as <-.
  destruct (first_where _ _) as [x|] eqn:Ef; [|done]. injection H as <-.
  apply first_where_Some in Ef as [Hin Hp]. by boolify.
Qed.

Lemma check_subscription_ok v hosts h u :
  check_subscription v hosts h = Ok u ->
  exists host, In host hosts /\ h_id host = h /\ h_owner host = v_user_id v /\
    h_is_deleted host = false.
Proof.
  unfold check_subscription, throw_if. intros H. ok_inv H. destruct (negb _) eqn:G; [done|].
  apply getHost_ok in E as (? & ? & ? & ? & ?). boolify. eauto.
Qed.

Lemma bad_token_lines t :
  bad_token t = false ->
  has_char (ascii_of_N 13) t = false /\ has_char (ascii_of_N 10) t = false.
Proof. unfold bad_token. intros. boolify. done. Qed.

Lemma channel_neq a b : a <> b -> channel_eqb a b = false.
Proof. by destruct a, b. Qed.

(** ** Properties *)

Section Claims.
Context `{UrlPolicy}.

(** In every reachable state of the outbox (ticks, two concurrent sends,
    crashes, retries, settings changes and checks in any order) a delivery
    has been handed to its endpoint at most five times since it was created
    or explicitly retried, a pending one fewer than five times, and no row is
    being sent twice at once: the rows in flight are distinct and each is
    marked as sending with the attempt its worker counted. *)
Theorem delivery_attempts_are_bounded o d :
  reachable outbox_init outbox_step o -> In d (deliveries (ob_store o)) ->
  0 <= dl_attempts d <= MAX_ATTEMPTS /\
  (dl_status d = Pending -> dl_attempts d < MAX_ATTEMPTS) /\
  List.NoDup (map dl_id (ob_workers o)) /\
  (forall w, In w (ob_workers o) -> dl_id w = dl_id d ->
     dl_status d = Sending /\ dl_attempts d = dl_attempts w).
Proof.
  intros [_ _ Hrows Hw Hmine]%outbox_reachable_inv Hin.
  destruct (Hrows d Hin) as (Hb & Hp & _). split_and!; auto; try lia.
  intros w Hwin Hid. by apply Hmine.
Qed.

(** A delivery that was sent or cancelled is never sent again: however
    the outbox runs on, its row stays exactly as it is until it is deleted,
    and its identifier is not reused. *)
Theorem settled_delivery_is_final o o' d x :
  reachable outbox_init outbox_step o -> rtc outbox_step o o' ->
  In d (deliveries (ob_store o)) -> dl_status d = Sent \/ dl_status d = Cancelled ->
  In x (deliveries (ob_store o')) -> dl_id x = dl_id d -> x = d.
Proof. intros Hr Hs Hin Hd. eapply final_row_steps; eauto using outbox_reachable_inv. Qed.

(** C14: Every change of a delivery row is an edge of its life cycle: rows
    start pending or muted with no attempt; a claim needs a due pending row;
    only a row being sent becomes sent, cancelled or failed; a retry starts
    from a failed, pending or muted row; nothing else ever changes a row. *)
Theorem delivery_follows_its_lifecycle o o' d' :
  reachable outbox_init outbox_step o -> outbox_step o o' ->
  In d' (deliveries (ob_store o')) ->
  (new_row d' /\ forall d, In d (deliveries (ob_store o)) -> dl_id d <> dl_id d') \/
  exists d, In d (deliveries (ob_store o)) /\ dl_id d = dl_id d' /\ (d' = d \/ lifecycle d d').
Proof.
  intros Hinv%outbox_reachable_inv Hs Hin.
  destruct (outbox_step_table _ _ Hinv Hs) as [Q [_ _ Tr]].
  destruct (Tr d' Hin) as [[Hn Hlt]|(d & Hd & Hl)].
  - left. split; [done|]. intros d Hd. apply (oi_fresh _ Hinv) in Hd. lia.
  - right. exists d. split; [done|]. destruct Hl as [->|[Hl _]]; [by auto|].
    split; [symmetry; by apply lifecycle_id|auto].
Qed.
End Claims.

(** A wanted, unmuted delivery whose endpoint keeps failing is attempted
    exactly five times: with the attempts at least an hour apart (the longest
    back-off), it stays pending through the first four and is failed by the
    fifth. *)
Theorem failing_delivery_gives_up id message hosts d s t0 times :
  sendable id hosts d s -> dl_status d = Pending -> dl_attempts d = 0 ->
  dl_next_attempt_at d <= t0 -> spaced t0 times -> (length times <= 5)%nat ->
  exists d', first_where (row_id id)
               (deliveries (fold_left (fun s now => failed_attempt id message hosts now s) times s)) = Some d' /\
    dl_attempts d' = Z.of_nat (length times) /\
    dl_status d' = if Nat.eqb (length times) 5 then Failed else Pending.
Proof.
  intros Hd Hst Ha Hle Hsp Hlen.
  destruct (failed_attempts_run id message hosts times d s t0) as (d' & Hd' & Ha' & Hs'); try done.
  - lia.
  - unfold MAX_ATTEMPTS. lia.
  - exists d'. destruct Hd' as [Hf _]. split; [done|]. rewrite Ha' in *. rewrite Ha in *.
    split; [lia|]. rewrite Hs'. unfold MAX_ATTEMPTS.
    destruct times as [|? [|? [|? [|? [|? [|]]]]]]; simpl in *; try done; lia.
Qed.

(** Saving a notification target touches one row of the caller and
    nothing else.  The row belongs to the caller, subscribes only to
    undeleted hosts the caller owns, and holds an accepted endpoint and a
    one-line token.  An edit needs the version the caller read, moves it by
    one, and never carries the stored credentials over to another channel
    type; a creation appends a first version and respects the limit of a
    hundred targets. *)
Theorem target_settings_are_guarded `{UrlPolicy} v id d hosts s t s' :
  saveTarget v id d hosts s = Ok (t, s') ->
  t_owner t = v_user_id v /\ deliveries s' = deliveries s /\
  validateNotificationUrl (fst (t_secret t)) (t_type t) = true /\
  has_char (ascii_of_N 10) (snd (t_secret t)) = false /\
  has_char (ascii_of_N 13) (snd (t_secret t)) = false /\
  (forall h, In h (t_host_ids t) -> exists host, In host hosts /\ h_id host = h /\
     h_owner host = v_user_id v /\ h_is_deleted host = false) /\
  match id with
  | Some n =>
      if n =? 0 then targets s' = targets s ++ [t] /\ t_version t = 1
      else exists old, In old (targets s) /\ t_id old = n /\ t_owner old = v_user_id v /\
        t_version old = td_version d /\ t_version t = t_version old + 1 /\ t_id t = n /\
        (t_type old <> t_type t ->
           t_secret t = (default "" (td_url d), default "" (td_token d))) /\
        targets s' = map (fun x => if t_id x =? n then t else x) (targets s)
  | None => targets s' = targets s ++ [t] /\ t_version t = 1 /\
      (count_where (fun x => (t_owner x =? v_user_id v)%Z) (targets s) < 100)%nat
  end.
Proof.
  unfold saveTarget. intros Hs. ok_inv Hs. ok_inv Hs. ok_inv Hs. ok_inv Hs. ok_inv Hs. ok_inv Hs.
  ok_inv Hs.
  assert (forall h, In h (td_host_ids d) -> exists host, In host hosts /\ h_id host = h /\ h_owner host = v_user_id v /\
              h_is_deleted host = false) as Hsubs.
  { intros h Hin. apply rmapM_ok in E.
    eapply Forall2_in_l in E as (u & _ & Hc); [|done]. by eapply check_subscription_ok. }
  apply bad_token_lines in G3 as [Hcr Hlf]. apply negb_false_iff in G2.
  destruct id as [n|]; [destruct (n =? 0) eqn:En|]; simpl in E0.
  - injection E0 as <-. injection Hs as <- <-. simpl. by split_and!.
  - unfold rmap in E0. ok_inv E0. injection E0 as <-. injection Hs as <- <-. simpl.
    apply own_target_ok in E1 as (Hin & Hid & Hown). apply negb_false_iff, Z.eqb_eq in G1.
    split_and!; try done.
    exists v2. split_and!; try done.
    + intros Hty. unfold merged_secret. rewrite channel_neq by done. simpl.
      destruct (td_url d) as [[]|]; done.
    + unfold patch_where. by rewrite Hid.
  - injection E0 as <-. injection Hs as <- <-. simpl. apply Nat.leb_gt in G0.
    by split_and!.
Qed.

(** ** A concrete run *)

Section DemoOutbox.
Definition https_only : UrlPolicy :=
  {| validateNotificationUrl := fun url _ => starts_with "https://" url |}.
#[local] Existing Instance https_only.

(** The outage of Incidents.v, in a fresh store. *)
Definition box_opened : store := recordCheck demo_host demo_config (result_of Down) 1000 false demo_store.
Definition box_row : delivery :=
  new_delivery demo_host 1 Opened (result_of Down) 1000 false demo_target 1.
Definition box_sending : outbox :=
  MkOutbox (patch_deliveries (row_id 1) (claim_row 2000) box_opened) [claim_row 2000 box_row].
Definition box_sent : outbox := MkOutbox (finish 3000 (claim_row 2000 box_row) SendOk [demo_host] (ob_store box_sending)) [].

Lemma box_sending_reachable : reachable outbox_init outbox_step box_sending.
Proof.
  eapply reachable_step; [|apply (ob_claim 2000 1 box_opened []); reflexivity].
  eapply reachable_step; [|apply (ob_check demo_host demo_config (result_of Down) 1000 false demo_store [])].
  by apply reachable_init.
Defined.

Lemma box_sent_reachable : reachable outbox_init outbox_step box_sent.
Proof.
  eapply reachable_step; [apply box_sending_reachable|].
  apply (ob_finish 3000 (claim_row 2000 box_row) SendOk [demo_host] (ob_store box_sending) [] []).
Defined.

Lemma delivery_attempts_are_bounded_witness :
  dl_status (claim_row 2000 box_row) = Sending /\ 0 <= dl_attempts (claim_row 2000 box_row) <= 5.
Proof.
  split; [reflexivity|].
  destruct (delivery_attempts_are_bounded box_sending (claim_row 2000 box_row)) as [Hb _];
    [apply box_sending_reachable|left; reflexivity|exact Hb].
Defined.

Definition box_after : outbox := MkOutbox (reclaim 999999999 (ob_store box_sent)) [].

Lemma settled_delivery_is_final_witness :
  exists d, deliveries (ob_store box_sent) = [d] /\ dl_status d = Sent /\
    forall x, In x (deliveries (ob_store box_after)) -> dl_id x = dl_id d -> x = d.
Proof.
  eexists. split; [vm_compute; reflexivity|]. split; [reflexivity|].
  intros x Hx Hid. eapply (settled_delivery_is_final box_sent box_after);
    [apply box_sent_reachable| |left; reflexivity|left; reflexivity|exact Hx|exact Hid].
  apply rtc_once. apply (ob_reclaim 999999999 (ob_store box_sent)).
Defined.

Lemma delivery_follows_its_lifecycle_witness :
  exists d, In d (deliveries (ob_store box_sending)) /\
    forall d', In d' (deliveries (ob_store box_sent)) -> dl_id d' = 1 -> d' = d \/ lifecycle d d'.
Proof.
  exists (claim_row 2000 box_row). split; [left; reflexivity|]. intros d' Hin Hid.
  edestruct (delivery_follows_its_lifecycle box_sending box_sent d') as [[_ Hnew]|(d & Hd & _ & Hl)];
    [apply box_sending_reachable
    |apply (ob_finish 3000 (claim_row 2000 box_row) SendOk [demo_host] (ob_store box_sending) [] [])
    |exact Hin| |].
  - destruct (Hnew (claim_row 2000 box_row)); [left; reflexivity|]. rewrite Hid. reflexivity.
  - destruct Hd as [<-|[]]. exact Hl.
Defined.

Definition five_times : list Z := [2000; 3602000; 7202000; 10802000; 14402000].

Lemma failing_delivery_gives_up_witness :
  exists d, first_where (row_id 1)
      (deliveries (fold_left (fun s now => failed_attempt 1 "connect ECONNREFUSED" [demo_host] now s)
                     five_times box_opened)) = Some d /\ dl_attempts d = 5 /\ dl_status d = Failed.
Proof.
  apply (failing_delivery_gives_up 1 "connect ECONNREFUSED" [demo_host] box_row box_opened 1000 five_times);
    [split; [reflexivity|split; reflexivity]|reflexivity|reflexivity|simpl; lia|simpl; lia|simpl; lia].
Defined.

Definition box_edit : target_data :=
  MkTargetData "desk" Webhook true [1] (Some "https://hooks.example/x") None 1.

Lemma target_settings_are_guarded_witness :
  exists t s', saveTarget demo_viewer (Some 1) box_edit [demo_host] demo_store = Ok (t, s') /\
    t_version t = 2 /\ t_secret t = ("https://hooks.example/x", "") /\ t_owner t = 7.
Proof.
  eexists _, _. split; [vm_compute; reflexivity|]. split; [reflexivity|].
  edestruct (target_settings_are_guarded demo_viewer (Some 1) box_edit [demo_host] demo_store)
    as (Hown & _ & _ & _ & _ & _ & old & Hold & _ & _ & _ & _ & _ & Hsec & _);
    [vm_compute; reflexivity|].
  split; [|exact Hown]. destruct Hold as [<-|[]]. apply Hsec. discriminate.
Defined.
End DemoOutbox.
