(* ===== verification/DomainClaims.v ===== *)
(** The registry of domain names claimed by hosts
    (src/backend/lib/host-domain-claims.js and host-domain-claim-key.js).

    Every write of a proxy, redirection or dead host runs inside
    [withHostDomainClaims]: one database transaction that takes the registry
    lock, refuses names another host holds, performs the host write and then
    replaces the host's claims.  The transaction is one state function: an
    exception rolls everything back.  What the host write does to the other
    tables is a parameter. *)

From S2P Require Import Prelude JsString Errors.
#[local] Open Scope string_scope.
#[local] Open Scope list_scope.
#[local] Open Scope Z_scope.

(** ** Data *)

(** A row of [host_domain_claim]. *)
Record domain_claim : Type := MkClaim { cl_key : string; cl_name : string }.

(** A row of [host_domain_claim_owner]; its primary key is (key, type, id). *)
Record claim_owner : Type := MkOwner {
  ow_key : string;
  ow_name : string;
  ow_type : string;
  ow_id : Z
}.

(** The registry, its lock row, and the rest of the database. *)
Record registry (W : Type) : Type := MkRegistry {
  rg_claims : list domain_claim;
  rg_owners : list claim_owner;
  rg_locks : nat;
  rg_world : W
}.
Arguments MkRegistry {W} _ _ _ _.
Arguments rg_claims {W} _.
Arguments rg_owners {W} _.
Arguments rg_locks {W} _.
Arguments rg_world {W} _.

Record claim_options : Type := MkOptions {
  op_hostType : string;
  op_hostId : option Z;
  op_domainNames : list string;
  op_retained : list string
}.

(** SHA-256 in hexadecimal. *)
Class KeyHash : Type := { key_hash : string -> string }.

(** ** Operations *)

(** [[...new Set(xs)]]: first occurrences, in order. *)
Fixpoint unique_from (seen xs : list string) : list string :=
  match xs with
  | [] => []
  | x :: xs' => if existsb (String.eqb x) seen then unique_from seen xs'
                else x :: unique_from (x :: seen) xs'
  end.
Definition unique (xs : list string) : list string := unique_from [] xs.

Definition hostTypes : list string := ["proxy"; "redirection"; "dead"].

Definition MAX_SAFE_INTEGER : Z := 9007199254740991.
Definition is_owner_id (n : Z) : bool := (0 <? n) && (n <=? MAX_SAFE_INTEGER).

Definition normalizeDomainClaims (domains : list string) : fallible (list string) :=
  throw ValidationError "Domain claims require an array of nonempty domain names"
    when (existsb (String.eqb "") domains) ;;
  Ok (unique (map to_lower domains)).

Definition owned_by (type : string) (id : Z) (o : claim_owner) : bool :=
  String.eqb (ow_type o) type && (ow_id o =? id).

Section Claims.
Context `{KeyHash} {W : Type}.

Definition domainClaimKey (domain : string) : string := key_hash (to_lower domain).

(** The loop over the rows of the wanted keys: the first row of another host
    for a name this host does not already hold. *)
Definition conflicting (type : string) (hostId : option Z) (existingNames : list string)
    (c : claim_owner) : bool :=
  negb (match hostId with Some id => owned_by type id c | None => false end) &&
  negb (existsb (String.eqb (ow_name c)) existingNames).

Definition wanted (names : list string) (key : string) : bool :=
  existsb (String.eqb key) (map domainClaimKey names).

(** One round of the insertion loop.  The second insert fails when the
    primary key is taken. *)
Definition insert_claim (type : string) (id : Z) (domain : string)
    (st : list domain_claim * list claim_owner) : fallible (list domain_claim * list claim_owner) :=
  let '(claims, owners) := st in
  let key := domainClaimKey domain in
  let claims' := if existsb (fun c => String.eqb (cl_key c) key) claims then claims
                 else claims ++ [MkClaim key domain] in
  throw NativeError "UNIQUE constraint failed"
    when (existsb (fun o => String.eqb (ow_key o) key && owned_by type id o) owners) ;;
  Ok (claims', owners ++ [MkOwner key domain type id]).

Fixpoint insert_claims (type : string) (id : Z) (domains : list string)
    (st : list domain_claim * list claim_owner) : fallible (list domain_claim * list claim_owner) :=
  match domains with
  | [] => Ok st
  | d :: ds => let? st' := insert_claim type id d st in insert_claims type id ds st'
  end.

(** The last statement: claims of the touched names that nobody owns go. *)
Definition drop_orphans (affected : list string) (owners : list claim_owner)
    (claims : list domain_claim) : list domain_claim :=
  delete_where (fun c => wanted affected (cl_key c) &&
                         negb (existsb (fun o => String.eqb (ow_key o) (cl_key c)) owners)) claims.

(** [write] gets the transaction and returns the identifier of the host it
    wrote, if its result has one. *)
Definition withHostDomainClaims (op : claim_options)
    (write : W -> fallible (option Z * W)) (r : registry W) : fallible (option Z * registry W) :=
  let type := op_hostType op in
  throw InternalValidationError "Invalid host domain claim owner"
    when (negb (existsb (String.eqb type) hostTypes) ||
          match op_hostId op with Some id => negb (is_owner_id id) | None => false end) ;;
  let? own := normalizeDomainClaims (op_domainNames op) in
  let? retained := normalizeDomainClaims (op_retained op) in
  let? names := normalizeDomainClaims (own ++ retained) in
  throw ConfigurationError "The host domain claim registry is not initialized"
    when (negb (Nat.eqb (rg_locks r) 1)) ;;
  let existing := match op_hostId op with
                  | Some id => select_where (owned_by type id) (rg_owners r)
                  | None => []
                  end in
  let existingNames := map ow_name existing in
  let? _ := match first_where (conflicting type (op_hostId op) existingNames)
                    (select_where (fun o => wanted names (ow_key o)) (rg_owners r)) with
            | Some c => Throw (ValidationError (ow_name c ++ " is already in use")%string)
            | None => Ok tt
            end in
  let? (result, world) := write (rg_world r) in
  let? ownerId := match op_hostId op with
                  | Some id => Ok id
                  | None => match result with
                            | Some id =>
                                throw InternalValidationError
                                  "A host domain claim write must return its new host ID"
                                  when (negb (is_owner_id id)) ;; Ok id
                            | None => Throw (InternalValidationError
                                        "A host domain claim write must return its new host ID")
                            end
                  end in
  let? (claims, owners) := insert_claims type ownerId names
          (rg_claims r, delete_where (owned_by type ownerId) (rg_owners r)) in
  let affected := unique (existingNames ++ names) in
  Ok (result, MkRegistry (drop_orphans affected owners claims) owners (rg_locks r) world).

End Claims.

(** ** Lists of names *)

Lemma unique_from_in seen xs x :
  In x (unique_from seen xs) <-> In x xs /\ ~ In x seen.
Proof.
  revert seen. induction xs as [|y xs IH]; intros seen; simpl; [tauto|].
  destruct (existsb (String.eqb y) seen) eqn:E; simpl; rewrite IH.
  - apply existsb_exists in E as (z & Hz & ->%String.eqb_eq).
    split; [tauto|]. intros [[->|?] ?]; tauto.
  - assert (~ In y seen) as Hy.
    { intros Hin. assert (existsb (String.eqb y) seen = true) as Ht; [|congruence].
      apply existsb_exists. exists y. by rewrite String.eqb_refl. }
    simpl. split; [|destruct (String.string_dec y x)]; firstorder congruence.
Qed.

Lemma unique_from_NoDup seen xs : List.NoDup (unique_from seen xs).
Proof.
  revert seen. induction xs as [|y xs IH]; intros seen; simpl; [constructor|].
  destruct (existsb _ seen); [done|]. constructor; [|done].
  rewrite unique_from_in. simpl. tauto.
Qed.

Lemma in_unique xs x : In x (unique xs) <-> In x xs.
Proof. unfold unique. rewrite unique_from_in. simpl. tauto. Qed.

(** What the registry stores for the two name lists of a call. *)
Definition claimed_names (op : claim_options) : list string :=
  unique (map to_lower (unique (map to_lower (op_domainNames op)) ++
                        unique (map to_lower (op_retained op)))).

Lemma claimed_names_lower op d : In d (claimed_names op) -> to_lower d = d.
Proof.
  unfold claimed_names. rewrite in_unique, in_map_iff. intros (x & <- & _). apply to_lower_idem.
Qed.

Lemma in_claimed_names op d :
  In d (claimed_names op) <-> exists x, In x (op_domainNames op ++ op_retained op) /\ d = to_lower x.
Proof.
  unfold claimed_names. rewrite in_unique, in_map_iff. split.
  - intros (y & <- & Hin). rewrite in_app_iff, !in_unique, !in_map_iff in Hin.
    destruct Hin as [(x & <- & Hx)|(x & <- & Hx)]; exists x; rewrite to_lower_idem, in_app_iff; auto.
  - intros (x & Hx & ->). exists (to_lower x). split; [apply to_lower_idem|].
    rewrite in_app_iff in Hx. rewrite in_app_iff, !in_unique. destruct Hx; eauto using in_map.
Qed.

(** ** The registry *)

Section Invariant.
Context `{KeyHash} {W : Type}.
Implicit Types r : registry W.

Definition owner_key (o : claim_owner) : string * string * Z := (ow_key o, ow_type o, ow_id o).

Record registry_inv r : Prop := {
  ri_claim_keys : List.NoDup (map cl_key (rg_claims r));
  ri_owner_keys : List.NoDup (map owner_key (rg_owners r));
  ri_hashed : forall o, In o (rg_owners r) -> ow_key o = domainClaimKey (ow_name o);
  ri_lower : forall o, In o (rg_owners r) -> to_lower (ow_name o) = ow_name o;
  ri_claimed : forall o, In o (rg_owners r) -> In (ow_key o) (map cl_key (rg_claims r));
  ri_owned : forall c, In c (rg_claims r) -> exists o, In o (rg_owners r) /\ ow_key o = cl_key c
}.

(** The host (type, id) holds a registry key. *)
Definition holds r (type : string) (id : Z) (key : string) : Prop :=
  exists o, In o (rg_owners r) /\ owned_by type id o = true /\ ow_key o = key.

Lemma owned_by_spec type id o : owned_by type id o = true <-> ow_type o = type /\ ow_id o = id.
Proof. unfold owned_by. rewrite andb_true_iff, String.eqb_eq, Z.eqb_eq. done. Qed.

Definition new_owner (type : string) (id : Z) (d : string) : claim_owner :=
  MkOwner (domainClaimKey d) d type id.

Lemma insert_claims_spec type id ds claims owners claims' owners' :
  insert_claims type id ds (claims, owners) = Ok (claims', owners') ->
  owners' = owners ++ map (new_owner type id) ds /\
  (List.NoDup (map cl_key claims) -> List.NoDup (map cl_key claims')) /\
  (List.NoDup (map owner_key owners) -> List.NoDup (map owner_key owners')) /\
  (forall c, In c claims' -> In c claims \/ exists d, In d ds /\ cl_key c = domainClaimKey d) /\
  (forall c, In c claims -> In c claims') /\
  (forall d, In d ds -> In (domainClaimKey d) (map cl_key claims')).
Proof.
  revert claims owners. induction ds as [|d ds IH]; intros claims owners Hi.
  { injection Hi as <- <-. rewrite app_nil_r. split_and!; auto; by intros ? []. }
  simpl in Hi. unfold insert_claim in Hi. ok_inv Hi. ok_inv E. injection E as <-.
  apply IH in Hi as (-> & Hc & Ho & Hsub & Hsup & Hall).
  set (claims1 := if existsb _ claims then _ else _) in *.
  assert (In (domainClaimKey d) (map cl_key claims1)) as Hd.
  { subst claims1. destruct (existsb _ claims) eqn:Ex.
    - apply existsb_exists in Ex as (c & Hcin & <-%String.eqb_eq). by apply in_map.
    - rewrite map_app, in_app_iff. simpl. auto. }
  split_and!.
  - by rewrite <- app_assoc.
  - intros Hnd. apply Hc. subst claims1. destruct (existsb _ claims) eqn:Ex; [done|].
    apply key_fresh_app; [done|]. simpl. intros (c & Hck & Hcin)%in_map_iff.
    assert (existsb (fun c => String.eqb (cl_key c) (domainClaimKey d)) claims = true); [|congruence].
    apply existsb_exists. exists c. split; [done|]. by apply String.eqb_eq.
  - intros Hnd. apply Ho. apply key_fresh_app; [done|]. intros (o & Hok & Hoin)%in_map_iff.
    injection Hok as Hk Ht Hid.
    assert (existsb (fun o => String.eqb (ow_key o) (domainClaimKey d) && owned_by type id o) owners
            = true); [|congruence].
    apply existsb_exists. exists o. split; [done|]. simpl in *. rewrite Hk, String.eqb_refl.
    by apply owned_by_spec.
  - intros c [Hcin|(d' & ? & ?)]%Hsub; [|right; simpl; eauto]. subst claims1.
    destruct (existsb _ claims); [by left|]. apply in_app_iff in Hcin as [?|[<-|[]]]; [by left|].
    right. exists d. simpl. auto.
  - intros c Hcin. apply Hsup. subst claims1. destruct (existsb _ claims); [done|].
    apply in_app_iff. auto.
  - intros d' [->|Hin]; [|by apply Hall]. apply in_map_iff in Hd as (c & <- & Hcin).
    by apply in_map, Hsup.
Qed.

Lemma insert_claims_succeeds type id ds claims owners :
  List.NoDup (map domainClaimKey ds) ->
  (forall o d, In o owners -> In d ds -> ow_key o = domainClaimKey d -> owned_by type id o = false) ->
  exists st, insert_claims type id ds (claims, owners) = Ok st.
Proof.
  revert claims owners. induction ds as [|d ds IH]; intros claims owners Hnd Hfree; [by eexists|].
  simpl. inversion Hnd as [|? ? Hd Hnd']; subst.
  destruct (existsb (fun o => String.eqb (ow_key o) (domainClaimKey d) && owned_by type id o) owners)
    eqn:Ex; simpl.
  - apply existsb_exists in Ex as (o & Hin & [Hk%String.eqb_eq Hown]%andb_true_iff).
    rewrite (Hfree o d) in Hown; simpl; auto. done.
  - apply IH; [done|]. intros o d' [Hin|[<-|[]]]%in_app_iff Hd' Hk.
    + apply (Hfree o d'); simpl; auto.
    + simpl in Hk. destruct Hd. rewrite Hk. by apply in_map.
Qed.

Lemma in_drop_orphans affected owners claims c :
  In c (drop_orphans affected owners claims) <->
  In c claims /\ (wanted affected (cl_key c) = true ->
                  exists o, In o owners /\ ow_key o = cl_key c).
Proof.
  unfold drop_orphans. rewrite in_delete. split; intros [Hc Hw]; (split; [done|]).
  - intros Hwant. rewrite Hwant in Hw. simpl in Hw. apply negb_false_iff in Hw.
    apply existsb_exists in Hw as (o & ? & ?%String.eqb_eq). eauto.
  - destruct (wanted affected (cl_key c)); [|done]. simpl. apply negb_false_iff, existsb_exists.
    destruct (Hw eq_refl) as (o & ? & Hk). exists o. split; [done|]. by apply String.eqb_eq.
Qed.

Lemma wanted_spec names key :
  wanted names key = true <-> exists d, In d names /\ domainClaimKey d = key.
Proof.
  unfold wanted. rewrite existsb_eqb_In, in_map_iff. firstorder.
Qed.

(** The names the host of the call holds when the call starts. *)
Definition existing_names (op : claim_options) r : list string :=
  match op_hostId op with
  | Some id => map ow_name (select_where (owned_by (op_hostType op) id) (rg_owners r))
  | None => []
  end.

(** A successful call, taken apart. *)
Lemma claims_inversion op write r result r' :
  withHostDomainClaims op write r = Ok (result, r') ->
  exists id world claims owners,
    (op_hostId op = Some id \/ (op_hostId op = None /\ result = Some id)) /\ is_owner_id id = true /\
    (forall o, In o (rg_owners r) -> wanted (claimed_names op) (ow_key o) = true ->
       conflicting (op_hostType op) (op_hostId op) (existing_names op r) o = false) /\
    write (rg_world r) = Ok (result, world) /\
    insert_claims (op_hostType op) id (claimed_names op)
      (rg_claims r, delete_where (owned_by (op_hostType op) id) (rg_owners r)) = Ok (claims, owners) /\
    r' = MkRegistry (drop_orphans (unique (existing_names op r ++ claimed_names op)) owners claims)
           owners (rg_locks r) world.
Proof.
  unfold withHostDomainClaims, normalizeDomainClaims. intros Hw.
  ok_inv Hw. apply orb_false_iff in G as [_ Hid].
  do 3 (ok_inv Hw). ok_inv E. ok_inv E0. ok_inv E1. simplify_eq.
  fold (claimed_names op) in Hw. ok_inv Hw.
  set (ex := map ow_name _) in Hw.
  replace ex with (existing_names op r) in * by (subst ex; unfold existing_names; by destruct (op_hostId op)).
  destruct (first_where (conflicting _ _ _) _) eqn:Ef in Hw; [done|]. simpl in Hw.
  destruct (write (rg_world r)) as [[res world]|] eqn:Ew; [|done]. simpl in Hw.
  ok_inv Hw. destruct (insert_claims _ _ _ _) as [[claims owners]|] eqn:Ei; [|done]. simpl in Hw.
  injection Hw as <- <-. exists v, world, claims, owners. split_and!; try done.
  - destruct (op_hostId op); [left; congruence|]. destruct res; [|done]. ok_inv E. right. split; congruence.
  - destruct (op_hostId op); [injection E as ->; by apply negb_false_iff|].
    destruct res; [|done]. ok_inv E. injection E as ->. by apply negb_false_iff.
  - intros o Hin Hwant. eapply first_where_None; [exact Ef|]. by apply in_select.
Qed.
End Invariant.

(** ** Properties *)

Section Properties.
Context `{KeyHash} {W : Type}.
Implicit Types r : registry W.

(** A write that creates a host returns an identifier no claim mentions. *)
Definition fresh_host (op : claim_options) (result : option Z) r : Prop :=
  op_hostId op = None ->
  forall o id, In o (rg_owners r) -> result = Some id -> owned_by (op_hostType op) id o = false.

Lemma deleted_owner_kept type id o r :
  In o (rg_owners r) -> owned_by type id o = false ->
  In o (delete_where (owned_by type id) (rg_owners r)).
Proof. intros. by apply in_delete. Qed.

(** A call keeps the registry sound. *)
Lemma registry_kept op write r result r' :
  registry_inv r -> withHostDomainClaims op write r = Ok (result, r') ->
  fresh_host op result r -> registry_inv r'.
Proof.
  intros [Hck Hok Hh Hlow Hcl Hown] Hw Hfresh.
  apply claims_inversion in Hw as (id & world & claims & owners & Hid & _ & _ & _ & Hi & ->).
  set (type := op_hostType op) in *. set (names := claimed_names op) in *.
  apply insert_claims_spec in Hi as (-> & Hc & Ho & Hsub & Hsup & Hall).
  set (old := delete_where (owned_by type id) (rg_owners r)) in *.
  set (owners := old ++ map (new_owner type id) names).
  assert (forall o, In o owners -> (ow_key o = domainClaimKey (ow_name o) /\
            to_lower (ow_name o) = ow_name o) /\ In (ow_key o) (map cl_key claims)) as Howners.
  { intros o [Hin|Hin]%in_app_iff.
    - apply in_delete in Hin as [Hin _]. split; [by auto|].
      apply Hcl, in_map_iff in Hin as (c & <- & Hcin). by apply in_map, Hsup.
    - apply in_map_iff in Hin as (d & <- & Hd). simpl. split; [|by apply Hall].
      split; [done|]. by eapply claimed_names_lower. }
  constructor; simpl.
  - apply NoDup_map_delete. auto.
  - apply Ho. by apply NoDup_map_delete.
  - intros o Hin. by apply Howners.
  - intros o Hin. by apply Howners.
  - intros o Hin. destruct (Howners o Hin) as [_ Hk]. apply in_map_iff in Hk as (c & Hck' & Hcin).
    apply in_map_iff. exists c. split; [done|]. apply in_drop_orphans. split; [done|]. eauto.
  - intros c [Hcin Hw]%in_drop_orphans.
    destruct (Hsub c Hcin) as [Hold|(d & Hd & Hk)].
    + destruct (Hown c Hold) as (o & Ho' & Hk).
      destruct (owned_by type id o) eqn:Em.
      * apply Hw. apply wanted_spec. exists (ow_name o). split; [|by rewrite <- Hh].
        apply in_unique, in_app_iff. left. unfold existing_names.
        destruct Hid as [->|[Hn Hres]].
        -- apply in_map, in_select. done.
        -- pose proof (Hfresh Hn o id Ho' Hres). subst type. congruence.
      * exists o. split; [|done]. apply in_app_iff. left. by apply deleted_owner_kept.
    + exists (new_owner type id d). split; [|done]. apply in_app_iff. right. by apply in_map.
Qed.

(** C15: The registry stays sound through every host write: keys are unique
    and are the hash of their name, every ownership row refers to a claim,
    and no claim is left without an owner. *)
Theorem claim_registry_stays_sound op write r result r' :
  registry_inv r -> withHostDomainClaims op write r = Ok (result, r') ->
  fresh_host op result r -> registry_inv r'.
Proof. apply registry_kept. Qed.

(** No host write makes two hosts share a name: if two different hosts
    hold a registry key afterwards, both held it before.  So in a registry
    without legacy collisions every name has one owner for ever. *)
Theorem names_gain_no_second_owner op write r result r' t1 id1 t2 id2 key :
  registry_inv r -> withHostDomainClaims op write r = Ok (result, r') ->
  holds r' t1 id1 key -> holds r' t2 id2 key -> (t1, id1) <> (t2, id2) ->
  holds r t1 id1 key /\ holds r t2 id2 key.
Proof.
  intros [_ _ Hh _ _ _] Hw H1 H2 Hne.
  apply claims_inversion in Hw as (id & world & claims & owners & Hid & _ & Hfree & _ & Hi & ->).
  apply insert_claims_spec in Hi as (-> & _).
  set (type := op_hostType op) in *. set (names := claimed_names op) in *.
  assert (forall t i, holds (MkRegistry (drop_orphans (unique (existing_names op r ++ names))
             (delete_where (owned_by type id) (rg_owners r) ++ map (new_owner type id) names) claims)
             (delete_where (owned_by type id) (rg_owners r) ++ map (new_owner type id) names)
             (rg_locks r) world) t i key ->
           ((t, i) <> (type, id) /\ holds r t i key) \/
           ((t, i) = (type, id) /\ exists d, In d names /\ domainClaimKey d = key)) as Hsplit.
  { intros t i (o & Ho & Hb & Hk). apply owned_by_spec in Hb as [<- <-].
    simpl in Ho. apply in_app_iff in Ho as [Ho|Ho].
    - apply in_delete in Ho as [Ho Hb]. left. split.
      + intros [= Ht Hi]. assert (owned_by type id o = true); [by apply owned_by_spec|congruence].
      + exists o. split_and!; try done. by apply owned_by_spec.
    - apply in_map_iff in Ho as (d & <- & Hd). right. split; [done|]. eauto. }
  (* A newcomer shares a key only with itself. *)
  assert (forall t i, (t, i) <> (type, id) -> holds r t i key ->
            (exists d, In d names /\ domainClaimKey d = key) -> holds r type id key) as Hnew.
  { intros t i Hti (o & Ho & Hb & Hk) (d & Hd & Hdk).
    assert (wanted names (ow_key o) = true) as Hwant by (apply wanted_spec; exists d; split; congruence).
    pose proof (Hfree o Ho Hwant) as Hc. unfold conflicting in Hc.
    apply andb_false_iff in Hc as [Hc|Hc]; apply negb_false_iff in Hc.
    - destruct Hid as [Heq|[Heq _]]; fold type in Hc; rewrite Heq in Hc; [|done].
      apply owned_by_spec in Hc as [? ?], Hb as [? ?]. congruence.
    - apply existsb_eqb_In in Hc. unfold existing_names in Hc.
      destruct Hid as [Heq|[Heq _]]; rewrite Heq in Hc; [|done].
      apply in_map_iff in Hc as (e & He & Hein). apply in_select in Hein as [Hein Hown].
      exists e. split_and!; try done. rewrite (Hh e Hein), He, <- (Hh o Ho). done. }
  destruct (Hsplit _ _ H1) as [[Hn1 Hh1]|[He1 Hd1]], (Hsplit _ _ H2) as [[Hn2 Hh2]|[He2 Hd2]].
  - done.
  - split; [done|]. injection He2 as -> ->. by eapply Hnew.
  - split; [|done]. injection He1 as -> ->. by eapply Hnew.
  - congruence.
Qed.

(** The ownership rows after a successful host write. *)
Lemma owners_after op write r result r' :
  withHostDomainClaims op write r = Ok (result, r') ->
  exists id, (op_hostId op = Some id \/ (op_hostId op = None /\ result = Some id)) /\
    (exists w, write (rg_world r) = Ok (result, w) /\ rg_world r' = w) /\
    map ow_name (select_where (owned_by (op_hostType op) id) (rg_owners r')) = claimed_names op /\
    (forall d, In d (claimed_names op) <->
       exists x, In x (op_domainNames op ++ op_retained op) /\ d = to_lower x) /\
    delete_where (owned_by (op_hostType op) id) (rg_owners r') =
      delete_where (owned_by (op_hostType op) id) (rg_owners r).
Proof.
  intros (id & world & claims & owners & Hid & _ & _ & Hwr & Hi & ->)%claims_inversion.
  apply insert_claims_spec in Hi as (-> & _). exists id. simpl.
  set (type := op_hostType op) in *.
  assert (forall d, owned_by type id (new_owner type id d) = true) as Hmine
    by (intros d; by apply owned_by_spec).
  assert (forall o, In o (map (new_owner type id) (claimed_names op)) -> owned_by type id o = true)
    as Hnew by (intros o (d & <- & _)%in_map_iff; apply Hmine).
  split_and!; [done|eauto| |apply in_claimed_names|].
  - unfold select_where. rewrite List.filter_app.
    change (List.filter ?p ?t) with (select_where p t).
    rewrite select_deleted, select_all by done. simpl. rewrite map_map. apply map_id.
  - unfold delete_where at 1. rewrite List.filter_app.
    change (List.filter _ ?t) with (delete_where (owned_by type id) t).
    by rewrite delete_deleted, (delete_all _ (map _ _)), app_nil_r.
Qed.

(** A successful host write leaves the host with exactly the lower-cased
    names it asked for, and changes no ownership of any other host. *)
Theorem host_owns_exactly_its_names op write r result r' :
  withHostDomainClaims op write r = Ok (result, r') ->
  exists id, (op_hostId op = Some id \/ (op_hostId op = None /\ result = Some id)) /\
    (exists w, write (rg_world r) = Ok (result, w) /\ rg_world r' = w) /\
    map ow_name (select_where (owned_by (op_hostType op) id) (rg_owners r')) = claimed_names op /\
    (forall d, In d (claimed_names op) <->
       exists x, In x (op_domainNames op ++ op_retained op) /\ d = to_lower x) /\
    delete_where (owned_by (op_hostType op) id) (rg_owners r') =
      delete_where (owned_by (op_hostType op) id) (rg_owners r).
Proof. apply owners_after. Qed.

(** The parts of a call that do not depend on the registry. *)
Definition valid_options (op : claim_options) : bool :=
  existsb (String.eqb (op_hostType op)) hostTypes &&
  match op_hostId op with Some id => is_owner_id id | None => true end &&
  negb (existsb (String.eqb "") (op_domainNames op ++ op_retained op)).

(** How a well-formed call starts. *)
Lemma valid_call op write r :
  valid_options op = true -> rg_locks r = 1%nat ->
  withHostDomainClaims op write r =
  (let? _ := match first_where (conflicting (op_hostType op) (op_hostId op) (existing_names op r))
                     (select_where (fun o => wanted (claimed_names op) (ow_key o)) (rg_owners r)) with
             | Some c => Throw (ValidationError (ow_name c ++ " is already in use")%string)
             | None => Ok tt
             end in
   let? (result, world) := write (rg_world r) in
   let? id := match op_hostId op, result with
              | Some id, _ => Ok id
              | None, Some id => if is_owner_id id then Ok id else
                  Throw (InternalValidationError "A host domain claim write must return its new host ID")
              | None, None =>
                  Throw (InternalValidationError "A host domain claim write must return its new host ID")
              end in
   let? (claims, owners) := insert_claims (op_hostType op) id (claimed_names op)
           (rg_claims r, delete_where (owned_by (op_hostType op) id) (rg_owners r)) in
   Ok (result, MkRegistry (drop_orphans (unique (existing_names op r ++ claimed_names op)) owners claims)
                 owners (rg_locks r) world)).
Proof.
  intros Hv Hl. unfold valid_options in Hv. boolify.
  unfold withHostDomainClaims, normalizeDomainClaims, throw_if. rewrite H0, Hl.
  rewrite existsb_app in H1. apply orb_false_iff in H1 as [Hd Hr]. rewrite Hd, Hr.
  replace (match op_hostId op with Some id => negb (is_owner_id id) | None => false end) with false
    by (destruct (op_hostId op); [by rewrite H2|done]).
  cbn [rbind negb orb Nat.eqb]. fold (claimed_names op).
  replace (existsb (String.eqb "") (unique (map to_lower (op_domainNames op)) ++
            unique (map to_lower (op_retained op)))) with false.
  2: { symmetry. apply not_true_is_false.
    rewrite existsb_eqb_In, in_app_iff, !in_unique, !in_map_iff.
    intros [(x & Hx & Hin)|(x & Hx & Hin)]; destruct x; try done;
      [rewrite <- not_true_iff_false in Hd; apply Hd
      |rewrite <- not_true_iff_false in Hr; apply Hr]; by apply existsb_eqb_In. }
  cbn [rbind]. unfold existing_names.
  destruct (op_hostId op) as [id|]; cbn [map]; [done|].
  destruct (first_where _ _); simpl; [done|].
  destruct (write (rg_world r)) as [[[id|] w]|]; simpl; [|done|done].
  by destruct (is_owner_id id).
Qed.

(** A name that another host holds, and this host does not, is refused
    before the host write runs: the call throws a validation error naming a
    domain of another host, whatever the write would have done. *)
Theorem foreign_name_is_refused op r o d :
  registry_inv r -> valid_options op = true -> rg_locks r = 1%nat ->
  In o (rg_owners r) -> In d (op_domainNames op ++ op_retained op) -> ow_name o = to_lower d ->
  (forall id, op_hostId op = Some id -> ~ holds r (op_hostType op) id (ow_key o)) ->
  exists c, In c (rg_owners r) /\
    (forall id, op_hostId op = Some id -> owned_by (op_hostType op) id c = false) /\
    forall write, withHostDomainClaims op write r =
      Throw (ValidationError (ow_name c ++ " is already in use")%string).
Proof.
  intros [_ _ Hh _ _ _] Hv Hl Hin Hd Hname Hnot.
  assert (conflicting (op_hostType op) (op_hostId op) (existing_names op r) o = true) as Hconf.
  { unfold conflicting, existing_names. destruct (op_hostId op) as [id|]; [|done].
    apply andb_true_iff. split; apply negb_true_iff, not_true_is_false.
    - intros Hb. apply (Hnot id); [done|]. by exists o.
    - intros Hb. apply existsb_eqb_In, in_map_iff in Hb as (e & He & Hein).
      apply in_select in Hein as [Hein Hown]. apply (Hnot id); [done|]. exists e.
      split_and!; try done. by rewrite (Hh e Hein), He, <- (Hh o Hin). }
  assert (wanted (claimed_names op) (ow_key o) = true) as Hwant.
  { apply wanted_spec. exists (ow_name o). split; [apply in_claimed_names; eauto|by rewrite (Hh o Hin)]. }
  destruct (first_where (conflicting (op_hostType op) (op_hostId op) (existing_names op r))
              (select_where (fun o => wanted (claimed_names op) (ow_key o)) (rg_owners r))) as [c|] eqn:Ef.
  - pose proof (first_where_Some _ _ _ Ef) as [[Hc _]%in_select Hcc]. exists c. split_and!; [done| |].
    + intros id Hid. unfold conflicting in Hcc. rewrite Hid in Hcc. by boolify.
    + intros write. rewrite valid_call by done. by rewrite Ef.
  - eapply first_where_None in Ef; [|apply in_select; eauto]. congruence.
Qed.

(** With a collision-free hash, a well-formed call that nobody opposes, and whose
    write succeeds, always succeeds. *)
Lemma unopposed_names_are_granted op write r result w :
  registry_inv r -> valid_options op = true -> rg_locks r = 1%nat ->
  (forall a b, key_hash a = key_hash b -> a = b) ->
  (forall o d, In o (rg_owners r) -> In d (op_domainNames op ++ op_retained op) ->
     ow_name o = to_lower d -> conflicting (op_hostType op) (op_hostId op) (existing_names op r) o = false) ->
  write (rg_world r) = Ok (result, w) ->
  (op_hostId op = None -> exists id, result = Some id /\ is_owner_id id = true) ->
  exists r', withHostDomainClaims op write r = Ok (result, r').
Proof.
  intros [_ _ Hh Hlow _ _] Hv Hl Hinj Hfree Hwr Hid. rewrite valid_call by done.
  set (names := claimed_names op).
  assert (first_where (conflicting (op_hostType op) (op_hostId op) (existing_names op r))
            (select_where (fun o => wanted names (ow_key o)) (rg_owners r)) = None) as ->.
  { destruct (first_where _ _) as [c|] eqn:Ef; [|done].
    apply first_where_Some in Ef as [[Hc Hwant]%in_select Hconf].
    apply wanted_spec in Hwant as (d & Hd & Hk).
    pose proof (claimed_names_lower _ _ Hd) as Hdl. apply in_claimed_names in Hd as (x & Hx & ->).
    rewrite (Hh c Hc) in Hk. unfold domainClaimKey in Hk. apply Hinj in Hk.
    rewrite Hdl, (Hlow c Hc) in Hk. rewrite (Hfree c x Hc Hx (eq_sym Hk)) in Hconf. done. }
  simpl. rewrite Hwr. simpl.
  assert (List.NoDup (map domainClaimKey names)) as Hnd.
  { subst names. pose proof (claimed_names_lower op) as Hl'.
    pose proof (unique_from_NoDup [] (map to_lower (unique (map to_lower (op_domainNames op)) ++
                                    unique (map to_lower (op_retained op))))) as Hnd.
    change (unique_from _ _) with (claimed_names op) in Hnd.
    induction (claimed_names op) as [|d ds IH]; simpl in *; [constructor|].
    inversion Hnd as [|? ? Hni Hnd']; subst. constructor; [|auto].
    intros (d' & Hk & Hd')%in_map_iff. apply Hinj in Hk. rewrite !Hl' in Hk by auto. congruence. }
  assert (forall id, exists st, insert_claims (op_hostType op) id names
            (rg_claims r, delete_where (owned_by (op_hostType op) id) (rg_owners r)) = Ok st) as Hins.
  { intros id. apply insert_claims_succeeds; [done|]. by intros o d [_ ?]%in_delete _ _. }
  destruct (op_hostId op) as [id|]; simpl.
  - destruct (Hins id) as [[cs os] ->]. by eexists.
  - destruct (Hid eq_refl) as (id & -> & ->). simpl. destruct (Hins id) as [[cs os] ->]. by eexists.
Qed.

(** With a collision-free hash, a well-formed call whose names nobody
    else holds, and whose write succeeds, always succeeds. *)
Theorem free_names_are_granted op write r result w :
  registry_inv r -> valid_options op = true -> rg_locks r = 1%nat ->
  (forall a b, key_hash a = key_hash b -> a = b) ->
  (forall o d, In o (rg_owners r) -> In d (op_domainNames op ++ op_retained op) ->
     ow_name o = to_lower d -> exists id, op_hostId op = Some id /\ owned_by (op_hostType op) id o = true) ->
  write (rg_world r) = Ok (result, w) ->
  (op_hostId op = None -> exists id, result = Some id /\ is_owner_id id = true) ->
  exists r', withHostDomainClaims op write r = Ok (result, r').
Proof.
  intros Hi Hv Hl Hinj Hfree Hwr Hid. apply (unopposed_names_are_granted op write r result w); try done.
  intros o d Ho Hd He. destruct (Hfree o d Ho Hd He) as (id & Heq & Hown). unfold conflicting. by rewrite Heq, Hown.
Qed.
End Properties.

(** ** A concrete registry *)

Section DemoRegistry.
Definition plain_keys : KeyHash := {| key_hash := fun s => s |}.
#[local] Existing Instance plain_keys.

(** Host 1 holds two names, host 2 one; the outside world counts writes. *)
Definition demo_registry : registry Z :=
  MkRegistry [MkClaim "a.example" "a.example"; MkClaim "b.example" "b.example"; MkClaim "c.example" "c.example"]
    [MkOwner "a.example" "a.example" "proxy" 1; MkOwner "b.example" "b.example" "proxy" 1;
     MkOwner "c.example" "c.example" "dead" 2] 1 0.

Definition demo_write (n : Z) : fallible (option Z * Z) := Ok (None, n + 1).

(** Host 1 renames b to d. *)
Definition demo_rename : claim_options :=
  MkOptions "proxy" (Some 1) ["A.example"; "D.Example"] ["a.example"].
Definition demo_renamed : registry Z :=
  MkRegistry [MkClaim "a.example" "a.example"; MkClaim "c.example" "c.example"; MkClaim "d.example" "d.example"]
    [MkOwner "c.example" "c.example" "dead" 2; MkOwner "a.example" "a.example" "proxy" 1;
     MkOwner "d.example" "d.example" "proxy" 1] 1 1.
(** Host 1 reaches for the name of host 2. *)
Definition demo_theft : claim_options := MkOptions "proxy" (Some 1) ["C.example"] [].

Lemma demo_registry_inv : registry_inv demo_registry.
Proof.
  constructor; simpl.
  - repeat constructor; simpl; intuition discriminate.
  - repeat constructor; simpl; intuition discriminate.
  - by intros o [<-|[<-|[<-|[]]]].
  - by intros o [<-|[<-|[<-|[]]]].
  - intros o [<-|[<-|[<-|[]]]]; simpl; auto.
  - intros c [<-|[<-|[<-|[]]]]; eexists; simpl; eauto.
Qed.

Lemma claim_registry_stays_sound_witness :
  withHostDomainClaims demo_rename demo_write demo_registry = Ok (None, demo_renamed) /\
  registry_inv demo_renamed.
Proof.
  split; [vm_compute; reflexivity|].
  apply (claim_registry_stays_sound demo_rename demo_write demo_registry None demo_renamed);
    [apply demo_registry_inv|vm_compute; reflexivity|discriminate].
Defined.

(** A registry with a legacy collision on one name, kept by both hosts. *)
Definition demo_legacy : registry Z :=
  MkRegistry [MkClaim "x" "x"] [MkOwner "x" "x" "proxy" 1; MkOwner "x" "x" "dead" 2] 1 0.
Definition demo_keep : claim_options := MkOptions "proxy" (Some 1) ["x"; "y"] [].
Definition demo_kept : registry Z :=
  MkRegistry [MkClaim "x" "x"; MkClaim "y" "y"]
    [MkOwner "x" "x" "dead" 2; MkOwner "x" "x" "proxy" 1; MkOwner "y" "y" "proxy" 1] 1 1.

Lemma names_gain_no_second_owner_witness :
  withHostDomainClaims demo_keep demo_write demo_legacy = Ok (None, demo_kept) /\
  holds demo_legacy "proxy" 1 "x" /\ holds demo_legacy "dead" 2 "x".
Proof.
  split; [vm_compute; reflexivity|].
  apply (names_gain_no_second_owner demo_keep demo_write demo_legacy None demo_kept).
  - constructor; simpl; [repeat constructor; simpl; tauto
      |repeat constructor; simpl; intuition discriminate|by intros o [<-|[<-|[]]]
      |by intros o [<-|[<-|[]]]|intros o [<-|[<-|[]]]; simpl; auto
      |intros c [<-|[]]; eexists; simpl; eauto].
  - vm_compute. reflexivity.
  - eexists. split; [simpl; right; left; reflexivity|]. split; reflexivity.
  - eexists. split; [simpl; left; reflexivity|]. split; reflexivity.
  - discriminate.
Defined.

Lemma host_owns_exactly_its_names_witness :
  map ow_name (select_where (owned_by "proxy" 1) (rg_owners demo_renamed)) = ["a.example"; "d.example"] /\
  claimed_names demo_rename = ["a.example"; "d.example"].
Proof.
  destruct (host_owns_exactly_its_names demo_rename demo_write demo_registry None demo_renamed)
    as (id & [Hid|[Hid _]] & _ & Hnames & _); [vm_compute; reflexivity| |discriminate Hid].
  injection Hid as <-. split; [exact Hnames|reflexivity].
Defined.

Lemma foreign_name_is_refused_witness :
  exists c, In c (rg_owners demo_registry) /\ owned_by "proxy" 1 c = false /\
    withHostDomainClaims demo_theft demo_write demo_registry =
      Throw (ValidationError (ow_name c ++ " is already in use")%string).
Proof.
  destruct (foreign_name_is_refused demo_theft demo_registry
              (MkOwner "c.example" "c.example" "dead" 2) "C.example") as (c & Hc & Hown & Hw);
    [apply demo_registry_inv|reflexivity|reflexivity|simpl; auto|simpl; auto|reflexivity| |].
  - intros id [= <-] (o & Ho & Hb & Hk). simpl in Ho.
    destruct Ho as [<-|[<-|[<-|[]]]]; discriminate.
  - exists c. split; [exact Hc|]. split; [by apply Hown|apply Hw].
Defined.

Lemma free_names_are_granted_witness :
  exists r', withHostDomainClaims demo_rename demo_write demo_registry = Ok (None, r').
Proof.
  eapply (free_names_are_granted demo_rename demo_write demo_registry);
    [apply demo_registry_inv|reflexivity|reflexivity|done| |reflexivity|discriminate].
  intros o d Ho Hd Hn. exists 1. split; [reflexivity|]. simpl in Ho, Hd.
  destruct Ho as [<-|[<-|[<-|[]]]]; try reflexivity.
  destruct Hd as [<-|[<-|[<-|[]]]]; discriminate.
Defined.
End DemoRegistry.
