(* ===== verification/Nginx.v ===== *)
(** Staging, validation, activation and rollback of generated host
    configurations (src/backend/internal/nginx.js).

    The state is the configuration directory (paths to contents), the
    configuration the server is running, and the host rows.  Nginx's own
    verdict on a set of files and the template engine are parameters.  The
    configuration lock serialises the operations, so each is one state
    function; file operations fail only because a file is absent. *)

From S2P Require Import Prelude JsString Errors.
From stdpp Require Import gmap strings.
#[local] Open Scope string_scope.
#[local] Open Scope list_scope.
#[local] Open Scope Z_scope.

(** ** Data *)

(** The metadata column of a host: whether it still carries active bindings
    of the retired request filters, and the last activation status.  A column
    that is not a JSON object cannot be read. *)
Inductive host_meta : Type :=
| Meta (active_retired : bool) (nginx_online : option bool) (nginx_err : option string)
| UnreadableMeta.

(** The columns the activation reads; [n_body] is every other column. *)
Record host (B : Type) : Type := MkNHost {
  n_id : Z;
  n_is_deleted : bool;
  n_enabled : bool;
  n_meta : host_meta;
  n_body : B
}.
Arguments MkNHost {B} _ _ _ _ _.
Arguments n_id {B} _.
Arguments n_is_deleted {B} _.
Arguments n_enabled {B} _.
Arguments n_meta {B} _.
Arguments n_body {B} _.

Abbreviation file_tree := (gmap string string).

(** The machine: files on disk, the configuration the server runs, and the
    host rows by host type. *)
Record node (B : Type) : Type := MkNode {
  nd_files : file_tree;
  nd_running : file_tree;
  nd_hosts : string -> list (host B)
}.
Arguments MkNode {B} _ _ _.
Arguments nd_files {B} _.
Arguments nd_running {B} _.
Arguments nd_hosts {B} _.

(** What is outside: [render_text now type host] renders the template of a
    host (writing its side files first), and [nginx_verdict] is the message of
    [nginx -t] on the active files, if it refuses them. *)
Class NginxEnv (B : Type) : Type := {
  render_text : Z -> string -> host B -> fallible string;
  nginx_verdict : file_tree -> option string
}.

(** ** File names *)

(** [replace(/-/g, "_")] *)
Definition getFileFriendlyHostType (host_type : string) : string :=
  smap (fun c => if Ascii.eqb c "-"%char then "_"%char else c) host_type.

Definition getConfigName (host_type : string) (id : Z) : string :=
  if String.eqb host_type "default" then "/data/nginx/default.conf"
  else ("/data/nginx/" ++ getFileFriendlyHostType host_type ++ "/" ++ show_Z id ++ ".conf")%string.

Definition config_file (host_type : string) (id : Z) : string :=
  getConfigName (getFileFriendlyHostType host_type) id.
Definition backup_file (host_type : string) (id : Z) : string := (config_file host_type id ++ ".bak")%string.
Definition error_file (host_type : string) (id : Z) : string := (config_file host_type id ++ ".err")%string.

(** The server includes the files whose name ends in [.conf]. *)
Definition is_active_name (path : string) : bool := ends_with ".conf" path.
Definition active_files (t : file_tree) : file_tree :=
  filter (fun kv => is_active_name (fst kv) = true) t.

(** ** File operations *)

(** [fs.rename]: nothing happens when the source is absent. *)
Definition rename_file (a b : string) (t : file_tree) : file_tree :=
  match t !! a with
  | Some c => <[b := c]> (delete a t)
  | None => t
  end.

Definition backupConfig (host_type : string) (id : Z) (t : file_tree) : file_tree :=
  match t !! config_file host_type id with
  | Some c => <[backup_file host_type id := c]> t
  | None => delete (backup_file host_type id) t
  end.

Definition renameConfigAsError (host_type : string) (id : Z) : file_tree -> file_tree :=
  rename_file (config_file host_type id) (error_file host_type id).
Definition restoreConfig (host_type : string) (id : Z) : file_tree -> file_tree :=
  rename_file (backup_file host_type id) (config_file host_type id).
Definition deleteBackupConfig (host_type : string) (id : Z) : file_tree -> file_tree :=
  delete (backup_file host_type id).
Definition deleteConfig (host_type : string) (id : Z) (t : file_tree) : file_tree :=
  delete (error_file host_type id) (delete (config_file host_type id) t).

(** ** Operations *)

(** An operation returns or throws, and leaves a node behind either way. *)
Definition action (B A : Type) : Type := node B -> fallible A * node B.

Section Operations.
Context {B : Type} `{NginxEnv B}.
Implicit Types h : host B.

Definition set_files (t : file_tree) (n : node B) : node B := MkNode t (nd_running n) (nd_hosts n).
Definition set_hosts (host_type : string) (rows : list (host B)) (n : node B) : node B :=
  MkNode (nd_files n) (nd_running n)
    (fun t => if String.eqb t host_type then rows else nd_hosts n t).

Definition by_id (id : Z) h : bool := n_id h =? id.
Definition find_host (host_type : string) (id : Z) (n : node B) : option (host B) :=
  first_where (by_id id) (nd_hosts n host_type).

(** A failing callback in the middle of a sequence of actions. *)
Definition ret {A} (a : A) : action B A := fun n => (Ok a, n).
Definition fail {A} (e : error) : action B A := fun n => (Throw e, n).
Definition bind {A C} (m : action B A) (k : A -> action B C) : action B C :=
  fun n => match m n with
           | (Ok a, n') => k a n'
           | (Throw e, n') => (Throw e, n')
           end.
Definition catch {A} (m : action B A) (k : error -> action B A) : action B A :=
  fun n => match m n with
           | (Ok a, n') => (Ok a, n')
           | (Throw e, n') => k e n'
           end.
Definition on_files (f : file_tree -> file_tree) : action B unit :=
  fun n => (Ok tt, set_files (f (nd_files n)) n).
Definition lift {A} (r : fallible A) : action B A := fun n => (r, n).

Definition hasActiveRetiredHostBindings (m : host_meta) : fallible bool :=
  match m with
  | Meta a _ _ => Ok a
  | UnreadableMeta =>
      Throw (NativeError "Host metadata requires review before removed request filters can be migrated")
  end.

(** Dropping the retired fields; an active policy also disables the host. *)
Definition retireHostRuntime h : fallible (host B) :=
  match n_meta h with
  | Meta true _ err => Ok (MkNHost (n_id h) (n_is_deleted h) false (Meta false (Some false) err) (n_body h))
  | Meta false online err =>
      Ok (MkNHost (n_id h) (n_is_deleted h) (n_enabled h) (Meta false online err) (n_body h))
  | UnreadableMeta =>
      Throw (NativeError "Host metadata requires review before removed request filters can be migrated")
  end.

(** [sanitizeHostMeta] removes the retired fields as well. *)
Definition sanitizeHostMeta (m : host_meta) : fallible host_meta :=
  match m with
  | Meta _ online err => Ok (Meta false online err)
  | UnreadableMeta =>
      Throw (NativeError "Host metadata requires review before removed request filters can be migrated")
  end.

Definition with_meta (m : host_meta) h : host B :=
  MkNHost (n_id h) (n_is_deleted h) (n_enabled h) m (n_body h).
Definition with_enabled (b : bool) h : host B :=
  MkNHost (n_id h) (n_is_deleted h) b (n_meta h) (n_body h).

Definition patch_host (host_type : string) (id : Z) (f : host B -> host B) (n : node B) : node B :=
  set_hosts host_type (patch_where (by_id id) f (nd_hosts n host_type)) n.

(** Merge a status into the current metadata of the row. *)
Definition updateHostStatus (host_type : string) h (online : bool) (err : option string)
    : action B host_meta :=
  fun n =>
    let current := find_host host_type (n_id h) n in
    match sanitizeHostMeta (match current with Some c => n_meta c | None => n_meta h end) with
    | Throw e => (Throw e, n)
    | Ok _ =>
        let m := Meta false (Some online) err in
        (Ok m, match current with
               | Some _ => patch_host host_type (n_id h) (with_meta m) n
               | None => n
               end)
    end.

(** [nginx -tq] over the active files. *)
Definition test : action B unit :=
  fun n => match nginx_verdict (active_files (nd_files n)) with
           | None => (Ok tt, n)
           | Some msg => (Throw (CommandError msg), n)
           end.

(** Validate, then signal the server, which loads the active files: after a test
    that passed, the signal is taken to arrive. *)
Definition reload : action B unit :=
  bind test (fun _ n => (Ok tt, MkNode (nd_files n) (active_files (nd_files n)) (nd_hosts n))).

Definition renderConfig (now : Z) (host_type : string) h : fallible string :=
  let nice := getFileFriendlyHostType host_type in
  let? h' := (if String.eqb nice "proxy_host" then retireHostRuntime h else Ok h) in
  render_text now nice (if n_is_deleted h' || negb (n_enabled h') then with_enabled false h' else h').

(** Write the rendered text, or throw without touching the file. *)
Definition generateConfig (now : Z) (host_type : string) h : action B unit :=
  fun n => match renderConfig now host_type h with
           | Ok text => (Ok tt, set_files (<[getConfigName host_type (n_id h) := text]> (nd_files n)) n)
           | Throw e => (Throw (ConfigurationError (e_message e)), n)
           end.

(** The host a configuration is rendered from: the current row, never the
    caller's snapshot; a deleted or missing host is rendered disabled. *)
Definition current_host (host_type : string) (snapshot : host B) (n : node B) : host B :=
  match find_host host_type (n_id snapshot) n with
  | None => with_enabled false snapshot
  | Some c => if n_is_deleted c then with_enabled false c else c
  end.

(** Retire active bindings before anything is rendered. *)
Definition retire_bindings (host_type : string) (snapshot : host B) : action B (host B) :=
  fun n =>
    let h := current_host host_type snapshot n in
    match find_host host_type (n_id snapshot) n with
    | Some c =>
        if negb (n_is_deleted c) && String.eqb (getFileFriendlyHostType host_type) "proxy_host" then
          match hasActiveRetiredHostBindings (n_meta h) with
          | Throw e => (Throw e, n)
          | Ok false => (Ok h, n)
          | Ok true =>
              match retireHostRuntime c with
              | Throw e => (Throw e, n)
              | Ok safe =>
                  (Ok (with_meta (n_meta safe) (with_enabled (n_enabled safe) h)),
                   patch_host host_type (n_id c) (fun r => with_meta (n_meta safe) (with_enabled false r)) n)
              end
          end
        else (Ok h, n)
    | None => (Ok h, n)
    end.

(** Back up, then generate; a failed generation puts the backup back. *)
Definition stage_files (now : Z) (host_type : string) h : action B unit :=
  bind (on_files (backupConfig host_type (n_id h))) (fun _ =>
  catch (generateConfig now host_type h) (fun e =>
    bind (on_files (renameConfigAsError host_type (n_id h))) (fun _ =>
    bind (on_files (restoreConfig host_type (n_id h))) (fun _ => fail e)))).

(** [configureHost] with [defer_validation]: the staged host. *)
Definition stageHost (now : Z) (host_type : string) (snapshot : host B) : action B (host B) :=
  bind (retire_bindings host_type snapshot) (fun h =>
  bind (stage_files now host_type h) (fun _ => ret h)).

Definition rolled_back (e : error) : option string :=
  Some ("[Rolled back] Configuration failed: " ++ e_message e)%string.

(** Activate a staged host and drop the backup. *)
Definition activateStaged (host_type : string) (skip_reload : bool) h : action B host_meta :=
  bind (if skip_reload then test else reload) (fun _ =>
  bind (updateHostStatus host_type h (n_enabled h) None) (fun m =>
  bind (on_files (deleteBackupConfig host_type (n_id h))) (fun _ => ret m))).

(** The configuration is bad: restore the previous one and load it again. *)
Definition refuseStaged (host_type : string) (skip_reload : bool) h (e : error) : action B host_meta :=
  bind (on_files (renameConfigAsError host_type (n_id h))) (fun _ =>
  bind (on_files (restoreConfig host_type (n_id h))) (fun _ =>
  bind (if skip_reload then ret tt else reload) (fun _ =>
  updateHostStatus host_type h false (rolled_back e)))).

(** [configureHost] without deferral. *)
Definition configureHost (now : Z) (host_type : string) (snapshot : host B) (skip_reload : bool)
    : action B host_meta :=
  bind (stageHost now host_type snapshot) (fun h =>
  catch (activateStaged host_type skip_reload h) (refuseStaged host_type skip_reload h)).

Definition commitStagedConfig (host_type : string) h (preserveBackup : bool) : action B host_meta :=
  bind (updateHostStatus host_type h (n_enabled h) None) (fun m =>
  bind (if preserveBackup then ret tt else on_files (deleteBackupConfig host_type (n_id h))) (fun _ =>
  ret m)).

Definition rollbackStagedConfig (host_type : string) h (e : error) : action B host_meta :=
  bind (on_files (renameConfigAsError host_type (n_id h))) (fun _ =>
  bind (on_files (restoreConfig host_type (n_id h))) (fun _ =>
  updateHostStatus host_type h false (rolled_back e))).

(** [Promise.allSettled] over independent actions: every one runs. *)
Fixpoint all_settled {A C} (f : A -> action B C) (xs : list A) (n : node B)
    : list (fallible C) * node B :=
  match xs with
  | [] => ([], n)
  | x :: xs' =>
      let '(r, n1) := f x n in
      let '(rs, n2) := all_settled f xs' n1 in (r :: rs, n2)
  end.

(** The first rejection is thrown. *)
Definition unwrap {C} (rs : list (fallible C)) : fallible (list C) := rmapM (fun r => r) rs.

Definition stage : Type := (string * host B)%type.

(** The staging loop; on an exception the stages made so far are known. *)
Fixpoint stage_all (now : Z) (hosts : list stage) (done_ : list stage) (n : node B)
    : list stage * option error * node B :=
  match hosts with
  | [] => (done_, None, n)
  | (ht, snapshot) :: hosts' =>
      match stageHost now ht snapshot n with
      | (Ok h, n') => stage_all now hosts' (done_ ++ [(ht, h)]) n'
      | (Throw e, n') => (done_, Some e, n')
      end
  end.

Definition rollback_all (e : error) (stages : list stage) : node B -> list (fallible host_meta) * node B :=
  all_settled (fun s => rollbackStagedConfig (fst s) (snd s) e) stages.

(** The handler of [bulkGenerateConfigGroups]. *)
Definition bulk_failed (e : error) (stages : list stage) (opt_reload throwOnError : bool)
    : action B (list host_meta) :=
  fun n =>
    let '(rollbacks, n1) := rollback_all e stages n in
    bind (if opt_reload then reload else ret tt)
      (fun _ => lift (let? metas := unwrap rollbacks in
                      if throwOnError then Throw e else Ok metas)) n1.

Definition bulkGenerateConfigGroups (now : Z) (hosts : list stage) (opt_reload throwOnError : bool)
    : action B (list host_meta) :=
  fun n =>
    match stage_all now hosts [] n with
    | (stages, Some e, n1) => bulk_failed e stages opt_reload throwOnError n1
    | (stages, None, n1) =>
        match (if opt_reload then reload else test) n1 with
        | (Throw e, n2) => bulk_failed e stages opt_reload throwOnError n2
        | (Ok _, n2) =>
            let '(commits, n3) :=
              all_settled (fun s => commitStagedConfig (fst s) (snd s) true) stages n2 in
            match unwrap commits with
            | Throw e => bulk_failed e stages opt_reload throwOnError n3
            | Ok statuses =>
                let '(_, n4) :=
                  all_settled (fun s => on_files (deleteBackupConfig (fst s) (n_id (snd s)))) stages n3 in
                (Ok statuses, n4)
            end
        end
    end.
End Operations.

(** ** File names *)

Lemma friendly_idem s : getFileFriendlyHostType (getFileFriendlyHostType s) = getFileFriendlyHostType s.
Proof.
  unfold getFileFriendlyHostType. induction s as [|c s IH]; [done|]. simpl. rewrite IH.
  f_equal. by destruct (Ascii.eqb_spec c "-"%char) as [->|Hne%Ascii.eqb_neq]; [|rewrite Hne].
Qed.

Lemma friendly_default s : getFileFriendlyHostType s = "default" <-> s = "default".
Proof.
  split; [|by intros ->]. unfold getFileFriendlyHostType.
  assert (forall t w, smap (fun c => if Ascii.eqb c "-"%char then "_"%char else c) t = w ->
            has_char "_"%char w = false -> t = w) as Hsame.
  { induction t as [|c t IH]; intros w <-; [done|]. simpl. rewrite has_char_cons.
    intros [Hc Ht]%orb_false_iff. f_equal; [|by apply IH].
    destruct (Ascii.eqb_spec c "-"%char); [done|done]. }
  intros Hd. by apply Hsame in Hd.
Qed.

(** Generation writes the file that was backed up. *)
Lemma config_file_name host_type id : config_file host_type id = getConfigName host_type id.
Proof.
  unfold config_file, getConfigName.
  destruct (String.eqb_spec host_type "default") as [->|Hne]; [done|].
  destruct (String.eqb_spec (getFileFriendlyHostType host_type) "default") as [Hd|Hd];
    [destruct Hne; by apply friendly_default|]. by rewrite friendly_idem.
Qed.

Lemma config_file_active host_type id : is_active_name (config_file host_type id) = true.
Proof.
  unfold is_active_name, config_file, getConfigName. destruct (String.eqb _ _); [done|].
  apply ends_with_spec.
  eexists ("/data/nginx/" ++ getFileFriendlyHostType (getFileFriendlyHostType host_type) ++ "/" ++ show_Z id)%string.
  by rewrite !append_assoc.
Qed.

Lemma backup_file_inactive host_type id : is_active_name (backup_file host_type id) = false.
Proof. apply ends_with_false. unfold backup_file. by rewrite last_char_append. Qed.
Lemma error_file_inactive host_type id : is_active_name (error_file host_type id) = false.
Proof. apply ends_with_false. unfold error_file. by rewrite last_char_append. Qed.

Lemma backup_error_file t i t' i' : backup_file t i <> error_file t' i'.
Proof.
  intros H. apply (f_equal last_char) in H. unfold backup_file, error_file in H.
  by rewrite !last_char_append in H.
Qed.

Lemma backup_file_inj t i t' i' : backup_file t i = backup_file t' i' -> config_file t i = config_file t' i'.
Proof. apply append_inj_l. Qed.

(** Different hosts of one type have different files. *)
Lemma config_file_inj ht id id' :
  ht <> "default" -> 0 <= id -> 0 <= id' -> config_file ht id = config_file ht id' -> id = id'.
Proof.
  intros Hd Hid Hid'. rewrite !config_file_name. unfold getConfigName.
  destruct (String.eqb_spec ht "default"); [done|]. intros Heq.
  do 3 apply append_inj_r in Heq. apply append_inj_l in Heq. by apply show_Z_inj.
Qed.

(** ** The files one host owns *)

Lemma active_files_eq (t t' : file_tree) :
  (forall p, is_active_name p = true -> t !! p = t' !! p) -> active_files t = active_files t'.
Proof.
  intros Heq. unfold active_files. apply map_eq. intros p. apply option_eq. intros c.
  rewrite !map_lookup_filter_Some. simpl. split; intros [Hl Ha]; (split; [|done]).
  - by rewrite <- Heq.
  - by rewrite Heq.
Qed.

Lemma active_files_lookup (t : file_tree) p c :
  active_files t !! p = Some c <-> t !! p = Some c /\ is_active_name p = true.
Proof. unfold active_files. by rewrite map_lookup_filter_Some. Qed.

(** The three names of a host's files. *)
Definition owns (ht : string) (id : Z) (p : string) : Prop :=
  p = config_file ht id \/ p = backup_file ht id \/ p = error_file ht id.

Lemma active_backup p ht id : is_active_name p = true -> p <> backup_file ht id.
Proof. intros Hp ->. by rewrite backup_file_inactive in Hp. Qed.
Lemma active_error p ht id : is_active_name p = true -> p <> error_file ht id.
Proof. intros Hp ->. by rewrite error_file_inactive in Hp. Qed.

Lemma config_backup ht id ht' id' : config_file ht id <> backup_file ht' id'.
Proof. apply active_backup, config_file_active. Qed.
Lemma config_error ht id ht' id' : config_file ht id <> error_file ht' id'.
Proof. apply active_error, config_file_active. Qed.

#[local] Hint Resolve config_backup config_error backup_error_file : shield.
#[local] Hint Extern 1 (_ <> config_file _ _) => apply not_eq_sym : shield.
#[local] Hint Extern 1 (error_file _ _ <> _) => apply not_eq_sym : shield.

Lemma lookup_backup_own ht id (t : file_tree) :
  backupConfig ht id t !! backup_file ht id = t !! config_file ht id.
Proof.
  unfold backupConfig. destruct (t !! config_file ht id) eqn:E; rewrite ?E.
  - by rewrite lookup_insert_eq.
  - by rewrite lookup_delete_eq.
Qed.

Lemma lookup_backup_other ht id (t : file_tree) p :
  p <> backup_file ht id -> backupConfig ht id t !! p = t !! p.
Proof.
  intros Hp. unfold backupConfig. destruct (t !! config_file ht id).
  - by rewrite lookup_insert_ne.
  - by rewrite lookup_delete_ne.
Qed.

Lemma lookup_rename_other a b (t : file_tree) p :
  p <> a -> p <> b -> rename_file a b t !! p = t !! p.
Proof.
  intros Ha Hb. unfold rename_file. destruct (t !! a); [|done].
  rewrite lookup_insert_ne by done. by rewrite lookup_delete_ne.
Qed.

Lemma lookup_rename_source a b (t : file_tree) : a <> b -> rename_file a b t !! a = None.
Proof.
  intros Hab. unfold rename_file. destruct (t !! a) eqn:E; [|done].
  rewrite lookup_insert_ne by done. by rewrite lookup_delete_eq.
Qed.

(** Moving the bad configuration away and the backup back in place. *)
Definition undo (ht : string) (id : Z) (t : file_tree) : file_tree :=
  restoreConfig ht id (renameConfigAsError ht id t).

Lemma lookup_undo_own ht id (t : file_tree) :
  undo ht id t !! config_file ht id = t !! backup_file ht id.
Proof.
  unfold undo, restoreConfig.
  assert (renameConfigAsError ht id t !! backup_file ht id = t !! backup_file ht id) as Hb
    by (apply lookup_rename_other; auto with shield).
  unfold rename_file at 1. rewrite Hb. destruct (t !! backup_file ht id) eqn:E.
  - by rewrite lookup_insert_eq.
  - apply lookup_rename_source. auto with shield.
Qed.

Lemma lookup_undo_other ht id (t : file_tree) p :
  ~ owns ht id p -> undo ht id t !! p = t !! p.
Proof.
  intros Hp. unfold owns in Hp. unfold undo, restoreConfig, renameConfigAsError.
  rewrite !lookup_rename_other; naive_solver.
Qed.

(** Undoing a staged write gives the active files back. *)
Lemma undo_backup_active ht id (t t' : file_tree) :
  t' !! backup_file ht id = t !! config_file ht id ->
  (forall p, is_active_name p = true -> p <> config_file ht id -> t' !! p = t !! p) ->
  forall p, is_active_name p = true -> undo ht id t' !! p = t !! p.
Proof.
  intros Hb Hother p Hp. destruct (decide (p = config_file ht id)) as [->|Hne].
  - by rewrite lookup_undo_own.
  - rewrite lookup_undo_other; [auto|].
    intros [?|[?|?]]; [done|by eapply active_backup|by eapply active_error].
Qed.

(** ** Actions that leave files alone *)

Section Frames.
Context {B : Type} `{NginxEnv B}.
Implicit Types (h : host B) (n : node B).

Lemma bind_ok {A C} (m : action B A) (k : A -> action B C) n r n' :
  bind m k n = (r, n') ->
  (exists a n1, m n = (Ok a, n1) /\ k a n1 = (r, n')) \/
  (exists e, m n = (Throw e, n') /\ r = Throw e).
Proof.
  unfold bind. destruct (m n) as [[a|e] n1]; [left; eauto|].
  intros [= <- <-]. right. eauto.
Qed.

Lemma updateHostStatus_frame ht h online err n r n' :
  updateHostStatus ht h online err n = (r, n') ->
  nd_files n' = nd_files n /\ nd_running n' = nd_running n.
Proof.
  unfold updateHostStatus. destruct (sanitizeHostMeta _); intros [= <- <-]; [|done].
  by destruct (find_host ht (n_id h) n).
Qed.

Lemma retire_bindings_frame ht snapshot n r n' :
  retire_bindings ht snapshot n = (r, n') ->
  nd_files n' = nd_files n /\ nd_running n' = nd_running n /\
  (forall h, r = Ok h -> n_id h = n_id snapshot).
Proof.
  unfold retire_bindings, current_host.
  destruct (find_host ht (n_id snapshot) n) as [c|] eqn:Ef.
  - pose proof (first_where_Some _ _ _ Ef) as [_ Hid]. unfold by_id in Hid. boolify.
    destruct (n_is_deleted c); simpl.
    + intros [= <- <-]. split_and!; try done. by intros h [= <-].
    + destruct (String.eqb _ _); simpl; [|intros [= <- <-]; split_and!; try done; by intros h [= <-]].
      destruct (hasActiveRetiredHostBindings (n_meta c)) as [[]|];
        [|intros [= <- <-]; split_and!; try done; by intros h [= <-]
         |by intros [= <- <-]].
      destruct (retireHostRuntime c); intros [= <- <-]; split_and!; try done; by intros h [= <-].
  - intros [= <- <-]. split_and!; try done. by intros h [= <-].
Qed.

(** Staging the files of one host: on success its text is in place and the
    old file is in the backup; on failure the active files are as before. *)
Lemma stage_files_spec now ht h n r n' :
  stage_files now ht h n = (r, n') ->
  nd_running n' = nd_running n /\ nd_hosts n' = nd_hosts n /\
  (forall p, ~ owns ht (n_id h) p -> nd_files n' !! p = nd_files n !! p) /\
  match r with
  | Ok _ => exists text, renderConfig now ht h = Ok text /\
      nd_files n' !! config_file ht (n_id h) = Some text /\
      nd_files n' !! backup_file ht (n_id h) = nd_files n !! config_file ht (n_id h)
  | Throw _ => nd_files n' !! config_file ht (n_id h) = nd_files n !! config_file ht (n_id h)
  end.
Proof.
  unfold stage_files, bind, catch, on_files, generateConfig. rewrite <- config_file_name.
  destruct (renderConfig now ht h) as [text|e]; intros [= <- <-]; simpl; split_and!; try done.
  - intros p Hp. unfold owns in Hp. rewrite lookup_insert_ne by naive_solver.
    apply lookup_backup_other. naive_solver.
  - exists text. split; [done|]. rewrite lookup_insert_eq, lookup_insert_ne by auto with shield.
    split; [done|]. apply lookup_backup_own.
  - intros p Hp. etrans; [by apply (lookup_undo_other ht (n_id h))|].
    apply lookup_backup_other. unfold owns in Hp. naive_solver.
  - etrans; [apply (lookup_undo_own ht (n_id h))|]. apply lookup_backup_own.
Qed.
End Frames.

(** ** Batches *)

Ltac case_settled H rs n E :=
  match type of H with context [all_settled ?f ?xs ?m] => destruct (all_settled f xs m) as [rs n] eqn:E end.

Section Batch.
Context {B : Type} `{NginxEnv B}.
Implicit Types (n : node B) (s : @stage B) (t : file_tree).

Definition cfg s : string := config_file (fst s) (n_id (snd s)).

Lemma owns_cfg s p : is_active_name p = true -> p <> cfg s -> ~ owns (fst s) (n_id (snd s)) p.
Proof. intros Hp Hne [?|[?|?]]; [done|by eapply active_backup|by eapply active_error]. Qed.

Lemma owns_backup s s' :
  cfg s <> cfg s' -> ~ owns (fst s) (n_id (snd s)) (backup_file (fst s') (n_id (snd s'))).
Proof.
  intros Hne [Hp|[Hp|Hp]].
  - symmetry in Hp. by apply config_backup in Hp.
  - apply Hne. symmetry. by apply backup_file_inj.
  - by eapply backup_error_file.
Qed.

(** With these stages made: the old file of each is in its backup and every
    other active file is as it was. *)
Record staged t0 (stages : list (@stage B)) t : Prop := {
  sg_backup : forall s, In s stages ->
    t !! backup_file (fst s) (n_id (snd s)) = t0 !! cfg s;
  sg_other : forall p, is_active_name p = true -> ~ In p (map cfg stages) -> t !! p = t0 !! p
}.

Definition rendered now t s : Prop :=
  exists text, renderConfig now (fst s) (snd s) = Ok text /\ t !! cfg s = Some text.

Lemma stageHost_spec now ht snapshot n r n' :
  stageHost now ht snapshot n = (r, n') ->
  nd_running n' = nd_running n /\
  (forall p, ~ owns ht (n_id snapshot) p -> nd_files n' !! p = nd_files n !! p) /\
  match r with
  | Ok h => n_id h = n_id snapshot /\ rendered now (nd_files n') (ht, h) /\
      nd_files n' !! backup_file ht (n_id h) = nd_files n !! cfg (ht, h)
  | Throw _ => nd_files n' !! config_file ht (n_id snapshot) = nd_files n !! config_file ht (n_id snapshot)
  end.
Proof.
  unfold stageHost. intros [(h & n1 & Hr & Hs)|(e & Hr & ->)]%bind_ok.
  - apply retire_bindings_frame in Hr as (Hf & Hrun & Hid). specialize (Hid h eq_refl).
    apply bind_ok in Hs as [(u & n2 & Hs & Hret)|(e & Hs & ->)];
      apply stage_files_spec in Hs as (Hrun2 & _ & Hother & Hs); rewrite Hid in *.
    + injection Hret as <- <-. rewrite <- Hrun, <- Hf. destruct Hs as (text & Ht & Hc & Hb).
      split_and!; try done; unfold rendered, cfg; simpl; rewrite Hid; eauto.
    + rewrite <- Hrun, <- Hf. done.
  - apply retire_bindings_frame in Hr as (Hf & Hrun & _). by rewrite Hf, Hrun.
Qed.

Lemma staged_app t0 stages t s t' :
  staged t0 stages t -> ~ In (cfg s) (map cfg stages) ->
  (forall p, ~ owns (fst s) (n_id (snd s)) p -> t' !! p = t !! p) ->
  t' !! backup_file (fst s) (n_id (snd s)) = t !! cfg s ->
  staged t0 (stages ++ [s]) t'.
Proof.
  intros [Hb Ho] Hni Hother Hown. constructor.
  - intros s' [Hin|[<-|[]]]%in_app_iff.
    + rewrite Hother; [auto|]. apply owns_backup. intros Heq. apply Hni. rewrite Heq. by apply in_map.
    + rewrite Hown. apply Ho; [apply config_file_active|done].
  - intros p Hp. rewrite map_app, in_app_iff. simpl. intros Hnp.
    rewrite Hother; [naive_solver|]. apply owns_cfg; naive_solver.
Qed.

(** A batch under way: distinct files, all staged, all with their text. *)
Record batch now t0 (stages : list (@stage B)) t : Prop := {
  bt_staged : staged t0 stages t;
  bt_names : List.NoDup (map cfg stages);
  bt_texts : Forall (rendered now t) stages
}.

Lemma batch_nil now t : batch now t [] t.
Proof. constructor; [constructor; [by intros ? []|done]|constructor|constructor]. Qed.

Lemma rendered_other now t t' stages ht id :
  (forall p, ~ owns ht id p -> t' !! p = t !! p) ->
  ~ In (config_file ht id) (map cfg stages) ->
  Forall (rendered now t) stages -> Forall (rendered now t') stages.
Proof.
  intros Hother Hni Hr. rewrite Forall_forall in Hr |- *. intros s Hin.
  destruct (Hr s Hin) as (text & Ht & Hl). exists text. split; [done|]. rewrite Hother; [done|].
  intros [Heq|[Heq|Heq]].
  - apply Hni. rewrite <- Heq. apply in_map. by apply list_elem_of_In.
  - by apply config_backup in Heq.
  - by apply config_error in Heq.
Qed.

Lemma batch_ok now t0 stages ht snapshot n h n' :
  batch now t0 stages (nd_files n) -> ~ In (cfg (ht, snapshot)) (map cfg stages) ->
  stageHost now ht snapshot n = (Ok h, n') ->
  batch now t0 (stages ++ [(ht, h)]) (nd_files n') /\ nd_running n' = nd_running n /\
  cfg (ht, h) = cfg (ht, snapshot).
Proof.
  intros [Hst Hnd Hr] Hni (Hrun & Hother & Hid & Hren & Hb)%stageHost_spec.
  assert (cfg (ht, h) = cfg (ht, snapshot)) as Hcfg by (unfold cfg; simpl; by rewrite Hid).
  split_and!; try done. constructor.
  - eapply staged_app; [exact Hst|by rewrite Hcfg| |done]. simpl. by rewrite Hid.
  - apply key_fresh_app; [done|by rewrite Hcfg].
  - apply Forall_app. split; [|by repeat constructor]. by eapply rendered_other.
Qed.

Lemma batch_fail now t0 stages ht snapshot n e n' :
  batch now t0 stages (nd_files n) -> ~ In (cfg (ht, snapshot)) (map cfg stages) ->
  stageHost now ht snapshot n = (Throw e, n') ->
  batch now t0 stages (nd_files n') /\ nd_running n' = nd_running n.
Proof.
  intros [[Hb Ho] Hnd Hr] Hni (Hrun & Hother & Hsame)%stageHost_spec.
  assert (forall p, is_active_name p = true -> nd_files n' !! p = nd_files n !! p) as Hact.
  { intros p Hp. destruct (decide (p = config_file ht (n_id snapshot))) as [->|Hne]; [done|].
    apply Hother. by apply (owns_cfg (ht, snapshot)). }
  split; [|done]. constructor; [constructor| |].
  - intros s Hin. rewrite Hother; [auto|]. apply (owns_backup (ht, snapshot)).
    intros Heq. apply Hni. rewrite Heq. by apply in_map.
  - intros p Hp Hnp. rewrite Hact by done. auto.
  - done.
  - by eapply rendered_other.
Qed.

Lemma stage_all_spec now hosts done_ n stages eo n' t0 :
  stage_all now hosts done_ n = (stages, eo, n') ->
  List.NoDup (map cfg (done_ ++ hosts)) -> batch now t0 done_ (nd_files n) ->
  nd_running n' = nd_running n /\ batch now t0 stages (nd_files n') /\
  (eo = None -> map cfg stages = map cfg (done_ ++ hosts)).
Proof.
  revert done_ n. induction hosts as [|[ht snap] hosts IH]; intros done_ n Hs Hnd Hb; simpl in Hs.
  { injection Hs as <- <- <-. rewrite app_nil_r in *. by split_and!. }
  rewrite map_app in Hnd. simpl in Hnd.
  assert (~ In (cfg (ht, snap)) (map cfg done_)) as Hni.
  { apply NoDup_remove_2 in Hnd. rewrite in_app_iff in Hnd. tauto. }
  destruct (stageHost now ht snap n) as [[h|e] n1] eqn:E.
  - destruct (batch_ok _ _ _ _ _ _ _ _ Hb Hni E) as (Hb' & Hrun & Hcfg).
    apply IH in Hs as (Hrun' & Hst & Hmap); [|by rewrite !map_app, <- app_assoc; simpl; rewrite Hcfg|done].
    split_and!; [congruence|done|]. intros He. rewrite (Hmap He), !map_app. simpl.
    by rewrite Hcfg, <- app_assoc.
  - destruct (batch_fail _ _ _ _ _ _ _ _ Hb Hni E) as (Hb' & Hrun).
    by injection Hs as <- <- <-.
Qed.

Lemma rollback_spec ht h e n r n' :
  rollbackStagedConfig ht h e n = (r, n') ->
  nd_files n' = undo ht (n_id h) (nd_files n) /\ nd_running n' = nd_running n.
Proof.
  unfold rollbackStagedConfig, bind, on_files. intros Hr.
  apply updateHostStatus_frame in Hr as [-> ->]. done.
Qed.

Lemma rollback_all_spec e stages n rs n' t0 :
  rollback_all e stages n = (rs, n') ->
  List.NoDup (map cfg stages) -> staged t0 stages (nd_files n) ->
  nd_running n' = nd_running n /\
  forall p, is_active_name p = true -> nd_files n' !! p = t0 !! p.
Proof.
  revert n rs. unfold rollback_all. induction stages as [|s stages IH]; intros n rs Hr Hnd [Hb Ho].
  { injection Hr as <- <-. split; [done|]. intros p Hp. apply Ho; [done|by intros []]. }
  simpl in Hr. destruct (rollbackStagedConfig _ _ _ n) as [r n1] eqn:E.
  case_settled Hr rs' n2 Es. injection Hr as _ <-.
  apply rollback_spec in E as [Hf Hrun]. inversion Hnd as [|? ? Hni Hnd']; subst.
  edestruct IH as [Hrun' Hall]; [exact Es|done| |split; [congruence|done]].
  constructor.
  - intros s' Hin. rewrite Hf, lookup_undo_other; [apply Hb; by right|].
    apply owns_backup. intros Heq. apply Hni. rewrite Heq. by apply in_map.
  - intros p Hp Hnp. rewrite Hf. destruct (decide (p = cfg s)) as [->|Hne].
    + unfold cfg at 1. rewrite lookup_undo_own. apply Hb. by left.
    + rewrite lookup_undo_other by by apply owns_cfg. apply Ho; [done|]. simpl. intros [Heq|Hin]; congruence.
Qed.

Lemma reload_spec n r n' :
  reload n = (r, n') ->
  nd_files n' = nd_files n /\ nd_hosts n' = nd_hosts n /\
  match r with
  | Ok _ => nginx_verdict (active_files (nd_files n)) = None /\
            nd_running n' = active_files (nd_files n)
  | Throw _ => nginx_verdict (active_files (nd_files n)) <> None /\ n' = n
  end.
Proof.
  unfold reload, bind, test. destruct (nginx_verdict _) as [m|] eqn:E; intros [= <- <-]; split_and!; try done; congruence.
Qed.

Lemma test_spec n r n' :
  test n = (r, n') ->
  n' = n /\ (is_ok r = true <-> nginx_verdict (active_files (nd_files n)) = None).
Proof. unfold test. destruct (nginx_verdict _) as [m|]; intros [= <- <-]; by split. Qed.

Lemma commit_frame ht h keep n r n' :
  commitStagedConfig ht h keep n = (r, n') ->
  nd_running n' = nd_running n /\
  (keep = true -> nd_files n' = nd_files n) /\
  (forall p, is_active_name p = true -> nd_files n' !! p = nd_files n !! p).
Proof.
  unfold commitStagedConfig. intros [(m & n1 & Hu & Hk)|(e & Hu & ->)]%bind_ok;
    apply updateHostStatus_frame in Hu as [Hf Hr]; [|by rewrite Hf, Hr].
  unfold bind in Hk. destruct keep; simpl in Hk; injection Hk as <- <-; simpl; rewrite Hf, ?Hr.
  - done.
  - split_and!; try done. intros p Hp. unfold deleteBackupConfig.
    rewrite lookup_delete_ne; [done|]. apply not_eq_sym. by apply active_backup.
Qed.

Lemma commit_all_frame stages n rs n' :
  all_settled (fun s => commitStagedConfig (fst s) (snd s) true) stages n = (rs, n') ->
  nd_running n' = nd_running n /\ nd_files n' = nd_files n.
Proof.
  revert n rs. induction stages as [|s stages IH]; intros n rs Hs; simpl in Hs; [by injection Hs as _ <-|].
  destruct (commitStagedConfig _ _ _ n) as [r n1] eqn:E.
  case_settled Hs rs' n2 Es. injection Hs as _ <-.
  apply commit_frame in E as (Hr & Hf & _). apply IH in Es as [-> ->]. by rewrite Hr, Hf.
Qed.

Lemma cleanup_all_frame (stages : list (@stage B)) n rs n' :
  all_settled (fun s => on_files (deleteBackupConfig (fst s) (n_id (snd s)))) stages n = (rs, n') ->
  nd_running n' = nd_running n /\ nd_hosts n' = nd_hosts n /\
  forall p, is_active_name p = true -> nd_files n' !! p = nd_files n !! p.
Proof.
  revert n rs. induction stages as [|s stages IH]; intros n rs Hs; simpl in Hs; [by injection Hs as _ <-|].
  case_settled Hs rs' n2 Es. injection Hs as _ <-.
  apply IH in Es as (-> & -> & Hp). split_and!; try done. intros p Ha. rewrite Hp by done. simpl.
  unfold deleteBackupConfig. rewrite lookup_delete_ne; [done|]. apply not_eq_sym. by apply active_backup.
Qed.
End Batch.

(** ** Properties *)

Section Properties.
Context {B : Type} `{NginxEnv B}.
Implicit Types (n : node B) (h : host B).

Definition valid_files n : Prop := nginx_verdict (active_files (nd_files n)) = None.

Lemma bulk_failed_spec e stages opt_reload throwOnError n0 n r n' :
  bulk_failed e stages opt_reload throwOnError n = (r, n') ->
  List.NoDup (map cfg stages) -> staged (nd_files n0) stages (nd_files n) -> valid_files n0 ->
  active_files (nd_files n') = active_files (nd_files n0) /\
  nd_running n' = (if opt_reload then active_files (nd_files n0) else nd_running n) /\
  (throwOnError = true -> is_ok r = false).
Proof.
  intros Hb Hnd Hst Hv. unfold bulk_failed in Hb.
  destruct (rollback_all e stages n) as [rs n1] eqn:Er.
  eapply rollback_all_spec in Er as [Hrun Hact]; [|done|done].
  apply active_files_eq in Hact. destruct opt_reload.
  - unfold bind in Hb. destruct (reload n1) as [rr n2] eqn:El.
    apply reload_spec in El as (Hf & _ & Hl). rewrite Hact in Hl. destruct rr; [|by destruct Hl].
    injection Hb as <- <-. rewrite Hf, Hact. split_and!; try done; [by destruct Hl|].
    intros ->. by destruct (unwrap rs).
  - injection Hb as <- <-. split_and!; try done. intros ->. by destruct (unwrap rs).
Qed.

(** What a batch leaves behind, whichever way it ends. *)
Lemma batch_outcome now hosts opt_reload throwOnError n r n' :
  List.NoDup (map cfg hosts) -> valid_files n ->
  bulkGenerateConfigGroups now hosts opt_reload throwOnError n = (r, n') ->
  (exists stages, map cfg stages = map cfg hosts /\ is_ok r = true /\
     Forall (rendered now (nd_files n')) stages /\ valid_files n' /\
     (forall p, is_active_name p = true -> ~ In p (map cfg hosts) ->
        nd_files n' !! p = nd_files n !! p) /\
     nd_running n' = if opt_reload then active_files (nd_files n') else nd_running n) \/
  (active_files (nd_files n') = active_files (nd_files n) /\
   nd_running n' = (if opt_reload then active_files (nd_files n) else nd_running n) /\
   (throwOnError = true -> is_ok r = false)).
Proof.
  intros Hnd Hv Hb. unfold bulkGenerateConfigGroups in Hb.
  destruct (stage_all now hosts [] n) as [[stages eo] n1] eqn:Es.
  eapply stage_all_spec in Es as (Hrun & [Hst Hnds Hren] & Hmap); [|done|apply batch_nil].
  destruct eo as [e|]; [right; rewrite <- Hrun; by eapply bulk_failed_spec|].
  assert (forall rr n2, (if opt_reload then reload else test) n1 = (rr, n2) ->
    nd_files n2 = nd_files n1 /\
    (is_ok rr = true -> valid_files n1 /\
       nd_running n2 = if opt_reload then active_files (nd_files n1) else nd_running n) /\
    (is_ok rr = false -> n2 = n1)) as Hload.
  { intros rr n2 Hl. destruct opt_reload.
    - apply reload_spec in Hl as (? & _ & Hl). destruct rr; simpl.
      + split_and!; [done| |done]. by intros _.
      + destruct Hl as [_ ->]. done.
    - apply test_spec in Hl as [-> Hl]. split_and!; try done. intros Hr. by apply Hl in Hr. }
  destruct ((if opt_reload then reload else test) n1) as [[u|e] n2] eqn:El;
    destruct (Hload _ _ eq_refl) as (Hf & Hok & Hbad); clear Hload.
  2: { right. rewrite (Hbad eq_refl) in Hb. rewrite <- Hrun. by eapply bulk_failed_spec. }
  destruct (Hok eq_refl) as [Hv1 Hrun2]. clear Hok Hbad.
  case_settled Hb commits n3 Ec. apply commit_all_frame in Ec as [Hr3 Hf3].
  destruct (unwrap commits) as [statuses|e].
  - left. case_settled Hb rs n4 Ed. injection Hb as <- <-.
    apply cleanup_all_frame in Ed as (Hr4 & _ & Hp4). rewrite Hf3, Hf in Hp4.
    pose proof (active_files_eq _ _ Hp4) as Hact. exists stages. split_and!; try done.
    + by apply Hmap.
    + rewrite Forall_forall in Hren |- *. intros s Hin. destruct (Hren s Hin) as (text & Ht & Hl).
      exists text. split; [done|]. rewrite Hp4; [done|apply config_file_active].
    + unfold valid_files. by rewrite Hact.
    + intros p Hp Hnp. rewrite Hp4 by done. destruct Hst as [_ Ho]. apply Ho; [done|].
      by rewrite Hmap.
    + rewrite Hr4, Hr3, Hrun2, Hact. done.
  - right. rewrite <- Hf, <- Hf3 in Hst.
    destruct (bulk_failed_spec _ _ _ _ _ _ _ _ Hb Hnds Hst Hv) as (Ha & Hr & Ht).
    split_and!; try done. rewrite Hr. destruct opt_reload; [done|]. by rewrite Hr3, Hrun2.
Qed.

(** C16: Activating a batch of hosts is all or nothing.  If the files on disk
    were valid before, then afterwards either every host of the batch has the
    text rendered for it, no other active file changed and the server accepts
    the whole set (and runs it, when a reload was asked for); or every active
    file is exactly as it was and the server runs what it ran before or, when a
    reload was asked for, the active files of before.  With [throwOnError] a
    normal return means the first.  The hosts of a batch are distinct. *)
Theorem batch_is_all_or_nothing now hosts opt_reload throwOnError n r n' :
  List.NoDup (map cfg hosts) -> valid_files n ->
  bulkGenerateConfigGroups now hosts opt_reload throwOnError n = (r, n') ->
  (exists stages, map cfg stages = map cfg hosts /\ is_ok r = true /\
     Forall (rendered now (nd_files n')) stages /\ valid_files n' /\
     (forall p, is_active_name p = true -> ~ In p (map cfg hosts) ->
        nd_files n' !! p = nd_files n !! p) /\
     nd_running n' = if opt_reload then active_files (nd_files n') else nd_running n) \/
  (active_files (nd_files n') = active_files (nd_files n) /\
   nd_running n' = (if opt_reload then active_files (nd_files n) else nd_running n) /\
   (throwOnError = true -> is_ok r = false)).
Proof. apply batch_outcome. Qed.

(** The status a configured host ends with. *)
Definition online (m : host_meta) : bool :=
  match m with Meta _ (Some true) None => true | _ => false end.

Lemma delete_backup_active ht id (t : file_tree) p :
  is_active_name p = true -> deleteBackupConfig ht id t !! p = t !! p.
Proof.
  intros Hp. unfold deleteBackupConfig. rewrite lookup_delete_ne; [done|].
  apply not_eq_sym. by apply active_backup.
Qed.

Lemma activate_spec ht skip_reload h n r n' :
  activateStaged ht skip_reload h n = (r, n') ->
  match r with
  | Ok _ => valid_files n /\
      (forall p, is_active_name p = true -> nd_files n' !! p = nd_files n !! p) /\
      nd_running n' = (if skip_reload then nd_running n else active_files (nd_files n'))
  | Throw _ => nd_files n' = nd_files n /\ (nd_running n' = nd_running n \/ skip_reload = false)
  end.
Proof.
  unfold activateStaged. intros [(u & n1 & Hl & Hc)|(e & Hl & ->)]%bind_ok.
  2: { destruct skip_reload; [apply test_spec in Hl as [-> _]|apply reload_spec in Hl as (? & _ & _ & ->)]; auto. }
  assert (nd_files n1 = nd_files n /\ valid_files n /\
          nd_running n1 = if skip_reload then nd_running n else active_files (nd_files n)) as (Hf & Hv & Hr).
  { destruct skip_reload.
    - apply test_spec in Hl as [-> Hok]. split_and!; try done. by apply Hok.
    - apply reload_spec in Hl as (? & _ & ? & ?). by split_and!. }
  apply bind_ok in Hc as [(m & n2 & Hu & Hc)|(e & Hu & ->)];
    apply updateHostStatus_frame in Hu as [Hf2 Hr2].
  - injection Hc as <- <-. simpl. rewrite Hf2, Hf, Hr2, Hr. split_and!; [done|apply delete_backup_active|].
    by rewrite (active_files_eq _ _ (delete_backup_active ht (n_id h) (nd_files n))).
  - rewrite Hf2, Hf, Hr2, Hr. destruct skip_reload; auto.
Qed.

Lemma refuse_spec ht skip_reload h e n r n' t0 :
  refuseStaged ht skip_reload h e n = (r, n') ->
  active_files (undo ht (n_id h) (nd_files n)) = t0 -> nginx_verdict t0 = None ->
  nd_files n' = undo ht (n_id h) (nd_files n) /\
  nd_running n' = (if skip_reload then nd_running n else t0) /\
  forall m, r = Ok m -> online m = false.
Proof.
  unfold refuseStaged. intros Hc Hundo Hv. unfold bind at 1 2 in Hc. unfold on_files in Hc. simpl in Hc.
  set (n1 := set_files _ _) in Hc.
  assert (nd_files n1 = undo ht (n_id h) (nd_files n)) as Hf1 by done.
  apply bind_ok in Hc as [(u & n2 & Hl & Hc)|(e' & Hl & ->)].
  - assert (forall m, r = Ok m -> online m = false) as Hoff.
    { intros m ->. revert Hc. unfold updateHostStatus. destruct (sanitizeHostMeta _); [|done].
      by intros [= <- <-]. }
    apply updateHostStatus_frame in Hc as [-> ->]. destruct skip_reload.
    + assert (n2 = n1) as -> by (by injection Hl). done.
    + apply reload_spec in Hl as (-> & _ & _ & ->). by rewrite Hf1, Hundo.
  - destruct skip_reload; [done|]. apply reload_spec in Hl as (_ & _ & Hbad & _).
    by rewrite Hf1, Hundo in Hbad.
Qed.

(** Configuring one host keeps a valid configuration valid, and the
    server never ends up running anything but what it ran or the files now on
    disk.  Other hosts' files are untouched.  Either the host's file holds
    the text rendered for it, or every active file is back as it was and the
    host is not reported online. *)
Theorem failed_configuration_restores_service now ht snapshot skip_reload n r n' :
  valid_files n -> configureHost now ht snapshot skip_reload n = (r, n') ->
  valid_files n' /\
  (nd_running n' = nd_running n \/ nd_running n' = active_files (nd_files n')) /\
  (forall p, is_active_name p = true -> p <> cfg (ht, snapshot) ->
     nd_files n' !! p = nd_files n !! p) /\
  ((exists h text m, r = Ok m /\ n_id h = n_id snapshot /\ renderConfig now ht h = Ok text /\
      nd_files n' !! cfg (ht, snapshot) = Some text /\
      (skip_reload = false -> nd_running n' = active_files (nd_files n'))) \/
   (active_files (nd_files n') = active_files (nd_files n) /\
    forall m, r = Ok m -> online m = false)).
Proof.
  intros Hv Hc. unfold configureHost in Hc.
  apply bind_ok in Hc as [(h & n1 & Hs & Hc)|(e & Hs & ->)];
    apply stageHost_spec in Hs as (Hrun & Hother & Hs);
    assert (forall p, is_active_name p = true -> p <> cfg (ht, snapshot) ->
              ~ owns ht (n_id snapshot) p) as Howns by exact (owns_cfg (ht, snapshot)).
  2: { assert (active_files (nd_files n') = active_files (nd_files n)) as Hact.
    { apply active_files_eq. intros p Hp.
      destruct (decide (p = cfg (ht, snapshot))) as [->|Hne]; [done|auto]. }
    unfold valid_files. rewrite Hact, Hrun. split_and!; try done; [by left|auto|by right]. }
  destruct Hs as (Hid & (text & Ht & Hl) & Hb). simpl in Ht, Hb.
  assert (cfg (ht, h) = cfg (ht, snapshot)) as Hcfg by (unfold cfg; simpl; by rewrite Hid).
  unfold catch in Hc. destruct (activateStaged _ _ h n1) as [[m|e] n2] eqn:Et; apply activate_spec in Et.
  - injection Hc as <- <-. destruct Et as (Hv1 & Hp2 & Hr2).
    pose proof (active_files_eq _ _ Hp2) as Hact. unfold valid_files. rewrite Hact.
    split_and!; try done.
    + rewrite Hr2, Hrun. destruct skip_reload; rewrite ?Hact; auto.
    + intros p Hp Hne. rewrite Hp2; auto.
    + left. exists h, text, m. split_and!; try done.
      * rewrite Hp2 by apply config_file_active. by rewrite <- Hcfg.
      * intros ->. by rewrite <- Hact.
  - destruct Et as [Hf2 Hr2].
    assert (active_files (undo ht (n_id h) (nd_files n2)) = active_files (nd_files n)) as Hundo.
    { apply active_files_eq. rewrite Hf2. apply undo_backup_active; [done|].
      intros p Hp Hne. apply Hother, Howns; [done|]. by rewrite <- Hcfg. }
    destruct (refuse_spec _ _ _ _ _ _ _ _ Hc Hundo Hv) as (Hf & Hr & Hoff).
    unfold valid_files. rewrite Hf, Hundo, Hr. split_and!; try done; [| |by right].
    + destruct skip_reload; [|by right]. left. destruct Hr2 as [->|]; [done|done].
    + intros p Hp Hne. rewrite lookup_undo_other, Hf2; [auto|]. rewrite Hid. auto.
Qed.

(** ** Retired request filters *)

Definition preserves {A} (P : node B -> Prop) (m : action B A) : Prop :=
  forall n r n', P n -> m n = (r, n') -> P n'.

Lemma preserves_bind {A C} P (m : action B A) (k : A -> action B C) :
  preserves P m -> (forall a, preserves P (k a)) -> preserves P (bind m k).
Proof.
  intros Hm Hk n r n' HP [(a & n1 & H1 & H2)|(e & H1 & _)]%bind_ok; [|by eapply Hm].
  eapply Hk; [|exact H2]. by eapply Hm.
Qed.

Lemma preserves_catch {A} P (m : action B A) k :
  preserves P m -> (forall e, preserves P (k e)) -> preserves P (catch m k).
Proof.
  intros Hm Hk n r n' HP. unfold catch. destruct (m n) as [[a|e] n1] eqn:E.
  - intros [= <- <-]. by eapply Hm.
  - intros He. eapply Hk; [|exact He]. by eapply Hm.
Qed.

Lemma find_patch_other ht id id' f n :
  id <> id' -> (forall r, n_id r = id' -> n_id (f r) = id') ->
  find_host ht id (patch_host ht id' f n) = find_host ht id n.
Proof.
  intros Hne Hid. unfold find_host, patch_host, set_hosts, first_where, patch_where. simpl.
  rewrite String.eqb_refl. induction (nd_hosts n ht) as [|x l IH]; [done|].
  simpl in *. unfold by_id in *. rewrite IH.
  destruct (n_id x =? id') eqn:E; [|done]. boolify. rewrite (Hid x E), E.
  by destruct (Z.eqb_spec id' id).
Qed.

Lemma find_patch ht id id' f n c :
  find_host ht id n = Some c -> (forall r, n_id r = id' -> n_id (f r) = id') ->
  find_host ht id (patch_host ht id' f n) = Some (if by_id id' c then f c else c).
Proof.
  unfold find_host, patch_host, set_hosts, first_where, patch_where. simpl.
  rewrite String.eqb_refl. intros Hf Hid. induction (nd_hosts n ht) as [|x l IH]; [done|].
  simpl in *. unfold by_id in *.
  assert (n_id (if n_id x =? id' then f x else x) = n_id x) as ->
    by (destruct (n_id x =? id') eqn:E; boolify; [|done]; rewrite E; auto).
  destruct (n_id x =? id); [by injection Hf as ->|auto].
Qed.

(** A row keeps its other columns. *)
Definition row_is (ht : string) (id : Z) (b : B) (d : bool) n : Prop :=
  exists c, find_host ht id n = Some c /\ n_body c = b /\ n_is_deleted c = d.

Lemma row_patch ht id b d ht' id' f n :
  (forall r, n_id (f r) = n_id r /\ n_body (f r) = n_body r /\ n_is_deleted (f r) = n_is_deleted r) ->
  row_is ht id b d n -> row_is ht id b d (patch_host ht' id' f n).
Proof.
  intros Hf (c & Hc & Hb & Hd). destruct (decide (ht = ht')) as [<-|Hne].
  - exists (if by_id id' c then f c else c). split.
    + apply find_patch; [done|]. intros r <-. apply Hf.
    + destruct (by_id id' c); [|done]. destruct (Hf c) as (_ & -> & ->). done.
  - exists c. split; [|done]. unfold find_host, patch_host, set_hosts in *. simpl.
    by destruct (String.eqb_spec ht ht').
Qed.

Lemma row_status ht id b d ht' h on e : preserves (row_is ht id b d) (updateHostStatus ht' h on e).
Proof.
  intros n r n' HP. unfold updateHostStatus.
  destruct (sanitizeHostMeta _); intros [= <- <-]; [|done].
  destruct (find_host ht' (n_id h) n); [|done]. by apply row_patch.
Qed.

Lemma row_files ht id b d f : preserves (row_is ht id b d) (on_files f).
Proof. by intros n r n' HP [= <- <-]. Qed.

Lemma row_hosts ht id b d n n' :
  nd_hosts n' = nd_hosts n -> row_is ht id b d n -> row_is ht id b d n'.
Proof. unfold row_is, find_host. by intros ->. Qed.

Lemma row_reload ht id b d : preserves (row_is ht id b d) reload.
Proof. intros n r n' HP (_ & Hh & _)%reload_spec. by apply (row_hosts _ _ _ _ n). Qed.

Lemma row_stage ht id b d now ht' snap : preserves (row_is ht id b d) (stageHost now ht' snap).
Proof.
  apply preserves_bind.
  - intros n r n' HP. unfold retire_bindings.
    destruct (find_host ht' (n_id snap) n) as [c|]; [|by intros [= <- <-]].
    destruct (_ && _); [|by intros [= <- <-]].
    destruct (hasActiveRetiredHostBindings _) as [[]|]; [|by intros [= <- <-]|by intros [= <- <-]].
    destruct (retireHostRuntime c); intros [= <- <-]; [|done]. by apply row_patch.
  - intros h. apply preserves_bind; [|by intros u n r n' HP [= <- <-]].
    intros n r n' HP (_ & Hh & _)%stage_files_spec. by apply (row_hosts _ _ _ _ n).
Qed.

(** Staging leaves every other row alone, and renders the current one. *)
Lemma stageHost_other now ht snap n r n' ht' id :
  stageHost now ht snap n = (r, n') -> (ht', id) <> (ht, n_id snap) ->
  find_host ht' id n' = find_host ht' id n.
Proof.
  unfold stageHost. intros Hs Hne.
  assert (forall r n1, retire_bindings ht snap n = (r, n1) ->
            find_host ht' id n1 = find_host ht' id n) as Hret.
  { intros r0 n1. unfold retire_bindings.
    destruct (find_host ht (n_id snap) n) as [c|] eqn:Ef; [|by intros [= <- <-]].
    destruct (_ && _); [|by intros [= <- <-]].
    destruct (hasActiveRetiredHostBindings _) as [[]|]; [|by intros [= <- <-]|by intros [= <- <-]].
    destruct (retireHostRuntime c); intros [= <- <-]; [|done].
    pose proof (first_where_Some _ _ _ Ef) as [_ Hid]. unfold by_id in Hid. boolify.
    destruct (decide (ht' = ht)) as [->|Hht].
    - apply find_patch_other; [congruence|done].
    - unfold find_host, patch_host, set_hosts. simpl. by destruct (String.eqb_spec ht' ht). }
  apply bind_ok in Hs as [(h & n1 & Hr & Hs)|(e & Hr & ->)]; [|by eapply Hret].
  rewrite <- (Hret _ _ Hr). clear Hret.
  apply bind_ok in Hs as [(u & n2 & Hs & Hk)|(e & Hs & _)]; [injection Hk as _ <-|];
    apply stage_files_spec in Hs as (_ & Hh & _); unfold find_host; by rewrite Hh.
Qed.

Lemma stageHost_body now ht snap n h n' c :
  stageHost now ht snap n = (Ok h, n') -> find_host ht (n_id snap) n = Some c ->
  n_body h = n_body c.
Proof.
  unfold stageHost. intros Hs Hc.
  apply bind_ok in Hs as [(h' & n1 & Hr & Hs)|(e & _ & He)]; [|done].
  apply bind_ok in Hs as [(u & n2 & _ & Hk)|(e & _ & He)]; [|done]. injection Hk as -> _.
  revert Hr. unfold retire_bindings, current_host. rewrite Hc.
  destruct (n_is_deleted c); simpl; [by intros [= <- <-]|].
  destruct (String.eqb _ _); [|by intros [= <- <-]].
  destruct (hasActiveRetiredHostBindings _) as [[]|]; [|by intros [= <- <-]|done].
  by destruct (retireHostRuntime c); intros [= <- <-].
Qed.

Lemma row_rollback ht id b d ht' h e : preserves (row_is ht id b d) (rollbackStagedConfig ht' h e).
Proof.
  apply preserves_bind; [apply row_files|]. intros _. apply preserves_bind; [apply row_files|].
  intros _. apply row_status.
Qed.

Lemma row_rollback_all ht id b d e stages n rs n' :
  rollback_all e stages n = (rs, n') -> row_is ht id b d n -> row_is ht id b d n'.
Proof.
  revert n rs. unfold rollback_all. induction stages as [|s stages IH]; intros n rs Hr HP; simpl in Hr;
    [by injection Hr as _ <-|].
  destruct (rollbackStagedConfig _ _ _ n) as [r n1] eqn:E. case_settled Hr rs' n2 Es.
  injection Hr as _ <-. eapply IH; [exact Es|]. by eapply row_rollback.
Qed.

Lemma row_commit ht id b d ht' h keep : preserves (row_is ht id b d) (commitStagedConfig ht' h keep).
Proof.
  apply preserves_bind; [apply row_status|]. intros m. apply preserves_bind.
  - destruct keep; [by intros n r n' HP [= <- <-]|apply row_files].
  - by intros u n r n' HP [= <- <-].
Qed.

(** The host is disabled and carries no active binding any more. *)
Definition retired (ht : string) (id : Z) n : Prop :=
  exists c, find_host ht id n = Some c /\ n_enabled c = false /\
    hasActiveRetiredHostBindings (n_meta c) = Ok false.

Lemma retired_status ht id h b e : preserves (retired ht id) (updateHostStatus ht h b e).
Proof.
  intros n r n' (c & Hc & He & Hm). unfold updateHostStatus.
  destruct (sanitizeHostMeta _); intros [= <- <-]; [|by exists c].
  destruct (find_host ht (n_id h) n); [|by exists c].
  eexists. split; [by apply find_patch|]. by destruct (by_id _ c).
Qed.

Lemma retired_files ht id f : preserves (retired ht id) (on_files f).
Proof. by intros n r n' HP [= <- <-]. Qed.

Lemma retired_load ht id (skip : bool) : preserves (retired ht id) (if skip then test else reload).
Proof.
  intros n r n' HP Hl. destruct skip.
  - by apply test_spec in Hl as [-> _].
  - apply reload_spec in Hl as (_ & Hh & _). unfold retired, find_host in *. by rewrite Hh.
Qed.

#[local] Hint Resolve preserves_bind preserves_catch retired_status retired_files retired_load : shield.

Lemma retired_finish ht id (skip : bool) h :
  preserves (retired ht id) (catch (activateStaged ht skip h) (refuseStaged ht skip h)).
Proof.
  apply preserves_catch; [|intros e]; repeat (apply preserves_bind; [|intros ?]); auto with shield;
    try by intros n r n' HP [= <- <-].
  destruct skip; [by intros n r n' HP [= <- <-]|]. exact (retired_load ht id false).
Qed.

(** Whatever the verdict, the file holds the staged text or the backup. *)
Lemma finish_file ht (skip : bool) h n r n' :
  catch (activateStaged ht skip h) (refuseStaged ht skip h) n = (r, n') ->
  nd_files n' !! config_file ht (n_id h) = nd_files n !! config_file ht (n_id h) \/
  nd_files n' !! config_file ht (n_id h) = nd_files n !! backup_file ht (n_id h).
Proof.
  unfold catch. destruct (activateStaged ht skip h n) as [[m|e] n1] eqn:E; apply activate_spec in E.
  - intros [= <- <-]. left. apply E, config_file_active.
  - destruct E as [Hf _]. intros Hc. right. rewrite <- Hf, <- lookup_undo_own.
    unfold refuseStaged in Hc. unfold bind at 1 2 in Hc. unfold on_files in Hc.
    apply bind_ok in Hc as [(u & n2 & Hl & Hc)|(e' & Hl & _)].
    + apply updateHostStatus_frame in Hc as [-> _]. destruct skip.
      * assert (n2 = set_files (undo ht (n_id h) (nd_files n1)) n1) as -> by (by injection Hl). done.
      * by apply reload_spec in Hl as (-> & _).
    + destruct skip; [done|]. by apply reload_spec in Hl as (-> & _).
Qed.

(** A proxy host whose metadata still carries active bindings of the
    removed request filters is never served once its configuration is
    touched: whatever happens, its row ends disabled and free of active
    bindings, and its file is the old one or one rendered for a disabled
    host. *)
Theorem retired_policy_never_goes_live now snapshot skip_reload n r n' c old_online old_err :
  find_host "proxy_host" (n_id snapshot) n = Some c -> n_is_deleted c = false ->
  n_meta c = Meta true old_online old_err ->
  configureHost now "proxy_host" snapshot skip_reload n = (r, n') ->
  retired "proxy_host" (n_id c) n' /\
  forall text, nd_files n' !! cfg ("proxy_host", snapshot) = Some text ->
    nd_files n !! cfg ("proxy_host", snapshot) = Some text \/
    exists h, n_id h = n_id c /\ n_enabled h = false /\ n_body h = n_body c /\
      render_text now "proxy_host" h = Ok text.
Proof.
  intros Hc Hd Hm Hconf.
  pose proof (first_where_Some _ _ _ Hc) as [_ Hid]. unfold by_id in Hid. boolify.
  set (h := with_meta (Meta false (Some false) old_err) (with_enabled false c)).
  set (n1 := patch_host "proxy_host" (n_id c)
               (fun r => with_meta (Meta false (Some false) old_err) (with_enabled false r)) n).
  assert (retire_bindings "proxy_host" snapshot n = (Ok h, n1)) as Hretire.
  { unfold retire_bindings, current_host. rewrite Hc, Hd. simpl. rewrite Hm. simpl.
    unfold retireHostRuntime. by rewrite Hm. }
  assert (retired "proxy_host" (n_id c) n1) as Hret.
  { rewrite <- Hid in Hc. eexists. split; [by apply find_patch|].
    unfold by_id. by rewrite Z.eqb_refl. }
  assert (renderConfig now "proxy_host" h = render_text now "proxy_host" h) as Hrender.
  { unfold renderConfig. simpl. by rewrite orb_true_r. }
  unfold configureHost, stageHost in Hconf.
  assert (forall k : host B -> action B host_meta,
            bind (bind (retire_bindings "proxy_host" snapshot)
                    (fun h => bind (stage_files now "proxy_host" h) (fun _ => ret h))) k n =
            bind (stage_files now "proxy_host" h) (fun _ => k h) n1) as Heq.
  { intros k. unfold bind at 1 2. rewrite Hretire. unfold bind at 1 2.
    by destruct (stage_files now "proxy_host" h n1) as [[] ?]. }
  rewrite Heq in Hconf. clear Heq.
  assert (cfg ("proxy_host", snapshot) = config_file "proxy_host" (n_id h)) as ->
    by (unfold cfg; simpl; by rewrite Hid).
  apply bind_ok in Hconf as [(u & n2 & Hs & Hf)|(e & Hs & ->)];
    apply stage_files_spec in Hs as (_ & Hh & _ & Hs).
  - split.
    + eapply retired_finish; [|exact Hf]. unfold retired, find_host in *. by rewrite Hh.
    + destruct Hs as (text & Ht & Hl & Hb). rewrite Hrender in Ht. intros text' Htext.
      apply finish_file in Hf as [Hf|Hf]; rewrite Hf in Htext.
      * right. exists h. split_and!; try done. by rewrite Hl in Htext; simplify_eq.
      * left. by rewrite Hb in Htext.
  - split; [unfold retired, find_host in *; by rewrite Hh|].
    intros text Htext. left. by rewrite Hs in Htext.
Qed.
End Properties.

(** ** A concrete node *)

Section DemoNode.
(** Hosts render to their body; a file that says "bad" is refused. *)
Definition plain_nginx : NginxEnv string := {|
  render_text := fun _ _ h => if String.eqb (n_body h) "broken" then Throw (NativeError "render")
                              else Ok (if n_enabled h then n_body h else "off");
  nginx_verdict := fun t => if decide (map_Exists (fun _ c => c = "bad") t) then Some "test failed" else None
|}.
#[local] Existing Instance plain_nginx.

Definition node_host (id : Z) (body : string) : host string :=
  MkNHost id false true (Meta false None None) body.
Definition node_of (rows : list (host string)) : node string :=
  MkNode {["/data/nginx/proxy_host/1.conf" := "old1"; "/data/nginx/proxy_host/2.conf" := "old2"]} ∅
    (fun t => if String.eqb t "proxy_host" then rows else []).

Definition node_good : node string := node_of [node_host 1 "new1"; node_host 2 "new2"].
Definition node_bad : node string := node_of [node_host 1 "new1"; node_host 2 "bad"].
Definition node_batch : list (@stage string) :=
  [("proxy_host", node_host 1 "?"); ("proxy_host", node_host 2 "?")].

(** The second host is refused, so the first one is put back too. *)
Lemma batch_is_all_or_nothing_witness :
  let '(r, n') := bulkGenerateConfigGroups 0 node_batch true true node_bad in
  is_ok r = false /\ active_files (nd_files n') = active_files (nd_files node_bad) /\
  nd_running n' = active_files (nd_files node_bad).
Proof.
  destruct (bulkGenerateConfigGroups 0 node_batch true true node_bad) as [r n'] eqn:E.
  assert (is_ok r = false) as Hr.
  { transitivity (is_ok (fst (bulkGenerateConfigGroups 0 node_batch true true node_bad)));
      [by rewrite E|vm_compute; reflexivity]. }
  destruct (batch_is_all_or_nothing 0 node_batch true true node_bad r n')
    as [(stages & _ & Hok & _)|(Ha & Hrun & _)].
  - repeat constructor; simpl; intuition discriminate.
  - vm_compute. reflexivity.
  - exact E.
  - rewrite Hr in Hok. discriminate.
  - split; [exact Hr|]. split; [exact Ha|exact Hrun].
Defined.

Lemma failed_configuration_restores_service_witness :
  let '(r, n') := configureHost 0 "proxy_host" (node_host 2 "?") false node_bad in
  valid_files n' /\ nd_files n' !! "/data/nginx/proxy_host/1.conf" = Some "old1".
Proof.
  destruct (configureHost 0 "proxy_host" (node_host 2 "?") false node_bad) as [r n'] eqn:E.
  destruct (failed_configuration_restores_service 0 "proxy_host" (node_host 2 "?") false node_bad r n')
    as (Hv & _ & Hother & _); [vm_compute; reflexivity|exact E|].
  split; [exact Hv|]. rewrite Hother; [reflexivity|reflexivity|discriminate].
Defined.

Definition node_retired : node string :=
  node_of [MkNHost 1 false true (Meta true None None) "secret"; node_host 2 "new2"].

Lemma retired_policy_never_goes_live_witness :
  let '(r, n') := configureHost 0 "proxy_host" (node_host 1 "?") false node_retired in
  retired "proxy_host" 1 n' /\ nd_files n' !! "/data/nginx/proxy_host/1.conf" = Some "off".
Proof.
  destruct (configureHost 0 "proxy_host" (node_host 1 "?") false node_retired) as [r n'] eqn:E.
  edestruct (retired_policy_never_goes_live 0 (node_host 1 "?") false node_retired r n')
    as [Hret _]; [reflexivity|reflexivity|reflexivity|exact E|].
  split; [exact Hret|].
  transitivity (nd_files (snd (configureHost 0 "proxy_host" (node_host 1 "?") false node_retired))
                  !! "/data/nginx/proxy_host/1.conf"); [by rewrite E|vm_compute; reflexivity].
Defined.
End DemoNode.
