(* ===== verification/NginxRows.v ===== *)
(** What the configuration service of [Nginx] does to the host rows: a batch
    changes the status of its own hosts, may switch one off, and leaves every
    other row and every other column alone. *)

From stdpp Require Import gmap.
From S2P Require Import Prelude JsString Errors Nginx.
#[local] Open Scope string_scope.
#[local] Open Scope list_scope.
#[local] Open Scope Z_scope.

Section Settled.
Context {B : Type}.

(** What holds through every action of a list holds through all of them. *)
Lemma preserves_settled {A C} (P : node B -> Prop) (f : A -> action B C) xs : (forall x, In x xs -> preserves P (f x)) ->
  forall n rs n', P n -> all_settled f xs n = (rs, n') -> P n'.
Proof.
  induction xs as [|x xs IH]; intros Hf n rs n' HP; simpl; [by intros [= <- <-]|].
  destruct (f x n) as [r n1] eqn:E. destruct (all_settled f xs n1) as [rs' n2] eqn:Es. intros [= <- <-].
  eapply (IH (fun y Hy => Hf y (or_intror Hy))); [|exact Es]. eapply (Hf x (or_introl eq_refl)); [|exact E]. done.
Qed.
End Settled.

Section Rows.
Context {B : Type} `{NginxEnv B}.
Implicit Types (n : node B) (h : host B).

Definition row_within (ids : list Z) h h' : Prop :=
  n_id h' = n_id h /\ n_is_deleted h' = n_is_deleted h /\ n_body h' = n_body h /\
  (n_enabled h' = true -> n_enabled h = true) /\ (~ In (n_id h) ids -> h' = h).

Definition rows_within (ids : list Z) (rows : list (host B)) n : Prop := Forall2 (row_within ids) rows (nd_hosts n "proxy_host").

Lemma within_start ids n : rows_within ids (nd_hosts n "proxy_host") n.
Proof. apply Forall2_same_length_lookup_2; [done|]. intros i x y Hx Hy. assert (x = y) as -> by congruence. by repeat split. Qed.

Lemma within_patch ids rows id (f : host B -> host B) n :
  (forall h, n_id (f h) = n_id h /\ n_is_deleted (f h) = n_is_deleted h /\ n_body (f h) = n_body h /\ (n_enabled (f h) = true -> n_enabled h = true)) ->
  In id ids -> rows_within ids rows n -> rows_within ids rows (patch_host "proxy_host" id f n).
Proof.
  intros Hf Hid Hr. unfold rows_within, patch_host, set_hosts in *. cbn [nd_hosts]. rewrite String.eqb_refl. unfold patch_where.
  apply Forall2_fmap_r. eapply Forall2_impl; [exact Hr|]. intros h h' (Hi & Hd & Hb & He & Ho). cbn.
  unfold by_id. destruct (n_id h' =? id) eqn:E; [|done]. boolify. destruct (Hf h') as (Fi & Fd & Fb & Fe).
  split_and!; [congruence|congruence|congruence|auto|]. intros Hn. destruct Hn. by rewrite <- Hi, E.
Qed.

Lemma within_status ids rows h on e : In (n_id h) ids -> preserves (rows_within ids rows) (updateHostStatus "proxy_host" h on e).
Proof.
  intros Hid n r n' Hk. unfold updateHostStatus. destruct (sanitizeHostMeta _); intros [= <- <-]; [|done].
  destruct (find_host _ (n_id h) n); [|done]. by apply within_patch.
Qed.

Lemma within_files ids rows f : preserves (rows_within ids rows) (on_files f).
Proof. by intros n r n' Hk [= <- <-]. Qed.

Lemma within_hosts ids rows n n' : nd_hosts n' = nd_hosts n -> rows_within ids rows n -> rows_within ids rows n'.
Proof. unfold rows_within. by intros ->. Qed.

Lemma within_reload ids rows : preserves (rows_within ids rows) reload.
Proof. intros n r n' Hk (_ & Hh & _)%reload_spec. by apply (within_hosts _ _ n). Qed.

Lemma within_test ids rows : preserves (rows_within ids rows) test.
Proof. by intros n r n' Hk [-> _]%test_spec. Qed.

Lemma within_stage ids rows now h : In (n_id h) ids -> preserves (rows_within ids rows) (stageHost now "proxy_host" h).
Proof.
  intros Hid. apply preserves_bind.
  - intros n r n' Hk. unfold retire_bindings. destruct (find_host _ _ n) as [c|] eqn:Ec; [|by intros [= <- <-]].
    destruct (_ && _); [|by intros [= <- <-]]. destruct (hasActiveRetiredHostBindings _) as [[]|]; [|by intros [= <- <-]..].
    destruct (retireHostRuntime c); intros [= <- <-]; [|done].
    apply first_where_Some in Ec as [_ Hc]. unfold by_id in Hc. boolify. rewrite Hc. by apply within_patch.
  - intros h'. apply preserves_bind; [|by intros u n r n' Hk [= <- <-]].
    intros n r n' Hk (_ & Hh & _)%stage_files_spec. by apply (within_hosts _ _ n).
Qed.

Lemma within_rollback ids rows h e : In (n_id h) ids -> preserves (rows_within ids rows) (rollbackStagedConfig "proxy_host" h e).
Proof. intros Hid. do 2 (apply preserves_bind; [apply within_files|intros _]). by apply within_status. Qed.

Lemma within_commit ids rows h keep : In (n_id h) ids -> preserves (rows_within ids rows) (commitStagedConfig "proxy_host" h keep).
Proof.
  intros Hid. apply preserves_bind; [by apply within_status|]. intros m. apply preserves_bind; [|by intros u n r n' Hk [= <- <-]].
  destruct keep; [by intros n r n' Hk [= <- <-]|apply within_files].
Qed.

Definition of_batch (ids : list Z) (st : @stage B) : Prop := fst st = "proxy_host" /\ In (n_id (snd st)) ids.

Lemma within_stages ids rows now hosts : Forall (of_batch ids) hosts -> forall stages n stages' eo n',
  Forall (of_batch ids) stages -> rows_within ids rows n -> stage_all now hosts stages n = (stages', eo, n') ->
  Forall (of_batch ids) stages' /\ rows_within ids rows n'.
Proof.
  induction 1 as [|[ht h] hosts [Hht Hid] _ IH]; intros stages n stages' eo n' Hst Hk; cbn [stage_all]; [by intros [= <- <- <-]|].
  simpl in Hht, Hid. subst ht. destruct (stageHost now "proxy_host" h n) as [[h'|e] n1] eqn:E.
  - pose proof (stageHost_spec _ _ _ _ _ _ E) as (_ & _ & Hid' & _). apply within_stage with (ids := ids) (rows := rows) in E; [|done|done].
    apply IH; [|done]. apply Forall_app. split; [done|]. repeat constructor. simpl. by rewrite Hid'.
  - apply within_stage with (ids := ids) (rows := rows) in E; [|done|done]. by intros [= <- <- <-].
Qed.

Lemma within_settled {C} ids rows (f : @stage B -> action B C) stages :
  (forall h, In (n_id h) ids -> preserves (rows_within ids rows) (f ("proxy_host", h))) -> Forall (of_batch ids) stages ->
  forall n rs n', rows_within ids rows n -> all_settled f stages n = (rs, n') -> rows_within ids rows n'.
Proof.
  intros Hf Hst. apply preserves_settled. intros [ht h] Hin. rewrite Forall_forall in Hst.
  destruct (Hst (ht, h)) as [Hht Hid]; [by apply list_elem_of_In|]. simpl in *. subst ht. by apply Hf.
Qed.

Lemma within_failed ids rows e stages opt_reload throwOnError : Forall (of_batch ids) stages ->
  preserves (rows_within ids rows) (bulk_failed e stages opt_reload throwOnError).
Proof.
  intros Hst n r n' Hk. unfold bulk_failed. destruct (rollback_all e stages n) as [rs n1] eqn:Er.
  apply within_settled with (ids := ids) (rows := rows) in Er; [|intros h Hid; by apply within_rollback|done|done].
  intros Hb. refine (preserves_bind (rows_within ids rows) _ _ _ _ _ _ _ Er Hb).
  - destruct opt_reload; [apply within_reload|by intros m r' m' Hm [= <- <-]].
  - by intros u m r' m' Hm [= <- <-].
Qed.

Lemma within_bulk ids rows now hosts opt_reload throwOnError : Forall (of_batch ids) hosts ->
  preserves (rows_within ids rows) (bulkGenerateConfigGroups now hosts opt_reload throwOnError).
Proof.
  intros Hh n r n' Hk. unfold bulkGenerateConfigGroups. destruct (stage_all now hosts [] n) as [[stages eo] n1] eqn:Es.
  eapply within_stages in Es as [Hst Hk1]; [|done|by constructor|exact Hk].
  destruct eo as [e|]; [by apply within_failed|].
  destruct ((if opt_reload then reload else test) n1) as [[u|e] n2] eqn:El.
  2: { intros Hb. eapply within_failed in Hb; [exact Hb|done|]. destruct opt_reload; [by eapply within_reload|by eapply within_test]. }
  assert (rows_within ids rows n2) as Hk2 by (destruct opt_reload; [by eapply within_reload|by eapply within_test]).
  destruct (all_settled (fun s => commitStagedConfig (fst s) (snd s) true) stages n2) as [commits n3] eqn:Ec.
  apply within_settled with (ids := ids) (rows := rows) in Ec; [|intros h Hid; by apply within_commit|done|done].
  destruct (unwrap commits); [|by apply within_failed].
  intros Hc. case_settled Hc rs n4 Ed. injection Hc as <- <-.
  apply within_settled with (ids := ids) (rows := rows) in Ed; [done|intros h Hid; apply within_files|done|done].
Qed.
End Rows.

(** ** The files of a batch *)

Section Files.
Context {B : Type} `{NginxEnv B}.
Implicit Types (n : node B).

(** Whatever happens, a batch leaves every active file that is not its own alone. *)
Lemma bulk_other_files now hosts opt_reload throwOnError n r n' : List.NoDup (map cfg hosts) ->
  bulkGenerateConfigGroups now hosts opt_reload throwOnError n = (r, n') ->
  forall p, is_active_name p = true -> ~ In p (map cfg hosts) -> nd_files n' !! p = nd_files n !! p.
Proof.
  intros Hnd Hb p Hp Hni. unfold bulkGenerateConfigGroups in Hb.
  destruct (stage_all now hosts [] n) as [[stages eo] n1] eqn:Es.
  eapply stage_all_spec in Es as (_ & [Hst Hnds _] & Hmap); [|done|apply batch_nil].
  assert (Hfailed : forall e m r' m', nd_files m = nd_files n1 -> bulk_failed e stages opt_reload throwOnError m = (r', m') ->
    nd_files m' !! p = nd_files n !! p).
  { intros e m r' m' Hm Hf. unfold bulk_failed in Hf. destruct (rollback_all e stages m) as [rs m1] eqn:Er.
    rewrite <- Hm in Hst. eapply rollback_all_spec in Er as [_ Hact]; [|done|done].
    apply bind_ok in Hf as [(u & m2 & Hl & [= <- <-])|(e0 & Hl & _)]; destruct opt_reload;
      try (apply reload_spec in Hl as (-> & _ & _); by apply Hact); try (injection Hl as <- <-; by apply Hact); done. }
  destruct eo as [e|]; [by eapply Hfailed|]. specialize (Hmap eq_refl). simpl in Hmap.
  assert (nd_files n1 !! p = nd_files n !! p) as H1 by (destruct Hst as [_ Ho]; apply Ho; [done|by rewrite Hmap]).
  destruct ((if opt_reload then reload else test) n1) as [rr n2] eqn:El.
  assert (nd_files n2 = nd_files n1) as H2 by (destruct opt_reload; [by apply reload_spec in El as (-> & _)|by apply test_spec in El as [-> _]]).
  destruct rr as [u|e]; [|by eapply Hfailed].
  case_settled Hb commits n3 Ec. apply commit_all_frame in Ec as [_ Hf3].
  destruct (unwrap commits) as [statuses|e]; [|eapply Hfailed; [|exact Hb]; congruence].
  case_settled Hb rs n4 Ed. injection Hb as <- <-. apply cleanup_all_frame in Ed as (_ & _ & Hp4). rewrite Hp4 by done. congruence.
Qed.
End Files.

(** ** Files that belong to no host *)

Section Unowned.
Context {B : Type} `{NginxEnv B}.
Implicit Types (n : node B) (h : host B).

(** A file keeps its content while hosts that do not own it are configured. *)
Definition file_is (p : string) (c : option string) n : Prop := nd_files n !! p = c.

Lemma file_same p c (n n' : node B) : nd_files n' = nd_files n -> file_is p c n -> file_is p c n'.
Proof. unfold file_is. by intros ->. Qed.

Lemma file_status p c ht h on e : preserves (file_is p c) (updateHostStatus ht h on e).
Proof. intros n r n' Hp (Hf & _)%updateHostStatus_frame. by apply (file_same _ _ n). Qed.

Lemma file_rollback p c ht h e : ~ owns ht (n_id h) p -> preserves (file_is p c) (rollbackStagedConfig ht h e).
Proof.
  intros Ho n r n' Hp (Hf & _)%rollback_spec. unfold file_is in *. rewrite Hf, <- Hp. by apply lookup_undo_other.
Qed.

Lemma file_delete_backup p c ht h : ~ owns ht (n_id h) p -> preserves (file_is p c) (on_files (B := B) (deleteBackupConfig ht (n_id h))).
Proof.
  intros Ho n r n' Hp [= <- <-]. unfold file_is in *. cbn. unfold deleteBackupConfig. rewrite lookup_delete_ne; [done|].
  intros He. apply Ho. unfold owns. rewrite <- He. tauto.
Qed.

Lemma file_commit p c ht h keep : ~ owns ht (n_id h) p -> preserves (file_is p c) (commitStagedConfig ht h keep).
Proof.
  intros Ho. apply preserves_bind; [apply file_status|]. intros m. apply preserves_bind; [|by intros u n r n' Hp [= <- <-]].
  destruct keep; [by intros n r n' Hp [= <- <-]|by apply file_delete_backup].
Qed.

Lemma file_reload p c : preserves (file_is p c) reload.
Proof. intros n r n' Hp (Hf & _)%reload_spec. by apply (file_same _ _ n). Qed.
Lemma file_test p c : preserves (file_is p c) test.
Proof. by intros n r n' Hp [-> _]%test_spec. Qed.

Definition unowned (p : string) (st : @stage B) : Prop := ~ owns (fst st) (n_id (snd st)) p.

Lemma file_stages p c now hosts : Forall (unowned p) hosts -> forall stages n stages' eo n',
  Forall (unowned p) stages -> file_is p c n -> stage_all now hosts stages n = (stages', eo, n') ->
  Forall (unowned p) stages' /\ file_is p c n'.
Proof.
  induction 1 as [|[ht h] hosts Hu _ IH]; intros stages n stages' eo n' Hst Hp; cbn [stage_all]; [by intros [= <- <- <-]|].
  destruct (stageHost now ht h n) as [[h'|e] n1] eqn:E; apply stageHost_spec in E as (_ & Ho & Hid);
    assert (file_is p c n1) as Hp1 by (unfold file_is in *; rewrite <- Hp; by apply Ho).
  - apply IH; [|done]. apply Forall_app. split; [done|]. repeat constructor. unfold unowned in *. simpl in *. by destruct Hid as [-> _].
  - by intros [= <- <- <-].
Qed.

Lemma file_settled {C} p c (f : @stage B -> action B C) stages : (forall st, unowned p st -> preserves (file_is p c) (f st)) ->
  Forall (unowned p) stages -> forall n rs n', file_is p c n -> all_settled f stages n = (rs, n') -> file_is p c n'.
Proof.
  intros Hf Hst. apply preserves_settled. intros st Hin. apply Hf. rewrite Forall_forall in Hst. by apply Hst, list_elem_of_In.
Qed.

Lemma file_failed p c e stages opt_reload throwOnError : Forall (unowned p) stages ->
  preserves (file_is p c) (bulk_failed e stages opt_reload throwOnError).
Proof.
  intros Hst n r n' Hp. unfold bulk_failed. destruct (rollback_all e stages n) as [rs n1] eqn:Er.
  apply (file_settled p c) in Er; [|intros st Hu; by apply file_rollback|done|done].
  intros Hb. refine (preserves_bind (file_is p c) _ _ _ _ _ _ _ Er Hb).
  - destruct opt_reload; [apply file_reload|by intros m r' m' Hm [= <- <-]].
  - by intros u m r' m' Hm [= <- <-].
Qed.

Lemma bulk_unowned_file p c now hosts opt_reload throwOnError : Forall (unowned p) hosts ->
  preserves (file_is p c) (bulkGenerateConfigGroups now hosts opt_reload throwOnError).
Proof.
  intros Hh n r n' Hp. unfold bulkGenerateConfigGroups. destruct (stage_all now hosts [] n) as [[stages eo] n1] eqn:Es.
  eapply file_stages in Es as [Hst Hp1]; [|done|by constructor|exact Hp].
  destruct eo as [e|]; [by apply file_failed|].
  destruct ((if opt_reload then reload else test) n1) as [[u|e] n2] eqn:El.
  2: { intros Hb. eapply file_failed in Hb; [exact Hb|done|]. destruct opt_reload; [by eapply file_reload|by eapply file_test]. }
  assert (file_is p c n2) as Hp2 by (destruct opt_reload; [by eapply file_reload|by eapply file_test]).
  destruct (all_settled (fun s => commitStagedConfig (fst s) (snd s) true) stages n2) as [commits n3] eqn:Ec.
  apply (file_settled p c) in Ec; [|intros st Hu; by apply file_commit|done|done].
  destruct (unwrap commits); [|by apply file_failed].
  intros Hb. case_settled Hb rs n4 Ed. injection Hb as <- <-.
  apply (file_settled p c) in Ed; [done|intros st Hu; by apply file_delete_backup|done|done].
Qed.
End Unowned.
