(* ===== verification/Maintenance.v ===== *)
(** Scheduled maintenance of proxy hosts (src/backend/internal/maintenance.js),
    on top of the activation of Nginx.v.

    A poll claims the hosts whose schedule asks for a change, stages their
    configurations, activates them with one reload and completes the
    schedules.  Instants are milliseconds.  Edits that other requests make
    while the server reloads are a parameter of the poll. *)

From S2P Require Import Prelude JsString Errors Nginx.
From stdpp Require Import gmap strings.
#[local] Open Scope string_scope.
#[local] Open Scope list_scope.
#[local] Open Scope Z_scope.

(** ** Data *)

(** The maintenance columns of [proxy_host]; [mt_other] is every other
    column. *)
Record maintenance (C : Type) : Type := MkMaint {
  mt_active : bool;
  mt_pending : bool;
  mt_start : option Z;
  mt_end : option Z;
  mt_other : C
}.
Arguments MkMaint {C} _ _ _ _ _.
Arguments mt_active {C} _.
Arguments mt_pending {C} _.
Arguments mt_start {C} _.
Arguments mt_end {C} _.
Arguments mt_other {C} _.

Definition PROXY : string := "proxy_host".

Section Maintenance.
Context {C : Type} `{NginxEnv (maintenance C)}.

Abbreviation mhost := (host (maintenance C)).
Abbreviation mnode := (node (maintenance C)).
Implicit Types h : mhost.

Definition active h : bool := mt_active (n_body h).
Definition start_of h : option Z := mt_start (n_body h).
Definition end_of h : option Z := mt_end (n_body h).

Definition set_body (b : maintenance C) h : mhost :=
  MkNHost (n_id h) (n_is_deleted h) (n_enabled h) (n_meta h) b.

(** ** Schedules *)

(** No end, or an end still to come. *)
Definition before_end (e : option Z) (now : Z) : bool :=
  match e with None => true | Some t => now <? t end.

Definition desiredState h (now : Z) : bool :=
  match start_of h with
  | Some s => negb (now <? s) && before_end (end_of h) now
  | None => active h && before_end (end_of h) now
  end.

(** The patch that completes a schedule, applied to the row. *)
Definition completedSchedule h (now : Z) : mhost :=
  let b := n_body h in
  let done_ s e := set_body (MkMaint (mt_active b) false s e (mt_other b)) h in
  if mt_active b && match mt_end b with None => true | Some _ => false end then done_ None (mt_end b)
  else match mt_end b with
       | Some e => if negb (mt_active b) && negb (now <? e) then done_ None None
                   else done_ (mt_start b) (mt_end b)
       | None => done_ (mt_start b) (mt_end b)
       end.

Definition set_flags (a p : bool) h : mhost :=
  let b := n_body h in set_body (MkMaint a p (mt_start b) (mt_end b) (mt_other b)) h.

(** The claiming transaction: the new row, if the host is to be activated. *)
Definition claimMaintenance (now id : Z) (n : mnode) : option mhost * mnode :=
  match find_host PROXY id n with
  | None => (None, n)
  | Some h =>
      if n_is_deleted h then (None, n)
      else
        let want := desiredState h now in
        if negb (mt_pending (n_body h)) && Bool.eqb want (active h) then (None, n)
        else if n_enabled h then
          let h' := set_flags want true h in
          (Some h', patch_host PROXY id (fun _ => h') n)
        else (None, patch_host PROXY id (fun _ => completedSchedule (set_flags want false h) now) n)
  end.

Definition opt_eqb (a b : option Z) : bool :=
  match a, b with
  | Some x, Some y => x =? y
  | None, None => true
  | _, _ => false
  end.

(** Only the schedule that was activated is completed. *)
Definition finishMaintenance (now : Z) (staged : mhost) (n : mnode) : mnode :=
  match find_host PROXY (n_id staged) n with
  | None => n
  | Some c =>
      if n_is_deleted c || negb (Bool.eqb (active c) (active staged))
         || negb (opt_eqb (start_of c) (start_of staged))
         || negb (opt_eqb (end_of c) (end_of staged))
      then n
      else patch_host PROXY (n_id c) (fun _ => completedSchedule c now) n
  end.

Lemma opt_eqb_eq a b : opt_eqb a b = true -> a = b.
Proof. destruct a, b; simpl; try done. by intros ->%Z.eqb_eq. Qed.
Lemma opt_eqb_refl a : opt_eqb a a = true.
Proof. destruct a; simpl; [apply Z.eqb_refl|done]. Qed.

(** ** The poll *)

(** The claiming and staging loop. *)
Fixpoint claim_all (now : Z) (ids : list Z) (done_ : list (@stage (maintenance C))) (n : mnode)
    : list (@stage (maintenance C)) * option error * mnode :=
  match ids with
  | [] => (done_, None, n)
  | id :: ids' =>
      match claimMaintenance now id n with
      | (None, n1) => claim_all now ids' done_ n1
      | (Some h, n1) =>
          match stageHost now PROXY h n1 with
          | (Ok h', n2) => claim_all now ids' (done_ ++ [(PROXY, h')]) n2
          | (Throw e, n2) => (done_, Some e, n2)
          end
      end
  end.

(** The handler: roll every stage back, reload if there was one, rethrow. *)
Definition abandon (e : error) (stages : list (@stage (maintenance C))) (n : mnode)
    : fallible unit * mnode :=
  let '(_, n1) := rollback_all e stages n in
  let n2 := match stages with [] => n1 | _ => snd (reload n1) end in
  (Throw e, n2).

(** Commit and complete one stage; a failure is logged and retried later. *)
Definition complete_stage (now : Z) (s : @stage (maintenance C)) (n : mnode) : mnode :=
  match commitStagedConfig (fst s) (snd s) false n with
  | (Ok _, n1) => finishMaintenance now (snd s) n1
  | (Throw _, n1) => n1
  end.

(** [edits] is what other requests do to the host rows between the reload and
    the completion, at [now']. *)
Definition activateMaintenance (now now' : Z) (edits : list mhost -> list mhost) (ids : list Z)
    (n : mnode) : fallible unit * mnode :=
  match claim_all now ids [] n with
  | (stages, Some e, n1) => abandon e stages n1
  | ([], None, n1) => (Ok tt, n1)
  | (stages, None, n1) =>
      match reload n1 with
      | (Throw e, n2) => abandon e stages n2
      | (Ok _, n2) =>
          let n3 := set_hosts PROXY (edits (nd_hosts n2 PROXY)) n2 in
          (Ok tt, fold_left (fun m s => complete_stage now' s m) stages n3)
      end
  end.

(** The hosts a poll looks at. *)
Definition scheduled h : bool :=
  negb (n_is_deleted h) &&
  (match start_of h with Some _ => true | None => false end
   || match end_of h with Some _ => true | None => false end
   || mt_pending (n_body h)).

(** One poll; it logs what [activateMaintenance] throws. *)
Definition processMaintenance (now now' : Z) (edits : list mhost -> list mhost) (n : mnode) : mnode :=
  snd (activateMaintenance now now' edits
         (map n_id (select_where scheduled (nd_hosts n PROXY))) n).

End Maintenance.

(** ** Precise timers *)

Definition MAX_TIMER_DELAY : Z := 2 ^ 31 - 1.

(** The delay of the timer for an instant, if one is set. *)
Definition timer_delay (now : Z) (at_ : option Z) : option Z :=
  match at_ with
  | Some t => if (now <? t) && (t - now <=? MAX_TIMER_DELAY) then Some (t - now) else None
  | None => None
  end.

(** The scheduled timers, by host: the delays [setTimeout] got. *)
Abbreviation timers := (gmap Z (list Z)).

Definition option_list {A} (o : option A) : list A := match o with Some a => [a] | None => [] end.

Definition scheduleTimers (now hostId : Z) (start stop : option Z) (t : timers) : timers :=
  match option_list (timer_delay now start) ++ option_list (timer_delay now stop) with
  | [] => delete hostId t
  | new => <[hostId := new]> t
  end.

(** The timers a poll leaves: hosts it no longer looks at lose theirs. *)
Definition poll_timers (now : Z) (hosts : list (Z * (option Z * option Z))) (t : timers) : timers :=
  fold_left (fun t x => scheduleTimers now (fst x) (fst (snd x)) (snd (snd x)) t) hosts
    (filter (fun kv => fst kv ∈ map fst hosts) t).

Definition timer_entry (now : Z) (start stop : option Z) : option (list Z) :=
  match option_list (timer_delay now start) ++ option_list (timer_delay now stop) with
  | [] => None
  | new => Some new
  end.

Lemma timer_delay_bound now o d : timer_delay now o = Some d -> 0 < d <= MAX_TIMER_DELAY.
Proof.
  unfold timer_delay. destruct o as [t|]; [|done]. destruct (_ && _) eqn:E; [|done].
  intros [= <-]. boolify. lia.
Qed.

Lemma timer_entry_spec now start stop ds :
  timer_entry now start stop = Some ds ->
  ds = option_list (timer_delay now start) ++ option_list (timer_delay now stop) /\
  Forall (fun d => 0 < d <= MAX_TIMER_DELAY) ds.
Proof.
  unfold timer_entry. intros He.
  assert (ds = option_list (timer_delay now start) ++ option_list (timer_delay now stop)) as ->
    by (destruct (_ ++ _); [done|by injection He]).
  split; [done|]. apply Forall_app.
  split; [destruct (timer_delay now start) eqn:E|destruct (timer_delay now stop) eqn:E];
    simpl; repeat constructor; by eapply timer_delay_bound.
Qed.

Lemma schedule_own now id start stop t :
  scheduleTimers now id start stop t !! id = timer_entry now start stop.
Proof.
  unfold scheduleTimers, timer_entry. destruct (_ ++ _);
    [by rewrite lookup_delete_eq|by rewrite lookup_insert_eq].
Qed.

Lemma schedule_other now id id' start stop t :
  id' <> id -> scheduleTimers now id start stop t !! id' = t !! id'.
Proof.
  intros Hne. unfold scheduleTimers. destruct (_ ++ _);
    [by rewrite lookup_delete_ne|by rewrite lookup_insert_ne].
Qed.

Lemma timers_fold now hosts t :
  List.NoDup (map fst hosts) ->
  let t' := fold_left (fun t x => scheduleTimers now (fst x) (fst (snd x)) (snd (snd x)) t) hosts t in
  (forall id, ~ In id (map fst hosts) -> t' !! id = t !! id) /\
  (forall id start stop, In (id, (start, stop)) hosts -> t' !! id = timer_entry now start stop).
Proof.
  revert t. induction hosts as [|[id0 [s0 e0]] hosts IH]; intros t Hnd; simpl in *.
  { split; [done|]. by intros ? ? ? []. }
  inversion Hnd as [|? ? Hni Hnd']; subst.
  destruct (IH (scheduleTimers now id0 s0 e0 t) Hnd') as [Hout Hin]. split.
  - intros id Hid. rewrite Hout by tauto. apply schedule_other. intros ->. tauto.
  - intros id start stop [[= <- <- <-]|Hi]; [|by apply Hin].
    rewrite Hout by done. apply schedule_own.
Qed.

(** ** Claims *)

Section Poll.
Context {C : Type} `{NginxEnv (maintenance C)}.
Abbreviation mhost := (host (maintenance C)).
Abbreviation mnode := (node (maintenance C)).
Implicit Types (h : mhost) (n : mnode).

(** An enabled host whose stored flag disagrees with its schedule, or whose
    activation is unfinished. *)
Definition due now h : bool :=
  negb (n_is_deleted h) && n_enabled h &&
  (mt_pending (n_body h) || negb (Bool.eqb (desiredState h now) (active h))).

Definition claimed now h : mhost := set_flags (desiredState h now) true h.

Lemma find_host_id ht id n h : find_host ht id n = Some h -> n_id h = id.
Proof.
  intros [_ Hid]%first_where_Some. unfold by_id in Hid. by boolify.
Qed.

Lemma claim_due now id n h :
  find_host PROXY id n = Some h -> due now h = true ->
  claimMaintenance now id n = (Some (claimed now h), patch_host PROXY id (fun _ => claimed now h) n).
Proof.
  unfold claimMaintenance, due, claimed. intros -> [[Hdel Hen]%andb_true_iff Hd]%andb_true_iff.
  apply negb_true_iff in Hdel. rewrite Hdel, Hen.
  destruct (mt_pending (n_body h)), (Bool.eqb (desiredState h now) (active h)); done.
Qed.

Lemma claim_not_due now id n r n' h :
  claimMaintenance now id n = (r, n') -> find_host PROXY id n = Some h -> due now h = false ->
  r = None.
Proof.
  unfold claimMaintenance, due. intros Hc Hh. rewrite Hh in Hc. revert Hc.
  destruct (n_is_deleted h); [by intros [= <- _]|]. simpl.
  destruct (n_enabled h); simpl.
  - destruct (mt_pending (n_body h)), (Bool.eqb (desiredState h now) (active h)); try done;
      by intros [= <- _].
  - destruct (_ && _); by intros [= <- _].
Qed.

Lemma claim_none now id n r n' : claimMaintenance now id n = (r, n') ->
  find_host PROXY id n = None -> r = None /\ n' = n.
Proof. unfold claimMaintenance. intros Hc Hn. rewrite Hn in Hc. by injection Hc as <- <-. Qed.

Lemma claim_frame now id n r n' :
  claimMaintenance now id n = (r, n') ->
  nd_files n' = nd_files n /\ nd_running n' = nd_running n /\
  (forall id', id' <> id -> find_host PROXY id' n' = find_host PROXY id' n) /\
  (forall h, r = Some h -> n_id h = id).
Proof.
  unfold claimMaintenance. destruct (find_host PROXY id n) as [h|] eqn:Ef.
  2: { intros [= <- <-]. by split_and!. }
  pose proof (find_host_id _ _ _ _ Ef) as Hid.
  assert (forall b id', id' <> id ->
    find_host PROXY id' (patch_host PROXY id (fun _ => set_body b h) n) = find_host PROXY id' n) as Hoth.
  { intros b id' Hne. by apply find_patch_other. }
  destruct (n_is_deleted h); [intros [= <- <-]; by split_and!|].
  destruct (_ && _); [intros [= <- <-]; by split_and!|].
  destruct (n_enabled h); intros [= <- <-]; split_and!; try done.
  - intros id' Hne. by apply (Hoth (n_body (set_flags (desiredState h now) true h))).
  - by intros h' [= <-].
  - intros id' Hne. unfold completedSchedule. simpl.
    destruct (_ && _); [by apply Hoth|]. destruct (mt_end (n_body h)); [|by apply Hoth].
    destruct (_ && _); by apply Hoth.
Qed.

(** The claiming loop: files are staged as in any batch, and every due host
    it reached is claimed; all of them when it did not fail. *)
Lemma claim_all_spec now t0 ids done_ n stages eo n' :
  claim_all now ids done_ n = (stages, eo, n') ->
  List.NoDup ids -> (forall id, In id ids -> 0 <= id) ->
  batch now t0 done_ (nd_files n) ->
  (forall id, In id ids -> ~ In (config_file PROXY id) (map cfg done_)) ->
  nd_running n' = nd_running n /\ batch now t0 stages (nd_files n') /\
  (forall s, In s done_ -> In s stages) /\
  (forall id, ~ In id ids -> find_host PROXY id n' = find_host PROXY id n) /\
  (forall id h, In id ids -> find_host PROXY id n = Some h -> due now h = true ->
     row_is PROXY id (n_body (claimed now h)) false n' /\
       (eo = None -> exists h', In (PROXY, h') stages /\ n_id h' = id /\ n_body h' = n_body (claimed now h)) \/
     row_is PROXY id (n_body h) false n' /\ eo <> None).
Proof.
  revert done_ n. induction ids as [|id ids IH]; intros done_ n Hc Hnd Hpos Hb Hfresh; simpl in Hc.
  { injection Hc as <- <- <-. split_and!; try done. }
  inversion Hnd as [|? ? Hni Hnd']; subst.
  destruct (claimMaintenance now id n) as [[h|] n1] eqn:Ec;
    pose proof (claim_frame _ _ _ _ _ Ec) as (Hf1 & Hr1 & Ho1 & Hid1).
  - specialize (Hid1 h eq_refl).
    destruct (find_host PROXY id n) as [h0|] eqn:Ef; [|by destruct (claim_none _ _ _ _ _ Ec Ef)].
    destruct (due now h0) eqn:Ed; [|by pose proof (claim_not_due _ _ _ _ _ _ Ec Ef Ed)].
    rewrite (claim_due _ _ _ _ Ef Ed) in Ec. injection Ec as <- <-.
    assert (row_is PROXY id (n_body (claimed now h0)) false
              (patch_host PROXY id (fun _ => claimed now h0) n)) as Hrow1.
    { exists (claimed now h0). split; [|split; [done|]].
      - rewrite (find_patch PROXY id id _ n h0 Ef) by done. unfold by_id.
        by rewrite (find_host_id _ _ _ _ Ef), Z.eqb_refl.
      - unfold due in Ed. boolify. done. }
    set (n1 := patch_host PROXY id (fun _ => claimed now h0) n) in *.
    assert (~ In (cfg (PROXY, claimed now h0)) (map cfg done_)) as Hcfg.
    { unfold cfg. simpl fst. simpl snd. rewrite Hid1. apply Hfresh. by left. }
    rewrite <- Hf1 in Hb.
    destruct (stageHost now PROXY (claimed now h0) n1) as [[h'|e] n2] eqn:Es.
    + destruct (batch_ok _ _ _ _ _ _ _ _ Hb Hcfg Es) as (Hb2 & Hr2 & Hcfg2).
      pose proof (row_stage _ _ _ _ _ _ _ _ _ _ Hrow1 Es) as Hrow2.
      assert (n_body h' = n_body (claimed now h0)) as Hbody.
      { destruct Hrow1 as (c & Hfc & Hbc & _). rewrite <- Hbc.
        eapply stageHost_body; [exact Es|]. by rewrite Hid1. }
      assert (n_id h' = id) as Hid2.
      { apply stageHost_spec in Es as (_ & _ & -> & _). done. }
      edestruct IH as (Hr & Hbs & Hdone & Hoth & Hall); [exact Hc|done| | | |].
      * intros; apply Hpos; by right.
      * done.
      * intros id' Hin. rewrite map_app, in_app_iff. simpl. intros [Hin'|[Heq|[]]].
        -- eapply Hfresh; [by right|done].
        -- rewrite Hcfg2 in Heq. unfold cfg in Heq. simpl fst in Heq. simpl snd in Heq.
           rewrite Hid1 in Heq. apply config_file_inj in Heq; [by subst|done| |]; apply Hpos; auto using in_eq, in_cons.
      * split_and!; [congruence|done|auto using in_or_app| |].
        -- intros id' Hnin. rewrite Hoth by (intros ?; apply Hnin; by right).
           rewrite (stageHost_other _ _ _ _ _ _ _ id' Es); [apply Ho1; intros ->; apply Hnin; by left|].
           rewrite Hid1. intros [= ->]. apply Hnin. by left.
        -- intros id' h1 [<-|Hin] Hf Hd.
           ++ rewrite Ef in Hf. injection Hf as <-. left. split.
              ** unfold row_is in *. by rewrite Hoth.
              ** intros _. exists h'. split_and!; try done. apply Hdone, in_app_iff. right. by left.
           ++ apply (Hall id' h1 Hin); [|done].
              rewrite (stageHost_other _ _ _ _ _ _ _ id' Es); [rewrite Ho1; [done|congruence]|].
              rewrite Hid1. intros [= ->]. done.
    + injection Hc as <- <- <-. destruct (batch_fail _ _ _ _ _ _ _ _ Hb Hcfg Es) as (Hb2 & Hr2).
      pose proof (row_stage _ _ _ _ _ _ _ _ _ _ Hrow1 Es) as Hrow2.
      assert (forall id', id' <> id -> find_host PROXY id' n2 = find_host PROXY id' n) as Hoth.
      { intros id' Hne. rewrite (stageHost_other _ _ _ _ _ _ _ id' Es); [by apply Ho1|].
        rewrite Hid1. by intros [= ->]. }
      split_and!; [congruence|done|done| |].
      * intros id' Hnin. apply Hoth. intros ->. apply Hnin. by left.
      * intros id' h1 [<-|Hin] Hf Hd.
        -- rewrite Ef in Hf. injection Hf as <-. left. by split.
        -- right. split; [|done]. exists h1. rewrite Hoth by congruence. split_and!; try done.
           unfold due in Hd. by boolify.
  - rewrite <- Hf1 in Hb.
    edestruct IH as (Hr & Hbs & Hdone & Hoth & Hall); [exact Hc|done| |done| |].
    + intros; apply Hpos; by right.
    + intros; apply Hfresh; by right.
    + split_and!; [congruence|done|done| |].
      * intros id' Hnin. rewrite Hoth by (intros ?; apply Hnin; by right).
        apply Ho1. intros ->. apply Hnin. by left.
      * intros id' h1 [<-|Hin] Hf Hd; [by rewrite (claim_due _ _ _ _ Hf Hd) in Ec|].
        apply (Hall id' h1 Hin); [|done]. rewrite Ho1; [done|congruence].
Qed.
Lemma desired_schedule h t :
  desiredState h t = match start_of h with
                     | Some s => (s <=? t) && before_end (end_of h) t
                     | None => active h && before_end (end_of h) t
                     end.
Proof.
  unfold desiredState. destruct (start_of h); [|done]. by rewrite Z.leb_antisym.
Qed.

(** The patch of a completed schedule, by cases. *)
Lemma completed_body h t :
  n_body (completedSchedule h t) =
  MkMaint (active h) false
    (match end_of h with
     | None => if active h then None else start_of h
     | Some e => if negb (active h) && (e <=? t) then None else start_of h
     end)
    (match end_of h with
     | None => None
     | Some e => if negb (active h) && (e <=? t) then None else Some e
     end) (mt_other (n_body h)).
Proof.
  unfold completedSchedule, active, start_of, end_of. destruct (n_body h) as [a p s e c]. simpl.
  destruct a, e as [e|]; simpl; try done. rewrite Z.leb_antisym. by destruct (negb (t <? e)).
Qed.

Lemma due_scheduled now h : due now h = true -> scheduled h = true.
Proof.
  unfold due, scheduled. rewrite desired_schedule. intros [[-> _]%andb_true_iff Hd]%andb_true_iff. simpl.
  destruct (start_of h); [done|]. destruct (end_of h); [done|]. simpl in *.
  destruct (mt_pending (n_body h)); [done|]. rewrite andb_true_r in Hd.
  by destruct (active h).
Qed.

Lemma row_complete id b d now' s n :
  fst s = PROXY -> id <> n_id (snd s) -> row_is PROXY id b d n ->
  row_is PROXY id b d (complete_stage now' s n).
Proof.
  intros Hs Hne HP. unfold complete_stage.
  destruct (commitStagedConfig _ _ false n) as [[m|e] n1] eqn:E;
    pose proof (row_commit PROXY id b d _ _ _ _ _ _ HP E) as HP1; [|done].
  unfold finishMaintenance. destruct (find_host PROXY (n_id (snd s)) n1) as [c|] eqn:Ef; [|done].
  destruct (_ || _); [done|]. destruct HP1 as (x & Hx & Hb & Hd). exists x. split; [|done].
  pose proof (find_host_id _ _ _ _ Ef) as Hid. rewrite find_patch_other; [done|congruence|].
  intros r _. unfold completedSchedule. simpl. destruct (_ && _); [done|].
  destruct (mt_end (n_body c)); [|done]. by destruct (_ && _).
Qed.

Lemma complete_files now' s n :
  nd_running (complete_stage now' s n) = nd_running n /\
  forall p, is_active_name p = true -> nd_files (complete_stage now' s n) !! p = nd_files n !! p.
Proof.
  unfold complete_stage. destruct (commitStagedConfig _ _ false n) as [[m|e] n1] eqn:E;
    apply commit_frame in E as (Hr & _ & Hp); [|done].
  unfold finishMaintenance. destruct (find_host PROXY _ n1); [|done]. by destruct (_ || _).
Qed.

Lemma complete_all_files now' stages n :
  let n' := fold_left (fun m s => complete_stage now' s m) stages n in
  nd_running n' = nd_running n /\
  forall p, is_active_name p = true -> nd_files n' !! p = nd_files n !! p.
Proof.
  revert n. induction stages as [|s stages IH]; intros n; simpl; [done|].
  destruct (IH (complete_stage now' s n)) as [-> Hp]. destruct (complete_files now' s n) as [-> Hp'].
  split; [done|]. intros p Ha. by rewrite Hp, Hp'.
Qed.

(** A failed poll: files as before, rows as the claims left them. *)
Lemma abandon_spec e stages n0 n r n' now :
  abandon e stages n = (r, n') -> batch now (nd_files n0) stages (nd_files n) ->
  active_files (nd_files n') = active_files (nd_files n0) /\
  (nd_running n' = nd_running n \/ nd_running n' = active_files (nd_files n0)) /\
  forall id b d, row_is PROXY id b d n -> row_is PROXY id b d n'.
Proof.
  intros Ha [Hst Hnd _]. unfold abandon in Ha. destruct (rollback_all e stages n) as [rs n1] eqn:Er.
  injection Ha as <- <-. pose proof (rollback_all_spec _ _ _ _ _ _ Er Hnd Hst) as [Hrun Hact].
  apply active_files_eq in Hact.
  assert (forall id b d, row_is PROXY id b d n -> row_is PROXY id b d n1) as Hrow
    by (intros; by eapply row_rollback_all).
  destruct stages as [|s stages]; [split_and!; auto|].
  destruct (reload n1) as [[u|e'] n2] eqn:El; pose proof El as El';
    apply reload_spec in El' as (Hf & Hh & Hl); simpl.
  - destruct Hl as [_ Hl]. rewrite Hf, Hl, Hact. split_and!; auto.
    intros id b d HP. eapply row_hosts; [exact Hh|auto].
  - destruct Hl as [_ ->]. rewrite Hact, Hrun. split_and!; auto.
Qed.
End Poll.

(** ** Properties *)

Section Properties.
Context {C : Type} `{NginxEnv (maintenance C)}.
Abbreviation mhost := (host (maintenance C)).
Abbreviation mnode := (node (maintenance C)).
Implicit Types (h : mhost) (n : mnode).

(** Completing a schedule never changes what it means: a host whose
    stored flag is what its schedule asked for at some instant is asked for
    the same state at every later instant before and after the dates are
    cleared; clearing also ends the pending job. *)
Theorem completion_keeps_the_schedule h t0 t t' :
  active h = desiredState h t0 -> t0 <= t -> t <= t' ->
  desiredState (completedSchedule h t) t' = desiredState h t' /\
  active (completedSchedule h t) = active h /\
  mt_pending (n_body (completedSchedule h t)) = false.
Proof.
  rewrite !desired_schedule. unfold active, start_of, end_of. rewrite completed_body.
  unfold active, start_of, end_of, before_end. destruct (n_body h) as [a p s e c]. simpl.
  intros Hact H1 H2. split_and!; try done.
  destruct a, s as [s|], e as [e|]; simpl in *;
    repeat match goal with
           | _ : context [?x <=? ?y] |- _ => destruct (Z.leb_spec x y); simpl in *
           | _ : context [?x <? ?y] |- _ => destruct (Z.ltb_spec x y); simpl in *
           | |- context [?x <=? ?y] => destruct (Z.leb_spec x y); simpl
           | |- context [?x <? ?y] => destruct (Z.ltb_spec x y); simpl
           end; done || lia.
Qed.

(** A poll of the maintenance scheduler activates every due host or keeps
    every job.  Either each due host's file holds what is rendered for it in
    the state its schedule asks for, in a configuration the server accepted
    and runs; or the active files are exactly as before, and each due host
    still has its dates, is still looked at by the next poll, and is either
    marked pending in the new state or untouched.  What other requests write
    meanwhile makes no difference to the files. *)
Theorem poll_activates_or_keeps_the_jobs now now' edits n :
  valid_files n -> List.NoDup (map n_id (nd_hosts n PROXY)) ->
  (forall h, In h (nd_hosts n PROXY) -> 0 <= n_id h) ->
  let n' := processMaintenance now now' edits n in
  (forall h, In h (nd_hosts n PROXY) -> due now h = true ->
     exists h' text, n_id h' = n_id h /\ n_body h' = n_body (claimed now h) /\
       renderConfig now PROXY h' = Ok text /\
       nd_files n' !! config_file PROXY (n_id h) = Some text /\
       valid_files n' /\ nd_running n' = active_files (nd_files n')) \/
  (active_files (nd_files n') = active_files (nd_files n) /\
   (nd_running n' = nd_running n \/ nd_running n' = active_files (nd_files n)) /\
   forall h, In h (nd_hosts n PROXY) -> due now h = true ->
     exists c, find_host PROXY (n_id h) n' = Some c /\ scheduled c = true /\
       start_of c = start_of h /\ end_of c = end_of h /\
       (mt_pending (n_body c) = true /\ active c = desiredState h now \/ n_body c = n_body h)).
Proof.
  intros Hv Hnd Hpos. unfold processMaintenance, activateMaintenance.
  set (ids := map n_id (select_where scheduled (nd_hosts n PROXY))).
  assert (List.NoDup ids) as Hndi by by apply (NoDup_map_select n_id).
  assert (forall id, In id ids -> 0 <= id) as Hposi.
  { intros id (h & <- & Hin)%in_map_iff. apply in_select in Hin as [Hin _]. auto. }
  assert (forall h, In h (nd_hosts n PROXY) -> due now h = true -> In (n_id h) ids) as Hdue.
  { intros h Hin Hd. apply in_map, in_select. split; [done|]. by eapply due_scheduled. }
  assert (forall h, In h (nd_hosts n PROXY) -> find_host PROXY (n_id h) n = Some h) as Hfind.
  { intros h Hin. by apply (find_by_key n_id). }
  destruct (claim_all now ids [] n) as [[stages eo] n1] eqn:Ec.
  destruct (claim_all_spec now (nd_files n) ids [] n stages eo n1 Ec Hndi Hposi) as
    (Hrun & Hb & _ & _ & Hall); [apply batch_nil|by intros ? _ []|].
  (* Both ways a poll may fail leave the jobs as the claims left them. *)
  assert (forall e n2 r n', abandon e stages n2 = (r, n') -> nd_files n2 = nd_files n1 ->
            nd_running n2 = nd_running n1 -> nd_hosts n2 = nd_hosts n1 ->
    active_files (nd_files n') = active_files (nd_files n) /\
    (nd_running n' = nd_running n \/ nd_running n' = active_files (nd_files n)) /\
    forall h, In h (nd_hosts n PROXY) -> due now h = true ->
      exists c, find_host PROXY (n_id h) n' = Some c /\ scheduled c = true /\
        start_of c = start_of h /\ end_of c = end_of h /\
        (mt_pending (n_body c) = true /\ active c = desiredState h now \/ n_body c = n_body h))
    as Hfail.
  { intros e n2 r n' Ha Hf Hr Hh. rewrite <- Hf in Hb. rewrite <- Hr in Hrun.
    destruct (abandon_spec _ _ _ _ _ _ _ Ha Hb) as (Hact & Hrun' & Hrow).
    split_and!; [done|by rewrite <- Hrun|]. intros h Hin Hd.
    destruct (Hall (n_id h) h (Hdue h Hin Hd) (Hfind h Hin) Hd) as [[Hrow1 _]|[Hrow1 _]];
      apply (row_hosts _ _ _ _ n1 n2 Hh), Hrow in Hrow1 as (c & Hc & Hbody & Hdel);
      exists c; unfold scheduled, start_of, end_of, active; rewrite Hbody, Hdel; simpl.
    - split_and!; try done; [by rewrite orb_true_r|by left].
    - split_and!; try done; [|by right]. pose proof (due_scheduled _ _ Hd) as Hsch.
      unfold scheduled in Hsch. by apply andb_true_iff in Hsch as [_ ?]. }
  destruct eo as [e|].
  { right. destruct (abandon e stages n1) as [r n2] eqn:Ea.
    destruct stages; apply (Hfail e n1 r n2); done. }
  destruct stages as [|s0 stages0].
  { left. intros h Hin Hd.
    destruct (Hall (n_id h) h (Hdue h Hin Hd) (Hfind h Hin) Hd) as [[_ Hs]|[_ ?]]; [|done].
    by destruct (Hs eq_refl) as (h' & [] & _). }
  destruct (reload n1) as [[u|e] n2] eqn:El; apply reload_spec in El as (Hf & Hh & Hl).
  2: { right. destruct Hl as [_ ->]. destruct (abandon e _ n1) as [r n2] eqn:Ea.
    simpl. by apply (Hfail e n1 r n2). }
  left. intros h Hin Hd. cbn [snd].
  destruct (Hall (n_id h) h (Hdue h Hin Hd) (Hfind h Hin) Hd) as [[_ Hs]|[_ ?]]; [|done].
  destruct (Hs eq_refl) as (h' & Hin' & Hid & Hbody). destruct Hl as [Hv1 Hr2].
  destruct Hb as [_ _ Htexts]. rewrite Forall_forall in Htexts.
  destruct (Htexts (PROXY, h')) as (text & Ht & Hlook); [by apply list_elem_of_In|].
  set (n3 := set_hosts PROXY _ n2).
  destruct (complete_all_files now' (s0 :: stages0) n3) as [Hr4 Hp4].
  assert (nd_files n3 = nd_files n1) as Hf3 by done.
  rewrite Hf3 in Hp4. pose proof (active_files_eq _ _ Hp4) as Hact.
  exists h', text. unfold valid_files. rewrite Hact, Hr4. split_and!; try done.
  rewrite Hp4 by apply config_file_active. rewrite <- Hid. exact Hlook.
Qed.

(** Completing an activated host settles only the schedule that was
    activated: if the row still has the activated flag and dates, it gets
    the completion patch; if another request changed any of them meanwhile,
    or deleted the host, its maintenance columns stay as that request left
    them. *)
Theorem newer_schedule_is_kept now' h n c :
  find_host PROXY (n_id h) n = Some c ->
  exists c', find_host PROXY (n_id h) (complete_stage now' (PROXY, h) n) = Some c' /\
    (n_is_deleted c = true \/ active c <> active h \/ start_of c <> start_of h \/ end_of c <> end_of h ->
     n_body c' = n_body c) /\
    (n_is_deleted c = false -> active c = active h -> start_of c = start_of h -> end_of c = end_of h ->
     n_meta c <> UnreadableMeta ->
     n_body c' = n_body (completedSchedule c now')).
Proof.
  intros Hc. unfold complete_stage. simpl fst. simpl snd.
  destruct (commitStagedConfig PROXY h false n) as [r n1] eqn:E.
  assert (row_is PROXY (n_id h) (n_body c) (n_is_deleted c) n) as Hrow by (by exists c).
  pose proof (row_commit _ _ _ _ _ _ _ _ _ _ Hrow E) as (c1 & Hc1 & Hb1 & Hd1).
  assert (n_meta c <> UnreadableMeta -> is_ok r = true) as Hok.
  { intros Hm. revert E. unfold commitStagedConfig, bind at 1, updateHostStatus. rewrite Hc.
    unfold sanitizeHostMeta. destruct (n_meta c); [|done]. by intros [= <- _]. }
  destruct r as [m|e].
  2: { exists c1. split_and!; try done. intros _ _ _ _ Hm. by specialize (Hok Hm). }
  unfold finishMaintenance. rewrite Hc1.
  assert (active c1 = active c /\ start_of c1 = start_of c /\ end_of c1 = end_of c) as (Ha & Hs & He)
    by (unfold active, start_of, end_of; by rewrite Hb1).
  rewrite Ha, Hs, He, Hd1.
  destruct (_ || _) eqn:Eg.
  - exists c1. split_and!; try done. intros Hdel Hact Hst Hen _. rewrite Hdel, Hact, Hst, Hen in Eg.
    rewrite eqb_reflx, !opt_eqb_refl in Eg. done.
  - exists (completedSchedule c1 now'). split_and!.
    + pose proof (find_host_id _ _ _ _ Hc1) as Hid.
      rewrite (find_patch PROXY (n_id h) (n_id c1) _ n1 c1 Hc1); [by unfold by_id; rewrite Z.eqb_refl|].
      intros r _. unfold completedSchedule. simpl. destruct (_ && _); [done|].
      destruct (mt_end (n_body c1)); [|done]. by destruct (_ && _).
    + apply orb_false_iff in Eg as [Eg Heq]. apply orb_false_iff in Eg as [Eg Hsq].
      apply orb_false_iff in Eg as [Hdel Haq]. apply negb_false_iff in Heq, Hsq, Haq.
      apply opt_eqb_eq in Heq, Hsq. apply eqb_prop in Haq. intros [?|[?|[?|?]]]; congruence.
    + intros _ _ _ _ _. rewrite !completed_body, Ha, Hs, He, Hb1. done.
Qed.

(** No timer overflows the engine's 31-bit delay: whatever a poll is
    given, every timer it leaves was set for an instant that is in the future
    and within the limit, each host has at most its start and its end timer,
    and hosts the poll does not look at keep none.  An upcoming start or end
    within the limit always has its timer. *)
Theorem timers_fit_and_follow_the_hosts now hosts t :
  List.NoDup (map fst hosts) ->
  let t' := poll_timers now hosts t in
  (forall id ds, t' !! id = Some ds -> exists start stop, In (id, (start, stop)) hosts /\
     ds = option_list (timer_delay now start) ++ option_list (timer_delay now stop) /\
     Forall (fun d => 0 < d <= MAX_TIMER_DELAY) ds) /\
  (forall id start stop u, In (id, (start, stop)) hosts -> start = Some u \/ stop = Some u ->
     now < u -> u - now <= MAX_TIMER_DELAY -> exists ds, t' !! id = Some ds /\ In (u - now) ds).
Proof.
  intros Hnd t'. subst t'. unfold poll_timers. set (t0 := filter _ t).
  destruct (timers_fold now hosts t0 Hnd) as [Hout Hin].
  assert (forall id ds, fold_left (fun t x => scheduleTimers now (fst x) (fst (snd x)) (snd (snd x)) t)
            hosts t0 !! id = Some ds ->
          exists start stop, In (id, (start, stop)) hosts /\ timer_entry now start stop = Some ds) as Hent.
  { intros id ds Hl. destruct (in_dec Z.eq_dec id (map fst hosts)) as [Hi|Hni].
    - apply in_map_iff in Hi as ([id' [start stop]] & <- & Hi). exists start, stop.
      split; [done|]. by rewrite <- (Hin _ _ _ Hi).
    - rewrite Hout in Hl by done. subst t0. apply map_lookup_filter_Some in Hl as [_ Hl].
      destruct Hni. by apply list_elem_of_In. }
  split.
  - intros id ds (start & stop & Hi & He)%Hent. exists start, stop.
    destruct (timer_entry_spec _ _ _ _ He) as [-> Hall]. done.
  - intros id start stop u Hi Hu Hlt Hmax. rewrite (Hin _ _ _ Hi). unfold timer_entry.
    assert (In (u - now) (option_list (timer_delay now start) ++ option_list (timer_delay now stop))) as Hd.
    { assert (timer_delay now (Some u) = Some (u - now)) as Ht.
      { unfold timer_delay. destruct (Z.ltb_spec now u), (Z.leb_spec (u - now) MAX_TIMER_DELAY); done || lia. }
      apply in_app_iff. destruct Hu as [-> | ->]; rewrite Ht; simpl; auto. }
    destruct (_ ++ _) as [|d l] eqn:El; [done|]. by exists (d :: l).
Qed.
End Properties.

(** ** A concrete poll *)

Section DemoPoll.
(** A host renders to its state; a second host may be refused. *)
Definition maint_nginx : NginxEnv (maintenance string) := {|
  render_text := fun _ _ h => Ok (if n_enabled h && mt_active (n_body h) then "503" else mt_other (n_body h));
  nginx_verdict := fun t => if decide (map_Exists (fun _ c => c = "bad") t) then Some "test failed" else None
|}.
#[local] Existing Instance maint_nginx.

Definition maint_host (id : Z) (b : maintenance string) : host (maintenance string) :=
  MkNHost id false true (Meta false None None) b.
Definition one_shot : host (maintenance string) := maint_host 1 (MkMaint false false (Some 1000) None "app1").
Definition refused : host (maintenance string) := maint_host 2 (MkMaint true false None (Some 1500) "bad").
Definition maint_node (rows : list (host (maintenance string))) : node (maintenance string) :=
  MkNode {["/data/nginx/proxy_host/1.conf" := "app1"; "/data/nginx/proxy_host/2.conf" := "503"]} ∅
    (fun t => if String.eqb t PROXY then rows else []).

Lemma completion_keeps_the_schedule_witness :
  let h := claimed 1000 one_shot in
  start_of (completedSchedule h 1200) = None /\
  desiredState (completedSchedule h 1200) 99999 = desiredState h 99999.
Proof.
  split; [reflexivity|].
  apply (completion_keeps_the_schedule (claimed 1000 one_shot) 1000 1200 99999);
    [reflexivity|lia|lia].
Defined.

(** Host 1 is due at 2000, and so is the end of host 2, which is refused. *)
Lemma poll_activates_or_keeps_the_jobs_witness :
  let n := maint_node [one_shot; refused] in
  let n' := processMaintenance 2000 2100 (fun rows => rows) n in
  due 2000 one_shot = true /\ active_files (nd_files n') = active_files (nd_files n) /\
  exists c, find_host PROXY 1 n' = Some c /\ scheduled c = true /\ start_of c = Some 1000.
Proof.
  split; [reflexivity|].
  destruct (poll_activates_or_keeps_the_jobs 2000 2100 (fun rows => rows) (maint_node [one_shot; refused]))
    as [Hok|(Ha & _ & Hjobs)].
  - vm_compute. reflexivity.
  - repeat constructor; simpl; intuition discriminate.
  - intros h [<-|[<-|[]]]; vm_compute; discriminate.
  - exfalso. destruct (Hok refused) as (h1 & text & _ & Hb & Hr & Hl & _);
      [right; left; reflexivity|reflexivity|].
    vm_compute in Hl. injection Hl as <-. revert Hr. unfold renderConfig, retireHostRuntime. simpl.
    destruct (n_meta h1) as [[] ? ?|]; simpl; [| |discriminate];
      destruct (_ || _); simpl; rewrite Hb; simpl; rewrite ?andb_false_r; discriminate.
  - split; [exact Ha|].
    destruct (Hjobs one_shot) as (c & Hc & Hs & Hst & _); [left; reflexivity|reflexivity|].
    exists c. split; [exact Hc|]. split; [exact Hs|exact Hst].
Defined.

(** While host 1 was being activated, somebody moved its start. *)
Definition moved : host (maintenance string) := maint_host 1 (MkMaint true true (Some 5000) None "app1").

Lemma newer_schedule_is_kept_witness :
  exists c', find_host PROXY 1 (complete_stage 2100 (PROXY, claimed 2000 one_shot) (maint_node [moved])) = Some c' /\
    start_of c' = Some 5000 /\ mt_pending (n_body c') = true.
Proof.
  destruct (newer_schedule_is_kept 2100 (claimed 2000 one_shot) (maint_node [moved]) moved)
    as (c' & Hc & Hkept & _); [reflexivity|].
  exists c'. split; [exact Hc|]. unfold start_of. rewrite Hkept; [split; reflexivity|].
  right. right. left. discriminate.
Defined.

Lemma timers_fit_and_follow_the_hosts_witness :
  let t' := poll_timers 1000 [(1, (Some 4000, None)); (2, (Some 9999999999, None))] {[3 := [5]]} in
  (exists ds, t' !! 1 = Some ds /\ In 3000 ds) /\ t' !! 3 = None.
Proof.
  split; [|reflexivity].
  apply (timers_fit_and_follow_the_hosts 1000 [(1, (Some 4000, None)); (2, (Some 9999999999, None))] {[3 := [5]]})
    with (start := Some 4000) (stop := None) (u := 4000).
  - repeat constructor; simpl; intuition discriminate.
  - left. reflexivity.
  - left. reflexivity.
  - lia.
  - vm_compute. discriminate.
Defined.
End DemoPoll.
