(* ===== verification/JsValue.v ===== *)
(** Untyped values of the language, as they arrive in request bodies and in
    JSON columns: what the validators of src/backend test and read.

    A number is an integer or one that is not (a fraction, an infinity or not
    a number); no validator looks further at the latter.  An object is the
    list of its own properties, in insertion order, without duplicates. *)

From S2P Require Import Prelude JsString.
#[local] Open Scope string_scope.
#[local] Open Scope list_scope.
#[local] Open Scope Z_scope.

#[local] Set Warnings "-register-all".
Inductive value : Type :=
| VUndef
| VNull
| VBool (b : bool)
| VInt (n : Z)
| VFloat
| VStr (s : string)
| VArr (xs : list value)
| VObj (fields : list (string * value)).

(** [typeof v === "string"] and the like. *)
Definition is_str (v : value) : bool := match v with VStr _ => true | _ => false end.
Definition is_bool (v : value) : bool := match v with VBool _ => true | _ => false end.
Definition is_undef (v : value) : bool := match v with VUndef => true | _ => false end.
Definition is_nullish (v : value) : bool := match v with VUndef | VNull => true | _ => false end.

(** [v && typeof v === "object" && !Array.isArray(v)] *)
Definition is_object (v : value) : bool := match v with VObj _ => true | _ => false end.

(** [if (v)] *)
Definition js_truthy (v : value) : bool :=
  match v with
  | VUndef | VNull => false
  | VBool b => b
  | VInt n => negb (n =? 0)
  | VFloat => true
  | VStr s => negb (String.eqb s "")
  | VArr _ | VObj _ => true
  end.

Fixpoint field_of (k : string) (fields : list (string * value)) : value :=
  match fields with
  | [] => VUndef
  | (k', v) :: fields' => if String.eqb k k' then v else field_of k fields'
  end.

(** [v.k] of an object (other values have no own property the code reads). *)
Definition get (k : string) (v : value) : value :=
  match v with VObj fields => field_of k fields | _ => VUndef end.

(** [Object.keys(v)] *)
Definition keys_of (v : value) : list string :=
  match v with VObj fields => map fst fields | _ => [] end.

(** [Object.hasOwn(v, k)] *)
Definition has_own (k : string) (v : value) : bool := existsb (String.eqb k) (keys_of v).

(** [list.includes(k)] *)
Definition includes_key (ks : list string) (k : string) : bool := existsb (String.eqb k) ks.

(** [v ?? d] *)
Definition or_default (v d : value) : value := if is_nullish v then d else v.

Definition str_or (d : string) (v : value) : string := match v with VStr s => s | _ => d end.
Definition bool_or (d : bool) (v : value) : bool := match v with VBool b => b | _ => d end.
Definition int_or (d : Z) (v : value) : Z := match v with VInt n => n | _ => d end.
Definition array_or (d : list value) (v : value) : list value := match v with VArr xs => xs | _ => d end.

(** [Number.isInteger(v) && lo <= v && v <= hi] *)
Definition int_between (lo hi : Z) (v : value) : bool :=
  match v with VInt n => (lo <=? n) && (n <=? hi) | _ => false end.

Lemma int_between_spec lo hi v :
  int_between lo hi v = true <-> exists n, v = VInt n /\ lo <= n <= hi.
Proof.
  split.
  - destruct v as [| | |n| | | |]; simpl; try done. intros Hb. boolify. by exists n.
  - intros (n & -> & ? & ?). apply andb_true_iff. by rewrite !Z.leb_le.
Qed.

(** The length of [Buffer.byteLength(s, "utf8")]: one byte for ASCII, two for
    the rest of Latin-1. *)
Fixpoint utf8_length (s : string) : Z :=
  match s with
  | EmptyString => 0
  | String c s' => (if code c <? 128 then 1 else 2) + utf8_length s'
  end.

Lemma utf8_length_bounds s : strlen s <= utf8_length s <= 2 * strlen s.
Proof.
  induction s as [|c s IH]; [done|]. cbn [utf8_length String.length].
  destruct (code c <? 128); lia.
Qed.

Lemma includes_key_spec ks k : includes_key ks k = true <-> In k ks.
Proof.
  unfold includes_key. rewrite existsb_exists. split; [by intros (x & Hx & ->%String.eqb_eq)|].
  intros Hk. exists k. by rewrite String.eqb_refl.
Qed.

Lemma includes_key_false ks k : includes_key ks k = false -> ~ In k ks.
Proof. intros Hf Hin%includes_key_spec. congruence. Qed.
