(* ===== verification/JsObject.v ===== *)
(** Objects of the language as tables of properties: assignment, spreading,
    and the operations of lodash the source uses on them ([_.omit], [_.pick]). *)

From S2P Require Import Prelude JsString JsValue.
#[local] Open Scope string_scope.
#[local] Open Scope list_scope.
#[local] Open Scope Z_scope.

Abbreviation fields := (list (string * value)).

(** ** Objects *)

(** [o.k = v]: a new property goes last. *)
Fixpoint set_field (k : string) (v : value) (o : fields) : fields :=
  match o with
  | [] => [(k, v)]
  | (k', v') :: o' => if String.eqb k k' then (k', v) :: o' else (k', v') :: set_field k v o'
  end.

Definition assign_all (base over : fields) : fields :=
  fold_left (fun acc kv => set_field (fst kv) (snd kv) acc) over base.

(** [{ ...a, ...b }] *)
Definition spread2 (a b : fields) : fields := assign_all (assign_all [] a) b.

(** ** Objects as tables of properties *)

Lemma field_of_set k v o : field_of k (set_field k v o) = v.
Proof.
  induction o as [|[j w] o IH]; simpl; [by rewrite String.eqb_refl|].
  destruct (String.eqb k j) eqn:E; simpl; by rewrite E.
Qed.

Lemma field_of_set_ne k j v o : k <> j -> field_of k (set_field j v o) = field_of k o.
Proof.
  intros Hne. induction o as [|[i w] o IH]; simpl.
  - apply String.eqb_neq in Hne. by rewrite Hne.
  - destruct (String.eqb j i) eqn:E; simpl; [|by rewrite IH].
    apply String.eqb_eq in E as ->. apply String.eqb_neq in Hne. by rewrite Hne.
Qed.

Lemma set_field_same k v o : v <> VUndef -> field_of k o = v -> set_field k v o = o.
Proof.
  intros Hv. induction o as [|[j w] o IH]; simpl; [congruence|].
  destruct (String.eqb k j); [by intros ->|]. intros Hf. by rewrite IH.
Qed.

Lemma set_field_fresh k v o : ~ In k (map fst o) -> set_field k v o = o ++ [(k, v)].
Proof.
  induction o as [|[j w] o IH]; [done|]. simpl. intros Hn.
  destruct (String.eqb k j) eqn:E; [|by rewrite IH by tauto].
  apply String.eqb_eq in E as ->. tauto.
Qed.

Lemma set_field_replaces k v w pre b :
  ~ In k (map fst pre) -> set_field k v (pre ++ (k, w) :: b) = pre ++ (k, v) :: b.
Proof.
  induction pre as [|[j u] pre IH]; simpl; [by rewrite String.eqb_refl|]. intros Hn.
  destruct (String.eqb k j) eqn:E; [|by rewrite IH by tauto].
  apply String.eqb_eq in E as ->. tauto.
Qed.

Lemma set_field_keys k v o :
  map fst (set_field k v o) = map fst o ++ (if includes_key (map fst o) k then [] else [k]).
Proof.
  unfold includes_key. induction o as [|[j w] o IH]; [done|]. simpl.
  destruct (String.eqb k j) eqn:E; simpl; [by rewrite app_nil_r|by rewrite IH].
Qed.

Lemma set_field_NoDup k v o : List.NoDup (map fst o) -> List.NoDup (map fst (set_field k v o)).
Proof.
  intros Hnd. rewrite set_field_keys. destruct (includes_key _ _) eqn:E; [by rewrite app_nil_r|].
  change [k] with (map fst [(k, v)]). rewrite <- map_app. apply key_fresh_app; [done|]. simpl. intros Hin.
  assert (includes_key (map fst o) k = true) as Ht; [|congruence].
  apply existsb_exists. exists k. by rewrite String.eqb_refl.
Qed.

(** [grows o o']: the properties of [o], in order, come first in [o']. *)
Definition grows (o o' : fields) : Prop := exists rest, map fst o' = map fst o ++ rest.

#[global] Instance grows_preorder : PreOrder grows.
Proof.
  split.
  - intros o. exists []. by rewrite app_nil_r.
  - intros a b c [r Hr] [q Hq]. exists (r ++ q). by rewrite Hq, Hr, app_assoc.
Qed.

Lemma grows_set k v o : grows o (set_field k v o).
Proof. eexists. apply set_field_keys. Qed.

Lemma grows_assign base over : grows base (assign_all base over).
Proof.
  unfold assign_all. revert base. induction over as [|[k v] over IH]; intros base; [reflexivity|]. simpl.
  etransitivity; [apply (grows_set k v)|apply IH].
Qed.

Lemma assign_all_NoDup base over : List.NoDup (map fst base) -> List.NoDup (map fst (assign_all base over)).
Proof.
  unfold assign_all. revert base. induction over as [|[k v] over IH]; intros base Hb; [done|]. simpl.
  by apply IH, set_field_NoDup.
Qed.

Lemma assign_all_onto pre b over rest :
  map fst over = map fst b ++ rest -> List.NoDup (map fst (pre ++ over)) ->
  assign_all (pre ++ b) over = pre ++ over.
Proof.
  revert pre b rest. induction over as [|[k v] over IH]; intros pre b rest Hk Hnd.
  { destruct b; [done|]. by inversion Hk. }
  assert (~ In k (map fst pre)) as Hfresh.
  { rewrite map_app in Hnd. simpl in Hnd. apply List.NoDup_remove_2 in Hnd.
    intros Hin. apply Hnd. apply in_or_app. by left. }
  assert (List.NoDup (map fst ((pre ++ [(k, v)]) ++ over))) as Hnd' by (by rewrite <- app_assoc).
  unfold assign_all. simpl. fold (assign_all (set_field k v (pre ++ b)) over).
  destruct b as [|[j w] b]; simpl in Hk.
  - rewrite app_nil_r, set_field_fresh by done.
    rewrite <- (app_nil_r (pre ++ [(k, v)])), (IH _ [] (map fst over)); [by rewrite <- app_assoc|done|done].
  - injection Hk as <- Hk. rewrite set_field_replaces by done.
    change ((k, v) :: b) with ([(k, v)] ++ b). rewrite app_assoc, (IH _ b rest); [by rewrite <- app_assoc|done|done].
Qed.

(** Spreading an object over one it grew from gives it back. *)
Lemma spread_onto a m : grows (assign_all [] a) m -> List.NoDup (map fst m) -> spread2 a m = m.
Proof. intros [rest Hr] Hnd. by apply (assign_all_onto [] (assign_all [] a) m rest). Qed.

Lemma spread_grows a b : grows (assign_all [] a) (spread2 a b).
Proof. apply grows_assign. Qed.

Lemma spread_NoDup a b : List.NoDup (map fst (spread2 a b)).
Proof. do 2 apply assign_all_NoDup. constructor. Qed.

Lemma field_of_assign k j v over base base' :
  k <> j -> field_of k base = field_of k base' ->
  field_of k (assign_all base (set_field j v over)) = field_of k (assign_all base' over).
Proof.
  intros Hne. unfold assign_all. revert base base'.
  assert (forall (o : fields) base base', field_of k base = field_of k base' ->
    field_of k (fold_left (fun acc kv => set_field (fst kv) (snd kv) acc) o base) =
    field_of k (fold_left (fun acc kv => set_field (fst kv) (snd kv) acc) o base')) as Hsame.
  { induction o as [|[i w] o IH]; intros base base' Hb; [done|]. simpl. apply IH.
    destruct (String.eqb_spec k i) as [->|Hi]; [by rewrite !field_of_set|by rewrite !field_of_set_ne]. }
  induction over as [|[i w] over IH]; intros base base' Hb; simpl; [by rewrite field_of_set_ne|].
  destruct (String.eqb j i) eqn:E; simpl.
  - apply String.eqb_eq in E as ->. apply Hsame. by rewrite !field_of_set_ne.
  - apply IH. destruct (String.eqb_spec k i) as [->|Hi]; [by rewrite !field_of_set|by rewrite !field_of_set_ne].
Qed.

Lemma grows_nil o : grows [] o.
Proof. by exists (map fst o). Qed.

(** Assigning the properties of [over]: the last one wins. *)
Lemma field_of_assign_all k base over : List.NoDup (map fst over) ->
  field_of k (assign_all base over) = if includes_key (map fst over) k then field_of k over else field_of k base.
Proof.
  unfold assign_all, includes_key. revert base. induction over as [|[j v] over IH]; intros base Hnd; [done|]. simpl.
  inversion Hnd as [|? ? Hj Hnd']; subst. rewrite IH by done. destruct (String.eqb k j) eqn:E; simpl.
  - apply String.eqb_eq in E as ->. destruct (existsb (String.eqb j) (map fst over)) eqn:Ej; [|by rewrite field_of_set].
    by apply existsb_eqb_In in Ej.
  - destruct (existsb (String.eqb k) (map fst over)); [done|]. rewrite field_of_set_ne; [done|]. by apply String.eqb_neq.
Qed.

Lemma field_of_absent k o : ~ In k (map fst o) -> field_of k o = VUndef.
Proof.
  induction o as [|[j v] o IH]; [done|]. simpl. intros Hn. destruct (String.eqb_spec k j) as [->|]; [tauto|]. apply IH. tauto.
Qed.

(** ** [_.omit] and [_.pick] with plain keys *)

Definition omit (ks : list string) (o : fields) : fields := List.filter (fun kv => negb (includes_key ks (fst kv))) o.
Definition pick (ks : list string) (o : fields) : fields :=
  map (fun k => (k, field_of k o)) (List.filter (includes_key (map fst o)) ks).

(** The properties of an object; other values have none. *)
Definition fields_of (v : value) : fields := match v with VObj o => o | _ => [] end.

Lemma field_of_omit k ks o : field_of k (omit ks o) = if includes_key ks k then VUndef else field_of k o.
Proof.
  unfold omit. induction o as [|[j v] o IH]; simpl; [by destruct (includes_key ks k)|].
  destruct (includes_key ks j) eqn:Ej; simpl; rewrite IH.
  - destruct (String.eqb_spec k j) as [->|]; [by rewrite Ej|done].
  - destruct (String.eqb_spec k j) as [->|]; [by rewrite Ej|done].
Qed.

Lemma keys_omit ks o k : In k (map fst (omit ks o)) <-> In k (map fst o) /\ ~ In k ks.
Proof.
  unfold omit. rewrite !in_map_iff. setoid_rewrite filter_In. setoid_rewrite negb_true_iff. split.
  - intros (kv & <- & Hin & Hn). split; [eauto|]. by apply includes_key_false.
  - intros [(kv & <- & Hin) Hn]. exists kv. split; [done|]. split; [done|].
    destruct (includes_key ks (fst kv)) eqn:E; [by apply includes_key_spec in E|done].
Qed.

Lemma omit_NoDup ks o : List.NoDup (map fst o) -> List.NoDup (map fst (omit ks o)).
Proof. intros Hnd. apply (NoDup_map_select fst (fun kv => negb (includes_key ks (fst kv))) o Hnd). Qed.
