(* ===== verification/Certificates.v ===== *)
(** The bounded reader of PEM certificate bundles in
    src/backend/internal/proxy-host-monitor.js.

    A position in the bundle is the rest of the string from there.  Whether a
    block is a certificate is decided by the X.509 parser, a parameter. *)

From S2P Require Import Prelude JsString.
#[local] Open Scope string_scope.
#[local] Open Scope list_scope.
#[local] Open Scope Z_scope.

Definition PEM_START : string := "-----BEGIN CERTIFICATE-----".
Definition PEM_END : string := "-----END CERTIFICATE-----".

Definition pemWhitespace (c : ascii) : bool :=
  let k := code c in (k =? 9) || (k =? 10) || (k =? 13) || (k =? 32).
Definition pemBase64 (c : ascii) : bool :=
  let k := code c in
  in_range 65 90 c || in_range 97 122 c || in_range 48 57 c || (k =? 43) || (k =? 47) || (k =? 61).

(** [pem.indexOf(p, position)]: what comes before and after the first
    occurrence. *)
Fixpoint break_at (p s : string) : option (string * string) :=
  if starts_with p s then Some ("", drop_str (String.length p) s)
  else match s with
       | EmptyString => None
       | String c s' =>
           match break_at p s' with
           | Some (a, b) => Some (String c a, b)
           | None => None
           end
       end.

(** [new X509Certificate(block)] does not throw. *)
Class X509 : Type := { x509_ok : string -> bool }.

Section Bundle.
Context `{X509}.

Definition good_body (body : string) : bool :=
  all_chars (fun c => pemWhitespace c || pemBase64 c) body && any_char pemBase64 body.

(** [left] is how many certificates may still follow. *)
Fixpoint read_bundle (left : nat) (count : nat) (rest : string) : bool :=
  match drop_while pemWhitespace rest with
  | EmptyString => Nat.ltb 0 count
  | rest' =>
      match left with
      | O => false
      | S left' =>
          if starts_with PEM_START rest' then
            match break_at PEM_END (drop_str (String.length PEM_START) rest') with
            | None => false
            | Some (body, rest'') =>
                if good_body body && x509_ok (PEM_START ++ body ++ PEM_END)
                then read_bundle left' (S count) rest'' else false
            end
          else false
      end
  end.

Definition validCertificateBundle (pem : string) : bool := read_bundle 8 0 pem.
End Bundle.

(** ** Printing a bundle *)

(** A bundle is white space with certificates in it: each block after some
    white space, and white space at the end. *)
Definition block (body : string) : string := (PEM_START ++ body ++ PEM_END)%string.

Fixpoint bundle (certs : list (string * string)) (tail : string) : string :=
  match certs with
  | [] => tail
  | (space, body) :: certs' => (space ++ block body ++ bundle certs' tail)%string
  end.

Lemma drop_while_split p s : exists w, s = (w ++ drop_while p s)%string /\ all_chars p w = true.
Proof.
  induction s as [|c s IH]; [by exists ""|]. simpl. destruct (p c) eqn:E.
  - destruct IH as (w & Hw & Hp). exists (String c w). simpl. rewrite E. split; [by f_equal|done].
  - by exists "".
Qed.

Lemma drop_while_app p w s : all_chars p w = true -> drop_while p (w ++ s) = drop_while p s.
Proof.
  induction w as [|c w IH]; [done|]. simpl. intros [Hc Hw]%andb_true_iff. rewrite Hc. auto.
Qed.

Lemma drop_while_head p c s : p c = false -> drop_while p (String c s) = String c s.
Proof. simpl. by intros ->. Qed.

Lemma starts_with_split p s : starts_with p s = true -> s = (p ++ drop_str (String.length p) s)%string.
Proof.
  revert s. induction p as [|c p IH]; intros s; [done|]. destruct s as [|d s]; [done|]. simpl.
  intros [->%Ascii.eqb_eq Hs]%andb_true_iff. f_equal. auto.
Qed.

Lemma break_at_split p s a b : break_at p s = Some (a, b) -> s = (a ++ p ++ b)%string.
Proof.
  revert a. induction s as [|c s IH]; intros a; cbn [break_at].
  - destruct (starts_with p "") eqn:E; [|done]. intros [= <- <-]. by apply starts_with_split in E.
  - destruct (starts_with p (String c s)) eqn:E.
    + intros [= <- <-]. by apply starts_with_split in E.
    + destruct (break_at p s) as [[a' b']|]; [|done]. intros [= <- <-]. simpl. f_equal. auto.
Qed.

(** Before a body without the first character of the separator, the first
    occurrence is the one that follows the body. *)
Lemma break_at_body c p a b :
  has_char c a = false -> break_at (String c p) (a ++ String c p ++ b) = Some (a, b).
Proof.
  induction a as [|d a IH].
  - intros _. pose proof (starts_with_app (String c p) b) as Hs.
    pose proof (drop_str_app (String c p) b) as Hd. simpl in *. by rewrite Hs, Hd.
  - rewrite has_char_cons. intros [Hd Ha]%orb_false_iff.
    change (String d a ++ String c p ++ b)%string with (String d (a ++ String c p ++ b))%string.
    cbn [break_at]. assert (starts_with (String c p) (String d (a ++ String c p ++ b)) = false) as ->
      by (cbn [starts_with]; by rewrite Hd).
    by rewrite IH.
Qed.

Lemma base64_no_dash body : all_chars (fun c => pemWhitespace c || pemBase64 c) body = true ->
  has_char "-"%char body = false.
Proof.
  unfold has_char, any_char. intros Hb. apply negb_false_iff.
  eapply all_chars_impl; [|exact Hb]. intros c Hc. apply negb_true_iff.
  destruct (Ascii.eqb_spec "-"%char c) as [<-|]; [discriminate Hc|done].
Qed.

Section Claims.
Context `{X509}.

(** A block the reader accepts. *)
Definition cert_ok (sc : string * string) : Prop :=
  all_chars pemWhitespace (fst sc) = true /\ good_body (snd sc) = true /\
  x509_ok (block (snd sc)) = true.

Lemma read_bundle_sound left count rest :
  read_bundle left count rest = true ->
  exists certs tail, rest = bundle certs tail /\ Forall cert_ok certs /\
    all_chars pemWhitespace tail = true /\ (length certs <= left)%nat /\ (0 < count + length certs)%nat.
Proof.
  revert count rest. induction left as [|left IH]; intros count rest Hr; cbn [read_bundle] in Hr;
    destruct (drop_while_split pemWhitespace rest) as (w & Hw & Hws);
    destruct (drop_while pemWhitespace rest) as [|c r] eqn:Ed; try done.
  - exists [], w. rewrite append_nil_r in Hw. apply Nat.ltb_lt in Hr. simpl. split_and!; try done; lia.
  - exists [], w. rewrite append_nil_r in Hw. apply Nat.ltb_lt in Hr. simpl. split_and!; try done; lia.
  - destruct (starts_with PEM_START (String c r)) eqn:Es; [|done].
    destruct (break_at PEM_END _) as [[body rest']|] eqn:Eb; [|done].
    destruct (good_body body && _) eqn:Eg; [|done]. apply andb_true_iff in Eg as [Hg Hx].
    apply IH in Hr as (certs & tail & -> & Hc & Ht & Hl & _).
    exists ((w, body) :: certs), tail. simpl. split_and!; try done; [|by constructor|lia|lia].
    rewrite Hw, (starts_with_split _ _ Es), (break_at_split _ _ _ _ Eb). unfold block.
    by rewrite !append_assoc.
Qed.

Lemma read_bundle_block left count w text :
  all_chars pemWhitespace w = true ->
  read_bundle (S left) count (w ++ PEM_START ++ text) =
  match break_at PEM_END text with
  | None => false
  | Some (body, rest) =>
      if good_body body && x509_ok (block body) then read_bundle left (S count) rest else false
  end.
Proof.
  intros Hw. cbn [read_bundle]. rewrite drop_while_app by done.
  set (P := "----BEGIN CERTIFICATE-----").
  change (PEM_START ++ text)%string with (String "-"%char (P ++ text)).
  rewrite drop_while_head by done.
  change (String "-"%char (P ++ text)) with (PEM_START ++ text)%string.
  by rewrite starts_with_app, drop_str_app.
Qed.

Lemma read_bundle_complete left count certs tail :
  Forall cert_ok certs -> all_chars pemWhitespace tail = true ->
  (length certs <= left)%nat -> (0 < count + length certs)%nat ->
  read_bundle left count (bundle certs tail) = true.
Proof.
  intros Hc Ht. revert left count. induction Hc as [|[w body] certs (Hw & Hg & Hx) _ IH];
    intros left count Hl Hpos; cbn [fst snd bundle length] in *.
  - assert (drop_while pemWhitespace tail = "") as Hd.
    { rewrite <- (append_nil_r tail). by rewrite drop_while_app. }
    destruct left; cbn [read_bundle]; rewrite Hd; apply Nat.ltb_lt; lia.
  - destruct left as [|left]; [lia|]. unfold block at 1.
    rewrite !append_assoc, read_bundle_block by done.
    change PEM_END with (String "-"%char "----END CERTIFICATE-----").
    rewrite break_at_body by (apply base64_no_dash; by apply andb_true_iff in Hg as [? _]).
    simpl in Hx. rewrite Hg, Hx. apply IH; lia.
Qed.

(** The bundle reader accepts a text exactly when it is one to eight
    certificate blocks, each a non-empty base64 body the X.509 parser takes,
    with nothing but white space before, between and after them.  So nothing
    hidden between the blocks is ever accepted, and every such bundle is. *)
Theorem certificate_bundle_is_read_exactly pem :
  validCertificateBundle pem = true <->
  exists certs tail, pem = bundle certs tail /\ Forall cert_ok certs /\
    all_chars pemWhitespace tail = true /\ (1 <= length certs <= 8)%nat.
Proof.
  unfold validCertificateBundle. split.
  - intros (certs & tail & ? & ? & ? & ? & ?)%read_bundle_sound. exists certs, tail.
    split_and!; done || lia.
  - intros (certs & tail & -> & Hc & Ht & Hl). apply read_bundle_complete; done || lia.
Qed.
End Claims.
