(* ===== verification/MonitorSettings.v ===== *)
(** Monitor settings, probe targets and alert decisions of
    src/backend/internal/proxy-host-monitor.js: the parts that only compute.

    The certificate reader is in Certificates.v, the scheduler and its tables
    in Monitor.v. *)

From S2P Require Import Prelude JsString JsValue Errors Incidents Certificates.
#[local] Open Scope string_scope.
#[local] Open Scope list_scope.
#[local] Open Scope Z_scope.

(** ** Settings *)

Inductive probe_type : Type := Http | Tcp.

Record settings : Type := MkSettings {
  st_enabled : bool;
  st_type : probe_type;
  st_path : string;
  st_interval_seconds : Z;
  st_timeout_ms : Z;
  st_expected_status : Z;
  st_alert_enabled : bool;
  st_upstream_ca : option string;
  st_server_name : option string;
  st_skip_verification : bool
}.

(** The characters of [/^\/(?!\/)[A-Za-z0-9/_~.!$&'()*+,;=:-]*$/]. *)
Definition safe_path_char (c : ascii) : bool :=
  is_alnum c || includes (String c "") "/_~.!$&'()*+,;=:-".

Definition SAFE_PATH (s : string) : bool :=
  match s with
  | String c rest => Ascii.eqb c "/"%char && negb (starts_with "/" rest) && all_chars safe_path_char rest
  | EmptyString => false
  end.

(** [/^[a-z0-9](?:[a-z0-9-]*[a-z0-9])?$/i] *)
Definition label_shape (s : string) : bool :=
  all_chars (fun c => is_alnum c || Ascii.eqb c "-"%char) s &&
  negb (starts_with "-" s) && negb (ends_with "-" s) && negb (String.eqb s "").

Definition valid_server_name (s : string) : bool :=
  (strlen s <=? 253) &&
  forallb (fun part => (0 <? strlen part) && (strlen part <=? 63) && label_shape part)
    (split_on "."%char s).

Definition required_fields : list string :=
  ["enabled"; "type"; "path"; "interval_seconds"; "timeout_ms"; "expected_status"; "alert_enabled"].
Definition optional_fields : list string :=
  ["upstream_ca"; "upstream_server_name"; "skip_certificate_verification"].

Definition MAX_CA_BYTES : Z := 65535.

Definition bad_shape (data : value) : bool :=
  negb (is_object data) ||
  existsb (fun key => negb (includes_key required_fields key) && negb (includes_key optional_fields key))
    (keys_of data) ||
  existsb (fun key => negb (has_own key data)) required_fields.

Definition bad_fields (data : value) : bool :=
  negb (is_bool (get "enabled" data)) ||
  negb (is_bool (get "alert_enabled" data)) ||
  (negb (is_undef (get "skip_certificate_verification" data)) &&
   negb (is_bool (get "skip_certificate_verification" data))) ||
  negb (match get "type" data with VStr s => String.eqb s "http" || String.eqb s "tcp" | _ => false end) ||
  negb (match get "path" data with VStr s => (strlen s <=? 255) && SAFE_PATH s | _ => false end) ||
  negb (int_between 15 3600 (get "interval_seconds" data)) ||
  negb (int_between 500 15000 (get "timeout_ms" data)) ||
  negb (int_between 100 599 (get "expected_status" data)).

(** [null], or a string the test accepts. *)
Definition null_or (ok : string -> bool) (v : value) : bool :=
  is_nullish v || match v with VStr s => ok s | _ => false end.

Definition str_opt (v : value) : option string := match v with VStr s => Some s | _ => None end.

Definition assertMonitorConfig `{X509} (data : value) : fallible settings :=
  throw ValidationError "Invalid monitor settings" when (bad_shape data) ;;
  throw ValidationError "Invalid monitor settings" when (bad_fields data) ;;
  let timeout := int_or 0 (get "timeout_ms" data) in
  let interval := int_or 0 (get "interval_seconds" data) in
  throw ValidationError "Timeout must be shorter than the interval"
    when (interval * 1000 <=? timeout) ;;
  throw ValidationError "Invalid upstream CA certificate"
    when (negb (null_or (fun ca => (utf8_length ca <=? MAX_CA_BYTES) && validCertificateBundle ca)
                  (get "upstream_ca" data))) ;;
  throw ValidationError "Invalid upstream TLS server name"
    when (negb (null_or valid_server_name (get "upstream_server_name" data))) ;;
  Ok (MkSettings (bool_or false (get "enabled" data))
        (if String.eqb (str_or "" (get "type" data)) "tcp" then Tcp else Http)
        (str_or "" (get "path" data)) interval timeout
        (int_or 0 (get "expected_status" data)) (bool_or false (get "alert_enabled" data))
        (str_opt (get "upstream_ca" data)) (str_opt (get "upstream_server_name" data))
        (bool_or false (get "skip_certificate_verification" data))).

(** ** Probe targets *)

(** The columns of a proxy host that monitoring reads.  [mh_pool] is the
    stored upstream pool with the host's domains. *)
Record mon_host : Type := MkMonHost {
  mh_row : host_row;
  mh_forward_scheme : string;
  mh_forward_host : option string;
  mh_forward_port : option Z;
  mh_terminal_host : option string;
  mh_terminal_port : option Z;
  mh_pool : string
}.

Record probe_target : Type := MkTargetAddr {
  pt_scheme : string;
  pt_host : string;
  pt_port : Z;
  pt_path : string
}.

(** [.replace(/\/$/, "")] *)
Definition strip_slash (s : string) : string :=
  if ends_with "/" s then take_str (String.length s - 1) s else s.

(** [forward_host] up to its first slash, and the rest as a base path. *)
Definition split_host (hostname : string) : string * string :=
  if has_char "/"%char hostname then
    match split_on "/"%char hostname with
    | first :: rest => (first, strip_slash ("/" ++ join "/" rest)%string)
    | [] => (hostname, "")
    end
  else (hostname, "").

Definition unbracket (s : string) : string :=
  if starts_with "[" s && ends_with "]" s then slice 1 (String.length s - 1) s else s.

Definition nonzero_or (o : option Z) (d : Z) : Z :=
  match o with Some n => if n =? 0 then d else n | None => d end.

Definition resolveTarget (host : mon_host) (config : settings) : option probe_target :=
  let scheme := mh_forward_scheme host in
  let terminal := String.eqb scheme "terminal" in
  if String.eqb scheme "path" then None
  else if match st_type config with
          | Http => negb (String.eqb scheme "http" || String.eqb scheme "https")
          | Tcp => false
          end then None
  else
    match (if terminal then mh_terminal_host host else mh_forward_host host) with
    | None => None
    | Some hostname0 =>
        let port := if terminal then nonzero_or (mh_terminal_port host) 22
                    else default 0 (mh_forward_port host) in
        if starts_with "unix" hostname0 || starts_with "/" hostname0 then None
        else
          let '(hostname1, basePath) := if terminal then (hostname0, "") else split_host hostname0 in
          let hostname := unbracket hostname1 in
          if String.eqb hostname "" || (port <? 1) || (65535 <? port) then None
          else
            let path := if String.eqb basePath "" then st_path config
                        else (basePath ++ (if String.eqb (st_path config) "/" then "" else st_path config))%string in
            if negb (SAFE_PATH path) || (255 <? strlen path) then None
            else Some (MkTargetAddr scheme hostname port path)
    end.

(** ** Alerts *)

Definition ALERT_COOLDOWN_MS : Z := 300000.

(** Whether to send, and the announced state and instant to store. *)
Record alert_decision : Type := MkAlert {
  al_send : bool;
  al_state : option health;
  al_at : option Z
}.

(** What the decision reads of the stored row: the announced state is never
    unknown. *)
Definition decideAlert (alert_enabled : bool) (last_state : option health) (last_at : option Z)
    (nextState : health) (checkedAt : Z) : alert_decision :=
  if negb alert_enabled then MkAlert false None None
  else
    match nextState with
    | Unknown => MkAlert false last_state last_at
    | _ =>
        if match last_state with None => health_eqb nextState Up | Some _ => false end
        then MkAlert false (Some Up) None
        else
          let cooled := match last_at with
                        | Some t => ALERT_COOLDOWN_MS <=? checkedAt - t
                        | None => true
                        end in
          let differs := match last_state with
                         | Some s => negb (health_eqb s nextState)
                         | None => true
                         end in
          if differs && cooled then MkAlert true (Some nextState) (Some checkedAt)
          else MkAlert false last_state last_at
    end.

(** ** Pool probes *)

(** The targets of a pool: for each whether it is a backup, what the clock
    says when its turn comes (milliseconds since the probe began) and what its
    probe reports. *)
Record candidate : Type := MkCandidate {
  ca_id : string;
  ca_backup : bool;
  ca_elapsed : Z;
  ca_result : check_result
}.

(** Primary targets are tried before backups. *)
Definition candidates (targets : list candidate) : list candidate :=
  List.filter (fun c => negb (ca_backup c)) targets ++ List.filter ca_backup targets.

Definition TIMED_OUT : string := "Timed out during".

(** A short slice of the budget proves nothing about the full timeout. *)
Definition pool_result (r : check_result) : check_result :=
  if health_eqb (r_state r) Down && match r_message r with Some m => starts_with TIMED_OUT m | None => false end
  then MkResult Unknown (r_response_ms r) (r_status_code r)
         (Some "Pool probe budget exhausted before a response")
  else r.

(** The milliseconds a candidate gets. *)
Definition candidate_budget (timeout elapsed : Z) (remaining_candidates : nat) : Z :=
  Z.max 1 ((timeout - elapsed) / Z.of_nat remaining_candidates).

(** The observations made, and the healthy one that ended the search. *)
Fixpoint probe_candidates (timeout : Z) (aborted : bool) (cs : list candidate)
    : list (string * check_result) * option (string * check_result) :=
  match cs with
  | [] => ([], None)
  | c :: cs' =>
      if aborted || (timeout - ca_elapsed c <=? 0) then ([], None)
      else
        let r := pool_result (ca_result c) in
        if health_eqb (r_state r) Up then ([(ca_id c, r)], Some (ca_id c, r))
        else
          let '(seen, healthy) := probe_candidates timeout aborted cs' in
          ((ca_id c, r) :: seen, healthy)
  end.

Definition probePool (timeout : Z) (aborted : bool) (targets : list candidate) (response_ms : Z)
    : check_result * list (string * check_result) :=
  let cs := candidates targets in
  let '(seen, healthy) := probe_candidates timeout aborted cs in
  let state := match healthy with
               | Some _ => Up
               | None => if existsb (fun o => health_eqb (r_state (snd o)) Unknown) seen
                            || Nat.ltb (length seen) (length cs)
                         then Unknown else Down
               end in
  (MkResult state (Some response_ms)
     (match healthy with Some (_, r) => r_status_code r | None => None end)
     (Some (match healthy with
            | Some (id, r) => "Pool target " ++ id ++ ": " ++ default "" (r_message r)
            | None => match state with
                      | Down => "All upstream pool targets failed"
                      | _ => "Upstream pool availability could not be verified"
                      end
            end)%string), seen).

(** ** Sequences of alerts *)

(** What one accepted check does to the announced state, and whether it
    sends: a muted check changes nothing. *)
Definition alert_step (enabled : bool) (announced : option health * option Z)
    (event : Z * health * bool) : (option health * option Z) * bool :=
  let '(t, s, muted) := event in
  let a := decideAlert enabled (fst announced) (snd announced) s t in
  if muted : bool then (announced, false) else ((al_state a, al_at a), al_send a).

Fixpoint alerts_of (announced : option health * option Z) (events : list (Z * health * bool))
    : list (Z * health) :=
  match events with
  | [] => []
  | e :: events' =>
      let '(announced', sent) := alert_step true announced e in
      if sent then (fst (fst e), snd (fst e)) :: alerts_of announced' events'
      else alerts_of announced' events'
  end.

(** Alerts that go on from an announced state: the state alternates and
    consecutive alerts are a cool-down apart. *)
Fixpoint alternating (last : option health) (at_ : option Z) (alerts : list (Z * health)) : Prop :=
  match alerts with
  | [] => True
  | (t, s) :: alerts' =>
      s <> Unknown /\ last <> Some s /\ (last = None -> s = Down) /\
      (forall t0, at_ = Some t0 -> ALERT_COOLDOWN_MS <= t - t0) /\
      alternating (Some s) (Some t) alerts'
  end.

Lemma health_eqb_eq a b : health_eqb a b = true <-> a = b.
Proof. by destruct a, b. Qed.

(** One decision, as a relation. *)
Lemma alert_step_spec last at_ t s announced sent :
  alert_step true (last, at_) (t, s, false) = (announced, sent) ->
  (sent = true /\ announced = (Some s, Some t) /\ s <> Unknown /\ last <> Some s /\
     (last = None -> s = Down) /\ forall t0, at_ = Some t0 -> ALERT_COOLDOWN_MS <= t - t0) \/
  (sent = false /\ (announced = (last, at_) \/ last = None /\ s = Up /\ announced = (Some Up, None))).
Proof.
  unfold alert_step, decideAlert. simpl.
  destruct s; [|destruct last as [l|]|]; simpl.
  - destruct last as [l|]; simpl; [|intros [= <- <-]; auto 6].
    destruct (health_eqb l Up) eqn:El; simpl; [by intros [= <- <-]; auto|].
    destruct at_ as [t0|]; simpl; [destruct (Z.leb_spec ALERT_COOLDOWN_MS (t - t0))|];
      intros [= <- <-]; [left|by auto|left]; split_and!; try done; try (by intros [= ->]);
      try (by intros ? [= <-]).
  - destruct (health_eqb l Down) eqn:El; simpl; [by intros [= <- <-]; auto|].
    destruct at_ as [t0|]; simpl; [destruct (Z.leb_spec ALERT_COOLDOWN_MS (t - t0))|];
      intros [= <- <-]; [left|by auto|left]; split_and!; try done; try (by intros [= ->]);
      try (by intros ? [= <-]).
  - destruct at_ as [t0|]; simpl; [destruct (Z.leb_spec ALERT_COOLDOWN_MS (t - t0))|];
      intros [= <- <-]; [left|by auto|left]; split_and!; try done; try (by intros ? [= <-]).
  - intros [= <- <-]. auto.
Qed.

Lemma alerts_alternating last at_ events :
  (last = None -> at_ = None) -> alternating last at_ (alerts_of (last, at_) events).
Proof.
  revert last at_. induction events as [|[[t s] muted] events IH]; intros last at_ Hn; [done|].
  cbn [alerts_of]. destruct muted; [by apply IH|].
  destruct (alert_step true (last, at_) (t, s, false)) as [announced sent] eqn:E.
  apply alert_step_spec in E as [(-> & -> & Hs & Hl & Hd & Hc)|(-> & [->|(-> & -> & ->)])].
  - simpl. split_and!; try done. by apply IH.
  - by apply IH.
  - rewrite (Hn eq_refl). specialize (IH (Some Up) None ltac:(done)).
    destruct (alerts_of (Some Up, None) events) as [|[t' s'] alerts]; [done|].
    simpl in IH |- *. destruct IH as (? & Hne & _ & _ & ?). split_and!; try done.
    intros _. by destruct s'.
Qed.

Lemma alerts_from_events announced events :
  Forall (fun a => In (fst a, snd a, false) events) (alerts_of announced events).
Proof.
  revert announced. induction events as [|[[t s] muted] events IH]; intros announced; [constructor|].
  cbn [alerts_of]. destruct (alert_step true announced (t, s, muted)) as [announced' sent] eqn:E.
  assert (Forall (fun a => In (fst a, snd a, false) ((t, s, muted) :: events))
            (alerts_of announced' events)) as Hrest.
  { eapply Forall_impl; [apply IH|]. intros a Ha. by right. }
  destruct sent; [|done]. constructor; [|done]. simpl. left. destruct muted; [|done].
  unfold alert_step in E. by injection E as _ E.
Qed.

(** ** Pool probes *)

Definition timed_out (r : check_result) : bool :=
  match r_message r with Some m => starts_with TIMED_OUT m | None => false end.

Lemma probe_candidates_spec timeout aborted cs seen healthy :
  probe_candidates timeout aborted cs = (seen, healthy) ->
  (length seen <= length cs)%nat /\
  match healthy with
  | Some (id, r) => r_state r = Up /\ In (id, r) seen /\
      exists c, In c cs /\ ca_id c = id /\ r = ca_result c
  | None => Forall (fun o => r_state (snd o) <> Up) seen /\
      (length seen = length cs -> cs <> [] -> aborted = false) /\
      (length seen = length cs ->
       Forall2 (fun o c => fst o = ca_id c /\ snd o = pool_result (ca_result c) /\
                           ca_elapsed c < timeout) seen cs)
  end.
Proof.
  revert seen healthy. induction cs as [|c cs IH]; intros seen healthy; cbn [probe_candidates].
  { intros [= <- <-]. split_and!; try done; intros; try constructor. }
  destruct (aborted || (timeout - ca_elapsed c <=? 0)) eqn:Ea.
  { intros [= <- <-]. simpl. split_and!; try done; lia. }
  apply orb_false_iff in Ea as [-> Ht]. apply Z.leb_gt in Ht.
  destruct (health_eqb (r_state (pool_result (ca_result c))) Up) eqn:Eu.
  - intros [= <- <-]. apply health_eqb_eq in Eu. simpl. split_and!; try lia; [done|auto|].
    exists c. split_and!; auto. revert Eu. unfold pool_result. by destruct (_ && _).
  - destruct (probe_candidates timeout false cs) as [seen' healthy'] eqn:Ec. intros [= <- <-].
    destruct (IH _ _ eq_refl) as [Hlen Hh]. simpl. split; [lia|].
    destruct healthy' as [[id r]|].
    + destruct Hh as (Hr & Hin & d & Hd & ? & ?). split_and!; auto. exists d. auto.
    + destruct Hh as (Hf & _ & Hall). split_and!; [| done |].
      * constructor; [|done]. simpl. intros Hu. apply health_eqb_eq in Hu. congruence.
      * intros [= Heq]. constructor; [split_and!; try done; lia|auto].
Qed.

Lemma pool_result_down r :
  r_state (pool_result r) <> Up -> r_state (pool_result r) <> Unknown ->
  r_state r = Down /\ timed_out r = false.
Proof.
  unfold pool_result, timed_out. destruct r as [st ms code msg]. simpl.
  destruct st; simpl; try done. by destruct (match msg with Some _ => _ | None => _ end).
Qed.

Lemma in_candidates c targets : In c (candidates targets) <-> In c targets.
Proof.
  unfold candidates. rewrite in_app_iff, !filter_In.
  destruct (ca_backup c) eqn:E; simpl; intuition congruence.
Qed.

(** ** Targets *)

Lemma split_on_head_no_sep c s first rest : split_on c s = first :: rest -> has_char c first = false.
Proof.
  intros H. pose proof (split_on_no_sep c s) as Hall. rewrite H in Hall. by inversion Hall.
Qed.

Lemma has_char_take c n s : has_char c s = false -> has_char c (take_str n s) = false.
Proof.
  revert n. induction s as [|d s IH]; intros [|n]; simpl; try done.
  rewrite !has_char_cons. intros [-> Hs]%orb_false_iff. simpl. auto.
Qed.

Lemma has_char_drop c n s : has_char c s = false -> has_char c (drop_str n s) = false.
Proof.
  revert n. induction s as [|d s IH]; intros [|n]; simpl; try done.
  rewrite !has_char_cons. intros [_ Hs]%orb_false_iff. auto.
Qed.

Lemma unbracket_no_char c s : has_char c s = false -> has_char c (unbracket s) = false.
Proof.
  intros Hs. unfold unbracket, slice. destruct (_ && _); [|done].
  by apply has_char_take, has_char_drop.
Qed.

(** ** Properties *)

(** The alerts of any sequence of checks tell a consistent story: the
    first one reports an outage, consecutive alerts report opposite states
    and are at least five minutes apart, and each reports the result of a
    check that was not muted.  Nothing is lost by waiting: after the
    cool-down, the next unmuted check that sees the host up or down leaves
    exactly that state announced. *)
Theorem alerts_alternate_and_cool_down events :
  alternating None None (alerts_of (None, None) events) /\
  Forall (fun a => In (fst a, snd a, false) events) (alerts_of (None, None) events) /\
  forall last at_ t s, s <> Unknown ->
    (forall t0, at_ = Some t0 -> ALERT_COOLDOWN_MS <= t - t0) ->
    fst (fst (alert_step true (last, at_) (t, s, false))) = Some s.
Proof.
  split_and!; [by apply alerts_alternating|apply alerts_from_events|].
  intros last at_ t s Hs Hc. unfold alert_step, decideAlert. simpl.
  assert (match at_ with Some t0 => ALERT_COOLDOWN_MS <=? t - t0 | None => true end = true) as Hcool.
  { destruct at_ as [t0|]; [|done]. apply Z.leb_le. auto. }
  rewrite Hcool. destruct s; [|destruct last as [[]|]|]; try done; by destruct last as [[]|].
Qed.

Lemma alerts_alternate_and_cool_down_witness :
  alerts_of (None, None) [(0, Up, false); (1000, Down, false); (61000, Up, false); (301000, Up, false)]
    = [(1000, Down); (301000, Up)] /\
  fst (fst (alert_step true (Some Down, Some 1000) (301000, Up, false))) = Some Up.
Proof.
  split; [reflexivity|].
  destruct (alerts_alternate_and_cool_down []) as (_ & _ & Hcatch).
  apply Hcatch; [discriminate|]. intros t0 [= <-]. unfold ALERT_COOLDOWN_MS. lia.
Defined.

(** A pool is reported down only on proof: every target was tried before
    the deadline and none was merely slow, each definitely failed.  It is
    reported up only when one of its targets was. *)
Theorem pool_outage_is_proved timeout aborted targets response_ms r seen :
  probePool timeout aborted targets response_ms = (r, seen) ->
  (r_state r = Down ->
     (targets <> [] -> aborted = false) /\
     forall c, In c targets ->
       r_state (ca_result c) = Down /\ timed_out (ca_result c) = false /\ ca_elapsed c < timeout) /\
  (r_state r = Up -> exists c, In c targets /\ r_state (ca_result c) = Up /\
     r_status_code r = r_status_code (ca_result c)).
Proof.
  unfold probePool. intros Hp.
  destruct (probe_candidates timeout aborted (candidates targets)) as [obs healthy] eqn:Ec.
  apply probe_candidates_spec in Ec as [Hlen Hh]. injection Hp as <- <-. simpl.
  destruct healthy as [[id rh]|].
  { split; [done|]. intros _. destruct Hh as (Hup & _ & c & Hc & _ & ->).
    exists c. rewrite <- in_candidates. done. }
  destruct Hh as (Hnot & Hab & Hall).
  destruct (_ || _) eqn:Eo; [done|]. split; [|done]. intros _.
  apply orb_false_iff in Eo as [Hunk Hfull]. apply Nat.ltb_ge in Hfull.
  assert (length obs = length (candidates targets)) as Heq by lia.
  specialize (Hall Heq). split.
  { intros Hne. apply Hab; [done|]. destruct targets as [|c targets]; [done|].
    intros Hnil. assert (In c (candidates (c :: targets))) as Hin by (apply in_candidates; by left).
    by rewrite Hnil in Hin. }
  intros c Hc. apply in_candidates in Hc.
  assert (exists o, In o obs /\ snd o = pool_result (ca_result c) /\ ca_elapsed c < timeout)
    as (o & Ho & Hr & Ht).
  { clear -Hall Hc. induction Hall as [|o d obs cs (? & ? & ?) _ IH]; [done|].
    destruct Hc as [->|Hc]; [exists o; simpl; auto|].
    destruct (IH Hc) as (o' & ? & ? & ?). exists o'. simpl. auto. }
  assert (r_state (snd o) <> Up) as Hnu
    by (rewrite Forall_forall in Hnot; apply Hnot; by apply list_elem_of_In).
  assert (r_state (snd o) <> Unknown) as Hnk.
  { intros Hu. assert (existsb (fun o => health_eqb (r_state (snd o)) Unknown) obs = true); [|congruence].
    apply existsb_exists. exists o. split; [done|]. by rewrite Hu. }
  rewrite Hr in Hnu, Hnk. by destruct (pool_result_down _ Hnu Hnk).
Qed.

Definition dead_target : candidate :=
  MkCandidate "a" false 0 (MkResult Down (Some 3) None (Some "Connection refused (ECONNREFUSED)")).

Lemma pool_outage_is_proved_witness :
  r_state (fst (probePool 1000 false [dead_target] 5)) = Down /\
  timed_out (ca_result dead_target) = false.
Proof.
  split; [reflexivity|].
  destruct (pool_outage_is_proved 1000 false [dead_target] 5 _ _ (surjective_pairing _)) as [Hd _].
  destruct Hd as [_ Hc]; [reflexivity|]. apply (Hc dead_target). left. reflexivity.
Defined.

(** Accepted settings keep every probe bounded and on the host's own
    upstream: the timeout is at most fifteen seconds and shorter than the
    interval, a custom CA is a real certificate bundle of bounded size, and
    whatever the host's columns hold, a resolved target has a non-empty host
    without a path, a port in range, and a path that starts with one slash
    and holds no space, percent, query or fragment character. *)
Theorem monitor_probe_is_confined `{X509} data st host t :
  assertMonitorConfig data = Ok st ->
  500 <= st_timeout_ms st <= 15000 /\ 15 <= st_interval_seconds st <= 3600 /\
  st_timeout_ms st < st_interval_seconds st * 1000 /\ 100 <= st_expected_status st <= 599 /\
  (forall ca, st_upstream_ca st = Some ca -> utf8_length ca <= MAX_CA_BYTES /\ validCertificateBundle ca = true) /\
  (resolveTarget host st = Some t ->
     pt_host t <> "" /\ 1 <= pt_port t <= 65535 /\ strlen (pt_path t) <= 255 /\ SAFE_PATH (pt_path t) = true /\
     (mh_forward_scheme host <> "terminal" -> has_char "/"%char (pt_host t) = false) /\
     (st_type st = Http -> pt_scheme t = "http" \/ pt_scheme t = "https")).
Proof.
  unfold assertMonitorConfig. intros Ha.
  ok_inv Ha. ok_inv Ha. ok_inv Ha. ok_inv Ha. ok_inv Ha. injection Ha as <-. simpl.
  unfold bad_fields in G0. repeat (apply orb_false_iff in G0 as [G0 ?]).
  repeat match goal with H : negb (int_between _ _ _) = false |- _ =>
    apply negb_false_iff, int_between_spec in H as (? & ?Heq & ?) end.
  rewrite Heq, Heq0, Heq1 in *. simpl in *. apply Z.leb_gt in G1.
  apply negb_false_iff in G2. split_and!; try done; try lia.
  - intros ca Hca. unfold null_or in G2. destruct (get "upstream_ca" data); try done.
    injection Hca as <-. simpl in G2. boolify. done.
  - clear -G0. unfold resolveTarget. cbn [st_type st_path].
    destruct (String.eqb_spec (mh_forward_scheme host) "path") as [|_]; [done|].
    set (ty := if String.eqb (str_or "" (get "type" data)) "tcp" then Tcp else Http).
    destruct (match ty with Http => _ | Tcp => _ end) eqn:Ety; [done|].
    destruct (if String.eqb _ _ then mh_terminal_host host else mh_forward_host host) as [h0|]; [|done].
    destruct (starts_with "unix" h0 || starts_with "/" h0); [done|].
    destruct (if String.eqb (mh_forward_scheme host) "terminal" then (h0, "") else split_host h0)
      as [h1 base] eqn:Eh.
    match goal with |- (if ?c then _ else _) = _ -> _ => destruct c eqn:Eg; [done|] end.
    match goal with |- (if ?c then _ else _) = _ -> _ => destruct c eqn:Ep; [done|] end.
    intros [= <-]. simpl. boolify. split_and!; try done.
    + intros Hnt. apply unbracket_no_char.
      destruct (String.eqb_spec (mh_forward_scheme host) "terminal"); [done|].
      unfold split_host in Eh. destruct (has_char "/"%char h0) eqn:Es; [|by injection Eh as <- _].
      destruct (split_on "/"%char h0) as [|first rest] eqn:Espl;
        [by destruct (split_on_nonempty "/"%char h0)|].
      injection Eh as <- _. by eapply split_on_head_no_sep.
    + intros Hty. rewrite Hty in Ety. apply negb_false_iff, orb_true_iff in Ety.
      rewrite !String.eqb_eq in Ety. done.
Qed.

Section DemoSettings.
Definition any_certificate : X509 := {| x509_ok := fun _ => true |}.
#[local] Existing Instance any_certificate.

Definition demo_data : value := VObj
  [("enabled", VBool true); ("type", VStr "http"); ("path", VStr "/health"); ("interval_seconds", VInt 60);
   ("timeout_ms", VInt 5000); ("expected_status", VInt 200); ("alert_enabled", VBool true)].
Definition demo_settings : settings :=
  MkSettings true Http "/health" 60 5000 200 true None None false.
Definition demo_mon_host : mon_host :=
  MkMonHost (MkHost 1 7 true false) "https" (Some "[::1]/app/") (Some 8443) None None "".

Lemma monitor_probe_is_confined_witness :
  assertMonitorConfig demo_data = Ok demo_settings /\
  resolveTarget demo_mon_host demo_settings = Some (MkTargetAddr "https" "::1" 8443 "/app/health") /\
  has_char "/"%char "::1" = false.
Proof.
  split; [vm_compute; reflexivity|]. split; [vm_compute; reflexivity|].
  destruct (monitor_probe_is_confined demo_data demo_settings demo_mon_host
              (MkTargetAddr "https" "::1" 8443 "/app/health")) as (_ & _ & _ & _ & _ & Ht);
    [vm_compute; reflexivity|].
  destruct Ht as (_ & _ & _ & _ & Hno & _); [vm_compute; reflexivity|].
  apply Hno. discriminate.
Defined.
End DemoSettings.
