(* ===== verification/TrafficPolicy.v ===== *)
(** Traffic policies of a proxy host: src/backend/lib/host-traffic-policy.js
    (upstream pools, cache policies and the metadata that stores them) and
    src/backend/lib/upstream-pool-observations.js (what the last probe of a
    pool saw of its targets).

    The validators work on untyped values (JsValue.v).  What they accept they
    rebuild field by field, so a stored policy is the value of a typed record
    of this file.  [node:net]'s [isIP], the JSON parser and the fingerprint of
    a pool are parameters. *)

From S2P Require Import Prelude JsString JsValue JsObject Errors MonitorSettings.
#[local] Open Scope string_scope.
#[local] Open Scope list_scope.
#[local] Open Scope Z_scope.

(** The platform: [isIP] of node:net (whose addresses carry no brackets) and
    [JSON.parse], which fails on text that is not JSON. *)
Class Platform : Type := {
  isIP : string -> bool;
  JSON_parse : string -> option value
}.
Class BareAddresses `{Platform} : Prop :=
  isIP_bare : forall s, isIP s = true -> s <> "" /\ starts_with "[" s = false.

(** ** Upstream pools *)

Record pool_target : Type := MkPoolTarget {
  tg_id : string;
  tg_label : string;
  tg_host : string;
  tg_port : Z;
  tg_weight : Z;
  tg_backup : bool;
  tg_max_fails : Z;
  tg_fail_timeout : Z
}.

Record upstream_pool : Type := MkPool {
  pl_enabled : bool;
  pl_targets : list pool_target;
  pl_connect_timeout : Z;
  pl_read_timeout : Z;
  pl_tls_verify : bool;
  pl_host_header : option string;
  pl_tls_server_name : option string
}.

Definition optional_field (k : string) (o : option string) : fields :=
  match o with Some s => [(k, VStr s)] | None => [] end.

Definition target_value (t : pool_target) : value :=
  VObj [("id", VStr (tg_id t)); ("label", VStr (tg_label t)); ("host", VStr (tg_host t));
        ("port", VInt (tg_port t)); ("weight", VInt (tg_weight t)); ("backup", VBool (tg_backup t));
        ("max_fails", VInt (tg_max_fails t)); ("fail_timeout", VInt (tg_fail_timeout t))].

Definition pool_value (p : upstream_pool) : value :=
  VObj ([("enabled", VBool (pl_enabled p)); ("targets", VArr (map target_value (pl_targets p)));
         ("connect_timeout", VInt (pl_connect_timeout p)); ("read_timeout", VInt (pl_read_timeout p));
         ("tls_verify", VBool (pl_tls_verify p))]
        ++ optional_field "host_header" (pl_host_header p)
        ++ optional_field "tls_server_name" (pl_tls_server_name p)).

Definition target_address (t : pool_target) : string := (tg_host t ++ ":" ++ show_Z (tg_port t))%string.

Record cache_route : Type := MkRoute { cr_path : string; cr_ttl_seconds : Z }.

Record cache_policy : Type := MkCache {
  ca_enabled : bool;
  ca_ttl_seconds : Z;
  ca_max_size_mb : Z;
  ca_inactive_seconds : Z;
  ca_assets_only : bool;
  ca_cache_key : string;
  ca_routes : list cache_route
}.

Definition route_value (r : cache_route) : value :=
  VObj [("path", VStr (cr_path r)); ("ttl_seconds", VInt (cr_ttl_seconds r))].

Definition cache_value (c : cache_policy) : value :=
  VObj [("enabled", VBool (ca_enabled c)); ("ttl_seconds", VInt (ca_ttl_seconds c));
        ("max_size_mb", VInt (ca_max_size_mb c)); ("inactive_seconds", VInt (ca_inactive_seconds c));
        ("assets_only", VBool (ca_assets_only c)); ("cache_key", VStr (ca_cache_key c));
        ("routes", VArr (map route_value (ca_routes c)))].

Definition or_null {A} (f : A -> value) (o : option A) : value :=
  match o with Some a => f a | None => VNull end.

Section Validators.
Context `{Platform}.

(** ** The shared checks *)

Fixpoint decode_metadata (depth : nat) (v : value) : value :=
  match depth, v with
  | S depth', VStr s =>
      match JSON_parse s with
      | Some v' => decode_metadata depth' v'
      | None => VUndef
      end
  | _, _ => v
  end.

(** The own properties of a metadata column, which may be JSON text, twice
    encoded at most. *)
Definition metadata (v : value) : fields :=
  match decode_metadata 2 v with VObj o => o | _ => [] end.

Definition integer (v : value) (fallback minimum maximum : Z) (field : string) : fallible Z :=
  let result := if is_undef v then VInt fallback else v in
  throw ValidationError (field ++ " must be an integer between " ++ show_Z minimum ++ " and " ++ show_Z maximum)
    when (negb (int_between minimum maximum result)) ;;
  Ok (int_or 0 result).

Definition flag (v : value) (fallback : bool) (field : string) : fallible bool :=
  throw ValidationError (field ++ " must be a boolean") when (negb (is_undef v) && negb (is_bool v)) ;;
  Ok (bool_or fallback v).

Definition hostname_char (c : ascii) : bool := is_alnum c || Ascii.eqb c "."%char || Ascii.eqb c "-"%char.

(** [/^(?=.{1,253}$)[A-Za-z0-9](?:[A-Za-z0-9.-]*[A-Za-z0-9])?$/] *)
Definition hostname_shape (s : string) : bool :=
  (1 <=? strlen s) && (strlen s <=? 253) && all_chars hostname_char s &&
  match s with String c _ => is_alnum c | EmptyString => false end &&
  match last_char s with Some c => is_alnum c | None => false end.

Definition hostname_parts_ok (s : string) : bool :=
  forallb (fun part => negb (String.eqb part "") && (strlen part <=? 63) &&
                       negb (starts_with "-" part) && negb (ends_with "-" part))
    (split_on "."%char s).

Definition hostname (v : value) (field : string) : fallible string :=
  match v with
  | VStr s =>
      let normalized := unbracket s in
      if isIP normalized then Ok normalized
      else
        throw ValidationError (field ++ " must be a hostname or IP address without a URL or path")
          when ((253 <? strlen normalized) || negb (hostname_shape normalized)
                || negb (hostname_parts_ok normalized)) ;;
        Ok (to_lower normalized)
  | _ => Throw (ValidationError (field ++ " must be a hostname or IP address"))
  end.

Definition keys (v : value) (allowed : list string) (field : string) : fallible unit :=
  throw_if (negb (is_object v) || existsb (fun k => negb (includes_key allowed k)) (keys_of v))
    (ValidationError ("Invalid " ++ field ++ " settings")).

Definition is_string_of (allowed : list string) (v : value) : bool :=
  match v with VStr s => includes_key allowed s | _ => false end.

Definition supported (host : value) (label : string) : fallible unit :=
  throw_if (negb (is_string_of ["http"; "https"] (get "forward_scheme" host)))
    (ValidationError (label ++ " requires an HTTP or HTTPS proxy host")).

(** [v?.includes("/")] *)
Definition includes_slash (v : value) : fallible bool :=
  match v with
  | VUndef | VNull => Ok false
  | VStr s => Ok (includes "/" s)
  | VArr xs => Ok (existsb (is_string_of ["/"]) xs)
  | _ => Throw (NativeError "includes is not a function")
  end.

(** [v?.trim()], as a condition. *)
Definition has_text (v : value) : fallible bool :=
  match v with
  | VUndef | VNull => Ok false
  | VStr s => Ok (negb (String.eqb (trim s) ""))
  | _ => Throw (NativeError "trim is not a function")
  end.

(** ** Pools *)

Definition pool_keys : list string :=
  ["enabled"; "targets"; "connect_timeout"; "read_timeout"; "host_header"; "tls_server_name"; "tls_verify"].
Definition target_keys : list string :=
  ["id"; "label"; "host"; "port"; "weight"; "backup"; "max_fails"; "fail_timeout"].

(** [/^[A-Za-z0-9_-]{1,40}$/] *)
Definition target_id_shape (s : string) : bool :=
  (1 <=? strlen s) && (strlen s <=? 40) &&
  all_chars (fun c => is_alnum c || Ascii.eqb c "_"%char || Ascii.eqb c "-"%char) s.

Definition bad_target_id (ids : list string) (v : value) : bool :=
  match v with VStr s => negb (target_id_shape s) || includes_key ids s | _ => true end.

Definition bad_target_label (v : value) : bool :=
  match v with VUndef => false | VStr s => 80 <? strlen s | _ => true end.

(** One turn of the loop over the targets; [ids] and [addresses] are the sets
    of the earlier ones. *)
Definition normalize_target (ids addresses : list string) (target : value) : fallible pool_target :=
  let? _ := keys target target_keys "upstream target" in
  throw ValidationError "Pool target IDs must be unique and contain only letters, digits, underscores or hyphens"
    when (bad_target_id ids (get "id" target)) ;;
  throw ValidationError "Pool target label must be at most 80 characters"
    when (bad_target_label (get "label" target)) ;;
  let id := str_or "" (get "id" target) in
  let label := if js_truthy (get "label" target) then str_or "" (get "label" target) else id in
  let? h := hostname (get "host" target) "Upstream host" in
  let? port := integer (get "port" target) 80 1 65535 "Upstream port" in
  let? weight := integer (get "weight" target) 1 1 1000 "Upstream weight" in
  let? backup := flag (get "backup" target) false "Backup target" in
  let? max_fails := integer (get "max_fails" target) 1 1 10 "Failure threshold" in
  let? fail_timeout := integer (get "fail_timeout" target) 10 1 300 "Failure timeout" in
  let item := MkPoolTarget id label h port weight backup max_fails fail_timeout in
  throw ValidationError "Pool targets must use distinct addresses"
    when (includes_key addresses (target_address item)) ;;
  Ok item.

Fixpoint normalize_targets (ids addresses : list string) (targets : list value)
    : fallible (list pool_target) :=
  match targets with
  | [] => Ok []
  | target :: targets' =>
      let? item := normalize_target ids addresses target in
      let? items := normalize_targets (tg_id item :: ids) (target_address item :: addresses) targets' in
      Ok (item :: items)
  end.

Definition optional_hostname (v : value) (field : string) : fallible (option string) :=
  if js_truthy v then rmap Some (hostname v field) else Ok None.

(** What an enabled pool asks of its host. *)
Definition check_pool_host (targets : list pool_target) (host : value) : fallible unit :=
  let? _ := supported host "Upstream pools" in
  throw ValidationError "An enabled pool needs at least one primary target"
    when (negb (existsb (fun t => negb (tg_backup t)) targets)) ;;
  let? slash := includes_slash (get "forward_host" host) in
  let? advanced := if slash then Ok false else has_text (get "advanced_config" host) in
  throw_if (slash || advanced)
    (ValidationError "Upstream pools require an origin without a path and no custom advanced Nginx configuration").

Definition normalizeUpstreamPool (v host : value) : fallible (option upstream_pool) :=
  if is_nullish v then Ok None
  else
    let? _ := keys v pool_keys "upstream pool" in
    let? enabled := flag (get "enabled" v) false "Pool enabled" in
    let? connect_timeout := integer (get "connect_timeout" v) 5 1 60 "Connect timeout" in
    let? read_timeout := integer (get "read_timeout" v) 60 1 600 "Read timeout" in
    let? tls_verify := flag (get "tls_verify" v) true "TLS verification" in
    let? host_header := optional_hostname (get "host_header" v) "Host header" in
    let? tls_server_name := optional_hostname (get "tls_server_name" v) "TLS server name" in
    let? raw := match get "targets" v with
                | VUndef => Ok []
                | VArr xs => Ok xs
                | _ => Throw (ValidationError "Pool targets must be an array")
                end in
    throw ValidationError "An upstream pool supports at most 16 targets" when (Nat.ltb 16 (length raw)) ;;
    let? targets := normalize_targets [] [] raw in
    let? _ := if enabled : bool then check_pool_host targets host else Ok tt in
    Ok (Some (MkPool enabled targets connect_timeout read_timeout tls_verify host_header tls_server_name)).

(** ** Cache policies *)

Definition cache_keys : list string :=
  ["enabled"; "ttl_seconds"; "max_size_mb"; "inactive_seconds"; "assets_only"; "cache_key"; "routes"].
Definition route_keys : list string := ["path"; "ttl_seconds"].

(** [/^\/(?:[A-Za-z0-9._~-]+\/)*$/] *)
Definition route_path_shape (s : string) : bool :=
  all_chars (fun c => is_alnum c || includes (String c "") "._~-/") s &&
  starts_with "/" s && ends_with "/" s && negb (includes "//" s).

Definition bad_route_path (paths : list string) (v : value) : bool :=
  match v with
  | VStr s =>
      (256 <? strlen s) || negb (route_path_shape s)
      || existsb (fun part => String.eqb part "." || String.eqb part "..") (split_on "/"%char s)
      || starts_with "/.well-known/" s || starts_with "/remote.php/" s || includes_key paths s
  | _ => true
  end.

Definition normalize_route (ttl : Z) (paths : list string) (route : value) : fallible cache_route :=
  let? _ := keys route route_keys "cache route" in
  throw ValidationError "Cache route prefixes must be unique absolute directory paths"
    when (bad_route_path paths (get "path" route)) ;;
  let? route_ttl := integer (get "ttl_seconds" route) ttl 1 86400 "Route TTL" in
  Ok (MkRoute (str_or "" (get "path" route)) route_ttl).

Fixpoint normalize_routes (ttl : Z) (paths : list string) (routes : list value) : fallible (list cache_route) :=
  match routes with
  | [] => Ok []
  | route :: routes' =>
      let? r := normalize_route ttl paths route in
      let? rs := normalize_routes ttl (cr_path r :: paths) routes' in
      Ok (r :: rs)
  end.

(** The source of a policy: the value, or what the legacy switch stands for. *)
Definition cache_source (v host : value) : value :=
  match v with
  | VUndef | VNull =>
      VObj [("enabled", VBool (is_string_of ["http"; "https"] (get "forward_scheme" host)));
            ("assets_only", VBool true)]
  | _ => v
  end.

Definition check_cache_host (v host : value) : fallible unit :=
  let? _ := supported host "Response caching" in
  let? advanced := if is_undef v then Ok false else has_text (get "advanced_config" host) in
  throw_if advanced (ValidationError "Managed caching requires no custom advanced Nginx configuration").

(** The policy a source stands for; [v] is the stored value it came from. *)
Definition cache_from (source v host : value) : fallible cache_policy :=
  let? _ := keys source cache_keys "cache policy" in
  let? enabled := flag (get "enabled" source) false "Cache enabled" in
  let? ttl := integer (get "ttl_seconds" source) 3600 1 86400 "Cache TTL" in
  let? max_size := integer (get "max_size_mb" source) 256 16 10240 "Cache size" in
  let? inactive := integer (get "inactive_seconds" source) 86400 60 604800 "Cache inactivity" in
  let? assets_only := flag (get "assets_only" source) true "Assets only" in
  let cache_key := or_default (get "cache_key" source) (VStr "uri") in
  throw ValidationError "Invalid cache key mode"
    when (negb (is_string_of ["uri"; "uri_ignore_query"] cache_key)) ;;
  throw ValidationError "Ignoring query parameters requires static-assets-only caching"
    when (is_string_of ["uri_ignore_query"] cache_key && negb assets_only) ;;
  let? raw := match or_default (get "routes" source)
                      (VArr [VObj [("path", VStr "/"); ("ttl_seconds", VInt ttl)]]) with
              | VArr xs => Ok xs
              | _ => Throw (ValidationError "Cache needs between 1 and 16 routes")
              end in
  throw ValidationError "Cache needs between 1 and 16 routes"
    when (Nat.ltb (length raw) 1 || Nat.ltb 16 (length raw)) ;;
  let? routes := normalize_routes ttl [] raw in
  let? _ := if enabled : bool then check_cache_host v host else Ok tt in
  Ok (MkCache enabled ttl max_size inactive assets_only (str_or "" cache_key) routes).

Definition normalizeCachePolicy (v host : value) : fallible (option cache_policy) :=
  match v with
  | VNull => Ok None
  | _ => if is_undef v && negb (js_truthy (get "caching_enabled" host)) then Ok None
         else rmap Some (cache_from (cache_source v host) v host)
  end.

(** ** The metadata of a host *)

Definition default_ruleset (previous : fields) : string :=
  if js_truthy (field_of "id" previous)
  then (if js_truthy (field_of "caching_enabled" previous) then "crs" else "base")
  else "crs".

Definition policy_host (data previous meta : fields) : value :=
  VObj (set_field "meta" (VObj meta) (spread2 previous data)).

(** Replace a defined property of the metadata by its normal form. *)
Definition normalize_field {A} (k : string) (norm : value -> fallible (option A)) (print : A -> value)
    (meta : fields) : fallible fields :=
  if is_undef (field_of k meta) then Ok meta
  else let? o := norm (field_of k meta) in Ok (set_field k (or_null print o) meta).

Definition legacy_cache (host : value) (meta : fields) : fallible fields :=
  if js_truthy (get "caching_enabled" host) && is_undef (field_of "cache_policy" meta) then
    let? o := normalizeCachePolicy VUndef host in
    match o with
    | Some c => if ca_enabled c then Ok meta else Ok (set_field "cache_policy" (cache_value c) meta)
    | None => Ok (set_field "cache_policy" VNull meta)
    end
  else Ok meta.

(** The defaulted ruleset. *)
Definition with_ruleset (previous meta : fields) : fields :=
  if is_undef (field_of "waf_ruleset" meta)
  then set_field "waf_ruleset" (VStr (default_ruleset previous)) meta else meta.

(** The rounds over one metadata object. *)
Definition settle_meta (host : value) (meta : fields) : fallible fields :=
  throw ValidationError "Invalid WAF ruleset"
    when (negb (is_string_of ["base"; "crs"] (field_of "waf_ruleset" meta))) ;;
  let? meta := normalize_field "upstream_pool" (fun v => normalizeUpstreamPool v host) pool_value meta in
  let? meta := normalize_field "cache_policy" (fun v => normalizeCachePolicy v host) cache_value meta in
  legacy_cache host meta.

Definition validateHostTrafficPolicy (data previous : fields) : fallible fields :=
  let meta := spread2 (metadata (field_of "meta" previous)) (metadata (field_of "meta" data)) in
  let? meta' := settle_meta (policy_host data previous meta) (with_ruleset previous meta) in
  Ok (set_field "meta" (VObj meta') data).
End Validators.

(** ** Normal forms are stable *)

Lemma lower_is_alnum c : is_alnum (lower_char c) = is_alnum c.
Proof. by destruct c as [[] [] [] [] [] [] [] []]. Qed.
Lemma lower_hostname_char c : hostname_char (lower_char c) = hostname_char c.
Proof. by destruct c as [[] [] [] [] [] [] [] []]. Qed.
Lemma lower_eqb_dot c : Ascii.eqb "."%char (lower_char c) = Ascii.eqb "."%char c.
Proof. by destruct c as [[] [] [] [] [] [] [] []]. Qed.
Lemma lower_eqb_dash c : Ascii.eqb "-"%char (lower_char c) = Ascii.eqb "-"%char c.
Proof. by destruct c as [[] [] [] [] [] [] [] []]. Qed.
Lemma alnum_not_bracket c : is_alnum c = true -> Ascii.eqb "["%char c = false.
Proof. by destruct c as [[] [] [] [] [] [] [] []]. Qed.

Lemma to_lower_chars p s :
  (forall c, p (lower_char c) = p c) -> all_chars p (to_lower s) = all_chars p s.
Proof. intros Hp. unfold to_lower. induction s as [|c s IH]; [done|]. simpl. by rewrite Hp, IH. Qed.

Lemma last_char_lower s : last_char (to_lower s) = option_map lower_char (last_char s).
Proof.
  unfold to_lower. induction s as [|c s IH]; [done|]. simpl. destruct s as [|d s]; [done|]. exact IH.
Qed.

Lemma split_dot_lower s : split_on "."%char (to_lower s) = map to_lower (split_on "."%char s).
Proof.
  unfold to_lower. induction s as [|c s IH]; [done|]. cbn [smap split_on]. rewrite lower_eqb_dot, IH.
  destruct (Ascii.eqb "."%char c); [done|]. by destruct (split_on "."%char s).
Qed.

Lemma starts_dash_lower s : starts_with "-" (to_lower s) = starts_with "-" s.
Proof. destruct s as [|c s]; [done|]. unfold to_lower. cbn [smap starts_with]. by rewrite lower_eqb_dash. Qed.

Lemma ends_dash_lower s : ends_with "-" (to_lower s) = ends_with "-" s.
Proof.
  induction s as [|c s IH]; [done|].
  change (to_lower (String c s)) with (String (lower_char c) (to_lower s)). cbn [ends_with]. rewrite IH. f_equal.
  cbn [String.eqb]. rewrite lower_eqb_dash. by destruct s.
Qed.

Lemma hostname_shape_lower s : hostname_shape (to_lower s) = hostname_shape s.
Proof.
  unfold hostname_shape. rewrite to_lower_length, (to_lower_chars hostname_char) by apply lower_hostname_char.
  rewrite last_char_lower. f_equal; [f_equal|].
  - destruct s as [|c s]; [done|]. simpl. by rewrite lower_is_alnum.
  - destruct (last_char s) as [c|]; [|done]. simpl. by rewrite lower_is_alnum.
Qed.

Lemma hostname_parts_lower s : hostname_parts_ok (to_lower s) = hostname_parts_ok s.
Proof.
  unfold hostname_parts_ok. rewrite split_dot_lower. induction (split_on _ s) as [|w ws IH]; [done|].
  cbn [map forallb]. rewrite IH, to_lower_length, starts_dash_lower, ends_dash_lower. by destruct w.
Qed.

Lemma unbracket_bare s : starts_with "[" s = false -> unbracket s = s.
Proof. unfold unbracket. by intros ->. Qed.

#[local] Arguments hostname : simpl never.
#[local] Arguments integer : simpl never.
#[local] Arguments normalize_target : simpl never.
#[local] Arguments normalize_route : simpl never.

Section Stability.
Context `{BareAddresses}.

Lemma hostname_bare s : hostname_shape s = true -> starts_with "[" s = false.
Proof.
  unfold hostname_shape. intros Hs. boolify. destruct s as [|c s]; [done|]. cbn [starts_with].
  by rewrite alnum_not_bracket.
Qed.

Lemma hostname_stable v f s : hostname v f = Ok s -> hostname (VStr s) f = Ok s.
Proof.
  destruct v; try done. unfold hostname. destruct (isIP (unbracket s0)) eqn:Hip.
  - intros [= <-]. rewrite unbracket_bare by by apply isIP_bare in Hip as [_ ?]. by rewrite Hip.
  - intros Hs. ok_inv Hs. injection Hs as <-. boolify.
    rewrite unbracket_bare by (apply hostname_bare; by rewrite hostname_shape_lower).
    rewrite to_lower_length, hostname_shape_lower, hostname_parts_lower, to_lower_idem.
    apply Z.ltb_ge in H1. rewrite H1, H2, H3. simpl.
    by destruct (isIP (to_lower (unbracket s0))).
Qed.

Lemma integer_stable v d lo hi f n : integer v d lo hi f = Ok n -> integer (VInt n) d lo hi f = Ok n.
Proof.
  unfold integer. intros Hn. ok_inv Hn. injection Hn as <-. apply negb_false_iff in G.
  pose proof G as (m & Hm & _)%int_between_spec. rewrite Hm in *. cbn [int_or is_undef]. by rewrite G.
Qed.

Lemma flag_stable v d f b : flag v d f = Ok b -> flag (VBool b) d f = Ok b.
Proof. done. Qed.

Lemma optional_hostname_stable v f o :
  optional_hostname v f = Ok o ->
  optional_hostname (match o with Some s => VStr s | None => VUndef end) f = Ok o.
Proof.
  unfold optional_hostname. destruct (js_truthy v); [|by intros [= <-]].
  intros Ho. ok_inv Ho. injection Ho as <-. simpl.
  assert (negb (String.eqb v0 "") = true) as ->; [|by rewrite (hostname_stable _ _ _ E)].
  apply negb_true_iff, String.eqb_neq. intros ->. apply hostname_stable in E. revert E.
  unfold hostname. change (unbracket "") with "". destruct (isIP "") eqn:Hip; [|by vm_compute].
  by apply isIP_bare in Hip as [? _].
Qed.

Lemma normalize_target_stable ids addresses v t :
  normalize_target ids addresses v = Ok t -> normalize_target ids addresses (target_value t) = Ok t.
Proof.
  unfold normalize_target. intros Ht. ok_all Ht. injection Ht as <-.
  destruct (get "id" v) as [| | | | |id| |] eqn:Eid; simpl in G; try done. boolify. simpl.
  rewrite H1, H2. simpl.
  assert (id <> "") as Hne.
  { intros ->. by vm_compute in H1. }
  assert (forall (l : string), (if js_truthy (get "label" v) then str_or "" (get "label" v) else id) = l ->
    l <> "" /\ strlen l <= 80) as Hl.
  { intros l <-. destruct (get "label" v) as [| | | | |l| |] eqn:El; simpl in *; try done.
    - split; [done|]. unfold target_id_shape in H1. boolify. lia.
    - destruct (String.eqb_spec l ""); simpl; [split; [done|]|split; [done|by apply Z.ltb_ge]].
      unfold target_id_shape in H1. boolify. lia. }
  specialize (Hl _ eq_refl) as [Hl1 Hl2]. set (label := if js_truthy _ then _ else _) in *.
  apply Z.ltb_ge in Hl2. rewrite Hl2. apply String.eqb_neq in Hl1. rewrite Hl1. simpl.
  rewrite (hostname_stable _ _ _ E0), (integer_stable _ _ _ _ _ _ E1), (integer_stable _ _ _ _ _ _ E2).
  rewrite (integer_stable _ _ _ _ _ _ E4), (integer_stable _ _ _ _ _ _ E5).
  unfold target_address in *. simpl in *. by rewrite G1.
Qed.

Lemma normalize_targets_stable vs : forall ids addresses ts,
  normalize_targets ids addresses vs = Ok ts ->
  normalize_targets ids addresses (map target_value ts) = Ok ts /\ length ts = length vs.
Proof.
  induction vs as [|v vs IH]; intros ids addresses ts; simpl; [by intros [= <-]|].
  intros Ht. ok_all Ht. injection Ht as <-. simpl. rewrite (normalize_target_stable _ _ _ _ E). simpl.
  destruct (IH _ _ _ E0) as [-> ->]. done.
Qed.

Lemma pool_value_object p : is_nullish (pool_value p) = false.
Proof. done. Qed.
Lemma pool_value_keys p : keys (pool_value p) pool_keys "upstream pool" = Ok tt.
Proof. by destruct p as [? ? ? ? ? [?|] [?|]]. Qed.
Lemma pool_value_host_header p :
  get "host_header" (pool_value p) = match pl_host_header p with Some s => VStr s | None => VUndef end.
Proof. by destruct p as [? ? ? ? ? [?|] [?|]]. Qed.
Lemma pool_value_server_name p :
  get "tls_server_name" (pool_value p) = match pl_tls_server_name p with Some s => VStr s | None => VUndef end.
Proof. by destruct p as [? ? ? ? ? [?|] [?|]]. Qed.

Lemma normalizeUpstreamPool_stable v host p :
  normalizeUpstreamPool v host = Ok (Some p) -> normalizeUpstreamPool (pool_value p) host = Ok (Some p).
Proof.
  unfold normalizeUpstreamPool. destruct (is_nullish v); [done|]. intros Hp.
  ok_all Hp. injection Hp as <-.
  match goal with E : normalize_targets _ _ ?raw = Ok ?ts |- _ => apply normalize_targets_stable in E as [Hts Hlen] end.
  rewrite pool_value_object, pool_value_keys, pool_value_host_header, pool_value_server_name. simpl.
  erewrite (integer_stable (get "connect_timeout" v)), (integer_stable (get "read_timeout" v)) by done. simpl.
  erewrite (optional_hostname_stable (get "host_header" v)), (optional_hostname_stable (get "tls_server_name" v))
    by done. simpl. rewrite length_map, Hlen, G. simpl. rewrite Hts. simpl. by rewrite E8.
Qed.

Lemma normalize_route_stable ttl paths v r :
  normalize_route ttl paths v = Ok r -> normalize_route ttl paths (route_value r) = Ok r.
Proof.
  unfold normalize_route. intros Hr. ok_all Hr. injection Hr as <-.
  destruct (get "path" v) as [| | | | |path| |]; try done. simpl in *. rewrite G. simpl.
  by rewrite (integer_stable _ _ _ _ _ _ E0).
Qed.

Lemma normalize_routes_stable ttl vs : forall paths rs,
  normalize_routes ttl paths vs = Ok rs ->
  normalize_routes ttl paths (map route_value rs) = Ok rs /\ length rs = length vs.
Proof.
  induction vs as [|v vs IH]; intros paths rs; simpl; [by intros [= <-]|].
  intros Hr. ok_all Hr. injection Hr as <-. simpl. rewrite (normalize_route_stable _ _ _ _ E). simpl.
  destruct (IH _ _ E0) as [-> ->]. done.
Qed.

Lemma string_of_spec allowed v : is_string_of allowed v = true -> exists s, v = VStr s /\ In s allowed.
Proof.
  destruct v; try done. intros (k & Hin & ->%String.eqb_eq)%existsb_exists. by exists k.
Qed.

Lemma check_cache_host_defined w v host :
  is_undef w = false -> is_undef v = false -> check_cache_host w host = check_cache_host v host.
Proof. unfold check_cache_host. by intros -> ->. Qed.

Lemma cache_from_stable source v host c :
  cache_from source v host = Ok c -> (v = VUndef -> ca_enabled c = false) ->
  cache_from (cache_value c) (cache_value c) host = Ok c.
Proof.
  unfold cache_from. intros Hc Hlegacy. ok_all Hc. injection Hc as <-. simpl in Hlegacy.
  apply negb_false_iff in G. pose proof G as (key & Hkey & _)%string_of_spec. rewrite Hkey in *.
  match goal with E : normalize_routes _ _ ?raw = Ok ?ts |- _ =>
    apply normalize_routes_stable in E as [Hts Hlen] end.
  cbn -[integer is_string_of Nat.ltb check_cache_host].
  erewrite (integer_stable (get "ttl_seconds" source)), (integer_stable (get "max_size_mb" source)) by done.
  cbn -[integer is_string_of Nat.ltb check_cache_host].
  erewrite (integer_stable (get "inactive_seconds" source)) by done.
  cbn -[integer is_string_of Nat.ltb check_cache_host cache_value].
  rewrite G, G0, length_map, Hlen, G1. simpl. rewrite Hts. simpl. destruct v1; [|done].
  rewrite (check_cache_host_defined _ v); [by rewrite E7|done|].
  destruct v; try done. by specialize (Hlegacy eq_refl).
Qed.

Lemma normalizeCachePolicy_stable v host c :
  normalizeCachePolicy v host = Ok (Some c) -> (v = VUndef -> ca_enabled c = false) ->
  normalizeCachePolicy (cache_value c) host = Ok (Some c).
Proof.
  intros Hc Hlegacy. assert (cache_from (cache_source v host) v host = Ok c) as Hf.
  { revert Hc. unfold normalizeCachePolicy. destruct v; try done.
    all: simpl; try (destruct (negb _); [done|]); intros Hc; ok_inv Hc; congruence. }
  apply cache_from_stable in Hf; [|done]. change (cache_from (cache_value c) (cache_value c) host = Ok c) in Hf.
  unfold normalizeCachePolicy. change (rmap Some (cache_from (cache_value c) (cache_value c) host) = Ok (Some c)).
  by rewrite Hf.
Qed.
End Stability.

(** ** Metadata survives being saved again *)

Section Metadata.
Context `{BareAddresses}.

(** What the validators read of a host. *)
Definition same_host (h h' : value) : Prop :=
  forall k, k <> "meta" -> get k h = get k h'.

Lemma pool_same_host v h h' : same_host h h' -> normalizeUpstreamPool v h = normalizeUpstreamPool v h'.
Proof.
  intros Hs. unfold normalizeUpstreamPool, check_pool_host, supported.
  by rewrite !(Hs "forward_scheme"), !(Hs "forward_host"), !(Hs "advanced_config") by done.
Qed.

Lemma cache_same_host v h h' : same_host h h' -> normalizeCachePolicy v h = normalizeCachePolicy v h'.
Proof.
  intros Hs. unfold normalizeCachePolicy, cache_from, check_cache_host, supported, cache_source.
  by rewrite !(Hs "forward_scheme"), !(Hs "caching_enabled"), !(Hs "advanced_config") by done.
Qed.

Lemma policy_host_meta data previous meta meta' x :
  same_host (policy_host (set_field "meta" x data) previous meta') (policy_host data previous meta).
Proof.
  intros k Hk. unfold policy_host. simpl. rewrite !field_of_set_ne by done.
  unfold spread2. by apply field_of_assign.
Qed.

(** A property already in normal form is left as it is. *)
Definition settled {A} (k : string) (norm : value -> fallible (option A)) (print : A -> value)
    (meta : fields) : Prop :=
  is_undef (field_of k meta) = true \/
  exists o, field_of k meta = or_null print o /\ norm (or_null print o) = Ok o /\ or_null print o <> VUndef.

Lemma settled_stays {A} k norm (print : A -> value) meta :
  settled k norm print meta -> normalize_field k norm print meta = Ok meta.
Proof.
  unfold normalize_field. intros [->|(o & Hf & Hn & Hu)]; [done|].
  assert (is_undef (field_of k meta) = false) as ->.
  { rewrite Hf. by destruct (or_null print o). }
  rewrite Hf, Hn. simpl. f_equal. by apply set_field_same.
Qed.

Lemma settled_ext {A} k norm norm' (print : A -> value) meta meta' :
  (forall v, norm v = norm' v) -> field_of k meta' = field_of k meta ->
  settled k norm print meta -> settled k norm' print meta'.
Proof.
  unfold settled. intros Hn ->. intros [Hu|(o & Hf & Ho & Hu)]; [by left|]. right. exists o. by rewrite <- Hn.
Qed.

Lemma normalize_field_settles {A} k norm (print : A -> value) meta meta' :
  norm VNull = Ok None ->
  (forall v a, v <> VUndef -> norm v = Ok (Some a) -> norm (print a) = Ok (Some a) /\ print a <> VUndef) ->
  normalize_field k norm print meta = Ok meta' ->
  settled k norm print meta' /\ grows meta meta' /\
  (List.NoDup (map fst meta) -> List.NoDup (map fst meta')) /\
  (forall j, j <> k -> field_of j meta' = field_of j meta).
Proof.
  intros Hnull Hprint. unfold normalize_field. destruct (is_undef _) eqn:Eu.
  - intros [= <-]. split_and!; try done. by left.
  - intros Hn. ok_inv Hn. injection Hn as <-. split_and!.
    + right. exists v. rewrite field_of_set. split; [done|]. destruct v as [a|]; [|by split].
      apply (Hprint (field_of k meta) a); [|done]. intros Hv. by rewrite Hv in Eu.
    + apply grows_set.
    + by apply set_field_NoDup.
    + intros j Hj. by rewrite field_of_set_ne.
Qed.

Lemma pool_settles k host meta meta' :
  normalize_field k (fun v => normalizeUpstreamPool v host) pool_value meta = Ok meta' ->
  settled k (fun v => normalizeUpstreamPool v host) pool_value meta' /\ grows meta meta' /\
  (List.NoDup (map fst meta) -> List.NoDup (map fst meta')) /\
  (forall j, j <> k -> field_of j meta' = field_of j meta).
Proof.
  apply normalize_field_settles; [done|].
  intros v p _ Hp. split; [by eapply normalizeUpstreamPool_stable|done].
Qed.

Lemma cache_settles k host meta meta' :
  normalize_field k (fun v => normalizeCachePolicy v host) cache_value meta = Ok meta' ->
  settled k (fun v => normalizeCachePolicy v host) cache_value meta' /\ grows meta meta' /\
  (List.NoDup (map fst meta) -> List.NoDup (map fst meta')) /\
  (forall j, j <> k -> field_of j meta' = field_of j meta).
Proof.
  apply normalize_field_settles; [done|].
  intros v c Hv Hc. split; [by eapply normalizeCachePolicy_stable|done].
Qed.

(** The legacy switch, once applied, finds nothing more to do. *)
Lemma legacy_settles host meta meta' :
  settled "cache_policy" (fun v => normalizeCachePolicy v host) cache_value meta ->
  legacy_cache host meta = Ok meta' ->
  settled "cache_policy" (fun v => normalizeCachePolicy v host) cache_value meta' /\
  legacy_cache host meta' = Ok meta' /\ grows meta meta' /\
  (List.NoDup (map fst meta) -> List.NoDup (map fst meta')) /\
  (forall j, j <> "cache_policy" -> field_of j meta' = field_of j meta).
Proof.
  intros Hs. unfold legacy_cache at 1. destruct (js_truthy _ && _) eqn:E.
  2:{ intros [= <-]. unfold legacy_cache. rewrite E. by split_and!. }
  intros Hl. ok_inv Hl. destruct v as [c|]; [destruct (ca_enabled c) eqn:Ec|]; injection Hl as <-.
  - split_and!; try done. unfold legacy_cache. rewrite E, E0. simpl. by rewrite Ec.
  - split_and!; [| |apply grows_set|by apply set_field_NoDup|intros; by rewrite field_of_set_ne].
    + right. exists (Some c). rewrite field_of_set. split_and!; try done.
      by apply (normalizeCachePolicy_stable VUndef).
    + unfold legacy_cache. rewrite field_of_set. simpl. by rewrite andb_false_r.
  - split_and!; [| |apply grows_set|by apply set_field_NoDup|intros; by rewrite field_of_set_ne].
    + right. exists None. by rewrite field_of_set.
    + unfold legacy_cache. rewrite field_of_set. simpl. by rewrite andb_false_r.
Qed.

Lemma legacy_same_host h h' meta : same_host h h' -> legacy_cache h meta = legacy_cache h' meta.
Proof.
  intros Hs. unfold legacy_cache. by rewrite (Hs "caching_enabled"), (cache_same_host _ _ _ Hs).
Qed.

Lemma ruleset_settles previous meta :
  is_undef (field_of "waf_ruleset" (with_ruleset previous meta)) = false /\
  grows meta (with_ruleset previous meta) /\
  (List.NoDup (map fst meta) -> List.NoDup (map fst (with_ruleset previous meta))).
Proof.
  unfold with_ruleset. destruct (is_undef (field_of "waf_ruleset" meta)) eqn:E; [|by split_and!].
  rewrite field_of_set. split_and!; [done|apply grows_set|apply set_field_NoDup].
Qed.

Lemma settle_meta_settles host host' meta meta' :
  same_host host' host -> settle_meta host meta = Ok meta' ->
  settle_meta host' meta' = Ok meta' /\ grows meta meta' /\
  field_of "waf_ruleset" meta' = field_of "waf_ruleset" meta /\
  (List.NoDup (map fst meta) -> List.NoDup (map fst meta')).
Proof.
  intros Hs. unfold settle_meta at 1. intros Hm. ok_inv Hm. ok_inv Hm. ok_inv Hm.
  apply pool_settles in E as (Hp & Hg1 & Hn1 & Hf1). apply cache_settles in E0 as (Hc & Hg2 & Hn2 & Hf2).
  apply legacy_settles in Hm as (Hc' & Hl & Hg3 & Hn3 & Hf3); [|done].
  assert (field_of "waf_ruleset" meta' = field_of "waf_ruleset" meta) as Hw by (by rewrite Hf3, Hf2, Hf1).
  split_and!; [|by etransitivity; [exact Hg1|etransitivity]|done|by auto].
  unfold settle_meta. rewrite Hw, G. simpl.
  rewrite (settled_stays "upstream_pool"); simpl.
  - rewrite (settled_stays "cache_policy"); simpl; [by rewrite (legacy_same_host _ _ _ Hs)|].
    eapply settled_ext; [|reflexivity|exact Hc']. intros v1. symmetry. by apply cache_same_host.
  - eapply settled_ext; [| |exact Hp]; [|by rewrite Hf3, Hf2]. intros v1. symmetry. by apply pool_same_host.
Qed.

(** ** What an accepted policy contains *)

(** A host name Nginx can be given: an address, or letters, digits, dots and
    dashes in labels of 63. *)
Definition safe_host (s : string) : Prop :=
  isIP s = true \/ (hostname_shape s = true /\ hostname_parts_ok s = true).

Definition target_ok (t : pool_target) : Prop :=
  target_id_shape (tg_id t) = true /\ safe_host (tg_host t) /\ 1 <= tg_port t <= 65535 /\
  1 <= tg_weight t <= 1000 /\ 1 <= tg_max_fails t <= 10 /\ 1 <= tg_fail_timeout t <= 300.

Definition http_host (host : value) : Prop :=
  exists s, get "forward_scheme" host = VStr s /\ In s ["http"; "https"].

Definition pool_ok (host : value) (p : upstream_pool) : Prop :=
  (length (pl_targets p) <= 16)%nat /\ Forall target_ok (pl_targets p) /\
  List.NoDup (map tg_id (pl_targets p)) /\
  List.NoDup (map (fun t => (tg_host t, tg_port t)) (pl_targets p)) /\
  1 <= pl_connect_timeout p <= 60 /\ 1 <= pl_read_timeout p <= 600 /\
  (pl_enabled p = true -> http_host host /\ exists t, In t (pl_targets p) /\ tg_backup t = false).

Definition route_ok (r : cache_route) : Prop :=
  route_path_shape (cr_path r) = true /\ strlen (cr_path r) <= 256 /\
  Forall (fun part => part <> "." /\ part <> "..") (split_on "/"%char (cr_path r)) /\
  1 <= cr_ttl_seconds r <= 86400.

Definition cache_ok (host : value) (c : cache_policy) : Prop :=
  (1 <= length (ca_routes c) <= 16)%nat /\ Forall route_ok (ca_routes c) /\
  List.NoDup (map cr_path (ca_routes c)) /\
  16 <= ca_max_size_mb c <= 10240 /\
  In (ca_cache_key c) ["uri"; "uri_ignore_query"] /\
  (ca_cache_key c = "uri_ignore_query" -> ca_assets_only c = true) /\
  (ca_enabled c = true -> http_host host).

Lemma integer_range v d lo hi f n : integer v d lo hi f = Ok n -> lo <= n <= hi.
Proof.
  unfold integer. intros Hn. ok_inv Hn. injection Hn as <-. apply negb_false_iff in G.
  by apply int_between_spec in G as (m & -> & ?).
Qed.

Ltac ranges := repeat match goal with E : integer _ _ _ _ _ = Ok _ |- _ => apply integer_range in E end.

Lemma hostname_safe v f s : hostname v f = Ok s -> safe_host s.
Proof.
  destruct v; try done. unfold hostname. destruct (isIP _) eqn:Hip; [intros [= <-]; by left|].
  intros Hs. ok_inv Hs. injection Hs as <-. boolify. right.
  by rewrite hostname_shape_lower, hostname_parts_lower.
Qed.

Lemma supported_http host label u : supported host label = Ok u -> http_host host.
Proof.
  unfold supported, throw_if. destruct (negb _) eqn:E; [done|]. intros _.
  apply negb_false_iff, string_of_spec in E as (s & Hs & Hin). by exists s.
Qed.

Lemma normalize_target_ok ids addresses v t :
  normalize_target ids addresses v = Ok t ->
  target_ok t /\ ~ In (tg_id t) ids /\ ~ In (target_address t) addresses.
Proof.
  unfold normalize_target. intros Ht. ok_all Ht. injection Ht as <-.
  destruct (get "id" v) as [| | | | |id| |]; simpl in G; try done. boolify.
  split_and!; [|by apply includes_key_false|by apply includes_key_false].
  unfold target_ok. cbn [tg_id tg_host tg_port tg_weight tg_max_fails tg_fail_timeout].
  ranges. split_and!; try done; try lia. by eapply hostname_safe.
Qed.

Lemma normalize_targets_ok vs : forall ids addresses ts,
  normalize_targets ids addresses vs = Ok ts ->
  Forall target_ok ts /\ List.NoDup (map tg_id ts) /\ List.NoDup (map (fun t => (tg_host t, tg_port t)) ts) /\
  forall t, In t ts -> ~ In (tg_id t) ids /\ ~ In (target_address t) addresses.
Proof.
  induction vs as [|v vs IH]; intros ids addresses ts; simpl; [intros [= <-]; by repeat constructor|].
  intros Ht. ok_all Ht. injection Ht as <-. apply normalize_target_ok in E as (Hok & Hid & Hadr).
  apply IH in E0 as (Hall & Hnd & Hnd' & Hout). simpl. split_and!.
  - by constructor.
  - constructor; [|done]. intros (t & Heq & Hin)%in_map_iff. apply Hout in Hin as [Hi _]. rewrite Heq in Hi.
    apply Hi. by left.
  - constructor; [|done]. intros (t & Heq & Hin)%in_map_iff. injection Heq as Hh Hp. apply Hout in Hin as [_ Hi].
    apply Hi. left. unfold target_address. by rewrite Hh, Hp.
  - intros t [->|Hin]; [done|]. apply Hout in Hin as [Hi Ha]. simpl in Hi, Ha. tauto.
Qed.

Lemma normalized_pool_ok v host p : normalizeUpstreamPool v host = Ok (Some p) -> pool_ok host p.
Proof.
  unfold normalizeUpstreamPool. destruct (is_nullish v); [done|]. intros Hp. ok_all Hp. injection Hp as <-.
  match goal with E : normalize_targets _ _ ?raw = Ok ?ts |- _ =>
    pose proof (normalize_targets_stable _ _ _ _ E) as [_ Hlen]; apply normalize_targets_ok in E as (Hok & Hid & Had & _)
  end.
  apply Nat.ltb_ge in G.
  unfold pool_ok; cbn [pl_targets pl_connect_timeout pl_read_timeout pl_enabled].
  ranges. split_and!; try done; try lia. intros ->.
  unfold check_pool_host in E8. ok_inv E8. ok_inv E8. split; [by eapply supported_http|].
  apply negb_false_iff, existsb_exists in G0 as (t & Hin & Hb). exists t. by apply negb_true_iff in Hb.
Qed.

Lemma normalize_routes_ok ttl vs : forall paths rs,
  normalize_routes ttl paths vs = Ok rs ->
  Forall route_ok rs /\ List.NoDup (map cr_path rs) /\ forall r, In r rs -> ~ In (cr_path r) paths.
Proof.
  induction vs as [|v vs IH]; intros paths rs; simpl; [intros [= <-]; by repeat constructor|].
  intros Hr. ok_all Hr. injection Hr as <-. apply IH in E0 as (Hall & Hnd & Hout).
  unfold normalize_route in E. ok_all E. injection E as <-.
  destruct (get "path" v) as [| | | | |path| |]; try done. simpl in G. boolify. simpl in *. split_and!.
  - constructor; [|done]. unfold route_ok. simpl. ranges. split_and!; try done; try lia.
    apply Forall_forall. intros part Hin%list_elem_of_In.
    match goal with Hx : existsb _ (split_on _ path) = false |- _ => rename Hx into Hdots end.
    assert (String.eqb part "." || String.eqb part ".." = false) as Hp.
    { destruct (_ || _) eqn:Hp; [|done]. rewrite <- Hdots. symmetry. apply existsb_exists. by exists part. }
    by boolify.
  - constructor; [|done]. intros (r & Heq & Hin)%in_map_iff. apply Hout in Hin. rewrite Heq in Hin. apply Hin. by left.
  - intros r [<-|Hin]; [by apply includes_key_false|]. apply Hout in Hin. tauto.
Qed.

Lemma normalized_cache_ok v host c : normalizeCachePolicy v host = Ok (Some c) -> cache_ok host c.
Proof.
  intros Hc. assert (cache_from (cache_source v host) v host = Ok c) as Hf.
  { revert Hc. unfold normalizeCachePolicy. destruct v; try done.
    all: simpl; try (destruct (negb _); [done|]); intros Hc; ok_inv Hc; congruence. }
  clear Hc. unfold cache_from in Hf. ok_all Hf. injection Hf as <-.
  apply negb_false_iff, string_of_spec in G as (key & Hkey & Hin). rewrite Hkey in *. boolify.
  match goal with E : normalize_routes _ _ ?raw = Ok ?ts |- _ =>
    pose proof (normalize_routes_stable _ _ _ _ E) as [_ Hlen]; apply normalize_routes_ok in E as (Hok & Hnd & _)
  end.
  repeat match goal with E : Nat.ltb _ _ = false |- _ => apply Nat.ltb_ge in E end.
  unfold cache_ok. cbn [ca_routes ca_max_size_mb ca_cache_key ca_assets_only ca_enabled str_or].
  ranges. split_and!; try done; try lia.
  - intros ->. simpl in G0. by apply negb_false_iff in G0.
  - intros ->. unfold check_cache_host in E7. ok_inv E7. by eapply supported_http.
Qed.

Lemma normalize_field_holds {A} k norm (print : A -> value) (P : A -> Prop) meta meta' :
  (forall v a, norm v = Ok (Some a) -> P a) -> normalize_field k norm print meta = Ok meta' ->
  field_of k meta' = VUndef \/ field_of k meta' = VNull \/ exists a, field_of k meta' = print a /\ P a.
Proof.
  intros HP. unfold normalize_field. destruct (is_undef _) eqn:Eu.
  - intros [= <-]. left. by destruct (field_of k meta).
  - intros Hn. ok_inv Hn. injection Hn as <-. rewrite field_of_set. destruct v as [a|]; simpl; [|by auto].
    right; right. exists a. split; [done|]. by eapply HP.
Qed.

Lemma settle_meta_ruleset host meta meta' :
  settle_meta host meta = Ok meta' ->
  exists s, field_of "waf_ruleset" meta' = VStr s /\ In s ["base"; "crs"].
Proof.
  intros Hm. pose proof (settle_meta_settles host host meta meta' (fun _ _ => eq_refl) Hm) as (_ & _ & Hw & _).
  rewrite Hw. unfold settle_meta in Hm. ok_inv Hm. apply negb_false_iff, string_of_spec in G as (s & Hs & Hin).
  by exists s.
Qed.

Lemma settle_meta_holds host meta meta' :
  settle_meta host meta = Ok meta' ->
  (field_of "upstream_pool" meta' = VUndef \/ field_of "upstream_pool" meta' = VNull \/
   exists p, field_of "upstream_pool" meta' = pool_value p /\ pool_ok host p) /\
  (field_of "cache_policy" meta' = VUndef \/ field_of "cache_policy" meta' = VNull \/
   exists c, field_of "cache_policy" meta' = cache_value c /\ cache_ok host c).
Proof.
  unfold settle_meta. intros Hm. ok_inv Hm. ok_inv Hm. ok_inv Hm.
  pose proof (normalize_field_holds _ _ _ (pool_ok host) _ _ (fun v => normalized_pool_ok v host) E) as Hp.
  pose proof (normalize_field_holds _ _ _ (cache_ok host) _ _ (fun v => normalized_cache_ok v host) E0) as Hc.
  apply cache_settles in E0 as (Hset & _ & _ & Hf2).
  pose proof (legacy_settles _ _ _ Hset Hm) as (_ & _ & _ & _ & Hf3).
  rewrite Hf3, Hf2 by done. split; [done|]. clear Hf2 Hf3 Hp.
  unfold legacy_cache in Hm. destruct (js_truthy _ && _); [|by injection Hm as <-].
  ok_inv Hm. destruct v1 as [c|]; [destruct (ca_enabled c)|]; injection Hm as <-; [done|..]; rewrite field_of_set;
    [|by auto]. right; right. exists c. split; [done|]. by eapply normalized_cache_ok.
Qed.

(** What a host stores is safe to render.  Accepted metadata names one of
    the two rulesets; its pool, if any, has at most sixteen targets with
    distinct identifiers and addresses, host names without any character that
    could end an Nginx directive, ports and timeouts in range, and a primary
    target when it is enabled; its cache policy, if any, has one to sixteen
    distinct absolute directory routes without dot segments, ignores query
    parameters only for static assets, and both serve HTTP hosts only. *)
Theorem accepted_policy_is_bounded data previous data' :
  validateHostTrafficPolicy data previous = Ok data' ->
  exists meta, field_of "meta" data' = VObj meta /\
  let host := policy_host data previous meta in
  (exists s, field_of "waf_ruleset" meta = VStr s /\ In s ["base"; "crs"]) /\
  (field_of "upstream_pool" meta = VUndef \/ field_of "upstream_pool" meta = VNull \/
   exists p, field_of "upstream_pool" meta = pool_value p /\ pool_ok host p) /\
  (field_of "cache_policy" meta = VUndef \/ field_of "cache_policy" meta = VNull \/
   exists c, field_of "cache_policy" meta = cache_value c /\ cache_ok host c).
Proof.
  unfold validateHostTrafficPolicy. set (m := spread2 _ _). intros Hv. ok_inv Hv. injection Hv as <-.
  exists v. rewrite field_of_set. split; [done|]. pose proof (settle_meta_ruleset _ _ _ E) as Hrules.
  eapply (settle_meta_settles _ (policy_host data previous v)) in E as (Hs & _).
  2:{ intros k Hk. unfold policy_host. simpl. by rewrite !field_of_set_ne. }
  by apply settle_meta_holds in Hs.
Qed.

(** Saving is stable.  Metadata that was accepted and rebuilt once is
    accepted again unchanged, property for property: a host can be edited and
    saved any number of times without its pool, cache policy, ruleset or
    unrelated metadata drifting. *)
Theorem saved_policy_is_stable data previous data' :
  validateHostTrafficPolicy data previous = Ok data' ->
  validateHostTrafficPolicy data' previous = Ok data'.
Proof.
  unfold validateHostTrafficPolicy. set (pm := metadata (field_of "meta" previous)).
  set (m := spread2 pm _). intros Hv. ok_inv Hv. injection Hv as <-.
  rewrite field_of_set. destruct (ruleset_settles previous m) as (Hw & Hg & Hnd).
  eapply settle_meta_settles in E as (Hs & Hg' & Hw' & Hnd'); [|apply policy_host_meta].
  assert (spread2 pm (metadata (VObj v)) = v) as ->.
  { apply spread_onto; [|by apply Hnd', Hnd, spread_NoDup].
    etransitivity; [apply spread_grows|]. by etransitivity. }
  assert (with_ruleset previous v = v) as -> by (unfold with_ruleset; by rewrite Hw', Hw).
  rewrite Hs. simpl. f_equal. apply set_field_same; [done|apply field_of_set].
Qed.
End Metadata.

(** ** Pool observations *)

(** What the last check of a pool saw, per host: a map of at most a hundred
    hosts, in insertion order.  The SHA-256 of the pool's description is a
    parameter, and so is what is known of a target. *)
Section Observations.
Context `{Platform} {T : Type} (target_key : T -> string)
  (digest : value -> list string -> option upstream_pool -> string).

Record pool_host : Type := MkPoolHost { ph_id : Z; ph_host : value; ph_domains : list string }.

Record pool_observation : Type := MkPoolObservation {
  ob_key : string;
  ob_expires : Z;
  ob_targets : list (string * (T * Z))
}.
Abbreviation observation_map := (list (Z * pool_observation)).

Definition OBSERVATION_MS : Z := 5 * 60000.
Definition MAX_OBSERVATIONS : nat := 100.

Definition poolObservationKey (host : pool_host) : fallible string :=
  let? pool := normalizeUpstreamPool (get "upstream_pool" (get "meta" (ph_host host))) (ph_host host) in
  Ok (digest (get "forward_scheme" (ph_host host)) (firstn 5 (ph_domains host)) pool).

Definition clearPoolObservations (hostId : Z) (obs : observation_map) : observation_map :=
  delete_where (fun r => fst r =? hostId) obs.

(** Recording takes the old record away before it computes the new key, which
    may throw. *)
Definition recordPoolObservations (now : Z) (host : pool_host) (targets : list T) (checkedAt : Z)
    (obs : observation_map) : fallible unit * observation_map :=
  let rest := clearPoolObservations (ph_id host) obs in
  match poolObservationKey host with
  | Throw e => (Throw e, rest)
  | Ok key =>
      let record := MkPoolObservation key (now + OBSERVATION_MS)
                      (map (fun t => (target_key t, (t, checkedAt))) targets) in
      let obs' := rest ++ [(ph_id host, record)] in
      (Ok tt, if Nat.ltb MAX_OBSERVATIONS (length obs') then tl obs' else obs')
  end.

Definition getPoolObservations (now : Z) (host : pool_host) (obs : observation_map)
    : fallible (list (string * (T * Z))) :=
  match first_where (fun r => fst r =? ph_id host) obs with
  | None => Ok []
  | Some (_, record) =>
      if ob_expires record <? now then Ok []
      else let? key := poolObservationKey host in
           Ok (if String.eqb (ob_key record) key then ob_targets record else [])
  end.

Inductive observation_event : Type :=
| Recorded (now : Z) (host : pool_host) (targets : list T) (checkedAt : Z)
| Cleared (hostId : Z).

Definition event_host (e : observation_event) : Z :=
  match e with Recorded _ host _ _ => ph_id host | Cleared hostId => hostId end.

Definition observe_event (obs : observation_map) (e : observation_event) : observation_map :=
  match e with
  | Recorded now host targets checkedAt => snd (recordPoolObservations now host targets checkedAt obs)
  | Cleared hostId => clearPoolObservations hostId obs
  end.

Definition observations (events : list observation_event) : observation_map := fold_left observe_event events [].

(** Where a record of the map came from. *)
Definition latest_record (events : list observation_event) (id : Z) (record : pool_observation) : Prop :=
  exists before now host targets checkedAt after,
    events = before ++ Recorded now host targets checkedAt :: after /\ ph_id host = id /\
    (forall e, In e after -> event_host e <> id) /\
    poolObservationKey host = Ok (ob_key record) /\ ob_expires record = now + OBSERVATION_MS /\
    ob_targets record = map (fun t => (target_key t, (t, checkedAt))) targets.

Lemma latest_record_snoc events id record e :
  latest_record events id record -> event_host e <> id -> latest_record (events ++ [e]) id record.
Proof.
  intros (b & now & h & ts & at_ & a & -> & Hid & Ha & Hrest) He.
  exists b, now, h, ts, at_, (a ++ [e]). split; [by rewrite <- app_assoc|]. split_and!; try done; try by apply Hrest.
  intros x [Hx|[<-|[]]]%in_app_or; auto.
Qed.

Lemma in_tl {A} (x : A) xs : In x (tl xs) -> In x xs.
Proof. destruct xs; [done|]. by right. Qed.

Lemma observations_ok events :
  (length (observations events) <= MAX_OBSERVATIONS)%nat /\
  forall id record, In (id, record) (observations events) -> latest_record events id record.
Proof.
  unfold observations. induction events as [|e events IH] using rev_ind; [split; [simpl; lia|done]|].
  rewrite fold_left_app. simpl. destruct IH as [Hlen IH]. set (obs := fold_left observe_event events []) in *.
  assert (length (clearPoolObservations (event_host e) obs) <= MAX_OBSERVATIONS)%nat as Hcl.
  { etransitivity; [|exact Hlen]. unfold clearPoolObservations, delete_where. apply List.filter_length_le. }
  assert (forall id r, In (id, r) (clearPoolObservations (event_host e) obs) -> latest_record (events ++ [e]) id r) as Hold.
  { intros id r [Hin Hne]%in_delete. apply latest_record_snoc; [by apply IH|]. simpl in Hne. apply Z.eqb_neq in Hne.
    congruence. }
  destruct e as [now host targets at_|hostId]; [|by split]. simpl in *. unfold recordPoolObservations.
  destruct (poolObservationKey host) as [key|] eqn:Ekey; [|by split]. simpl.
  set (record := MkPoolObservation _ _ _). set (obs' := _ ++ [(ph_id host, record)]).
  assert (forall id r, In (id, r) obs' -> latest_record (events ++ [Recorded now host targets at_]) id r) as Hnew.
  { intros id r [Hin|[[= <- <-]|[]]]%in_app_or; [by apply Hold|].
    exists events, now, host, targets, at_, []. by split_and!. }
  split.
  - destruct (Nat.ltb_spec MAX_OBSERVATIONS (length obs')) as [Hl|Hl]; [|done].
    subst obs'. rewrite length_app in Hl. simpl in Hl.
    destruct (clearPoolObservations (ph_id host) obs) as [|x xs]; simpl in *; [lia|].
    rewrite length_app. simpl. lia.
  - intros id r. destruct (Nat.ltb _ _); [|apply Hnew]. intros Hin. by apply Hnew, in_tl.
Qed.

(** An observation shown for a host was made by the last recording for
    that host, at most five minutes ago, of a pool with the fingerprint the
    host has now; a change of the pool, a later clearing or the passing of
    time hides it, and the cache never holds more than a hundred hosts. *)
Theorem observations_are_current events now host shown :
  getPoolObservations now host (observations events) = Ok shown ->
  (length (observations events) <= 100)%nat /\
  forall k t checkedAt, In (k, (t, checkedAt)) shown ->
  exists before made host0 targets after,
    events = before ++ Recorded made host0 targets checkedAt :: after /\
    ph_id host0 = ph_id host /\ (forall e, In e after -> event_host e <> ph_id host) /\
    poolObservationKey host0 = poolObservationKey host /\ now <= made + OBSERVATION_MS /\
    In t targets /\ k = target_key t.
Proof.
  destruct (observations_ok events) as [Hlen Hrec]. intros Hget. split; [done|]. revert Hget.
  unfold getPoolObservations. destruct (first_where _ _) as [[id record]|] eqn:Ef; [|by intros [= <-]].
  apply first_where_Some in Ef as [Hin Hid]. simpl in Hid. apply Z.eqb_eq in Hid as ->.
  destruct (ob_expires record <? now) eqn:Ex; [by intros [= <-]|]. apply Z.ltb_ge in Ex.
  intros Hs. ok_inv Hs. injection Hs as <-. intros k t at_.
  destruct (String.eqb_spec (ob_key record) v) as [<-|]; [|done]. intros Ht.
  apply Hrec in Hin as (b & made & h0 & ts & at0 & a & -> & Hid & Ha & Hk & He & Hts).
  rewrite Hts in Ht. apply in_map_iff in Ht as (t0 & [= <- <- <-] & Ht).
  exists b, made, h0, ts, a. rewrite Hk, <- He. by split_and!.
Qed.
End Observations.

(** ** A concrete host *)

Section DemoTraffic.
Definition demo_platform : Platform :=
  {| isIP := fun s => existsb (String.eqb s) ["10.0.0.5"; "::1"]; JSON_parse := fun _ => None |}.
#[local] Existing Instance demo_platform.

Lemma demo_bare : BareAddresses.
Proof. intros s. simpl. rewrite orb_false_r. intros [->%String.eqb_eq| ->%String.eqb_eq]%orb_true_iff; done. Qed.
#[local] Existing Instance demo_bare.

Definition demo_target (id host : string) : value := VObj [("id", VStr id); ("host", VStr host); ("port", VInt 8080)].
Definition demo_pool : value :=
  VObj [("enabled", VBool true); ("targets", VArr [demo_target "a" "App.Internal"; demo_target "b" "[::1]"])].
Definition demo_previous : fields :=
  [("id", VInt 7); ("forward_scheme", VStr "http"); ("forward_host", VStr "app"); ("caching_enabled", VBool false);
   ("meta", VObj [("note", VStr "kept")])].
Definition demo_data : fields := [("meta", VObj [("upstream_pool", demo_pool); ("cache_policy", VNull)])].

Definition demo_saved : fields :=
  match validateHostTrafficPolicy demo_data demo_previous with Ok d => d | Throw _ => [] end.

Lemma saved_policy_is_stable_witness :
  validateHostTrafficPolicy demo_data demo_previous = Ok demo_saved /\ demo_saved <> demo_data /\
  validateHostTrafficPolicy demo_saved demo_previous = Ok demo_saved.
Proof.
  split; [vm_compute; reflexivity|]. split; [vm_compute; discriminate|].
  apply (saved_policy_is_stable demo_data demo_previous demo_saved). vm_compute. reflexivity.
Defined.

Lemma accepted_policy_is_bounded_witness :
  exists meta, field_of "meta" demo_saved = VObj meta /\
  exists p, field_of "upstream_pool" meta = pool_value p /\ pool_ok (policy_host demo_data demo_previous meta) p.
Proof.
  destruct (accepted_policy_is_bounded demo_data demo_previous demo_saved) as (meta & Hm & _ & Hp & _);
    [vm_compute; reflexivity|].
  exists meta. split; [exact Hm|]. vm_compute in Hm. injection Hm as <-.
  destruct Hp as [Hp|[Hp|Hp]]; [vm_compute in Hp; discriminate|vm_compute in Hp; discriminate|exact Hp].
Defined.

Definition demo_digest (scheme : value) (domains : list string) (pool : option upstream_pool) : string :=
  match pool with Some p => join "," (map tg_id (pl_targets p)) | None => "" end.
Definition demo_pool_host : pool_host :=
  MkPoolHost 7 (VObj [("forward_scheme", VStr "http"); ("meta", VObj [("upstream_pool", demo_pool)])]) ["app.test"].
Definition demo_events : list observation_event :=
  [Recorded 1000 demo_pool_host ["a"; "b"] 900; Cleared 8].

Lemma observations_are_current_witness :
  getPoolObservations demo_digest 2000 demo_pool_host (observations (fun t => t) demo_digest demo_events) =
    Ok [("a", ("a", 900)); ("b", ("b", 900))] /\
  exists made, 2000 <= made + OBSERVATION_MS /\
    In (Recorded made demo_pool_host ["a"; "b"] 900) demo_events.
Proof.
  split; [vm_compute; reflexivity|].
  destruct (observations_are_current (fun t => t) demo_digest demo_events 2000 demo_pool_host
    [("a", ("a", 900)); ("b", ("b", 900))]) as [_ Hs]; [vm_compute; reflexivity|].
  destruct (Hs "a" "a" 900) as (b & made & h0 & ts & a & He & _ & _ & _ & Hm & _); [by left|].
  exists 1000. split; [|by left]. unfold OBSERVATION_MS. lia.
Defined.
End DemoTraffic.
