(* ===== verification/Monitor.v ===== *)
(** The host monitor of src/backend/internal/proxy-host-monitor.js: its
    configuration and history tables, the accepted check, the scheduler's
    single flight, and the resets that invalidate a measurement.

    It writes through to the incident tables of Incidents.v inside its own
    transactions.  A check is three steps of the machine, as in the code: it
    starts with a snapshot of its configuration, probes the upstream (which
    leaves the tables alone), and is accepted or dropped; settings changes,
    resets and removals may come in between. *)

From S2P Require Import Prelude JsString JsValue Errors Incidents Certificates MonitorSettings.
From Stdlib Require Import Sorted.
#[local] Open Scope string_scope.
#[local] Open Scope list_scope.
#[local] Open Scope Z_scope.

Definition MAX_CONCURRENT : nat := 5.
Definition MAX_HISTORY : nat := 100.
Definition RETENTION_DAYS : Z := 30.
Definition MAX_PERSIST_ATTEMPTS : nat := 3.

(** ** Data *)

(** A row of [proxy_host_monitor]. *)
Record monitor : Type := MkMonitor {
  mo_id : Z;
  mo_host : Z;
  mo_settings : settings;
  mo_version : Z;
  mo_result : check_result;
  mo_checked_at : option Z;
  mo_next_check_at : option Z;
  mo_alert_state : option health;
  mo_alert_at : option Z
}.

(** A row of [proxy_host_monitor_check]. *)
Record check_row : Type := MkCheck {
  ck_id : Z;
  ck_host : Z;
  ck_checked_at : Z;
  ck_result : check_result;
  ck_transition : bool
}.

(** A check in flight: the snapshot of its row, the identity of what it
    probes, and whether its controller was aborted. *)
Record run : Type := MkRun {
  rn_host : Z;
  rn_config : monitor;
  rn_identity : string * option probe_target;
  rn_aborted : bool
}.

Record mon_state : Type := MkMon {
  ms_monitors : list monitor;
  ms_next_monitor : Z;
  ms_checks : list check_row;
  ms_next_check : Z;
  ms_incidents : store;
  ms_hosts : list mon_host;
  ms_active : list run
}.

Definition set_monitors v n (s : mon_state) : mon_state :=
  MkMon v n (ms_checks s) (ms_next_check s) (ms_incidents s) (ms_hosts s) (ms_active s).
Definition set_checks v n (s : mon_state) : mon_state :=
  MkMon (ms_monitors s) (ms_next_monitor s) v n (ms_incidents s) (ms_hosts s) (ms_active s).
Definition set_store v (s : mon_state) : mon_state :=
  MkMon (ms_monitors s) (ms_next_monitor s) (ms_checks s) (ms_next_check s) v (ms_hosts s) (ms_active s).
Definition set_active v (s : mon_state) : mon_state :=
  MkMon (ms_monitors s) (ms_next_monitor s) (ms_checks s) (ms_next_check s) (ms_incidents s) (ms_hosts s) v.

(** What the traffic-policy component tells about a stored upstream pool:
    whether it is enabled, and the fingerprint of scheme, domains and pool. *)
Class PoolPolicy : Type := {
  pool_enabled : mon_host -> bool;
  pool_key : mon_host -> string
}.

Definition host_id (h : mon_host) : Z := h_id (mh_row h).

(** [findById(id).where("is_deleted", 0)] *)
Definition live_host (id : Z) (s : mon_state) : option mon_host :=
  first_where (fun h => (host_id h =? id) && negb (h_is_deleted (mh_row h))) (ms_hosts s).

Definition monitor_of (hostId : Z) (s : mon_state) : option monitor :=
  first_where (fun m => mo_host m =? hostId) (ms_monitors s).
Definition monitor_by_id (id : Z) (s : mon_state) : option monitor :=
  first_where (fun m => mo_id m =? id) (ms_monitors s).

Definition fresh_result : check_result := MkResult Unknown None None None.

Section Operations.
Context `{PoolPolicy}.

(** [JSON.stringify([key, enabled ? null : target])], compared as data. *)
Definition probeIdentity (h : mon_host) (config : settings) : string * option probe_target :=
  (pool_key h, if pool_enabled h then None else resolveTarget h config).

Definition target_eqb (a b : option probe_target) : bool :=
  match a, b with
  | Some x, Some y => String.eqb (pt_scheme x) (pt_scheme y) && String.eqb (pt_host x) (pt_host y)
                      && (pt_port x =? pt_port y) && String.eqb (pt_path x) (pt_path y)
  | None, None => true
  | _, _ => false
  end.
Definition identity_eqb (a b : string * option probe_target) : bool :=
  String.eqb (fst a) (fst b) && target_eqb (snd a) (snd b).

(** ** History *)

Definition retention_cutoff (now : Z) : Z := now - RETENTION_DAYS * DAY_MS.

(** The hundredth newest row of the host that is still retained.  Rows are
    kept in identifier order, so the newest come last. *)
Definition history_boundary (now hostId : Z) (t : list check_row) : option check_row :=
  nth_error (List.rev (select_where (fun r => (ck_host r =? hostId) && (retention_cutoff now <=? ck_checked_at r)) t))
    (MAX_HISTORY - 1).

Definition pruneHistory (now hostId : Z) (t : list check_row) : list check_row :=
  let boundary := history_boundary now hostId t in
  delete_where (fun r => (ck_host r =? hostId) &&
    ((ck_checked_at r <? retention_cutoff now) ||
     match boundary with Some b => ck_id r <? ck_id b | None => false end)) t.

(** ** Accepting a check *)

(** The host of a call, for a viewer with the permission; unlike the incident
    reports, the monitor does not look at the shape of the identifier. *)
Definition getHost (v : viewer) (hostId : Z) (permission : string) (hosts : list host_row) : fallible host_row :=
  throw PermissionError "Permission Denied" when (negb (v_can v permission)) ;;
  match first_where (fun h => (h_id h =? hostId) && negb (h_is_deleted h)
                              && (v_all v || (h_owner h =? v_user_id v))) hosts with
  | Some h => Ok h
  | None => Throw (ItemNotFoundError (Some hostId))
  end.

(** What an accepted check did. *)
Record accepted : Type := MkAccepted {
  ac_current : monitor;
  ac_host : mon_host;
  ac_transition : bool;
  ac_alert : alert_decision;
  ac_muted : bool
}.

Definition check_config_of (config : monitor) : check_config :=
  MkConfig (st_interval_seconds (mo_settings config)) (st_alert_enabled (mo_settings config)).

(** The transaction of [persistCheck]. *)
Definition persist_transaction (now hostId : Z) (config : monitor)
    (identity : string * option probe_target) (r : check_result) (checkedAt : Z) (aborted : bool)
    (s : mon_state) : option accepted * mon_state :=
  match monitor_by_id (mo_id config) s, live_host hostId s with
  | Some current, Some h =>
      if aborted || negb (st_enabled (mo_settings current)) || negb (h_enabled (mh_row h))
         || negb (mo_version current =? mo_version config)
         || negb (identity_eqb (probeIdentity h (mo_settings current)) identity)
      then (None, s)
      else
        let transition := negb (health_eqb (r_state (mo_result current)) (r_state r)) in
        let alert := decideAlert (st_alert_enabled (mo_settings current)) (mo_alert_state current)
                       (mo_alert_at current) (r_state r) checkedAt in
        let muted := isMuted hostId checkedAt (ms_incidents s) in
        let row := MkMonitor (mo_id current) (mo_host current) (mo_settings current) (mo_version current)
                     r (Some checkedAt) (Some (now + st_interval_seconds (mo_settings config) * 1000))
                     (if muted then mo_alert_state current else al_state alert)
                     (if muted then mo_alert_at current else al_at alert) in
        let monitors := patch_where (fun m => (mo_id m =? mo_id config) && (mo_version m =? mo_version config))
                          (fun _ => row) (ms_monitors s) in
        let check := MkCheck (ms_next_check s) hostId checkedAt r transition in
        let checks := pruneHistory now hostId (ms_checks s ++ [check]) in
        let store := recordCheck (mh_row h) (check_config_of config) r checkedAt muted (ms_incidents s) in
        (Some (MkAccepted current h transition alert muted),
         MkMon monitors (ms_next_monitor s) checks (ms_next_check s + 1) store (ms_hosts s) (ms_active s))
  | _, _ => (None, s)
  end.

(** The attempts: each entry of [conflicts] is an error that rolled one
    attempt back, and whether it is a known write conflict. *)
Fixpoint persist_attempts (attempt : nat) (conflicts : list (error * bool))
    (transaction : option accepted * mon_state) (s : mon_state)
    : fallible (option accepted) * mon_state :=
  match conflicts with
  | [] => (Ok (fst transaction), snd transaction)
  | (e, retryable) :: conflicts' =>
      if Nat.leb MAX_PERSIST_ATTEMPTS (attempt + 1) || negb retryable then (Throw e, s)
      else persist_attempts (attempt + 1) conflicts' transaction s
  end.

Definition persistCheck (now hostId : Z) (config : monitor) (identity : string * option probe_target)
    (r : check_result) (checkedAt : Z) (aborted : bool) (conflicts : list (error * bool)) (s : mon_state)
    : fallible (option accepted) * mon_state :=
  if aborted then (Ok None, s)
  else persist_attempts 0 conflicts
         (persist_transaction now hostId config identity r checkedAt aborted s) s.

(** ** Runs *)

Definition is_active (hostId : Z) (s : mon_state) : bool :=
  existsb (fun r => rn_host r =? hostId) (ms_active s).

(** The start of [run]: refuse a second flight, take the snapshot. *)
Definition run_start (hostId : Z) (s : mon_state) : option mon_state :=
  if is_active hostId s || Nat.leb MAX_CONCURRENT (length (ms_active s)) then None
  else match monitor_of hostId s, live_host hostId s with
       | Some config, Some h =>
           if st_enabled (mo_settings config) && h_enabled (mh_row h) then
             Some (set_active (MkRun hostId config (probeIdentity h (mo_settings config)) false :: ms_active s) s)
           else None
       | _, _ => None
       end.

(** The rest of [run], once the probe has reported. *)
Definition run_finish (now checkedAt : Z) (r : run) (result : check_result) (conflicts : list (error * bool))
    (s : mon_state) : fallible (option accepted) * mon_state :=
  let '(res, s') := persistCheck now (rn_host r) (rn_config r) (rn_identity r) result checkedAt (rn_aborted r)
                      conflicts s in
  (res, set_active (List.filter (fun x => negb (rn_host x =? rn_host r)) (ms_active s')) s').

Definition abort_run (hostId : Z) (s : mon_state) : mon_state :=
  set_active (map (fun r => if rn_host r =? hostId then MkRun (rn_host r) (rn_config r) (rn_identity r) true else r)
                (ms_active s)) s.

(** A manual check, up to the call of [run]. *)
Definition check (v : viewer) (hostId : Z) (s : mon_state) : fallible unit :=
  let? h := getHost v hostId "update" (map mh_row (ms_hosts s)) in
  throw ValidationError "Enable the proxy host before running a check" when (negb (h_enabled h)) ;;
  throw ValidationError "Enable monitoring before running a check"
    when (match monitor_of hostId s with Some m => negb (st_enabled (mo_settings m)) | None => true end) ;;
  throw ValidationError "A check is already running" when (is_active hostId s) ;;
  throw_if (Nat.leb MAX_CONCURRENT (length (ms_active s))) (ValidationError "Too many checks are running").

(** The hosts of a scan: due first by their instant (never checked first),
    then by identifier; at most [limit]. *)
Definition is_due (now : Z) (s : mon_state) (m : monitor) : bool :=
  st_enabled (mo_settings m) &&
  match live_host (mo_host m) s with Some h => h_enabled (mh_row h) | None => false end &&
  match mo_next_check_at m with None => true | Some t => t <=? now end.

(** ** Settings *)

Definition opt_str_eqb (a b : option string) : bool :=
  match a, b with
  | Some x, Some y => String.eqb x y
  | None, None => true
  | _, _ => false
  end.
Definition type_eqb (a b : probe_type) : bool :=
  match a, b with Http, Http | Tcp, Tcp => true | _, _ => false end.

Definition measurementChanged (existing : option monitor) (config : settings) : bool :=
  match existing with
  | None => true
  | Some m =>
      let old := mo_settings m in
      negb (type_eqb (st_type old) (st_type config) && String.eqb (st_path old) (st_path config)
            && (st_expected_status old =? st_expected_status config)
            && opt_str_eqb (st_upstream_ca old) (st_upstream_ca config)
            && opt_str_eqb (st_server_name old) (st_server_name config)
            && Bool.eqb (st_skip_verification old) (st_skip_verification config))
  end.

Definition restarts (existing : option monitor) (config : settings) : bool :=
  measurementChanged existing config ||
  match existing with
  | Some m => negb (Bool.eqb (st_enabled (mo_settings m)) (st_enabled config))
  | None => false
  end.

(** The row an update writes. *)
Definition updated_row (id hostId : Z) (existing : option monitor) (config : settings) : monitor :=
  let restart := restarts existing config in
  let keep_alert := negb restart &&
    match existing with
    | Some m => Bool.eqb (st_alert_enabled (mo_settings m)) (st_alert_enabled config)
    | None => false
    end in
  MkMonitor id hostId config (match existing with Some m => mo_version m + 1 | None => 1 end)
    (match existing with Some m => if restart then fresh_result else mo_result m | None => fresh_result end)
    (match existing with Some m => if restart then None else mo_checked_at m | None => None end)
    None
    (match existing with Some m => if keep_alert then mo_alert_state m else None | None => None end)
    (match existing with Some m => if keep_alert then mo_alert_at m else None | None => None end).

Definition is_https (h : mon_host) : bool := String.eqb (mh_forward_scheme h) "https".

(** The checks of [update] before it touches anything. *)
Definition check_update (h : mon_host) (config : settings) : fallible unit :=
  throw ValidationError "Skipping certificate verification requires an HTTPS upstream check"
    when (st_skip_verification config &&
          (match st_type config with Http => false | Tcp => true end || negb (is_https h))) ;;
  throw ValidationError "HTTP checks require an HTTP or HTTPS upstream"
    when (st_enabled config && match st_type config with Http => true | Tcp => false end &&
          negb (String.eqb (mh_forward_scheme h) "http" || is_https h)) ;;
  throw_if (st_enabled config && match resolveTarget h config with None => true | Some _ => false end)
    (ValidationError "Monitoring requires a TCP upstream; file and Unix socket targets are unsupported").

(** The write of [update], with the row it read before. *)
Definition update_write (hostId : Z) (existing : option monitor) (config : settings) (s : mon_state)
    : fallible mon_state :=
  match existing with
  | Some m =>
      let same x := (mo_id x =? mo_id m) && (mo_version x =? mo_version m) in
      throw ValidationError "Monitor settings changed; reload before saving"
        when (Nat.eqb (count_where same (ms_monitors s)) 0) ;;
      Ok (set_monitors (patch_where same (fun x => updated_row (mo_id x) (mo_host x) existing config) (ms_monitors s))
            (ms_next_monitor s) s)
  | None =>
      throw NativeError "UNIQUE constraint failed"
        when (existsb (fun x => mo_host x =? hostId) (ms_monitors s)) ;;
      Ok (set_monitors (ms_monitors s ++ [updated_row (ms_next_monitor s) hostId None config])
            (ms_next_monitor s + 1) s)
  end.

(** The second transaction of [update]. *)
Definition update_reset (now hostId : Z) (existing : option monitor) (config : settings) (s : mon_state)
    : mon_state :=
  if restarts existing config then
    let s1 := set_store (resetHost now hostId (ms_incidents s)) s in
    if measurementChanged existing config
    then set_checks (delete_where (fun c => ck_host c =? hostId) (ms_checks s1)) (ms_next_check s1) s1
    else s1
  else s.

(** [update] with nothing in between; [config] passed the validator. *)
Definition update (v : viewer) (now hostId : Z) (config : settings) (s : mon_state) : fallible mon_state :=
  let? _ := getHost v hostId "update" (map mh_row (ms_hosts s)) in
  match live_host hostId s with
  | None => Throw (ItemNotFoundError (Some hostId))
  | Some h =>
      let? _ := check_update h config in
      let existing := monitor_of hostId s in
      let? s' := update_write hostId existing config (abort_run hostId s) in
      Ok (update_reset now hostId existing config s')
  end.

Definition reset_row (unsupported : bool) (m : monitor) : monitor :=
  let st := mo_settings m in
  MkMonitor (mo_id m) (mo_host m)
    (MkSettings (if unsupported then false else st_enabled st) (st_type st) (st_path st)
       (st_interval_seconds st) (st_timeout_ms st) (st_expected_status st) (st_alert_enabled st)
       (st_upstream_ca st) (st_server_name st) false)
    (mo_version m + 1) fresh_result None None None None.

(** [resetHost] of the monitor. *)
Definition reset_monitor (now hostId : Z) (disableUnsupported : bool) (s : mon_state) : mon_state :=
  let s := abort_run hostId s in
  match monitor_of hostId s with
  | None => s
  | Some m =>
      let unsupported := disableUnsupported &&
        match live_host hostId s with
        | Some h => match resolveTarget h (mo_settings m) with Some _ => false | None => true end
        | None => true
        end in
      let s1 := set_monitors (patch_where (fun x => mo_id x =? mo_id m) (reset_row unsupported) (ms_monitors s))
                  (ms_next_monitor s) s in
      let s2 := set_checks (delete_where (fun c => ck_host c =? hostId) (ms_checks s1)) (ms_next_check s1) s1 in
      set_store (resetHost now hostId (ms_incidents s2)) s2
  end.

(** [removeHost] of the monitor. *)
Definition remove_monitor (hostId : Z) (s : mon_state) : mon_state :=
  let s := abort_run hostId s in
  let s1 := set_checks (delete_where (fun c => ck_host c =? hostId) (ms_checks s)) (ms_next_check s) s in
  let s2 := set_store (removeHost hostId (ms_incidents s1)) s1 in
  set_monitors (delete_where (fun m => mo_host m =? hostId) (ms_monitors s2)) (ms_next_monitor s2) s2.

(** The daily retention of a scan. *)
Definition scan_cleanup (now : Z) (s : mon_state) : mon_state :=
  let s1 := set_checks (delete_where (fun c => ck_checked_at c <? retention_cutoff now) (ms_checks s))
              (ms_next_check s) s in
  fold_left (fun s id => remove_monitor id s)
    (firstn 200 (map mo_host (select_where (fun m => match live_host (mo_host m) s1 with Some _ => false | None => true end)
                                (ms_monitors s1)))) s1.

(** What a client sees. *)
Definition publicState (m : monitor) (h : mon_host) : option health :=
  if negb (h_enabled (mh_row h)) || negb (st_enabled (mo_settings m)) then None
  else Some (r_state (mo_result m)).

(** The configuration and the newest checks of one host. *)
Record monitor_view : Type := MkView {
  vw_config : option settings;
  vw_status : option (option health);
  vw_history : list check_row
}.

Definition get (v : viewer) (hostId : Z) (s : mon_state) : fallible monitor_view :=
  let? _ := getHost v hostId "get" (map mh_row (ms_hosts s)) in
  match live_host hostId s, monitor_of hostId s with
  | Some h, Some m =>
      Ok (MkView (Some (mo_settings m)) (Some (publicState m h))
            (firstn MAX_HISTORY (List.rev (select_where (fun c => ck_host c =? hostId) (ms_checks s)))))
  | _, _ => Ok (MkView None None [])
  end.

(** The status of the monitors among [ids] whose hosts the viewer sees. *)
Definition listStatus (all : bool) (user : Z) (ids : list Z) (s : mon_state) : list (Z * option health) :=
  let hosts := select_where (fun h => existsb (Z.eqb (host_id h)) ids && negb (h_is_deleted (mh_row h))
                                      && (all || (h_owner (mh_row h) =? user))) (ms_hosts s) in
  flat_map (fun m => match first_where (fun h => host_id h =? mo_host m) hosts with
                     | Some h => [(mo_host m, publicState m h)]
                     | None => []
                     end) (ms_monitors s).

(** ** The machine *)

Inductive mon_step : mon_state -> mon_state -> Prop :=
| mon_start hostId s s' : run_start hostId s = Some s' -> mon_step s s'
| mon_finish now checkedAt r result conflicts s :
    In r (ms_active s) ->
    mon_step s (snd (run_finish now checkedAt r result conflicts s))
| mon_update_write hostId existing config s s' :
    (forall m, existing = Some m -> mo_host m = hostId) ->
    update_write hostId existing config (abort_run hostId s) = Ok s' -> mon_step s s'
| mon_update_reset now hostId existing config s : mon_step s (update_reset now hostId existing config s)
| mon_reset now hostId disable s : mon_step s (reset_monitor now hostId disable s)
| mon_remove hostId s : mon_step s (remove_monitor hostId s)
| mon_cleanup now s : mon_step s (scan_cleanup now s)
| mon_hosts hosts s :
    mon_step s (MkMon (ms_monitors s) (ms_next_monitor s) (ms_checks s) (ms_next_check s) (ms_incidents s)
                  hosts (ms_active s))
| mon_store v s : mon_step s (set_store v s).

Definition mon_init (s : mon_state) : Prop :=
  ms_monitors s = [] /\ ms_checks s = [] /\ ms_active s = [].
End Operations.

(** ** Rows over time *)

Section Rows.
Context `{PoolPolicy}.

(** Every row after a step comes from one before it, of the same host and no
    older a version, or has a new identifier. *)
Definition rows_follow (s s' : mon_state) : Prop :=
  ms_next_monitor s <= ms_next_monitor s' /\
  forall m', In m' (ms_monitors s') ->
    (exists m, In m (ms_monitors s) /\ mo_id m = mo_id m' /\ mo_host m = mo_host m' /\
       mo_version m <= mo_version m') \/
    ms_next_monitor s <= mo_id m' < ms_next_monitor s'.

Lemma rows_follow_refl s s' :
  ms_monitors s' = ms_monitors s -> ms_next_monitor s' = ms_next_monitor s -> rows_follow s s'.
Proof. intros Hm Hn. split; rewrite Hn; [lia|]. rewrite Hm. intros m Hin. left. exists m. split_and!; done || lia. Qed.

Lemma rows_follow_trans s1 s2 s3 : rows_follow s1 s2 -> rows_follow s2 s3 -> rows_follow s1 s3.
Proof.
  intros [Hn1 H1] [Hn2 H2]. split; [lia|]. intros m [(m2 & Hin & Hid & Hh & Hv)|?]%H2; [|right; lia].
  destruct (H1 m2 Hin) as [(m1 & ? & ? & ? & ?)|?]; [|right; lia].
  left. exists m1. split_and!; try done; congruence || lia.
Qed.

Lemma rows_follow_patch p f s s' :
  ms_monitors s' = patch_where p f (ms_monitors s) -> ms_next_monitor s' = ms_next_monitor s ->
  (forall m, In m (ms_monitors s) -> p m = true ->
     mo_id (f m) = mo_id m /\ mo_host (f m) = mo_host m /\ mo_version m <= mo_version (f m)) ->
  rows_follow s s'.
Proof.
  intros Hm Hn Hf. split; [lia|]. rewrite Hm. intros m' [(m & Hin & Hp & ->) | [Hin _]]%in_patch; left.
  - destruct (Hf m Hin Hp) as (? & ? & ?). eauto 7.
  - exists m'. split_and!; done || lia.
Qed.

Lemma rows_follow_delete p s s' :
  ms_monitors s' = delete_where p (ms_monitors s) -> ms_next_monitor s' = ms_next_monitor s ->
  rows_follow s s'.
Proof.
  intros Hm Hn. split; [lia|]. rewrite Hm. intros m [Hin _]%in_delete. left. exists m.
  split_and!; done || lia.
Qed.

(** The invariant of the configuration table and of the flights. *)
Record mon_inv (s : mon_state) : Prop := {
  mi_ids : List.NoDup (map mo_id (ms_monitors s));
  mi_hosts : List.NoDup (map mo_host (ms_monitors s));
  mi_fresh : forall m, In m (ms_monitors s) -> mo_id m < ms_next_monitor s;
  mi_flights : List.NoDup (map rn_host (ms_active s)) /\ (length (ms_active s) <= MAX_CONCURRENT)%nat
}.

(** A change of the table that keeps both keys of every row it keeps. *)
Definition keys_kept (s s' : mon_state) : Prop :=
  (exists p f, ms_monitors s' = patch_where p f (ms_monitors s) /\
     forall m, In m (ms_monitors s) -> p m = true -> mo_id (f m) = mo_id m /\ mo_host (f m) = mo_host m) \/
  (exists p, ms_monitors s' = delete_where p (ms_monitors s)).

Lemma map_patch_in {A K} (key : A -> K) p f t :
  (forall r, In r t -> p r = true -> key (f r) = key r) -> map key (patch_where p f t) = map key t.
Proof.
  intros Hk. unfold patch_where. rewrite map_map. apply map_ext_in. intros r Hin.
  destruct (p r) eqn:E; auto.
Qed.

Lemma mon_inv_kept s s' :
  mon_inv s -> keys_kept s s' -> rows_follow s s' ->
  List.NoDup (map rn_host (ms_active s')) -> (length (ms_active s') <= length (ms_active s))%nat ->
  mon_inv s'.
Proof.
  intros [Hi Hh Hf [_ Hlen]] Hk [Hn Hr] Hnd Hle.
  assert (forall m, In m (ms_monitors s') -> mo_id m < ms_next_monitor s') as Hfresh.
  { intros m [(m0 & Hin & <- & _)|?]%Hr; [apply Hf in Hin; lia|lia]. }
  destruct Hk as [(p & f & Hm & Hkeep)|(p & Hm)]; constructor; try done;
    try (split; [done|lia]); rewrite Hm; try by apply NoDup_map_delete.
  - rewrite map_patch_in; [done|]. intros r ? ?. by apply Hkeep.
  - rewrite map_patch_in; [done|]. intros r ? ?. by apply Hkeep.
Qed.

Lemma patch_true_id {A} (t : list A) : patch_where (fun _ => false) (fun x => x) t = t.
Proof. unfold patch_where. induction t as [|x t IH]; [done|]. simpl. by f_equal. Qed.

Lemma keys_kept_same s s' : ms_monitors s' = ms_monitors s -> keys_kept s s'.
Proof. intros Hm. left. exists (fun _ => false), (fun x => x). by rewrite patch_true_id. Qed.

Lemma abort_frame hostId s :
  ms_monitors (abort_run hostId s) = ms_monitors s /\
  ms_next_monitor (abort_run hostId s) = ms_next_monitor s /\
  map rn_host (ms_active (abort_run hostId s)) = map rn_host (ms_active s).
Proof.
  split_and!; try done. simpl. rewrite map_map. apply map_ext. intros r.
  by destruct (rn_host r =? hostId).
Qed.

Lemma abort_length hostId s : length (ms_active (abort_run hostId s)) = length (ms_active s).
Proof. simpl. apply length_map. Qed.

(** The accepted check patches rows with its own version only. *)
Lemma persist_rows now hostId config identity r checkedAt aborted s :
  mon_inv s ->
  let s' := snd (persist_transaction now hostId config identity r checkedAt aborted s) in
  rows_follow s s' /\ keys_kept s s' /\ ms_active s' = ms_active s.
Proof.
  intros Hinv. unfold persist_transaction.
  destruct (monitor_by_id (mo_id config) s) as [current|] eqn:Ec;
    [|split_and!; [by apply rows_follow_refl|by apply keys_kept_same|done]].
  destruct (live_host hostId s) as [h|]; [|split_and!; [by apply rows_follow_refl|by apply keys_kept_same|done]].
  destruct (_ || _) eqn:Eg; [split_and!; [by apply rows_follow_refl|by apply keys_kept_same|done]|].
  apply first_where_Some in Ec as [Hin Hid]. apply Z.eqb_eq in Hid.
  assert (forall m, In m (ms_monitors s) ->
            (mo_id m =? mo_id config) && (mo_version m =? mo_version config) = true -> m = current) as Hone.
  { intros m Hm Hp. boolify. destruct Hinv as [Hi _ _ _].
    apply (key_unique mo_id (ms_monitors s)); try done. congruence. }
  simpl. split_and!; [| |done].
  - eapply rows_follow_patch; [reflexivity|reflexivity|]. intros m Hm Hp.
    rewrite (Hone m Hm Hp). simpl. split_and!; done || lia.
  - left. eexists _, _. split; [reflexivity|]. intros m Hm Hp. by rewrite (Hone m Hm Hp).
Qed.

Lemma persist_attempts_cases attempt conflicts transaction s :
  let res := persist_attempts attempt conflicts transaction s in
  (fst res = Ok (fst transaction) /\ snd res = snd transaction) \/ snd res = s.
Proof.
  revert attempt. induction conflicts as [|[e b] conflicts IH]; intros attempt; simpl; [by left|].
  destruct (_ || _); [by right|]. apply IH.
Qed.

Lemma NoDup_map_filter {A K} (key : A -> K) p (t : list A) :
  List.NoDup (map key t) -> List.NoDup (map key (List.filter p t)).
Proof. apply (NoDup_map_select key p). Qed.

Lemma filter_length_le' {A} (p : A -> bool) t : (length (List.filter p t) <= length t)%nat.
Proof. induction t as [|x t IH]; simpl; [lia|]. destruct (p x); simpl; lia. Qed.

Lemma finish_rows now checkedAt r result conflicts s :
  mon_inv s ->
  let s' := snd (run_finish now checkedAt r result conflicts s) in
  rows_follow s s' /\ mon_inv s'.
Proof.
  intros Hinv. unfold run_finish, persistCheck.
  set (res := if rn_aborted r then _ else _).
  assert (rows_follow s (snd res) /\ keys_kept s (snd res) /\ ms_active (snd res) = ms_active s)
    as (Hf & Hk & Ha).
  { subst res. destruct (rn_aborted r);
      [split_and!; [by apply rows_follow_refl|by apply keys_kept_same|done]|].
    destruct (persist_attempts_cases 0 conflicts
      (persist_transaction now (rn_host r) (rn_config r) (rn_identity r) result checkedAt false s) s)
      as [[_ ->]| ->]; [by apply persist_rows|].
    split_and!; [by apply rows_follow_refl|by apply keys_kept_same|done]. }
  destruct res as [x s1]. simpl in *.
  set (s2 := set_active _ s1).
  assert (rows_follow s s2) as Hf2 by (eapply rows_follow_trans; [exact Hf|by apply rows_follow_refl]).
  split; [done|]. pose proof Hinv as [_ _ _ [Hnd Hlen]]. apply (mon_inv_kept s); try done.
  - simpl. rewrite Ha. by apply NoDup_map_filter.
  - simpl. rewrite Ha. apply filter_length_le'.
Qed.

Lemma update_write_rows hostId existing config s s' :
  mon_inv s -> update_write hostId existing config s = Ok s' ->
  rows_follow s s' /\ mon_inv s'.
Proof.
  intros Hinv. unfold update_write. destruct existing as [m|]; intros Hu; ok_inv Hu; injection Hu as <-.
  - assert (rows_follow s (set_monitors
       (patch_where (fun x => (mo_id x =? mo_id m) && (mo_version x =? mo_version m))
          (fun x => updated_row (mo_id x) (mo_host x) (Some m) config) (ms_monitors s))
       (ms_next_monitor s) s)) as Hf.
    { eapply rows_follow_patch; [reflexivity|reflexivity|]. intros x _ Hp. simpl in Hp. boolify.
      unfold updated_row. simpl. split_and!; done || lia. }
    split; [done|]. pose proof Hinv as [_ _ _ [Hnd Hlen]]. apply (mon_inv_kept s); try done.
    left. eexists _, _. split; [reflexivity|]. done.
  - split.
    + split; simpl; [lia|]. intros m' [Hin|[<-|[]]]%in_app_iff.
      * left. exists m'. split_and!; done || lia.
      * right. simpl. lia.
    + destruct Hinv as [Hi Hh Hf Hfl]. constructor; simpl; try done.
      * apply key_fresh_app; [done|]. simpl. intros (x & Hx & Hin)%in_map_iff. apply Hf in Hin. lia.
      * apply key_fresh_app; [done|]. simpl. intros (x & Hx & Hin)%in_map_iff.
        assert (existsb (fun x => mo_host x =? hostId) (ms_monitors s) = true); [|congruence].
        apply existsb_exists. exists x. split; [done|]. by apply Z.eqb_eq.
      * intros m [Hin|[<-|[]]]%in_app_iff; simpl; [apply Hf in Hin; lia|lia].
Qed.

Lemma abort_rows hostId s : mon_inv s -> rows_follow s (abort_run hostId s) /\ mon_inv (abort_run hostId s).
Proof.
  intros Hinv. destruct (abort_frame hostId s) as (Hm & Hn & Ha). split; [by apply rows_follow_refl|].
  pose proof Hinv as [_ _ _ [Hnd Hlen]]. apply (mon_inv_kept s); try done.
  - by apply keys_kept_same.
  - by apply rows_follow_refl.
  - by rewrite Ha.
  - by rewrite abort_length.
Qed.

Lemma reset_rows now hostId disable s :
  mon_inv s -> rows_follow s (reset_monitor now hostId disable s) /\ mon_inv (reset_monitor now hostId disable s).
Proof.
  intros [Hf1 Hinv]%(abort_rows hostId). unfold reset_monitor.
  destruct (monitor_of hostId (abort_run hostId s)) as [m|]; [|done].
  set (unsupported := disable && _). set (s1 := abort_run hostId s) in *.
  match goal with |- rows_follow s ?x /\ _ => assert (rows_follow s1 x) as Hf end.
  { eapply rows_follow_patch; [reflexivity|reflexivity|]. intros x _ _. simpl. split_and!; done || lia. }
  split; [exact (rows_follow_trans _ _ _ Hf1 Hf)|]. pose proof Hinv as [_ _ _ [Hnd Hlen]].
  apply (mon_inv_kept s1); try done. left. eexists _, _. split; [reflexivity|]. done.
Qed.

Lemma remove_rows hostId s :
  mon_inv s -> rows_follow s (remove_monitor hostId s) /\ mon_inv (remove_monitor hostId s).
Proof.
  intros [Hf1 Hinv]%(abort_rows hostId). unfold remove_monitor. set (s1 := abort_run hostId s) in *.
  match goal with |- rows_follow s ?x /\ _ => assert (rows_follow s1 x) as Hf end.
  { by eapply rows_follow_delete. }
  split; [exact (rows_follow_trans _ _ _ Hf1 Hf)|]. pose proof Hinv as [_ _ _ [Hnd Hlen]].
  apply (mon_inv_kept s1); try done. right. by eexists.
Qed.

Lemma remove_all_rows ids s :
  mon_inv s -> let s' := fold_left (fun s id => remove_monitor id s) ids s in
  rows_follow s s' /\ mon_inv s'.
Proof.
  revert s. induction ids as [|id ids IH]; intros s Hinv; simpl; [split; [by apply rows_follow_refl|done]|].
  destruct (remove_rows id s Hinv) as [Hf Hinv']. destruct (IH _ Hinv') as [Hf' ?].
  split; [exact (rows_follow_trans _ _ _ Hf Hf')|done].
Qed.

Lemma start_rows hostId s s' :
  mon_inv s -> run_start hostId s = Some s' -> rows_follow s s' /\ mon_inv s'.
Proof.
  intros [Hi Hh Hf [Hnd Hlen]]. unfold run_start. destruct (_ || _) eqn:Eg; [done|].
  destruct (monitor_of hostId s) as [m|]; [|done]. destruct (live_host hostId s) as [h|]; [|done].
  destruct (_ && _); [|done]. intros [= <-]. apply orb_false_iff in Eg as [Ea Ec].
  apply Nat.leb_gt in Ec. split; [by apply rows_follow_refl|]. constructor; simpl; try done.
  split; [|lia]. constructor; [|done]. intros (r & Hr & Hin)%in_map_iff.
  assert (is_active hostId s = true); [|congruence]. apply existsb_exists. exists r.
  split; [done|]. by apply Z.eqb_eq.
Qed.

Lemma mon_step_rows s s' : mon_inv s -> mon_step s s' -> rows_follow s s' /\ mon_inv s'.
Proof.
  intros Hinv Hs. destruct Hs.
  - by eapply start_rows.
  - by apply finish_rows.
  - destruct (abort_rows hostId s Hinv) as [Hf Hinv'].
    eapply update_write_rows in Hinv' as [Hf' ?]; [|done]. split; [exact (rows_follow_trans _ _ _ Hf Hf')|done].
  - unfold update_reset. destruct (restarts existing config); [|split; [by apply rows_follow_refl|done]].
    destruct (measurementChanged existing config); (split; [by apply rows_follow_refl|by destruct Hinv]).
  - by apply reset_rows.
  - by apply remove_rows.
  - unfold scan_cleanup. set (s1 := set_checks _ _ s). set (ids := firstn 200 _).
    assert (mon_inv s1) as Hinv1 by by destruct Hinv.
    destruct (remove_all_rows ids s1 Hinv1) as [Hf ?]. split; [|done].
    eapply rows_follow_trans; [|exact Hf]. by apply rows_follow_refl.
  - split; [by apply rows_follow_refl|by destruct Hinv].
  - split; [by apply rows_follow_refl|by destruct Hinv].
Qed.

Lemma mon_reachable_inv s : reachable mon_init mon_step s -> mon_inv s.
Proof.
  apply invariant_reachable; [|intros s0 s' Hinv Hs; by apply (mon_step_rows s0)].
  intros s0 (Hm & Hc & Ha). constructor; rewrite ?Hm, ?Ha; try constructor; try constructor; simpl; try done; lia.
Qed.
End Rows.

(** ** History *)

Definition newer (a b : check_row) : Prop := ck_id a < ck_id b.
Definition in_order (t : list check_row) : Prop := StronglySorted newer t.

(** The last [n] elements. *)
Definition lastn {A} (n : nat) (xs : list A) : list A := skipn (length xs - n) xs.

Lemma lastn_length {A} n (xs : list A) : (length (lastn n xs) <= n)%nat.
Proof. unfold lastn. rewrite length_skipn. lia. Qed.

Lemma in_order_split l1 b l2 :
  in_order (l1 ++ b :: l2) -> Forall (fun x => newer x b) l1 /\ Forall (fun x => newer b x) l2.
Proof.
  unfold in_order. induction l1 as [|x l1 IH]; simpl; intros Hs; inversion Hs as [|? ? Hs' Hall]; subst.
  - by split; [constructor|].
  - destruct (IH Hs') as [H1 H2]. split; [|done]. constructor; [|done].
    apply Forall_app in Hall as [_ Hb]. by inversion Hb.
Qed.

Lemma in_order_filter p t : in_order t -> in_order (List.filter p t).
Proof.
  unfold in_order. induction 1 as [|x t Hs IH Hall]; simpl; [constructor|].
  destruct (p x); [|done]. constructor; [done|].
  rewrite Forall_forall in Hall |- *. intros y Hy. apply Hall.
  apply list_elem_of_In in Hy. apply list_elem_of_In. by apply filter_In in Hy as [? _].
Qed.

Lemma in_order_snoc t x : in_order t -> (forall y, In y t -> newer y x) -> in_order (t ++ [x]).
Proof.
  unfold in_order. induction 1 as [|y t Hs IH Hall]; simpl; intros Hx.
  - repeat constructor.
  - constructor; [by auto|]. apply Forall_app. split; [done|]. repeat constructor. auto.
Qed.

Lemma filter_all {A} (p : A -> bool) t : Forall (fun x => p x = true) t -> List.filter p t = t.
Proof. induction 1 as [|x t Hx _ IH]; [done|]. simpl. rewrite Hx. by f_equal. Qed.
Lemma filter_none {A} (p : A -> bool) t : Forall (fun x => p x = false) t -> List.filter p t = [].
Proof. induction 1 as [|x t Hx _ IH]; [done|]. simpl. by rewrite Hx. Qed.

(** Keeping the rows from the boundary on keeps the last hundred. *)
Lemma boundary_lastn R :
  in_order R ->
  List.filter (fun r => negb (match nth_error (List.rev R) (MAX_HISTORY - 1) with
                              | Some b => ck_id r <? ck_id b | None => false end)) R
  = lastn MAX_HISTORY R.
Proof.
  intros Hs. unfold lastn, MAX_HISTORY. rewrite nth_error_rev.
  destruct (Nat.ltb_spec (100 - 1) (length R)) as [Hlt|Hge].
  - destruct (nth_error R (length R - S (100 - 1))) as [b|] eqn:En.
    2: { apply nth_error_None in En. lia. }
    apply nth_error_split in En as (l1 & l2 & HR & Hl). subst R.
    apply in_order_split in Hs as [H1 H2].
    replace (length (l1 ++ b :: l2) - 100)%nat with (length l1) by lia.
    rewrite List.filter_app, skipn_app, skipn_all, Nat.sub_diag. simpl.
    rewrite Z.ltb_irrefl. simpl. rewrite filter_none, filter_all; [done| |].
    + eapply Forall_impl; [exact H2|]. intros x Hx. apply negb_true_iff, Z.ltb_ge. unfold newer in Hx. lia.
    + eapply Forall_impl; [exact H1|]. intros x Hx. apply negb_false_iff, Z.ltb_lt. unfold newer in Hx. lia.
  - replace (length R - 100)%nat with O by lia. apply filter_all.
    apply Forall_forall. done.
Qed.

Definition of_host_rows (hostId : Z) (r : check_row) : bool := ck_host r =? hostId.
Definition recent_rows (now hostId : Z) (r : check_row) : bool :=
  (ck_host r =? hostId) && (retention_cutoff now <=? ck_checked_at r).

Lemma filter_filter {A} (p q : A -> bool) t :
  List.filter p (List.filter q t) = List.filter (fun x => q x && p x) t.
Proof.
  induction t as [|x t IH]; [done|]. simpl. destruct (q x); simpl; [|done].
  destruct (p x); by rewrite IH.
Qed.

Lemma prune_spec now hostId t :
  in_order t ->
  select_where (of_host_rows hostId) (pruneHistory now hostId t) =
    lastn MAX_HISTORY (select_where (recent_rows now hostId) t) /\
  delete_where (of_host_rows hostId) (pruneHistory now hostId t) = delete_where (of_host_rows hostId) t.
Proof.
  intros Hs. unfold pruneHistory, delete_where, select_where. rewrite !filter_filter. split.
  - rewrite <- boundary_lastn by by apply in_order_filter. rewrite filter_filter.
    apply List.filter_ext. intros r. unfold of_host_rows, recent_rows, history_boundary, select_where.
    set (b := nth_error _ _). rewrite Z.ltb_antisym.
    destruct (ck_host r =? hostId), (retention_cutoff now <=? ck_checked_at r); simpl; try done;
      by rewrite ?andb_true_r.
  - apply List.filter_ext. intros r. unfold of_host_rows.
    by destruct (ck_host r =? hostId); simpl; rewrite ?andb_false_r.
Qed.

Section HistoryInvariant.
Context `{PoolPolicy}.

(** The history is in order, its identifiers are used up, and no host has
    more than a hundred rows. *)
Definition checks_ok (t : list check_row) (next : Z) : Prop :=
  in_order t /\ (forall r, In r t -> ck_id r < next) /\
  forall hostId, (length (select_where (of_host_rows hostId) t) <= MAX_HISTORY)%nat.

Lemma checks_ok_delete p t next : checks_ok t next -> checks_ok (delete_where p t) next.
Proof.
  intros (Hs & Hf & Hl). split_and!.
  - by apply in_order_filter.
  - intros r [Hin _]%in_delete. auto.
  - intros hostId. etrans; [|apply (Hl hostId)]. unfold select_where, delete_where.
    clear. induction t as [|x t IH]; [done|]. simpl.
    destruct (p x), (of_host_rows hostId x) eqn:E; simpl; rewrite ?E; simpl; lia.
Qed.

Lemma select_other hostId hostId' t :
  hostId' <> hostId ->
  select_where (of_host_rows hostId') t =
  select_where (of_host_rows hostId') (delete_where (of_host_rows hostId) t).
Proof.
  intros Hne. unfold select_where, delete_where. rewrite filter_filter. apply List.filter_ext.
  intros r. unfold of_host_rows. destruct (Z.eqb_spec (ck_host r) hostId') as [->|];
    [|by rewrite andb_false_r]. by destruct (Z.eqb_spec hostId' hostId).
Qed.

Lemma checks_ok_append now t next check :
  checks_ok t next -> ck_id check = next ->
  checks_ok (pruneHistory now (ck_host check) (t ++ [check])) (next + 1).
Proof.
  intros (Hs & Hf & Hl) Hid.
  assert (in_order (t ++ [check])) as Hs'.
  { apply in_order_snoc; [done|]. intros y Hy. unfold newer. rewrite Hid. by apply Hf. }
  destruct (prune_spec now (ck_host check) _ Hs') as [Hown Hother]. split_and!.
  - by apply in_order_filter.
  - intros r [Hin _]%in_delete. apply in_app_iff in Hin as [Hin|[<-|[]]]; [apply Hf in Hin|]; lia.
  - intros hostId. destruct (decide (hostId = ck_host check)) as [->|Hne].
    + rewrite Hown. apply lastn_length.
    + rewrite (select_other (ck_host check)), Hother by done.
      rewrite <- (select_other (ck_host check)) by done. unfold select_where. rewrite List.filter_app. simpl.
      unfold of_host_rows at 2. destruct (Z.eqb_spec (ck_host check) hostId); [congruence|].
      rewrite app_nil_r. apply Hl.
Qed.

Lemma persist_checks now hostId config identity r checkedAt aborted s :
  checks_ok (ms_checks s) (ms_next_check s) ->
  let s' := snd (persist_transaction now hostId config identity r checkedAt aborted s) in
  checks_ok (ms_checks s') (ms_next_check s').
Proof.
  intros Hok. unfold persist_transaction.
  destruct (monitor_by_id _ s) as [current|]; [|done]. destruct (live_host hostId s); [|done].
  destruct (_ || _); [done|]. simpl.
  by apply (checks_ok_append now _ _ (MkCheck (ms_next_check s) hostId checkedAt r _)).
Qed.

Lemma remove_checks hostId s :
  checks_ok (ms_checks s) (ms_next_check s) ->
  checks_ok (ms_checks (remove_monitor hostId s)) (ms_next_check (remove_monitor hostId s)).
Proof. intros. by apply checks_ok_delete. Qed.

Lemma mon_step_checks s s' :
  checks_ok (ms_checks s) (ms_next_check s) -> mon_step s s' ->
  checks_ok (ms_checks s') (ms_next_check s').
Proof.
  intros Hok Hs. destruct Hs; try done.
  - revert H0. unfold run_start. destruct (_ || _); [done|]. destruct (monitor_of _ _); [|done].
    destruct (live_host _ _); [|done]. destruct (_ && _); [|done]. by intros [= <-].
  - unfold run_finish, persistCheck. destruct (rn_aborted r); [done|].
    destruct (persist_attempts_cases 0 conflicts
      (persist_transaction now (rn_host r) (rn_config r) (rn_identity r) result checkedAt false s) s) as [[_ Hx]|Hx];
      destruct (persist_attempts _ _ _ _) as [x s1]; simpl in *; rewrite Hx; [|done].
    by apply persist_checks.
  - revert H1. unfold update_write. destruct existing; intros Hu; ok_inv Hu; by injection Hu as <-.
  - unfold update_reset. destruct (restarts _ _); [|done]. destruct (measurementChanged _ _); [|done].
    by apply checks_ok_delete.
  - unfold reset_monitor. destruct (monitor_of _ _); [|done]. by apply checks_ok_delete.
  - by apply remove_checks.
  - unfold scan_cleanup. set (s1 := set_checks _ _ s). set (ids := firstn 200 _). clearbody ids.
    assert (checks_ok (ms_checks s1) (ms_next_check s1)) as Hok1 by by apply checks_ok_delete.
    clearbody s1. revert s1 Hok1. induction ids as [|id ids IH]; intros s1 Hok1; [done|].
    simpl. apply IH. by apply remove_checks.
Qed.

Lemma mon_reachable_checks s :
  reachable mon_init mon_step s -> checks_ok (ms_checks s) (ms_next_check s).
Proof.
  apply (invariant_reachable mon_init mon_step (fun s => checks_ok (ms_checks s) (ms_next_check s)));
    [|apply mon_step_checks].
  intros s0 (_ & -> & _). split_and!; [constructor|by intros ? []|]. simpl. lia.
Qed.
End HistoryInvariant.

(** ** Properties *)

Section Properties.
Context `{PoolPolicy}.

(** The three ways a host's measurement is redefined. *)
Inductive reconfigures (cfg : monitor) (s s' : mon_state) : Prop :=
| rc_update m config :
    mo_id m = mo_id cfg ->
    update_write (mo_host cfg) (Some m) config (abort_run (mo_host cfg) s) = Ok s' -> reconfigures cfg s s'
| rc_reset now disable : s' = reset_monitor now (mo_host cfg) disable s -> reconfigures cfg s s'
| rc_remove : s' = remove_monitor (mo_host cfg) s -> reconfigures cfg s s'.

(** Every row that still has the snapshot's identifier has this version or a
    later one. *)
Definition at_least (cfg : monitor) (v : Z) (s : mon_state) : Prop :=
  mo_id cfg < ms_next_monitor s /\
  forall m, In m (ms_monitors s) -> mo_id m = mo_id cfg ->
    mo_host m = mo_host cfg /\ v <= mo_version m.

Lemma at_least_follow cfg v s s' : at_least cfg v s -> rows_follow s s' -> at_least cfg v s'.
Proof.
  intros [Hn Hall] [Hn' Hr]. split; [lia|]. intros m' [(m & Hin & Hid & Hh & Hv)|?]%Hr Heq; [|lia].
  destruct (Hall m Hin) as [? ?]; [congruence|]. split; [congruence|lia].
Qed.

Lemma at_least_steps cfg v s s' :
  mon_inv s -> at_least cfg v s -> rtc mon_step s s' -> mon_inv s' /\ at_least cfg v s'.
Proof.
  intros Hinv Ha Hs. induction Hs as [s|s s1 s' Hstep _ IH]; [done|].
  destruct (mon_step_rows _ _ Hinv Hstep) as [Hf Hinv']. apply IH; [done|].
  by eapply at_least_follow.
Qed.

(** Reconfiguring moves the version of the row on, or removes the row. *)
Lemma reconfigures_moves_on cfg s s' :
  mon_inv s -> at_least cfg (mo_version cfg) s -> reconfigures cfg s s' ->
  mon_inv s' /\ at_least cfg (mo_version cfg + 1) s'.
Proof.
  intros Hinv Ha Hrc.
  destruct (abort_rows (mo_host cfg) s Hinv) as [Hfa Hinva].
  pose proof (at_least_follow _ _ _ _ Ha Hfa) as [Hna Halla].
  set (s1 := abort_run (mo_host cfg) s) in *.
  destruct Hrc as [m config Hid Hu|now disable ->| ->].
  - destruct (update_write_rows _ _ _ _ _ Hinva Hu) as [Hf Hinv']. split; [done|].
    split; [destruct Hf as [Hn _]; lia|].
    unfold update_write in Hu. ok_inv Hu. injection Hu as <-. simpl.
    apply Nat.eqb_neq in G.
    intros m' Hin Heq. apply in_patch in Hin as [(x & Hin & Hp & ->) | [Hin Hp]]; simpl in *.
    + boolify. destruct (Halla x Hin) as [? ?]; [congruence|]. split; [done|]. lia.
    + destruct (Halla m' Hin Heq) as [Hh Hv]. split; [done|].
      (* The patched row has the same identifier, so it is this one. *)
      exfalso. apply G. apply count_where_zero. intros y Hy.
      destruct ((mo_id y =? mo_id m) && (mo_version y =? mo_version m)) eqn:E; [|done]. boolify.
      assert (y = m') as -> by (apply (key_unique mo_id (ms_monitors s1)); try done; [by destruct Hinva|congruence]).
      rewrite H0, H1, !Z.eqb_refl in Hp. done.
  - destruct (reset_rows now (mo_host cfg) disable s Hinv) as [Hf Hinv']. split; [done|].
    pose proof (at_least_follow _ _ _ _ Ha Hf) as [Hn Hall]. split; [done|].
    intros m' Hin Heq. destruct (Hall m' Hin Heq) as [Hh Hv]. split; [done|].
    revert Hin. unfold reset_monitor. fold s1.
    destruct (monitor_of (mo_host cfg) s1) as [x|] eqn:Ex.
    + simpl. intros [(y & Hy & Hp & ->) | [Hin Hp]]%in_patch; simpl in *.
      * boolify. destruct (Halla y Hy) as [_ ?]; [done|]. lia.
      * apply first_where_Some in Ex as [Hx Hxh]. simpl in Hxh. apply Z.eqb_eq in Hxh.
        assert (x = m') as -> by (apply (key_unique mo_host (ms_monitors s1)); try done; [by destruct Hinva|congruence]).
        by rewrite Z.eqb_refl in Hp.
    + intros Hin. apply (first_where_None _ _ m') in Ex; [|done]. simpl in Ex. apply Z.eqb_neq in Ex. congruence.
  - destruct (remove_rows (mo_host cfg) s Hinv) as [Hf Hinv']. split; [done|].
    pose proof (at_least_follow _ _ _ _ Ha Hf) as [Hn Hall]. split; [done|].
    intros m' Hin Heq. exfalso. destruct (Hall m' Hin Heq) as [Hh _].
    revert Hin. unfold remove_monitor. simpl. intros [_ Hp]%in_delete. simpl in Hp.
    apply Z.eqb_neq in Hp. congruence.
Qed.

(** A check never overwrites a newer configuration.  If a check took its
    snapshot of a monitor, and the monitor was then edited, reset or removed
    in any way while other checks, edits, scans and host changes went on, the
    late result is dropped: nothing is stored, no incident is touched and no
    alert is decided, however often the database makes it retry. *)
Theorem stale_check_is_discarded s0 s1 s2 s cfg now identity r checkedAt aborted conflicts :
  reachable mon_init mon_step s0 -> In cfg (ms_monitors s0) ->
  rtc mon_step s0 s1 -> reconfigures cfg s1 s2 -> rtc mon_step s2 s ->
  let '(res, s') := persistCheck now (mo_host cfg) cfg identity r checkedAt aborted conflicts s in
  s' = s /\ forall acc, res <> Ok (Some acc).
Proof.
  intros Hinv0%mon_reachable_inv Hin H01 Hrc H2s.
  assert (at_least cfg (mo_version cfg) s0) as Ha0.
  { split; [by apply (mi_fresh _ Hinv0)|]. intros m Hm Hid.
    assert (m = cfg) as -> by (apply (key_unique mo_id (ms_monitors s0)); try done; by destruct Hinv0).
    split; [done|lia]. }
  destruct (at_least_steps _ _ _ _ Hinv0 Ha0 H01) as [Hinv1 Ha1].
  destruct (reconfigures_moves_on _ _ _ Hinv1 Ha1 Hrc) as [Hinv2 Ha2].
  destruct (at_least_steps _ _ _ _ Hinv2 Ha2 H2s) as [Hinv Ha].
  assert (persist_transaction now (mo_host cfg) cfg identity r checkedAt aborted s = (None, s)) as Hp.
  { unfold persist_transaction. destruct (monitor_by_id (mo_id cfg) s) as [m|] eqn:Em; [|done].
    destruct (live_host _ s); [|done].
    apply first_where_Some in Em as [Hm Hid]. apply Z.eqb_eq in Hid.
    destruct Ha as [_ Ha]. destruct (Ha m Hm Hid) as [_ Hv].
    replace (mo_version m =? mo_version cfg) with false by (symmetry; apply Z.eqb_neq; lia).
    simpl. by rewrite orb_true_r. }
  unfold persistCheck. destruct aborted; [done|]. rewrite Hp.
  clear. generalize 0%nat. induction conflicts as [|[e b] conflicts IH]; intros attempt; simpl; [done|].
  destruct (_ || _); [done|apply IH].
Qed.

(** An accepted check leaves its host with exactly the last hundred of
    its checks of the past thirty days, the new one included, and leaves the
    history of other hosts alone; so in every reachable state no host has
    more than a hundred. *)
Theorem history_keeps_the_latest_hundred s now hostId config identity r checkedAt aborted acc s' :
  reachable mon_init mon_step s ->
  persist_transaction now hostId config identity r checkedAt aborted s = (Some acc, s') ->
  let check := MkCheck (ms_next_check s) hostId checkedAt r (ac_transition acc) in
  select_where (of_host_rows hostId) (ms_checks s') =
    lastn 100 (select_where (recent_rows now hostId) (ms_checks s ++ [check])) /\
  delete_where (of_host_rows hostId) (ms_checks s') = delete_where (of_host_rows hostId) (ms_checks s) /\
  forall h, (length (select_where (of_host_rows h) (ms_checks s')) <= 100)%nat.
Proof.
  intros Hok%mon_reachable_checks Hp check.
  pose proof (persist_checks now hostId config identity r checkedAt aborted s Hok) as (_ & _ & Hl).
  rewrite Hp in Hl. simpl in Hl. revert Hp. unfold persist_transaction.
  destruct (monitor_by_id _ s) as [current|]; [|done]. destruct (live_host hostId s) as [h|]; [|done].
  destruct (_ || _); [done|]. intros [= <- <-]. simpl in *.
  destruct Hok as (Hs & Hf & _).
  assert (in_order (ms_checks s ++ [check])) as Hs'.
  { apply in_order_snoc; [done|]. intros y Hy. unfold newer. simpl. by apply Hf. }
  destruct (prune_spec now hostId _ Hs') as [Hown Hother]. split_and!; try done.
  etrans; [exact Hother|]. unfold delete_where. rewrite List.filter_app. simpl. unfold of_host_rows at 2. simpl.
  by rewrite Z.eqb_refl, app_nil_r.
Qed.
End Properties.

(** ** A concrete monitor *)

Section DemoMonitor.
Definition no_pools : PoolPolicy := {| pool_enabled := fun _ => false; pool_key := fun h => mh_forward_scheme h |}.
#[local] Existing Instance no_pools.

Definition mon_empty : mon_state := MkMon [] 1 [] 1 demo_store [demo_mon_host] [].
Definition mon_configured : mon_state :=
  set_monitors [updated_row 1 1 None demo_settings] 2 mon_empty.
Definition demo_cfg : monitor := updated_row 1 1 None demo_settings.
Definition mon_later : mon_state := reset_monitor 5000 1 false mon_configured.

Lemma mon_configured_reachable : reachable mon_init mon_step mon_configured.
Proof.
  eapply reachable_step;
    [apply (reachable_init _ _ mon_empty); by repeat split
    |by apply (mon_update_write 1 None demo_settings mon_empty)].
Defined.

Lemma stale_check_is_discarded_witness :
  persistCheck 9000 1 demo_cfg ("https", resolveTarget demo_mon_host demo_settings)
    (result_of Up) 8000 false [] mon_later = (Ok None, mon_later) /\
  snd (persistCheck 9000 1 demo_cfg ("https", resolveTarget demo_mon_host demo_settings)
    (result_of Up) 8000 false [] mon_configured) <> mon_configured.
Proof.
  split; [|discriminate].
  pose proof (stale_check_is_discarded mon_configured mon_configured mon_later mon_later demo_cfg 9000
    ("https", resolveTarget demo_mon_host demo_settings) (result_of Up) 8000 false []
    mon_configured_reachable (or_introl eq_refl) (rtc_refl _ _) (rc_reset _ _ _ 5000 false eq_refl)
    (rtc_refl _ _)) as Hs.
  change (mo_host demo_cfg) with 1 in Hs.
  destruct (persistCheck _ _ _ _ _ _ _ _ mon_later) as [res s'] eqn:E.
  destruct Hs as [-> Hs]. f_equal. vm_compute in E. by injection E as <-.
Defined.

Lemma history_keeps_the_latest_hundred_witness :
  exists acc s', persist_transaction 9000 1 demo_cfg ("https", resolveTarget demo_mon_host demo_settings)
    (result_of Up) 8000 false mon_configured = (Some acc, s') /\
  select_where (of_host_rows 1) (ms_checks s') = [MkCheck 1 1 8000 (result_of Up) true].
Proof.
  eexists _, _. split; [vm_compute; reflexivity|].
  edestruct (history_keeps_the_latest_hundred mon_configured 9000 1 demo_cfg
    ("https", resolveTarget demo_mon_host demo_settings) (result_of Up) 8000 false) as (Hown & _);
    [apply mon_configured_reachable|vm_compute; reflexivity|].
  etransitivity; [exact Hown|vm_compute; reflexivity].
Defined.
End DemoMonitor.
