(* ===== verification/Wireguard.v ===== *)
(** The WireGuard tunnel of src/backend/internal/wireguard.js: server
    settings, peers and their tunnel addresses, the rendered server and client
    configurations, and the handlers, which run one after another
    ([serializeConfigurationChange]).

    The key files are in WireguardKeys.v, the live status in
    WireguardStatus.v.  ipaddr.js is a parameter with its documented laws; so
    are the commands the handlers run, collected in an environment. *)

From S2P Require Import Prelude JsString JsValue Errors MonitorSettings.
#[local] Open Scope string_scope.
#[local] Open Scope list_scope.
#[local] Open Scope Z_scope.

(** ** ipaddr.js *)

(** An IPv4 address is its four octets. *)
Record ipv4 : Type := MkIPv4 { oct_a : Z; oct_b : Z; oct_c : Z; oct_d : Z }.

Definition dotted (a : ipv4) : string :=
  (show_Z (oct_a a) ++ "." ++ show_Z (oct_b a) ++ "." ++ show_Z (oct_c a) ++ "." ++ show_Z (oct_d a))%string.

Class Ipaddr : Type := {
  IPv4_parse : string -> option ipv4;
  IPv4_parseCIDR : string -> option (ipv4 * Z);
  IPv4_toString : ipv4 -> string;
  IPv4_match : ipv4 -> ipv4 * Z -> bool;
  parseCIDR_ok : string -> bool;
  isValid : string -> bool;
  is_ipv6 : string -> bool
}.

Definition octet (n : Z) : Prop := 0 <= n < 256.
Definition in_octets (a : ipv4) : Prop := octet (oct_a a) /\ octet (oct_b a) /\ octet (oct_c a) /\ octet (oct_d a).
Definition same_24 (a b : ipv4) : Prop := oct_a a = oct_a b /\ oct_b a = oct_b b /\ oct_c a = oct_c b.

(** The documented behaviour the handlers rely on. *)
Class IpaddrLaws `{Ipaddr} : Prop := {
  parseCIDR_octets : forall s a p, IPv4_parseCIDR s = Some (a, p) -> in_octets a;
  toString_dotted : forall a, IPv4_toString a = dotted a;
  parse_dotted : forall a, in_octets a -> IPv4_parse (dotted a) = Some a;
  match_24 : forall a b, IPv4_match a (b, 24) = true <-> same_24 a b
}.

(** ** Constants *)

Definition WG_INTERFACE : string := "wg0".
Definition firewall_post_up : string := join "; " [
  "sysctl -w net.ipv4.conf.all.rp_filter=0";
  "sysctl -w net.ipv4.conf.wg0.rp_filter=0";
  "iptables -N SHIELDPM_WG_INPUT 2>/dev/null || true";
  "iptables -N SHIELDPM_WG_FORWARD 2>/dev/null || true";
  "iptables -t nat -N SHIELDPM_WG_NAT 2>/dev/null || true";
  "iptables -t mangle -N SHIELDPM_WG_MANGLE_POST 2>/dev/null || true";
  "iptables -t mangle -N SHIELDPM_WG_MANGLE_FORWARD 2>/dev/null || true";
  "iptables -F SHIELDPM_WG_INPUT";
  "iptables -F SHIELDPM_WG_FORWARD";
  "iptables -t nat -F SHIELDPM_WG_NAT";
  "iptables -t mangle -F SHIELDPM_WG_MANGLE_POST";
  "iptables -t mangle -F SHIELDPM_WG_MANGLE_FORWARD";
  "iptables -C INPUT -j SHIELDPM_WG_INPUT 2>/dev/null || iptables -I INPUT -j SHIELDPM_WG_INPUT";
  "iptables -C FORWARD -j SHIELDPM_WG_FORWARD 2>/dev/null || iptables -I FORWARD -j SHIELDPM_WG_FORWARD";
  "iptables -t nat -C POSTROUTING -j SHIELDPM_WG_NAT 2>/dev/null || iptables -t nat -I POSTROUTING -j SHIELDPM_WG_NAT";
  "iptables -t mangle -C POSTROUTING -j SHIELDPM_WG_MANGLE_POST 2>/dev/null || iptables -t mangle -I POSTROUTING -j SHIELDPM_WG_MANGLE_POST";
  "iptables -t mangle -C FORWARD -j SHIELDPM_WG_MANGLE_FORWARD 2>/dev/null || iptables -t mangle -I FORWARD -j SHIELDPM_WG_MANGLE_FORWARD";
  "iptables -A SHIELDPM_WG_INPUT -i wg0 -j ACCEPT";
  "iptables -A SHIELDPM_WG_FORWARD -i wg0 -j ACCEPT";
  "iptables -t nat -A SHIELDPM_WG_NAT -o eth0 -j MASQUERADE";
  "iptables -t mangle -A SHIELDPM_WG_MANGLE_POST -o wg0 -p tcp -m tcp --tcp-flags SYN,RST SYN -j TCPMSS --clamp-mss-to-pmtu";
  "iptables -t mangle -A SHIELDPM_WG_MANGLE_FORWARD -i wg0 -p tcp -m tcp --tcp-flags SYN,RST SYN -j TCPMSS --clamp-mss-to-pmtu"].

Definition firewall_post_down : string := join "; " [
  "iptables -D INPUT -j SHIELDPM_WG_INPUT 2>/dev/null || true";
  "iptables -D FORWARD -j SHIELDPM_WG_FORWARD 2>/dev/null || true";
  "iptables -t nat -D POSTROUTING -j SHIELDPM_WG_NAT 2>/dev/null || true";
  "iptables -t mangle -D POSTROUTING -j SHIELDPM_WG_MANGLE_POST 2>/dev/null || true";
  "iptables -t mangle -D FORWARD -j SHIELDPM_WG_MANGLE_FORWARD 2>/dev/null || true";
  "iptables -F SHIELDPM_WG_INPUT 2>/dev/null || true";
  "iptables -F SHIELDPM_WG_FORWARD 2>/dev/null || true";
  "iptables -t nat -F SHIELDPM_WG_NAT 2>/dev/null || true";
  "iptables -t mangle -F SHIELDPM_WG_MANGLE_POST 2>/dev/null || true";
  "iptables -t mangle -F SHIELDPM_WG_MANGLE_FORWARD 2>/dev/null || true";
  "iptables -X SHIELDPM_WG_INPUT 2>/dev/null || true";
  "iptables -X SHIELDPM_WG_FORWARD 2>/dev/null || true";
  "iptables -t nat -X SHIELDPM_WG_NAT 2>/dev/null || true";
  "iptables -t mangle -X SHIELDPM_WG_MANGLE_POST 2>/dev/null || true";
  "iptables -t mangle -X SHIELDPM_WG_MANGLE_FORWARD 2>/dev/null || true"].

(** ** Data *)

Record wg_settings : Type := MkWgSettings {
  wg_endpoint : string;
  wg_listen_port : Z;
  wg_subnet : string;
  wg_server_address : string
}.

Definition DEFAULTS : wg_settings := MkWgSettings "" 51820 "10.8.0.0/24" "10.8.0.1/24".

(** A row of [wireguard_peer], its keys decrypted. *)
Record wg_peer : Type := MkPeer {
  pe_id : Z;
  pe_name : string;
  pe_description : value;
  pe_client_address : string;
  pe_client_public_key : string;
  pe_client_private_key : string;
  pe_preshared_key : string;
  pe_server_public_key : string;
  pe_endpoint : option string;
  pe_allowed_ips : string;
  pe_keepalive : Z;
  pe_dns : option string;
  pe_status : Z;
  pe_is_deleted : bool;
  pe_owner : Z
}.

(** The [setting] row of the tunnel (the value its JSON denotes), the peers,
    the key files, the rendered file and the commands run so far. *)
Record wg_state : Type := MkWgState {
  ws_meta : option value;
  ws_peers : list wg_peer;
  ws_next : Z;
  ws_private : option string;
  ws_public : option string;
  ws_conf : option string;
  ws_commands : list string
}.

(** What the system answers while a handler runs: the availability of the
    tools, fresh keys, whether the file can be written, the two probes of the
    interface and the commands that succeed. *)
Record wg_env : Type := MkEnv {
  ev_available : bool;
  ev_server_keys : fallible (string * string);
  ev_pubkey : string -> fallible string;
  ev_client_keys : fallible (string * string);
  ev_preshared : fallible string;
  ev_can_write : bool;
  ev_up1 : bool;
  ev_up2 : bool;
  ev_exec : list string -> string -> bool
}.

Definition set_meta v (s : wg_state) : wg_state :=
  MkWgState v (ws_peers s) (ws_next s) (ws_private s) (ws_public s) (ws_conf s) (ws_commands s).
Definition set_peers v n (s : wg_state) : wg_state :=
  MkWgState (ws_meta s) v n (ws_private s) (ws_public s) (ws_conf s) (ws_commands s).
Definition set_keys priv pub (s : wg_state) : wg_state :=
  MkWgState (ws_meta s) (ws_peers s) (ws_next s) priv pub (ws_conf s) (ws_commands s).
Definition set_conf v (s : wg_state) : wg_state :=
  MkWgState (ws_meta s) (ws_peers s) (ws_next s) (ws_private s) (ws_public s) v (ws_commands s).
Definition set_commands v (s : wg_state) : wg_state :=
  MkWgState (ws_meta s) (ws_peers s) (ws_next s) (ws_private s) (ws_public s) (ws_conf s) v.

Definition live_peers (s : wg_state) : list wg_peer := select_where (fun p => negb (pe_is_deleted p)) (ws_peers s).

Section Wireguard.
Context `{Ipaddr}.

(** ** Validation *)

Definition is_control_point (c : ascii) : bool := (code c <=? 31) || (code c =? 127).
Definition hasControlCharacters (s : string) : bool := any_char is_control_point s.

Definition bad_line (v : value) : bool :=
  negb (is_nullish v) && match v with VStr s => hasControlCharacters s | _ => true end.

Definition validatePeerSettings (data : value) : fallible unit :=
  throw ValidationError "WireGuard name must be a single-line string." when (bad_line (get "name" data)) ;;
  throw ValidationError "WireGuard dns must be a single-line string." when (bad_line (get "dns" data)) ;;
  throw ValidationError "WireGuard allowed_ips must be a single-line string."
    when (bad_line (get "allowed_ips" data)) ;;
  throw ValidationError "WireGuard allowed_ips must contain valid CIDRs."
    when (match get "allowed_ips" data with
          | VUndef => false
          | VStr s => negb (forallb (fun cidr => parseCIDR_ok (trim cidr)) (split_on ","%char s))
          | _ => true
          end) ;;
  throw_if (negb (is_undef (get "persistent_keepalive" data)) &&
            negb (int_between 0 65535 (get "persistent_keepalive" data)))
    (ValidationError "WireGuard persistent_keepalive must be an integer from 0 to 65535.").

(** [value.split("/")[0]] *)
Definition before_slash (s : string) : string :=
  match split_on "/"%char s with first :: _ => first | [] => s end.

Definition validateIpv4Cidr (v : value) (field : string) : fallible (ipv4 * Z) :=
  let must := ("WireGuard " ++ field ++ " must be an IPv4 CIDR.")%string in
  match v with
  | VStr s =>
      throw ValidationError must when (negb (String.eqb (trim s) s) || hasControlCharacters s) ;;
      match IPv4_parseCIDR s with
      | Some (address, prefix) =>
          throw ValidationError ("WireGuard " ++ field ++ " must use canonical dotted IPv4 notation.")
            when (negb (String.eqb (IPv4_toString address) (before_slash s))) ;;
          throw ValidationError ("WireGuard " ++ field ++ " must be an IPv4 /24 CIDR.")
            when (negb (prefix =? 24)) ;;
          Ok (address, prefix)
      | None => Throw (ValidationError must)
      end
  | _ => Throw (ValidationError must)
  end.

Definition WIREGUARD_SETTING_KEYS : list string := ["endpoint"; "listen_port"; "subnet"; "server_address"].

Definition hostnamePattern (s : string) : bool :=
  (1 <=? strlen s) && (strlen s <=? 253) &&
  forallb (fun label => label_shape label && (strlen label <=? 63)) (split_on "."%char s).

Definition bad_endpoint (v : value) : bool :=
  match v with
  | VStr s => negb (String.eqb (trim s) s) || hasControlCharacters s
              || (negb (String.eqb s "") && negb (isValid s) && negb (hostnamePattern s))
  | _ => true
  end.

Definition optional_cidr (v : value) (field : string) : fallible (option (ipv4 * Z)) :=
  if is_undef v then Ok None else rmap Some (validateIpv4Cidr v field).

Definition validateWireguardSettings (data : value) (requireValues : bool) : fallible unit :=
  throw ValidationError "WireGuard settings must be an object." when (negb (is_object data)) ;;
  throw ValidationError "At least one WireGuard setting is required."
    when (requireValues && match keys_of data with [] => true | _ => false end) ;;
  let? _ := match List.find (fun k => negb (includes_key WIREGUARD_SETTING_KEYS k)) (keys_of data) with
            | Some k => Throw (ValidationError ("Unsupported WireGuard setting: " ++ k))
            | None => Ok tt
            end in
  throw ValidationError "WireGuard endpoint must be an IP address, hostname, or empty."
    when (negb (is_undef (get "endpoint" data)) && bad_endpoint (get "endpoint" data)) ;;
  throw ValidationError "WireGuard listen_port must be an integer from 1 to 65535."
    when (negb (is_undef (get "listen_port" data)) && negb (int_between 1 65535 (get "listen_port" data))) ;;
  let? subnet := optional_cidr (get "subnet" data) "subnet" in
  let? serverAddress := optional_cidr (get "server_address" data) "server_address" in
  match subnet, serverAddress with
  | Some net, Some (address, prefix) =>
      throw_if (negb (snd net =? prefix) || negb (IPv4_match address net))
        (ValidationError "WireGuard server_address must belong to the configured subnet.")
  | _, _ => Ok tt
  end.

(** ** Settings *)

Definition settings_value (s : wg_settings) : value :=
  VObj [("endpoint", VStr (wg_endpoint s)); ("listen_port", VInt (wg_listen_port s));
        ("subnet", VStr (wg_subnet s)); ("server_address", VStr (wg_server_address s))].

(** [meta.k || d] *)
Definition truthy_or (v d : value) : value := if js_truthy v then v else d.

Definition stored_settings (meta : value) : value :=
  VObj [("endpoint", truthy_or (get "endpoint" meta) (VStr (wg_endpoint DEFAULTS)));
        ("listen_port", truthy_or (get "listen_port" meta) (VInt (wg_listen_port DEFAULTS)));
        ("subnet", truthy_or (get "subnet" meta) (VStr (wg_subnet DEFAULTS)));
        ("server_address", truthy_or (get "server_address" meta) (VStr (wg_server_address DEFAULTS)))].

Definition typed_settings (v : value) : wg_settings :=
  MkWgSettings (str_or "" (get "endpoint" v)) (int_or 0 (get "listen_port" v))
    (str_or "" (get "subnet" v)) (str_or "" (get "server_address" v)).

Definition getWgSettings (s : wg_state) : wg_settings :=
  match ws_meta s with
  | Some meta =>
      if js_truthy meta then
        match validateWireguardSettings (stored_settings meta) false with
        | Ok _ => typed_settings (stored_settings meta)
        | Throw _ => DEFAULTS
        end
      else DEFAULTS
  | None => DEFAULTS
  end.

Definition formatEndpoint (endpoint : string) (port : Z) : option string :=
  if String.eqb endpoint "" then None
  else Some ((if isValid endpoint && is_ipv6 endpoint then "[" ++ endpoint ++ "]" else endpoint)
             ++ ":" ++ show_Z port)%string.

(** ** Addresses *)

Definition part (n : nat) (parts : list string) : string := List.nth n parts "undefined".

Definition getSubnetBase (subnet : string) : string :=
  let parts := split_on "."%char (before_slash subnet) in
  (part 0 parts ++ "." ++ part 1 parts ++ "." ++ part 2 parts)%string.

Definition used_ips (peers : list wg_peer) (serverAddress : string) : list string :=
  before_slash serverAddress :: map (fun p => before_slash (pe_client_address p)) peers.

(** The loop from 2 to 254. *)
Definition getNextAvailableIP (peers : list wg_peer) (subnet serverAddress : string) : fallible string :=
  let base := getSubnetBase subnet in
  let ip i := (base ++ "." ++ show_Z (Z.of_nat i))%string in
  match List.find (fun i => negb (includes_key (used_ips peers serverAddress) (ip i))) (List.seq 2 253) with
  | Some i => Ok (ip i ++ "/32")%string
  | None => Throw (ConfigurationError "No available IPs in WireGuard subnet")
  end.

(** ** Key files *)

(** [ensureServerKeys] for the only process that runs; WireguardKeys.v has the
    interleavings of several. *)
Definition ensureServerKeys (env : wg_env) (s : wg_state) : fallible unit * wg_state :=
  match ws_private s with
  | None =>
      match ev_server_keys env with
      | Ok (priv, pub) => (Ok tt, set_keys (Some priv) (Some pub) s)
      | Throw e => (Throw e, s)
      end
  | Some priv =>
      match ws_public s with
      | Some _ => (Ok tt, s)
      | None =>
          match ev_pubkey env priv with
          | Ok pub => (Ok tt, set_keys (Some priv) (Some pub) s)
          | Throw e => (Throw e, s)
          end
      end
  end.

(** ** Rendering *)

Definition line_break (c : ascii) : bool := (code c =? 10) || (code c =? 13).

(** [.replace(/[\r\n]/g, " ")] *)
Definition one_line (s : string) : string := smap (fun c => if line_break c then " "%char else c) s.

Definition peer_section (p : wg_peer) : string :=
  (LF ++ "# Peer: " ++ one_line (pe_name p) ++ " (ID: " ++ show_Z (pe_id p) ++ ")" ++ LF ++
   "[Peer]" ++ LF ++
   "PublicKey = " ++ pe_client_public_key p ++ LF ++
   "PresharedKey = " ++ pe_preshared_key p ++ LF ++
   "AllowedIPs = " ++ pe_client_address p ++ LF)%string.

Definition enabled_peers (s : wg_state) : list wg_peer :=
  select_where (fun p => negb (pe_is_deleted p) && negb (pe_status p =? 0)) (ws_peers s).

Definition server_config (settings : wg_settings) (privateKey : string) (peers : list wg_peer) : string :=
  ("# ShieldPM WireGuard Configuration — Auto-generated" ++ LF ++
   "# Do not edit manually!" ++ LF ++ LF ++
   "[Interface]" ++ LF ++
   "PrivateKey = " ++ privateKey ++ LF ++
   "Address = " ++ wg_server_address settings ++ LF ++
   "ListenPort = " ++ show_Z (wg_listen_port settings) ++ LF ++
   "MTU = 1300" ++ LF ++
   "SaveConfig = false" ++ LF ++
   "PostUp = " ++ firewall_post_up ++ LF ++
   "PostDown = " ++ firewall_post_down ++ LF ++
   String.concat "" (map peer_section peers))%string.

Definition syncConfig (env : wg_env) (s : wg_state) : fallible unit * wg_state :=
  match ws_private s with
  | None => (Throw (InternalError "WireGuard server key could not be read"), s)
  | Some priv =>
      if ev_can_write env
      then (Ok tt, set_conf (Some (server_config (getWgSettings s) priv (enabled_peers s))) s)
      else (Throw (InternalError "WireGuard configuration could not be written"), s)
  end.

(** ** Applying *)

Definition DQ : string := String (ascii_of_nat 34) "".
(** Under the default data directory. *)
Definition wgConfFile : string := "/data/wireguard/wg0.conf".
Definition sync_command : string :=
  ("bash -c " ++ DQ ++ "wg syncconf " ++ WG_INTERFACE ++ " <(wg-quick strip " ++ wgConfFile ++ ")" ++ DQ)%string.
Definition down_command : string := ("wg-quick down " ++ wgConfFile ++ " 2>/dev/null || true")%string.
Definition up_command : string :=
  ("WG_QUICK_USERSPACE_IMPLEMENTATION=wireguard-go wg-quick up " ++ wgConfFile)%string.

Definition exec (env : wg_env) (cmd : string) (log : list string) : fallible unit * list string :=
  (if ev_exec env log cmd then Ok tt else Throw (InternalError "WireGuard command failed"), log ++ [cmd]).

Definition and_then (m : fallible unit * list string) (k : list string -> fallible unit * list string)
    : fallible unit * list string :=
  match m with
  | (Ok _, log) => k log
  | (Throw e, log) => (Throw e, log)
  end.

(** A reload, or a restart when forced or down; a failure is followed by one
    restart, whose failure is the handler's. *)
Definition apply_commands (env : wg_env) (forceRestart : bool) (log : list string) : fallible unit * list string :=
  let attempt :=
    if negb forceRestart && ev_up1 env then exec env sync_command log
    else
      let up := if forceRestart then ev_up1 env else ev_up2 env in
      and_then (if up then exec env down_command log else (Ok tt, log)) (exec env up_command) in
  match attempt with
  | (Ok _, log') => (Ok tt, log')
  | (Throw _, log') => and_then (exec env down_command log') (exec env up_command)
  end.

Definition applyConfig (env : wg_env) (forceRestart : bool) (s : wg_state) : fallible unit * wg_state :=
  let '(r, log) := apply_commands env forceRestart (ws_commands s) in (r, set_commands log s).

(** [await syncConfig(); await applyConfig(force);] *)
Definition sync_and_apply (env : wg_env) (forceRestart : bool) (s : wg_state) : fallible unit * wg_state :=
  match syncConfig env s with
  | (Ok _, s') => applyConfig env forceRestart s'
  | (Throw e, s') => (Throw e, s')
  end.

(** ** Handlers *)

(** [peers.some(...)] with the parser's exceptions. *)
Fixpoint conflicts (serverIp : string) (net : ipv4 * Z) (peers : list wg_peer) : fallible bool :=
  match peers with
  | [] => Ok false
  | p :: peers' =>
      let address := before_slash (pe_client_address p) in
      if String.eqb address serverIp then Ok true
      else match IPv4_parse address with
           | None => Throw (NativeError "ipaddr: the address has neither IPv6 nor IPv4 format")
           | Some a => if negb (IPv4_match a net) then Ok true else conflicts serverIp net peers'
           end
  end.

Definition merged_settings (data : value) (current : wg_settings) : wg_settings :=
  MkWgSettings
    (if is_undef (get "endpoint" data) then wg_endpoint current else str_or "" (get "endpoint" data))
    (if is_undef (get "listen_port" data) then wg_listen_port current else int_or 0 (get "listen_port" data))
    (if is_undef (get "subnet" data) then wg_subnet current else str_or "" (get "subnet" data))
    (if is_undef (get "server_address" data) then wg_server_address current
     else str_or "" (get "server_address" data)).

(** Everything [updateSettings] checks before it writes. *)
Definition check_settings (data : value) (s : wg_state) : fallible wg_settings :=
  let? _ := validateWireguardSettings data true in
  let current := getWgSettings s in
  let newMeta := merged_settings data current in
  let? _ := validateWireguardSettings (settings_value newMeta) false in
  if negb (String.eqb (wg_subnet newMeta) (wg_subnet current))
     || negb (String.eqb (wg_server_address newMeta) (wg_server_address current)) then
    match IPv4_parseCIDR (wg_subnet newMeta) with
    | None => Throw (NativeError "ipaddr: string is not formatted like an IPv4 CIDR range")
    | Some net =>
        let? conflict := conflicts (before_slash (wg_server_address newMeta)) net (live_peers s) in
        throw ValidationError "WireGuard settings conflict with existing peer addresses. Remove those peers before changing the subnet or server address."
          when conflict ;;
        Ok newMeta
    end
  else Ok newMeta.

Definition set_endpoint (e : option string) (p : wg_peer) : wg_peer :=
  MkPeer (pe_id p) (pe_name p) (pe_description p) (pe_client_address p) (pe_client_public_key p)
    (pe_client_private_key p) (pe_preshared_key p) (pe_server_public_key p) e (pe_allowed_ips p)
    (pe_keepalive p) (pe_dns p) (pe_status p) (pe_is_deleted p) (pe_owner p).

(** The writes of [updateSettings]: the row, if there is one, and the
    endpoints of the live peers. *)
Definition store_settings (data : value) (newMeta : wg_settings) (s : wg_state) : wg_state :=
  let s1 := set_meta (match ws_meta s with Some _ => Some (settings_value newMeta) | None => None end) s in
  if negb (is_undef (get "endpoint" data)) || negb (is_undef (get "listen_port" data)) then
    set_peers (patch_where (fun p => negb (pe_is_deleted p))
                 (set_endpoint (formatEndpoint (wg_endpoint newMeta) (wg_listen_port newMeta))) (ws_peers s1))
      (ws_next s1) s1
  else s1.

Definition updateSettings (env : wg_env) (data : value) (s : wg_state) : fallible wg_settings * wg_state :=
  match check_settings data s with
  | Throw e => (Throw e, s)
  | Ok newMeta =>
      let s1 := store_settings data newMeta s in
      if ev_available env then
        let restart := negb (String.eqb (wg_server_address newMeta) (wg_server_address (getWgSettings s))) in
        match sync_and_apply env restart s1 with
        | (Ok _, s2) => (Ok newMeta, s2)
        | (Throw e, s2) => (Throw e, s2)
        end
      else (Ok newMeta, s1)
  end.

(** A value written to a column that may not be null. *)
Definition not_null (v : value) : fallible string :=
  match v with
  | VStr s => Ok s
  | _ => Throw (NativeError "NOT NULL constraint failed")
  end.

Definition optional_str (v : value) : option string := match v with VStr s => Some s | _ => None end.

(** The row [createPeer] inserts. *)
Definition new_peer (id owner : Z) (data : value) (settings : wg_settings)
    (clientKeys : string * string) (presharedKey serverPublicKey clientAddress name : string) : wg_peer :=
  MkPeer id name (truthy_or (get "description" data) VNull) clientAddress (snd clientKeys) (fst clientKeys)
    presharedKey serverPublicKey (formatEndpoint (wg_endpoint settings) (wg_listen_port settings))
    (str_or "" (truthy_or (get "allowed_ips" data) (VStr (wg_subnet settings))))
    (int_or 25 (get "persistent_keepalive" data))
    (Some (str_or "" (truthy_or (get "dns" data) (VStr "1.1.1.1")))) 2 false owner.

(** The reads of [createPeer], up to its insert. *)
Definition prepare_peer (env : wg_env) (data : value) (owner : Z) (s : wg_state) : fallible wg_peer :=
  let settings := getWgSettings s in
  let? clientKeys := ev_client_keys env in
  let? presharedKey := ev_preshared env in
  let? serverPublicKey := match ws_public s with
                          | Some pub => Ok pub
                          | None => Throw (InternalError "WireGuard server public key could not be read")
                          end in
  let? clientAddress := getNextAvailableIP (live_peers s) (wg_subnet settings) (wg_server_address settings) in
  let? name := not_null (get "name" data) in
  Ok (new_peer (ws_next s) owner data settings clientKeys presharedKey serverPublicKey clientAddress name).

Definition createPeer (env : wg_env) (data : value) (owner : Z) (s : wg_state) : fallible wg_peer * wg_state :=
  match validatePeerSettings data with
  | Throw e => (Throw e, s)
  | Ok _ =>
    if negb (ev_available env)
    then (Throw (ConfigurationError "WireGuard is not available on this system"), s)
    else match ensureServerKeys env s with
    | (Throw e, s1) => (Throw e, s1)
    | (Ok _, s1) =>
      match prepare_peer env data owner s1 with
      | Throw e => (Throw e, s1)
      | Ok peer =>
        match sync_and_apply env false (set_peers (ws_peers s1 ++ [peer]) (ws_next s1 + 1) s1) with
        | (Ok _, s2) => (Ok peer, s2)
        | (Throw e, s2) => (Throw e, s2)
        end
      end
    end
  end.

(** [if (data.k !== undefined) updateData.k = data.k], for a text column. *)
Definition updated {A} (v : value) (old : A) (read : value -> fallible A) : fallible A :=
  if is_undef v then Ok old else read v.

Definition update_row (data : value) (p : wg_peer) : fallible wg_peer :=
  let? name := updated (get "name" data) (pe_name p) not_null in
  let? allowed := updated (get "allowed_ips" data) (pe_allowed_ips p) not_null in
  Ok (MkPeer (pe_id p) name (if is_undef (get "description" data) then pe_description p else get "description" data)
        (pe_client_address p) (pe_client_public_key p) (pe_client_private_key p) (pe_preshared_key p)
        (pe_server_public_key p) (pe_endpoint p) allowed
        (if is_undef (get "persistent_keepalive" data) then pe_keepalive p
         else int_or 0 (get "persistent_keepalive" data))
        (if is_undef (get "dns" data) then pe_dns p else optional_str (get "dns" data))
        (pe_status p) (pe_is_deleted p) (pe_owner p)).

Definition live_peer (peerId : Z) (s : wg_state) : option wg_peer :=
  first_where (fun p => (pe_id p =? peerId) && negb (pe_is_deleted p)) (ws_peers s).

(** Write the row of a peer, then synchronise. *)
Definition write_peer (env : wg_env) (p : wg_peer) (s : wg_state) : fallible unit * wg_state :=
  sync_and_apply env false
    (set_peers (patch_where (fun x => pe_id x =? pe_id p) (fun _ => p) (ws_peers s)) (ws_next s) s).

Definition updatePeer (env : wg_env) (peerId : Z) (data : value) (s : wg_state) : fallible unit * wg_state :=
  match validatePeerSettings data with
  | Throw e => (Throw e, s)
  | Ok _ =>
      match live_peer peerId s with
      | None => (Throw (ItemNotFoundError (Some peerId)), s)
      | Some p =>
          match update_row data p with
          | Throw e => (Throw e, s)
          | Ok p' => write_peer env p' s
          end
      end
  end.

Definition with_peer_status (status : Z) (deleted : bool) (p : wg_peer) : wg_peer :=
  MkPeer (pe_id p) (pe_name p) (pe_description p) (pe_client_address p) (pe_client_public_key p)
    (pe_client_private_key p) (pe_preshared_key p) (pe_server_public_key p) (pe_endpoint p) (pe_allowed_ips p)
    (pe_keepalive p) (pe_dns p) status deleted (pe_owner p).

(** Deleting finds deleted rows too, and repeats their synchronisation. *)
Definition deletePeer (env : wg_env) (peerId : Z) (s : wg_state) : fallible bool * wg_state :=
  match first_where (fun p => pe_id p =? peerId) (ws_peers s) with
  | None => (Ok false, s)
  | Some p =>
      match write_peer env (with_peer_status (pe_status p) true p) s with
      | (Ok _, s') => (Ok true, s')
      | (Throw e, s') => (Throw e, s')
      end
  end.

Definition set_peer_status (status : Z) (env : wg_env) (peerId : Z) (s : wg_state) : fallible unit * wg_state :=
  match live_peer peerId s with
  | None => (Throw (ItemNotFoundError (Some peerId)), s)
  | Some p => write_peer env (with_peer_status status (pe_is_deleted p) p) s
  end.
Definition enablePeer : wg_env -> Z -> wg_state -> fallible unit * wg_state := set_peer_status 2.
Definition disablePeer : wg_env -> Z -> wg_state -> fallible unit * wg_state := set_peer_status 0.

(** ** Server information *)

Record server_info : Type := MkInfo {
  si_available : bool;
  si_public_key : option string;
  si_endpoint : option string;
  si_listen_port : Z;
  si_subnet : string;
  si_up : bool
}.

(** [settings.endpoint || null] *)
Definition text_or_null (s : string) : option string := if String.eqb s "" then None else Some s.

(** The answer for a snapshot of the tools: [available] and [up]. *)
Definition getServerInfo (env : wg_env) (available up : bool) (s : wg_state) : server_info * wg_state :=
  let settings := getWgSettings s in
  let info ok key endpoint up := MkInfo ok key endpoint (wg_listen_port settings) (wg_subnet settings) up in
  if negb available then (info false None (text_or_null (wg_endpoint settings)) false, s)
  else match ensureServerKeys env s with
       | (Ok _, s') =>
           match ws_public s' with
           | Some pub =>
               (info true (Some pub) (formatEndpoint (wg_endpoint settings) (wg_listen_port settings)) up, s')
           | None => (info false None None false, s')
           end
       | (Throw _, s') => (info false None None false, s')
       end.

(** ** Client configurations *)

(** The row as [validatePeerSettings] sees it. *)
Definition peer_value (p : wg_peer) : value :=
  VObj [("name", VStr (pe_name p)); ("dns", match pe_dns p with Some d => VStr d | None => VNull end);
        ("allowed_ips", VStr (pe_allowed_ips p)); ("persistent_keepalive", VInt (pe_keepalive p))].

Definition client_config (settings : wg_settings) (p : wg_peer) : string :=
  ("[Interface]" ++ LF ++
   "PrivateKey = " ++ pe_client_private_key p ++ LF ++
   "Address = " ++ pe_client_address p ++ LF ++
   (match pe_dns p with Some (String c d) => "DNS = " ++ String c d | _ => "" end) ++ LF ++ LF ++
   "[Peer]" ++ LF ++
   "PublicKey = " ++ pe_server_public_key p ++ LF ++
   "PresharedKey = " ++ pe_preshared_key p ++ LF ++
   (match pe_endpoint p with
    | Some (String c e) => "Endpoint = " ++ String c e
    | _ => "# Endpoint = <your-server-ip>:" ++ show_Z (wg_listen_port settings)
    end) ++ LF ++
   "AllowedIPs = " ++ pe_allowed_ips p ++ LF ++
   "PersistentKeepalive = " ++ show_Z (pe_keepalive p) ++ LF)%string.

Definition generateClientConfig (peerId : Z) (s : wg_state) : fallible string :=
  match live_peer peerId s with
  | None => Throw (ItemNotFoundError (Some peerId))
  | Some p =>
      let? _ := validatePeerSettings (peer_value p) in
      Ok (client_config (getWgSettings s) p)
  end.
End Wireguard.

(** ** The machine *)

(** Keys the tools print hold no line feed. *)
Definition env_ok (env : wg_env) : Prop :=
  (forall priv pub, ev_server_keys env = Ok (priv, pub) -> single_line priv /\ single_line pub) /\
  (forall priv pub, ev_pubkey env priv = Ok pub -> single_line pub) /\
  (forall priv pub, ev_client_keys env = Ok (priv, pub) -> single_line priv /\ single_line pub) /\
  (forall k, ev_preshared env = Ok k -> single_line k).

Section Machine.
Context `{Ipaddr}.

(** Every configuration change, successful or not, and the query that may
    create the keys; the settings row may be anything to begin with. *)
Inductive wg_step (s : wg_state) : wg_state -> Prop :=
| wg_update_settings env data : env_ok env -> wg_step s (snd (updateSettings env data s))
| wg_create env data owner : env_ok env -> wg_step s (snd (createPeer env data owner s))
| wg_update env id data : env_ok env -> wg_step s (snd (updatePeer env id data s))
| wg_delete env id : env_ok env -> wg_step s (snd (deletePeer env id s))
| wg_status env id status : env_ok env -> wg_step s (snd (set_peer_status status env id s))
| wg_info env available up : env_ok env -> wg_step s (snd (getServerInfo env available up s)).

Definition wg_init (s : wg_state) : Prop :=
  ws_peers s = [] /\ ws_private s = None /\ ws_public s = None.
End Machine.

(** ** Dotted addresses *)

Definition address_char (c : ascii) : bool := is_digit c || Ascii.eqb c "."%char.

Lemma dotted_chars a : in_octets a -> all_chars address_char (dotted a) = true.
Proof.
  intros (? & ? & ? & ?). unfold dotted, octet in *.
  assert (forall n, 0 <= n -> all_chars address_char (show_Z n) = true) as Hd.
  { intros n Hn. eapply all_chars_impl; [|by apply show_Z_digits]. unfold address_char. by intros c ->. }
  rewrite !all_chars_append. simpl. by rewrite !Hd by lia.
Qed.

Lemma dotted_parts a : in_octets a ->
  split_on "."%char (dotted a) = [show_Z (oct_a a); show_Z (oct_b a); show_Z (oct_c a); show_Z (oct_d a)].
Proof.
  intros (? & ? & ? & ?). unfold octet in *.
  assert (forall n, 0 <= n -> has_char "."%char (show_Z n) = false) as Hn.
  { intros n Hn. by eapply all_chars_no; [apply show_Z_digits|]. }
  unfold dotted. simpl. rewrite !split_on_append by (apply Hn; lia). by rewrite split_on_single by (apply Hn; lia).
Qed.

Lemma dotted_inj a b : in_octets a -> in_octets b -> dotted a = dotted b -> a = b.
Proof.
  intros Ha Hb Heq. apply (f_equal (split_on "."%char)) in Heq. rewrite !dotted_parts in Heq by done.
  injection Heq as H1 H2 H3 H4. destruct Ha as (? & ? & ? & ?), Hb as (? & ? & ? & ?), a, b. unfold octet in *.
  simpl in *. apply show_Z_inj in H1, H2, H3, H4; try lia. congruence.
Qed.

Lemma dotted_no_slash a : in_octets a -> has_char "/"%char (dotted a) = false.
Proof. intros Ha. by eapply all_chars_no; [apply dotted_chars|]. Qed.

Lemma before_slash_cut s rest : has_char "/"%char s = false -> before_slash (s ++ String "/"%char rest) = s.
Proof. intros Hs. unfold before_slash. by rewrite split_on_append. Qed.

Definition tunnel_address (n : ipv4) (i : Z) : string :=
  (dotted (MkIPv4 (oct_a n) (oct_b n) (oct_c n) i) ++ "/32")%string.

Lemma tunnel_address_ip n i : in_octets n -> 0 <= i < 256 ->
  before_slash (tunnel_address n i) = dotted (MkIPv4 (oct_a n) (oct_b n) (oct_c n) i).
Proof.
  intros (? & ? & ? & ?) Hi. unfold tunnel_address. apply before_slash_cut, dotted_no_slash.
  by split_and!.
Qed.

Section Addresses.
Context `{IpaddrLaws}.

(** [n] and [sv] are the network and the server address of the settings. *)
Record network (st : wg_settings) (n sv : ipv4) : Prop := {
  nw_net : in_octets n;
  nw_server : in_octets sv;
  nw_same : same_24 sv n;
  nw_subnet : before_slash (wg_subnet st) = dotted n;
  nw_address : before_slash (wg_server_address st) = dotted sv
}.

Lemma network_unique st n sv n' sv' : network st n sv -> network st n' sv' -> n = n' /\ sv = sv'.
Proof.
  intros [Hn Hs _ En Es] [Hn' Hs' _ En' Es']. split; apply dotted_inj; congruence.
Qed.

Lemma validateIpv4Cidr_ok v f a p : validateIpv4Cidr v f = Ok (a, p) ->
  exists s, v = VStr s /\ in_octets a /\ p = 24 /\ before_slash s = dotted a /\
    IPv4_parseCIDR s = Some (a, 24) /\ hasControlCharacters s = false.
Proof.
  unfold validateIpv4Cidr. destruct v as [| | | | |s| |]; try done. intros Hv. ok_inv Hv.
  destruct (IPv4_parseCIDR s) as [[a' p']|] eqn:Ep; [|done]. ok_inv Hv. ok_inv Hv. injection Hv as -> ->.
  boolify. subst p. exists s. split_and!; try done; [by eapply parseCIDR_octets..|]. by rewrite <- toString_dotted.
Qed.

#[local] Arguments validateIpv4Cidr : simpl never.
#[local] Arguments bad_endpoint : simpl never.
#[local] Arguments int_between : simpl never.

(** What validation says of a full set of settings. *)
Record settings_ok (st : wg_settings) : Prop := {
  so_network : exists n sv, network st n sv;
  so_endpoint : bad_endpoint (VStr (wg_endpoint st)) = false;
  so_port : 1 <= wg_listen_port st <= 65535;
  so_address : hasControlCharacters (wg_server_address st) = false;
  so_subnet : forall n sv, network st n sv -> IPv4_parseCIDR (wg_subnet st) = Some (n, 24)
}.

Lemma valid_value v :
  validateWireguardSettings v false = Ok tt ->
  (forall k, In k WIREGUARD_SETTING_KEYS -> is_undef (get k v) = false) ->
  settings_ok (typed_settings v).
Proof.
  unfold validateWireguardSettings, optional_cidr. intros Hv Hdef.
  rewrite !Hdef in Hv by (simpl; tauto). simpl in Hv. ok_inv Hv. ok_inv Hv. ok_inv Hv. ok_inv Hv.
  ok_inv Hv. ok_inv E0. injection E0 as <-. ok_inv Hv. ok_inv E0. injection E0 as <-.
  destruct v2 as [n pn], v3 as [sv ps].
  apply validateIpv4Cidr_ok in E1 as (sn & Esn & Hn & -> & En & Ep & _).
  apply validateIpv4Cidr_ok in E2 as (sa & Esa & Hs & -> & Es & Ep' & Hc).
  cbn [fst snd] in Hv. unfold throw_if in Hv. destruct (_ || _) eqn:Em; [done|].
  apply orb_false_iff in Em as [_ Em]. apply negb_false_iff, match_24 in Em.
  apply negb_false_iff, int_between_spec in G1 as (m & Eport & Hm).
  destruct (get "endpoint" v) as [| | | | |ep| |] eqn:Eep; try done.
  assert (typed_settings v = MkWgSettings ep m sn sa) as ->.
  { unfold typed_settings. by rewrite Eep, Eport, Esn, Esa. }
  assert (network (MkWgSettings ep m sn sa) n sv) as Hnet by by split.
  split; try done; [by exists n, sv|].
  intros n' sv' Hnet'. by destruct (network_unique _ _ _ _ _ Hnet Hnet') as [<- _].
Qed.

Lemma valid_settings st : validateWireguardSettings (settings_value st) false = Ok tt -> settings_ok st.
Proof.
  intros Hv. replace st with (typed_settings (settings_value st)) by by destruct st.
  apply valid_value; [done|]. intros k Hk. simpl in Hk. by repeat destruct Hk as [<-|Hk].
Qed.

Lemma truthy_or_defined v d : is_undef d = false -> is_undef (truthy_or v d) = false.
Proof. unfold truthy_or. destruct (js_truthy v) eqn:E; [by destruct v|done]. Qed.

Lemma valid_stored meta :
  validateWireguardSettings (stored_settings meta) false = Ok tt ->
  settings_ok (typed_settings (stored_settings meta)).
Proof.
  intros Hv. apply valid_value; [done|]. intros k Hk. simpl in Hk.
  repeat destruct Hk as [<-|Hk]; try done; by apply truthy_or_defined.
Qed.

Lemma defaults_network : network DEFAULTS (MkIPv4 10 8 0 0) (MkIPv4 10 8 0 1).
Proof. by split. Qed.

(** What every handler may assume of the settings it reads. *)
Lemma current_settings s :
  (exists n sv, network (getWgSettings s) n sv) /\
  bad_endpoint (VStr (wg_endpoint (getWgSettings s))) = false /\
  hasControlCharacters (wg_server_address (getWgSettings s)) = false /\
  0 <= wg_listen_port (getWgSettings s).
Proof.
  unfold getWgSettings. assert ((exists n sv, network DEFAULTS n sv) /\
    bad_endpoint (VStr (wg_endpoint DEFAULTS)) = false /\
    hasControlCharacters (wg_server_address DEFAULTS) = false /\ 0 <= wg_listen_port DEFAULTS) as Hd.
  { split_and!; [|done..]. do 2 eexists. apply defaults_network. }
  destruct (ws_meta s) as [meta|]; [|done]. destruct (js_truthy meta); [|done].
  destruct (validateWireguardSettings _ _) as [[]|] eqn:E; [|done].
  apply valid_stored in E as []. split_and!; try done. lia.
Qed.

Lemma dotted_nonempty a : dotted a <> "".
Proof. unfold dotted. by destruct (show_Z (oct_a a)). Qed.

Lemma before_slash_empty s : before_slash s <> "" -> s <> "".
Proof. by intros Hs ->. Qed.

Lemma stored_settings_valid st :
  validateWireguardSettings (settings_value st) false = Ok tt -> stored_settings (settings_value st) = settings_value st.
Proof.
  intros Hv%valid_settings. destruct Hv as [(n & sv & [_ _ _ Hn Hs]) _ Hp _ _].
  unfold stored_settings, settings_value, truthy_or. simpl.
  assert (String.eqb (wg_subnet st) "" = false) as ->.
  { apply String.eqb_neq, before_slash_empty. rewrite Hn. apply dotted_nonempty. }
  assert (String.eqb (wg_server_address st) "" = false) as ->.
  { apply String.eqb_neq, before_slash_empty. rewrite Hs. apply dotted_nonempty. }
  assert ((wg_listen_port st =? 0) = false) as -> by (apply Z.eqb_neq; lia). simpl.
  by destruct (wg_endpoint st).
Qed.

(** Settings that were validated are read back as they were stored. *)
Lemma read_settings st s :
  validateWireguardSettings (settings_value st) false = Ok tt -> ws_meta s = Some (settings_value st) ->
  getWgSettings s = st.
Proof.
  intros Hv Hm. unfold getWgSettings. rewrite Hm, stored_settings_valid by done. simpl. rewrite Hv. by destruct st.
Qed.


(** ** Allocation *)

(** An address in use: the server's or a peer's. *)
Definition taken (n sv : ipv4) (peers : list wg_peer) (i : Z) : Prop :=
  i = oct_d sv \/ In (tunnel_address n i) (map pe_client_address peers).

Definition in_net (n : ipv4) (p : wg_peer) : Prop :=
  exists i, 0 <= i < 256 /\ pe_client_address p = tunnel_address n i.

Lemma host_inj n i j : in_octets n -> 0 <= i < 256 -> 0 <= j < 256 ->
  dotted (MkIPv4 (oct_a n) (oct_b n) (oct_c n) i) = dotted (MkIPv4 (oct_a n) (oct_b n) (oct_c n) j) -> i = j.
Proof. intros (? & ? & ? & ?) Hi Hj Hd. apply dotted_inj in Hd; [congruence|by split_and!..]. Qed.

Lemma tunnel_address_inj n i j : in_octets n -> 0 <= i < 256 -> 0 <= j < 256 ->
  tunnel_address n i = tunnel_address n j -> i = j.
Proof. intros Hn Hi Hj Ha. apply append_inj_l in Ha. by eapply host_inj. Qed.

Lemma subnet_base n subnet : in_octets n -> before_slash subnet = dotted n -> forall i,
  (getSubnetBase subnet ++ "." ++ show_Z i)%string = dotted (MkIPv4 (oct_a n) (oct_b n) (oct_c n) i).
Proof.
  intros Hn Hs i. unfold getSubnetBase, part. rewrite Hs, dotted_parts by done. cbn [List.nth].
  unfold dotted. cbn [oct_a oct_b oct_c oct_d]. by rewrite !append_assoc.
Qed.

Lemma used_ip_taken st n sv peers i : network st n sv -> Forall (in_net n) peers -> 0 <= i < 256 ->
  includes_key (used_ips peers (wg_server_address st)) (dotted (MkIPv4 (oct_a n) (oct_b n) (oct_c n) i)) = true
  <-> taken n sv peers i.
Proof.
  intros [Hn Hs (Ha & Hb & Hc) _ Es] Hp Hi. rewrite includes_key_spec. unfold used_ips, taken. rewrite Es. simpl.
  assert (dotted sv = dotted (MkIPv4 (oct_a n) (oct_b n) (oct_c n) (oct_d sv))) as ->.
  { rewrite <- Ha, <- Hb, <- Hc. by destruct sv. }
  rewrite Forall_forall in Hp. split; (intros [Hl|Hr]; [left|right]).
  - symmetry. apply (host_inj n); try done. apply Hs.
  - apply in_map_iff in Hr as (p & Hp' & Hin). rewrite <- list_elem_of_In in Hin.
    destruct (Hp p Hin) as (j & Hj & Hadr). rewrite Hadr, tunnel_address_ip in Hp' by done.
    apply host_inj in Hp' as <-; [|done..]. rewrite <- Hadr. apply in_map. by apply list_elem_of_In.
  - by rewrite Hl.
  - apply in_map_iff in Hr as (p & Hp' & Hin). apply in_map_iff. exists p. split; [|done].
    rewrite Hp'. by apply tunnel_address_ip.
Qed.

Lemma find_seq_first f a len i : List.find f (List.seq a len) = Some i ->
  f i = true /\ (a <= i < a + len)%nat /\ forall j, (a <= j < i)%nat -> f j = false.
Proof.
  revert a. induction len as [|len IH]; intros a; [done|]. simpl. destruct (f a) eqn:E.
  - intros [= <-]. split_and!; [done|lia..|]. intros j Hj. lia.
  - intros Hf. apply IH in Hf as (Hi & Hr & Hj). split_and!; [done|lia..|]. intros j Hj'.
    destruct (Nat.eq_dec j a) as [->|]; [done|]. apply Hj. lia.
Qed.

(** The lowest free address, or an error when there is none. *)
Lemma next_ip_spec st n sv peers : network st n sv -> Forall (in_net n) peers ->
  match getNextAvailableIP peers (wg_subnet st) (wg_server_address st) with
  | Ok address => exists i, 2 <= i <= 254 /\ address = tunnel_address n i /\ ~ taken n sv peers i /\
                    forall j, 2 <= j < i -> taken n sv peers j
  | Throw _ => forall j, 2 <= j <= 254 -> taken n sv peers j
  end.
Proof.
  intros Hnet Hp. unfold getNextAvailableIP.
  assert (forall i, (getSubnetBase (wg_subnet st) ++ "." ++ show_Z i)%string =
    dotted (MkIPv4 (oct_a n) (oct_b n) (oct_c n) i)) as Hip by (by apply subnet_base; destruct Hnet).
  pose proof (fun i => used_ip_taken st n sv peers i Hnet Hp) as Hused.
  destruct (List.find _ _) as [i|] eqn:Ef.
  - apply find_seq_first in Ef as (Hi & Hr & Hj). exists (Z.of_nat i). rewrite Hip in *. split_and!; [lia..|done| |].
    + rewrite <- Hused by lia. by destruct (includes_key _ _).
    + intros j Hjr. apply Hused; [lia|]. specialize (Hj (Z.to_nat j) ltac:(lia)). rewrite Hip, Z2Nat.id in Hj by lia.
      by apply negb_false_iff in Hj.
  - intros j Hj. apply Hused; [lia|].
    assert (In (Z.to_nat j) (List.seq 2 253)) as Hin by (apply in_seq; lia).
    apply (find_none _ _ Ef) in Hin. rewrite Hip, Z2Nat.id in Hin by lia. by apply negb_false_iff in Hin.
Qed.

(** ** The invariant *)

Definition tunnel_ok (n sv : ipv4) (p : wg_peer) : Prop :=
  exists i, 2 <= i <= 254 /\ i <> oct_d sv /\ pe_client_address p = tunnel_address n i.

Definition lines_ok (p : wg_peer) : Prop :=
  single_line (pe_client_address p) /\ single_line (pe_client_public_key p) /\
  single_line (pe_client_private_key p) /\ single_line (pe_preshared_key p) /\
  single_line (pe_server_public_key p) /\ (forall e, pe_endpoint p = Some e -> single_line e).

Definition key_ok (k : option string) : Prop := forall s, k = Some s -> single_line s.

Record wg_inv (s : wg_state) : Prop := {
  wi_ids : List.NoDup (map pe_id (ws_peers s));
  wi_fresh : forall p, In p (ws_peers s) -> pe_id p < ws_next s;
  wi_addresses : forall n sv, network (getWgSettings s) n sv -> Forall (tunnel_ok n sv) (live_peers s);
  wi_distinct : List.NoDup (map pe_client_address (live_peers s));
  wi_lines : Forall lines_ok (ws_peers s);
  wi_private : key_ok (ws_private s);
  wi_public : key_ok (ws_public s)
}.

(** The part of the state the invariant reads. *)
Definition same_core (s s' : wg_state) : Prop :=
  ws_meta s' = ws_meta s /\ ws_peers s' = ws_peers s /\ ws_next s' = ws_next s /\
  ws_private s' = ws_private s /\ ws_public s' = ws_public s.

Lemma wg_inv_core s s' : same_core s s' -> wg_inv s -> wg_inv s'.
Proof.
  intros (Hm & Hp & Hn & Hk & Hpub) [? ? Hadr ? ? ? ?].
  assert (getWgSettings s' = getWgSettings s) as Hset by (unfold getWgSettings; by rewrite Hm).
  split; unfold live_peers in *; rewrite ?Hp, ?Hn, ?Hk, ?Hpub, ?Hset; done.
Qed.

Lemma apply_core env force s : same_core s (snd (applyConfig env force s)).
Proof. unfold applyConfig. destruct (apply_commands _ _ _). by split_and!. Qed.

Lemma sync_core env force s : same_core s (snd (sync_and_apply env force s)).
Proof.
  unfold sync_and_apply, syncConfig. destruct (ws_private s); [|by split_and!].
  destruct (ev_can_write env); [|by split_and!].
  destruct (apply_core env force (set_conf (Some (server_config (getWgSettings s) s0 (enabled_peers s))) s))
    as (? & ? & ? & ? & ?). by split_and!.
Qed.

Lemma tunnel_ok_in_net n sv peers : Forall (tunnel_ok n sv) peers -> Forall (in_net n) peers.
Proof. intros Hf. eapply Forall_impl; [exact Hf|]. intros p (i & Hi & _ & Ha). exists i. split; [lia|done]. Qed.

(** *** Rows *)

(** A patch that keeps keys and addresses, and never revives a row. *)
Definition keeps_row (f : wg_peer -> wg_peer) (p : wg_peer) : Prop :=
  pe_id (f p) = pe_id p /\ pe_client_address (f p) = pe_client_address p /\
  (pe_is_deleted p = true -> pe_is_deleted (f p) = true) /\ (lines_ok p -> lines_ok (f p)).

Section Patch.
Variables (c : wg_peer -> bool) (f : wg_peer -> wg_peer) (t : list wg_peer).
Hypothesis kept : forall p, In p t -> c p = true -> keeps_row f p.

Lemma patch_ids : map pe_id (patch_where c f t) = map pe_id t.
Proof.
  unfold patch_where. rewrite map_map. apply map_ext_in. intros p Hp. destruct (c p) eqn:E; [|done].
  by apply kept.
Qed.

Lemma patch_fresh next : (forall p, In p t -> pe_id p < next) -> forall p, In p (patch_where c f t) -> pe_id p < next.
Proof.
  intros Hf p [(p0 & Hin & Hc & ->)|[Hin _]]%in_patch; [|by apply Hf].
  destruct (kept p0 Hin Hc) as (-> & _). by apply Hf.
Qed.

Lemma patch_lines : Forall lines_ok t -> Forall lines_ok (patch_where c f t).
Proof.
  rewrite !Forall_forall. intros Hl p Hp%list_elem_of_In. apply in_patch in Hp as [(p0 & Hin & Hc & ->)|[Hin _]].
  - apply kept; [done..|]. by apply Hl, list_elem_of_In.
  - by apply Hl, list_elem_of_In.
Qed.
End Patch.

Abbreviation live_row := (fun p => negb (pe_is_deleted p)).

Lemma patch_live_sub c f t a : (forall p, In p t -> c p = true -> keeps_row f p) ->
  In a (map pe_client_address (select_where live_row (patch_where c f t))) ->
  In a (map pe_client_address (select_where live_row t)).
Proof.
  intros Hk (p & <- & [Hp Hl]%in_select)%in_map_iff. apply in_patch in Hp as [(p0 & Hin & Hc & ->)|[Hin _]].
  - destruct (Hk p0 Hin Hc) as (_ & -> & Hd & _). apply in_map, in_select. split; [done|].
    destruct (pe_is_deleted p0) eqn:E; [|done]. by rewrite Hd in Hl.
  - by apply in_map, in_select.
Qed.

Lemma patch_live_nodup c f t : (forall p, In p t -> c p = true -> keeps_row f p) ->
  List.NoDup (map pe_client_address (select_where live_row t)) ->
  List.NoDup (map pe_client_address (select_where live_row (patch_where c f t))).
Proof.
  induction t as [|p t IH]; intros Hk Hnd; [done|].
  assert (forall q, In q t -> c q = true -> keeps_row f q) as Hk' by (intros q Hq; apply Hk; by right).
  assert (List.NoDup (map pe_client_address (select_where live_row t))) as Hnd'.
  { unfold select_where in *. simpl in Hnd. destruct (negb _); [by inversion Hnd|done]. }
  specialize (IH Hk' Hnd'). unfold select_where, patch_where in *. simpl.
  set (q := if c p then f p else p). destruct (negb (pe_is_deleted q)) eqn:Eq; [|done]. simpl. constructor; [|done].
  assert (pe_client_address q = pe_client_address p /\ negb (pe_is_deleted p) = true) as [-> Hl].
  { subst q. destruct (c p) eqn:Ec; [|done]. destruct (Hk p (or_introl eq_refl) Ec) as (_ & -> & Hd & _).
    split; [done|]. destruct (pe_is_deleted p); [|done]. by rewrite Hd in Eq. }
  simpl in Hnd. rewrite Hl in Hnd. inversion Hnd; subst. intros Hin. by apply (patch_live_sub c f t) in Hin.
Qed.

(** A patch of the peers, and possibly of the settings, preserves the
    invariant when the live peers fit the settings afterwards. *)
Lemma patch_inv s s' c f :
  wg_inv s -> ws_peers s' = patch_where c f (ws_peers s) -> ws_next s' = ws_next s ->
  ws_private s' = ws_private s -> ws_public s' = ws_public s ->
  (forall p, In p (ws_peers s) -> c p = true -> keeps_row f p) ->
  (forall n sv, network (getWgSettings s') n sv -> Forall (tunnel_ok n sv) (live_peers s)) ->
  wg_inv s'.
Proof.
  intros [Hid Hf _ Hd Hl Hpr Hpu] Hp Hn Hkr Hkp Hk Hnet.
  split; unfold live_peers; rewrite ?Hp, ?Hn, ?Hkr, ?Hkp; try done.
  - by rewrite patch_ids.
  - intros p Hin. by eapply patch_fresh.
  - intros n sv Hsv. specialize (Hnet n sv Hsv). rewrite Forall_forall in *. intros p Hin.
    assert (In (pe_client_address p) (map pe_client_address (select_where live_row (ws_peers s)))) as Ha.
    { eapply patch_live_sub; [exact Hk|]. by apply in_map, list_elem_of_In. }
    apply in_map_iff in Ha as (q & Hq & Hin'). destruct (Hnet q) as (i & Hi & Hne & Hadr).
    { by apply list_elem_of_In. }
    exists i. by rewrite <- Hq.
  - by apply patch_live_nodup.
  - by apply patch_lines.
Qed.

Lemma write_peer_inv env p0 p s :
  wg_inv s -> In p0 (ws_peers s) -> pe_id p = pe_id p0 -> pe_client_address p = pe_client_address p0 ->
  (pe_is_deleted p0 = true -> pe_is_deleted p = true) -> (lines_ok p0 -> lines_ok p) ->
  wg_inv (snd (write_peer env p s)).
Proof.
  intros Hinv Hin Hid Ha Hd Hl. eapply wg_inv_core; [apply sync_core|].
  eapply (patch_inv s); [done|reflexivity|reflexivity|reflexivity|reflexivity| |apply (wi_addresses _ Hinv)].
  intros q Hq Hc%Z.eqb_eq.
  assert (q = p0) as ->; [|by split_and!].
  apply (key_unique pe_id (ws_peers s)); [apply Hinv|done..|congruence].
Qed.

Lemma live_peer_in id s p : live_peer id s = Some p -> In p (ws_peers s) /\ pe_is_deleted p = false.
Proof.
  unfold live_peer. intros Hp. apply first_where_Some in Hp as [Hin Hl]. split; [done|]. by boolify.
Qed.

Lemma status_inv env id status s : wg_inv s -> wg_inv (snd (set_peer_status status env id s)).
Proof.
  intros Hinv. unfold set_peer_status. destruct (live_peer id s) as [p|] eqn:E; [|done].
  apply live_peer_in in E as [Hin _]. by eapply (write_peer_inv env p).
Qed.

Lemma delete_inv env id s : wg_inv s -> wg_inv (snd (deletePeer env id s)).
Proof.
  intros Hinv. unfold deletePeer. destruct (first_where _ _) as [p|] eqn:E; [|done].
  apply first_where_Some in E as [Hin _].
  pose proof (write_peer_inv env p (with_peer_status (pe_status p) true p) s Hinv Hin) as Hw.
  destruct (write_peer _ _ _) as [[[]|] s']; by apply Hw.
Qed.

Lemma update_peer_inv env id data s : wg_inv s -> wg_inv (snd (updatePeer env id data s)).
Proof.
  intros Hinv. unfold updatePeer. destruct (validatePeerSettings data); [|done].
  destruct (live_peer id s) as [p|] eqn:E; [|done]. apply live_peer_in in E as [Hin _].
  destruct (update_row data p) as [p'|] eqn:Eu; [|done]. unfold update_row in Eu. ok_all Eu. injection Eu as <-.
  by eapply (write_peer_inv env p).
Qed.

(** *** Settings *)

Lemma no_control_single s : hasControlCharacters s = false -> single_line s.
Proof.
  unfold hasControlCharacters, any_char. intros Hc%negb_false_iff. by eapply all_chars_no; [exact Hc|].
Qed.

Lemma endpoint_single endpoint port e :
  bad_endpoint (VStr endpoint) = false -> 0 <= port -> formatEndpoint endpoint port = Some e -> single_line e.
Proof.
  unfold bad_endpoint, formatEndpoint. intros Hb Hp. boolify. destruct (String.eqb endpoint ""); [done|].
  intros [= <-]. match goal with E : hasControlCharacters _ = false |- _ => apply no_control_single in E end.
  unfold single_line in *. rewrite has_char_append, has_char_cons.
  assert (has_char (ascii_of_nat 10) (show_Z port) = false) as ->.
  { by eapply all_chars_no; [apply show_Z_digits|]. }
  destruct (isValid endpoint && is_ipv6 endpoint); by rewrite ?has_char_cons, ?has_char_append, H3.
Qed.

Lemma conflicts_none serverIp m n peers :
  in_octets n -> Forall (in_net n) peers -> conflicts serverIp (m, 24) peers = Ok false ->
  Forall (fun p => before_slash (pe_client_address p) <> serverIp /\ same_24 n m) peers.
Proof.
  intros Hn. induction peers as [|p peers IH]; intros Hp; [constructor|]. simpl.
  destruct (String.eqb_spec (before_slash (pe_client_address p)) serverIp) as [|Hne]; [done|].
  inversion Hp as [|? ? (i & Hi & Ha) Hp']; subst. rewrite Ha, tunnel_address_ip by done.
  assert (in_octets (MkIPv4 (oct_a n) (oct_b n) (oct_c n) i)) as Hio.
  { destruct Hn as (? & ? & ? & ?). by split_and!. }
  rewrite parse_dotted by done. destruct (IPv4_match _ (m, 24)) eqn:Em; [|done]. simpl. apply match_24 in Em.
  intros Hc. constructor; [by split|].
  by apply IH.
Qed.

Lemma check_settings_valid data s st :
  check_settings data s = Ok st -> validateWireguardSettings (settings_value st) false = Ok tt.
Proof.
  unfold check_settings. intros Hc. ok_inv Hc. ok_inv Hc. destruct v0. destruct (_ || _); [|by injection Hc as <-].
  destruct (IPv4_parseCIDR _) as [net|]; [|done]. ok_inv Hc. ok_inv Hc. by injection Hc as <-.
Qed.

(** Accepted settings leave every live peer a valid address. *)
Lemma check_settings_peers data s st :
  wg_inv s -> check_settings data s = Ok st ->
  forall n sv, network st n sv -> Forall (tunnel_ok n sv) (live_peers s).
Proof.
  intros Hinv Hc n sv Hnet. pose proof (check_settings_valid _ _ _ Hc) as Hv%valid_settings.
  revert Hc. unfold check_settings. intros Hc. ok_inv Hc. ok_inv Hc.
  destruct (current_settings s) as ((n0 & sv0 & Hnet0) & _).
  pose proof (wi_addresses _ Hinv _ _ Hnet0) as Hadr.
  destruct (_ || _) eqn:Ech.
  - destruct (IPv4_parseCIDR _) as [[m p]|] eqn:Ep; [|done]. ok_inv Hc. ok_inv Hc. injection Hc as <-.
    assert (Some (n, 24) = Some (m, p)) as [= <- <-].
    { rewrite <- Ep. symmetry. exact (so_subnet _ Hv n sv Hnet). }
    destruct v1; [done|].
    apply (conflicts_none _ n n0) in E1; [|by destruct Hnet0|by eapply tunnel_ok_in_net].
    rewrite Forall_forall in *. intros q Hq. destruct (E1 q Hq) as [Hne Hsame].
    destruct (Hadr q Hq) as (i & Hi & _ & Ha).
    destruct Hsame as (Sa & Sb & Sc).
    exists i. split_and!; [lia..| |].
    + intros ->. apply Hne. destruct Hnet as [Hn Hs (Ha' & Hb' & Hc') _ Es].
      etransitivity; [|symmetry; exact Es]. rewrite Ha, tunnel_address_ip; [|by destruct Hnet0|lia]. f_equal. rewrite Sa, Sb, Sc, <- Ha', <- Hb', <- Hc'.
      by destruct sv.
    + rewrite Ha. unfold tunnel_address. by rewrite Sa, Sb, Sc.
  - injection Hc as <-. boolify. apply (wi_addresses _ Hinv).
    destruct Hnet as [? ? ? Hn Hs]. simpl in Hn, Hs. split; congruence || done.
Qed.

Lemma store_settings_inv data s st : wg_inv s -> check_settings data s = Ok st -> wg_inv (store_settings data st s).
Proof.
  intros Hinv Hc. pose proof (check_settings_valid _ _ _ Hc) as Hv. pose proof (valid_settings _ Hv) as Hok.
  assert (getWgSettings (store_settings data st s) = st \/ getWgSettings (store_settings data st s) = getWgSettings s)
    as Hget.
  { unfold store_settings. destruct (ws_meta s) as [meta|] eqn:Em.
    - left. apply read_settings; [done|]. by destruct (_ || _).
    - right. unfold getWgSettings. rewrite Em. by destruct (_ || _). }
  set (c := fun p : wg_peer => (negb (is_undef (get "endpoint" data)) || negb (is_undef (get "listen_port" data)))
                               && negb (pe_is_deleted p)).
  eapply (patch_inv s _ c (set_endpoint (formatEndpoint (wg_endpoint st) (wg_listen_port st)))); try done.
  - unfold store_settings, c. destruct (_ || _); [done|]. simpl. symmetry. by apply patch_where_none.
  - unfold store_settings. by destruct (_ || _).
  - unfold store_settings. by destruct (_ || _).
  - unfold store_settings. by destruct (_ || _).
  - intros p _ _. split_and!; try done. intros (? & ? & ? & ? & ? & _). split_and!; try done. intros e He.
    eapply endpoint_single; [apply Hok| |exact He]. destruct Hok. lia.
  - destruct Hget as [-> | ->]; [|apply (wi_addresses _ Hinv)]. by eapply check_settings_peers.
Qed.

Lemma update_settings_inv env data s : wg_inv s -> wg_inv (snd (updateSettings env data s)).
Proof.
  intros Hinv. unfold updateSettings. destruct (check_settings data s) as [st|] eqn:E; [|done].
  pose proof (store_settings_inv _ _ _ Hinv E) as Hs. destruct (ev_available env); [|done].
  match goal with |- context [sync_and_apply env ?b ?s1] => pose proof (sync_core env b s1) as Hcore end.
  destruct (sync_and_apply _ _ _) as [[[]|] s2]; by eapply wg_inv_core.
Qed.

(** *** New peers *)

Lemma ensure_keys_core env s : env_ok env -> wg_inv s ->
  wg_inv (snd (ensureServerKeys env s)) /\ getWgSettings (snd (ensureServerKeys env s)) = getWgSettings s /\
  ws_peers (snd (ensureServerKeys env s)) = ws_peers s.
Proof.
  intros (Hserver & Hpub & _) Hinv. unfold ensureServerKeys.
  assert (forall priv pub, single_line priv -> single_line pub -> wg_inv (set_keys (Some priv) (Some pub) s)) as Hset.
  { intros priv pub Hp Hq. destruct Hinv. split; try done; by intros k [= <-]. }
  destruct (ws_private s) as [priv|] eqn:Ep.
  - destruct (ws_public s) as [pub|] eqn:Eq; [done|].
    destruct (ev_pubkey env priv) as [pub|] eqn:Ek; [|done]. split_and!; [|done..]. apply Hset.
    + by apply (wi_private _ Hinv).
    + by eapply Hpub.
  - destruct (ev_server_keys env) as [[priv pub]|] eqn:Ek; [|done]. split_and!; [|done..].
    destruct (Hserver _ _ eq_refl). by apply Hset.
Qed.

Lemma tunnel_address_single n i : in_octets n -> 0 <= i < 256 -> single_line (tunnel_address n i).
Proof.
  intros (? & ? & ? & ?) Hi. unfold single_line, tunnel_address. rewrite has_char_append.
  assert (in_octets (MkIPv4 (oct_a n) (oct_b n) (oct_c n) i)) as Hd%dotted_chars by by split_and!.
  by rewrite (all_chars_no _ _ _ Hd).
Qed.

Lemma add_peer_inv env data owner s p :
  env_ok env -> wg_inv s -> prepare_peer env data owner s = Ok p ->
  wg_inv (set_peers (ws_peers s ++ [p]) (ws_next s + 1) s) /\
  (forall n sv, network (getWgSettings s) n sv -> exists i, 2 <= i <= 254 /\
     pe_client_address p = tunnel_address n i /\ ~ taken n sv (live_peers s) i /\
     forall j, 2 <= j < i -> taken n sv (live_peers s) j).
Proof.
  intros (_ & _ & Hck & Hpsk) Hinv Hp. unfold prepare_peer in Hp. ok_all Hp. injection Hp as <-.
  assert (forall n sv, network (getWgSettings s) n sv -> exists i, 2 <= i <= 254 /\ v2 = tunnel_address n i /\
    ~ taken n sv (live_peers s) i /\ forall j, 2 <= j < i -> taken n sv (live_peers s) j) as Hadr.
  { intros n sv Hnet. pose proof (wi_addresses _ Hinv _ _ Hnet) as Hall.
    pose proof (next_ip_spec _ _ _ _ Hnet (tunnel_ok_in_net _ _ _ Hall)) as Hn. by rewrite E2 in Hn. }
  split; [|exact Hadr]. destruct (current_settings s) as ((n & sv & Hnet) & Hep & _ & Hport).
  destruct (Hadr _ _ Hnet) as (i & Hi & -> & Hfree & _).
  destruct v as [cpriv cpub]. destruct (Hck _ _ eq_refl) as [Hc1 Hc2]. pose proof (Hpsk _ eq_refl) as Hk.
  set (p := new_peer _ _ _ _ _ _ _ _ _).
  assert (live_peers (set_peers (ws_peers s ++ [p]) (ws_next s + 1) s) = live_peers s ++ [p]) as Hlive.
  { unfold live_peers, select_where. simpl. by rewrite List.filter_app. }
  destruct Hinv as [Hid Hf Ha Hd Hl Hpr Hpu]. split; rewrite ?Hlive; try done; simpl.
  - apply key_fresh_app; [done|]. simpl. intros (q & Hq & Hin)%in_map_iff. apply Hf in Hin. lia.
  - intros q [Hq|[<-|[]]]%in_app_or; [apply Hf in Hq; lia|]. simpl. lia.
  - intros n' sv' Hnet'. change (getWgSettings _) with (getWgSettings s) in Hnet'.
    destruct (network_unique _ _ _ _ _ Hnet Hnet') as [<- <-]. apply Forall_app. split; [by apply Ha|].
    constructor; [|constructor]. exists i. split_and!; [lia..| |done]. intros Hs. apply Hfree. by left.
  - apply key_fresh_app; [done|]. simpl. intros Hin. apply Hfree. by right.
  - apply Forall_app. split; [done|]. constructor; [|constructor]. split_and!; try done; simpl.
    + apply tunnel_address_single; [by destruct Hnet|lia].
    + destruct (ws_public s) as [pub|] eqn:Epub; [|done]. injection E1 as <-. by apply Hpu.
    + intros e He. by eapply endpoint_single; [exact Hep| |exact He].
Qed.

(** Asking for the server information keeps the invariant too: it may create
    the keys, and it only claims to be available with a public key. *)
Lemma server_info_inv env available up s : env_ok env -> wg_inv s ->
  wg_inv (snd (getServerInfo env available up s)) /\
  (si_available (fst (getServerInfo env available up s)) = true ->
   si_public_key (fst (getServerInfo env available up s)) = ws_public (snd (getServerInfo env available up s)) /\
   ws_public (snd (getServerInfo env available up s)) <> None).
Proof.
  intros He Hinv. unfold getServerInfo. destruct (negb available); [done|].
  pose proof (ensure_keys_core env s He Hinv) as (Hinv' & _ & _).
  destruct (ensureServerKeys env s) as [[[]|] s']; [|done]. simpl in Hinv'.
  destruct (ws_public s') eqn:E; simpl; [|done]. by rewrite E.
Qed.

Lemma create_peer_inv env data owner s : env_ok env -> wg_inv s -> wg_inv (snd (createPeer env data owner s)).
Proof.
  intros He Hinv. unfold createPeer. destruct (validatePeerSettings data); [|done].
  destruct (negb _); [done|]. pose proof (ensure_keys_core env s He Hinv) as (Hinv1 & _ & _).
  destruct (ensureServerKeys env s) as [[[]|] s1]; [|done]. simpl in Hinv1.
  destruct (prepare_peer env data owner s1) as [p|] eqn:Ep; [|done].
  destruct (add_peer_inv _ _ _ _ _ He Hinv1 Ep) as [Hadd _].
  match goal with |- context [sync_and_apply env ?b ?s2] => pose proof (sync_core env b s2) as Hcore end.
  destruct (sync_and_apply _ _ _) as [[[]|] s3]; by eapply wg_inv_core.
Qed.

Lemma wg_step_inv s s' : wg_inv s -> wg_step s s' -> wg_inv s'.
Proof.
  intros Hinv []; [by apply update_settings_inv|by apply create_peer_inv|by apply update_peer_inv
    |by apply delete_inv|by apply status_inv|by apply server_info_inv].
Qed.

Lemma wg_reachable_inv s : reachable wg_init wg_step s -> wg_inv s.
Proof.
  apply invariant_reachable; [|apply wg_step_inv]. intros s0 (Hp & Hk & Hq).
  split; unfold live_peers; rewrite ?Hp, ?Hk, ?Hq; try done; constructor.
Qed.

(** C17: Tunnel addresses stay distinct.  Whatever sequence of settings
    changes and of peers created, edited, enabled, disabled and deleted came
    before, with commands failing anywhere, every live peer has an address of
    its own in the current subnet, between .2 and .254 and not the server's;
    and a peer created next gets the lowest address still free. *)
Theorem tunnel_addresses_stay_distinct s :
  reachable wg_init wg_step s ->
  exists n sv, network (getWgSettings s) n sv /\
  List.NoDup (map pe_client_address (live_peers s)) /\
  Forall (tunnel_ok n sv) (live_peers s) /\
  forall env data owner p s', env_ok env -> createPeer env data owner s = (Ok p, s') ->
    exists i, 2 <= i <= 254 /\ pe_client_address p = tunnel_address n i /\
    ~ taken n sv (live_peers s) i /\ forall j, 2 <= j < i -> taken n sv (live_peers s) j.
Proof.
  intros Hinv%wg_reachable_inv. destruct (current_settings s) as ((n & sv & Hnet) & _). exists n, sv.
  split_and!; [done|apply Hinv|by apply Hinv|]. intros env data owner p s' He. unfold createPeer.
  destruct (validatePeerSettings data); [|done]. destruct (negb _); [done|].
  pose proof (ensure_keys_core env s He Hinv) as (Hinv1 & Hset & Hpeers).
  destruct (ensureServerKeys env s) as [[[]|] s1]; [|done]. simpl in *.
  destruct (prepare_peer env data owner s1) as [q|] eqn:Ep; [|done].
  destruct (add_peer_inv _ _ _ _ _ He Hinv1 Ep) as [_ Hadr].
  destruct (sync_and_apply _ _ _) as [[[]|] s3]; [|done]. intros [= <- _].
  specialize (Hadr n sv). rewrite Hset in Hadr. unfold live_peers in *. rewrite Hpeers in Hadr. by apply Hadr.
Qed.
End Addresses.

(** ** Reading the rendered files *)

(** A section of a configuration: its header and its settings.  Comments and
    blank lines are skipped; a setting is cut at its first equals sign. *)
Fixpoint cut_setting (s : string) : option (string * string) :=
  match s with
  | EmptyString => None
  | String c rest =>
      if starts_with " = " s then Some ("", drop_str 3 s)
      else option_map (fun kv => (String c (fst kv), snd kv)) (cut_setting rest)
  end.

Fixpoint read_lines (lines : list string) : list (string * string) * list (string * list (string * string)) :=
  match lines with
  | [] => ([], [])
  | l :: lines' =>
      let (settings, sections) := read_lines lines' in
      if String.eqb l "" || starts_with "#" l then (settings, sections)
      else if starts_with "[" l then ([], (l, settings) :: sections)
      else match cut_setting l with
           | Some kv => (kv :: settings, sections)
           | None => (settings, sections)
           end
  end.

Definition read_config (text : string) : list (string * list (string * string)) :=
  snd (read_lines (split_on (ascii_of_nat 10) text)).

Lemma one_line_single s : single_line (one_line s).
Proof.
  unfold single_line, one_line. induction s as [|c s IH]; [done|]. cbn [smap]. rewrite has_char_cons, IH, orb_false_r.
  by destruct c as [[] [] [] [] [] [] [] []].
Qed.

(** The section a peer of the server stands for. *)
Definition peer_settings (p : wg_peer) : string * list (string * string) :=
  ("[Peer]", [("PublicKey", pe_client_public_key p); ("PresharedKey", pe_preshared_key p);
              ("AllowedIPs", pe_client_address p)]).

Definition interface_settings (st : wg_settings) (priv : string) : string * list (string * string) :=
  ("[Interface]", [("PrivateKey", priv); ("Address", wg_server_address st);
                   ("ListenPort", show_Z (wg_listen_port st)); ("MTU", "1300"); ("SaveConfig", "false");
                   ("PostUp", firewall_post_up); ("PostDown", firewall_post_down)]).

Definition client_settings (p : wg_peer) : list (string * list (string * string)) :=
  [("[Interface]", [("PrivateKey", pe_client_private_key p); ("Address", pe_client_address p)]
                   ++ match pe_dns p with Some (String c d) => [("DNS", String c d)] | _ => [] end);
   ("[Peer]", [("PublicKey", pe_server_public_key p); ("PresharedKey", pe_preshared_key p)]
              ++ match pe_endpoint p with Some (String c e) => [("Endpoint", String c e)] | _ => [] end
              ++ [("AllowedIPs", pe_allowed_ips p); ("PersistentKeepalive", show_Z (pe_keepalive p))])].

(** How the reader takes one line. *)
Definition read_line (l : string) (r : list (string * string) * list (string * list (string * string)))
    : list (string * string) * list (string * list (string * string)) :=
  if String.eqb l "" || starts_with "#" l then r
  else if starts_with "[" l then ([], (l, fst r) :: snd r)
  else match cut_setting l with Some kv => (kv :: fst r, snd r) | None => r end.

Lemma read_text_line l rest : single_line l ->
  read_lines (split_on (ascii_of_nat 10) (l ++ LF ++ rest)) =
  read_line l (read_lines (split_on (ascii_of_nat 10) rest)).
Proof.
  intros Hl. rewrite split_line by done. cbn [read_lines]. unfold read_line.
  by destruct (read_lines (split_on _ rest)).
Qed.

Lemma concat_cons x xs : String.concat "" (x :: xs) = (x ++ String.concat "" xs)%string.
Proof. destruct xs; simpl; [by rewrite append_nil_r|done]. Qed.

Lemma peer_section_lines p rest :
  (peer_section p ++ rest)%string =
  ("" ++ LF ++ ("# Peer: " ++ one_line (pe_name p) ++ " (ID: " ++ show_Z (pe_id p) ++ ")") ++ LF ++
   "[Peer]" ++ LF ++ ("PublicKey = " ++ pe_client_public_key p) ++ LF ++
   ("PresharedKey = " ++ pe_preshared_key p) ++ LF ++ ("AllowedIPs = " ++ pe_client_address p) ++ LF ++ rest)%string.
Proof. unfold peer_section. by rewrite !append_assoc. Qed.

Ltac read_line_tac := rewrite read_text_line; [|repeat apply single_app; try done; try apply single_show; try apply one_line_single].

Lemma read_peer_sections ps :
  Forall lines_ok ps ->
  read_lines (split_on (ascii_of_nat 10) (String.concat "" (map peer_section ps))) = ([], map peer_settings ps).
Proof.
  induction ps as [|p ps IH]; intros Hl; [done|]. inversion Hl as [|? ? (? & ? & ? & ? & ? & _) Hl']; subst.
  cbn [map]. rewrite concat_cons, peer_section_lines. do 6 read_line_tac. rewrite IH by done. done.
Qed.

Lemma read_server_config st priv ps :
  single_line priv -> single_line (wg_server_address st) -> Forall lines_ok ps ->
  read_config (server_config st priv ps) = interface_settings st priv :: map peer_settings ps.
Proof.
  intros Hp Ha Hl. unfold read_config.
  assert (server_config st priv ps =
    ("# ShieldPM WireGuard Configuration — Auto-generated" ++ LF ++ "# Do not edit manually!" ++ LF ++ "" ++ LF ++
     "[Interface]" ++ LF ++ ("PrivateKey = " ++ priv) ++ LF ++ ("Address = " ++ wg_server_address st) ++ LF ++
     ("ListenPort = " ++ show_Z (wg_listen_port st)) ++ LF ++ "MTU = 1300" ++ LF ++ "SaveConfig = false" ++ LF ++
     ("PostUp = " ++ firewall_post_up) ++ LF ++ ("PostDown = " ++ firewall_post_down) ++ LF ++
     String.concat "" (map peer_section ps))%string) as ->.
  { unfold server_config. by rewrite !append_assoc. }
  do 11 read_line_tac. rewrite read_peer_sections by done. reflexivity.
Qed.

Lemma read_client_config st p :
  lines_ok p -> (forall d, pe_dns p = Some d -> single_line d) -> single_line (pe_allowed_ips p) ->
  read_config (client_config st p) = client_settings p.
Proof.
  intros (Ha & _ & Hk & Hpsk & Hpub & He) Hd Hips. unfold read_config.
  set (dns := match pe_dns p with Some (String c d) => ("DNS = " ++ String c d)%string | _ => "" end).
  set (ep := match pe_endpoint p with
    | Some (String c e) => ("Endpoint = " ++ String c e)%string
    | _ => ("# Endpoint = <your-server-ip>:" ++ show_Z (wg_listen_port st))%string end).
  assert (client_config st p =
    ("[Interface]" ++ LF ++ ("PrivateKey = " ++ pe_client_private_key p) ++ LF ++
     ("Address = " ++ pe_client_address p) ++ LF ++ dns ++ LF ++ "" ++ LF ++ "[Peer]" ++ LF ++
     ("PublicKey = " ++ pe_server_public_key p) ++ LF ++ ("PresharedKey = " ++ pe_preshared_key p) ++ LF ++
     ep ++ LF ++ ("AllowedIPs = " ++ pe_allowed_ips p) ++ LF ++
     ("PersistentKeepalive = " ++ show_Z (pe_keepalive p)) ++ LF ++ "")%string) as ->.
  { unfold client_config. by rewrite !append_assoc, append_nil_r. }
  assert (single_line dns) as Hdns.
  { subst dns. destruct (pe_dns p) as [[|c d]|] eqn:E; try done. apply single_app; [done|by apply Hd]. }
  assert (single_line ep) as Hep.
  { subst ep. destruct (pe_endpoint p) as [[|c e]|] eqn:E; try (apply single_app; [done|apply single_show]).
    apply single_app; [done|by apply He]. }
  do 11 read_line_tac. subst dns ep. unfold client_settings.
  by destruct (pe_dns p) as [[|c d]|], (pe_endpoint p) as [[|c' e]|].
Qed.

(** ** What is published *)

Section Published.
Context `{IpaddrLaws}.

(** The rendered file tells exactly the settings, the key and the enabled
    peers of the state. *)
Definition published (s : wg_state) : Prop :=
  exists text priv, ws_conf s = Some text /\ ws_private s = Some priv /\
  read_config text = interface_settings (getWgSettings s) priv :: map peer_settings (enabled_peers s).

Lemma sync_published env force s s' :
  wg_inv s -> sync_and_apply env force s = (Ok tt, s') -> published s'.
Proof.
  intros Hinv. unfold sync_and_apply, syncConfig. destruct (ws_private s) as [priv|] eqn:Ep; [|done].
  destruct (ev_can_write env); [|done]. intros Ha.
  set (s1 := set_conf _ s) in *. pose proof (apply_core env force s1) as (Hm & Hp & _ & Hk & _).
  assert (ws_conf s' = ws_conf s1) as Hc.
  { unfold applyConfig in Ha. destruct (apply_commands _ _ _). by injection Ha as _ <-. }
  rewrite Ha in *. simpl in *. exists (server_config (getWgSettings s) priv (enabled_peers s)), priv.
  rewrite Hc, Hk. split_and!; [done..|].
  assert (getWgSettings s' = getWgSettings s) as -> by (unfold getWgSettings; by rewrite Hm).
  assert (enabled_peers s' = enabled_peers s) as -> by (unfold enabled_peers; by rewrite Hp).
  apply read_server_config.
  - by apply (wi_private _ Hinv).
  - apply no_control_single. by destruct (current_settings s) as (_ & _ & ? & _).
  - rewrite Forall_forall. intros p [Hin _]%list_elem_of_In%in_select.
    apply (proj1 (Forall_forall _ _) (wi_lines _ Hinv)). by apply list_elem_of_In.
Qed.

Lemma same_core_sym s s' : same_core s s' -> same_core s' s.
Proof. intros (? & ? & ? & ? & ?). by split_and!. Qed.

Lemma sync_published_after env force s s' :
  wg_inv s' -> sync_and_apply env force s = (Ok tt, s') -> published s' /\ ws_peers s' = ws_peers s.
Proof.
  intros Hinv Hs. pose proof (sync_core env force s) as Hcore. rewrite Hs in Hcore. simpl in Hcore.
  split; [|by destruct Hcore as (_ & -> & _)].
  eapply sync_published; [|exact Hs]. eapply wg_inv_core; [apply same_core_sym; exact Hcore|done].
Qed.

(** A row write that succeeded, and what is enabled after it. *)
Lemma write_peer_published env p s s' :
  wg_inv s' -> write_peer env p s = (Ok tt, s') ->
  published s' /\ forall q, In q (enabled_peers s') -> q = p \/ pe_id q <> pe_id p.
Proof.
  intros Hinv Hw. apply sync_published_after in Hw as [Hpub Hp]; [|done]. split; [done|].
  intros q [Hin _]%in_select. rewrite Hp in Hin. apply in_patch in Hin as [(q0 & _ & _ & ->)|[_ Hne]]; [by left|].
  right. by apply Z.eqb_neq.
Qed.

Lemma published_status st env id s s' :
  wg_inv s -> set_peer_status st env id s = (Ok tt, s') ->
  published s' /\ (st = 0 -> forall p, In p (enabled_peers s') -> pe_id p <> id).
Proof.
  intros Hinv Hs. pose proof (status_inv env id st s Hinv) as Hinv'. rewrite Hs in Hinv'. simpl in Hinv'.
  unfold set_peer_status in Hs. destruct (live_peer id s) as [p|] eqn:E; [|done].
  apply first_where_Some in E as [_ Hid]. apply andb_true_iff in Hid as [Hid%Z.eqb_eq _].
  apply write_peer_published in Hs as [Hpub Hall]; [|done]. split; [done|]. intros -> q Hq.
  destruct (Hall q Hq) as [->|Hne]; [|by rewrite <- Hid]. apply in_select in Hq as [_ Hq]. simpl in Hq.
  by rewrite andb_false_r in Hq.
Qed.

Lemma published_delete env id s s' :
  wg_inv s -> deletePeer env id s = (Ok true, s') ->
  published s' /\ forall p, In p (enabled_peers s') -> pe_id p <> id.
Proof.
  intros Hinv Hs. pose proof (delete_inv env id s Hinv) as Hinv'. rewrite Hs in Hinv'. simpl in Hinv'.
  unfold deletePeer in Hs. destruct (first_where _ _) as [p|] eqn:E; [|done].
  apply first_where_Some in E as [_ Hid%Z.eqb_eq].
  destruct (write_peer env _ s) as [[[]|] s1] eqn:Ew; [|done]. injection Hs as <-.
  apply write_peer_published in Ew as [Hpub Hall]; [|done]. split; [done|]. intros q Hq.
  destruct (Hall q Hq) as [->|Hne]; [|by rewrite <- Hid]. by apply in_select in Hq as [_ Hq].
Qed.

Lemma published_update env id data s s' :
  wg_inv s -> updatePeer env id data s = (Ok tt, s') -> published s'.
Proof.
  intros Hinv Hs. pose proof (update_peer_inv env id data s Hinv) as Hinv'. rewrite Hs in Hinv'. simpl in Hinv'.
  unfold updatePeer in Hs. destruct (validatePeerSettings data); [|done].
  destruct (live_peer id s); [|done]. destruct (update_row data w); [|done].
  by apply write_peer_published in Hs as [Hpub _].
Qed.

Lemma published_create env data owner p s s' :
  env_ok env -> wg_inv s -> createPeer env data owner s = (Ok p, s') -> published s' /\ In p (enabled_peers s').
Proof.
  intros He Hinv Hs. pose proof (create_peer_inv env data owner s He Hinv) as Hinv'. rewrite Hs in Hinv'.
  simpl in Hinv'. unfold createPeer in Hs. destruct (validatePeerSettings data); [|done].
  destruct (negb _); [done|]. destruct (ensureServerKeys env s) as [[[]|] s1]; [|done].
  destruct (prepare_peer env data owner s1) as [q|] eqn:Ep; [|done].
  destruct (sync_and_apply _ _ _) as [[[]|] s2] eqn:Ea; [|done]. injection Hs as -> ->.
  apply sync_published_after in Ea as [Hpub Hp]; [|done]. split; [done|].
  unfold prepare_peer in Ep. ok_all Ep. injection Ep as <-.
  apply in_select. split; [|done]. rewrite Hp. apply in_or_app. right. by left.
Qed.

(** C18: A change that reports success has been published - any change of a peer,
    and a change of the settings while the WireGuard tools are available (without
    them it only stores the settings).  Then the rendered server configuration
    read back is exactly the current interface settings followed by one section,
    with key, preshared key and address, for each live enabled peer: a disabled or
    deleted peer is gone, and no stored text adds, alters or hides a section. *)
Theorem success_means_published s env :
  reachable wg_init wg_step s -> env_ok env ->
  (forall data owner p s', createPeer env data owner s = (Ok p, s') -> published s' /\ In p (enabled_peers s')) /\
  (forall id data s', updatePeer env id data s = (Ok tt, s') -> published s') /\
  (forall id s', disablePeer env id s = (Ok tt, s') ->
     published s' /\ forall p, In p (enabled_peers s') -> pe_id p <> id) /\
  (forall id s', enablePeer env id s = (Ok tt, s') -> published s') /\
  (forall id s', deletePeer env id s = (Ok true, s') ->
     published s' /\ forall p, In p (enabled_peers s') -> pe_id p <> id) /\
  (forall data st s', ev_available env = true -> updateSettings env data s = (Ok st, s') -> published s').
Proof.
  intros Hinv%wg_reachable_inv He. split_and!.
  - intros data owner p s'. by apply published_create.
  - intros id data s'. by apply published_update.
  - intros id s' Hs. destruct (published_status 0 env id s s' Hinv Hs) as [Hp Hq]. split; [done|by apply Hq].
  - intros id s' Hs. by destruct (published_status 2 env id s s' Hinv Hs).
  - intros id s'. by apply published_delete.
  - intros data st s' Hav Hs. pose proof (update_settings_inv env data s Hinv) as Hinv'. rewrite Hs in Hinv'.
    simpl in Hinv'. unfold updateSettings in Hs. destruct (check_settings data s) as [st'|]; [|done].
    rewrite Hav in Hs. destruct (sync_and_apply _ _ _) as [[[]|] s2] eqn:Ea; [|done]. injection Hs as _ ->.
    by apply sync_published_after in Ea as [Hpub _].
Qed.

(** A downloaded client configuration holds its own peer and nothing
    else: read back, it has one interface and one peer section with exactly
    the stored keys, address, name servers, endpoint and routes of the live
    peer asked for, whatever text was stored in those columns. *)
Theorem client_config_is_exact s id text :
  reachable wg_init wg_step s -> generateClientConfig id s = Ok text ->
  exists p, In p (ws_peers s) /\ pe_id p = id /\ pe_is_deleted p = false /\ read_config text = client_settings p.
Proof.
  intros Hinv%wg_reachable_inv. unfold generateClientConfig. destruct (live_peer id s) as [p|] eqn:E; [|done].
  apply first_where_Some in E as [Hin Hid]. boolify.
  destruct (validatePeerSettings (peer_value p)) eqn:Ev; [|done]. intros [= <-]. exists p. split_and!; [done..|].
  unfold validatePeerSettings in Ev. simpl in Ev. ok_inv Ev. ok_inv Ev. ok_inv Ev.
  apply read_client_config.
  - apply (proj1 (Forall_forall _ _) (wi_lines _ Hinv)). by apply list_elem_of_In.
  - intros d Hd. rewrite Hd in G0. by apply no_control_single.
  - by apply no_control_single.
Qed.
End Published.

(** ** A concrete tunnel *)

Section DemoTunnel.
(** A parser of canonical dotted addresses. *)
Definition demo_octet (s : string) : option Z :=
  let n := read_Z s in if String.eqb (show_Z n) s && (0 <=? n) && (n <? 256) then Some n else None.

Definition demo_parse (s : string) : option ipv4 :=
  match map demo_octet (split_on "."%char s) with
  | [Some a; Some b; Some c; Some d] => Some (MkIPv4 a b c d)
  | _ => None
  end.

Definition demo_cidr (s : string) : option (ipv4 * Z) :=
  match split_on "/"%char s with
  | [a; p] => match demo_parse a, demo_octet p with Some x, Some n => Some (x, n) | _, _ => None end
  | _ => None
  end.

Definition demo_ipaddr : Ipaddr := {|
  IPv4_parse := demo_parse;
  IPv4_parseCIDR := demo_cidr;
  IPv4_toString := dotted;
  IPv4_match := fun a net => (oct_a a =? oct_a (fst net)) && (oct_b a =? oct_b (fst net)) && (oct_c a =? oct_c (fst net));
  parseCIDR_ok := fun s => match demo_cidr s with Some _ => true | None => false end;
  isValid := fun s => match demo_parse s with Some _ => true | None => false end;
  is_ipv6 := fun _ => false
|}.
#[local] Existing Instance demo_ipaddr.

Lemma demo_octet_range s n : demo_octet s = Some n -> octet n.
Proof. unfold demo_octet. destruct (_ && _) eqn:E; [|done]. intros [= <-]. boolify. unfold octet. lia. Qed.

Lemma demo_octet_show n : octet n -> demo_octet (show_Z n) = Some n.
Proof.
  intros [H1 H2]. unfold demo_octet. rewrite read_show, String.eqb_refl by done.
  apply Z.leb_le in H1. apply Z.ltb_lt in H2. by rewrite H1, H2.
Qed.

Lemma demo_parse_range s a : demo_parse s = Some a -> in_octets a.
Proof.
  unfold demo_parse. destruct (split_on _ s) as [|x [|y [|z [|w [|]]]]]; simpl; try done; repeat case_match; try done.
  intros [= <-]. by split_and!; eapply demo_octet_range.
Qed.

Lemma demo_laws : IpaddrLaws.
Proof.
  split.
  - intros s a p. simpl. unfold demo_cidr. destruct (split_on _ s) as [|x [|y [|]]]; try done.
    destruct (demo_parse x) eqn:E; [|done]. destruct (demo_octet y); [|done]. intros [= <- <-]. by eapply demo_parse_range.
  - done.
  - intros a Ha. simpl. unfold demo_parse. rewrite dotted_parts by done. destruct Ha as (? & ? & ? & ?). simpl.
    rewrite !demo_octet_show by done. by destruct a.
  - intros a b. simpl. unfold same_24. rewrite !andb_true_iff, !Z.eqb_eq. tauto.
Qed.
#[local] Existing Instance demo_laws.

Definition demo_env : wg_env :=
  MkEnv true (Ok ("serverpriv", "serverpub")) (fun _ => Ok "serverpub") (Ok ("clientpriv", "clientpub="))
    (Ok "psk=") true true true (fun _ _ => true).

Lemma demo_env_ok : env_ok demo_env.
Proof. by split_and!; simpl; intros; simplify_eq. Qed.

Definition demo_start : wg_state :=
  MkWgState (Some (settings_value (MkWgSettings "vpn.example.org" 51820 "10.9.0.0/24" "10.9.0.2/24")))
    [] 1 None None None [].
Definition demo_peer (name : string) : value := VObj [("name", VStr name); ("dns", VStr "9.9.9.9")].
Definition demo_one : wg_state := snd (createPeer demo_env (demo_peer "phone") 5 demo_start).
Definition demo_two : wg_state := snd (createPeer demo_env (demo_peer "laptop") 5 demo_one).
Definition demo_three : wg_state := snd (disablePeer demo_env 1 demo_two).

Lemma demo_two_reachable : reachable wg_init wg_step demo_two.
Proof.
  do 2 (eapply reachable_step; [|apply wg_create, demo_env_ok]). apply reachable_init. by split_and!.
Qed.

Lemma tunnel_addresses_stay_distinct_witness :
  map pe_client_address (live_peers demo_two) = ["10.9.0.3/32"; "10.9.0.4/32"] /\
  List.NoDup (map pe_client_address (live_peers demo_two)).
Proof.
  split; [vm_compute; reflexivity|].
  destruct (tunnel_addresses_stay_distinct demo_two demo_two_reachable) as (n & sv & _ & Hnd & _). exact Hnd.
Defined.

Lemma success_means_published_witness :
  fst (disablePeer demo_env 1 demo_two) = Ok tt /\ published demo_three /\
  map pe_name (enabled_peers demo_three) = ["laptop"].
Proof.
  split; [vm_compute; reflexivity|]. split; [|vm_compute; reflexivity].
  destruct (success_means_published demo_two demo_env demo_two_reachable demo_env_ok) as (_ & _ & Hd & _).
  apply (Hd 1 demo_three). vm_compute. reflexivity.
Defined.

Definition demo_text : string :=
  match generateClientConfig 2 demo_two with Ok t => t | Throw _ => "" end.

Lemma client_config_is_exact_witness :
  exists p, pe_id p = 2 /\ read_config demo_text = client_settings p.
Proof.
  destruct (client_config_is_exact demo_two 2 demo_text demo_two_reachable) as (p & _ & Hid & _ & Hr);
    [vm_compute; reflexivity|].
  exists p. split; [exact Hid|exact Hr].
Defined.
End DemoTunnel.

