(* ===== verification/WireguardStatus.v ===== *)
(** The live status of the tunnel: src/backend/lib/wireguard-status.js and the
    counters that [refreshStatuses] of src/backend/internal/wireguard.js
    writes.

    The output of the tools is a parameter.  The short-lived snapshot shared
    by all readers is a machine: readers, the one observation in flight and
    the invalidations around every configuration change interleave at their
    awaits. *)

From S2P Require Import Prelude JsString Errors.
From stdpp Require Import gmap.
#[local] Open Scope string_scope.
#[local] Open Scope list_scope.
#[local] Open Scope Z_scope.

Definition SNAPSHOT_TTL_MS : Z := 2000.

(** ** Observing *)

Record peer_status : Type := MkStatus { ps_handshake : Z; ps_rx : Z; ps_tx : Z }.

Record snapshot : Type := MkSnapshot {
  sn_available : bool;
  sn_up : bool;
  sn_statuses : gmap string peer_status
}.

(** [parseInt(s, 10) || 0]: white space, a sign, digits up to the first other
    character. *)
Fixpoint digits_of (s : string) : string :=
  match s with
  | String c s' => if is_digit c then String c (digits_of s') else ""
  | EmptyString => ""
  end.

Definition parseInt_or_0 (s : string) : Z :=
  match drop_while is_space s with
  | String c rest =>
      if Ascii.eqb c "-"%char then - read_Z (digits_of rest)
      else if Ascii.eqb c "+"%char then read_Z (digits_of rest)
      else read_Z (digits_of (String c rest))
  | EmptyString => 0
  end.

Definition TAB : ascii := ascii_of_nat 9.
Definition NL : ascii := ascii_of_nat 10.

(** One line of [wg show wg0 dump]. *)
Definition add_status (statuses : gmap string peer_status) (line : string) : gmap string peer_status :=
  match split_on TAB line with
  | key :: _ :: _ :: _ :: handshake :: rx :: tx :: _ =>
      <[key := MkStatus (parseInt_or_0 handshake) (parseInt_or_0 rx) (parseInt_or_0 tx)]> statuses
  | _ => statuses
  end.

(** The interface line comes first and is dropped: it has the private key. *)
Definition parse_dump (output : string) : gmap string peer_status :=
  fold_left add_status (tl (split_on NL output)) ∅.

(** What the tools answer: whether the probes succeed, and the dump if its
    command does. *)
Record wg_tools : Type := MkTools { tl_version : bool; tl_link : bool; tl_dump : option string }.

Definition observe (t : wg_tools) : snapshot :=
  let available := tl_version t in
  let up := available && tl_link t in
  MkSnapshot available up
    (if up then match tl_dump t with Some output => parse_dump output | None => ∅ end else ∅).

(** ** Counters *)

(** The columns of a peer that the refresh reads and writes; the handshake is
    an instant in milliseconds. *)
Record counters : Type := MkCounters {
  ct_id : Z;
  ct_owner : Z;
  ct_public_key : string;
  ct_status : Z;
  ct_is_deleted : bool;
  ct_handshake : option Z;
  ct_rx : Z;
  ct_tx : Z
}.

Definition refresh_row (s : snapshot) (c : counters) : counters :=
  match sn_statuses s !! ct_public_key c with
  | None => c
  | Some st =>
      let handshake := match ct_handshake c with Some t => t | None => 0 end in
      MkCounters (ct_id c) (ct_owner c) (ct_public_key c) (ct_status c) (ct_is_deleted c)
        (if (0 <? ps_handshake st) && negb (handshake =? ps_handshake st * 1000)
         then Some (ps_handshake st * 1000) else ct_handshake c)
        (if ct_rx c =? ps_rx st then ct_rx c else ps_rx st)
        (if ct_tx c =? ps_tx st then ct_tx c else ps_tx st)
  end.

Definition refreshed (owner : option Z) (c : counters) : bool :=
  negb (ct_is_deleted c) && negb (ct_status c =? 0) &&
  match owner with Some id => ct_owner c =? id | None => true end.

Definition refreshStatuses (owner : option Z) (s : snapshot) (t : list counters) : list counters :=
  if negb (sn_up s) then t else patch_where (refreshed owner) (refresh_row s) t.

(** ** The shared snapshot *)

(** An observation: the generation it started in, and its result once there
    is one. *)
Record work : Type := MkWork { wk_id : nat; wk_generation : Z; wk_result : option snapshot }.

Record cache : Type := MkCacheEntry { cc_generation : Z; cc_expires : Z; cc_snapshot : snapshot }.

Record snap_state : Type := MkSnap {
  ss_generation : Z;
  ss_cached : option cache;
  ss_pending : option nat;
  ss_works : list work;
  ss_waiting : list (nat * nat)
}.

Definition find_work (id : nat) (s : snap_state) : option work :=
  first_where (fun w => Nat.eqb (wk_id w) id) (ss_works s).

Definition invalidateWireguardSnapshot (s : snap_state) : snap_state :=
  MkSnap (ss_generation s + 1) None (ss_pending s) (ss_works s) (ss_waiting s).

(** The synchronous part of [readWireguardSnapshot]: the cached snapshot, or
    the observation to wait for, which is started if there is none. *)
Definition read_snapshot (now : Z) (reader : nat) (s : snap_state) : option snapshot * snap_state :=
  let hit := match ss_cached s with
             | Some c => if (cc_generation c =? ss_generation s) && (now <? cc_expires c)
                         then Some (cc_snapshot c) else None
             | None => None
             end in
  match hit with
  | Some snap => (Some snap, s)
  | None =>
      match ss_pending s with
      | Some id => (None, MkSnap (ss_generation s) (ss_cached s) (Some id) (ss_works s) ((reader, id) :: ss_waiting s))
      | None =>
          let id := length (ss_works s) in
          (None, MkSnap (ss_generation s) (ss_cached s) (Some id)
                   (ss_works s ++ [MkWork id (ss_generation s) None]) ((reader, id) :: ss_waiting s))
      end
  end.

(** The observation of [id] is over: its result is cached if no invalidation
    came in between. *)
Definition finish_work (now : Z) (id : nat) (snap : snapshot) (s : snap_state) : snap_state :=
  match find_work id s with
  | Some w =>
      MkSnap (ss_generation s)
        (if wk_generation w =? ss_generation s
         then Some (MkCacheEntry (ss_generation s) (now + SNAPSHOT_TTL_MS) snap) else ss_cached s)
        (ss_pending s)
        (patch_where (fun x => Nat.eqb (wk_id x) id) (fun x => MkWork (wk_id x) (wk_generation x) (Some snap)) (ss_works s))
        (ss_waiting s)
  | None => s
  end.

(** [if (pending === work) pending = undefined] *)
Definition clear_pending (id : nat) (s : snap_state) : snap_state :=
  match ss_pending s with
  | Some p => if Nat.eqb p id
              then MkSnap (ss_generation s) (ss_cached s) None (ss_works s) (ss_waiting s) else s
  | None => s
  end.

(** A waiting reader resumes with the result of its observation: it returns
    it, or reads again when the generation has moved on. *)
Definition resume (now : Z) (reader id : nat) (s : snap_state) : option snapshot * snap_state :=
  let s' := MkSnap (ss_generation s) (ss_cached s) (ss_pending s) (ss_works s)
              (delete_where (fun x => Nat.eqb (fst x) reader && Nat.eqb (snd x) id) (ss_waiting s)) in
  match find_work id s with
  | Some w =>
      match wk_result w with
      | Some snap => if wk_generation w =? ss_generation s then (Some snap, s') else read_snapshot now reader s'
      | None => (None, s)
      end
  | None => (None, s)
  end.

(** One step, and the snapshot a reader is given in it.  Readers wait for the
    promise that settles after the observation was cleared. *)
Inductive snap_step (s : snap_state) : snap_state -> option snapshot -> Prop :=
| snap_invalidate : snap_step s (invalidateWireguardSnapshot s) None
| snap_read now reader :
    snap_step s (snd (read_snapshot now reader s)) (fst (read_snapshot now reader s))
| snap_finish now id tools w :
    find_work id s = Some w -> wk_result w = None ->
    snap_step s (finish_work now id (observe tools) s) None
| snap_clear id w :
    find_work id s = Some w -> wk_result w <> None -> snap_step s (clear_pending id s) None
| snap_resume now reader id w :
    In (reader, id) (ss_waiting s) -> find_work id s = Some w -> wk_result w <> None ->
    ss_pending s <> Some id ->
    snap_step s (snd (resume now reader id s)) (fst (resume now reader id s)).

Definition snap_init (s : snap_state) : Prop :=
  ss_cached s = None /\ ss_pending s = None /\ ss_works s = [] /\ ss_waiting s = [].
Definition snap_next (s s' : snap_state) : Prop := exists out, snap_step s s' out.

(** ** The invariant *)

Record snap_inv (s : snap_state) : Prop := {
  sv_ids : map wk_id (ss_works s) = List.seq 0 (length (ss_works s));
  sv_past : forall w, In w (ss_works s) -> wk_generation w <= ss_generation s;
  sv_open : forall w, In w (ss_works s) -> wk_result w = None -> ss_pending s = Some (wk_id w);
  sv_cached : forall c, ss_cached s = Some c -> exists w, In w (ss_works s) /\
    wk_generation w = cc_generation c /\ wk_result w = Some (cc_snapshot c)
}.

Lemma find_work_in id s w : find_work id s = Some w -> In w (ss_works s) /\ wk_id w = id.
Proof. intros Hf. apply first_where_Some in Hf as [Hin He]. by apply Nat.eqb_eq in He. Qed.

Lemma work_unique s w w' : snap_inv s -> In w (ss_works s) -> In w' (ss_works s) -> wk_id w = wk_id w' -> w = w'.
Proof.
  intros Hinv. apply (key_unique wk_id). rewrite (sv_ids _ Hinv). apply seq_NoDup.
Qed.

Lemma invalidate_inv s : snap_inv s -> snap_inv (invalidateWireguardSnapshot s).
Proof.
  intros [Hid Hp Ho Hc]. split; simpl; [done| |done|done]. intros w Hw. apply Hp in Hw. lia.
Qed.

Lemma read_inv now reader s : snap_inv s -> snap_inv (snd (read_snapshot now reader s)).
Proof.
  intros Hinv. unfold read_snapshot. destruct (match ss_cached s with Some c => _ | None => None end); [done|].
  destruct (ss_pending s) as [id|] eqn:Ep.
  - destruct Hinv as [Hid Hp Ho Hc]. split; simpl; try done. by rewrite <- Ep.
  - destruct Hinv as [Hid Hp Ho Hc]. split; simpl.
    + rewrite map_app, length_app, seq_app, Hid. done.
    + intros w [Hw|[<-|[]]]%in_app_or; [by apply Hp|]. simpl. lia.
    + intros w [Hw|[<-|[]]]%in_app_or Hr; [|done]. apply Ho in Hw; [|done]. by rewrite Hw in Ep.
    + intros c Hc'. destruct (Hc c Hc') as (w & Hw & ? & ?). exists w. split; [|done]. apply in_or_app. by left.
Qed.

Lemma finish_inv now id snap s w :
  snap_inv s -> find_work id s = Some w -> wk_result w = None -> snap_inv (finish_work now id snap s).
Proof.
  intros Hinv Hf Hr. unfold finish_work. rewrite Hf. apply find_work_in in Hf as [Hin Hid].
  pose proof (fun w' Hw' He => work_unique s w' w Hinv Hw' Hin He) as Huniq.
  destruct Hinv as [Hids Hp Ho Hc]. split; simpl.
  - rewrite map_patch by done. unfold patch_where. by rewrite length_map.
  - intros w' [(w0 & Hw & _ & ->)|[Hw _]]%in_patch; [by apply (Hp w0)|by apply (Hp w')].
  - intros w' [(w0 & Hw & _ & ->)|[Hw _]]%in_patch Hr'; [done|by apply Ho].
  - assert (In (MkWork (wk_id w) (wk_generation w) (Some snap))
      (patch_where (fun x => Nat.eqb (wk_id x) id) (fun x => MkWork (wk_id x) (wk_generation x) (Some snap)) (ss_works s))) as Hnew.
    { apply in_patch. left. exists w. by rewrite Hid, Nat.eqb_refl. }
    intros c Hcc. destruct (wk_generation w =? ss_generation s) eqn:Eg.
    + injection Hcc as <-. apply Z.eqb_eq in Eg. eexists. split; [exact Hnew|]. by split.
    + destruct (Hc c Hcc) as (w' & Hw' & Hg & Hs). exists w'. split; [|done]. apply in_patch. right. split; [done|].
      apply Nat.eqb_neq. intros He. rewrite <- Hid in He. apply Huniq in He as ->; [|done]. congruence.
Qed.

Lemma clear_inv id s w :
  snap_inv s -> find_work id s = Some w -> wk_result w <> None -> snap_inv (clear_pending id s).
Proof.
  intros Hinv Hf Hr. unfold clear_pending. destruct (ss_pending s) as [p|] eqn:Ep; [|done].
  destruct (Nat.eqb_spec p id) as [->|]; [|done]. apply find_work_in in Hf as [Hin Hid].
  pose proof (fun w' Hw' He => work_unique s w' w Hinv Hw' Hin He) as Huniq.
  destruct Hinv as [Hids Hp Ho Hc]. split; simpl; try done. intros w' Hw' Hr'.
  pose proof (Ho w' Hw' Hr') as Hpend. rewrite Ep in Hpend. injection Hpend as Hpend.
  rewrite (Huniq w' Hw') in Hr' by congruence. done.
Qed.

Lemma resume_inv now reader id s : snap_inv s -> snap_inv (snd (resume now reader id s)).
Proof.
  intros Hinv. unfold resume. destruct (find_work id s) as [w|]; [|done]. destruct (wk_result w); [|done].
  set (s' := MkSnap _ _ _ _ _). assert (snap_inv s') as Hinv' by (by destruct Hinv).
  destruct (_ =? _); [done|]. by apply read_inv.
Qed.

Lemma snap_next_inv s s' : snap_inv s -> snap_next s s' -> snap_inv s'.
Proof.
  intros Hinv [out []]; [by apply invalidate_inv|by apply read_inv|by eapply finish_inv|by eapply clear_inv
    |by apply resume_inv].
Qed.

Lemma snap_reachable_inv s : reachable snap_init snap_next s -> snap_inv s.
Proof.
  apply invariant_reachable; [|apply snap_next_inv]. intros s0 (Hc & Hp & Hw & _).
  split; rewrite ?Hc, ?Hp, ?Hw; done.
Qed.

Lemma read_answer now reader s snap :
  snap_inv s -> fst (read_snapshot now reader s) = Some snap ->
  exists w, In w (ss_works s) /\ wk_generation w = ss_generation s /\ wk_result w = Some snap.
Proof.
  intros Hinv. unfold read_snapshot. destruct (ss_cached s) as [c|] eqn:Ec.
  - destruct (_ && _) eqn:E; [|by destruct (ss_pending s)]. intros [= <-]. boolify.
    destruct (sv_cached _ Hinv c Ec) as (w & Hw & Hg & Hs). exists w. by rewrite Hg.
  - by destruct (ss_pending s).
Qed.

(** No reader is ever given a status from before a configuration change.
    The snapshot of any answer, cached or awaited, comes from an observation
    that started in the generation current when it is given, so after the
    last invalidation; and however many readers there are, at most one
    observation is running. *)
Theorem snapshots_are_never_stale s s' snap :
  reachable snap_init snap_next s ->
  (snap_step s s' (Some snap) ->
   exists w, In w (ss_works s) /\ wk_generation w = ss_generation s /\ wk_result w = Some snap) /\
  (forall w w', In w (ss_works s) -> In w' (ss_works s) -> wk_result w = None -> wk_result w' = None -> w = w').
Proof.
  intros Hinv%snap_reachable_inv. split.
  - intros Hstep. inversion Hstep as [|now reader Hs Ha| | |now reader id w _ Hf _ _ Hs Ha]; subst.
    + rewrite ?Ha. by eapply read_answer.
    + rewrite ?Ha. revert Ha. unfold resume. rewrite Hf. destruct (wk_result w) as [r|] eqn:Er; [|done].
      destruct (wk_generation w =? ss_generation s) eqn:Eg.
      * simpl. intros [= <-]. apply find_work_in in Hf as [Hin _]. apply Z.eqb_eq in Eg. by exists w.
      * set (s'' := MkSnap _ _ _ _ _). intros Ha. assert (snap_inv s'') as Hinv' by (by destruct Hinv).
        by apply (read_answer now reader s'').
  - intros w w' Hw Hw' Hr Hr'. pose proof (sv_open _ Hinv w Hw Hr) as Hp. rewrite (sv_open _ Hinv w' Hw' Hr') in Hp.
    injection Hp as Hp. by apply (work_unique s).
Qed.

(** ** A concrete run *)

Section DemoStatus.
Definition tab_line (xs : list string) : string := JsString.join (String TAB "") xs.
Definition demo_dump : string :=
  (tab_line ["serverpriv"; "serverpub"; "51820"; "off"] ++ String NL
   (tab_line ["peer"; "psk"; "1.2.3.4:5"; "10.8.0.2/32"; "1700"; "42"; "7"; "25"]))%string.
Definition demo_tools : wg_tools := MkTools true true (Some demo_dump).

Definition snap0 : snap_state := MkSnap 0 None None [] [].
Definition snap1 : snap_state := snd (read_snapshot 100 1 snap0).
Definition snap2 : snap_state := finish_work 150 0 (observe demo_tools) snap1.

Lemma snap2_reachable : reachable snap_init snap_next snap2.
Proof.
  eapply reachable_step; [eapply reachable_step; [apply (reachable_init _ _ snap0); by split_and!|]|].
  - eexists. apply (snap_read snap0 100 1).
  - eexists. by apply (snap_finish snap1 150 0 demo_tools (MkWork 0 0 None)).
Defined.

Lemma snapshots_are_never_stale_witness :
  fst (read_snapshot 200 2 snap2) = Some (observe demo_tools) /\
  sn_statuses (observe demo_tools) !! "peer" = Some (MkStatus 1700 42 7) /\
  (exists w, In w (ss_works snap2) /\ wk_generation w = 0 /\ wk_result w = Some (observe demo_tools)).
Proof.
  split; [vm_compute; reflexivity|]. split; [vm_compute; reflexivity|].
  destruct (snapshots_are_never_stale snap2 (snd (read_snapshot 200 2 snap2)) (observe demo_tools) snap2_reachable)
    as [Hs _].
  apply Hs. exact (snap_read snap2 200 2).
Defined.
End DemoStatus.
