(* ===== verification/WireguardKeys.v ===== *)
(** The key files of the tunnel server: [ensureServerKeys] and
    [writeServerKeyAtomically] of src/backend/internal/wireguard.js, when
    several processes start on one data directory and may stop anywhere.

    Each await and each file operation is a step of its own; a process that
    stopped is one that takes no further step. *)

From S2P Require Import Prelude JsString.
From stdpp Require Import list.
#[local] Open Scope string_scope.
#[local] Open Scope list_scope.

Record key_files : Type := MkFiles { kf_private : option string; kf_public : option string }.

(** Publish a complete file: replace it, or link it only where there is none.
    The flag says whether this value was published. *)
Definition writeServerKeyAtomically (replace : bool) (value : string) (current : option string)
    : bool * option string :=
  if replace then (true, Some value)
  else match current with
       | Some old => (false, Some old)
       | None => (true, Some value)
       end.

(** Where a process is in [ensureServerKeys]. *)
Inductive phase : Type :=
| Looking
| Generated (privateKey publicKey : string)
| Publishing (publicKey : string)
| CheckingPublic
| Deriving (privateKey : string)
| Finished.

Section Keys.
(** [wg pubkey], and what it prints is trimmed like every output. *)
Context (wg_pubkey : string -> string).

(** One step of a process; [raw] is what [wg genkey] prints if it runs. *)
Definition run_phase (raw : string) (f : key_files) (p : phase) : key_files * phase :=
  match p with
  | Looking =>
      match kf_private f with
      | Some _ => (f, CheckingPublic)
      | None => let priv := trim raw in (f, Generated priv (wg_pubkey priv))
      end
  | Generated priv pub =>
      let (published, file) := writeServerKeyAtomically false priv (kf_private f) in
      (MkFiles file (kf_public f), if published then Publishing pub else CheckingPublic)
  | Publishing pub => (MkFiles (kf_private f) (snd (writeServerKeyAtomically true pub (kf_public f))), Finished)
  | CheckingPublic =>
      match kf_public f, kf_private f with
      | Some _, _ => (f, Finished)
      | None, Some priv => (f, Deriving (trim priv))
      | None, None => (f, CheckingPublic)
      end
  | Deriving priv =>
      (MkFiles (kf_private f) (snd (writeServerKeyAtomically true (wg_pubkey priv) (kf_public f))), Finished)
  | Finished => (f, Finished)
  end.

Record key_state : Type := MkKeys { ks_files : key_files; ks_processes : list phase }.

Inductive key_step (s : key_state) : key_state -> Prop :=
| key_start : key_step s (MkKeys (ks_files s) (ks_processes s ++ [Looking]))
| key_run i p raw :
    ks_processes s !! i = Some p ->
    key_step s (MkKeys (fst (run_phase raw (ks_files s) p)) (<[i := snd (run_phase raw (ks_files s) p)]> (ks_processes s))).

Definition key_init (s : key_state) : Prop :=
  ks_files s = MkFiles None None /\ ks_processes s = [].

(** [run_alone n]: what [n] steps of one process make of the files. *)
Fixpoint run_alone (n : nat) (raw : string) (f : key_files) (p : phase) : key_files * phase :=
  match n with
  | O => (f, p)
  | S n' => let (f', p') := run_phase raw f p in run_alone n' raw f' p'
  end.

(** ** The invariant *)

(** What a process may rely on in each phase. *)
Definition phase_ok (f : key_files) (p : phase) : Prop :=
  match p with
  | Looking => True
  | Generated priv pub => pub = wg_pubkey priv /\ trim priv = priv
  | Publishing pub => exists k, kf_private f = Some k /\ pub = wg_pubkey k
  | CheckingPublic => kf_private f <> None
  | Deriving priv => kf_private f = Some priv
  | Finished => kf_private f <> None /\ kf_public f <> None
  end.

Definition files_ok (f : key_files) : Prop :=
  (forall k, kf_private f = Some k -> trim k = k) /\
  (forall pub, kf_public f = Some pub -> exists k, kf_private f = Some k /\ pub = wg_pubkey k).

Definition key_inv (s : key_state) : Prop := files_ok (ks_files s) /\ Forall (phase_ok (ks_files s)) (ks_processes s).

(** Files are only added: the private one never changes. *)
Definition grown (f f' : key_files) : Prop :=
  (forall k, kf_private f = Some k -> kf_private f' = Some k) /\ (kf_public f <> None -> kf_public f' <> None).

Lemma phase_ok_grown f f' p : grown f f' -> phase_ok f p -> phase_ok f' p.
Proof.
  intros [Hp Hq]. destruct p; simpl; try done.
  - intros (k & Hk & ->). exists k. by rewrite (Hp k Hk).
  - destruct (kf_private f) as [k|] eqn:E; [|done]. intros _. by rewrite (Hp k eq_refl).
  - by apply Hp.
  - intros [Hk Hr]. split; [|by apply Hq]. destruct (kf_private f) as [k|] eqn:E; [|done]. by rewrite (Hp k eq_refl).
Qed.

Lemma run_phase_ok raw f p :
  files_ok f -> phase_ok f p ->
  let (f', p') := run_phase raw f p in files_ok f' /\ phase_ok f' p' /\ grown f f'.
Proof.
  destruct f as [fp fq]. intros [Htrim Hpub] Hp. unfold files_ok, grown. destruct p; simpl in *.
  - destruct fp; simpl; split_and!; try congruence; auto. by rewrite trim_idem.
  - destruct Hp as [-> Ht]. destruct fp as [k|]; simpl; split_and!; try congruence; auto.
    + intros pub Hq. by destruct (Hpub pub Hq) as (k & Hk & _).
    + by exists privateKey.
  - destruct Hp as (k & -> & ->). split_and!; try congruence; auto. intros pub [= <-]. by exists k.
  - destruct fq as [pub|]; [split_and!; simpl; try congruence; auto|].
    destruct fp as [k|]; [|done]. split_and!; simpl; try congruence; auto. by rewrite Htrim.
  - subst fp. split_and!; try congruence; auto. intros pub [= <-]. by exists privateKey.
  - split_and!; auto; by destruct Hp.
Qed.

Lemma key_step_ok s s' : key_inv s -> key_step s s' -> key_inv s' /\ grown (ks_files s) (ks_files s').
Proof.
  intros [Hf Hp] [|i p raw Hi].
  - split; [split; [done|]|by split]. apply Forall_app. split; [done|]. by repeat constructor.
  - pose proof (run_phase_ok raw (ks_files s) p Hf) as Hrun.
    assert (phase_ok (ks_files s) p) as Hpok by (by eapply Forall_lookup_1).
    specialize (Hrun Hpok). destruct (run_phase raw (ks_files s) p) as [f' p']. destruct Hrun as (Hf' & Hp' & Hg).
    split; [|done]. split; [done|]. simpl. apply Forall_insert; [|done].
    eapply Forall_impl; [exact Hp|]. intros q. by apply phase_ok_grown.
Qed.

Lemma key_reachable_inv s : reachable key_init key_step s -> key_inv s.
Proof.
  apply invariant_reachable.
  - intros s0 [Hf Hp]. unfold key_inv. rewrite Hf, Hp. split; [by split|constructor].
  - intros s1 s2 Hs Hst. by destruct (key_step_ok s1 s2 Hs Hst).
Qed.

Lemma key_steps_grown s s' : key_inv s -> rtc key_step s s' -> grown (ks_files s) (ks_files s').
Proof.
  intros Hinv Hs. induction Hs as [|s s1 s' H1 Hs IH]; [by split|].
  destruct (key_step_ok _ _ Hinv H1) as [Hinv1 [Ha Hb]]. destruct (IH Hinv1) as [Hc Hd]. split; auto.
Qed.

(** From any intermediate state, four steps of a process finish it. *)
Lemma run_alone_finishes raw f p :
  files_ok f -> phase_ok f p -> snd (run_alone 4 raw f p) = Finished.
Proof.
  destruct f as [[k|] [pub|]]; intros Hf Hp; destruct p; simpl in *; done.
Qed.

Lemma run_alone_ok n raw : forall f p,
  files_ok f -> phase_ok f p ->
  let (f', p') := run_alone n raw f p in files_ok f' /\ phase_ok f' p'.
Proof.
  induction n as [|n IH]; intros f p Hf Hp; [done|]. cbn [run_alone].
  pose proof (run_phase_ok raw f p Hf Hp) as Hrun. destruct (run_phase raw f p) as [f1 p1].
  destruct Hrun as (Hf1 & Hp1 & _). by apply IH.
Qed.

(** The server keeps one identity.  However many processes start on the
    data directory, interleave and stop half way, the private key once
    published is never replaced, a public key on disk always belongs to the
    private key on disk, and a process that is left alone finishes, in at most
    four steps from wherever it is, with both files present. *)
Theorem server_identity_is_permanent s s' raw :
  reachable key_init key_step s -> rtc key_step s s' ->
  (forall k, kf_private (ks_files s) = Some k -> kf_private (ks_files s') = Some k) /\
  (forall pub, kf_public (ks_files s') = Some pub ->
     exists k, kf_private (ks_files s') = Some k /\ pub = wg_pubkey k) /\
  (forall p, In p (ks_processes s') ->
     let (f, q) := run_alone 4 raw (ks_files s') p in
     q = Finished /\ kf_private f <> None /\ kf_public f <> None).
Proof.
  intros Hinv%key_reachable_inv Hs. destruct (key_steps_grown _ _ Hinv Hs) as [Hpriv _].
  assert (key_inv s') as [Hf Hp].
  { clear Hpriv. induction Hs as [|s s1 s' H1 Hs IH]; [done|]. apply IH. by destruct (key_step_ok _ _ Hinv H1). }
  split_and!; [done|apply Hf|]. intros p Hin%list_elem_of_In. rewrite Forall_forall in Hp. specialize (Hp p Hin).
  pose proof (run_alone_finishes raw _ _ Hf Hp) as Hfin. pose proof (run_alone_ok 4 raw _ _ Hf Hp) as Hok.
  destruct (run_alone 4 raw (ks_files s') p) as [f q]. simpl in Hfin. subst q. by destruct Hok.
Qed.
End Keys.

(** ** Two processes *)

Section DemoKeys.
Definition demo_pubkey (k : string) : string := (k ++ "-pub")%string.

(** The first stops right after it published its private key; the second, which
    had generated another one, goes on. *)
Definition race1 : key_state := MkKeys (MkFiles (Some "k1") None) [Publishing "k1-pub"; Generated "k2" "k2-pub"].
Definition race2 : key_state := MkKeys (MkFiles (Some "k1") None) [Publishing "k1-pub"; CheckingPublic].

Definition raceA : key_state := MkKeys (MkFiles None None) [Looking; Looking].
Definition raceB : key_state := MkKeys (MkFiles None None) [Generated "k1" "k1-pub"; Looking].
Definition raceC : key_state := MkKeys (MkFiles None None) [Generated "k1" "k1-pub"; Generated "k2" "k2-pub"].

Lemma race1_reachable : reachable key_init (key_step demo_pubkey) race1.
Proof.
  apply (reachable_step _ _ raceC); [|exact (key_run demo_pubkey raceC 0 _ "" eq_refl)].
  apply (reachable_step _ _ raceB); [|exact (key_run demo_pubkey raceB 1 _ " k2" eq_refl)].
  apply (reachable_step _ _ raceA); [|exact (key_run demo_pubkey raceA 0 _ "k1 " eq_refl)].
  apply (reachable_step _ _ (MkKeys (MkFiles None None) [Looking])); [|exact (key_start demo_pubkey _)].
  apply (reachable_step _ _ (MkKeys (MkFiles None None) [])); [|exact (key_start demo_pubkey _)].
  by apply reachable_init.
Qed.

Lemma server_identity_is_permanent_witness :
  kf_private (ks_files race2) = Some "k1" /\
  run_alone demo_pubkey 4 "k3" (ks_files race2) CheckingPublic = (MkFiles (Some "k1") (Some "k1-pub"), Finished).
Proof.
  split; [|vm_compute; reflexivity].
  destruct (server_identity_is_permanent demo_pubkey race1 race2 "k3" race1_reachable) as (Hk & _ & _).
  - apply rtc_once. exact (key_run demo_pubkey race1 1 (Generated "k2" "k2-pub") "" eq_refl).
  - exact (Hk "k1" eq_refl).
Defined.
End DemoKeys.
