(* ===== verification/NginxLexer.v ===== *)
(** The configuration reader of src/backend/lib/firewall-geoip-config.js: the
    incremental Nginx lexer, one character at a time.

    The lexer is a generator: it hands a directive to its consumer, which may
    change how the lexer goes on ([skipBlock], [inspectMap]), and finishes the
    directive afterwards.  Here a step returns the directive, the consumer is
    a function on the lexer, and [after_yield] is the rest of the turn. *)

From S2P Require Import Prelude JsString Errors.
#[local] Open Scope string_scope.
#[local] Open Scope list_scope.
#[local] Open Scope Z_scope.

Definition MAX_WORD : Z := 1024 * 1024.
Definition MAX_WORDS : Z := 16384.
Definition invalid : error := ValidationError "Invalid or oversized Nginx configuration".

Record lexer : Type := MkLexer {
  word : string;
  wordStarted : bool;
  words : list string;
  quote : option ascii;
  escaped : bool;
  comment : bool;
  variable : bool;
  depth : Z;
  skipped : Z;
  lua : bool;
  dash : bool;
  longOpening : string;
  longClosing : string;
  longTail : string;
  commentOpening : bool;
  directiveLength : Z;
  mapDepth : option Z;
  mapFirst : bool;
  mapKind : string;
  mapWords : list string;
  mapIgnoreWord : bool;
  mapLastChar : option ascii;
  mapRowStarted : bool
}.

Definition new_lexer (mapTable : bool) : lexer :=
  MkLexer "" false [] None false false false 0 0 false false "" "" "" false 0
    (if mapTable then Some 0 else None) true "" [] false None false.

Record directive : Type := MkDirective { dv_words : list string; dv_boundary : ascii }.

(** ** Field updates *)

Definition set_word v st (l : lexer) : lexer :=
  MkLexer v st (words l) (quote l) (escaped l) (comment l) (variable l) (depth l) (skipped l) (lua l) (dash l)
    (longOpening l) (longClosing l) (longTail l) (commentOpening l) (directiveLength l) (mapDepth l) (mapFirst l)
    (mapKind l) (mapWords l) (mapIgnoreWord l) (mapLastChar l) (mapRowStarted l).
Definition set_words v n (l : lexer) : lexer :=
  MkLexer (word l) (wordStarted l) v (quote l) (escaped l) (comment l) (variable l) (depth l) (skipped l) (lua l)
    (dash l) (longOpening l) (longClosing l) (longTail l) (commentOpening l) n (mapDepth l) (mapFirst l)
    (mapKind l) (mapWords l) (mapIgnoreWord l) (mapLastChar l) (mapRowStarted l).
Definition set_modes q e c v (l : lexer) : lexer :=
  MkLexer (word l) (wordStarted l) (words l) q e c v (depth l) (skipped l) (lua l) (dash l)
    (longOpening l) (longClosing l) (longTail l) (commentOpening l) (directiveLength l) (mapDepth l) (mapFirst l)
    (mapKind l) (mapWords l) (mapIgnoreWord l) (mapLastChar l) (mapRowStarted l).
Definition set_depth d sk lu da (l : lexer) : lexer :=
  MkLexer (word l) (wordStarted l) (words l) (quote l) (escaped l) (comment l) (variable l) d sk lu da
    (longOpening l) (longClosing l) (longTail l) (commentOpening l) (directiveLength l) (mapDepth l) (mapFirst l)
    (mapKind l) (mapWords l) (mapIgnoreWord l) (mapLastChar l) (mapRowStarted l).
Definition set_long o c t co (l : lexer) : lexer :=
  MkLexer (word l) (wordStarted l) (words l) (quote l) (escaped l) (comment l) (variable l) (depth l) (skipped l)
    (lua l) (dash l) o c t co (directiveLength l) (mapDepth l) (mapFirst l)
    (mapKind l) (mapWords l) (mapIgnoreWord l) (mapLastChar l) (mapRowStarted l).
Definition set_map d f k ws i lc r (l : lexer) : lexer :=
  MkLexer (word l) (wordStarted l) (words l) (quote l) (escaped l) (comment l) (variable l) (depth l) (skipped l)
    (lua l) (dash l) (longOpening l) (longClosing l) (longTail l) (commentOpening l) (directiveLength l)
    d f k ws i lc r.

Definition set_quote q l := set_modes q (escaped l) (comment l) (variable l) l.
Definition set_escaped e l := set_modes (quote l) e (comment l) (variable l) l.
Definition set_comment c l := set_modes (quote l) (escaped l) c (variable l) l.
Definition set_variable v l := set_modes (quote l) (escaped l) (comment l) v l.
Definition set_dash d l := set_depth (depth l) (skipped l) (lua l) d l.

(** ** Words *)

Definition snoc (s : string) (c : ascii) : string := (s ++ String c "")%string.

(** The bound on a word and on a directive. *)
Definition count_char (l : lexer) : fallible lexer :=
  throw invalid when (MAX_WORD <? strlen (word l)) ;;
  throw invalid when (2 * MAX_WORD <? directiveLength l + 1) ;;
  Ok (set_words (words l) (directiveLength l + 1) l).

Definition append (c : ascii) (l : lexer) : fallible lexer :=
  let l := set_word (word l) true l in
  match mapDepth l with
  | Some _ =>
      let l := set_map (mapDepth l) (mapFirst l) (mapKind l) (mapWords l) (mapIgnoreWord l) (Some c) true l in
      if mapFirst l then
        if mapIgnoreWord l then Ok l
        else
          let w := snoc (word l) c in
          if negb (starts_with "~" w) && negb (starts_with w "include")
          then Ok (set_map (mapDepth l) (mapFirst l) (mapKind l) (mapWords l) true (mapLastChar l) (mapRowStarted l)
                     (set_word "" true l))
          else count_char (set_word w true l)
      else if String.eqb (mapKind l) "include" then count_char (set_word (snoc (word l) c) true l)
      else Ok l
  | None => count_char (set_word (snoc (word l) c) true l)
  end.

Definition kind_of (w : string) : string :=
  if String.eqb w "include" then "include" else if starts_with "~" w then "regex" else "".

Definition flush_map (l : lexer) : fallible lexer :=
  let kind := if mapFirst l then kind_of (word l) else mapKind l in
  let ws := if mapFirst l then (if String.eqb kind "" then mapWords l else mapWords l ++ [word l])
            else if String.eqb kind "include" then mapWords l ++ [word l] else mapWords l in
  throw invalid when (MAX_WORDS <? Z.of_nat (length ws)) ;;
  Ok (set_map (mapDepth l) false kind ws false None (mapRowStarted l) l).

Definition flush (l : lexer) : fallible lexer :=
  let? l := match mapDepth l with
            | Some _ => if wordStarted l then flush_map l else Ok l
            | None => Ok (if wordStarted l then set_words (words l ++ [word l]) (directiveLength l) l else l)
            end in
  let l := set_word "" false l in
  throw invalid when (MAX_WORDS <? Z.of_nat (length (words l))) ;;
  Ok l.

Definition resetMapRow (l : lexer) : lexer :=
  set_words (words l) 0 (set_word "" false (set_map (mapDepth l) true "" [] false None false l)).

(** ** What a consumer may do *)

Definition inspectMap (l : lexer) : lexer :=
  resetMapRow (set_map (Some (depth l)) (mapFirst l) (mapKind l) (mapWords l) (mapIgnoreWord l) (mapLastChar l)
                 (mapRowStarted l) l).

Definition skipBlock (isLua : bool) (l : lexer) : lexer := set_depth (depth l) 1 isLua (dash l) l.

(** ** One character *)

Definition DQUOTE : ascii := ascii_of_nat 34.
Definition BACKSLASH : ascii := ascii_of_nat 92.
Definition NEWLINE : ascii := ascii_of_nat 10.

Abbreviation turn := (fallible (lexer * option directive)).
Definition stay (l : lexer) : turn := Ok (l, None).
Definition stays (m : fallible lexer) : turn := rmap (fun l => (l, None)) m.
Definition is_skipped (l : lexer) : bool := negb (skipped l =? 0).
Definition nonempty (s : string) : bool := negb (String.eqb s "").
Definition char_in (c : ascii) (cs : list ascii) : bool := existsb (Ascii.eqb c) cs.

(** Inside a long bracket of a skipped block, until its closing text. *)
Definition in_long (c : ascii) (l : lexer) : turn :=
  let both := snoc (longTail l) c in
  let tail := drop_str (String.length both - String.length (longClosing l)) both in
  if String.eqb tail (longClosing l)
  then stay (set_comment false (set_long (longOpening l) "" "" (commentOpening l) l))
  else stay (set_long (longOpening l) (longClosing l) tail (commentOpening l) l).

(** The escaped character of a word. *)
Definition unescape (c : ascii) (l : lexer) : fallible lexer :=
  if char_in c [BACKSLASH; DQUOTE; "'"%char] then append c l
  else if Ascii.eqb c "n" then append NEWLINE l
  else if Ascii.eqb c "r" then append (ascii_of_nat 13) l
  else if Ascii.eqb c "t" then append (ascii_of_nat 9) l
  else let? l := append BACKSLASH l in append c l.

(** Characters of the table of a map block. *)
Definition in_map (c : ascii) (at_depth : Z) (l : lexer) : turn :=
  if is_space c then stays (flush l)
  else if Ascii.eqb c ";" then
    let? l := flush l in
    match mapWords l with
    | [] => stay (resetMapRow l)
    | ws => Ok (l, Some (MkDirective ws ";"%char))
    end
  else if Ascii.eqb c "}" then
    throw invalid when (mapRowStarted l || negb (depth l =? at_depth) || (depth l - 1 <? 0)) ;;
    let l := set_depth (depth l - 1) (skipped l) (lua l) (dash l) l in
    Ok (set_map None (mapFirst l) (mapKind l) (mapWords l) (mapIgnoreWord l) (mapLastChar l) (mapRowStarted l) l,
        Some (MkDirective [] "}"%char))
  else if Ascii.eqb c "{" then Throw invalid
  else stays (append c l).

(** Characters of ordinary directives. *)
Definition in_directive (c : ascii) (l : lexer) : turn :=
  if is_space c then stays (flush l)
  else if char_in c ["{"%char; "}"%char; ";"%char] then
    let? l := flush l in
    let d := if Ascii.eqb c "{" then depth l + 1 else if Ascii.eqb c "}" then depth l - 1 else depth l in
    throw invalid when (Ascii.eqb c "}" && (d <? 0)) ;;
    let l := set_depth d (skipped l) (lua l) (dash l) l in
    Ok (l, Some (MkDirective (words l) c))
  else stays (append c l).

(** Characters of a skipped block: only its braces count. *)
Definition in_skipped (c : ascii) (l : lexer) : turn :=
  let n := if Ascii.eqb c "{" then skipped l + 1 else if Ascii.eqb c "}" then skipped l - 1 else skipped l in
  if Ascii.eqb c "}" && (n =? 0) then stay (set_depth (depth l - 1) 0 false false l)
  else stay (set_depth (depth l) n (lua l) (dash l) l).

(** After quotes, escapes and comments. *)
Definition plain_char (c : ascii) (l : lexer) : turn :=
  if variable l then
    let? l := if is_skipped l then Ok l else append c l in
    stay (if Ascii.eqb c "}" then set_variable false l else l)
  else if Ascii.eqb c "{" && (ends_with "$" (word l) || match mapLastChar l with Some d => Ascii.eqb d "$" | None => false end)
  then stays (append c (set_variable true l))
  else if is_skipped l then in_skipped c l
  else match mapDepth l with
       | Some d => in_map c d l
       | None => in_directive c l
       end.

(** Comments, and the dashes and brackets of skipped Lua. *)
Definition comment_char (c : ascii) (l : lexer) : turn :=
  if is_skipped l && lua l then
    if Ascii.eqb c "-" && dash l then
      stay (set_long (longOpening l) (longClosing l) (longTail l) true (set_comment true (set_dash false l)))
    else
      let l := set_dash (Ascii.eqb c "-") l in
      if Ascii.eqb c "[" then stay (set_long "[" (longClosing l) (longTail l) (commentOpening l) l)
      else plain_char c l
  else if Ascii.eqb c "#" && (is_skipped l || negb (wordStarted l)) then
    let? l := if is_skipped l then Ok l else flush l in
    stay (set_comment true l)
  else plain_char c l.

(** A quote opens a word, or text of a skipped block. *)
Definition open_quote (c : ascii) (l : lexer) : lexer :=
  let l := set_quote (Some c) l in
  let l := if is_skipped l then l
           else
             let l := set_word (word l) true l in
             match mapDepth l with
             | Some _ => set_map (mapDepth l) (mapFirst l) (mapKind l) (mapWords l) (mapIgnoreWord l) (mapLastChar l) true l
             | None => l
             end in
  set_dash false l.

Definition quoting_char (c : ascii) (l : lexer) : turn :=
  if escaped l then
    let? l := if is_skipped l then Ok l else unescape c l in
    stay (set_escaped false l)
  else if Ascii.eqb c BACKSLASH then stay (set_escaped true l)
  else match quote l with
       | Some q =>
           if Ascii.eqb c q then stay (set_quote None l)
           else if is_skipped l then stay l
           else stays (append c l)
       | None =>
           if char_in c [DQUOTE; "'"%char] && (is_skipped l || negb (wordStarted l))
           then stay (open_quote c l)
           else comment_char c l
       end.

Definition base_char (c : ascii) (l : lexer) : turn :=
  if comment l then
    let opening := if is_skipped l && lua l && commentOpening l && Ascii.eqb c "[" then "[" else longOpening l in
    let l := set_long opening (longClosing l) (longTail l) false l in
    stay (if Ascii.eqb c NEWLINE then set_comment false l else l)
  else quoting_char c l.

(** One turn of the loop of [feed]. *)
Definition feed_char (c : ascii) (l : lexer) : turn :=
  if is_skipped l && nonempty (longClosing l) then in_long c l
  else if is_skipped l && lua l && nonempty (longOpening l) then
    if Ascii.eqb c "=" then
      let opening := snoc (longOpening l) c in
      throw invalid when (128 <? strlen opening) ;;
      stay (set_long opening (longClosing l) (longTail l) (commentOpening l) l)
    else if Ascii.eqb c "[" then
      stay (set_long "" ("]" ++ drop_str 1 (longOpening l) ++ "]") (longTail l) (commentOpening l) l)
    else base_char c (set_long "" (longClosing l) (longTail l) (commentOpening l) l)
  else base_char c l.

(** What the turn does after its directive was taken; [row] tells that a map
    table yielded it. *)
Definition after_yield (row : bool) (l : lexer) : lexer :=
  if row then resetMapRow l else set_words [] 0 l.

Definition feed_turn (consume : directive -> lexer -> lexer) (c : ascii) (l : lexer)
    : fallible (lexer * list directive) :=
  let row := match mapDepth l with Some _ => true | None => false end in
  let? r := feed_char c l in
  match snd r with
  | None => Ok (fst r, [])
  | Some d => Ok (after_yield row (consume d (fst r)), [d])
  end.

(** [feed], with its consumer, over a chunk. *)
Fixpoint feed (consume : directive -> lexer -> lexer) (chunk : string) (l : lexer)
    : fallible (lexer * list directive) :=
  match chunk with
  | EmptyString => Ok (l, [])
  | String c chunk' =>
      let? r := feed_turn consume c l in
      let? r' := feed consume chunk' (fst r) in
      Ok (fst r', snd r ++ snd r')
  end.

Definition finish (l : lexer) : fallible unit :=
  throw_if (negb (depth l =? 0) || is_skipped l || match quote l with Some _ => true | None => false end
            || escaped l || variable l || nonempty (longClosing l) || nonempty (word l) || wordStarted l
            || mapRowStarted l || match words l with [] => false | _ => true end) invalid.

(** All chunks of a file, and its end. *)
Fixpoint feed_chunks (consume : directive -> lexer -> lexer) (chunks : list string) (l : lexer)
    : fallible (lexer * list directive) :=
  match chunks with
  | [] => Ok (l, [])
  | chunk :: chunks' =>
      let? r := feed consume chunk l in
      let? r' := feed_chunks consume chunks' (fst r) in
      Ok (fst r', snd r ++ snd r')
  end.

Definition read_chunks (consume : directive -> lexer -> lexer) (chunks : list string) : fallible (list directive) :=
  let? r := feed_chunks consume chunks (new_lexer false) in
  let? _ := finish (fst r) in
  Ok (snd r).

(** ** Chunks *)

Lemma feed_app consume a b l :
  feed consume (a ++ b) l =
  (let? r := feed consume a l in let? r' := feed consume b (fst r) in Ok (fst r', snd r ++ snd r')).
Proof.
  revert l. induction a as [|c a IH]; intros l; cbn [feed String.append].
  - simpl. by destruct (feed consume b l) as [[]|].
  - destruct (feed_turn consume c l) as [[l1 d1]|]; [|done]. simpl. rewrite IH.
    destruct (feed consume a l1) as [[l2 d2]|]; [|done]. simpl. destruct (feed consume b l2) as [[l3 d3]|]; [|done].
    simpl. by rewrite app_assoc.
Qed.

(** Where the chunks of a file are cut makes no difference. *)
Lemma feed_chunks_whole consume chunks l :
  feed_chunks consume chunks l = feed consume (String.concat "" chunks) l.
Proof.
  revert l. induction chunks as [|c chunks IH]; intros l; [done|]. cbn [feed_chunks].
  assert (String.concat "" (c :: chunks) = (c ++ String.concat "" chunks)%string) as ->.
  { destruct chunks; simpl; [by rewrite append_nil_r|done]. }
  rewrite feed_app. destruct (feed consume c l) as [[l1 d1]|]; [|done]. simpl. by rewrite IH.
Qed.

(** ** Reading back printed directives *)

(** A word in double quotes, with its quotes and backslashes escaped. *)
Fixpoint escape_word (w : string) : string :=
  match w with
  | EmptyString => ""
  | String c w' => if char_in c [BACKSLASH; DQUOTE] then String BACKSLASH (String c (escape_word w'))
                   else String c (escape_word w')
  end.
Definition quote_word (w : string) : string := String DQUOTE (escape_word w ++ String DQUOTE " ").

Definition print_directive (d : directive) : string :=
  (String.concat "" (map quote_word (dv_words d)) ++ String (dv_boundary d) (String NEWLINE ""))%string.
Definition print_directives (ds : list directive) : string := String.concat "" (map print_directive ds).

(** The bounds of the lexer, and the characters that end a directive. *)
Definition fits (d : directive) : Prop :=
  Forall (fun w => strlen w <= MAX_WORD) (dv_words d) /\ total_length (dv_words d) <= 2 * MAX_WORD /\
  Z.of_nat (length (dv_words d)) <= MAX_WORDS /\ In (dv_boundary d) ["{"%char; "}"%char; ";"%char].

Definition depth_change (d : directive) : Z :=
  if Ascii.eqb (dv_boundary d) "{" then 1 else if Ascii.eqb (dv_boundary d) "}" then -1 else 0.

(** Blocks are balanced: the depth is never negative and ends at [stop]. *)
Fixpoint balanced (d stop : Z) (ds : list directive) : Prop :=
  match ds with
  | [] => d = stop
  | x :: ds' => 0 <= d + depth_change x /\ balanced (d + depth_change x) stop ds'
  end.

(** The lexer between two words, and inside a quoted one. *)
Definition idle (ws : list string) (n d : Z) : lexer :=
  MkLexer "" false ws None false false false d 0 false false "" "" "" false n None true "" [] false None false.
Definition quoted (q : option ascii) (e : bool) (w : string) (ws : list string) (n d : Z) : lexer :=
  MkLexer w true ws q e false false d 0 false false "" "" "" false n None true "" [] false None false.

Definition ignore (d : directive) (l : lexer) : lexer := l.

Lemma strlen_snoc w c : strlen (snoc w c) = strlen w + 1.
Proof. unfold snoc. rewrite length_append. simpl. lia. Qed.

Lemma append_quoted q e c w ws n d :
  strlen w + 1 <= MAX_WORD -> n + 1 <= 2 * MAX_WORD ->
  append c (quoted q e w ws n d) = Ok (quoted q e (snoc w c) ws (n + 1) d).
Proof.
  intros Hw Hn. unfold append, quoted, set_word. cbn [mapDepth]. unfold count_char. cbn [word directiveLength].
  rewrite strlen_snoc. replace (MAX_WORD <? strlen w + 1) with false by (symmetry; apply Z.ltb_ge; lia).
  replace (2 * MAX_WORD <? n + 1) with false by (symmetry; apply Z.ltb_ge; lia). reflexivity.
Qed.

(** One character of a quoted word, escaped or not. *)
Lemma feed_quoted_char c w ws n d :
  strlen w + 1 <= MAX_WORD -> n + 1 <= 2 * MAX_WORD ->
  feed ignore (if char_in c [BACKSLASH; DQUOTE] then String BACKSLASH (String c "") else String c "")
    (quoted (Some DQUOTE) false w ws n d) = Ok (quoted (Some DQUOTE) false (snoc w c) ws (n + 1) d, []).
Proof.
  intros Hw Hn. destruct (char_in c [BACKSLASH; DQUOTE]) eqn:Ec.
  - assert (feed_char BACKSLASH (quoted (Some DQUOTE) false w ws n d)
      = Ok (quoted (Some DQUOTE) true w ws n d, None)) as E1 by reflexivity.
    assert (feed_char c (quoted (Some DQUOTE) true w ws n d)
      = Ok (quoted (Some DQUOTE) false (snoc w c) ws (n + 1) d, None)) as E2.
    { change (feed_char c (quoted (Some DQUOTE) true w ws n d)) with
        (let? l := unescape c (quoted (Some DQUOTE) true w ws n d) in stay (set_escaped false l)).
      unfold unescape. assert (char_in c [BACKSLASH; DQUOTE; "'"%char] = true) as ->.
      { unfold char_in in *. cbn [existsb] in *. by destruct (Ascii.eqb c BACKSLASH), (Ascii.eqb c DQUOTE). }
      by rewrite append_quoted. }
    cbn [feed]. unfold feed_turn. rewrite E1. simpl. rewrite E2. reflexivity.
  - unfold char_in in Ec. cbn [existsb] in Ec. rewrite orb_false_r in Ec. apply orb_false_iff in Ec as [Eb Eq].
    assert (feed_char c (quoted (Some DQUOTE) false w ws n d)
      = Ok (quoted (Some DQUOTE) false (snoc w c) ws (n + 1) d, None)) as E.
    { change (feed_char c (quoted (Some DQUOTE) false w ws n d)) with
        (if Ascii.eqb c BACKSLASH then stay (quoted (Some DQUOTE) true w ws n d)
         else if Ascii.eqb c DQUOTE then stay (quoted None false w ws n d)
         else stays (append c (quoted (Some DQUOTE) false w ws n d))).
      rewrite Eb, Eq, append_quoted by done. reflexivity. }
    cbn [feed]. unfold feed_turn. rewrite E. reflexivity.
Qed.

Lemma snoc_append w c r : (snoc w c ++ r)%string = (w ++ String c r)%string.
Proof. unfold snoc. by rewrite append_assoc. Qed.

Lemma feed_escaped w : forall v ws n d,
  strlen v + strlen w <= MAX_WORD -> n + strlen w <= 2 * MAX_WORD ->
  feed ignore (escape_word w) (quoted (Some DQUOTE) false v ws n d) =
  Ok (quoted (Some DQUOTE) false (v ++ w) ws (n + strlen w) d, []).
Proof.
  induction w as [|c w IH]; intros v ws n d Hv Hn.
  - rewrite append_nil_r. simpl. by rewrite Z.add_0_r.
  - cbn [String.length] in *. assert (escape_word (String c w) =
      ((if char_in c [BACKSLASH; DQUOTE] then String BACKSLASH (String c "") else String c "") ++ escape_word w)%string)
      as -> by (cbn [escape_word]; by destruct (char_in c _)).
    rewrite feed_app, feed_quoted_char by lia. cbn [rbind fst snd]. rewrite IH by (rewrite ?strlen_snoc; lia).
    cbn [rbind fst snd app]. rewrite snoc_append. do 3 f_equal. lia.
Qed.

Lemma feed_word w ws n d :
  strlen w <= MAX_WORD -> n + strlen w <= 2 * MAX_WORD -> Z.of_nat (length ws) + 1 <= MAX_WORDS ->
  feed ignore (quote_word w) (idle ws n d) = Ok (idle (ws ++ [w]) (n + strlen w) d, []).
Proof.
  intros Hw Hn Hl. unfold quote_word.
  change (String DQUOTE (escape_word w ++ String DQUOTE " "))
    with (String DQUOTE "" ++ (escape_word w ++ String DQUOTE " "))%string.
  rewrite feed_app. change (feed ignore (String DQUOTE "") (idle ws n d)) with
    (@Ok error _ (quoted (Some DQUOTE) false "" ws n d, @nil directive)). cbn [rbind fst snd].
  rewrite feed_app, feed_escaped by (simpl; lia). cbn [rbind fst snd].
  change (String DQUOTE " ") with (String DQUOTE "" ++ " ")%string. rewrite feed_app.
  change (feed ignore (String DQUOTE "") (quoted (Some DQUOTE) false ("" ++ w) ws (n + strlen w) d)) with
    (@Ok error _ (quoted None false w ws (n + strlen w) d, @nil directive)). cbn [rbind fst snd].
  assert (feed_char " " (quoted None false w ws (n + strlen w) d) = Ok (idle (ws ++ [w]) (n + strlen w) d, None)) as E.
  { change (feed_char " " (quoted None false w ws (n + strlen w) d)) with (stays (flush (quoted None false w ws (n + strlen w) d))).
    unfold flush, quoted. cbn [mapDepth wordStarted words word directiveLength rbind set_words set_word]. rewrite length_app.
    replace (MAX_WORDS <? Z.of_nat (length ws + length [w])) with false by (symmetry; apply Z.ltb_ge; simpl; lia).
    reflexivity. }
  cbn [feed]. unfold feed_turn. rewrite E. reflexivity.
Qed.

Lemma feed_words more : forall ws n d,
  Forall (fun w => strlen w <= MAX_WORD) more -> n + total_length more <= 2 * MAX_WORD ->
  Z.of_nat (length ws + length more) <= MAX_WORDS ->
  feed ignore (String.concat "" (map quote_word more)) (idle ws n d) =
  Ok (idle (ws ++ more) (n + total_length more) d, []).
Proof.
  induction more as [|w more IH]; intros ws n d Hw Hn Hl.
  - simpl. by rewrite app_nil_r, Z.add_0_r.
  - inversion Hw; subst. simpl in Hn, Hl. pose proof (total_length_nonneg more).
    assert (String.concat "" (map quote_word (w :: more)) =
      (quote_word w ++ String.concat "" (map quote_word more))%string) as ->.
    { destruct more; cbn [map String.concat]; [by rewrite append_nil_r|done]. }
    rewrite feed_app, feed_word by lia. cbn [rbind fst snd].
    rewrite IH; [|done|lia|rewrite length_app; simpl; lia]. cbn [rbind fst snd app].
    rewrite <- app_assoc. simpl. by rewrite Z.add_assoc.
Qed.

Lemma feed_boundary ws n d dv :
  dv_words dv = ws -> In (dv_boundary dv) ["{"%char; "}"%char; ";"%char] -> 0 <= d + depth_change dv ->
  Z.of_nat (length ws) <= MAX_WORDS ->
  feed ignore (String (dv_boundary dv) (String NEWLINE "")) (idle ws n d) =
  Ok (idle [] 0 (d + depth_change dv), [dv]).
Proof.
  destruct dv as [ws' c]. simpl. intros -> Hc Hd Hl.
  assert (flush (idle ws n d) = Ok (idle ws n d)) as Hflush.
  { unfold flush, idle. cbn [mapDepth wordStarted rbind set_word words].
    by replace (MAX_WORDS <? Z.of_nat (length ws)) with false by (symmetry; apply Z.ltb_ge; lia). }
  assert (feed_turn ignore c (idle ws n d) = Ok (idle [] 0 (d + depth_change (MkDirective ws c)), [MkDirective ws c])) as E.
  { assert (feed_char c (idle ws n d) = in_directive c (idle ws n d)) as Ein.
    { by destruct Hc as [<-|[<-|[<-|[]]]]. }
    unfold feed_turn. rewrite Ein. unfold in_directive, depth_change in *. simpl dv_boundary in *.
    destruct Hc as [<-|[<-|[<-|[]]]]; cbn [is_space char_in existsb Ascii.eqb Bool.eqb] in *; rewrite Hflush;
      cbn [rbind depth idle andb] in *.
    - reflexivity.
    - replace (d - 1 <? 0) with false by (symmetry; apply Z.ltb_ge; lia). reflexivity.
    - rewrite Z.add_0_r. reflexivity. }
  cbn [feed]. rewrite E. cbn [rbind fst snd].
  assert (forall m, feed_turn ignore NEWLINE (idle [] 0 m) = Ok (idle [] 0 m, [])) as -> by reflexivity. reflexivity.
Qed.

Lemma feed_directives ds : forall d stop,
  Forall fits ds -> balanced d stop ds ->
  feed ignore (print_directives ds) (idle [] 0 d) = Ok (idle [] 0 stop, ds).
Proof.
  unfold print_directives. induction ds as [|x ds IH]; intros d stop Hf Hb.
  - simpl in *. by subst.
  - inversion Hf as [|? ? (Hw & Ht & Hl & Hc) Hf']; subst. destruct Hb as [Hd Hb].
    assert (String.concat "" (map print_directive (x :: ds)) =
      (print_directive x ++ String.concat "" (map print_directive ds))%string) as ->.
    { destruct ds; cbn [map String.concat]; [by rewrite append_nil_r|done]. }
    unfold print_directive at 1. rewrite feed_app, feed_app, feed_words by (simpl; done || lia).
    cbn [rbind fst snd app]. rewrite Z.add_0_l, feed_boundary by done. cbn [rbind fst snd app].
    by rewrite (IH _ stop).
Qed.

(** C30: What is written in quotes is read back.  Any balanced sequence of
    directives within the lexer's bounds, printed with every word quoted and
    escaped, is read as exactly those directives and boundaries, whatever the
    words contain (quotes, backslashes, braces, semicolons, comments, variables,
    line feeds) and wherever the text is cut into chunks; and the file is
    accepted as complete. *)
Theorem quoted_directives_are_read_back ds chunks :
  Forall fits ds -> balanced 0 0 ds -> String.concat "" chunks = print_directives ds ->
  read_chunks ignore chunks = Ok ds.
Proof.
  intros Hf Hb Hc. unfold read_chunks. rewrite feed_chunks_whole, Hc.
  change (new_lexer false) with (idle [] 0 0). by rewrite (feed_directives ds 0 0).
Qed.

Section DemoLexer.
Definition demo_words : list string := ["map"; String DQUOTE "{a;$#\"; "$"].
Definition demo_directives : list directive :=
  [MkDirective demo_words "{"%char; MkDirective ["x"; ""] ";"%char; MkDirective [] "}"%char].
Definition demo_chunks : list string :=
  let text := print_directives demo_directives in [take_str 9 text; drop_str 9 text].

Lemma quoted_directives_are_read_back_witness :
  read_chunks ignore demo_chunks = Ok demo_directives.
Proof.
  apply (quoted_directives_are_read_back demo_directives demo_chunks).
  - repeat constructor; vm_compute; intuition congruence.
  - vm_compute. intuition congruence.
  - vm_compute. reflexivity.
Defined.
End DemoLexer.
