(* ===== verification/AlertText.v ===== *)
(** The alert messages of src/backend/internal/proxy-host-monitor.js: what a
    probe's error becomes, and the plain text that tells an owner.

    The messages are German; their literals are kept in UTF-8, so the lengths
    counted here are upper bounds of what a chat service counts.  The network
    test [isIP] and the printed form of an instant are parameters. *)

From S2P Require Import Prelude JsString JsValue Incidents MonitorSettings.
#[local] Open Scope string_scope.
#[local] Open Scope list_scope.
#[local] Open Scope Z_scope.

(** ** Probe errors *)

Definition NETWORK_ERRORS : list (string * string) := [
  ("ENOTFOUND", "DNS lookup failed (ENOTFOUND)");
  ("EAI_AGAIN", "DNS lookup failed (EAI_AGAIN)");
  ("ECONNREFUSED", "Connection refused (ECONNREFUSED)");
  ("EHOSTUNREACH", "Host unreachable (EHOSTUNREACH)");
  ("ENETUNREACH", "Network unreachable (ENETUNREACH)");
  ("ECONNRESET", "Connection reset (ECONNRESET)");
  ("EPROTO", "TLS handshake failed (EPROTO)");
  ("ERR_SSL_WRONG_VERSION_NUMBER", "TLS handshake failed (ERR_SSL_WRONG_VERSION_NUMBER)")].

Fixpoint own_entry {A} (k : string) (entries : list (string * A)) : option A :=
  match entries with
  | [] => None
  | (k', v) :: entries' => if String.eqb k k' then Some v else own_entry k entries'
  end.

Definition networkMessage (code : string) (isHttps : bool) : string :=
  if (String.eqb code "EPROTO" || String.eqb code "ERR_SSL_WRONG_VERSION_NUMBER") && negb isHttps
  then "Connection failed"
  else match own_entry code NETWORK_ERRORS with Some m => m | None => "Connection failed" end.

(** ** Diagnosis *)

Definition descriptions : list (string * (string * string)) := [
  ("Timed out during resolving",
    ("Zeitlimit bei der DNS-Auflösung erreicht.",
     "DNS-Auflösung und Nameserver des ShieldPM-Servers prüfen."));
  ("Timed out during connecting",
    ("TCP-Verbindung kam innerhalb des Zeitlimits nicht zustande.",
     "Erreichbarkeit, Firewall und Zielport prüfen."));
  ("Timed out during tls",
    ("TCP verbunden; TLS-Handshake nicht innerhalb des Zeitlimits abgeschlossen.",
     "HTTPS am Zielport und TLS-Konfiguration prüfen."));
  ("Timed out during headers",
    ("Verbindung hergestellt; keine HTTP-Antwortheader innerhalb des Zeitlimits.",
     "Health-Endpunkt und Anwendung prüfen."));
  ("DNS lookup failed (ENOTFOUND)",
    ("DNS konnte den Zielnamen nicht auflösen (ENOTFOUND).",
     "Hostname und DNS-Einträge vom ShieldPM-Server aus prüfen."));
  ("DNS lookup failed (EAI_AGAIN)",
    ("DNS-Auflösung vorübergehend fehlgeschlagen (EAI_AGAIN).",
     "DNS-Server und Verbindung des ShieldPM-Servers prüfen."));
  ("Connection refused (ECONNREFUSED)",
    ("TCP-Verbindung zum Zielport wurde abgelehnt (ECONNREFUSED).",
     "Prüfen, ob der Dienst auf diesem Host und Port lauscht."));
  ("Host unreachable (EHOSTUNREACH)",
    ("Zielhost über das Netzwerk nicht erreichbar (EHOSTUNREACH).",
     "Routing, Netzwerk und Firewall prüfen."));
  ("Network unreachable (ENETUNREACH)",
    ("Netzwerk zum Ziel nicht erreichbar (ENETUNREACH).",
     "Routing und Netzwerkverbindung prüfen."));
  ("Connection reset (ECONNRESET)",
    ("Verbindung wurde vor der Antwort zurückgesetzt (ECONNRESET).",
     "Logs des Dienstes und eventuelle Zwischenproxies prüfen."));
  ("TLS handshake failed (EPROTO)",
    ("TLS-Handshake fehlgeschlagen (EPROTO).",
     "Zielprotokoll und Port prüfen: Eventuell spricht der Port HTTP statt HTTPS."));
  ("TLS handshake failed (ERR_SSL_WRONG_VERSION_NUMBER)",
    ("TLS-Handshake wegen unpassender Protokollversion fehlgeschlagen.",
     "Zielprotokoll und Port prüfen: Eventuell spricht der Port HTTP statt HTTPS."));
  ("All upstream pool targets failed",
    ("Alle geprüften Pool-Ziele sind ausgefallen.",
     "HTTP-/TCP-Beobachtungen im Pool-Tab und die Dienste auf den einzelnen Zielen prüfen."));
  ("Invalid upstream",
    ("Upstream-Ziel ist ungültig.",
     "Zieladresse und Port des Proxy-Hosts prüfen."));
  ("Unsupported upstream",
    ("Der konfigurierte Prüftyp unterstützt dieses Upstream-Ziel nicht.",
     "Prüftyp und Upstream-Ziel des Proxy-Hosts prüfen."))].

Definition status_hint (status : Z) : string :=
  if existsb (Z.eqb status) [301; 302; 303; 307; 308]
  then "Weiterleitung wird nicht verfolgt; Prüfpfad und erwarteten Status prüfen."
  else if existsb (Z.eqb status) [401; 403]
  then "Der Prüfpfad verlangt möglicherweise eine Anmeldung oder sperrt den Zugriff."
  else if status =? 404 then "Pfad des Health-Endpunkts prüfen."
  else if existsb (Z.eqb status) [502; 503; 504] then "Dienst hinter dem Proxy und dessen Logs prüfen."
  else "Antwort des Dienstes und erwarteten Status prüfen.".

Definition alertDiagnosis (r : check_result) (expectedStatus : Z) : string * string :=
  match r_status_code r with
  | Some status =>
      (("Der Upstream antwortete mit HTTP " ++ show_Z status ++ " statt HTTP " ++ show_Z expectedStatus ++ ".")%string,
       status_hint status)
  | None =>
      match match r_message r with Some m => own_entry m descriptions | None => None end with
      | Some d => d
      | None => ("Verbindung zum Upstream ist fehlgeschlagen.", "Erreichbarkeit, Zielport und Dienstlogs prüfen.")
      end
  end.

(** ** Labels, paths and targets *)

(** [.replace(/\p{Cc}/gu, " ").trim().slice(0, maxLength)] *)
Definition alertLabel (s : string) (maxLength : nat) : string :=
  take_str maxLength (trim (smap (fun c => if is_control c then " "%char else c) s)).

Definition secret_names : list string :=
  ["token"; "secret"; "apikey"; "api-key"; "api_key"; "password"; "passwd"; "auth"; "authorization"; "jwt";
   "bearer"; "session"].
Definition secret_settings : list string :=
  ["token="; "secret="; "key="; "password="; "passwd="; "auth="; "jwt="; "session="].

Definition REDACTED : string := "[redigiert]".

Definition redacted (previous part : string) : bool :=
  includes_key secret_names (to_lower previous)
  || existsb (fun w => includes w (to_lower part)) secret_settings
  || (32 <? strlen part).

Fixpoint redact_parts (previous : string) (parts : list string) : list string :=
  match parts with
  | [] => []
  | part :: parts' => (if redacted previous part then REDACTED else part) :: redact_parts part parts'
  end.

Definition alertPath (path : option string) : string :=
  match path with
  | Some p => if negb (SAFE_PATH p) || (255 <? strlen p) then ""
              else join "/" (redact_parts "" (split_on "/"%char p))
  | None => ""
  end.

(** What the alert knows of the probed target. *)
Record alert_target : Type := MkAlertTarget {
  at_scheme : string;
  at_pool_targets : Z;
  at_host : option string;
  at_port : option Z;
  at_path : option string
}.

Section Alert.
(** [net.isIP]: 0, 4 or 6; [iso] prints an instant. *)
Context (isIP : string -> Z) (iso : Z -> string).

(** [/^[a-z0-9._-]{1,253}$/i] *)
Definition name_char (c : ascii) : bool := is_alnum c || includes (String c "") "._-".
Definition host_name_shape (s : string) : bool := (1 <=? strlen s) && (strlen s <=? 253) && all_chars name_char s.

(** [/^[*a-z0-9._-]{1,253}$/i] *)
Definition domain_char (c : ascii) : bool := name_char c || Ascii.eqb c "*"%char.
Definition domain_shape (s : string) : bool := (1 <=? strlen s) && (strlen s <=? 253) && all_chars domain_char s.

Definition alertTarget (target : option alert_target) (type : probe_type) : string :=
  match target with
  | None => "kein unterstütztes Netzwerkziel"
  | Some t =>
      if negb (at_pool_targets t =? 0) then ("Upstream-Pool (" ++ show_Z (at_pool_targets t) ++ " Ziele)")%string
      else match at_host t with
           | None => "ungültiger Zielname"
           | Some hostname =>
               if (isIP hostname =? 0) && negb (host_name_shape hostname) then "ungültiger Zielname"
               else
                 let address := if isIP hostname =? 6 then ("[" ++ hostname ++ "]")%string else hostname in
                 match at_port t with
                 | Some port =>
                     if (port <? 1) || (65535 <? port) then "ungültiger Zielport"
                     else match type with
                          | Http => (at_scheme t ++ "://" ++ address ++ ":" ++ show_Z port ++ alertPath (at_path t))%string
                          | Tcp => (address ++ ":" ++ show_Z port)%string
                          end
                 | None => "ungültiger Zielport"
                 end
           end
  end.

(** ** The message *)

(** A failed check of the history. *)
Record finding : Type := MkFinding { fd_result : check_result; fd_checked_at : Z }.

Definition state_name (h : health) : string := match h with Up => "UP" | Down => "DOWN" | Unknown => "UNKNOWN" end.
Definition is_https_target (t : option alert_target) : bool :=
  match t with Some t => String.eqb (at_scheme t) "https" | None => false end.
Definition number_or (o : option Z) (d : string) : string := match o with Some n => show_Z n | None => d end.

Definition domain_names (domains : list string) : list string :=
  firstn 3 (List.filter domain_shape (map (fun d => alertLabel d 253) domains)).

Definition finding_line (prefix : string) (f : option finding) (expectedStatus : Z) : list string :=
  match f with
  | Some f =>
      match r_state (fd_result f) with
      | Down => [(prefix ++ iso (fd_checked_at f) ++ "): " ++ fst (alertDiagnosis (fd_result f) expectedStatus))%string]
      | _ => []
      end
  | None => []
  end.

Definition diagnosis_lines (config : settings) (r : check_result) (initial last : option finding) : list string :=
  match r_state r with
  | Up =>
      ["Diagnose: Der Upstream antwortet wieder wie erwartet."]
      ++ finding_line "Befund beim DOWN-Alarm (UTC " initial (st_expected_status config)
      ++ finding_line "Letzter fehlgeschlagener Check (UTC " last (st_expected_status config)
      ++ match initial, last with
         | None, None => ["Frühere Ausfallbefunde sind im Verlauf nicht mehr verfügbar."]
         | _, _ => []
         end
  | _ =>
      let (cause, hint) := alertDiagnosis r (st_expected_status config) in
      [("Diagnose: " ++ cause)%string; ("Hinweis: " ++ hint)%string]
  end.

Definition probe_lines (config : settings) (target : option alert_target) (r : check_result) : list string :=
  match st_type config with
  | Http =>
      [("Prüfung: " ++ (if is_https_target target then "HTTPS" else "HTTP") ++ " GET")%string;
       ("HTTP-Status: " ++ number_or (r_status_code r) "keine Antwort" ++ " (erwartet "
        ++ show_Z (st_expected_status config) ++ ")")%string]
      ++ (if is_https_target target
          then [("TLS-Zertifikat: " ++ (if st_skip_verification config then "Prüfung deaktiviert" else "Prüfung aktiv"))%string]
          else [])
  | Tcp => ["Prüfung: TCP-Verbindung"]
  end.

Definition alert_lines (hostId : Z) (config : settings) (target : option alert_target) (r : check_result)
    (initial last : option finding) (domains : list string) (checkedAt : Z) : list string :=
  [("ShieldPM: Proxy-Host #" ++ show_Z hostId ++ " ist " ++ state_name (r_state r))%string]
  ++ match domain_names domains with [] => [] | ds => [("Domain: " ++ join ", " ds)%string] end
  ++ [("Ziel: " ++ alertTarget target (st_type config))%string]
  ++ probe_lines config target r
  ++ [("Dauer: " ++ number_or (r_response_ms r) "null" ++ " ms (Zeitlimit: " ++ show_Z (st_timeout_ms config) ++ " ms)")%string;
      ("Zeitpunkt (UTC): " ++ iso checkedAt)%string]
  ++ diagnosis_lines config r initial last.

Definition formatHostMonitorAlert (hostId : Z) (config : settings) (target : option alert_target) (r : check_result)
    (initial last : option finding) (domains : list string) (checkedAt : Z) : string :=
  join LF (alert_lines hostId config target r initial last domains checkedAt).
End Alert.

(** ** One message, one line per finding *)

Lemma single_chars p s : all_chars p s = true -> p (ascii_of_nat 10) = false -> single_line s.
Proof. apply all_chars_no. Qed.

Lemma own_entry_in {A} k (entries : list (string * A)) v : own_entry k entries = Some v -> In (k, v) entries.
Proof.
  induction entries as [|[k' v'] entries IH]; [done|]. simpl.
  destruct (String.eqb_spec k k') as [->|]; [intros [= ->]; by left|]. intros Hv. right. by apply IH.
Qed.

Definition short_line (n : Z) (s : string) : Prop := single_line s /\ strlen s <= n.

Lemma short_app a b n m : short_line n a -> short_line m b -> short_line (n + m) (a ++ b).
Proof. intros [Ha Hn] [Hb Hm]. split; [by apply single_app|]. rewrite length_append. lia. Qed.

Lemma short_le a n m : short_line n a -> n <= m -> short_line m a.
Proof. intros [Ha Hn] Hm. split; [done|lia]. Qed.

Lemma short_number n : 0 <= n < 10 ^ 16 -> short_line 16 (show_Z n).
Proof. intros Hn. split; [apply single_show|]. by apply show_Z_length. Qed.

(** A literal is as short as it is. *)
Lemma short_self s : single_line s -> short_line (strlen s) s.
Proof. by split. Qed.

Ltac short_leaf := first [eassumption | apply short_number; by auto | apply short_self; reflexivity].
Ltac short := eapply short_le; [repeat (apply short_app; [short_leaf|]); short_leaf | literal_lengths; lia].

Lemma descriptions_short k c h : own_entry k descriptions = Some (c, h) -> short_line 90 c /\ short_line 100 h.
Proof.
  intros Hin%own_entry_in. revert Hin.
  assert (Forall (fun e => short_line 90 (fst (snd e)) /\ short_line 100 (snd (snd e))) descriptions) as Hall.
  { repeat constructor; simpl; try reflexivity; vm_compute; discriminate. }
  rewrite Forall_forall in Hall. intros Hin. by apply (Hall (k, (c, h))), list_elem_of_In.
Qed.

(** Numbers a result and a configuration may hold. *)
Definition sane_number (n : Z) : Prop := 0 <= n < 10 ^ 16.
Definition sane_result (r : check_result) : Prop :=
  (forall n, r_status_code r = Some n -> sane_number n) /\ (forall n, r_response_ms r = Some n -> sane_number n).

Lemma diagnosis_short r expected :
  sane_result r -> sane_number expected ->
  short_line 90 (fst (alertDiagnosis r expected)) /\ short_line 100 (snd (alertDiagnosis r expected)).
Proof.
  intros [Hs _] He. unfold alertDiagnosis. destruct (r_status_code r) as [status|].
  - specialize (Hs status eq_refl). split; cbn [fst snd].
    + pose proof (short_number _ Hs). pose proof (short_number _ He). short.
    + unfold status_hint. repeat case_match; short.
  - destruct (match r_message r with Some m => _ | None => None end) as [[c h]|] eqn:E; [|split; cbn [fst snd]; short].
    destruct (r_message r) as [m|]; [|done]. by apply descriptions_short in E.
Qed.

(** *** Targets *)

Lemma redacted_short previous part :
  redacted previous part = true -> 11 <= 4 * strlen previous + 4 * strlen part.
Proof.
  unfold redacted. intros [[Hp|Hp]%orb_true_iff|Hp%Z.ltb_lt]%orb_true_iff; [| |lia].
  - apply includes_key_spec in Hp. assert (3 <= strlen (to_lower previous)) as Hl; [|rewrite to_lower_length in Hl; lia].
    simpl in Hp. repeat destruct Hp as [<-|Hp]; try done; vm_compute; discriminate.
  - apply existsb_exists in Hp as (w & Hw & Hi%includes_length). rewrite to_lower_length in Hi.
    assert (4 <= strlen w); [|lia].
    simpl in Hw. repeat destruct Hw as [<-|Hw]; try done; vm_compute; discriminate.
Qed.

Lemma redact_parts_length parts : forall previous,
  total_length (redact_parts previous parts) <= 4 * strlen previous + 8 * total_length parts /\
  length (redact_parts previous parts) = length parts.
Proof.
  induction parts as [|part parts IH]; intros previous; cbn [redact_parts total_length length]; [lia|].
  destruct (IH part) as [Hl Hn]. split; [|lia].
  destruct (redacted previous part) eqn:E; [apply redacted_short in E; change (strlen REDACTED) with 11|]; lia.
Qed.

Lemma redact_parts_single parts : forall previous,
  Forall single_line parts -> Forall single_line (redact_parts previous parts).
Proof.
  induction parts as [|part parts IH]; intros previous Hp; [done|]. inversion Hp; subst. cbn [redact_parts].
  constructor; [|by apply IH]. by destruct (redacted previous part).
Qed.

Lemma join_single sep ws : single_line sep -> Forall single_line ws -> single_line (join sep ws).
Proof.
  intros Hs. induction ws as [|w ws IH]; [done|]. intros Hw. inversion Hw; subst.
  destruct ws as [|w' ws]; [done|]. change (join sep (w :: w' :: ws)) with (w ++ sep ++ join sep (w' :: ws))%string.
  apply single_app; [done|]. apply single_app; [done|]. by apply IH.
Qed.

Lemma split_single c s : single_line s -> Forall single_line (split_on c s).
Proof.
  unfold single_line. induction s as [|d s IH]; cbn [split_on]; [by repeat constructor|].
  rewrite has_char_cons. intros [Hd Hs]%orb_false_iff. specialize (IH Hs).
  destruct (Ascii.eqb c d); [by constructor|]. destruct (split_on c s) as [|w ws]; [constructor; [|done]|].
  - by rewrite has_char_cons, Hd.
  - inversion IH; subst. constructor; [|done]. rewrite has_char_cons, Hd. done.
Qed.

Lemma alertPath_short path : short_line 2040 (alertPath path).
Proof.
  unfold alertPath. destruct path as [p|]; [|short]. destruct (_ || _) eqn:E; [short|]. boolify.
  assert (single_line p) as Hp.
  { unfold SAFE_PATH in *. destruct p as [|c p]; [done|]. boolify.
    match goal with Hc : Ascii.eqb c _ = true |- _ => apply Ascii.eqb_eq in Hc as -> end.
    match goal with Hc : all_chars _ p = true |- _ => apply single_chars in Hc; [|reflexivity] end.
    unfold single_line in *. by rewrite has_char_cons. }
  assert (split_on "/"%char p <> []) as Hne by apply split_on_nonempty.
  destruct (redact_parts_length (split_on "/"%char p) "") as [Hl Hn].
  split; [apply join_single; [done|]; by apply redact_parts_single, split_single|].
  rewrite join_length, Hn by (intros Hr; rewrite Hr in Hn; by destruct (split_on "/"%char p)).
  assert (strlen p = total_length (split_on "/"%char p) + 1 * (Z.of_nat (length (split_on "/"%char p)) - 1)) as Hsum.
  { rewrite <- (join_split "/"%char p) at 1. by rewrite join_length. }
  assert (1 <= Z.of_nat (length (split_on "/"%char p))) by (destruct (split_on "/"%char p); [done|simpl; lia]).
  change (strlen "") with 0 in Hl. change (strlen "/") with 1. pose proof (total_length_nonneg (split_on "/"%char p)). lia.
Qed.

Section Bounded.
Context (isIP : string -> Z) (iso : Z -> string).
(** An address is one line, and an instant prints as at most 27 characters. *)
Context (isIP_line : forall s, isIP s <> 0 -> single_line s)
  (iso_short : forall t, short_line 27 (iso t)).

(** What the alert reads of a target: a host column of at most 255 characters
    and, for an HTTP check, an HTTP scheme. *)
Definition sane_target (type : probe_type) (t : option alert_target) : Prop :=
  match t with
  | Some t => sane_number (at_pool_targets t) /\ (forall h, at_host t = Some h -> strlen h <= 255) /\
              (type = Http -> In (at_scheme t) ["http"; "https"])
  | None => True
  end.

Lemma alertTarget_short t type : sane_target type t -> short_line 2312 (alertTarget isIP t type).
Proof.
  destruct t as [t|]; [|intros _; short]. intros (Hpool & Hhost & Hscheme). unfold alertTarget.
  destruct (negb _); [pose proof (short_number _ Hpool); short|].
  destruct (at_host t) as [h|]; [|short]. specialize (Hhost h eq_refl).
  destruct ((isIP h =? 0) && negb (host_name_shape h)) eqn:Eh; [short|].
  assert (short_line 255 h) as Hh.
  { split; [|done]. apply andb_false_iff in Eh as [Eh|Eh]; [by apply isIP_line, Z.eqb_neq|].
    apply negb_false_iff in Eh. unfold host_name_shape in Eh. boolify. by eapply single_chars; [eassumption|]. }
  set (address := if isIP h =? 6 then _ else _). assert (short_line 257 address) as Ha.
  { subst address. destruct (isIP h =? 6); short. }
  destruct (at_port t) as [port|]; [|short]. destruct (_ || _) eqn:Ep; [short|]. boolify.
  assert (short_line 5 (show_Z port)) by (split; [apply single_show|apply show_Z_length; lia]).
  destruct type; [|short]. pose proof (alertPath_short (at_path t)).
  assert (short_line 5 (at_scheme t)) as Hs.
  { destruct (Hscheme eq_refl) as [<-|[<-|[]]]; short. }
  short.
Qed.

(** *** The whole message *)

Definition short_lines (n : Z) (ls : list string) : Prop := Forall single_line ls /\ total_length ls <= n.

Lemma short_lines_app a b n m : short_lines n a -> short_lines m b -> short_lines (n + m) (a ++ b).
Proof. intros [Ha Hn] [Hb Hm]. split; [by apply Forall_app|]. rewrite total_length_app. lia. Qed.

Lemma short_lines_cons a b n m : short_line n a -> short_lines m b -> short_lines (n + m) (a :: b).
Proof. intros [Ha Hn] [Hb Hm]. split; [by constructor|]. simpl. lia. Qed.

Lemma short_lines_nil : short_lines 0 [].
Proof. by split. Qed.

Lemma short_lines_le ls n m : short_lines n ls -> n <= m -> short_lines m ls.
Proof. intros [Ha Hn] Hm. split; [done|lia]. Qed.

Lemma in_firstn {A} n (x : A) xs : In x (firstn n xs) -> In x xs.
Proof. intros Hx. rewrite <- (firstn_skipn n xs). apply in_or_app. by left. Qed.

Lemma domain_line_short domains :
  short_lines 771 (match domain_names domains with [] => [] | ds => [("Domain: " ++ join ", " ds)%string] end).
Proof.
  assert (Forall (fun d => short_line 253 d) (domain_names domains)) as Hall.
  { apply Forall_forall. intros d Hd%list_elem_of_In. unfold domain_names in Hd. apply in_firstn in Hd.
    apply filter_In in Hd as [_ Hd]. unfold domain_shape in Hd. boolify. split; [|lia].
    by eapply single_chars; [eassumption|]. }
  assert (length (domain_names domains) <= 3)%nat as Hlen.
  { unfold domain_names. rewrite length_firstn. lia. }
  destruct (domain_names domains) as [|d ds]; [by eapply short_lines_le; [apply short_lines_nil|]|].
  eapply short_lines_le; [apply short_lines_cons; [|apply short_lines_nil]|].
  - apply short_app; [apply short_self; reflexivity|]. split.
    + apply join_single; [done|]. eapply Forall_impl; [exact Hall|]. by intros x [? _].
    + rewrite join_length by done. change (strlen ", ") with 2.
      assert (total_length (d :: ds) <= 253 * Z.of_nat (length (d :: ds))) as Ht.
      { clear Hlen. induction Hall as [|x xs [_ Hx] _ IH]; [simpl; lia|]. cbn [total_length length]. lia. }
      instantiate (1 := 763). lia.
  - literal_lengths. lia.
Qed.

Lemma finding_line_short prefix f expected n :
  short_line n prefix -> (forall x, f = Some x -> sane_result (fd_result x)) -> sane_number expected ->
  short_lines (n + 120) (finding_line iso prefix f expected).
Proof.
  intros Hp Hf He. assert (0 <= n) as Hn by (destruct Hp; lia).
  assert (short_lines (n + 120) []) as Hnil by (eapply short_lines_le; [apply short_lines_nil|lia]).
  unfold finding_line. destruct f as [x|]; [|done]. destruct (r_state (fd_result x)); try done.
  destruct (diagnosis_short _ _ (Hf x eq_refl) He) as [Hc _].
  eapply short_lines_le; [apply short_lines_cons; [|apply short_lines_nil]|].
  - apply short_app; [exact Hp|]. apply short_app; [apply iso_short|].
    apply short_app; [apply (short_self "): "); reflexivity|exact Hc].
  - literal_lengths. lia.
Qed.

Ltac shorts := repeat (apply short_lines_cons; [repeat (apply short_app; [short_leaf|]); short_leaf|]); apply short_lines_nil.

Lemma number_or_short o d : (forall n, o = Some n -> sane_number n) -> short_line 16 d -> short_line 16 (number_or o d).
Proof. intros Ho Hd. destruct o as [n|]; [|done]. by apply short_number, Ho. Qed.

Lemma probe_lines_short config target r :
  sane_result r -> sane_number (st_expected_status config) -> short_lines 112 (probe_lines config target r).
Proof.
  intros [Hs _] He. assert (short_line 16 (number_or (r_status_code r) "keine Antwort")) as Hn.
  { apply number_or_short; [done|short]. }
  pose proof (short_number _ He). unfold probe_lines.
  destruct (st_type config); [|eapply short_lines_le; [shorts|literal_lengths; lia]].
  destruct (is_https_target target), (st_skip_verification config); cbn [app];
    (eapply short_lines_le; [shorts|literal_lengths; lia]).
Qed.

Lemma diagnosis_lines_short config r initial last :
  sane_result r -> sane_number (st_expected_status config) ->
  (forall x, initial = Some x -> sane_result (fd_result x)) ->
  (forall x, last = Some x -> sane_result (fd_result x)) ->
  short_lines 440 (diagnosis_lines iso config r initial last).
Proof.
  intros Hr He Hi Hl. unfold diagnosis_lines.
  assert (short_lines 250 (let (cause, hint) := alertDiagnosis r (st_expected_status config) in
    [("Diagnose: " ++ cause)%string; ("Hinweis: " ++ hint)%string])) as Hd.
  { pose proof (diagnosis_short r _ Hr He) as [Hc Hh]. destruct (alertDiagnosis _ _) as [cause hint].
    cbn [fst snd] in *. eapply short_lines_le; [shorts|literal_lengths; lia]. }
  destruct (r_state r); try (eapply short_lines_le; [exact Hd|lia]).
  assert (short_line 30 "Befund beim DOWN-Alarm (UTC ") as Hp1 by short.
  assert (short_line 40 "Letzter fehlgeschlagener Check (UTC ") as Hp2 by short.
  pose proof (finding_line_short _ initial _ _ Hp1 Hi He) as H1.
  pose proof (finding_line_short _ last _ _ Hp2 Hl He) as H2.
  assert (short_lines 70 (match initial, last with
    | None, None => ["Frühere Ausfallbefunde sind im Verlauf nicht mehr verfügbar."] | _, _ => [] end)) as H3.
  { destruct initial, last; (eapply short_lines_le; [shorts|literal_lengths; lia]). }
  set (rest := match initial, last with None, None => _ | _, _ => _ end) in *.
  assert (short_lines 60 ["Diagnose: Der Upstream antwortet wieder wie erwartet."]) as H0.
  { eapply short_lines_le; [shorts|literal_lengths; lia]. }
  eapply short_lines_le; [do 3 (apply short_lines_app; [eassumption|]); eassumption|lia].
Qed.

Lemma alert_lines_count hostId config target r initial last domains checkedAt :
  (length (alert_lines isIP iso hostId config target r initial last domains checkedAt) <= 12)%nat.
Proof.
  unfold alert_lines. rewrite !length_app.
  assert (length (match domain_names domains with [] => [] | ds => [("Domain: " ++ join ", " ds)%string] end) <= 1)%nat
    by (destruct (domain_names domains); simpl; lia).
  assert (length (probe_lines config target r) <= 3)%nat.
  { unfold probe_lines. destruct (st_type config); [|simpl; lia]. destruct (is_https_target target); simpl; lia. }
  assert (forall p f e, length (finding_line iso p f e) <= 1)%nat as Hf.
  { intros p [x|] e; simpl; [|lia]. destruct (r_state _); simpl; lia. }
  assert (length (diagnosis_lines iso config r initial last) <= 4)%nat; [|cbn [length]; lia].
  unfold diagnosis_lines. destruct (r_state r); [|destruct (alertDiagnosis _ _); simpl; lia..].
  rewrite !length_app. pose proof (Hf "Befund beim DOWN-Alarm (UTC " initial (st_expected_status config)).
  pose proof (Hf "Letzter fehlgeschlagener Check (UTC " last (st_expected_status config)).
  destruct initial, last; cbn [length]; lia.
Qed.

(** An alert is one message and says one thing per line.  For every
    target, domain list and history the text stays below the 4096 characters
    a chat message may have, and its lines are exactly the lines composed: no
    host name, path, domain or probe message can add a line of its own. *)
Theorem alert_is_one_message hostId config target r initial last domains checkedAt :
  sane_number hostId -> sane_number (st_timeout_ms config) -> sane_number (st_expected_status config) ->
  sane_target (st_type config) target -> sane_result r ->
  (forall x, initial = Some x -> sane_result (fd_result x)) ->
  (forall x, last = Some x -> sane_result (fd_result x)) ->
  let text := formatHostMonitorAlert isIP iso hostId config target r initial last domains checkedAt in
  strlen text < 4096 /\
  split_on (ascii_of_nat 10) text = alert_lines isIP iso hostId config target r initial last domains checkedAt.
Proof.
  intros Hid Ht He Hg Hr Hi Hl text.
  pose proof (alert_lines_count hostId config target r initial last domains checkedAt) as Hn.
  assert (short_lines 4000 (alert_lines isIP iso hostId config target r initial last domains checkedAt)) as [Hall Htot].
  { pose proof (short_number _ Hid). pose proof (short_number _ Ht). pose proof (iso_short checkedAt).
    pose proof (domain_line_short domains). pose proof (alertTarget_short _ _ Hg).
    pose proof (probe_lines_short config target r Hr He). pose proof (diagnosis_lines_short _ _ _ _ Hr He Hi Hl).
    assert (short_line 16 (number_or (r_response_ms r) "null")) by (apply number_or_short; [apply Hr|short]).
    assert (short_line 7 (state_name (r_state r))) by (destruct (r_state r); short).
    unfold alert_lines.
    eapply short_lines_le; [do 5 (apply short_lines_app; [first [eassumption | shorts]|]); eassumption|].
    literal_lengths. lia. }
  split; [|by apply split_join].
  unfold text, formatHostMonitorAlert. rewrite join_length by done. change (strlen LF) with 1. lia.
Qed.
End Bounded.

Section DemoAlert.
Definition demo_ip (s : string) : Z := if String.eqb s "10.0.0.5" then 4 else 0.
Definition demo_iso (t : Z) : string := "2024-01-01T00:00:00.000Z".
Definition demo_config : settings := MkSettings true Http "/health" 60 5000 200 true None None false.
Definition demo_target : alert_target :=
  MkAlertTarget "https" 0 (Some "app.internal") (Some 443) (Some "/auth/abc/token=1/status").
Definition demo_down : check_result := MkResult Down (Some 12) None (Some "Connection refused (ECONNREFUSED)").

Lemma alert_is_one_message_witness :
  alertTarget demo_ip (Some demo_target) Http = "https://app.internal:443/auth/[redigiert]/[redigiert]/status" /\
  strlen (formatHostMonitorAlert demo_ip demo_iso 3 demo_config (Some demo_target) demo_down None None ["a.test"] 0) < 4096.
Proof.
  split; [vm_compute; reflexivity|].
  apply (alert_is_one_message demo_ip demo_iso); unfold sane_number; simpl; try lia.
  - intros s. unfold demo_ip. destruct (String.eqb_spec s "10.0.0.5") as [->|]; [reflexivity|]. intros H. by destruct H.
  - intros t. split; [reflexivity|vm_compute; discriminate].
  - split; [unfold sane_number; lia|]. split; [by intros h [= <-]|]. right. by left.
  - split; simpl; intros n Hn; simplify_eq; unfold sane_number; lia.
  - intros x Hx. discriminate.
  - intros x Hx. discriminate.
Defined.
End DemoAlert.
