(* ===== verification/UploadRelay.v ===== *)
(** The resumable upload relay of src/backend/internal/upload-relay.js:
    settings of a host, upload sessions on disk, and the background worker that
    forwards a complete upload to its origin.

    An upload is a directory: its metadata file, which is replaced atomically,
    and one file per chunk.  Operations on one upload are serialised by its
    lock, so each is one state function; the worker takes the lock twice and
    works without it in between, so it is several steps.  The process may stop
    between any two steps, and inside [append] between the chunk file and the
    metadata.  Every step tells what it did to the outside ([event]). *)

From S2P Require Import Prelude JsString Errors.
From stdpp Require Import gmap strings.
#[local] Open Scope string_scope.
#[local] Open Scope list_scope.
#[local] Open Scope Z_scope.

(** ** Constants *)

Definition MAX_SAFE_INTEGER : Z := 9007199254740991.
Definition DEFAULT_CHUNK_SIZE : Z := 80 * 1024 * 1024.
Definition MIN_CHUNK_SIZE : Z := 5 * 1024 * 1024.
Definition DEFAULT_CLEANUP_HOURS : Z := 24.
Definition DEFAULT_MAX_FILE_SIZE : Z := 10 * 1024 * 1024 * 1024.
Definition DEFAULT_MAX_PENDING_BYTES : Z := 20 * 1024 * 1024 * 1024.
Definition MAX_PENDING_UPLOADS : nat := 32.
Definition DEFAULT_PATH : string := "/_shieldpm-upload".
Definition NEXTCLOUD_UPLOAD_PATH : string := "/remote.php/dav/uploads".
Definition FORWARDED_REQUEST_HEADERS : list string :=
  ["authorization"; "cookie"; "x-api-key"; "x-upload-token"; "x-request-id"].
Definition CALLER_CREDENTIAL_HEADERS : list string :=
  ["authorization"; "cookie"; "x-api-key"; "x-upload-token"].

(** ** Settings of a host *)

Record access_client : Type := MkClient { ac_directive : string; ac_address : option string }.

(** The columns of an access list that say whether it enforces anything. *)
Record access_list : Type := MkList {
  al_deleted : bool;
  al_satisfy_any : bool;
  al_items : list (string * string);
  al_clients : list access_client;
  al_mtls : bool;
  al_auth_type : option string;
  al_authentik_host : option string;
  al_pass_auth : option bool
}.

(** The columns of a proxy host that configure its relay. *)
Record relay_host : Type := MkRelayHost {
  rh_id : Z;
  rh_deleted : bool;
  rh_enabled : bool;
  rh_relay_enabled : bool;
  rh_access_list_id : option Z;
  rh_access_list : option access_list;
  rh_scheme : string;
  rh_forward_host : string;
  rh_forward_port : option Z;
  rh_chunk_size : option Z;
  rh_max_file_size : option Z;
  rh_max_pending : option Z;
  rh_cleanup_hours : option Z;
  rh_path : option string;
  rh_target_path : option string
}.

(** The fingerprint of the list's policy: SHA-256 of its canonical JSON. *)
Class RelayEnv : Type := { accessPolicyFingerprint : option access_list -> option Z -> string }.

Record relay_config : Type := MkConfig {
  rc_chunk_size : Z;
  rc_cleanup_hours : Z;
  rc_forward_auth : bool;
  rc_id : Z;
  rc_max_file_size : Z;
  rc_max_pending : Z;
  rc_origin : string;
  rc_policy : string;
  rc_path : string
}.

(** [JSON.stringify({ forwardAuthorization, origin, policyFingerprint })],
    compared as data. *)
Definition originFingerprint (c : relay_config) : bool * string * string :=
  (rc_forward_auth c, rc_origin c, rc_policy c).

Definition fingerprint_eqb (a b : relay_config) : bool :=
  bool_decide (originFingerprint a = originFingerprint b).

Definition asPositiveInteger (value : option Z) (name : string) (fallback : option Z) (maximum : Z)
    : fallible Z :=
  let bad := ValidationError (name ++ " must be a positive integer no greater than " ++ show_Z maximum) in
  match (match value with Some n => Some n | None => fallback end) with
  | Some n =>
      throw bad when ((MAX_SAFE_INTEGER <? n) || (n <? 1) || (maximum <? n)) ;;
      Ok n
  | None => Throw bad
  end.

(** The part of a path between two slashes: [[A-Za-z0-9._~-]+] *)
Definition path_char (c : ascii) : bool := is_alnum c || any_char (Ascii.eqb c) "._~-".
Definition path_segment (w : string) : bool := negb (String.eqb w "") && all_chars path_char w.

(** [/^\/[A-Za-z0-9._~-]+(?:\/[A-Za-z0-9._~-]+)*$/] *)
Definition upload_path_shape (s : string) : bool :=
  match s with
  | String "/" rest => forallb path_segment (split_on "/" rest)
  | _ => false
  end.

Definition text_or (value : option string) (fallback : string) : string :=
  match value with
  | Some (String _ _ as s) => s
  | _ => fallback
  end.

Definition safeUploadPath (value : option string) : fallible string :=
  let normalized := text_or value DEFAULT_PATH in
  throw ValidationError "Upload relay path must be an absolute path without query strings or traversal"
    when (negb (upload_path_shape normalized)) ;;
  throw ValidationError "Upload relay path is reserved for automatic Nextcloud uploads"
    when (String.eqb normalized NEXTCLOUD_UPLOAD_PATH
          || starts_with (NEXTCLOUD_UPLOAD_PATH ++ "/") normalized) ;;
  Ok normalized.

Definition target_char (c : ascii) : bool :=
  is_alnum c || any_char (Ascii.eqb c) "._~!$&'()*+,;=:@%/-".

Definition safeTargetPath (value : option string) : fallible string :=
  let normalized := text_or value "/" in
  throw ValidationError "Upload relay target path must be an absolute origin path"
    when (negb (starts_with "/" normalized && all_chars target_char normalized)
          || starts_with "//" normalized) ;;
  Ok normalized.

Definition normalizeHostname (hostname : string) : fallible string :=
  throw ValidationError "Upload relay requires a valid private upstream host"
    when (String.eqb hostname ""
          || any_char (fun c => any_char (Ascii.eqb c) "/?#@" || is_space c) hostname) ;;
  Ok (if has_char ":" hostname && negb (starts_with "[" hostname)
      then ("[" ++ hostname ++ "]")%string else hostname).

(** [/^(?:0\.0\.0\.0|::)\/0+$/] *)
Definition all_zero_network (s : string) : bool :=
  match split_on "/" s with
  | [a; p] => (String.eqb a "0.0.0.0" || String.eqb a "::")
              && negb (String.eqb p "") && all_chars (Ascii.eqb "0") p
  | _ => false
  end.

Definition isUniversalAllowAddress (address : option string) : bool :=
  match address with
  | None => false
  | Some a =>
      let normalized := to_lower (trim a) in
      existsb (String.eqb normalized) ["*"; "all"; "0.0.0.0/0"; "::/0"] || all_zero_network normalized
  end.

Definition hasRestrictiveIpPolicy (clients : list access_client) : bool :=
  existsb (fun c => String.eqb (ac_directive c) "allow" && negb (isUniversalAllowAddress (ac_address c))) clients.
Definition hasUniversalAllowRule (clients : list access_client) : bool :=
  existsb (fun c => String.eqb (ac_directive c) "allow" && isUniversalAllowAddress (ac_address c)) clients.

Definition accessListEnforcesUploadAuthorization (l : option access_list) : bool :=
  match l with
  | None => false
  | Some l =>
      negb (al_deleted l)
      && negb (al_satisfy_any l && hasUniversalAllowRule (al_clients l))
      && (negb (match al_items l with [] => true | _ => false end)
          || hasRestrictiveIpPolicy (al_clients l)
          || al_mtls l
          || (match al_auth_type l with
              | Some t => String.eqb t "oauth2_proxy" || String.eqb t "authentik_proxy"
              | None => false end)
          || truthy (al_authentik_host l))
  end.

Definition not_found : error := ItemNotFoundError None.

Section Settings.
Context `{RelayEnv}.

Definition relayConfigForHost (host : option relay_host) (accessList : option access_list)
    : fallible relay_config :=
  match host with
  | None => Throw not_found
  | Some h =>
      throw not_found when (rh_deleted h || negb (rh_relay_enabled h)) ;;
      let accessListId := default 0 (rh_access_list_id h) in
      throw ValidationError "Upload relay Access List ID must be valid when configured"
        when ((MAX_SAFE_INTEGER <? accessListId) || (accessListId <? 0)) ;;
      throw ValidationError "Upload relay requires an Access List with enforcing authentication or IP policy"
        when ((0 <? accessListId) && negb (accessListEnforcesUploadAuthorization accessList)) ;;
      throw ValidationError "Upload relay requires an HTTP or HTTPS upstream"
        when (negb (String.eqb (rh_scheme h) "http" || String.eqb (rh_scheme h) "https")) ;;
      let? chunkSize := asPositiveInteger (rh_chunk_size h) "Upload relay chunk size"
                          (Some DEFAULT_CHUNK_SIZE) (90 * 1024 * 1024) in
      throw ValidationError "Upload relay chunk size must be at least 5 MiB"
        when (chunkSize <? MIN_CHUNK_SIZE) ;;
      let? maxFileSize := asPositiveInteger (rh_max_file_size h) "Upload relay maximum file size"
                            (Some DEFAULT_MAX_FILE_SIZE) MAX_SAFE_INTEGER in
      throw ValidationError "Upload relay maximum file size must not be smaller than its chunk size"
        when (maxFileSize <? chunkSize) ;;
      let? maxPendingBytes := asPositiveInteger (rh_max_pending h) "Upload relay pending-byte limit"
                                (Some DEFAULT_MAX_PENDING_BYTES) MAX_SAFE_INTEGER in
      throw ValidationError "Upload relay pending-byte limit must not be smaller than its file size limit"
        when (maxPendingBytes <? maxFileSize) ;;
      let? cleanupHours := asPositiveInteger (rh_cleanup_hours h) "Upload relay cleanup hours"
                             (Some DEFAULT_CLEANUP_HOURS) 720 in
      let? hostname := normalizeHostname (rh_forward_host h) in
      let? port := asPositiveInteger (rh_forward_port h) "Upload relay upstream port" (Some 443) 65535 in
      let forwardAuthorization :=
        match accessList with Some l => negb (bool_decide (al_pass_auth l = Some false)) | None => true end in
      let? target := safeTargetPath (rh_target_path h) in
      let? path := safeUploadPath (rh_path h) in
      Ok (MkConfig chunkSize cleanupHours forwardAuthorization (rh_id h) maxFileSize maxPendingBytes
            (rh_scheme h ++ "://" ++ hostname ++ ":" ++ show_Z port ++ target)
            (accessPolicyFingerprint accessList (rh_access_list_id h)) path)
  end.

(** The tables behind the relay: proxy hosts and access lists. *)
Record tables : Type := MkTables {
  tb_host : Z -> option relay_host;
  tb_list : Z -> option access_list
}.

Definition validateRelayConfigForHost (t : tables) (host : option relay_host) : fallible relay_config :=
  let accessList :=
    match host with
    | None => None
    | Some h =>
        let accessListId := default 0 (rh_access_list_id h) in
        match rh_access_list h with
        | Some l => Some l
        | None =>
            if (0 <? accessListId) && (accessListId <=? MAX_SAFE_INTEGER)
            then tb_list t accessListId else None
        end
    end in
  relayConfigForHost host accessList.

Definition getConfig (t : tables) (hostId : Z) : fallible relay_config :=
  let host := tb_host t hostId in
  let? config := validateRelayConfigForHost t host in
  throw not_found when (match host with Some h => negb (rh_enabled h) | None => true end) ;;
  Ok config.
End Settings.

(** ** Requests *)

Abbreviation headers := (gmap string string).

Definition forwardedRequestHeaders (requestHeaders : headers) (config : relay_config) : headers :=
  filter (fun kv => fst kv ∈ FORWARDED_REQUEST_HEADERS
                    /\ ~ (fst kv = "authorization" /\ rc_forward_auth config = false)
                    /\ snd kv <> "") requestHeaders.

Definition requiresCallerAuthorization (h : headers) : bool :=
  existsb (fun name => truthy (h !! name)) CALLER_CREDENTIAL_HEADERS.

Definition safeFilename (value : option string) : string :=
  let cleaned := smap (fun c => if any_char (Ascii.eqb c) "/\" || (code c =? 10) || (code c =? 13)
                                then "_"%char else c) (text_or value "upload.bin") in
  text_or (Some (take_str 255 cleaned)) "upload.bin".

(** [/^[0-9a-f]{8}(?:-[0-9a-f]{4}){3}-[0-9a-f]{12}$/i] *)
Definition isUploadId (s : string) : bool :=
  match split_on "-" s with
  | [a; b; c; e; f] =>
      forallb (all_chars is_hex) [a; b; c; e; f] &&
      (strlen a =? 8) && (strlen b =? 4) && (strlen c =? 4) && (strlen e =? 4) && (strlen f =? 12)
  | _ => false
  end.

(** ** Upload sessions on disk *)

Inductive upload_state : Type := Uploading | Queued | Forwarding | Completed | Failed | Cancelled.
#[global] Instance upload_state_eq_dec : EqDecision upload_state.
Proof. solve_decision. Defined.

Record chunk : Type := MkChunk { ch_offset : Z; ch_size : Z }.

Record metadata : Type := MkMeta {
  md_host : Z;
  md_id : string;
  md_length : Z;
  md_offset : Z;
  md_state : upload_state;
  md_chunks : list chunk;
  md_config : relay_config;
  md_filename : string;
  md_media_type : string;
  md_created : Z;
  md_updated : option Z;
  md_completed : option Z;
  md_failure : option string;
  md_requires_auth : bool;
  md_attempts : Z;
  md_lease : option string;
  md_status : option Z
}.

(** A directory: metadata that can be read, if any, and the chunk files. *)
Record upload : Type := MkUpload { up_meta : option metadata; up_parts : gmap Z string }.

Abbreviation key := (Z * string)%type.

Definition with_state v now m : metadata :=
  MkMeta (md_host m) (md_id m) (md_length m) (md_offset m) v (md_chunks m) (md_config m) (md_filename m)
    (md_media_type m) (md_created m) (Some now) (md_completed m) (md_failure m) (md_requires_auth m)
    (md_attempts m) (md_lease m) (md_status m).
Definition with_failure v m : metadata :=
  MkMeta (md_host m) (md_id m) (md_length m) (md_offset m) (md_state m) (md_chunks m) (md_config m)
    (md_filename m) (md_media_type m) (md_created m) (md_updated m) (md_completed m) v (md_requires_auth m)
    (md_attempts m) (md_lease m) (md_status m).
Definition with_chunks cs offset m : metadata :=
  MkMeta (md_host m) (md_id m) (md_length m) offset (md_state m) cs (md_config m)
    (md_filename m) (md_media_type m) (md_created m) (md_updated m) (md_completed m) (md_failure m)
    (md_requires_auth m) (md_attempts m) (md_lease m) (md_status m).
Definition with_request config auth m : metadata :=
  MkMeta (md_host m) (md_id m) (md_length m) (md_offset m) (md_state m) (md_chunks m) config
    (md_filename m) (md_media_type m) (md_created m) (md_updated m) (md_completed m) (md_failure m)
    auth (md_attempts m) (md_lease m) (md_status m).
Definition with_lease lease m : metadata :=
  MkMeta (md_host m) (md_id m) (md_length m) (md_offset m) (md_state m) (md_chunks m) (md_config m)
    (md_filename m) (md_media_type m) (md_created m) (md_updated m) (md_completed m) (md_failure m)
    (md_requires_auth m) (md_attempts m + 1) (Some lease) (md_status m).
Definition with_result now status m : metadata :=
  MkMeta (md_host m) (md_id m) (md_length m) (md_offset m) (md_state m) (md_chunks m) (md_config m)
    (md_filename m) (md_media_type m) (md_created m) (md_updated m) (Some now) (md_failure m)
    (md_requires_auth m) (md_attempts m) (md_lease m) (Some status).

(** [metadata.failureCode = code; metadata.state = "failed"; ...] *)
Definition fail_with now code m : metadata := with_state Failed now (with_failure (Some code) m).

(** Each chunk starts where the one before it ended; the result is where the
    last one ends. *)
Fixpoint chunks_end (length start : Z) (cs : list chunk) : option Z :=
  match cs with
  | [] => Some start
  | c :: cs' =>
      if (ch_offset c =? start) && (1 <=? ch_size c) && (ch_size c <=? MAX_SAFE_INTEGER)
         && (ch_size c <=? length - start)
      then chunks_end length (start + ch_size c) cs' else None
  end.

Definition valid_metadata (k : key) (m : metadata) : bool :=
  (md_host m =? fst k) && String.eqb (md_id m) (snd k)
  && (1 <=? md_length m) && (md_length m <=? MAX_SAFE_INTEGER)
  && (0 <=? md_offset m) && (md_offset m <=? md_length m)
  && match chunks_end (md_length m) 0 (md_chunks m) with
     | Some e => (e =? md_offset m)
                 || (bool_decide (md_state m = Completed) && match md_chunks m with [] => true | _ => false end)
     | None => false
     end.

(** ** The process *)

Record job : Type := MkJob { jb_key : key; jb_headers : headers }.

Record prepared : Type := MkPrepared { pr_config : relay_config; pr_lease : string; pr_meta : metadata }.

(** Where the worker stands with its job. *)
Inductive phase : Type :=
| Picked
| Prepared (p : prepared)
| Refused (p : prepared) (code : string)
| Checked (p : prepared) (dispatchConfig : relay_config)
| Sent (p : prepared)
| Answered (p : prepared) (status : option Z).

Record running : Type := MkRunning { rn_job : job; rn_phase : phase; rn_aborted : bool }.

Record relay : Type := MkRelay {
  rl_tables : tables;
  rl_uploads : gmap key upload;
  rl_queue : list job;
  rl_scheduled : bool;
  rl_active : option running;
  rl_unscanned : gset key
}.

Definition set_uploads v (s : relay) : relay :=
  MkRelay (rl_tables s) v (rl_queue s) (rl_scheduled s) (rl_active s) (rl_unscanned s).
Definition set_active v (s : relay) : relay :=
  MkRelay (rl_tables s) (rl_uploads s) (rl_queue s) (rl_scheduled s) v (rl_unscanned s).
Definition set_tables v (s : relay) : relay :=
  MkRelay v (rl_uploads s) (rl_queue s) (rl_scheduled s) (rl_active s) (rl_unscanned s).
Definition set_unscanned v (s : relay) : relay :=
  MkRelay (rl_tables s) (rl_uploads s) (rl_queue s) (rl_scheduled s) (rl_active s) v.

(** A request to the origin. *)
Record request : Type := MkRequest { rq_origin : string; rq_headers : headers; rq_body : string }.

Inductive event : Type :=
| Created (k : key)
| Received (k : key) (data : string)
| Requested (k : key) (config : relay_config)
| Posted (k : key) (r : request).

Definition outcome (A : Type) : Type := fallible A * relay * list event.

Definition refuse {A} (e : error) (s : relay) : outcome A := (Throw e, s, []).

(** Run [k] on the value, or leave with the exception. *)
Definition try_do {A B} (m : fallible A) (s : relay) (k : A -> outcome B) : outcome B :=
  match m with Ok a => k a | Throw e => refuse e s end.

Notation "'try?' x := m 'on' s 'in' k" := (try_do m s (fun x => k))
  (at level 10, x pattern, m at level 99, s at level 99, k at level 200) : shield_scope.

Definition loadMetadata (k : key) (s : relay) : fallible metadata :=
  throw not_found when (negb (isUploadId (snd k))) ;;
  match rl_uploads s !! k with
  | Some (MkUpload (Some m) _) => throw not_found when (negb (valid_metadata k m)) ;; Ok m
  | _ => Throw not_found
  end.

Definition writeMetadata (k : key) (m : metadata) (s : relay) : relay :=
  let parts := match rl_uploads s !! k with Some u => up_parts u | None => ∅ end in
  set_uploads (<[k := MkUpload (Some m) parts]> (rl_uploads s)) s.

Definition removeUploadDirectory (k : key) (s : relay) : relay :=
  set_uploads (delete k (rl_uploads s)) s.

(** [scheduleFinalizers]: one callback is pending at most, and none while the
    only worker is busy. *)
Definition scheduleFinalizers (s : relay) : relay :=
  if rl_scheduled s || bool_decide (is_Some (rl_active s)) || match rl_queue s with [] => true | _ => false end
  then s
  else MkRelay (rl_tables s) (rl_uploads s) (rl_queue s) true (rl_active s) (rl_unscanned s).

Definition enqueueFinalizer (k : key) (h : headers) (s : relay) : relay :=
  scheduleFinalizers
    (MkRelay (rl_tables s) (rl_uploads s) (rl_queue s ++ [MkJob k h]) (rl_scheduled s) (rl_active s)
       (rl_unscanned s)).

(** The scheduled callback: the loop picks one job, the limit being one. *)
Definition runScheduled (s : relay) : relay :=
  match rl_active s, rl_queue s with
  | None, j :: q =>
      MkRelay (rl_tables s) (rl_uploads s) q false (Some (MkRunning j Picked false)) (rl_unscanned s)
  | _, _ => MkRelay (rl_tables s) (rl_uploads s) (rl_queue s) false (rl_active s) (rl_unscanned s)
  end.

(** The end of a job, whatever came of it. *)
Definition endJob (s : relay) : relay := scheduleFinalizers (set_active None s).

(** ** What clients call *)

Record public_metadata : Type := MkPublic {
  pm_created : Z;
  pm_failure : option string;
  pm_filename : string;
  pm_id : string;
  pm_length : Z;
  pm_offset : Z;
  pm_path : string;
  pm_state : upload_state;
  pm_status : option Z
}.

Definition publicMetadata (m : metadata) : public_metadata :=
  MkPublic (md_created m) (md_failure m) (md_filename m) (md_id m) (md_length m) (md_offset m)
    (rc_path (md_config m)) (md_state m) (md_status m).

(** [{ completed, ...publicMetadata }] *)
Record reply : Type := MkReply { rp_completed : bool; rp_offset : Z; rp_state : upload_state }.

Definition queueFinalization (now : Z) (k : key) (m : metadata) (config : relay_config) (h : headers)
    (s : relay) : outcome reply :=
  if bool_decide (md_state m = Completed) || bool_decide (md_state m = Queued)
     || bool_decide (md_state m = Forwarding)
  then (Ok (MkReply true (md_offset m) (md_state m)), s, [])
  else
    let forwarded := forwardedRequestHeaders h config in
    let m' := with_state Queued now (with_failure None
                (with_request config (md_requires_auth m || requiresCallerAuthorization forwarded) m)) in
    (Ok (MkReply true (md_offset m') Queued),
     enqueueFinalizer k forwarded (writeMetadata k m' s), [Requested k config]).

Section Operations.
Context `{RelayEnv}.

(** [pendingUploadStats]: how many uploads of the host are not completed, and
    the bytes they declare. *)
Definition pending_of (hostId : Z) (k : key) (s : relay) : option metadata :=
  if negb (fst k =? hostId) then None
  else match loadMetadata k s with
       | Ok m => if bool_decide (md_state m = Completed) then None else Some m
       | Throw _ => None
       end.
Definition pending_map (hostId : Z) (s : relay) : gmap key metadata :=
  map_imap (fun k _ => pending_of hostId k s) (rl_uploads s).
Definition pendingUploadStats (hostId : Z) (s : relay) : nat * Z :=
  (size (pending_map hostId s), map_fold (fun _ m n => md_length m + n) 0 (pending_map hostId s)).

Definition create (now : Z) (hostId : Z) (id : string) (filename : option string) (len : option Z)
    (mediaType : option string) (s : relay) : outcome public_metadata :=
  if (hostId <? 1) || (MAX_SAFE_INTEGER <? hostId) then refuse not_found s
  else
    try? config := getConfig (rl_tables s) hostId on s in
    try? normalizedLength := asPositiveInteger len "Upload length" None (rc_max_file_size config) on s in
    let '(count, reservedBytes) := pendingUploadStats hostId s in
    if Nat.leb MAX_PENDING_UPLOADS count
    then refuse (ValidationError "Upload relay has reached its maximum number of pending uploads") s
    else if rc_max_pending config <? reservedBytes + normalizedLength
    then refuse (ValidationError "Upload relay has reached its pending-byte limit") s
    else
      let m := MkMeta hostId id normalizedLength 0 Uploading [] config (safeFilename filename)
                 (take_str 255 (text_or mediaType "application/octet-stream")) now None None None false 0
                 None None in
      (Ok (publicMetadata m), writeMetadata (hostId, id) m s, [Created (hostId, id)]).

Definition get (k : key) (s : relay) : fallible public_metadata :=
  let? _ := getConfig (rl_tables s) (fst k) in
  let? m := loadMetadata k s in
  Ok (publicMetadata m).

Definition offsetConflict : error :=
  MkError CValidation "Upload offset does not match the persisted upload state" true (Some 409).

Definition put_part (k : key) (offset : Z) (data : string) (s : relay) : relay :=
  match rl_uploads s !! k with
  | Some u => set_uploads (<[k := MkUpload (up_meta u) (<[offset := data]> (up_parts u))]> (rl_uploads s)) s
  | None => s
  end.

(** The last chunk again: [metadata.offset === metadata.length] and the same
    offset and size. *)
Definition is_final_retry (m : metadata) (offset len : Z) : bool :=
  (md_offset m =? md_length m) &&
  match list.last (md_chunks m) with
  | Some c => (offset =? ch_offset c) && (len =? ch_size c)
  | None => false
  end.

(** The metadata after the chunk file is in place. *)
Definition add_chunk (len : Z) (m : metadata) : metadata :=
  with_chunks (md_chunks m ++ [MkChunk (md_offset m) len]) (md_offset m + len) m.

(** [data] is what the stream delivered.  The chunk file gets its name only
    when it is complete. *)
Definition append (now : Z) (k : key) (contentLength : Z) (h : headers) (offset : Z) (data : string)
    (s : relay) : outcome reply :=
  try? config := getConfig (rl_tables s) (fst k) on s in
  try? m := loadMetadata k s on s in
  if (offset <? 0) || (MAX_SAFE_INTEGER <? offset)
  then refuse (ValidationError "Upload offset must be a non-negative integer") s
  else if (contentLength <? 0) || (MAX_SAFE_INTEGER <? contentLength)
          || (rc_chunk_size (md_config m) <? contentLength)
  then refuse (ValidationError "Chunk length exceeds the configured upload relay chunk size") s
  else
    let isFinalChunkRetry := is_final_retry m offset contentLength in
    if negb (offset =? md_offset m) && negb isFinalChunkRetry then refuse offsetConflict s
    else if isFinalChunkRetry then
      if negb (strlen data =? contentLength)
      then refuse (ValidationError "Chunk length does not match Content-Length") s
      else queueFinalization now k m config h s
    else if contentLength =? 0 then
      if negb (md_offset m =? md_length m)
      then refuse (ValidationError "Zero-length chunks are only valid when finalizing a complete upload") s
      else queueFinalization now k m config h s
    else if md_length m <? md_offset m + contentLength
    then refuse (ValidationError "Chunk exceeds the declared upload length") s
    else if negb (strlen data =? contentLength)
    then refuse (ValidationError "Chunk length does not match Content-Length") s
    else
      let m' := add_chunk contentLength m in
      let s' := writeMetadata k m' (put_part k (md_offset m) data s) in
      if negb (md_offset m' =? md_length m')
      then (Ok (MkReply false (md_offset m') (md_state m')), s', [Received k data])
      else
        let '(r, s'', evs) := queueFinalization now k m' config h s' in
        (r, s'', Received k data :: evs).

Definition finalize (now : Z) (k : key) (h : headers) (s : relay) : outcome reply :=
  try? config := getConfig (rl_tables s) (fst k) on s in
  try? m := loadMetadata k s on s in
  if negb (md_offset m =? md_length m) then refuse (ValidationError "Upload is incomplete") s
  else queueFinalization now k m config h s.

(** [activeFinalizationControllers.get(key)?.abort()] *)
Definition has_controller (ph : phase) : bool :=
  match ph with Prepared _ | Checked _ _ | Sent _ => true | _ => false end.
Definition abort (k : key) (s : relay) : relay :=
  match rl_active s with
  | Some r =>
      if bool_decide (jb_key (rn_job r) = k) && has_controller (rn_phase r)
      then set_active (Some (MkRunning (rn_job r) (rn_phase r) true)) s else s
  | None => s
  end.

Definition remove (now : Z) (k : key) (s : relay) : outcome unit :=
  try? _ := getConfig (rl_tables s) (fst k) on s in
  try? m := loadMetadata k s on s in
  if bool_decide (md_state m = Forwarding)
  then (Ok tt, abort k (writeMetadata k (with_state Cancelled now (with_failure (Some "cancelled") m)) s), [])
  else (Ok tt, removeUploadDirectory k s, []).

(** ** What the process does by itself *)

(** One directory of [cleanupExpired]. *)
Definition cleanup_one (now : Z) (k : key) (s : relay) : relay :=
  if negb (isUploadId (snd k)) then s
  else match loadMetadata k s with
       | Ok m =>
           if bool_decide (md_state m = Forwarding) then s
           else if now <? md_created m + rc_cleanup_hours (md_config m) * 60 * 60 * 1000 then s
           else removeUploadDirectory k s
       | Throw _ => removeUploadDirectory k s
       end.

(** One directory of [recoverInterruptedFinalizations]. *)
Definition recover_one (now : Z) (k : key) (s : relay) : relay :=
  set_unscanned (rl_unscanned s ∖ {[k]})
    (match loadMetadata k s with
     | Throw _ => s
     | Ok m =>
         match md_state m with
         | Cancelled => removeUploadDirectory k s
         | Forwarding => writeMetadata k (fail_with now "interrupted-forwarding" m) s
         | Queued =>
             if md_requires_auth m
             then writeMetadata k (fail_with now "restart-requires-authorization" m) s
             else enqueueFinalizer k ∅ (writeMetadata k (with_state Queued now m) s)
         | _ => s
         end
     end).

(** ** The worker *)

Definition advance (ph : phase) (r : running) (s : relay) : relay :=
  set_active (Some (MkRunning (rn_job r) ph (rn_aborted r))) s.

(** First turn under the lock: take the lease. *)
Definition prepare (now : Z) (lease : string) (r : running) (s : relay) : relay :=
  let k := jb_key (rn_job r) in
  match loadMetadata k s with
  | Throw _ => endJob s
  | Ok m =>
      if negb (bool_decide (md_state m = Queued)) then endJob s
      else match getConfig (rl_tables s) (fst k) with
           | Throw _ => endJob (writeMetadata k (fail_with now "relay-disabled" m) s)
           | Ok config =>
               if negb (fingerprint_eqb (md_config m) config)
               then endJob (writeMetadata k (fail_with now "configuration-changed" m) s)
               else
                 let m' := with_state Forwarding now (with_lease lease (with_failure None m)) in
                 advance (Prepared (MkPrepared config lease m')) r (writeMetadata k m' s)
           end
  end.

(** The settings once more, before anything leaves. *)
Definition check_dispatch (p : prepared) (r : running) (s : relay) : relay :=
  match getConfig (rl_tables s) (fst (jb_key (rn_job r))) with
  | Throw _ => advance (Refused p "relay-disabled") r s
  | Ok config =>
      if negb (fingerprint_eqb config (pr_config p)) then advance (Refused p "configuration-changed") r s
      else advance (Checked p config) r s
  end.

Fixpoint insert_chunk (c : chunk) (cs : list chunk) : list chunk :=
  match cs with
  | [] => [c]
  | c' :: cs' => if ch_offset c <=? ch_offset c' then c :: cs else c' :: insert_chunk c cs'
  end.
Definition sort_chunks (cs : list chunk) : list chunk := foldr insert_chunk [] cs.

(** The chunk files one after another, if each is there with its size. *)
Fixpoint read_parts (parts : gmap Z string) (cs : list chunk) : option string :=
  match cs with
  | [] => Some ""
  | c :: cs' =>
      match parts !! ch_offset c, read_parts parts cs' with
      | Some data, Some rest => if strlen data =? ch_size c then Some (data ++ rest)%string else None
      | _, _ => None
      end
  end.

Definition request_headers (m : metadata) (h : headers) (config : relay_config) : headers :=
  forwardedRequestHeaders h config ∪
  list_to_map [("content-length", show_Z (md_length m));
               ("content-type", text_or (Some (md_media_type m)) "application/octet-stream");
               ("x-shieldpm-upload-filename", md_filename m);
               ("x-shieldpm-upload-id", md_id m);
               ("x-shieldpm-upload-relay", "1")].

(** [finish] up to the request; an aborted signal or a bad chunk sends
    nothing. *)
Definition send (p : prepared) (config : relay_config) (r : running) (s : relay) : relay * list event :=
  let k := jb_key (rn_job r) in
  let body := match rl_uploads s !! k with
              | Some u => read_parts (up_parts u) (sort_chunks (md_chunks (pr_meta p)))
              | None => None
              end in
  match body with
  | Some data =>
      if rn_aborted r then (advance (Answered p None) r s, [])
      else (advance (Sent p) r s,
            [Posted k (MkRequest (rc_origin config)
                         (request_headers (pr_meta p) (jb_headers (rn_job r)) config) data)])
  | None => (advance (Answered p None) r s, [])
  end.

(** Second turn under the lock, when the settings changed. *)
Definition settle_refused (now : Z) (p : prepared) (code : string) (r : running) (s : relay) : relay :=
  let k := jb_key (rn_job r) in
  endJob
    (match loadMetadata k s with
     | Throw _ => s
     | Ok m =>
         if bool_decide (md_state m = Cancelled) then removeUploadDirectory k s
         else if negb (bool_decide (md_state m = Forwarding) && bool_decide (md_lease m = Some (pr_lease p)))
         then s
         else writeMetadata k (fail_with now code m) s
     end).

Definition removeChunks (k : key) (offsets : list Z) (s : relay) : relay :=
  match rl_uploads s !! k with
  | Some u => set_uploads (<[k := MkUpload (up_meta u) (foldr delete (up_parts u) offsets)]> (rl_uploads s)) s
  | None => s
  end.

(** Second turn under the lock, after the origin answered.  [gone] are the
    chunk files that could be deleted; [None] when all of them could. *)
Definition settle (now : Z) (p : prepared) (status : option Z) (gone : option (list Z)) (r : running)
    (s : relay) : relay :=
  let k := jb_key (rn_job r) in
  endJob
    (match loadMetadata k s with
     | Throw _ => s
     | Ok m =>
         if bool_decide (md_state m = Cancelled) then removeUploadDirectory k s
         else if negb (bool_decide (md_state m = Forwarding) && bool_decide (md_lease m = Some (pr_lease p)))
         then s
         else match status with
              | None => writeMetadata k (fail_with now "origin-rejected" m) s
              | Some st =>
                  let m' := with_state Completed now (with_result now st (with_failure None m)) in
                  let s' := writeMetadata k m' s in
                  match gone with
                  | None => writeMetadata k (with_chunks [] (md_offset m') m')
                              (removeChunks k (map ch_offset (md_chunks m')) s')
                  | Some offsets => writeMetadata k (with_failure (Some "chunk-cleanup-pending") m')
                                      (removeChunks k offsets s')
                  end
              end
     end).

(** A new process on the same directory: the recovery has every upload to
    look at. *)
Definition restart (s : relay) : relay :=
  MkRelay (rl_tables s) (rl_uploads s) [] false None (dom (rl_uploads s)).
End Operations.

(** ** The machine *)

Definition ev_key (e : event) : key :=
  match e with Created k | Received k _ | Requested k _ | Posted k _ => k end.

Definition created (k : key) (tr : list event) : Prop := In (Created k) tr.

(** What was acknowledged of an upload, in order. *)
Fixpoint received (k : key) (tr : list event) : string :=
  match tr with
  | [] => ""
  | Received k' data :: tr' => if decide (k' = k) then (data ++ received k tr')%string else received k tr'
  | _ :: tr' => received k tr'
  end.

Definition is_request (k : key) (e : event) : bool :=
  match e with Requested k' _ => bool_decide (k' = k) | _ => false end.
Definition is_post (k : key) (e : event) : bool :=
  match e with Posted k' _ => bool_decide (k' = k) | _ => false end.
Definition requests (k : key) (tr : list event) : nat := count_where (is_request k) tr.
Definition posts (k : key) (tr : list event) : nat := count_where (is_post k) tr.

Abbreviation world := (relay * list event)%type.

Section Machine.
Context `{RelayEnv}.

Definition boot (w : world) : Prop :=
  exists t, w = (MkRelay t ∅ [] false None ∅, []).

(** Steps of clients, of the process, and of the world around it.  Upload
    identifiers are random: a new one was never used. *)
Inductive relay_step : world -> world -> Prop :=
| rs_tables t s tr : relay_step (s, tr) (set_tables t s, tr)
| rs_create now hostId id filename len mediaType s tr r s' evs :
    isUploadId id = true -> ~ created (hostId, id) tr ->
    create now hostId id filename len mediaType s = (r, s', evs) ->
    relay_step (s, tr) (s', tr ++ evs)
| rs_create_stopped hostId id s tr :
    isUploadId id = true -> ~ created (hostId, id) tr ->
    relay_step (s, tr)
      (restart (set_uploads (<[(hostId, id) := MkUpload None ∅]> (rl_uploads s)) s), tr ++ [Created (hostId, id)])
| rs_append now k contentLength h offset data s tr r s' evs :
    append now k contentLength h offset data s = (r, s', evs) ->
    relay_step (s, tr) (s', tr ++ evs)
| rs_append_stopped k m data s tr :
    loadMetadata k s = Ok m -> md_offset m < md_length m ->
    relay_step (s, tr) (restart (put_part k (md_offset m) data s), tr)
| rs_finalize now k h s tr r s' evs :
    finalize now k h s = (r, s', evs) -> relay_step (s, tr) (s', tr ++ evs)
| rs_remove now k s tr r s' evs :
    remove now k s = (r, s', evs) -> relay_step (s, tr) (s', tr ++ evs)
| rs_cleanup now k s tr : relay_step (s, tr) (cleanup_one now k s, tr)
| rs_recover now k s tr : relay_step (s, tr) (recover_one now k s, tr)
| rs_run s tr : rl_scheduled s = true -> relay_step (s, tr) (runScheduled s, tr)
| rs_prepare now lease j a s tr :
    rl_active s = Some (MkRunning j Picked a) ->
    relay_step (s, tr) (prepare now lease (MkRunning j Picked a) s, tr)
| rs_check p j a s tr :
    rl_active s = Some (MkRunning j (Prepared p) a) ->
    relay_step (s, tr) (check_dispatch p (MkRunning j (Prepared p) a) s, tr)
| rs_settle_refused now p code j a s tr :
    rl_active s = Some (MkRunning j (Refused p code) a) ->
    relay_step (s, tr) (settle_refused now p code (MkRunning j (Refused p code) a) s, tr)
| rs_send p config j a s tr s' evs :
    rl_active s = Some (MkRunning j (Checked p config) a) ->
    send p config (MkRunning j (Checked p config) a) s = (s', evs) ->
    relay_step (s, tr) (s', tr ++ evs)
| rs_answer p status j a s tr :
    rl_active s = Some (MkRunning j (Sent p) a) ->
    relay_step (s, tr) (advance (Answered p status) (MkRunning j (Sent p) a) s, tr)
| rs_settle now p status gone j a s tr :
    rl_active s = Some (MkRunning j (Answered p status) a) ->
    relay_step (s, tr) (settle now p status gone (MkRunning j (Answered p status) a) s, tr)
| rs_stop j ph s tr :
    rl_active s = Some (MkRunning j ph false) ->
    relay_step (s, tr) (set_active (Some (MkRunning j ph true)) s, tr)
| rs_restart s tr : relay_step (s, tr) (restart s, tr).

Definition relay_reachable : world -> Prop := reachable boot relay_step.
End Machine.
