(* ===== verification/UploadRelayInv.v ===== *)
(** The invariant of the upload relay (UploadRelay.v): what is known of one
    upload, its directory, the worker's lease on it and the trace of events
    that concern it; each operation concerns one upload and keeps it. *)

From stdpp Require Import gmap strings.
From S2P Require Import Prelude JsString Errors UploadRelay.
#[local] Open Scope string_scope.
#[local] Open Scope list_scope.
#[local] Open Scope Z_scope.

(** ** Lemmas on traces and chunks *)

Lemma received_app k a b : received k (a ++ b) = (received k a ++ received k b)%string.
Proof.
  induction a as [|[| | |] a IH]; simpl; try done.
  case_decide; [|done]. by rewrite IH, append_assoc.
Qed.

Lemma requests_app k a b : requests k (a ++ b) = (requests k a + requests k b)%nat.
Proof. unfold requests, count_where. by rewrite List.filter_app, length_app. Qed.
Lemma posts_app k a b : posts k (a ++ b) = (posts k a + posts k b)%nat.
Proof. unfold posts, count_where. by rewrite List.filter_app, length_app. Qed.

Lemma requests_one k e : requests k [e] = if is_request k e then 1%nat else 0%nat.
Proof. unfold requests, count_where. simpl. by destruct (is_request k e). Qed.
Lemma posts_one k e : posts k [e] = if is_post k e then 1%nat else 0%nat.
Proof. unfold posts, count_where. simpl. by destruct (is_post k e). Qed.

(** Events of other uploads do not count. *)
Lemma foreign_events k tr :
  Forall (fun e => ev_key e <> k) tr -> received k tr = "" /\ requests k tr = 0%nat /\ posts k tr = 0%nat.
Proof.
  unfold requests, posts, count_where.
  induction 1 as [|e tr He _ (IH1 & IH2 & IH3)]; [done|].
  destruct e as [k'|k' d|k' c|k' r]; simpl in *; rewrite ?bool_decide_eq_false_2 by done; try done.
  by rewrite decide_False by done.
Qed.

Lemma requests_in k c tr : In (Requested k c) tr -> (1 <= requests k tr)%nat.
Proof.
  intros (a & b & ->)%in_split. rewrite requests_app. unfold requests at 2, count_where. simpl.
  rewrite bool_decide_eq_true_2 by done. simpl. lia.
Qed.

Lemma no_requests_no_posts k tr : (posts k tr <= requests k tr)%nat -> requests k tr = 0%nat -> forall r, ~ In (Posted k r) tr.
Proof.
  intros Hle Hr r (a & b & ->)%in_split. rewrite posts_app in Hle. unfold posts at 2, count_where in Hle.
  simpl in Hle. rewrite bool_decide_eq_true_2 in Hle by done. simpl in Hle. lia.
Qed.

Lemma chunks_end_app len cs start e c :
  chunks_end len start cs = Some e -> ch_offset c = e -> 1 <= ch_size c <= MAX_SAFE_INTEGER -> ch_size c <= len - e ->
  chunks_end len start (cs ++ [c]) = Some (e + ch_size c).
Proof.
  revert start. induction cs as [|c' cs IH]; intros start; simpl.
  - intros [= ->] -> Hs Hl. rewrite Z.eqb_refl. simpl.
    destruct (1 <=? ch_size c) eqn:E1; [|boolify; lia]. destruct (ch_size c <=? MAX_SAFE_INTEGER) eqn:E2; [|boolify; lia].
    destruct (ch_size c <=? len - e) eqn:E3; [done|boolify; lia].
  - split_if; [|done]. intros. by apply IH.
Qed.

(** Tiling chunks are sorted. *)
Lemma sort_tiling len start cs e : chunks_end len start cs = Some e -> sort_chunks cs = cs.
Proof.
  revert start. induction cs as [|c cs IH]; intros start; [done|]. simpl. split_if; [|done].
  intros He. rewrite (IH _ He). destruct cs as [|c' cs']; [done|]. simpl in *.
  destruct (_ && _ && _ && _) eqn:E in He; [|done]. boolify.
  destruct (ch_offset c <=? ch_offset c') eqn:Hle; [done|]. boolify. lia.
Qed.

Lemma read_parts_length parts cs data len start e :
  chunks_end len start cs = Some e -> read_parts parts cs = Some data -> strlen data = e - start.
Proof.
  revert start data. induction cs as [|c cs IH]; intros start data; simpl.
  - intros [= ->] [= <-]. simpl. lia.
  - split_if; [|done]. intros He. destruct (parts !! _) as [d|]; [|done].
    destruct (read_parts parts cs) as [r|] eqn:Er; [|done]. split_if; [|done]. intros [= <-].
    rewrite length_append. specialize (IH _ _ He eq_refl). boolify. lia.
Qed.

(** Writing behind the last chunk leaves the chunks before it alone. *)
Lemma read_parts_snoc parts cs data d len start e :
  chunks_end len start cs = Some e -> read_parts parts cs = Some data ->
  read_parts (<[e := d]> parts) cs = Some data /\
  read_parts (<[e := d]> parts) (cs ++ [MkChunk e (strlen d)]) = Some (data ++ d)%string.
Proof.
  assert (chunks_ge : forall cs start e, chunks_end len start cs = Some e -> start <= e).
  { intros cs'. induction cs' as [|c cs' IH]; intros st e'; simpl; [intros [= ->]; lia|].
    split_if; [|done]. intros He%IH. boolify. lia. }
  revert start data. induction cs as [|c cs IH]; intros start data; simpl.
  - intros [= ->] [= <-]. rewrite lookup_insert_eq, Z.eqb_refl, append_nil_r. done.
  - split_if; [|done]. intros He. assert (ch_offset c <> e) as Hne by (pose proof (chunks_ge _ _ _ He); boolify; lia).
    destruct (parts !! ch_offset c) as [dc|] eqn:Ep; [|done].
    destruct (read_parts parts cs) as [r|] eqn:Er; [|done].
    intros Hd. destruct (IH _ _ He eq_refl) as [-> ->].
    rewrite lookup_insert_ne by done. rewrite Ep.
    destruct (strlen dc =? ch_size c); simplify_eq/=. by rewrite append_assoc.
Qed.

(** ** The invariant of one upload *)

(** Where the worker stands with an upload, if it is working on it. *)
Definition view (k : key) (s : relay) : option phase :=
  match rl_active s with
  | Some r => if decide (jb_key (rn_job r) = k) then Some (rn_phase r) else None
  | None => None
  end.

(** The lease of a worker that has not sent anything yet. *)
Definition unsent (w : option phase) : option prepared :=
  match w with
  | Some (Prepared p) | Some (Checked p _) => Some p
  | _ => None
  end.

Definition pending_posts (uo : option upload) (w : option phase) : nat :=
  ((match uo with Some (MkUpload (Some m) _) => if decide (md_state m = Queued) then 1 else 0 | _ => 0 end)
   + (match unsent w with Some _ => 1 | None => 0 end))%nat.

Record meta_ok (k : key) (m : metadata) (parts : gmap Z string) (w : option phase) (tr : list event) : Prop := {
  mo_id : isUploadId (snd k) = true;
  mo_valid : valid_metadata k m = true;
  mo_received : strlen (received k tr) = md_offset m;
  mo_parts : md_state m <> Completed -> read_parts parts (md_chunks m) = Some (received k tr);
  mo_full : md_state m <> Uploading -> md_offset m = md_length m;
  mo_unasked : md_state m = Uploading -> requests k tr = 0%nat;
  mo_asked : md_state m = Queued -> In (Requested k (md_config m)) tr;
  mo_same : forall p, unsent w = Some p ->
    md_state m <> Completed /\ md_chunks m = md_chunks (pr_meta p) /\ md_length m = md_length (pr_meta p)
}.

Record lease_ok (k : key) (p : prepared) (tr : list event) : Prop := {
  lo_asked : In (Requested k (md_config (pr_meta p))) tr;
  lo_config : originFingerprint (pr_config p) = originFingerprint (md_config (pr_meta p));
  lo_valid : exists e, chunks_end (md_length (pr_meta p)) 0 (md_chunks (pr_meta p)) = Some e
}.

(** A request that carries exactly what was uploaded, to the origin that was
    configured when the client asked. *)
Record faithful_post (k : key) (r : request) (tr : list event) : Prop := {
  fp_asked : exists c, In (Requested k c) tr /\ rq_origin r = rc_origin c
    /\ (rc_forward_auth c = false -> rq_headers r !! "authorization" = None);
  fp_body : rq_body r = received k tr;
  fp_length : rq_headers r !! "content-length" = Some (show_Z (strlen (rq_body r)))
}.

Record key_ok (k : key) (uo : option upload) (w : option phase) (tr : list event) : Prop := {
  ko_fresh : ~ created k tr -> uo = None /\ Forall (fun e => ev_key e <> k) tr;
  ko_blank : forall parts, uo = Some (MkUpload None parts) -> requests k tr = 0%nat;
  ko_meta : forall m parts, uo = Some (MkUpload (Some m) parts) -> meta_ok k m parts w tr;
  ko_lease : forall p, unsent w = Some p -> lease_ok k p tr;
  ko_checked : forall p c, w = Some (Checked p c) -> originFingerprint c = originFingerprint (pr_config p);
  ko_count : (posts k tr + pending_posts uo w <= requests k tr)%nat;
  ko_posts : forall r, In (Posted k r) tr -> faithful_post k r tr
}.

Definition relay_inv (x : world) : Prop :=
  forall k, key_ok k (rl_uploads (fst x) !! k) (view k (fst x)) (snd x).

(** Events of other uploads change nothing. *)
Lemma key_ok_frame k uo w tr evs :
  Forall (fun e => ev_key e <> k) evs -> key_ok k uo w tr -> key_ok k uo w (tr ++ evs).
Proof.
  intros Hf Hk. destruct (foreign_events _ _ Hf) as (Hr & Hq & Hp).
  assert (received k (tr ++ evs) = received k tr) as Er by by rewrite received_app, Hr, append_nil_r.
  assert (requests k (tr ++ evs) = requests k tr) as Eq by (rewrite requests_app; lia).
  assert (posts k (tr ++ evs) = posts k tr) as Ep by (rewrite posts_app; lia).
  assert (Hback : forall e, ev_key e = k -> In e (tr ++ evs) -> In e tr).
  { intros e He [?|Hin]%in_app_iff; [done|]. rewrite List.Forall_forall in Hf. by destruct (Hf _ Hin). }
  assert (Hfwd : forall e, In e tr -> In e (tr ++ evs)) by (intros; apply in_app_iff; by left).
  split.
  - intros Hc. destruct (ko_fresh _ _ _ _ Hk) as [? ?]; [by intros ?; apply Hc, Hfwd|].
    split; [done|]. apply Forall_app. done.
  - intros parts E. rewrite Eq. by eapply ko_blank.
  - intros m parts E. destruct (ko_meta _ _ _ _ Hk _ _ E). split; rewrite ?Er, ?Eq; auto.
  - intros p E. destruct (ko_lease _ _ _ _ Hk _ E). split; auto.
  - apply (ko_checked _ _ _ _ Hk).
  - rewrite Eq, Ep. apply (ko_count _ _ _ _ Hk).
  - intros r Hin. destruct (ko_posts _ _ _ _ Hk r) as [(c & ? & ?) ? ?]; [by apply Hback|].
    split; rewrite ?Er; [exists c; split; auto|done..].
Qed.

(** A step that concerns one upload. *)
Record local (k : key) (s s' : relay) : Prop := {
  lc_uploads : forall k', k' <> k -> rl_uploads s' !! k' = rl_uploads s !! k';
  lc_view : forall k', k' <> k -> view k' s' = view k' s
}.

Lemma inv_local k s s' tr evs :
  local k s s' -> Forall (fun e => ev_key e = k) evs -> relay_inv (s, tr) ->
  key_ok k (rl_uploads s' !! k) (view k s') (tr ++ evs) -> relay_inv (s', tr ++ evs).
Proof.
  intros [Hu Hv] He Hi Hk k'. simpl. destruct (decide (k' = k)) as [->|Hne]; [done|].
  rewrite Hu, Hv by done. apply key_ok_frame; [|apply (Hi k')].
  eapply List.Forall_impl; [|exact He]. by intros e ->.
Qed.

Lemma inv_quiet k s s' tr :
  local k s s' -> relay_inv (s, tr) -> key_ok k (rl_uploads s' !! k) (view k s') tr -> relay_inv (s', tr).
Proof.
  intros Hl Hi Hk. rewrite <- (app_nil_r tr). eapply inv_local; eauto. by rewrite app_nil_r.
Qed.

(** ** What the operations do to one upload *)

Lemma uploads_schedule s : rl_uploads (scheduleFinalizers s) = rl_uploads s.
Proof. unfold scheduleFinalizers. by split_if. Qed.
Lemma active_schedule s : rl_active (scheduleFinalizers s) = rl_active s.
Proof. unfold scheduleFinalizers. by split_if. Qed.
Lemma view_schedule k s : view k (scheduleFinalizers s) = view k s.
Proof. unfold view. by rewrite active_schedule. Qed.
Lemma uploads_enqueue k h s : rl_uploads (enqueueFinalizer k h s) = rl_uploads s.
Proof. unfold enqueueFinalizer. by rewrite uploads_schedule. Qed.
Lemma view_enqueue k k' h s : view k' (enqueueFinalizer k h s) = view k' s.
Proof. unfold enqueueFinalizer. by rewrite view_schedule. Qed.
Lemma uploads_end s : rl_uploads (endJob s) = rl_uploads s.
Proof. unfold endJob. by rewrite uploads_schedule. Qed.
Lemma view_end k s : view k (endJob s) = None.
Proof. unfold endJob. by rewrite view_schedule. Qed.
Lemma uploads_write k m s : rl_uploads (writeMetadata k m s)
  = <[k := MkUpload (Some m) (match rl_uploads s !! k with Some u => up_parts u | None => ∅ end)]> (rl_uploads s).
Proof. done. Qed.
Lemma view_write k k' m s : view k' (writeMetadata k m s) = view k' s.
Proof. done. Qed.
Lemma view_active k r s : rl_active s = Some r -> jb_key (rn_job r) = k -> view k s = Some (rn_phase r).
Proof. unfold view. intros -> ->. by rewrite decide_True. Qed.
Lemma view_at ph j ph0 a s : view (jb_key j) (advance ph (MkRunning j ph0 a) s) = Some ph.
Proof. unfold view, advance. simpl. by rewrite decide_True. Qed.
Lemma uploads_advance ph r s : rl_uploads (advance ph r s) = rl_uploads s.
Proof. done. Qed.
Lemma view_advance ph r s : view (jb_key (rn_job r)) (advance ph r s) = Some ph.
Proof. unfold view, advance. simpl. by rewrite decide_True. Qed.

Create HintDb relay.
Create Rewrite HintDb relay_rw.
#[export] Hint Rewrite uploads_schedule active_schedule view_schedule uploads_enqueue view_enqueue uploads_end
  view_end view_write view_advance : relay_rw.

Lemma local_refl k s : local k s s.
Proof. by split. Qed.
Lemma local_trans k s1 s2 s3 : local k s1 s2 -> local k s2 s3 -> local k s1 s3.
Proof.
  intros [Hu Hv] [Hu' Hv']. split; intros k' Hne.
  - by rewrite Hu', Hu.
  - by rewrite Hv', Hv.
Qed.
Lemma local_write k m s : local k s (writeMetadata k m s).
Proof. split; [|done]. intros k' Hne. simpl. by rewrite lookup_insert_ne. Qed.
Lemma local_remove k s : local k s (removeUploadDirectory k s).
Proof. split; [|done]. intros k' Hne. simpl. by rewrite lookup_delete_ne. Qed.
Lemma local_put k o d s : local k s (put_part k o d s).
Proof.
  unfold put_part. destruct (rl_uploads s !! k); [|apply local_refl]. split; [|done].
  intros k' Hne. simpl. by rewrite lookup_insert_ne.
Qed.
Lemma local_chunks k offs s : local k s (removeChunks k offs s).
Proof.
  unfold removeChunks. destruct (rl_uploads s !! k); [|apply local_refl]. split; [|done].
  intros k' Hne. simpl. by rewrite lookup_insert_ne.
Qed.
Lemma local_enqueue k h s : local k s (enqueueFinalizer k h s).
Proof. split; intros; by autorewrite with relay_rw. Qed.
Lemma local_end k r s : rl_active s = Some r -> jb_key (rn_job r) = k -> local k s (endJob s).
Proof.
  intros Ha Hk. split; intros k' Hne; autorewrite with relay_rw; [done|].
  unfold view. rewrite Ha. by rewrite decide_False by (by subst).
Qed.
Lemma local_advance k ph r r' s : rl_active s = Some r' -> rn_job r' = rn_job r -> jb_key (rn_job r) = k ->
  local k s (advance ph r s).
Proof.
  intros Ha Hj Hk. split; [done|]. intros k' Hne. unfold view, advance. simpl. rewrite Ha, Hj.
  by rewrite !decide_False by (by subst).
Qed.
#[export] Hint Resolve local_refl local_write local_remove local_put local_chunks local_enqueue : relay.

(** What loading tells. *)
Lemma load_ok k s m : loadMetadata k s = Ok m ->
  exists parts, rl_uploads s !! k = Some (MkUpload (Some m) parts).
Proof.
  unfold loadMetadata. intros H. ok_inv H. destruct (rl_uploads s !! k) as [[[m'|] parts]|]; try done.
  ok_inv H. injection H as ->. by exists parts.
Qed.

(** ** The invariant is kept *)

(** The worker leaves, or moves to a phase without an unsent lease. *)
Lemma key_ok_idle k uo w w' tr :
  unsent w' = None -> key_ok k uo w tr -> key_ok k uo w' tr.
Proof.
  intros Hw Hk. split; try apply Hk.
  - intros m parts E. destruct (ko_meta _ _ _ _ Hk _ _ E). split; auto. by rewrite Hw.
  - by rewrite Hw.
  - intros p c ->. done.
  - pose proof (ko_count _ _ _ _ Hk). unfold pending_posts in *. rewrite Hw. destruct (unsent w); lia.
Qed.

Lemma key_ok_removed k uo w tr : key_ok k uo w tr -> key_ok k None w tr.
Proof.
  intros Hk. split; try apply Hk; try done.
  - intros Hc. by destruct (ko_fresh _ _ _ _ Hk Hc).
  - pose proof (ko_count _ _ _ _ Hk). unfold pending_posts in *. lia.
Qed.

Lemma key_created k uo w tr : key_ok k uo w tr -> uo <> None -> created k tr.
Proof.
  intros Hk Hu. destruct (List.in_dec (fun a b : key => decide (a = b)) k
    (omap (fun e => match e with Created k' => Some k' | _ => None end) tr)) as [Hin|Hin].
  - apply list_elem_of_In, list_elem_of_omap in Hin as (e & He & Hek). destruct e; try done.
    injection Hek as ->. by apply list_elem_of_In.
  - destruct (ko_fresh _ _ _ _ Hk); [|done]. intros Hc. apply Hin, list_elem_of_In, list_elem_of_omap.
    exists (Created k). split; [by apply list_elem_of_In|done].
Qed.

(** The fields that neither the worker nor a request touches. *)
Definition same_upload (m m' : metadata) : Prop :=
  md_host m' = md_host m /\ md_id m' = md_id m /\ md_length m' = md_length m /\
  md_offset m' = md_offset m /\ md_chunks m' = md_chunks m.

Lemma valid_restate k m m' : md_state m <> Completed -> same_upload m m' ->
  valid_metadata k m = true -> valid_metadata k m' = true.
Proof.
  intros Hs (E1 & E2 & E3 & E4 & E5). unfold valid_metadata. rewrite E1, E2, E3, E4, E5.
  rewrite (bool_decide_eq_false_2 (md_state m = Completed)) by done.
  rewrite !andb_true_iff. intros [? Hv]. split; [done|]. destruct (chunks_end _ _ _); [|done].
  apply orb_true_iff in Hv as [->|]; done.
Qed.

(** The state of an upload changes without a new request. *)
Lemma key_ok_restate k m m' parts w tr :
  key_ok k (Some (MkUpload (Some m) parts)) w tr -> same_upload m m' ->
  md_state m <> Uploading -> md_state m <> Completed -> md_state m' <> Uploading ->
  (md_state m' = Queued -> md_state m = Queued /\ md_config m' = md_config m) ->
  (md_state m' = Completed -> unsent w = None) ->
  key_ok k (Some (MkUpload (Some m') parts)) w tr.
Proof.
  intros Hk Hsame H1 H2 H3 H4 H5. pose proof Hsame as (E1 & E2 & E3 & E4 & E5).
  destruct (ko_meta _ _ _ _ Hk _ _ eq_refl) as [Oi Ov Or Op Of Ou Oa Os].
  split; try apply Hk.
  - intros Hc. by destruct (ko_fresh _ _ _ _ Hk Hc).
  - done.
  - intros ? ? [= <- <-]. split; auto.
    + by eapply valid_restate.
    + by rewrite E4.
    + rewrite E5. auto.
    + rewrite E4, E3. auto.
    + done.
    + intros [? ->]%H4. auto.
    + intros p Hp. rewrite E5, E3. destruct (Os _ Hp). split; [|done]. intros Hc%H5. congruence.
  - pose proof (ko_count _ _ _ _ Hk). unfold pending_posts in *.
    destruct (decide (md_state m' = Queued)) as [E|E]; [|lia]. destruct (H4 E) as [Em _].
    by rewrite decide_True in H by done.
Qed.

(** A completed upload no longer needs its chunks. *)
Lemma key_ok_completed k m parts cs parts' tr f :
  key_ok k (Some (MkUpload (Some m) parts)) None tr -> md_state m = Completed ->
  (cs = [] \/ cs = md_chunks m) ->
  key_ok k (Some (MkUpload (Some (with_chunks cs (md_offset m) (with_failure f m))) parts')) None tr.
Proof.
  intros Hk Hc Hcs. destruct (ko_meta _ _ _ _ Hk _ _ eq_refl) as [Oi Ov Or Op Of Ou Oa Os].
  split; try apply Hk.
  - intros Hc'. by destruct (ko_fresh _ _ _ _ Hk Hc').
  - done.
  - intros ? ? [= <- <-]. split; auto; try done; cbn [md_state with_chunks with_failure] in *.
    + unfold valid_metadata in *. simpl. rewrite !andb_true_iff in *.
      destruct Hcs as [-> | ->]; [|done]. destruct Ov as [? _]. split; [done|]. simpl.
      rewrite Hc, bool_decide_eq_true_2 by done. apply orb_true_r.
Qed.

(** An explicit request: the upload is queued under the current settings. *)
Lemma key_ok_requested k m parts w tr now config auth :
  key_ok k (Some (MkUpload (Some m) parts)) w tr ->
  md_state m <> Completed -> md_state m <> Queued -> md_state m <> Forwarding -> md_offset m = md_length m ->
  key_ok k (Some (MkUpload (Some (with_state Queued now (with_failure None (with_request config auth m)))) parts))
    w (tr ++ [Requested k config]).
Proof.
  intros Hk H1 H2 H3 Hfull. destruct (ko_meta _ _ _ _ Hk _ _ eq_refl) as [Oi Ov Or Op Of Ou Oa Os].
  assert (Er : received k (tr ++ [Requested k config]) = received k tr) by (by rewrite received_app, append_nil_r).
  assert (Eq : requests k (tr ++ [Requested k config]) = S (requests k tr)).
  { rewrite requests_app, requests_one. simpl. rewrite bool_decide_eq_true_2 by done. lia. }
  assert (Ep : posts k (tr ++ [Requested k config]) = posts k tr) by (rewrite posts_app, posts_one; simpl; lia).
  assert (Hfwd : forall e, In e tr -> In e (tr ++ [Requested k config])) by (intros; apply in_app_iff; by left).
  split.
  - intros Hc. destruct Hc. by apply Hfwd, (key_created _ _ _ _ Hk).
  - done.
  - intros ? ? [= <- <-]. split; rewrite ?Er; cbn [md_state with_state with_failure with_request] in *; auto; try done.
    + eapply valid_restate; [exact H1| |exact Ov]. done.
    + intros _. apply in_app_iff. right. by left.
    + intros p Hp. by destruct (Os p Hp) as (_ & ? & ?).
  - intros p Hp. destruct (ko_lease _ _ _ _ Hk _ Hp). split; auto.
  - apply (ko_checked _ _ _ _ Hk).
  - rewrite Eq, Ep. pose proof (ko_count _ _ _ _ Hk). unfold pending_posts in *. simpl.
    rewrite decide_False in H by done. lia.
  - intros r [Hin|[?|[]]]%in_app_iff; [|done]. destruct (ko_posts _ _ _ _ Hk _ Hin) as [(c & ? & ?) ? ?].
    split; rewrite ?Er; [exists c; split; auto|done..].
Qed.

(** A chunk is acknowledged. *)
Lemma key_ok_received k m parts w tr data :
  key_ok k (Some (MkUpload (Some m) parts)) w tr ->
  1 <= strlen data <= MAX_SAFE_INTEGER -> md_offset m + strlen data <= md_length m ->
  key_ok k (Some (MkUpload (Some (add_chunk (strlen data) m)) (<[md_offset m := data]> parts)))
    w (tr ++ [Received k data]) /\ md_state m = Uploading.
Proof.
  intros Hk Hd Hl. destruct (ko_meta _ _ _ _ Hk _ _ eq_refl) as [Oi Ov Or Op Of Ou Oa Os].
  assert (md_state m = Uploading) as Hst.
  { destruct (decide (md_state m = Uploading)); [done|]. rewrite Of in Hl by done. lia. }
  split; [|done]. specialize (Ou Hst).
  assert (Er : received k (tr ++ [Received k data]) = (received k tr ++ data)%string).
  { rewrite received_app. simpl. by rewrite decide_True, append_nil_r. }
  assert (Eq : requests k (tr ++ [Received k data]) = 0%nat) by (rewrite requests_app, requests_one; simpl; lia).
  assert (Ep : posts k (tr ++ [Received k data]) = posts k tr) by (rewrite posts_app, posts_one; simpl; lia).
  pose proof (ko_count _ _ _ _ Hk) as Hcnt.
  assert (Hno : forall r, ~ In (Posted k r) tr) by (apply no_requests_no_posts; [lia|done]).
  assert (Hlease : unsent w = None).
  { destruct (unsent w) as [p|] eqn:Ew; [|done]. unfold pending_posts in Hcnt. rewrite Ew in Hcnt. lia. }
  assert (Hcs : chunks_end (md_length m) 0 (md_chunks m) = Some (md_offset m)).
  { clear -Ov Hst. unfold valid_metadata in Ov. rewrite !andb_true_iff in Ov. destruct Ov as [_ Ov].
    destruct (chunks_end _ _ _) as [e|]; [|done]. apply orb_true_iff in Ov as [?|?]; boolify; congruence. }
  split.
  - intros Hc. destruct Hc. apply in_app_iff. left. by apply (key_created _ _ _ _ Hk).
  - done.
  - intros ? ? [= <- <-]. split; rewrite ?Er; cbn [md_state add_chunk with_chunks md_offset md_chunks md_length] in *; auto.
    + unfold valid_metadata in *. simpl. rewrite !andb_true_iff in *. destruct Ov as [Ov _].
      rewrite (chunks_end_app _ _ _ _ _ Hcs) by (simpl; lia). rewrite Z.eqb_refl. simpl.
      rewrite !Z.leb_le in *. repeat split; try apply Ov; simpl; lia.
    + rewrite length_append. lia.
    + intros _. rewrite Hst in Op. eapply read_parts_snoc; [done|by apply Op].
    + by rewrite Hst.
    + by rewrite Hst.
    + by rewrite Hlease.
  - by rewrite Hlease.
  - apply (ko_checked _ _ _ _ Hk).
  - rewrite Eq, Ep. unfold pending_posts in *. simpl. rewrite Hst in *. rewrite Hlease in *. simpl in *. lia.
  - intros r [Hin|[?|[]]]%in_app_iff; [|done]. by destruct (Hno r).
Qed.

(** The worker takes the lease of a queued upload. *)
Lemma key_ok_prepared k m parts tr now lease config :
  key_ok k (Some (MkUpload (Some m) parts)) (Some Picked) tr ->
  md_state m = Queued -> fingerprint_eqb (md_config m) config = true ->
  let m' := with_state Forwarding now (with_lease lease (with_failure None m)) in
  key_ok k (Some (MkUpload (Some m') parts)) (Some (Prepared (MkPrepared config lease m'))) tr.
Proof.
  intros Hk Hq Hf m'. destruct (ko_meta _ _ _ _ Hk _ _ eq_refl) as [Oi Ov Or Op Of Ou Oa Os].
  assert (Hm : key_ok k (Some (MkUpload (Some m') parts)) (Some Picked) tr).
  { eapply key_ok_restate; [exact Hk|done|..]; first [by rewrite Hq | by intros]. }
  destruct (ko_meta _ _ _ _ Hm _ _ eq_refl) as [Mi Mv Mr Mp Mf Mu Ma Ms].
  split; try apply Hm.
  - intros ? ? [= <- <-]. split; auto. intros p [= <-]. done.
  - intros p [= <-]. split; simpl.
    + by apply Oa.
    + unfold fingerprint_eqb in Hf. boolify. done.
    + unfold valid_metadata in Ov. rewrite !andb_true_iff in Ov. destruct Ov as [_ Ov].
      destruct (chunks_end _ _ _); [by eexists|done].
  - done.
  - pose proof (ko_count _ _ _ _ Hk). unfold pending_posts in *. simpl in *.
    rewrite decide_True in H by done. lia.
Qed.

Lemma key_ok_checked k uo p config tr :
  key_ok k uo (Some (Prepared p)) tr -> fingerprint_eqb config (pr_config p) = true ->
  key_ok k uo (Some (Checked p config)) tr.
Proof.
  intros Hk Hf. split; try apply Hk.
  - intros m parts E. destruct (ko_meta _ _ _ _ Hk _ _ E). split; auto.
  - intros p' c [= <- <-]. unfold fingerprint_eqb in Hf. by boolify.
Qed.

Lemma forwarded_lookup h config name :
  name ∉ FORWARDED_REQUEST_HEADERS \/ (name = "authorization" /\ rc_forward_auth config = false) ->
  forwardedRequestHeaders h config !! name = None.
Proof.
  intros Hn. unfold forwardedRequestHeaders. apply map_lookup_filter_None. right.
  intros v _ HP. simpl in HP. tauto.
Qed.

Lemma request_headers_spec m h config :
  request_headers m h config !! "content-length" = Some (show_Z (md_length m)) /\
  (rc_forward_auth config = false -> request_headers m h config !! "authorization" = None).
Proof.
  unfold request_headers. split.
  - apply lookup_union_Some_raw. right. split; [apply forwarded_lookup; left; by apply (bool_decide_unpack _)|].
    simpl. by rewrite lookup_insert_eq.
  - intros Hf. apply lookup_union_None. split; [apply forwarded_lookup; by right|].
    simpl. by rewrite !lookup_insert_ne by done.
Qed.

(** The upload leaves for its origin. *)
Lemma key_ok_sent k u p config tr data h :
  key_ok k (Some u) (Some (Checked p config)) tr ->
  read_parts (up_parts u) (sort_chunks (md_chunks (pr_meta p))) = Some data ->
  key_ok k (Some u) (Some (Sent p))
    (tr ++ [Posted k (MkRequest (rc_origin config) (request_headers (pr_meta p) h config) data)]).
Proof.
  intros Hk Hread. destruct (ko_lease _ _ _ _ Hk p eq_refl) as [La Lc (e & Le)].
  destruct u as [[m|] parts]; [|apply requests_in in La; rewrite (ko_blank _ _ _ _ Hk _ eq_refl) in La; lia].
  destruct (ko_meta _ _ _ _ Hk _ _ eq_refl) as [Oi Ov Or Op Of Ou Oa Os].
  destruct (Os p eq_refl) as (Hnc & Hcs & Hlen).
  assert (Hnu : md_state m <> Uploading) by (intros Hu%Ou; apply requests_in in La; lia).
  set (rq := MkRequest _ _ _).
  assert (Er : received k (tr ++ [Posted k rq]) = received k tr) by (by rewrite received_app, append_nil_r).
  assert (Eq : requests k (tr ++ [Posted k rq]) = requests k tr) by (rewrite requests_app, requests_one; simpl; lia).
  assert (Ep : posts k (tr ++ [Posted k rq]) = S (posts k tr)).
  { rewrite posts_app, posts_one. simpl. rewrite bool_decide_eq_true_2 by done. lia. }
  assert (Hfwd : forall e, In e tr -> In e (tr ++ [Posted k rq])) by (intros; apply in_app_iff; by left).
  assert (Hdata : data = received k tr).
  { rewrite (sort_tiling _ _ _ _ Le), <- Hcs in Hread. simpl in Hread. rewrite (Op Hnc) in Hread. congruence. }
  pose proof (ko_count _ _ _ _ Hk) as Hcnt. unfold pending_posts in Hcnt. simpl in Hcnt.
  split.
  - intros Hc. destruct Hc. apply Hfwd. by apply (key_created _ _ _ _ Hk).
  - done.
  - intros ? ? [= <- <-]. split; rewrite ?Er, ?Eq; auto. done.
  - done.
  - done.
  - rewrite Eq, Ep. unfold pending_posts. simpl. lia.
  - intros r [Hin|[[= <-]|[]]]%in_app_iff.
    + destruct (ko_posts _ _ _ _ Hk _ Hin) as [(c & ? & ?) ? ?]. split; rewrite ?Er; [exists c; split; auto|done..].
    + pose proof (ko_checked _ _ _ _ Hk _ _ eq_refl) as Hc. rewrite Lc in Hc.
      destruct (request_headers_spec (pr_meta p) h config) as [Hl Ha]. unfold originFingerprint in Hc.
      split; simpl.
      * exists (md_config (pr_meta p)). split; [by apply Hfwd|]. split; [congruence|]. intros. apply Ha. congruence.
      * by rewrite Er.
      * rewrite Hl, Hdata, Or, (Of Hnu), Hlen. done.
Qed.

(** ** Every step keeps it *)

Lemma writeMetadata_at k m m0 parts s :
  rl_uploads s !! k = Some (MkUpload m0 parts) ->
  rl_uploads (writeMetadata k m s) !! k = Some (MkUpload (Some m) parts).
Proof. intros E. rewrite uploads_write, E. by rewrite lookup_insert_eq. Qed.

Lemma removed_at k s : rl_uploads (removeUploadDirectory k s) !! k = None.
Proof. simpl. apply lookup_delete_eq. Qed.

(** The upload a loaded metadata belongs to. *)
Ltac loaded H :=
  let parts := fresh "parts" in let E := fresh "Eu" in
  destruct (load_ok _ _ _ H) as (parts & E).

Lemma inv_at k s tr uo : relay_inv (s, tr) -> rl_uploads s !! k = uo -> key_ok k uo (view k s) tr.
Proof. intros Hi <-. apply (Hi k). Qed.

Lemma queue_inv now k m config h parts s tr r s' evs :
  relay_inv (s, tr) -> rl_uploads s !! k = Some (MkUpload (Some m) parts) -> md_offset m = md_length m ->
  queueFinalization now k m config h s = (r, s', evs) -> relay_inv (s', tr ++ evs).
Proof.
  intros Hi Hu Hf. unfold queueFinalization. split_if; intros [= <- <- <-]; [by rewrite app_nil_r|].
  boolify. apply (inv_local k s); [|by repeat constructor|exact Hi|].
  - eapply local_trans; [apply local_write|apply local_enqueue].
  - rewrite uploads_enqueue, view_enqueue, view_write, (writeMetadata_at _ _ _ _ _ Hu). apply key_ok_requested; try done.
    by eapply inv_at.
Qed.

Lemma remove_inv k s tr : relay_inv (s, tr) -> relay_inv (removeUploadDirectory k s, tr).
Proof.
  intros Hi. eapply inv_quiet; [apply local_remove|exact Hi|]. rewrite removed_at.
  eapply key_ok_removed. apply (Hi k).
Qed.

Lemma restate_inv k m m' parts s tr :
  relay_inv (s, tr) -> rl_uploads s !! k = Some (MkUpload (Some m) parts) -> same_upload m m' ->
  md_state m <> Uploading -> md_state m <> Completed -> md_state m' <> Uploading -> md_state m' <> Completed ->
  (md_state m' = Queued -> md_state m = Queued /\ md_config m' = md_config m) ->
  relay_inv (writeMetadata k m' s, tr).
Proof.
  intros Hi Hu Hs H1 H2 H3 H4 H5. eapply inv_quiet; [apply local_write|exact Hi|].
  rewrite (writeMetadata_at _ _ _ _ _ Hu), view_write.
  eapply key_ok_restate; try done. by eapply inv_at.
Qed.

Lemma end_inv r s tr : relay_inv (s, tr) -> rl_active s = Some r -> relay_inv (endJob s, tr).
Proof.
  intros Hi Ha. eapply (inv_quiet (jb_key (rn_job r))); [by eapply local_end|exact Hi|].
  autorewrite with relay_rw. eapply key_ok_idle; [done|]. by eapply inv_at.
Qed.

(** The worker moves to a phase that owns no unsent lease. *)
Lemma advance_inv ph r s tr :
  relay_inv (s, tr) -> rl_active s = Some r -> unsent (Some ph) = None -> relay_inv (advance ph r s, tr).
Proof.
  intros Hi Ha Hp. eapply (inv_quiet (jb_key (rn_job r))); [by eapply local_advance|exact Hi|].
  rewrite view_advance. simpl. eapply key_ok_idle; [done|]. by eapply inv_at.
Qed.

(** Whatever does not concern uploads or the worker. *)
Lemma same_inv s s' tr :
  relay_inv (s, tr) -> rl_uploads s' = rl_uploads s -> (forall k, view k s' = view k s) -> relay_inv (s', tr).
Proof. intros Hi Hu Hv k. simpl. rewrite Hu, Hv. apply (Hi k). Qed.

Lemma restart_inv s tr : relay_inv (s, tr) -> relay_inv (restart s, tr).
Proof. intros Hi k. simpl. eapply key_ok_idle; [done|apply (Hi k)]. Qed.

Section Preservation.
Context `{RelayEnv}.

Lemma blank_ok k tr parts w : ~ created k tr -> key_ok k None w tr -> 
  key_ok k (Some (MkUpload None parts)) w (tr ++ [Created k]).
Proof.
  intros Hc Hk. destruct (ko_fresh _ _ _ _ Hk Hc) as [_ Hf].
  destruct (foreign_events _ _ Hf) as (_ & Hq & Hp).
  assert (unsent w = None) as Hw.
  { destruct (unsent w) as [p|] eqn:E; [|done]. destruct (ko_lease _ _ _ _ Hk _ E) as [La _ _].
    apply requests_in in La. lia. }
  split.
  - intros Hn. destruct Hn. apply in_app_iff. right. by left.
  - intros _ _. rewrite requests_app, requests_one. simpl. lia.
  - done.
  - by rewrite Hw.
  - apply (ko_checked _ _ _ _ Hk).
  - rewrite posts_app, requests_app, posts_one, requests_one. unfold pending_posts. simpl. rewrite Hw. lia.
  - intros r [Hin|[?|[]]]%in_app_iff; [|done]. rewrite List.Forall_forall in Hf. by destruct (Hf _ Hin).
Qed.

Lemma new_ok k tr parts w m : ~ created k tr -> key_ok k None w tr -> isUploadId (snd k) = true ->
  valid_metadata k m = true -> md_state m = Uploading -> md_chunks m = [] -> md_offset m = 0 ->
  key_ok k (Some (MkUpload (Some m) parts)) w (tr ++ [Created k]).
Proof.
  intros Hc Hk Hid Hv Hst Hcs Ho. pose proof (blank_ok _ _ parts _ Hc Hk) as Hb.
  destruct (ko_fresh _ _ _ _ Hk Hc) as [_ Hf].
  destruct (foreign_events _ _ Hf) as (Hr & _ & _).
  assert (received k (tr ++ [Created k]) = "") as Er by (by rewrite received_app, Hr).
  pose proof (ko_blank _ _ _ _ Hb _ eq_refl) as Hq.
  split; try apply Hb; try done.
  - intros Hn. destruct Hn. apply in_app_iff. right. by left.
  - intros ? ? [= <- <-]. split; rewrite ?Er, ?Hst, ?Hcs, ?Ho; auto; try done.
    intros p Hp. destruct (ko_lease _ _ _ _ Hb _ Hp) as [La _ _]. apply requests_in in La. lia.
  - pose proof (ko_count _ _ _ _ Hb). unfold pending_posts in *. rewrite Hst. simpl in *. lia.
Qed.

Lemma create_inv now hostId id filename len mediaType s tr r s' evs :
  relay_inv (s, tr) -> isUploadId id = true -> ~ created (hostId, id) tr ->
  create now hostId id filename len mediaType s = (r, s', evs) -> relay_inv (s', tr ++ evs).
Proof.
  intros Hi Hid Hc. unfold create, try_do, refuse.
  assert (Hno : forall s1 : relay, (s1, @nil event) = (s1, []) -> relay_inv (s, tr ++ [])) by (intros; by rewrite app_nil_r).
  split_if; [intros [= _ <- <-]; by apply (Hno s)|].
  destruct (getConfig _ _) as [config|]; [|intros [= _ <- <-]; by apply (Hno s)].
  destruct (asPositiveInteger _ _ _ _) as [n|] eqn:En; [|intros [= _ <- <-]; by apply (Hno s)].
  destruct (pendingUploadStats _ _) as [cnt res].
  split_if; [intros [= _ <- <-]; by apply (Hno s)|].
  split_if; [intros [= _ <- <-]; by apply (Hno s)|]. intros [= _ <- <-].
  pose proof (ko_fresh _ _ _ _ (Hi (hostId, id)) Hc) as [Hu _]. simpl in Hu.
  apply (inv_local (hostId, id) s); [apply local_write|by repeat constructor|exact Hi|].
  rewrite uploads_write, lookup_insert_eq, view_write.
  apply new_ok; try done; [rewrite <- Hu; apply (Hi (hostId, id))|].
  unfold asPositiveInteger in En. destruct len as [n'|]; [|done]. ok_inv En. injection En as ->. boolify.
  unfold valid_metadata. cbn -[Z.leb]. rewrite Z.eqb_refl, String.eqb_refl. simpl.
  rewrite !andb_true_iff, !Z.leb_le. lia.
Qed.

Lemma append_inv now k contentLength h offset data s tr r s' evs :
  relay_inv (s, tr) -> append now k contentLength h offset data s = (r, s', evs) -> relay_inv (s', tr ++ evs).
Proof.
  intros Hi. unfold append, try_do, refuse.
  assert (Hno : relay_inv (s, tr ++ [])) by by rewrite app_nil_r.
  destruct (getConfig _ _) as [config|]; [|by intros [= _ <- <-]].
  destruct (loadMetadata k s) as [m|] eqn:El; [|by intros [= _ <- <-]]. loaded El.
  split_if; [by intros [= _ <- <-]|]. split_if; [by intros [= _ <- <-]|].
  split_if; [by intros [= _ <- <-]|].
  destruct (is_final_retry m offset contentLength) eqn:Er.
  { split_if; [by intros [= _ <- <-]|]. apply (queue_inv _ _ _ _ _ _ _ _ _ _ _ Hi Eu).
    unfold is_final_retry in Er. boolify. done. }
  split_if.
  { destruct (md_offset m =? md_length m) eqn:Eo; simpl; [|by intros [= _ <- <-]].
    apply (queue_inv _ _ _ _ _ _ _ _ _ _ _ Hi Eu). by boolify. }
  split_if; [by intros [= _ <- <-]|]. destruct (strlen data =? contentLength) eqn:Ed; simpl; [|by intros [= _ <- <-]].
  set (s1 := writeMetadata k (add_chunk contentLength m) (put_part k (md_offset m) data s)).
  assert (Hu1 : rl_uploads s1 !! k = Some (MkUpload (Some (add_chunk contentLength m)) (<[md_offset m := data]> parts))).
  { apply (writeMetadata_at _ _ (Some m)). unfold put_part. rewrite Eu. simpl. by rewrite lookup_insert_eq. }
  assert (Hi1 : relay_inv (s1, tr ++ [Received k data])).
  { apply (inv_local k s); [|by repeat constructor|exact Hi|].
    - eapply local_trans; [apply local_put|apply local_write].
    - rewrite Hu1. boolify. subst contentLength.
      assert (view k s1 = view k s) as -> by (unfold s1, put_part; rewrite Eu; done).
      apply (key_ok_received _ _ parts); [by eapply inv_at|lia|lia]. }
  destruct (md_offset m + contentLength =? md_length m) eqn:Ef; simpl; [|by intros [= _ <- <-]].
  destruct (queueFinalization _ _ _ _ _ _) as [[r1 s2] evs1] eqn:Eq. intros [= _ <- <-].
  rewrite (app_assoc tr [_] evs1 : tr ++ Received k data :: evs1 = _).
  eapply queue_inv; [exact Hi1|exact Hu1| |exact Eq]. simpl. by boolify.
Qed.

Lemma finalize_inv now k h s tr r s' evs :
  relay_inv (s, tr) -> finalize now k h s = (r, s', evs) -> relay_inv (s', tr ++ evs).
Proof.
  intros Hi. unfold finalize, try_do, refuse.
  assert (Hno : relay_inv (s, tr ++ [])) by by rewrite app_nil_r.
  destruct (getConfig _ _) as [config|]; [|by intros [= _ <- <-]].
  destruct (loadMetadata k s) as [m|] eqn:El; [|by intros [= _ <- <-]]. loaded El.
  destruct (md_offset m =? md_length m) eqn:Ef; simpl; [|by intros [= _ <- <-]].
  apply (queue_inv _ _ _ _ _ _ _ _ _ _ _ Hi Eu). by boolify.
Qed.

Lemma uploads_abort k s : rl_uploads (abort k s) = rl_uploads s.
Proof. unfold abort. destruct (rl_active s); [|done]. by split_if. Qed.
Lemma view_abort k k' s : view k' (abort k s) = view k' s.
Proof.
  unfold abort. destruct (rl_active s) as [r|] eqn:E; [|done]. split_if; [|done].
  unfold view. simpl. by rewrite E.
Qed.

Lemma client_remove_inv now k s tr r s' evs :
  relay_inv (s, tr) -> remove now k s = (r, s', evs) -> relay_inv (s', tr ++ evs).
Proof.
  intros Hi. unfold remove, try_do, refuse.
  destruct (getConfig _ _) as [config|]; [|by intros [= _ <- <-]; rewrite app_nil_r].
  destruct (loadMetadata k s) as [m|] eqn:El; [|by intros [= _ <- <-]; rewrite app_nil_r]. loaded El.
  split_if; intros [= _ <- <-]; rewrite app_nil_r; [|by apply remove_inv].
  boolify. eapply same_inv; [|apply uploads_abort|intros; apply view_abort].
  eapply restate_inv; [exact Hi|exact Eu|done|..]; congruence || done.
Qed.

Lemma cleanup_inv now k s tr : relay_inv (s, tr) -> relay_inv (cleanup_one now k s, tr).
Proof.
  intros Hi. unfold cleanup_one. split_if; [done|].
  destruct (loadMetadata k s) as [m|]; [|by apply remove_inv]. split_if; [done|]. split_if; [done|].
  by apply remove_inv.
Qed.

Lemma recover_inv now k s tr : relay_inv (s, tr) -> relay_inv (recover_one now k s, tr).
Proof.
  intros Hi. unfold recover_one. eapply same_inv; [|done|by intros].
  destruct (loadMetadata k s) as [m|] eqn:El; [|done]. loaded El.
  destruct (md_state m) eqn:Em; try done; [| |by apply remove_inv].
  - split_if; [eapply restate_inv; [exact Hi|exact Eu|done|..]; congruence || done|].
    eapply same_inv; [|apply uploads_enqueue|intros; apply view_enqueue].
    eapply restate_inv; [exact Hi|exact Eu|done|..]; congruence || done.
  - eapply restate_inv; [exact Hi|exact Eu|done|..]; congruence || done.
Qed.

Lemma run_inv s tr : relay_inv (s, tr) -> relay_inv (runScheduled s, tr).
Proof.
  intros Hi. unfold runScheduled. destruct (rl_active s) as [r|] eqn:Ea;
    [eapply same_inv; [exact Hi|done|intros k; unfold view; simpl; by rewrite Ea]|].
  destruct (rl_queue s) as [|j q];
    [eapply same_inv; [exact Hi|done|intros k; unfold view; simpl; by rewrite Ea]|].
  intros k. simpl. eapply key_ok_idle; [|apply (Hi k)]. unfold view. simpl. by case_decide.
Qed.

Lemma prepare_inv now lease j a s tr :
  relay_inv (s, tr) -> rl_active s = Some (MkRunning j Picked a) ->
  relay_inv (prepare now lease (MkRunning j Picked a) s, tr).
Proof.
  intros Hi Ha. unfold prepare. simpl.
  destruct (loadMetadata _ s) as [m|] eqn:El; [|by eapply end_inv]. loaded El.
  destruct (decide (md_state m = Queued)) as [Em|Em];
    [rewrite bool_decide_eq_true_2 by done|rewrite bool_decide_eq_false_2 by done; by eapply end_inv]. simpl.
  assert (Hfail : forall code, relay_inv (endJob (writeMetadata (jb_key j) (fail_with now code m) s), tr)).
  { intros code. eapply end_inv; [|exact Ha]. eapply restate_inv; [exact Hi|exact Eu|done|..]; congruence || done. }
  destruct (getConfig _ _) as [config|]; [|apply Hfail]. destruct (fingerprint_eqb _ _) eqn:Ef; simpl; [|apply Hfail].
  apply (inv_quiet (jb_key j) s); [|exact Hi|].
  - eapply local_trans; [apply local_write|]. eapply local_advance; [exact Ha|done|done].
  - rewrite view_at, uploads_advance.
    rewrite (writeMetadata_at _ _ _ _ _ Eu).
    apply key_ok_prepared; [|done|done].
    assert (Some Picked = view (jb_key j) s) as -> by (symmetry; by apply (view_active _ _ _ Ha)).
    by eapply inv_at.
Qed.

Lemma check_inv p j a s tr :
  relay_inv (s, tr) -> rl_active s = Some (MkRunning j (Prepared p) a) ->
  relay_inv (check_dispatch p (MkRunning j (Prepared p) a) s, tr).
Proof.
  intros Hi Ha. unfold check_dispatch. simpl.
  destruct (getConfig _ _) as [config|]; [|by eapply advance_inv].
  destruct (fingerprint_eqb _ _) eqn:Ef; simpl; [|by eapply advance_inv].
  apply (inv_quiet (jb_key j) s); [by eapply local_advance|exact Hi|].
  rewrite view_at, uploads_advance.
  apply key_ok_checked; [|done].
  assert (Some (Prepared p) = view (jb_key j) s) as -> by (symmetry; by apply (view_active _ _ _ Ha)).
  by eapply inv_at.
Qed.

Lemma send_inv p config j a s tr s' evs :
  relay_inv (s, tr) -> rl_active s = Some (MkRunning j (Checked p config) a) ->
  send p config (MkRunning j (Checked p config) a) s = (s', evs) -> relay_inv (s', tr ++ evs).
Proof.
  intros Hi Ha. unfold send. simpl.
  assert (Hno : relay_inv (advance (Answered p None) (MkRunning j (Checked p config) a) s, tr ++ []))
    by (rewrite app_nil_r; by eapply advance_inv).
  destruct (rl_uploads s !! jb_key j) as [u|] eqn:Eu; [|by intros [= <- <-]].
  destruct (read_parts _ _) as [data|] eqn:Er; [|by intros [= <- <-]]. destruct a; [by intros [= <- <-]|].
  intros [= <- <-]. apply (inv_local (jb_key j) s); [by eapply local_advance|by repeat constructor|exact Hi|].
  rewrite view_at, uploads_advance. rewrite Eu.
  apply key_ok_sent; [|done].
  assert (Some (Checked p config) = view (jb_key j) s) as -> by (symmetry; by apply (view_active _ _ _ Ha)).
  by eapply inv_at.
Qed.

Lemma settle_refused_inv now p code r s tr :
  relay_inv (s, tr) -> rl_active s = Some r -> relay_inv (settle_refused now p code r s, tr).
Proof.
  intros Hi Ha. unfold settle_refused.
  destruct (loadMetadata _ s) as [m|] eqn:El; [|by eapply end_inv]. loaded El.
  split_if; [eapply end_inv; [by apply remove_inv|exact Ha]|].
  split_if; [by eapply end_inv|]. boolify.
  eapply end_inv; [|exact Ha]. eapply restate_inv; [exact Hi|exact Eu|done|..]; congruence || done.
Qed.

Lemma uploads_remove_chunks k offs m parts s :
  rl_uploads s !! k = Some (MkUpload m parts) ->
  rl_uploads (removeChunks k offs s) !! k = Some (MkUpload m (foldr delete parts offs)).
Proof. intros E. unfold removeChunks. rewrite E. simpl. by rewrite lookup_insert_eq. Qed.

Lemma view_remove_chunks k k' offs s : view k' (removeChunks k offs s) = view k' s.
Proof. unfold removeChunks. by destruct (rl_uploads s !! k). Qed.

Lemma settle_inv now p status gone j a s tr :
  relay_inv (s, tr) -> rl_active s = Some (MkRunning j (Answered p status) a) ->
  relay_inv (settle now p status gone (MkRunning j (Answered p status) a) s, tr).
Proof.
  intros Hi Ha. unfold settle. simpl rn_job. set (k := jb_key j).
  destruct (loadMetadata _ s) as [m|] eqn:El; [|by eapply end_inv]. loaded El.
  split_if; [eapply end_inv; [by apply remove_inv|exact Ha]|].
  split_if; [by eapply end_inv|]. boolify.
  destruct status as [st|];
    [|eapply end_inv; [|exact Ha]; eapply restate_inv; [exact Hi|exact Eu|done|..]; congruence || done].
  set (m' := with_state Completed now (with_result now st (with_failure None m))).
  assert (Hw : key_ok k (rl_uploads (writeMetadata k m' s) !! k) None tr).
  { rewrite (writeMetadata_at _ _ _ _ _ Eu). eapply key_ok_restate with (m := m); try done; try congruence.
    eapply key_ok_idle; [done|]. by eapply inv_at. }
  rewrite (writeMetadata_at _ _ _ _ _ Eu) in Hw.
  pose proof (writeMetadata_at _ m' _ _ _ Eu) as Hm.
  assert (Hend : forall f cs offs, cs = [] \/ cs = md_chunks m' ->
    relay_inv (endJob (writeMetadata k (with_chunks cs (md_offset m') (with_failure f m'))
                        (removeChunks k offs (writeMetadata k m' s))), tr)).
  { intros f cs offs Hcs. apply (inv_quiet k s); [|exact Hi|].
    - eapply local_trans; [apply (local_write k m')|]. eapply local_trans; [apply (local_chunks k offs)|].
      eapply local_trans; [apply local_write|].
      apply (local_end k (MkRunning j (Answered p (Some st)) a)); [|done].
      unfold removeChunks. rewrite Hm. exact Ha.
    - rewrite uploads_end, view_end.
      rewrite (writeMetadata_at _ _ _ _ _ (uploads_remove_chunks _ offs _ _ _ Hm)).
      eapply key_ok_completed; [exact Hw|done|exact Hcs]. }
  destruct gone as [offs|].
  - apply (Hend (Some "chunk-cleanup-pending") (md_chunks m') offs). by right.
  - apply (Hend None [] (map ch_offset (md_chunks m'))). by left.
Qed.

Lemma append_stopped_inv k m data s tr :
  relay_inv (s, tr) -> loadMetadata k s = Ok m -> md_offset m < md_length m ->
  relay_inv (put_part k (md_offset m) data s, tr).
Proof.
  intros Hi El Hlt. loaded El. pose proof (inv_at _ _ _ _ Hi Eu) as Hk.
  apply (inv_quiet k s); [apply local_put|exact Hi|]. unfold put_part. rewrite Eu. simpl. rewrite lookup_insert_eq.
  change (view k (set_uploads _ s)) with (view k s).
  destruct (ko_meta _ _ _ _ Hk _ _ eq_refl) as [Oi Ov Or Op Of Ou Oa Os].
  assert (md_state m = Uploading) as Hst by (destruct (decide (md_state m = Uploading)) as [|Hn]; [done|apply Of in Hn; lia]).
  split; try apply Hk.
  - intros Hc. by destruct (ko_fresh _ _ _ _ Hk Hc).
  - done.
  - intros ? ? [= <- <-]. split; auto. intros Hn.
    assert (chunks_end (md_length m) 0 (md_chunks m) = Some (md_offset m)) as Hcs.
    { clear -Ov Hst. unfold valid_metadata in Ov. rewrite !andb_true_iff in Ov. destruct Ov as [_ Ov].
      destruct (chunks_end _ _ _) as [e|]; [|done]. apply orb_true_iff in Ov as [?|?]; boolify; congruence. }
    by destruct (read_parts_snoc _ _ _ data _ _ _ Hcs (Op Hn)).
Qed.

Lemma relay_inv_boot w : boot w -> relay_inv w.
Proof. intros (t & ->) k. simpl. unfold view. simpl. rewrite lookup_empty. by split. Qed.

Lemma relay_inv_step w w' : relay_inv w -> relay_step w w' -> relay_inv w'.
Proof.
  intros Hi Hs. destruct Hs.
  - by eapply same_inv.
  - by eapply create_inv.
  - apply restart_inv. apply (inv_local (hostId, id) s); [|by repeat constructor|exact Hi|].
    + split; [|done]. intros k' Hne. simpl. by rewrite lookup_insert_ne.
    + simpl. rewrite lookup_insert_eq. apply blank_ok; [done|].
        pose proof (ko_fresh _ _ _ _ (Hi (hostId, id)) H1) as [Hu _]. simpl in Hu. rewrite <- Hu. apply (Hi (hostId, id)).
  - by eapply append_inv.
  - apply restart_inv. by apply append_stopped_inv.
  - by eapply finalize_inv.
  - by eapply client_remove_inv.
  - by apply cleanup_inv.
  - by apply recover_inv.
  - by apply run_inv.
  - by apply prepare_inv.
  - by apply check_inv.
  - by eapply settle_refused_inv.
  - by eapply send_inv.
  - by eapply advance_inv.
  - by apply settle_inv.
  - eapply same_inv; [exact Hi|done|]. intros k. unfold view. simpl. by rewrite H0.
  - by apply restart_inv.
Qed.
Lemma relay_invariant w : relay_reachable w -> relay_inv w.
Proof. apply invariant_reachable; [apply relay_inv_boot|apply relay_inv_step]. Qed.
End Preservation.
