(* ===== verification/UploadRelayWork.v ===== *)
(** Bounds and liveness of the upload relay (UploadRelay.v): what is pending
    never outgrows the configured limits, no queued upload is forgotten, and
    the properties of the relay as a whole. *)

From stdpp Require Import gmap strings.
From S2P Require Import Prelude JsString Errors UploadRelay UploadRelayInv.
#[local] Open Scope string_scope.
#[local] Open Scope list_scope.
#[local] Open Scope Z_scope.

(** ** What is pending *)

(** Nothing becomes pending, and no pending upload grows. *)
Definition gentle (s s' : relay) : Prop :=
  forall k m', loadMetadata k s' = Ok m' -> md_state m' <> Completed ->
  exists m, loadMetadata k s = Ok m /\ md_state m <> Completed /\ md_length m' = md_length m.

Lemma gentle_same s s' : rl_uploads s' = rl_uploads s -> gentle s s'.
Proof. intros E k m' Hm Hs. exists m'. unfold loadMetadata in *. by rewrite <- E. Qed.

Lemma gentle_trans s1 s2 s3 : gentle s1 s2 -> gentle s2 s3 -> gentle s1 s3.
Proof.
  intros H1 H2 k m3 Hm Hs. destruct (H2 _ _ Hm Hs) as (m2 & Hm2 & Hs2 & ->). by apply H1.
Qed.

Lemma gentle_at s s' k :
  (forall k', k' <> k -> rl_uploads s' !! k' = rl_uploads s !! k') ->
  (forall m', loadMetadata k s' = Ok m' -> md_state m' <> Completed ->
    exists m, loadMetadata k s = Ok m /\ md_state m <> Completed /\ md_length m' = md_length m) ->
  gentle s s'.
Proof.
  intros Ho Hk k' m' Hm Hs. destruct (decide (k' = k)) as [->|Hne]; [by apply Hk|].
  exists m'. unfold loadMetadata in *. by rewrite <- Ho.
Qed.

Lemma gentle_remove k s : gentle s (removeUploadDirectory k s).
Proof.
  apply (gentle_at _ _ k); [apply local_remove|]. intros m' Hm. exfalso.
  destruct (load_ok _ _ _ Hm) as (parts & E). by rewrite removed_at in E.
Qed.

Lemma gentle_write k m m' s :
  loadMetadata k s = Ok m -> md_state m <> Completed \/ md_state m' = Completed -> md_length m' = md_length m ->
  gentle s (writeMetadata k m' s).
Proof.
  intros Hl Hc Hlen. apply (gentle_at _ _ k); [apply local_write|]. intros m1 Hm Hs. exists m.
  destruct (load_ok _ _ _ Hm) as (parts & E). rewrite uploads_write, lookup_insert_eq in E.
  injection E as <- <-. split; [done|]. split; [|done]. by destruct Hc.
Qed.

Lemma gentle_put k o d s : gentle s (put_part k o d s).
Proof.
  apply (gentle_at _ _ k); [apply local_put|]. intros m' Hm Hs. exists m'. split; [|done].
  revert Hm. unfold loadMetadata, put_part. destruct (rl_uploads s !! k) as [[mm parts]|] eqn:E; [|by rewrite E].
  simpl. by rewrite lookup_insert_eq.
Qed.

Lemma gentle_chunks k o s : gentle s (removeChunks k o s).
Proof.
  apply (gentle_at _ _ k); [apply local_chunks|]. intros m' Hm Hs. exists m'. split; [|done].
  revert Hm. unfold loadMetadata, removeChunks. destruct (rl_uploads s !! k) as [[mm parts]|] eqn:E; [|by rewrite E].
  simpl. by rewrite lookup_insert_eq.
Qed.

Lemma gentle_then s s1 s2 : gentle s s1 -> rl_uploads s2 = rl_uploads s1 -> gentle s s2.
Proof. intros H1 E. eapply gentle_trans; [exact H1|by apply gentle_same]. Qed.

Lemma pending_map_lookup h s k : pending_map h s !! k = pending_of h k s.
Proof.
  unfold pending_map. rewrite map_lookup_imap. destruct (rl_uploads s !! k) as [u|] eqn:E; [done|]. simpl.
  unfold pending_of. split_if; [done|]. destruct (loadMetadata k s) eqn:El; [|done]. loaded El. congruence.
Qed.

Lemma pending_of_spec h k s m : pending_of h k s = Some m <->
  fst k = h /\ loadMetadata k s = Ok m /\ md_state m <> Completed.
Proof.
  unfold pending_of. destruct (fst k =? h) eqn:E; boolify; simpl; [|by split; [|intros (? & _)]].
  destruct (loadMetadata k s) as [m'|]; [|by split; [|intros (_ & ? & _)]].
  case_bool_decide; split; [done|intros (_ & [= ->] & ?); done|intros [= ->]; done|by intros (_ & [= ->] & _)].
Qed.

Definition total (m : gmap key Z) : Z := map_fold (fun _ n acc => n + acc) 0 m.

Lemma total_insert k n m : m !! k = None -> total (<[k := n]> m) = n + total m.
Proof. intros E. unfold total. apply map_fold_insert_L; [lia|done]. Qed.

Lemma total_mono (m1 m2 : gmap key Z) :
  m1 ⊆ m2 -> map_Forall (fun _ n => 0 <= n) m2 -> total m1 <= total m2.
Proof.
  revert m1. induction m2 as [|k n m2 E IH] using map_ind; intros m1 Hsub Hpos.
  - by assert (m1 = ∅) as -> by (apply (anti_symm (⊆)); [done|apply map_empty_subseteq]).
  - apply map_Forall_insert in Hpos as [Hn Hpos]; [|done]. rewrite total_insert by done.
    assert (Hdel : delete k m1 ⊆ m2).
    { apply map_subseteq_spec. intros k' n' [Hne Hl]%lookup_delete_Some.
      rewrite map_subseteq_spec in Hsub. specialize (Hsub _ _ Hl). by rewrite lookup_insert_ne in Hsub. }
    specialize (IH _ Hdel Hpos). destruct (m1 !! k) as [n'|] eqn:Ek.
    + rewrite map_subseteq_spec in Hsub. pose proof (Hsub _ _ Ek) as Heq. rewrite lookup_insert_eq in Heq.
      injection Heq as <-. rewrite <- (insert_delete_id m1 k n Ek), total_insert by apply lookup_delete_eq. lia.
    + rewrite delete_id in IH by done. lia.
Qed.

Lemma pending_total h s : snd (pendingUploadStats h s) = total (md_length <$> pending_map h s).
Proof. unfold total. simpl. by rewrite map_fold_fmap. Qed.

Lemma pending_nonneg h s : map_Forall (fun _ n => 0 <= n) (md_length <$> pending_map h s).
Proof.
  intros k n (m & <- & Hm)%lookup_fmap_Some.
  rewrite pending_map_lookup, pending_of_spec in Hm. destruct Hm as (_ & Hl & _).
  unfold loadMetadata in Hl. ok_inv Hl. destruct (rl_uploads s !! k) as [[[m0|] parts]|]; try done.
  ok_inv Hl. injection Hl as ->. unfold valid_metadata in G0. rewrite negb_false_iff, !andb_true_iff in G0.
  destruct G0 as ((((([_ _] & G1) & _) & _) & _) & _). boolify. lia.
Qed.

Lemma gentle_pending h s s' : gentle s s' ->
  (fst (pendingUploadStats h s') <= fst (pendingUploadStats h s))%nat /\
  snd (pendingUploadStats h s') <= snd (pendingUploadStats h s).
Proof.
  intros Hg.
  assert (Hsub : md_length <$> pending_map h s' ⊆ md_length <$> pending_map h s).
  { apply map_subseteq_spec. intros k n (m' & <- & Hm')%lookup_fmap_Some.
    rewrite pending_map_lookup, pending_of_spec in Hm'. destruct Hm' as (Hh & Hl & Hs).
    destruct (Hg _ _ Hl Hs) as (m & Hl' & Hs' & Hlen). apply lookup_fmap_Some. exists m. split; [done|].
    by rewrite pending_map_lookup, pending_of_spec. }
  rewrite !pending_total. split.
  - simpl. rewrite <- (map_size_fmap md_length (pending_map h s')), <- (map_size_fmap md_length (pending_map h s)).
    by apply map_subseteq_size.
  - apply total_mono; [done|apply pending_nonneg].
Qed.

Section Gentle.
Context `{RelayEnv}.

Lemma queue_gentle now k m config h s r s' evs :
  loadMetadata k s = Ok m -> queueFinalization now k m config h s = (r, s', evs) -> gentle s s'.
Proof.
  intros Hl. unfold queueFinalization. split_if; intros [= <- <- <-]; [by apply gentle_same|]. boolify.
  eapply gentle_then; [|apply uploads_enqueue]. eapply gentle_write; [exact Hl|by left|done].
Qed.

Lemma append_gentle now k contentLength h offset data s r s' evs :
  append now k contentLength h offset data s = (r, s', evs) -> gentle s s'.
Proof.
  unfold append, try_do, refuse. assert (Hno : gentle s s) by by apply gentle_same.
  destruct (getConfig _ _) as [config|]; [|by intros [= _ <- _]].
  destruct (loadMetadata k s) as [m|] eqn:El; [|by intros [= _ <- _]]. loaded El.
  split_if; [by intros [= _ <- _]|]. split_if; [by intros [= _ <- _]|]. split_if; [by intros [= _ <- _]|].
  split_if. { split_if; [by intros [= _ <- _]|]. intros Hq; by eapply queue_gentle. }
  split_if. { split_if; [by intros [= _ <- _]|]. intros Hq; by eapply queue_gentle. }
  split_if; [by intros [= _ <- _]|]. split_if; [by intros [= _ <- _]|].
  set (s1 := writeMetadata _ _ _).
  assert (Hmid : gentle s s1).
  { eapply gentle_trans; [apply (gentle_put k (md_offset m) data)|].
    assert (loadMetadata k (put_part k (md_offset m) data s) = Ok m) as Hl.
    { unfold loadMetadata, put_part in *. rewrite Eu in *. simpl in *. by rewrite lookup_insert_eq. }
    destruct (decide (md_state m = Completed)) as [Hc|Hc]; eapply gentle_write; try exact Hl; auto. }
  split_if; [by intros [= _ <- _]|].
  destruct (queueFinalization _ _ _ _ _ _) as [[r1 s2] evs1] eqn:Eq. intros [= _ <- _].
  unfold queueFinalization in Eq. split_if; injection Eq as _ <- _; [done|].
  boolify. eapply gentle_then; [|apply uploads_enqueue].
  apply (gentle_at _ _ k).
  - intros k' Hne. transitivity (rl_uploads s1 !! k'); [by apply local_write|].
    transitivity (rl_uploads (put_part k (md_offset m) data s) !! k'); [by apply local_write|by apply local_put].
  - intros m' Hm _. destruct (load_ok _ _ _ Hm) as (parts' & E).
    rewrite uploads_write, lookup_insert_eq in E. injection E as <- <-. by exists m.
Qed.

(** The relay's own steps and every request but [create]. *)
Lemma worker_gentle now k s : gentle s (cleanup_one now k s) /\ gentle s (recover_one now k s).
Proof.
  split.
  - unfold cleanup_one. split_if; [by apply gentle_same|].
    destruct (loadMetadata k s) as [m|]; [|apply gentle_remove]. split_if; [by apply gentle_same|].
    split_if; [by apply gentle_same|apply gentle_remove].
  - unfold recover_one. eapply gentle_then; [|done].
    destruct (loadMetadata k s) as [m|] eqn:El; [|by apply gentle_same].
    destruct (md_state m) eqn:Em; try (by apply gentle_same); [|eapply gentle_write; [exact El|left; congruence|done]|apply gentle_remove].
    split_if; [|eapply gentle_then; [|apply uploads_enqueue]]; (eapply gentle_write; [exact El|left; congruence|done]).
Qed.

Lemma prepare_gentle now lease r s : gentle s (prepare now lease r s).
Proof.
  unfold prepare. destruct (loadMetadata _ s) as [m|] eqn:El; [|by apply gentle_same; autorewrite with relay_rw].
  destruct (decide (md_state m = Queued)) as [Em|Em];
    [rewrite bool_decide_eq_true_2 by done|rewrite bool_decide_eq_false_2 by done;
     cbn [negb]; by apply gentle_same; autorewrite with relay_rw]. simpl.
  assert (Hw : forall m', md_length m' = md_length m -> gentle s (writeMetadata (jb_key (rn_job r)) m' s))
    by (intros; eapply gentle_write; [exact El|left; congruence|done]).
  destruct (getConfig _ _) as [config|]; [split_if|]; 
    (eapply gentle_then; cycle 1; [first [apply uploads_end | apply uploads_advance]|by apply Hw]).
Qed.

Lemma settle_gentle now p code status gone r s :
  gentle s (settle_refused now p code r s) /\ gentle s (settle now p status gone r s).
Proof.
  split.
  - unfold settle_refused. eapply gentle_then; [|apply uploads_end].
    destruct (loadMetadata _ s) as [m|] eqn:El; [|by apply gentle_same]. split_if; [apply gentle_remove|].
    split_if; [by apply gentle_same|]. boolify. eapply gentle_write; [exact El|left; congruence|done].
  - unfold settle. eapply gentle_then; [|apply uploads_end].
    destruct (loadMetadata _ s) as [m|] eqn:El; [|by apply gentle_same]. split_if; [apply gentle_remove|].
    split_if; [by apply gentle_same|]. boolify.
    destruct status as [st|]; [|eapply gentle_write; [exact El|left; congruence|done]].
    set (m' := with_state Completed now _). set (k := jb_key (rn_job r)) in *. loaded El.
    assert (Hlast : forall f cs offs, gentle s
      (writeMetadata k (with_chunks cs (md_offset m') (with_failure f m')) (removeChunks k offs (writeMetadata k m' s)))).
    { intros f cs offs. apply (gentle_at _ _ k).
      - intros k' Hne. etransitivity; [by apply local_write|]. etransitivity; [by apply local_chunks|by apply local_write].
      - intros m1 Hm Hn. destruct (load_ok _ _ _ Hm) as (parts' & E).
        rewrite uploads_write, lookup_insert_eq in E. injection E as <- <-. by destruct Hn. }
    destruct gone as [offs|]; [apply (Hlast (Some "chunk-cleanup-pending") (md_chunks m'))|apply (Hlast None [])].
Qed.
End Gentle.

(** ** The process by itself *)

(** What the lease holder of a phase wrote into the metadata. *)
Definition held (ph : phase) : option prepared :=
  match ph with
  | Picked => None
  | Prepared p | Refused p _ | Checked p _ | Sent p | Answered p _ => Some p
  end.

(** Somebody will look at this upload again. *)
Definition attended (k : key) (s : relay) (m : metadata) : Prop :=
  (md_state m = Queued ->
     k ∈ rl_unscanned s \/ In k (map jb_key (rl_queue s)) \/ view k s = Some Picked) /\
  (md_state m = Forwarding ->
     k ∈ rl_unscanned s \/
     exists ph p, view k s = Some ph /\ held ph = Some p /\ md_lease m = Some (pr_lease p)).

(** No wake-up is lost. *)
Record sched_ok (s : relay) : Prop := {
  so_idle : rl_scheduled s = true -> rl_active s = None /\ rl_queue s <> [];
  so_awake : rl_active s = None -> rl_queue s <> [] -> rl_scheduled s = true
}.

Record work_inv (s : relay) : Prop := {
  wi_sched : sched_ok s;
  wi_attended : forall k m parts, rl_uploads s !! k = Some (MkUpload (Some m) parts) -> attended k s m
}.

Lemma sched_schedule s : (rl_scheduled s = true -> rl_active s = None /\ rl_queue s <> []) ->
  sched_ok (scheduleFinalizers s).
Proof.
  intros Hi. unfold scheduleFinalizers. destruct (rl_scheduled s) eqn:Es; simpl.
  - split; rewrite ?Es; auto.
  - destruct (rl_active s) as [r|] eqn:Ea; simpl; [split; rewrite ?Es, ?Ea; done|].
    destruct (rl_queue s) as [|j q] eqn:Eq; simpl; split; simpl; rewrite ?Es, ?Ea, ?Eq; done.
Qed.

Lemma sched_same s s' : rl_scheduled s' = rl_scheduled s -> rl_queue s' = rl_queue s ->
  (rl_active s' = None <-> rl_active s = None) -> sched_ok s -> sched_ok s'.
Proof. intros E1 E2 E3 [H1 H2]. split; rewrite E1, E2, E3; done. Qed.

Lemma attended_same k s s' m :
  rl_unscanned s ⊆ rl_unscanned s' -> rl_queue s' = rl_queue s -> view k s' = view k s ->
  attended k s m -> attended k s' m.
Proof.
  intros Hu Hq Hv [H1 H2]. split; intros Hst.
  - rewrite Hq, Hv. destruct (H1 Hst) as [?|?]; [left; by apply Hu|by right].
  - rewrite Hv. destruct (H2 Hst) as [?|?]; [left; by apply Hu|by right].
Qed.

Lemma unscanned_schedule s : rl_unscanned (scheduleFinalizers s) = rl_unscanned s.
Proof. unfold scheduleFinalizers. by split_if. Qed.
Lemma queue_schedule s : rl_queue (scheduleFinalizers s) = rl_queue s.
Proof. unfold scheduleFinalizers. by split_if. Qed.

Lemma work_enqueue k h s : work_inv s -> work_inv (enqueueFinalizer k h s).
Proof.
  intros [Hs Ha]. split.
  - apply sched_schedule. simpl. intros Hsc. destruct (so_idle _ Hs Hsc) as [? _]. split; [done|].
    by destruct (rl_queue s).
  - intros k' m parts. rewrite uploads_enqueue. intros Hu. destruct (Ha _ _ _ Hu) as [H1 H2].
    unfold enqueueFinalizer. split; rewrite unscanned_schedule, view_schedule, ?queue_schedule; simpl.
    + intros Hst. rewrite map_app, in_app_iff. destruct (H1 Hst) as [?|[?|?]]; auto.
    + intros Hst. by destruct (H2 Hst); [left|right].
Qed.

Lemma work_write k m s : work_inv s -> attended k s m -> work_inv (writeMetadata k m s).
Proof.
  intros [Hs Ha] Hm. split; [by eapply sched_same; [..|exact Hs]|].
  intros k' m' parts. rewrite uploads_write. destruct (decide (k' = k)) as [->|Hne].
  - rewrite lookup_insert_eq. intros [= <- <-]. by apply (attended_same _ s).
  - rewrite lookup_insert_ne by done. intros Hu. apply (attended_same _ s); try done. by eapply Ha.
Qed.

(** Nobody waits for an upload in another state. *)
Lemma attended_idle k s m : md_state m <> Queued -> md_state m <> Forwarding -> attended k s m.
Proof. by split. Qed.

Lemma work_remove k s : work_inv s -> work_inv (removeUploadDirectory k s).
Proof.
  intros [Hs Ha]. split; [by eapply sched_same; [..|exact Hs]|].
  intros k' m' parts. simpl. intros [_ Hu]%lookup_delete_Some. apply (attended_same _ s); try done. by eapply Ha.
Qed.

Lemma work_meta s s' : work_inv s -> rl_scheduled s' = rl_scheduled s -> rl_queue s' = rl_queue s ->
  rl_active s' = rl_active s -> rl_unscanned s' = rl_unscanned s ->
  (forall k m parts, rl_uploads s' !! k = Some (MkUpload (Some m) parts) ->
     exists parts', rl_uploads s !! k = Some (MkUpload (Some m) parts')) ->
  work_inv s'.
Proof.
  intros [Hs Ha] E1 E2 E3 E4 Hu. split; [by eapply sched_same; [..|exact Hs]; rewrite ?E3|].
  intros k m parts Hk. destruct (Hu _ _ _ Hk) as [parts' Hk']. apply (attended_same _ s); [by rewrite E4|done| |by eapply Ha].
  unfold view. by rewrite E3.
Qed.

Lemma work_put k o d s : work_inv s -> work_inv (put_part k o d s).
Proof.
  intros Hw. unfold put_part. destruct (rl_uploads s !! k) as [[mm pp]|] eqn:E; [|done].
  eapply work_meta; [exact Hw|done..|]. intros k' m parts. simpl. destruct (decide (k' = k)) as [->|Hne].
  - rewrite lookup_insert_eq. intros [= -> <-]. by exists pp.
  - rewrite lookup_insert_ne by done. by exists parts.
Qed.

Lemma work_chunks k o s : work_inv s -> work_inv (removeChunks k o s).
Proof.
  intros Hw. unfold removeChunks. destruct (rl_uploads s !! k) as [[mm pp]|] eqn:E; [|done].
  eapply work_meta; [exact Hw|done..|]. intros k' m parts. simpl. destruct (decide (k' = k)) as [->|Hne].
  - rewrite lookup_insert_eq. intros [= -> <-]. by exists pp.
  - rewrite lookup_insert_ne by done. by exists parts.
Qed.

(** The worker lets go of an upload nobody has to look at. *)
Lemma work_end r s : work_inv s -> rl_active s = Some r ->
  (forall m parts, rl_uploads s !! jb_key (rn_job r) = Some (MkUpload (Some m) parts) ->
     (md_state m = Queued -> view (jb_key (rn_job r)) s <> Some Picked) /\
     (md_state m = Forwarding -> jb_key (rn_job r) ∈ rl_unscanned s)) ->
  work_inv (endJob s).
Proof.
  intros [Hs Ha] Hr Hk. assert (Hns : rl_scheduled s = false).
  { destruct (rl_scheduled s) eqn:E; [|done]. destruct (so_idle _ Hs E). congruence. }
  split; [apply sched_schedule; simpl; congruence|].
  intros k m parts. rewrite uploads_end. intros Hu. destruct (Ha _ _ _ Hu) as [H1 H2].
  unfold endJob, attended. rewrite unscanned_schedule, queue_schedule, view_schedule. simpl.
  destruct (decide (jb_key (rn_job r) = k)) as [<-|Hne].
  - destruct (Hk _ _ Hu) as [Hq Hf]. split; intros Hst; [|left; auto].
    destruct (H1 Hst) as [?|[?|?]]; auto. by destruct (Hq Hst).
  - assert (view k s = None) as Hv by (unfold view; rewrite Hr; by rewrite decide_False).
    split; intros Hst.
    + destruct (H1 Hst) as [?|[?|?]]; auto. congruence.
    + destruct (H2 Hst) as [?|(ph & p & ? & _)]; auto. congruence.
Qed.

(** The worker goes on with the same lease. *)
Lemma work_advance ph r s p : work_inv s -> rl_active s = Some r ->
  held (rn_phase r) = Some p -> held ph = Some p -> work_inv (advance ph r s).
Proof.
  intros [Hs Ha] Hr Hp Hp'. split.
  { eapply sched_same; [..|exact Hs]; try done. simpl. by rewrite Hr. }
  intros k m parts Hu. destruct (Ha _ _ _ Hu) as [H1 H2].
  unfold attended, advance, set_active, view in *. simpl in *. rewrite Hr in *.
  destruct (decide (jb_key (rn_job r) = k)); [|by split]. split; intros Hst.
  - destruct (H1 Hst) as [?|[?|Hv]]; auto. injection Hv as Hv. by rewrite Hv in Hp.
  - destruct (H2 Hst) as [?|(ph' & p' & [= <-] & Hh & Hl)]; auto. right. exists ph, p.
    split; [done|]. split; [done|]. congruence.
Qed.

Lemma work_signal b r s : work_inv s -> rl_active s = Some r ->
  work_inv (set_active (Some (MkRunning (rn_job r) (rn_phase r) b)) s).
Proof.
  intros [Hs Ha] Hr. split; [eapply sched_same; [..|exact Hs]; try done; simpl; by rewrite Hr|].
  intros k m parts Hu. eapply (attended_same _ s); try done; [|by eapply Ha].
  unfold view. simpl. by rewrite Hr.
Qed.

(** What the invariant knows can be loaded. *)
Lemma load_total k m parts s tr : relay_inv (s, tr) ->
  rl_uploads s !! k = Some (MkUpload (Some m) parts) -> loadMetadata k s = Ok m.
Proof.
  intros Hi Hu. destruct (ko_meta _ _ _ _ (inv_at _ _ _ _ Hi Hu) _ _ eq_refl) as [Oi Ov _ _ _ _ _ _].
  unfold loadMetadata. rewrite Oi, Hu, Ov. done.
Qed.

Section Attention.
Context `{RelayEnv}.

Lemma work_queue now k m config h s r s' evs :
  work_inv s -> queueFinalization now k m config h s = (r, s', evs) -> work_inv s'.
Proof.
  intros Hw. unfold queueFinalization. split_if; intros [= <- <- <-]; [done|].
  (* the metadata is written first, and the job follows *)
  destruct Hw as [Hs Ha]. set (m' := with_state _ _ _).
  split; [apply sched_schedule; simpl; intros Hsc; destruct (so_idle _ Hs Hsc); split; [done|by destruct (rl_queue s)]|].
  intros k' m1 parts. rewrite uploads_enqueue, uploads_write. intros Hu.
  unfold attended, enqueueFinalizer. rewrite unscanned_schedule, queue_schedule, view_schedule. simpl.
  rewrite map_app, in_app_iff. simpl. destruct (decide (k' = k)) as [->|Hne].
  - rewrite lookup_insert_eq in Hu. injection Hu as <- _. split; [intros _; right; left; right; by left|done].
  - rewrite lookup_insert_ne in Hu by done. destruct (Ha _ _ _ Hu) as [H1 H2]. split; intros Hst.
    + destruct (H1 Hst) as [?|[?|?]]; auto.
    + by destruct (H2 Hst); [left|right].
Qed.

Lemma work_append now k contentLength h offset data s r s' evs tr :
  relay_inv (s, tr) -> work_inv s ->
  append now k contentLength h offset data s = (r, s', evs) -> work_inv s'.
Proof.
  intros Hi Hw. unfold append, try_do, refuse.
  destruct (getConfig _ _) as [config|]; [|by intros [= _ <- _]].
  destruct (loadMetadata k s) as [m|] eqn:El; [|by intros [= _ <- _]]. loaded El.
  split_if; [by intros [= _ <- _]|]. split_if; [by intros [= _ <- _]|]. split_if; [by intros [= _ <- _]|].
  split_if. { split_if; [by intros [= _ <- _]|]. by apply work_queue. }
  split_if. { split_if; [by intros [= _ <- _]|]. by apply work_queue. }
  destruct (md_length m <? md_offset m + contentLength) eqn:Efit; [by intros [= _ <- _]|].
  split_if; [by intros [= _ <- _]|].
  set (s1 := writeMetadata _ _ _).
  assert (Hmid : work_inv s1).
  { apply work_write; [by apply work_put|].
    destruct (ko_meta _ _ _ _ (inv_at _ _ _ _ Hi Eu) _ _ eq_refl) as [_ _ _ _ Of _ _ _].
    boolify. apply attended_idle; simpl; intros Hst; rewrite Of in Efit by congruence; lia. }
  split_if; [by intros [= _ <- _]|].
  destruct (queueFinalization _ _ _ _ _ _) as [[r1 s2] evs1] eqn:Eq. intros [= _ <- _].
  by eapply work_queue.
Qed.

Lemma work_client_remove now k s r s' evs : work_inv s -> remove now k s = (r, s', evs) -> work_inv s'.
Proof.
  intros Hw. unfold remove, try_do, refuse.
  destruct (getConfig _ _) as [config|]; [|by intros [= _ <- _]].
  destruct (loadMetadata k s) as [m|]; [|by intros [= _ <- _]].
  split_if; intros [= _ <- _]; [|by apply work_remove].
  assert (Hw' : work_inv (writeMetadata k (with_state Cancelled now (with_failure (Some "cancelled") m)) s))
    by (apply work_write; [done|by apply attended_idle]).
  revert Hw'. generalize (writeMetadata k (with_state Cancelled now (with_failure (Some "cancelled") m)) s).
  intros s1 Hw1. unfold abort. destruct (rl_active s1) as [r1|] eqn:Ea; [|done].
  split_if; [|done]. by apply work_signal.
Qed.

Lemma work_recover now k s tr : relay_inv (s, tr) -> work_inv s -> work_inv (recover_one now k s).
Proof.
  intros Hi Hw. unfold recover_one.
  assert (Hdone : forall s1, work_inv s1 -> rl_unscanned s1 = rl_unscanned s ->
    (forall m parts, rl_uploads s1 !! k = Some (MkUpload (Some m) parts) ->
       (md_state m = Queued -> In k (map jb_key (rl_queue s1))) /\ md_state m <> Forwarding) ->
    work_inv (set_unscanned (rl_unscanned s ∖ {[k]}) s1)).
  { intros s1 [Hs Ha] Eu Hk. split; [by eapply sched_same; [..|exact Hs]|].
    intros k' m parts Hu. destruct (Ha _ _ _ Hu) as [H1 H2]. unfold attended. simpl.
    change (view k' (set_unscanned _ s1)) with (view k' s1). rewrite <- Eu.
    destruct (decide (k' = k)) as [->|Hne].
    - destruct (Hk _ _ Hu). split; auto. done.
    - split; intros Hst; [destruct (H1 Hst)|destruct (H2 Hst)]; auto; left;
        (apply elem_of_difference; split; [done|by rewrite elem_of_singleton]). }
  destruct (loadMetadata k s) as [m|] eqn:El.
  2:{ apply Hdone; [done..|]. intros m parts Hu. by rewrite (load_total _ _ _ _ _ Hi Hu) in El. }
  loaded El. destruct (md_state m) eqn:Em.
  - apply Hdone; [done..|]. intros m1 p1. rewrite Eu. intros [= <- _]. by rewrite Em.
  - split_if.
    + apply Hdone; [by apply work_write|done|]. intros m1 p1. rewrite uploads_write, lookup_insert_eq.
      by intros [= <- _].
    + assert (Hw' : work_inv (enqueueFinalizer k ∅ (writeMetadata k (with_state Queued now m) s))).
      { apply work_enqueue, work_write; [done|]. destruct Hw as [_ Ha]. destruct (Ha _ _ _ Eu) as [H1 _].
        split; [intros _; by apply H1|done]. }
      apply Hdone; [done|by unfold enqueueFinalizer; rewrite unscanned_schedule|].
      intros m1 p1. rewrite uploads_enqueue, uploads_write, lookup_insert_eq. intros [= <- _].
      split; [|done]. intros _. unfold enqueueFinalizer. rewrite queue_schedule. simpl.
      rewrite map_app, in_app_iff. right. by left.
  - apply Hdone; [by apply work_write|done|]. intros m1 p1. rewrite uploads_write, lookup_insert_eq.
    by intros [= <- _].
  - apply Hdone; [done..|]. intros m1 p1. rewrite Eu. intros [= <- _]. by rewrite Em.
  - apply Hdone; [done..|]. intros m1 p1. rewrite Eu. intros [= <- _]. by rewrite Em.
  - apply Hdone; [by apply work_remove|done|]. intros m1 p1. by rewrite removed_at.
Qed.

Lemma work_stop_refused now p code r s tr :
  relay_inv (s, tr) -> work_inv s -> rl_active s = Some r -> held (rn_phase r) = Some p ->
  work_inv (settle_refused now p code r s).
Proof.
  intros Hi Hw Ha Hp. unfold settle_refused. set (k := jb_key (rn_job r)).
  assert (Hv : view k s = Some (rn_phase r)) by by apply view_active.
  assert (Hn : view k s <> Some Picked) by (rewrite Hv; intros [= E]; by rewrite E in Hp).
  destruct (loadMetadata k s) as [m|] eqn:El.
  2:{ eapply work_end; [exact Hw|exact Ha|]. intros m parts Hu.
    pose proof (load_total k _ _ _ _ Hi Hu). congruence. }
  loaded El. split_if.
  { eapply work_end; [by apply work_remove|exact Ha|]. intros m1 p1. by rewrite removed_at. }
  split_if.
  { eapply work_end; [exact Hw|exact Ha|]. intros m1 p1 Hu. fold k in Hu. rewrite Eu in Hu. injection Hu as <- _.
    split; [done|]. intros Hst. destruct (proj2 (wi_attended _ Hw _ _ _ Eu) Hst) as [?|(ph & p' & Hph & Hh & Hl)]; [done|].
    rewrite Hv in Hph. injection Hph as <-. rewrite Hp in Hh. injection Hh as <-.
    rewrite !bool_decide_eq_true_2 in Heqb0 by done. done. }
  eapply work_end; [by apply work_write|exact Ha|]. intros m1 p1. fold k. rewrite uploads_write, lookup_insert_eq.
  by intros [= <- _].
Qed.

Lemma work_settle now p status gone r s tr :
  relay_inv (s, tr) -> work_inv s -> rl_active s = Some r -> held (rn_phase r) = Some p ->
  work_inv (settle now p status gone r s).
Proof.
  intros Hi Hw Ha Hp. pose proof (work_stop_refused now p "origin-rejected" r s tr Hi Hw Ha Hp) as Href.
  revert Href. unfold settle_refused, settle. set (k := jb_key (rn_job r)).
  destruct (loadMetadata k s) as [m|] eqn:El; [|done]. loaded El. split_if; [done|]. split_if; [done|].
  destruct status as [st|]; [|done]. intros _. set (m' := with_state Completed now _).
  assert (Hend : forall m2 offs, md_state m2 = Completed ->
    work_inv (endJob (writeMetadata k m2 (removeChunks k offs (writeMetadata k m' s))))).
  { intros m2 offs Hm2. assert (Hw2 : work_inv (writeMetadata k m' s)) by (apply work_write; [done|by apply attended_idle]).
    apply (work_chunks k offs) in Hw2.
    eapply work_end; [apply work_write; [exact Hw2|apply attended_idle; by rewrite Hm2]| |].
    - unfold removeChunks. destruct (rl_uploads (writeMetadata k m' s) !! k); exact Ha.
    - intros m1 p1. fold k. rewrite uploads_write, lookup_insert_eq. intros [= <- _]. by rewrite Hm2. }
  destruct gone as [offs|]; by apply Hend.
Qed.

Lemma work_prepare now lease j a s tr :
  relay_inv (s, tr) -> work_inv s -> rl_active s = Some (MkRunning j Picked a) ->
  work_inv (prepare now lease (MkRunning j Picked a) s).
Proof.
  intros Hi Hw Ha. unfold prepare. simpl rn_job. set (k := jb_key j).
  assert (Hv : view k s = Some Picked) by by apply (view_active _ _ _ Ha).
  destruct (loadMetadata k s) as [m|] eqn:El.
  2:{ eapply work_end; [exact Hw|exact Ha|]. intros m parts Hu.
    pose proof (load_total k _ _ _ _ Hi Hu). congruence. }
  loaded El. destruct (decide (md_state m = Queued)) as [Em|Em].
  2:{ rewrite bool_decide_eq_false_2 by done. simpl. eapply work_end; [exact Hw|exact Ha|].
    intros m1 p1 Hu. change (jb_key (rn_job (MkRunning j Picked a))) with k in *. rewrite Eu in Hu. injection Hu as <- _.
    split; [done|]. intros Hst. destruct (proj2 (wi_attended _ Hw _ _ _ Eu) Hst) as [?|(ph & p' & Hph & Hh & _)]; [done|].
    rewrite Hv in Hph. by injection Hph as <-. }
  rewrite bool_decide_eq_true_2 by done. simpl negb. cbv iota.
  assert (Hfail : forall code, work_inv (endJob (writeMetadata k (fail_with now code m) s))).
  { intros code. eapply work_end; [by apply work_write|exact Ha|]. intros m1 p1.
    change (jb_key (rn_job (MkRunning j Picked a))) with k. rewrite uploads_write, lookup_insert_eq. by intros [= <- _]. }
  destruct (getConfig _ _) as [config|]; [|apply Hfail]. split_if; [apply Hfail|].
  destruct Hw as [Hs Hatt]. split; [eapply sched_same; [..|exact Hs]; try done; simpl; by rewrite Ha|].
  intros k' m1 p1. rewrite uploads_advance, uploads_write. intros Hu.
  unfold attended, advance, set_active, view. simpl. fold k. destruct (decide (k = k')) as [<-|Hne].
  - rewrite lookup_insert_eq in Hu. injection Hu as <- _. split; [done|]. intros _. right. by eexists _, _.
  - rewrite lookup_insert_ne in Hu by done. destruct (Hatt _ _ _ Hu) as [H1 H2]. unfold view in H1, H2.
    rewrite Ha in H1, H2. simpl in *. fold k in H1, H2. by rewrite decide_False in H1, H2 by done.
Qed.

Lemma work_run s : work_inv s -> rl_scheduled s = true -> work_inv (runScheduled s).
Proof.
  intros [Hs Ha] Hsc. destruct (so_idle _ Hs Hsc) as [Hact Hq]. unfold runScheduled. rewrite Hact.
  destruct (rl_queue s) as [|j q] eqn:Eq; [done|]. split; [by split|].
  intros k m parts Hu. destruct (Ha _ _ _ Hu) as [H1 H2]. unfold attended, view in *. simpl in *. rewrite Hact, Eq in *.
  split; intros Hst.
  - destruct (H1 Hst) as [?|[[->|?]|?]]; auto; [|done]. right. right. by rewrite decide_True.
  - destruct (H2 Hst) as [?|(? & ? & ? & _)]; [by left|done].
Qed.

Lemma work_tables t s : work_inv s -> work_inv (set_tables t s).
Proof. intros Hw. eapply work_meta; [exact Hw|done..|]. intros k m parts Hu. by exists parts. Qed.

Lemma work_restart s : work_inv (restart s).
Proof.
  split; [by split|]. intros k m parts Hu. split; intros _; left; simpl; apply elem_of_dom; by eexists.
Qed.

Theorem work_reachable w : relay_reachable w -> relay_inv w /\ work_inv (fst w).
Proof.
  apply (invariant_reachable boot relay_step (fun w => relay_inv w /\ work_inv (fst w))).
  - intros w0 Hb. split; [by apply relay_invariant, reachable_init|]. destruct Hb as (t & ->). simpl.
    split; [by split|]. simpl. intros k m parts. by rewrite lookup_empty.
  - intros w0 w1 [Hi Hw] Hs. split; [by eapply relay_inv_step|]. destruct Hs; simpl in *.
    + by apply work_tables.
    + unfold create, try_do, refuse in H2. revert H2. split_if; [by intros [= _ <- _]|].
      destruct (getConfig _ _) as [config|]; [|by intros [= _ <- _]].
      destruct (asPositiveInteger _ _ _ _); [|by intros [= _ <- _]].
      destruct (pendingUploadStats _ _). split_if; [by intros [= _ <- _]|]. split_if; [by intros [= _ <- _]|].
      intros [= _ <- _]. by apply work_write.
    + apply work_restart.
    + by eapply work_append.
    + apply work_restart.
    + unfold finalize, try_do, refuse in H0. revert H0.
      destruct (getConfig _ _) as [config|]; [|by intros [= _ <- _]].
      destruct (loadMetadata k s) as [m|]; [|by intros [= _ <- _]]. split_if; [by intros [= _ <- _]|]. by apply work_queue.
    + by eapply work_client_remove.
    + unfold cleanup_one. split_if; [done|]. destruct (loadMetadata k s); [|by apply work_remove].
      split_if; [done|]. split_if; [done|]. by apply work_remove.
    + by eapply work_recover.
    + by apply work_run.
    + by eapply work_prepare.
    + unfold check_dispatch. destruct (getConfig _ _); [split_if|]; by eapply work_advance.
    + by eapply work_stop_refused.
    + revert H1. unfold send. destruct (match rl_uploads s !! _ with Some _ => _ | None => _ end); [split_if|];
        intros [= <- _]; by eapply work_advance.
    + by eapply work_advance.
    + by eapply work_settle.
    + by apply (work_signal true (MkRunning j ph false)).
    + apply work_restart.
Qed.
End Attention.

(** ** The relay as a whole *)

Section Properties.
Context `{RelayEnv}.

(** What happens without clients and without changes of the settings: the
    recovery of uploads found at the start, and the worker, with any answer
    of the origins. *)
Inductive worker_step (s : relay) : relay -> Prop :=
| ws_recover now k : k ∈ rl_unscanned s -> worker_step s (recover_one now k s)
| ws_run : rl_scheduled s = true -> worker_step s (runScheduled s)
| ws_prepare now lease j a :
    rl_active s = Some (MkRunning j Picked a) -> worker_step s (prepare now lease (MkRunning j Picked a) s)
| ws_check p j a :
    rl_active s = Some (MkRunning j (Prepared p) a) -> worker_step s (check_dispatch p (MkRunning j (Prepared p) a) s)
| ws_refused now p code j a :
    rl_active s = Some (MkRunning j (Refused p code) a) ->
    worker_step s (settle_refused now p code (MkRunning j (Refused p code) a) s)
| ws_send p config j a s' evs :
    rl_active s = Some (MkRunning j (Checked p config) a) ->
    send p config (MkRunning j (Checked p config) a) s = (s', evs) -> worker_step s s'
| ws_answer p status j a :
    rl_active s = Some (MkRunning j (Sent p) a) ->
    worker_step s (advance (Answered p status) (MkRunning j (Sent p) a) s)
| ws_settle now p status gone j a :
    rl_active s = Some (MkRunning j (Answered p status) a) ->
    worker_step s (settle now p status gone (MkRunning j (Answered p status) a) s).

Lemma worker_relay s s' tr : worker_step s s' -> exists evs, relay_step (s, tr) (s', tr ++ evs).
Proof.
  destruct 1; try (exists []; rewrite app_nil_r; by constructor). exists evs. by eapply rs_send.
Qed.

Definition phase_weight (ph : phase) : nat :=
  match ph with
  | Picked => 6 | Prepared _ => 5 | Checked _ _ => 4 | Sent _ => 3 | Answered _ _ => 2 | Refused _ _ => 1
  end.

Definition work_left (s : relay) : nat :=
  (8 * size (rl_unscanned s) + 7 * length (rl_queue s)
   + match rl_active s with Some r => phase_weight (rn_phase r) | None => 0 end)%nat.

Lemma left_schedule s : work_left (scheduleFinalizers s) = work_left s.
Proof. unfold scheduleFinalizers. by split_if. Qed.
Lemma left_end s r : rl_active s = Some r -> (work_left (endJob s) < work_left s)%nat.
Proof.
  intros Hr. unfold endJob. rewrite left_schedule. unfold work_left. simpl. rewrite Hr.
  destruct (rn_phase r); simpl; lia.
Qed.
Lemma left_advance ph r s : rl_active s = Some r -> (phase_weight ph < phase_weight (rn_phase r))%nat ->
  (work_left (advance ph r s) < work_left s)%nat.
Proof. intros Hr Hw. unfold work_left. simpl. rewrite Hr. lia. Qed.

(** Only the uploads change before the worker moves on. *)
Lemma left_uploads s s' r : rl_active s = Some r -> rl_active s' = Some r ->
  rl_unscanned s' = rl_unscanned s -> rl_queue s' = rl_queue s -> (work_left (endJob s') < work_left s)%nat.
Proof.
  intros Hr Hr' E1 E2. assert (work_left s = work_left s') as -> by (unfold work_left; by rewrite E1, E2, Hr, Hr').
  by apply left_end with (r := r).
Qed.

Lemma left_settled now p code status gone r s : rl_active s = Some r ->
  (work_left (settle_refused now p code r s) < work_left s)%nat /\
  (work_left (settle now p status gone r s) < work_left s)%nat.
Proof.
  intros Hr. unfold settle_refused, settle. set (k := jb_key (rn_job r)). split.
  - apply (left_uploads _ _ r Hr); destruct (loadMetadata k s); try done; split_ifs.
  - apply (left_uploads _ _ r Hr); destruct (loadMetadata k s); try done; split_ifs; destruct status; try done;
      destruct gone; simpl; unfold removeChunks; by destruct (rl_uploads (writeMetadata _ _ _) !! k).
Qed.

Lemma left_recover now k s : k ∈ rl_unscanned s -> (work_left (recover_one now k s) < work_left s)%nat.
Proof.
  intros Hk. unfold recover_one. set (s1 := match loadMetadata k s with Ok _ => _ | Throw _ => _ end).
  assert (H1 : rl_active s1 = rl_active s /\ (length (rl_queue s1) <= S (length (rl_queue s)))%nat).
  { unfold s1. destruct (loadMetadata k s) as [m|]; [|split; [done|lia]].
    destruct (md_state m); try (split; [done|simpl; lia]). split_if; [split; [done|simpl; lia]|].
    unfold enqueueFinalizer. rewrite active_schedule, queue_schedule. simpl. rewrite length_app. simpl. split; [done|lia]. }
  destruct H1 as [Ha Hq]. unfold work_left. simpl. rewrite Ha.
  assert (size (rl_unscanned s) = S (size (rl_unscanned s ∖ {[k]}))) as ->; [|lia].
  rewrite size_difference by (apply singleton_subseteq_l; done). rewrite size_singleton.
  assert (size (rl_unscanned s) <> 0%nat) by (apply size_non_empty_iff; set_solver). lia.
Qed.

Lemma worker_decreases s s' : work_inv s -> worker_step s s' -> (work_left s' < work_left s)%nat.
Proof.
  intros Hw Hs. destruct Hs as [now k Hk|Hsc|now lease j a Ha|p j a Ha|now p code j a Ha|p config j a s' evs Ha E|p status j a Ha|now p status gone j a Ha].
  - by apply left_recover.
  - destruct (so_idle _ (wi_sched _ Hw) Hsc) as [Hact Hq]. unfold runScheduled. rewrite Hact.
    destruct (rl_queue s) as [|j q] eqn:Eq; [done|]. unfold work_left. simpl. rewrite Hact, Eq. simpl. lia.
  - unfold prepare. simpl rn_job. destruct (loadMetadata _ s) as [m|]; [|by eapply left_end].
    split_if; [by eapply left_end|]. destruct (getConfig _ _); [split_if|]; try by eapply left_uploads.
    unfold work_left. simpl. rewrite Ha. simpl. lia.
  - unfold check_dispatch. destruct (getConfig _ _); [split_if|]; (eapply left_advance; [exact Ha|simpl; lia]).
  - exact (proj1 (left_settled now p code None None _ s Ha)).
  - revert E. unfold send. destruct (match rl_uploads s !! _ with Some _ => _ | None => _ end); [split_if|];
      intros [= <- _]; (eapply left_advance; [exact Ha|simpl; lia]).
  - eapply left_advance; [exact Ha|simpl; lia].
  - exact (proj2 (left_settled now p "" status gone _ s Ha)).
Qed.

(** Nothing is left to do for anybody. *)
Definition settled (s : relay) : Prop :=
  rl_queue s = [] /\ rl_active s = None /\
  forall k m parts, rl_uploads s !! k = Some (MkUpload (Some m) parts) -> md_state m <> Queued /\ md_state m <> Forwarding.

Lemma worker_progress s : work_inv s -> settled s \/ exists s', worker_step s s'.
Proof.
  intros [Hs Ha]. destruct (rl_active s) as [[j ph a]|] eqn:Eact.
  { right. destruct ph as [|p|p code|p config|p|p status].
    - exists (prepare 0 "" (MkRunning j Picked a) s). by constructor.
    - exists (check_dispatch p (MkRunning j (Prepared p) a) s). by constructor.
    - exists (settle_refused 0 p code (MkRunning j (Refused p code) a) s). by constructor.
    - destruct (send p config (MkRunning j (Checked p config) a) s) as [s' evs] eqn:E. exists s'. exact (ws_send _ _ _ _ _ _ _ Eact E).
    - exists (advance (Answered p None) (MkRunning j (Sent p) a) s). by constructor.
    - exists (settle 0 p status None (MkRunning j (Answered p status) a) s). by constructor. }
  destruct (rl_queue s) as [|j q] eqn:Eq; [|right; exists (runScheduled s); apply ws_run, (so_awake _ Hs); [done|by rewrite Eq]].
  destruct (decide (rl_unscanned s = ∅)) as [Eu|Hne].
  - left. split; [done|]. split; [done|]. intros k m parts Hu. destruct (Ha _ _ _ Hu) as [H1 H2].
    unfold view in *. rewrite Eq, Eact, Eu in *. split; intros Hst.
    + destruct (H1 Hst) as [?|[?|?]]; [set_solver|done|done].
    + destruct (H2 Hst) as [?|(? & ? & ? & _)]; [set_solver|done].
  - right. apply set_choose_L in Hne as [k Hk]. exists (recover_one 0 k s). by constructor.
Qed.

(** A call of the origin for an upload carries exactly what was acknowledged, to
    the origin of a request, and no credentials that are withheld. *)
Definition forwards_exactly (k : key) (tr : list event) (r : request) : Prop :=
  rq_body r = received k tr /\
  rq_headers r !! "content-length" = Some (show_Z (strlen (rq_body r))) /\
  exists c, In (Requested k c) tr /\ rq_origin r = rc_origin c /\
    (rc_forward_auth c = false -> rq_headers r !! "authorization" = None).

(** The chunk files hold exactly what was acknowledged. *)
Definition bytes_kept (k : key) (tr : list event) (m : metadata) (parts : gmap Z string) : Prop :=
  read_parts parts (md_chunks m) = Some (received k tr).

(** C21: left alone, the process settles every upload.  From any reachable
    state, after crashes at any point, with any answers of the origins: the
    recovery and the worker never stop while an upload is queued or being
    forwarded, and after finitely many steps none is; no wake-up of the worker
    is lost. *)
Theorem queued_uploads_get_their_turn s tr :
  relay_reachable (s, tr) -> eventually worker_step settled s.
Proof.
  intros Hr. apply (eventually_measure _ _ (fun s => exists tr, relay_reachable (s, tr)) work_left); [| |by exists tr].
  - intros s1 (tr1 & Hr1). apply worker_progress. by apply (work_reachable _ Hr1).
  - intros s1 s2 (tr1 & Hr1) Hs. split.
    + destruct (worker_relay _ _ tr1 Hs) as [evs Hst]. exists (tr1 ++ evs). by eapply reachable_step.
    + apply worker_decreases; [|done]. by apply (work_reachable _ Hr1).
Qed.

(** C19: an origin is only ever called for an explicit request, and gets
    exactly the upload.  At any time, whatever crashed, was retried, cancelled
    or reconfigured: the calls made for an upload, with those still to come,
    are at most the requests clients made to finish it; each call went to the
    origin configured when a client asked, carried exactly the acknowledged
    bytes with their length, and never passed on an Authorization header that
    the settings withhold. *)
Theorem forwarding_is_asked_for_and_exact s tr k :
  relay_reachable (s, tr) ->
  (posts k tr + pending_posts (rl_uploads s !! k) (view k s) <= requests k tr)%nat /\
  forall r, In (Posted k r) tr -> forwards_exactly k tr r.
Proof.
  intros Hr. pose proof (proj1 (work_reachable _ Hr) k) as Hk. simpl in Hk. split; [apply Hk|].
  intros r Hin. destruct (ko_posts _ _ _ _ Hk _ Hin) as [Ha Hb Hl]. by split.
Qed.

(** C20: acknowledged bytes are safe.  In every reachable state, also after a
    crash in the middle of an append, an upload that was not removed can be
    loaded, its offset is the number of acknowledged bytes, and until it is
    completed its chunk files read back as exactly these bytes; an upload that
    left the uploading state is complete. *)
Theorem acknowledged_bytes_are_kept s tr k m parts :
  relay_reachable (s, tr) -> rl_uploads s !! k = Some (MkUpload (Some m) parts) ->
  loadMetadata k s = Ok m /\ md_offset m = strlen (received k tr) /\ md_offset m <= md_length m /\
  (md_state m <> Completed -> bytes_kept k tr m parts) /\
  (md_state m <> Uploading -> md_offset m = md_length m).
Proof.
  intros Hr Hu. destruct (work_reachable _ Hr) as [Hi _].
  destruct (ko_meta _ _ _ _ (inv_at _ _ _ _ Hi Hu) _ _ eq_refl) as [_ Ov Or Op Of _ _ _].
  split; [by eapply load_total|]. split; [done|]. split; [|done].
  unfold valid_metadata in Ov. rewrite !andb_true_iff in Ov. destruct Ov as [[_ Ov] _]. boolify. lia.
Qed.

Lemma create_pending now hostId id filename len mediaType s tr r s' evs h :
  relay_inv (s, tr) -> ~ created (hostId, id) tr ->
  create now hostId id filename len mediaType s = (r, s', evs) ->
  gentle s s' \/
  exists config, getConfig (rl_tables s) hostId = Ok config /\ (h = hostId ->
    (fst (pendingUploadStats h s') <= MAX_PENDING_UPLOADS)%nat /\ snd (pendingUploadStats h s') <= rc_max_pending config)
    /\ (h <> hostId -> pending_map h s' = pending_map h s).
Proof.
  intros Hi Hc. unfold create, try_do, refuse.
  assert (Hno : gentle s s) by by apply gentle_same.
  split_if; [intros [= _ <- _]; by left|].
  destruct (getConfig _ _) as [config|]; [|intros [= _ <- _]; by left].
  destruct (asPositiveInteger _ _ _ _) as [n|] eqn:En; [|intros [= _ <- _]; by left].
  destruct (pendingUploadStats _ _) as [cnt res] eqn:Est.
  split_if; [intros [= _ <- _]; by left|]. split_if; [intros [= _ <- _]; by left|].
  intros [= _ <- _]. right. exists config. split; [done|]. set (m := MkMeta _ _ _ _ _ _ _ _ _ _ _ _ _ _ _ _ _).
  destruct (ko_fresh _ _ _ _ (Hi (hostId, id)) Hc) as [Hu _]. simpl in Hu.
  assert (Hold : pending_map hostId s !! (hostId, id) = None).
  { rewrite pending_map_lookup. unfold pending_of. split_if; [done|]. unfold loadMetadata. rewrite Hu.
    destruct (throw_if _ _); done. }
  assert (Hother : forall h' k', k' <> (hostId, id) ->
    pending_map h' (writeMetadata (hostId, id) m s) !! k' = pending_map h' s !! k').
  { intros h' k' Hne. rewrite !pending_map_lookup. unfold pending_of, loadMetadata. simpl.
    by rewrite lookup_insert_ne. }
  split.
  - intros ->. assert (Hsub : pending_map hostId (writeMetadata (hostId, id) m s) ⊆ <[(hostId, id) := m]> (pending_map hostId s)).
    { apply map_subseteq_spec. intros k' m' Hk'. destruct (decide (k' = (hostId, id))) as [->|Hne].
      - rewrite lookup_insert_eq. rewrite pending_map_lookup, pending_of_spec in Hk'. destruct Hk' as (_ & Hl & _).
        destruct (load_ok _ _ _ Hl) as (pp & E). rewrite uploads_write, lookup_insert_eq in E. congruence.
      - rewrite lookup_insert_ne by done. by rewrite <- Hother. }
    injection Est as <- <-. unfold MAX_PENDING_UPLOADS in *. boolify.
    apply Nat.leb_gt in Heqb0. split.
    + simpl. apply map_subseteq_size in Hsub. rewrite map_size_insert_None in Hsub by done. lia.
    + rewrite pending_total. apply (map_fmap_mono md_length) in Hsub. rewrite fmap_insert in Hsub.
      apply total_mono in Hsub.
      * rewrite total_insert in Hsub by (by rewrite lookup_fmap, Hold). rewrite <- (pending_total hostId s) in Hsub.
        simpl md_length in Hsub. simpl snd in Hsub. lia.
      * apply map_Forall_insert; [by rewrite lookup_fmap, Hold|]. split.
        -- unfold asPositiveInteger in En. destruct len; [|done]. ok_inv En. injection En as ->. boolify. simpl. lia.
        -- apply pending_nonneg.
  - intros Hne. apply map_eq. intros k'. destruct (decide (k' = (hostId, id))) as [->|Hk]; [|by apply Hother].
    rewrite !pending_map_lookup. unfold pending_of. simpl. apply Z.eqb_neq in Hne. rewrite Z.eqb_sym, Hne. done.
Qed.

Lemma step_gentle w w' : relay_step w w' ->
  gentle (fst w) (fst w') \/
  exists now hostId id filename len mediaType r evs,
    ~ created (hostId, id) (snd w) /\
    create now hostId id filename len mediaType (fst w) = (r, fst w', evs).
Proof.
  intros Hs. destruct Hs; simpl; try (left; by apply gentle_same).
  - right. by exists now, hostId, id, filename, len, mediaType, r, evs.
  - left. eapply gentle_then; [|done]. apply (gentle_at _ _ (hostId, id)).
    + intros k' Hne. simpl. by rewrite lookup_insert_ne.
    + intros m' Hm. destruct (load_ok _ _ _ Hm) as (pp & E). simpl in E. by rewrite lookup_insert_eq in E.
  - left. by eapply append_gentle.
  - left. eapply gentle_then; [apply gentle_put|done].
  - left. revert H0. unfold finalize, try_do, refuse. destruct (getConfig _ _); [|intros [= _ <- _]; by apply gentle_same].
    destruct (loadMetadata k s) eqn:El; [|intros [= _ <- _]; by apply gentle_same].
    split_if; [intros [= _ <- _]; by apply gentle_same|]. intros Hq. by eapply queue_gentle.
  - left. revert H0. unfold remove, try_do, refuse. destruct (getConfig _ _); [|intros [= _ <- _]; by apply gentle_same].
    destruct (loadMetadata k s) eqn:El; [|intros [= _ <- _]; by apply gentle_same].
    split_if; intros [= _ <- _]; [|apply gentle_remove]. boolify.
    eapply gentle_then; [|apply uploads_abort]. eapply gentle_write; [exact El|left; congruence|done].
  - left. apply worker_gentle.
  - left. apply worker_gentle.
  - left. apply gentle_same. unfold runScheduled. by destruct (rl_active s), (rl_queue s).
  - left. apply prepare_gentle.
  - left. apply gentle_same. unfold check_dispatch. by destruct (getConfig _ _); [split_if|].
  - left. exact (proj1 (settle_gentle now p code None None _ s)).
  - left. apply gentle_same. revert H1. unfold send.
    destruct (match rl_uploads s !! _ with Some _ => _ | None => _ end); [split_if|]; by intros [= <- _].
  - left. exact (proj2 (settle_gentle now p "" status gone _ s)).
Qed.

(** the space reserved on disk never outgrows the limits.  No step adds
    to the number of pending uploads of a host or to the bytes they declare,
    except the creation of an upload, and then there are at most thirty-two and
    their bytes are within the limit configured at that moment. *)
Theorem pending_stays_within_the_limits w w' h :
  relay_reachable w -> relay_step w w' ->
  ((fst (pendingUploadStats h (fst w')) <= fst (pendingUploadStats h (fst w)))%nat /\
   snd (pendingUploadStats h (fst w')) <= snd (pendingUploadStats h (fst w))) \/
  ((fst (pendingUploadStats h (fst w')) <= MAX_PENDING_UPLOADS)%nat /\
   exists config, getConfig (rl_tables (fst w)) h = Ok config /\
     snd (pendingUploadStats h (fst w')) <= rc_max_pending config).
Proof.
  intros Hr Hs. destruct (work_reachable _ Hr) as [Hi _]. destruct w as [s tr], w' as [s' tr'].
  destruct (step_gentle _ _ Hs) as [Hg|(now & hostId & id & f & l & mt & r & evs & Hc & Hcr)];
    [left; by apply gentle_pending|]. simpl in *.
  destruct (create_pending _ _ _ _ _ _ _ _ _ _ _ h Hi Hc Hcr) as [Hg|(config & Hcfg & Hself & Hother)];
    [left; by apply gentle_pending|].
  destruct (decide (h = hostId)) as [->|Hne].
  - right. destruct (Hself eq_refl). split; [done|]. by exists config.
  - left. unfold pendingUploadStats. rewrite (Hother Hne). simpl. lia.
Qed.
End Properties.

(** ** A run *)

Section DemoRelay.
#[local] Instance no_policies : RelayEnv := {| accessPolicyFingerprint _ _ := "none" |}.

Definition demo_host : relay_host :=
  MkRelayHost 1 false true true None None "https" "10.0.0.5" (Some 8443) (Some (8 * 1024 * 1024)) None None None None None.
Definition demo_tables : tables := MkTables (fun h => if h =? 1 then Some demo_host else None) (fun _ => None).
Definition demo_id : string := "0f8fad5b-d9cb-469f-a165-70867728950e".
Definition demo_key : key := (1, demo_id).
Definition demo_auth : headers := {[ "authorization" := "Bearer x" ]}.

Definition demo0 : relay := MkRelay demo_tables ∅ [] false None ∅.
Definition demo_create := create 1000 1 demo_id (Some "a/b.txt") (Some 10) None demo0.
Definition demo1 : relay := snd (fst demo_create).
Definition demo_append1 := append 1001 demo_key 5 demo_auth 0 "hello" demo1.
Definition demo2 : relay := snd (fst demo_append1).
Definition demo_append2 := append 1002 demo_key 5 demo_auth 5 "world" demo2.
Definition demo3 : relay := snd (fst demo_append2).
Definition demo4 : relay := runScheduled demo3.
Definition demo_job : job := MkJob demo_key demo_auth.
Definition demo5 : relay := prepare 1003 "lease" (MkRunning demo_job Picked false) demo4.
Definition demo_prepared : prepared :=
  match rl_active demo5 with
  | Some (MkRunning _ (Prepared p) _) => p
  | _ => MkPrepared (MkConfig 0 0 false 0 0 0 "" "" "") "" (MkMeta 0 "" 0 0 Failed [] (MkConfig 0 0 false 0 0 0 "" "" "") "" "" 0 None None None false 0 None None)
  end.
Definition demo6 : relay := check_dispatch demo_prepared (MkRunning demo_job (Prepared demo_prepared) false) demo5.
Definition demo_send :=
  send demo_prepared (pr_config demo_prepared) (MkRunning demo_job (Checked demo_prepared (pr_config demo_prepared)) false) demo6.
Definition demo7 : relay := fst demo_send.

Definition demo_trace3 : list event := (([] ++ snd demo_create) ++ snd demo_append1) ++ snd demo_append2.
Definition demo_trace : list event := demo_trace3 ++ snd demo_send.

Lemma triple {A B C} (o : A * B * C) : o = (fst (fst o), snd (fst o), snd o).
Proof. by destruct o as [[? ?] ?]. Qed.

Lemma demo_reachable3 : relay_reachable (demo3, demo_trace3).
Proof.
  eapply reachable_step; [eapply reachable_step; [eapply reachable_step; [apply reachable_init; by exists demo_tables|]|]|].
  - apply (rs_create 1000 1 demo_id (Some "a/b.txt") (Some 10) None demo0 [] (fst (fst demo_create)));
      [vm_compute; reflexivity|by intros []|exact (triple demo_create)].
  - apply (rs_append 1001 demo_key 5 demo_auth 0 "hello" demo1 _ (fst (fst demo_append1)) demo2 (snd demo_append1)). exact (triple demo_append1).
  - apply (rs_append 1002 demo_key 5 demo_auth 5 "world" demo2 _ (fst (fst demo_append2)) demo3 (snd demo_append2)). exact (triple demo_append2).
Qed.

Lemma demo_reachable : relay_reachable (demo7, demo_trace).
Proof.
  eapply reachable_step; [eapply reachable_step; [eapply reachable_step; [eapply reachable_step; [apply demo_reachable3|]|]|]|].
  - apply rs_run. vm_compute; reflexivity.
  - apply (rs_prepare 1003 "lease" demo_job false demo4). vm_compute; reflexivity.
  - apply (rs_check demo_prepared demo_job false demo5). vm_compute; reflexivity.
  - apply (rs_send demo_prepared (pr_config demo_prepared) demo_job false demo6 demo_trace3 demo7 (snd demo_send)); [vm_compute; reflexivity|exact (surjective_pairing demo_send)].
Qed.

Lemma queued_witness :
  match rl_uploads demo3 !! demo_key with Some (MkUpload (Some m) _) => md_state m = Queued | _ => False end /\
  eventually worker_step settled demo3.
Proof.
  split; [vm_compute; reflexivity|]. apply (queued_uploads_get_their_turn demo3 demo_trace3). apply demo_reachable3.
Defined.

Lemma forwarding_witness :
  posts demo_key demo_trace = 1%nat /\ received demo_key demo_trace = "helloworld" /\
  (posts demo_key demo_trace + pending_posts (rl_uploads demo7 !! demo_key) (view demo_key demo7)
     <= requests demo_key demo_trace)%nat.
Proof.
  split; [vm_compute; reflexivity|]. split; [vm_compute; reflexivity|].
  apply (forwarding_is_asked_for_and_exact demo7 demo_trace demo_key demo_reachable).
Defined.

Lemma kept_witness :
  match rl_uploads demo3 !! demo_key with
  | Some (MkUpload (Some m) parts) => read_parts parts (md_chunks m) = Some "helloworld"
  | _ => False
  end.
Proof.
  destruct (rl_uploads demo3 !! demo_key) as [[[m|] parts]|] eqn:E; [|vm_compute in E; discriminate E..].
  pose proof (acknowledged_bytes_are_kept demo3 demo_trace3 demo_key m parts demo_reachable3 E) as (_ & _ & _ & Hp & _).
  apply Hp. vm_compute in E. injection E as <- _. done.
Defined.

Lemma pending_witness : fst (pendingUploadStats 1 demo4) = 1%nat /\
  (((fst (pendingUploadStats 1 demo4) <= fst (pendingUploadStats 1 demo3))%nat /\
    snd (pendingUploadStats 1 demo4) <= snd (pendingUploadStats 1 demo3)) \/
   ((fst (pendingUploadStats 1 demo4) <= MAX_PENDING_UPLOADS)%nat /\
    exists config, getConfig (rl_tables demo3) 1 = Ok config /\ snd (pendingUploadStats 1 demo4) <= rc_max_pending config)).
Proof.
  split; [vm_compute; reflexivity|].
  apply (pending_stays_within_the_limits (demo3, demo_trace3) (demo4, demo_trace3)); [apply demo_reachable3|].
  apply rs_run. vm_compute; reflexivity.
Defined.

(** The message of [safeUploadPath] promises a path without traversal; a
    segment may still be [..]. *)
Example dot_segments_are_accepted : safeUploadPath (Some "/files/../admin") = Ok "/files/../admin".
Proof. reflexivity. Qed.

(** A removal while the upload is being forwarded only marks it; a later
    [finalize] queues it again. *)
Example cancelled_upload_is_revived :
  fst (fst (finalize 1005 demo_key ∅ (snd (fst (remove 1004 demo_key demo7))))) = Ok (MkReply true 10 Queued).
Proof. vm_compute. reflexivity. Qed.
End DemoRelay.
