(* ===== verification/FirewallAddresses.v ===== *)
(** Addresses of the host firewall: src/backend/lib/firewall-addresses.js.

    Text is read and written by [node:net] and ipaddr.js, parameters with
    their documented laws; an address is its family and its value.  A rule is a
    network of Nginx' IPv4 or IPv6 tree, where a client behind an IPv4-mapped
    address is looked up as IPv4. *)

From S2P Require Import Prelude JsString JsValue Errors.
#[local] Open Scope string_scope.
#[local] Open Scope list_scope.
#[local] Open Scope Z_scope.

(** ** Addresses *)

Inductive address : Type := V4 (n : Z) | V6 (n : Z).
#[global] Instance address_eq_dec : EqDecision address.
Proof. solve_decision. Defined.

Definition width (a : address) : Z := match a with V4 _ => 32 | V6 _ => 128 end.
Definition bits (a : address) : Z := match a with V4 n | V6 n => n end.
Definition with_bits (a : address) (n : Z) : address := match a with V4 _ => V4 n | V6 _ => V6 n end.
Definition address_ok (a : address) : Prop := 0 <= bits a < 2 ^ width a.

(** The first [p] bits. *)
Definition prefix_bits (a : address) (p : Z) : Z := bits a / 2 ^ (width a - p).
Definition network_address (a : address) (p : Z) : address :=
  with_bits a (prefix_bits a p * 2 ^ (width a - p)).

Definition same_family (a b : address) : bool :=
  match a, b with V4 _, V4 _ | V6 _, V6 _ => true | _, _ => false end.

Definition network : Type := (address * Z)%type.

Definition network_ok (net : network) : Prop :=
  address_ok (fst net) /\ 0 <= snd net <= width (fst net) /\ network_address (fst net) (snd net) = fst net.

(** Does the network contain the address? *)
Definition contains (net : network) (x : address) : bool :=
  same_family (fst net) x && (prefix_bits x (snd net) =? prefix_bits (fst net) (snd net)).

Definition is_mapped (a : address) : bool := match a with V6 n => n / 2 ^ 32 =? 65535 | V4 _ => false end.
Definition unmapped (a : address) : address := V4 (bits a mod 2 ^ 32).

(** The bytes of an address, highest first. *)
Definition bytes_of (k : nat) (n : Z) : list Z :=
  map (fun i => n / 2 ^ (8 * (Z.of_nat k - 1 - Z.of_nat i)) mod 256) (seq 0 k).

Definition addr_char (c : ascii) : bool := is_hex c || any_char (Ascii.eqb c) ":.".

(** [isIP] of node:net (without a zone suffix) and ipaddr.js: parsing, printing, the
    network address of a CIDR text, IPv4-mapped addresses and bytes. *)
Class IpLib : Type := {
  isIP : string -> Z;
  ip_parse : string -> address;
  ip_toString : address -> string;
  isIPv4MappedAddress : address -> bool;
  toIPv4Address : address -> address;
  networkAddressFromCIDR : string -> address;
  ip_parseCIDR : string -> address * Z;
  toByteArray : address -> list Z;
  fromByteArray : list Z -> address
}.

Class IpLaws `{IpLib} : Prop := {
  isIP_parse : forall s, isIP s <> 0 -> has_char "%" s = false ->
    address_ok (ip_parse s) /\ isIP s = (match ip_parse s with V4 _ => 4 | V6 _ => 6 end);
  isIP_chars : forall s, isIP s <> 0 -> has_char "%" s = false -> s <> "" /\ all_chars addr_char s = true;
  isIP_toString : forall a, address_ok a -> isIP (ip_toString a) <> 0 /\ has_char "%" (ip_toString a) = false;
  parse_toString : forall a, address_ok a -> ip_parse (ip_toString a) = a;
  mapped_spec : forall a, isIPv4MappedAddress a = is_mapped a;
  toIPv4_spec : forall a, is_mapped a = true -> toIPv4Address a = unmapped a;
  network_spec : forall s p, isIP s <> 0 -> has_char "%" s = false -> 0 <= p <= width (ip_parse s) ->
    networkAddressFromCIDR (s ++ "/" ++ show_Z p) = network_address (ip_parse s) p;
  parseCIDR_spec : forall s p, isIP s <> 0 -> has_char "%" s = false -> 0 <= p <= width (ip_parse s) ->
    ip_parseCIDR (s ++ "/" ++ show_Z p) = (ip_parse s, p);
  toByteArray_spec : forall a, address_ok a -> toByteArray a = bytes_of (Z.to_nat (width a / 8)) (bits a);
  fromByteArray_spec : forall a, address_ok a -> fromByteArray (bytes_of (Z.to_nat (width a / 8)) (bits a)) = a
}.

(** ** The code *)

Definition MAX_LIST_BYTES : Z := 8 * 1024 * 1024.
Definition MAX_LIST_LINES : Z := 200000.

(** A decimal numeral without a leading zero. *)
Definition plain_number (s : string) : bool :=
  match s with
  | String c rest => if Ascii.eqb c "0" then String.eqb rest "" else is_digit c && all_chars is_digit rest
  | EmptyString => false
  end.

Section Normalize.
Context `{IpLib}.

Definition address_error : error := ValidationError "Firewall addresses must be IPv4, IPv6, or CIDR networks".

Definition normalizeAddress (value : value) : fallible string :=
  match value with
  | VStr text =>
      let parts := split_on "/" (trim text) in
      let head := hd "" parts in
      let family := isIP head in
      throw address_error when ((family =? 0) || has_char "%" head || Nat.ltb 2 (length parts)) ;;
      let address := ip_parse head in
      let mapped := isIPv4MappedAddress address in
      match parts with
      | [_; suffix] =>
          let maxPrefix := if family =? 4 then 32 else 128 in
          throw ValidationError "Invalid firewall CIDR prefix"
            when (negb (plain_number suffix) || (maxPrefix <? read_Z suffix)) ;;
          let prefix := read_Z suffix in
          if mapped then
            throw ValidationError "IPv4-mapped firewall networks require a prefix of at least 96"
              when (prefix <? 96) ;;
            let ipv4 := toIPv4Address address in
            let ipv4Prefix := prefix - 96 in
            Ok (if ipv4Prefix =? 32 then ip_toString ipv4
                else (ip_toString (networkAddressFromCIDR (ip_toString ipv4 ++ "/" ++ show_Z ipv4Prefix))
                      ++ "/" ++ show_Z ipv4Prefix)%string)
          else if prefix =? maxPrefix then Ok (ip_toString address)
          else
            let network := networkAddressFromCIDR (head ++ "/" ++ show_Z prefix) in
            Ok (ip_toString network ++ "/" ++ show_Z prefix)%string
      | _ => Ok (ip_toString (if mapped then toIPv4Address address else address))
      end
  | _ => Throw (ValidationError "Firewall addresses must be strings")
  end.

(** [split(/\r\n|\n|\r/)] *)
Fixpoint split_lines (s : string) : list string :=
  match s with
  | EmptyString => [""]
  | String c rest =>
      if code c =? 10 then "" :: split_lines rest
      else if code c =? 13 then
        match rest with
        | String d rest' => if code d =? 10 then "" :: split_lines rest' else "" :: split_lines rest
        | EmptyString => "" :: split_lines rest
        end
      else match split_lines rest with
           | [] => [String c ""]
           | w :: ws => String c w :: ws
           end
  end.

Record ip_list : Type := MkIpList {
  il_entries : list string;
  il_duplicates : Z;
  il_invalid : list (Z * string);
  il_total : Z
}.

(** The text of a line before its comment. *)
Definition line_value (line : string) : string := trim (hd "" (split_on "#" line)).

(** One turn of the loop over the lines; the set of entries seen is the list
    of entries. *)
Definition scan_line (acc : ip_list) (index : Z) (line : string) : ip_list :=
  let text := line_value line in
  if String.eqb text "" then acc
  else match normalizeAddress (VStr text) with
       | Ok n =>
           if existsb (String.eqb n) (il_entries acc)
           then MkIpList (il_entries acc) (il_duplicates acc + 1) (il_invalid acc) (il_total acc)
           else MkIpList (il_entries acc ++ [n]) (il_duplicates acc) (il_invalid acc) (il_total acc)
       | Throw _ => MkIpList (il_entries acc) (il_duplicates acc) (il_invalid acc ++ [(index + 1, text)]) (il_total acc)
       end.

Fixpoint scan_lines (acc : ip_list) (index : Z) (lines : list string) : ip_list :=
  match lines with
  | [] => acc
  | line :: rest => scan_lines (scan_line acc index line) (index + 1) rest
  end.

(** [if (lines.at(-1) === "") lines.pop()] *)
Definition pop_blank (lines : list string) : list string :=
  match list.last lines with
  | Some l => if String.eqb l "" then removelast lines else lines
  | None => lines
  end.

(** A byte order mark is no code unit below 256, so that the replacement of one at
    the start of the text leaves every text as it is. *)
Definition parseIpList (content : value) : fallible ip_list :=
  match content with
  | VStr text =>
      throw ValidationError "Firewall list exceeds the 8 MiB limit" when (MAX_LIST_BYTES <? utf8_length text) ;;
      let lines := pop_blank (split_lines text) in
      let total := Z.of_nat (length lines) in
      throw ValidationError "Firewall list exceeds the 200000 line limit" when (MAX_LIST_LINES <? total) ;;
      Ok (scan_lines (MkIpList [] 0 [] total) 0 lines)
  | _ => Throw (ValidationError "Firewall list content must be text")
  end.
End Normalize.
#[global] Arguments normalizeAddress {_} _ : simpl never.
#[global] Arguments parseIpList {_} _ : simpl never.

(** ** Networks *)

Lemma prefix_mask a p : 0 <= p <= width a -> prefix_bits (network_address a p) p = prefix_bits a p.
Proof.
  intros Hp. unfold network_address, prefix_bits. destruct a; simpl in *; rewrite Z.div_mul; lia.
Qed.

Lemma width_network a p : width (network_address a p) = width a.
Proof. by destruct a. Qed.

Lemma family_network a p x : same_family (network_address a p) x = same_family a x.
Proof. by destruct a. Qed.

Lemma network_address_ok a p : address_ok a -> 0 <= p <= width a -> address_ok (network_address a p).
Proof.
  unfold address_ok. rewrite width_network. intros Ha Hp.
  assert (0 < 2 ^ (width a - p)) by (apply Z.pow_pos_nonneg; lia).
  unfold network_address, prefix_bits. set (w := width a) in *.
  pose proof (Z.mul_div_le (bits a) (2 ^ (w - p)) ltac:(lia)).
  pose proof (Z.div_pos (bits a) (2 ^ (w - p)) ltac:(lia) ltac:(lia)).
  destruct a; simpl in *; nia.
Qed.

Lemma network_idem a p : 0 <= p <= width a -> network_address (network_address a p) p = network_address a p.
Proof.
  intros Hp. unfold network_address at 1. rewrite prefix_mask, width_network by done. by destruct a.
Qed.

Lemma network_masked a p : address_ok a -> 0 <= p <= width a -> network_ok (network_address a p, p).
Proof.
  intros. split; [by apply network_address_ok|]. simpl. rewrite width_network. split; [done|by apply network_idem].
Qed.

Lemma network_full a : network_address a (width a) = a.
Proof. unfold network_address, prefix_bits. rewrite Z.sub_diag. simpl. rewrite Z.div_1_r, Z.mul_1_r. by destruct a. Qed.

Lemma contains_masked a p x : 0 <= p <= width a -> contains (network_address a p, p) x = contains (a, p) x.
Proof. intros Hp. unfold contains. simpl. by rewrite family_network, prefix_mask. Qed.

Lemma contains_self a p : contains (a, p) a = true.
Proof. unfold contains. simpl. rewrite Z.eqb_refl. by destruct a. Qed.

(** A shorter prefix contains an address that a longer one does not. *)
Lemma escape b p q : address_ok b -> 0 <= p < q -> q <= width b ->
  exists x, address_ok x /\ contains (b, p) x = true /\ contains (b, q) x = false.
Proof.
  intros Hb Hp Hq. set (w := width b) in *. set (m := prefix_bits b q).
  set (m' := if Z.even m then m + 1 else m - 1).
  assert (Hw : 0 < 2 ^ (w - q)) by (apply Z.pow_pos_nonneg; lia).
  assert (Hm : 0 <= m < 2 ^ q).
  { unfold m, prefix_bits. fold w. unfold address_ok in Hb. fold w in Hb.
    split; [apply Z.div_pos; lia|]. apply Z.div_lt_upper_bound; [lia|].
    rewrite <- Z.pow_add_r by lia. replace (w - q + q) with w by lia. apply Hb. }
  assert (Hhalf : m' / 2 = m / 2 /\ m' <> m /\ 0 <= m' < 2 ^ q).
  { assert (E2 : 2 ^ q = 2 * 2 ^ (q - 1)) by (rewrite <- Z.pow_succ_r by lia; f_equal; lia).
    assert (0 < 2 ^ (q - 1)) by (apply Z.pow_pos_nonneg; lia).
    unfold m'. destruct (Z.even m) eqn:Ev.
    - apply Z.even_spec in Ev as [c Ev]. rewrite Ev in *. split; [|lia]. Z.div_mod_to_equations; lia.
    - assert (Z.odd m = true) as Ho by (rewrite <- Z.negb_even, Ev; done). apply Z.odd_spec in Ho as [c Ho].
      rewrite Ho in *. split; [|lia]. Z.div_mod_to_equations; lia. }
  destruct Hhalf as (Hdiv & Hne & Hrange).
  exists (with_bits b (m' * 2 ^ (w - q))).
  assert (Hwx : width (with_bits b (m' * 2 ^ (w - q))) = w) by by destruct b.
  assert (Hbx : bits (with_bits b (m' * 2 ^ (w - q))) = m' * 2 ^ (w - q)) by by destruct b.
  assert (Hfam : same_family b (with_bits b (m' * 2 ^ (w - q))) = true) by by destruct b.
  split; [|split].
  - unfold address_ok. rewrite Hwx, Hbx.
    assert (2 ^ w = 2 ^ q * 2 ^ (w - q)) as -> by (rewrite <- Z.pow_add_r by lia; f_equal; lia). nia.
  - unfold contains. cbn [fst snd]. rewrite Hfam. apply Z.eqb_eq. unfold prefix_bits. rewrite Hwx, Hbx. fold w.
    assert (forall n, n / 2 ^ (w - p) = n / 2 ^ (w - q) / 2 / 2 ^ (q - p - 1)) as Hsplit.
    { intros n. assert (0 < 2 ^ (q - p - 1)) by (apply Z.pow_pos_nonneg; lia).
      assert (2 ^ (w - p) = 2 ^ (w - q) * (2 * 2 ^ (q - p - 1))) as ->
        by (rewrite <- Z.pow_succ_r, <- Z.pow_add_r by lia; f_equal; lia).
      rewrite <- (Z.div_div n (2 ^ (w - q))) by lia. rewrite <- (Z.div_div _ 2) by lia. done. }
    rewrite !Hsplit, Z.div_mul by lia. fold (prefix_bits b q). rewrite Hdiv. done.
  - unfold contains. cbn [fst snd]. rewrite Hfam. apply Z.eqb_neq. unfold prefix_bits. rewrite Hwx, Hbx. fold w.
    rewrite Z.div_mul by lia. done.
Qed.

(** Networks of one family with the same addresses are the same network. *)
Lemma contains_ext b p c q : network_ok (b, p) -> network_ok (c, q) ->
  (forall x, address_ok x -> contains (b, p) x = contains (c, q) x) -> (b, p) = (c, q).
Proof.
  intros (Hb & Hp & Hbm) (Hc & Hq & Hcm) Hext. cbn [fst snd] in *.
  assert (Hfam : same_family b c = true).
  { pose proof (Hext c Hc) as E. rewrite contains_self in E. unfold contains in E. cbn [fst snd] in E. by boolify. }
  assert (Hw : width b = width c) by by destruct b, c.
  assert (Heq : p = q).
  { destruct (Z.lt_trichotomy p q) as [Hlt|[?|Hlt]]; [|done|]; exfalso.
    - destruct (escape c p q Hc ltac:(lia) ltac:(lia)) as (x & Hx & H1 & H2).
      rewrite <- Hext in H2 by done. pose proof (Hext c Hc) as E. rewrite contains_self in E.
      unfold contains in H1, H2, E. cbn [fst snd] in *. boolify.
      assert (same_family b x = true) as Hbx by (destruct b, c, x; done). rewrite Hbx in H2. simpl in H2. boolify. congruence.
    - destruct (escape b q p Hb ltac:(lia) ltac:(lia)) as (x & Hx & H1 & H2).
      rewrite Hext in H2 by done. pose proof (Hext b Hb) as E. rewrite contains_self in E. symmetry in E.
      unfold contains in H1, H2, E. cbn [fst snd] in *. boolify.
      assert (same_family c x = true) as Hcx by (destruct b, c, x; done). rewrite Hcx in H2. simpl in H2. boolify. congruence. }
  subst q. f_equal. pose proof (Hext c Hc) as E. rewrite contains_self in E. unfold contains in E. cbn [fst snd] in E. boolify.
  rewrite <- Hbm, <- Hcm. unfold network_address. rewrite Hw. destruct b, c; simpl in *; congruence.
Qed.

(** ** Text *)

Lemma drop_end_id q s : all_chars (fun c => negb (q c)) s = true -> drop_while_end q s = s.
Proof.
  induction s as [|c s IH]; [done|]. simpl. intros Hs. apply andb_true_iff in Hs as [Hc Hs].
  rewrite (IH Hs). apply negb_true_iff in Hc. rewrite Hc. by destruct s.
Qed.

Lemma trim_id s : all_chars (fun c => negb (is_space c)) s = true -> trim s = s.
Proof.
  intros Hs. unfold trim. rewrite <- (drop_end_id is_space s Hs) at 2. f_equal.
  destruct s as [|c s]; [done|]. simpl in *. apply andb_true_iff in Hs as [Hc _]. apply negb_true_iff in Hc. by rewrite Hc.
Qed.

Lemma addr_char_plain c : addr_char c = true ->
  is_space c = false /\ Ascii.eqb "/" c = false /\ Ascii.eqb "#" c = false /\ Ascii.eqb "%" c = false.
Proof. destruct c as [[] [] [] [] [] [] [] []]; by vm_compute. Qed.

Lemma digit_addr c : is_digit c = true -> addr_char c = true.
Proof. unfold addr_char, is_hex, is_hex_lower. by intros ->. Qed.

Lemma addr_no c s : all_chars addr_char s = true -> addr_char c = false -> has_char c s = false.
Proof. intros Hs Hc. by eapply all_chars_no. Qed.

(** Prefix lengths print without leading zeros. *)
Lemma plain_show n : 0 <= n <= 128 -> plain_number (show_Z n) = true.
Proof.
  intros Hn. assert (forallb (fun i => plain_number (show_Z (Z.of_nat i))) (seq 0 129) = true) as Hall by by vm_compute.
  rewrite forallb_forall in Hall. rewrite <- (Z2Nat.id n) by lia. apply Hall, in_seq. lia.
Qed.

Lemma read_digits_nonneg acc s : 0 <= acc -> all_chars is_digit s = true -> 0 <= read_digits acc s.
Proof.
  revert acc. induction s as [|c s IH]; intros acc Ha Hs; [done|]. simpl in *. apply andb_true_iff in Hs as [Hc Hs].
  apply IH; [|done]. unfold is_digit, in_range in Hc. boolify. unfold digit_value. lia.
Qed.

Lemma plain_nonneg s : plain_number s = true -> 0 <= read_Z s.
Proof.
  intros Hp. apply read_digits_nonneg; [done|]. destruct s as [|c rest]; [done|]. simpl in *.
  destruct (Ascii.eqb c "0") eqn:E; [|done]. apply Ascii.eqb_eq in E as ->. by apply String.eqb_eq in Hp as ->.
Qed.

(** ** The normal form of a rule *)

Section Canonical.
Context `{IpLaws}.

(** The rule as text: a single address has no prefix. *)
Definition show_net (net : network) : string :=
  if snd net =? width (fst net) then ip_toString (fst net)
  else (ip_toString (fst net) ++ "/" ++ show_Z (snd net))%string.

(** The network a text stands for, in the tree Nginx looks it up in. *)
Definition rule_network (s : string) : network :=
  let parts := split_on "/" (trim s) in
  let a := ip_parse (hd "" parts) in
  let p := match parts with [_; suffix] => read_Z suffix | _ => width a end in
  if is_mapped a then (unmapped a, p - 96) else (a, p).

Definition canonical_net (net : network) : network := (network_address (fst net) (snd net), snd net).

Lemma mapped_width a : is_mapped a = true -> width a = 128 /\ 0 <= bits a.
Proof.
  destruct a as [n|n]; simpl; [done|]. intros Hm. apply Z.eqb_eq in Hm. split; [done|].
  destruct (Z_lt_le_dec n 0) as [Hn|]; [|done]. pose proof (Z.div_lt_upper_bound n (2 ^ 32) 0 ltac:(lia) ltac:(lia)). lia.
Qed.

Lemma unmapped_ok a : address_ok (unmapped a).
Proof. unfold address_ok, unmapped. simpl. apply Z.mod_pos_bound. lia. Qed.

(** Masking never turns an address into a mapped one. *)
Lemma mask_not_mapped a p : is_mapped a = false -> 0 <= p <= width a -> is_mapped (network_address a p) = false.
Proof.
  destruct a as [n|n]; simpl; [done|]. intros Hm Hp. apply Z.eqb_neq in Hm. apply Z.eqb_neq.
  unfold prefix_bits. simpl. destruct (Z_le_gt_dec 96 p) as [Hge|Hlt].
  - intros E. apply Hm. rewrite <- E.
    assert (0 < 2 ^ (128 - p)) by (apply Z.pow_pos_nonneg; lia). assert (0 < 2 ^ (p - 96)) by (apply Z.pow_pos_nonneg; lia).
    assert (2 ^ 32 = 2 ^ (128 - p) * 2 ^ (p - 96)) as -> by (rewrite <- Z.pow_add_r by lia; f_equal; lia).
    rewrite <- !Z.div_div by lia. by rewrite Z.div_mul by lia.
  - assert (0 < 2 ^ (95 - p)) by (apply Z.pow_pos_nonneg; lia).
    assert (2 ^ (128 - p) = (2 ^ (95 - p) * 2) * 2 ^ 32) as E.
    { rewrite <- Z.mul_assoc, <- (Z.pow_succ_r 2 32), <- Z.pow_add_r by lia. f_equal. lia. }
    set (k := n / 2 ^ (128 - p)). rewrite E, Z.mul_assoc, Z.div_mul by lia. intros Hk.
    assert (65535 = 2 * (k * 2 ^ (95 - p))) by lia. lia.
Qed.

Lemma toString_chars a : address_ok a -> ip_toString a <> "" /\ all_chars addr_char (ip_toString a) = true.
Proof. intros Ha. destruct (isIP_toString a Ha). by apply isIP_chars. Qed.

(** What splits off at the slash. *)
Lemma split_rule h s : has_char "/" h = false -> has_char "/" s = false ->
  split_on "/" h = [h] /\ split_on "/" (h ++ "/" ++ s) = [h; s].
Proof.
  intros Hh Hs. split; [by apply split_on_single|]. change (h ++ "/" ++ s)%string with (h ++ String "/" s)%string.
  rewrite split_on_append by done. by rewrite split_on_single.
Qed.

Lemma show_net_parts b p : address_ok b -> 0 <= p <= 128 ->
  split_on "/" (trim (show_net (b, p))) =
    (if p =? width b then [ip_toString b] else [ip_toString b; show_Z p]) /\ trim (show_net (b, p)) = show_net (b, p).
Proof.
  intros Hb Hp. destruct (toString_chars b Hb) as [_ Hc]. unfold show_net. cbn [fst snd].
  assert (Hslash : has_char "/" (ip_toString b) = false) by (by eapply addr_no).
  assert (Hd : all_chars is_digit (show_Z p) = true) by (apply show_Z_digits; lia).
  assert (Hds : has_char "/" (show_Z p) = false) by (by eapply all_chars_no).
  assert (Hplain : all_chars (fun c => negb (is_space c)) (ip_toString b) = true).
  { eapply all_chars_impl; [|exact Hc]. intros c Hcc. apply addr_char_plain in Hcc as (-> & _). done. }
  destruct (split_rule _ _ Hslash Hds) as [H1 H2].
  destruct (p =? width b).
  - rewrite trim_id by done. by rewrite H1.
  - rewrite trim_id; [by rewrite H2|]. rewrite !all_chars_append, Hplain. simpl.
    eapply all_chars_impl; [|exact Hd]. intros c Hcc%digit_addr. apply addr_char_plain in Hcc as (-> & _). done.
Qed.

Lemma family_width s : isIP s <> 0 -> has_char "%" s = false ->
  (if isIP s =? 4 then 32 else 128) = width (ip_parse s).
Proof. intros Hf Hz. destruct (isIP_parse s Hf Hz) as [_ ->]. by destruct (ip_parse s). Qed.

(** A successful normalisation prints the canonical network of the text. *)
Lemma normalize_spec s t : normalizeAddress (VStr s) = Ok t ->
  let net := rule_network s in
  address_ok (fst net) /\ 0 <= snd net <= width (fst net) /\ is_mapped (fst net) = false /\ t = show_net (canonical_net net).
Proof.
  unfold normalizeAddress, rule_network. set (parts := split_on "/" (trim s)). set (h := hd "" parts).
  rewrite mapped_spec. intros Hn. ok_inv Hn. apply orb_false_iff in G as [G Hlen]. apply orb_false_iff in G as [Gf Gz].
  apply Z.eqb_neq in Gf. destruct (isIP_parse h Gf Gz) as [Ha Hfam]. pose proof (family_width h Gf Gz) as Hw.
  set (a := ip_parse h) in *.
  assert (Hone : is_mapped a = true -> forall p, 96 <= p <= 128 ->
    address_ok (unmapped a) /\ 0 <= p - 96 <= width (unmapped a)) by (intros _ p Hp; split; [apply unmapped_ok|simpl; lia]).
  assert (Hsingle : match parts with [_; _] => False | _ => True end ->
    t = ip_toString (if is_mapped a then toIPv4Address a else a) ->
    let net := if is_mapped a then (unmapped a, width a - 96) else (a, width a) in
    address_ok (fst net) /\ 0 <= snd net <= width (fst net) /\ is_mapped (fst net) = false /\ t = show_net (canonical_net net)).
  { intros _ ->. destruct (is_mapped a) eqn:Em; simpl.
    - destruct (mapped_width _ Em) as [Hwa _]. rewrite Hwa. destruct (Hone eq_refl 128 ltac:(lia)) as [H1 H2].
      split; [done|]. split; [simpl; lia|]. split; [done|]. rewrite toIPv4_spec by done.
      unfold canonical_net, show_net. cbn [fst snd]. change (128 - 96) with (width (unmapped a)).
      by rewrite network_full, Z.eqb_refl.
    - split; [done|]. split; [destruct a; simpl; lia|]. split; [done|].
      unfold canonical_net, show_net. cbn [fst snd]. by rewrite network_full, Z.eqb_refl. }
  destruct parts as [|w0 [|w1 [|w2 rest]]]; try (by apply Hsingle; [done|congruence]).
  clear Hsingle. ok_inv Hn. apply orb_false_iff in G as [Gp Gm]. apply negb_false_iff in Gp. apply Z.ltb_ge in Gm.
  pose proof (plain_nonneg _ Gp) as Hp0. rewrite Hw in *. set (p := read_Z w1) in *.
  destruct (is_mapped a) eqn:Em.
  - ok_inv Hn. apply Z.ltb_ge in G. destruct (mapped_width _ Em) as [Hwa _]. rewrite Hwa in *.
    destruct (Hone eq_refl p ltac:(lia)) as [H1 H2]. cbn [fst snd]. split; [done|]. split; [done|]. split; [done|].
    rewrite toIPv4_spec in Hn by done. destruct (isIP_toString _ H1) as [Hi Hz].
    unfold canonical_net, show_net. cbn [fst snd]. rewrite width_network. change (width (unmapped a)) with 32 in *.
    destruct (p - 96 =? 32) eqn:Ep; rewrite ?Ep in Hn.
    + apply Z.eqb_eq in Ep. rewrite Ep. change 32 with (width (unmapped a)). rewrite network_full. congruence.
    + change (String "/" (show_Z (p - 96))) with ("/" ++ show_Z (p - 96))%string in Hn.
      rewrite network_spec in Hn by (try done; rewrite parse_toString by done; simpl; lia).
      rewrite parse_toString in Hn by done. congruence.
  - cbn [fst snd]. split; [done|]. split; [lia|]. split; [done|].
    unfold canonical_net, show_net. cbn [fst snd]. rewrite width_network.
    destruct (p =? width a) eqn:Ep; rewrite ?Ep in Hn.
    + apply Z.eqb_eq in Ep. rewrite Ep, network_full. congruence.
    + change (String "/" (show_Z p)) with ("/" ++ show_Z p)%string in Hn.
      rewrite network_spec in Hn by (try done; fold a; lia). fold a in Hn. congruence.
Qed.

(** A printed network is its own normal form. *)
Lemma normalize_show b p : network_ok (b, p) -> is_mapped b = false ->
  normalizeAddress (VStr (show_net (b, p))) = Ok (show_net (b, p)) /\ rule_network (show_net (b, p)) = (b, p).
Proof.
  intros (Hb & Hp & Hm) Hnm. cbn [fst snd] in *. assert (Hp' : 0 <= p <= 128) by (destruct b; simpl in *; lia).
  destruct (show_net_parts b p Hb Hp') as [Hs _]. destruct (isIP_toString b Hb) as [Hi Hz].
  pose proof (family_width _ Hi Hz) as Hw. rewrite parse_toString in Hw by done.
  unfold normalizeAddress, rule_network. rewrite Hs.
  assert (Hrange : forall q, (width b <? q) = false <-> q <= width b) by (intros; apply Z.ltb_ge).
  destruct (p =? width b) eqn:Ep; cbn [hd length]; rewrite parse_toString, Hz, Hnm by done;
    apply Z.eqb_neq in Hi as ->; cbn [orb Nat.ltb Nat.leb throw_if rbind].
  - apply Z.eqb_eq in Ep as ->. unfold show_net. cbn [fst snd]. rewrite Z.eqb_refl, mapped_spec, Hnm. done.
  - rewrite mapped_spec, Hnm, plain_show, read_show, Hw by lia. rewrite (proj2 (Hrange p)) by lia.
    cbn [negb orb throw_if rbind]. rewrite Ep. split; [|done]. unfold show_net. cbn [fst snd]. rewrite Ep.
    apply Z.eqb_neq in Ep. rewrite network_spec, parse_toString, Hm by (rewrite ?parse_toString by done; done || (apply isIP_toString; done)).
    done.
Qed.

(** What a successful normalisation tells, without its text. *)
Lemma normal_rule s t : normalizeAddress (VStr s) = Ok t ->
  exists net, network_ok net /\ is_mapped (fst net) = false /\ t = show_net net /\ rule_network t = net /\
    normalizeAddress (VStr t) = Ok t /\ forall x, contains (rule_network s) x = contains net x.
Proof.
  intros Hn. destruct (normalize_spec _ _ Hn) as (Ha & Hp & Hm & ->).
  destruct (rule_network s) as [a p] eqn:Er. unfold canonical_net. cbn [fst snd] in *.
  exists (network_address a p, p). pose proof (network_masked a p Ha Hp) as Hok.
  assert (Hnm : is_mapped (network_address a p) = false) by by apply mask_not_mapped.
  destruct (normalize_show _ _ Hok Hnm) as [H1 H2].
  split; [done|]. split; [done|]. split; [done|]. split; [done|]. split; [done|].
  intros x. symmetry. by apply contains_masked.
Qed.

(** C22: the normal form of a firewall rule is canonical.  It is its own normal
    form, it stands for the same network as the text (an IPv4-mapped network
    for its IPv4 network), and two rules get the same normal form exactly when
    they match the same addresses. *)
Theorem normal_form_is_canonical s s' t t' :
  normalizeAddress (VStr s) = Ok t -> normalizeAddress (VStr s') = Ok t' ->
  normalizeAddress (VStr t) = Ok t /\
  (forall x, contains (rule_network t) x = contains (rule_network s) x) /\
  (t = t' <-> forall x, address_ok x -> contains (rule_network s) x = contains (rule_network s') x).
Proof.
  intros Hs Hs'. destruct (normal_rule _ _ Hs) as ([b p] & Hok & _ & Ht & Hr & Hi & Hc).
  destruct (normal_rule _ _ Hs') as ([b' p'] & Hok' & _ & Ht' & Hr' & _ & Hc').
  split; [done|]. split; [intros x; by rewrite Hr, Hc|]. split.
  - intros E x Hx. rewrite Hc, Hc'. congruence.
  - intros E. assert ((b, p) = (b', p')) as En; [|congruence].
    apply contains_ext; [done..|]. intros x Hx. by rewrite <- Hc, <- Hc', E.
Qed.

(** ** Lists *)

Record list_ok (acc : ip_list) : Prop := {
  lo_distinct : NoDup (il_entries acc);
  lo_normal : Forall (fun e => normalizeAddress (VStr e) = Ok e /\ exists net, network_ok net /\ e = show_net net) (il_entries acc)
}.

Lemma scan_line_ok acc i line : list_ok acc -> list_ok (scan_line acc i line).
Proof.
  intros [Hd Hn]. unfold scan_line. split_if; [done|].
  destruct (normalizeAddress _) as [n|] eqn:E; [|by split].
  split_if; [by split|]. split; simpl.
  - apply NoDup_app. split; [done|]. split; [|apply NoDup_singleton].
    intros x Hx ->%list_elem_of_singleton. apply list_elem_of_In in Hx.
    assert (existsb (String.eqb n) (il_entries acc) = true); [|congruence].
    apply existsb_exists. exists n. by rewrite String.eqb_refl.
  - apply Forall_app. split; [done|]. constructor; [|constructor].
    destruct (normal_rule _ _ E) as (net & ? & _ & ? & _ & ? & _). split; [done|]. by exists net.
Qed.

Lemma scan_lines_ok lines : forall acc i, list_ok acc -> list_ok (scan_lines acc i lines).
Proof. induction lines as [|l ls IH]; intros acc i Ha; [done|]. simpl. apply IH. by apply scan_line_ok. Qed.

(** No line is lost: each is blank, an entry, a duplicate or invalid. *)
Definition blank_line (line : string) : bool := String.eqb (line_value line) "".
Definition counted (acc : ip_list) : Z :=
  Z.of_nat (length (il_entries acc)) + il_duplicates acc + Z.of_nat (length (il_invalid acc)).

Lemma scan_counts lines : forall acc i,
  counted (scan_lines acc i lines) = counted acc + Z.of_nat (length (List.filter (fun l => negb (blank_line l)) lines)).
Proof.
  induction lines as [|l ls IH]; intros acc i; simpl; [lia|]. rewrite IH. unfold scan_line, blank_line.
  destruct (String.eqb (line_value l) ""); simpl; [done|].
  destruct (normalizeAddress (VStr (line_value l))) as [n|]; [split_if|]; unfold counted; simpl; rewrite ?length_app; simpl; lia.
Qed.

Lemma scan_duplicates lines : forall acc i, 0 <= il_duplicates acc -> 0 <= il_duplicates (scan_lines acc i lines).
Proof.
  induction lines as [|l ls IH]; intros acc i Ha; simpl; [done|]. apply IH. unfold scan_line.
  split_if; [done|]. destruct (normalizeAddress _) as [n|]; [split_if|]; simpl; lia.
Qed.

Lemma entry_line e net : network_ok net -> e = show_net net ->
  single_line e /\ has_char (ascii_of_nat 13) e = false /\ line_value e = e /\ e <> "".
Proof.
  destruct net as [b p]. intros (Hb & Hp & _) ->. cbn [fst snd] in *.
  assert (Hp' : 0 <= p <= 128) by (destruct b; simpl in *; lia).
  destruct (toString_chars b Hb) as [Hne Hc]. destruct (show_net_parts b p Hb Hp') as [_ Htrim].
  assert (Hall : all_chars (fun c => addr_char c || Ascii.eqb "/" c) (show_net (b, p)) = true).
  { unfold show_net. cbn [fst snd]. assert (H1 : all_chars (fun c => addr_char c || Ascii.eqb "/" c) (ip_toString b) = true).
    { eapply all_chars_impl; [|exact Hc]. by intros c ->. }
    destruct (p =? width b); [done|]. rewrite !all_chars_append, H1. simpl.
    eapply all_chars_impl; [|apply show_Z_digits; lia]. intros c Hd%digit_addr. by rewrite Hd. }
  assert (Hno : forall c, (addr_char c || Ascii.eqb "/" c) = false -> has_char c (show_net (b, p)) = false)
    by (intros; by eapply all_chars_no).
  split; [by apply Hno|]. split; [by apply Hno|]. split.
  - unfold line_value. rewrite split_on_single by by apply Hno. done.
  - unfold show_net. cbn [fst snd]. destruct (p =? width b); [done|]. by destruct (ip_toString b).
Qed.

Lemma newline_code c : Ascii.eqb (ascii_of_nat 10) c = false -> (code c =? 10) = false.
Proof. destruct c as [[] [] [] [] [] [] [] []]; by vm_compute. Qed.
Lemma return_code c : Ascii.eqb (ascii_of_nat 13) c = false -> (code c =? 13) = false.
Proof. destruct c as [[] [] [] [] [] [] [] []]; by vm_compute. Qed.

(** A line without a break of its own. *)
Lemma split_lines_line l rest : single_line l -> has_char (ascii_of_nat 13) l = false ->
  split_lines l = [l] /\ split_lines (l ++ LF ++ rest) = l :: split_lines rest.
Proof.
  induction l as [|c l IH]; [done|]. unfold single_line in *. rewrite !has_char_cons. intros Hl Hr.
  apply orb_false_iff in Hl as [Hc%newline_code Hl]. apply orb_false_iff in Hr as [Hc'%return_code Hr].
  destruct (IH Hl Hr) as [H1 H2]. simpl in *. by rewrite Hc, Hc', H1, H2.
Qed.

Lemma split_lines_join es : es <> [] ->
  Forall (fun e => single_line e /\ has_char (ascii_of_nat 13) e = false) es -> split_lines (join LF es) = es.
Proof.
  induction es as [|e es IH]; [done|]. intros _ Hall. inversion Hall as [|? ? [Hl Hr] Hes]; subst.
  destruct es as [|e' es]; [exact (proj1 (split_lines_line e "" Hl Hr))|].
  change (join LF (e :: e' :: es)) with (e ++ LF ++ join LF (e' :: es))%string.
  rewrite (proj2 (split_lines_line e _ Hl Hr)). f_equal. by apply IH.
Qed.

(** Scanning distinct normal forms collects them all. *)
Lemma scan_normal es : forall acc i,
  NoDup (il_entries acc ++ es) -> Forall (fun e => normalizeAddress (VStr e) = Ok e /\ line_value e = e /\ e <> "") es ->
  scan_lines acc i es = MkIpList (il_entries acc ++ es) (il_duplicates acc) (il_invalid acc) (il_total acc).
Proof.
  induction es as [|e es IH]; intros acc i Hd Hall; simpl.
  - rewrite app_nil_r. by destruct acc.
  - inversion Hall as [|? ? (He & Hv & Hne) Hes]; subst. unfold scan_line. rewrite Hv.
    apply String.eqb_neq in Hne as ->. rewrite He.
    assert (existsb (String.eqb e) (il_entries acc) = false) as ->.
    { destruct (existsb _ _) eqn:E; [|done]. apply existsb_exists in E as (x & Hx & ->%String.eqb_eq).
      apply NoDup_app in Hd as (_ & Hd & _). destruct (Hd x); [by apply list_elem_of_In|by left]. }
    rewrite IH; simpl; rewrite <- ?app_assoc; done.
Qed.

(** What a parse collects: distinct normal forms, no more than there are lines. *)
Lemma parse_collects content r : parseIpList (VStr content) = Ok r ->
  list_ok r /\ il_total r = Z.of_nat (length (pop_blank (split_lines content))) /\ il_total r <= MAX_LIST_LINES /\
  0 <= il_duplicates r /\
  Z.of_nat (length (List.filter (fun l => negb (blank_line l)) (pop_blank (split_lines content))))
    = Z.of_nat (length (il_entries r)) + il_duplicates r + Z.of_nat (length (il_invalid r)).
Proof.
  unfold parseIpList. intros Hp. ok_inv Hp. ok_inv Hp. injection Hp as <-.
  set (lines := pop_blank (split_lines content)) in *. set (acc := MkIpList [] 0 [] _).
  apply Z.ltb_ge in G0. pose proof (scan_counts lines acc 0) as Hcount. unfold counted in Hcount at 2. simpl in Hcount.
  assert (Htot : forall ls a i, il_total (scan_lines a i ls) = il_total a).
  { induction ls as [|l ls IH]; intros a i; [done|]. simpl. rewrite IH. unfold scan_line. split_if; [done|].
    destruct (normalizeAddress _); [by split_if|done]. }
  split_and!; [apply scan_lines_ok; split; constructor|by rewrite Htot|by rewrite Htot|by apply scan_duplicates|].
  unfold counted in Hcount. lia.
Qed.

Lemma parse_entries_bound content r : parseIpList (VStr content) = Ok r ->
  Z.of_nat (length (il_entries r)) <= MAX_LIST_LINES.
Proof.
  intros (_ & Htot & Hmax & Hdup & Hcount)%parse_collects.
  pose proof (List.filter_length_le (fun l => negb (blank_line l)) (pop_blank (split_lines content))). lia.
Qed.

(** Distinct normal forms, one to a line, parse to themselves. *)
Lemma parse_normal es : NoDup es -> Forall (fun e => normalizeAddress (VStr e) = Ok e) es ->
  Z.of_nat (length es) <= MAX_LIST_LINES -> utf8_length (join LF es) <= MAX_LIST_BYTES ->
  parseIpList (VStr (join LF es)) = Ok (MkIpList es 0 [] (Z.of_nat (length es))).
Proof.
  intros Hd Hn Hcnt Hsize.
  assert (Hlines : Forall (fun e => (single_line e /\ has_char (ascii_of_nat 13) e = false) /\
     normalizeAddress (VStr e) = Ok e /\ line_value e = e /\ e <> "") es).
  { eapply Forall_impl; [exact Hn|]. intros e He. destruct (normal_rule e e He) as (net & Hnet & _ & Hshow & _).
    destruct (entry_line _ _ Hnet Hshow) as (? & ? & ? & ?). done. }
  apply Forall_and in Hlines as [Hl1 Hl2]. unfold parseIpList. apply Z.ltb_ge in Hsize. rewrite Hsize. simpl.
  assert (Hpop : pop_blank (split_lines (join LF es)) = es).
  { destruct es as [|e es]; [done|]. rewrite split_lines_join by done. unfold pop_blank.
    destruct (list.last (e :: es)) as [l|] eqn:El; [|done].
    assert (l ∈ e :: es) as Hin by (apply last_Some in El as [l' ->]; set_solver).
    rewrite Forall_forall in Hl2. destruct (Hl2 _ Hin) as (_ & _ & Hne). by apply String.eqb_neq in Hne as ->. }
  rewrite Hpop. apply Z.ltb_ge in Hcnt. rewrite Hcnt. simpl. by rewrite scan_normal.
Qed.

(** a stored list is read back exactly.  The entries of a parsed list are
    distinct normal forms, every line is accounted for (blank, entry,
    duplicate or invalid), and the entries, joined line by line as they are
    stored, parse to the same entries without duplicates or errors. *)
Theorem stored_list_is_read_back content r :
  parseIpList (VStr content) = Ok r ->
  utf8_length (join LF (il_entries r)) <= MAX_LIST_BYTES ->
  NoDup (il_entries r) /\ Forall (fun e => normalizeAddress (VStr e) = Ok e) (il_entries r) /\
  Z.of_nat (length (List.filter (fun l => negb (blank_line l)) (pop_blank (split_lines content))))
    = Z.of_nat (length (il_entries r)) + il_duplicates r + Z.of_nat (length (il_invalid r)) /\
  parseIpList (VStr (join LF (il_entries r)))
    = Ok (MkIpList (il_entries r) 0 [] (Z.of_nat (length (il_entries r)))).
Proof.
  intros Hp Hsize. pose proof (parse_entries_bound _ _ Hp) as Hb. apply parse_collects in Hp as ([Hd Hn] & _ & _ & _ & Hcount).
  assert (Forall (fun e => normalizeAddress (VStr e) = Ok e) (il_entries r)) as Hn'
    by (eapply Forall_impl; [exact Hn|by intros e [? _]]).
  split; [done|]. split; [done|]. split; [done|]. by apply parse_normal.
Qed.
End Canonical.

(** ** A concrete library: dotted quads, and IPv6 values as one numeral *)

Definition toy_octet (s : string) : option Z :=
  let n := read_Z s in
  if String.eqb (show_Z n) s && (0 <=? n) && (n <? 256) then Some n else None.

Definition toy_parse4 (s : string) : option Z :=
  match map toy_octet (split_on "." s) with
  | [Some a; Some b; Some c; Some d] => Some (((a * 256 + b) * 256 + c) * 256 + d)
  | _ => None
  end.

Definition toy_parse6 (s : string) : option Z :=
  let n := read_Z (drop_str 1 s) in
  if String.eqb (String ":" (show_Z n)) s && (0 <=? n) && (n <? 2 ^ 128) then Some n else None.

Definition toy_parse (s : string) : address :=
  match toy_parse4 s with Some n => V4 n | None => V6 (default 0 (toy_parse6 s)) end.

Definition toy_show (a : address) : string :=
  match a with
  | V4 n => join "." (map show_Z (bytes_of 4 n))
  | V6 n => String ":" (show_Z n)
  end.

Definition toy_cidr (s : string) : address * Z :=
  match split_on "/" s with [a; p] => (toy_parse a, read_Z p) | _ => (V4 0, 0) end.

Definition unbytes (bs : list Z) : Z := fold_left (fun acc b => acc * 256 + b) bs 0.

#[global] Instance toy_ip : IpLib := {|
  isIP s := match toy_parse4 s, toy_parse6 s with Some _, _ => 4 | None, Some _ => 6 | None, None => 0 end;
  ip_parse := toy_parse;
  ip_toString := toy_show;
  isIPv4MappedAddress := is_mapped;
  toIPv4Address := unmapped;
  networkAddressFromCIDR s := network_address (fst (toy_cidr s)) (snd (toy_cidr s));
  ip_parseCIDR := toy_cidr;
  toByteArray a := bytes_of (Z.to_nat (width a / 8)) (bits a);
  fromByteArray bs := if Nat.eqb (length bs) 4 then V4 (unbytes bs) else V6 (unbytes bs)
|}.

Lemma toy_octet_some s n : toy_octet s = Some n -> s = show_Z n /\ 0 <= n < 256.
Proof. unfold toy_octet. split_if; [|done]. intros [= <-]. boolify. split; [done|lia]. Qed.

Lemma toy_octet_show n : 0 <= n < 256 -> toy_octet (show_Z n) = Some n.
Proof.
  intros Hn. unfold toy_octet. rewrite read_show, String.eqb_refl by lia. simpl.
  destruct (0 <=? n) eqn:E1; [|boolify; lia]. by destruct (n <? 256) eqn:E2; [|boolify; lia].
Qed.

Lemma digits_addr n : 0 <= n -> all_chars addr_char (show_Z n) = true.
Proof. intros Hn. eapply all_chars_impl; [|by apply show_Z_digits]. apply digit_addr. Qed.

Lemma toy_parse4_some s n : toy_parse4 s = Some n -> 0 <= n < 2 ^ 32 /\ s <> "" /\ all_chars addr_char s = true.
Proof.
  unfold toy_parse4. intros Hp. pose proof (join_split "."%char s) as Hj.
  destruct (split_on "." s) as [|x [|y [|z [|w [|]]]]]; simpl in Hp; try done; repeat case_match; try done.
  injection Hp as <-.
  repeat match goal with H : toy_octet _ = Some _ |- _ => apply toy_octet_some in H as [-> ?] end.
  split; [lia|]. rewrite <- Hj. simpl. split; [by destruct (show_Z _)|].
  rewrite !all_chars_append. simpl. rewrite !all_chars_append. simpl. rewrite !all_chars_append. simpl.
  by rewrite !digits_addr by lia.
Qed.

Lemma toy_parse6_some s n : toy_parse6 s = Some n -> s = String ":" (show_Z n) /\ 0 <= n < 2 ^ 128.
Proof. unfold toy_parse6. split_if; [|done]. intros [= <-]. boolify. split; [done|]. change (0 <= read_Z (drop_str 1 s) < 2 ^ 128). lia. Qed.

Lemma toy_parse6_show n : 0 <= n < 2 ^ 128 -> toy_parse6 (toy_show (V6 n)) = Some n.
Proof.
  intros Hn. unfold toy_parse6, toy_show. simpl drop_str. rewrite read_show, String.eqb_refl by lia.
  destruct (0 <=? n) eqn:E1; [|boolify; lia]. by destruct (n <? 2 ^ 128) eqn:E2; [|boolify; lia].
Qed.

Lemma bytes4 n : bytes_of 4 n = [n / 2 ^ 24 mod 256; n / 2 ^ 16 mod 256; n / 2 ^ 8 mod 256; n / 2 ^ 0 mod 256].
Proof. done. Qed.

Lemma unbytes_snoc bs b : unbytes (bs ++ [b]) = unbytes bs * 256 + b.
Proof. unfold unbytes. by rewrite fold_left_app. Qed.

Lemma bytes_snoc k n : bytes_of (S k) n = bytes_of k (n / 256) ++ [n mod 256].
Proof.
  unfold bytes_of. rewrite seq_S, map_app. simpl map at 2. f_equal.
  - apply map_ext_in. intros i Hi%in_seq. assert (0 < 2 ^ (8 * (Z.of_nat k - 1 - Z.of_nat i))) by (apply Z.pow_pos_nonneg; lia).
    rewrite Z.div_div by lia. do 2 f_equal. change 256 with (2 ^ 8). rewrite <- Z.pow_add_r by lia. f_equal. lia.
  - f_equal. replace (8 * _) with 0 by lia. by rewrite Z.div_1_r.
Qed.

Lemma unbytes_bytes k n : 0 <= n < 256 ^ Z.of_nat k -> unbytes (bytes_of k n) = n.
Proof.
  revert n. induction k as [|k IH]; intros n Hn; [simpl in *; unfold unbytes; simpl; lia|].
  rewrite bytes_snoc, unbytes_snoc, IH; [Z.div_mod_to_equations; lia|].
  rewrite Nat2Z.inj_succ, Z.pow_succ_r in Hn by lia. split; [Z.div_mod_to_equations; lia|].
  apply Z.div_lt_upper_bound; lia.
Qed.

Lemma toy_parse4_show n : 0 <= n < 2 ^ 32 -> toy_parse4 (toy_show (V4 n)) = Some n.
Proof.
  intros Hn. unfold toy_parse4, toy_show. rewrite bytes4. simpl map at 2.
  change (join ".") with (join (String "." "")). rewrite split_join.
  - simpl. rewrite !toy_octet_show by (apply Z.mod_pos_bound; lia). f_equal. by apply (unbytes_bytes 4).
  - done.
  - repeat constructor; (eapply all_chars_no; [apply show_Z_digits, Z.mod_pos_bound; lia|done]).
Qed.

Lemma toy_parse4_v6 n : 0 <= n -> toy_parse4 (toy_show (V6 n)) = None.
Proof.
  intros Hn. unfold toy_parse4, toy_show. rewrite split_on_single; [simpl; by destruct (toy_octet _)|].
  rewrite has_char_cons. simpl. eapply all_chars_no; [by apply show_Z_digits|done].
Qed.

#[global] Instance toy_laws : IpLaws.
Proof.
  assert (Hshow : forall a, address_ok a -> toy_parse (toy_show a) = a /\ toy_show a <> "" /\ all_chars addr_char (toy_show a) = true).
  { intros [n|n] Ha; unfold address_ok in Ha; simpl in Ha; unfold toy_parse.
    - rewrite toy_parse4_show by done. destruct (toy_parse4_some _ _ (toy_parse4_show n Ha)) as (_ & ? & ?). done.
    - rewrite toy_parse4_v6, toy_parse6_show by lia. split; [done|]. simpl. by rewrite digits_addr by lia. }
  assert (Hcidr : forall s p, isIP s <> 0 -> has_char "%" s = false -> 0 <= p <= width (ip_parse s) ->
     toy_cidr (s ++ "/" ++ show_Z p) = (toy_parse s, p)).
  { intros s p Hs _ Hp. assert (all_chars addr_char s = true) as Hc.
    { simpl in Hs. destruct (toy_parse4 s) eqn:E4; [by apply toy_parse4_some in E4 as (_ & _ & ?)|].
      destruct (toy_parse6 s) eqn:E6; [|done]. apply toy_parse6_some in E6 as [-> ?]. simpl. by rewrite digits_addr by lia. }
    unfold toy_cidr. rewrite (proj2 (split_rule s (show_Z p) (addr_no "/" s Hc eq_refl)
      (all_chars_no "/" _ _ (show_Z_digits p ltac:(lia)) eq_refl))). by rewrite read_show by lia. }
  split.
  - intros s Hs _. simpl in *. unfold toy_parse. destruct (toy_parse4 s) eqn:E4.
    + apply toy_parse4_some in E4 as (? & _). done.
    + destruct (toy_parse6 s) eqn:E6; [|done]. apply toy_parse6_some in E6 as [_ ?]. done.
  - intros s Hs _. simpl in *. destruct (toy_parse4 s) eqn:E4; [by apply toy_parse4_some in E4 as (_ & ? & ?)|].
    destruct (toy_parse6 s) eqn:E6; [|done]. apply toy_parse6_some in E6 as [-> ?]. split; [done|]. simpl. by rewrite digits_addr by lia.
  - intros a Ha. split; [|eapply all_chars_no; [by apply Hshow|done]]. simpl.
    destruct a as [n|n]; unfold address_ok in Ha; simpl bits in Ha; simpl width in Ha;
      [by rewrite toy_parse4_show|by rewrite toy_parse4_v6, toy_parse6_show by lia].
  - intros a Ha. by apply Hshow.
  - done.
  - done.
  - intros s p Hs Hz Hp. set (t := (s ++ "/" ++ show_Z p)%string).
    change (network_address (fst (toy_cidr t)) (snd (toy_cidr t)) = network_address (ip_parse s) p).
    unfold t. by rewrite Hcidr.
  - intros s p Hs Hz Hp. by apply Hcidr.
  - done.
  - intros [n|n] Ha; unfold address_ok in Ha; cbn [width bits] in *.
    + change (Z.to_nat (32 / 8)) with 4%nat. unfold fromByteArray. cbn [toy_ip].
      change (length (bytes_of 4 n)) with 4%nat. simpl Nat.eqb. cbv iota. f_equal. apply unbytes_bytes. done.
    + change (Z.to_nat (128 / 8)) with 16%nat. unfold fromByteArray. cbn [toy_ip].
      change (length (bytes_of 16 n)) with 16%nat. simpl Nat.eqb. cbv iota. f_equal. apply unbytes_bytes. done.
Qed.

Lemma normal_form_witness :
  normalizeAddress (VStr " 10.1.2.3/8 ") = Ok "10.0.0.0/8" /\ normalizeAddress (VStr "10.200.0.1/8") = Ok "10.0.0.0/8" /\
  ("10.0.0.0/8" = "10.0.0.0/8" <->
   forall x, address_ok x -> contains (rule_network " 10.1.2.3/8 ") x = contains (rule_network "10.200.0.1/8") x).
Proof.
  split; [by vm_compute|]. split; [by vm_compute|].
  apply (normal_form_is_canonical " 10.1.2.3/8 " "10.200.0.1/8"); by vm_compute.
Defined.

Definition demo_lines : string := ("# office" ++ LF ++ "10.1.2.3/8" ++ LF ++ "192.168.0.7 # printer" ++ LF ++ "10.9.9.9/8" ++ LF ++ "nowhere" ++ LF)%string.
Definition demo_list : ip_list := MkIpList ["10.0.0.0/8"; "192.168.0.7"] 1 [(5, "nowhere")] 5.

Lemma stored_list_witness :
  parseIpList (VStr demo_lines) = Ok demo_list /\
  parseIpList (VStr (join LF (il_entries demo_list))) = Ok (MkIpList (il_entries demo_list) 0 [] 2).
Proof.
  assert (E : parseIpList (VStr demo_lines) = Ok demo_list) by by vm_compute.
  split; [exact E|]. refine (proj2 (proj2 (proj2 (stored_list_is_read_back demo_lines demo_list E _)))). by vm_compute.
Defined.
