(* ===== verification/Firewall.v ===== *)
(** Host firewall policies and their compilation:
    src/backend/lib/firewall-policy.js (validation and normal form) and
    src/backend/lib/firewall-render.js (network maps and numbered rules), with
    the decision that src/backend/templates/_ip_firewall_geo.conf makes from
    them.

    Policies arrive as untyped values; [URL] is a parameter. *)

From S2P Require Import Prelude JsString JsValue Errors FirewallAddresses.
#[local] Open Scope string_scope.
#[local] Open Scope list_scope.
#[local] Open Scope Z_scope.

(** ** Policies *)

Definition FIREWALL_COUNTRY_CODES : list string := split_on " "
  ("AD AE AF AG AI AL AM AO AQ AR AS AT AU AW AX AZ BA BB BD BE BF BG BH BI BJ BL BM BN "
   ++ "BO BQ BR BS BT BV BW BY BZ CA CC CD CF CG CH CI CK CL CM CN CO CR CU CV CW CX CY CZ "
   ++ "DE DJ DK DM DO DZ EC EE EG EH ER ES ET FI FJ FK FM FO FR GA GB GD GE GF GG GH GI GL "
   ++ "GM GN GP GQ GR GS GT GU GW GY HK HM HN HR HT HU ID IE IL IM IN IO IQ IR IS IT JE JM "
   ++ "JO JP KE KG KH KI KM KN KP KR KW KY KZ LA LB LC LI LK LR LS LT LU LV LY MA MC MD ME "
   ++ "MF MG MH MK ML MM MN MO MP MQ MR MS MT MU MV MW MX MY MZ NA NC NE NF NG NI NL NO NP "
   ++ "NR NU NZ OM PA PE PF PG PH PK PL PM PN PR PS PT PW PY QA RE RO RS RU RW SA SB SC SD "
   ++ "SE SG SH SI SJ SK SL SM SN SO SR SS ST SV SX SY SZ TC TD TF TG TH TJ TK TL TM TN TO "
   ++ "TR TT TV TW TZ UA UG UM US UY UZ VA VC VE VG VI VN VU WF WS XK YE YT ZA ZM ZW")%string.

Definition MAX_RULES : nat := 1000.
Definition MAX_SAFE_INTEGER : Z := 9007199254740991.
Definition fields : list string :=
  ["enabled"; "list_ids"; "allowlist"; "denylist"; "public_message"; "support_url"; "internal_note";
   "country_denylist"; "country_reason"; "block_unknown_country"; "asn_denylist"].

(** What [new URL(text)] says, if it parses; [resolve_URL] is [new URL(text, base)]. *)
Record url : Type := MkUrl {
  u_protocol : string; u_username : string; u_password : string; u_hostname : string; u_hash : string; u_href : string
}.
Class UrlLib : Type := { new_URL : string -> option url; resolve_URL : string -> url -> option url }.

Record policy : Type := MkPolicy {
  fp_enabled : bool;
  fp_list_ids : list Z;
  fp_allowlist : list string;
  fp_denylist : list (string * string);
  fp_public_message : string;
  fp_support_url : string;
  fp_internal_note : string;
  fp_asn_denylist : list (Z * string);
  fp_country_denylist : list string;
  fp_country_reason : string;
  fp_block_unknown : bool
}.

(** [[...new Set(xs)]] *)
Section SetOf.
Context {A : Type} `{EqDecision A}.
Definition add_new (acc : list A) (x : A) : list A := if decide (x ∈ acc) then acc else acc ++ [x].
Definition set_of (xs : list A) : list A := fold_left add_new xs [].
End SetOf.

Definition bad (message : string) : error := ValidationError message.

Definition text (v : value) (name : string) (maximum : Z) : fallible string :=
  match v with
  | VUndef => Ok ""
  | VStr s =>
      throw bad ("Firewall " ++ name ++ " must be text of at most " ++ show_Z maximum ++ " characters")
        when ((maximum <? strlen s) || has_char (ascii_of_nat 0) s) ;;
      Ok (trim s)
  | _ => Throw (bad ("Firewall " ++ name ++ " must be text of at most " ++ show_Z maximum ++ " characters"))
  end.
#[global] Arguments text _ _ _ : simpl never.

Definition normalize_country (v : value) : fallible string :=
  match v with
  | VStr s =>
      let code := to_upper (trim s) in
      throw bad "Firewall countries must use valid ISO alpha-2 codes or XK"
        when (negb (existsb (String.eqb code) FIREWALL_COUNTRY_CODES)) ;;
      Ok code
  | _ => Throw (bad "Firewall countries must use valid ISO alpha-2 codes or XK")
  end.

(** [Number.isSafeInteger(id) && id >= 1] *)
Definition list_id (v : value) : option Z :=
  match v with VInt n => if (1 <=? n) && (n <=? MAX_SAFE_INTEGER) then Some n else None | _ => None end.

Definition bad_ids : error := bad "Firewall list IDs must be positive integers (maximum 32)".
Definition list_id_or (id : value) : fallible Z := match list_id id with Some n => Ok n | None => Throw bad_ids end.

Definition only_keys (allowed : list string) (v : value) : bool := forallb (includes_key allowed) (keys_of v).

Section Policy.
Context `{IpLib} `{UrlLib}.

(** The loop over the deny rules: [seen] is the list of addresses so far. *)
Fixpoint normalize_deny (seen : list string) (rules : list value) : fallible (list (string * string)) :=
  match rules with
  | [] => Ok []
  | rule :: rest =>
      throw bad "Firewall deny rules require an IP address and an optional public reason"
        when (negb (is_object rule && only_keys ["address"; "reason"] rule)) ;;
      let? address := normalizeAddress (get "address" rule) in
      throw bad ("Duplicate firewall rule: " ++ address) when (existsb (String.eqb address) seen) ;;
      let? reason := text (get "reason" rule) "reason" 1000 in
      let? more := normalize_deny (seen ++ [address]) rest in
      Ok ((address, reason) :: more)
  end.

Fixpoint normalize_asn (seen : list Z) (rules : list value) : fallible (list (Z * string)) :=
  match rules with
  | [] => Ok []
  | rule :: rest =>
      throw bad "Firewall ASN rules require an integer ASN from 1 to 4294967295"
        when (negb (is_object rule && only_keys ["asn"; "reason"] rule && int_between 1 4294967295 (get "asn" rule))) ;;
      let asn := int_or 0 (get "asn" rule) in
      throw bad ("Duplicate firewall ASN rule: AS" ++ show_Z asn) when (existsb (Z.eqb asn) seen) ;;
      let? reason := text (get "reason" rule) "ASN reason" 1000 in
      let? more := normalize_asn (seen ++ [asn]) rest in
      Ok ((asn, reason) :: more)
  end.

Definition bad_url (supportUrl : string) : bool :=
  negb (String.eqb supportUrl "") &&
  match new_URL supportUrl with
  | None => true
  | Some u =>
      negb (String.eqb (u_protocol u) "http:" || String.eqb (u_protocol u) "https:")
      || negb (String.eqb (u_username u) "") || negb (String.eqb (u_password u) "")
      || any_char is_control supportUrl
  end.

(** An array, or the default where the property is missing. *)
Definition array_of (v : value) (absent : value -> bool) (e : error) : fallible (list value) :=
  if absent v then Ok [] else match v with VArr xs => Ok xs | _ => Throw e end.

Definition normalizeFirewallPolicy (v : value) : fallible (option policy) :=
  if is_undef v then Ok None else
  throw bad "Invalid IP firewall settings" when (negb (is_object v && only_keys fields v)) ;;
  throw bad "Firewall enabled must be a boolean"
    when (negb (is_undef (get "enabled" v) || is_bool (get "enabled" v))) ;;
  throw bad "Firewall block unknown country must be a boolean"
    when (negb (is_undef (get "block_unknown_country" v) || is_bool (get "block_unknown_country" v))) ;;
  let too_many := bad "Firewall country denylist must contain at most 250 country codes" in
  let? countries := array_of (get "country_denylist" v) is_undef too_many in
  throw too_many when (Nat.ltb (length FIREWALL_COUNTRY_CODES) (length countries)) ;;
  let? codes := rmapM normalize_country countries in
  let? listIds := array_of (get "list_ids" v) is_nullish bad_ids in
  throw bad_ids when (Nat.ltb 32 (length listIds)) ;;
  let? ids := rmapM list_id_or listIds in
  let bad_rules := bad "Firewall permits at most 1000 manual rules and exceptions" in
  let? allowed := array_of (get "allowlist" v) is_nullish bad_rules in
  let? denied := array_of (get "denylist" v) is_nullish bad_rules in
  throw bad_rules when (Nat.ltb MAX_RULES (length allowed) || Nat.ltb MAX_RULES (length denied)) ;;
  let? allow := rmapM normalizeAddress allowed in
  let? deny := normalize_deny [] denied in
  let bad_asns := bad "Firewall ASN denylist must contain at most 1000 rules" in
  let? asnRules := array_of (get "asn_denylist" v) is_undef bad_asns in
  throw bad_asns when (Nat.ltb MAX_RULES (length asnRules)) ;;
  let? asns := normalize_asn [] asnRules in
  let? supportUrl := text (get "support_url" v) "support URL" 2048 in
  throw bad "Firewall support URL must be an HTTP(S) URL without credentials" when (bad_url supportUrl) ;;
  let? public_message := text (get "public_message" v) "public message" 2000 in
  let? internal_note := text (get "internal_note" v) "internal note" 2000 in
  let? country_reason := text (get "country_reason" v) "country reason" 1000 in
  Ok (Some (MkPolicy (bool_or false (get "enabled" v)) (set_of ids) (set_of allow) deny public_message supportUrl
              internal_note asns (set_of codes) country_reason (bool_or false (get "block_unknown_country" v)))).
End Policy.

(** The policy as the metadata stores it. *)
Definition deny_value (r : string * string) : value := VObj [("address", VStr (fst r)); ("reason", VStr (snd r))].
Definition asn_value (r : Z * string) : value := VObj [("asn", VInt (fst r)); ("reason", VStr (snd r))].
Definition policy_value (p : policy) : value := VObj
  [("enabled", VBool (fp_enabled p));
   ("list_ids", VArr (map VInt (fp_list_ids p)));
   ("allowlist", VArr (map VStr (fp_allowlist p)));
   ("denylist", VArr (map deny_value (fp_denylist p)));
   ("public_message", VStr (fp_public_message p));
   ("support_url", VStr (fp_support_url p));
   ("internal_note", VStr (fp_internal_note p));
   ("asn_denylist", VArr (map asn_value (fp_asn_denylist p)));
   ("country_denylist", VArr (map VStr (fp_country_denylist p)));
   ("country_reason", VStr (fp_country_reason p));
   ("block_unknown_country", VBool (fp_block_unknown p))].

(** ** Normal policies are stable *)

Section SetLemmas.
Context {A : Type} `{EqDecision A}.

Lemma fold_new_spec (xs acc : list A) :
  NoDup acc -> NoDup (fold_left add_new xs acc) /\
  (forall x, x ∈ fold_left add_new xs acc <-> x ∈ acc \/ x ∈ xs) /\
  (length (fold_left add_new xs acc) <= length acc + length xs)%nat.
Proof.
  revert acc. induction xs as [|x xs IH]; intros acc Hacc; simpl.
  - split; [done|]. split; [|lia]. intros y. rewrite elem_of_nil. tauto.
  - unfold add_new at 2 4 6. destruct (decide (x ∈ acc)) as [Hin|Hin].
    + destruct (IH _ Hacc) as (H1 & H2 & H3). split; [done|]. split; [|lia]. intros y. rewrite H2, elem_of_cons.
      split; [tauto|]. intros [?|[->|?]]; auto.
    + assert (NoDup (acc ++ [x])) as Hnew.
      { apply NoDup_app. split; [done|]. split; [|apply NoDup_singleton]. by intros y Hy ->%list_elem_of_singleton. }
      destruct (IH _ Hnew) as (H1 & H2 & H3). split; [done|]. split; [|rewrite length_app in H3; simpl in H3; lia].
      intros y. rewrite H2, elem_of_app, list_elem_of_singleton, elem_of_cons. tauto.
Qed.

Lemma set_of_spec (xs : list A) :
  NoDup (set_of xs) /\ (forall x, x ∈ set_of xs <-> x ∈ xs) /\ (length (set_of xs) <= length xs)%nat.
Proof.
  destruct (fold_new_spec xs [] (NoDup_nil_2)) as (H1 & H2 & H3). split; [done|]. split; [|done].
  intros x. rewrite H2, elem_of_nil. tauto.
Qed.

Lemma fold_new_distinct (xs acc : list A) : NoDup (acc ++ xs) -> fold_left add_new xs acc = acc ++ xs.
Proof.
  revert acc. induction xs as [|x xs IH]; intros acc Hnd; simpl; [by rewrite app_nil_r|].
  unfold add_new at 2. rewrite decide_False.
  - rewrite IH; rewrite <- ?app_assoc; done.
  - apply NoDup_app in Hnd as (_ & Hd & _). intros Hin. apply (Hd x Hin). by left.
Qed.

Lemma set_of_distinct (xs : list A) : NoDup xs -> set_of xs = xs.
Proof. apply (fold_new_distinct xs []). Qed.
End SetLemmas.

Lemma text_stable v name m s : 0 <= m -> text v name m = Ok s -> text (VStr s) name m = Ok s.
Proof.
  intros Hm. unfold text. destruct v; try done.
  - intros [= <-]. by assert ((m <? strlen "") = false) as -> by (by apply Z.ltb_ge).
  - intros Ht. ok_inv Ht. injection Ht as <-. apply orb_false_iff in G as [G1 G2]. apply Z.ltb_ge in G1.
    pose proof (trim_length s0). assert ((m <? strlen (trim s0)) = false) as -> by (apply Z.ltb_ge; lia).
    rewrite has_char_trim by done. simpl. by rewrite trim_idem.
Qed.

Lemma country_stable v c : normalize_country v = Ok c -> normalize_country (VStr c) = Ok c.
Proof.
  destruct v; try done. unfold normalize_country at 1. intros Hc. ok_inv Hc. injection Hc as <-.
  apply negb_false_iff in G. set (c := to_upper (trim s)) in *.
  assert (Hall : forallb (fun k => String.eqb (to_upper (trim k)) k) FIREWALL_COUNTRY_CODES = true) by by vm_compute.
  assert (to_upper (trim c) = c) as Hc.
  { apply existsb_exists in G as (k & Hk & ->%String.eqb_eq). rewrite forallb_forall in Hall.
    by apply String.eqb_eq, Hall. }
  unfold normalize_country. rewrite Hc, G. done.
Qed.

Section Stable.
Context `{IpLaws} `{UrlLib}.

Lemma address_stable v t : normalizeAddress v = Ok t -> normalizeAddress (VStr t) = Ok t.
Proof.
  destruct v as [| | | | |s| |]; try done. intros Hn. by destruct (normal_rule _ _ Hn) as (? & _ & _ & _ & _ & ? & _).
Qed.

Lemma rmapM_stable {A B} (f : A -> fallible B) (g : B -> A) xs ys :
  (forall x y, f x = Ok y -> f (g y) = Ok y) -> rmapM f xs = Ok ys ->
  forall zs, (forall z, z ∈ zs -> z ∈ ys) -> rmapM f (map g zs) = Ok zs.
Proof.
  intros Hf Hm zs Hz. apply rmapM_ok. apply rmapM_ok in Hm.
  induction zs as [|z zs IH]; simpl; [constructor|]. constructor.
  - assert (z ∈ ys) as Hin by (apply Hz; by left). clear -Hm Hin Hf.
    induction Hm as [|x y xs ys Hxy _ IH]; [by apply elem_of_nil in Hin|].
    apply elem_of_cons in Hin as [->|Hin]; [by apply (Hf x)|by apply IH].
  - apply IH. intros z' Hz'. apply Hz. by right.
Qed.

Lemma rmapM_length {A B} (f : A -> fallible B) xs ys : rmapM f xs = Ok ys -> length ys = length xs.
Proof. intros Hm%rmapM_ok. by apply Forall2_length in Hm. Qed.

Lemma deny_stable rules seen rs : normalize_deny seen rules = Ok rs ->
  normalize_deny seen (map deny_value rs) = Ok rs /\ length rs = length rules.
Proof.
  revert seen rs. induction rules as [|r rules IH]; intros seen rs; simpl; [by intros [= <-]|].
  intros Hd. ok_inv Hd. ok_inv Hd. ok_inv Hd. ok_inv Hd. ok_inv Hd. injection Hd as <-.
  destruct (IH _ _ E1) as [IH1 IH2]. simpl. rewrite IH2. split; [|done].
  rewrite (address_stable _ _ E). simpl. rewrite G0. simpl.
  apply text_stable in E0; [|done]. rewrite E0. simpl. by rewrite IH1.
Qed.

Lemma asn_stable rules seen rs : normalize_asn seen rules = Ok rs ->
  normalize_asn seen (map asn_value rs) = Ok rs /\ length rs = length rules.
Proof.
  revert seen rs. induction rules as [|r rules IH]; intros seen rs; simpl; [by intros [= <-]|].
  intros Hd. ok_inv Hd. ok_inv Hd. ok_inv Hd. ok_inv Hd. injection Hd as <-.
  destruct (IH _ _ E0) as [IH1 IH2]. simpl. rewrite IH2. split; [|done].
  apply negb_false_iff, andb_true_iff in G as [_ G].
  assert ((1 <=? int_or 0 (get "asn" r)) && (int_or 0 (get "asn" r) <=? 4294967295) = true) as Hr.
  { apply int_between_spec in G as (n & -> & Hn). simpl. apply andb_true_iff. rewrite !Z.leb_le. lia. }
  rewrite Hr. simpl. rewrite G0. simpl.
  apply text_stable in E; [|done]. rewrite E. simpl. by rewrite IH1.
Qed.

(** What a policy in normal form satisfies. *)
Record normal (p : policy) : Prop := MkNormal {
  n_ids : NoDup (fp_list_ids p) /\ (length (fp_list_ids p) <= 32)%nat /\
    rmapM list_id_or (map VInt (fp_list_ids p)) = Ok (fp_list_ids p);
  n_allow : NoDup (fp_allowlist p) /\ (length (fp_allowlist p) <= MAX_RULES)%nat /\
    rmapM normalizeAddress (map VStr (fp_allowlist p)) = Ok (fp_allowlist p);
  n_deny : (length (fp_denylist p) <= MAX_RULES)%nat /\
    normalize_deny [] (map deny_value (fp_denylist p)) = Ok (fp_denylist p);
  n_asn : (length (fp_asn_denylist p) <= MAX_RULES)%nat /\
    normalize_asn [] (map asn_value (fp_asn_denylist p)) = Ok (fp_asn_denylist p);
  n_country : NoDup (fp_country_denylist p) /\ (length (fp_country_denylist p) <= length FIREWALL_COUNTRY_CODES)%nat /\
    rmapM normalize_country (map VStr (fp_country_denylist p)) = Ok (fp_country_denylist p);
  n_url : bad_url (fp_support_url p) = false;
  n_support : text (VStr (fp_support_url p)) "support URL" 2048 = Ok (fp_support_url p);
  n_message : text (VStr (fp_public_message p)) "public message" 2000 = Ok (fp_public_message p);
  n_note : text (VStr (fp_internal_note p)) "internal note" 2000 = Ok (fp_internal_note p);
  n_reason : text (VStr (fp_country_reason p)) "country reason" 1000 = Ok (fp_country_reason p)
}.

(** The distinct results of a mapping are mapped to themselves. *)
Lemma set_stable {B} `{EqDecision B} (f : value -> fallible B) (g : B -> value) xs ys m :
  (forall x y, f x = Ok y -> f (g y) = Ok y) -> rmapM f xs = Ok ys -> (length xs <= m)%nat ->
  NoDup (set_of ys) /\ (length (set_of ys) <= m)%nat /\ rmapM f (map g (set_of ys)) = Ok (set_of ys).
Proof.
  intros Hf Hm Hl. destruct (set_of_spec ys) as (Hd & Hin & Hlen). apply rmapM_length in Hm as Hlen'.
  split; [done|]. split; [lia|]. eapply rmapM_stable; [done..|]. intros z. by apply Hin.
Qed.

Lemma list_id_stable x n : list_id_or x = Ok n -> list_id_or (VInt n) = Ok n.
Proof.
  unfold list_id_or. destruct x as [| | |k| | | |]; try done. destruct (list_id (VInt k)) as [m|] eqn:E; [|done].
  intros [= ->]. simpl in E. destruct ((1 <=? k) && (k <=? MAX_SAFE_INTEGER)) eqn:Hk; [|done].
  injection E as ->. simpl. by rewrite Hk.
Qed.

Lemma accepted_normal v p : normalizeFirewallPolicy v = Ok (Some p) -> normal p.
Proof.
  unfold normalizeFirewallPolicy at 1. destruct (is_undef v); [done|]. intros Hn. ok_all Hn. injection Hn as <-.
  boolify. repeat match goal with Hl : (_ <? _)%nat = false |- _ => apply Nat.ltb_ge in Hl end.
  destruct (deny_stable _ _ _ E6) as [Hd Hdl]. destruct (asn_stable _ _ _ E8) as [Ha Hal].
  constructor; simpl; try done; try (eapply text_stable; [|done]; lia); try (split; [lia|done]).
  - eapply set_stable; [apply list_id_stable|done|lia].
  - eapply set_stable; [apply address_stable|done|lia].
  - eapply set_stable; [apply country_stable|done|]. by vm_compute in G2 |- *.
Qed.

Lemma nat_ltb_false n m : (n <= m)%nat -> (m <? n)%nat = false.
Proof. apply Nat.ltb_ge. Qed.

Lemma normal_stable p : normal p -> normalizeFirewallPolicy (policy_value p) = Ok (Some p).
Proof.
  intros [(Hi1 & Hi2 & Hi3) (Ha1 & Ha2 & Ha3) (Hd1 & Hd2) (Hs1 & Hs2) (Hc1 & Hc2 & Hc3) Hu Hsu Hme Hno Hre].
  unfold normalizeFirewallPolicy. cbn -[length FIREWALL_COUNTRY_CODES MAX_RULES set_of Nat.ltb].
  rewrite !length_map, !nat_ltb_false by done.
  rewrite Hc3; simpl rbind. rewrite Hi3; simpl rbind. rewrite Ha3; simpl rbind. rewrite Hd2; simpl rbind.
  rewrite Hs2; simpl rbind. rewrite Hsu; simpl rbind. rewrite Hu; simpl rbind. rewrite Hme; simpl rbind.
  rewrite Hno; simpl rbind. rewrite Hre; simpl rbind. rewrite !set_of_distinct by done. by destruct p.
Qed.

(** what the firewall validator accepts it accepts again unchanged: the
    policy it stores, read back as untyped metadata, normalises to the same
    policy; its sets hold no duplicates and its limits hold. *)
Theorem accepted_firewall_is_stable v p :
  normalizeFirewallPolicy v = Ok (Some p) ->
  normalizeFirewallPolicy (policy_value p) = Ok (Some p) /\
  NoDup (fp_list_ids p) /\ NoDup (fp_allowlist p) /\ NoDup (fp_country_denylist p) /\
  (length (fp_list_ids p) <= 32)%nat /\ (length (fp_allowlist p) <= MAX_RULES)%nat /\
  (length (fp_denylist p) <= MAX_RULES)%nat /\ (length (fp_asn_denylist p) <= MAX_RULES)%nat.
Proof.
  intros Hn%accepted_normal. split; [by apply normal_stable|]. destruct Hn; tauto.
Qed.
End Stable.
