(* ===== verification/FirewallRender.v ===== *)
(** The compiled host firewall: src/backend/lib/firewall-render.js and the
    decision that src/backend/templates/_ip_firewall_geo.conf makes from it,
    against the verdict a reader of the policy expects.

    The [geo] directive of Nginx is a parameter: of the networks that contain
    the client's address the longest one counts. *)

From S2P Require Import Prelude JsString JsValue Errors FirewallAddresses Firewall.
#[local] Open Scope string_scope.
#[local] Open Scope list_scope.
#[local] Open Scope Z_scope.

(** ** The renderer *)

Record fw_list : Type := MkFwList { fl_id : Z; fl_name : string; fl_reason : string; fl_entries : list string }.

Record detail : Type := MkDetail { d_id : Z; d_reason : string; d_source : string; d_type : string }.

(** A JS [Map] keeps its keys in order of insertion. *)
Section Assoc.
Context {K V : Type} `{EqDecision K}.
Definition map_get (k : K) (m : list (K * V)) : option V :=
  snd <$> List.find (fun kv => bool_decide (fst kv = k)) m.
Definition map_has (k : K) (m : list (K * V)) : bool := existsb (fun kv => bool_decide (fst kv = k)) m.
Definition map_set (k : K) (v : V) (m : list (K * V)) : list (K * V) :=
  if map_has k m then map (fun kv => if bool_decide (fst kv = k) then (k, v) else kv) m else m ++ [(k, v)].
End Assoc.

Record host : Type := MkHost { h_id : value; h_enabled : bool; h_is_deleted : bool; h_ip_firewall : option policy }.
Record capabilities : Type := MkCapabilities { c_country : bool; c_asn : bool }.

Record firewall : Type := MkFirewall {
  fw_id : Z;
  fw_allow_rules : list (string * Z);
  fw_manual_rules : list (string * Z);
  fw_list_rules : list (string * Z);
  fw_has_country_rules : bool;
  fw_has_country_info : bool;
  fw_has_asn_rules : bool;
  fw_has_asn_info : bool;
  fw_known_country_codes : list string;
  fw_asn_rules : list (Z * Z);
  fw_country_rules : list (string * Z);
  fw_details : list detail;
  fw_public_message : string;
  fw_support_url : string;
  fw_page : string
}.

(** [toByteArray().map(...)] of [networkKey]: clear the bits after the prefix. *)
Definition mask_byte (prefix : Z) (index : Z) (byte : Z) : Z :=
  let remaining := prefix - index * 8 in
  if 8 <=? remaining then byte else if remaining <=? 0 then 0 else Z.land byte (Z.shiftl 255 (8 - remaining)).

Definition next_id (details : list detail) : Z := Z.of_nat (length details) + 1.

Section Render.
Context `{IpLib}.

Definition networkKey (v : value) : fallible string :=
  let? normalized := normalizeAddress v in
  let '(address, prefix) :=
    if has_char "/" normalized then ip_parseCIDR normalized
    else (ip_parse normalized, match ip_parse normalized with V4 _ => 32 | V6 _ => 128 end) in
  let bytes := imap (fun i b => mask_byte prefix (Z.of_nat i) b) (toByteArray address) in
  Ok (ip_toString (fromByteArray bytes) ++ "/" ++ show_Z prefix)%string.

(** [details] and [ruleIds] *)
Record rule_book : Type := MkBook { rb_details : list detail; rb_ids : list (string * Z) }.

Definition addRule (b : rule_book) (target : list (string * Z)) (address reason source sourceType : string) (sourceId : Z) :
    fallible (rule_book * list (string * Z)) :=
  let? key := networkKey (VStr address) in
  if map_has key target then Ok (b, target)
  else
    let identity := (if String.eqb sourceType "list" then "list:" ++ show_Z sourceId else "manual:" ++ key)%string in
    let ruleId := default 0 (map_get identity (rb_ids b)) in
    if ruleId =? 0 then
      let id := next_id (rb_details b) in
      Ok (MkBook (rb_details b ++ [MkDetail id reason source sourceType]) (map_set identity id (rb_ids b)),
          map_set key id target)
    else Ok (b, map_set key ruleId target).

Fixpoint add_allowed (allow : list (string * Z)) (addresses : list string) : fallible (list (string * Z)) :=
  match addresses with
  | [] => Ok allow
  | address :: rest =>
      let? key := networkKey (VStr address) in
      add_allowed (map_set key 1 allow) rest
  end.

Fixpoint add_manual (b : rule_book) (manual : list (string * Z)) (rules : list (string * string)) :
    fallible (rule_book * list (string * Z)) :=
  match rules with
  | [] => Ok (b, manual)
  | rule :: rest =>
      let? next := addRule b manual (fst rule) (snd rule) "" "manual" 0 in
      add_manual (fst next) (snd next) rest
  end.

Fixpoint add_entries (b : rule_book) (subscribed : list (string * Z)) (l : fw_list) (entries : list string) :
    fallible (rule_book * list (string * Z)) :=
  match entries with
  | [] => Ok (b, subscribed)
  | address :: rest =>
      let? next := addRule b subscribed address (fl_reason l) (fl_name l) "list" (fl_id l) in
      add_entries (fst next) (snd next) l rest
  end.

(** [new Map(lists.map((list) => [list.id, list]))]: the last list of an id counts. *)
Definition listsById (lists : list fw_list) : list (Z * fw_list) :=
  fold_left (fun m l => map_set (fl_id l) l m) lists [].

Fixpoint add_lists (b : rule_book) (subscribed : list (string * Z)) (byId : list (Z * fw_list)) (ids : list Z) :
    fallible (rule_book * list (string * Z)) :=
  match ids with
  | [] => Ok (b, subscribed)
  | id :: rest =>
      match map_get id byId with
      | None => add_lists b subscribed byId rest
      | Some l =>
          let? next := add_entries b subscribed l (fl_entries l) in
          add_lists (fst next) (snd next) byId rest
      end
  end.

Fixpoint add_asns (details : list detail) (asnRules : list (Z * Z)) (rules : list (Z * string)) :
    fallible (list detail * list (Z * Z)) :=
  match rules with
  | [] => Ok (details, asnRules)
  | rule :: rest =>
      throw bad "Firewall ASN rules require an integer from 1 to 4294967295"
        when ((fst rule <? 1) || (4294967295 <? fst rule)) ;;
      if map_has (fst rule) asnRules then add_asns details asnRules rest
      else
        let id := next_id details in
        add_asns (details ++ [MkDetail id (snd rule) "" "asn"]) (map_set (fst rule) id asnRules) rest
  end.

Definition add_countries (p : policy) (details : list detail) : list detail * list (string * Z) :=
  if Nat.eqb (length (fp_country_denylist p)) 0 then (details, [])
  else
    let id := next_id details in
    (details ++ [MkDetail id (fp_country_reason p) "" "country"],
     map (fun code => (code, id)) (fp_country_denylist p)).

Definition add_unknown (p : policy) (details : list detail) (countryRules : list (string * Z)) :
    list detail * list (string * Z) :=
  if fp_block_unknown p then
    let id := next_id details in
    (details ++ [MkDetail id (fp_country_reason p) "" "country_unknown"], countryRules ++ [("XX", id)])
  else (details, countryRules).

Definition host_id (v : value) : Z :=
  match v with VInt n => if (0 <=? n) && (n <=? MAX_SAFE_INTEGER) then n else 0 | _ => 0 end.

Definition has_country_policy (p : policy) : bool :=
  negb (Nat.eqb (length (fp_country_denylist p)) 0) || fp_block_unknown p.
Definition has_asn_policy (p : policy) : bool := negb (Nat.eqb (length (fp_asn_denylist p)) 0).

(** [page] is the template file's text. *)
Definition buildFirewallRender (page : string) (h : host) (lists : list fw_list) (caps : option capabilities) :
    fallible (option firewall) :=
  match h_ip_firewall h with
  | None => Ok None
  | Some p =>
      if negb (h_enabled h) || h_is_deleted h || negb (fp_enabled p) then Ok None
      else
        let? allow := add_allowed [] (fp_allowlist p) in
        let? manual := add_manual (MkBook [] []) [] (fp_denylist p) in
        let? subscribed := add_lists (fst manual) [] (listsById lists) (fp_list_ids p) in
        let hasCountryRules := has_country_policy p in
        let hasAsnRules := has_asn_policy p in
        let hasCountryInfo := match caps with Some c => c_country c | None => hasCountryRules end in
        let hasAsnInfo := match caps with Some c => c_asn c | None => hasAsnRules end in
        throw bad "Country filtering requires an available country lookup" when (hasCountryRules && negb hasCountryInfo) ;;
        throw bad "ASN filtering requires an available ASN lookup" when (hasAsnRules && negb hasAsnInfo) ;;
        let? asns := add_asns (rb_details (fst subscribed)) [] (fp_asn_denylist p) in
        let countries := add_countries p (fst asns) in
        let unknown := add_unknown p (fst countries) (snd countries) in
        Ok (Some (MkFirewall (host_id (h_id h)) allow (snd manual) (snd subscribed)
              hasCountryRules hasCountryInfo hasAsnRules hasAsnInfo
              (if hasCountryInfo then FIREWALL_COUNTRY_CODES else [])
              (snd asns) (snd unknown) (fst unknown) (fp_public_message p) (fp_support_url p) page))
  end.
End Render.

(** ** The decision of the template *)

(** [geo]: the value of the longest network that holds the address, an
    IPv4-mapped address counting as IPv4, or the default 0. *)
Class GeoLib : Type := { geo : list (string * Z) -> address -> Z }.

(** What the server knows of a request: the peer, the texts of
    [$spm_geoip2_asn] and [$geoip2_country_code], and [$uri]. *)
Record client : Type := MkClient { cl_address : address; cl_asn : string; cl_country : string; cl_uri : string }.

(** A [map] of strings ignores case and falls back to its default. *)
Definition nginx_map {V} (rules : list (string * V)) (fallback : V) (source : string) : V :=
  match List.find (fun r => String.eqb (to_lower (fst r)) (to_lower source)) rules with
  | Some r => snd r
  | None => fallback
  end.

Definition acme_char (c : ascii) : bool := is_alnum c || any_char (Ascii.eqb c) "_-".

(** [~^/\.well-known/acme-challenge/[A-Za-z0-9_-]+$]; [$] also matches before a final line break. *)
Definition acme_uri (uri : string) : bool :=
  let prefix := "/.well-known/acme-challenge/" in
  starts_with prefix uri &&
  (let token := drop_str (String.length prefix) uri in
   let token := if ends_with LF token then take_str (String.length token - 1) token else token in
   negb (String.eqb token "") && all_chars acme_char token).

Section Decide.
Context `{GeoLib}.

Definition nz (a b : Z) : Z := if a =? 0 then b else a.

Definition country_rule (f : firewall) (c : client) : Z :=
  nginx_map (fw_country_rules f) 0
    (nginx_map (map (fun code => (code, code)) (fw_known_country_codes f)) "XX" (cl_country c)).

Definition asn_rule (f : firewall) (c : client) : Z :=
  nginx_map (map (fun r => (show_Z (fst r), snd r)) (fw_asn_rules f)) 0 (cl_asn c).

Definition asn_or_country (f : firewall) (c : client) : Z :=
  nz (asn_rule f c) (if fw_has_country_rules f then country_rule f c else 0).

Definition list_or_country (f : firewall) (c : client) : Z :=
  nz (geo (fw_list_rules f) (cl_address c)) (if fw_has_asn_rules f then asn_or_country f c else country_rule f c).

Definition hit (f : firewall) (c : client) : Z :=
  nz (geo (fw_manual_rules f) (cl_address c))
     (if fw_has_country_rules f || fw_has_asn_rules f then list_or_country f c
      else geo (fw_list_rules f) (cl_address c)).

(** [~^0:[1-9][0-9]*:0$] *)
Definition blocked (f : firewall) (c : client) : bool :=
  (geo (fw_allow_rules f) (cl_address c) =? 0) && (1 <=? hit f c) && negb (acme_uri (cl_uri c)).

(** The rule shown on the page: the Lua table is indexed by the rule's id. *)
Definition shown (f : firewall) (c : client) : option detail :=
  if blocked f c then List.find (fun d => d_id d =? hit f c) (fw_details f) else None.
End Decide.

(** ** What the policy asks for *)

(** Reason, source and kind of a rule. *)
Definition cause : Type := (string * string * string)%type.

(** Nginx looks an IPv4-mapped address up as IPv4. *)
Definition lookup_address (a : address) : address := if is_mapped a then unmapped a else a.

(** Of the rules that hold the address the longest counts, of equal ones the first. *)
Section Best.
Context {A : Type} (x : address).
Definition better (acc : option (Z * A)) (r : network * A) : option (Z * A) :=
  if contains (fst r) x then
    match acc with
    | Some (p, _) => if p <? snd (fst r) then Some (snd (fst r), snd r) else acc
    | None => Some (snd (fst r), snd r)
    end
  else acc.
Definition scan (rules : list (network * A)) : option (Z * A) := fold_left better rules None.
Definition best_match (rules : list (network * A)) : option A := snd <$> scan rules.
End Best.

Class GeoLaws `{IpLib, GeoLib} : Prop := {
  geo_spec : forall rules a, NoDup (map (fun r => rule_network (fst r)) rules) ->
    geo rules a = default 0 (best_match (lookup_address a) (map (fun r => (rule_network (fst r), snd r)) rules))
}.

Definition or_else {A} (a b : option A) : option A := match a with Some _ => a | None => b end.

Section Verdict.
Context `{IpLib}.

Definition manual_rules (p : policy) : list (network * cause) :=
  map (fun r => (rule_network (fst r), (snd r, "", "manual"))) (fp_denylist p).

Definition entry_rules (l : fw_list) : list (network * cause) :=
  map (fun e => (rule_network e, (fl_reason l, fl_name l, "list"))) (fl_entries l).

Definition list_rules (p : policy) (lists : list fw_list) : list (network * cause) :=
  flat_map (fun id => match List.find (fun l => fl_id l =? id) lists with Some l => entry_rules l | None => [] end)
    (fp_list_ids p).

Definition asn_verdict (p : policy) (c : client) : option cause :=
  (fun r => (snd r, "", "asn")) <$> List.find (fun r => String.eqb (show_Z (fst r)) (cl_asn c)) (fp_asn_denylist p).

Definition country_verdict (p : policy) (c : client) : option cause :=
  match List.find (fun code => String.eqb (to_lower code) (to_lower (cl_country c))) FIREWALL_COUNTRY_CODES with
  | Some code => if includes_key (fp_country_denylist p) code then Some (fp_country_reason p, "", "country") else None
  | None => if fp_block_unknown p then Some (fp_country_reason p, "", "country_unknown") else None
  end.

(** Why the request is refused, if it is: exceptions and certificate
    challenges first, then manual rules, lists, autonomous systems, countries. *)
Definition verdict (p : policy) (lists : list fw_list) (c : client) : option cause :=
  let x := lookup_address (cl_address c) in
  if existsb (fun a => contains (rule_network a) x) (fp_allowlist p) || acme_uri (cl_uri c) then None
  else or_else (best_match x (manual_rules p))
      (or_else (best_match x (list_rules p lists))
      (or_else (asn_verdict p c) (country_verdict p c))).
End Verdict.

(** ** Maps *)

Section AssocLemmas.
Context {K V : Type} `{EqDecision K}.

Lemma map_has_spec k (m : list (K * V)) : map_has k m = true <-> k ∈ map fst m.
Proof.
  unfold map_has. rewrite existsb_exists, list_elem_of_fmap. split.
  - intros ([k' v] & Hin & Hk%bool_decide_eq_true). exists (k', v). split; [done|by apply list_elem_of_In].
  - intros ([k' v] & -> & Hin). exists (k', v). split; [by apply list_elem_of_In|by apply bool_decide_eq_true].
Qed.

Lemma map_has_not k (m : list (K * V)) : map_has k m = false -> k ∉ map fst m.
Proof. intros Hf Hin%map_has_spec. congruence. Qed.

Lemma map_set_new k v (m : list (K * V)) : map_has k m = false -> map_set k v m = m ++ [(k, v)].
Proof. unfold map_set. by intros ->. Qed.

Lemma map_get_app k (m m' : list (K * V)) : map_get k (m ++ m') = or_else (map_get k m) (map_get k m').
Proof.
  unfold map_get. induction m as [|[k' v] m IH]; [done|]. simpl. by case_bool_decide.
Qed.

Lemma map_get_In k v (m : list (K * V)) : map_get k m = Some v -> (k, v) ∈ m.
Proof.
  unfold map_get. destruct (List.find _ m) as [[k' v']|] eqn:E; [|done]. simpl. intros [= ->].
  apply List.find_some in E as [Hin Hk%bool_decide_eq_true]. simpl in Hk. subst. by apply list_elem_of_In.
Qed.

Lemma map_get_None k (m : list (K * V)) : map_has k m = false -> map_get k m = None.
Proof.
  intros Hh%map_has_not. destruct (map_get k m) as [v|] eqn:E; [|done]. apply map_get_In in E.
  destruct Hh. apply list_elem_of_fmap. by exists (k, v).
Qed.

Lemma map_get_single (k : K) (v : V) : map_get k [(k, v)] = Some v.
Proof. unfold map_get. simpl. by rewrite bool_decide_true. Qed.
End AssocLemmas.

(** ** Keys *)

Lemma mask_kept b k c : 0 <= b < 256 -> 0 <= k -> b = c * 2 ^ k -> Z.land b (Z.shiftl 255 k) = b.
Proof.
  intros Hb Hk ->. rewrite <- Z.shiftl_mul_pow2 by done. rewrite <- Z.shiftl_land. f_equal.
  change 255 with (Z.ones 8). rewrite Z.land_ones by done. apply Z.mod_small.
  assert (0 < 2 ^ k) by (apply Z.pow_pos_nonneg; lia). change (2 ^ 8) with 256. nia.
Qed.

(** Clearing the bits after the prefix changes nothing in a network's bytes. *)
Lemma mask_bytes k n p m : 0 <= p <= 8 * Z.of_nat k -> n = m * 2 ^ (8 * Z.of_nat k - p) -> 0 <= n ->
  imap (fun i b => mask_byte p (Z.of_nat i) b) (bytes_of k n) = bytes_of k n.
Proof.
  intros Hp Hn Hn0. apply list_eq. intros i. rewrite list_lookup_imap. unfold bytes_of. rewrite list_lookup_fmap.
  destruct (seq 0 k !! i) as [j|] eqn:E; [|done]. apply lookup_seq in E as [-> Hi]. simpl. f_equal.
  remember (8 * (Z.of_nat k - 1 - Z.of_nat i)) as pos eqn:Hpos. assert (0 <= pos) by lia.
  pose proof (Z.mod_pos_bound (n / 2 ^ pos) 256 ltac:(lia)). unfold mask_byte.
  assert (Hsplit : forall s, 0 <= s -> s = 8 * Z.of_nat k - p - pos -> n / 2 ^ pos = m * 2 ^ s).
  { intros s Hs ->. rewrite Hn. replace (8 * Z.of_nat k - p) with ((8 * Z.of_nat k - p - pos) + pos) at 1 by lia.
    rewrite Z.pow_add_r, Z.mul_assoc, Z.div_mul by lia. done. }
  destruct (Z.leb_spec 8 (p - Z.of_nat i * 8)) as [|Hr]; [done|].
  destruct (Z.leb_spec (p - Z.of_nat i * 8) 0) as [Hz|Hz].
  - rewrite (Hsplit (8 * Z.of_nat k - p - pos)) by lia. replace (8 * Z.of_nat k - p - pos) with ((8 * Z.of_nat k - p - pos - 8) + 8) by lia.
    rewrite Z.pow_add_r, Z.mul_assoc by lia. by rewrite Z.mod_mul.
  - remember (8 - (p - Z.of_nat i * 8)) as s eqn:Hs. apply (mask_kept _ s (m mod 2 ^ (8 - s))); [done|lia|].
    rewrite (Hsplit s) by lia.
    change 256 with (2 ^ 8). replace 8 with ((8 - s) + s) at 1 by lia.
    rewrite Z.pow_add_r by lia. rewrite Z.mul_mod_distr_r; [done| |];
      apply Z.pow_nonzero; lia.
Qed.

Section Keys.
Context `{IpLaws}.

Definition key_text (net : network) : string := (ip_toString (fst net) ++ "/" ++ show_Z (snd net))%string.

Definition plain_net (net : network) : Prop := network_ok net /\ is_mapped (fst net) = false.

Lemma rule_network_key net : plain_net net -> rule_network (key_text net) = net.
Proof.
  destruct net as [b p]. intros [(Hb & Hp & _) Hm]. cbn [fst snd] in *. unfold rule_network, key_text. cbn [fst snd].
  destruct (toString_chars b Hb) as [_ Hc].
  assert (Hs : all_chars (fun c => negb (is_space c)) (ip_toString b ++ "/" ++ show_Z p)%string = true).
  { rewrite !all_chars_append. simpl. apply andb_true_iff. split; [|eapply all_chars_impl; [|apply show_Z_digits; lia]];
      [eapply all_chars_impl; [|exact Hc]|]; intros c Hx; apply negb_true_iff;
      [|apply digit_addr in Hx]; by destruct (addr_char_plain _ Hx). }
  rewrite (trim_id _ Hs). rewrite (proj2 (split_rule (ip_toString b) (show_Z p) (addr_no "/" _ Hc eq_refl)
      (all_chars_no "/" _ _ (show_Z_digits p ltac:(lia)) eq_refl))).
  simpl. by rewrite parse_toString, Hm, read_show by (done || lia).
Qed.

Lemma mask_network net : plain_net net ->
  fromByteArray (imap (fun i b => mask_byte (snd net) (Z.of_nat i) b) (toByteArray (fst net))) = fst net.
Proof.
  destruct net as [b p]. intros [(Hb & Hp & Hm) _]. cbn [fst snd] in *.
  rewrite toByteArray_spec by done.
  assert (Hw : 8 * Z.of_nat (Z.to_nat (width b / 8)) = width b) by by destruct b.
  rewrite (mask_bytes _ _ _ (prefix_bits b p)); [by apply fromByteArray_spec|lia| |by apply Hb].
  rewrite Hw. rewrite <- Hm at 1. by destruct b.
Qed.

(** The Nginx key of a normal text. *)
Lemma networkKey_ok t : normalizeAddress (VStr t) = Ok t ->
  plain_net (rule_network t) /\ networkKey (VStr t) = Ok (key_text (rule_network t)).
Proof.
  intros Hn. destruct (normal_rule t t Hn) as (net & Hok & Hm & Ht & -> & _ & _).
  split; [done|]. unfold networkKey. rewrite Hn. simpl.
  destruct net as [b p]. pose proof Hok as (Hb & Hp & _). cbn [fst snd] in *.
  destruct (toString_chars b Hb) as [_ Hc]. destruct (isIP_toString b Hb) as [Hi Hz].
  assert (Hread : (if has_char "/" t then ip_parseCIDR t
                   else (ip_parse t, match ip_parse t with V4 _ => 32 | V6 _ => 128 end)) = (b, p)).
  { rewrite Ht. unfold show_net. cbn [fst snd]. destruct (Z.eqb_spec p (width b)) as [->|Hne].
    - rewrite (addr_no "/" _ Hc eq_refl), parse_toString by done. by destruct b.
    - rewrite has_char_append. simpl. rewrite orb_true_r.
      change (String "/" (show_Z p)) with ("/" ++ show_Z p)%string. rewrite parseCIDR_spec, parse_toString by (done || by rewrite parse_toString).
      done. }
  rewrite Hread. pose proof (mask_network (b, p) (conj Hok Hm)) as E. cbn [fst snd] in E. by rewrite E.
Qed.
End Keys.

(** ** Longest prefix *)

Section BestLemmas.
Context {A : Type} (x : address).

Lemma scan_snoc rules (r : network * A) : scan x (rules ++ [r]) = better x (scan x rules) r.
Proof. unfold scan. by rewrite fold_left_app. Qed.

(** The best prefix is at least as long as any that matches. *)
Lemma scan_longest rules (r : network * A) : r ∈ rules -> contains (fst r) x = true ->
  exists p a, scan x rules = Some (p, a) /\ snd (fst r) <= p.
Proof.
  induction rules as [|y rules IH] using rev_ind; [by intros ?%elem_of_nil|].
  rewrite scan_snoc, elem_of_app, list_elem_of_singleton. intros [Hin| ->] Hc.
  - destruct (IH Hin Hc) as (p & a & -> & Hp). unfold better. destruct (contains (fst y) x); [|by eauto].
    destruct (Z.ltb_spec p (snd (fst y))); [|by eauto]. do 2 eexists. split; [done|]. lia.
  - unfold better. rewrite Hc. destruct (scan x rules) as [[p a]|]; [|by do 2 eexists].
    destruct (Z.ltb_spec p (snd (fst y))); do 2 eexists; split; done || lia.
Qed.

Lemma scan_some rules p (a : A) : scan x rules = Some (p, a) ->
  exists net, (net, a) ∈ rules /\ contains net x = true /\ snd net = p.
Proof.
  revert p a. induction rules as [|[net b] rules IH] using rev_ind; [done|]. intros p a.
  rewrite scan_snoc. unfold better. cbn [fst snd]. destruct (contains net x) eqn:Hc.
  - destruct (scan x rules) as [[q c]|].
    + destruct (Z.ltb_spec q (snd net)).
      * intros [= <- <-]. exists net. rewrite elem_of_app, list_elem_of_singleton. auto.
      * intros [= <- <-]. destruct (IH _ _ eq_refl) as (n & ? & ?). exists n. rewrite elem_of_app. auto.
    + intros [= <- <-]. exists net. rewrite elem_of_app, list_elem_of_singleton. auto.
  - intros Hs. destruct (IH _ _ Hs) as (n & ? & ?). exists n. rewrite elem_of_app. auto.
Qed.

(** A second rule for the same network never counts. *)
Lemma scan_repeated rules net (a b : A) : (net, b) ∈ rules -> scan x (rules ++ [(net, a)]) = scan x rules.
Proof.
  intros Hin. rewrite scan_snoc. unfold better. cbn [fst snd]. destruct (contains net x) eqn:Hc; [|done].
  destruct (scan_longest _ _ Hin Hc) as (p & c & -> & Hp). cbn [fst] in Hp.
  by destruct (Z.ltb_spec p (snd net)); [lia|].
Qed.

Lemma scan_none rules : scan (A:=A) x rules = None <-> Forall (fun r => contains (fst r) x = false) rules.
Proof.
  split.
  - intros Hs. apply Forall_forall. intros r Hin. destruct (contains (fst r) x) eqn:Hc; [|done].
    destruct (scan_longest _ _ Hin Hc) as (? & ? & E & _). congruence.
  - intros Hall. destruct (scan x rules) as [[p a]|] eqn:E; [|done].
    apply scan_some in E as (net & Hin & Hc & _). rewrite Forall_forall in Hall. apply Hall in Hin. simpl in Hin. congruence.
Qed.
End BestLemmas.

(** ** Numbered rules *)

Definition numbered (details : list detail) : Prop :=
  forall i d, details !! i = Some d -> d_id d = Z.of_nat i + 1.

Definition cause_of (details : list detail) (v : Z) : option cause :=
  (fun d => (d_reason d, d_source d, d_type d)) <$> List.find (fun d => d_id d =? v) details.

Lemma find_app_some {A} (p : A -> bool) l l' x : List.find p l = Some x -> List.find p (l ++ l') = Some x.
Proof. induction l as [|y l IH]; [done|]. simpl. by destruct (p y). Qed.

Lemma find_app_none {A} (p : A -> bool) l l' : List.find p l = None -> List.find p (l ++ l') = List.find p l'.
Proof. induction l as [|y l IH]; [done|]. simpl. by destruct (p y). Qed.

Lemma cause_app d d' v c : cause_of d v = Some c -> cause_of (d ++ d') v = Some c.
Proof.
  unfold cause_of. destruct (List.find _ d) as [e|] eqn:E; [|done]. by rewrite (find_app_some _ _ _ _ E).
Qed.

Lemma cause_pos d v c : numbered d -> cause_of d v = Some c -> 1 <= v.
Proof.
  intros Hn. unfold cause_of. destruct (List.find _ d) as [e|] eqn:E; [|done]. intros _.
  apply List.find_some in E as [Hin He%Z.eqb_eq]. apply list_elem_of_In, list_elem_of_lookup in Hin as [i Hi].
  apply Hn in Hi. lia.
Qed.

Lemma numbered_snoc d e : numbered d -> d_id e = next_id d -> numbered (d ++ [e]).
Proof.
  intros Hn He i x. rewrite lookup_app_Some. intros [Hx|[Hl Hx]]; [by apply Hn|].
  apply list_lookup_singleton_Some in Hx as [Hi <-]. unfold next_id in He. lia.
Qed.

Lemma cause_new d e : numbered d -> d_id e = next_id d ->
  cause_of (d ++ [e]) (next_id d) = Some (d_reason e, d_source e, d_type e).
Proof.
  intros Hn He. unfold cause_of. rewrite find_app_none.
  - simpl. by rewrite He, Z.eqb_refl.
  - destruct (List.find _ d) as [y|] eqn:E; [|done]. apply List.find_some in E as [Hin Hy%Z.eqb_eq].
    apply list_elem_of_In, list_elem_of_lookup in Hin as [i Hi]. pose proof (lookup_lt_Some _ _ _ Hi).
    apply Hn in Hi. unfold next_id in Hy. lia.
Qed.

(** ** Tables of networks *)

Definition same_match (d : list detail) (acc : option (Z * Z)) (acc' : option (Z * cause)) : Prop :=
  match acc, acc' with
  | None, None => True
  | Some (p, v), Some (q, c) => p = q /\ cause_of d v = Some c
  | _, _ => False
  end.

Lemma same_match_grows d d' a b : same_match d a b -> same_match (d ++ d') a b.
Proof. destruct a as [[? ?]|], b as [[? ?]|]; try done. intros [? ?]. split; [done|by apply cause_app]. Qed.

Section Tables.
Context `{IpLaws}.

Definition net_rules (target : list (string * Z)) : list (network * Z) :=
  map (fun r => (rule_network (fst r), snd r)) target.

(** The table says of every address what the rules put into it say. *)
Record table_ok (d : list detail) (target : list (string * Z)) (inputs : list (network * cause)) : Prop := MkTable {
  t_keys : Forall (fun kv => plain_net (rule_network (fst kv)) /\ fst kv = key_text (rule_network (fst kv))) target;
  t_nodup : NoDup (map fst target);
  t_values : Forall (fun kv => exists c, cause_of d (snd kv) = Some c) target;
  t_match : forall x, same_match d (scan x (net_rules target)) (scan x inputs)
}.

Lemma table_empty d : table_ok d [] [].
Proof. split; [constructor|constructor|constructor|done]. Qed.

Lemma table_grows d d' target inputs : table_ok d target inputs -> table_ok (d ++ d') target inputs.
Proof. intros [Hk Hd Hv Hm]. split; [done..| |intros x; by apply same_match_grows].
  eapply Forall_impl; [exact Hv|]. intros kv [c Hc]. exists c. by apply cause_app. Qed.

Lemma table_new d target inputs net v c : table_ok d target inputs -> plain_net net ->
  map_has (key_text net) target = false -> cause_of d v = Some c ->
  table_ok d (target ++ [(key_text net, v)]) (inputs ++ [(net, c)]).
Proof.
  intros [Hk Hd Hv Hm] Hnet Hhas Hc. apply map_has_not in Hhas. pose proof (rule_network_key net Hnet) as Hr. split.
  - apply Forall_app. split; [done|]. constructor; [|constructor]. simpl. by rewrite Hr.
  - rewrite map_app. apply NoDup_app. split; [done|]. split; [|apply NoDup_singleton].
    intros k Hin ->%list_elem_of_singleton. done.
  - apply Forall_app. split; [done|]. constructor; [|constructor]. by exists c.
  - intros x. specialize (Hm x). unfold net_rules in *. rewrite map_app. simpl. rewrite !scan_snoc, Hr. unfold better. cbn [fst snd].
    destruct (contains net x); [|done].
    destruct (scan x (map _ target)) as [[p w]|], (scan x inputs) as [[q e]|]; simpl in Hm; try done.
    destruct Hm as [-> He]. destruct (q <? snd net); simpl; done.
Qed.

Lemma table_repeated d target inputs net c : table_ok d target inputs -> plain_net net ->
  map_has (key_text net) target = true -> table_ok d target (inputs ++ [(net, c)]).
Proof.
  intros [Hk Hd Hv Hm] Hnet Hhas. split; [done..|]. intros x. specialize (Hm x).
  apply map_has_spec, list_elem_of_fmap in Hhas as ([k v] & Hkey & Hin). cbn [fst] in Hkey. subst k.
  assert (Hin' : (net, v) ∈ net_rules target).
  { apply list_elem_of_fmap. exists (key_text net, v). split; [|done]. cbn [fst snd]. by rewrite rule_network_key. }
  rewrite scan_snoc. unfold better. cbn [fst snd]. destruct (contains net x) eqn:Hc; [|done].
  destruct (scan_longest x _ _ Hin' Hc) as (p & w & Hs & Hp). cbn [fst] in Hp. rewrite Hs in *. simpl in Hm |- *.
  destruct (scan x inputs) as [[q e]|]; [|done]. destruct Hm as [-> He].
  destruct (Z.ltb_spec q (snd net)); [lia|done].
Qed.

(** Distinct keys are distinct networks, so [geo] reads the table. *)
Lemma table_geo `{!GeoLib, !GeoLaws} d target inputs a : table_ok d target inputs ->
  match best_match (lookup_address a) inputs with
  | Some c => cause_of d (geo target a) = Some c
  | None => geo target a = 0
  end.
Proof.
  intros [Hk Hd _ Hm]. rewrite geo_spec.
  - specialize (Hm (lookup_address a)). unfold best_match. fold (net_rules target).
    destruct (scan _ (net_rules target)) as [[p v]|], (scan _ inputs) as [[q c]|]; simpl in *; by destruct Hm.
  - assert (Heq : map fst target = map key_text (map (fun r => rule_network (fst r)) target)).
    { rewrite map_map. apply map_ext_in. intros kv Hin%list_elem_of_In. rewrite Forall_forall in Hk. by apply Hk. }
    rewrite Heq in Hd. by apply NoDup_fmap_1 in Hd.
Qed.

(** ** Adding a rule *)

Lemma map_get_has {K V} `{EqDecision K} (k : K) (m : list (K * V)) :
  match map_get k m with Some _ => map_has k m = true | None => map_has k m = false end.
Proof.
  unfold map_get, map_has. induction m as [|[k' v] m IH]; [done|]. simpl. by case_bool_decide.
Qed.

Definition identity_of (sourceType : string) (sourceId : Z) (key : string) : string :=
  if String.eqb sourceType "list" then "list:" ++ show_Z sourceId else "manual:" ++ key.

(** What [addRule] does with a normal address. *)
Lemma addRule_ok b target inputs t reason source ty sid :
  normalizeAddress (VStr t) = Ok t -> numbered (rb_details b) -> table_ok (rb_details b) target inputs ->
  let key := key_text (rule_network t) in
  let identity := identity_of ty sid key in
  (map_has key target = false -> forall v, map_get identity (rb_ids b) = Some v ->
     cause_of (rb_details b) v = Some (reason, source, ty)) ->
  exists b' target', addRule b target t reason source ty sid = Ok (b', target') /\
    numbered (rb_details b') /\ table_ok (rb_details b') target' (inputs ++ [(rule_network t, (reason, source, ty))]) /\
    (exists more, rb_details b' = rb_details b ++ more) /\ map fst target ⊆ map fst target' /\
    (rb_ids b' = rb_ids b \/
     exists v, rb_ids b' = rb_ids b ++ [(identity, v)] /\ cause_of (rb_details b') v = Some (reason, source, ty) /\
               key ∈ map fst target').
Proof.
  intros Hn Hnum Ht key identity Hid. destruct (networkKey_ok t Hn) as [Hnet Hkey].
  unfold addRule. rewrite Hkey. cbn [rbind]. fold key. fold (identity_of ty sid key). fold identity.
  destruct (map_has key target) eqn:Hhas.
  { exists b, target. split; [done|]. split; [done|]. split; [by apply table_repeated|].
    split; [by exists []; rewrite app_nil_r|]. split; [done|by left]. }
  pose proof (map_get_has identity (rb_ids b)) as Hget.
  destruct (map_get identity (rb_ids b)) as [v|] eqn:Hv; cbn [from_option id].
  - specialize (Hid eq_refl v eq_refl). pose proof (cause_pos _ _ _ Hnum Hid).
    destruct (Z.eqb_spec v 0) as [|_]; [lia|].
    exists b, (target ++ [(key, v)]). rewrite map_set_new by done. split; [done|]. split; [done|].
    split; [by apply table_new|]. split; [by exists []; rewrite app_nil_r|]. split; [|by left].
    rewrite map_app. set_solver.
  - change (0 =? 0) with true. cbv iota. rewrite !map_set_new by done.
    set (e := MkDetail (next_id (rb_details b)) reason source ty).
    pose proof (cause_new (rb_details b) e Hnum eq_refl) as Hc.
    do 2 eexists. split; [done|]. cbn [rb_details rb_ids]. split; [by apply numbered_snoc|].
    split; [by apply table_new; [apply table_grows| | |]|]. split; [by eexists|].
    rewrite map_app. split; [set_solver|]. right. eexists. split; [done|]. split; [done|]. simpl. set_solver.
Qed.
End Tables.

Section Phases.
Context `{IpLaws}.

Definition normal_text (t : string) : Prop := normalizeAddress (VStr t) = Ok t.

(** ** Exceptions *)

Definition allow_ok (allow : list (string * Z)) (nets : list network) : Prop :=
  Forall (fun kv => plain_net (rule_network (fst kv)) /\ fst kv = key_text (rule_network (fst kv)) /\ snd kv = 1) allow /\
  NoDup (map fst allow) /\ (forall net, plain_net net -> net ∈ nets <-> key_text net ∈ map fst allow).

Lemma key_text_inj a b : plain_net a -> plain_net b -> key_text a = key_text b -> a = b.
Proof. intros Ha Hb E. by rewrite <- (rule_network_key a Ha), <- (rule_network_key b Hb), E. Qed.

Lemma map_set_same {K V} `{EqDecision K} (k : K) (v : V) m :
  map_has k m = true -> Forall (fun kv => snd kv = v) m -> map_set k v m = m.
Proof.
  unfold map_set. intros -> Hall. induction Hall as [|[k' v'] m Hv Hall IH]; [done|]. simpl in *. rewrite IH. subst.
  case_bool_decide; [by subst|done].
Qed.

Lemma add_allowed_ok addresses : Forall normal_text addresses -> forall allow nets, allow_ok allow nets ->
  exists allow', add_allowed allow addresses = Ok allow' /\ allow_ok allow' (nets ++ map rule_network addresses).
Proof.
  induction 1 as [|t addresses Hn _ IH]; intros allow nets Ha; simpl; [by exists allow; rewrite app_nil_r|].
  destruct (networkKey_ok t Hn) as [Hnet ->]. cbn [rbind].
  replace (nets ++ rule_network t :: map rule_network addresses) with ((nets ++ [rule_network t]) ++ map rule_network addresses)
    by (by rewrite <- app_assoc).
  apply IH. destruct Ha as (Hk & Hd & Hin). set (net := rule_network t) in *.
  destruct (map_has (key_text net) allow) eqn:Hhas.
  - rewrite map_set_same by (done || (eapply Forall_impl; [exact Hk|naive_solver])).
    split; [done|]. split; [done|]. intros n Hpn. rewrite elem_of_app, list_elem_of_singleton, Hin by done.
    apply map_has_spec in Hhas. split; [by intros [?| ->]|auto].
  - rewrite map_set_new by done. apply map_has_not in Hhas. split; [|split].
    + apply Forall_app. split; [done|]. constructor; [|constructor]. simpl. by rewrite rule_network_key.
    + rewrite map_app. apply NoDup_app. split; [done|]. split; [|apply NoDup_singleton]. by intros k ? ->%list_elem_of_singleton.
    + intros n Hpn. rewrite map_app, !elem_of_app, !list_elem_of_singleton, Hin by done. simpl.
      rewrite list_elem_of_singleton. split; [intros [?| ->]; auto|]. intros [?|E]; [auto|]. right. by apply key_text_inj.
Qed.

(** An exception holds the address exactly when the table's value is not 0. *)
Lemma allow_geo `{!GeoLib, !GeoLaws} allow nets a : allow_ok allow nets -> Forall plain_net nets ->
  (geo allow a =? 0) = negb (existsb (fun n => contains n (lookup_address a)) nets).
Proof.
  intros (Hk & Hd & Hin) Hnets. set (x := lookup_address a).
  assert (Heq : map fst allow = map key_text (map (fun r => rule_network (fst r)) allow)).
  { rewrite map_map. apply map_ext_in. intros kv Hkv%list_elem_of_In. rewrite Forall_forall in Hk. by apply Hk. }
  assert (Hmem : forall n, n ∈ nets <-> n ∈ map fst (net_rules allow)).
  { intros n. unfold net_rules. rewrite map_map. cbn [fst]. split.
    - intros Hn. assert (plain_net n) as Hp by (rewrite Forall_forall in Hnets; by apply Hnets).
      apply Hin in Hn; [|done]. apply list_elem_of_fmap in Hn as (kv & E & Hkv). apply list_elem_of_fmap.
      exists kv. split; [|done]. by rewrite <- E, rule_network_key.
    - intros (kv & -> & Hkv)%list_elem_of_fmap. rewrite Forall_forall in Hk. destruct (Hk _ Hkv) as (Hp & E & _).
      apply Hin; [done|]. rewrite <- E. apply list_elem_of_fmap. by exists kv. }
  rewrite geo_spec by (rewrite Heq in Hd; by apply NoDup_fmap_1 in Hd). fold x. fold (net_rules allow). unfold best_match.
  destruct (scan x (net_rules allow)) as [[p v]|] eqn:Hs; simpl.
  - apply scan_some in Hs as (net & Hnet & Hc & _).
    assert (v = 1) as ->.
    { apply list_elem_of_fmap in Hnet as (kv & [= _ ->] & Hkv). rewrite Forall_forall in Hk. by apply Hk. }
    symmetry. apply negb_false_iff, existsb_exists. exists net. split; [|done]. apply list_elem_of_In, Hmem.
    apply list_elem_of_fmap. by exists (net, 1).
  - symmetry. apply negb_true_iff. destruct (existsb _ nets) eqn:E; [|done].
    apply existsb_exists in E as (n & Hn%list_elem_of_In%Hmem & Hc). apply scan_none in Hs.
    apply list_elem_of_fmap in Hn as (r & -> & Hr). rewrite Forall_forall in Hs. apply Hs in Hr. simpl in Hr. congruence.
Qed.

(** ** Manual rules *)

Definition manual_ids (b : rule_book) (target : list (string * Z)) : Prop :=
  forall s, map_has s (rb_ids b) = true -> exists k, s = ("manual:" ++ k)%string /\ k ∈ map fst target.

Lemma map_has_snoc {K V} `{EqDecision K} (k k' : K) (v : V) m :
  map_has k (m ++ [(k', v)]) = map_has k m || bool_decide (k' = k).
Proof. unfold map_has. rewrite existsb_app. simpl. by rewrite orb_false_r. Qed.

Lemma add_manual_ok rules : Forall (fun r => normal_text (fst r)) rules -> forall b target inputs,
  numbered (rb_details b) -> table_ok (rb_details b) target inputs -> manual_ids b target ->
  exists b' target', add_manual b target rules = Ok (b', target') /\ numbered (rb_details b') /\
    table_ok (rb_details b') target' (inputs ++ map (fun r => (rule_network (fst r), (snd r, "", "manual"))) rules) /\
    manual_ids b' target'.
Proof.
  induction 1 as [|[t reason] rules Hn _ IH]; intros b target inputs Hnum Ht Hids; simpl.
  { exists b, target. by rewrite app_nil_r. }
  cbn [fst snd] in *.
  destruct (addRule_ok b target inputs t reason "" "manual" 0 Hn Hnum Ht) as (b1 & t1 & -> & Hnum1 & Ht1 & _ & Hsub & Hid1).
  { intros Hhas v Hv. pose proof (map_get_has (identity_of "manual" 0 (key_text (rule_network t))) (rb_ids b)) as Hg.
    rewrite Hv in Hg. apply Hids in Hg as (k & E & Hk). apply map_has_not in Hhas. destruct Hhas.
    apply append_inj_r in E. by rewrite E. }
  cbn [rbind fst snd].
  destruct (IH b1 t1 _ Hnum1 Ht1) as (b2 & t2 & -> & Hnum2 & Ht2 & Hid2).
  - intros s Hs. destruct Hid1 as [E|(v & E & _ & Hkey)]; rewrite E in Hs.
    + apply Hids in Hs as (k & -> & Hk). exists k. set_solver.
    + rewrite map_has_snoc in Hs. apply orb_true_iff in Hs as [Hs|Hs%bool_decide_eq_true].
      * apply Hids in Hs as (k & -> & Hk). exists k. set_solver.
      * subst s. by eexists.
  - exists b2, t2. split; [done|]. split; [done|]. split; [by rewrite <- app_assoc in Ht2|done].
Qed.
(** ** Subscribed lists *)

Definition list_ids (b : rule_book) (byId : list (Z * fw_list)) : Prop :=
  forall n v, 1 <= n -> map_get ("list:" ++ show_Z n)%string (rb_ids b) = Some v ->
    exists l, map_get n byId = Some l /\ cause_of (rb_details b) v = Some (fl_reason l, fl_name l, "list").

Definition lists_ok (byId : list (Z * fw_list)) : Prop :=
  forall n l, map_get n byId = Some l -> fl_id l = n /\ Forall normal_text (fl_entries l).

Definition grows (d d' : list detail) : Prop := exists more, d' = d ++ more.

Lemma grows_refl d : grows d d.
Proof. exists []. by rewrite app_nil_r. Qed.

Lemma grows_trans a b c : grows a b -> grows b c -> grows a c.
Proof. intros [m ->] [m' ->]. exists (m ++ m'). by rewrite app_assoc. Qed.

Lemma grows_cause d d' v c : grows d d' -> cause_of d v = Some c -> cause_of d' v = Some c.
Proof. intros [m ->]. apply cause_app. Qed.

Lemma grows_table d d' target inputs : grows d d' -> table_ok d target inputs -> table_ok d' target inputs.
Proof. intros [m ->]. apply table_grows. Qed.

Lemma add_entries_ok byId l : map_get (fl_id l) byId = Some l -> 1 <= fl_id l ->
  forall entries, Forall normal_text entries -> forall b target inputs,
  numbered (rb_details b) -> table_ok (rb_details b) target inputs -> list_ids b byId ->
  exists b' target', add_entries b target l entries = Ok (b', target') /\ numbered (rb_details b') /\
    table_ok (rb_details b') target' (inputs ++ map (fun e => (rule_network e, (fl_reason l, fl_name l, "list"))) entries) /\
    list_ids b' byId /\ grows (rb_details b) (rb_details b').
Proof.
  intros Hl Hpos. induction 1 as [|t entries Hn _ IH]; intros b target inputs Hnum Ht Hids; simpl.
  { exists b, target. rewrite app_nil_r. split_and!; [done..|apply grows_refl]. }
  destruct (addRule_ok b target inputs t (fl_reason l) (fl_name l) "list" (fl_id l) Hn Hnum Ht)
    as (b1 & t1 & -> & Hnum1 & Ht1 & Hg1 & _ & Hid1).
  { intros _ v Hv. destruct (Hids _ _ Hpos Hv) as (l' & Hl' & Hc). rewrite Hl in Hl'. by injection Hl' as <-. }
  cbn [rbind fst snd].
  destruct (IH b1 t1 _ Hnum1 Ht1) as (b2 & t2 & -> & Hnum2 & Ht2 & Hid2 & Hg2).
  - intros n v Hn1 Hv. destruct Hid1 as [E|(w & E & Hc & _)]; rewrite E in Hv.
    + destruct (Hids _ _ Hn1 Hv) as (l' & Hl' & Hc). exists l'. split; [done|]. by eapply grows_cause.
    + rewrite map_get_app in Hv. destruct (map_get _ (rb_ids b)) as [u|] eqn:Hu; simpl in Hv.
      * injection Hv as <-. destruct (Hids _ _ Hn1 Hu) as (l' & Hl' & Hc'). exists l'. split; [done|]. by eapply grows_cause.
      * apply map_get_In, list_elem_of_singleton in Hv. injection Hv as Hid ->.
        apply show_Z_inj in Hid as ->; [|lia..]. by exists l.
  - exists b2, t2. split_and!; [done|done|by rewrite <- app_assoc in Ht2|done|by eapply grows_trans].
Qed.

Lemma add_lists_ok byId : lists_ok byId -> forall ids, Forall (fun n => 1 <= n) ids -> forall b target inputs,
  numbered (rb_details b) -> table_ok (rb_details b) target inputs -> list_ids b byId ->
  exists b' target', add_lists b target byId ids = Ok (b', target') /\ numbered (rb_details b') /\
    table_ok (rb_details b') target'
      (inputs ++ flat_map (fun id => match map_get id byId with Some l => entry_rules l | None => [] end) ids) /\
    grows (rb_details b) (rb_details b').
Proof.
  intros Hok. induction 1 as [|id ids Hn _ IH]; intros b target inputs Hnum Ht Hids; simpl.
  { exists b, target. rewrite app_nil_r. split_and!; [done..|apply grows_refl]. }
  destruct (map_get id byId) as [l|] eqn:Hl; [|by apply IH].
  destruct (Hok _ _ Hl) as [<- He].
  destruct (add_entries_ok byId l Hl Hn _ He b target inputs Hnum Ht Hids) as (b1 & t1 & -> & Hnum1 & Ht1 & Hid1 & Hg1).
  cbn [rbind fst snd].
  destruct (IH b1 t1 _ Hnum1 Ht1 Hid1) as (b2 & t2 & -> & Hnum2 & Ht2 & Hg2).
  exists b2, t2. split_and!; [done|done|by rewrite <- app_assoc in Ht2|by eapply grows_trans].
Qed.

Lemma listsById_get lists n : NoDup (map fl_id lists) ->
  map_get n (listsById lists) = List.find (fun l => fl_id l =? n) lists.
Proof.
  intros Hd. assert (Heq : forall acc, NoDup (map fst acc ++ map fl_id lists) ->
    fold_left (fun m l => map_set (fl_id l) l m) lists acc = acc ++ map (fun l => (fl_id l, l)) lists).
  { clear Hd. induction lists as [|l lists IH]; intros acc Hd; simpl; [by rewrite app_nil_r|].
    rewrite map_set_new.
    - rewrite IH; [by rewrite <- app_assoc|]. rewrite map_app, <- app_assoc. done.
    - destruct (map_has _ acc) eqn:E; [|done]. apply map_has_spec in E.
      apply NoDup_app in Hd as (_ & Hd & _). destruct (Hd _ E). by left. }
  unfold listsById. rewrite Heq by done. simpl. unfold map_get. clear. induction lists as [|l lists IH]; [done|].
  simpl. destruct (Z.eqb_spec (fl_id l) n); case_bool_decide; done.
Qed.

(** ** Autonomous systems and countries *)

Definition asn_entry (d : list detail) (rule : Z * Z) (asked : Z * string) : Prop :=
  fst rule = fst asked /\ cause_of d (snd rule) = Some (snd asked, "", "asn").

Lemma asn_entries_grow d d' rules asked : grows d d' -> Forall2 (asn_entry d) rules asked -> Forall2 (asn_entry d') rules asked.
Proof. intros Hg Hf. eapply Forall2_impl; [exact Hf|]. intros r a [? ?]. split; [done|]. by eapply grows_cause. Qed.

Lemma add_asns_ok rules : forall d target asked, numbered d -> Forall2 (asn_entry d) target asked ->
  NoDup (map fst (asked ++ rules)) -> Forall (fun r => 1 <= fst r <= 4294967295) rules ->
  exists d' target', add_asns d target rules = Ok (d', target') /\ numbered d' /\ grows d d' /\
    Forall2 (asn_entry d') target' (asked ++ rules).
Proof.
  induction rules as [|[asn reason] rules IH]; intros d target asked Hnum Hrel Hd Hr; simpl.
  { exists d, target. rewrite app_nil_r. split_and!; [done..|apply grows_refl|done]. }
  apply Forall_cons in Hr as [Ha Hr]. cbn [fst snd] in *.
  destruct (Z.ltb_spec asn 1); [lia|]. destruct (Z.ltb_spec 4294967295 asn); [lia|]. simpl.
  assert (map_has asn target = false) as Hhas.
  { destruct (map_has asn target) eqn:E; [|done]. apply map_has_spec in E.
    assert (map fst target = map fst asked) as Hm.
    { clear -Hrel. induction Hrel as [|? ? ? ? [? _] _ IH]; [done|]. simpl. congruence. }
    rewrite Hm in E. rewrite map_app in Hd. apply NoDup_app in Hd as (_ & Hd & _). destruct (Hd _ E). by left. }
  rewrite Hhas, map_set_new by done.
  set (e := MkDetail (next_id d) reason "" "asn").
  destruct (IH (d ++ [e]) (target ++ [(asn, next_id d)]) (asked ++ [(asn, reason)])) as (d' & t' & -> & Hn' & Hg' & Hr').
  - by apply numbered_snoc.
  - apply Forall2_app; [eapply asn_entries_grow; [by eexists|done]|]. constructor; [|constructor].
    split; [done|]. by apply (cause_new d e).
  - by rewrite <- app_assoc.
  - done.
  - exists d', t'. rewrite <- app_assoc in Hr'. split_and!; [done|done|eapply grows_trans; [by eexists|done]|done].
Qed.

Lemma find_rel {A B} (R : A -> B -> Prop) (p : A -> bool) (q : B -> bool) xs ys :
  Forall2 R xs ys -> (forall x y, R x y -> p x = q y) ->
  match List.find p xs, List.find q ys with Some x, Some y => R x y | None, None => True | _, _ => False end.
Proof.
  intros Hf Hpq. induction Hf as [|x y xs ys Hxy _ IH]; simpl; [done|]. rewrite (Hpq _ _ Hxy). by destruct (q y).
Qed.

Lemma lower_digits s t : all_chars is_digit t = true -> to_lower s = t -> s = t.
Proof.
  revert t. induction s as [|c s IH]; intros t Ht <-; [done|]. unfold to_lower in *. simpl in *.
  apply andb_true_iff in Ht as [Hc Ht]. rewrite <- (IH _ Ht eq_refl). f_equal.
  revert Hc. destruct c as [[] [] [] [] [] [] [] []]; vm_compute; done.
Qed.

Lemma digits_lower n : 0 <= n -> to_lower (show_Z n) = show_Z n.
Proof.
  intros Hn. pose proof (show_Z_digits n Hn) as Hd. revert Hd. generalize (show_Z n). intros s. unfold to_lower.
  induction s as [|c s IH]; [done|]. simpl. intros [Hc Hs]%andb_true_iff. rewrite (IH Hs). f_equal.
  revert Hc. destruct c as [[] [] [] [] [] [] [] []]; vm_compute; done.
Qed.

Lemma asn_lookup d rules asked s : Forall2 (asn_entry d) rules asked -> Forall (fun r => 1 <= fst r <= 4294967295) asked ->
  match List.find (fun r => String.eqb (show_Z (fst r)) s) asked with
  | Some r => cause_of d (nginx_map (map (fun r => (show_Z (fst r), snd r)) rules) 0 s) = Some (snd r, "", "asn")
  | None => nginx_map (map (fun r => (show_Z (fst r), snd r)) rules) 0 s = 0
  end.
Proof.
  intros Hrel Hr. unfold nginx_map.
  assert (Hrel' : Forall2 (fun (r : string * Z) (a : Z * string) => 1 <= fst a /\ fst r = show_Z (fst a) /\ cause_of d (snd r) = Some (snd a, "", "asn"))
     (map (fun r => (show_Z (fst r), snd r)) rules) asked).
  { induction Hrel as [|r a rules asked [E Hc] _ IH]; simpl; [constructor|]. inversion Hr; subst.
    constructor; [|by apply IH]. cbn [fst snd]. rewrite E. split; [lia|done]. }
  match type of Hrel' with Forall2 ?R _ _ =>
    assert (Hext : forall r a, R r a -> String.eqb (to_lower (fst r)) (to_lower s) = String.eqb (show_Z (fst a)) s) end.
  { intros r a (Ha & -> & _). rewrite digits_lower by lia. apply eq_bool_prop_intro. rewrite !Is_true_true, !String.eqb_eq.
    split; [|by intros <-; rewrite digits_lower by lia].
    intros E. symmetry. apply lower_digits; [apply show_Z_digits; lia|done]. }
  pose proof (find_rel _ _ _ _ _ Hrel' Hext) as Hf.
  destruct (List.find _ (map _ rules)) as [[k v]|], (List.find _ asked) as [[a reason]|]; try done. by destruct Hf as (_ & _ & ?).
Qed.

(** Country codes differ when case is ignored. *)
Lemma codes_upper : forallb (fun k => String.eqb (to_upper (to_lower k)) k) ("XX" :: FIREWALL_COUNTRY_CODES) = true.
Proof. by vm_compute. Qed.

Lemma unknown_code : includes_key FIREWALL_COUNTRY_CODES "XX" = false.
Proof. by vm_compute. Qed.

#[local] Opaque FIREWALL_COUNTRY_CODES.

Definition tested_codes : list string := "XX" :: FIREWALL_COUNTRY_CODES.
Lemma xx_tested : In "XX" tested_codes.
Proof. by left. Qed.
Lemma code_tested k : In k FIREWALL_COUNTRY_CODES -> In k tested_codes.
Proof. by right. Qed.

Lemma code_ci a b : In a tested_codes -> In b tested_codes ->
  String.eqb (to_lower a) (to_lower b) = String.eqb a b.
Proof.
  pose proof codes_upper as Hall. rewrite forallb_forall in Hall. intros Ha%Hall%String.eqb_eq Hb%Hall%String.eqb_eq.
  destruct (String.eqb_spec a b) as [->|Hne]; [by apply String.eqb_eq|]. apply String.eqb_neq. intros E.
  apply Hne. by rewrite <- Ha, <- Hb, E.
Qed.

Lemma denied_lookup denied id tail code : In code tested_codes ->
  Forall (fun k => In k FIREWALL_COUNTRY_CODES) denied ->
  nginx_map (map (fun k => (k, id)) denied ++ tail) 0 code = if includes_key denied code then id else nginx_map tail 0 code.
Proof.
  intros Hc. induction 1 as [|k denied Hk _ IH]; [done|]. unfold nginx_map, includes_key in *. simpl.
  rewrite (code_ci k code (code_tested _ Hk) Hc). rewrite (String.eqb_sym code k). by destruct (String.eqb k code).
Qed.

Definition stage (d : list detail) (v : Z) (o : option cause) : Prop :=
  match o with Some c => cause_of d v = Some c | None => v = 0 end.

Lemma stage_nz d a b oa ob : numbered d -> stage d a oa -> stage d b ob -> stage d (nz a b) (or_else oa ob).
Proof.
  intros Hn Ha Hb. unfold nz. destruct oa as [c|]; simpl in *; [|by subst].
  pose proof (cause_pos _ _ _ Hn Ha). by destruct (Z.eqb_spec a 0); [lia|].
Qed.

Lemma stage_grows d d' v o : grows d d' -> stage d v o -> stage d' v o.
Proof. intros Hg. destruct o; [|done]. by apply grows_cause. Qed.

Lemma stage_zero_none d : stage d 0 None.
Proof. done. Qed.

Lemma countries_ok p d c : numbered d -> Forall (fun k => In k FIREWALL_COUNTRY_CODES) (fp_country_denylist p) ->
  let countries := add_countries p d in
  let unknown := add_unknown p (fst countries) (snd countries) in
  numbered (fst unknown) /\ grows d (fst unknown) /\
  stage (fst unknown)
    (nginx_map (snd unknown) 0 (nginx_map (map (fun code => (code, code)) FIREWALL_COUNTRY_CODES) "XX" (cl_country c)))
    (country_verdict p c).
Proof.
  intros Hnum Hden countries unknown.
  set (e := MkDetail (next_id d) (fp_country_reason p) "" "country").
  assert (Hc : exists d1, numbered d1 /\ grows d d1 /\ countries = (d1, map (fun k => (k, next_id d)) (fp_country_denylist p)) /\
    (fp_country_denylist p <> [] -> cause_of d1 (next_id d) = Some (fp_country_reason p, "", "country"))).
  { unfold countries, add_countries. destruct (fp_country_denylist p) as [|k ks]; simpl.
    - exists d. split_and!; [done|apply grows_refl|done|done].
    - exists (d ++ [e]). split_and!; [by apply numbered_snoc|by eexists|done|]. intros _. by apply (cause_new d e). }
  destruct Hc as (d1 & Hn1 & Hg1 & Hcs & Hcause).
  assert (Hun : unknown = add_unknown p d1 (map (fun k => (k, next_id d)) (fp_country_denylist p)))
    by (unfold unknown; by rewrite Hcs).
  set (e' := MkDetail (next_id d1) (fp_country_reason p) "" "country_unknown").
  assert (Hu : exists d2 tail, numbered d2 /\ grows d1 d2 /\
    unknown = (d2, map (fun k => (k, next_id d)) (fp_country_denylist p) ++ tail) /\
    tail = (if fp_block_unknown p then [("XX", next_id d1)] else []) /\
    (fp_block_unknown p = true -> cause_of d2 (next_id d1) = Some (fp_country_reason p, "", "country_unknown"))).
  { rewrite Hun. unfold add_unknown. destruct (fp_block_unknown p).
    - do 2 eexists. split_and!; [by apply (numbered_snoc d1 e')|by eexists|done|done|]. intros _. by apply (cause_new d1 e').
    - exists d1, []. rewrite app_nil_r. split_and!; [done|apply grows_refl|done..]. }
  destruct Hu as (d2 & tail & Hn2 & Hg2 & -> & Htail & Hunk). cbn [fst snd].
  split; [done|]. split; [by eapply grows_trans|]. unfold country_verdict.
  assert (Hfind : forall codes, match List.find (fun r => String.eqb (to_lower (fst r)) (to_lower (cl_country c))) (map (fun k : string => (k, k)) codes) with
      Some r => Some (snd r) | None => None end = List.find (fun k => String.eqb (to_lower k) (to_lower (cl_country c))) codes).
  { induction codes as [|k ks IH]; [done|]. simpl. by destruct (String.eqb _ _). }
  specialize (Hfind FIREWALL_COUNTRY_CODES). unfold nginx_map at 2.
  destruct (List.find _ (map _ FIREWALL_COUNTRY_CODES)) as [[k k']|]; rewrite <- Hfind; cbn [snd].
  - symmetry in Hfind. apply List.find_some in Hfind as [Hin _]. cbn [snd] in Hin.
    rewrite (denied_lookup _ _ _ _ (code_tested _ Hin) Hden). destruct (includes_key (fp_country_denylist p) k') eqn:Hk.
    + simpl. eapply grows_cause; [exact Hg2|]. apply Hcause. by destruct (fp_country_denylist p).
    + rewrite Htail. destruct (fp_block_unknown p); [|done]. unfold nginx_map. cbn [List.find fst].
      rewrite (code_ci _ _ xx_tested (code_tested _ Hin)). destruct (String.eqb_spec "XX" k') as [<-|]; [|done].
      apply includes_key_spec in Hin. by rewrite unknown_code in Hin.
  - rewrite (denied_lookup _ _ _ _ xx_tested Hden).
    assert (includes_key (fp_country_denylist p) "XX" = false) as ->.
    { destruct (includes_key _ "XX") eqn:E; [|done]. apply includes_key_spec in E.
      rewrite List.Forall_forall in Hden. apply Hden, includes_key_spec in E. by rewrite unknown_code in E. }
    rewrite Htail. destruct (fp_block_unknown p); [|done]. unfold nginx_map. simpl. by apply Hunk.
Qed.

(** ** The compiled firewall decides like the policy *)

Lemma deny_normal rules seen rs : normalize_deny seen rules = Ok rs -> Forall (fun r => normal_text (fst r)) rs.
Proof.
  revert seen rs. induction rules as [|r rules IH]; intros seen rs; simpl; [by intros [= <-]|].
  intros Hd. ok_all Hd. injection Hd as <-. constructor; [|by eapply IH]. by eapply address_stable.
Qed.

Lemma asn_normal rules seen rs : normalize_asn seen rules = Ok rs ->
  Forall (fun r => 1 <= fst r <= 4294967295) rs /\ NoDup (map fst rs) /\ Forall (fun r => fst r ∉ seen) rs.
Proof.
  revert seen rs. induction rules as [|r rules IH]; intros seen rs; simpl; [by intros [= <-]; split_and!; constructor|].
  intros Hd. ok_inv Hd. ok_inv Hd. ok_inv Hd. ok_inv Hd. injection Hd as <-.
  destruct (IH _ _ E0) as (H1 & H2 & H3).
  apply negb_false_iff, andb_true_iff in G as [_ G]. apply int_between_spec in G as (n & Hr & Hn). rewrite Hr in *. cbn [int_or] in *.
  split_and!; [by constructor| |].
  - cbn [map fst]. constructor; [|done]. intros Hin. apply list_elem_of_fmap in Hin as (q & Hq & Hin).
    rewrite Forall_forall in H3. destruct (H3 _ Hin). rewrite <- Hq, elem_of_app. right. by left.
  - constructor.
    + intros Hin. assert (existsb (Z.eqb n) seen = true) as Hx; [|cbn [fst] in *; congruence].
      apply existsb_exists. exists n. split; [by apply list_elem_of_In|apply Z.eqb_refl].
    + eapply Forall_impl; [exact H3|]. intros q Hq Hin. apply Hq, elem_of_app. by left.
Qed.

Lemma country_member v c : normalize_country v = Ok c -> In c FIREWALL_COUNTRY_CODES.
Proof.
  unfold normalize_country. destruct v; try done. intros Hc. ok_inv Hc. injection Hc as <-.
  apply negb_false_iff in G. by apply includes_key_spec.
Qed.

Lemma rmapM_all {B C} (f : value -> fallible B) (g : C -> value) (P : B -> Prop) xs ys :
  (forall x y, f x = Ok y -> P y) -> rmapM f (map g xs) = Ok ys -> Forall P ys.
Proof. intros Hf Hm%rmapM_ok. induction Hm as [|x y ? ? Hxy _ IH]; [constructor|]. constructor; [by apply (Hf x)|done]. Qed.

Definition covers (caps : option capabilities) (p : policy) : Prop :=
  match caps with
  | None => True
  | Some c => (has_country_policy p = true -> c_country c = true) /\ (has_asn_policy p = true -> c_asn c = true)
  end.

Section Decision.
Context `{!UrlLib} `{!GeoLib, !GeoLaws}.

(** What the compiler makes of a policy in normal form. *)
Record compiled (p : policy) (lists : list fw_list) (f : firewall) : Prop := MkCompiled {
  co_numbered : numbered (fw_details f);
  co_allow : allow_ok (fw_allow_rules f) (map rule_network (fp_allowlist p));
  co_manual : table_ok (fw_details f) (fw_manual_rules f) (manual_rules p);
  co_list : table_ok (fw_details f) (fw_list_rules f) (list_rules p lists);
  co_asn : Forall2 (asn_entry (fw_details f)) (fw_asn_rules f) (fp_asn_denylist p);
  co_flags : fw_has_country_rules f = has_country_policy p /\ fw_has_asn_rules f = has_asn_policy p;
  co_known : has_country_policy p = true -> fw_known_country_codes f = FIREWALL_COUNTRY_CODES;
  co_country : forall c, stage (fw_details f) (nginx_map (fw_country_rules f) 0
    (nginx_map (map (fun code => (code, code)) FIREWALL_COUNTRY_CODES) "XX" (cl_country c))) (country_verdict p c)
}.

Lemma lists_known lists : NoDup (map fl_id lists) -> Forall (fun l => Forall normal_text (fl_entries l)) lists ->
  lists_ok (listsById lists).
Proof.
  intros Hd He n l. rewrite listsById_get by done. intros [Hin Hl%Z.eqb_eq]%List.find_some.
  rewrite Forall_forall in He. split; [done|]. by apply He, list_elem_of_In.
Qed.

Lemma subscribed_ok p b lists : normal p -> numbered (rb_details b) ->
  list_ids b (listsById lists) -> NoDup (map fl_id lists) -> Forall (fun l => Forall normal_text (fl_entries l)) lists ->
  exists b' target, add_lists b [] (listsById lists) (fp_list_ids p) = Ok (b', target) /\ numbered (rb_details b') /\
    table_ok (rb_details b') target (list_rules p lists) /\ grows (rb_details b) (rb_details b').
Proof.
  intros Hn Hnum Hids Hd He. destruct Hn as [(_ & _ & Hpos) _ _ _ _ _ _ _ _ _].
  assert (Forall (fun n => 1 <= n) (fp_list_ids p)) as Hge.
  { eapply (rmapM_all list_id_or VInt); [|exact Hpos]. intros x n. unfold list_id_or, list_id. destruct x; try done.
    split_if; [|done]. intros [= <-]. boolify. lia. }
  destruct (add_lists_ok _ (lists_known _ Hd He) _ Hge b [] [] Hnum (table_empty _) Hids) as (b' & t' & E & Hb & Ht & Hg).
  exists b', t'. split_and!; [done..| |done]. simpl in Ht. unfold list_rules.
  erewrite flat_map_ext; [exact Ht|]. intros id. cbv beta. by rewrite <- listsById_get.
Qed.

Lemma build_compiled p page h lists caps : normal p ->
  h_ip_firewall h = Some p -> h_enabled h = true -> h_is_deleted h = false -> fp_enabled p = true ->
  NoDup (map fl_id lists) -> Forall (fun l => Forall normal_text (fl_entries l)) lists -> covers caps p ->
  exists f, buildFirewallRender page h lists caps = Ok (Some f) /\ compiled p lists f.
Proof.
  intros Hn Hh He Hdel Hen Hids Hentries Hcaps. unfold buildFirewallRender. rewrite Hh, He, Hdel, Hen. cbn [negb orb].
  pose proof Hn as [_ (_ & _ & Ha) (_ & Hd) (_ & Hs) (_ & _ & Hc) _ _ _ _ _].
  assert (Forall normal_text (fp_allowlist p)) as Ha' by (eapply (rmapM_all normalizeAddress VStr); [apply address_stable|done]).
  assert (Forall (fun k => In k FIREWALL_COUNTRY_CODES) (fp_country_denylist p)) as Hc'
    by (eapply (rmapM_all normalize_country VStr); [apply country_member|done]).
  destruct (asn_normal _ _ _ Hs) as (Hr & Hnd & _).
  destruct (add_allowed_ok _ Ha' [] []) as (allow & -> & Hallow).
  { split; [constructor|]. split; [constructor|]. intros n _. by rewrite !elem_of_nil. }
  destruct (add_manual_ok _ (deny_normal _ _ _ Hd) (MkBook [] []) [] []) as (b1 & manual & -> & Hn1 & Hm1 & Hi1);
    [done|apply table_empty|done|].
  cbn [rbind fst snd].
  destruct (subscribed_ok p b1 lists Hn Hn1) as (b2 & subscribed & -> & Hn2 & Hm2 & Hg2); [|done..|].
  { intros n v Hpos Hv. pose proof (map_get_has ("list:" ++ show_Z n)%string (rb_ids b1)) as Hg. rewrite Hv in Hg.
    by apply Hi1 in Hg as (k & Hk & _). }
  cbn [rbind fst snd].
  assert (Hguard : forall (b : bool) (o : option capabilities) get, (match o with Some c => b = true -> get c = true | None => True end) ->
    b && negb (match o with Some c => get c | None => b end) = false).
  { intros [] [c|] get Hg; [|done..]. by rewrite Hg. }
  rewrite (Hguard (has_country_policy p) caps c_country), (Hguard (has_asn_policy p) caps c_asn)
    by (destruct caps; [by destruct Hcaps|done]). cbn [throw_if rbind].
  destruct (add_asns_ok _ (rb_details b2) [] [] Hn2 (List.Forall2_nil _) Hnd Hr) as (d3 & asns & -> & Hn3 & Hg3 & Hasn).
  cbn [rbind fst snd]. eexists. split; [done|].
  assert (Hlast : forall c, _) by (intros c; exact (countries_ok p d3 c Hn3 Hc')). cbv zeta in Hlast.
  set (final := add_unknown p _ _) in *. pose proof (Hlast (MkClient (V4 0) "" "" "")) as (Hn4 & Hg4 & _).
  split; cbn [fw_details fw_allow_rules fw_manual_rules fw_list_rules fw_asn_rules fw_has_country_rules fw_has_asn_rules
    fw_known_country_codes fw_country_rules]; try done.
  - eapply grows_table; [exact Hg4|]. eapply grows_table; [exact Hg3|]. eapply grows_table; [exact Hg2|]. exact Hm1.
  - eapply grows_table; [exact Hg4|]. eapply grows_table; [exact Hg3|]. exact Hm2.
  - by eapply asn_entries_grow.
  - intros Hhas. destruct caps as [c|]; simpl in *; [|by rewrite Hhas]. by rewrite (proj1 Hcaps Hhas).
  - intros c. by destruct (Hlast c) as (_ & _ & ?).
Qed.

Lemma stage_best d target inputs a : table_ok d target inputs -> stage d (geo target a) (best_match (lookup_address a) inputs).
Proof. intros Ht. pose proof (table_geo _ _ _ a Ht) as Hg. by destruct (best_match _ inputs). Qed.

Lemma no_country p c : has_country_policy p = false -> country_verdict p c = None.
Proof.
  unfold has_country_policy, country_verdict. destruct (fp_country_denylist p); [|done]. simpl. intros ->.
  by destruct (List.find _ _).
Qed.

Lemma no_asn p c : has_asn_policy p = false -> asn_verdict p c = None.
Proof. unfold has_asn_policy, asn_verdict. by destruct (fp_asn_denylist p). Qed.

Lemma nz_zero a : nz a 0 = a.
Proof. unfold nz. by destruct (Z.eqb_spec a 0). Qed.

Lemma or_else_none {A} (a : option A) : or_else a None = a.
Proof. by destruct a. Qed.

Lemma hit_stage p lists f c : Forall (fun r => 1 <= fst r <= 4294967295) (fp_asn_denylist p) -> compiled p lists f ->
  let x := lookup_address (cl_address c) in
  stage (fw_details f) (hit f c)
    (or_else (best_match x (manual_rules p)) (or_else (best_match x (list_rules p lists))
      (or_else (asn_verdict p c) (country_verdict p c)))).
Proof.
  intros Hr [Hnum _ Hm Hl Ha [Hfc Hfa] Hk Hc] x.
  assert (Hasn : stage (fw_details f) (asn_rule f c) (asn_verdict p c)).
  { pose proof (asn_lookup _ _ _ (cl_asn c) Ha Hr) as E. unfold asn_rule, asn_verdict. by destruct (List.find _ _). }
  assert (Hcountry : has_country_policy p = true -> stage (fw_details f) (country_rule f c) (country_verdict p c)).
  { intros E. unfold country_rule. rewrite (Hk E). apply Hc. }
  unfold hit, list_or_country, asn_or_country. rewrite Hfc, Hfa.
  apply stage_nz; [done|by apply stage_best|].
  destruct (has_country_policy p) eqn:Ec, (has_asn_policy p) eqn:Ea; cbn [orb];
    rewrite ?(no_country _ c Ec), ?(no_asn _ c Ea), ?or_else_none, ?nz_zero;
    repeat first [apply stage_nz; [exact Hnum| |] | by apply stage_best | exact Hasn | by apply Hcountry | done].
Qed.

(** C23: the compiled firewall decides like the policy.  A validated policy
    with stored lists always compiles, its rules numbered from 1, and for every
    request the Nginx maps block exactly what the policy refuses (exceptions
    and certificate challenges pass; then manual rules, lists in their order
    and by longest prefix, autonomous systems, countries), showing that
    rule's reason and source. *)
Theorem compiled_firewall_decides_like_the_policy v p page h lists caps :
  normalizeFirewallPolicy v = Ok (Some p) ->
  h_ip_firewall h = Some p -> h_enabled h = true -> h_is_deleted h = false -> fp_enabled p = true ->
  NoDup (map fl_id lists) -> Forall (fun l => Forall normal_text (fl_entries l)) lists -> covers caps p ->
  exists f, buildFirewallRender page h lists caps = Ok (Some f) /\ numbered (fw_details f) /\
    forall c, ((fun d => (d_reason d, d_source d, d_type d)) <$> shown f c) = verdict p lists c /\
              blocked f c = match verdict p lists c with Some _ => true | None => false end.
Proof.
  intros Hp%accepted_normal Hh He Hdel Hen Hids Hentries Hcaps.
  destruct (build_compiled p page h lists caps) as (f & Hf & Hco); [done..|].
  exists f. split; [done|]. split; [apply Hco|]. intros c.
  assert (Hr : Forall (fun r => 1 <= fst r <= 4294967295) (fp_asn_denylist p)) by (destruct Hp as [_ _ _ (_ & Hs) _ _ _ _ _ _]; by destruct (asn_normal _ _ _ Hs)).
  assert (Hnets : Forall plain_net (map rule_network (fp_allowlist p))).
  { destruct Hp as [_ (_ & _ & Ha) _ _ _ _ _ _ _ _]. apply Forall_fmap.
    eapply (rmapM_all normalizeAddress VStr); [|exact Ha]. intros y t Hy. apply (networkKey_ok t). by apply (address_stable y). }
  pose proof (hit_stage _ _ _ c Hr Hco) as Hst. cbv zeta in Hst.
  pose proof (allow_geo _ _ (cl_address c) (co_allow _ _ _ Hco) Hnets) as Hal.
  assert (Hex : existsb (fun n => contains n (lookup_address (cl_address c))) (map rule_network (fp_allowlist p)) =
    existsb (fun a => contains (rule_network a) (lookup_address (cl_address c))) (fp_allowlist p)).
  { clear. induction (fp_allowlist p) as [|a l IH]; [done|]. simpl. by rewrite IH. }
  unfold shown, blocked, verdict. rewrite Hal, Hex.
  destruct (existsb _ (fp_allowlist p)); [done|]. destruct (acme_uri (cl_uri c)); [by rewrite !andb_false_r|]. cbn [negb orb andb].
  rewrite andb_true_r. destruct (or_else _ _) as [cause|]; simpl in Hst.
  - pose proof (cause_pos _ _ _ (co_numbered _ _ _ Hco) Hst). destruct (Z.leb_spec 1 (hit f c)); [|lia]. done.
  - rewrite Hst. done.
Qed.
End Decision.
End Phases.

(** ** Concrete instances *)

Definition toy_new_URL (s : string) : option url :=
  if starts_with "https://" s
  then Some (MkUrl "https:" "" "" (hd "" (split_on "/" (drop_str 8 s))) "" s) else None.

#[global] Instance toy_url : UrlLib := {|
  new_URL := toy_new_URL;
  resolve_URL s base := if starts_with "/" s then toy_new_URL ("https://" ++ u_hostname base ++ s)%string else toy_new_URL s
|}.

#[global] Instance toy_geo : GeoLib := {|
  geo rules a := default 0 (best_match (lookup_address a) (map (fun r => (rule_network (fst r), snd r)) rules))
|}.
#[global] Instance toy_geo_laws : GeoLaws.
Proof. by split. Qed.

Definition demo_settings : value := VObj
  [("enabled", VBool true); ("list_ids", VArr [VInt 7; VInt 7]);
   ("allowlist", VArr [VStr "10.0.0.9"]);
   ("denylist", VArr [VObj [("address", VStr " 10.1.2.3/8 "); ("reason", VStr "office")];
                      VObj [("address", VStr "10.3.0.0/16")]]);
   ("support_url", VStr "https://help.example"); ("country_denylist", VArr [VStr "kp"]);
   ("block_unknown_country", VBool true); ("asn_denylist", VArr [VObj [("asn", VInt 64500)]])].

Definition demo_policy : policy := MkPolicy true [7] ["10.0.0.9"] [("10.0.0.0/8", "office"); ("10.3.0.0/16", "")]
  "" "https://help.example" "" [(64500, "")] ["KP"] "" true.

Lemma stable_firewall_witness : normalizeFirewallPolicy demo_settings = Ok (Some demo_policy) /\
  normalizeFirewallPolicy (policy_value demo_policy) = Ok (Some demo_policy).
Proof.
  assert (E : normalizeFirewallPolicy demo_settings = Ok (Some demo_policy)) by by vm_compute.
  split; [exact E|]. exact (proj1 (accepted_firewall_is_stable demo_settings demo_policy E)).
Defined.

Definition demo_host : host := MkHost (VInt 3) true false (Some demo_policy).
Definition demo_lists : list fw_list := [MkFwList 7 "feed" "listed" ["10.0.0.0/8"; "192.0.2.0/24"]].
Definition listed_client : client := MkClient (V4 (192 * 2 ^ 24 + 2 * 2 ^ 8 + 5)) "" "DE" "/".

Lemma compiled_firewall_witness :
  exists f, buildFirewallRender "" demo_host demo_lists None = Ok (Some f) /\
    verdict demo_policy demo_lists listed_client = Some ("listed", "feed", "list") /\ blocked f listed_client = true.
Proof.
  assert (E : normalizeFirewallPolicy demo_settings = Ok (Some demo_policy)) by by vm_compute.
  destruct (compiled_firewall_decides_like_the_policy demo_settings demo_policy "" demo_host demo_lists None E
    eq_refl eq_refl eq_refl eq_refl) as (f & Hf & _ & Hd).
  - apply NoDup_singleton.
  - repeat constructor.
  - done.
  - exists f. split; [exact Hf|]. assert (verdict demo_policy demo_lists listed_client = Some ("listed", "feed", "list")) as V by by vm_compute.
    split; [exact V|]. destruct (Hd listed_client) as [_ ->]. by rewrite V.
Defined.

Example decisions :
  let f := match buildFirewallRender "" demo_host demo_lists None with Ok (Some f) => f | _ => MkFirewall 0 [] [] [] false false false false [] [] [] [] "" "" "" end in
  map (fun c => (blocked f c, hit f c))
    [MkClient (V4 (10 * 2 ^ 24 + 9)) "" "DE" "/"; MkClient (V4 (10 * 2 ^ 24 + 8)) "" "DE" "/";
     MkClient (V4 (10 * 2 ^ 24 + 3 * 2 ^ 16)) "" "DE" "/"; MkClient (V4 1) "64500" "kp" "/";
     MkClient (V4 1) "" "kp" "/"; MkClient (V4 1) "" "" "/"; MkClient (V4 1) "" "" "/.well-known/acme-challenge/tok_1"]
  = [(false, 1); (true, 1); (true, 2); (true, 4); (true, 5); (true, 6); (false, 6)].
Proof. by vm_compute. Qed.
