(* ===== verification/FirewallPreview.v ===== *)
(** Previews of host configurations: src/backend/lib/firewall-preview.js.

    A scanner reads the lines of a generated configuration and replaces the
    address tables of the host firewall by their length and hash.  The hash and
    the UTF-8 decoder are parameters. *)

From S2P Require Import Prelude JsString JsValue Errors FirewallAddresses Firewall FirewallRender.
#[local] Open Scope string_scope.
#[local] Open Scope list_scope.
#[local] Open Scope Z_scope.

(** ** The code *)

Definition MAX_PREVIEW_CONFIG_BYTES : Z := 2 * 1024 * 1024.
Definition MAX_PREVIEW_RAW_CONFIG_BYTES : Z := 512 * 1024 * 1024.

Definition marker : string :=
  "# Host-specific IP firewall. All directives contain validated CIDRs or numeric rule identifiers.".
Definition kinds : list string := ["allow"; "manual"; "list"].

(** [createHash("sha256").update(text).digest("hex")] *)
Class Sha256 : Type := { sha256 : string -> string }.

Record summary : Type := MkSummary { s_count : Z; s_sha256 : string }.

(** The text of one rule in a hash. *)
Definition rule_text (address : string) (value : string) : string := (address ++ " " ++ value ++ ";" ++ LF)%string.

Definition rules_text (rules : list (string * Z)) : string :=
  fold_left (fun acc r => acc ++ rule_text (fst r) (show_Z (snd r)))%string rules "".

Definition ruleDigest `{Sha256} (rules : list (string * Z)) : summary :=
  MkSummary (Z.of_nat (length rules)) (sha256 (rules_text rules)).

Definition rules_of (f : firewall) (kind : string) : list (string * Z) :=
  if String.eqb kind "allow" then fw_allow_rules f
  else if String.eqb kind "manual" then fw_manual_rules f else fw_list_rules f.

Definition compactFirewallForPreview `{Sha256} (f : firewall) : firewall * list (string * summary) :=
  (MkFirewall (fw_id f) [] [] [] (fw_has_country_rules f) (fw_has_country_info f) (fw_has_asn_rules f) (fw_has_asn_info f)
     (fw_known_country_codes f) (fw_asn_rules f) (fw_country_rules f) (fw_details f) (fw_public_message f)
     (fw_support_url f) (fw_page f),
   map (fun kind => (kind, ruleDigest (rules_of f kind))) kinds).

Fixpoint take_while (p : ascii -> bool) (s : string) : string :=
  match s with
  | String c rest => if p c then String c (take_while p rest) else ""
  | EmptyString => ""
  end.

(** What follows the address of a rule: white space, a number without a leading
    zero, optional white space and the final semicolon. *)
Definition match_value (address rest : string) : option (string * string) :=
  let rest' := drop_while is_space rest in
  let value := take_while is_digit rest' in
  if String.eqb rest' rest || String.eqb value "" || starts_with "0" value
     || negb (String.eqb (drop_while is_space (drop_while is_digit rest')) ";") then None
  else Some (address, value).

(** The pattern of a rule: an address, an optional prefix of one to three digits
    and a value.  The classes of consecutive parts are disjoint, so greedy
    matching is exact. *)
Definition match_rule (trimmed : string) : option (string * string) :=
  let address := take_while addr_char trimmed in
  let rest := drop_while addr_char trimmed in
  if String.eqb address "" then None
  else if starts_with "/" rest then
    let digits := take_while is_digit (drop_str 1 rest) in
    if (strlen digits <? 1) || (3 <? strlen digits) then None
    else match_value (address ++ "/" ++ digits) (drop_while is_digit (drop_str 1 rest))
  else match_value address rest.

(** [/^server\s*\{/] *)
Definition server_start (trimmed : string) : bool :=
  starts_with "server" trimmed && starts_with "{" (drop_while is_space (drop_str 6 trimmed)).

Record table : Type := MkTableState { tb_hashed : string; tb_count : Z; tb_defaultSeen : bool }.

Record scanner : Type := MkScanner {
  sc_output : list string;
  sc_outputBytes : Z;
  sc_prefix : bool;
  sc_protected : bool;
  sc_nextKind : nat;
  sc_table : option table
}.

Definition new_scanner : scanner := MkScanner [] 0 true false 0 None.
Definition set_table (s : scanner) (t : option table) : scanner :=
  MkScanner (sc_output s) (sc_outputBytes s) (sc_prefix s) (sc_protected s) (sc_nextKind s) t.

Definition too_large : error := ValidationError "Host configuration is too large for a preview".
Definition malformed : error := ConfigurationError "Unable to summarize the host firewall configuration for preview".

Definition line_bytes (line : string) : Z := utf8_length line + 1.

Section Summarizer.
Context `{Sha256}.
Context (id : Z) (summaries : option (list (string * summary))) (maxBytes : Z).

Definition append (s : scanner) (line : string) : fallible scanner :=
  let bytes := sc_outputBytes s + line_bytes line in
  throw too_large when (maxBytes <? bytes) ;;
  Ok (MkScanner (sc_output s ++ [line]) bytes (sc_prefix s) (sc_protected s) (sc_nextKind s) (sc_table s)).

Definition kind_at (n : nat) : string := nth n kinds "".

Definition summary_note (s : summary) : string :=
  ("    # Preview: " ++ show_Z (s_count s) ++ " rules; SHA-256 " ++ s_sha256 s ++ ". CIDRs omitted.")%string.

(** A line inside a protected table. *)
Definition table_line (s : scanner) (t : table) (line : string) : fallible scanner :=
  let trimmed := trim line in
  if String.eqb trimmed "" || starts_with "#" trimmed then Ok s
  else if String.eqb trimmed "default 0;" then
    throw malformed when (tb_defaultSeen t || negb (tb_count t =? 0)) ;;
    Ok (set_table s (Some (MkTableState (tb_hashed t) (tb_count t) true)))
  else if String.eqb trimmed "}" then
    throw malformed when (negb (tb_defaultSeen t)) ;;
    let digest := MkSummary (tb_count t) (sha256 (tb_hashed t)) in
    let summary := default digest (summaries ≫= map_get (kind_at (sc_nextKind s))) in
    throw malformed when (bool_decide (summaries <> None) && negb (tb_count t =? 0)) ;;
    let? s := append s "    default 0;" in
    let? s := append s (summary_note summary) in
    let? s := append s line in
    Ok (MkScanner (sc_output s) (sc_outputBytes s) (sc_prefix s) (sc_protected s) (S (sc_nextKind s)) None)
  else
    match match_rule trimmed with
    | Some (address, value) =>
        throw malformed when (negb (tb_defaultSeen t)) ;;
        Ok (set_table s (Some (MkTableState (tb_hashed t ++ rule_text address value)%string (tb_count t + 1) true)))
    | None => Throw malformed
    end.

Definition table_header (n : nat) : string := ("geo $spm_fw_" ++ show_Z id ++ "_" ++ kind_at n ++ " {")%string.

Definition scan_line (s : scanner) (line : string) : fallible scanner :=
  match sc_table s with
  | Some t => table_line s t line
  | None =>
      let trimmed := trim line in
      let? s :=
        if sc_prefix s && negb (sc_protected s) && String.eqb trimmed marker then
          Ok (MkScanner (sc_output s) (sc_outputBytes s) (sc_prefix s) true (sc_nextKind s) None)
        else if sc_prefix s && sc_protected s && Nat.ltb (sc_nextKind s) (length kinds)
                && negb (String.eqb trimmed "") && negb (starts_with "#" trimmed) then
          throw malformed when (negb (String.eqb trimmed (table_header (sc_nextKind s)))) ;;
          Ok (set_table s (Some (MkTableState "" 0 false)))
        else Ok s in
      let s := if server_start trimmed
               then MkScanner (sc_output s) (sc_outputBytes s) false (sc_protected s) (sc_nextKind s) (sc_table s) else s in
      append s line
  end.

Fixpoint scan_all (s : scanner) (lines : list string) : fallible scanner :=
  match lines with
  | [] => Ok s
  | line :: rest => let? s := scan_line s line in scan_all s rest
  end.

Definition finish (s : scanner) : fallible (string * bool) :=
  throw malformed when (bool_decide (sc_table s <> None)
                        || (sc_protected s && negb (Nat.eqb (sc_nextKind s) (length kinds)))) ;;
  Ok (join LF (sc_output s), sc_protected s).

Definition summarize_lines (lines : list string) : fallible (string * bool) :=
  let? s := scan_all new_scanner lines in finish s.

End Summarizer.

(** [replace(/\r$/, "")] *)
Definition chop_return (s : string) : string :=
  let CR := String (ascii_of_nat 13) "" in
  if ends_with CR s then take_str (String.length s - 1) s else s.

(** [text.split(/\r?\n/)]: every piece but the last loses a return before the break. *)
Fixpoint chop_but_last (pieces : list string) : list string :=
  match pieces with
  | [] => []
  | [p] => [p]
  | p :: rest => chop_return p :: chop_but_last rest
  end.
Definition split_crlf (text : string) : list string := chop_but_last (split_on (ascii_of_nat 10) text).

Definition summarizeFirewallPreviewConfig `{Sha256} (id : Z) (summaries : option (list (string * summary))) (maxBytes : Z)
    (text : string) : fallible (string * bool) :=
  summarize_lines id summaries maxBytes (split_crlf text).

(** ** Reading a file in chunks *)

Section Reader.
Context `{Sha256} (id : Z).

Definition max_bytes : Z := MAX_PREVIEW_CONFIG_BYTES.

(** The lines [consume] feeds to the scanner: all but the last piece, which stays pending. *)
Definition consume (s : scanner) (pending chunk : string) : fallible (scanner * string) :=
  let pieces := split_on (ascii_of_nat 10) (pending ++ chunk)%string in
  let? s := scan_all id None max_bytes s (map chop_return (removelast pieces)) in
  let rest := List.last pieces "" in
  throw too_large when (MAX_PREVIEW_CONFIG_BYTES <? utf8_length rest) ;;
  Ok (s, rest).

(** The reads of a file: how many bytes each brought and what the decoder made
    of them; the end of the file is the end of the list, [tail] what
    [decoder.end()] adds. *)
Fixpoint read_chunks (s : scanner) (pending : string) (bytes : Z) (reads : list (Z * string)) :
    fallible (scanner * string) :=
  match reads with
  | [] => Ok (s, pending)
  | (n, chunk) :: rest =>
      throw ValidationError "Active host configuration is too large for a preview"
        when (MAX_PREVIEW_RAW_CONFIG_BYTES <? bytes + n) ;;
      let? next := consume s pending chunk in
      read_chunks (fst next) (snd next) (bytes + n) rest
  end.

Definition readFirewallPreviewConfig (reads : list (Z * string)) (tail : string) : fallible (string * bool) :=
  let? read := read_chunks new_scanner "" 0 reads in
  let? last := consume (fst read) (snd read) tail in
  let? s := scan_line id None max_bytes (fst last) (chop_return (snd last)) in
  finish s.
End Reader.

(** ** The rendered tables *)

(** The lines src/backend/templates/_ip_firewall_geo.conf renders for a table. *)
Definition rule_line (r : string * Z) : string := ("    " ++ fst r ++ " " ++ show_Z (snd r) ++ ";")%string.
Definition geo_table (id : Z) (n : nat) (rules : list (string * Z)) : list string :=
  table_header id n :: "    default 0;" :: map rule_line rules ++ ["    "; "}"].

Definition geo_tables (id : Z) (f : firewall) : list string :=
  flat_map (fun n => geo_table id n (rules_of f (kind_at n))) (seq 0 3).

(** What the preview shows instead. *)
Definition shown_table `{Sha256} (id : Z) (n : nat) (rules : list (string * Z)) : list string :=
  [table_header id n; "    default 0;"; summary_note (ruleDigest rules); "}"].
Definition shown_tables `{Sha256} (id : Z) (f : firewall) : list string :=
  flat_map (fun n => shown_table id n (rules_of f (kind_at n))) (seq 0 3).

Definition total_bytes (lines : list string) : Z := foldr (fun l n => line_bytes l + n) 0 lines.

(** ** Matching a rendered rule *)

Lemma take_while_app p a c b : all_chars p a = true -> p c = false ->
  take_while p (a ++ String c b) = a /\ drop_while p (a ++ String c b) = String c b.
Proof.
  intros Ha Hc. induction a as [|d a IH]; simpl; [by rewrite Hc|]. simpl in Ha. apply andb_true_iff in Ha as [Hd Ha].
  rewrite Hd. destruct (IH Ha) as [-> ->]. done.
Qed.

Lemma drop_end_last q a c : q c = false -> drop_while_end q (a ++ String c "") = (a ++ String c "")%string.
Proof.
  intros Hc. induction a as [|d a IH]; simpl; [by rewrite Hc|]. rewrite IH. destruct (a ++ String c "")%string eqn:E; [|done].
  by destruct a.
Qed.

Lemma trim_indented a c : (exists d r, a = String d r /\ is_space d = false) -> is_space c = false ->
  trim ("    " ++ a ++ String c "") = (a ++ String c "")%string.
Proof.
  intros (d & r & -> & Hd) Hc. unfold trim.
  assert (drop_while is_space ("    " ++ String d r ++ String c "") = (String d r ++ String c "")%string) as ->.
  { simpl. by rewrite Hd. }
  by apply drop_end_last.
Qed.

Definition table_key (k : string) : Prop :=
  exists ip p, k = (ip ++ "/" ++ show_Z p)%string /\ ip <> "" /\ all_chars addr_char ip = true /\ 0 <= p <= 128.

Lemma digits_not_space s : all_chars is_digit s = true -> s <> "" ->
  exists c r, s = String c r /\ is_space c = false /\ is_digit c = true.
Proof.
  destruct s as [|c r]; [done|]. simpl. intros [Hc _]%andb_true_iff _. exists c, r. split; [done|]. split; [|done].
  revert Hc. destruct c as [[] [] [] [] [] [] [] []]; vm_compute; done.
Qed.

Lemma show_digits_head fuel : forall m acc, 1 <= m < 10 ^ Z.of_nat fuel ->
  exists c r, show_digits fuel m acc = String c r /\ 1 <= digit_value c.
Proof.
  induction fuel as [|fuel IH]; intros m acc Hm; [simpl in Hm; lia|]. cbn [show_digits].
  destruct (Z.ltb_spec m 10).
  - do 2 eexists. split; [done|]. rewrite Z.mod_small, digit_value_char; lia.
  - apply IH. rewrite Nat2Z.inj_succ, Z.pow_succ_r in Hm by lia. Z.div_mod_to_equations; lia.
Qed.

Lemma show_not_zero n : 1 <= n -> show_Z n <> "" /\ starts_with "0" (show_Z n) = false.
Proof.
  intros Hn. unfold show_Z. rewrite Z.abs_eq by lia. destruct (Z.ltb_spec n 0); [lia|].
  destruct (show_digits_head (S (Z.to_nat (Z.log2_up (n + 1)))) n "") as (c & r & -> & Hc).
  - split; [done|]. rewrite Nat2Z.inj_succ, Z2Nat.id by apply Z.log2_up_nonneg.
    pose proof (Z.log2_up_spec (n + 1) ltac:(lia)). pose proof (Z.log2_up_nonneg (n + 1)).
    assert (2 ^ Z.log2_up (n + 1) <= 10 ^ Z.log2_up (n + 1)) by (apply Z.pow_le_mono_l; lia).
    rewrite Z.pow_succ_r by lia. nia.
  - split; [done|]. simpl. rewrite andb_true_r. destruct (Ascii.eqb "0" c) eqn:E; [|done].
    apply Ascii.eqb_eq in E as <-. by vm_compute in Hc.
Qed.

Lemma match_value_ok a n : 1 <= n -> match_value a (" " ++ show_Z n ++ ";") = Some (a, show_Z n).
Proof.
  intros Hn. assert (Hd := show_Z_digits n ltac:(lia)). destruct (show_not_zero n Hn) as [Hne Hz].
  destruct (digits_not_space _ Hd Hne) as (c & r & E & Hsp & _).
  assert (Hrest : drop_while is_space (" " ++ show_Z n ++ ";") = (show_Z n ++ ";")%string).
  { change (" " ++ show_Z n ++ ";")%string with (String " " (show_Z n ++ ";")). cbn [drop_while].
    change (is_space " ") with true. cbv iota. rewrite E. simpl. by rewrite Hsp. }
  unfold match_value. rewrite Hrest.
  destruct (take_while_app is_digit (show_Z n) ";" "" Hd eq_refl) as [Ht Hdr]. rewrite Ht, Hdr, Hz.
  assert (String.eqb (show_Z n ++ ";") (" " ++ show_Z n ++ ";") = false) as ->.
  { apply String.eqb_neq. intros Eq. rewrite E in Eq. simpl in Eq. injection Eq as -> _. done. }
  apply String.eqb_neq in Hne as ->. done.
Qed.

Lemma match_rule_ok k n : table_key k -> 1 <= n ->
  match_rule (k ++ " " ++ show_Z n ++ ";") = Some (k, show_Z n).
Proof.
  intros (ip & p & -> & Hne & Hc & Hp) Hn. unfold match_rule. rewrite !append_assoc.
  change ("/" ++ show_Z p ++ " " ++ show_Z n ++ ";")%string with (String "/" (show_Z p ++ String " " (show_Z n ++ ";")))%string.
  destruct (take_while_app addr_char ip "/" (show_Z p ++ String " " (show_Z n ++ ";")) Hc eq_refl) as [-> ->].
  apply String.eqb_neq in Hne as ->. cbn [starts_with drop_str]. change (Ascii.eqb "/" "/" && true) with true. cbv iota.
  assert (Hd := show_Z_digits p ltac:(lia)).
  destruct (take_while_app is_digit (show_Z p) " " (show_Z n ++ ";") Hd eq_refl) as [-> ->].
  assert (strlen (show_Z p) <= 3) by (apply (show_Z_length p 3); lia).
  assert (1 <= strlen (show_Z p)).
  { destruct (show_Z p) eqn:E; [|simpl; lia]. assert (read_Z (show_Z p) = p) as Hr by (apply read_show; lia).
    rewrite E in Hr. simpl in Hr. subst p. by vm_compute in E. }
  destruct (Z.ltb_spec (strlen (show_Z p)) 1); [lia|]. destruct (Z.ltb_spec 3 (strlen (show_Z p))); [lia|]. simpl orb. cbv iota.
  apply (match_value_ok _ n Hn).
Qed.

(** ** Scanning a rendered table *)

Lemma rbind_bind {E A B C} (m : result E A) (f : A -> result E B) (g : B -> result E C) :
  rbind (rbind m f) g = rbind m (fun x => rbind (f x) g).
Proof. by destruct m. Qed.

Lemma total_bytes_nonneg ls : 0 <= total_bytes ls.
Proof.
  induction ls as [|l ls IH]; simpl; [lia|]. unfold line_bytes. pose proof (utf8_length_bounds l).
  assert (0 <= strlen l) by lia. lia.
Qed.

Lemma total_bytes_app xs ys : total_bytes (xs ++ ys) = total_bytes xs + total_bytes ys.
Proof. induction xs as [|x xs IH]; simpl; [done|]. rewrite IH. lia. Qed.

Lemma match_rule_shape s a v : match_rule s = Some (a, v) ->
  String.eqb s "" = false /\ starts_with "#" s = false /\ String.eqb s "default 0;" = false /\ String.eqb s "}" = false.
Proof.
  intros Hm. split_and!.
  - apply String.eqb_neq. by intros ->.
  - destruct s as [|c s]; [done|]. simpl. rewrite andb_true_r. destruct (Ascii.eqb "#" c) eqn:E; [|done].
    apply Ascii.eqb_eq in E as <-. done.
  - apply String.eqb_neq. by intros ->.
  - apply String.eqb_neq. by intros ->.
Qed.

Section Scanning.
Context `{Sha256}.
Context (id : Z) (maxBytes : Z).

(** The scanner after it has shown [ls]. *)
Definition shown_lines (o : list string) (b : Z) (ls : list string) (k : list string -> Z -> scanner) : fallible scanner :=
  if maxBytes <? b + total_bytes ls then Throw too_large else Ok (k (o ++ ls) (b + total_bytes ls)).

Lemma append_shown o b p pr n t l :
  append maxBytes (MkScanner o b p pr n t) l = shown_lines o b [l] (fun o b => MkScanner o b p pr n t).
Proof. unfold append, shown_lines. simpl. rewrite Z.add_0_r. by destruct (maxBytes <? _). Qed.

(** Showing one list after another. *)
Lemma shown_bind o b xs ys (k k' : list string -> Z -> scanner) (f : scanner -> fallible scanner) :
  (forall o b, b <= maxBytes -> f (k o b) = shown_lines o b ys k') ->
  rbind (shown_lines o b xs k) f = shown_lines o b (xs ++ ys) k'.
Proof.
  intros Hf. unfold shown_lines at 1.
  destruct (Z.ltb_spec maxBytes (b + total_bytes xs)) as [Hlt|Hge]; simpl.
  - unfold shown_lines. rewrite total_bytes_app. pose proof (total_bytes_nonneg ys).
    destruct (Z.ltb_spec maxBytes (b + (total_bytes xs + total_bytes ys))); [done|lia].
  - rewrite Hf by lia. unfold shown_lines. by rewrite total_bytes_app, Z.add_assoc, app_assoc.
Qed.

Variable summaries : option (list (string * summary)).
#[local] Abbreviation run := (scan_all id summaries maxBytes).
#[local] Abbreviation step := (scan_line id summaries maxBytes).

Lemma scan_all_app s xs ys : run s (xs ++ ys) = rbind (run s xs) (fun s => run s ys).
Proof.
  revert s. induction xs as [|x xs IH]; intros s; [done|]. simpl. destruct (step s x) as [s'|e]; simpl; [apply IH|done].
Qed.

(** The rules of a table are hashed and counted, not shown. *)
Lemma scan_rules rules : Forall (fun r => table_key (fst r) /\ 1 <= snd r) rules ->
  forall o b p pr n h c,
  run (MkScanner o b p pr n (Some (MkTableState h c true))) (map rule_line rules ++ ["    "]) =
  Ok (MkScanner o b p pr n (Some (MkTableState
    (fold_left (fun acc r => acc ++ rule_text (fst r) (show_Z (snd r)))%string rules h) (c + Z.of_nat (length rules)) true))).
Proof.
  induction 1 as [|[k v] rules [Hk Hv] _ IH]; intros o b p pr n h c; cbn [map app scan_all].
  - unfold scan_line. cbn. by rewrite Z.add_0_r.
  - pose proof (match_rule_ok k v Hk Hv) as Hm. cbn [fst snd] in *.
    assert (Ht : trim (rule_line (k, v)) = (k ++ " " ++ show_Z v ++ ";")%string).
    { unfold rule_line. cbn [fst snd]. pose proof (trim_indented (k ++ " " ++ show_Z v) ";") as E.
      rewrite !append_assoc in E. apply E; [|done]. destruct Hk as (ip & q & -> & Hne & Hc & _).
      destruct ip as [|d ip]; [done|]. exists d. simpl in *. eexists. split; [done|].
      apply andb_true_iff in Hc as [Hc _]. by destruct (addr_char_plain _ Hc). }
    unfold scan_line, table_line. cbn [sc_table]. rewrite Ht.
    destruct (match_rule_shape _ _ _ Hm) as (-> & -> & -> & ->). rewrite Hm. cbn [orb tb_defaultSeen negb throw_if rbind].
    unfold set_table. cbn [sc_output sc_outputBytes sc_prefix sc_protected sc_nextKind tb_hashed tb_count].
    rewrite IH. cbn [length fold_left fst snd]. by replace (c + Z.of_nat (S (length rules))) with (c + 1 + Z.of_nat (length rules)) by lia.
Qed.

Lemma shown_nil o b k : b <= maxBytes -> shown_lines o b [] k = Ok (k o b).
Proof.
  intros Hb. unfold shown_lines. simpl. rewrite Z.add_0_r, app_nil_r. by destruct (Z.ltb_spec maxBytes b); [lia|].
Qed.

(** Lines that are shown as they are. *)
Lemma scan_plain (k : list string -> Z -> scanner) l ls : (forall o b, step (k o b) l = append maxBytes (k o b) l) ->
  (forall o b, append maxBytes (k o b) l = shown_lines o b [l] k) ->
  (forall o b, b <= maxBytes -> run (k o b) ls = shown_lines o b ls k) ->
  forall o b, run (k o b) (l :: ls) = shown_lines o b (l :: ls) k.
Proof.
  intros Hs Ha Hr o b. cbn [scan_all]. rewrite Hs, Ha. by apply (shown_bind o b [l] ls).
Qed.

Definition plain_line (l : string) : Prop := trim l <> marker /\ server_start (trim l) = false.

Lemma scan_before ls : Forall plain_line ls -> forall o b, b <= maxBytes ->
  run (MkScanner o b true false 0 None) ls = shown_lines o b ls (fun o b => MkScanner o b true false 0 None).
Proof.
  induction 1 as [|l ls [Hm Hs] _ IH]; intros o b Hb; [by rewrite shown_nil|].
  apply (scan_plain (fun o b => MkScanner o b true false 0 None)); [|intros; apply append_shown|done].
  intros o' b'. unfold scan_line. apply String.eqb_neq in Hm. cbn. by rewrite Hm, Hs.
Qed.

Definition prefix_after (p : bool) (ls : list string) : bool :=
  fold_left (fun p l => if server_start (trim l) then false else p) ls p.

Lemma scan_after ls : forall p o b, b <= maxBytes ->
  run (MkScanner o b p true 3 None) ls = shown_lines o b ls (fun o b => MkScanner o b (prefix_after p ls) true 3 None).
Proof.
  induction ls as [|l ls IH]; intros p o b Hb; [by rewrite shown_nil|].
  set (p' := if server_start (trim l) then false else p).
  assert (Hl : step (MkScanner o b p true 3 None) l = shown_lines o b [l] (fun o b => MkScanner o b p' true 3 None)).
  { rewrite <- append_shown. unfold scan_line. cbn. rewrite andb_false_r, andb_true_r, andb_false_r. simpl.
    unfold p'. by destruct (server_start (trim l)). }
  cbn [scan_all]. rewrite Hl. apply (shown_bind o b [l] ls). intros. by apply IH.
Qed.

Lemma trim_header n : trim (table_header id n) = table_header id n.
Proof.
  unfold trim. assert (drop_while is_space (table_header id n) = table_header id n) as -> by done.
  unfold table_header. change " {" with (" " ++ "{")%string. rewrite <- !append_assoc. by apply drop_end_last.
Qed.

Lemma scan_table n rules sum : (n < 3)%nat -> Forall (fun r => table_key (fst r) /\ 1 <= snd r) rules ->
  sum = default (ruleDigest rules) (summaries ≫= map_get (kind_at n)) -> (summaries <> None -> rules = []) ->
  forall o b, run (MkScanner o b true true n None) (geo_table id n rules) =
    shown_lines o b [table_header id n; "    default 0;"; summary_note sum; "}"] (fun o b => MkScanner o b true true (S n) None).
Proof.
  intros Hn Hr Hsum Hempty o b. unfold geo_table. cbn [scan_all].
  assert (Hh : step (MkScanner o b true true n None) (table_header id n) =
    shown_lines o b [table_header id n] (fun o b => MkScanner o b true true n (Some (MkTableState "" 0 false)))).
  { rewrite <- append_shown. unfold scan_line. cbn [sc_table]. rewrite trim_header. cbn [sc_prefix sc_protected sc_nextKind].
    apply Nat.ltb_lt in Hn. change (length kinds) with 3%nat. rewrite Hn. cbn [negb andb].
    assert (String.eqb (table_header id n) "" = false) as -> by done.
    assert (starts_with "#" (table_header id n) = false) as -> by done.
    assert (server_start (table_header id n) = false) as -> by done.
    rewrite String.eqb_refl. done. }
  rewrite Hh. apply (shown_bind o b [table_header id n] ["    default 0;"; summary_note sum; "}"]). clear o b Hh. intros o b _.
  assert (Hd : step (MkScanner o b true true n (Some (MkTableState "" 0 false))) "    default 0;" =
    Ok (MkScanner o b true true n (Some (MkTableState "" 0 true)))) by done.
  rewrite Hd. cbn [rbind]. change ["    "; "}"] with (["    "] ++ ["}"]). rewrite app_assoc, scan_all_app, scan_rules by done.
  cbn [rbind scan_all]. unfold scan_line, table_line. cbn [sc_table].
  change (trim "}") with "}". change (String.eqb "}" "" || starts_with "#" "}") with false.
  change (String.eqb "}" "default 0;") with false. change (String.eqb "}" "}") with true. cbv iota.
  cbn [tb_defaultSeen negb throw_if rbind sc_nextKind tb_count tb_hashed].
  fold (rules_text rules). change (MkSummary (0 + Z.of_nat (length rules)) (sha256 (rules_text rules))) with (ruleDigest rules).
  rewrite <- Hsum.
  assert (bool_decide (summaries <> None) && negb (0 + Z.of_nat (length rules) =? 0) = false) as ->.
  { case_bool_decide as E; [|done]. by rewrite (Hempty E). }
  cbn [throw_if rbind]. rewrite append_shown, rbind_bind.
  apply (shown_bind o b ["    default 0;"] [summary_note sum; "}"]). clear o b Hd. intros o b _. rewrite append_shown, rbind_bind.
  apply (shown_bind o b [summary_note sum] ["}"]). clear o b. intros o b _. rewrite append_shown.
  unfold shown_lines. by destruct (maxBytes <? _).
Qed.

(** The lines a preview shows, if they fit. *)
Definition bounded (ls : list string) : fallible (string * bool) :=
  if maxBytes <? total_bytes ls then Throw too_large else Ok (join LF ls, true).

(** The whole configuration: the tables hold [rules 0], [rules 1], [rules 2]. *)
Lemma summarize_rendered (rules : nat -> list (string * Z)) (sums : nat -> summary) before after :
  0 <= maxBytes -> Forall plain_line before ->
  (forall n, (n < 3)%nat -> Forall (fun r => table_key (fst r) /\ 1 <= snd r) (rules n)) ->
  (forall n, (n < 3)%nat -> sums n = default (ruleDigest (rules n)) (summaries ≫= map_get (kind_at n))) ->
  (summaries <> None -> forall n, (n < 3)%nat -> rules n = []) ->
  summarize_lines id summaries maxBytes (before ++ marker :: flat_map (fun n => geo_table id n (rules n)) (seq 0 3) ++ after) =
  bounded (before ++ marker :: flat_map (fun n => [table_header id n; "    default 0;"; summary_note (sums n); "}"]) (seq 0 3) ++ after).
Proof.
  intros Hmax Hbefore Hrules Hsums Hempty. unfold summarize_lines, new_scanner.
  assert (Htables : forall m n, (n + m = 3)%nat -> forall o b, b <= maxBytes ->
    run (MkScanner o b true true n None) (flat_map (fun n => geo_table id n (rules n)) (seq n m) ++ after) =
    shown_lines o b (flat_map (fun n => [table_header id n; "    default 0;"; summary_note (sums n); "}"]) (seq n m) ++ after)
      (fun o b => MkScanner o b (prefix_after true after) true 3 None)).
  { induction m as [|m IH]; intros n Hn o b Hb.
    - replace n with 3%nat by lia. by apply scan_after.
    - cbn [seq flat_map]. rewrite <- !app_assoc, scan_all_app.
      rewrite (scan_table n (rules n) (sums n)); [|lia|apply Hrules; lia|apply Hsums; lia|intros E; apply Hempty; [done|lia]].
      apply shown_bind. intros. apply IH; lia. }
  rewrite scan_all_app, scan_before by done.
  set (preview := marker :: flat_map (fun n => [table_header id n; _; _; _]) (seq 0 3) ++ after).
  rewrite (shown_bind [] 0 before preview _ (fun o b => MkScanner o b (prefix_after true after) true 3 None)).
  2:{ intros o b Hb. cbn [scan_all].
      assert (step (MkScanner o b true false 0 None) marker = shown_lines o b [marker] (fun o b => MkScanner o b true true 0 None)) as ->
        by (rewrite <- append_shown; reflexivity).
      apply (shown_bind o b [marker]). intros. by apply Htables. }
  unfold shown_lines, bounded. rewrite Z.add_0_l. by destruct (maxBytes <? _).
Qed.
End Scanning.

(** ** Previews of compiled firewalls *)

Section Preview.
Context `{IpLaws} `{UrlLib} `{GeoLib, !GeoLaws} `{Sha256}.

Lemma table_key_net net : plain_net net -> table_key (key_text net).
Proof.
  destruct net as [b p]. intros [(Hb & Hp & _) _]. cbn [fst snd] in *. destruct (toString_chars b Hb) as [Hne Hc].
  exists (ip_toString b), p. split; [done|]. split; [done|]. split; [done|]. destruct b; simpl in *; lia.
Qed.

Lemma rules_ok p lists f n : compiled p lists f -> (n < 3)%nat ->
  Forall (fun r => table_key (fst r) /\ 1 <= snd r) (rules_of f (kind_at n)).
Proof.
  intros Hco Hn.
  assert (Ht : forall target inputs, table_ok (fw_details f) target inputs -> Forall (fun r => table_key (fst r) /\ 1 <= snd r) target).
  { intros target inputs [Hk _ Hv _]. apply Forall_forall. intros r Hr. rewrite Forall_forall in Hk, Hv.
    destruct (Hk _ Hr) as [Hp ->]. destruct (Hv _ Hr) as [c Hc]. split; [by apply table_key_net|].
    by eapply cause_pos; [apply Hco|]. }
  destruct Hco as [_ (Ha & _) Hm Hl _ _ _ _].
  destruct n as [|[|[|n]]]; [| | |lia]; unfold rules_of; simpl; [|by eapply Ht..].
  eapply Forall_impl; [exact Ha|]. intros r (Hp & -> & ->). split; [by apply table_key_net|done].
Qed.

(** a preview shows a host's firewall without its addresses.  The tables of
    a compiled firewall are replaced by their length and hash, every other line
    stays, and rendering the compact firewall with the hashes of its rules
    gives the same preview as rendering all of them. *)
Theorem preview_hides_the_tables v p page h lists caps before after maxBytes :
  normalizeFirewallPolicy v = Ok (Some p) ->
  h_ip_firewall h = Some p -> h_enabled h = true -> h_is_deleted h = false -> fp_enabled p = true ->
  NoDup (map fl_id lists) -> Forall (fun l => Forall normal_text (fl_entries l)) lists -> covers caps p ->
  0 <= maxBytes -> Forall plain_line before ->
  exists f, buildFirewallRender page h lists caps = Ok (Some f) /\
    let '(compact, summaries) := compactFirewallForPreview f in
    let render g := before ++ marker :: geo_tables (fw_id f) g ++ after in
    summarize_lines (fw_id f) None maxBytes (render f)
      = bounded maxBytes (before ++ marker :: shown_tables (fw_id f) f ++ after) /\
    summarize_lines (fw_id f) (Some summaries) maxBytes (render compact)
      = bounded maxBytes (before ++ marker :: shown_tables (fw_id f) f ++ after).
Proof.
  intros Hp%accepted_normal Hh He Hdel Hen Hids Hentries Hcaps Hmax Hbefore.
  destruct (build_compiled p page h lists caps) as (f & Hf & Hco); [done..|].
  exists f. split; [done|]. unfold compactFirewallForPreview.
  assert (Hrules : forall n, (n < 3)%nat -> Forall (fun r => table_key (fst r) /\ 1 <= snd r) (rules_of f (kind_at n)))
    by (intros n Hn; by eapply rules_ok).
  split.
  - apply (summarize_rendered (fw_id f) maxBytes None (fun n => rules_of f (kind_at n)) (fun n => ruleDigest (rules_of f (kind_at n)))); done.
  - apply (summarize_rendered (fw_id f) maxBytes (Some _) (fun n => []) (fun n => ruleDigest (rules_of f (kind_at n)))); try done.
    intros n Hn. by destruct n as [|[|[|n]]]; [| | |lia].
Qed.
End Preview.

(** ** Reading in chunks *)

Section Chunks.
Context `{Sha256} (id : Z).
#[local] Abbreviation LFc := (ascii_of_nat 10).

(** Breaking a text in two and splitting the parts. *)
Lemma split_on_two c a b :
  split_on c (a ++ b) = removelast (split_on c a) ++ split_on c (List.last (split_on c a) "" ++ b).
Proof.
  induction a as [|d a IH]; [done|]. cbn [append split_on]. pose proof (split_on_nonempty c a) as Hne.
  destruct (Ascii.eqb c d) eqn:E.
  - change (String d a ++ b)%string with (String d (a ++ b)). cbn [split_on]. rewrite E, IH. by destruct (split_on c a).
  - change (String d a ++ b)%string with (String d (a ++ b)). cbn [split_on]. rewrite E, IH.
    destruct (split_on c a) as [|w [|w' ws]]; [done| |done]. simpl. rewrite E. done.
Qed.

Lemma removelast_last {A} (l : list A) d : l <> [] -> removelast l ++ [List.last l d] = l.
Proof. intros Hl. symmetry. by apply app_removelast_last. Qed.

Lemma last_no_sep c s : has_char c (List.last (split_on c s) "") = false.
Proof.
  pose proof (split_on_no_sep c s) as Hf. pose proof (split_on_nonempty c s) as Hne.
  rewrite <- (removelast_last _ "" Hne) in Hf. apply Forall_app in Hf as [_ Hf]. by inversion Hf.
Qed.

Lemma last_suffix c s : exists r, s = (r ++ List.last (split_on c s) "")%string.
Proof.
  induction s as [|d s [r IH]]; [by exists ""|]. pose proof (join_split c s) as Hj. pose proof (split_on_nonempty c s).
  cbn [split_on]. destruct (Ascii.eqb c d).
  - exists (String d r). destruct (split_on c s); [done|]. simpl in *. by rewrite <- IH.
  - destruct (split_on c s) as [|w [|w' ws]]; [done| |].
    + exists "". simpl in *. by rewrite Hj.
    + exists (String d r). simpl in *. by rewrite <- IH.
Qed.

Lemma utf8_append a b : utf8_length (a ++ b) = utf8_length a + utf8_length b.
Proof. induction a as [|c a IH]; [done|]. cbn [append]. change (String c a ++ b)%string with (String c (a ++ b)). simpl. rewrite IH. destruct (_ <? _); lia. Qed.

Definition fits (text : string) : Prop := Forall (fun l => utf8_length l <= MAX_PREVIEW_CONFIG_BYTES) (split_on LFc text).

Lemma fits_two a b : fits (a ++ b) ->
  utf8_length (List.last (split_on LFc a) "") <= MAX_PREVIEW_CONFIG_BYTES /\ fits (List.last (split_on LFc a) "" ++ b).
Proof.
  unfold fits. rewrite split_on_two. intros [_ Hf]%Forall_app. split; [|done].
  revert Hf. pose proof (last_no_sep LFc a) as Hn. revert Hn. generalize (List.last (split_on LFc a) ""). intros l Hn.
  rewrite split_on_two, split_on_single by done. simpl.
  assert (Hhead : exists w ws, split_on LFc (l ++ b) = (l ++ w)%string :: ws).
  { clear -Hn. induction l as [|d l IH]; [simpl; destruct (split_on LFc b) eqn:E; [by apply split_on_nonempty in E|by do 2 eexists]|].
    rewrite has_char_cons in Hn. apply orb_false_iff in Hn as [Hd Hn]. destruct (IH Hn) as (w & ws & E).
    change (String d l ++ b)%string with (String d (l ++ b)). cbn [split_on]. rewrite Hd, E. by exists w, ws. }
  destruct Hhead as (w & ws & ->). intros Hf. inversion Hf as [|? ? Hl _]; subst. rewrite utf8_append in Hl.
  pose proof (utf8_length_bounds w). assert (0 <= strlen w) by lia. lia.
Qed.

Definition chunks_text (reads : list (Z * string)) (tail : string) : string := foldr (fun r acc => snd r ++ acc)%string tail reads.
Definition chunks_bytes (reads : list (Z * string)) : Z := foldr (fun r n => fst r + n) 0 reads.

Lemma consume_fits s pending chunk : fits (pending ++ chunk) ->
  consume id s pending chunk =
    rbind (scan_all id None max_bytes s (map chop_return (removelast (split_on LFc (pending ++ chunk)))))
      (fun s => Ok (s, List.last (split_on LFc (pending ++ chunk)) "")).
Proof.
  intros Hf. unfold consume. destruct (scan_all _ _ _ _ _) as [s'|e]; [|done]. cbn [rbind].
  pose proof (fits_two (pending ++ chunk) "") as Ht. rewrite append_nil_r in Ht. destruct (Ht Hf) as [Hl _].
  by destruct (Z.ltb_spec MAX_PREVIEW_CONFIG_BYTES (utf8_length (List.last (split_on LFc (pending ++ chunk)) ""))); [lia|].
Qed.

Lemma read_all reads : Forall (fun r => 0 <= fst r) reads -> forall tail s pending bytes,
  fits (pending ++ chunks_text reads tail) -> bytes + chunks_bytes reads <= MAX_PREVIEW_RAW_CONFIG_BYTES ->
  (let? read := read_chunks id s pending bytes reads in
   let? last := consume id (fst read) (snd read) tail in
   let? s := scan_line id None max_bytes (fst last) (chop_return (snd last)) in finish s)
  = let? s := scan_all id None max_bytes s (map chop_return (split_on LFc (pending ++ chunks_text reads tail))) in finish s.
Proof.
  induction 1 as [|[n chunk] reads Hn Hrs IH]; intros tail s pending bytes Hf Hb; cbn [chunks_text foldr] in *.
  - cbn [read_chunks rbind fst snd]. rewrite consume_fits by done.
    change (chunks_text [] tail) with tail. set (pieces := split_on LFc (pending ++ tail)).
    assert (Hp : map chop_return pieces = map chop_return (removelast pieces) ++ [chop_return (List.last pieces "")])
      by (rewrite <- (removelast_last pieces "" (split_on_nonempty _ _)) at 1; by rewrite map_app).
    rewrite Hp, scan_all_app. cbn [scan_all].
    destruct (scan_all _ _ _ _ _) as [s'|e]; [|done]. cbn [rbind fst snd]. by destruct (scan_line _ _ _ _ _).
  - fold (chunks_text reads tail) in *. cbn [snd fst chunks_bytes foldr] in *. fold (chunks_bytes reads) in *.
    assert (0 <= chunks_bytes reads).
    { clear -Hrs. induction Hrs; simpl; [lia|]. unfold chunks_bytes in *. simpl. lia. }
    cbn [read_chunks]. destruct (Z.ltb_spec MAX_PREVIEW_RAW_CONFIG_BYTES (bytes + n)); [lia|]. cbn [throw_if rbind].
    rewrite <- append_assoc in Hf. destruct (fits_two _ _ Hf) as [Hl Hf'].
    unfold consume at 1. rewrite <- append_assoc, (split_on_two LFc (pending ++ chunk)), map_app, scan_all_app.
    destruct (scan_all _ _ _ s _) as [s'|e]; [|done]. cbn [rbind].
    destruct (Z.ltb_spec MAX_PREVIEW_CONFIG_BYTES (utf8_length (List.last (split_on LFc (pending ++ chunk)) ""))); [lia|].
    cbn [throw_if rbind fst snd]. apply IH; [done|lia].
Qed.

(** reading an active configuration in chunks gives the preview of its text:
    however the reads cut the file, in the middle of a line or of its break,
    the scanner sees the lines of the whole. *)
Theorem chunked_preview_is_the_preview reads tail :
  let text := chunks_text reads tail in
  Forall (fun r => 0 <= fst r) reads -> chunks_bytes reads <= MAX_PREVIEW_RAW_CONFIG_BYTES -> fits text ->
  ends_with (String (ascii_of_nat 13) "") text = false ->
  readFirewallPreviewConfig id reads tail = summarizeFirewallPreviewConfig id None MAX_PREVIEW_CONFIG_BYTES text.
Proof.
  intros text Hr Hb Hf Hend. unfold readFirewallPreviewConfig, summarizeFirewallPreviewConfig, summarize_lines.
  rewrite (read_all reads Hr tail new_scanner "" 0 Hf Hb). f_equal. f_equal. unfold split_crlf.
  change ("" ++ chunks_text reads tail)%string with text.
  assert (Hlast : chop_return (List.last (split_on LFc text) "") = List.last (split_on LFc text) "").
  { unfold chop_return. destruct (ends_with _ (List.last _ _)) eqn:E; [|done].
    apply ends_with_spec in E as [q E]. destruct (last_suffix LFc text) as [r Hr'].
    rewrite Hr', E, <- append_assoc in Hend. assert (ends_with (String (ascii_of_nat 13) "") ((r ++ q) ++ String (ascii_of_nat 13) "") = true)
      by (apply ends_with_spec; by eexists). congruence. }
  revert Hlast. generalize (split_on LFc text). induction l as [|w [|w' ws] IH]; intros Hlast; simpl in *; [done|by rewrite Hlast|].
  rewrite <- IH by done. done.
Qed.
End Chunks.

(** ** Concrete instances *)

#[global] Instance toy_sha : Sha256 := {| sha256 s := show_Z (strlen s) |}.

Lemma preview_witness : exists f, buildFirewallRender "" demo_host demo_lists None = Ok (Some f) /\
  summarize_lines (fw_id f) None 4096 ("upstream a;" :: marker :: geo_tables (fw_id f) f ++ ["server {"; "}"])
    = bounded 4096 ("upstream a;" :: marker :: shown_tables (fw_id f) f ++ ["server {"; "}"]).
Proof.
  assert (E : normalizeFirewallPolicy demo_settings = Ok (Some demo_policy)) by by vm_compute.
  destruct (preview_hides_the_tables demo_settings demo_policy "" demo_host demo_lists None ["upstream a;"] ["server {"; "}"] 4096 E
    eq_refl eq_refl eq_refl eq_refl) as (f & Hf & Hd).
  - apply NoDup_singleton.
  - repeat constructor.
  - done.
  - lia.
  - constructor; [|constructor]. split; [|by vm_compute]. intros Hm. by vm_compute in Hm.
  - exists f. split; [exact Hf|]. exact (proj1 Hd).
Defined.

Definition CRLF : string := String (ascii_of_nat 13) LF.

(** The reads cut a line and its break. *)
Definition demo_reads : list (Z * string) := [(4, "# a"); (5, String (ascii_of_nat 13) ""); (6, LF ++ "serv")]%string.

Lemma chunks_witness :
  readFirewallPreviewConfig 3 demo_reads "er {" = summarizeFirewallPreviewConfig 3 None MAX_PREVIEW_CONFIG_BYTES ("# a" ++ CRLF ++ "server {")%string.
Proof.
  apply (chunked_preview_is_the_preview 3 demo_reads "er {").
  - repeat constructor; by vm_compute.
  - by vm_compute.
  - repeat constructor; by vm_compute.
  - by vm_compute.
Defined.

(** A rule that is not a rule stops the preview. *)
Example malformed_table :
  summarize_lines 3 None 4096 [marker; "geo $spm_fw_3_allow {"; "    default 0;"; "    1.2.3.4 0;"] = Throw malformed.
Proof. by vm_compute. Qed.
