(* ===== verification/FirewallDownload.v ===== *)
(** Downloads of firewall lists: src/backend/lib/firewall-download.js.

    DNS, the HTTPS responses, the URL and address libraries and the UTF-8
    decoder are parameters.  A deadline that fires shows as a failed lookup or
    a failed response. *)

From S2P Require Import Prelude JsString JsValue Errors FirewallAddresses Firewall FirewallRender.
#[local] Open Scope string_scope.
#[local] Open Scope list_scope.
#[local] Open Scope Z_scope.

(** ** The code *)

Definition MAX_BYTES : Z := 8 * 1024 * 1024.
Definition MAX_REDIRECTS : nat := 3.
Definition REDIRECT_STATUSES : list Z := [301; 302; 303; 307; 308].
Definition BLOCKED_IPV6_RANGES : list string := ["2001::/23"; "2001:db8::/32"; "2002::/16"; "3fff::/20"].

(** [range()] of an ipaddr.js address. *)
Class IpRange : Type := { ip_range : address -> string }.

(** The strict decoder: [None] where it throws. *)
Class TextDecode : Type := { decode_utf8 : list string -> option string }.

Record response : Type := MkResponse {
  rs_statusCode : Z;
  rs_location : option string;
  rs_encoding : option string;
  rs_length : option string;
  rs_chunks : list string;
  rs_complete : bool
}.

(** One destination: what DNS says of a host name and what the server answers. *)
Record hop : Type := MkHop {
  hop_dns : string -> fallible (list (string * Z));
  hop_response : fallible response
}.

Record connection : Type := MkConnection { cn_url : url; cn_addresses : list (string * Z) }.

Inductive outcome : Type := Text (text : string) | Redirect (location : string).

(** [/[\s\u0000-\u001f\u007f]/] *)
Definition unsafe_char (c : ascii) : bool := is_space c || (code c <=? 31) || (code c =? 127).

(** [replace(/^\[|\]$/g, "")] *)
Definition strip_brackets (s : string) : string :=
  let s := if starts_with "[" s then drop_str 1 s else s in
  if ends_with "]" s then take_str (String.length s - 1) s else s.

Fixpoint take_until (stop : ascii -> bool) (s : string) : string :=
  match s with
  | String c rest => if stop c then "" else String c (take_until stop rest)
  | EmptyString => ""
  end.

Section Download.
Context `{IpLib} `{IpRange} `{UrlLib} `{TextDecode}.

Definition isPublicAddress (address : string) : bool :=
  if has_char "%" address || (isIP address =? 0) then false
  else
    let parsed := ip_parse address in
    let normalized := if isIPv4MappedAddress parsed then toIPv4Address parsed else parsed in
    match normalized with
    | V4 _ => String.eqb (ip_range normalized) "unicast" && negb (String.eqb (ip_toString normalized) "168.63.129.16")
    | V6 _ => String.eqb (ip_range normalized) "unicast" && contains (ip_parseCIDR "2000::/3") normalized
              && negb (existsb (fun range => contains (ip_parseCIDR range) normalized) BLOCKED_IPV6_RANGES)
    end.

Definition not_https : error := ValidationError "Firewall list source must be an HTTPS URL without a fragment (maximum 2048 characters)".
Definition not_public : error := ValidationError "Firewall list source must resolve only to public IP addresses".

Definition validateSourceUrl (v : value) : fallible url :=
  match v with
  | VStr sourceUrl =>
      throw not_https
        when (String.eqb sourceUrl "" || (2048 <? strlen sourceUrl) || negb (starts_with "https://" (to_lower sourceUrl))
              || any_char unsafe_char sourceUrl || has_char "\" sourceUrl || has_char "#" sourceUrl) ;;
      match new_URL sourceUrl with
      | None => Throw (ValidationError "Firewall list source URL is invalid")
      | Some url =>
          let authority := take_until (fun c => any_char (Ascii.eqb c) "/?#") (drop_str 8 sourceUrl) in
          throw ValidationError "Firewall list source requires HTTPS without credentials or a fragment"
            when (negb (String.eqb (u_protocol url) "https:") || String.eqb (u_hostname url) ""
                  || negb (String.eqb (u_username url) "") || negb (String.eqb (u_password url) "")
                  || negb (String.eqb (u_hash url) "") || (2048 <? strlen (u_href url)) || has_char "@" authority) ;;
          let hostname := strip_brackets (u_hostname url) in
          throw not_public when (negb (isIP hostname =? 0) && negb (isPublicAddress hostname)) ;;
          Ok url
      end
  | _ => Throw not_https
  end.

Definition resolvePublicAddresses (h : hop) (u : url) : fallible (list (string * Z)) :=
  let hostname := strip_brackets (u_hostname u) in
  let literalFamily := isIP hostname in
  let? addresses := if negb (literalFamily =? 0) then Ok [(hostname, literalFamily)] else hop_dns h hostname in
  throw not_public
    when (Nat.eqb (length addresses) 0 || existsb (fun a => negb (isPublicAddress (fst a))) addresses) ;;
  Ok addresses.

(** The addresses a socket may be given, for a family or any. *)
Definition pinnedLookup (addresses : list (string * Z)) (family : option Z) : fallible (list (string * Z)) :=
  let candidates := match family with
                    | Some f => if f =? 0 then addresses else List.filter (fun a => snd a =? f) addresses
                    | None => addresses
                    end in
  throw ValidationError "Firewall list source has no validated address for this IP family"
    when (Nat.eqb (length candidates) 0) ;;
  Ok candidates.

(** The data events: the bytes received, unless they exceed the limit. *)
Fixpoint receive (received : Z) (chunks : list string) : fallible Z :=
  match chunks with
  | [] => Ok received
  | chunk :: rest =>
      throw ValidationError "Firewall list download exceeds the 8 MiB limit" when (MAX_BYTES <? received + strlen chunk) ;;
      receive (received + strlen chunk) rest
  end.

Definition bad_size : error := ValidationError "Firewall list download exceeds the 8 MiB limit or has an invalid size".

Definition readResponse (h : hop) : fallible outcome :=
  match hop_response h with
  | Throw _ => Throw (ValidationError "Firewall list download failed")
  | Ok incoming =>
      if existsb (Z.eqb (rs_statusCode incoming)) REDIRECT_STATUSES then
        match rs_location incoming with
        | Some location =>
            throw ValidationError "Firewall list redirect is missing its destination" when (String.eqb location "") ;;
            Ok (Redirect location)
        | None => Throw (ValidationError "Firewall list redirect is missing its destination")
        end
      else
        throw ValidationError ("Firewall list source returned HTTP " ++ show_Z (rs_statusCode incoming))
          when (negb (rs_statusCode incoming =? 200)) ;;
        throw ValidationError "Firewall list source must return uncompressed text"
          when (match rs_encoding incoming with
                | Some e => negb (String.eqb e "") && negb (String.eqb (to_lower (trim e)) "identity")
                | None => false
                end) ;;
        throw bad_size
          when (match rs_length incoming with
                | Some l => String.eqb l "" || negb (all_chars is_digit l) || (MAX_SAFE_INTEGER <? read_Z l) || (MAX_BYTES <? read_Z l)
                | None => false
                end) ;;
        let? receivedBytes := receive 0 (rs_chunks incoming) in
        throw ValidationError "Firewall list download was incomplete"
          when (negb (rs_complete incoming)
                || match rs_length incoming with Some l => negb (read_Z l =? receivedBytes) | None => false end) ;;
        match decode_utf8 (rs_chunks incoming) with
        | Some text => Ok (Text text)
        | None => Throw (ValidationError "Firewall list source must contain valid UTF-8 text")
        end
  end.

Definition bad_redirect : error := ValidationError "Firewall list redirect destination is invalid or not public HTTPS".

(** The loop with [left] redirects to go; [log] holds the connections made. *)
Fixpoint follow (left : nat) (u : url) (hops : nat -> hop) (log : list connection) : fallible string * list connection :=
  let h := hops (MAX_REDIRECTS - left)%nat in
  match resolvePublicAddresses h u with
  | Throw e => (Throw e, log)
  | Ok addresses =>
      let log := log ++ [MkConnection u addresses] in
      match readResponse h with
      | Throw e => (Throw e, log)
      | Ok (Text text) => (Ok text, log)
      | Ok (Redirect location) =>
          match left with
          | O => (Throw (ValidationError "Firewall list source exceeded the maximum of 3 redirects"), log)
          | S left' =>
              match (match resolve_URL location u with Some next => validateSourceUrl (VStr (u_href next)) | None => Throw bad_redirect end) with
              | Throw _ => (Throw bad_redirect, log)
              | Ok next => follow left' next hops log
              end
          end
      end
  end.

Definition download (sourceUrl : value) (hops : nat -> hop) : fallible string * list connection :=
  match validateSourceUrl sourceUrl with
  | Throw e => (Throw e, [])
  | Ok u => follow MAX_REDIRECTS u hops []
  end.

Definition is_validation (e : error) : bool := match e_class e with CValidation => true | _ => false end.

Definition fetchIpList (sourceUrl : value) (hops : nat -> hop) : fallible string * list connection :=
  match download sourceUrl hops with
  | (Ok text, log) => (Ok text, log)
  | (Throw e, log) => (Throw (if is_validation e then e else ValidationError "Firewall list download failed"), log)
  end.
End Download.

(** ** Where a download goes *)

Section Safety.
Context `{IpLib} `{IpRange} `{UrlLib} `{TextDecode}.

(** A connection the download may make. *)
Definition safe_connection (c : connection) : Prop :=
  u_protocol (cn_url c) = "https:" /\ u_username (cn_url c) = "" /\ u_password (cn_url c) = "" /\
  cn_addresses c <> [] /\ Forall (fun a => isPublicAddress (fst a) = true) (cn_addresses c) /\
  (isIP (strip_brackets (u_hostname (cn_url c))) <> 0 -> map fst (cn_addresses c) = [strip_brackets (u_hostname (cn_url c))]).

Definition safe_url (u : url) : Prop := u_protocol u = "https:" /\ u_username u = "" /\ u_password u = "".

Lemma validate_safe v u : validateSourceUrl v = Ok u -> safe_url u.
Proof.
  unfold validateSourceUrl. destruct v as [| | | | |s| |]; try done. intros Hv. ok_inv Hv.
  destruct (new_URL s) as [w|]; [|done]. ok_inv Hv. ok_inv Hv. injection Hv as <-. boolify. done.
Qed.

Lemma resolve_safe h u addresses : safe_url u -> resolvePublicAddresses h u = Ok addresses ->
  safe_connection (MkConnection u addresses).
Proof.
  intros (Hu1 & Hu2 & Hu3) Hr. unfold resolvePublicAddresses in Hr. ok_inv Hr. ok_inv Hr. injection Hr as <-.
  apply orb_false_iff in G as [Hne Hall]. apply Nat.eqb_neq in Hne. unfold safe_connection. cbn [cn_url cn_addresses].
  split_and!; try done; [by destruct v| |].
  - apply Forall_forall. intros a Ha. destruct (isPublicAddress (fst a)) eqn:Ea; [done|].
    enough (existsb (fun a => negb (isPublicAddress (fst a))) v = true) by congruence.
    apply existsb_exists. exists a. split; [by apply list_elem_of_In|by rewrite Ea].
  - intros Hip. apply Z.eqb_neq in Hip. rewrite Hip in E. by injection E as <-.
Qed.

Lemma receive_bound received chunks total : receive received chunks = Ok total -> received <= MAX_BYTES ->
  total = received + foldr (fun c n => strlen c + n) 0 chunks /\ total <= MAX_BYTES.
Proof.
  revert received. induction chunks as [|c chunks IH]; intros received; simpl; [intros [= <-]; lia|].
  intros Hr Hb. ok_inv Hr. apply Z.ltb_ge in G. destruct (IH _ Hr G). lia.
Qed.

(** A text that was downloaded: the strict decoding of at most 8 MiB. *)
Definition downloaded (text : string) : Prop :=
  exists chunks, decode_utf8 chunks = Some text /\ foldr (fun c n => strlen c + n) 0 chunks <= MAX_BYTES.

Lemma response_bound h text : readResponse h = Ok (Text text) -> downloaded text.
Proof.
  unfold readResponse. destruct (hop_response h) as [r|]; [|done]. destruct (existsb _ _).
  - destruct (rs_location r); [|done]. intros Hr. by ok_inv Hr.
  - intros Hr. ok_all Hr. destruct (decode_utf8 _) as [t|] eqn:Ed; [|done]. injection Hr as <-.
    exists (rs_chunks r). split; [done|]. apply receive_bound in E; [|by vm_compute]. lia.
Qed.

(** What a run of the loop adds to the log and returns. *)
Definition follows (left : nat) (log : list connection) (r : fallible string) (log' : list connection) : Prop :=
  exists more, log' = log ++ more /\ (length more <= S left)%nat /\ Forall safe_connection more /\
    match r with Ok text => downloaded text | Throw _ => True end.

Lemma follows_stop left log e : follows left log (Throw e) log.
Proof. exists []. rewrite app_nil_r. split; [done|]. split; [simpl; lia|]. by split; [constructor|]. Qed.

Lemma follows_one left log c r : safe_connection c -> match r with Ok text => downloaded text | Throw _ => True end ->
  follows left log r (log ++ [c]).
Proof. intros Hc Hr. exists [c]. split; [done|]. split; [simpl; lia|]. split; [|done]. by apply Forall_singleton. Qed.

Lemma follow_safe left : forall u hops log r log', safe_url u -> follow left u hops log = (r, log') -> follows left log r log'.
Proof.
  induction left as [|left IH]; intros u hops log r log' Hu; cbn [follow];
    (destruct (resolvePublicAddresses _ u) as [addresses|e] eqn:Er; [|intros [= <- <-]; apply follows_stop]);
    pose proof (resolve_safe _ _ _ Hu Er) as Hc;
    (destruct (readResponse _) as [[text|location]|e] eqn:Ep;
      [intros [= <- <-]; apply follows_one; [done|by eapply response_bound]| |intros [= <- <-]; by apply follows_one]).
  - intros [= <- <-]. by apply follows_one.
  - destruct (resolve_URL location u) as [next|]; [|intros [= <- <-]; by apply follows_one].
    destruct (validateSourceUrl _) as [w|e] eqn:Ew; [|intros [= <- <-]; by apply follows_one].
    intros Hf. destruct (IH _ _ _ _ _ (validate_safe _ _ Ew) Hf) as (more & -> & Hl & Hs & Hr).
    eexists. rewrite <- app_assoc. split; [done|]. split; [simpl; lia|]. split; [|done]. simpl. by constructor.
Qed.

(** C24: a list download only ever reaches public hosts.  Whatever DNS and the
    servers answer, at most four connections are made, all over HTTPS without
    credentials, each pinned to addresses that were all checked to be public
    (its own address for a literal host), for every address family; the text
    is the strict decoding of at most 8 MiB and every failure is a validation
    error. *)
Theorem downloads_only_reach_public_hosts source hops r log :
  fetchIpList source hops = (r, log) ->
  (length log <= 4)%nat /\ Forall safe_connection log /\
  (forall c family candidates, c ∈ log -> pinnedLookup (cn_addresses c) family = Ok candidates ->
     candidates <> [] /\ Forall (fun a => isPublicAddress (fst a) = true) candidates) /\
  match r with Ok text => downloaded text | Throw e => is_validation e = true end.
Proof.
  intros Hf.
  assert (Hd : exists r0, download source hops = (r0, log) /\
     match r with Ok text => r0 = Ok text | Throw e => is_validation e = true end).
  { unfold fetchIpList in Hf. destruct (download source hops) as [[text|e] log0]; injection Hf as <- <-; eexists; (split; [done|]); [done|].
    by destruct (is_validation e) eqn:E. }
  destruct Hd as (r0 & Hd & Hr0).
  assert (Hmore : (length log <= 4)%nat /\ Forall safe_connection log /\ match r0 with Ok text => downloaded text | Throw _ => True end).
  { unfold download in Hd. destruct (validateSourceUrl source) as [u|e] eqn:E.
    - destruct (follow_safe MAX_REDIRECTS u hops [] r0 log (validate_safe _ _ E) Hd) as (more & -> & Hl & Hs & Ht). done.
    - injection Hd as <- <-. split; [simpl; lia|]. split; [constructor|done]. }
  destruct Hmore as (Hl & Hs & Ht). split; [done|]. split; [done|]. split; [|by destruct r; [subst|]].
  intros c family candidates Hc Hp. rewrite Forall_forall in Hs. destruct (Hs _ Hc) as (_ & _ & _ & _ & Hpub & _).
  unfold pinnedLookup in Hp. ok_inv Hp. injection Hp as <-. apply Nat.eqb_neq in G.
  set (l := match family with Some f => _ | None => _ end) in *. split; [by destruct l|].
  assert (Hin : forall a, a ∈ l -> a ∈ cn_addresses c).
  { subst l. intros a. destruct family as [f|]; [|done]. destruct (f =? 0); [done|].
    rewrite !list_elem_of_In. by intros [? _]%List.filter_In. }
  rewrite Forall_forall in Hpub |- *. intros a Ha. by apply Hpub, Hin.
Qed.
End Safety.

(** ** A concrete download *)

#[global] Instance toy_range : IpRange := {|
  ip_range a := match a with V4 n => if n / 2 ^ 24 =? 127 then "loopback" else "unicast" | V6 _ => "unicast" end
|}.
#[global] Instance toy_decode : TextDecode := {| decode_utf8 chunks := Some (join "" chunks) |}.

(** A first host redirects to one whose name resolves to the machine itself. *)
Definition demo_hops (n : nat) : hop := match n with
  | O => MkHop (fun _ => Ok [("192.0.2.1", 4)]) (Ok (MkResponse 302 (Some "https://inside.example/") None None [] true))
  | _ => MkHop (fun _ => Ok [("127.0.0.1", 4)]) (Ok (MkResponse 200 None None None ["10.0.0.1"] true))
  end.

Definition demo_log : list connection :=
  [MkConnection (MkUrl "https:" "" "" "lists.example" "" "https://lists.example/a") [("192.0.2.1", 4)]].

Lemma download_witness :
  fetchIpList (VStr "https://lists.example/a") demo_hops = (Throw not_public, demo_log) /\ Forall safe_connection demo_log.
Proof.
  assert (E : fetchIpList (VStr "https://lists.example/a") demo_hops = (Throw not_public, demo_log)) by by vm_compute.
  split; [exact E|]. exact (proj1 (proj2 (downloads_only_reach_public_hosts _ _ _ _ E))).
Defined.
