(* ===== verification/FirewallLists.v ===== *)
(** Firewall lists: src/backend/internal/firewall-list.js and
    src/backend/lib/firewall-list-validation.js, over the configuration
    service of [Nginx] and the downloads of [FirewallDownload], with the
    reference check of src/backend/internal/firewall-policy.js.

    Each handler holds its locks to the end, so it is one function of the
    service state; the text a host renders to depends on the lists. *)

From stdpp Require Import gmap strings.
From S2P Require Import Prelude JsString JsValue Errors FirewallAddresses Firewall FirewallRender FirewallDownload Nginx.
#[local] Open Scope string_scope.
#[local] Open Scope list_scope.
#[local] Open Scope Z_scope.

(** ** Data *)

Record list_row : Type := MkRow {
  r_id : Z;
  r_owner : Z;
  r_name : string;
  r_reason : string;
  r_description : string;
  r_source_type : string;
  r_source_url : string;
  r_interval : Z;
  r_enabled : bool;
  r_entries : string;
  r_entry_count : Z;
  r_last_updated : option Z;
  r_last_error : option string;
  r_modified : Z;
  r_deleted : bool
}.

(** The firewall settings in the metadata of a host's row. *)
Class HostFirewall (B : Type) : Type := { hf_enabled : B -> bool; hf_list_ids : B -> list Z }.

(** Rendering reads the lists; the verdict of the server does not. *)
Class ListEnv (B : Type) : Type := {
  render_with : list list_row -> Z -> string -> Nginx.host B -> fallible string;
  files_verdict : file_tree -> option string
}.
Definition nginx_env {B} `{ListEnv B} (rows : list list_row) : NginxEnv B :=
  {| render_text := render_with rows; nginx_verdict := files_verdict |}.

Record service (B : Type) : Type := MkService {
  sv_lists : list list_row;
  sv_next : Z;
  sv_node : node B;
  sv_attempts : list (Z * Z);
  sv_audit : list (string * Z);
  sv_pushes : nat
}.
Arguments MkService {B} _ _ _ _ _ _.
Arguments sv_lists {B} _.
Arguments sv_next {B} _.
Arguments sv_node {B} _.
Arguments sv_attempts {B} _.
Arguments sv_audit {B} _.
Arguments sv_pushes {B} _.

(** The caller: what [can] decides (full visibility or an error) and the user. *)
Record caller : Type := MkCaller { ac_can : string -> fallible bool; ac_user : Z }.

(** Which database writes of [applyList] fail. *)
Record faults : Type := MkFaults { ft_patch : option error; ft_restore : bool }.

(** ** Validation *)

Record list_input : Type := MkListInput {
  li_name : string; li_reason : string; li_description : string; li_source_type : string; li_source_url : string;
  li_interval : Z; li_enabled : bool; li_entries : string; li_count : Z
}.

(** The columns a patch sets: the fields of the form, and the entries with the
    time they were checked. *)
Record list_patch : Type := MkPatch { pt_fields : option list_input; pt_entries : option (string * Z * Z) }.

Definition row_field (field : string) (r : list_row) : value :=
  if String.eqb field "name" then VStr (r_name r)
  else if String.eqb field "reason" then VStr (r_reason r)
  else if String.eqb field "description" then VStr (r_description r)
  else if String.eqb field "source_type" then VStr (r_source_type r)
  else if String.eqb field "source_url" then VStr (r_source_url r)
  else if String.eqb field "update_interval_hours" then VInt (r_interval r)
  else if String.eqb field "enabled" then VBool (r_enabled r)
  else VStr (r_entries r).

Definition combined (data : value) (previous : option list_row) (field : string) (fallback : value) : value :=
  if has_own field data then get field data
  else match previous with Some r => row_field field r | None => fallback end.

Definition limited (field : string) (max : Z) (v : value) : fallible string :=
  match v with
  | VStr s =>
      throw ValidationError ("Invalid firewall list " ++ field) when ((max <? strlen s) || has_char (ascii_of_nat 0) s) ;;
      Ok s
  | _ => Throw (ValidationError ("Invalid firewall list " ++ field))
  end.

(** The numbers of the first ten bad lines. *)
Definition invalid_lines (l : ip_list) : error :=
  ValidationError ("Invalid firewall list entries on line(s): "
                   ++ join ", " (map (fun i => show_Z (fst i)) (firstn 10 (il_invalid l)))).

Section Validation.
Context `{IpLib} `{IpRange} `{UrlLib}.

Definition valid_list (content : value) : fallible ip_list :=
  let? parsed := parseIpList content in
  throw invalid_lines parsed when (negb (Nat.eqb (length (il_invalid parsed)) 0)) ;;
  Ok parsed.

Definition normalizeListInput (data : value) (previous : option list_row) : fallible list_input :=
  let field := combined data previous in
  let? name := limited "name" 255 (field "name" (VStr "")) in
  let? reason := limited "reason" 2000 (field "reason" (VStr "")) in
  let? description := limited "description" 4000 (field "description" (VStr "")) in
  throw ValidationError "Firewall lists require a name and public reason"
    when (String.eqb (trim name) "" || String.eqb (trim reason) "") ;;
  let type := str_or "" (field "source_type" (VStr "manual")) in
  throw ValidationError "Firewall source type must be manual or url"
    when (negb (String.eqb type "manual" || String.eqb type "url")) ;;
  throw ValidationError "Invalid firewall enabled value" when (negb (is_bool (field "enabled" (VBool true)))) ;;
  throw ValidationError "Firewall update interval must be between 6 and 168 hours"
    when (negb (int_between 6 168 (field "update_interval_hours" (VInt 24)))) ;;
  let url := field "source_url" (VStr "") in
  let? source_url := if String.eqb type "url" then rmap (fun _ => str_or "" url) (validateSourceUrl url) else Ok "" in
  let? parsed := valid_list (field "entries" (VStr "")) in
  Ok (MkListInput name reason description type source_url (int_or 0 (field "update_interval_hours" (VInt 24)))
        (bool_or false (field "enabled" (VBool true))) (join LF (il_entries parsed)) (Z.of_nat (length (il_entries parsed)))).

(** Entries as they are stored, their number and the time of the check. *)
Definition checkedEntries (now : Z) (content : string) (remote : bool) : fallible (string * Z * Z) :=
  let? parsed := valid_list (VStr content) in
  throw ValidationError "Downloaded firewall list is empty; the previous list was retained"
    when (remote && Nat.eqb (length (il_entries parsed)) 0) ;;
  Ok (join LF (il_entries parsed), Z.of_nat (length (il_entries parsed)), now).

Context `{TextDecode}.

Definition prepare (now : Z) (hops : nat -> hop) (data : value) (previous : option list_row) : fallible list_patch :=
  let? combined := normalizeListInput data previous in
  if String.eqb (li_source_type combined) "manual" then
    if match previous with None => true | Some r => has_own "entries" data || negb (String.eqb (r_source_type r) "manual") end
    then let? checked := checkedEntries now (li_entries combined) false in Ok (MkPatch (Some combined) (Some checked))
    else Ok (MkPatch (Some combined) None)
  else
    throw ValidationError "URL firewall lists fetch their entries from the configured source" when (has_own "entries" data) ;;
    if match previous with
       | None => true
       | Some r => negb (String.eqb (r_source_type r) "url") || negb (String.eqb (r_source_url r) (li_source_url combined))
                   || (li_enabled combined && (r_entry_count r =? 0))
       end
    then let? content := fst (fetchIpList (VStr (li_source_url combined)) hops) in
         let? checked := checkedEntries now content true in
         Ok (MkPatch (Some combined) (Some checked))
    else Ok (MkPatch (Some combined) None).
End Validation.

(** ** Rows *)

(** [patchAndFetchById(id, patch)]: [_.omit(combined, "entries")] keeps the count. *)
Definition apply_patch (now : Z) (p : list_patch) (r : list_row) : list_row :=
  let r := match pt_fields p with
           | Some i => MkRow (r_id r) (r_owner r) (li_name i) (li_reason i) (li_description i) (li_source_type i)
                         (li_source_url i) (li_interval i) (li_enabled i) (r_entries r) (li_count i) (r_last_updated r)
                         (r_last_error r) now (r_deleted r)
           | None => r
           end in
  match pt_entries p with
  | Some (entries, count, checked) =>
      MkRow (r_id r) (r_owner r) (r_name r) (r_reason r) (r_description r) (r_source_type r) (r_source_url r)
        (r_interval r) (r_enabled r) entries count (Some checked) None now (r_deleted r)
  | None => r
  end.

(** The columns a failed update puts back. *)
Definition restore_row (now : Z) (previous r : list_row) : list_row :=
  MkRow (r_id r) (r_owner r) (r_name previous) (r_reason previous) (r_description previous) (r_source_type previous)
    (r_source_url previous) (r_interval previous) (r_enabled previous) (r_entries previous) (r_entry_count previous)
    (r_last_updated previous) (r_last_error previous) now (r_deleted r).

(** [_.isEqual] on the editable columns and the time of the last change. *)
Definition same_version (a b : list_row) : bool :=
  String.eqb (r_name a) (r_name b) && String.eqb (r_reason a) (r_reason b) && String.eqb (r_description a) (r_description b)
  && String.eqb (r_source_type a) (r_source_type b) && String.eqb (r_source_url a) (r_source_url b)
  && (r_interval a =? r_interval b) && Bool.eqb (r_enabled a) (r_enabled b) && String.eqb (r_entries a) (r_entries b)
  && (r_modified a =? r_modified b).

Definition row_id (id : Z) (r : list_row) : bool := r_id r =? id.
Definition live_row (id : Z) (r : list_row) : bool := row_id id r && negb (r_deleted r).

Definition errorMessage (e : error) : string :=
  take_str 1024 (if String.eqb (e_message e) "" then "Firewall list refresh failed" else e_message e).

(** ** The service *)

Section Service.
Context {B : Type} `{HostFirewall B} `{ListEnv B}.
Context `{IpLib} `{IpRange} `{UrlLib} `{TextDecode}.
Implicit Types (s : service B).

Definition set_lists (rows : list list_row) s : service B :=
  MkService rows (sv_next s) (sv_node s) (sv_attempts s) (sv_audit s) (sv_pushes s).
Definition set_node (n : node B) s : service B :=
  MkService (sv_lists s) (sv_next s) n (sv_attempts s) (sv_audit s) (sv_pushes s).
Definition set_attempts (m : list (Z * Z)) s : service B :=
  MkService (sv_lists s) (sv_next s) (sv_node s) m (sv_audit s) (sv_pushes s).
(** The audit entry and the push that follow a change. *)
Definition audited (what : string) (id : Z) s : service B :=
  MkService (sv_lists s) (sv_next s) (sv_node s) (sv_attempts s) (sv_audit s ++ [(what, id)]) (sv_pushes s).
Definition pushed s : service B :=
  MkService (sv_lists s) (sv_next s) (sv_node s) (sv_attempts s) (sv_audit s) (S (sv_pushes s)).

Definition find_list (id : Z) s : option list_row := first_where (live_row id) (sv_lists s).

Definition includes_id (ids : list Z) (id : Z) : bool := existsb (Z.eqb id) ids.

Definition referenceHosts (id : Z) (n : node B) : list (Nginx.host B) :=
  select_where (fun h => negb (n_is_deleted h) && includes_id (hf_list_ids (n_body h)) id) (nd_hosts n "proxy_host").

(** The hosts an update has to render again. *)
Definition affected (id : Z) (n : node B) : list (@stage B) :=
  map (fun h => ("proxy_host", h)) (List.filter (fun h => n_enabled h && hf_enabled (n_body h)) (referenceHosts id n)).

Definition conflict : error := ValidationError "Firewall list changed during this operation; reload and try again".

Definition incomplete (data files reload : bool) (e : error) : error :=
  let failures := (if data then ["list data"] else []) ++ (if files then ["host configuration/status"] else [])
                  ++ (if reload then ["Nginx reload"] else []) in
  ConfigurationError ("Firewall list update failed; "
    ++ (match failures with [] => "previous list retained" | _ => "recovery incomplete (" ++ join ", " failures ++ ")" end)
    ++ ": " ++ errorMessage e).

(** The handler of a failed update: the data first, then every file, then the server. *)
Definition recover (now : Z) (f : faults) (previous : list_row) (stages : list (@stage B)) (e : error) s
    : fallible list_row * service B :=
  let env := nginx_env (sv_lists s) in
  let s1 := if ft_restore f then s
            else set_lists (patch_where (row_id (r_id previous)) (restore_row now previous) (sv_lists s)) s in
  let '(rollbacks, n1) := rollback_all e stages (sv_node s1) in
  let '(reload_failed, n2) :=
    match stages with
    | [] => (false, n1)
    | _ => let '(r, n2) := @reload B env n1 in (negb (is_ok r), n2)
    end in
  (Throw (incomplete (ft_restore f) (existsb (fun r => negb (is_ok r)) rollbacks) reload_failed e), set_node n2 s1).

Definition applyList (now : Z) (f : faults) (previous : list_row) (patch : list_patch) s : fallible list_row * service B :=
  match find_list (r_id previous) s with
  | None => (Throw conflict, s)
  | Some current =>
      if negb (same_version current previous) then (Throw conflict, s)
      else
        match ft_patch f with
        | Some e => recover now f previous [] e s
        | None =>
            let rows := patch_where (row_id (r_id previous)) (apply_patch now patch) (sv_lists s) in
            let s1 := set_lists rows s in
            let env := nginx_env rows in
            match @stage_all B env now (affected (r_id previous) (sv_node s)) [] (sv_node s1) with
            | (stages, Some e, n1) => recover now f previous stages e (set_node n1 s1)
            | (stages, None, n1) =>
                match stages with
                | [] => (Ok (apply_patch now patch current), set_node n1 s1)
                | _ =>
                    match bind (@test B env) (fun _ => @reload B env) n1 with
                    | (Throw e, n2) => recover now f previous stages e (set_node n2 s1)
                    | (Ok _, n2) =>
                        let '(_, n3) := all_settled (fun st => commitStagedConfig (fst st) (snd st) false) stages n2 in
                        (Ok (apply_patch now patch current), set_node n3 s1)
                    end
                end
            end
        end
  end.

Definition recordError (now : Z) (id : Z) (e : error) s : service B :=
  set_lists (patch_where (live_row id)
    (fun r => MkRow (r_id r) (r_owner r) (r_name r) (r_reason r) (r_description r) (r_source_type r) (r_source_url r)
       (r_interval r) (r_enabled r) (r_entries r) (r_entry_count r) (r_last_updated r) (Some (errorMessage e)) now (r_deleted r))
    (sv_lists s)) s.

Definition refreshList (now : Z) (f : faults) (hops : nat -> hop) (previous : list_row) s : fallible list_row * service B :=
  if negb (String.eqb (r_source_type previous) "url")
  then (Throw (ValidationError "Only URL firewall lists can be refreshed"), s)
  else
    let s := set_attempts (map_set (r_id previous) now (sv_attempts s)) s in
    let '(r, s1) :=
      match (let? content := fst (fetchIpList (VStr (r_source_url previous)) hops) in checkedEntries now content true) with
      | Throw e => (Throw e, s)
      | Ok checked => applyList now f previous (MkPatch None (Some checked)) s
      end in
    match r with
    | Ok row => (Ok row, s1)
    | Throw e => (Throw e, recordError now (r_id previous) e s1)
    end.

(** *** Handlers *)

Definition get_list (a : caller) (id : Z) s : fallible list_row :=
  let? all := ac_can a "access_lists:get" in
  match find_list id s with
  | Some r => throw ItemNotFoundError (Some id) when (negb all && negb (r_owner r =? ac_user a)) ;; Ok r
  | None => Throw (ItemNotFoundError (Some id))
  end.

Definition getAll (a : caller) s : fallible (list list_row) :=
  let? all := ac_can a "access_lists:list" in
  Ok (select_where (fun r => negb (r_deleted r) && (all || (r_owner r =? ac_user a))) (sv_lists s)).

Definition create (a : caller) (now : Z) (hops : nat -> hop) (data : value) s : fallible list_row * service B :=
  match (let? _ := ac_can a "access_lists:create" in prepare now hops data None) with
  | Throw e => (Throw e, s)
  | Ok p =>
      let row := apply_patch now p (MkRow (sv_next s) (ac_user a) "" "" "" "manual" "" 24 true "" 0 None None now false) in
      (Ok row, pushed (audited "created" (r_id row)
         (MkService (sv_lists s ++ [row]) (sv_next s + 1) (sv_node s) (sv_attempts s) (sv_audit s) (sv_pushes s))))
  end.

Definition update (a : caller) (now : Z) (f : faults) (hops : nat -> hop) (id : Z) (data : value) s
    : fallible list_row * service B :=
  match (let? _ := ac_can a "access_lists:update" in
         let? previous := get_list a id s in
         let? p := prepare now hops data (Some previous) in Ok (previous, p)) with
  | Throw e => (Throw e, s)
  | Ok (previous, p) =>
      match applyList now f previous p s with
      | (Ok row, s1) => (Ok row, pushed (audited "updated" id s1))
      | (Throw e, s1) => (Throw e, s1)
      end
  end.

(** [preview] *)
Definition preview (a : caller) (entries : value) : fallible (ip_list * Z) :=
  let? _ := ac_can a "access_lists:list" in
  rmap (fun parsed => (parsed, Z.of_nat (length (il_entries parsed)))) (parseIpList entries).

Definition delete_list (a : caller) (now : Z) (id : Z) s : fallible unit * service B :=
  match (let? _ := ac_can a "access_lists:delete" in get_list a id s) with
  | Throw e => (Throw e, s)
  | Ok _ =>
      match referenceHosts id (sv_node s) with
      | _ :: _ => (Throw (ValidationError "Firewall list is still assigned to a proxy host; remove its assignments first"), s)
      | [] =>
          let rows := patch_where (row_id id)
            (fun r => MkRow (r_id r) (r_owner r) (r_name r) (r_reason r) (r_description r) (r_source_type r) (r_source_url r)
               (r_interval r) (r_enabled r) (r_entries r) (r_entry_count r) (r_last_updated r) (r_last_error r)
               now true) (sv_lists s) in
          (Ok tt, pushed (set_attempts (List.filter (fun kv => negb (fst kv =? id)) (sv_attempts s))
                    (audited "deleted" id (set_lists rows s))))
      end
  end.

Definition refresh (a : caller) (now : Z) (f : faults) (hops : nat -> hop) (id : Z) s : fallible list_row * service B :=
  match (let? _ := ac_can a "access_lists:update" in get_list a id s) with
  | Throw e => (Throw e, s)
  | Ok previous =>
      match refreshList now f hops previous s with
      | (Ok row, s1) => (Ok row, pushed (audited "updated" id s1))
      | (Throw e, s1) => (Throw e, s1)
      end
  end.

(** *** Lists of a host *)

Definition assertExistForHost (ids : list Z) s : fallible unit :=
  match List.find (fun id => negb (existsb (live_row id) (sv_lists s))) ids with
  | Some id => Throw (ValidationError ("Firewall list " ++ show_Z id ++ " no longer exists"))
  | None => Ok tt
  end.

Definition list_for_host (rows : list list_row) (id : Z) : fallible (list fw_list) :=
  match first_where (live_row id) rows with
  | None => Throw (ConfigurationError ("Firewall list " ++ show_Z id ++ " no longer exists"))
  | Some r =>
      if negb (r_enabled r) then Ok []
      else
        let? parsed := parseIpList (VStr (r_entries r)) in
        throw ConfigurationError ("Firewall list " ++ show_Z id ++ " contains invalid entries")
          when (negb (Nat.eqb (length (il_invalid parsed)) 0)) ;;
        Ok [MkFwList (r_id r) (r_name r) (r_reason r) (il_entries parsed)]
  end.

Definition getForHost (rows : list list_row) (ids : list Z) : fallible (list fw_list) :=
  rmap (@concat fw_list) (rmapM (list_for_host rows) ids).

(** [withFirewallReferences]: a host row is written once its lists are known to exist. *)
Definition withFirewallReferences {A} (ids : list Z) (write : service B -> fallible A * service B) s
    : fallible A * service B :=
  match ids with
  | [] => write s
  | _ => match assertExistForHost ids s with Throw e => (Throw e, s) | Ok _ => write s end
  end.

(** *** The scheduler *)

Definition isDue (now : Z) (attempts : list (Z * Z)) (r : list_row) : bool :=
  (r_interval r * 3600000 <=? now - default 0 (r_last_updated r))
  && (15 * 60000 <=? now - default 0 (map_get (r_id r) attempts)).

Definition subscribed (r : list_row) : bool := String.eqb (r_source_type r) "url" && r_enabled r.

(** One turn of the loop: the row is read again under the list's lock. *)
Definition process_one (now : Z) (f : faults) (hops : nat -> hop) (r : list_row) s : service B :=
  if negb (isDue now (sv_attempts s) r) then s
  else match find_list (r_id r) s with
       | Some current =>
           if subscribed current && isDue now (sv_attempts s) current then
             match refreshList now f hops current s with
             | (Ok _, s1) => pushed s1
             | (Throw _, s1) => s1
             end
           else s
       | None => s
       end.

(** A run of the timer; the clock and the downloads of each list. *)
Definition process (now : Z -> Z) (f : faults) (hops : Z -> nat -> hop) s : service B :=
  fold_left (fun s r => process_one (now (r_id r)) f (hops (r_id r)) r s)
    (select_where (fun r => negb (r_deleted r) && subscribed r) (sv_lists s)) s.
End Service.

(** ** Updates are all or nothing *)

(** The same settings and entries; only bookkeeping columns may differ. *)
Definition same_settings (a b : list_row) : Prop :=
  r_id a = r_id b /\ r_owner a = r_owner b /\ r_name a = r_name b /\ r_reason a = r_reason b /\
  r_description a = r_description b /\ r_source_type a = r_source_type b /\ r_source_url a = r_source_url b /\
  r_interval a = r_interval b /\ r_enabled a = r_enabled b /\ r_entries a = r_entries b /\ r_deleted a = r_deleted b.

Lemma same_settings_refl a : same_settings a a.
Proof. by repeat split. Qed.

Lemma same_version_spec a b : same_version a b = true ->
  r_name a = r_name b /\ r_reason a = r_reason b /\ r_description a = r_description b /\
  r_source_type a = r_source_type b /\ r_source_url a = r_source_url b /\ r_interval a = r_interval b /\
  r_enabled a = r_enabled b /\ r_entries a = r_entries b.
Proof.
  unfold same_version. intros Hs. boolify. by repeat match goal with E : Bool.eqb _ _ = true |- _ => apply Bool.eqb_prop in E end.
Qed.

Lemma apply_patch_id now p r : r_id (apply_patch now p r) = r_id r /\ r_owner (apply_patch now p r) = r_owner r /\
  r_deleted (apply_patch now p r) = r_deleted r.
Proof. unfold apply_patch. by destruct (pt_fields p), (pt_entries p) as [[[? ?] ?]|]. Qed.

Section AllOrNothing.
Context {B : Type} `{HostFirewall B} `{ListEnv B}.
Implicit Types (s : service B) (n : node B).

Definition node_valid n : Prop := files_verdict (active_files (nd_files n)) = None.
(** The server runs the files on disk. *)
Definition serving n : Prop := nd_running n = active_files (nd_files n).

Lemma affected_nodup id n : NoDup (map n_id (nd_hosts n "proxy_host")) -> Forall (fun h => 0 <= n_id h) (nd_hosts n "proxy_host") ->
  List.NoDup (map cfg (affected id n)).
Proof.
  intros Hd Hpos. unfold affected, referenceHosts. rewrite map_map. unfold cfg. cbn [fst snd].
  set (hs := List.filter _ _). assert (Hsub : List.NoDup (map n_id hs) /\ forall h, In h hs -> 0 <= n_id h).
  { unfold hs, select_where. split.
    - by apply NoDup_map_select, NoDup_map_select, NoDup_ListNoDup.
    - intros h [[Hin _]%List.filter_In _]%List.filter_In. rewrite Forall_forall in Hpos. by apply Hpos, list_elem_of_In. }
  destruct Hsub as [Hnd Hge]. clear -Hnd Hge. induction hs as [|h hs IH]; [constructor|]. inversion Hnd as [|? ? Hni Hnd']; subst.
  simpl. constructor; [|apply IH; [done|by intros ? ?; apply Hge; right]].
  intros (h' & E & Hin)%in_map_iff. apply config_file_inj in E; [|done|apply Hge; by right|apply Hge; by left].
  apply Hni. rewrite <- E. by apply in_map.
Qed.

(** After recovery every active file is as before the staging, and so is the server. *)
Lemma recover_node now f previous stages e s n0 : node_valid n0 -> serving n0 ->
  List.NoDup (map cfg stages) -> staged (nd_files n0) stages (nd_files (sv_node s)) ->
  (stages = [] -> nd_running (sv_node s) = nd_running n0) ->
  exists err, fst (recover now f previous stages e s) = Throw err /\
  active_files (nd_files (sv_node (snd (recover now f previous stages e s)))) = active_files (nd_files n0) /\
  nd_running (sv_node (snd (recover now f previous stages e s))) = nd_running n0 /\
  sv_lists (snd (recover now f previous stages e s)) =
    (if ft_restore f then sv_lists s else patch_where (row_id (r_id previous)) (restore_row now previous) (sv_lists s)).
Proof.
  intros Hv Hs Hnd Hst Hempty. unfold recover. set (s1 := if ft_restore f then s else _).
  assert (Hn1 : sv_node s1 = sv_node s) by (unfold s1; by destruct (ft_restore f)).
  assert (Hl1 : sv_lists s1 = (if ft_restore f then sv_lists s else patch_where (row_id (r_id previous)) (restore_row now previous) (sv_lists s)))
    by (unfold s1; by destruct (ft_restore f)).
  rewrite Hn1. destruct (rollback_all e stages (sv_node s)) as [rs n1] eqn:Er.
  eapply rollback_all_spec in Er as [Hrun Hact]; [|done|done]. apply active_files_eq in Hact.
  destruct stages as [|st stages].
  - eexists. split; [done|]. cbn [snd set_node sv_node sv_lists]. split_and!; [done|by rewrite Hrun, Hempty|done].
  - destruct (@reload B (nginx_env (sv_lists s)) n1) as [r n2] eqn:El.
    apply (@reload_spec B (nginx_env (sv_lists s))) in El as (Hf & _ & Hl). rewrite Hact in Hl.
    destruct r as [u|err]; [|by destruct Hl as [Hbad _]; destruct Hbad].
    eexists. split; [done|]. cbn [snd set_node sv_node sv_lists]. destruct Hl as [_ Hl].
    split_and!; [by rewrite Hf|by rewrite Hl, Hs|done].
Qed.

Lemma commits_frame (stages : list (@stage B)) n rs n' :
  all_settled (fun st => commitStagedConfig (fst st) (snd st) false) stages n = (rs, n') ->
  nd_running n' = nd_running n /\ forall p, is_active_name p = true -> nd_files n' !! p = nd_files n !! p.
Proof.
  revert n rs. induction stages as [|st stages IH]; intros n rs Hs; simpl in Hs; [by injection Hs as _ <-|].
  destruct (commitStagedConfig _ _ _ n) as [r n1] eqn:E. case_settled Hs rs' n2 Es. injection Hs as _ <-.
  apply commit_frame in E as (Hr & _ & Hp). apply IH in Es as [-> Hp']. split; [done|].
  intros p Ha. by rewrite Hp', Hp.
Qed.

(** Restoring a row that was patched. *)
Lemma restored_rows now previous patch current (rows : list list_row) : NoDup (map r_id rows) ->
  first_where (live_row (r_id previous)) rows = Some current -> same_version current previous = true ->
  Forall2 same_settings rows (patch_where (row_id (r_id previous)) (restore_row now previous)
    (patch_where (row_id (r_id previous)) (apply_patch now patch) rows)) /\
  Forall2 same_settings rows (patch_where (row_id (r_id previous)) (restore_row now previous) rows).
Proof.
  intros Hd Hf (E1 & E2 & E3 & E4 & E5 & E6 & E7 & E8)%same_version_spec.
  apply first_where_Some in Hf as [Hin Hlive]. unfold live_row, row_id in Hlive. apply andb_true_iff in Hlive as [Hid _]. boolify.
  assert (Huniq : forall r, In r rows -> r_id r = r_id previous -> r = current).
  { intros r Hr Er. apply (key_unique r_id rows); [by apply NoDup_ListNoDup|done|done|congruence]. }
  assert (Hrow : forall r, In r rows -> r_id r = r_id previous ->
    same_settings r (restore_row now previous (apply_patch now patch r)) /\ same_settings r (restore_row now previous r)).
  { intros r Hr Er. rewrite (Huniq r Hr Er). destruct (apply_patch_id now patch current) as (H1' & H2' & H3').
    unfold same_settings, restore_row. cbn. by rewrite H1', H2', H3'. }
  unfold patch_where. rewrite map_map. clear Hd Hin Huniq.
  induction rows as [|r rows IH]; [by split; constructor|]. destruct IH as [IH1 IH2]; [by intros r' Hr'; apply Hrow; right|].
  pose proof (Hrow r (or_introl eq_refl)) as Hr.
  simpl. split; (constructor; [|done]); unfold row_id; destruct (Z.eqb_spec (r_id r) (r_id previous)) as [Er|Er].
  - destruct (apply_patch_id now patch r) as (-> & _ & _). rewrite Er, Z.eqb_refl. by apply Hr.
  - apply Z.eqb_neq in Er. rewrite Er. apply same_settings_refl.
  - by apply Hr.
  - apply same_settings_refl.
Qed.

(** The list has the new settings and entries, every affected host is rendered
    from them, and the server runs the files. *)
Definition list_applied now id patch s s' : Prop :=
  sv_lists s' = patch_where (row_id id) (apply_patch now patch) (sv_lists s) /\
  node_valid (sv_node s') /\ serving (sv_node s') /\
  (exists stages, map cfg stages = map cfg (affected id (sv_node s)) /\
     Forall (@rendered B (nginx_env (sv_lists s')) now (nd_files (sv_node s'))) stages) /\
  (forall p, is_active_name p = true -> ~ In p (map cfg (affected id (sv_node s))) ->
     nd_files (sv_node s') !! p = nd_files (sv_node s) !! p).

(** Nothing changed: no list's settings or entries, no active file, not the server. *)
Definition list_kept s s' : Prop :=
  Forall2 same_settings (sv_lists s) (sv_lists s') /\
  active_files (nd_files (sv_node s')) = active_files (nd_files (sv_node s)) /\
  nd_running (sv_node s') = nd_running (sv_node s).

Lemma kept_refl s : list_kept s s.
Proof. split; [|done]. induction (sv_lists s); constructor; [apply same_settings_refl|done]. Qed.

Lemma finish_applied now id patch s (stages : list (@stage B)) n1 n2 rs n3 :
  let rows := patch_where (row_id id) (apply_patch now patch) (sv_lists s) in
  node_valid n2 -> serving n2 -> nd_files n2 = nd_files n1 ->
  @batch B (nginx_env rows) now (nd_files (sv_node s)) stages (nd_files n1) ->
  map cfg stages = map cfg (affected id (sv_node s)) ->
  all_settled (fun st => commitStagedConfig (fst st) (snd st) false) stages n2 = (rs, n3) ->
  list_applied now id patch s (set_node n3 (set_lists rows s)).
Proof.
  intros rows Hv Hs Hf [Hst _ Hren] Hmap Hc. apply commits_frame in Hc as [Hr Hp].
  pose proof (active_files_eq _ _ Hp) as Hact. unfold list_applied. cbn [set_node set_lists sv_lists sv_node].
  split_and!; [done|unfold node_valid; by rewrite Hact|unfold serving; by rewrite Hr, Hact| |].
  - exists stages. split; [done|]. rewrite Forall_forall in Hren |- *. intros st Hin.
    destruct (Hren st Hin) as (text & Ht & Hl). exists text. split; [done|]. rewrite Hp, Hf; [done|apply config_file_active].
  - intros p Ha Hni. rewrite Hp, Hf by done. destruct Hst as [_ Ho]. apply Ho; [done|]. by rewrite Hmap.
Qed.

(** C25: updating a firewall list is all or nothing across the database and the
    server.  Either the row has the new settings and entries, every enabled
    host that uses the list is rendered from them and the server runs the
    result; or the update is refused and every list, every active file and
    the running configuration are as before, provided the database lets the
    old row be written back.  The files are put back even when it does not. *)
Theorem list_update_is_all_or_nothing now f previous patch s r s' :
  NoDup (map r_id (sv_lists s)) -> NoDup (map n_id (nd_hosts (sv_node s) "proxy_host")) ->
  Forall (fun h => 0 <= n_id h) (nd_hosts (sv_node s) "proxy_host") ->
  node_valid (sv_node s) -> serving (sv_node s) ->
  applyList now f previous patch s = (r, s') ->
  (exists row, r = Ok row /\ list_applied now (r_id previous) patch s s') \/
  (is_ok r = false /\ (ft_restore f = false -> list_kept s s') /\
   active_files (nd_files (sv_node s')) = active_files (nd_files (sv_node s)) /\ nd_running (sv_node s') = nd_running (sv_node s)).
Proof.
  intros Hdl Hdh Hpos Hv Hs. unfold applyList.
  destruct (find_list (r_id previous) s) as [current|] eqn:Hcur; [|intros [= <- <-]; right; split_and!; [done|intros; apply kept_refl|done|done]].
  destruct (same_version current previous) eqn:Hsame; cbn [negb]; [|intros [= <- <-]; right; split_and!; [done|intros; apply kept_refl|done|done]].
  pose proof (restored_rows now previous patch current (sv_lists s) Hdl Hcur Hsame) as [Hrest2 Hrest1].
  assert (Hrec : forall stages e s1, List.NoDup (map cfg stages) -> staged (nd_files (sv_node s)) stages (nd_files (sv_node s1)) ->
    (stages = [] -> nd_running (sv_node s1) = nd_running (sv_node s)) ->
    (ft_restore f = false -> Forall2 same_settings (sv_lists s) (patch_where (row_id (r_id previous)) (restore_row now previous) (sv_lists s1))) ->
    recover now f previous stages e s1 = (r, s') ->
    is_ok r = false /\ (ft_restore f = false -> list_kept s s') /\
    active_files (nd_files (sv_node s')) = active_files (nd_files (sv_node s)) /\ nd_running (sv_node s') = nd_running (sv_node s)).
  { intros stages e s1 Hnd Hst He Hrows Hr.
    destruct (recover_node now f previous stages e s1 (sv_node s) Hv Hs Hnd Hst He) as (err & H1' & H2' & H3' & H4').
    rewrite Hr in *. cbn [fst snd] in *. subst r. split; [done|]. split; [|done]. intros Hft. rewrite Hft in H4'.
    split; [rewrite H4'; by apply Hrows|done]. }
  destruct (ft_patch f) as [e|].
  { intros Hr. right. apply (Hrec [] e s); [constructor|split; [by intros ? []|done]|done|done|done]. }
  set (rows := patch_where _ _ (sv_lists s)) in *. set (s1 := set_lists rows s). change (sv_node s1) with (sv_node s).
  destruct (@stage_all B (nginx_env rows) now _ [] (sv_node s)) as [[stages eo] n1] eqn:Es.
  eapply (@stage_all_spec B (nginx_env rows)) in Es as (Hrun & Hb & Hmap); [|by apply affected_nodup|apply batch_nil].
  pose proof Hb as [Hst Hnd _].
  destruct eo as [e|]; [intros Hr; right; apply (Hrec stages e (set_node n1 s1)); done|].
  specialize (Hmap eq_refl). destruct stages as [|st stages].
  - intros [= <- <-]. left. eexists. split; [done|].
    assert (Hfiles : active_files (nd_files n1) = active_files (nd_files (sv_node s))).
    { apply active_files_eq. intros p Ha. destruct Hst as [_ Ho]. by apply Ho; [|intros []]. }
    apply (finish_applied now _ patch s [] n1 n1 [] n1); try done; [by unfold node_valid; rewrite Hfiles|by unfold serving; rewrite Hrun, Hs, Hfiles].
  - destruct (bind _ _ n1) as [[u|e] n2] eqn:El.
    + apply bind_ok in El as [(u0 & n0 & Ht & El)|(e & _ & He)]; [|done].
      apply (@test_spec B (nginx_env rows)) in Ht as [-> _].
      apply (@reload_spec B (nginx_env rows)) in El as (Hf & _ & Hval & Hrun2).
      destruct (all_settled (fun st => commitStagedConfig (fst st) (snd st) false) (st :: stages) n2) as [rs n3] eqn:Ec. intros [= <- <-]. left. eexists. split; [done|].
      eapply (finish_applied now _ patch s (st :: stages) n1 n2 rs n3); try done.
      * unfold node_valid. by rewrite Hf.
      * unfold serving. by rewrite Hf.
    + intros Hr. right. apply (Hrec (st :: stages) e (set_node n2 s1)); [exact Hnd| |done|done|exact Hr].
      cbn [set_node sv_node]. apply bind_ok in El as [(u0 & n0 & Ht & El)|(e0 & Ht & _)].
      * apply (@test_spec B (nginx_env rows)) in Ht as [-> _].
        by apply (@reload_spec B (nginx_env rows)) in El as (_ & _ & _ & ->).
      * by apply (@test_spec B (nginx_env rows)) in Ht as [-> _].
Qed.
End AllOrNothing.

(** ** Stored lists render *)

Definition skeleton {B} (n : node B) : list (Z * B * bool) :=
  map (fun h => (n_id h, n_body h, n_is_deleted h)) (nd_hosts n "proxy_host").

(** The configuration service changes neither which hosts there are nor their settings. *)
Section Skeleton.
Context {B : Type} `{NginxEnv B}.
Implicit Types (n : node B).
#[local] Abbreviation keeps sk := (fun n => skeleton n = sk).

Lemma skeleton_patch ht id f n : (forall h, n_id (f h) = n_id h /\ n_body (f h) = n_body h /\ n_is_deleted (f h) = n_is_deleted h) ->
  skeleton (patch_host ht id f n) = skeleton n.
Proof.
  intros Hf. unfold skeleton, patch_host, set_hosts. cbn [nd_hosts]. destruct (String.eqb_spec "proxy_host" ht) as [<-|]; [|done].
  unfold patch_where. rewrite map_map. apply map_ext. intros h. destruct (by_id id h); [|done]. by destruct (Hf h) as (-> & -> & ->).
Qed.

Lemma skeleton_status sk ht h on e : preserves (keeps sk) (updateHostStatus ht h on e).
Proof.
  intros n r n' Hk. unfold updateHostStatus. destruct (sanitizeHostMeta _); intros [= <- <-]; [|done].
  destruct (find_host ht (n_id h) n); [|done]. by rewrite skeleton_patch.
Qed.

Lemma skeleton_files sk f : preserves (keeps sk) (on_files f).
Proof. by intros n r n' Hk [= <- <-]. Qed.

Lemma skeleton_reload sk : preserves (keeps sk) reload.
Proof. intros n r n' Hk (_ & Hh & _)%reload_spec. unfold skeleton in *. by rewrite Hh. Qed.

Lemma skeleton_test sk : preserves (keeps sk) test.
Proof. by intros n r n' Hk [-> _]%test_spec. Qed.

Lemma skeleton_stage sk now ht h : preserves (keeps sk) (stageHost now ht h).
Proof.
  apply preserves_bind.
  - intros n r n' Hk. unfold retire_bindings. destruct (find_host _ _ n) as [c|]; [|by intros [= <- <-]].
    destruct (_ && _); [|by intros [= <- <-]]. destruct (hasActiveRetiredHostBindings _) as [[]|]; [|by intros [= <- <-]..].
    destruct (retireHostRuntime c); intros [= <- <-]; [|done]. by rewrite skeleton_patch.
  - intros h'. apply preserves_bind; [|by intros u n r n' Hk [= <- <-]].
    intros n r n' Hk (_ & Hh & _)%stage_files_spec. unfold skeleton in *. by rewrite Hh.
Qed.

Lemma skeleton_stages sk now hosts : forall stages n res n', skeleton n = sk ->
  stage_all now hosts stages n = (res, n') -> skeleton n' = sk.
Proof.
  induction hosts as [|[ht h] hosts IH]; intros stages n res n' Hk; cbn [stage_all]; [by intros [= <- <-]|].
  destruct (stageHost now ht h n) as [[h'|e] n1] eqn:E; apply (skeleton_stage sk) in E; try done.
  - by apply IH.
  - by intros [= <- <-].
Qed.

Lemma skeleton_settled {A C} sk (f : A -> action B C) xs : (forall x, preserves (keeps sk) (f x)) ->
  forall n rs n', skeleton n = sk -> all_settled f xs n = (rs, n') -> skeleton n' = sk.
Proof.
  intros Hf. induction xs as [|x xs IH]; intros n rs n' Hk; cbn [all_settled]; [by intros [= <- <-]|].
  destruct (f x n) as [r n1] eqn:E. destruct (all_settled f xs n1) as [rs' n2] eqn:Es. intros [= <- <-].
  eapply IH; [|exact Es]. by eapply Hf.
Qed.

Lemma skeleton_rollback sk e (st : @stage B) : preserves (keeps sk) (rollbackStagedConfig (fst st) (snd st) e).
Proof. do 2 (apply preserves_bind; [apply skeleton_files|intros _]). apply skeleton_status. Qed.

Lemma skeleton_commit sk (st : @stage B) : preserves (keeps sk) (commitStagedConfig (fst st) (snd st) false).
Proof.
  apply preserves_bind; [apply skeleton_status|]. intros m. apply preserves_bind; [apply skeleton_files|].
  by intros u n r n' Hk [= <- <-].
Qed.
End Skeleton.

Definition stored_text `{IpLib} (text : string) : Prop :=
  exists es, text = join LF es /\ NoDup es /\ Forall normal_text es /\ Z.of_nat (length es) <= MAX_LIST_LINES.

Section Invariant.
Context {B : Type} `{HostFirewall B} `{ListEnv B}.
Context `{IpLaws} `{IpRange} `{UrlLib} `{TextDecode}.
Implicit Types (s : service B).

(** The rows: known identifiers, each once, and entries that parse. *)
Definition rows_ok (next : Z) (rows : list list_row) : Prop :=
  NoDup (map r_id rows) /\ Forall (fun r => 1 <= r_id r < next) rows /\ Forall (fun r => stored_text (r_entries r)) rows.

(** The lists of every host that is not deleted exist. *)
Definition refs_ok (rows : list list_row) (sk : list (Z * B * bool)) : Prop :=
  forall id b, (id, b, false) ∈ sk -> forall l, l ∈ hf_list_ids b -> existsb (live_row l) rows = true.

Definition lists_inv s : Prop := 1 <= sv_next s /\ rows_ok (sv_next s) (sv_lists s) /\ refs_ok (sv_lists s) (skeleton (sv_node s)).

Definition patch_ok (p : list_patch) : Prop :=
  match pt_entries p with Some (text, _, _) => stored_text text | None => True end.

Definition keeps_row (f : list_row -> list_row) : Prop := forall r, r_id (f r) = r_id r /\ r_deleted (f r) = r_deleted r.

Lemma patch_rows_ok p f next rows : keeps_row f ->
  (forall r, In r rows -> stored_text (r_entries r) -> p r = true -> stored_text (r_entries (f r))) ->
  rows_ok next rows -> rows_ok next (patch_where p f rows).
Proof.
  intros Hf Hs (Hd & Hr & He). split_and!.
  - rewrite map_patch; [done|]. intros r. by apply Hf.
  - apply Forall_forall. intros r [(x & Hin & _ & ->)|[Hin _]]%list_elem_of_In%in_patch;
      apply list_elem_of_In in Hin; rewrite Forall_forall in Hr; [|by apply Hr].
    destruct (Hf x) as [-> _]. by apply Hr.
  - apply Forall_forall. intros r [(x & Hin & Hp & ->)|[Hin _]]%list_elem_of_In%in_patch;
      rewrite Forall_forall in He; [|by apply He, list_elem_of_In]. apply Hs; [done|by apply He, list_elem_of_In|done].
Qed.

Lemma live_patch p f rows l : keeps_row f -> existsb (live_row l) (patch_where p f rows) = existsb (live_row l) rows.
Proof.
  intros Hf. unfold patch_where. induction rows as [|r rows IH]; [done|]. simpl. rewrite IH. f_equal.
  destruct (p r); [|done]. unfold live_row, row_id. by destruct (Hf r) as [-> ->].
Qed.

Lemma keeps_apply now patch : keeps_row (apply_patch now patch).
Proof. intros r. by destruct (apply_patch_id now patch r) as (? & _ & ?). Qed.
Lemma keeps_restore now previous : keeps_row (restore_row now previous).
Proof. done. Qed.

Lemma apply_stored now patch r : patch_ok patch -> stored_text (r_entries r) -> stored_text (r_entries (apply_patch now patch r)).
Proof. unfold patch_ok, apply_patch. by destruct (pt_fields patch), (pt_entries patch) as [[[? ?] ?]|]. Qed.

Lemma lists_patch_inv p f s : keeps_row f ->
  (forall r, In r (sv_lists s) -> stored_text (r_entries r) -> p r = true -> stored_text (r_entries (f r))) ->
  lists_inv s -> lists_inv (set_lists (patch_where p f (sv_lists s)) s).
Proof.
  intros Hf Hs (Hn & Hr & Hrefs). split; [done|]. split; [by apply patch_rows_ok|].
  intros id b Hin l Hl. cbn [set_lists sv_lists]. rewrite live_patch by done. by eapply Hrefs.
Qed.

Lemma node_inv n s : skeleton n = skeleton (sv_node s) -> lists_inv s -> lists_inv (set_node n s).
Proof. intros Hk (Hn & Hr & Hrefs). split; [done|]. split; [done|]. unfold refs_ok. cbn [set_node sv_lists sv_node]. by rewrite Hk. Qed.

Lemma lists_recover_inv now f previous stages e s r s' : stored_text (r_entries previous) -> lists_inv s ->
  recover now f previous stages e s = (r, s') -> lists_inv s'.
Proof.
  intros Hprev Hi. unfold recover. set (s1 := if ft_restore f then s else _).
  assert (Hi1 : lists_inv s1 /\ sv_node s1 = sv_node s).
  { unfold s1. destruct (ft_restore f); [done|]. split; [|done]. by apply lists_patch_inv; [apply keeps_restore| |]. }
  destruct Hi1 as [Hi1 Hnode]. destruct (rollback_all e stages (sv_node s1)) as [rs n1] eqn:Er.
  pose proof (skeleton_settled _ _ _ (fun st => skeleton_rollback _ e st) _ _ _ eq_refl Er) as Hk1.
  destruct stages as [|st stages]; [intros [= _ <-]; by apply node_inv|].
  destruct (@reload B (nginx_env (sv_lists s)) n1) as [rr n2] eqn:El.
  pose proof (@skeleton_reload B (nginx_env (sv_lists s)) _ _ _ _ Hk1 El) as Hk2.
  intros [= _ <-]. by apply node_inv.
Qed.

Lemma find_stored id s r : lists_inv s -> find_list id s = Some r -> stored_text (r_entries r).
Proof.
  intros (_ & (_ & _ & He) & _) [Hin _]%first_where_Some. rewrite Forall_forall in He. by apply He, list_elem_of_In.
Qed.

Lemma applyList_inv now f previous patch s r s' : patch_ok patch -> lists_inv s ->
  applyList now f previous patch s = (r, s') -> lists_inv s'.
Proof.
  intros Hp Hi. unfold applyList. destruct (find_list (r_id previous) s) as [current|] eqn:Hc; [|by intros [= _ <-]].
  destruct (same_version current previous) eqn:Hv; cbn [negb]; [|by intros [= _ <-]].
  assert (Hprev : stored_text (r_entries previous)).
  { apply same_version_spec in Hv as (_ & _ & _ & _ & _ & _ & _ & <-). by eapply find_stored. }
  destruct (ft_patch f); [by apply lists_recover_inv|].
  set (rows := patch_where _ _ (sv_lists s)). set (s1 := set_lists rows s).
  assert (Hi1 : lists_inv s1) by (apply lists_patch_inv; [apply keeps_apply| |done]; intros; by apply apply_stored).
  destruct (@stage_all B (nginx_env rows) now _ [] (sv_node s1)) as [[stages eo] n1] eqn:Es.
  pose proof (@skeleton_stages B (nginx_env rows) _ _ _ _ _ _ _ eq_refl Es) as Hk1.
  destruct eo as [e|]; [intros Hr; eapply lists_recover_inv; [exact Hprev| |exact Hr]; by apply node_inv|].
  destruct stages as [|st stages]; [intros [= _ <-]; by apply node_inv|].
  destruct (bind _ _ n1) as [[u|e] n2] eqn:El;
    pose proof (preserves_bind (fun n => skeleton n = skeleton (sv_node s1)) _ _ (@skeleton_test B (nginx_env rows) _)
      (fun _ => @skeleton_reload B (nginx_env rows) _) _ _ _ Hk1 El) as Hk2; cbv beta in Hk2.
  - destruct (all_settled (fun st => commitStagedConfig (fst st) (snd st) false) (st :: stages) n2) as [rs n3] eqn:Ec.
    pose proof (skeleton_settled _ _ _ (fun st => skeleton_commit _ st) _ _ _ Hk2 Ec) as Hk3.
    intros [= _ <-]. by apply node_inv.
  - intros Hr. eapply lists_recover_inv; [exact Hprev| |exact Hr]. by apply node_inv.
Qed.

Lemma checked_ok now content remote text count t : checkedEntries now content remote = Ok (text, count, t) -> stored_text text.
Proof.
  unfold checkedEntries, valid_list. intros Hc. ok_inv Hc. ok_inv Hc. injection Hc as <- _ _. ok_inv E. ok_inv E. injection E as <-.
  pose proof (parse_entries_bound _ _ E0) as Hb. apply parse_collects in E0 as ([Hd Hn] & _).
  exists (il_entries v0). split_and!; try done. eapply Forall_impl; [exact Hn|]. by intros e [? _].
Qed.

Lemma prepare_ok now hops data previous p : prepare now hops data previous = Ok p ->
  patch_ok p /\ (previous = None -> pt_entries p <> None).
Proof.
  unfold prepare. intros Hp. ok_inv Hp. destruct (String.eqb (li_source_type v) "manual").
  - destruct (match previous with Some _ => _ | None => _ end) eqn:E0.
    + ok_inv Hp. injection Hp as <-. destruct v0 as [[text count] t]. split; [by eapply checked_ok|done].
    + injection Hp as <-. split; [done|]. by intros ->.
  - ok_inv Hp. destruct (match previous with Some _ => _ | None => _ end) eqn:E0.
    + ok_inv Hp. ok_inv Hp. injection Hp as <-. destruct v1 as [[text count] t]. split; [by eapply checked_ok|done].
    + injection Hp as <-. split; [done|]. by intros ->.
Qed.

(** *** Steps *)

(** A write of a proxy host's row: replaced where it exists, added where not. *)
Definition save_host (h : Nginx.host B) s : fallible unit * service B :=
  let rows := nd_hosts (sv_node s) "proxy_host" in
  let rows' := if existsb (by_id (n_id h)) rows then patch_where (by_id (n_id h)) (fun _ => h) rows else rows ++ [h] in
  (Ok tt, set_node (set_hosts "proxy_host" rows' (sv_node s)) s).

Inductive list_step : service B -> service B -> Prop :=
| step_create a now hops data s r s' : create a now hops data s = (r, s') -> list_step s s'
| step_update a now f hops id data s r s' : update a now f hops id data s = (r, s') -> list_step s s'
| step_delete a now id s r s' : delete_list a now id s = (r, s') -> list_step s s'
| step_refresh a now f hops id s r s' : refresh a now f hops id s = (r, s') -> list_step s s'
| step_process now f hops s : list_step s (process now f hops s)
| step_host h s r s' : withFirewallReferences (hf_list_ids (n_body h)) (save_host h) s = (r, s') -> list_step s s'.

Definition lists_initial s : Prop :=
  sv_lists s = [] /\ sv_next s = 1 /\ Forall (fun h => hf_list_ids (n_body h) = []) (nd_hosts (sv_node s) "proxy_host").

Lemma initial_inv s : lists_initial s -> lists_inv s.
Proof.
  intros (Hl & Hn & Hh). unfold lists_inv. rewrite Hl, Hn. split; [lia|]. split; [split_and!; constructor|].
  intros id b Hin l Hlin. apply list_elem_of_fmap in Hin as (h & [= _ -> _] & Hin). rewrite Forall_forall in Hh.
  rewrite (Hh _ Hin) in Hlin. by apply elem_of_nil in Hlin.
Qed.

Lemma recordError_inv now id e s : lists_inv s -> lists_inv (recordError now id e s).
Proof. intros Hi. by apply lists_patch_inv. Qed.

Lemma refreshList_inv now f hops previous s r s' : lists_inv s -> refreshList now f hops previous s = (r, s') -> lists_inv s'.
Proof.
  intros Hi. unfold refreshList. destruct (String.eqb _ "url"); cbn [negb]; [|by intros [= _ <-]].
  set (s0 := set_attempts _ s). assert (Hi0 : lists_inv s0) by done.
  destruct (rbind _ _) as [[[text count] t]|e] eqn:Ec.
  - destruct (applyList _ _ _ _ s0) as [[row|e] s1] eqn:Ea.
    + intros [= _ <-]. eapply applyList_inv; [|exact Hi0|exact Ea]. ok_inv Ec. by eapply checked_ok.
    + intros [= _ <-]. apply recordError_inv. eapply applyList_inv; [|exact Hi0|exact Ea]. ok_inv Ec. by eapply checked_ok.
  - intros [= _ <-]. by apply recordError_inv.
Qed.

Lemma process_one_inv now f hops r s : lists_inv s -> lists_inv (process_one now f hops r s).
Proof.
  intros Hi. unfold process_one. destruct (isDue _ _ r); [|done]. cbn [negb].
  destruct (find_list _ s) as [current|]; [|done]. destruct (_ && _); [|done].
  destruct (refreshList _ _ _ current s) as [[row|e] s1] eqn:E; by apply refreshList_inv in E.
Qed.

Lemma process_inv now f hops s : lists_inv s -> lists_inv (process now f hops s).
Proof.
  unfold process. generalize (select_where (fun r => negb (r_deleted r) && subscribed r) (sv_lists s)). intros rs.
  revert s. induction rs as [|r rs IH]; intros s Hi; [done|]. simpl. by apply IH, process_one_inv.
Qed.

Lemma lists_create_inv a now hops data s r s' : lists_inv s -> create a now hops data s = (r, s') -> lists_inv s'.
Proof.
  intros (Hn & (Hd & Hr & He) & Hrefs). unfold create. destruct (rbind _ _) as [p|e] eqn:E; [|by intros [= _ <-]].
  ok_inv E. apply prepare_ok in E as [Hp Hentries]. specialize (Hentries eq_refl).
  set (row := apply_patch now p _). assert (Hrow : r_id row = sv_next s /\ stored_text (r_entries row)).
  { unfold row. split; [by destruct (apply_patch_id now p (MkRow (sv_next s) (ac_user a) "" "" "" "manual" "" 24 true "" 0 None None now false)) as (-> & _)|].
    unfold patch_ok in Hp. unfold apply_patch. destruct (pt_entries p) as [[[text count] t]|]; [|done]. by destruct (pt_fields p). }
  destruct Hrow as [Hid Hst]. intros [= _ <-]. unfold lists_inv. cbn [pushed audited sv_next sv_lists sv_node].
  split; [lia|]. split; [split_and!|].
  - rewrite map_app. apply NoDup_app. split; [done|]. split; [|apply NoDup_singleton].
    intros x Hx ->%list_elem_of_singleton. apply list_elem_of_fmap in Hx as (y & Hy & Hin). rewrite Forall_forall in Hr.
    apply Hr in Hin. rewrite <- Hy, Hid in Hin. lia.
  - apply Forall_app. split; [eapply Forall_impl; [exact Hr|simpl; lia]|]. constructor; [lia|constructor].
  - apply Forall_app. split; [done|]. by constructor.
  - intros id b Hin l Hl. rewrite existsb_app. by rewrite (Hrefs _ _ Hin l Hl).
Qed.

Lemma lists_delete_inv a now id s r s' : lists_inv s -> delete_list a now id s = (r, s') -> lists_inv s'.
Proof.
  intros (Hn & (Hd & Hr & He) & Hrefs). unfold delete_list. destruct (rbind _ _); [|by intros [= _ <-]].
  destruct (referenceHosts id (sv_node s)) as [|h hs] eqn:Eh; [|by intros [= _ <-]].
  intros [= _ <-]. unfold lists_inv. cbn [pushed set_attempts audited set_lists sv_next sv_lists sv_node].
  split; [done|]. split.
  - set (f := fun r : list_row => MkRow _ _ _ _ _ _ _ _ _ _ _ _ _ _ _). split_and!.
    + by rewrite map_patch.
    + apply Forall_forall. intros x [(y & Hin & _ & ->)|[Hin _]]%list_elem_of_In%in_patch;
        apply list_elem_of_In in Hin; rewrite Forall_forall in Hr; exact (Hr _ Hin).
    + apply Forall_forall. intros x [(y & Hin & _ & ->)|[Hin _]]%list_elem_of_In%in_patch;
        apply list_elem_of_In in Hin; rewrite Forall_forall in He; exact (He _ Hin).
  - intros hid b Hin l Hl. pose proof (Hrefs _ _ Hin l Hl) as Hlive.
    assert (l <> id) as Hne.
    { intros ->. apply list_elem_of_fmap in Hin as (h & [= _ -> Hdel] & Hin).
      assert (In h (referenceHosts id (sv_node s))) as Hbad; [|by rewrite Eh in Hbad].
      apply List.filter_In. split; [by apply list_elem_of_In|]. rewrite <- Hdel. apply existsb_exists.
      exists id. split; [by apply list_elem_of_In|apply Z.eqb_refl]. }
    apply existsb_exists in Hlive as (x & Hx & Hlx). apply existsb_exists. exists x. split; [|done].
    apply in_patch. right. split; [done|]. unfold live_row, row_id in *. boolify. apply Z.eqb_neq. congruence.
Qed.

Lemma host_inv h s r s' : lists_inv s ->
  withFirewallReferences (hf_list_ids (n_body h)) (save_host h) s = (r, s') -> lists_inv s'.
Proof.
  intros (Hn & Hrows & Hrefs) Hw.
  assert (Hsave : r = Ok tt /\ s' = snd (save_host h s) /\ (forall l, l ∈ hf_list_ids (n_body h) -> existsb (live_row l) (sv_lists s) = true)
                  \/ s' = s).
  { unfold withFirewallReferences in Hw. destruct (hf_list_ids (n_body h)) as [|id ids].
    - left. injection Hw as <- <-. split_and!; [done..|]. by intros l ?%elem_of_nil.
    - unfold assertExistForHost in Hw. destruct (List.find _ _) as [x|] eqn:E; [right; by injection Hw as _ <-|].
      left. injection Hw as <- <-. split_and!; [done..|]. intros l Hl. apply list_elem_of_In in Hl.
      pose proof (List.find_none _ _ E l Hl) as Hx. by apply negb_false_iff in Hx. }
  destruct Hsave as [(_ & -> & Hex)| ->]; [|done]. split; [done|]. split; [done|].
  intros hid b Hin l Hl. cbn [save_host snd set_node sv_lists sv_node] in *.
  unfold skeleton, set_hosts in Hin. cbn [nd_hosts] in Hin. rewrite String.eqb_refl in Hin.
  apply list_elem_of_fmap in Hin as (x & [= -> -> Hdel] & Hin). apply list_elem_of_In in Hin.
  assert (x = h \/ In x (nd_hosts (sv_node s) "proxy_host")) as [->|Hx].
  { destruct (existsb _ _); [apply in_patch in Hin as [(y & _ & _ & ->)|[? _]]; auto|].
    apply in_app_iff in Hin as [?|[<-|[]]]; auto. }
  - by apply Hex.
  - apply (Hrefs (n_id x) (n_body x)); [|done]. apply list_elem_of_fmap. exists x. split; [by rewrite <- Hdel|by apply list_elem_of_In].
Qed.

Lemma step_inv s s' : lists_inv s -> list_step s s' -> lists_inv s'.
Proof.
  intros Hi Hs. inversion Hs as [a now hops data s0 r s1 E|a now f hops id data s0 r s1 E|a now id s0 r s1 E|
    a now f hops id s0 r s1 E|now f hops s0|h s0 r s1 E]; subst.
  - by eapply lists_create_inv.
  - unfold update in E. destruct (rbind _ _) as [[previous p]|e] eqn:Ep; [|by injection E as _ <-].
    ok_inv Ep. ok_inv Ep. ok_inv Ep. injection Ep as <- <-. apply prepare_ok in E2 as [Hp _].
    destruct (applyList _ _ _ _ s) as [[row|e] s2] eqn:Ea; pose proof (applyList_inv _ _ _ _ _ _ _ Hp Hi Ea); by injection E as _ <-.
  - by eapply lists_delete_inv.
  - unfold refresh in E. destruct (rbind _ _) as [previous|e]; [|by injection E as _ <-].
    destruct (refreshList _ _ _ _ s) as [[row|e] s2] eqn:Ea; pose proof (refreshList_inv _ _ _ _ _ _ _ Hi Ea); by injection E as _ <-.
  - by apply process_inv.
  - by eapply host_inv.
Qed.

Lemma live_found l (rows : list list_row) : existsb (live_row l) rows = true ->
  exists r, first_where (live_row l) rows = Some r /\ In r rows /\ r_id r = l.
Proof.
  intros Hl. destruct (first_where (live_row l) rows) as [r|] eqn:E.
  - exists r. apply first_where_Some in E as [Hin Hr]. split_and!; try done. unfold live_row, row_id in Hr. by boolify.
  - apply existsb_exists in Hl as (x & Hx & Hl). apply (first_where_None _ _ x) in E; [|done]. congruence.
Qed.

(** What [getForHost] makes of the lists of one host. *)
Lemma getForHost_ok rows ids : Forall (fun r => stored_text (r_entries r)) rows ->
  Forall (fun r => utf8_length (r_entries r) <= MAX_LIST_BYTES) rows -> NoDup ids ->
  (forall l, l ∈ ids -> existsb (live_row l) rows = true) ->
  exists lists, getForHost rows ids = Ok lists /\ NoDup (map fl_id lists) /\
    Forall (fun l => fl_id l ∈ ids /\ Forall normal_text (fl_entries l)) lists.
Proof.
  intros Hst Hsize Hd Hlive. unfold getForHost. induction ids as [|id ids IH].
  { exists []. split_and!; constructor. }
  apply NoDup_cons in Hd as [Hni Hd]. destruct IH as (lists & Hl & Hnd & Hall); [done|intros; apply Hlive; by right|].
  destruct (live_found id rows (Hlive id ltac:(by left))) as (r & Hf & Hin & Hid).
  assert (Hone : exists one, list_for_host rows id = Ok one /\ (one = [] \/ exists name reason es, one = [MkFwList id name reason es] /\ Forall normal_text es)).
  { unfold list_for_host. rewrite Hf. destruct (r_enabled r); [|by exists []; auto]. cbn [negb].
    rewrite Forall_forall in Hst, Hsize. apply list_elem_of_In in Hin. destruct (Hst _ Hin) as (es & E & Hes & Hn & Hc).
    specialize (Hsize _ Hin). rewrite E in *. rewrite parse_normal by done. cbn. rewrite Hid. eexists. split; [done|].
    right. by do 3 eexists. }
  destruct Hone as (one & Hone & Hshape). destruct (rmapM (list_for_host rows) ids) as [ls|] eqn:El; [|done]. injection Hl as <-.
  exists (one ++ concat ls). cbn [rmapM]. rewrite Hone. cbn [rbind]. rewrite El. cbn. split; [done|].
  assert (Hweak : Forall (fun l => fl_id l ∈ id :: ids /\ Forall normal_text (fl_entries l)) (concat ls)).
  { eapply Forall_impl; [exact Hall|]. intros l [? ?]. split; [by right|done]. }
  destruct Hshape as [->|(name & reason & es & -> & Hes)]; [done|]. split.
  - cbn. apply NoDup_cons. split; [|done]. intros Hin'. apply list_elem_of_fmap in Hin' as (l & Hlid & Hlin).
    rewrite Forall_forall in Hall. destruct (Hall _ Hlin) as [Hx _]. by rewrite <- Hlid in Hx.
  - constructor; [split; [by left|done]|done].
Qed.

(** the lists of a host can always be rendered.  However lists are created,
    edited, refreshed and deleted and hosts are saved, every list that a live
    host names exists, is kept in normal form and is handed out once; so a
    host with a validated policy compiles. *)
Theorem stored_lists_always_render `{!GeoLib, !GeoLaws} s h :
  reachable lists_initial list_step s ->
  Forall (fun r => utf8_length (r_entries r) <= MAX_LIST_BYTES) (sv_lists s) ->
  In h (nd_hosts (sv_node s) "proxy_host") -> n_is_deleted h = false -> NoDup (hf_list_ids (n_body h)) ->
  exists lists, getForHost (sv_lists s) (hf_list_ids (n_body h)) = Ok lists /\
    forall v p page host caps, normalizeFirewallPolicy v = Ok (Some p) -> fp_list_ids p = hf_list_ids (n_body h) ->
      h_ip_firewall host = Some p -> h_enabled host = true -> h_is_deleted host = false -> fp_enabled p = true -> covers caps p ->
      exists f, buildFirewallRender page host lists caps = Ok (Some f).
Proof.
  intros Hreach Hsize Hin Hdel Hnd.
  assert (lists_inv s) as (_ & (_ & _ & Hst) & Hrefs) by (eapply invariant_reachable; [apply initial_inv|apply step_inv|done]).
  destruct (getForHost_ok (sv_lists s) (hf_list_ids (n_body h)) Hst Hsize Hnd) as (lists & Hl & Hids & Hall).
  { intros l Hl. apply (Hrefs (n_id h) (n_body h)); [|done]. apply list_elem_of_fmap. exists h. split; [by rewrite Hdel|by apply list_elem_of_In]. }
  exists lists. split; [done|]. intros v p page host caps Hv%accepted_normal _ Hp He Hd Hen Hc.
  destruct (build_compiled p page host lists caps) as (f & Hf & _); try done; [|by exists f].
  eapply Forall_impl; [exact Hall|]. by intros l [_ ?].
Qed.
End Invariant.

(** ** A concrete service *)

Definition demo_body : Type := (bool * list Z)%type.
#[global] Instance demo_host_firewall : HostFirewall demo_body := {| hf_enabled := fst; hf_list_ids := snd |}.

(** A host renders to the entries of the lists; one address is not accepted. *)
#[global] Instance demo_list_env : ListEnv demo_body := {|
  render_with rows _ _ h := Ok (join ";" (map r_entries (List.filter (fun r => includes_id (snd (n_body h)) (r_id r)) rows)));
  files_verdict t := if existsb (fun kv => includes "203.0.113.9" (snd kv)) (map_to_list t) then Some "bad address" else None
|}.

Definition demo_row : list_row := MkRow 1 1 "feed" "listed" "" "manual" "" 24 true "192.0.2.1" 1 (Some 0) None 0 false.
Definition demo_proxy : Nginx.host demo_body := MkNHost 5 false true (Meta false None None) (true, [1]).
Definition demo_files : file_tree := {[ config_file "proxy_host" 5 := "192.0.2.1" ]}.
Definition demo_node : node demo_body := MkNode demo_files (active_files demo_files) (fun t => if String.eqb t "proxy_host" then [demo_proxy] else []).
Definition demo_service : service demo_body := MkService [demo_row] 2 demo_node [] [] 0.
Definition demo_patch (entries : string) : list_patch := MkPatch None (Some (entries, 1, 9)).

Lemma list_update_witness :
  let good := applyList 9 (MkFaults None false) demo_row (demo_patch "192.0.2.7") demo_service in
  let bad := applyList 9 (MkFaults None false) demo_row (demo_patch "203.0.113.9") demo_service in
  is_ok (fst good) = true /\ list_applied 9 1 (demo_patch "192.0.2.7") demo_service (snd good) /\
  is_ok (fst bad) = false /\ list_kept demo_service (snd bad).
Proof.
  intros good bad.
  assert (Hg : is_ok (fst good) = true) by by vm_compute.
  assert (Hb : is_ok (fst bad) = false) by by vm_compute.
  assert (D1 : NoDup (map r_id (sv_lists demo_service))) by apply NoDup_singleton.
  assert (D2 : NoDup (map n_id (nd_hosts (sv_node demo_service) "proxy_host"))) by apply NoDup_singleton.
  assert (D3 : Forall (fun h => 0 <= n_id h) (nd_hosts (sv_node demo_service) "proxy_host")) by (repeat constructor; by vm_compute).
  assert (D4 : node_valid (sv_node demo_service)) by by vm_compute.
  pose proof (list_update_is_all_or_nothing 9 (MkFaults None false) demo_row (demo_patch "192.0.2.7") demo_service
    (fst good) (snd good) D1 D2 D3 D4 eq_refl (surjective_pairing _)) as Tg.
  pose proof (list_update_is_all_or_nothing 9 (MkFaults None false) demo_row (demo_patch "203.0.113.9") demo_service
    (fst bad) (snd bad) D1 D2 D3 D4 eq_refl (surjective_pairing _)) as Tb.
  clearbody good bad. split; [exact Hg|]. split; [destruct Tg as [(row & _ & Ha)|(E & _)]; [exact Ha|rewrite Hg in E; discriminate E]|].
  split; [exact Hb|]. destruct Tb as [(row & E & _)|(_ & Hk & _)]; [rewrite E in Hb; discriminate Hb|exact (Hk eq_refl)].
Defined.

Definition admin : caller := MkCaller (fun _ => Ok true) 1.
Definition demo_data : value := VObj [("name", VStr "feed"); ("reason", VStr "listed"); ("entries", VStr "10.1.2.3/8")].
Definition empty_service : service demo_body := MkService [] 1 (MkNode ∅ ∅ (fun _ => [])) [] [] 0.
Definition created_service : service demo_body := snd (create admin 3 demo_hops demo_data empty_service).
Definition saved_service : service demo_body := snd (withFirewallReferences [1] (save_host demo_proxy) created_service).
Definition listed_policy : value := VObj [("enabled", VBool true); ("list_ids", VArr [VInt 1])].

Lemma stored_lists_witness : exists lists, getForHost (sv_lists saved_service) [1] = Ok lists /\
  exists p f, normalizeFirewallPolicy listed_policy = Ok (Some p) /\
    buildFirewallRender "" (FirewallRender.MkHost (VInt 5) true false (Some p)) lists None = Ok (Some f).
Proof.
  assert (R : reachable lists_initial list_step saved_service).
  { apply (reachable_step _ _ created_service).
    - apply (reachable_step _ _ empty_service); [apply reachable_init; split_and!; constructor|].
      by apply (step_create admin 3 demo_hops demo_data empty_service (fst (create admin 3 demo_hops demo_data empty_service))).
    - by apply (step_host demo_proxy created_service (Ok tt)). }
  assert (El : sv_lists saved_service = [MkRow 1 1 "feed" "listed" "" "manual" "" 24 true "10.0.0.0/8" 1 (Some 3) None 3 false])
    by by vm_compute.
  assert (Hsize : Forall (fun r => utf8_length (r_entries r) <= MAX_LIST_BYTES) (sv_lists saved_service))
    by (rewrite El; apply Forall_singleton; by vm_compute).
  assert (Hin : In demo_proxy (nd_hosts (sv_node saved_service) "proxy_host")) by (vm_compute; by left).
  pose proof (stored_lists_always_render saved_service demo_proxy R Hsize Hin eq_refl (NoDup_singleton 1)) as T.
  clear R Hsize Hin El. destruct T as (lists & Hl & Hrender).
  exists lists. split; [exact Hl|].
  destruct (normalizeFirewallPolicy listed_policy) as [[p|]|] eqn:Ep; [|by vm_compute in Ep..].
  exists p. assert (Ep' := Ep). vm_compute in Ep'. injection Ep' as <-.
  destruct (Hrender listed_policy _ "" (FirewallRender.MkHost (VInt 5) true false (Some _)) None Ep eq_refl eq_refl eq_refl eq_refl eq_refl I) as (f & Hf).
  exists f. split; [reflexivity|exact Hf].
Defined.
