(* ===== verification/TwoFactor.v ===== *)
(** The second factors of a login: src/backend/internal/2fa-service.js with the
    tables of src/backend/models/user-2fa.js and user-2fa-backup-codes.js.

    A handler is a program over single database statements; requests interleave
    between any two of them and the clock runs on.  Codes, signatures, hashes
    and the providers are parameters; random values are given by the request. *)

From S2P Require Import Prelude JsString Errors JsValue.
#[local] Open Scope string_scope.
#[local] Open Scope list_scope.
#[local] Open Scope Z_scope.

(** ** Data *)

Inductive method_type : Type := TOTP | YUBIKEY | PASSKEY | PASSKEY_CHALLENGE | PASSKEY_AUTH_CHALLENGE | DUO | DUO_AUTH_CHALLENGE.
#[global] Instance method_type_eq_dec : EqDecision method_type.
Proof. solve_decision. Defined.

Record duo_config : Type := MkDuo { dc_clientId : string; dc_clientSecret : string; dc_apiHost : string; dc_redirectUrl : string }.

Inductive method_meta : Type :=
| NoMeta
| ChallengeMeta (challenge : string) (expiresAt : Z)
| DuoMeta (config : duo_config).

(** A row of [user_2fa]. *)
Record method : Type := MkMethod {
  m_id : Z;
  m_user : Z;
  m_type : method_type;
  m_label : string;
  m_secret : string;
  m_public_key : string;
  m_counter : Z;
  m_transports : option string;
  m_meta : method_meta;
  m_verified : bool;
  m_deleted : bool
}.

(** A row of [user_2fa_backup_codes]. *)
Record backup_code : Type := MkCode { bc_id : Z; bc_user : Z; bc_hash : string; bc_used : bool }.

Record account : Type := MkAccount { u_id : Z; u_email : string; u_available : bool }.

(** What was used up: the time step of a code, a backup code, a challenge. *)
Inductive evidence : Type := TimeStep (id user step : Z) | BackupCode (id user : Z) | Challenge (id : Z).

Record db : Type := MkDb {
  d_methods : list method;
  d_codes : list backup_code;
  d_users : list account;
  d_next : Z;
  d_next_code : Z;
  d_now : Z
}.

Record credential : Type := MkCredential { cr_id : string; cr_publicKey : string; cr_counter : Z }.

(** The libraries and providers; [now] is the time of the call.  [yubico] is the
    request for a code and a nonce, failed or answered with a status and a body;
    [yubico_signature] compares a signature of the values when a key is configured. *)
Class TwoFaEnv : Type := {
  verifySync : Z -> string -> string -> option Z;
  bcrypt_hash : string -> string;
  bcrypt_compare : string -> string -> bool;
  yubico : Z -> string -> string -> string + (Z * string);
  yubico_signature : option (list (string * string) -> string -> bool);
  registration_response : string -> string -> fallible (option credential);
  authentication_response : string -> string -> method -> fallible (option Z);
  response_id : string -> string;
  response_transports : string -> option string;
  duo_client : duo_config -> fallible unit;
  duo_healthCheck : duo_config -> fallible unit;
  duo_createAuthUrl : duo_config -> string -> string -> fallible string;
  duo_exchange : Z -> duo_config -> string -> string -> fallible bool;
  getDuoChallengeTag : string -> string -> string
}.

(** ** Statements *)

(** One statement of the database; [ReplaceDuo] and [ReplaceCodes] are transactions. *)
Inductive stmt : Type -> Type :=
| Now : stmt Z
| FindMethods (p : method -> bool) : stmt (list method)
| InsertMethod (row : Z -> method) : stmt method
| DeleteMethods (p : method -> bool) : stmt nat
| ConsumeRow (id : Z) : stmt nat
| Verify (id : Z) : stmt nat
| ConsumeStep (id user expected step : Z) : stmt nat
| AdvanceCounter (id user expected counter : Z) : stmt nat
| SoftDelete (id : Z) : stmt nat
| ReplaceDuo (user : Z) (row : Z -> method) : stmt method
| FindCodes (user : Z) : stmt (list backup_code)
| ReplaceCodes (user : Z) (hashes : list string) : stmt unit
| UseCode (id user : Z) : stmt nat
| DeleteCodes (user : Z) : stmt nat
| FindUser (id : Z) : stmt (option account).

Definition set_methods (rows : list method) (d : db) : db :=
  MkDb rows (d_codes d) (d_users d) (d_next d) (d_next_code d) (d_now d).
Definition set_codes (rows : list backup_code) (d : db) : db :=
  MkDb (d_methods d) rows (d_users d) (d_next d) (d_next_code d) (d_now d).

Definition with_verified (b : bool) (m : method) : method :=
  MkMethod (m_id m) (m_user m) (m_type m) (m_label m) (m_secret m) (m_public_key m) (m_counter m) (m_transports m) (m_meta m) b (m_deleted m).
Definition with_deleted (m : method) : method :=
  MkMethod (m_id m) (m_user m) (m_type m) (m_label m) (m_secret m) (m_public_key m) (m_counter m) (m_transports m) (m_meta m) (m_verified m) true.
Definition with_counter (c : Z) (m : method) : method :=
  MkMethod (m_id m) (m_user m) (m_type m) (m_label m) (m_secret m) (m_public_key m) c (m_transports m) (m_meta m) (m_verified m) (m_deleted m).

Definition is_row (id : Z) (m : method) : bool := m_id m =? id.
Definition enabled_row (m : method) : bool := m_verified m && negb (m_deleted m).
Definition unused (user : Z) (c : backup_code) : bool := (bc_user c =? user) && negb (bc_used c).

(** [where({ id, user_id, counter, is_verified: 1, is_deleted: 0 })] *)
Definition unchanged (id user expected : Z) (m : method) : bool :=
  is_row id m && (m_user m =? user) && (m_counter m =? expected) && enabled_row m.

Fixpoint number_codes (next user : Z) (hashes : list string) : list backup_code :=
  match hashes with
  | [] => []
  | h :: rest => MkCode next user h false :: number_codes (next + 1) user rest
  end.

Definition insert_row (row : Z -> method) (d : db) : method * db :=
  (row (d_next d), MkDb (d_methods d ++ [row (d_next d)]) (d_codes d) (d_users d) (d_next d + 1) (d_next_code d) (d_now d)).

Definition run_stmt {X : Type} (s : stmt X) (d : db) : X * db :=
  match s in stmt X return X * db with
  | Now => (d_now d, d)
  | FindMethods p => (select_where p (d_methods d), d)
  | InsertMethod row => insert_row row d
  | DeleteMethods p => (count_where p (d_methods d), set_methods (delete_where p (d_methods d)) d)
  | ConsumeRow id =>
      let p := fun m => is_row id m && negb (m_verified m) in
      (count_where p (d_methods d), set_methods (delete_where p (d_methods d)) d)
  | Verify id => (count_where (is_row id) (d_methods d), set_methods (patch_where (is_row id) (with_verified true) (d_methods d)) d)
  | ConsumeStep id user expected step =>
      (count_where (unchanged id user expected) (d_methods d),
       set_methods (patch_where (unchanged id user expected) (with_counter step) (d_methods d)) d)
  | AdvanceCounter id user expected counter =>
      (count_where (unchanged id user expected) (d_methods d),
       set_methods (patch_where (unchanged id user expected) (with_counter counter) (d_methods d)) d)
  | SoftDelete id => (count_where (is_row id) (d_methods d), set_methods (patch_where (is_row id) with_deleted (d_methods d)) d)
  | ReplaceDuo user row =>
      insert_row row (set_methods (patch_where (fun m => (m_user m =? user) && bool_decide (m_type m = DUO) && negb (m_deleted m))
                                     with_deleted (d_methods d)) d)
  | FindCodes user => (select_where (unused user) (d_codes d), d)
  | ReplaceCodes user hashes =>
      (tt, MkDb (d_methods d) (delete_where (fun c => bc_user c =? user) (d_codes d) ++ number_codes (d_next_code d) user hashes)
             (d_users d) (d_next d) (d_next_code d + Z.of_nat (length hashes)) (d_now d))
  | UseCode id user =>
      let p := fun c => (bc_id c =? id) && unused user c in
      (count_where p (d_codes d), set_codes (patch_where p (fun c => MkCode (bc_id c) (bc_user c) (bc_hash c) true) (d_codes d)) d)
  | DeleteCodes user =>
      (count_where (fun c => bc_user c =? user) (d_codes d), set_codes (delete_where (fun c => bc_user c =? user) (d_codes d)) d)
  | FindUser id => (first_where (fun u => (u_id u =? id) && u_available u) (d_users d), d)
  end.

(** What a statement used up, given what it returned. *)
Definition uses {X : Type} (s : stmt X) : X -> option evidence :=
  match s in stmt X return X -> option evidence with
  | ConsumeRow id => fun n => if Nat.eqb n 1 then Some (Challenge id) else None
  | ConsumeStep id user _ step => fun n => if Nat.eqb n 1 then Some (TimeStep id user step) else None
  | UseCode id user => fun n => if Nat.eqb n 1 then Some (BackupCode id user) else None
  | _ => fun _ => None
  end.

(** ** Programs *)

Inductive prog (A : Type) : Type :=
| Done (r : fallible A)
| Exec {X : Type} (s : stmt X) (k : X -> prog A).
Arguments Done {A} _.
Arguments Exec {A X} _ _.

Fixpoint pbind {A C} (p : prog A) (f : A -> prog C) : prog C :=
  match p with
  | Done (Ok a) => f a
  | Done (Throw e) => Done (Throw e)
  | Exec s k => Exec s (fun x => pbind (k x) f)
  end.

Declare Scope prog_scope.
#[local] Open Scope prog_scope.
Notation "'do!' x := s 'in' k" := (Exec s (fun x => k)) (at level 10, x name, s at level 100, k at level 200) : prog_scope.
Notation "'call!' x := p 'in' k" := (pbind p (fun x => k)) (at level 10, x name, p at level 100, k at level 200) : prog_scope.

Definition return_ {A} (a : A) : prog A := Done (Ok a).
Definition fail_ {A} (message : string) : prog A := Done (Throw (ValidationError message)).
(** The result of a call outside the database. *)
Definition await {A} (r : fallible A) : prog A := Done r.

(** *** The service *)

Definition PASSKEY_CHALLENGE_TTL_MS : Z := 5 * 60 * 1000.

Definition is_method (user : Z) (t : method_type) (m : method) : bool := (m_user m =? user) && bool_decide (m_type m = t).
Definition pending (user : Z) (t : method_type) (m : method) : bool := is_method user t m && negb (m_verified m).
Definition pending_live (user : Z) (t : method_type) (m : method) : bool := pending user t m && negb (m_deleted m).
Definition enrolled (user : Z) (t : method_type) (m : method) : bool := is_method user t m && enabled_row m.

Section Service.
Context `{TwoFaEnv}.

Definition regenerateBackupCodes (user : Z) (codes : list string) : prog (list string) :=
  do! u := ReplaceCodes user (map bcrypt_hash codes) in return_ codes.

Definition ensureBackupCodesExist (user : Z) (codes : list string) : prog (option (list string)) :=
  do! left := FindCodes user in
  if Nat.eqb (length left) 0 then call! cs := regenerateBackupCodes user codes in return_ (Some cs) else return_ None.

Definition setupTotp (user : Z) (secret : string) : prog unit :=
  do! n := DeleteMethods (pending_live user TOTP) in
  do! row := InsertMethod (fun id => MkMethod id user TOTP "Authenticator App" secret "" 0 None NoMeta false false) in
  return_ tt.

Definition verifyAndEnableTotp (user : Z) (code : string) (codes : list string) : prog (list string) :=
  do! rows := FindMethods (pending_live user TOTP) in
  match rows with
  | [] => fail_ "No pending TOTP setup found. Please restart setup."
  | record :: _ =>
      do! now := Now in
      match verifySync now code (m_secret record) with
      | None => fail_ "Invalid TOTP code"
      | Some _ => do! n := Verify (m_id record) in regenerateBackupCodes user codes
      end
  end.

Fixpoint try_totp (user : Z) (code : string) (records : list method) : prog bool :=
  match records with
  | [] => return_ false
  | record :: rest =>
      do! now := Now in
      match verifySync now code (m_secret record) with
      | Some timeStep =>
          if timeStep <=? m_counter record then try_totp user code rest
          else do! consumed := ConsumeStep (m_id record) user (m_counter record) timeStep in
               if Nat.eqb consumed 1 then return_ true else try_totp user code rest
      | None => try_totp user code rest
      end
  end.

Definition verifyTotp (user : Z) (code : string) : prog bool :=
  do! records := FindMethods (enrolled user TOTP) in try_totp user code records.

(** *** [validateYubikeyOtp] *)

(** [body.split(/\r?\n/)] *)
Fixpoint crlf_lines (s : string) : list string :=
  match s with
  | EmptyString => [""]
  | String c rest =>
      if code c =? 10 then "" :: crlf_lines rest
      else
        match rest with
        | String d rest' => if (code c =? 13) && (code d =? 10) then "" :: crlf_lines rest' else
            match crlf_lines rest with [] => [String c ""] | w :: ws => String c w :: ws end
        | EmptyString => [String c ""]
        end
  end.

(** The parts before and after the first equals sign. *)
Fixpoint key_value (line : string) : option (string * string) :=
  match line with
  | EmptyString => None
  | String c rest =>
      if Ascii.eqb c "=" then Some ("", rest)
      else match key_value rest with Some (k, v) => Some (String c k, v) | None => None end
  end.

Definition get_value (key : string) (values : list (string * string)) : option string :=
  option_map snd (List.find (fun kv => String.eqb (fst kv) key) values).

Fixpoint read_values (values : list (string * string)) (lines : list string) : option (list (string * string)) :=
  match lines with
  | [] => Some values
  | line :: rest =>
      match key_value line with
      | Some (key, v) =>
          if String.eqb key "" || existsb (fun kv => String.eqb (fst kv) key) values then None
          else read_values (values ++ [(key, v)]) rest
      | None => None
      end
  end.

Definition is_value (o : option string) (s : string) : bool := match o with Some v => String.eqb v s | None => false end.

Definition validateYubikeyOtp (now : Z) (otp nonce : string) : fallible string :=
  if strlen otp <? 32 then Throw (ValidationError "Invalid YubiKey OTP format")
  else
    let deviceId := take_str 12 otp in
    match yubico now otp nonce with
    | inl message => Throw (InternalError ("Yubico API request failed: " ++ message))
    | inr (statusCode, body) =>
        if 16384 <? utf8_length body then Throw (InternalError "Yubico API request failed: Yubico API response is too large")
        else if negb (statusCode =? 200) then Throw (ValidationError "Yubico API request was unsuccessful")
        else
          match read_values [] (crlf_lines (trim body)) with
          | None => Throw (ValidationError "Unexpected Yubico API response")
          | Some values =>
              if negb (is_value (get_value "otp" values) otp && is_value (get_value "nonce" values) nonce)
              then Throw (ValidationError "Yubico API response does not match the request")
              else if match yubico_signature with
                      | Some matches => negb (matches (List.filter (fun kv => negb (String.eqb (fst kv) "h")) values)
                                                (from_option id "" (get_value "h" values)))
                      | None => false
                      end
              then Throw (ValidationError "Invalid Yubico API response signature")
              else if negb (is_value (get_value "status" values) "OK") then Throw (ValidationError "YubiKey validation failed")
              else Ok deviceId
          end
    end.

Definition addYubikey (user : Z) (otp nonce label : string) (codes : list string) : prog unit :=
  do! now := Now in
  call! deviceId := await (validateYubikeyOtp now otp nonce) in
  do! existing := FindMethods (fun m => is_method user YUBIKEY m && String.eqb (m_secret m) deviceId && negb (m_deleted m)) in
  if negb (Nat.eqb (length existing) 0) then fail_ "This YubiKey is already registered"
  else
    do! row := InsertMethod (fun id => MkMethod id user YUBIKEY label deviceId "" 0 None NoMeta true false) in
    call! new := ensureBackupCodesExist user codes in
    return_ tt.

Definition verifyYubikey (user : Z) (otp nonce : string) : prog bool :=
  do! now := Now in
  call! deviceId := await (validateYubikeyOtp now otp nonce) in
  do! rows := FindMethods (fun m => enrolled user YUBIKEY m && String.eqb (m_secret m) deviceId) in
  return_ (negb (Nat.eqb (length rows) 0)).

(** The challenge of a record that is there and not expired. *)
Definition requireFreshChallenge (record : option method) (label : string) : prog string :=
  do! now := Now in
  match record with
  | Some (MkMethod _ _ _ _ _ _ _ _ (ChallengeMeta challenge expiresAt) _ _) =>
      if expiresAt <=? now then fail_ (label ++ " challenge not found or expired")
      else if String.eqb challenge "" then fail_ "Invalid challenge record" else return_ challenge
  | _ => fail_ (label ++ " challenge not found or expired")
  end.

Definition consumeChallenge (record : method) (label : string) : prog unit :=
  do! deleted := ConsumeRow (m_id record) in
  if Nat.eqb deleted 1 then return_ tt else fail_ (label ++ " challenge already used or expired").

(** Replace the pending challenge of a user. *)
Definition store_challenge (user : Z) (t : method_type) (secret challenge : string) (expiresAt : Z) : prog unit :=
  do! n := DeleteMethods (pending user t) in
  do! row := InsertMethod (fun id => MkMethod id user t "" secret "" 0 None (ChallengeMeta challenge expiresAt) false false) in
  return_ tt.

Definition beginPasskeyRegistration (user : Z) (challengeId challenge : string) : prog unit :=
  do! existing := FindMethods (fun m => is_method user PASSKEY m && negb (m_deleted m)) in
  do! now := Now in
  store_challenge user PASSKEY_CHALLENGE challengeId challenge (now + PASSKEY_CHALLENGE_TTL_MS).

Definition completePasskeyRegistration (user : Z) (challengeId response label : string) (codes : list string) : prog unit :=
  do! rows := FindMethods (fun m => pending user PASSKEY_CHALLENGE m && String.eqb (m_secret m) challengeId) in
  match rows with
  | [] => fail_ "Passkey registration challenge not found or expired"
  | record :: _ =>
      call! challenge := requireFreshChallenge (Some record) "Passkey" in
      call! verification := await (registration_response response challenge) in
      match verification with
      | None => fail_ "Passkey registration verification failed"
      | Some c =>
          call! u := consumeChallenge record "Passkey" in
          do! row := InsertMethod (fun id => MkMethod id user PASSKEY label (cr_id c) (cr_publicKey c) (cr_counter c)
                                               (response_transports response) NoMeta true false) in
          call! new := ensureBackupCodesExist user codes in
          return_ tt
      end
  end.

Definition beginPasskeyAuthentication (user : Z) (challengeId challenge : string) : prog unit :=
  do! passkeys := FindMethods (enrolled user PASSKEY) in
  if Nat.eqb (length passkeys) 0 then fail_ "No passkeys registered for this user"
  else
    do! now := Now in
    store_challenge user PASSKEY_AUTH_CHALLENGE challengeId challenge (now + PASSKEY_CHALLENGE_TTL_MS).

Definition completePasskeyAuthentication (user : Z) (challengeId response : string) : prog bool :=
  do! rows := FindMethods (fun m => pending user PASSKEY_AUTH_CHALLENGE m && String.eqb (m_secret m) challengeId) in
  match rows with
  | [] => fail_ "Passkey authentication challenge not found or expired"
  | record :: _ =>
      call! challenge := requireFreshChallenge (Some record) "Passkey" in
      do! passkeys := FindMethods (fun m => enrolled user PASSKEY m && String.eqb (m_secret m) (response_id response)) in
      match passkeys with
      | [] => fail_ "Passkey not found"
      | passkey :: _ =>
          call! verification := await (authentication_response response challenge passkey) in
          match verification with
          | None => fail_ "Passkey authentication failed"
          | Some newCounter =>
              call! u := consumeChallenge record "Passkey" in
              do! updated := AdvanceCounter (m_id passkey) user (m_counter passkey) newCounter in
              if Nat.eqb updated 1 then return_ true else fail_ "Passkey changed during authentication. Please retry."
          end
      end
  end.

Definition setupDuo (user : Z) (config : duo_config) (codes : list string) : prog unit :=
  if String.eqb (dc_clientId config) "" || String.eqb (dc_clientSecret config) "" || String.eqb (dc_apiHost config) ""
     || String.eqb (dc_redirectUrl config) "" then fail_ "All Duo configuration fields are required"
  else
    call! client := await (duo_client config) in
    call! ok := await (duo_healthCheck config) in
    do! row := ReplaceDuo user (fun id => MkMethod id user DUO "Duo Security" "" "" 0 None (DuoMeta config) true false) in
    call! new := ensureBackupCodesExist user codes in
    return_ tt.

(** [/^[A-Za-z0-9_-]{43}$/] *)
Definition token_char (c : ascii) : bool := is_alnum c || any_char (Ascii.eqb c) "_-".
Definition is_browser_token (s : string) : bool := (strlen s =? 43) && all_chars token_char s.

Definition duo_config_of (m : method) : duo_config :=
  match m_meta m with DuoMeta c => c | _ => MkDuo "" "" "" "" end.

Definition beginDuoAuthentication (user : Z) (email browserToken : string) (expiresAt : Z) (state : string) : prog string :=
  do! now := Now in
  if (expiresAt <=? now) || (now + 5 * 60 * 1000 <? expiresAt) then fail_ "Pending Duo login is invalid or expired"
  else if negb (is_browser_token browserToken) then fail_ "Invalid Duo browser binding"
  else
    do! rows := FindMethods (enrolled user DUO) in
    match rows with
    | [] => fail_ "Duo Security is not configured for this user"
    | record :: _ =>
        call! client := await (duo_client (duo_config_of record)) in
        call! authUrl := await (duo_createAuthUrl (duo_config_of record) email state) in
        call! u := store_challenge user DUO_AUTH_CHALLENGE (getDuoChallengeTag "binding" browserToken)
                     (getDuoChallengeTag "state" state) expiresAt in
        return_ authUrl
    end.

Definition completeDuoAuthentication (browserToken duoCode state : string) : prog (option account) :=
  if negb (is_browser_token browserToken) then fail_ "Duo login cookie is missing or invalid"
  else if String.eqb state "" || String.eqb duoCode "" then fail_ "Duo login code and state are required"
  else
    do! rows := FindMethods (fun m => bool_decide (m_type m = DUO_AUTH_CHALLENGE)
                                      && String.eqb (m_secret m) (getDuoChallengeTag "binding" browserToken)
                                      && negb (m_verified m) && negb (m_deleted m)) in
    call! tag := requireFreshChallenge (head rows) "Duo" in
    match rows with
    | [] => fail_ "Duo challenge not found or expired"
    | record :: _ =>
        if negb (String.eqb tag (getDuoChallengeTag "state" state)) then fail_ "Duo login state does not match"
        else
          do! user := FindUser (m_user record) in
          match user with
          | None => fail_ "Duo login user is no longer available"
          | Some u =>
              do! methods := FindMethods (enrolled (m_user record) DUO) in
              match methods with
              | [] => fail_ "Duo Security is not configured for this user"
              | duo :: _ =>
                  call! client := await (duo_client (duo_config_of duo)) in
                  call! claimed := consumeChallenge record "Duo" in
                  do! now := Now in
                  call! allowed := await (duo_exchange now (duo_config_of duo) duoCode (u_email u)) in
                  if negb allowed then return_ None
                  else
                    call! again := requireFreshChallenge (Some record) "Duo" in
                    do! current := FindUser (m_user record) in
                    return_ current
              end
          end
    end.

(** [code.toUpperCase().replace(/[\s-]/g, "")] *)
Fixpoint remove_chars (p : ascii -> bool) (s : string) : string :=
  match s with
  | String c rest => if p c then remove_chars p rest else String c (remove_chars p rest)
  | EmptyString => ""
  end.
Definition plain_code (code : string) : string :=
  remove_chars (fun c => is_space c || Ascii.eqb c "-") (to_upper code).

(** [findAndConsume] *)
Fixpoint try_codes (user : Z) (plainCode : string) (records : list backup_code) : prog bool :=
  match records with
  | [] => return_ false
  | record :: rest =>
      if bcrypt_compare plainCode (bc_hash record) then
        do! consumed := UseCode (bc_id record) user in return_ (Nat.eqb consumed 1)
      else try_codes user plainCode rest
  end.

Definition verifyBackupCode (user : Z) (code : string) : prog bool :=
  do! records := FindCodes user in try_codes user (plain_code code) records.

Definition getRemainingBackupCodeCount (user : Z) : prog nat :=
  do! records := FindCodes user in return_ (length records).

Definition removeTwoFaMethod (user methodId : Z) : prog unit :=
  do! rows := FindMethods (fun m => is_row methodId m && (m_user m =? user) && negb (m_deleted m)) in
  match rows with
  | [] => Done (Throw (MkError CItemNotFound ("Not Found - 2FA method " ++ show_Z methodId) true (Some 404)))
  | _ =>
      do! n := SoftDelete methodId in
      do! left := FindMethods (fun m => (m_user m =? user) && enabled_row m) in
      if Nat.eqb (length left) 0 then do! k := DeleteCodes user in return_ tt else return_ tt
  end.

Inductive login_method : Type := LTotp | LYubikey (nonce : string) | LBackupCode | LUnknown (name : string).

Definition verifyLoginChallenge (user : Z) (m : login_method) (code : string) : prog bool :=
  match m with
  | LTotp => verifyTotp user code
  | LYubikey nonce => verifyYubikey user code nonce
  | LBackupCode => verifyBackupCode user code
  | LUnknown name => fail_ ("Unknown 2FA method: " ++ name)
  end.
End Service.

(** ** Requests side by side *)

Inductive tfa_request : Type :=
| RSetupTotp (user : Z) (secret : string)
| REnableTotp (user : Z) (code : string) (codes : list string)
| RAddYubikey (user : Z) (otp nonce label : string) (codes : list string)
| RBeginPasskeyRegistration (user : Z) (challengeId challenge : string)
| RCompletePasskeyRegistration (user : Z) (challengeId response label : string) (codes : list string)
| RBeginPasskey (user : Z) (challengeId challenge : string)
| RCompletePasskey (user : Z) (challengeId response : string)
| RSetupDuo (user : Z) (config : duo_config) (codes : list string)
| RBeginDuo (user : Z) (email browserToken : string) (expiresAt : Z) (state : string)
| RCompleteDuo (browserToken duoCode state : string)
| RRegenerate (user : Z) (codes : list string)
| RRemaining (user : Z)
| RRemove (user methodId : Z)
| RLogin (user : Z) (m : login_method) (code : string).

Section Requests.
Context `{TwoFaEnv}.

Definition no_login {A} (p : prog A) : prog bool := pbind p (fun _ => return_ false).

(** The program of a request; its value says whether the login may go on. *)
Definition program (r : tfa_request) : prog bool :=
  match r with
  | RSetupTotp user secret => no_login (setupTotp user secret)
  | REnableTotp user code codes => no_login (verifyAndEnableTotp user code codes)
  | RAddYubikey user otp nonce label codes => no_login (addYubikey user otp nonce label codes)
  | RBeginPasskeyRegistration user cid c => no_login (beginPasskeyRegistration user cid c)
  | RCompletePasskeyRegistration user cid r label codes => no_login (completePasskeyRegistration user cid r label codes)
  | RBeginPasskey user cid c => no_login (beginPasskeyAuthentication user cid c)
  | RCompletePasskey user cid r => completePasskeyAuthentication user cid r
  | RSetupDuo user config codes => no_login (setupDuo user config codes)
  | RBeginDuo user email token expiresAt state => no_login (beginDuoAuthentication user email token expiresAt state)
  | RCompleteDuo token code state =>
      pbind (completeDuoAuthentication token code state) (fun o => return_ (match o with Some _ => true | None => false end))
  | RRegenerate user codes => no_login (regenerateBackupCodes user codes)
  | RRemaining user => no_login (getRemainingBackupCodeCount user)
  | RRemove user id => no_login (removeTwoFaMethod user id)
  | RLogin user m code => verifyLoginChallenge user m code
  end.

(** What a successful login of this request has to have used up. *)
Definition expects (r : tfa_request) (e : evidence) : Prop :=
  match r, e with
  | RLogin user LTotp code, TimeStep _ user' step => user = user' /\ exists now secret, verifySync now code secret = Some step
  | RLogin user LBackupCode _, BackupCode _ user' => user = user'
  | RCompletePasskey _ _ _, Challenge _ | RCompleteDuo _ _ _, Challenge _ => True
  | _, _ => False
  end.

(** A YubiKey code is used up at the provider: it answered for this code and
    this nonce, with OK, every value once and, with a key, signed. *)
Definition confirmed (otp nonce : string) : Prop :=
  32 <= strlen otp /\ exists now body values, yubico now otp nonce = inr (200, body) /\
    read_values [] (crlf_lines (trim body)) = Some values /\ List.NoDup (map fst values) /\
    get_value "otp" values = Some otp /\ get_value "nonce" values = Some nonce /\ get_value "status" values = Some "OK" /\
    match yubico_signature with
    | Some matches => matches (List.filter (fun kv => negb (String.eqb (fst kv) "h")) values) (from_option id "" (get_value "h" values)) = true
    | None => True
    end.

Definition by_provider (r : tfa_request) : Prop :=
  match r with RLogin _ (LYubikey nonce) otp => confirmed otp nonce | _ => False end.

Definition thread : Type := (Z * tfa_request * prog bool)%type.

Record system : Type := MkSystem {
  sy_db : db;
  sy_threads : list thread;
  sy_done : list (Z * tfa_request * fallible bool);
  sy_log : list (Z * evidence);
  sy_next : Z
}.

Definition tagged (rid : Z) (o : option evidence) : list (Z * evidence) := match o with Some e => [(rid, e)] | None => [] end.

Inductive sys_step : system -> system -> Prop :=
| sys_request r s :
    sys_step s (MkSystem (sy_db s) (sy_threads s ++ [(sy_next s, r, program r)]) (sy_done s) (sy_log s) (sy_next s + 1))
| sys_exec i rid r X (st : stmt X) k s : sy_threads s !! i = Some (rid, r, Exec st k) ->
    sys_step s (MkSystem (snd (run_stmt st (sy_db s))) (<[i := (rid, r, k (fst (run_stmt st (sy_db s))))]> (sy_threads s))
      (sy_done s) (sy_log s ++ tagged rid (uses st (fst (run_stmt st (sy_db s))))) (sy_next s))
| sys_return i rid r res s : sy_threads s !! i = Some (rid, r, Done res) ->
    sys_step s (MkSystem (sy_db s) (delete i (sy_threads s)) (sy_done s ++ [(rid, r, res)]) (sy_log s) (sy_next s))
| sys_tick now users s : d_now (sy_db s) <= now ->
    sys_step s (MkSystem (MkDb (d_methods (sy_db s)) (d_codes (sy_db s)) users (d_next (sy_db s)) (d_next_code (sy_db s)) now)
      (sy_threads s) (sy_done s) (sy_log s) (sy_next s)).

Definition sys_initial (s : system) : Prop :=
  d_methods (sy_db s) = [] /\ d_codes (sy_db s) = [] /\ sy_threads s = [] /\ sy_done s = [] /\ sy_log s = [].
End Requests.

(** ** The database *)

Definition configured (c : duo_config) : Prop :=
  dc_clientId c <> "" /\ dc_clientSecret c <> "" /\ dc_apiHost c <> "" /\ dc_redirectUrl c <> "".

(** A row has the metadata of its type; a challenge is never a verified method. *)
Definition row_typed (m : method) : Prop :=
  match m_type m, m_meta m with
  | TOTP, NoMeta => True
  | YUBIKEY, NoMeta | PASSKEY, NoMeta => m_verified m = true
  | DUO, DuoMeta c => m_verified m = true /\ configured c
  | PASSKEY_CHALLENGE, ChallengeMeta _ _ | PASSKEY_AUTH_CHALLENGE, ChallengeMeta _ _
  | DUO_AUTH_CHALLENGE, ChallengeMeta _ _ => m_verified m = false
  | _, _ => False
  end.

Record db_ok (d : db) : Prop := MkDbOk {
  ok_ids : List.NoDup (map m_id (d_methods d));
  ok_below : Forall (fun m => m_id m < d_next d) (d_methods d);
  ok_types : Forall row_typed (d_methods d);
  ok_codes : List.NoDup (map bc_id (d_codes d));
  ok_codes_below : Forall (fun c => bc_id c < d_next_code d) (d_codes d)
}.

(** How a row may change. *)
Definition from_row (m m' : method) : Prop :=
  m_id m' = m_id m /\ m_type m' = m_type m /\ (m_type m = TOTP -> m_counter m <= m_counter m').

Record evolves (d d' : db) : Prop := MkEvolves {
  ev_next : d_next d <= d_next d';
  ev_next_code : d_next_code d <= d_next_code d';
  ev_methods : forall m', In m' (d_methods d') -> (exists m, In m (d_methods d) /\ from_row m m') \/ d_next d <= m_id m';
  ev_codes : forall c', In c' (d_codes d') ->
    (exists c, In c (d_codes d) /\ bc_id c' = bc_id c /\ (bc_used c = true -> bc_used c' = true)) \/ d_next_code d <= bc_id c'
}.

Lemma from_row_refl m : from_row m m.
Proof. by split_and!. Qed.

Lemma evolves_refl d : evolves d d.
Proof. split; [lia|lia| |]; [intros m; left; exists m; split; [done|apply from_row_refl]|intros c; left; by exists c]. Qed.

(** What is known of rows: the type of an identifier never changes. *)
Definition facts : Type := Z -> method_type -> Prop.
Definition fact_ok (d : db) (id : Z) (t : method_type) : Prop :=
  id < d_next d /\ forall m, In m (d_methods d) -> m_id m = id -> m_type m = t.
Definition facts_ok (d : db) (K : facts) : Prop := forall id t, K id t -> fact_ok d id t.

Lemma facts_evolve d d' K : evolves d d' -> facts_ok d K -> facts_ok d' K.
Proof.
  intros [Hn _ Hm _] Hf id t [Hid Ht]%Hf. split; [lia|]. intros m' Hin E.
  destruct (Hm m' Hin) as [(m & Hin' & Eid & Et & _)|Hge]; [|lia]. rewrite Et. apply Ht; [done|congruence].
Qed.

(** The trace evidence leaves behind. *)
Definition evidence_ok (d : db) (e : evidence) : Prop :=
  match e with
  | TimeStep id _ step => fact_ok d id TOTP /\ forall m, In m (d_methods d) -> m_id m = id -> step <= m_counter m
  | BackupCode id _ => id < d_next_code d /\ forall c, In c (d_codes d) -> bc_id c = id -> bc_used c = true
  | Challenge id => id < d_next d /\ forall m, In m (d_methods d) -> m_id m <> id
  end.

Lemma evidence_evolves d d' e : evolves d d' -> evidence_ok d e -> evidence_ok d' e.
Proof.
  intros Hev. pose proof Hev as [Hn Hnc Hm Hc]. destruct e as [id user step|id user|id]; simpl.
  - intros [[Hid Ht] Hs]. split.
    + apply (facts_evolve d d' (fun i t => i = id /\ t = TOTP) Hev); [|done]. by intros i t [-> ->].
    + intros m' Hin E. destruct (Hm m' Hin) as [(m & Hin' & Eid & _ & Hle)|Hge]; [|lia].
      pose proof (Hs m Hin' ltac:(congruence)). pose proof (Hle (Ht m Hin' ltac:(congruence))). lia.
  - intros [Hid Hu]. split; [lia|]. intros c' Hin E. destruct (Hc c' Hin) as [(c & Hin' & Eid & Hle)|Hge]; [|lia].
    apply Hle, Hu; [done|congruence].
  - intros [Hid Hno]. split; [lia|]. intros m' Hin E. destruct (Hm m' Hin) as [(m & Hin' & Eid & _)|Hge]; [|lia].
    apply (Hno m Hin'). congruence.
Qed.

(** ** What a statement does to the database *)

(** A new row: its number is the next one, and it is well-typed. *)
Definition row_ok (row : Z -> method) : Prop :=
  forall id, m_id (row id) = id /\ row_typed (row id).

(** What a program has to know before a statement. *)
Definition stmt_ok (K : facts) {X : Type} (s : stmt X) : Prop :=
  match s with
  | InsertMethod row => row_ok row
  | ReplaceDuo _ row => row_ok row
  | Verify id => K id TOTP
  | ConsumeStep id _ expected step => K id TOTP /\ expected < step
  | AdvanceCounter id _ _ _ => K id PASSKEY
  | _ => True
  end.

(** What it learns from the result. *)
Definition learned {X : Type} (s : stmt X) : X -> facts :=
  match s in stmt X return X -> facts with
  | FindMethods p => fun rows id t => exists m, In m rows /\ p m = true /\ m_id m = id /\ m_type m = t
  | _ => fun _ _ _ => False
  end.

Definition result_ok {X : Type} (s : stmt X) : X -> Prop :=
  match s in stmt X return X -> Prop with
  | FindMethods p => fun rows => forall m, In m rows -> p m = true
  | _ => fun _ => True
  end.

(** Two uses of one thing: the second one is of a later time step. *)
Definition later (e0 e : evidence) : Prop :=
  match e0, e with
  | TimeStep id _ step, TimeStep id' _ step' => id = id' -> step < step'
  | BackupCode id _, BackupCode id' _ => id <> id'
  | Challenge id, Challenge id' => id <> id'
  | _, _ => True
  end.

(** A patch that keeps numbers and types, and lowers no counter of a TOTP method. *)
Lemma patch_ok (p : method -> bool) f d :
  (forall m, m_id (f m) = m_id m) ->
  (forall m, In m (d_methods d) -> p m = true -> from_row m (f m) /\ (row_typed m -> row_typed (f m))) ->
  db_ok d -> db_ok (set_methods (patch_where p f (d_methods d)) d) /\ evolves d (set_methods (patch_where p f (d_methods d)) d).
Proof.
  intros Hid Hf [Hnd Hb Ht Hc Hcb]. split.
  - split; simpl; try done.
    + by rewrite map_patch.
    + rewrite List.Forall_forall in Hb |- *. intros m [(m0 & Hin & _ & ->)|[Hin _]]%in_patch; [rewrite Hid|]; auto.
    + rewrite List.Forall_forall in Ht |- *. intros m [(m0 & Hin & Hp & ->)|[Hin _]]%in_patch; [apply Hf|]; auto.
  - split; simpl; [lia|lia| |].
    + intros m' [(m0 & Hin & Hp & ->)|[Hin _]]%in_patch; left; [exists m0; split; [done|by apply Hf]|].
      exists m'. split; [done|apply from_row_refl].
    + intros c Hin. left. by exists c.
Qed.

Lemma delete_ok (p : method -> bool) d :
  db_ok d -> db_ok (set_methods (delete_where p (d_methods d)) d) /\ evolves d (set_methods (delete_where p (d_methods d)) d).
Proof.
  intros [Hnd Hb Ht Hc Hcb]. split.
  - split; simpl; try done; [by apply NoDup_map_delete| |]; rewrite List.Forall_forall in *; intros m [Hin _]%in_delete; auto.
  - split; simpl; [lia|lia| |].
    + intros m [Hin _]%in_delete. left. exists m. split; [done|apply from_row_refl].
    + intros c Hin. left. by exists c.
Qed.

Lemma insert_ok row d : row_ok row -> db_ok d -> db_ok (snd (insert_row row d)) /\ evolves d (snd (insert_row row d)).
Proof.
  intros Hr [Hnd Hb Ht Hc Hcb]. destruct (Hr (d_next d)) as [Hid Hv]. split.
  - split; simpl; try done.
    + apply key_fresh_app; [done|]. rewrite Hid. intros (m & E & Hin)%in_map_iff.
      rewrite List.Forall_forall in Hb. specialize (Hb m Hin). lia.
    + apply Forall_app. split; [|by constructor; [lia|]]. eapply List.Forall_impl; [|exact Hb]. simpl. lia.
    + apply Forall_app. split; [done|by constructor].
  - split; simpl; [lia|lia| |].
    + intros m [Hin|[<-|[]]]%in_app_iff; [left; exists m; split; [done|apply from_row_refl]|right; lia].
    + intros c Hin. left. by exists c.
Qed.

Lemma evolves_trans d1 d2 d3 : evolves d1 d2 -> evolves d2 d3 -> evolves d1 d3.
Proof.
  intros [Hn Hnc Hm Hc] [Hn' Hnc' Hm' Hc']. split; [lia|lia| |].
  - intros m [(m2 & Hin & E)|?]%Hm'; [|right; lia]. destruct (Hm m2 Hin) as [(m1 & Hin1 & E1)|?].
    + left. exists m1. split; [done|]. destruct E as (E & E2 & E3), E1 as (E1 & E4 & E5). split_and!; [congruence|congruence|].
      intros Et. specialize (E5 Et). specialize (E3 ltac:(congruence)). lia.
    + right. destruct E as (E & _). lia.
  - intros c [(c2 & Hin & E & Hu)|?]%Hc'; [|right; lia]. destruct (Hc c2 Hin) as [(c1 & Hin1 & E1 & Hu1)|?].
    + left. exists c1. split; [done|]. split; [congruence|auto].
    + right. lia.
Qed.

(** *** Backup codes *)

Lemma number_codes_in next user hashes c :
  In c (number_codes next user hashes) -> next <= bc_id c < next + Z.of_nat (length hashes).
Proof.
  revert next. induction hashes as [|h rest IH]; intros next; [done|]. simpl. intros [<-|Hin]; simpl; [lia|].
  apply IH in Hin. lia.
Qed.

Lemma number_codes_distinct next user hashes : List.NoDup (map bc_id (number_codes next user hashes)).
Proof.
  revert next. induction hashes as [|h rest IH]; intros next; simpl; constructor; [|done].
  intros (c & E & Hin)%in_map_iff. apply number_codes_in in Hin. lia.
Qed.

Lemma replace_codes_ok user hashes d : db_ok d ->
  db_ok (snd (run_stmt (ReplaceCodes user hashes) d)) /\ evolves d (snd (run_stmt (ReplaceCodes user hashes) d)).
Proof.
  intros [Hnd Hb Ht Hc Hcb]. rewrite List.Forall_forall in Hcb. split.
  - split; simpl; try done.
    + rewrite map_app. apply List.NoDup_app; [by apply NoDup_map_delete|apply number_codes_distinct|].
      intros i (c & E & [Hin _]%in_delete)%in_map_iff (c' & E' & Hin'%number_codes_in)%in_map_iff.
      specialize (Hcb c Hin). lia.
    + apply Forall_app. split; apply List.Forall_forall; intros c.
      * intros [Hin _]%in_delete. specialize (Hcb c Hin). lia.
      * intros Hin%number_codes_in. lia.
  - split; simpl; [lia|lia| |].
    + intros m Hin. left. exists m. split; [done|apply from_row_refl].
    + intros c [[Hin _]%in_delete|Hin%number_codes_in]%in_app_iff; [left; by exists c|right; lia].
Qed.

Lemma codes_ok rows d : db_ok d -> List.NoDup (map bc_id rows) ->
  (forall c', In c' rows -> exists c, In c (d_codes d) /\ bc_id c' = bc_id c /\ (bc_used c = true -> bc_used c' = true)) ->
  db_ok (set_codes rows d) /\ evolves d (set_codes rows d).
Proof.
  intros [Hnd Hb Ht Hc Hcb] Hnd' Hrows. split.
  - split; simpl; try done. rewrite List.Forall_forall in *. intros c (c0 & Hin & -> & _)%Hrows. auto.
  - split; simpl; [lia|lia| |].
    + intros m Hin. left. exists m. split; [done|apply from_row_refl].
    + intros c Hin. left. auto.
Qed.

(** *** Every statement *)

Lemma step_ok (K : facts) {X} (s : stmt X) d : db_ok d -> facts_ok d K -> stmt_ok K s ->
  db_ok (snd (run_stmt s d)) /\ evolves d (snd (run_stmt s d)).
Proof.
  intros Hd HK Hs. destruct s; simpl in Hs |- *; try (split; [done|apply evolves_refl]).
  - by apply insert_ok.
  - by apply delete_ok.
  - by apply delete_ok.
  - apply patch_ok; [done| |done]. intros m Hin Hp%Z.eqb_eq. split; [by split_and!|]. unfold row_typed. simpl.
    by rewrite (proj2 (HK id TOTP Hs) m Hin Hp).
  - destruct Hs as [Hs Hlt]. apply patch_ok; [done| |done]. intros m Hin Hp. unfold unchanged, is_row in Hp. split; [|done].
    split_and!; [done|done|]. intros _. simpl. lia.
  - apply patch_ok; [done| |done]. intros m Hin Hp. unfold unchanged, is_row in Hp. split; [|done].
    split_and!; [done|done|]. intros Et. assert (m_type m = PASSKEY) as E by (apply (HK id PASSKEY Hs); [done|lia]). congruence.
  - apply patch_ok; [done| |done]. intros m Hin Hp. by split; [split_and!|].
  - destruct (patch_ok (fun m => (m_user m =? user) && bool_decide (m_type m = DUO) && negb (m_deleted m)) with_deleted d) as [H1 H2];
      [done|intros m Hin Hp; by split; [split_and!|]|done|].
    destruct (insert_ok row (set_methods (patch_where (fun m => (m_user m =? user) && bool_decide (m_type m = DUO) && negb (m_deleted m))
                                           with_deleted (d_methods d)) d) Hs H1) as [H3 H4].
    split; [done|by eapply evolves_trans].
  - by apply (replace_codes_ok user hashes).
  - apply codes_ok; [done| |].
    + rewrite map_patch; [apply Hd|done].
    + intros c' [(c & Hin & _ & ->)|[Hin _]]%in_patch; [by exists c|by exists c'].
  - apply codes_ok; [done|apply NoDup_map_delete, Hd|]. intros c [Hin _]%in_delete. by exists c.
Qed.

Lemma step_learns {X} (s : stmt X) d : db_ok d ->
  result_ok s (fst (run_stmt s d)) /\ facts_ok d (learned s (fst (run_stmt s d))).
Proof.
  intros [Hnd Hb _ _ _]. rewrite List.Forall_forall in Hb. destruct s; simpl; try done. split.
  - by intros m [_ Hp]%in_select.
  - intros id t (m & [Hin _]%in_select & _ & <- & <-). split; [auto|].
    intros m' Hin' E. by rewrite (key_unique m_id (d_methods d) m' m Hnd Hin' Hin E).
Qed.

Lemma count_one {R} (p : R -> bool) rows : count_where p rows = 1%nat -> exists r, In r rows /\ p r = true.
Proof.
  unfold count_where. intros E. destruct (List.filter p rows) as [|r rest] eqn:Ef; [done|].
  exists r. apply filter_In. rewrite Ef. by left.
Qed.

(** What a statement uses up leaves its trace, and nothing used before is used again. *)
Lemma step_uses (K : facts) {X} (s : stmt X) d e : db_ok d -> facts_ok d K -> stmt_ok K s ->
  uses s (fst (run_stmt s d)) = Some e ->
  evidence_ok (snd (run_stmt s d)) e /\ forall e0, evidence_ok d e0 -> later e0 e.
Proof.
  intros Hd HK Hs. destruct (step_ok K s d Hd HK Hs) as [_ Hev]. pose proof Hd as [Hnd Hb _ Hndc Hcb].
  rewrite List.Forall_forall in Hb, Hcb.
  destruct s; simpl in *; try done; destruct (Nat.eqb _ 1) eqn:E1; intros [= <-]; apply Nat.eqb_eq, count_one in E1 as (r & Hin & Hr).
  - unfold is_row in Hr. assert (m_id r = id) as E by lia. split.
    + split; [simpl; rewrite <- E; auto|]. simpl. intros m [Hm Hp]%in_delete Em.
      rewrite (key_unique m_id (d_methods d) m r Hnd Hm Hin) in Hp by congruence. unfold is_row in Hp. congruence.
    + intros [| |id0] He0; simpl; try done. intros <-. destruct He0 as [_ Hno]. by apply (Hno r).
  - destruct Hs as [HT Hlt]. pose proof Hr as Hu. unfold unchanged, is_row in Hr. assert (m_id r = id) as E by lia. split.
    + split; [by apply (facts_evolve d _ K Hev HK)|]. simpl. intros m' [(m & Hm & Hp & ->)|[Hm Hp]]%in_patch Em; simpl; [lia|].
      rewrite (key_unique m_id (d_methods d) m' r Hnd Hm Hin) in Hp by congruence. congruence.
    + intros [id0 user0 step0| |] He0; simpl; try done. intros ->. destruct He0 as [_ Hle]. specialize (Hle r Hin E). lia.
  - pose proof Hr as Hu. unfold unused in Hr. assert (bc_id r = id) as E by lia. split.
    + split; [simpl; rewrite <- E; auto|]. simpl. intros c' [(c & Hm & Hp & ->)|[Hm Hp]]%in_patch Em; simpl; [done|].
      rewrite (key_unique bc_id (d_codes d) c' r Hndc Hm Hin) in Hp by congruence. congruence.
    + intros [|id0 user0|] He0; simpl; try done. intros <-. destruct He0 as [_ Hused]. specialize (Hused r Hin E).
      rewrite Hused in Hr. simpl in Hr. lia.
Qed.

(** ** Programs that use up what they accept *)

Definition and_learned (K : facts) {X} (s : stmt X) (x : X) : facts := fun id t => K id t \/ learned s x id t.

(** Whatever the statements return, the program knows what they need, and when
    it ends well [Q] holds of its value, the facts and whether [E] was used up. *)
Fixpoint safe {A} (E : evidence -> Prop) (Q : facts -> Prop -> A -> Prop) (K : facts) (g : Prop) (p : prog A) : Prop :=
  match p with
  | Done (Ok a) => Q K g a
  | Done (Throw _) => True
  | Exec s k => stmt_ok K s /\ forall x, result_ok s x ->
      safe E Q (and_learned K s x) (g \/ exists e, uses s x = Some e /\ E e) (k x)
  end.

Lemma safe_bind {A C} E (Q : facts -> Prop -> C -> Prop) (p : prog A) (f : A -> prog C) K g :
  safe E (fun K g a => safe E Q K g (f a)) K g p -> safe E Q K g (pbind p f).
Proof.
  revert K g. induction p as [[a|e]|X s k IH]; intros K g; simpl; [done|done|].
  intros [Hs Hk]. split; [done|]. intros x Hx. by apply IH, Hk.
Qed.

Lemma safe_post {A} E (Q Q' : facts -> Prop -> A -> Prop) (p : prog A) K g :
  (forall K g a, Q K g a -> Q' K g a) -> safe E Q K g p -> safe E Q' K g p.
Proof.
  intros HQ. revert K g. induction p as [[a|e]|X s k IH]; intros K g; simpl; [apply HQ|done|].
  intros [Hs Hk]. split; [done|]. intros x Hx. by apply IH, Hk.
Qed.

Lemma safe_more {A} E (Q : facts -> Prop -> A -> Prop) (p : prog A) (K K' : facts) (g g' : Prop) :
  (forall (K K' : facts) (g g' : Prop) a, (forall id t, K id t -> K' id t) -> (g -> g') -> Q K g a -> Q K' g' a) ->
  (forall id t, K id t -> K' id t) -> (g -> g') -> safe E Q K g p -> safe E Q K' g' p.
Proof.
  intros HQ. revert K K' g g'. induction p as [[a|e]|X s k IH]; intros K K' g g' HK Hg; simpl; [by apply HQ|done|].
  intros [Hs Hk]. split.
  - destruct s; simpl in *; try done; [by apply HK| |by apply HK]. destruct Hs. split; [by apply HK|done].
  - intros x Hx. eapply IH; [| |by apply Hk]; [|tauto]. intros id t [?|?]; [left; auto|by right].
Qed.

Lemma configured_fields c :
  String.eqb (dc_clientId c) "" || String.eqb (dc_clientSecret c) "" || String.eqb (dc_apiHost c) "" || String.eqb (dc_redirectUrl c) "" = false ->
  configured c.
Proof. intros E. unfold configured. repeat split; intros E0; rewrite E0 in E; simpl in E; by rewrite ?orb_true_r in E. Qed.

(** The facts a found row gives. *)
Lemma found_type K (p : method -> bool) rows m t (HR : result_ok (FindMethods p) rows) :
  In m rows -> (p m = true -> m_type m = t) -> and_learned K (FindMethods p) rows (m_id m) t.
Proof. intros Hin Ht. right. exists m. split_and!; auto. Qed.

Lemma pending_live_type user t m : pending_live user t m = true -> m_type m = t.
Proof. unfold pending_live, pending, is_method. intros Hp. case_bool_decide; [done|]. by rewrite andb_false_r in Hp. Qed.
Lemma enrolled_type user t m : enrolled user t m = true -> m_type m = t.
Proof. unfold enrolled, is_method. intros Hp. case_bool_decide; [done|]. by rewrite andb_false_r in Hp. Qed.

(** One statement at a time, through every branch. *)
Ltac walk := repeat first
  [ done
  | progress simpl
  | match goal with
    | |- safe _ _ _ _ (pbind _ _) => apply safe_bind
    | |- safe _ _ _ _ (match ?x with _ => _ end) => let E := fresh "E" in destruct x eqn:E
    | |- safe _ _ _ _ (Exec _ _) => split
    | |- stmt_ok _ _ /\ _ => split
    | |- row_ok _ => intros ?; by split
    | |- _ /\ _ => split
    | |- forall _, _ => intros ?
    end ].

Ltac used_up := right; repeat first [solve [right; by eexists (Challenge _)] | left].

Section Walks.
Context `{TwoFaEnv}.

Lemma try_totp_safe user code records K g :
  (forall r, In r records -> K (m_id r) TOTP) ->
  safe (expects (RLogin user LTotp code)) (fun _ g b => b = true -> g) K g (try_totp user code records).
Proof.
  revert K g. induction records as [|r rest IH]; intros K g HK; [done|]. simpl. split; [done|]. intros now _.
  destruct (verifySync now code (m_secret r)) as [step|] eqn:Ev; [|apply IH; intros r' Hr'; left; apply HK; by right].
  destruct (step <=? m_counter r) eqn:El; [apply IH; intros r' Hr'; left; apply HK; by right|].
  split; [split; [left; apply HK; by left|lia]|]. intros n _. destruct (Nat.eqb n 1) eqn:En; simpl.
  - intros _. right. exists (TimeStep (m_id r) user step). simpl. rewrite En. split_and!; eauto.
  - apply IH. intros r' Hr'. left. left. apply HK. by right.
Qed.

Lemma try_codes_safe user code plain records K g :
  safe (expects (RLogin user LBackupCode code)) (fun _ g b => b = true -> g) K g (try_codes user plain records).
Proof.
  revert K g. induction records as [|r rest IH]; intros K g; [done|]. simpl.
  destruct (bcrypt_compare plain (bc_hash r)); [|done]. split; [done|]. intros n _ En. right.
  exists (BackupCode (bc_id r) user). simpl. by rewrite En.
Qed.

Lemma is_value_true o s : is_value o s = true -> o = Some s.
Proof. destruct o as [v|]; [|done]. by intros ->%String.eqb_eq. Qed.

Lemma read_values_distinct lines values out :
  List.NoDup (map fst values) -> read_values values lines = Some out -> List.NoDup (map fst out).
Proof.
  revert values. induction lines as [|line rest IH]; intros values Hnd; simpl; [by intros [= <-]|].
  destruct (key_value line) as [[key v]|]; [|done]. destruct (_ || _) eqn:E; [done|]. apply IH.
  apply (key_fresh_app fst _ (key, v)); [done|]. apply orb_false_iff in E as [_ E]. intros (kv & Ek & Hin)%in_map_iff.
  assert (existsb (fun kv => String.eqb (fst kv) key) values = true); [|congruence].
  apply existsb_exists. exists kv. split; [done|]. by apply String.eqb_eq.
Qed.

Lemma validate_confirmed now otp nonce device : validateYubikeyOtp now otp nonce = Ok device -> confirmed otp nonce.
Proof.
  unfold validateYubikeyOtp. destruct (Z.ltb_spec (strlen otp) 32); [done|]. destruct (yubico now otp nonce) as [|[status body]] eqn:Ey; [done|].
  destruct (16384 <? _); [done|]. destruct (Z.eqb_spec status 200) as [->|]; [|done]. simpl.
  destruct (read_values _ _) as [values|] eqn:Ev; [|done].
  destruct (is_value (get_value "otp" values) otp) eqn:Eo; [|done]. destruct (is_value (get_value "nonce" values) nonce) eqn:En; [|done]. simpl.
  destruct (match yubico_signature with Some _ => _ | None => _ end) eqn:Es; [done|].
  destruct (is_value (get_value "status" values) "OK") eqn:Et; [|done]. intros _. split; [lia|]. exists now, body, values.
  split_and!; try done; try by apply is_value_true.
  - eapply read_values_distinct; [|exact Ev]. constructor.
  - destruct yubico_signature; [|done]. by apply negb_false_iff.
Qed.

(** Every program only makes statements it may make, and accepts a login only after using something up. *)
Lemma program_safe r : safe (expects r) (fun _ g b => b = true -> by_provider r \/ g) (fun _ _ => False) False (program r).
Proof.
  destruct r as [ | | | | | | | | | | | | |user m code]; unfold program, no_login; walk.
  - left. apply found_type; [done|by left|apply pending_live_type].
  - left. apply found_type; [done|by left|]. intros Hp. apply (enrolled_type user PASSKEY). by apply andb_true_iff in Hp as [].
  - used_up.
  - unfold setupDuo. walk. apply configured_fields in E. walk.
  - unfold completeDuoAuthentication. walk. used_up.
  - destruct m; walk.
    + eapply safe_post; [|apply try_totp_safe]; [naive_solver|].
      intros r Hr. apply found_type; [done|done|apply enrolled_type].
    + left. by eapply validate_confirmed.
    + eapply safe_post; [|apply (try_codes_safe _ code)]; naive_solver.
Qed.
End Walks.

(** ** Requests side by side *)

Definition used_in_order (log : list (Z * evidence)) : Prop :=
  forall i j e e', (i < j)%nat -> log !! i = Some e -> log !! j = Some e' -> later (snd e) (snd e').

Lemma used_in_order_snoc log x :
  used_in_order log -> (forall y, In y log -> later (snd y) (snd x)) -> used_in_order (log ++ [x]).
Proof.
  intros Ho Hx i j e e' Hij Hi Hj. pose proof (lookup_lt_Some _ _ _ Hj) as Hl. rewrite length_app in Hl. simpl in Hl.
  rewrite lookup_app_l in Hi by lia. destruct (decide (j < length log)%nat) as [Hlt|Hge].
  - rewrite lookup_app_l in Hj by done. by apply (Ho i j).
  - rewrite lookup_app_r in Hj by lia. apply list_lookup_singleton_Some in Hj as [_ <-].
    apply Hx, list_elem_of_In, list_elem_of_lookup. by exists i.
Qed.

Section Interleaving.
Context `{TwoFaEnv}.

(** Who accepted a login used something up for it, or had the provider do so. *)
Definition justified (log : list (Z * evidence)) (rid : Z) (r : tfa_request) : Prop :=
  by_provider r \/ exists e, In (rid, e) log /\ expects r e.

Definition thread_ok (d : db) (log : list (Z * evidence)) (t : thread) : Prop :=
  let '(rid, r, p) := t in
  exists (K : facts) (g : Prop), facts_ok d K /\ (g -> exists e, In (rid, e) log /\ expects r e) /\
    safe (expects r) (fun _ g b => b = true -> by_provider r \/ g) K g p.

Definition ids (s : system) : list Z := map (fun t => fst (fst t)) (sy_threads s) ++ map (fun t => fst (fst t)) (sy_done s).

Record sys_ok (s : system) : Prop := MkSysOk {
  so_db : db_ok (sy_db s);
  so_trace : forall x, In x (sy_log s) -> evidence_ok (sy_db s) (snd x);
  so_order : used_in_order (sy_log s);
  so_threads : forall t, In t (sy_threads s) -> thread_ok (sy_db s) (sy_log s) t;
  so_done : forall rid r, In (rid, r, Ok true) (sy_done s) -> justified (sy_log s) rid r;
  so_ids : List.NoDup (ids s);
  so_below : forall i, In i (ids s) -> i < sy_next s
}.

Lemma sys_ok_initial s : sys_initial s -> sys_ok s.
Proof.
  destruct s as [[rows codes users next next_code now] threads done log n]. unfold sys_initial. simpl.
  intros (-> & -> & -> & -> & ->). split; unfold ids; simpl; try done; repeat constructor.
Qed.

Lemma justified_more log log' rid r : (forall x, In x log -> In x log') -> justified log rid r -> justified log' rid r.
Proof. intros Hl [?|(e & Hin & He)]; [by left|right; eauto]. Qed.

Lemma thread_ok_more d d' log log' t :
  evolves d d' -> (forall x, In x log -> In x log') -> thread_ok d log t -> thread_ok d' log' t.
Proof.
  intros Hev Hl. destruct t as [[rid r] p]. intros (K & g & HK & Hg & Hp). exists K, g.
  split; [by apply (facts_evolve d d')|]. split; [|done]. intros (e & Hin & He)%Hg. eauto.
Qed.

(** One statement of a request, with what it learns and uses up. *)
Lemma thread_exec d log rid r X (st : stmt X) k :
  db_ok d -> thread_ok d log (rid, r, Exec st k) ->
  let x := fst (run_stmt st d) in let d' := snd (run_stmt st d) in
  db_ok d' /\ evolves d d' /\ (forall y, In y (tagged rid (uses st x)) -> evidence_ok d' (snd y) /\ forall e, evidence_ok d e -> later e (snd y)) /\
  thread_ok d' (log ++ tagged rid (uses st x)) (rid, r, k x).
Proof.
  intros Hd (K & g & HK & Hg & [Hst Hk]) x d'. destruct (step_ok K st d Hd HK Hst) as [Hd' Hev].
  destruct (step_learns st d Hd) as [Hr Hlearn]. split_and!; [done|done| |].
  - unfold tagged. destruct (uses st x) as [e|] eqn:Eu; [|done]. intros y [<-|[]]. by apply (step_uses K).
  - exists (and_learned K st x), (g \/ exists e, uses st x = Some e /\ expects r e). split_and!.
    + apply (facts_evolve d d' _ Hev). intros id t [?|?]; [by apply HK|by apply Hlearn].
    + intros [(e & Hin & He)%Hg|(e & Eu & He)]; exists e; (split; [apply in_app_iff|done]); [by left|].
      right. rewrite Eu. by left.
    + by apply Hk.
Qed.

Lemma in_insert {T} (l : list T) i x y : In y (<[i := x]> l) -> y = x \/ In y l.
Proof.
  intros (j & Hj)%list_elem_of_In%list_elem_of_lookup. destruct (decide (i = j)) as [->|Hne].
  - left. apply list_lookup_insert_Some in Hj as [(_ & <- & _)|[? _]]; [done|done].
  - rewrite list_lookup_insert_ne in Hj by done. right. apply list_elem_of_In, list_elem_of_lookup. by exists j.
Qed.

Lemma in_lookup {T} (l : list T) i x : l !! i = Some x -> In x l.
Proof. intros E. apply list_elem_of_In, list_elem_of_lookup. by exists i. Qed.

Lemma map_insert_same {T U} (f : T -> U) (l : list T) i x y : l !! i = Some y -> f x = f y -> map f (<[i := x]> l) = map f l.
Proof.
  intros E Ef. change (map f) with (fmap f : list T -> list U). rewrite list_fmap_insert, Ef. apply list_insert_id.
  rewrite list_lookup_fmap, E. done.
Qed.

Lemma sys_ok_step s s' : sys_ok s -> sys_step s s' -> sys_ok s'.
Proof.
  intros [Hd Ht Ho Hth Hdone Hids Hb] Hstep. destruct Hstep as [r s|i rid r X st k s E|i rid r res s E|now users s Hnow].
  - split; simpl; try done.
    + intros t [Hin|[<-|[]]]%in_app_iff; [by apply Hth|]. exists (fun _ _ => False), False.
      split_and!; [by intros ? ?|done|apply program_safe].
    + unfold ids in *. simpl. rewrite map_app. simpl. rewrite <- app_assoc. simpl.
      apply NoDup_ListNoDup. apply NoDup_ListNoDup in Hids. rewrite <- Permutation_middle. constructor; [|done].
      intros Hin%list_elem_of_In. specialize (Hb _ Hin). lia.
    + unfold ids in *. simpl. intros j. rewrite map_app, !in_app_iff. simpl. intros [[Hj|[<-|[]]]|Hj]; [|lia|];
        (assert (j < sy_next s); [apply Hb, in_app_iff; tauto|lia]).
  - destruct (thread_exec (sy_db s) (sy_log s) rid r X st k Hd (Hth _ (in_lookup _ _ _ E))) as (Hd' & Hev & Hu & Hk).
    assert (forall x, In x (sy_log s) -> In x (sy_log s ++ tagged rid (uses st (fst (run_stmt st (sy_db s)))))) as Hl
      by (intros x Hx; apply in_app_iff; by left).
    assert (ids (MkSystem (snd (run_stmt st (sy_db s))) (<[i := (rid, r, k (fst (run_stmt st (sy_db s))))]> (sy_threads s))
      (sy_done s) (sy_log s ++ tagged rid (uses st (fst (run_stmt st (sy_db s))))) (sy_next s)) = ids s) as Ei
      by (unfold ids; simpl; f_equal; by eapply map_insert_same).
    split; rewrite ?Ei; simpl; try done.
    + intros x [Hx|Hx]%in_app_iff; [by apply (evidence_evolves _ _ _ Hev), Ht|by apply Hu].
    + unfold tagged in *. destruct (uses _ _) as [e|]; [|by rewrite app_nil_r]. apply used_in_order_snoc; [done|].
      intros y Hy. apply Hu; [by left|by apply Ht].
    + intros t [->|Hin]%in_insert; [done|]. by apply (thread_ok_more _ _ _ _ _ Hev Hl), Hth.
    + intros rid' r' Hin. by apply (justified_more _ _ _ _ Hl), Hdone.
  - assert (ids (MkSystem (sy_db s) (delete i (sy_threads s)) (sy_done s ++ [(rid, r, res)]) (sy_log s) (sy_next s)) ≡ₚ ids s) as Ep.
    { unfold ids. simpl. rewrite map_app. simpl.
      pose proof (Permutation_map (fun t : thread => fst (fst t)) (delete_Permutation _ _ _ E)) as Ed. simpl in Ed. rewrite Ed. solve_Permutation. }
    split; simpl; try done.
    + intros t Hin. apply Hth. apply list_elem_of_In in Hin. apply list_elem_of_In.
      rewrite (delete_Permutation _ _ _ E). by right.
    + intros rid' r' [Hin|[[= <- <- ->]|[]]]%in_app_iff; [by apply Hdone|].
      destruct (Hth _ (in_lookup _ _ _ E)) as (K & g & _ & Hg & Hq). simpl in Hq. destruct (Hq eq_refl); [by left|right; auto].
    + apply NoDup_ListNoDup. by rewrite Ep, NoDup_ListNoDup.
    + intros j Hj. apply Hb. apply list_elem_of_In in Hj. rewrite Ep in Hj. by apply list_elem_of_In.
  - assert (evolves (sy_db s) (MkDb (d_methods (sy_db s)) (d_codes (sy_db s)) users (d_next (sy_db s)) (d_next_code (sy_db s)) now)) as Hev
      by (destruct (evolves_refl (sy_db s)) as [? ? ? ?]; split; assumption).
    split; simpl; try done. by destruct Hd.
Qed.

Lemma reachable_sys_ok s : reachable sys_initial sys_step s -> sys_ok s.
Proof. apply invariant_reachable; [apply sys_ok_initial|apply sys_ok_step]. Qed.

(** C26: however requests interleave, a second factor lets one login through:
    every login that was accepted has used up a thing of its own - a time step
    of one of the user's authenticators that the given code is valid for, one of
    the user's backup codes, a challenge - and what was used once is never used
    again: a later use of the same authenticator is of a strictly later time
    step.  Only a YubiKey code is used up elsewhere: the provider has confirmed
    exactly this code and nonce. *)
Theorem second_factor_is_single_use s : reachable sys_initial sys_step s ->
  used_in_order (sy_log s) /\ List.NoDup (map (fun t => fst (fst t)) (sy_done s)) /\
  forall rid r, In (rid, r, Ok true) (sy_done s) -> by_provider r \/ exists e, In (rid, e) (sy_log s) /\ expects r e.
Proof.
  intros [_ _ Ho _ Hdone Hids _]%reachable_sys_ok. split_and!; [done| |].
  - by apply List.NoDup_app_remove_l in Hids.
  - exact Hdone.
Qed.

(** C27: however requests interleave, the rows stay well-typed: identifiers are
    distinct and below the next one, every row has the metadata of its type, a
    Duo method all four settings, and a challenge is never verified, so it is
    never taken for an enrolled method. *)
Theorem rows_are_well_typed s : reachable sys_initial sys_step s ->
  List.NoDup (map m_id (d_methods (sy_db s))) /\ Forall (fun m => m_id m < d_next (sy_db s)) (d_methods (sy_db s)) /\
  Forall row_typed (d_methods (sy_db s)) /\ List.NoDup (map bc_id (d_codes (sy_db s))).
Proof. intros [[] _ _ _ _ _ _]%reachable_sys_ok. done. Qed.
End Interleaving.

(** ** A request by itself *)

Fixpoint execute {A} (p : prog A) (d : db) : fallible A * db :=
  match p with
  | Done r => (r, d)
  | Exec s k => execute (k (fst (run_stmt s d))) (snd (run_stmt s d))
  end.

Section Alone.
Context `{TwoFaEnv}.

Lemma count_key {R} (key : R -> Z) p (rows : list R) r :
  List.NoDup (map key rows) -> In r rows -> p r = true -> (forall x, p x = true -> key x = key r) -> count_where p rows = 1%nat.
Proof.
  intros Hnd Hin Hp Hk. unfold count_where. induction rows as [|x rows IH]; [done|]. simpl in Hnd |- *.
  inversion Hnd as [|? ? Hx Hnd']; subst. destruct Hin as [->|Hin].
  - rewrite Hp. simpl. f_equal. apply (count_where_zero p). intros y Hy. destruct (p y) eqn:Ey; [|done].
    destruct Hx. rewrite <- (Hk y Ey). by apply in_map.
  - destruct (p x) eqn:Ex; [|by apply IH]. destruct Hx. rewrite (Hk x Ex). by apply in_map.
Qed.

Lemma existsb_select {R} (p q : R -> bool) rows : existsb q (select_where p rows) = existsb (fun r => p r && q r) rows.
Proof. unfold select_where. induction rows as [|r rows IH]; [done|]. simpl. destruct (p r); simpl; [by rewrite IH|done]. Qed.

Lemma existsb_patch {R} (p q q' : R -> bool) f rows :
  (forall r, q (if p r then f r else r) = q' r) -> existsb q (patch_where p f rows) = existsb q' rows.
Proof. intros Hq. unfold patch_where. induction rows as [|r rows IH]; [done|]. simpl. by rewrite Hq, IH. Qed.

Lemma some_selected {R} (p : R -> bool) rows : negb (Nat.eqb (length (select_where p rows)) 0) = existsb p rows.
Proof. unfold select_where. induction rows as [|r rows IH]; [done|]. simpl. by destruct (p r). Qed.

(** A code the record accepts, of a time step it has not seen. *)
Definition fresh_code (now : Z) (code : string) (m : method) : bool :=
  match verifySync now code (m_secret m) with Some step => m_counter m <? step | None => false end.

Lemma try_totp_alone user code records d : db_ok d ->
  (forall r, In r records -> In r (d_methods d) /\ enrolled user TOTP r = true) ->
  fst (execute (try_totp user code records) d) = Ok (existsb (fresh_code (d_now d) code) records).
Proof.
  intros Hd. induction records as [|r rest IH]; intros Hr; [done|]. simpl. unfold fresh_code at 1.
  assert (forall r0, In r0 rest -> In r0 (d_methods d) /\ enrolled user TOTP r0 = true) as Hrest by (intros ? ?; apply Hr; by right).
  destruct (verifySync (d_now d) code (m_secret r)) as [step|]; [|by apply IH].
  destruct (step <=? m_counter r) eqn:El.
  - assert (m_counter r <? step = false) as -> by lia. by apply IH.
  - assert (m_counter r <? step = true) as -> by lia. simpl. destruct (Hr r ltac:(by left)) as [Hin He].
    rewrite (count_key m_id _ _ r); [done|apply Hd|done| |].
    + unfold enrolled, is_method, unchanged, is_row in *. rewrite !Z.eqb_refl. simpl.
      apply andb_true_iff in He as [[-> _]%andb_true_iff ->]. done.
    + unfold unchanged, is_row. intros x Hx. lia.
Qed.

Lemma try_codes_alone user plain records d : db_ok d ->
  (forall c, In c records -> In c (d_codes d) /\ unused user c = true) ->
  fst (execute (try_codes user plain records) d) = Ok (existsb (fun c => bcrypt_compare plain (bc_hash c)) records).
Proof.
  intros Hd. induction records as [|c rest IH]; intros Hc; [done|]. simpl.
  destruct (bcrypt_compare plain (bc_hash c)); [|apply IH; intros ? ?; apply Hc; by right]. simpl.
  destruct (Hc c ltac:(by left)) as [Hin Hu]. rewrite (count_key bc_id _ _ c); [done|apply Hd|done| |].
  - by rewrite Z.eqb_refl, Hu.
  - intros x Hx. lia.
Qed.

(** no code is refused for nothing: a login alone with a time-based code
    is let through exactly when one of the user's enrolled authenticators accepts
    the code for a time step it has not seen; with a backup code exactly when the
    code, upper-cased and without blanks and dashes, matches an unused one. *)
Theorem valid_code_is_accepted user code d : db_ok d ->
  fst (execute (verifyLoginChallenge user LTotp code) d) =
    Ok (existsb (fun m => enrolled user TOTP m && fresh_code (d_now d) code m) (d_methods d)) /\
  fst (execute (verifyLoginChallenge user LBackupCode code) d) =
    Ok (existsb (fun c => unused user c && bcrypt_compare (plain_code code) (bc_hash c)) (d_codes d)).
Proof.
  intros Hd. split; cbn [verifyLoginChallenge verifyTotp verifyBackupCode execute run_stmt fst snd].
  - rewrite try_totp_alone; [|done|by intros r Hr%in_select]. by rewrite existsb_select.
  - rewrite try_codes_alone; [|done|by intros c Hc%in_select]. by rewrite existsb_select.
Qed.

(** removing a method is refused, without effect, unless it is a
    method of the user that is not removed yet; it removes that row alone, and the
    user's recovery codes go with it exactly when no enrolled method is left. *)
Theorem removing_the_last_method_removes_the_codes user id d :
  let mine := fun m => is_row id m && (m_user m =? user) && negb (m_deleted m) in
  let left := fun m => (m_user m =? user) && enabled_row m && negb (is_row id m) in
  let '(res, d') := execute (removeTwoFaMethod user id) d in
  if existsb mine (d_methods d) then
    res = Ok tt /\ d_methods d' = patch_where (is_row id) with_deleted (d_methods d) /\
    d_codes d' = (if existsb left (d_methods d) then d_codes d else delete_where (fun c => bc_user c =? user) (d_codes d))
  else d' = d /\ exists e, res = Throw e /\ e_status e = Some 404.
Proof.
  intros mine left. unfold removeTwoFaMethod. simpl. pose proof (some_selected mine (d_methods d)) as Em. fold mine.
  destruct (select_where mine (d_methods d)) as [|m rest]; simpl in Em; rewrite <- Em; [split; [done|by eexists]|].
  simpl. set (rows := patch_where (is_row id) with_deleted (d_methods d)). pose proof (some_selected (fun m => (m_user m =? user) && enabled_row m) rows) as El.
  assert (existsb (fun m => (m_user m =? user) && enabled_row m) rows = existsb left (d_methods d)) as E.
  { apply existsb_patch. intros x. unfold left, enabled_row. destruct (is_row id x); simpl; by rewrite ?andb_false_r, ?andb_true_r. }
  rewrite <- E, <- El. by destruct (Nat.eqb _ 0).
Qed.
End Alone.

(** ** A run with concrete libraries *)

Section Play.
Context `{TwoFaEnv}.

Inductive move : Type := AskFor (r : tfa_request) | Continue (i : nat) | Wait (now : Z).

Definition play_one (a : move) (s : system) : option system :=
  match a with
  | AskFor r => Some (MkSystem (sy_db s) (sy_threads s ++ [(sy_next s, r, program r)]) (sy_done s) (sy_log s) (sy_next s + 1))
  | Continue i =>
      match sy_threads s !! i with
      | Some (rid, r, Exec st k) =>
          Some (MkSystem (snd (run_stmt st (sy_db s))) (<[i := (rid, r, k (fst (run_stmt st (sy_db s))))]> (sy_threads s))
                  (sy_done s) (sy_log s ++ tagged rid (uses st (fst (run_stmt st (sy_db s))))) (sy_next s))
      | Some (rid, r, Done res) => Some (MkSystem (sy_db s) (delete i (sy_threads s)) (sy_done s ++ [(rid, r, res)]) (sy_log s) (sy_next s))
      | None => None
      end
  | Wait now =>
      if d_now (sy_db s) <=? now then
        Some (MkSystem (MkDb (d_methods (sy_db s)) (d_codes (sy_db s)) (d_users (sy_db s)) (d_next (sy_db s)) (d_next_code (sy_db s)) now)
                (sy_threads s) (sy_done s) (sy_log s) (sy_next s))
      else None
  end.

Fixpoint play (l : list move) (s : system) : option system :=
  match l with
  | [] => Some s
  | a :: rest => match play_one a s with Some s' => play rest s' | None => None end
  end.

Lemma play_reachable l s s' : reachable sys_initial sys_step s -> play l s = Some s' -> reachable sys_initial sys_step s'.
Proof.
  revert s. induction l as [|a l IH]; intros s Hs; simpl; [by intros [= <-]|].
  destruct (play_one a s) as [s1|] eqn:E; [|done]. apply IH. eapply reachable_step; [exact Hs|].
  destruct a as [r|i|now]; simpl in E.
  - injection E as <-. constructor.
  - destruct (sy_threads s !! i) as [[[rid r] [res|X st k]]|] eqn:Ei; [| |done]; injection E as <-; econstructor; exact Ei.
  - destruct (Z.leb_spec (d_now (sy_db s)) now); [|done]. injection E as <-. by constructor.
Qed.
End Play.

(** A shared secret is its own code, for a time step of thirty seconds. *)
#[global] Instance toy_twofa : TwoFaEnv := {
  verifySync now code secret := if String.eqb code secret then Some (now / 30000) else None;
  bcrypt_hash code := code;
  bcrypt_compare := String.eqb;
  yubico _ _ _ := inl "getaddrinfo ENOTFOUND";
  yubico_signature := None;
  registration_response _ _ := Ok None;
  authentication_response _ _ _ := Ok None;
  response_id r := r;
  response_transports _ := None;
  duo_client _ := Ok tt;
  duo_healthCheck _ := Ok tt;
  duo_createAuthUrl _ _ state := Ok state;
  duo_exchange _ _ _ _ := Ok true;
  getDuoChallengeTag purpose value := (purpose ++ value)%string
}.

(** An authenticator is enrolled; then two logins race with one code, a third uses a backup code. *)
Definition demo_run : list move :=
  AskFor (RSetupTotp 7 "s") :: repeat (Continue 0) 3 ++ AskFor (REnableTotp 7 "s" ["AB"]) :: repeat (Continue 0) 5 ++
  Wait 90000 :: AskFor (RLogin 7 LTotp "s") :: AskFor (RLogin 7 LTotp "s") ::
  concat (repeat [Continue 0; Continue 1] 3) ++ [Continue 0; Continue 0] ++
  AskFor (RLogin 7 LBackupCode "a-b") :: repeat (Continue 0) 3.

Definition demo_boot : system := MkSystem (MkDb [] [] [] 1 1 0) [] [] [] 1.
Definition demo_end : system := Eval vm_compute in match play demo_run demo_boot with Some s => s | None => demo_boot end.

Lemma demo_end_reachable : reachable sys_initial sys_step demo_end.
Proof. apply (play_reachable demo_run demo_boot); [by apply reachable_init|vm_compute; reflexivity]. Qed.

Lemma second_factor_witness :
  sy_log demo_end = [(3, TimeStep 1 7 3); (5, BackupCode 1 7)] /\
  map (fun t => (fst (fst t), snd t)) (sy_done demo_end) = [(1, Ok false); (2, Ok false); (3, Ok true); (4, Ok false); (5, Ok true)] /\
  used_in_order (sy_log demo_end).
Proof. split; [reflexivity|]. split; [reflexivity|]. apply (second_factor_is_single_use demo_end), demo_end_reachable. Defined.

Lemma well_typed_rows_witness : length (d_methods (sy_db demo_end)) = 1%nat /\ Forall row_typed (d_methods (sy_db demo_end)).
Proof. split; [reflexivity|]. apply (rows_are_well_typed demo_end), demo_end_reachable. Defined.

Lemma valid_code_witness :
  fst (execute (verifyLoginChallenge 7 LTotp "s") (MkDb (d_methods (sy_db demo_end)) [] [] 2 1 90000)) = Ok false /\
  fst (execute (verifyLoginChallenge 7 LTotp "s") (MkDb (d_methods (sy_db demo_end)) [] [] 2 1 120000)) = Ok true.
Proof.
  split; (etransitivity; [refine (proj1 (valid_code_is_accepted 7 "s" _ _))|reflexivity]);
    (split; simpl; [repeat constructor; simpl; tauto|repeat constructor|repeat constructor|constructor|constructor]).
Defined.
