(* ===== verification/Access.v ===== *)
(** Who may do what: src/backend/lib/access.js with the schemas of
    src/backend/lib/access/, the scopes of src/backend/lib/token-scope.js and the
    token object of src/backend/models/token.js.

    The JSON schemas are translated to predicates over the data the validator is
    given; the signature of a token and the coercion of the validator are
    parameters. *)

From S2P Require Import Prelude JsString Errors JsValue Sessions.
#[local] Open Scope string_scope.
#[local] Open Scope list_scope.
#[local] Open Scope Z_scope.

(** ** Data *)

(** The verified content of a token; [attrs.id] is 0 when there is none. *)
Record claims : Type := MkPayload { tk_id : Z; tk_scope : scope_arg; tk_exp : Z }.

Inductive jwt_error : Type := TokenExpired | JwtError (message : string) | OtherError (message : string).

Class Jwt : Type := {
  jwt_verify : Z -> string -> claims + jwt_error;
  jwt_sign : claims -> string
}.

(** The number a value counts as where a schema asks for a number. *)
Class Ajv : Type := { ajv_number : value -> option Z }.

(** The permission columns of a user; in the object [{}] all are undefined. *)
Record permissions : Type := MkPermissions {
  pm_visibility : option string;
  pm_proxy_hosts : option string;
  pm_redirection_hosts : option string;
  pm_dead_hosts : option string;
  pm_streams : option string;
  pm_access_lists : option string;
  pm_certificates : option string;
  pm_cloudflared_tunnels : option string;
  pm_analytics : option string;
  pm_ddns_providers : option string;
  pm_tor_onions : option string;
  pm_dashboard_notes : option string;
  pm_chat : option string
}.

Definition no_permissions : permissions :=
  MkPermissions None None None None None None None None None None None None None.

(** The tables the check reads: users, and the permission row of a user. *)
Record accounts : Type := MkAccounts { ac_users : list Sessions.user; ac_permissions : list (Z * permissions) }.

(** ** Tokens *)

Definition normalizeScope (scope : scope_arg) : scope_arg :=
  match scope with
  | ScopeString s => if String.eqb s "all" then ScopeList ["user"] else ScopeString s
  | ScopeList l => if existsb (String.eqb "all") l then ScopeList ["user"] else ScopeList l
  | ScopeOther => ScopeOther
  end.

(** The items of a scope; those of a string are its characters. *)
Definition scope_items (scope : scope_arg) : list string :=
  match scope with
  | ScopeList l => l
  | ScopeString s => map (fun c => String c "") (String.list_ascii_of_string s)
  | ScopeOther => []
  end.

(** [_.indexOf(scope, item) !== -1] *)
Definition scope_has (item : string) (scope : scope_arg) : bool := existsb (String.eqb item) (scope_items scope).

Section Token.
Context `{Jwt}.

Definition load_token (now : Z) (token : string) : fallible claims :=
  match jwt_verify now token with
  | inl p => Ok (MkPayload (tk_id p) (normalizeScope (tk_scope p)) (tk_exp p))
  | inr TokenExpired => Throw (AuthError "Token has expired")
  | inr (JwtError message) => Throw (AuthError (if String.eqb message "jwt must be provided" then "Empty token" else message))
  | inr (OtherError message) => Throw (NativeError message)
  end.
End Token.

(** ** The schemas *)

Inductive resource : Type :=
| ProxyHosts | RedirectionHosts | DeadHosts | Streams | AccessLists | Certificates | CloudflaredTunnels
| Analytics | DdnsProviders | TorOnions | DashboardNotes | Chat.

Inductive level : Type := View | Manage.

Definition permission_of (r : resource) (p : permissions) : option string :=
  match r with
  | ProxyHosts => pm_proxy_hosts p
  | RedirectionHosts => pm_redirection_hosts p
  | DeadHosts => pm_dead_hosts p
  | Streams => pm_streams p
  | AccessLists => pm_access_lists p
  | Certificates => pm_certificates p
  | CloudflaredTunnels => pm_cloudflared_tunnels p
  | Analytics => pm_analytics p
  | DdnsProviders => pm_ddns_providers p
  | TorOnions => pm_tor_onions p
  | DashboardNotes => pm_dashboard_notes p
  | Chat => pm_chat p
  end.

(** What the validator is given. *)
Record dataset : Type := MkDataset {
  ds_actor_user_id : Z;
  ds_data : value;
  ds_scope : scope_arg;
  ds_roles : list string;
  ds_permissions : permissions
}.

(** One alternative of an [anyOf]: the definitions of roles.json, a permission
    with [items: enum ["user"]] or with [contains: const "user"], the own user. *)
Inductive alternative : Type :=
| AdminRole
| UserRole
| OnlyUser (r : resource) (l : level)
| AnyRole (r : resource) (l : level)
| OwnUser.

(** [perms#/definitions] *)
Definition level_ok (l : level) (v : option string) : bool :=
  match v with
  | Some s => match l with View => String.eqb s "view" || String.eqb s "manage" | Manage => String.eqb s "manage" end
  | None => false
  end.

(** [scope: { type: array, contains: { pattern: ^user$ } }] *)
Definition user_scope (scope : scope_arg) : bool :=
  match scope with ScopeList l => existsb (String.eqb "user") l | _ => false end.

Section Schemas.
Context `{Ajv}.

(** [objects#/properties/users] *)
Definition own_user (actor : Z) (data : value) : bool :=
  match ajv_number data with Some n => (1 <=? n) && (n =? actor) | None => false end.

Definition alternative_ok (d : dataset) (a : alternative) : bool :=
  match a with
  | AdminRole => user_scope (ds_scope d) && existsb (String.eqb "admin") (ds_roles d)
  | UserRole => user_scope (ds_scope d)
  | OnlyUser r l => level_ok l (permission_of r (ds_permissions d)) && forallb (String.eqb "user") (ds_roles d)
  | AnyRole r l => existsb (String.eqb "user") (ds_roles d) && level_ok l (permission_of r (ds_permissions d))
  | OwnUser => negb (is_undef (ds_data d)) && own_user (ds_actor_user_id d) (ds_data d) && user_scope (ds_scope d)
  end.
End Schemas.

(** The files of src/backend/lib/access/. *)
Definition schema_files : list (string * list alternative) := [
  ("access_lists-create", [AdminRole; OnlyUser AccessLists Manage]);
  ("access_lists-delete", [AdminRole; OnlyUser AccessLists Manage]);
  ("access_lists-get", [AdminRole; OnlyUser AccessLists View]);
  ("access_lists-list", [AdminRole; OnlyUser AccessLists View]);
  ("access_lists-update", [AdminRole; OnlyUser AccessLists Manage]);
  ("analytics-create", [AdminRole; AnyRole Analytics Manage]);
  ("analytics-delete", [AdminRole; AnyRole Analytics Manage]);
  ("analytics-get", [AdminRole; AnyRole Analytics View]);
  ("analytics-list", [AdminRole; AnyRole Analytics View]);
  ("analytics-update", [AdminRole; AnyRole Analytics Manage]);
  ("auditlog-list", [AdminRole]);
  ("certificates-create", [AdminRole; OnlyUser Certificates Manage]);
  ("certificates-delete", [AdminRole; OnlyUser Certificates Manage]);
  ("certificates-get", [AdminRole; OnlyUser Certificates View]);
  ("certificates-list", [AdminRole; OnlyUser Certificates View]);
  ("certificates-update", [AdminRole; OnlyUser Certificates Manage]);
  ("chat-create", [AdminRole; OnlyUser Chat Manage]);
  ("chat-delete", [AdminRole; OnlyUser Chat Manage]);
  ("chat-get", [AdminRole; OnlyUser Chat View]);
  ("chat-list", [AdminRole; OnlyUser Chat View]);
  ("chat-update", [AdminRole; OnlyUser Chat Manage]);
  ("cloudflared_tunnels-create", [AdminRole; AnyRole CloudflaredTunnels Manage]);
  ("cloudflared_tunnels-delete", [AdminRole; AnyRole CloudflaredTunnels Manage]);
  ("cloudflared_tunnels-get", [AdminRole; AnyRole CloudflaredTunnels View]);
  ("cloudflared_tunnels-list", [AdminRole; AnyRole CloudflaredTunnels View]);
  ("cloudflared_tunnels-update", [AdminRole; AnyRole CloudflaredTunnels Manage]);
  ("dashboard_notes-create", [AdminRole; AnyRole DashboardNotes Manage]);
  ("dashboard_notes-delete", [AdminRole; AnyRole DashboardNotes Manage]);
  ("dashboard_notes-get", [AdminRole; AnyRole DashboardNotes View]);
  ("dashboard_notes-list", [AdminRole; AnyRole DashboardNotes View]);
  ("dashboard_notes-update", [AdminRole; AnyRole DashboardNotes Manage]);
  ("ddns_providers-create", [AdminRole; AnyRole DdnsProviders Manage]);
  ("ddns_providers-delete", [AdminRole; AnyRole DdnsProviders Manage]);
  ("ddns_providers-get", [AdminRole; AnyRole DdnsProviders View]);
  ("ddns_providers-list", [AdminRole; AnyRole DdnsProviders View]);
  ("ddns_providers-update", [AdminRole; AnyRole DdnsProviders Manage]);
  ("dead_hosts-create", [AdminRole; OnlyUser DeadHosts Manage]);
  ("dead_hosts-delete", [AdminRole; OnlyUser DeadHosts Manage]);
  ("dead_hosts-get", [AdminRole; OnlyUser DeadHosts View]);
  ("dead_hosts-list", [AdminRole; OnlyUser DeadHosts View]);
  ("dead_hosts-update", [AdminRole; OnlyUser DeadHosts Manage]);
  ("proxy_hosts-create", [AdminRole; OnlyUser ProxyHosts Manage]);
  ("proxy_hosts-delete", [AdminRole; OnlyUser ProxyHosts Manage]);
  ("proxy_hosts-get", [AdminRole; OnlyUser ProxyHosts View]);
  ("proxy_hosts-list", [AdminRole; OnlyUser ProxyHosts View]);
  ("proxy_hosts-update", [AdminRole; OnlyUser ProxyHosts Manage]);
  ("redirection_hosts-create", [AdminRole; OnlyUser RedirectionHosts Manage]);
  ("redirection_hosts-delete", [AdminRole; OnlyUser RedirectionHosts Manage]);
  ("redirection_hosts-get", [AdminRole; OnlyUser RedirectionHosts View]);
  ("redirection_hosts-list", [AdminRole; OnlyUser RedirectionHosts View]);
  ("redirection_hosts-update", [AdminRole; OnlyUser RedirectionHosts Manage]);
  ("reports-hosts", [UserRole]);
  ("settings-get", [AdminRole]);
  ("settings-list", [AdminRole]);
  ("settings-update", [AdminRole]);
  ("streams-create", [AdminRole; OnlyUser Streams Manage]);
  ("streams-delete", [AdminRole; OnlyUser Streams Manage]);
  ("streams-get", [AdminRole; OnlyUser Streams View]);
  ("streams-list", [AdminRole; OnlyUser Streams View]);
  ("streams-update", [AdminRole; OnlyUser Streams Manage]);
  ("tor_onions-create", [AdminRole; AnyRole TorOnions Manage]);
  ("tor_onions-delete", [AdminRole; AnyRole TorOnions Manage]);
  ("tor_onions-get", [AdminRole; AnyRole TorOnions View]);
  ("tor_onions-list", [AdminRole; AnyRole TorOnions View]);
  ("tor_onions-update", [AdminRole; AnyRole TorOnions Manage]);
  ("users-create", [AdminRole]);
  ("users-delete", [AdminRole]);
  ("users-get", [AdminRole; OwnUser]);
  ("users-list", [AdminRole]);
  ("users-loginas", [AdminRole]);
  ("users-password", [AdminRole; OwnUser]);
  ("users-permissions", [AdminRole]);
  ("users-update", [AdminRole; OwnUser]);
  ("wireguard_peers-create", [AdminRole]);
  ("wireguard_peers-delete", [AdminRole]);
  ("wireguard_peers-get", [AdminRole]);
  ("wireguard_peers-list", [AdminRole]);
  ("wireguard_peers-update", [AdminRole])
].

(** [permission.replaceAll(":", "-")] *)
Definition schema_name (permission : string) : string :=
  smap (fun c => if Ascii.eqb c ":" then "-"%char else c) permission.

Definition getPermissionValidator (permission : string) : option (list alternative) :=
  option_map snd (List.find (fun f => String.eqb (fst f) (schema_name permission)) schema_files).

(** ** The access object of a request *)

Record access : Type := MkAccess {
  a_tokenString : option string;
  a_tokenData : option claims;
  a_initialised : bool;
  a_allowInternal : bool;
  a_userRoles : list string;
  a_permissions : option permissions
}.

(** [new Access(tokenString)] *)
Definition new_access (tokenString : option string) : access :=
  MkAccess tokenString None false false [] (Some no_permissions).

Inductive grant : Type := Internal | Granted (d : dataset).

Section Access.
Context `{Jwt} `{Ajv}.

Definition live_user (id : Z) (db : accounts) : option Sessions.user :=
  first_where (fun u => (u_id u =? id) && negb (u_is_deleted u) && negb (u_is_disabled u)) (ac_users db).

Definition permissions_row (id : Z) (db : accounts) : option permissions :=
  option_map snd (first_where (fun r => fst r =? id) (ac_permissions db)).

Definition init (now : Z) (db : accounts) (a : access) : fallible unit * access :=
  if a_initialised a then (Ok tt, a)
  else if negb (truthy (a_tokenString a)) then (Throw (PermissionError "Permission Denied"), a)
  else
    match load_token now (default "" (a_tokenString a)) with
    | Throw e => (Throw e, a)
    | Ok data =>
        let a1 := MkAccess (a_tokenString a) (Some data) false (a_allowInternal a) (a_userRoles a) (a_permissions a) in
        if negb (tk_id data =? 0) || scope_has "user" (tk_scope data) then
          match live_user (tk_id data) db with
          | None => (Throw (AuthError "User cannot be loaded for Token"), a1)
          | Some user =>
              let roles := u_roles user ++ ["user"] in
              if forallb (fun item => existsb (String.eqb item) roles) (scope_items (tk_scope data))
              then (Ok tt, MkAccess (a_tokenString a) (Some data) true (a_allowInternal a) roles (permissions_row (u_id user) db))
              else (Throw (AuthError "Invalid token scope for User"), a1)
          end
        else (Ok tt, MkAccess (a_tokenString a) (Some data) true (a_allowInternal a) (a_userRoles a) (a_permissions a))
    end.

(** [load]: the token's content, or whether internal access was allowed. *)
Definition load (now : Z) (db : accounts) (allowInternal : bool) (a : access) : fallible (option claims) * access :=
  if truthy (a_tokenString a) then
    let '(r, a1) := init now db a in (rmap (fun _ => a_tokenData a1) r, a1)
  else
    (Ok None, MkAccess (a_tokenString a) (a_tokenData a) (a_initialised a) allowInternal (a_userRoles a) (a_permissions a)).

(** The body of the [try] of [can]. *)
Definition validated (permission : string) (data : value) (a : access) : fallible grant :=
  match a_tokenData a, a_permissions a with
  | None, _ => Throw (NativeError "Cannot read properties of null")
  | Some _, None => Throw (NativeError "Cannot read properties of null")
  | Some t, Some perms =>
      let d := MkDataset (tk_id t) data (tk_scope t) (a_userRoles a) perms in
      match getPermissionValidator permission with
      | None => Throw (NativeError "ENOENT: no such file or directory")
      | Some schema => if existsb (alternative_ok d) schema then Ok (Granted d) else Throw (NativeError "validation failed")
      end
  end.

Definition can (now : Z) (db : accounts) (permission : string) (data : value) (a : access) : fallible grant * access :=
  if a_allowInternal a then (Ok Internal, a)
  else
    let '(r, a1) := init now db a in
    match rbind r (fun _ => validated permission data a1) with
    | Ok g => (Ok g, a1)
    | Throw _ => (Throw (PermissionError "Permission Denied"), a1)
    end.

(** [hasScope], [getUserId] *)
Definition hasScope (scope : string) (a : access) : bool :=
  match a_tokenData a with Some t => scope_has scope (tk_scope t) | None => false end.
Definition getUserId (defaultValue : Z) (a : access) : Z :=
  match a_tokenData a with Some t => if tk_id t =? 0 then defaultValue else tk_id t | None => defaultValue end.
End Access.

(** ** What is granted *)

Section Grants.
Context `{Jwt} `{Ajv}.

(** What an alternative asks of a user with its permissions and the scope of its token. *)
Definition entitled (u : Sessions.user) (perms : permissions) (scope : scope_arg) (data : value) (a : alternative) : Prop :=
  match a with
  | AdminRole => In "admin" (u_roles u) /\ user_scope scope = true
  | UserRole => user_scope scope = true
  | OnlyUser r l => (forall role, In role (u_roles u) -> role = "user") /\ level_ok l (permission_of r perms) = true
  | AnyRole r l => level_ok l (permission_of r perms) = true
  | OwnUser => data <> VUndef /\ ajv_number data = Some (u_id u) /\ user_scope scope = true
  end.

(** The live account a token stands for: it holds every scope of the token. *)
Definition stands_for (now : Z) (db : accounts) (token : string) (u : Sessions.user) (scope : scope_arg) : Prop :=
  exists p, load_token now token = Ok p /\ tk_scope p = scope /\ live_user (tk_id p) db = Some u /\
    forall item, In item (scope_items scope) -> In item (u_roles u) \/ item = "user".

Definition accounts_ok (db : accounts) : Prop := Forall (fun u => 1 <= u_id u) (ac_users db).

Lemma forallb_eqb s l : forallb (String.eqb s) l = true <-> forall x, In x l -> x = s.
Proof.
  rewrite forallb_forall. split; intros Hx x Hin.
  - symmetry. by apply String.eqb_eq, Hx.
  - apply String.eqb_eq. symmetry. by apply Hx.
Qed.

Lemma roles_cover scope roles :
  forallb (fun item => existsb (String.eqb item) (roles ++ ["user"])) (scope_items scope) = true <->
  forall item, In item (scope_items scope) -> In item roles \/ item = "user".
Proof.
  rewrite forallb_forall. split; intros Hx item Hin; specialize (Hx item Hin).
  - apply existsb_eqb_In, in_app_iff in Hx as [?|[<-|[]]]; auto.
  - apply existsb_eqb_In, in_app_iff. destruct Hx as [?| ->]; [by left|right; by left].
Qed.

Lemma user_scope_has scope : user_scope scope = true -> scope_has "user" scope = true.
Proof. by destruct scope. Qed.

Lemma live_user_spec id db u : live_user id db = Some u -> In u (ac_users db) /\ u_id u = id.
Proof. intros [Hin Hp]%first_where_Some. split; [done|]. lia. Qed.

(** The validator asks of the data exactly what the alternative stands for. *)
Lemma alternative_spec u perms scope data a : 1 <= u_id u ->
  alternative_ok (MkDataset (u_id u) data scope (u_roles u ++ ["user"]) perms) a = true <-> entitled u perms scope data a.
Proof.
  intros Hid. destruct a as [| |r l|r l|]; unfold alternative_ok, own_user; cbn [ds_scope ds_roles ds_permissions ds_data ds_actor_user_id entitled].
  - rewrite andb_true_iff, existsb_eqb_In, in_app_iff. simpl. split; [|tauto]. intros [? [?|[|[]]]]; [tauto|done].
  - done.
  - rewrite andb_true_iff, forallb_eqb. split.
    + intros [Hl Hr]. split; [|done]. intros role Hin. apply Hr, in_app_iff. by left.
    + intros [Hr Hl]. split; [done|]. intros role [Hin|[<-|[]]]%in_app_iff; auto.
  - rewrite andb_true_iff, existsb_eqb_In, in_app_iff. simpl. tauto.
  - rewrite !andb_true_iff. split.
    + intros [[Hd Hn] Hs]. split; [by intros ->|]. split; [|done]. destruct (ajv_number data) as [n|]; [|done]. f_equal. lia.
    + intros (Hd & Hn & Hs). rewrite Hn. split; [|done]. split; [by destruct data|]. lia.
Qed.

(** Without an account there are no roles and no permissions, hence no grant. *)
Lemma nobody_is_granted t data scope a :
  user_scope scope = false -> alternative_ok (MkDataset t data scope [] no_permissions) a = false.
Proof.
  intros Hs. destruct a as [| |r l|r l|]; unfold alternative_ok; simpl; rewrite ?Hs, ?andb_false_r; try done. by destruct r.
Qed.

Lemma init_fresh now db token : token <> "" ->
  init now db (new_access (Some token)) =
  match load_token now token with
  | Throw e => (Throw e, new_access (Some token))
  | Ok p =>
      let a1 := MkAccess (Some token) (Some p) false false [] (Some no_permissions) in
      if negb (tk_id p =? 0) || scope_has "user" (tk_scope p) then
        match live_user (tk_id p) db with
        | None => (Throw (AuthError "User cannot be loaded for Token"), a1)
        | Some user =>
            if forallb (fun item => existsb (String.eqb item) (u_roles user ++ ["user"])) (scope_items (tk_scope p))
            then (Ok tt, MkAccess (Some token) (Some p) true false (u_roles user ++ ["user"]) (permissions_row (u_id user) db))
            else (Throw (AuthError "Invalid token scope for User"), a1)
        end
      else (Ok tt, MkAccess (Some token) (Some p) true false [] (Some no_permissions))
  end.
Proof. intros Ht. unfold init, new_access, truthy. cbn [a_initialised a_tokenString]. by destruct token. Qed.

Lemma can_spec now db token permission data :
  token <> "" -> accounts_ok db ->
  let res := fst (can now db permission data (new_access (Some token))) in
  (is_ok res = true <->
   exists u scope perms schema a, stands_for now db token u scope /\ permissions_row (u_id u) db = Some perms /\
     getPermissionValidator permission = Some schema /\ In a schema /\ entitled u perms scope data a) /\
  (is_ok res = false -> res = Throw (PermissionError "Permission Denied")).
Proof.
  intros Ht Hdb. unfold can. cbn [a_allowInternal new_access]. rewrite init_fresh by done. split; [|by repeat case_match].
  unfold stands_for. destruct (load_token now token) as [p|e]; [|simpl; split; [done|]; intros (?&?&?&?&?&(?&?&_)&_); done].
  destruct (_ || _) eqn:Eu.
  - destruct (live_user (tk_id p) db) as [u|] eqn:El; [|simpl; split; [done|]; intros (?&?&?&?&?&(?&[= <-]&_&?&_)&_); congruence].
    apply live_user_spec in El as Hu. destruct Hu as [Hin Hu].
    pose proof (proj1 (List.Forall_forall _ _) Hdb u Hin) as Hid. simpl in Hid.
    destruct (forallb _ _) eqn:Ef.
    + cbn [rbind validated a_tokenData a_permissions]. destruct (permissions_row (u_id u) db) as [perms|] eqn:Ep;
        [|simpl; split; [done|]; intros (?&?&?&?&?&(?&[= <-]&_&?&_)&?&_); simplify_eq; congruence].
      destruct (getPermissionValidator permission) as [schema|] eqn:Es; [|simpl; split; [done|]; by intros (?&?&?&?&?&_&_&?&_)].
      cbn [a_userRoles]. rewrite <- Hu. destruct (existsb _ schema) eqn:Ee; simpl.
      * split; [intros _|done]. apply existsb_exists in Ee as (a & Ha & He). apply alternative_spec in He; [|lia].
        exists u, (tk_scope p), perms, schema, a. split_and!; try done. exists p. split_and!; try done; by apply roles_cover.
      * split; [done|]. intros (u' & scope & perms' & schema' & a & (p' & [= <-] & <- & El' & _) & Ep' & [= <-] & Ha & He).
        simplify_eq. assert (existsb (alternative_ok (MkDataset (u_id u) data (tk_scope p) (u_roles u ++ ["user"]) perms)) schema = true); [|congruence].
        apply existsb_exists. exists a. split; [done|]. by apply alternative_spec; [lia|].
    + simpl. split; [done|]. intros (u' & scope & ?&?&?&(p' & [= <-] & <- & El' & Hs)&_). simplify_eq.
      apply roles_cover in Hs. congruence.
  - apply orb_false_iff in Eu as [Ez Eu]. assert (tk_id p = 0) as E0 by lia.
    assert (user_scope (tk_scope p) = false) as Hus by (destruct (user_scope _) eqn:E; [apply user_scope_has in E; congruence|done]).
    cbn [rbind validated a_tokenData a_permissions a_userRoles]. split.
    + destruct (getPermissionValidator permission) as [schema|]; [|done].
      destruct (existsb _ schema) eqn:Ee; [|done]. apply existsb_exists in Ee as (a & _ & He). by rewrite nobody_is_granted in He.
    + intros (u & scope & ?&?&?&(p' & [= <-] & <- & El & _)&_). apply live_user_spec in El as [Hin Hid].
      pose proof (proj1 (List.Forall_forall _ _) Hdb u Hin) as Hp. simpl in Hp. lia.
Qed.

(** C3: a request is granted a permission exactly when its token is
    valid, stands for a live account that holds every scope of the token and has
    a permission row, and an alternative of the schema of the permission accepts
    the account; whatever goes wrong is answered with one permission error. *)
Theorem permission_check_is_exact now db token permission data :
  token <> "" -> accounts_ok db ->
  let res := fst (can now db permission data (new_access (Some token))) in
  (is_ok res = true <->
   exists u scope perms schema a, stands_for now db token u scope /\ permissions_row (u_id u) db = Some perms /\
     getPermissionValidator permission = Some schema /\ In a schema /\ entitled u perms scope data a) /\
  (is_ok res = false -> res = Throw (PermissionError "Permission Denied")).
Proof. apply can_spec. Qed.

(** *** The schema files as a whole *)

Definition reads_only (name : string) : bool :=
  ends_with "-get" name || ends_with "-list" name || String.eqb name "reports-hosts".
Definition own_account (name : string) : bool := existsb (String.eqb name) ["users-get"; "users-update"; "users-password"].

(** Beyond the administrator, a file only asks for [view] to read, and for the
    own account where an account is concerned. *)
Definition well_ruled (name : string) (a : alternative) : bool :=
  match a with
  | AdminRole => true
  | UserRole => reads_only name
  | OnlyUser _ View | AnyRole _ View => reads_only name
  | OnlyUser _ Manage | AnyRole _ Manage => true
  | OwnUser => own_account name
  end.

Lemma schemas_audited : forallb (fun f => forallb (well_ruled (fst f)) (snd f)) schema_files = true.
Proof. vm_compute. reflexivity. Qed.

Lemma validator_audited permission schema a :
  getPermissionValidator permission = Some schema -> In a schema -> well_ruled (schema_name permission) a = true.
Proof.
  unfold getPermissionValidator. destruct (List.find _ _) as [[name sch]|] eqn:Ef; [|done]. intros [= <-] Ha.
  apply List.find_some in Ef as [Hin En]. simpl in En, Ha. apply String.eqb_eq in En as <-.
  pose proof (proj1 (forallb_forall _ _) schemas_audited _ Hin) as Hf. simpl in Hf.
  by apply (proj1 (forallb_forall _ _) Hf).
Qed.

(** whoever is no administrator and may manage nothing changes nothing:
    whatever such an account is granted, over all schema files, is to read, or
    concerns its own account. *)
Theorem viewers_change_nothing now db token permission data u scope perms :
  token <> "" -> accounts_ok db -> stands_for now db token u scope -> permissions_row (u_id u) db = Some perms ->
  ~ In "admin" (u_roles u) -> (forall r, permission_of r perms <> Some "manage") ->
  is_ok (fst (can now db permission data (new_access (Some token)))) = true ->
  reads_only (schema_name permission) = true \/
  (own_account (schema_name permission) = true /\ ajv_number data = Some (u_id u)).
Proof.
  intros Ht Hdb (p & Hl & Hsc & Hu & _) Hp Hadmin Hlevel Hok.
  apply (proj1 (can_spec now db token permission data Ht Hdb)) in Hok
    as (u' & scope' & perms' & schema & a & (p' & Hl' & _ & Hu' & _) & Hp' & Hs & Ha & He).
  rewrite Hl in Hl'. injection Hl' as <-. simplify_eq. pose proof (validator_audited _ _ _ Hs Ha) as Hau.
  destruct a as [| |r [|]|r [|]|]; simpl in He, Hau; try (by left).
  - by destruct He as [? _].
  - destruct He as [_ He]. destruct (Hlevel r). destruct (permission_of r perms) as [s|]; [|done]. by apply String.eqb_eq in He as ->.
  - destruct (Hlevel r). destruct (permission_of r perms) as [s|]; [|done]. by apply String.eqb_eq in He as ->.
  - right. split; [done|]. apply He.
Qed.
End Grants.

(** ** Concrete tokens *)

#[local] Instance toy_jwt : Jwt := {
  jwt_verify now token :=
    if String.eqb token "t7" then inl (MkPayload 7 (ScopeString "all") 100)
    else if String.eqb token "p7" then inl (MkPayload 7 (ScopeList ["2fa_pending"]) 100) else inr (JwtError "jwt malformed");
  jwt_sign _ := ""
}.
#[local] Instance toy_ajv : Ajv := { ajv_number v := match v with VInt n => Some n | _ => None end }.

Definition toy_viewer : Sessions.user := MkUser 7 "n" "e" "n" "a" [] false false.
Definition toy_permissions : permissions :=
  let v := Some "view" in MkPermissions (Some "user") v v v v v v v v v v v v.
Definition toy_accounts : accounts := MkAccounts [toy_viewer] [(7, toy_permissions)].

Lemma toy_accounts_ok : accounts_ok toy_accounts.
Proof. constructor; [simpl; lia|constructor]. Qed.

Lemma permission_check_witness :
  is_ok (fst (can 0 toy_accounts "proxy_hosts:list" VUndef (new_access (Some "t7")))) = true /\
  fst (can 0 toy_accounts "proxy_hosts:update" VUndef (new_access (Some "t7"))) = Throw (PermissionError "Permission Denied") /\
  fst (can 0 toy_accounts "reports:hosts" VUndef (new_access (Some "p7"))) = Throw (PermissionError "Permission Denied").
Proof.
  split_and!.
  - apply (permission_check_is_exact 0 toy_accounts "t7" "proxy_hosts:list" VUndef); [done|apply toy_accounts_ok|].
    exists toy_viewer, (ScopeList ["user"]), toy_permissions, [AdminRole; OnlyUser ProxyHosts View], (OnlyUser ProxyHosts View).
    split_and!; [|reflexivity|reflexivity|by right; left|by split].
    exists (MkPayload 7 (ScopeList ["user"]) 100). split_and!; [reflexivity|reflexivity|reflexivity|]. intros item [<-|[]]. by right.
  - apply (permission_check_is_exact 0 toy_accounts "t7" "proxy_hosts:update" VUndef); [done|apply toy_accounts_ok|reflexivity].
  - apply (permission_check_is_exact 0 toy_accounts "p7" "reports:hosts" VUndef); [done|apply toy_accounts_ok|reflexivity].
Defined.

Lemma viewers_witness :
  is_ok (fst (can 0 toy_accounts "users:password" (VInt 7) (new_access (Some "t7")))) = true /\
  (reads_only (schema_name "users:password") = true \/
   (own_account (schema_name "users:password") = true /\ ajv_number (VInt 7) = Some (u_id toy_viewer))).
Proof.
  split; [reflexivity|].
  apply (viewers_change_nothing 0 toy_accounts "t7" "users:password" (VInt 7) toy_viewer (ScopeList ["user"]) toy_permissions);
    [done|apply toy_accounts_ok| |reflexivity|by intros []|by intros []|reflexivity].
  exists (MkPayload 7 (ScopeList ["user"]) 100). split_and!; [reflexivity|reflexivity|reflexivity|]. intros item [<-|[]]. by right.
Defined.
