(* ===== verification/Login.v ===== *)
(** Logging in: src/backend/routes/tokens.js with
    src/backend/internal/token.js and the OIDC hand-off of
    src/backend/routes/oidc.js - the throttle of attempts, the password, the
    pending token, the second factor, and every other way to an access token.

    The sessions are those of Sessions, the check of a token is that of Access;
    the second factor is an interface, implemented by TwoFactor.

    POST /tokens awaits the database and the hash between its checks and what it
    writes, so it is a thread with a step for every statement; any number of
    threads run side by side. *)

From S2P Require Import Prelude JsString Errors JsValue Sessions Access.
#[local] Open Scope string_scope.
#[local] Open Scope list_scope.
#[local] Open Scope Z_scope.

(** ** Attempts *)

Definition LOGIN_ATTEMPT_LIMIT : Z := 5.
Definition LOGIN_ATTEMPT_WINDOW_MS : Z := 15 * 60 * 1000.
Definition LOGIN_ATTEMPT_BLOCK_MS : Z := 15 * 60 * 1000.

(** What is tracked: a scope ("ip", "login") and an identifier. *)
Abbreviation tracked := (string * string)%type.

(** A row of [login_attempts]. *)
Record attempt : Type := MkAttempt {
  at_key : tracked;
  at_count : Z;
  at_first : Z;
  at_last : Z;
  at_blocked : Z
}.

Definition key_eqb (a b : tracked) : bool := String.eqb (fst a) (fst b) && String.eqb (snd a) (snd b).
Definition of_key (k : tracked) (r : attempt) : bool := key_eqb (at_key r) k.

Definition cleanupExpiredLoginAttempts (now : Z) (t : list attempt) : list attempt :=
  delete_where (fun r => (at_last r <? now - LOGIN_ATTEMPT_WINDOW_MS) && (at_blocked r <? now)) t.

(** The count and [blockedUntil], and whether the record is dropped, which is a
    statement of its own. *)
Definition getLoginAttemptState (k : tracked) (now : Z) (t : list attempt) : (Z * Z) * bool :=
  match first_where (of_key k) t with
  | None => ((0, 0), false)
  | Some record =>
      if now <? at_blocked record then ((at_count record, at_blocked record), false)
      else if LOGIN_ATTEMPT_WINDOW_MS <=? now - at_last record then ((0, 0), true)
      else ((at_count record, 0), false)
  end.
Definition drop_attempts (k : tracked) (t : list attempt) : list attempt := delete_where (of_key k) t.

(** [INSERT ... ON CONFLICT ... MERGE] *)
Definition merge_attempt (now : Z) (r : attempt) : attempt :=
  let old := LOGIN_ATTEMPT_WINDOW_MS <=? now - at_last r in
  let count := if old then 1 else at_count r + 1 in
  MkAttempt (at_key r) count (if old then now else at_first r) now
    (if LOGIN_ATTEMPT_LIMIT <=? count then now + LOGIN_ATTEMPT_BLOCK_MS else 0).

Definition registerFailedLoginAttempt (k : tracked) (now : Z) (t : list attempt) : list attempt :=
  if existsb (of_key k) t then patch_where (of_key k) (merge_attempt now) t else t ++ [MkAttempt k 1 now now 0].

Definition clearLoginAttempts (keys : list tracked) (t : list attempt) : list attempt :=
  let filters := List.filter (fun k => negb (String.eqb (snd k) "")) keys in
  if Nat.eqb (length filters) 0 then t else delete_where (fun r => existsb (fun k => of_key k r) filters) t.

Definition text_of (v : value) : option string := match v with VStr s => Some s | _ => None end.

Definition normalizeLoginIdentifier (body : value) : option string :=
  let usable v := match text_of v with Some s => if String.eqb (trim s) "" then None else Some (to_lower (trim s)) | None => None end in
  match usable (get "identity" body), usable (get "email" body), usable (get "username" body) with
  | Some s, _, _ => Some s
  | None, Some s, _ => Some s
  | None, None, o => o
  end.

Definition trackedIdentifiers (ip : string) (body : value) : list tracked :=
  ("ip", ip) :: match normalizeLoginIdentifier body with Some i => [("login", i)] | None => [] end.

(** ** Tokens *)

(** A row of [auth]. *)
Record auth : Type := MkAuth { au_user : Z; au_type : string; au_secret : string; au_deleted : bool }.

Record credentials : Type := MkCredentials {
  cd_identity : string;
  cd_secret : string;
  cd_scope : option string;
  cd_expiry : option string
}.

(** The schema of the request body, the normal form of a database, bcrypt and
    the date and token libraries. *)
Class LoginEnv : Type := {
  apiValidator : value -> fallible credentials;
  sql_lower_trim : string -> string;
  password_matches : string -> string -> bool;
  add_period : Z -> Z -> string -> Z;
  token_expiry : Z -> string -> option Z
}.

(** What a login needs of the second factors: the state [F] of the service, who
    has an active method, and the three ways to pass; the clock is an argument. *)
Class SecondFactor (F : Type) : Type := {
  hasActive2FA : F -> Z -> bool;
  login_challenge : Z -> Z -> string -> string -> string -> F -> fallible bool * F;
  passkey_challenge : Z -> Z -> string -> string -> F -> fallible bool * F;
  duo_challenge : Z -> string -> string -> string -> F -> fallible (option Z) * F
}.

Definition INVALID_AUTH : error := AuthError "Invalid email or password".

(** [/^([0-9]+)(y|Q|M|w|d|h|m|s|ms)$/] *)
Definition period_unit (s : string) : bool := existsb (String.eqb s) ["y"; "Q"; "M"; "w"; "d"; "h"; "m"; "s"; "ms"].
Fixpoint period_parts (digits : string) (s : string) : option (Z * string) :=
  match s with
  | String c rest =>
      if is_digit c then period_parts (digits ++ String c "")%string rest
      else if negb (String.eqb digits "") && period_unit s then Some (read_Z digits, s) else None
  | EmptyString => None
  end.

Section Tokens.
Context `{LoginEnv}.

Definition parseDatePeriod (now : Z) (expression : string) : option Z :=
  match period_parts "" expression with Some (n, unit) => Some (add_period now n unit) | None => None end.

(** [Token.create] *)
Definition create_token (now id : Z) (scope : scope_arg) (expiresIn : string) : fallible claims :=
  match token_expiry now expiresIn with
  | Some exp => Ok (MkPayload id scope exp)
  | None => Throw (NativeError "expiresIn should be a number of seconds or string representing a timespan")
  end.

(** The only account of an e-mail address, if it is not disabled. *)
Definition account_of (identity : string) (users : list Sessions.user) : option Sessions.user :=
  match List.filter (fun u => String.eqb (sql_lower_trim (u_email u)) (trim (to_lower identity)) && negb (u_is_deleted u)) users with
  | [u] => if u_is_disabled u then None else Some u
  | _ => None
  end.

Definition password_of (id : Z) (rows : list auth) : option auth :=
  first_where (fun a => (au_user a =? id) && String.eqb (au_type a) "password" && negb (au_deleted a)) rows.

Definition or_default (d : string) (o : option string) : string := if truthy o then default d o else d.

Definition getTokenFromEmail (now : Z) (data : credentials) (users : list Sessions.user) (rows : list auth)
    : fallible (Sessions.user * claims) :=
  let scope := or_default "user" (cd_scope data) in
  let period := or_default "1d" (cd_expiry data) in
  match account_of (cd_identity data) users with
  | None => Throw INVALID_AUTH
  | Some user =>
      match password_of (u_id user) rows with
      | None => Throw INVALID_AUTH
      | Some a =>
          throw INVALID_AUTH when (negb (password_matches (cd_secret data) (au_secret a))) ;;
          throw AuthError ("Invalid scope: " ++ scope)%string
            when (negb (String.eqb scope "user") && negb (existsb (String.eqb scope) (u_roles user))) ;;
          match parseDatePeriod now period with
          | None => Throw (AuthError ("Invalid expiry time: " ++ period)%string)
          | Some _ => rmap (fun p => (user, p)) (create_token now (u_id user) (ScopeList [scope]) period)
          end
      end
  end.

Definition getTokenFromOAuthClaim (now : Z) (identity : string) (users : list Sessions.user) : fallible claims :=
  match account_of identity users with
  | None => Throw INVALID_AUTH
  | Some user =>
      match parseDatePeriod now "5m" with
      | None => Throw (AuthError "Invalid expiry time: 5m")
      | Some _ => create_token now (u_id user) (ScopeList ["user"]) "5m"
      end
  end.

Definition getFreshToken (now : Z) (a : access) (expiry scope : option string) : fallible claims :=
  let period := or_default "1d" expiry in
  let id := getUserId 0 a in
  if id =? 0 then Throw (UnauthorizedError "No active session found")
  else
    match parseDatePeriod now period with
    | None => Throw (AuthError ("Invalid expiry time: " ++ period)%string)
    | Some _ =>
        let own := match a_tokenData a with Some t => tk_scope t | None => ScopeOther end in
        if truthy scope && hasScope "admin" a then
          let s := default "" scope in
          create_token now (if String.eqb s "job-board" || String.eqb s "worker" then 0 else id) (ScopeList [s]) period
        else create_token now id own period
    end.

Definition getTokenFromUser (now id : Z) : fallible claims := create_token now id (ScopeList ["user"]) "1d".
End Tokens.

(** ** The site *)

(** How an account got a token that is not for the second factor; and what becomes
    of the attempts of an identifier: its check is passed at an instant, a login
    that began at an instant has failed, correct passwords clear it, and a record
    is dropped that is no longer the one that was read as old. *)
Inductive event : Type :=
| Password (user : Z) (has_factor : bool)
| Factor (user : Z)
| Oidc (user : Z)
| Impersonated (admin user : Z)
| Passed (k : tracked) (clock : Z)
| Guessed (k : tracked) (now : Z)
| Cleared (keys : list tracked)
| Lost (k : tracked).

(** How far a login has come: before the cleanup; checking its identifiers, of
    which one may be found old; before the password is checked; with the right
    password, before the attempts are cleared, the second factors are looked up
    and the session is opened; or registering its failure. *)
Inductive stage : Type :=
| Cleaning
| Checking (rest : list tracked)
| Dropping (k : tracked) (rest : list tracked)
| Verifying
| Clearing (data : credentials) (u : Sessions.user)
| Choosing (data : credentials) (u : Sessions.user)
| Opening (data : credentials) (u : Sessions.user)
| Registering (rest : list tracked) (e : error)
| Looking (e : error)
| DroppingLast (e : error).

(** A login on its way; [lg_now] is the instant at which it began. *)
Record login : Type := MkLogin {
  lg_now : Z;
  lg_ip : string;
  lg_body : value;
  lg_meta : request_meta;
  lg_draws : draws;
  lg_stage : stage
}.
Definition at_stage (st : stage) (l : login) : login := MkLogin (lg_now l) (lg_ip l) (lg_body l) (lg_meta l) (lg_draws l) st.
Definition lg_keys (l : login) : list tracked := trackedIdentifiers (lg_ip l) (lg_body l).

Record site (F : Type) : Type := MkSite {
  st_auth : auth_db;
  st_permissions : list (Z * permissions);
  st_passwords : list auth;
  st_factors : F;
  st_attempts : list attempt;
  st_logins : list login;
  st_issued : list claims;
  st_log : list event;
  st_now : Z
}.
Arguments MkSite {F} _ _ _ _ _ _ _ _ _.
Arguments st_auth {F} _.
Arguments st_permissions {F} _.
Arguments st_passwords {F} _.
Arguments st_factors {F} _.
Arguments st_attempts {F} _.
Arguments st_logins {F} _.
Arguments st_issued {F} _.
Arguments st_log {F} _.
Arguments st_now {F} _.

Inductive answer : Type :=
| TooManyAttempts
| NeedsFactor (pending : claims)
| NewSession (access_token : claims) (tr : token_response)
| NewToken (token : claims)
| Refused (status : Z) (message : string)
| Failed (e : error).

Section Site.
Context {F : Type} `{AuthEnv} `{Jwt} `{Ajv} `{LoginEnv} `{SecondFactor F}.
Implicit Types s : site F.

Definition accounts_of s : accounts := MkAccounts (db_users (st_auth s)) (st_permissions s).

Definition set_auth (d : auth_db) s : site F :=
  MkSite d (st_permissions s) (st_passwords s) (st_factors s) (st_attempts s) (st_logins s) (st_issued s) (st_log s) (st_now s).
Definition put_attempts (t : list attempt) s : site F :=
  MkSite (st_auth s) (st_permissions s) (st_passwords s) (st_factors s) t (st_logins s) (st_issued s) (st_log s) (st_now s).
Definition set_factors (f : F) s : site F :=
  MkSite (st_auth s) (st_permissions s) (st_passwords s) f (st_attempts s) (st_logins s) (st_issued s) (st_log s) (st_now s).
Definition record_ (tokens : list claims) (events : list event) s : site F :=
  MkSite (st_auth s) (st_permissions s) (st_passwords s) (st_factors s) (st_attempts s) (st_logins s) (st_issued s ++ tokens) (st_log s ++ events) (st_now s).

(** A record that was read as old is dropped when it no longer is: the failures it
    has counted since are lost. *)
Definition lost (k : tracked) (now : Z) (t : list attempt) : list event :=
  match first_where (of_key k) t with
  | Some r => if LOGIN_ATTEMPT_WINDOW_MS <=? now - at_last r then [] else [Lost k]
  | None => []
  end.

(** [User.query().findById(id)] that is neither deleted nor disabled. *)
Definition find_user (id : Z) s : option Sessions.user := live_user id (accounts_of s).

(** [issueTokenPair] with the content of its access token. *)
Definition open_session (now : Z) (u : Sessions.user) (scope : string) (meta : request_meta) (r : draws) s : answer * site F :=
  match create_token now (u_id u) (ScopeList (Sessions.normalizeScope (ScopeString scope))) "15m" with
  | Throw e => (Failed e, s)
  | Ok token =>
      match issueTokenPair now u (ScopeString scope) meta r (st_auth s) with
      | Throw e => (Failed e, s)
      | Ok (tr, d) => (NewSession token tr, set_auth d s)
      end
  end.

(** Where a login is after a step, or its answer. *)
Inductive progress : Type := Going (st : stage) | Done (r : answer).

(** One statement of POST /tokens, at the instant [clock]. *)
Definition advance (clock : Z) (l : login) s : progress * site F :=
  let now := lg_now l in
  let keys := lg_keys l in
  let failed e := Registering keys e in
  match lg_stage l with
  | Cleaning => (Going (Checking keys), put_attempts (cleanupExpiredLoginAttempts now (st_attempts s)) s)
  | Checking [] => (Going Verifying, s)
  | Checking (k :: rest) =>
      let '((_, blockedUntil), old) := getLoginAttemptState k now (st_attempts s) in
      if now <? blockedUntil then (Done TooManyAttempts, s)
      else (Going (if old then Dropping k rest else Checking rest), record_ [] [Passed k clock] s)
  | Dropping k rest =>
      (Going (Checking rest), record_ [] (lost k now (st_attempts s)) (put_attempts (drop_attempts k (st_attempts s)) s))
  | Verifying =>
      (Going (match (let? data := apiValidator (lg_body l) in
                     rmap (fun out => (data, fst out)) (getTokenFromEmail clock data (db_users (st_auth s)) (st_passwords s))) with
              | Ok (data, u) => Clearing data u
              | Throw e => failed e
              end), s)
  | Clearing data u => (Going (Choosing data u), record_ [] [Cleared keys] (put_attempts (clearLoginAttempts keys (st_attempts s)) s))
  | Choosing data u =>
      if hasActive2FA (st_factors s) (u_id u) then
        match create_token clock (u_id u) (ScopeList ["2fa_pending"]) "5m" with
        | Throw e => (Going (failed e), s)
        | Ok pending => (Done (NeedsFactor pending), s)
        end
      else (Going (Opening data u), record_ [] [Password (u_id u) (hasActive2FA (st_factors s) (u_id u))] s)
  | Opening data u =>
      match open_session clock u (or_default "user" (cd_scope data)) (lg_meta l) (lg_draws l) s with
      | (Failed e, s') => (Going (failed e), s')
      | (r, s') => (Done r, s')
      end
  | Registering [] e => (Going (Looking e), s)
  | Registering (k :: rest) e =>
      (Going (Registering rest e), record_ [] [Guessed k now] (put_attempts (registerFailedLoginAttempt k now (st_attempts s)) s))
  | Looking e =>
      if snd (getLoginAttemptState ("ip", lg_ip l) now (st_attempts s)) then (Going (DroppingLast e), s) else (Done (Failed e), s)
  | DroppingLast e =>
      (Done (Failed e), record_ [] (lost ("ip", lg_ip l) now (st_attempts s)) (put_attempts (drop_attempts ("ip", lg_ip l) (st_attempts s)) s))
  end.

(** POST /tokens begins. *)
Definition post_login (now : Z) (req_ip : option string) (body : value) (meta : request_meta) (r : draws) : login :=
  MkLogin now (or_default "unknown" req_ip) body meta r Cleaning.

(** [loadPendingTwoFaToken] *)
Definition loadPendingTwoFaToken (now : Z) (rawToken : string) : fallible claims :=
  let? p := load_token now rawToken in
  throw AuthError "Invalid pending 2FA token"
    when (negb (match tk_scope p with ScopeList l => existsb (String.eqb "2fa_pending") l | _ => false end) || (tk_id p <=? 0)) ;;
  Ok p.

(** A passed factor opens a session for a user that is still there. *)
Definition session_after_factor (now id : Z) (meta : request_meta) (r : draws) s : answer * site F :=
  match find_user id s with
  | None => (Refused 401 "User not found", s)
  | Some u =>
      let '(res, s') := open_session now u "user" meta r s in
      (res, match res with NewSession _ _ => record_ [] [Factor id] s' | _ => s' end)
  end.

(** POST /tokens/2fa/verify *)
Definition post_verify (now : Z) (pending_token m code nonce : string) (meta : request_meta) (r : draws) s : answer * site F :=
  if String.eqb code "" then (Refused 400 "pending_token, method, and code are required", s)
  else
    match loadPendingTwoFaToken now pending_token with
    | Throw _ => (Refused 401 "Pending 2FA token is invalid or expired", s)
    | Ok p =>
        let '(valid, f) := login_challenge now (tk_id p) m code nonce (st_factors s) in
        let s1 := set_factors f s in
        match valid with
        | Throw e => (Failed e, s1)
        | Ok false => (Refused 401 "Invalid 2FA code", s1)
        | Ok true => session_after_factor now (tk_id p) meta r s1
        end
    end.

(** POST /tokens/2fa/passkey/complete: only an exception stops it. *)
Definition post_passkey (now : Z) (pending_token challenge_id auth_response : string) (meta : request_meta) (r : draws) s : answer * site F :=
  if String.eqb pending_token "" || String.eqb challenge_id "" || String.eqb auth_response "" then
    (Refused 400 "pending_token, challenge_id, and auth_response are required", s)
  else
    match loadPendingTwoFaToken now pending_token with
    | Throw _ => (Refused 401 "Pending 2FA token is invalid or expired", s)
    | Ok p =>
        let '(res, f) := passkey_challenge now (tk_id p) challenge_id auth_response (st_factors s) in
        let s1 := set_factors f s in
        match res with
        | Throw e => (Failed e, s1)
        | Ok _ => session_after_factor now (tk_id p) meta r s1
        end
    end.

(** POST /tokens/2fa/duo/complete; [browserToken] is the cookie. *)
Definition post_duo (now : Z) (browserToken : option string) (duo_code state : string) (meta : request_meta) (r : draws) s : answer * site F :=
  if String.eqb duo_code "" || String.eqb state "" then (Refused 400 "duo_code and state are required", s)
  else
    match browserToken with
    | None | Some EmptyString => (Refused 401 "Duo login cookie is missing or expired", s)
    | Some cookie =>
        let '(res, f) := duo_challenge now cookie duo_code state (st_factors s) in
        let s1 := set_factors f s in
        match res with
        | Throw e => (Failed e, s1)
        | Ok None => (Refused 401 "Duo authentication failed", s1)
        | Ok (Some id) => session_after_factor now id meta r s1
        end
    end.

(** GET /tokens after [jwtdecode] *)
Definition get_fresh (now : Z) (bearer : string) (expiry scope : option string) s : answer * site F :=
  match load now (accounts_of s) false (new_access (Some bearer)) with
  | (Throw e, _) => (Failed e, s)
  | (Ok _, a) => (match getFreshToken now a expiry scope with Ok p => NewToken p | Throw e => Failed e end, s)
  end.

(** POST /tokens/refresh; the new access token has the scope of the session. *)
Definition post_refresh (now : Z) (raw : option string) (meta : request_meta) (r : draws) s : answer * site F :=
  match raw with
  | None | Some EmptyString => (Refused 400 "Missing refresh token", s)
  | Some _ =>
      match refreshTokenPair now raw meta r (st_auth s) with
      | (Throw e, d) => (Failed e, set_auth d s)
      | (Ok tr, d) =>
          match create_token now (u_id (t_user tr)) (ScopeList (s_scope (t_session tr))) "15m" with
          | Throw e => (Failed e, s)
          | Ok token => (NewSession token tr, set_auth d s)
          end
      end
  end.

(** [scope.includes(item)], of an array or of a string. *)
Definition scope_includes (item : string) (scope : scope_arg) : bool :=
  match scope with ScopeList l => existsb (String.eqb item) l | ScopeString t => includes item t | ScopeOther => false end.

(** The verified claims of the provider, GET /oidc/callback. *)
Definition oidc_callback (now : Z) (email : string) s : answer * site F :=
  match getTokenFromOAuthClaim now (to_lower email) (db_users (st_auth s)) with
  | Throw e => (Failed e, s)
  | Ok p => (NewToken p, record_ [] [Oidc (tk_id p)] s)
  end.

(** POST /oidc/claim, with the token of the decrypted cookie. *)
Definition oidc_claim (now : Z) (token : string) (meta : request_meta) (r : draws) s : answer * site F :=
  match load_token now token with
  | Throw e => (Refused 400 "OIDC authentication failed", s)
  | Ok p =>
      if negb (scope_includes "user" (tk_scope p)) then (Refused 400 "Invalid OIDC token", s)
      else
        match find_user (tk_id p) s with
        | None => (Refused 400 "User cannot be loaded for OIDC token", s)
        | Some u => open_session now u "user" meta r s
        end
  end.

(** POST /users/:user_id/login: [loginAs]; [get] is a permission and a row. *)
Definition login_as (now : Z) (bearer : string) (id : Z) s : answer * site F :=
  match load now (accounts_of s) false (new_access (Some bearer)) with
  | (Throw e, _) => (Failed e, s)
  | (Ok _, a) =>
      let '(r1, a1) := can now (accounts_of s) "users:loginas" (VInt id) a in
      let '(r2, _) := can now (accounts_of s) "users:get" (VInt id) a1 in
      match r1, r2 with
      | Throw e, _ => (Failed e, s)
      | Ok _, Throw e => (Failed e, s)
      | Ok _, Ok _ =>
          match first_where (fun u => (u_id u =? id) && negb (u_is_deleted u)) (db_users (st_auth s)) with
          | None => (Failed (ItemNotFoundError (Some id)), s)
          | Some u =>
              match getTokenFromUser now (u_id u) with
              | Throw e => (Failed e, s)
              | Ok p => (NewToken p, record_ [] [Impersonated (getUserId 0 a1) id] s)
              end
          end
      end
  end.

(** *** The machine *)

(** A client can show a token that was signed, or one that is refused. *)
Definition presented (token : string) s : Prop := forall now p, jwt_verify now token = inl p -> In p (st_issued s).

Definition tokens_of (r : answer) : list claims :=
  match r with NeedsFactor p | NewSession p _ | NewToken p => [p] | _ => [] end.

(** The answer reaches the client. *)
Definition answered (now : Z) (out : answer * site F) : site F :=
  let '(res, s) := out in
  MkSite (st_auth s) (st_permissions s) (st_passwords s) (st_factors s) (st_attempts s) (st_logins s) (st_issued s ++ tokens_of res) (st_log s) now.

Definition set_logins (logins : list login) (now : Z) s : site F :=
  MkSite (st_auth s) (st_permissions s) (st_passwords s) (st_factors s) (st_attempts s) logins (st_issued s) (st_log s) now.

(** One login goes on, the others stay where they are. *)
Definition login_goes_on (clock : Z) (before : list login) (l : login) (after : list login) s : site F :=
  match advance clock l s with
  | (Going st, s') => set_logins (before ++ at_stage st l :: after) clock s'
  | (Done r, s') => answered clock (r, set_logins (before ++ after) clock s')
  end.

(** Identifiers of accounts are numbered from one. *)
Definition numbered (users : list Sessions.user) : Prop := Forall (fun u => 1 <= u_id u) users.

(** [patience] is how long a login may take until it has registered its failure;
    a restart ends all that are on their way. *)
Inductive site_step (patience : Z) : site F -> site F -> Prop :=
| site_login now ip body meta r s : st_now s <= now -> site_step patience s (set_logins (st_logins s ++ [post_login now ip body meta r]) now s)
| site_advance clock before l after s : st_now s <= clock -> st_logins s = before ++ l :: after -> clock < lg_now l + patience ->
    site_step patience s (login_goes_on clock before l after s)
| site_restart s : site_step patience s (set_logins [] (st_now s) s)
| site_verify now token m code nonce meta r s : st_now s <= now -> presented token s ->
    site_step patience s (answered now (post_verify now token m code nonce meta r s))
| site_passkey now token cid response meta r s : st_now s <= now -> presented token s ->
    site_step patience s (answered now (post_passkey now token cid response meta r s))
| site_duo now cookie code state meta r s : st_now s <= now -> site_step patience s (answered now (post_duo now cookie code state meta r s))
| site_fresh now token expiry scope s : st_now s <= now -> presented token s ->
    site_step patience s (answered now (get_fresh now token expiry scope s))
| site_refresh now raw meta r s : st_now s <= now -> site_step patience s (answered now (post_refresh now raw meta r s))
| site_oidc now email s : st_now s <= now -> site_step patience s (answered now (oidc_callback now email s))
| site_oidc_claim now token meta r s : st_now s <= now -> presented token s ->
    site_step patience s (answered now (oidc_claim now token meta r s))
| site_login_as now token id s : st_now s <= now -> presented token s -> site_step patience s (answered now (login_as now token id s))
| site_factors f s : site_step patience s (set_factors f s)
| site_sessions rows next s :
    (forall x, In x rows -> exists y, In y (db_sessions (st_auth s)) /\ s_user_id x = s_user_id y) ->
    site_step patience s (set_auth (MkDb rows next (db_users (st_auth s))) s)
| site_accounts users perms passwords s : numbered users ->
    site_step patience s (MkSite (MkDb (db_sessions (st_auth s)) (db_next_id (st_auth s)) users) perms passwords
                   (st_factors s) (st_attempts s) (st_logins s) (st_issued s) (st_log s) (st_now s)).

Definition site_initial s : Prop :=
  db_sessions (st_auth s) = [] /\ numbered (db_users (st_auth s)) /\ st_issued s = [] /\ st_attempts s = [] /\ st_logins s = [] /\ st_log s = [].
End Site.

(** ** The second factor is required *)

Section Required.
Context {F : Type} `{AuthEnv} `{Jwt} `{Ajv} `{LoginEnv} `{SecondFactor F}.
Implicit Types s : site F.

(** How the account came to be logged in: by its password while it had no
    factor, with a factor, through the identity provider, or by an administrator. *)
Definition justifies (id : Z) (e : event) : Prop :=
  match e with
  | Password u has_factor => u = id /\ has_factor = false
  | Factor u | Oidc u | Impersonated _ u => u = id
  | _ => False
  end.
Definition justified (log : list event) (id : Z) : Prop := exists e, In e log /\ justifies id e.

Definition token_ok (log : list event) (p : claims) : Prop :=
  tk_id p = 0 \/ tk_scope p = ScopeList ["2fa_pending"] \/ justified log (tk_id p).

Record site_ok s : Prop := MkSiteOk {
  sk_tokens : forall p, In p (st_issued s) -> token_ok (st_log s) p;
  sk_sessions : forall x, In x (db_sessions (st_auth s)) -> justified (st_log s) (s_user_id x);
  sk_numbered : numbered (db_users (st_auth s));
  sk_logins : forall l, In l (st_logins s) -> match lg_stage l with Opening _ u => justified (st_log s) (u_id u) | _ => True end
}.

Lemma justified_grows log more id : justified log id -> justified (log ++ more) id.
Proof. intros (e & Hin & He). exists e. split; [apply in_app_iff; by left|done]. Qed.

Lemma token_ok_grows log more p : token_ok log p -> token_ok (log ++ more) p.
Proof. intros [?|[?|?]]; [by left|right; by left|]. right. right. by apply justified_grows. Qed.

(** What a handler may do: log more, hand out tokens that are in order and keep
    sessions of users who are logged in. *)
Record fine s (out : answer * site F) : Prop := MkFine {
  fn_users : db_users (st_auth (snd out)) = db_users (st_auth s);
  fn_logins : st_logins (snd out) = st_logins s;
  fn_issued : st_issued (snd out) = st_issued s;
  fn_log : exists more, st_log (snd out) = st_log s ++ more;
  fn_sessions : forall x, In x (db_sessions (st_auth (snd out))) -> justified (st_log (snd out)) (s_user_id x);
  fn_tokens : forall p, In p (tokens_of (fst out)) -> token_ok (st_log (snd out)) p
}.

Lemma fine_same s res : site_ok s -> tokens_of res = [] -> fine s (res, s).
Proof. intros [Ht Hs _ _] E. split; simpl; [done|done|done|exists []; by rewrite app_nil_r|done|by rewrite E]. Qed.

Lemma login_justified_grows log more l :
  match lg_stage l with Opening _ u => justified log (u_id u) | _ => True end ->
  match lg_stage l with Opening _ u => justified (log ++ more) (u_id u) | _ => True end.
Proof. destruct (lg_stage l); try done. apply justified_grows. Qed.

Lemma answered_ok now s out : site_ok s -> fine s out -> site_ok (answered now out).
Proof.
  destruct out as [res s']. intros [Ht Hs Hc Hg] [Hu Hlg Hi [more Hl] Hs' Hp]. simpl in *. split; simpl.
  - intros p [Hin|Hin]%in_app_iff; [|by apply Hp]. rewrite Hl. apply token_ok_grows, Ht. by rewrite <- Hi.
  - done.
  - by rewrite Hu.
  - intros l. rewrite Hlg, Hl. intros Hin. by apply login_justified_grows, Hg.
Qed.

(** *** Sessions *)

(** Opening a session for a user: the token and the new row are the user's. *)
Lemma open_session_spec now u scope meta r s res s' :
  open_session now u scope meta r s = (res, s') ->
  (s' = s /\ tokens_of res = []) \/
  (exists token tr x, res = NewSession token tr /\ tk_id token = u_id u /\ st_issued s' = st_issued s /\ st_log s' = st_log s /\
     st_logins s' = st_logins s /\ db_users (st_auth s') = db_users (st_auth s) /\ db_sessions (st_auth s') = db_sessions (st_auth s) ++ [x] /\ s_user_id x = u_id u).
Proof.
  unfold open_session, create_token. destruct (token_expiry now "15m") as [exp|]; [|intros [= <- <-]; by left].
  destruct (issueTokenPair _ _ _ _ _ _) as [[tr d]|e] eqn:Ei; [|intros [= <- <-]; by left].
  intros [= <- <-]. right. unfold issueTokenPair in Ei. ok_inv Ei. ok_inv Ei. injection Ei as <- <-.
  destruct v as [x d']. apply create_spec in E as (Ed & _ & Eu & _ & _ & _ & Ex & _). by exists (MkPayload (u_id u) (ScopeList (Sessions.normalizeScope (ScopeString scope))) exp), (MkResponse v0 (r_refresh_token r) x u), x.
Qed.

Lemma session_fine now u scope meta r s events : site_ok s -> justified (st_log s ++ events) (u_id u) ->
  fine s (let '(res, s') := open_session now u scope meta r s in
          (res, match res with NewSession _ _ => record_ [] events s' | _ => s' end)).
Proof.
  intros Hs Hj. destruct (open_session now u scope meta r s) as [res s'] eqn:E.
  destruct (open_session_spec _ _ _ _ _ _ _ _ E) as [[-> Et]|(token & tr & x & -> & Eid & Ei & El & Eg & Eu & Ed & Ex)].
  - destruct res; try (by apply fine_same). done.
  - split; simpl; [done|done|by rewrite app_nil_r|by exists events; rewrite El| |].
    + rewrite El, Ed. intros y [Hy|[<-|[]]]%in_app_iff; [apply justified_grows; by apply Hs|by rewrite Ex].
    + rewrite El. intros p [<-|[]]. right. right. by rewrite Eid.
Qed.

Lemma open_fine now u scope meta r s : site_ok s -> justified (st_log s) (u_id u) -> fine s (open_session now u scope meta r s).
Proof.
  intros Hs Hj. destruct (open_session now u scope meta r s) as [res s'] eqn:E.
  destruct (open_session_spec _ _ _ _ _ _ _ _ E) as [[-> Et]|(token & tr & x & -> & Eid & Ei & El & Eg & Eu & Ed & Ex)]; [by apply fine_same|].
  split; simpl; [done|done|done|exists []; by rewrite El, app_nil_r| |].
  - rewrite El, Ed. intros y [Hy|[<-|[]]]%in_app_iff; [by apply Hs|by rewrite Ex].
  - rewrite El. intros p [<-|[]]. right. right. by rewrite Eid.
Qed.

(** Only the accounts, the sessions, the tokens and the log matter. *)
Definition alike s s1 : Prop := st_auth s1 = st_auth s /\ st_logins s1 = st_logins s /\ st_issued s1 = st_issued s /\ st_log s1 = st_log s.

Lemma alike_ok s s1 : alike s s1 -> site_ok s -> site_ok s1.
Proof. intros (Ea & Eg & Ei & El) [Ht Hs Hc Hg]. split; rewrite ?Ea, ?Ei, ?El; [done..|]. intros l. rewrite Eg. apply Hg. Qed.

Lemma alike_fine s s1 out : alike s s1 -> fine s1 out -> fine s out.
Proof. intros (Ea & Eg & Ei & El) [Hu Hlg Hi Hl Hs Hp]. split; congruence || done || by rewrite <- El. Qed.

Lemma live_account_found id db u : live_user id db = Some u -> In u (ac_users db) /\ u_id u = id.
Proof. intros [Hin Hp]%first_where_Some. split; [done|lia]. Qed.

Lemma factor_fine now id meta r s : site_ok s -> fine s (session_after_factor now id meta r s).
Proof.
  intros Hs. unfold session_after_factor. destruct (find_user id s) as [u|] eqn:E; [|by apply fine_same].
  apply live_account_found in E as [_ E]. apply session_fine; [done|]. exists (Factor id). split; [apply in_app_iff; right; by left|].
  simpl. by rewrite E.
Qed.

Lemma verify_fine now token m code nonce meta r s : site_ok s -> fine s (post_verify now token m code nonce meta r s).
Proof.
  intros Hs. unfold post_verify. destruct (String.eqb code ""); [by apply fine_same|].
  destruct (loadPendingTwoFaToken now token) as [p|]; [|by apply fine_same].
  destruct (login_challenge _ _ _ _ _ _) as [valid f]. apply (alike_fine _ (set_factors f s)); [done|].
  assert (site_ok (set_factors f s)) as Hs1 by (by apply (alike_ok s)).
  destruct valid as [[|]|]; [by apply factor_fine|by apply fine_same|by apply fine_same].
Qed.

Lemma passkey_fine now token cid response meta r s : site_ok s -> fine s (post_passkey now token cid response meta r s).
Proof.
  intros Hs. unfold post_passkey. destruct (_ || _); [by apply fine_same|].
  destruct (loadPendingTwoFaToken now token) as [p|]; [|by apply fine_same].
  destruct (passkey_challenge _ _ _ _ _) as [res f]. apply (alike_fine _ (set_factors f s)); [done|].
  assert (site_ok (set_factors f s)) as Hs1 by (by apply (alike_ok s)).
  destruct res; [by apply factor_fine|by apply fine_same].
Qed.

Lemma duo_fine now cookie code state meta r s : site_ok s -> fine s (post_duo now cookie code state meta r s).
Proof.
  intros Hs. unfold post_duo. destruct (_ || _); [by apply fine_same|].
  destruct cookie as [[|c cookie]|]; [by apply fine_same| |by apply fine_same].
  destruct (duo_challenge _ _ _ _ _) as [res f]. apply (alike_fine _ (set_factors f s)); [done|].
  assert (site_ok (set_factors f s)) as Hs1 by (by apply (alike_ok s)).
  destruct res as [[id|]|]; [by apply factor_fine|by apply fine_same|by apply fine_same].
Qed.

(** *** Refreshing *)

Lemma revoked_users now fam reason d x :
  In x (db_sessions (revoke_family_rows now fam reason d)) -> exists y, In y (db_sessions d) /\ s_user_id x = s_user_id y.
Proof. simpl. intros [(y & Hin & _ & ->)|[Hin _]]%in_patch; eauto. Qed.

Lemma refresh_spec now raw meta r d res d' : refreshTokenPair now raw meta r d = (res, d') ->
  db_users d' = db_users d /\
  (forall x, In x (db_sessions d') -> exists y, In y (db_sessions d) /\ s_user_id x = s_user_id y) /\
  forall tr, res = Ok tr -> exists y, In y (db_sessions d) /\ u_id (t_user tr) = s_user_id y.
Proof.
  assert (forall x, In x (db_sessions d) -> exists y, In y (db_sessions d) /\ s_user_id x = s_user_id y) as Hsame by eauto.
  unfold refreshTokenPair. destruct (refresh_read now raw d) as [p|e] eqn:Er; [|intros [= <- <-]; by split_and!].
  assert (In (plan_session p) (db_sessions d) /\ forall row u, p = PlanRotate row u -> u_id u = s_user_id row) as [Hp Hu].
  { unfold refresh_read in Er. destruct raw as [[|c raw]|]; [done| |done]. ok_inv Er.
    destruct (by_hash v d) as [row|] eqn:Eb; [|done]. ok_inv Er. apply first_where_Some in Eb as [Hin _].
    injection Er as <-. destruct (expired now row); [done|]. destruct (was_rotated row); [done|].
    destruct (available (user_of d row)) as [u|] eqn:Ea; [|done]. split; [done|]. intros row1 u1 [= <- <-].
    unfold available in Ea. destruct (user_of d row) as [u'|] eqn:Eu; [|done]. destruct (_ || _); [done|]. injection Ea as <-.
    apply first_where_Some in Eu as [_ Eu]. lia. }
  destruct p as [row|row|row|row u]; simpl in Hp |- *; unfold reject_after, revokeSession, revokeFamily, throw_if, rbind.
  - destruct (s_id row =? 0); intros [= <- <-]; [by split_and!|]. split_and!; [done| |done].
    intros x [(y & Hin & _ & ->)|[Hin _]]%in_patch; eauto.
  - destruct (String.eqb _ ""); intros [= <- <-]; [by split_and!|]. split_and!; [done|apply revoked_users|done].
  - destruct (String.eqb _ ""); intros [= <- <-]; [by split_and!|]. split_and!; [done|apply revoked_users|done].
  - destruct (createRefreshSession _ _ _ _ _ _ _ _ _) as [[x d1]|e] eqn:Ec; [|intros [= <- <-]; by split_and!].
    apply create_spec in Ec as (Ed & _ & Eu & _ & _ & _ & Ex & _). specialize (Hu row u eq_refl).
    assert (forall y, In y (db_sessions d1) -> exists z, In z (db_sessions d) /\ s_user_id y = s_user_id z) as Hd1.
    { rewrite Ed. intros y [Hin|[<-|[]]]%in_app_iff; [eauto|]. exists row. split; [done|congruence]. }
    destruct (Nat.eqb _ 0).
    + destruct (String.eqb _ ""); intros [= <- <-]; [by split_and!|]. split_and!; [done| |done].
      intros y (z & Hz & ->)%revoked_users. by apply Hd1.
    + destruct (r_access_token r); intros [= <- <-]; [|by split_and!]. split_and!; [done| |].
      * simpl. intros y [(z & Hz & _ & ->)|[Hz _]]%in_patch; [simpl|]; by apply Hd1.
      * intros tr [= <-]. exists row. split; [done|]. simpl. done.
Qed.

Lemma refresh_fine now raw meta r s : site_ok s -> fine s (post_refresh now raw meta r s).
Proof.
  intros Hs. unfold post_refresh. destruct raw as [[|c raw]|]; [by apply fine_same| |by apply fine_same].
  destruct (refreshTokenPair _ _ _ _ _) as [[tr|e] d] eqn:E; apply refresh_spec in E as (Eu & Hd & Ht).
  - unfold create_token. destruct (token_expiry now "15m") as [exp|]; [|by apply fine_same]. destruct (Ht tr eq_refl) as (y & Hy & Ey).
    split; simpl; [done|done|done|exists []; by rewrite app_nil_r| |].
    + intros x (z & Hz & ->)%Hd. by apply Hs.
    + intros p [<-|[]]. right. right. simpl. rewrite Ey. by apply Hs.
  - split; simpl; [done|done|done|exists []; by rewrite app_nil_r| |done]. intros x (z & Hz & ->)%Hd. by apply Hs.
Qed.

(** *** Tokens shown to the site *)

Lemma numbered_live s id u : site_ok s -> live_user id (accounts_of s) = Some u -> u_id u = id /\ 1 <= id.
Proof.
  intros Hs Hu. apply live_account_found in Hu as [Hin Hid]. split; [done|]. rewrite <- Hid.
  apply (proj1 (List.Forall_forall _ _) (sk_numbered s Hs) u Hin).
Qed.

Lemma presented_payload now token s p : presented token s -> load_token now token = Ok p ->
  exists p0, In p0 (st_issued s) /\ tk_id p = tk_id p0 /\ tk_scope p = normalizeScope (tk_scope p0).
Proof.
  intros Hp. unfold load_token. destruct (jwt_verify now token) as [p0|[| |]] eqn:E; try done. intros [= <-]. eauto.
Qed.

(** A token of a pending login stands for nobody but an account that has its scope
    as a role. *)
Lemma accepted_payload now token s p u : site_ok s -> presented token s -> load_token now token = Ok p ->
  live_user (tk_id p) (accounts_of s) = Some u ->
  (forall item, In item (scope_items (tk_scope p)) -> In item (u_roles u) \/ item = "user") ->
  justified (st_log s) (tk_id p) \/ (tk_scope p = ScopeList ["2fa_pending"] /\ In "2fa_pending" (u_roles u)).
Proof.
  intros Hs Hpr Hl Hu Hi. destruct (presented_payload _ _ _ _ Hpr Hl) as (p0 & Hin & Eid & Esc).
  destruct (numbered_live s _ u Hs Hu) as (_ & Hpos).
  destruct (sk_tokens s Hs p0 Hin) as [E|[E|Hj]]; [lia| |left; by rewrite Eid].
  right. rewrite Esc, E in Hi |- *. split; [done|]. destruct (Hi "2fa_pending"); [by left|done|done].
Qed.

(** Whoever gets past [load] with a user identifier is logged in, or shows the
    token of a pending login. *)
Lemma load_accepts now token s o a : site_ok s -> presented token s ->
  load now (accounts_of s) false (new_access (Some token)) = (Ok o, a) ->
  getUserId 0 a = 0 \/ justified (st_log s) (getUserId 0 a) \/ (exists t, a_tokenData a = Some t /\ tk_scope t = ScopeList ["2fa_pending"]).
Proof.
  intros Hs Hp. unfold load. destruct (String.eqb_spec token "") as [->|Ht]; [intros [= <- <-]; by left|].
  assert (truthy (a_tokenString (new_access (Some token))) = true) as -> by (by destruct token).
  rewrite init_fresh by done. destruct (load_token now token) as [p|e] eqn:El; [|done].
  destruct (_ || _) eqn:Eu.
  - destruct (live_user (tk_id p) (accounts_of s)) as [u|] eqn:Elu; [|done]. destruct (forallb _ _) eqn:Ef; [|done].
    intros [= <- <-]. right. destruct (numbered_live s _ u Hs Elu) as (_ & Hpos).
    unfold getUserId. simpl. assert (tk_id p =? 0 = false) as -> by lia.
    destruct (accepted_payload now token s p u) as [Hj|[Hsc _]]; [done..|by apply roles_cover|by left|right; by exists p].
  - intros [= <- <-]. left. unfold getUserId. simpl. by destruct (tk_id p =? 0).
Qed.

Lemma token_fine s p : site_ok s -> token_ok (st_log s) p -> fine s (NewToken p, s).
Proof.
  intros Hs Hp. split; simpl; [done|done|done|exists []; by rewrite app_nil_r|apply Hs|]. by intros q [<-|[]].
Qed.

Lemma fresh_fine now token expiry scope s : site_ok s -> presented token s -> fine s (get_fresh now token expiry scope s).
Proof.
  intros Hs Hp. unfold get_fresh. destruct (load _ _ _ _) as [[o|e] a] eqn:El; [|by apply fine_same].
  unfold getFreshToken. destruct (load_accepts _ _ _ _ _ Hs Hp El) as [E|Hj]; [rewrite E; by apply fine_same|].
  destruct (getUserId 0 a =? 0); [by apply fine_same|]. destruct (parseDatePeriod now _); [|by apply fine_same].
  destruct Hj as [Hj|(t & Hat & Hsc)].
  - unfold create_token. destruct (truthy scope && hasScope "admin" a); (destruct (token_expiry now _); [|by apply fine_same]); apply token_fine; try done.
    + destruct (_ || _); [by left|right; by right].
    + right. by right.
  - assert (hasScope "admin" a = false) as -> by (unfold hasScope; rewrite Hat, Hsc; done). rewrite andb_false_r, Hat, Hsc.
    unfold create_token. destruct (token_expiry now _); [|by apply fine_same]. apply token_fine; [done|]. right. by left.
Qed.

Lemma oidc_fine now email s : site_ok s -> fine s (oidc_callback now email s).
Proof.
  intros Hs. unfold oidc_callback. destruct (getTokenFromOAuthClaim _ _ _) as [p|e]; [|by apply fine_same].
  split; simpl; [done|done|by rewrite app_nil_r|eauto|intros x Hx; by apply justified_grows, Hs|].
  intros q [<-|[]]. right. right. exists (Oidc (tk_id p)). split; [apply in_app_iff; right; by left|done].
Qed.

Lemma claim_fine now token meta r s : site_ok s -> presented token s -> fine s (oidc_claim now token meta r s).
Proof.
  intros Hs Hp. unfold oidc_claim. destruct (load_token now token) as [p|e] eqn:El; [|by apply fine_same].
  destruct (negb _) eqn:Esc; [by apply fine_same|]. destruct (find_user (tk_id p) s) as [u|] eqn:Eu; [|by apply fine_same].
  destruct (presented_payload _ _ _ _ Hp El) as (p0 & Hin & Eid & Es). destruct (numbered_live s _ u Hs Eu) as (Euid & Hpos).
  apply open_fine; [done|]. destruct (sk_tokens s Hs p0 Hin) as [E|[E|Hj]]; [lia| |by rewrite Euid, Eid].
  rewrite Es, E in Esc. done.
Qed.

Lemma login_as_fine now token id s : site_ok s -> fine s (login_as now token id s).
Proof.
  intros Hs. unfold login_as. destruct (load _ _ _ _) as [[o|e] a] eqn:El; [|by apply fine_same].
  destruct (can now _ "users:loginas" _ _) as [r1 a1]. destruct (can now _ "users:get" _ _) as [r2 a2].
  destruct r1; [|by apply fine_same]. destruct r2; [|by apply fine_same].
  destruct (first_where _ _) as [u|] eqn:Eu; [|by apply fine_same]. unfold getTokenFromUser, create_token.
  destruct (token_expiry now "1d"); [|by apply fine_same]. apply first_where_Some in Eu as [_ Eu].
  split; simpl; [done|done|by rewrite app_nil_r|eauto|intros x Hx; by apply justified_grows, Hs|].
  intros q [<-|[]]. right. right. exists (Impersonated (getUserId 0 a1) id). split; [apply in_app_iff; right; by left|]. simpl. lia.
Qed.

(** *** The password *)

Definition login_ok (log : list event) (l : login) : Prop := match lg_stage l with Opening _ u => justified log (u_id u) | _ => True end.

(** What a step of a login answers, if it is its last. *)
Definition answer_of (p : progress) : answer := match p with Going _ => TooManyAttempts | Done r => r end.

Lemma fine_logged s s1 events t : site_ok s -> alike s s1 -> fine s (TooManyAttempts, record_ [] events (put_attempts t s1)).
Proof.
  intros [Ht Hs Hc Hg] (Ea & Eg & Ei & El). split; simpl; rewrite ?Ea, ?Eg, ?Ei, ?El, ?app_nil_r; [done..|by exists events| |done].
  intros x Hx. by apply justified_grows, Hs.
Qed.

Lemma fine_answer s s' r : tokens_of r = [] -> fine s (TooManyAttempts, s') -> fine s (r, s').
Proof. intros Hr [Hu Hlg Hi Hl Hs Hp]. split; [done..|]. simpl. by rewrite Hr. Qed.

Lemma advance_fine clock l s p s' : site_ok s -> login_ok (st_log s) l -> advance clock l s = (p, s') ->
  fine s (answer_of p, s') /\ match p with Going st => login_ok (st_log s') (at_stage st l) | Done _ => True end.
Proof.
  intros Hs Hl. unfold advance.
  assert (forall events t, fine s (TooManyAttempts, record_ [] events (put_attempts t s))) as Hlogged by (intros; by apply fine_logged).
  assert (forall events, fine s (TooManyAttempts, record_ [] events s)) as Hrec by (intros events; destruct s; apply (Hlogged events)).
  assert (forall t, fine s (TooManyAttempts, put_attempts t s)) as Hput by (intros t; by apply (alike_fine s (put_attempts t s)); [|apply fine_same; [by apply (alike_ok s)|]]).
  destruct (lg_stage l) as [|[|k rest]|k rest| |data u|data u|data u|[|k rest] e|e|e] eqn:El.
  - intros [= <- <-]. by split.
  - intros [= <- <-]. split; [by apply fine_same|done].
  - destruct (getLoginAttemptState k _ _) as [[count until] old]. destruct (_ <? until); intros [= <- <-]; [split; [by apply fine_same|done]|].
    split; [apply Hrec|]. by destruct old.
  - intros [= <- <-]. by split.
  - intros [= <- <-]. split; [by apply fine_same|]. destruct (rbind _ _) as [[data u]|]; done.
  - intros [= <- <-]. by split.
  - destruct (hasActive2FA (st_factors s) (u_id u)) eqn:E.
    + unfold create_token. destruct (token_expiry clock "5m"); intros [= <- <-]; [|split; [by apply fine_same|done]]. split; [|done].
      split; simpl; [done|done|done|exists []; by rewrite app_nil_r|apply Hs|]. intros q [<-|[]]. right. by left.
    + intros [= <- <-]. split; [apply Hrec|]. exists (Password (u_id u) false). split; [apply in_app_iff; right; by left|done].
  - unfold login_ok in Hl. rewrite El in Hl. pose proof (open_fine clock u (or_default "user" (cd_scope data)) (lg_meta l) (lg_draws l) s Hs Hl) as Hf.
    destruct (open_session _ _ _ _ _ _) as [r s1]. destruct r; intros [= <- <-]; try (by split). split; [|done].
    destruct Hf as [Hu Hlg Hi Hlo Hse Hp]. by split.
  - intros [= <- <-]. split; [by apply fine_same|done].
  - intros [= <- <-]. by split.
  - destruct (snd _); intros [= <- <-]; (split; [by apply fine_same|done]).
  - intros [= <- <-]. split; [|done]. by apply fine_answer.
Qed.

Lemma goes_on_ok clock before l after s : site_ok s -> st_logins s = before ++ l :: after -> site_ok (login_goes_on clock before l after s).
Proof.
  intros Hs Hg. unfold login_goes_on. destruct (advance clock l s) as [p s'] eqn:E.
  assert (login_ok (st_log s) l) as Hl by (apply (sk_logins s Hs); rewrite Hg; apply in_app_iff; right; by left).
  apply advance_fine in E as [[Hu Hlg Hi [more Hlog] Hse Hp] Hst]; [|done..]. simpl in *.
  assert (forall x, In x before \/ In x after -> login_ok (st_log s') x) as Hothers.
  { intros x Hx. rewrite Hlog. apply login_justified_grows, (sk_logins s Hs). rewrite Hg. apply in_app_iff. simpl. tauto. }
  assert (forall q, In q (st_issued s') -> token_ok (st_log s') q) as Hissued by (intros q; rewrite Hi, Hlog; intros Hq; by apply token_ok_grows, Hs).
  assert (numbered (db_users (st_auth s'))) as Hnum by (rewrite Hu; apply Hs).
  destruct p as [st|r]; split; simpl in *; try done.
  - intros x [Hx|[<-|Hx]]%in_app_iff; [apply Hothers; by left|done|apply Hothers; by right].
  - intros q [Hq|Hq]%in_app_iff; [by apply Hissued|by apply Hp].
  - intros x [Hx|Hx]%in_app_iff; apply Hothers; tauto.
Qed.

Lemma site_step_ok patience s s' : site_ok s -> site_step patience s s' -> site_ok s'.
Proof.
  intros Hs Hstep. destruct Hstep as [now ip body meta r s Hn|clock before l after s Hn Hg Hp|s|now token m code nonce meta r s Hn Hp|now token cid response meta r s Hn Hp
    |now cookie code state meta r s Hn|now token expiry scope s Hn Hp|now raw meta r s Hn|now email s Hn|now token meta r s Hn Hp
    |now token id s Hn Hp|f s|rows next s Hr|users perms passwords s Hc].
  - destruct Hs as [Ht Hse Hc Hg]. split; simpl; try done. intros l [Hl|[<-|[]]]%in_app_iff; [by apply Hg|done].
  - by apply goes_on_ok.
  - destruct Hs as [Ht Hse Hc Hg]. by split.
  - by apply (answered_ok _ s), verify_fine.
  - by apply (answered_ok _ s), passkey_fine.
  - by apply (answered_ok _ s), duo_fine.
  - by apply (answered_ok _ s), fresh_fine.
  - by apply (answered_ok _ s), refresh_fine.
  - by apply (answered_ok _ s), oidc_fine.
  - by apply (answered_ok _ s), claim_fine.
  - by apply (answered_ok _ s), login_as_fine.
  - by apply (alike_ok s).
  - destruct Hs as [Ht Hx Hc Hg]. split; simpl; [done| |done|done]. intros x (y & Hy & ->)%Hr. by apply Hx.
  - destruct Hs as [Ht Hx _ Hg]. by split.
Qed.

Lemma site_reachable_ok patience s : reachable site_initial (site_step patience) s -> site_ok s.
Proof.
  apply invariant_reachable; [|apply site_step_ok]. intros s0 (Es & Hc & Ei & _ & Eg & _). split; [by rewrite Ei|by rewrite Es|done|by rewrite Eg].
Qed.

End Required.

(** ** Guessing is throttled *)

(** The failures of an identifier that are counted, latest first: those since its
    last correct password, and since its record was lost. *)
Definition counted_step (k : tracked) (acc : list Z) (e : event) : list Z :=
  match e with
  | Guessed k' now => if key_eqb k k' then now :: acc else acc
  | Cleared keys => if existsb (key_eqb k) keys then [] else acc
  | Lost k' => if key_eqb k k' then [] else acc
  | _ => acc
  end.
Definition counted (k : tracked) (log : list event) : list Z := fold_left (counted_step k) log [].

#[global] Arguments counted : simpl never.

Definition row (k : tracked) (t : list attempt) : option attempt := first_where (of_key k) t.

Section Table.
Implicit Types t : list attempt.
Implicit Types k : tracked.

Lemma key_eqb_eq a b : key_eqb a b = true <-> a = b.
Proof.
  unfold key_eqb. rewrite andb_true_iff, !String.eqb_eq. destruct a, b. simpl. split; [by intros [-> ->]|by intros [= -> ->]].
Qed.

Lemma of_key_eq k r : of_key k r = true <-> at_key r = k.
Proof. apply key_eqb_eq. Qed.

Lemma row_key k t r : row k t = Some r -> at_key r = k.
Proof. intros [_ Hk]%first_where_Some. by apply of_key_eq. Qed.

Lemma row_none k t r : row k t = None -> In r t -> at_key r <> k.
Proof. intros Hn Hin Hk. apply (first_where_None _ _ _ Hn) in Hin. apply of_key_eq in Hk. congruence. Qed.

Lemma row_delete p k t : List.NoDup (map at_key t) ->
  row k (delete_where p t) = match row k t with Some r => if p r then None else Some r | None => None end.
Proof.
  unfold row, delete_where. induction t as [|x t IH]; [done|]. simpl. intros Hnd. inversion Hnd as [|? ? Hx Hnd']; subst.
  specialize (IH Hnd'). destruct (of_key k x) eqn:Ek.
  - destruct (p x) eqn:Ep; simpl; [|by rewrite Ek]. rewrite IH. destruct (first_where (of_key k) t) as [r|] eqn:Er; [|done].
    apply first_where_Some in Er as [Hin Hk]. apply of_key_eq in Ek, Hk. destruct Hx. rewrite Ek, <- Hk. by apply in_map.
  - destruct (p x); simpl; [done|]. by rewrite Ek.
Qed.

Lemma row_drop k k' t : row k (delete_where (of_key k') t) = if key_eqb k k' then None else row k t.
Proof.
  unfold row, delete_where. induction t as [|x t IH]; simpl; [by destruct (key_eqb k k')|].
  destruct (of_key k' x) eqn:Ek'; simpl.
  - rewrite IH. destruct (key_eqb k k') eqn:Ekk; [done|]. destruct (of_key k x) eqn:Ek; [|done].
    apply of_key_eq in Ek, Ek'. assert (k = k') by congruence. apply key_eqb_eq in H. congruence.
  - rewrite IH. destruct (of_key k x) eqn:Ek; [|done]. destruct (key_eqb k k') eqn:Ekk; [|done].
    apply key_eqb_eq in Ekk as ->. congruence.
Qed.

Lemma row_clear k keys t : Forall (fun k => snd k <> "") keys ->
  row k (clearLoginAttempts keys t) = if existsb (key_eqb k) keys then None else row k t.
Proof.
  intros Hk. unfold clearLoginAttempts. assert (List.filter (fun k => negb (String.eqb (snd k) "")) keys = keys) as ->.
  { induction Hk as [|x l Hx Hl IH]; [done|]. simpl. apply String.eqb_neq in Hx. rewrite Hx. simpl. by f_equal. }
  destruct keys as [|k0 keys]; [done|]. cbn [length Nat.eqb]. generalize (k0 :: keys) as ks. intros ks.
  unfold row, delete_where. induction t as [|x t IH]; simpl; [by destruct (existsb _ ks)|].
  destruct (existsb (fun k1 => of_key k1 x) ks) eqn:Ex; simpl; rewrite IH; destruct (of_key k x) eqn:Ek; try done.
  - destruct (existsb (key_eqb k) ks) eqn:Ekk; [done|]. apply existsb_exists in Ex as (k1 & Hin & E1).
    apply of_key_eq in Ek, E1. assert (existsb (key_eqb k) ks = true); [|congruence].
    apply existsb_exists. exists k1. split; [done|]. apply key_eqb_eq. congruence.
  - destruct (existsb (key_eqb k) ks) eqn:Ekk; [|done]. apply existsb_exists in Ekk as (k1 & Hin & ->%key_eqb_eq).
    assert (existsb (fun k1 => of_key k1 x) ks = true); [|congruence]. apply existsb_exists. eauto.
Qed.

Lemma account_row_patch k k' now t :
  row k (patch_where (of_key k') (merge_attempt now) t) = if key_eqb k k' then option_map (merge_attempt now) (row k t) else row k t.
Proof.
  unfold row, patch_where. induction t as [|x t IH]; simpl; [by destruct (key_eqb k k')|].
  destruct (of_key k' x) eqn:Ek'; simpl.
  - change (of_key k (merge_attempt now x)) with (of_key k x). rewrite IH. destruct (of_key k x) eqn:Ek; [|by destruct (key_eqb k k')].
    apply of_key_eq in Ek, Ek'. subst. assert (key_eqb (at_key x) (at_key x) = true) as -> by (by apply key_eqb_eq). done.
  - rewrite IH. destruct (of_key k x) eqn:Ek; [|done]. destruct (key_eqb k k') eqn:Ekk; [|done].
    apply key_eqb_eq in Ekk as ->. congruence.
Qed.

Lemma row_app k t r : row k (t ++ [r]) = match row k t with Some x => Some x | None => if of_key k r then Some r else None end.
Proof. unfold row. induction t as [|x t IH]; [done|]. simpl. by destruct (of_key k x). Qed.

Lemma row_register k k' now t :
  row k (registerFailedLoginAttempt k' now t) =
  if key_eqb k k' then Some (match row k t with Some r => merge_attempt now r | None => MkAttempt k 1 now now 0 end) else row k t.
Proof.
  unfold registerFailedLoginAttempt. destruct (existsb (of_key k') t) eqn:Ex.
  - rewrite account_row_patch. destruct (key_eqb k k') eqn:Ekk; [|done]. apply key_eqb_eq in Ekk as ->.
    destruct (row k' t) as [r|] eqn:Er; [done|]. apply existsb_exists in Ex as (r & Hin & Hk).
    by apply (row_none _ _ _ Er) in Hin; apply of_key_eq in Hk.
  - rewrite row_app. unfold of_key at 1. simpl. destruct (row k t) as [r|] eqn:Er.
    + destruct (key_eqb k k') eqn:Ekk; [|done]. apply key_eqb_eq in Ekk as ->. apply first_where_Some in Er as [Hin Hk].
      assert (existsb (of_key k') t = true); [|congruence]. apply existsb_exists. eauto.
    + destruct (key_eqb k k') eqn:Ekk.
      * apply key_eqb_eq in Ekk as ->. by assert (key_eqb k' k' = true) as -> by (by apply key_eqb_eq).
      * destruct (key_eqb k' k) eqn:E2; [|done]. apply key_eqb_eq in E2 as ->.
        assert (key_eqb k k = true) by (by apply key_eqb_eq). congruence.
Qed.

Lemma register_nodup k now t : List.NoDup (map at_key t) -> List.NoDup (map at_key (registerFailedLoginAttempt k now t)).
Proof.
  intros Hnd. unfold registerFailedLoginAttempt. destruct (existsb (of_key k) t) eqn:Ex.
  - by rewrite map_patch.
  - apply key_fresh_app; [done|]. simpl. intros (r & Er & Hin)%in_map_iff.
    assert (existsb (of_key k) t = true); [|congruence]. apply existsb_exists. exists r. split; [done|]. by apply of_key_eq.
Qed.

End Table.

Notation W := LOGIN_ATTEMPT_WINDOW_MS.

Section Throttle.
Context (patience : Z).
Implicit Types t : list attempt.
Implicit Types k : tracked.

(** How many of some failures lie, at an instant, within the window shortened by
    what a login may take. *)
Definition is_recent (now a : Z) : bool := now - (W - patience) <? a.
Definition recent (now : Z) (fs : list Z) : Z := Z.of_nat (length (List.filter (is_recent now) fs)).

Lemma recent_later now now' fs : now <= now' -> recent now' fs <= recent now fs.
Proof.
  intros Hle. unfold recent. induction fs as [|a fs IH]; [done|]. simpl. destruct (is_recent now' a) eqn:E'; simpl.
  - assert (is_recent now a = true) as -> by (unfold is_recent in *; lia). simpl. lia.
  - destruct (is_recent now a); simpl; lia.
Qed.

Lemma recent_none now fs : Forall (fun a => a <= now - (W - patience)) fs -> recent now fs = 0.
Proof.
  intros Hall. unfold recent. induction Hall as [|a fs Ha Hall IH]; [done|]. simpl.
  assert (is_recent now a = false) as -> by (unfold is_recent; lia). done.
Qed.

Lemma recent_cons now a fs : recent now (a :: fs) <= recent now fs + 1.
Proof. unfold recent. simpl. destruct (is_recent now a); simpl; lia. Qed.

(** The record counts at least the recent failures, and is as old as the last
    that was registered; the others began before or at most [patience] later. *)
Record throttle_ok (now : Z) (fs : list Z) (o : option attempt) : Prop := MkThrottle {
  th_now : Forall (fun a => a <= now) fs;
  th_row : match o with
           | None => Forall (fun a => a <= now - (W - patience)) fs
           | Some r => recent now fs <= at_count r /\ at_last r <= now /\ Forall (fun a => a < at_last r + patience) fs /\
               at_blocked r = (if LOGIN_ATTEMPT_LIMIT <=? at_count r then at_last r + LOGIN_ATTEMPT_BLOCK_MS else 0)
           end
}.

Lemma throttle_start now : throttle_ok now [] None.
Proof. by split. Qed.

Lemma throttle_later now now' fs o : now <= now' -> throttle_ok now fs o -> throttle_ok now' fs o.
Proof.
  intros Hle [Hn Hr]. split; [eapply Forall_impl; [exact Hn|]; simpl; lia|]. destruct o as [r|].
  - destruct Hr as (Hc & Hl & Hall & Hb). split_and!; [pose proof (recent_later _ _ fs Hle); lia|lia|done|done].
  - eapply Forall_impl; [exact Hr|]. simpl. lia.
Qed.

(** A record that was old at an earlier instant may go. *)
Lemma throttle_dropped now began fs r : began <= now -> W <= began - at_last r -> throttle_ok now fs (Some r) -> throttle_ok now fs None.
Proof. intros Hle Hw [Hn (_ & _ & Hall & _)]. split; [done|]. eapply Forall_impl; [exact Hall|]. simpl. lia. Qed.

(** One more failure of a login that began at [a]. *)
Lemma throttle_fails now a fs o k : a <= now < a + patience -> throttle_ok now fs o ->
  throttle_ok now (a :: fs) (Some (match o with Some r => merge_attempt a r | None => MkAttempt k 1 a a 0 end)).
Proof.
  intros Ha [Hn Hr]. split; [constructor; [lia|done]|].
  assert (Forall (fun x => x < a + patience) (a :: fs)) as Hnear by (constructor; [lia|eapply Forall_impl; [exact Hn|]; simpl; lia]).
  pose proof (recent_cons now a fs) as Hcons. destruct o as [r|].
  - destruct Hr as (Hc & Hl & Hall & Hb). unfold merge_attempt. destruct (Z.leb_spec W (a - at_last r)) as [Hw|Hw]; simpl; split_and!; try done; try lia.
    rewrite (recent_none now fs) in Hcons; [lia|]. eapply Forall_impl; [exact Hall|]. simpl. lia.
  - simpl. rewrite (recent_none now fs) in Hcons by done. by split_and!; [lia|lia|..].
Qed.

(** A check that a login passes. *)
Lemma throttle_admits now began k t fs : began <= now -> throttle_ok now fs (row k t) ->
  (began <? snd (fst (getLoginAttemptState k began t))) = false -> recent now fs <= 4.
Proof.
  intros Hle [_ Hr]. unfold getLoginAttemptState. unfold row in Hr. destruct (first_where (of_key k) t) as [r|]; [|rewrite recent_none by done; lia].
  destruct Hr as (Hc & Hl & Hall & Hb). destruct (Z.ltb_spec began (at_blocked r)); simpl; [lia|].
  destruct (Z.leb_spec W (began - at_last r)) as [Hw|Hw]; simpl; intros _.
  - rewrite recent_none; [lia|]. eapply Forall_impl; [exact Hall|]. simpl. lia.
  - unfold LOGIN_ATTEMPT_LIMIT, LOGIN_ATTEMPT_BLOCK_MS, LOGIN_ATTEMPT_WINDOW_MS in *. destruct (Z.leb_spec 5 (at_count r)); lia.
Qed.

Lemma state_old k began t : snd (getLoginAttemptState k began t) = true -> exists r, row k t = Some r /\ W <= began - at_last r.
Proof.
  unfold getLoginAttemptState, row. destruct (first_where (of_key k) t) as [r|]; [|done]. destruct (_ <? _); [done|].
  destruct (Z.leb_spec W (began - at_last r)); [|done]. by exists r.
Qed.

Lemma throttle_cleanup now began k t fs : began <= now -> List.NoDup (map at_key t) -> throttle_ok now fs (row k t) ->
  throttle_ok now fs (row k (cleanupExpiredLoginAttempts began t)).
Proof.
  intros Hle Hnd Ht. unfold cleanupExpiredLoginAttempts. rewrite row_delete by done. destruct (row k t) as [r|]; [|done].
  destruct (_ && _) eqn:E; [|done]. apply (throttle_dropped now began fs r); [done|lia|done].
Qed.

(** *** The log *)

(** Whenever an identifier was admitted, at most four recent failures counted. *)
Definition admissions_ok (log : list event) : Prop := forall i k clock,
  log !! i = Some (Passed k clock) -> recent clock (counted k (take i log)) <= 4.

Definition admission (log : list event) (e : event) : Prop := match e with Passed k clock => recent clock (counted k log) <= 4 | _ => True end.

Lemma admissions_snoc log e : admissions_ok log -> admission log e -> admissions_ok (log ++ [e]).
Proof.
  intros Hlog He i k clock Hi. apply lookup_app_Some in Hi as [Hi|[Hlen Hi]].
  - rewrite take_app_le by (apply lookup_lt_Some in Hi; lia). by apply Hlog.
  - destruct (i - length log)%nat as [|m] eqn:E; [|done]. simpl in Hi. injection Hi as ->.
    assert (i = length log) as -> by lia. by rewrite take_app_length.
Qed.

Lemma admissions_app log more : admissions_ok log -> Forall (fun e => match e with Passed _ _ => False | _ => True end) more -> admissions_ok (log ++ more).
Proof.
  intros Hlog Hm. revert log Hlog. induction Hm as [|e more He Hm IH]; intros log Hlog; [by rewrite app_nil_r|].
  rewrite (app_assoc log [e] more : log ++ e :: more = _). apply IH, admissions_snoc; [done|]. by destruct e.
Qed.

Lemma counted_app k log more : counted k (log ++ more) = fold_left (counted_step k) more (counted k log).
Proof. apply fold_left_app. Qed.
End Throttle.

Section Quiet.
Context {F : Type} `{AuthEnv} `{Jwt} `{Ajv} `{LoginEnv} `{SecondFactor F}.
Implicit Types s : site F.

(** Events of an account, which leave the attempts alone. *)
Definition of_account (e : event) : Prop := match e with Password _ _ | Factor _ | Oidc _ | Impersonated _ _ => True | _ => False end.

Definition quiet s (out : answer * site F) : Prop :=
  st_attempts (snd out) = st_attempts s /\ st_logins (snd out) = st_logins s /\
  exists more, st_log (snd out) = st_log s ++ more /\ Forall of_account more.

Lemma quiet_same s res : quiet s (res, s).
Proof. split; [done|]. split; [done|]. exists []. by rewrite app_nil_r. Qed.

Lemma quiet_record s res s1 e : of_account e -> quiet s (res, s1) -> quiet s (res, record_ [] [e] s1).
Proof.
  intros He (Ea & Eg & more & El & Hm). unfold quiet. simpl in *. split; [done|]. split; [done|]. exists (more ++ [e]). rewrite El, <- app_assoc.
  split; [done|]. apply Forall_app. by split; [|constructor].
Qed.

(** Everything but POST /tokens leaves the attempts alone. *)
Ltac quiet_stays := split; [done|split; [done|exists []; split; [by rewrite app_nil_r|constructor]]].
Ltac quiet_tac := repeat case_match; simplify_eq; first [by apply quiet_record, quiet_same | quiet_stays].

Lemma open_quiet now u scope meta r s : quiet s (open_session now u scope meta r s).
Proof. unfold open_session, create_token. quiet_tac. Qed.

Lemma factor_quiet now id meta r s : quiet s (session_after_factor now id meta r s).
Proof.
  unfold session_after_factor. destruct (find_user id s) as [u|]; [|apply quiet_same].
  pose proof (open_quiet now u "user" meta r s) as Hq. destruct (open_session _ _ _ _ _ _) as [[] s']; try done.
  by apply quiet_record.
Qed.

Lemma verify_quiet now token m code nonce meta r s : quiet s (post_verify now token m code nonce meta r s).
Proof.
  unfold post_verify. destruct (String.eqb code ""); [quiet_stays|]. destruct (loadPendingTwoFaToken now token) as [p|]; [|quiet_stays].
  destruct (login_challenge _ _ _ _ _ _) as [[[|]|] f]; try quiet_stays. apply (factor_quiet now (tk_id p) meta r (set_factors f s)).
Qed.

Lemma passkey_quiet now token cid response meta r s : quiet s (post_passkey now token cid response meta r s).
Proof.
  unfold post_passkey. destruct (_ || _); [quiet_stays|]. destruct (loadPendingTwoFaToken now token) as [p|]; [|quiet_stays].
  destruct (passkey_challenge _ _ _ _ _) as [[|] f]; try quiet_stays. apply (factor_quiet now (tk_id p) meta r (set_factors f s)).
Qed.

Lemma duo_quiet now cookie code state meta r s : quiet s (post_duo now cookie code state meta r s).
Proof.
  unfold post_duo. destruct (_ || _); [quiet_stays|]. destruct cookie as [[|c cookie]|]; [quiet_stays| |quiet_stays].
  destruct (duo_challenge _ _ _ _ _) as [[[id|]|] f]; try quiet_stays. apply (factor_quiet now id meta r (set_factors f s)).
Qed.

Lemma fresh_quiet now token expiry scope s : quiet s (get_fresh now token expiry scope s).
Proof. unfold get_fresh. destruct (load _ _ _ _) as [[o|e] a]; quiet_stays. Qed.

Lemma refresh_quiet now raw meta r s : quiet s (post_refresh now raw meta r s).
Proof. unfold post_refresh. quiet_tac. Qed.

Lemma oidc_quiet now email s : quiet s (oidc_callback now email s).
Proof. unfold oidc_callback. quiet_tac. Qed.

Lemma claim_quiet now token meta r s : quiet s (oidc_claim now token meta r s).
Proof.
  unfold oidc_claim. destruct (load_token now token); [|quiet_stays]. destruct (negb _); [quiet_stays|]. destruct (find_user _ s); [|quiet_stays].
  apply open_quiet.
Qed.

Lemma login_as_quiet now token id s : quiet s (login_as now token id s).
Proof.
  unfold login_as. destruct (load _ _ _ _) as [[o|e] a]; [|quiet_stays]. destruct (can now _ "users:loginas" _ _) as [r1 a1].
  destruct (can now _ "users:get" _ _) as [r2 a2]. quiet_tac.
Qed.

(** *** The throttle and the log *)

Context (patience : Z).

(** The identifiers that a login has still to check. *)
Definition to_check (l : login) : list tracked :=
  match lg_stage l with Cleaning => lg_keys l | Checking rest | Dropping _ rest => rest | _ => [] end.
Definition admitted (log : list event) (l : login) (k : tracked) : Prop :=
  exists i clock, log !! i = Some (Passed k clock) /\ lg_now l <= clock.

Record attempts_ok s : Prop := MkAttemptsOk {
  ak_keys : List.NoDup (map at_key (st_attempts s));
  ak_rows : forall k, throttle_ok patience (st_now s) (counted k (st_log s)) (row k (st_attempts s));
  ak_log : admissions_ok patience (st_log s);
  ak_logins : forall l, In l (st_logins s) -> lg_now l <= st_now s /\ lg_ip l <> "" /\ forall k, In k (lg_keys l) -> In k (to_check l) \/ admitted (st_log s) l k
}.

Lemma admitted_grows log more l k : admitted log l k -> admitted (log ++ more) l k.
Proof. intros (i & clock & Hi & Hl). exists i, clock. split; [|done]. apply lookup_app_l_Some. done. Qed.

Lemma account_events k more acc : Forall of_account more -> fold_left (counted_step k) more acc = acc.
Proof. induction 1 as [|e more He Hm IH]; [done|]. simpl. by destruct e. Qed.

Lemma answered_quiet now s out : st_now s <= now -> quiet s out -> attempts_ok s -> attempts_ok (answered now out).
Proof.
  destruct out as [res s']. intros Hn (Ea & Eg & more & El & Hm) [Hk Hr Hlog Hl]. simpl in *. split; simpl.
  - by rewrite Ea.
  - intros k. rewrite Ea, El, counted_app, account_events by done. by apply (throttle_later _ (st_now s)).
  - rewrite El. apply admissions_app; [done|]. eapply Forall_impl; [exact Hm|]. by intros [].
  - intros l. rewrite Eg, El. intros (Hln & Hip & Hadm)%Hl. split; [lia|]. split; [done|]. intros k Hin. destruct (Hadm k Hin) as [?|?]; [by left|right; by apply admitted_grows].
Qed.

(** *** A login goes on *)

Lemma tracked_names ip body : ip <> "" -> Forall (fun k => snd k <> "") (trackedIdentifiers ip body).
Proof.
  intros Hip. unfold trackedIdentifiers. destruct (normalizeLoginIdentifier body) as [i|] eqn:E; [|by constructor].
  constructor; [done|]. constructor; [|done]. simpl. intros ->. unfold normalizeLoginIdentifier in E.
  assert (forall v : value, match text_of v with Some s => if String.eqb (trim s) "" then None else Some (to_lower (trim s)) | None => None end <> Some "") as Hv.
  { intros v Hv. destruct (text_of v) as [t|]; [|done]. destruct (String.eqb_spec (trim t) ""); [done|]. injection Hv as Hv.
    pose proof (to_lower_length (trim t)) as Hl. rewrite Hv in Hl. by destruct (trim t). }
  pose proof (Hv (get "identity" body)). pose proof (Hv (get "email" body)). pose proof (Hv (get "username" body)).
  repeat case_match; simplify_eq; done.
Qed.

(** What one statement of a login does to the attempts and to the log. *)
Record moves clock l s (p : progress) s' : Prop := MkMoves {
  mv_keys : List.NoDup (map at_key (st_attempts s'));
  mv_rows : forall k, throttle_ok patience clock (counted k (st_log s')) (row k (st_attempts s'));
  mv_log : admissions_ok patience (st_log s');
  mv_more : exists more, st_log s' = st_log s ++ more;
  mv_check : forall st, p = Going st -> forall k, In k (lg_keys l) -> In k (to_check (at_stage st l)) \/ admitted (st_log s') l k
}.

(** A step that writes the attempts and logs one event of theirs. *)
Lemma moves_write clock l s p t events : attempts_ok s -> st_now s <= clock -> List.NoDup (map at_key t) ->
  (forall k, throttle_ok patience clock (fold_left (counted_step k) events (counted k (st_log s))) (row k t)) ->
  Forall (fun e => match e with Passed _ _ => False | _ => True end) events ->
  (forall st, p = Going st -> forall k, In k (lg_keys l) -> In k (to_check (at_stage st l)) \/ admitted (st_log s) l k) ->
  moves clock l s p (record_ [] events (put_attempts t s)).
Proof.
  intros [Hk Hr Hlog Hl] Hn Hnd Hrows He Hc. split; simpl; [done| |by apply admissions_app|by exists events|].
  - intros k. rewrite counted_app. apply Hrows.
  - intros st Hst k Hin. destruct (Hc st Hst k Hin) as [?|?]; [by left|right; by apply admitted_grows].
Qed.

(** A step that does neither. *)
Lemma moves_stay clock l s p s' more : attempts_ok s -> st_now s <= clock -> st_attempts s' = st_attempts s -> st_log s' = st_log s ++ more -> Forall of_account more ->
  (forall st, p = Going st -> forall k, In k (lg_keys l) -> In k (to_check (at_stage st l)) \/ admitted (st_log s) l k) -> moves clock l s p s'.
Proof.
  intros [Hk Hr Hlog Hl] Hn Ea El Hm Hc. split; rewrite ?Ea, ?El; [done| | |by exists more|].
  - intros k. rewrite counted_app, account_events by done. by apply (throttle_later _ (st_now s)).
  - apply admissions_app; [done|]. eapply Forall_impl; [exact Hm|]. by intros [].
  - intros st Hst k Hin. destruct (Hc st Hst k Hin) as [?|?]; [by left|right; by apply admitted_grows].
Qed.

Lemma row_dropped k k' began clock t fs : lg_now began <= clock -> throttle_ok patience clock fs (row k t) ->
  throttle_ok patience clock (fold_left (counted_step k) (lost k' (lg_now began) t) fs) (row k (drop_attempts k' t)).
Proof.
  intros Hle Ht. unfold drop_attempts, lost. rewrite row_drop. fold (row k' t). destruct (key_eqb k k') eqn:E.
  - apply key_eqb_eq in E as ->. destruct (row k' t) as [r|] eqn:Er; [|done].
    destruct (Z.leb_spec W (lg_now began - at_last r)) as [Hw|Hw]; simpl; [by eapply throttle_dropped|].
    assert (key_eqb k' k' = true) as -> by (by apply key_eqb_eq). apply throttle_start.
  - destruct (row k' t) as [r|]; [|done]. destruct (_ <=? _); [done|]. simpl. by rewrite E.
Qed.

Lemma advance_moves clock l s p s' : attempts_ok s -> st_now s <= clock < lg_now l + patience -> In l (st_logins s) ->
  advance clock l s = (p, s') -> moves clock l s p s' /\ st_logins s' = st_logins s.
Proof.
  intros Hs Hn Hin. pose proof Hs as [Hk Hr Hlog Hlg]. destruct (Hlg l Hin) as (Hle & Hip & Hadm).
  assert (forall k, throttle_ok patience clock (counted k (st_log s)) (row k (st_attempts s))) as Hr' by (intros k; apply (throttle_later _ (st_now s)); [lia|done]).
  assert (forall st p1, p1 = Going st -> to_check (at_stage st l) = to_check l -> forall k, In k (lg_keys l) -> In k (to_check (at_stage st l)) \/ admitted (st_log s) l k) as Hsame
    by (intros st p1 _ ->; exact Hadm).
  unfold advance. destruct (lg_stage l) as [|[|k rest]|k rest| |data u|data u|data u|[|k rest] e|e|e] eqn:El.
  all: assert (to_check l = match lg_stage l with Cleaning => lg_keys l | Checking rest | Dropping _ rest => rest | _ => [] end) as Htc by done; rewrite El in Htc.
  - intros [= <- <-]. split; [|done].
    replace (put_attempts _ s) with (record_ [] [] (put_attempts (cleanupExpiredLoginAttempts (lg_now l) (st_attempts s)) s)) by (unfold record_, put_attempts; simpl; by rewrite !app_nil_r).
    apply moves_write; try done; [lia|by apply NoDup_map_delete|intros k; apply throttle_cleanup; [lia|done|apply Hr']|].
    intros st [= <-]. by eapply Hsame.
  - intros [= <- <-]. split; [|done]. apply (moves_stay _ _ _ _ _ []); try done; [lia|by rewrite app_nil_r|]. intros st [= <-]. by eapply Hsame.
  - destruct (getLoginAttemptState k (lg_now l) (st_attempts s)) as [[count until] old] eqn:Eg.
    destruct (lg_now l <? until) eqn:Eb; intros [= <- <-]; (split; [|done]).
    { apply (moves_stay _ _ _ _ _ []); try done; [lia|by rewrite app_nil_r]. }
    assert (recent patience clock (counted k (st_log s)) <= 4) as Hrec by (apply (throttle_admits patience clock (lg_now l) k (st_attempts s)); [lia|done|by rewrite Eg]).
    split; simpl; [done| |by apply admissions_snoc|by eexists|].
    + intros k1. rewrite counted_app. apply Hr'.
    + intros st [= <-] k1 Hk1. destruct (Hadm k1 Hk1) as [Hc|Ha]; [|right; by apply admitted_grows].
      rewrite Htc in Hc. destruct Hc as [<-|Hc]; [right|left; by destruct old].
      exists (length (st_log s)), clock. split; [by apply list_lookup_middle|lia].
  - intros [= <- <-]. split; [|done]. apply moves_write; try done; [lia|by apply NoDup_map_delete| | |].
    + intros k1. apply row_dropped; [lia|apply Hr'].
    + unfold lost. repeat case_match; by repeat constructor.
    + intros st [= <-]. by eapply Hsame.
  - intros [= <- <-]. split; [|done]. apply (moves_stay _ _ _ _ _ []); try done; [lia|by rewrite app_nil_r|]. intros st [= <-]. eapply Hsame; [done|].
    rewrite Htc. by destruct (rbind _ _) as [[]|].
  - intros [= <- <-]. split; [|done]. apply moves_write; try done; [lia| | |by repeat constructor|intros st [= <-]; by eapply Hsame].
    + unfold clearLoginAttempts. destruct (Nat.eqb _ 0); [done|]. by apply NoDup_map_delete.
    + intros k. rewrite row_clear by by apply tracked_names. cbn [fold_left counted_step]. destruct (existsb (key_eqb k) (lg_keys l)); [apply throttle_start|apply Hr'].
  - destruct (hasActive2FA (st_factors s) (u_id u)).
    + destruct (create_token _ _ _ _); intros [= <- <-]; (split; [|done]); apply (moves_stay _ _ _ _ _ []); try done; try lia; try (by rewrite app_nil_r); intros st [= <-]; by eapply Hsame.
    + intros [= <- <-]. split; [|done]. apply (moves_stay _ _ _ _ _ [Password (u_id u) false]); try done; try lia; try by repeat constructor.
      intros st [= <-]. by eapply Hsame.
  - pose proof (open_quiet clock u (or_default "user" (cd_scope data)) (lg_meta l) (lg_draws l) s) as (Ea & Eg & more & Elog & Hm).
    destruct (open_session _ _ _ _ _ _) as [r s1]. simpl in *.
    assert (forall p1 : progress, (forall st, p1 = Going st -> to_check (at_stage st l) = to_check l) -> moves clock l s p1 s1 /\ st_logins s1 = st_logins s) as Hp.
    { intros p1 Hp1. split; [|done]. apply (moves_stay _ _ _ _ _ more); try done; [lia|]. intros st Hst. by eapply Hsame; [|apply Hp1]. }
    destruct r; intros [= <- <-]; apply Hp; [by intros st [=]..|]. intros st [= <-]. by rewrite Htc.
  - intros [= <- <-]. split; [|done]. apply (moves_stay _ _ _ _ _ []); try done; [lia|by rewrite app_nil_r|]. intros st [= <-]. by eapply Hsame.
  - intros [= <- <-]. split; [|done]. apply moves_write; try done; [lia|by apply register_nodup| |by repeat constructor|intros st [= <-]; by eapply Hsame].
    intros k1. rewrite row_register. simpl. destruct (key_eqb k1 k) eqn:Ek; [|apply Hr']. apply throttle_fails; [lia|apply Hr'].
  - destruct (snd _); intros [= <- <-]; (split; [|done]); apply (moves_stay _ _ _ _ _ []); try done; try lia; try (by rewrite app_nil_r); intros st [= <-]; by eapply Hsame.
  - intros [= <- <-]. split; [|done]. apply moves_write; try done; [lia|by apply NoDup_map_delete| |].
    + intros k1. apply row_dropped; [lia|apply Hr'].
    + unfold lost. repeat case_match; by repeat constructor.
Qed.

Lemma goes_on_attempts clock before l after s : attempts_ok s -> st_now s <= clock -> st_logins s = before ++ l :: after -> clock < lg_now l + patience ->
  attempts_ok (login_goes_on clock before l after s).
Proof.
  intros Hs Hn Hg Hp. unfold login_goes_on. destruct (advance clock l s) as [p s'] eqn:E.
  assert (In l (st_logins s)) as Hin by (rewrite Hg; apply in_app_iff; right; by left).
  apply advance_moves in E as [[Hk Hr Hlog [more Hmore] Hc] Hlg]; [|done..].
  assert (forall x, In x before \/ In x after -> lg_now x <= clock /\ lg_ip x <> "" /\ forall k, In k (lg_keys x) -> In k (to_check x) \/ admitted (st_log s') x k) as Hothers.
  { intros x Hx. destruct (ak_logins s Hs x) as (Hx1 & Hx2 & Hx3); [rewrite Hg; apply in_app_iff; simpl; tauto|]. split; [lia|]. split; [done|].
    intros k Hkx. rewrite Hmore. destruct (Hx3 k Hkx) as [?|?]; [by left|right; by apply admitted_grows]. }
  destruct (ak_logins s Hs l Hin) as (Hl1 & Hl2 & _). destruct p as [st|r]; split; simpl in *; try done.
  - intros x [Hx|[<-|Hx]]%in_app_iff; [apply Hothers; by left| |apply Hothers; by right]. simpl. split; [lia|]. split; [done|]. by apply Hc.
  - intros x [Hx|Hx]%in_app_iff; apply Hothers; tauto.
Qed.

Lemma site_step_attempts s s' : attempts_ok s -> site_step patience s s' -> attempts_ok s'.
Proof.
  intros Hs Hstep. destruct Hstep as [now ip body meta r s Hn|clock before l after s Hn Hg Hp|s|now token m code nonce meta r s Hn Hp|now token cid response meta r s Hn Hp
    |now cookie code state meta r s Hn|now token expiry scope s Hn Hp|now raw meta r s Hn|now email s Hn|now token meta r s Hn Hp
    |now token id s Hn Hp|f s|rows next s Hr|users perms passwords s Hc].
  - destruct Hs as [Hk Hr Hlog Hl]. split; simpl; try done; [intros k; by apply (throttle_later _ (st_now s))|].
    intros l [(Hx1 & Hx2 & Hx3)%Hl|[<-|[]]]%in_app_iff; [by split; [lia|]|]. simpl. split; [lia|]. split; [unfold or_default; by destruct ip as [[|]|]|]. intros k Hin. by left.
  - by apply goes_on_attempts.
  - destruct Hs as [Hk Hr Hlog Hl]. by split.
  - by apply (answered_quiet _ s); [|apply verify_quiet|].
  - by apply (answered_quiet _ s); [|apply passkey_quiet|].
  - by apply (answered_quiet _ s); [|apply duo_quiet|].
  - by apply (answered_quiet _ s); [|apply fresh_quiet|].
  - by apply (answered_quiet _ s); [|apply refresh_quiet|].
  - by apply (answered_quiet _ s); [|apply oidc_quiet|].
  - by apply (answered_quiet _ s); [|apply claim_quiet|].
  - by apply (answered_quiet _ s); [|apply login_as_quiet|].
  - by destruct Hs.
  - by destruct Hs.
  - by destruct Hs.
Qed.

Lemma site_reachable_attempts s : reachable site_initial (site_step patience) s -> attempts_ok s.
Proof.
  apply invariant_reachable; [|apply site_step_attempts]. intros s0 (_ & _ & _ & Ea & Eg & El).
  split; rewrite ?Ea, ?El, ?Eg; [constructor|intros k; apply throttle_start|by intros i k clock|by intros l []].
Qed.

End Quiet.
