(* ===== verification/Users.v ===== *)
(** Accounts: src/backend/internal/user.js with POST /users of
    src/backend/routes/users.js, lib/auth-password.js, [isSetup] and
    [setupDefaultUser] of setup.js and [resetPassword] of password-reset.js.

    A handler is a plan - the checks up to its first write, made on the state it
    reads - and the write, made on whatever state there is by then; another
    request may come in between.  The check of a token is that of Access, the rows
    of passwords and the login are those of Login, the sessions those of Sessions.
    What changes the table of e-mail addresses is one transaction under a row lock.
    The password hash and the rendering of avatars are parameters. *)

From stdpp Require Import gmap strings.
From S2P Require Import Prelude JsString Errors JsValue Steps Sessions Access Login.
#[local] Open Scope string_scope.
#[local] Open Scope list_scope.
#[local] Open Scope Z_scope.

(** ** Data *)

(** A row of [user]: what the other components read, and the avatar. *)
Record profile : Type := MkProfile { pr_user : Sessions.user; pr_avatar_type : string; pr_avatar_value : option string }.

Abbreviation p_id p := (u_id (pr_user p)).
Abbreviation p_email p := (u_email (pr_user p)).
Abbreviation p_deleted p := (u_is_deleted (pr_user p)).

(** The tables, the row of the default site, and the files below avatars/. *)
Record office : Type := MkOffice {
  of_profiles : list profile;
  of_next : Z;
  of_ready : bool;
  of_passwords : list auth;
  of_permissions : list (Z * permissions);
  of_sessions : list session;
  of_files : gmap string string
}.

Definition users_of (o : office) : list Sessions.user := map pr_user (of_profiles o).
Definition accounts_in (o : office) : accounts := MkAccounts (users_of o) (of_permissions o).

Definition set_profiles ps next (o : office) : office := MkOffice ps next (of_ready o) (of_passwords o) (of_permissions o) (of_sessions o) (of_files o).
Definition set_passwords rows sessions (o : office) : office := MkOffice (of_profiles o) (of_next o) (of_ready o) rows (of_permissions o) sessions (of_files o).
Definition set_permission_rows rows (o : office) : office := MkOffice (of_profiles o) (of_next o) (of_ready o) (of_passwords o) rows (of_sessions o) (of_files o).
Definition set_avatar_files files (o : office) : office := MkOffice (of_profiles o) (of_next o) (of_ready o) (of_passwords o) (of_permissions o) (of_sessions o) files.

(** The bodies of the requests; [None] where a property is undefined. *)
Record new_user : Type := MkNewUser {
  nu_email : string; nu_name : string; nu_nickname : string; nu_roles : list string; nu_is_disabled : option bool;
  nu_avatar_type : option string; nu_avatar_value : option string; nu_auth : option (string * string)
}.

Record edit : Type := MkEdit {
  ed_name : option string; ed_nickname : option string; ed_email : option string;
  ed_roles : option (list string); ed_is_disabled : option bool;
  ed_avatar_type : option string; ed_avatar_value : option (option string); ed_avatar : option string
}.

(** A write that is decided but not made. *)
Inductive plan : Type :=
| PlanCreate (initial : bool) (data : new_user) (avatar salt : string)
| PlanUpdate (id : Z) (data : edit)
| PlanDelete (id : Z)
| PlanPassword (id : Z) (type secret salt : string)
| PlanPermissions (id : Z) (data : permissions)
| PlanAvatar (id : Z) (filename content : string) (old : option string).

Class PasswordHash : Type := { hash_password : string -> string -> string }.

(** ** Small helpers *)

(** [email.toLowerCase().trim()] *)
Definition normal_email (email : string) : string := trim (to_lower email).

Definition validatePasswordAuth (type secret : string) : fallible unit :=
  throw ValidationError "Only password authentication can be created or changed here" when (negb (String.eqb type "password")) ;;
  throw ValidationError "Password must contain at least 8 characters and at most 72 UTF-8 bytes" when ((strlen secret <? 8) || (72 <? utf8_length secret)) ;;
  Ok tt.

(** [encryptPassword] of the model *)
Definition encryptPassword `{PasswordHash} (type secret salt : string) : string :=
  if String.eqb type "password" && negb (String.eqb secret "") then hash_password salt secret else secret.

Definition getGravatarUrl `{AuthEnv} (email : string) : string :=
  ("https://www.gravatar.com/avatar/" ++ sha256_hex (to_lower (trim email)) ++ "?d=mm")%string.

Definition bytes (codes : list Z) : string := String.string_of_list_ascii (map (fun n => ascii_of_nat (Z.to_nat n)) codes).

(** [AVATAR_SIGNATURES]: the extension and the media type. *)
Definition detectAvatarFileType (buffer : string) : option (string * string) :=
  if starts_with (bytes [137; 80; 78; 71; 13; 10; 26; 10]) buffer then Some (".png", "image/png")
  else if starts_with (bytes [255; 216; 255]) buffer then Some (".jpg", "image/jpeg")
  else if starts_with "GIF87a" buffer || starts_with "GIF89a" buffer then Some (".gif", "image/gif")
  else if (12 <=? strlen buffer) && starts_with "RIFF" buffer && String.eqb (slice 8 12 buffer) "WEBP" then Some (".webp", "image/webp")
  else None.

(** The name below avatars/. *)
Definition getAvatarPath (userId : Z) (filename : string) : fallible string :=
  throw ValidationError "Invalid avatar path" when (has_char "/" filename || negb (starts_with (show_Z userId ++ "-") filename)) ;;
  Ok filename.

(** [_.isEqual([...a].sort(), [...b].sort())] *)
Definition times (role : string) (roles : list string) : nat := length (List.filter (String.eqb role) roles).
Definition same_roles (a b : list string) : bool := forallb (fun r => Nat.eqb (times r a) (times r b)) (a ++ b).

(** The columns of [user_permission] that have a default. *)
Definition column_default (o : option string) (d : string) : option string := match o with Some s => Some s | None => Some d end.
Definition inserted_permissions (p : permissions) : fallible permissions :=
  match pm_visibility p, pm_proxy_hosts p, pm_redirection_hosts p, pm_dead_hosts p, pm_streams p, pm_access_lists p, pm_certificates p with
  | Some _, Some _, Some _, Some _, Some _, Some _, Some _ =>
      Ok (MkPermissions (pm_visibility p) (pm_proxy_hosts p) (pm_redirection_hosts p) (pm_dead_hosts p) (pm_streams p) (pm_access_lists p) (pm_certificates p)
        (column_default (pm_cloudflared_tunnels p) "manage") (column_default (pm_analytics p) "view") (column_default (pm_ddns_providers p) "manage")
        (column_default (pm_tor_onions p) "manage") (column_default (pm_dashboard_notes p) "manage") (column_default (pm_chat p) "manage"))
  | _, _, _, _, _, _, _ => Throw (NativeError "NOT NULL constraint failed")
  end.
Definition or_old {A} (new old : option A) : option A := match new with Some x => Some x | None => old end.
Definition patched_permissions (new old : permissions) : permissions :=
  MkPermissions (or_old (pm_visibility new) (pm_visibility old)) (or_old (pm_proxy_hosts new) (pm_proxy_hosts old))
    (or_old (pm_redirection_hosts new) (pm_redirection_hosts old)) (or_old (pm_dead_hosts new) (pm_dead_hosts old))
    (or_old (pm_streams new) (pm_streams old)) (or_old (pm_access_lists new) (pm_access_lists old))
    (or_old (pm_certificates new) (pm_certificates old)) (or_old (pm_cloudflared_tunnels new) (pm_cloudflared_tunnels old))
    (or_old (pm_analytics new) (pm_analytics old)) (or_old (pm_ddns_providers new) (pm_ddns_providers old))
    (or_old (pm_tor_onions new) (pm_tor_onions old)) (or_old (pm_dashboard_notes new) (pm_dashboard_notes old)) (or_old (pm_chat new) (pm_chat old)).
Definition default_permissions : permissions :=
  MkPermissions (Some "user") (Some "manage") (Some "manage") (Some "manage") (Some "manage") (Some "manage") (Some "manage") (Some "manage") (Some "view") None None None None.

Section Handlers.
Context `{AuthEnv} `{Jwt} `{Ajv} `{LoginEnv} `{PasswordHash}.
Implicit Types (o : office) (a : access) (now : Z).

Definition allowed now o (permission : string) (data : value) a : fallible unit :=
  rmap (fun _ => tt) (fst (can now (accounts_in o) permission data a)).

Definition is_live (id : Z) (p : profile) : bool := (p_id p =? id) && negb (p_deleted p).

Definition DEFAULT_AVATAR : string := getGravatarUrl "admin@example.com".
Definition shown (p : profile) : profile :=
  let u := pr_user p in
  if String.eqb (u_avatar u) "" then MkProfile (MkUser (u_id u) (u_name u) (u_email u) (u_nickname u) DEFAULT_AVATAR (u_roles u) (u_is_deleted u) (u_is_disabled u)) (pr_avatar_type p) (pr_avatar_value p)
  else p.

(** [get]; without an id, the user of the token. *)
Definition get_user now o a (id : Z) : fallible profile :=
  let id := if id =? 0 then getUserId 0 a else id in
  let? _ := allowed now o "users:get" (VInt id) a in
  match first_where (is_live id) (of_profiles o) with
  | Some p => Ok (shown p)
  | None => Throw (ItemNotFoundError (Some id))
  end.

Definition isEmailAvailable (email : string) (user_id : option Z) o : bool :=
  negb (existsb (fun p => String.eqb (sql_lower_trim (p_email p)) (normal_email email) && negb (p_deleted p) &&
                          match user_id with Some id => negb (p_id p =? id) | None => true end) (of_profiles o)).

Definition isSetup o : bool := existsb (fun p => negb (p_deleted p)) (of_profiles o).

(** ** Creating an account *)

Definition plan_create now o a (data : new_user) (salt : string) : fallible plan :=
  let? _ := match nu_auth data with Some (type, secret) => validatePasswordAuth type secret | None => Ok tt end in
  let initialSetup := getUserId 0 a =? 0 in
  throw ValidationError "Initial setup requires password credentials" when (initialSetup && match nu_auth data with None => true | Some _ => false end) ;;
  let? _ := allowed now o "users:create" (VObj []) a in
  throw ValidationError "Upload an avatar after creating the user"
    when (truthy (nu_avatar_type data) && negb (existsb (String.eqb (default "" (nu_avatar_type data))) ["gravatar"; "url"])) ;;
  let email := normal_email (nu_email data) in
  let avatar := if String.eqb (default "" (nu_avatar_type data)) "url" && truthy (nu_avatar_value data) then default "" (nu_avatar_value data) else getGravatarUrl email in
  Ok (PlanCreate initialSetup (MkNewUser email (nu_name data) (nu_nickname data) (nu_roles data) (nu_is_disabled data) (nu_avatar_type data) (nu_avatar_value data) (nu_auth data)) avatar salt).

Definition new_row (id : Z) (data : new_user) (avatar : string) : profile :=
  MkProfile (MkUser id (nu_name data) (nu_email data) (nu_nickname data) avatar (nu_roles data) false (default false (nu_is_disabled data)))
    (default "gravatar" (nu_avatar_type data)) (nu_avatar_value data).

Definition write_create (initial : bool) (data : new_user) (avatar salt : string) o : fallible Z * office :=
  if negb (of_ready o) then (Throw (PermissionError "Initial setup is not ready"), o)
  else if initial && isSetup o then (Throw (PermissionError "Initial setup is already complete"), o)
  else if negb (isEmailAvailable (nu_email data) None o) then (Throw (ValidationError ("Email address already in use - " ++ nu_email data)%string), o)
  else
    match inserted_permissions default_permissions with
    | Throw e => (Throw e, o)
    | Ok perms =>
        let id := of_next o in
        let passwords := match nu_auth data with Some (type, secret) => of_passwords o ++ [MkAuth id type (encryptPassword type secret salt) false] | None => of_passwords o end in
        (Ok id, set_permission_rows (of_permissions o ++ [(id, perms)]) (set_passwords passwords (of_sessions o) (set_profiles (of_profiles o ++ [new_row id data avatar]) (id + 1) o)))
    end.

(** The handler of POST /users: before there is an account, everybody may create
    the first administrator. *)
Definition setup_roles (roles : list string) : list string := if existsb (String.eqb "admin") roles then roles else roles ++ ["admin"].
Definition plan_post now o a (data : new_user) (salt : string) : fallible plan :=
  if negb (isSetup o) then
    plan_create now o (snd (load now (accounts_in o) true (new_access None)))
      (MkNewUser (nu_email data) (nu_name data) (nu_nickname data) (setup_roles (nu_roles data)) (Some false) (nu_avatar_type data) (nu_avatar_value data) (nu_auth data)) salt
  else if getUserId 0 a =? 0 then Throw (PermissionError "Initial setup is already complete. Authenticated user creation is required.")
  else plan_create now o a data salt.

(** ** Changing an account *)

Definition drop_flags (data : edit) : edit :=
  MkEdit (ed_name data) (ed_nickname data) (ed_email data) None None (ed_avatar_type data) (ed_avatar_value data) (ed_avatar data).
Definition touches_flags (data : edit) (u : Sessions.user) : bool :=
  match ed_roles data with Some roles => negb (same_roles roles (u_roles u)) | None => false end ||
  match ed_is_disabled data with Some b => negb (Bool.eqb b (u_is_disabled u)) | None => false end.

Definition avatar_url (id : Z) : string := ("/api/users/" ++ show_Z id ++ "/avatar/image")%string.

(** The avatar an edit leads to; [None] when its type is another. *)
Definition edited_avatar (p : profile) (data : edit) : fallible (option string) :=
  let type := if truthy (ed_avatar_type data) then default "" (ed_avatar_type data) else if String.eqb (pr_avatar_type p) "" then "gravatar" else pr_avatar_type p in
  let value := match ed_avatar_value data with Some v => v | None => pr_avatar_value p end in
  let email := if truthy (ed_email data) then default "" (ed_email data) else p_email p in
  if String.eqb type "gravatar" then Ok (Some (getGravatarUrl email))
  else if String.eqb type "url" then Ok (Some (if truthy value then default "" value else getGravatarUrl email))
  else if String.eqb type "upload" then
    let? _ := if truthy value then rmap (fun _ => tt) (getAvatarPath (p_id p) (default "" value)) else Ok tt in
    Ok (Some (avatar_url (p_id p)))
  else Ok (ed_avatar data).

Definition plan_update now o a (id : Z) (data : edit) : fallible plan :=
  let? _ := allowed now o "users:update" (VInt id) a in
  let? p := get_user now o a id in
  let? data := if touches_flags data (pr_user p) then rmap (fun _ => data) (allowed now o "users:permissions" (VInt id) a) else Ok (drop_flags data) in
  let data := MkEdit (ed_name data) (ed_nickname data) (option_map normal_email (ed_email data)) (ed_roles data) (ed_is_disabled data) (ed_avatar_type data) (ed_avatar_value data) (ed_avatar data) in
  throw InternalValidationError "User could not be updated, IDs do not match" when (negb (p_id p =? id)) ;;
  let? avatar := edited_avatar p data in
  Ok (PlanUpdate id (MkEdit (ed_name data) (ed_nickname data) (ed_email data) (ed_roles data) (ed_is_disabled data) (ed_avatar_type data) (ed_avatar_value data) avatar)).

Definition patched (data : edit) (p : profile) : profile :=
  let u := pr_user p in
  MkProfile (MkUser (u_id u) (default (u_name u) (ed_name data)) (default (u_email u) (ed_email data)) (default (u_nickname u) (ed_nickname data))
               (default (u_avatar u) (ed_avatar data)) (default (u_roles u) (ed_roles data)) (u_is_deleted u) (default (u_is_disabled u) (ed_is_disabled data)))
    (default (pr_avatar_type p) (ed_avatar_type data)) (default (pr_avatar_value p) (ed_avatar_value data)).

Definition patch_profile (id : Z) (data : edit) o : office :=
  set_profiles (patch_where (fun p => p_id p =? id) (patched data) (of_profiles o)) (of_next o) o.

Definition write_update (id : Z) (data : edit) o : fallible Z * office :=
  match ed_email data with
  | Some email =>
      if negb (of_ready o) then (Throw (PermissionError "Initial setup is not ready"), o)
      else if negb (isEmailAvailable email (Some id) o) then (Throw (ValidationError ("Email address already in use - " ++ email)%string), o)
      else (Ok id, patch_profile id data o)
  | None => (Ok id, patch_profile id data o)
  end.

(** ** Deleting an account *)

Definition plan_delete now o a (id : Z) : fallible plan :=
  let? _ := allowed now o "users:delete" (VInt id) a in
  let? p := get_user now o a id in
  throw PermissionError "You cannot delete yourself." when (p_id p =? getUserId 0 a) ;;
  Ok (PlanDelete (p_id p)).

Definition mark_deleted (p : profile) : profile :=
  let u := pr_user p in
  MkProfile (MkUser (u_id u) (u_name u) (u_email u) (u_nickname u) (u_avatar u) (u_roles u) true (u_is_disabled u)) (pr_avatar_type p) (pr_avatar_value p).
Definition write_delete (id : Z) o : office := set_profiles (patch_where (fun p => p_id p =? id) mark_deleted (of_profiles o)) (of_next o) o.
Definition deleteAll o : office := set_profiles (map mark_deleted (of_profiles o)) (of_next o) o.

(** ** Passwords *)

Definition plan_password now o a (id : Z) (type secret : string) (current : option string) (salt : string) : fallible plan :=
  let? _ := validatePasswordAuth type secret in
  let? _ := allowed now o "users:password" (VInt id) a in
  let? p := get_user now o a id in
  throw InternalValidationError "User could not be updated, IDs do not match" when (negb (p_id p =? id)) ;;
  if p_id p =? getUserId 0 a then
    throw ValidationError "Current password was not supplied" when (negb (truthy current)) ;;
    let? _ := getTokenFromEmail now (MkCredentials (p_email p) (default "" current) None None) (users_of o) (of_passwords o) in
    Ok (PlanPassword (p_id p) type secret salt)
  else Ok (PlanPassword (p_id p) type secret salt).

Definition credentials_of (id : Z) (type : string) (r : auth) : bool := (au_user r =? id) && String.eqb (au_type r) type && negb (au_deleted r).

(** The transaction: the credential and the end of the sessions. *)
Definition write_password now (id : Z) (type secret salt : string) o : office :=
  let rows :=
    if existsb (credentials_of id type) (of_passwords o)
    then patch_where (credentials_of id type) (fun r => MkAuth (au_user r) type (encryptPassword type secret salt) (au_deleted r)) (of_passwords o)
    else of_passwords o ++ [MkAuth id type (encryptPassword type secret salt) false] in
  set_passwords rows (patch_where (fun s => (s_user_id s =? id) && unrevoked s) (revoke_row now "password_changed") (of_sessions o)) o.

(** [resetPassword] of the command line. *)
Definition resetPassword now (email password salt : string) o : fallible unit * office :=
  if String.eqb email "" || String.eqb password "" || (72 <? utf8_length password) then (Throw (NativeError "Email and a password of at most 72 UTF-8 bytes are required"), o)
  else
    match first_where (fun p => String.eqb (p_email p) email && negb (p_deleted p)) (of_profiles o) with
    | None => (Throw (NativeError "No active user with this email"), o)
    | Some p =>
        if existsb (credentials_of (p_id p) "password") (of_passwords o) then
          (Ok tt, set_passwords
             (patch_where (credentials_of (p_id p) "password") (fun r => MkAuth (au_user r) (au_type r) (hash_password salt password) (au_deleted r)) (of_passwords o))
             (patch_where (fun s => (s_user_id s =? p_id p) && unrevoked s) (revoke_row now "password_reset") (of_sessions o)) o)
        else (Throw (NativeError "No active password credential for this user"), o)
    end.

(** ** Permissions *)

Definition plan_permissions now o a (id : Z) (data : permissions) : fallible plan :=
  let? _ := allowed now o "users:permissions" (VInt id) a in
  let? p := get_user now o a id in
  throw InternalValidationError "User could not be updated, IDs do not match" when (negb (p_id p =? id)) ;;
  Ok (PlanPermissions (p_id p) data).

Definition write_permissions (id : Z) (data : permissions) o : fallible Z * office :=
  if existsb (fun r => fst r =? id) (of_permissions o)
  then (Ok id, set_permission_rows (patch_where (fun r => fst r =? id) (fun r => (fst r, patched_permissions data (snd r))) (of_permissions o)) o)
  else match inserted_permissions data with
       | Ok p => (Ok id, set_permission_rows (of_permissions o ++ [(id, p)]) o)
       | Throw e => (Throw e, o)
       end.

(** ** Avatars *)

Definition plan_avatar now o a (id : Z) (file : option string) (uuid : string) : fallible plan :=
  let? _ := allowed now o "users:update" (VInt id) a in
  let? p := get_user now o a id in
  match file with
  | None => Throw (ValidationError "No file uploaded")
  | Some content =>
      throw ValidationError "File too large. Maximum size is 2MB." when (2 * 1024 * 1024 <? strlen content) ;;
      match detectAvatarFileType content with
      | None => Throw (ValidationError "Invalid file type. Only JPEG, PNG, GIF, and WebP are allowed.")
      | Some (extension, _) =>
          let? old := if String.eqb (pr_avatar_type p) "upload" && truthy (pr_avatar_value p) then rmap Some (getAvatarPath (p_id p) (default "" (pr_avatar_value p))) else Ok None in
          Ok (PlanAvatar (p_id p) (show_Z (p_id p) ++ "-" ++ uuid ++ extension) content old)
      end
  end.

(** [fault]: the database refuses the row. *)
Definition write_avatar (fault : option error) (id : Z) (filename content : string) (old : option string) o : fallible Z * office :=
  match fault with
  | Some e => (Throw e, set_avatar_files (delete filename (<[filename := content]> (of_files o))) o)
  | None =>
      let files := <[filename := content]> (of_files o) in
      let files := match old with Some name => delete name files | None => files end in
      (Ok id, set_avatar_files files (patch_profile id (MkEdit None None None None None (Some "upload") (Some (Some filename)) (Some (avatar_url id))) o))
  end.

Definition getAvatarImage (id : Z) o : fallible (string * string) :=
  match first_where (fun p => p_id p =? id) (of_profiles o) with
  | Some p =>
      throw ItemNotFoundError None when (p_deleted p || negb (String.eqb (pr_avatar_type p) "upload") || negb (truthy (pr_avatar_value p))) ;;
      let? name := getAvatarPath (p_id p) (default "" (pr_avatar_value p)) in
      match of_files o !! name with
      | None => Throw (ItemNotFoundError None)
      | Some content => match detectAvatarFileType content with Some (_, mime) => Ok (name, mime) | None => Throw (ValidationError "Avatar file has an invalid image signature.") end
      end
  | None => Throw (ItemNotFoundError None)
  end.

(** ** Handlers *)

Definition perform now (fault : option error) (p : plan) o : fallible Z * office :=
  match p with
  | PlanCreate initial data avatar salt => write_create initial data avatar salt o
  | PlanUpdate id data => write_update id data o
  | PlanDelete id => (Ok id, write_delete id o)
  | PlanPassword id type secret salt => (Ok id, write_password now id type secret salt o)
  | PlanPermissions id data => write_permissions id data o
  | PlanAvatar id filename content old => write_avatar fault id filename content old o
  end.

(** [setupDefaultUser], before the server listens. *)
Definition admin_permissions : permissions :=
  MkPermissions (Some "all") (Some "manage") (Some "manage") (Some "manage") (Some "manage") (Some "manage") (Some "manage") None None None None None None.
Definition setupDefaultUser (email password : option string) (salt : string) o : fallible unit * office :=
  let email := option_map (fun e => to_lower (trim e)) email in
  if negb (truthy email) || negb (truthy password) || isSetup o then (Ok tt, o)
  else
    match validatePasswordAuth "password" (default "" password), inserted_permissions admin_permissions with
    | Throw e, _ | Ok _, Throw e => (Throw e, o)
    | Ok _, Ok perms =>
        let id := of_next o in
        let row := MkProfile (MkUser id "Administrator" (default "" email) "Admin" "" ["admin"] false false) "gravatar" None in
        (Ok tt, set_permission_rows (of_permissions o ++ [(id, perms)])
                  (set_passwords (of_passwords o ++ [MkAuth id "password" (encryptPassword "password" (default "" password) salt) false]) (of_sessions o)
                     (set_profiles (of_profiles o ++ [row]) (id + 1) o)))
    end.

(** Every request that has a plan, with the token it came with. *)
Inductive request : Type :=
| PostUser (data : new_user) (salt : string)
| PutUser (id : Z) (data : edit)
| DeleteUser (id : Z)
| PutPassword (id : Z) (type secret : string) (current : option string) (salt : string)
| PutPermissions (id : Z) (data : permissions)
| PostAvatar (id : Z) (file : option string) (uuid : string).

Definition plan_of now o a (r : request) : fallible plan :=
  match r with
  | PostUser data salt => plan_post now o a data salt
  | PutUser id data => plan_update now o a id data
  | DeleteUser id => plan_delete now o a id
  | PutPassword id type secret current salt => plan_password now o a id type secret current salt
  | PutPermissions id data => plan_permissions now o a id data
  | PostAvatar id file uuid => plan_avatar now o a id file uuid
  end.

(** [jwtdecode] *)
Definition caller now o (token : option string) : fallible access :=
  let '(r, a) := load now (accounts_in o) false (new_access token) in rmap (fun _ => a) r.

(** ** Requests that interleave *)

(** The accounts and the writes that are decided. *)
Inductive office_step : office * list plan -> office * list plan -> Prop :=
| os_plan now token r o ps a p : caller now o token = Ok a -> plan_of now o a r = Ok p -> office_step (o, ps) (o, ps ++ [p])
| os_perform now fault o ps1 p ps2 : office_step (o, ps1 ++ p :: ps2) (snd (perform now fault p o), ps1 ++ ps2)
| os_reset now email password salt o ps : office_step (o, ps) (snd (resetPassword now email password salt o), ps)
| os_delete_all o ps : office_step (o, ps) (deleteAll o, ps)
| os_start email password salt o : office_step (o, []) (snd (setupDefaultUser email password salt o), [])
(** The settings, the sessions and the files have users elsewhere; a request may be abandoned. *)
| os_elsewhere ready sessions files o ps : office_step (o, ps) (MkOffice (of_profiles o) (of_next o) ready (of_passwords o) (of_permissions o) sessions files, ps)
| os_abandon o ps : office_step (o, ps) (o, []).
End Handlers.

(** ** Addresses stay unambiguous *)

Lemma normal_idem e : normal_email (normal_email e) = normal_email e.
Proof.
  unfold normal_email. assert (all_chars (fun c => Ascii.eqb (lower_char c) c) (trim (to_lower e)) = true) as Hl.
  { apply all_chars_trim. unfold to_lower. induction e as [|c e IH]; [done|]. simpl. by rewrite lower_char_idem, Ascii.eqb_refl. }
  assert (forall s, all_chars (fun c => Ascii.eqb (lower_char c) c) s = true -> to_lower s = s) as Hfix.
  { intros s. unfold to_lower. induction s as [|c s IH]; [done|]. simpl. intros [Hc%Ascii.eqb_eq Hs]%andb_true_iff. by rewrite Hc, IH. }
  by rewrite Hfix, trim_idem.
Qed.

Lemma lower_trim e : trim (to_lower e) = to_lower (trim e).
Proof.
  assert (forall c, is_space (lower_char c) = is_space c) as Hc by (intros [[] [] [] [] [] [] [] []]; reflexivity).
  unfold trim, to_lower. assert (forall s, smap lower_char (drop_while is_space s) = drop_while is_space (smap lower_char s)) as Hf.
  { intros s. induction s as [|c s IH]; [done|]. simpl. rewrite Hc. by destruct (is_space c). }
  assert (forall s, smap lower_char (drop_while_end is_space s) = drop_while_end is_space (smap lower_char s)) as Hb.
  { intros s. induction s as [|c s IH]; [done|]. simpl. rewrite <- IH. destruct (drop_while_end is_space s); simpl; rewrite ?Hc; by destruct (is_space c). }
  by rewrite Hb, Hf.
Qed.

Lemma lower_trim_normal e : normal_email (to_lower (trim e)) = to_lower (trim e).
Proof. rewrite <- lower_trim. apply normal_idem. Qed.

Lemma only_one {A} (f : A -> bool) (l : list A) x : List.NoDup l -> In x l -> f x = true -> (forall y, In y l -> f y = true -> y = x) -> List.filter f l = [x].
Proof.
  induction l as [|y l IH]; [done|]. intros Hnd Hin Hx Hone. inversion Hnd as [|? ? Hni Hnd']; subst. simpl. destruct (f y) eqn:Ey.
  - assert (y = x) as -> by (apply Hone; [by left|done]). f_equal. destruct (List.filter f l) as [|z l'] eqn:E; [done|].
    assert (In z (List.filter f l)) as [Hz Hfz]%filter_In by (rewrite E; by left). assert (z = x) as -> by (apply Hone; [by right|done]). done.
  - destruct Hin as [->|Hin]; [congruence|]. apply IH; try done. intros z Hz. apply Hone. by right.
Qed.

Lemma find_snoc {A} (f : A -> bool) l x : (forall y, In y l -> f y = false) -> f x = true -> first_where f (l ++ [x]) = Some x.
Proof.
  intros Hl Hx. unfold first_where. induction l as [|y l IH]; simpl; [by rewrite Hx|]. rewrite Hl by (by left). apply IH. intros z Hz. apply Hl. by right.
Qed.

Section Unambiguous.
Context `{AuthEnv} `{Jwt} `{Ajv} `{LoginEnv} `{PasswordHash}.
(** The database leaves an address alone that is in normal form. *)
Context (Hsql : forall e, sql_lower_trim (normal_email e) = normal_email e).
Implicit Types (o : office) (q : profile) (ps : list plan).

Definition distinct_addresses (profiles : list profile) : Prop :=
  forall p q : profile, In p profiles -> In q profiles -> p_deleted p = false -> p_deleted q = false -> sql_lower_trim (p_email p) = sql_lower_trim (p_email q) -> p_id p = p_id q.

Record office_ok o : Prop := MkOfficeOk {
  ok_ids : List.NoDup (map (fun p => p_id p) (of_profiles o));
  ok_next : forall p, In p (of_profiles o) -> 1 <= p_id p < of_next o;
  ok_start : 1 <= of_next o;
  ok_normal : forall p, In p (of_profiles o) -> normal_email (p_email p) = p_email p;
  ok_addresses : distinct_addresses (of_profiles o)
}.

(** What a plan would write is in normal form. *)
Definition plan_ok (p : plan) : Prop :=
  match p with
  | PlanCreate _ data _ _ => normal_email (nu_email data) = nu_email data
  | PlanUpdate _ data => forall e, ed_email data = Some e -> normal_email e = e
  | _ => True
  end.

Lemma address_available email user_id o p : isEmailAvailable email user_id o = true -> In p (of_profiles o) -> p_deleted p = false ->
  sql_lower_trim (p_email p) = normal_email email -> user_id = Some (p_id p).
Proof.
  intros Ha Hin Hd He. apply negb_true_iff in Ha. destruct (existsb _ _) eqn:E in Ha; [done|]. clear Ha.
  destruct user_id as [id|]; [destruct (Z.eqb_spec (p_id p) id) as [->|Hne]; [done|]|]; exfalso.
  - assert (existsb (fun p0 => String.eqb (sql_lower_trim (p_email p0)) (normal_email email) && negb (p_deleted p0) && negb (p_id p0 =? id)) (of_profiles o) = true); [|congruence].
    apply existsb_exists. exists p. split; [done|]. apply String.eqb_eq in He. by rewrite He, Hd, (proj2 (Z.eqb_neq _ _) Hne).
  - assert (existsb (fun p0 => String.eqb (sql_lower_trim (p_email p0)) (normal_email email) && negb (p_deleted p0) && true) (of_profiles o) = true); [|congruence].
    apply existsb_exists. exists p. split; [done|]. apply String.eqb_eq in He. by rewrite He, Hd.
Qed.

(** A row that is added. *)
Lemma added_ok o o' row : office_ok o -> normal_email (p_email row) = p_email row -> p_id row = of_next o -> of_next o' = of_next o + 1 -> of_profiles o' = of_profiles o ++ [row] ->
  (forall p, In p (of_profiles o) -> p_deleted p = false -> sql_lower_trim (p_email p) <> sql_lower_trim (p_email row)) -> office_ok o'.
Proof.
  intros [Hi Hn Hs Hem Ha] Hnorm Hid Hnx Hpr Hnew. constructor; rewrite ?Hnx, ?Hpr.
  - apply key_fresh_app; [done|]. rewrite in_map_iff. intros (p & Hp & Hin). apply Hn in Hin. lia.
  - intros p [Hin|[<-|[]]]%in_app_iff; [apply Hn in Hin; lia|lia].
  - lia.
  - intros p [Hin|[<-|[]]]%in_app_iff; auto.
  - intros p q [Hp|[<-|[]]]%in_app_iff [Hq|[<-|[]]]%in_app_iff Hdp Hdq He; [by apply Ha| | |done]; exfalso.
    + by apply (Hnew p).
    + by apply (Hnew q).
Qed.

(** Rows that are patched without their keys: what else may change, by row. *)
Lemma patched_ok o o' f : office_ok o -> (forall p, p_id (f p) = p_id p) -> (forall p, In p (of_profiles o) -> normal_email (p_email (f p)) = p_email (f p)) -> of_next o' = of_next o -> of_profiles o' = map f (of_profiles o) ->
  distinct_addresses (map f (of_profiles o)) -> office_ok o'.
Proof.
  intros [Hi Hn Hs Hem Ha] Hf Hnorm Hnx Hpr Hd. constructor; rewrite ?Hnx, ?Hpr; [|intros p (p0 & <- & Hin)%in_map_iff; rewrite Hf; by apply Hn|done|intros p (p0 & <- & Hin)%in_map_iff; auto|done].
  rewrite map_map. erewrite map_ext; [exact Hi|]. intros p. apply Hf.
Qed.

Lemma same_profiles_ok o o' : office_ok o -> of_profiles o' = of_profiles o -> of_next o' = of_next o -> office_ok o'.
Proof. intros [? ? ? ? ?] Hp Hn. constructor; by rewrite ?Hp, ?Hn. Qed.

Lemma deleting_ok o (b : profile -> bool) : office_ok o -> office_ok (set_profiles (map (fun p => if b p then mark_deleted p else p) (of_profiles o)) (of_next o) o).
Proof.
  intros Hok. apply (patched_ok o _ (fun p => if b p then mark_deleted p else p)); [done|intros p; by destruct (b p)|intros p Hp; destruct (b p); by apply (ok_normal _ Hok p)|done|done|].
  intros p q (p0 & <- & Hp)%in_map_iff (q0 & <- & Hq)%in_map_iff. destruct (b p0); [done|]. destruct (b q0); [done|]. by apply (ok_addresses _ Hok).
Qed.

Lemma patching_ok o id data : office_ok o -> (forall e, ed_email data = Some e -> normal_email e = e /\ isEmailAvailable e (Some id) o = true) -> office_ok (patch_profile id data o).
Proof.
  intros Hok He. apply (patched_ok o _ (fun p => if p_id p =? id then patched data p else p)); [done|intros p; by destruct (_ =? _)| |done|done|].
  { intros p Hp. destruct (_ =? _); [|by apply (ok_normal _ Hok)]. cbn. destruct (ed_email data) as [e|] eqn:Ee; cbn; [by apply He|by apply (ok_normal _ Hok)]. }
  assert (forall p q, In p (of_profiles o) -> In q (of_profiles o) -> p_id p = id -> p_id q <> id -> p_deleted p = false -> p_deleted q = false ->
    sql_lower_trim (p_email (patched data p)) = sql_lower_trim (p_email q) -> False) as Hmix.
  { intros p q Hp Hq Hip Hiq Hdp Hdq. cbn. destruct (ed_email data) as [e|] eqn:Ee; cbn.
    - destruct (He e eq_refl) as [Hn Hav]. rewrite <- Hn, Hsql. intros Heq. apply (address_available _ _ _ q) in Hav; [congruence|done|done|congruence].
    - intros Heq. apply Hiq. rewrite <- Hip. symmetry. by apply (ok_addresses _ Hok). }
  intros p q (p0 & <- & Hp)%in_map_iff (q0 & <- & Hq)%in_map_iff.
  destruct (Z.eqb_spec (p_id p0) id), (Z.eqb_spec (p_id q0) id); intros Hdp Hdq Heq; try (cbn; congruence).
  - exfalso. by apply (Hmix p0 q0).
  - exfalso. by apply (Hmix q0 p0).
  - by apply (ok_addresses _ Hok).
Qed.

Lemma create_ok o initial data avatar salt : office_ok o -> plan_ok (PlanCreate initial data avatar salt) -> office_ok (snd (write_create initial data avatar salt o)).
Proof.
  intros Hok Hp. unfold write_create. cbn in Hp. destruct (negb (of_ready o)); [done|]. destruct (initial && _); [done|].
  destruct (isEmailAvailable _ _ _) eqn:Ea; [|done]. cbn [negb inserted_permissions default_permissions snd pm_visibility pm_proxy_hosts pm_redirection_hosts pm_dead_hosts pm_streams pm_access_lists pm_certificates].
  apply (added_ok o _ (new_row (of_next o) data avatar)); [done|done|done|done|done|].
  intros p Hin Hd. cbn. rewrite <- Hp, Hsql, Hp. intros He. apply (address_available _ _ _ p) in Ea; [done|done|done|congruence].
Qed.

Lemma perform_ok now fault (p : plan) o : office_ok o -> plan_ok p -> office_ok (snd (perform now fault p o)).
Proof.
  intros Hok Hp. destruct p as [initial data avatar salt|id data|id|id type secret salt|id data|id filename content old]; cbn [perform snd].
  - by apply create_ok.
  - unfold write_update. destruct (ed_email data) as [e|] eqn:Ee; [|apply patching_ok; [done|congruence]].
    destruct (negb (of_ready o)); [done|]. destruct (isEmailAvailable _ _ _) eqn:Ea; [|done]. apply patching_ok; [done|]. intros e' He'. cbn in Hp. rewrite Ee in He'. injection He' as <-. auto.
  - apply deleting_ok, Hok.
  - by apply (same_profiles_ok o).
  - unfold write_permissions. destruct (existsb _ _); [by apply (same_profiles_ok o)|]. destruct (inserted_permissions _); by apply (same_profiles_ok o).
  - unfold write_avatar. destruct fault; [by apply (same_profiles_ok o)|].
    apply (same_profiles_ok (patch_profile id (MkEdit None None None None None (Some "upload") (Some (Some filename)) (Some (avatar_url id))) o)); [by apply patching_ok|done|done].
Qed.

Lemma plan_normal now o a r (p : plan) : plan_of now o a r = Ok p -> plan_ok p.
Proof.
  assert (forall a data salt, plan_create now o a data salt = Ok p -> plan_ok p) as Hc.
  { intros a' data salt. unfold plan_create. intros Hp. ok_all Hp. simplify_eq. apply normal_idem. }
  destruct r; cbn [plan_of].
  - unfold plan_post. repeat case_match; try done; apply Hc.
  - unfold plan_update. intros Hp. ok_all Hp. simplify_eq. cbn. intros e. destruct (ed_email _); [|done]. cbn. intros [= <-]. apply normal_idem.
  - unfold plan_delete. intros Hp. ok_all Hp. by simplify_eq.
  - unfold plan_password. intros Hp. ok_all Hp. case_match; ok_all Hp; by simplify_eq.
  - unfold plan_permissions. intros Hp. ok_all Hp. by simplify_eq.
  - unfold plan_avatar. intros Hp. ok_all Hp. repeat case_match; try done; ok_all Hp; by simplify_eq.
Qed.

Lemma reset_profiles now email password salt o : let o' := snd (resetPassword now email password salt o) in of_profiles o' = of_profiles o /\ of_next o' = of_next o.
Proof. unfold resetPassword. by repeat case_match. Qed.

Lemma start_ok email password salt o : office_ok o -> office_ok (snd (setupDefaultUser email password salt o)).
Proof.
  intros Hok. unfold setupDefaultUser. destruct (_ || isSetup o) eqn:Es; [done|]. apply orb_false_iff in Es as [_ Es].
  destruct (validatePasswordAuth _ _); [|done]. cbn [inserted_permissions admin_permissions pm_visibility pm_proxy_hosts pm_redirection_hosts pm_dead_hosts pm_streams pm_access_lists pm_certificates snd].
  eapply added_ok; [exact Hok| | |reflexivity|reflexivity|]; [destruct email as [e|]; [apply lower_trim_normal|done]|done|]. intros p Hin Hd. exfalso.
  assert (isSetup o = true); [|congruence]. apply existsb_exists. exists p. by rewrite Hd.
Qed.

Definition machine_ok (st : office * list plan) : Prop := office_ok (fst st) /\ forall p : plan, In p (snd st) -> plan_ok p.

Lemma machine_step st st' : machine_ok st -> office_step st st' -> machine_ok st'.
Proof.
  intros [Ho Hp] Hs. destruct Hs as [now token r o ps a p _ Hplan|now fault o ps1 p ps2|now email password salt o ps|o ps|email password salt o|ready sessions files o ps|o ps];
    cbn [fst snd] in *; split; cbn [fst snd]; try done.
  - intros p' [Hin|[<-|[]]]%in_app_iff; [by apply Hp|by eapply plan_normal].
  - apply perform_ok; [done|]. apply Hp, in_app_iff. right. by left.
  - intros p' Hin. apply Hp. rewrite in_app_iff in *. simpl. tauto.
  - by apply (same_profiles_ok o); [|apply reset_profiles..].
  - apply (deleting_ok o (fun _ => true)), Ho.
  - by apply start_ok.
  - by apply (same_profiles_ok o).
Qed.

(** C6: at most one account can log in with an address, however the requests that
    create, edit and delete accounts interleave: starting without accounts, in every
    state that can be reached the login finds exactly the account that is neither
    deleted nor disabled and has the address in its normal form. *)
Theorem addresses_stay_unambiguous o0 o ps : of_profiles o0 = [] -> 1 <= of_next o0 -> rtc office_step (o0, []) (o, ps) ->
  forall identity u, account_of identity (users_of o) = Some u <->
    In u (users_of o) /\ u_is_deleted u = false /\ u_is_disabled u = false /\ sql_lower_trim (u_email u) = trim (to_lower identity).
Proof.
  intros Hempty Hnext Hr. assert (machine_ok (o, ps)) as [Hok _].
  { assert (machine_ok (o0, [])) as Hstart by (split; [constructor; cbn [fst]; unfold distinct_addresses; rewrite ?Hempty; done || constructor|done]).
    revert Hstart Hr. generalize (o0, [] : list plan), (o, ps). intros st st' Hstart Hr. induction Hr as [|st st1 st' Hs _ IH]; [done|]. by apply IH, (machine_step st). }
  cbn [fst] in Hok. intros identity u. unfold account_of. set (f := fun u => _ && _). split.
  - destruct (List.filter f (users_of o)) as [|v [|? ?]] eqn:E; try done. destruct (u_is_disabled v) eqn:Ed; [done|]. intros [= ->].
    assert (In u (List.filter f (users_of o))) as [Hin Hf]%filter_In by (rewrite E; by left). unfold f in Hf. boolify. by split_and!.
  - intros (Hin & Hd & Hdis & He). rewrite (only_one f (users_of o) u), Hdis; [done| |done| |].
    + apply (NoDup_map_inv u_id). unfold users_of. rewrite map_map. apply Hok.
    + unfold f. by rewrite He, String.eqb_refl, Hd.
    + intros v Hv Hfv. unfold f in Hfv. boolify. apply in_map_iff in Hin as (p & <- & Hp). apply in_map_iff in Hv as (q & <- & Hq).
      assert (p_id q = p_id p) as Hid by (apply (ok_addresses _ Hok); try done; congruence).
      assert (q = p) as ->; [|done]. apply (key_unique (fun p => p_id p) (of_profiles o)); [apply Hok|done|done|done].
Qed.
End Unambiguous.

(** ** Who may change what *)

Section Authority.
Context `{AuthEnv} `{Jwt} `{Ajv} `{LoginEnv} `{PasswordHash}.
(** The validator leaves an integer as it is. *)
Context (Hajv : forall n, ajv_number (VInt n) = Some n).
Implicit Types (o : office) (a : access) (now : Z).

(** The token of the request stands for a live account with the role [admin],
    or for the account [id]. *)
Definition by_account now o (token : option string) (P : Sessions.user -> Prop) : Prop :=
  exists text u scope, token = Some text /\ stands_for now (accounts_in o) text u scope /\ P u.
Definition by_admin now o token : Prop := by_account now o token (fun u => In "admin" (u_roles u)).
Definition by_self now o token (id : Z) : Prop := by_account now o token (fun u => u_id u = id).

(** The check of a request that was loaded is the check of its token. *)
Lemma caller_check now o text a permission data : caller now o (Some text) = Ok a -> text <> "" ->
  is_ok (allowed now o permission data a) = true -> is_ok (fst (can now (accounts_in o) permission data (new_access (Some text)))) = true.
Proof.
  intros Hc Ht. unfold allowed. unfold caller, load in Hc. replace (truthy (a_tokenString (new_access (Some text)))) with true in Hc by (by destruct text).
  destruct (init now (accounts_in o) (new_access (Some text))) as [[[]|e] a1] eqn:Ei; [|done]. cbn [rmap] in Hc. injection Hc as ->.
  assert (a_initialised a = true /\ a_allowInternal a = false) as [Hi Ha].
  { rewrite init_fresh in Ei by done. destruct (load_token now text) as [p|]; [|done]. destruct (_ || _); [|by injection Ei as <-].
    destruct (live_user _ _); [|done]. destruct (forallb _ _); [|done]. by injection Ei as <-. }
  unfold can. cbn [a_allowInternal new_access]. rewrite Ei, Ha. unfold init at 1. rewrite Hi. cbn [rbind]. by destruct (validated permission data a).
Qed.

Lemma caller_anonymous now o token a permission data : caller now o token = Ok a -> token = None \/ token = Some "" -> is_ok (allowed now o permission data a) = false.
Proof.
  intros Hc Ht. unfold caller, load in Hc. assert (truthy (a_tokenString (new_access token)) = false) as Hn by (by destruct Ht; subst token).
  rewrite Hn in Hc. cbn in Hc. injection Hc as <-. unfold allowed, can. cbn [a_allowInternal]. unfold init. cbn [a_initialised a_tokenString].
  replace (truthy token) with false by (by destruct Ht; subst token). done.
Qed.

(** What a granted check says of the token. *)
Lemma caller_granted now o token a permission schema data : accounts_ok (accounts_in o) -> caller now o token = Ok a ->
  getPermissionValidator permission = Some schema -> allowed now o permission data a = Ok tt ->
  by_account now o token (fun u => getUserId 0 a = u_id u /\ exists scope perms alt, In alt schema /\ entitled u perms scope data alt).
Proof.
  intros Hacc Hc Hs Hal. assert (is_ok (allowed now o permission data a) = true) as Hok by (by rewrite Hal).
  destruct token as [text|]; [|rewrite (caller_anonymous now o None a) in Hok; [done|done|by left]].
  destruct (String.eqb_spec text "") as [->|Ht]; [rewrite (caller_anonymous now o (Some "") a) in Hok; [done|done|by right]|].
  apply (caller_check now o text a) in Hok; [|done|done]. apply can_spec in Hok; [|done|done].
  destruct Hok as (u & scope & perms & schema' & alt & Hst & _ & Hs' & Hin & He). rewrite Hs in Hs'. injection Hs' as <-.
  exists text, u, scope. split_and!; [done|done| |by exists scope, perms, alt].
  destruct Hst as (p & Hp & _ & Hl & _). apply live_user_spec in Hl as [Hin' Hid].
  pose proof (proj1 (List.Forall_forall _ _) Hacc u Hin') as Hpos. simpl in Hpos.
  unfold caller, load in Hc. replace (truthy (a_tokenString (new_access (Some text)))) with true in Hc by (by destruct text).
  rewrite init_fresh, Hp in Hc by done. destruct (negb (tk_id p =? 0) || _) eqn:Eu; [|apply orb_false_iff in Eu as [Eu _]; lia].
  destruct (live_user (tk_id p) (accounts_in o)) as [v|]; [|done]. destruct (forallb _ _); [|done]. cbn in Hc. injection Hc as <-. cbn.
  destruct (tk_id p =? 0) eqn:E0; lia.
Qed.

Lemma admin_only now o token a permission data : accounts_ok (accounts_in o) -> caller now o token = Ok a ->
  getPermissionValidator permission = Some [AdminRole] -> allowed now o permission data a = Ok tt -> by_admin now o token.
Proof.
  intros Hacc Hc Hs Hal. destruct (caller_granted now o token a permission _ data Hacc Hc Hs Hal) as (text & u & scope & -> & Hst & _ & scope' & perms & alt & [<-|[]] & [Hr _]).
  by exists text, u, scope.
Qed.

Lemma admin_or_self now o token a permission id : accounts_ok (accounts_in o) -> caller now o token = Ok a ->
  getPermissionValidator permission = Some [AdminRole; OwnUser] -> allowed now o permission (VInt id) a = Ok tt ->
  by_admin now o token \/ (by_self now o token id /\ getUserId 0 a = id).
Proof.
  intros Hacc Hc Hs Hal.
  destruct (caller_granted now o token a permission _ _ Hacc Hc Hs Hal) as (text & u & scope & -> & Hst & Hid & scope' & perms & alt & [<-|[<-|[]]] & He).
  - left. exists text, u, scope. by destruct He.
  - right. destruct He as (_ & Hn & _). rewrite Hajv in Hn. injection Hn as ->. split; [by exists text, u, scope|done].
Qed.

Lemma get_user_live now o a id p : get_user now o a id = Ok p -> id <> 0 -> p_id p = id /\ exists q, In q (of_profiles o) /\ p = shown q /\ p_deleted q = false.
Proof.
  intros Hg Hid. unfold get_user in Hg. rewrite (proj2 (Z.eqb_neq _ _) Hid) in Hg. ok_inv Hg. destruct (first_where _ _) as [q|] eqn:Ef; [|done]. injection Hg as <-.
  apply first_where_Some in Ef as [Hin Hl]. unfold is_live in Hl. boolify. assert (p_id (shown q) = p_id q) as -> by (unfold shown; by destruct (String.eqb _ _)).
  split; [done|]. by exists q.
Qed.

(** *** Editing *)

(** What the privileges of an account are. *)
Definition privileges (p : profile) : Z * list string * bool * bool := (p_id p, u_roles (pr_user p), u_is_disabled (pr_user p), p_deleted p).

Lemma patch_privileges id data o : ed_roles data = None -> ed_is_disabled data = None -> map privileges (of_profiles (patch_profile id data o)) = map privileges (of_profiles o).
Proof. intros Hr Hd. apply map_patch. intros p. unfold privileges, patched. cbn. by rewrite Hr, Hd. Qed.

Definition rest_same o o' : Prop :=
  of_passwords o' = of_passwords o /\ of_permissions o' = of_permissions o /\ of_sessions o' = of_sessions o /\ of_files o' = of_files o.

Lemma update_effect now fault id data o r o' : perform now fault (PlanUpdate id data) o = (r, o') ->
  (o' = o /\ is_ok r = false) \/ (r = Ok id /\ o' = patch_profile id data o).
Proof. cbn. unfold write_update. repeat case_match; intros [= <- <-]; auto. Qed.

(** an edit of a profile was asked for by an administrator or by the account
    itself, and changes nothing but that profile, or nothing when it fails; unless
    an administrator asked to change them, it leaves the roles, the block and the
    deletion of every account as they are when it is written, whatever
    another request has made of them since it was checked. *)
Theorem profile_edits_keep_privileges now token o a id data p now1 fault o1 r o1' :
  accounts_ok (accounts_in o) -> id <> 0 -> caller now o token = Ok a -> plan_update now o a id data = Ok p -> perform now1 fault p o1 = (r, o1') ->
  (by_admin now o token \/ by_self now o token id) /\
  (map privileges (of_profiles o1') = map privileges (of_profiles o1) \/
   (by_admin now o token /\ exists q, In q (of_profiles o) /\ p_id q = id /\ touches_flags data (pr_user q) = true)) /\
  rest_same o1 o1' /\ (forall q, p_id q <> id -> In q (of_profiles o1') <-> In q (of_profiles o1)) /\ (is_ok r = false -> o1' = o1).
Proof.
  intros Hacc Hid Hc Hp Hperf. unfold plan_update in Hp. ok_inv Hp. ok_inv Hp. rename E into Eu, E0 into Eg.
  destruct v. apply (admin_or_self now o token a "users:update" id) in Eu; [|done|done|done].
  apply get_user_live in Eg as (Hpid & q & Hq & -> & _); [|done]. assert (p_id (shown q) = p_id q /\ touches_flags data (pr_user (shown q)) = touches_flags data (pr_user q)) as [Hsid Hst]
    by (unfold shown; by destruct (String.eqb _ _)).
  assert (exists d, p = PlanUpdate id d /\ ((by_admin now o token /\ touches_flags data (pr_user q) = true) \/ (ed_roles d = None /\ ed_is_disabled d = None))) as (d & -> & Hd).
  { rewrite Hst in Hp. destruct (touches_flags data (pr_user q)) eqn:Et; [destruct (allowed now o "users:permissions" (VInt id) a) as [[]|] eqn:Ea; [|done]|]; simpl in Hp; ok_all Hp; simplify_eq.
    - eexists. split; [done|]. left. split; [exact (admin_only now o token a "users:permissions" _ Hacc Hc eq_refl Ea)|done].
    - eexists. split; [done|]. by right. }
  apply update_effect in Hperf as Heff. split; [destruct Eu as [?|[? _]]; auto|].
  destruct Heff as [[-> Hr]|[-> ->]]; [split_and!; try done; by left|]. split_and!; try done.
  - destruct Hd as [[Ha Ht]|[Hr Hb]]; [right|left; by apply patch_privileges]. split; [done|]. exists q. split_and!; [done|lia|done].
  - intros q' Hq'. cbn. rewrite in_patch. split.
    + intros [(q0 & _ & Hq0 & ->)|[? _]]; [cbn in Hq'; lia|done].
    + intros Hin. right. split; [done|lia].
Qed.

(** *** Passwords *)

(** In an office with unambiguous addresses, the current password of a change is
    the one of the account itself. *)
Lemma own_password o now p current u t : office_ok o -> (forall e, sql_lower_trim (normal_email e) = normal_email e) -> In p (of_profiles o) -> p_deleted p = false ->
  getTokenFromEmail now (MkCredentials (p_email p) current None None) (users_of o) (of_passwords o) = Ok (u, t) ->
  exists au, password_of (p_id p) (of_passwords o) = Some au /\ password_matches current (au_secret au) = true.
Proof.
  intros Hok Hsql Hin Hd. unfold getTokenFromEmail. cbn [cd_identity cd_secret cd_scope cd_expiry].
  destruct (account_of _ _) as [v|] eqn:Ea; [|done]. destruct (password_of (u_id v) _) as [au|] eqn:Ep; [|done]. intros Ht.
  assert (u_id v = p_id p) as Hid.
  { unfold account_of in Ea. destruct (List.filter _ _) as [|w [|? ?]] eqn:Ef; try done. destruct (u_is_disabled w); [done|]. injection Ea as ->.
    assert (In v [v]) as Hv by (by left). rewrite <- Ef in Hv. apply filter_In in Hv as [Hv Hf]. boolify. apply in_map_iff in Hv as (q & <- & Hq).
    apply (ok_addresses _ Hok); try done. etransitivity; [eassumption|]. rewrite <- (ok_normal _ Hok p Hin), Hsql.
    change (normal_email (normal_email (p_email p)) = normal_email (p_email p)). apply normal_idem. }
  rewrite Hid in Ep. exists au. split; [done|]. apply negb_false_iff. by destruct (negb _).
Qed.

Lemma others_kept {R} (owner : R -> Z) (keys : R -> bool) (f : R -> R) id t : (forall r, owner (f r) = owner r) -> (forall r, keys r = true -> owner r = id) ->
  select_where (fun r => negb (owner r =? id)) (patch_where keys f t) = select_where (fun r => negb (owner r =? id)) t.
Proof.
  intros Hf Hk. unfold select_where, patch_where. induction t as [|r t IH]; [done|]. simpl. destruct (keys r) eqn:Er; simpl; rewrite IH; [|done].
  by rewrite Hf, (Hk r Er), Z.eqb_refl.
Qed.

Lemma written_sessions now id type secret salt o : let o' := write_password now id type secret salt o in
  (forall s, In s (of_sessions o') -> s_user_id s = id -> unrevoked s = false) /\
  select_where (fun s => negb (s_user_id s =? id)) (of_sessions o') = select_where (fun s => negb (s_user_id s =? id)) (of_sessions o).
Proof.
  split; cbn [of_sessions write_password set_passwords].
  - intros s. rewrite in_patch. intros [(s0 & _ & _ & ->)|[_ Hs]] Hid; [done|]. rewrite Hid, Z.eqb_refl in Hs. done.
  - apply others_kept; [done|]. intros s Hs. boolify. done.
Qed.

Lemma written_passwords now id secret salt o : secret <> "" -> let rows := of_passwords (write_password now id "password" secret salt o) in
  (exists au, password_of id rows = Some au) /\ (forall au, password_of id rows = Some au -> au_secret au = hash_password salt secret) /\
  select_where (fun r => negb (au_user r =? id)) rows = select_where (fun r => negb (au_user r =? id)) (of_passwords o).
Proof.
  intros Hne. assert (encryptPassword "password" secret salt = hash_password salt secret) as Henc by (unfold encryptPassword; by rewrite (proj2 (String.eqb_neq _ _) Hne)).
  cbn [of_passwords write_password set_passwords]. rewrite Henc. destruct (existsb _ _) eqn:Ee.
  - assert (forall au, password_of id (patch_where (credentials_of id "password") (fun r => MkAuth (au_user r) "password" (hash_password salt secret) (au_deleted r)) (of_passwords o)) = Some au ->
      au_secret au = hash_password salt secret) as Hall.
    { intros au [Hin Hau]%first_where_Some. apply in_patch in Hin as [(r & _ & _ & ->)|[_ Hr]]; [done|]. unfold credentials_of in Hr. congruence. }
    split; [|split; [done|]].
    + destruct (password_of _ _) as [au|] eqn:En; [by exists au|]. exfalso. apply existsb_exists in Ee as (r & Hr & Hc). unfold password_of in En.
      assert (In (MkAuth (au_user r) "password" (hash_password salt secret) (au_deleted r)) (patch_where (credentials_of id "password") (fun r => MkAuth (au_user r) "password" (hash_password salt secret) (au_deleted r)) (of_passwords o))) as Hi
        by (apply in_patch; left; by exists r).
      apply (first_where_None _ _ _ En) in Hi. unfold credentials_of in Hc. cbn in Hi. apply andb_true_iff in Hc as [[Hid _]%andb_true_iff Hd]. by rewrite Hid, Hd in Hi.
    + apply others_kept; [done|]. unfold credentials_of. intros r Hr. boolify. done.
  - assert (password_of id (of_passwords o ++ [MkAuth id "password" (hash_password salt secret) false]) = Some (MkAuth id "password" (hash_password salt secret) false)) as ->.
    { apply find_snoc; [|cbn; by rewrite Z.eqb_refl]. intros r Hin. destruct (_ && _) eqn:Er; [|done].
      assert (existsb (credentials_of id "password") (of_passwords o) = true); [|congruence]. apply existsb_exists. by exists r. }
    split; [by eexists|]. split; [by intros au [= <-]|]. unfold select_where. rewrite List.filter_app. cbn. by rewrite Z.eqb_refl, app_nil_r.
Qed.

Lemma valid_password type secret : validatePasswordAuth type secret = Ok tt -> type = "password" /\ 8 <= strlen secret /\ utf8_length secret <= 72 /\ secret <> "".
Proof.
  unfold validatePasswordAuth. intros Hv. ok_all Hv. boolify. split_and!; try done. intros ->. change (strlen "") with 0 in *. lia.
Qed.

(** C8: a password is changed by an administrator or by the account itself, which
    must show its current password; from then on the account logs in with the new
    one, which has eight characters and is not longer than what the hash looks at,
    every session of the account is revoked, and nothing of another account
    changes. *)
Theorem password_change_ends_the_sessions now token o a id type secret current salt p now1 fault o1 r o1' :
  office_ok o -> (forall e, sql_lower_trim (normal_email e) = normal_email e) -> id <> 0 -> caller now o token = Ok a ->
  plan_password now o a id type secret current salt = Ok p -> perform now1 fault p o1 = (r, o1') ->
  (by_admin now o token \/ by_self now o token id) /\
  (getUserId 0 a = id -> exists au, password_of id (of_passwords o) = Some au /\ password_matches (default "" current) (au_secret au) = true) /\
  8 <= strlen secret /\ utf8_length secret <= 72 /\
  (exists au, password_of id (of_passwords o1') = Some au /\ au_secret au = hash_password salt secret) /\
  (forall s, In s (of_sessions o1') -> s_user_id s = id -> unrevoked s = false) /\
  select_where (fun s => negb (s_user_id s =? id)) (of_sessions o1') = select_where (fun s => negb (s_user_id s =? id)) (of_sessions o1) /\
  select_where (fun x => negb (au_user x =? id)) (of_passwords o1') = select_where (fun x => negb (au_user x =? id)) (of_passwords o1) /\
  of_profiles o1' = of_profiles o1 /\ of_permissions o1' = of_permissions o1 /\ of_files o1' = of_files o1.
Proof.
  intros Hok Hsql Hid Hc Hp Hperf. assert (accounts_ok (accounts_in o)) as Hacc.
  { apply List.Forall_forall. intros u Hu. apply in_map_iff in Hu as (q & <- & Hq). apply (ok_next _ Hok) in Hq. lia. }
  unfold plan_password in Hp. ok_inv Hp. destruct v. apply valid_password in E as (-> & Hlen & Hutf & Hne). ok_inv Hp. destruct v.
  apply (admin_or_self now o token a "users:password" id) in E; [|done|done|done]. ok_inv Hp. rename E0 into Eg.
  apply get_user_live in Eg as (Hpid & q & Hq & -> & Hd); [|done]. assert (p_id (shown q) = p_id q /\ p_email (shown q) = p_email q) as [Hsid Hsem] by (unfold shown; by destruct (String.eqb _ _)).
  assert (p = PlanPassword id "password" secret salt /\
    (getUserId 0 a = id -> exists au, password_of id (of_passwords o) = Some au /\ password_matches (default "" current) (au_secret au) = true)) as [-> Hcur].
  { ok_inv Hp. destruct (p_id (shown q) =? getUserId 0 a) eqn:Eself; [|injection Hp as <-; rewrite Hpid; split; [done|lia]].
    ok_inv Hp. ok_inv Hp. injection Hp as <-. rewrite Hpid. split; [done|]. intros _. destruct v. rewrite Hsem in E0.
    apply own_password in E0 as (au & Hau & Hm); try done. exists au. split; [by rewrite <- Hpid, Hsid|done]. }
  cbn [perform] in Hperf. injection Hperf as <- <-. destruct (written_sessions now1 id "password" secret salt o1) as [Hs1 Hs2].
  destruct (written_passwords now1 id secret salt o1 Hne) as ((au & Hau) & Hsec & Hoth).
  split; [destruct E as [?|[? _]]; auto|]. split_and!; try done. exists au. auto.
Qed.

(** *** Creation *)

Lemma create_effect initial data avatar salt o r o' : write_create initial data avatar salt o = (r, o') ->
  (is_ok r = false /\ o' = o) \/
  (r = Ok (of_next o) /\ (initial = true -> isSetup o = false) /\ of_profiles o' = of_profiles o ++ [new_row (of_next o) data avatar] /\
   of_passwords o' = match nu_auth data with Some (type, secret) => of_passwords o ++ [MkAuth (of_next o) type (encryptPassword type secret salt) false] | None => of_passwords o end).
Proof.
  unfold write_create. destruct (negb (of_ready o)); [intros [= <- <-]; auto|]. destruct (initial && isSetup o) eqn:Es; [intros [= <- <-]; auto|].
  destruct (negb _); [intros [= <- <-]; auto|]. intros [= <- <-]. right. split_and!; try done. intros ->. done.
Qed.

Lemma create_plan now o a data salt p : plan_create now o a data salt = Ok p -> exists avatar,
  p = PlanCreate (getUserId 0 a =? 0) (MkNewUser (normal_email (nu_email data)) (nu_name data) (nu_nickname data) (nu_roles data) (nu_is_disabled data) (nu_avatar_type data) (nu_avatar_value data) (nu_auth data)) avatar salt /\
  allowed now o "users:create" (VObj []) a = Ok tt /\ (getUserId 0 a = 0 -> exists type secret, nu_auth data = Some (type, secret) /\ validatePasswordAuth type secret = Ok tt).
Proof.
  unfold plan_create. intros Hp. ok_all Hp. injection Hp as <-. eexists. split; [done|]. destruct v, v0. split; [done|]. intros H0'.
  rewrite H0' in G. destruct (nu_auth data) as [[type secret]|]; [|done]. by exists type, secret.
Qed.

(** C7: an account is created by an administrator, or it is the first one: then
    there is no account when it is written, whatever request came in between, and
    it is an enabled administrator with a password.  A creation that fails changes
    nothing. *)
Theorem account_creation_is_authorised now token o a data salt p now1 fault o1 r o1' :
  accounts_ok (accounts_in o) -> caller now o token = Ok a -> plan_post now o a data salt = Ok p -> perform now1 fault p o1 = (r, o1') ->
  (is_ok r = false -> o1' = o1) /\
  forall id, r = Ok id -> exists row, of_profiles o1' = of_profiles o1 ++ [row] /\ p_id row = id /\ p_deleted row = false /\ p_email row = normal_email (nu_email data) /\
    (by_admin now o token \/
     (isSetup o1 = false /\ In "admin" (u_roles (pr_user row)) /\ u_is_disabled (pr_user row) = false /\
      exists secret, 8 <= strlen secret /\ of_passwords o1' = of_passwords o1 ++ [MkAuth id "password" (hash_password salt secret) false])).
Proof.
  intros Hacc Hc Hp Hperf. unfold plan_post in Hp. destruct (isSetup o) eqn:Es; cbn [negb] in Hp.
  - destruct (getUserId 0 a =? 0) eqn:Eid; [done|]. apply create_plan in Hp as (avatar & -> & Hal & _).
    apply create_effect in Hperf as [[Hr ->]|(-> & _ & Hprof & _)]; [split; [done|]; by intros id ->|]. split; [done|]. intros id [= <-].
    eexists. split; [exact Hprof|]. split_and!; try done. left. by apply (admin_only now o token a "users:create" (VObj [])).
  - apply create_plan in Hp as (avatar & -> & _ & Hauth). cbn in Hauth. destruct (Hauth eq_refl) as (type & secret & Ha & Hv). apply valid_password in Hv as (-> & Hlen & _ & Hne).
    cbn [load new_access getUserId snd a_tokenData Z.eqb] in Hperf.
    apply create_effect in Hperf as [[Hr ->]|(-> & Hset & Hprof & Hpw)]; [split; [done|]; by intros id ->|]. split; [done|]. intros id [= <-].
    eexists. split; [exact Hprof|]. split_and!; try done. right. split_and!; [by apply Hset| |done|].
    + cbn. unfold setup_roles. destruct (existsb (String.eqb "admin") (nu_roles data)) eqn:Ea; [by apply existsb_eqb_In in Ea|]. apply in_app_iff. right. by left.
    + exists secret. split; [done|]. rewrite Hpw. cbn. rewrite Ha. unfold encryptPassword. by rewrite (proj2 (String.eqb_neq _ _) Hne).
Qed.

(** *** Avatars *)

(** an upload by an administrator or the account itself stores an image under a
    name of the account; the files of the other accounts and their profiles stay as
    they are, a failing write leaves no new file, and a successful one is what the
    account shows from then on. *)
Theorem avatar_upload_is_confined now token o a id file uuid p now1 fault o1 r o1' :
  accounts_ok (accounts_in o) -> id <> 0 -> has_char "/" uuid = false -> caller now o token = Ok a -> plan_avatar now o a id file uuid = Ok p -> perform now1 fault p o1 = (r, o1') ->
  (by_admin now o token \/ by_self now o token id) /\
  (forall name, of_files o1' !! name <> of_files o1 !! name -> starts_with (show_Z id ++ "-") name = true) /\
  (forall q, p_id q <> id -> In q (of_profiles o1') <-> In q (of_profiles o1)) /\
  (is_ok r = false -> of_profiles o1' = of_profiles o1 /\ forall name content, of_files o1' !! name = Some content -> of_files o1 !! name = Some content).
Proof.
  intros Hacc Hid Hu Hc Hp Hperf. unfold plan_avatar in Hp. ok_inv Hp. destruct v. apply (admin_or_self now o token a "users:update" id) in E; [|done|done|done].
  ok_inv Hp. rename E0 into Eg. apply get_user_live in Eg as (Hpid & _); [|done]. destruct file as [content|]; [|done]. ok_inv Hp.
  destruct (detectAvatarFileType content) as [[extension mime]|]; [|done]. ok_inv Hp. injection Hp as <-. rewrite Hpid in *.
  set (filename := (show_Z id ++ "-" ++ uuid ++ extension)%string) in *.
  assert (starts_with (show_Z id ++ "-") filename = true) as Hname by (unfold filename; rewrite <- append_assoc; apply starts_with_app).
  split; [destruct E as [?|[? _]]; auto|]. cbn [perform] in Hperf. unfold write_avatar in Hperf. destruct fault as [e|]; injection Hperf as <- <-; cbn [of_files of_profiles set_avatar_files patch_profile set_profiles].
  - split_and!; [|done|]; [intros name Hn; destruct (decide (name = filename)) as [->|Hne]; [done|rewrite lookup_delete_ne, lookup_insert_ne in Hn by done; done]|].
    intros _. split; [done|]. intros name c. destruct (decide (name = filename)) as [->|Hne]; [by rewrite lookup_delete_eq|by rewrite lookup_delete_ne, lookup_insert_ne].
  - split_and!; [|intros q Hq; rewrite in_patch; split; [intros [(q0 & _ & Hq0 & ->)|[? _]]; [cbn in Hq; lia|done]|intros Hin; right; split; [done|lia]]|done].
    intros name Hn. destruct (decide (name = filename)) as [->|Hne]; [done|]. destruct v0 as [old|]; [|by rewrite lookup_insert_ne in Hn].
    destruct (decide (name = old)) as [->|Hno]; [|by rewrite lookup_delete_ne, lookup_insert_ne in Hn].
    destruct (_ && _); [|done]. destruct (getAvatarPath _ _) as [o'|] eqn:Eo in E0; [|done]. simpl in E0. injection E0 as <-. unfold getAvatarPath in Eo. ok_all Eo. injection Eo as <-. by boolify.
Qed.
End Authority.

(** ** An office *)

Module DemoUsers.
#[local] Instance env : AuthEnv := {| sha256_hex s := s; add_days now n := now + n * 86400000 |}.
#[local] Instance tokens : Jwt := {|
  jwt_verify now token :=
    if String.eqb token "t1" then inl (MkPayload 1 (ScopeList ["user"]) 1000) else if String.eqb token "t2" then inl (MkPayload 2 (ScopeList ["user"]) 1000)
    else inr (JwtError "jwt malformed");
  jwt_sign _ := ""
|}.
#[local] Instance numbers : Ajv := {| ajv_number v := match v with VInt n => Some n | _ => None end |}.
#[local] Instance login : LoginEnv := {|
  apiValidator _ := Throw (ValidationError "unused");
  sql_lower_trim := normal_email;
  password_matches := String.eqb;
  add_period now n _ := now + n;
  token_expiry now _ := Some (now + 900000)
|}.
#[local] Instance plain_hash : PasswordHash := {| hash_password _ s := s |}.

Definition empty_office : office := MkOffice [] 1 true [] [] [] ∅.
Definition root : new_user := MkNewUser " Root@Example.org" "Root" "root" [] None None None (Some ("password", "correct horse")).
Definition alice : new_user := MkNewUser "Alice@Example.org" "Alice" "alice" [] None None None (Some ("password", "battery staple")).

Definition access_of (o : office) (token : option string) : access := match caller 0 o token with Ok a => a | Throw _ => new_access None end.
Definition plan_for (o : office) (token : option string) (r : request) : plan := match plan_of 0 o (access_of o token) r with Ok p => p | Throw _ => PlanDelete 0 end.
Definition after (p : plan) (o : office) : office := snd (perform 0 None p o).

Definition founded : office := Eval vm_compute in after (plan_for empty_office None (PostUser root "s")) empty_office.
Definition staffed : office := Eval vm_compute in after (plan_for founded (Some "t1") (PostUser alice "s")) founded.
(** Alice renames herself while the administrator promotes her. *)
Definition rename : edit := MkEdit (Some "Alice A.") None None (Some []) (Some false) None None None.
Definition promote : edit := MkEdit None None None (Some ["admin"]) None None None None.
Definition promoted : office := Eval vm_compute in after (plan_for staffed (Some "t1") (PutUser 2 promote)) staffed.
Definition renamed : office := Eval vm_compute in after (plan_for staffed (Some "t2") (PutUser 2 rename)) promoted.

Lemma sql_ok e : sql_lower_trim (normal_email e) = normal_email e.
Proof. apply normal_idem. Qed.
Lemma ajv_ok n : ajv_number (VInt n) = Some n.
Proof. reflexivity. Qed.

Lemma handled token r o : caller 0 o token = Ok (access_of o token) -> plan_of 0 o (access_of o token) r = Ok (plan_for o token r) -> rtc office_step (o, []) (after (plan_for o token r) o, []).
Proof.
  intros Hc Hp. eapply rtc_l; [by apply (os_plan 0 token r o [] (access_of o token) (plan_for o token r))|]. eapply rtc_l; [|apply rtc_refl]. exact (os_perform 0 None o [] (plan_for o token r) []).
Qed.

Lemma staffed_reachable : rtc office_step (empty_office, []) (staffed, []).
Proof.
  assert (founded = after (plan_for empty_office None (PostUser root "s")) empty_office) as E1 by (vm_compute; reflexivity).
  assert (staffed = after (plan_for founded (Some "t1") (PostUser alice "s")) founded) as E2 by (vm_compute; reflexivity).
  rewrite E2. etransitivity; [|apply handled; vm_compute; reflexivity]. rewrite E1 at 1. apply handled; vm_compute; reflexivity.
Qed.

Lemma addresses_witness :
  account_of " ALICE@example.org " (users_of staffed) = Some (MkUser 2 "Alice" "alice@example.org" "alice" (getGravatarUrl "alice@example.org") [] false false) /\
  account_of "bob@example.org" (users_of staffed) = None.
Proof.
  split; [|vm_compute; reflexivity].
  apply (addresses_stay_unambiguous sql_ok empty_office staffed [] eq_refl ltac:(simpl; lia) staffed_reachable).
  split; [right; left; vm_compute; reflexivity|]. split; [reflexivity|]. split; [reflexivity|vm_compute; reflexivity].
Defined.

Lemma staffed_accounts : accounts_ok (accounts_in staffed).
Proof. repeat constructor; simpl; lia. Qed.

Lemma edits_witness :
  map privileges (of_profiles renamed) = [(1, ["admin"], false, false); (2, ["admin"], false, false)] /\
  map (fun p => u_name (pr_user p)) (of_profiles renamed) = ["Root"; "Alice A."] /\
  (by_admin 0 staffed (Some "t2") \/ by_self 0 staffed (Some "t2") 2).
Proof.
  split; [reflexivity|]. split; [reflexivity|].
  refine (proj1 (profile_edits_keep_privileges ajv_ok 0 (Some "t2") staffed (access_of staffed (Some "t2")) 2 rename
    (plan_for staffed (Some "t2") (PutUser 2 rename)) 0 None promoted (Ok 2) renamed staffed_accounts _ _ _ _)); [lia|vm_compute; reflexivity..].
Defined.

(** The first account is created once. *)
Lemma creation_witness :
  let p := plan_for empty_office None (PostUser root "s") in
  fst (perform 0 None p founded) = Throw (PermissionError "Initial setup is already complete") /\
  exists row, of_profiles founded = [row] /\ p_id row = 1 /\ p_email row = "root@example.org" /\ isSetup empty_office = false.
Proof.
  cbv zeta. split; [vm_compute; reflexivity|].
  destruct (account_creation_is_authorised 0 None empty_office (access_of empty_office None) root "s" (plan_for empty_office None (PostUser root "s")) 0 None empty_office (Ok 1) founded)
    as [_ Hc]; [by constructor|vm_compute; reflexivity..|].
  destruct (Hc 1 eq_refl) as (row & Hp & Hid & _ & He & _). exists row. split; [exact Hp|]. split; [exact Hid|]. split; [rewrite He; vm_compute; reflexivity|reflexivity].
Defined.

Definition browser (id : Z) (family : string) : session :=
  MkSession id id family None "h" "j" ["user"] 0 9000 None None None None None None None.
Definition busy : office := MkOffice (of_profiles staffed) 3 true (of_passwords staffed) (of_permissions staffed) [browser 1 "a"; browser 2 "b"] ∅.
Definition new_password : request := PutPassword 2 "password" "tr0ub4dor&3" (Some "battery staple") "s".

Lemma busy_ok : office_ok busy.
Proof.
  constructor.
  - repeat constructor; simpl; intuition discriminate.
  - intros p [<-|[<-|[]]]; simpl; lia.
  - simpl. lia.
  - intros p [<-|[<-|[]]]; vm_compute; reflexivity.
  - intros p q [<-|[<-|[]]] [<-|[<-|[]]] _ _; vm_compute; first [reflexivity|discriminate].
Qed.

Lemma password_witness :
  let p := plan_for busy (Some "t2") new_password in
  map unrevoked (of_sessions (after p busy)) = [true; false] /\
  plan_of 0 busy (access_of busy (Some "t2")) (PutPassword 2 "password" "tr0ub4dor&3" (Some "guess") "s") = Throw INVALID_AUTH /\
  exists au, password_of 2 (of_passwords (after p busy)) = Some au /\ au_secret au = "tr0ub4dor&3".
Proof.
  cbv zeta. split; [vm_compute; reflexivity|]. split; [vm_compute; reflexivity|].
  destruct (password_change_ends_the_sessions ajv_ok 0 (Some "t2") busy (access_of busy (Some "t2")) 2 "password" "tr0ub4dor&3" (Some "battery staple") "s"
    (plan_for busy (Some "t2") new_password) 0 None busy (Ok 2) (after (plan_for busy (Some "t2") new_password) busy) busy_ok sql_ok)
    as (_ & _ & _ & _ & Hpw & _); [lia|vm_compute; reflexivity..|exact Hpw].
Defined.

Definition gif : string := "GIF89a...".
Lemma avatar_witness :
  let p := plan_for staffed (Some "t2") (PostAvatar 2 (Some gif) "5f") in
  of_files (after p staffed) !! "2-5f.gif" = Some gif /\ getAvatarImage 2 (after p staffed) = Ok ("2-5f.gif", "image/gif") /\
  (by_admin 0 staffed (Some "t2") \/ by_self 0 staffed (Some "t2") 2).
Proof.
  cbv zeta. split; [vm_compute; reflexivity|]. split; [vm_compute; reflexivity|].
  refine (proj1 (avatar_upload_is_confined ajv_ok 0 (Some "t2") staffed (access_of staffed (Some "t2")) 2 (Some gif) "5f"
    (plan_for staffed (Some "t2") (PostAvatar 2 (Some gif) "5f")) 0 None staffed (Ok 2) (after (plan_for staffed (Some "t2") (PostAvatar 2 (Some gif) "5f")) staffed)
    staffed_accounts _ _ _ _ _)); [lia|vm_compute; reflexivity..].
Defined.
End DemoUsers.
