(* ===== verification/LoginFactor.v ===== *)
(** The second factors of TwoFactor behind the interface of Login, and a run of
    the whole site: a password, a time-based code, a session; and guesses that
    run into the throttle. *)

From S2P Require Import Prelude JsString Errors JsValue Sessions Access TwoFactor Login.
#[local] Open Scope string_scope.
#[local] Open Scope list_scope.
#[local] Open Scope Z_scope.

(** The name of a method in a request body; a YubiKey check draws a nonce. *)
Definition method_of (name nonce : string) : login_method :=
  if String.eqb name "totp" then LTotp
  else if String.eqb name "yubikey" then LYubikey nonce
  else if String.eqb name "backup_code" then LBackupCode
  else LUnknown name.

Definition at_time (now : Z) (d : db) : db :=
  TwoFactor.MkDb (d_methods d) (d_codes d) (d_users d) (d_next d) (d_next_code d) now.

(** [UserTwoFa.hasActive2FA] *)
Definition has_active (d : db) (user : Z) : bool :=
  negb (Nat.eqb (count_where (fun m => (m_user m =? user) && enabled_row m) (d_methods d)) 0).

#[global] Instance two_factor `{TwoFaEnv} : SecondFactor db := {
  hasActive2FA := has_active;
  login_challenge now user m code nonce d := execute (verifyLoginChallenge user (method_of m nonce) code) (at_time now d);
  passkey_challenge now user cid response d := execute (completePasskeyAuthentication user cid response) (at_time now d);
  duo_challenge now cookie code state d :=
    let '(res, d') := execute (completeDuoAuthentication cookie code state) (at_time now d) in
    (rmap (option_map TwoFactor.u_id) res, d')
}.

(** ** A concrete site *)

#[local] Instance demo_sessions : AuthEnv := {| sha256_hex s := s; add_days now n := now + n * 86400000 |}.
#[local] Instance demo_ajv : Ajv := {| ajv_number v := match v with VInt n => Some n | _ => None end |}.
#[local] Instance demo_login : LoginEnv := {|
  apiValidator body :=
    match get "identity" body, get "secret" body with
    | VStr identity, VStr secret => Ok (MkCredentials identity secret None None)
    | _, _ => Throw (ValidationError "data must have required properties")
    end;
  sql_lower_trim := to_lower;
  password_matches := String.eqb;
  add_period now n _ := now + n;
  token_expiry now _ := Some (now + 900000)
|}.
#[local] Instance demo_jwt : Jwt := {|
  jwt_verify now token :=
    if String.eqb token "pending" then inl (MkPayload 7 (ScopeList ["2fa_pending"]) 990000)
    else if String.eqb token "access" then inl (MkPayload 7 (ScopeList ["user"]) 991000)
    else inr (JwtError "jwt malformed");
  jwt_sign _ := ""
|}.

Definition demo_user : Sessions.user := MkUser 7 "n" "a@b.c" "n" "" [] false false.
Definition demo_method : method := MkMethod 1 7 TOTP "Authenticator App" "s" "" 0 None NoMeta true false.
Definition demo_site_of (u : Sessions.user) : site db :=
  MkSite (Sessions.MkDb [] 1 [u]) [(7, no_permissions)] [Login.MkAuth 7 "password" "right" false]
    (TwoFactor.MkDb [demo_method] [] [] 2 1 0) [] [] [] [] 0.
Definition demo_site : site db := demo_site_of demo_user.
Definition demo_draws (n : string) : draws := MkDraws n n n (Ok n).
Definition demo_body (secret : string) : value := VObj [("identity", VStr "A@b.c"); ("secret", VStr secret)].

(** *** Running logins *)

(** A login begins. *)
Definition begin (now : Z) (ip : option string) (secret : string) (s : site db) : site db :=
  set_logins (st_logins s ++ [post_login now ip (demo_body secret) no_meta (demo_draws "r1")]) now s.

(** The [n]-th login goes on, if it is still there and in time. *)
Definition goes_on (patience : Z) (s : site db) (step : nat * Z) : site db :=
  let '(n, clock) := step in
  match nth_error (st_logins s) n with
  | Some l =>
      if (st_now s <=? clock) && (clock <? lg_now l + patience)
      then login_goes_on clock (firstn n (st_logins s)) l (skipn (S n) (st_logins s)) s
      else s
  | None => s
  end.

(** The first login goes on to its end; twelve statements are enough. *)
Definition run (patience : Z) (clock : Z) (s : site db) : site db :=
  fold_left (goes_on patience) (repeat (0%nat, clock) 12) s.

Section Runs.
Context (patience : Z).
Notation reached := (reachable site_initial (site_step patience)).

Lemma begin_reached now ip secret s : reached s -> st_now s <= now -> reached (begin now ip secret s).
Proof. intros Hr Hn. eapply reachable_step; [exact Hr|]. by apply site_login. Qed.

Lemma goes_on_reached steps s : reached s -> reached (fold_left (goes_on patience) steps s).
Proof.
  revert s. induction steps as [|[n clock] steps IH]; intros s Hr; [done|]. simpl. apply IH.
  destruct (nth_error (st_logins s) n) as [l|] eqn:E; [|done]. destruct (_ && _) eqn:Et; [|done].
  eapply reachable_step; [exact Hr|]. apply site_advance; [lia| |lia].
  apply nth_error_split in E as (before & after & E & <-). rewrite E, firstn_app, firstn_all, Nat.sub_diag, app_nil_r.
  f_equal. rewrite skipn_app, skipn_all2 by lia. replace (S (length before) - length before)%nat with 1%nat by lia. done.
Qed.
End Runs.

Lemma demo_site_initial (u : Sessions.user) : Sessions.u_id u = 7 -> site_initial (demo_site_of u).
Proof. intros E. split_and!; try done. constructor; [rewrite E; lia|constructor]. Qed.

(** *** A password, a code, a session *)

Definition demo_pending : site db := Eval vm_compute in run 1000 90000 (begin 90000 (Some "::1") "right" demo_site).
Definition demo_session : site db :=
  Eval vm_compute in answered 91000 (post_verify 91000 "pending" "totp" "s" "n" no_meta (demo_draws "r2") demo_pending).

Lemma demo_pending_reachable : reachable site_initial (site_step 1000) demo_pending.
Proof.
  replace demo_pending with (run 1000 90000 (begin 90000 (Some "::1") "right" demo_site)) by (vm_compute; reflexivity).
  apply goes_on_reached, begin_reached; [by apply reachable_init, demo_site_initial|]. simpl. lia.
Qed.

Lemma demo_session_reachable : reachable site_initial (site_step 1000) demo_session.
Proof.
  apply (reachable_step _ _ demo_pending); [apply demo_pending_reachable|].
  replace demo_session with (answered 91000 (post_verify 91000 "pending" "totp" "s" "n" no_meta (demo_draws "r2") demo_pending))
    by (vm_compute; reflexivity).
  apply (site_verify 1000 91000 "pending" "totp" "s" "n" no_meta (demo_draws "r2") demo_pending); [simpl; lia|].
  intros now p. simpl. intros [= <-]. by left.
Qed.


(** An account with the scope of a pending token among its roles. *)
Definition odd_user : Sessions.user := MkUser 7 "n" "a@b.c" "n" "" ["2fa_pending"] false false.
Definition odd_pending : site db := run 1000 90000 (begin 90000 (Some "::1") "right" (demo_site_of odd_user)).

(** It is let in with its password alone. *)
Example pending_role_is_let_in :
  reachable site_initial (site_step 1000) odd_pending /\ presented "pending" odd_pending /\
  stands_for 90000 (accounts_of odd_pending) "pending" odd_user (ScopeList ["2fa_pending"]) /\
  forall e, In e (st_log odd_pending) -> ~ justifies 7 e.
Proof.
  split; [|split; [|split]].
  - apply goes_on_reached, begin_reached; [by apply reachable_init, demo_site_initial|]. simpl. lia.
  - intros now p. simpl. intros [= <-]. vm_compute. by left.
  - exists (MkPayload 7 (ScopeList ["2fa_pending"]) 990000). split_and!; [reflexivity|reflexivity|reflexivity|].
    intros item [<-|[]]. left. by left.
  - vm_compute. intros e [<-|[<-|[<-|[]]]]; tauto.
Qed.

(** *** Guesses *)

(** Six logins pass the checks together, then fail; the seventh is turned away. *)
Definition together : site db := Eval vm_compute in fold_left (fun s now => begin now None "wrong" s) [1; 2; 3; 4; 5; 6] demo_site.
Definition checked : site db :=
  Eval vm_compute in fold_left (goes_on 1000) (flat_map (fun n => repeat (n, 10) 4) [0; 1; 2; 3; 4; 5]%nat) together.
Definition guessed : site db := Eval vm_compute in fold_left (goes_on 1000) (repeat (0%nat, 20) 30) checked.
Definition demo_guessed : site db := Eval vm_compute in run 1000 30 (begin 30 None "right" guessed).

Lemma together_reached : reachable site_initial (site_step 1000) together.
Proof.
  replace together with (begin 6 None "wrong" (begin 5 None "wrong" (begin 4 None "wrong" (begin 3 None "wrong" (begin 2 None "wrong"
    (begin 1 None "wrong" demo_site)))))) by (vm_compute; reflexivity).
  do 6 (apply begin_reached; [|simpl; lia]). by apply reachable_init, demo_site_initial.
Qed.

Lemma checked_reached : reachable site_initial (site_step 1000) checked.
Proof.
  replace checked with (fold_left (goes_on 1000) (flat_map (fun n => repeat (n, 10) 4) [0; 1; 2; 3; 4; 5]%nat) together)
    by (vm_compute; reflexivity).
  apply goes_on_reached, together_reached.
Qed.

Lemma guessed_reached : reachable site_initial (site_step 1000) guessed.
Proof.
  replace guessed with (fold_left (goes_on 1000) (repeat (0%nat, 20) 30) checked) by (vm_compute; reflexivity).
  apply goes_on_reached, checked_reached.
Qed.

Lemma demo_guessed_reachable : reachable site_initial (site_step 1000) demo_guessed.
Proof.
  replace demo_guessed with (run 1000 30 (begin 30 None "right" guessed)) by (vm_compute; reflexivity).
  apply goes_on_reached, begin_reached; [apply guessed_reached|simpl; lia].
Qed.

