(* ===== verification/ConfigFiles.v ===== *)
(** Capturing and restoring configuration files:
    src/backend/lib/configuration-files.js.

    A file system maps paths to regular files, symbolic links and other entries;
    the directories above a path are not modelled.  A missing file is part of
    what is captured. *)

From stdpp Require Import gmap.
From S2P Require Import Prelude JsString Errors.
#[local] Open Scope string_scope.
#[local] Open Scope list_scope.
#[local] Open Scope Z_scope.

Inductive entry : Type :=
| Regular (content : string) (mode : Z)
| Link (target : string)
| Directory.

Abbreviation filesystem := (gmap string entry).

(** [path.resolve(dirname(path), target)], and the mask of the process. *)
Class Posix : Type := { resolve_link : string -> string -> string; umask : Z }.

Inductive stat_result : Type := Found (content : string) (mode : Z) | NotRegular | NoEntry | TooManyLinks.

#[global] Instance stat_result_eq_dec : EqDecision stat_result.
Proof. solve_decision. Defined.

(** What capturing found at a path; [fs_content] is [None] for a missing file. *)
Record snapshot : Type := MkSnapshot { sn_path : string; sn_content : option string; sn_mode : Z; sn_symlink : option string }.

Section Files.
Context `{Posix}.
Implicit Types fs : filesystem.

(** Following links costs fuel: the system's limit. *)
Fixpoint stat (fuel : nat) (path : string) fs : stat_result :=
  match fs !! path with
  | None => NoEntry
  | Some (Regular content mode) => Found content mode
  | Some Directory => NotRegular
  | Some (Link target) => match fuel with O => TooManyLinks | S fuel' => stat fuel' (resolve_link path target) fs end
  end.

Definition MAX_LINKS : nat := 40.

Definition not_regular (path : string) : error := NativeError ("Configuration path is not a regular file: " ++ path)%string.

Definition capture_one (path : string) fs : fallible snapshot :=
  match fs !! path with
  | None => Ok (MkSnapshot path None 384 None)
  | Some e =>
      let symlink := match e with Link target => Some target | _ => None end in
      match stat MAX_LINKS path fs with
      | Found content mode => Ok (MkSnapshot path (Some content) (Z.land mode 511) symlink)
      | NoEntry => Ok (MkSnapshot path None 384 None)
      | NotRegular => Throw (not_regular path)
      | TooManyLinks => Throw (NativeError "ELOOP: too many symbolic links encountered")
      end
  end.

(** [new Set(paths)] *)
Fixpoint distinct (seen paths : list string) : list string :=
  match paths with
  | [] => []
  | p :: rest => if existsb (String.eqb p) seen then distinct seen rest else p :: distinct (p :: seen) rest
  end.

Definition captureConfigurationFiles (paths : list string) fs : fallible (list snapshot) :=
  rmapM (fun p => capture_one p fs) (distinct [] paths).

(** Whether a path already is as it was. *)
Definition same_snapshot (a b : snapshot) : bool :=
  bool_decide (sn_content a = sn_content b) && (sn_mode a =? sn_mode b) &&
  String.eqb (default "" (sn_symlink a)) (default "" (sn_symlink b)).

(** What is published under the temporary name and renamed; a rename does not
    replace a directory. *)
Definition published (s : snapshot) (content : string) : entry :=
  match sn_symlink s with
  | Some target => if String.eqb target "" then Regular content (Z.land (sn_mode s) (Z.lnot umask)) else Link target
  | None => Regular content (Z.land (sn_mode s) (Z.lnot umask))
  end.

Definition is_directory (path : string) fs : bool := match fs !! path with Some Directory => true | _ => false end.

Definition restore_one (s : snapshot) fs : fallible unit * filesystem :=
  match sn_content s with
  | None =>
      if is_directory (sn_path s) fs then (Throw (NativeError "EISDIR: illegal operation on a directory"), fs)
      else (Ok tt, delete (sn_path s) fs)
  | Some content =>
      match capture_one (sn_path s) fs with
      | Throw e => (Throw e, fs)
      | Ok existing =>
          if same_snapshot existing s then (Ok tt, fs)
          else (Ok tt, <[sn_path s := published s content]> fs)
      end
  end.

Fixpoint restoreConfigurationFiles (snapshots : list snapshot) fs : fallible unit * filesystem :=
  match snapshots with
  | [] => (Ok tt, fs)
  | s :: rest =>
      match restore_one s fs with
      | (Ok _, fs') => restoreConfigurationFiles rest fs'
      | (Throw e, fs') => (Throw e, fs')
      end
  end.

(** *** Restoring what was captured *)

(** A path holds again what it held: the same link, or the same bytes with the
    permissions that were left unchanged or survive the mask; what was missing,
    or led nowhere, is missing. *)
Definition restored (before after : filesystem) (path : string) : Prop :=
  match before !! path with
  | Some (Regular content mode) =>
      exists mode', after !! path = Some (Regular content mode') /\
        (Z.land mode' 511 = Z.land mode 511 \/ mode' = Z.land (Z.land mode 511) (Z.lnot umask))
  | Some (Link target) => if decide (stat MAX_LINKS path before = NoEntry) then after !! path = None else after !! path = Some (Link target)
  | Some Directory => after !! path = before !! path
  | None => after !! path = None
  end.

Lemma distinct_in seen paths p : In p (distinct seen paths) <-> In p paths /\ ~ In p seen.
Proof.
  revert seen. induction paths as [|q rest IH]; intros seen; simpl; [tauto|].
  destruct (existsb (String.eqb q) seen) eqn:E.
  - rewrite IH. apply existsb_eqb_In in E. split; [tauto|]. intros [[->|?] ?]; [done|tauto].
  - assert (~ In q seen) as Hq by (intros Hq; apply existsb_eqb_In in Hq; congruence). simpl. rewrite IH. simpl.
    destruct (decide (p = q)) as [->|Hne]; [tauto|]. intuition congruence.
Qed.

Lemma distinct_nodup seen paths : List.NoDup (distinct seen paths).
Proof.
  revert seen. induction paths as [|q rest IH]; intros seen; simpl; [constructor|].
  destruct (existsb (String.eqb q) seen); [done|]. constructor; [|done]. intros Hin%distinct_in. simpl in Hin. tauto.
Qed.

Lemma capture_path p fs s : capture_one p fs = Ok s -> sn_path s = p.
Proof. unfold capture_one. repeat case_match; by intros [= <-]. Qed.

Lemma restore_other s fs path : path <> sn_path s -> (snd (restore_one s fs)) !! path = fs !! path.
Proof.
  intros Hne. unfold restore_one. repeat case_match; cbn [snd]; try done; [by rewrite lookup_insert_ne|by rewrite lookup_delete_ne].
Qed.

Lemma capture_link path fs s target : fs !! path = Some (Link target) -> capture_one path fs = Ok s ->
  (stat MAX_LINKS path fs = NoEntry /\ s = MkSnapshot path None 384 None) \/
  (stat MAX_LINKS path fs <> NoEntry /\ exists content mode, s = MkSnapshot path (Some content) (Z.land mode 511) (Some target)).
Proof.
  intros E. unfold capture_one. rewrite E. destruct (stat MAX_LINKS path fs); try done; intros [= <-]; [right|left]; split; eauto; done.
Qed.

(** Restoring one captured path; a link of the file system is never empty. *)
Lemma restore_captured path before fs s fs' :
  capture_one path before = Ok s -> (forall t, before !! path = Some (Link t) -> t <> "") ->
  (forall t, fs !! path = Some (Link t) -> t <> "") ->
  restore_one s fs = (Ok tt, fs') -> restored before fs' path.
Proof.
  intros Hc Hl Hl' Hr. pose proof (capture_path _ _ _ Hc) as Hp. unfold restored.
  destruct (before !! path) as [[content mode|target|]|] eqn:Eb.
  - unfold capture_one in Hc. rewrite Eb in Hc. unfold stat, MAX_LINKS in Hc. rewrite Eb in Hc. injection Hc as <-.
    unfold restore_one in Hr. simpl in Hr. destruct (capture_one path fs) as [existing|] eqn:Ee; [|done].
    destruct (same_snapshot existing _) eqn:Es; injection Hr as <-.
    + unfold same_snapshot in Es. simpl in Es. apply andb_true_iff in Es as [[Es1%bool_decide_eq_true Es2%Z.eqb_eq]%andb_true_iff Es3%String.eqb_eq].
      unfold capture_one in Ee. destruct (fs !! path) as [[c m|t|]|] eqn:Ef.
      * unfold stat, MAX_LINKS in Ee. rewrite Ef in Ee. injection Ee as <-. simpl in *. simplify_eq. eauto.
      * destruct (stat MAX_LINKS path fs); try done; injection Ee as <-; simpl in *; [|done]. by destruct (Hl' t eq_refl).
      * unfold stat, MAX_LINKS in Ee. rewrite Ef in Ee. done.
      * injection Ee as <-. done.
    + exists (Z.land (Z.land mode 511) (Z.lnot umask)). split; [|by right]. by rewrite lookup_insert_eq.
  - destruct (capture_link _ _ _ _ Eb Hc) as [[En ->]|(En & content & mode & ->)]; unfold restore_one in Hr; simpl in Hr.
    + rewrite decide_True by done. destruct (is_directory path fs); [done|]. injection Hr as <-. by rewrite lookup_delete_eq.
    + rewrite decide_False by done. destruct (capture_one path fs) as [existing|] eqn:Ee; [|done].
      specialize (Hl target eq_refl). destruct (same_snapshot existing _) eqn:Es; injection Hr as <-.
      * unfold same_snapshot in Es. simpl in Es. apply andb_true_iff in Es as [_ Es3%String.eqb_eq].
        unfold capture_one in Ee. destruct (fs !! path) as [[c m|t|]|] eqn:Ef; repeat case_match; simplify_eq/=; done.
      * rewrite lookup_insert_eq. unfold published. simpl. apply String.eqb_neq in Hl. by rewrite Hl.
  - unfold capture_one in Hc. rewrite Eb in Hc. unfold stat, MAX_LINKS in Hc. by rewrite Eb in Hc.
  - unfold capture_one in Hc. rewrite Eb in Hc. injection Hc as <-. unfold restore_one in Hr. simpl in Hr.
    destruct (is_directory path fs); [done|]. injection Hr as <-. by rewrite lookup_delete_eq.
Qed.

Lemma restore_keeps snapshots fs fs' path :
  restoreConfigurationFiles snapshots fs = (Ok tt, fs') -> ~ In path (map sn_path snapshots) -> fs' !! path = fs !! path.
Proof.
  revert fs. induction snapshots as [|s rest IH]; intros fs; simpl; [by intros [= <-]|].
  destruct (restore_one s fs) as [[u|e] fs1] eqn:E; [|done]. intros Hr Hn. rewrite (IH fs1 Hr) by tauto.
  pose proof (restore_other s fs path) as Ho. rewrite E in Ho. apply Ho. intros ->. tauto.
Qed.

(** what was captured comes back.  If restoring the captured files
    succeeds, then whatever happened to the files in between, every captured path
    holds again the same bytes or the same link, or is missing as it was, and
    every other path is left as it is; permissions come back up to the mask of the
    process. *)
Theorem captured_files_come_back paths before fs fs' snapshots :
  (forall p t, before !! p = Some (Link t) -> t <> "") -> (forall p t, fs !! p = Some (Link t) -> t <> "") ->
  captureConfigurationFiles paths before = Ok snapshots ->
  restoreConfigurationFiles snapshots fs = (Ok tt, fs') ->
  (forall path, In path paths -> restored before fs' path) /\ (forall path, ~ In path paths -> fs' !! path = fs !! path).
Proof.
  intros Hl Hl' Hc%rmapM_ok Hr.
  assert (map sn_path snapshots = distinct [] paths) as Em.
  { clear Hr. induction Hc as [|p s ps ss Hs _ IH]; [done|]. simpl. f_equal; [by eapply capture_path|done]. }
  assert (forall q, In q (map sn_path snapshots) <-> In q paths) as Hin by (intros q; rewrite Em, distinct_in; simpl; tauto).
  split; intros path Hp; [|by apply (restore_keeps snapshots); [done|rewrite Hin]].
  apply Hin in Hp. pose proof (distinct_nodup [] paths) as Hnd. rewrite <- Em in Hnd. clear Em Hin.
  revert fs Hl' Hr. induction Hc as [|p s ps ss Hs Hss IH]; intros fs Hl' Hr; [done|]. simpl in Hr, Hp, Hnd.
  inversion Hnd as [|? ? Hn Hnd']; subst. destruct (restore_one s fs) as [[[]|e] fs1] eqn:E; [|done].
  destruct Hp as [<-|Hp].
  - pose proof (capture_path _ _ _ Hs) as Hps. unfold restored. rewrite (restore_keeps _ _ _ _ Hr Hn).
    pose proof (restore_captured p before fs s fs1 Hs (Hl p) (Hl' p) E) as Hres. unfold restored in Hres. by rewrite Hps.
  - apply (IH Hp Hnd' fs1); [|done]. intros q t Hq.
    destruct (decide (q = sn_path s)) as [->|Hne].
    + unfold restore_one in E. repeat case_match; simplify_eq; try by apply (Hl' _ _ Hq).
      all: try (by rewrite lookup_delete_eq in Hq). rewrite lookup_insert_eq in Hq. unfold published in Hq.
      repeat case_match; simplify_eq. by apply String.eqb_neq.
    + pose proof (restore_other s fs q Hne) as Ho. rewrite E in Ho. simpl in Ho. rewrite Ho in Hq. by apply (Hl' q).
Qed.
End Files.

(** ** Concrete files *)

#[local] Instance toy_posix : Posix := { resolve_link _ target := target; umask := 18 }.

Definition toy_before : filesystem := {[ "a" := Regular "x" 420; "b" := Link "a"; "g" := Regular "k" 436 ]}.
Definition toy_after : filesystem := {[ "a" := Regular "y" 384; "c" := Regular "z" 420; "d" := Regular "w" 420 ]}.
Definition toy_paths : list string := ["a"; "b"; "c"; "a"; "g"].
Definition toy_snapshots : list snapshot := match captureConfigurationFiles toy_paths toy_before with Ok l => l | Throw _ => [] end.
Definition toy_restored : filesystem := snd (restoreConfigurationFiles toy_snapshots toy_after).

Lemma captured_files_witness :
  toy_restored !! "a" = Some (Regular "x" 420) /\ toy_restored !! "b" = Some (Link "a") /\ toy_restored !! "c" = None /\
  toy_restored !! "d" = toy_after !! "d".
Proof.
  split; [vm_compute; reflexivity|]. split; [vm_compute; reflexivity|]. split; [vm_compute; reflexivity|].
  apply (captured_files_come_back toy_paths toy_before toy_after toy_restored toy_snapshots).
  - intros p t Hp. unfold toy_before in Hp. repeat (apply lookup_insert_Some in Hp as [[_ Hp]|[_ Hp]]; [by simplify_eq|]).
    apply lookup_singleton_Some in Hp as [_ Hp]. by simplify_eq.
  - intros p t Hp. unfold toy_after in Hp. repeat (apply lookup_insert_Some in Hp as [[_ Hp]|[_ Hp]]; [by simplify_eq|]).
    apply lookup_singleton_Some in Hp as [_ Hp]. by simplify_eq.
  - vm_compute. reflexivity.
  - vm_compute. reflexivity.
  - simpl. intuition discriminate.
Defined.

(** Permissions beyond the mask do not come back: the file "g" was writable by
    its group (0664) and is created anew with 0644. *)
Lemma group_permission_is_lost : toy_restored !! "g" = Some (Regular "k" 420) /\ toy_before !! "g" = Some (Regular "k" 436).
Proof. split; vm_compute; reflexivity. Qed.
