(* ===== verification/HostResponses.v ===== *)
(** What responses show of stored settings: src/backend/lib/service-credentials.js,
    src/backend/lib/host-response.js, src/backend/lib/retired-host-metadata.js and
    [maskItems] of src/backend/internal/access-list.js.

    Settings are untyped values; the JSON parser is a parameter.  A copy of an
    object ([{ ...o }], [cloneDeep]) is the same table; a value that is not an
    object has no properties to copy. *)

From S2P Require Import Prelude JsString JsValue JsObject Errors TrafficPolicy.
#[local] Open Scope string_scope.
#[local] Open Scope list_scope.
#[local] Open Scope Z_scope.

(** [a || b] *)
Definition either (a b : value) : value := if js_truthy a then a else b.

Fixpoint size (v : value) : nat :=
  match v with
  | VArr xs => S (list_sum (map size xs))
  | VObj o => S (list_sum (map (fun kv => size (snd kv)) o))
  | _ => 1%nat
  end.

(** ** Saved credentials *)

Definition ssoSecretFields : list (string * string) :=
  [("oauth2_client_secret", "oauth2ClientSecret"); ("oauth2_cookie_secret", "oauth2CookieSecret"); ("oidc_client_secret", "oidcClientSecret")].

Definition secret_keys : list string := map fst ssoSecretFields ++ map snd ssoSecretFields.

Section Credentials.
Context `{Platform}.

(** A string is parsed again and again; each time it is shorter. *)
Fixpoint normalize_meta (fuel : nat) (v : value) : fields :=
  match v with
  | VStr s =>
      match fuel with
      | O => []
      | S fuel' => match JSON_parse s with Some v' => normalize_meta fuel' v' | None => [] end
      end
  | VObj o => o
  | _ => []
  end.
Definition normalizeMeta (v : value) : fields := normalize_meta (match v with VStr s => S (String.length s) | _ => 0 end) v.

Definition saved_secret (saved : fields) (fa : string * string) : value := either (field_of (fst fa) saved) (field_of (snd fa) saved).

(** The two properties of the answer: [meta] and [credentials_configured]. *)
Definition publicAccessListCredentials (meta : value) : fields * fields :=
  let saved := normalizeMeta meta in
  (omit secret_keys saved, map (fun fa => (fst fa, VBool (js_truthy (saved_secret saved fa)))) ssoSecretFields).

Definition preserve_one (incoming saved : fields) (meta : fields) (fa : string * string) : fields :=
  let secret := either (saved_secret incoming fa) (saved_secret saved fa) in
  let meta := omit [snd fa] meta in
  if js_truthy secret then set_field (fst fa) secret meta else omit [fst fa] meta.

Definition preserveAccessListCredentials (incoming : fields) (existing : value) : fields :=
  fold_left (preserve_one incoming (normalizeMeta existing)) ssoSecretFields incoming.
End Credentials.

Definition publicCloudflaredTunnel (tunnel : fields) : fields :=
  set_field "has_token" (VBool (js_truthy (field_of "token" tunnel))) (omit ["token"] tunnel).

Definition is_text (s : string) (v : value) : bool := match v with VStr t => String.eqb t s | _ => false end.

Definition publicDdnsProvider (provider : fields) : fields :=
  let config := fields_of (field_of "config" provider) in
  set_field "has_credentials"
    (VBool (js_truthy (field_of (if is_text "custom" (field_of "provider" provider) then "url" else "token") config)))
    (set_field "config" (VObj (if is_text "cloudflare" (field_of "provider" provider) then pick ["zone_id"] config else []))
       provider).

(** [===] of two strings. *)
Definition same_text (a b : value) : bool := match a, b with VStr s, VStr t => String.eqb s t | VUndef, VUndef => true | _, _ => false end.

Definition preserveDdnsCredentials (incoming existing : fields) : fields :=
  let provider := either (field_of "provider" incoming) (field_of "provider" existing) in
  let same := same_text provider (field_of "provider" existing) in
  if negb (js_truthy (field_of "config" incoming)) && same then incoming
  else
    let saved := fields_of (field_of "config" existing) in
    let config := assign_all (if same then saved else []) (fields_of (field_of "config" incoming)) in
    let field := if is_text "custom" provider then "url" else "token" in
    let config :=
      if negb (js_truthy (field_of field config)) && same && js_truthy (field_of field saved)
      then set_field field (field_of field saved) config else config in
    set_field "config" (VObj config) incoming.

(** ** Hosts *)

Definition retiredHostMetadataFields : list string := ["wasm_filters"; "wasmFilters"; "wasm_status"; "wasmStatus"].

Section Hosts.
Context `{Platform}.

(** Up to two layers of JSON. *)
Fixpoint decode_json (depth : nat) (v : value) : fallible value :=
  match depth, v with
  | S depth', VStr s =>
      if 16 * 1024 * 1024 <? strlen s then Throw (NativeError "Host metadata exceeds the migration bound")
      else match JSON_parse s with Some v' => decode_json depth' v' | None => Throw (NativeError "SyntaxError") end
  | _, _ => Ok v
  end.

Definition review_needed : error := NativeError "Host metadata requires review before removed request filters can be migrated".

Definition readRetiredHostMetadata (v : value) : fallible fields :=
  match v with
  | VUndef | VNull => Ok []
  | _ => match decode_json 2 v with Ok (VObj o) => Ok o | _ => Throw review_needed end
  end.

Definition active_filter (f : value) : bool :=
  match f with VObj o => negb (includes_key (map fst o) "enabled") || js_truthy (field_of "enabled" o) | _ => true end.

Definition activeBindings (v : value) : bool :=
  match v with
  | VUndef | VNull => false
  | _ => match decode_json 2 v with Ok (VArr filters) => existsb active_filter filters | _ => true end
  end.

Definition hasActiveRetiredHostBindings (v : value) : fallible bool :=
  rmap (fun meta => activeBindings (field_of "wasm_filters" meta) || activeBindings (field_of "wasmFilters" meta)) (readRetiredHostMetadata v).

(** A host with an active removed filter is switched off. *)
Definition retireHostRuntime (host : fields) : fallible fields :=
  let? active := hasActiveRetiredHostBindings (field_of "meta" host) in
  let? previous := readRetiredHostMetadata (field_of "meta" host) in
  let meta := omit retiredHostMetadataFields previous in
  Ok (if active then set_field "meta" (VObj (set_field "nginx_online" (VBool false) meta)) (set_field "enabled" (VInt 0) host)
      else set_field "meta" (VObj meta) host).

Definition sanitizeHostMeta (meta : value) : fallible fields :=
  rmap (omit (["dns_provider_credentials"; "dnsProviderCredentials"] ++ retiredHostMetadataFields)) (readRetiredHostMetadata meta).

(** [if (row.k) row.k = f(row.k)] *)
Definition change_if (k : string) (f : value -> value) (row : fields) : fields :=
  if js_truthy (field_of k row) then set_field k (f (field_of k row)) row else row.

Definition without (ks : list string) (v : value) : value := match v with VObj o => VObj (omit ks o) | _ => VObj [] end.

Definition host_secrets : list string := ["git_credentials"; "terminal_password"; "terminal_private_key"].

(** [{ ...v, meta: {} }] *)
Definition certificate_view (v : value) : value := VObj (set_field "meta" (VObj []) (fields_of v)).

Definition list_view (v : value) : value :=
  let o := set_field "meta" (without secret_keys (get "meta" v)) (fields_of v) in
  VObj (match field_of "items" o with VArr items => set_field "items" (VArr (map (without ["password"]) items)) o | _ => o end).

Definition managed (v : value) : value :=
  match v with VStr s => if starts_with "/data/websites/" s then VStr "(managed)" else v | _ => v end.

Definition sanitizeProxyHost (host : fields) : fallible fields :=
  let row := omit (["is_deleted"; "maintenance_pending"] ++ host_secrets) host in
  let row := match field_of "owner" row with VObj _ => set_field "owner" (without ["is_deleted"] (field_of "owner" row)) row | _ => row end in
  let? row :=
    if js_truthy (field_of "meta" row) then rmap (fun m => set_field "meta" (VObj m) row) (sanitizeHostMeta (field_of "meta" row)) else Ok row in
  let row := change_if "forward_host" managed row in
  let row := change_if "certificate" certificate_view row in
  Ok (change_if "access_list" list_view row).

(** [maskItems]; the fuel bounds how deep lists and hosts nest. *)
Definition mask_item (item : value) : value :=
  VObj (set_field "password" (VStr "") (set_field "hint" (VStr "********") (fields_of item))).

Fixpoint mask_items (fuel : nat) (list : value) : fallible value :=
  match fuel, list with
  | S fuel', VObj o =>
      let '(meta, configured) := publicAccessListCredentials (field_of "meta" o) in
      let o := set_field "credentials_configured" (VObj configured) (set_field "meta" (VObj meta) o) in
      let o := match field_of "items" o with VArr items => set_field "items" (VArr (map mask_item items)) o | _ => o end in
      match field_of "proxy_hosts" o with
      | VArr hosts =>
          let? hosts := rmapM (fun h =>
            let? h := if js_truthy (get "access_list" h)
                      then rmap (fun l => set_field "access_list" l (fields_of h)) (mask_items fuel' (get "access_list" h))
                      else Ok (fields_of h) in
            rmap VObj (sanitizeProxyHost h)) hosts in
          Ok (VObj (set_field "proxy_hosts" (VArr hosts) o))
      | _ => Ok (VObj o)
      end
  | _, _ => Ok list
  end.
Definition maskItems (list : value) : fallible value := mask_items (size list) list.
End Hosts.


(** ** What is shown of a list *)

Definition lacks (ks : list string) (v : value) : Prop := forall k, In k ks -> get k v = VUndef.

Definition blank_password (item : value) : Prop := get "password" item = VStr "" \/ get "password" item = VUndef.

(** A host without its own credentials, those of its certificate, and those of its DNS provider. *)
Definition host_masked (h : value) : Prop :=
  lacks host_secrets h /\
  (js_truthy (get "meta" h) = true -> lacks (["dns_provider_credentials"; "dnsProviderCredentials"] ++ retiredHostMetadataFields) (get "meta" h)) /\
  (js_truthy (get "certificate" h) = true -> get "meta" (get "certificate" h) = VObj []).

#[local] Set Warnings "-register-all".
(** A list, the hosts it names, the lists these hosts name, and so on. *)
Inductive masked : value -> Prop :=
| masked_plain v : (forall o, v <> VObj o) -> masked v
| masked_list o :
    lacks secret_keys (field_of "meta" o) ->
    (forall items, field_of "items" o = VArr items -> Forall blank_password items) ->
    (forall hosts, field_of "proxy_hosts" o = VArr hosts ->
      Forall (fun h => host_masked h /\ masked (get "access_list" h)) hosts) ->
    masked (VObj o).

Lemma lacks_omit ks o : lacks ks (VObj (omit ks o)).
Proof. intros k Hk. simpl. rewrite field_of_omit. apply includes_key_spec in Hk. by rewrite Hk. Qed.

Lemma lacks_without ks v : lacks ks (without ks v).
Proof. destruct v; try done. apply lacks_omit. Qed.

Lemma field_of_change_if k j f o : k <> j -> field_of k (change_if j f o) = field_of k o.
Proof. intros Hne. unfold change_if. destruct (js_truthy _); [by apply field_of_set_ne|done]. Qed.

Lemma field_of_changed k f o : js_truthy (field_of k o) = true -> field_of k (change_if k f o) = f (field_of k o).
Proof. intros Ht. unfold change_if. rewrite Ht. apply field_of_set. Qed.

Lemma field_of_unchanged k f o : js_truthy (field_of k o) = false -> field_of k (change_if k f o) = field_of k o.
Proof. intros Ht. unfold change_if. by rewrite Ht. Qed.

Lemma list_view_masked l : masked l -> masked (list_view l).
Proof.
  intros Hl. unfold list_view. destruct l as [| | | | | | |o]; simpl; try (apply masked_list; simpl; [by intros k ?|done|done]).
  inversion Hl as [v Hv|? Hm Hi Hp]; subst; [by edestruct Hv|].
  rewrite field_of_set_ne by done.
  apply masked_list.
  - destruct (field_of "items" o); rewrite ?field_of_set_ne by done; rewrite field_of_set; apply lacks_without.
  - intros items. destruct (field_of "items" o) eqn:E; rewrite ?field_of_set, ?field_of_set_ne by done; rewrite ?E; try done.
    intros [= <-]. apply Forall_map, Forall_forall. intros x _. right. apply lacks_without. by left.
  - intros hosts. destruct (field_of "items" o) eqn:E; rewrite !field_of_set_ne by done; apply Hp.
Qed.

Section Shown.
Context `{Platform}.

Lemma sanitizeHostMeta_lacks v m :
  sanitizeHostMeta v = Ok m -> lacks (["dns_provider_credentials"; "dnsProviderCredentials"] ++ retiredHostMetadataFields) (VObj m).
Proof. unfold sanitizeHostMeta. destruct (readRetiredHostMetadata v); [|done]. intros [= <-]. apply lacks_omit. Qed.

Lemma access_list_of_row ks o : ~ In "access_list" ks ->
  field_of "access_list" (omit ks o) = field_of "access_list" o.
Proof. intros Hn. rewrite field_of_omit. destruct (includes_key _ _) eqn:E; [by apply includes_key_spec in E|done]. Qed.

Lemma sanitizeProxyHost_masks o out :
  sanitizeProxyHost o = Ok out -> masked (field_of "access_list" o) ->
  host_masked (VObj out) /\ masked (field_of "access_list" out).
Proof.
  unfold sanitizeProxyHost. set (row0 := omit _ o).
  set (row1 := match field_of "owner" row0 with VObj _ => _ | _ => row0 end).
  assert (forall k, k <> "owner" -> field_of k row1 = field_of k row0) as Hrow1.
  { intros k Hk. subst row1. destruct (field_of "owner" row0); try done. by apply field_of_set_ne. }
  intros Hs Hl. set (meta_done := if js_truthy (field_of "meta" row1) then _ else _) in Hs.
  destruct meta_done as [row2|] eqn:Em; [|done]. subst meta_done. simpl in Hs. injection Hs as <-.
  assert (forall k, k <> "meta" -> field_of k row2 = field_of k row1) as Hrow2.
  { intros k Hk. destruct (js_truthy _); [|by injection Em as <-].
    destruct (sanitizeHostMeta _); [|done]. injection Em as <-. by apply field_of_set_ne. }
  split; [repeat split|].
  - intros k Hk. simpl. rewrite !field_of_change_if by (intros ->; simpl in Hk; intuition discriminate).
    rewrite Hrow2, Hrow1 by (intros ->; simpl in Hk; intuition discriminate).
    apply (lacks_omit (["is_deleted"; "maintenance_pending"] ++ host_secrets) o). apply in_or_app. by right.
  - simpl. rewrite !field_of_change_if by done.
    destruct (js_truthy (field_of "meta" row1)) eqn:Et; [|injection Em as <-; congruence].
    destruct (sanitizeHostMeta _) as [m|] eqn:Hm; [|done]. injection Em as <-. rewrite field_of_set. intros _.
    by apply (sanitizeHostMeta_lacks _ _ Hm).
  - simpl. rewrite field_of_change_if by done.
    destruct (js_truthy (field_of "certificate" (change_if "forward_host" managed row2))) eqn:Et.
    + rewrite field_of_changed by done. intros _. simpl. apply field_of_set.
    + rewrite field_of_unchanged by done. congruence.
  - assert (field_of "access_list" (change_if "certificate" certificate_view (change_if "forward_host" managed row2)) = field_of "access_list" o) as He.
    { rewrite !field_of_change_if, Hrow2, Hrow1 by done. apply access_list_of_row. simpl. intuition discriminate. }
    unfold change_if at 1. rewrite He. destruct (js_truthy (field_of "access_list" o)); [|by rewrite He].
    rewrite field_of_set. by apply list_view_masked.
Qed.

Lemma size_pos v : (1 <= size v)%nat.
Proof. destruct v; simpl; lia. Qed.

Lemma size_field k o : js_truthy (field_of k o) = true -> (size (field_of k o) < size (VObj o))%nat.
Proof.
  simpl. induction o as [|[j v] o IH]; [done|]. simpl. destruct (String.eqb k j); [lia|]. intros Ht. specialize (IH Ht). lia.
Qed.

Lemma size_get k v : js_truthy (get k v) = true -> (size (get k v) < size v)%nat.
Proof. destruct v; try done. apply size_field. Qed.

Lemma size_member x xs : In x xs -> (size x < size (VArr xs))%nat.
Proof. simpl. induction xs as [|y xs IH]; [done|]. simpl. intros [->|Hin]; [lia|]. specialize (IH Hin). lia. Qed.

Lemma plain_masked v : js_truthy v = false -> masked v.
Proof. intros Ht. constructor. by intros o ->. Qed.

Lemma mask_item_blank x : blank_password (mask_item x).
Proof. left. unfold mask_item. apply field_of_set. Qed.

Lemma items_masked (o : fields) items :
  field_of "items" (match field_of "items" o with VArr xs => set_field "items" (VArr (map mask_item xs)) o | _ => o end) = VArr items ->
  Forall blank_password items.
Proof.
  destruct (field_of "items" o) eqn:E; rewrite ?E; try done. rewrite field_of_set. intros [= <-].
  apply Forall_map, Forall_forall. intros x _. apply mask_item_blank.
Qed.

Lemma items_keep k (o : fields) : k <> "items" ->
  field_of k (match field_of "items" o with VArr xs => set_field "items" (VArr (map mask_item xs)) o | _ => o end) = field_of k o.
Proof. intros Hk. destruct (field_of "items" o); try done. by apply field_of_set_ne. Qed.

Lemma mask_items_masks fuel l out : (size l <= fuel)%nat -> mask_items fuel l = Ok out -> masked out.
Proof.
  revert l out. induction fuel as [|fuel IH]; intros l out Hf; [pose proof (size_pos l); lia|].
  destruct l as [| | | | | | |o]; simpl; try by intros [= <-]; apply masked_plain.
  set (o1 := set_field "credentials_configured" _ _). set (o2 := match field_of "items" o1 with VArr _ => _ | _ => o1 end).
  assert (lacks secret_keys (field_of "meta" o2)) as Hmeta.
  { subst o2. rewrite items_keep by done. subst o1. rewrite field_of_set_ne, field_of_set by done. apply lacks_omit. }
  assert (field_of "proxy_hosts" o2 = field_of "proxy_hosts" o) as Hhosts.
  { subst o2. rewrite items_keep by done. subst o1. by rewrite !field_of_set_ne by done. }
  pose proof (items_masked o1) as Hitems. fold o2 in Hitems. clearbody o2. clear o1.
  assert (js_truthy (field_of "proxy_hosts" o2) = true -> (size (field_of "proxy_hosts" o2) <= fuel)%nat) as Hsz.
  { rewrite Hhosts. intros Ht. pose proof (size_field _ _ Ht). lia. }
  clear Hhosts Hf. destruct (field_of "proxy_hosts" o2) as [| | | | | |hosts|] eqn:Eh;
    try by intros [= <-]; apply masked_list; [done|done|congruence].
  destruct (rmapM _ hosts) as [hosts'|] eqn:Em; [|done]. intros [= <-]. apply rmapM_ok in Em.
  apply masked_list.
  - by rewrite field_of_set_ne.
  - intros items. rewrite field_of_set_ne by done. apply Hitems.
  - intros hs. rewrite field_of_set. intros [= <-]. apply List.Forall_forall. intros h' Hin.
    destruct (Forall2_in_r _ _ _ _ Em Hin) as (h & Hh & Hs). cbv beta in Hs.
    pose proof (size_member _ _ Hh) as Hlt. specialize (Hsz eq_refl).
    destruct (js_truthy (get "access_list" h)) eqn:Et.
    + destruct (mask_items fuel (get "access_list" h)) as [l|] eqn:El; [|done]. simpl in Hs.
      destruct (sanitizeProxyHost _) as [out|] eqn:Eo; [|done]. injection Hs as <-.
      apply (sanitizeProxyHost_masks _ _ Eo). rewrite field_of_set. apply size_get in Et. by apply (IH (get "access_list" h)); [lia|].
    + simpl in Hs. destruct (sanitizeProxyHost _) as [out|] eqn:Eo; [|done]. injection Hs as <-.
      apply (sanitizeProxyHost_masks _ _ Eo). apply plain_masked. by destruct h.
Qed.

(** whatever the list, the hosts it is used by and the lists of these hosts
    hold, what a response shows of a list has no secret of its single sign-on
    settings, an empty password for every user of it, and for every host no
    terminal or git credential, no DNS credential, no setting of the removed
    filters and nothing of the certificate's settings - at every depth. *)
Theorem masked_list_hides_secrets (list out : value) : maskItems list = Ok out -> masked out.
Proof. by apply mask_items_masks. Qed.
End Shown.

(** ** What an edit keeps *)

Lemma omit_omit js ks o : incl js ks -> omit ks (omit js o) = omit ks o.
Proof.
  intros Hi. unfold omit. induction o as [|[j v] o IH]; [done|]. simpl. destruct (includes_key js j) eqn:Ej; simpl.
  - apply includes_key_spec, Hi, includes_key_spec in Ej. by rewrite Ej.
  - by rewrite IH.
Qed.

Lemma omit_omit_in k ks o : In k ks -> omit ks (omit [k] o) = omit ks o.
Proof. intros Hk. apply omit_omit. by intros j [<-|[]]. Qed.

Lemma omit_set_in k v ks o : In k ks -> omit ks (set_field k v o) = omit ks o.
Proof.
  intros Hk. apply includes_key_spec in Hk. unfold omit. induction o as [|[j w] o IH]; simpl; [by rewrite Hk|].
  destruct (String.eqb_spec k j) as [->|]; simpl; [by rewrite Hk|]. by rewrite IH.
Qed.

Section Edits.
Context `{Platform}.

(** The value a secret has after an edit: a supplied one, or else the saved one. *)
Definition kept_secret (incoming saved : fields) (fa : string * string) : value :=
  either (saved_secret incoming fa) (saved_secret saved fa).

Lemma preserve_one_other incoming saved meta fa k :
  k <> fst fa -> k <> snd fa -> field_of k (preserve_one incoming saved meta fa) = field_of k meta.
Proof.
  intros Hf Ha. unfold preserve_one. apply String.eqb_neq in Hf as Hf', Ha as Ha'.
  destruct (js_truthy _); rewrite ?field_of_set_ne by done; rewrite !field_of_omit; simpl; by rewrite ?Hf', ?Ha'.
Qed.

Lemma preserve_one_secret incoming saved meta fa : fst fa <> snd fa ->
  saved_secret (preserve_one incoming saved meta fa) fa =
    if js_truthy (kept_secret incoming saved fa) then kept_secret incoming saved fa else VUndef.
Proof.
  intros Hne. unfold preserve_one, saved_secret at 1, kept_secret. apply String.eqb_neq in Hne as Hn.
  destruct (js_truthy _) eqn:Et.
  - rewrite field_of_set. unfold either at 1. by rewrite Et.
  - rewrite !field_of_omit. simpl. rewrite String.eqb_refl. simpl. rewrite String.eqb_sym in Hn. rewrite Hn. simpl.
    by rewrite String.eqb_refl.
Qed.

Lemma preserve_one_apart incoming saved meta fa fb :
  existsb (includes_key [fst fb; snd fb]) [fst fa; snd fa] = false ->
  saved_secret (preserve_one incoming saved meta fb) fa = saved_secret meta fa.
Proof.
  intros Ha. assert (forall k, In k [fst fa; snd fa] -> k <> fst fb /\ k <> snd fb) as Hne.
  { intros k Hk. pose proof (fun Hin => eq_true_false_abs _ (proj2 (existsb_exists _ _) (ex_intro _ k (conj Hk Hin))) Ha) as Hno.
    split; intros ->; apply Hno, includes_key_spec; simpl; tauto. }
  unfold saved_secret. rewrite !preserve_one_other by (apply Hne; simpl; tauto). done.
Qed.

Lemma preserve_secrets incoming existing fa : In fa ssoSecretFields ->
  saved_secret (preserveAccessListCredentials incoming existing) fa =
    if js_truthy (kept_secret incoming (normalizeMeta existing) fa) then kept_secret incoming (normalizeMeta existing) fa else VUndef.
Proof.
  unfold preserveAccessListCredentials. generalize (normalizeMeta existing). intros saved Hin.
  unfold ssoSecretFields in *. cbn [fold_left]. destruct Hin as [<-|[<-|[<-|[]]]].
  - rewrite 2!preserve_one_apart by reflexivity. by apply preserve_one_secret.
  - rewrite preserve_one_apart by reflexivity. by apply preserve_one_secret.
  - by apply preserve_one_secret.
Qed.

Lemma preserve_one_omit incoming saved meta fa : In fa ssoSecretFields ->
  omit secret_keys (preserve_one incoming saved meta fa) = omit secret_keys meta.
Proof.
  intros Hin. assert (In (fst fa) secret_keys /\ In (snd fa) secret_keys) as [Hf Ha].
  { unfold secret_keys. rewrite !in_app_iff. split; [left|right]; by apply in_map. }
  unfold preserve_one. destruct (js_truthy _); rewrite ?omit_set_in, ?omit_omit_in; by rewrite ?omit_omit_in.
Qed.

Lemma preserve_omit incoming existing :
  omit secret_keys (preserveAccessListCredentials incoming existing) = omit secret_keys incoming.
Proof.
  unfold preserveAccessListCredentials. cbn [fold_left ssoSecretFields]. by rewrite !preserve_one_omit by (simpl; tauto).
Qed.

(** an edit that leaves the secrets out, or blank, as every edit based on
    what a response shows does, keeps them: each secret has its saved value,
    the response shows again which of them are set, and the other settings are
    the edit's own.  In particular saving what was shown changes nothing that
    is shown. *)
Theorem hidden_credentials_survive_an_edit (existing : value) (edit : fields)
    (Hblank : forall fa, In fa ssoSecretFields -> js_truthy (saved_secret edit fa) = false) :
  let saved := preserveAccessListCredentials edit existing in
  (forall fa, In fa ssoSecretFields -> js_truthy (saved_secret (normalizeMeta existing) fa) = true ->
     saved_secret saved fa = saved_secret (normalizeMeta existing) fa) /\
  publicAccessListCredentials (VObj saved) = (omit secret_keys edit, snd (publicAccessListCredentials existing)).
Proof.
  intros saved. assert (forall fa, In fa ssoSecretFields -> kept_secret edit (normalizeMeta existing) fa = saved_secret (normalizeMeta existing) fa) as Hkept.
  { intros fa Hin. unfold kept_secret, either at 1. by rewrite Hblank. }
  split.
  - intros fa Hin Ht. unfold saved. by rewrite preserve_secrets, Hkept, Ht.
  - unfold publicAccessListCredentials. simpl normalizeMeta at 1. cbv zeta. f_equal; [apply preserve_omit|].
    apply map_ext_in. intros fa Hin. do 2 f_equal. change (normalizeMeta (VObj saved)) with saved. unfold saved.
    rewrite preserve_secrets, Hkept by done. by destruct (js_truthy (saved_secret (normalizeMeta existing) fa)) eqn:Et.
Qed.
End Edits.

(** An edit of a provider as it was shown keeps its configuration. *)
Lemma shown_provider_keeps_its_config p config provider :
  field_of "provider" provider = VStr p -> p <> "" -> field_of "config" provider = VObj config ->
  field_of "config" (preserveDdnsCredentials (publicDdnsProvider provider) provider) = VObj config.
Proof.
  intros Hp Hne Hc. unfold preserveDdnsCredentials, publicDdnsProvider. rewrite Hp, Hc. simpl fields_of at 1.
  set (shown := if is_text "cloudflare" (VStr p) then _ else _).
  rewrite !(field_of_set_ne "provider"), (field_of_set_ne "config" "has_credentials"), field_of_set by done. rewrite Hp.
  unfold either. apply String.eqb_neq in Hne. simpl. rewrite Hne. simpl. rewrite String.eqb_refl. simpl.
  rewrite !(field_of_set_ne "config" "has_credentials"), !field_of_set by done. cbn [fields_of].
  assert (assign_all config shown = config) as ->.
  { subst shown. destruct (is_text _ _); [|done]. unfold pick. simpl. destruct (includes_key (map fst config) "zone_id") eqn:E; [|done].
    unfold assign_all. simpl. clear -E. unfold includes_key in E. induction config as [|[j w] o IH]; [done|].
    cbn [field_of set_field]. destruct (String.eqb "zone_id" j) eqn:Ej; [done|]. rewrite IH; [done|].
    cbn [map fst existsb] in E. by rewrite Ej in E. }
  set (k := if String.eqb p "custom" then "url" else "token"). by destruct (js_truthy (field_of k config)).
Qed.

(** A host with an active removed filter is never served after the migration. *)
Lemma retired_filter_is_never_served `{Platform} host out :
  hasActiveRetiredHostBindings (field_of "meta" host) = Ok true -> retireHostRuntime host = Ok out ->
  field_of "enabled" out = VInt 0.
Proof.
  unfold retireHostRuntime. intros ->. destruct (readRetiredHostMetadata _); [|done]. intros [= <-].
  rewrite field_of_set_ne by done. apply field_of_set.
Qed.

(** ** A list at work *)

Module Demo.
#[local] Instance platform : Platform := {|
  isIP _ := false;
  JSON_parse s := if String.eqb s "{saved}" then Some (VObj [("auth_type", VStr "oidc"); ("oidcClientSecret", VStr "s3cret")]) else None
|}.

Definition inner : value :=
  VObj [("id", VInt 7); ("meta", VObj [("oauth2_cookie_secret", VStr "c")]); ("items", VArr [VObj [("username", VStr "ann"); ("password", VStr "p")]])].

Definition host : value :=
  VObj [("id", VInt 3); ("forward_host", VStr "/data/websites/3"); ("terminal_password", VStr "t");
        ("meta", VObj [("dns_provider_credentials", VStr "d"); ("nginx_online", VBool true)]);
        ("certificate", VObj [("id", VInt 4); ("meta", VObj [("key", VStr "k")])]); ("access_list", inner)].

Definition list : value :=
  VObj [("id", VInt 1); ("meta", VStr "{saved}"); ("items", VArr [VObj [("username", VStr "bob"); ("password", VStr "q")]]); ("proxy_hosts", VArr [host])].

Definition shown_list : value := match maskItems list with Ok v => v | Throw _ => VNull end.

Example shown_host : get "access_list" (hd VNull (array_or [] (get "proxy_hosts" shown_list))) =
  VObj [("id", VInt 7); ("meta", VObj []); ("items", VArr [VObj [("username", VStr "ann"); ("hint", VStr "********")]]);
        ("credentials_configured", VObj [("oauth2_client_secret", VBool false); ("oauth2_cookie_secret", VBool true); ("oidc_client_secret", VBool false)])].
Proof. vm_compute. reflexivity. Qed.

Lemma masked_list_witness : maskItems list = Ok shown_list /\ masked shown_list /\ get "meta" shown_list = VObj [("auth_type", VStr "oidc")].
Proof. split; [by vm_compute|]. split; [|by vm_compute]. apply (masked_list_hides_secrets list). by vm_compute. Defined.

Definition edit : fields := [("auth_type", VStr "oidc"); ("oidc_client_secret", VStr ""); ("oidc_client_id", VStr "app")].

Lemma hidden_credentials_witness :
  field_of "oidc_client_secret" (preserveAccessListCredentials edit (VStr "{saved}")) = VStr "s3cret" /\
  publicAccessListCredentials (VObj (preserveAccessListCredentials edit (VStr "{saved}"))) =
    (omit secret_keys edit, snd (publicAccessListCredentials (VStr "{saved}"))).
Proof.
  split; [by vm_compute|]. apply (hidden_credentials_survive_an_edit (VStr "{saved}") edit).
  intros fa Hin. simpl in Hin. by destruct Hin as [<-|[<-|[<-|[]]]].
Defined.
End Demo.
