(* ===== verification/AccessListInput.v ===== *)
(** What an access list may hold and the files it is published in: the checks
    of src/backend/internal/access-list.js ([validateListInput],
    [validateCaBundle], [isBcryptHash], the text of [build]) and
    src/backend/lib/access-list-files.js.

    A request is an untyped value; the URL and X.509 parsers, the address
    library and bcrypt are parameters.  A position in a bundle is the rest of
    the text from there. *)

From S2P Require Import Prelude JsString JsValue JsObject Errors FirewallAddresses Certificates.
#[local] Open Scope string_scope.
#[local] Open Scope list_scope.
#[local] Open Scope Z_scope.

(** [new URL(text).protocol], if it parses; [bcrypt.hash(password, 13)]. *)
Class CredentialLib : Type := { URL_protocol : string -> option string; bcrypt_hash : string -> string }.

(** ** Patterns *)

(** [/[./A-Za-z0-9]/] *)
Definition hash_char (c : ascii) : bool := is_alnum c || any_char (Ascii.eqb c) "./".

(** [/^\$2[aby]\$\d{2}\$[./A-Za-z0-9]{53}$/] *)
Definition isBcryptHash (password : string) : bool :=
  match password with
  | String "$" (String "2" (String v (String "$" (String a (String b (String "$" salt)))))) =>
      any_char (Ascii.eqb v) "aby" && is_digit a && is_digit b && all_chars hash_char salt && (strlen salt =? 53)
  | _ => false
  end.

(** [/^\$apr1\$[./A-Za-z0-9]{1,8}\$[./A-Za-z0-9]{22}$/] *)
Definition isApr1Hash (password : string) : bool :=
  starts_with "$apr1$" password &&
  match split_on "$" (drop_str 6 password) with
  | [salt; digest] => all_chars hash_char salt && (1 <=? strlen salt) && (strlen salt <=? 8) && all_chars hash_char digest && (strlen digest =? 22)
  | _ => false
  end.

(** [/^[^:\r\n\0]+$/] *)
Definition username_char (c : ascii) : bool :=
  negb (Ascii.eqb c ":" || (code c =? 13) || (code c =? 10) || (code c =? 0)).
Definition good_username (s : string) : bool := negb (String.eqb s "") && all_chars username_char s.

(** White space, quotes and the characters [; { } \ $ #]. *)
Definition directive_char (c : ascii) : bool :=
  is_space c || any_char (Ascii.eqb c) ";{}'\$#" || (code c =? 34).

(** [/^\/(?:[A-Za-z0-9_.-]+\/)*[A-Za-z0-9_.-]+\/?$/] *)
Definition path_segment (s : string) : bool :=
  negb (String.eqb s "") && all_chars (fun c => is_alnum c || any_char (Ascii.eqb c) "_.-") s.
Definition absolute_path (s : string) : bool :=
  match split_on "/" s with
  | "" :: rest =>
      let segments := if String.eqb (List.last rest "x") "" then removelast rest else rest in
      negb (Nat.eqb (length segments) 0) && forallb path_segment segments
  | _ => false
  end.

(** ** The request *)

Definition text_fields : list string :=
  ["authentik_host"; "oauth2_proxy_prefix"; "oauth2_provider"; "oauth2_client_id"; "oauth2_client_secret"; "oauth2_cookie_secret";
   "oauth2_oidc_issuer_url"; "oauth2_scope"; "oauth2_allowed_groups"; "oauth2_allowed_emails"; "oauth2_allowed_email_domains";
   "oidc_discovery_url"; "oidc_client_id"; "oidc_client_secret"].
Definition auth_types : list string := ["basic"; "authentik_proxy"; "oauth2_proxy"; "oidc"].

(** [for (const x of v || [])] *)
Definition iterate (v : value) : fallible (list value) :=
  match v with
  | VArr xs => Ok xs
  | VStr s => Ok (map (fun c => VStr (String c "")) (String.list_ascii_of_string s))
  | _ => if js_truthy v then Throw (NativeError "TypeError: not iterable") else Ok []
  end.

(** Reading a property of nothing. *)
Definition no_properties : error := NativeError "TypeError: Cannot read properties".
Definition text_in (ks : list string) (v : value) : bool := match v with VStr s => existsb (String.eqb s) ks | _ => false end.
Definition text_ok (p : string -> bool) (v : value) : bool := match v with VStr s => p s | _ => false end.

Section Input.
Context `{IpLib} `{CredentialLib} `{X509}.

Definition http_url (s : string) : bool :=
  match URL_protocol s with
  | Some protocol => (String.eqb protocol "http:" || String.eqb protocol "https:") && negb (any_char directive_char s)
  | None => false
  end.

Definition validate_meta (meta : value) : fallible unit :=
  let? _ := rmapM (fun field =>
    throw ValidationError ("Access-list " ++ field ++ " must be a string")
      when (negb (is_nullish (get field meta)) && negb (is_str (get field meta))) ;; Ok tt) text_fields in
  throw ValidationError "Invalid access-list authentication type"
    when (js_truthy (get "auth_type" meta) && negb (text_in auth_types (get "auth_type" meta))) ;;
  throw ValidationError "Authentik host must be an HTTP(S) URL without Nginx directives"
    when (js_truthy (get "authentik_host" meta) && negb (text_ok http_url (get "authentik_host" meta))) ;;
  throw ValidationError "OAuth2 proxy prefix must be an absolute URL path"
    when (js_truthy (get "oauth2_proxy_prefix" meta) && negb (text_ok absolute_path (get "oauth2_proxy_prefix" meta))) ;;
  Ok tt.

Fixpoint validate_items (usernames : list string) (items : list value) : fallible unit :=
  match items with
  | [] => Ok tt
  | item :: items' =>
      throw no_properties when (is_nullish item) ;;
      match get "username" item with
      | VStr name =>
          throw ValidationError "Access-list usernames cannot be empty or contain colons or line breaks" when (negb (good_username name)) ;;
          throw ValidationError "Access-list usernames must be unique" when (existsb (String.eqb name) usernames) ;;
          validate_items (name :: usernames) items'
      | _ => Throw (ValidationError "Access-list usernames cannot be empty or contain colons or line breaks")
      end
  end.

Definition client_address_error : error := ValidationError "Access-list client addresses must be IP addresses, CIDR ranges, or all".

(** The rule, with a mapped address in its normal form. *)
Definition validate_client (client : value) : fallible value :=
  throw no_properties when (is_nullish client) ;;
  match get "address" client with
  | VStr address =>
      throw ValidationError "Invalid access-list client rule" when (negb (text_in ["allow"; "deny"] (get "directive" client))) ;;
      if String.eqb address "all" then Ok client
      else
        let parts := split_on "/" address in
        let family := isIP (hd "" parts) in
        throw client_address_error
          when ((family =? 0) || Nat.ltb 2 (length parts) ||
                match parts with
                | [_; prefix] => negb (plain_number prefix) || ((if family =? 4 then 32 else 128) <? read_Z prefix)
                | _ => false
                end) ;;
        if (family =? 6) && isIPv4MappedAddress (ip_parse (hd "" parts)) then
          rmap (fun a => VObj (set_field "address" (VStr a) (fields_of client))) (normalizeAddress (VStr address))
        else Ok client
  | _ => Throw (ValidationError "Invalid access-list client rule")
  end.

(** The caller goes on with the object that was checked: its rules are changed in place. *)
Definition validateListInput (data : fields) : fallible fields :=
  let? _ := validate_meta (if js_truthy (field_of "meta" data) then field_of "meta" data else VObj []) in
  let? items := iterate (field_of "items" data) in
  let? _ := validate_items [] items in
  let? clients := iterate (field_of "clients" data) in
  let? clients := rmapM validate_client clients in
  Ok (match field_of "clients" data with VArr _ => set_field "clients" (VArr clients) data | _ => data end).
End Input.

(** ** The bundle of certificates *)

Section Ca.
Context `{X509}.

Definition MAX_CA_BYTES : Z := 1024 * 1024.
Definition ca_space (c : ascii) : bool := (code c =? 32) || in_range 9 13 c.

Definition ca_error : error := ValidationError "mTLS requires a valid PEM certificate bundle".

(** Every round consumes a block, so the length of the text is fuel enough. *)
Fixpoint read_ca (fuel : nat) (certificates : nat) (rest : string) : bool :=
  match drop_while ca_space rest with
  | EmptyString => Nat.ltb 0 certificates
  | rest' =>
      match fuel with
      | O => false
      | S fuel' =>
          starts_with PEM_START rest' &&
          match break_at PEM_END (drop_str (String.length PEM_START) rest') with
          | None => false
          | Some (body, rest'') =>
              all_chars (fun c => ca_space c || pemBase64 c) body && x509_ok (PEM_START ++ body ++ PEM_END) &&
              read_ca fuel' (S certificates) rest''
          end
      end
  end.

(** The columns of the list the check reads. *)
Record mtls : Type := MkMtls { mt_enabled : bool; mt_use_internal : bool; mt_certificate : option string }.

Definition validateCaBundle (l : mtls) : fallible unit :=
  if negb (mt_enabled l) || mt_use_internal l then Ok tt
  else match mt_certificate l with
       | Some pem => throw ca_error when ((MAX_CA_BYTES <? strlen pem) || negb (read_ca (String.length pem) 0 pem)) ;; Ok tt
       | None => Throw ca_error
       end.
End Ca.

(** ** File names and texts *)

(** [Number(value)] of an identifier: an integer, or a text of decimal digits,
    with white space around it; a text in another notation (a fraction, an
    exponent, hexadecimal digits) is not an identifier here. *)
Definition file_id (v : value) : option Z :=
  match v with
  | VInt n => Some n
  | VStr s => if all_chars is_digit (trim s) then Some (read_Z (trim s)) else None
  | _ => None
  end.

Definition MAX_SAFE_INTEGER : Z := 2 ^ 53 - 1.

(** [data] is [DATA_PATH]. *)
Definition accessListFilename (data : string) (v : value) (allowNone : bool) : fallible string :=
  let absent := allowNone && (is_nullish v || match file_id v with Some n => n =? 0 | None => false end) in
  if absent then Ok (data ++ "/access/0")%string
  else match file_id v with
       | Some n => throw ValidationError "Invalid access-list file ID" when ((n <=? 0) || (MAX_SAFE_INTEGER <? n)) ;;
                   Ok (data ++ "/access/" ++ show_Z n)%string
       | None => Throw (ValidationError "Invalid access-list file ID")
       end.

Record list_files : Type := MkFiles { lf_auth : string; lf_ca : string }.

Definition is_revision (s : string) : bool := all_chars is_hex_lower s && (strlen s =? 64).

Definition accessListFiles (meta : fields) (base : string) : list_files :=
  let suffix := match field_of "authorization_revision" meta with
                | VStr revision => if is_revision revision then ("." ++ revision)%string else ""
                | _ => ""
                end in
  MkFiles (base ++ suffix) (base ++ suffix ++ ".crt").

Section Text.
Context `{CredentialLib}.

(** A credential: a user name and a password, empty for none. *)
Record credential : Type := MkCredential { cr_username : string; cr_password : string }.

Definition written_password (password : string) : string :=
  if isBcryptHash password || isApr1Hash password then password else bcrypt_hash password.

Definition credential_line (c : credential) : string := (cr_username c ++ ":" ++ written_password (cr_password c) ++ LF)%string.

(** The text of the file: [lines.join("")]. *)
Definition credential_text (items : list credential) : string :=
  join "" (map credential_line (List.filter (fun c => negb (String.eqb (cr_password c) "")) items)).

(** The certificate authorities of the list, empty for none. *)
Definition ca_text (l : mtls) : string :=
  if mt_enabled l && negb (mt_use_internal l) then default "" (mt_certificate l) else "".
End Text.

(** The users of a request, in order. *)
Definition credential_of (item : value) : credential := MkCredential (str_or "" (get "username" item)) (str_or "" (get "password" item)).
Definition credentials_of (data : fields) : list credential := map credential_of (array_or [] (field_of "items" data)).

(** ** The server and a credential file *)

(** The server looks for the password of a user in a credential file. *)
Class PasswordFile : Type := { file_password : string -> string -> option string }.

(** The documented format: a line that begins with # is a comment; of any other
    line the name is what precedes the first colon, and the password what follows
    it, up to a further colon. *)
Definition entry_of (line : string) : option (string * string) :=
  if starts_with "#" line then None
  else match break_at ":" line with
       | Some (name, rest) => Some (name, match break_at ":" rest with Some (password, _) => password | None => rest end)
       | None => None
       end.

(** It takes the first line with the name. *)
Class PasswordFileLaws `{PasswordFile} : Prop := {
  documented_format : forall text name, file_password text name =
    match first_where (fun e => String.eqb (fst e) name) (omap entry_of (split_on (ascii_of_nat 10) text)) with Some e => Some (snd e) | None => None end
}.

Class CredentialLaws `{CredentialLib} : Prop := { bcrypt_shape : forall password, isBcryptHash (bcrypt_hash password) = true }.

Definition is_hash (s : string) : Prop := isBcryptHash s = true \/ isApr1Hash s = true.

(** Neither a line feed nor a colon occurs in a hash. *)
Definition separator (x : ascii) : Prop := x = ascii_of_nat 10 \/ x = ":"%char.

Lemma hash_chars_no x s : separator x -> all_chars hash_char s = true -> has_char x s = false.
Proof. intros Hx Hs. eapply all_chars_no; [exact Hs|]. by destruct Hx as [-> | ->]. Qed.

Lemma bcrypt_no x s : separator x -> isBcryptHash s = true -> has_char x s = false.
Proof.
  intros Hx. unfold isBcryptHash. repeat case_match; try done. intros [[[[Hv Ha]%andb_true_iff Hb]%andb_true_iff Hs]%andb_true_iff _]%andb_true_iff.
  assert (forall c p, p c = true -> p x = false -> Ascii.eqb x c = false) as Hne.
  { intros c p Hc Hp. apply Ascii.eqb_neq. intros <-. congruence. }
  rewrite !has_char_cons, (hash_chars_no _ _ Hx Hs).
  rewrite (Hne _ (fun c => any_char (Ascii.eqb c) "aby") Hv), (Hne _ is_digit Ha), (Hne _ is_digit Hb) by by destruct Hx as [-> | ->]. by destruct Hx as [-> | ->].
Qed.

Lemma apr1_no x s : separator x -> isApr1Hash s = true -> has_char x s = false.
Proof.
  intros Hx. unfold isApr1Hash. intros [Hp Hs]%andb_true_iff. apply starts_with_split in Hp. rewrite Hp.
  pose proof (join_split "$"%char (drop_str 6 s)) as Hj. change (drop_str (String.length "$apr1$") s) with (drop_str 6 s).
  destruct (split_on "$" (drop_str 6 s)) as [|salt [|digest [|]]]; try done.
  apply andb_true_iff in Hs as [[[[Ha _]%andb_true_iff _]%andb_true_iff Hd]%andb_true_iff _].
  rewrite <- Hj. change (join (String "$"%char "") [salt; digest]) with (salt ++ "$" ++ digest)%string.
  rewrite !has_char_append, (hash_chars_no _ _ Hx Ha), (hash_chars_no _ _ Hx Hd). by destruct Hx as [-> | ->].
Qed.

Lemma hash_no x s : separator x -> is_hash s -> has_char x s = false.
Proof. intros Hx [?|?]; [by apply bcrypt_no|by apply apr1_no]. Qed.

Lemma username_line s : good_username s = true -> single_line s /\ has_char ":"%char s = false.
Proof. intros [_ Hs]%andb_true_iff. split; by eapply all_chars_no; [exact Hs|]. Qed.

Section ReadBack.
Context `{CredentialLaws}.

Lemma written_is_hash password : is_hash (written_password password).
Proof.
  unfold written_password, is_hash. destruct (isBcryptHash password) eqn:Eb; [by left|].
  destruct (isApr1Hash password) eqn:Ea; simpl; [by right|]. left. apply bcrypt_shape.
Qed.

Lemma no_colon_break a : has_char ":"%char a = false -> break_at ":" a = None.
Proof.
  intros Ha. destruct (break_at ":" a) as [[x y]|] eqn:E; [|done]. apply break_at_split in E as ->.
  by rewrite !has_char_append, orb_true_r in Ha.
Qed.

Lemma line_entry name password : good_username name = true ->
  entry_of (name ++ ":" ++ written_password password) = if starts_with "#" name then None else Some (name, written_password password).
Proof.
  intros Hn. destruct (username_line _ Hn) as [_ Hc]. unfold entry_of.
  replace (starts_with "#" (name ++ ":" ++ written_password password)) with (starts_with "#" name) by by destruct name.
  destruct (starts_with "#" name); [done|]. rewrite (break_at_body ":"%char "" name) by done.
  rewrite no_colon_break; [done|]. apply hash_no; [by right|apply written_is_hash].
Qed.

(** The entries of a credential file, as the server finds them. *)
Lemma text_entries items : Forall (fun c => good_username (cr_username c) = true) items ->
  omap entry_of (split_on (ascii_of_nat 10) (credential_text items)) =
    map (fun c => (cr_username c, written_password (cr_password c)))
      (List.filter (fun c => negb (String.eqb (cr_password c) "") && negb (starts_with "#" (cr_username c))) items).
Proof.
  unfold credential_text. induction 1 as [|[name password] items Hn _ IH]; [done|]. cbn [List.filter cr_username cr_password].
  destruct (negb (String.eqb password "")); [|exact IH]. cbn [map cr_username cr_password andb].
  set (rest := map credential_line _) in *. assert (join "" (credential_line (MkCredential name password) :: rest) = (credential_line (MkCredential name password) ++ join "" rest)%string) as ->.
  { destruct rest; simpl; [by rewrite append_nil_r|done]. }
  destruct (username_line _ Hn) as [Hl _]. unfold credential_line at 1. cbn [cr_username cr_password].
  rewrite !append_assoc. rewrite <- (append_assoc ":" _ (LF ++ join "" rest)), <- (append_assoc name (":" ++ _) (LF ++ join "" rest)), split_line.
  - cbn [omap list_omap]. rewrite line_entry by done.
    destruct (starts_with "#" name); cbn [negb map cr_username cr_password]; [exact IH|]. f_equal. exact IH.
  - apply single_app; [done|]. apply (single_app ":"); [reflexivity|]. apply hash_no; [by left|apply written_is_hash].
Qed.
End ReadBack.

(** ** What the checks let through *)

Section Accepted.
Context `{IpLib} `{CredentialLib} `{X509}.

Lemma validate_items_ok seen items : validate_items seen items = Ok tt ->
  List.NoDup (map (fun i => cr_username (credential_of i)) items) /\
  Forall (fun i => good_username (cr_username (credential_of i)) = true /\ ~ In (cr_username (credential_of i)) seen) items.
Proof.
  revert seen. induction items as [|item items IH]; intros seen; simpl; [by repeat constructor|].
  destruct (is_nullish item); [done|]. simpl. change (cr_username (credential_of item)) with (str_or "" (get "username" item)).
  destruct (get "username" item) as [| | | | |name| |] eqn:En; try done. simpl.
  destruct (good_username name) eqn:Eg; [|done]. simpl. destruct (existsb _ seen) eqn:Es; [done|]. simpl. intros Hv.
  apply IH in Hv as [Hnd Hall]. rewrite Forall_forall in Hall. split.
  - constructor; [|done]. rewrite in_map_iff. intros (i & Hi & Hin). apply list_elem_of_In in Hin.
    destruct (Hall i Hin) as [_ Hn]. apply Hn. left. symmetry. exact Hi.
  - constructor.
    + unfold credential_of. cbn [cr_username]. rewrite En. split; [done|]. intros Hin. simpl in Hin. apply existsb_eqb_In in Hin. congruence.
    + apply Forall_forall. intros i Hin. destruct (Hall i Hin) as [? Hn]. split; [done|]. intros ?. apply Hn. by right.
Qed.

(** The request keeps its users, and its rules one by one. *)
Lemma validated data data' : validateListInput data = Ok data' ->
  List.NoDup (map cr_username (credentials_of data)) /\ Forall (fun c => good_username (cr_username c) = true) (credentials_of data) /\
  (forall k, k <> "clients" -> field_of k data' = field_of k data).
Proof.
  unfold validateListInput. destruct (validate_meta _); [|done]. simpl.
  destruct (iterate (field_of "items" data)) as [items|] eqn:Ei; [|done]. simpl.
  destruct (validate_items [] items) as [[]|] eqn:Ev; [|done]. simpl. apply validate_items_ok in Ev as [Hnd Hall].
  destruct (iterate (field_of "clients" data)) as [clients|]; [|done]. simpl. destruct (rmapM _ clients) as [clients'|]; [|done].
  intros [= <-]. assert (List.NoDup (map cr_username (credentials_of data)) /\ Forall (fun c => good_username (cr_username c) = true) (credentials_of data)) as [? ?].
  { unfold credentials_of. destruct (field_of "items" data) eqn:Ed; simpl; try by repeat constructor.
    simpl in Ei. injection Ei as <-. rewrite map_map. split; [done|]. apply Forall_map. eapply Forall_impl; [exact Hall|]. by intros i []. }
  split_and!; [done|done|]. intros k Hk. destruct (field_of "clients" data); try done. by apply field_of_set_ne.
Qed.

Lemma credentials_kept data data' : validateListInput data = Ok data' -> credentials_of data' = credentials_of data.
Proof. intros Hv. apply validated in Hv as (_ & _ & Hk). unfold credentials_of. by rewrite Hk. Qed.
End Accepted.

Section Published.
Context `{IpLib} `{CredentialLaws} `{X509} `{PasswordFileLaws}.

(** C29: the server finds in the credential file of a list that passed the checks
    exactly the users that were asked for: every user that has a password, and
    whose name does not begin with #, with its own hash - the one that was sent,
    when it is one already -, and nobody else.  No user name, however chosen, adds
    a line, moves the colon or stands for another user; a name that begins with #
    makes a comment. *)
Theorem credential_file_is_read_back (data data' : fields) (Hv : validateListInput data = Ok data') :
  let users := List.filter (fun c => negb (String.eqb (cr_password c) "")) (credentials_of data) in
  let text := credential_text (credentials_of data') in
  (forall c, In c users -> starts_with "#" (cr_username c) = false -> file_password text (cr_username c) = Some (written_password (cr_password c))) /\
  (forall name password, file_password text name = Some password ->
     is_hash password /\ starts_with "#" name = false /\ exists c, In c users /\ cr_username c = name /\ password = written_password (cr_password c)).
Proof.
  intros users text. subst text. rewrite (credentials_kept _ _ Hv). destruct (validated _ _ Hv) as (Hnd & Hall & _).
  split.
  - intros c [Hin Hp]%filter_In Hc. rewrite documented_format, (text_entries _ Hall). set (entries := map _ _).
    assert (In (cr_username c, written_password (cr_password c)) entries) as Hent
      by (apply in_map_iff; exists c; split; [done|]; apply filter_In; split; [done|by rewrite Hp, Hc]).
    destruct (first_where _ entries) as [e|] eqn:E.
    + apply first_where_Some in E as [He Heq%String.eqb_eq]. apply in_map_iff in He as (d & <- & [Hd _]%filter_In). cbn in Heq |- *.
      by rewrite (key_unique cr_username (credentials_of data) d c).
    + apply (first_where_None _ _ _ E) in Hent. cbn in Hent. by rewrite String.eqb_refl in Hent.
  - intros name password. rewrite documented_format, (text_entries _ Hall). destruct (first_where _ _) as [e|] eqn:E; [|done].
    intros [= <-]. apply first_where_Some in E as [He Heq%String.eqb_eq]. apply in_map_iff in He as (c & <- & [Hc [Hp Hs%negb_true_iff]%andb_true_iff]%filter_In).
    cbn in *. subst name. split; [apply written_is_hash|]. split; [done|]. exists c. split; [by apply filter_In|done].
Qed.
End Published.

(** ** The bundle of certificates is exactly that *)

Section Bundles.
Context `{X509}.

Definition ca_block_ok (sc : string * string) : Prop :=
  all_chars ca_space (fst sc) = true /\ all_chars (fun c => ca_space c || pemBase64 c) (snd sc) = true /\ x509_ok (block (snd sc)) = true.

(** An accepted bundle has nothing between its certificates but white space. *)
Lemma read_ca_sound fuel n rest : read_ca fuel n rest = true ->
  exists certs tail, rest = bundle certs tail /\ Forall ca_block_ok certs /\ all_chars ca_space tail = true /\ (0 < n + length certs)%nat.
Proof.
  revert n rest. induction fuel as [|fuel IH]; intros n rest Hr; cbn [read_ca] in Hr;
    destruct (drop_while_split ca_space rest) as (w & Hw & Hws); destruct (drop_while ca_space rest) as [|c r] eqn:Ed; try done.
  1, 2: exists [], w; rewrite append_nil_r in Hw; apply Nat.ltb_lt in Hr; simpl; split_and!; done || lia.
  apply andb_true_iff in Hr as [Es Hr]. destruct (break_at PEM_END _) as [[body rest']|] eqn:Eb; [|done].
  apply andb_true_iff in Hr as [[Hb Hx]%andb_true_iff (certs & tail & -> & Hc & Ht & Hl)%IH].
  exists ((w, body) :: certs), tail. simpl. split_and!; [|by constructor|done|lia].
  rewrite Hw, (starts_with_split _ _ Es), (break_at_split _ _ _ _ Eb). unfold block. by rewrite !append_assoc.
Qed.

Lemma bundle_checked l pem : mt_enabled l = true -> mt_use_internal l = false -> mt_certificate l = Some pem -> validateCaBundle l = Ok tt ->
  strlen pem <= MAX_CA_BYTES /\ exists certs tail, pem = bundle certs tail /\ certs <> [] /\ Forall ca_block_ok certs /\ all_chars ca_space tail = true.
Proof.
  intros He Hi Hp. unfold validateCaBundle. rewrite He, Hi, Hp. simpl.
  destruct (MAX_CA_BYTES <? strlen pem) eqn:El; [done|]. destruct (read_ca _ 0 pem) eqn:Er; [|done]. intros _. boolify.
  split; [lia|]. apply read_ca_sound in Er as (certs & tail & ? & ? & ? & Hl). exists certs, tail. split_and!; try done. by destruct certs; [simpl in Hl; lia|].
Qed.
End Bundles.

(** ** A list at work *)

Module DemoInput.
Definition hash53 : string := "abcdefghijklmnopqrstuvwxyzABCDEFGHIJKLMNOPQRSTUVWXYZ0".
#[export] Instance demo_lib : CredentialLib := {| URL_protocol _ := None; bcrypt_hash _ := ("$2b$13$" ++ hash53)%string |}.
#[export] Instance laws : CredentialLaws.
Proof. constructor. intros password. vm_compute. reflexivity. Defined.
#[export] Instance x509 : X509 := {| x509_ok _ := true |}.

Definition stored : string := ("$2a$10$" ++ hash53)%string.
Definition request : fields :=
  [("name", VStr "staff"); ("items", VArr [VObj [("username", VStr "ann b"); ("password", VStr "p:1")]; VObj [("username", VStr "#bob"); ("password", VStr stored)]; VObj [("username", VStr "eve")]]);
   ("clients", VArr [VObj [("address", VStr "10.0.0.0/8"); ("directive", VStr "allow")]; VObj [("address", VStr "all"); ("directive", VStr "deny")]])].

Example refused_name : validateListInput [("items", VArr [VObj [("username", VStr ("a" ++ LF ++ "root:x"))]])] =
  Throw (ValidationError "Access-list usernames cannot be empty or contain colons or line breaks").
Proof. vm_compute. reflexivity. Qed.

#[export] Instance server_file : PasswordFile := {| file_password text name :=
  match first_where (fun e => String.eqb (fst e) name) (omap entry_of (split_on (ascii_of_nat 10) text)) with Some e => Some (snd e) | None => None end |}.
#[export] Instance server_file_laws : PasswordFileLaws.
Proof. constructor. intros text name. reflexivity. Defined.

Lemma credential_file_witness :
  validateListInput request = Ok request /\
  let text := credential_text (credentials_of request) in
  file_password text "ann b" = Some ("$2b$13$" ++ hash53)%string /\ file_password text "#bob" = None /\ file_password text "eve" = None.
Proof.
  assert (validateListInput request = Ok request) as Hv by (vm_compute; reflexivity). split; [exact Hv|].
  pose proof (credential_file_is_read_back request request Hv) as [Hall Honly]. cbv zeta in *. split_and!.
  - exact (Hall (MkCredential "ann b" "p:1") (or_introl eq_refl) eq_refl).
  - destruct (file_password _ "#bob") as [p|] eqn:E; [|reflexivity]. apply Honly in E as (_ & Hs & _). discriminate Hs.
  - vm_compute. reflexivity.
Defined.
End DemoInput.
