(* ===== verification/AccessLists.v ===== *)
(** Access lists and their activation: the handlers of
    src/backend/internal/access-list.js over the tables of lists, users, rules
    and hosts, the published credential files and the service of [Nginx].

    The checks of a request are those of [AccessListInput].  A transaction is one
    step: it happens or it fails as a whole.  What can fail is named in
    [faults]; the calls of [Nginx] fail by themselves. *)

From stdpp Require Import gmap.
From S2P Require Import Prelude JsString JsValue JsObject Errors FirewallAddresses Certificates ConfigFiles HostResponses AccessListInput Nginx NginxRows Steps.
#[local] Open Scope string_scope.
#[local] Open Scope list_scope.
#[local] Open Scope Z_scope.

(** ** Data *)

(** The columns of a host this component reads or writes; [gb_rest] is every other. *)
Record guarded (X : Type) : Type := MkGuarded { gb_list : Z; gb_relay : bool; gb_rest : X }.
Arguments MkGuarded {X} _ _ _.
Arguments gb_list {X} _.
Arguments gb_relay {X} _.
Arguments gb_rest {X} _.

Record list_row : Type := MkList {
  al_id : Z; al_owner : Z; al_deleted : bool; al_name : string; al_satisfy_any : bool; al_pass_auth : bool;
  al_mtls_enabled : bool; al_mtls_use_internal : bool; al_mtls_certificate : string; al_meta : fields
}.

Record auth_row : Type := MkAuth { au_id : Z; au_list : Z; au_user : string; au_password : string }.
Record client_row : Type := MkClient { cl_id : Z; cl_list : Z; cl_address : string; cl_directive : string }.

(** The database, the node with its files and hosts, the OAuth2 proxies that run,
    the audit log and the number of pushes. *)
Record site (X : Type) : Type := MkSite {
  st_lists : list list_row;
  st_auths : list auth_row;
  st_clients : list client_row;
  st_next : Z;
  st_node : node (guarded X);
  st_proxies : list Z;
  st_audit : list (string * Z);
  st_pushes : nat
}.
Arguments MkSite {X} _ _ _ _ _ _ _ _.
Arguments st_lists {X} _.
Arguments st_auths {X} _.
Arguments st_clients {X} _.
Arguments st_next {X} _.
Arguments st_node {X} _.
Arguments st_proxies {X} _.
Arguments st_audit {X} _.
Arguments st_pushes {X} _.

(** A list with its users, its rules and the hosts that use it and are not deleted. *)
Record view (X : Type) : Type := MkView { vw_row : list_row; vw_items : list auth_row; vw_clients : list client_row; vw_hosts : list (host (guarded X)) }.
Arguments MkView {X} _ _ _ _.
Arguments vw_row {X} _.
Arguments vw_items {X} _.
Arguments vw_clients {X} _.
Arguments vw_hosts {X} _.

(** The user: what [can] decides (full visibility or an error). *)
Record requester : Type := MkRequester { rq_can : string -> fallible bool; rq_user : Z }.

(** The steps that can fail besides those of [Nginx]. *)
Record faults : Type := MkFaults {
  ft_transaction : option error;
  ft_publish_auth : option error;
  ft_publish_ca : option error;
  ft_meta : option error;
  ft_proxy : option error;
  ft_audit : option error;
  ft_undo : option error;
  ft_undo_proxy : option error
}.

(** What is outside: the text of a host with the lists, users and rules it is
    rendered with, the server's verdict, the check that the upload relay of a
    host can work behind a list, and the data directory. *)
Class ListEnv (X : Type) : Type := {
  render_guarded : list list_row -> list auth_row -> list client_row -> Z -> string -> host (guarded X) -> fallible string;
  guarded_verdict : file_tree -> option string;
  relay_check : view X -> host (guarded X) -> fallible unit;
  data_root : string
}.

Definition site_env {X} `{ListEnv X} (s : site X) : NginxEnv (guarded X) :=
  {| render_text := render_guarded (st_lists s) (st_auths s) (st_clients s); nginx_verdict := guarded_verdict |}.

Abbreviation act X A := (step (site X) A).

Section Sites.
Context {X : Type}.
Implicit Types (s : site X).

Definition set_lists (rows : list list_row) s : site X :=
  MkSite rows (st_auths s) (st_clients s) (st_next s) (st_node s) (st_proxies s) (st_audit s) (st_pushes s).
Definition set_auths (rows : list auth_row) s : site X :=
  MkSite (st_lists s) rows (st_clients s) (st_next s) (st_node s) (st_proxies s) (st_audit s) (st_pushes s).
Definition set_clients (rows : list client_row) s : site X :=
  MkSite (st_lists s) (st_auths s) rows (st_next s) (st_node s) (st_proxies s) (st_audit s) (st_pushes s).
Definition set_node (n : node (guarded X)) s : site X :=
  MkSite (st_lists s) (st_auths s) (st_clients s) (st_next s) n (st_proxies s) (st_audit s) (st_pushes s).
Definition set_proxies (ids : list Z) s : site X :=
  MkSite (st_lists s) (st_auths s) (st_clients s) (st_next s) (st_node s) ids (st_audit s) (st_pushes s).
Definition taken s : site X :=
  MkSite (st_lists s) (st_auths s) (st_clients s) (st_next s + 1) (st_node s) (st_proxies s) (st_audit s) (st_pushes s).
Definition audited (what : string) (id : Z) s : site X :=
  MkSite (st_lists s) (st_auths s) (st_clients s) (st_next s) (st_node s) (st_proxies s) (st_audit s ++ [(what, id)]) (st_pushes s).
Definition pushed s : site X :=
  MkSite (st_lists s) (st_auths s) (st_clients s) (st_next s) (st_node s) (st_proxies s) (st_audit s) (S (st_pushes s)).

Definition on_tree (f : file_tree -> file_tree) s : site X := set_node (set_files (f (nd_files (st_node s))) (st_node s)) s.

Definition is_list (id : Z) (r : list_row) : bool := al_id r =? id.
Definition of_list (id : Z) (a : auth_row) : bool := au_list a =? id.
Definition rule_of (id : Z) (c : client_row) : bool := cl_list c =? id.
Definition uses (id : Z) (h : host (guarded X)) : bool := gb_list (n_body h) =? id.

Definition with_list (l : Z) (relay : bool) (h : host (guarded X)) : host (guarded X) :=
  MkNHost (n_id h) (n_is_deleted h) (n_enabled h) (n_meta h) (MkGuarded l relay (gb_rest (n_body h))).

(** The hosts that use a list and are not deleted. *)
Definition list_hosts (id : Z) s : list (host (guarded X)) :=
  select_where (fun h => uses id h && negb (n_is_deleted h)) (nd_hosts (st_node s) "proxy_host").

(** [get] with every expansion, for internal use. *)
Definition get_view (who : requester) (id : Z) s : fallible (view X) :=
  let? all := rq_can who "access_lists:get" in
  match first_where (fun r => is_list id r && negb (al_deleted r) && (all || (al_owner r =? rq_user who))) (st_lists s) with
  | Some row => Ok (MkView row (select_where (of_list id) (st_auths s)) (select_where (rule_of id) (st_clients s)) (list_hosts id s))
  | None => Throw (ItemNotFoundError (Some id))
  end.

(** *** Patches *)

(** [_.pick(data, keys)] over the typed columns. *)
Definition patched_row (data : fields) (r : list_row) : list_row :=
  MkList (al_id r) (al_owner r) (al_deleted r)
    (str_or (al_name r) (field_of "name" data))
    (bool_or (al_satisfy_any r) (field_of "satisfy_any" data))
    (bool_or (al_pass_auth r) (field_of "pass_auth" data))
    (bool_or (al_mtls_enabled r) (field_of "mtls_enabled" data))
    (bool_or (al_mtls_use_internal r) (field_of "mtls_use_internal" data))
    (str_or (al_mtls_certificate r) (field_of "mtls_certificate" data))
    (match field_of "meta" data with VObj meta => meta | _ => al_meta r end).

Definition mtls_of (r : list_row) : mtls := MkMtls (al_mtls_enabled r) (al_mtls_use_internal r) (Some (al_mtls_certificate r)).
Definition with_row_meta (meta : fields) (r : list_row) : list_row :=
  MkList (al_id r) (al_owner r) (al_deleted r) (al_name r) (al_satisfy_any r) (al_pass_auth r) (al_mtls_enabled r) (al_mtls_use_internal r) (al_mtls_certificate r) meta.
Definition deleted_row (r : list_row) : list_row :=
  MkList (al_id r) (al_owner r) true (al_name r) (al_satisfy_any r) (al_pass_auth r) (al_mtls_enabled r) (al_mtls_use_internal r) (al_mtls_certificate r) (al_meta r).

(** *** Files *)

Definition list_file `{ListEnv X} (id : Z) : string := (data_root ++ "/access/" ++ show_Z id)%string.

(** Capturing and restoring configuration files, by their contents. *)
Definition capture_files (paths : list string) (t : file_tree) : list (string * option string) := map (fun p => (p, t !! p)) (distinct [] paths).
Definition restore_file (t : file_tree) (snap : string * option string) : file_tree :=
  match snd snap with Some content => <[fst snap := content]> t | None => delete (fst snap) t end.
Definition restore_files (snaps : list (string * option string)) (t : file_tree) : file_tree := fold_left restore_file snaps t.

(** Publishing an immutable file: an existing one must have the same content. *)
Definition publish (path content : string) : act X unit :=
  do* existing := read_state (fun s => nd_files (st_node s) !! path) in
  match existing with
  | None => update_state (on_tree (insert path content))
  | Some c => if String.eqb c content then done_with tt else throws (ConfigurationError "Immutable authorization artifact is corrupt")
  end.

(** *** OAuth2 proxies *)

Definition is_oauth2 (r : list_row) : bool := is_text "oauth2_proxy" (field_of "auth_type" (al_meta r)).
Definition stop_proxy (id : Z) : site X -> site X := fun s => set_proxies (List.filter (fun i => negb (i =? id)) (st_proxies s)) s.
Definition start_proxy (id : Z) : site X -> site X := fun s => set_proxies (id :: st_proxies (stop_proxy id s)) (stop_proxy id s).
(** [restart] for a list that uses one, [stop] for the others. *)
Definition manage_proxy (fault : option error) (r : list_row) : act X unit :=
  do* _ := unless fault in
  update_state (if is_oauth2 r then start_proxy (al_id r) else stop_proxy (al_id r)).

(** A call of the server's configuration service, with the tables as they are. *)
Definition on_node `{ListEnv X} {A} (m : NginxEnv (guarded X) -> action (guarded X) A) : act X A :=
  fun s => let '(r, n) := m (site_env s) (st_node s) in (r, set_node n s).
End Sites.

(** ** Handlers *)

Section Handlers.
Context {X : Type} `{ListEnv X} `{IpLib} `{CredentialLib} `{X509} `{TrafficPolicy.Platform}.
Implicit Types (s : site X).

(** [build] with [immutable]: new files under a fresh version. *)
Definition build (f : faults) (revision : string) (v : view X) : act X unit :=
  let row := vw_row v in
  do* _ := of_result (validateCaBundle (mtls_of row)) in
  let paths := accessListFiles [("authorization_revision", VStr revision)] (list_file (al_id row)) in
  do* _ := unless (ft_publish_auth f) in
  do* _ := publish (lf_auth paths) (credential_text (map (fun a => MkCredential (au_user a) (au_password a)) (vw_items v))) in
  if String.eqb (ca_text (mtls_of row)) "" then done_with tt
  else do* _ := unless (ft_publish_ca f) in publish (lf_ca paths) (ca_text (mtls_of row)).

(** The new version is recorded in the list. *)
Definition record_revision (f : faults) (revision : string) (v : view X) : act X (view X) :=
  let meta := set_field "authorization_revision" (VStr revision) (al_meta (vw_row v)) in
  do* _ := unless (ft_meta f) in
  do* _ := update_state (fun s => set_lists (patch_where (is_list (al_id (vw_row v))) (with_row_meta meta) (st_lists s)) s) in
  done_with (MkView (with_row_meta meta (vw_row v)) (vw_items v) (vw_clients v) (vw_hosts v)).

Definition host_stages (hosts : list (host (guarded X))) : list (@stage (guarded X)) := map (fun h => ("proxy_host", h)) hosts.

Definition audit (fault : option error) (what : string) (id : Z) : act X unit :=
  do* _ := unless fault in update_state (fun s => pushed (audited what id s)).

(** *** Writing users and rules *)

Definition stored_password (password : string) : string :=
  if String.eqb password "" || isBcryptHash password then password else bcrypt_hash password.

Definition insert_auth (id : Z) s (c : credential) : site X :=
  set_auths (st_auths s ++ [MkAuth (st_next s) id (cr_username c) (stored_password (cr_password c))]) (taken s).
Definition insert_client (id : Z) s (rule : value) : site X :=
  set_clients (st_clients s ++ [MkClient (st_next s) id (str_or "" (get "address" rule)) (str_or "" (get "directive" rule))]) (taken s).

(** Users without a new password keep theirs; the others are removed or replaced. *)
Definition write_items (id : Z) (items : list credential) s : site X :=
  let keep := map cr_username (List.filter (fun c => String.eqb (cr_password c) "") items) in
  let s := set_auths (List.filter (fun a => negb (of_list id a) || existsb (String.eqb (au_user a)) keep) (st_auths s)) s in
  fold_left (insert_auth id) (List.filter (fun c => negb (String.eqb (cr_password c) "")) items) s.

Definition write_clients (id : Z) (rules : list value) s : site X :=
  let s := set_clients (List.filter (fun c => negb (rule_of id c)) (st_clients s)) s in
  fold_left (insert_client id) (List.filter (fun r => js_truthy (get "address" r)) rules) s.

(** The transaction of an update; secrets that were left out stay. *)
Definition update_rows (id : Z) (data : fields) s : fallible (site X) :=
  let? data :=
    if js_truthy (field_of "meta" data) then
      match first_where (is_list id) (st_lists s) with
      | Some current => Ok (set_field "meta" (VObj (preserveAccessListCredentials (fields_of (field_of "meta" data)) (VObj (al_meta current)))) data)
      | None => Throw (ItemNotFoundError (Some id))
      end
    else Ok data in
  let s := set_lists (patch_where (is_list id) (patched_row data) (st_lists s)) s in
  let s := match field_of "items" data with VArr _ => write_items id (credentials_of data) s | _ => s end in
  Ok (match field_of "clients" data with VArr rules => write_clients id rules s | _ => s end).

Definition transaction (fault : option error) (f : site X -> fallible (site X)) : act X unit :=
  fun s => match fault with
           | Some e => (Throw e, s)
           | None => match f s with Ok s' => (Ok tt, s') | Throw e => (Throw e, s) end
           end.

(** The list as it would be, for the check of the upload relay. *)
Definition candidate (data : fields) (v : view X) : view X :=
  let row := vw_row v in
  let relevant := List.filter (fun kv => existsb (String.eqb (fst kv)) ["satisfy_any"; "pass_auth"; "mtls_enabled"; "meta"]) data in
  MkView (patched_row relevant row)
    (match field_of "items" data with VArr _ => map (fun c => MkAuth 0 0 (cr_username c) (cr_password c)) (credentials_of data) | _ => vw_items v end)
    (match field_of "clients" data with VArr rules => map (fun r => MkClient 0 0 (str_or "" (get "address" r)) (str_or "" (get "directive" r))) rules | _ => vw_clients v end)
    (vw_hosts v).

Definition relay_checks (data : fields) (v : view X) : fallible unit :=
  rmap (fun _ => tt) (rmapM (fun h => if gb_relay (n_body h) then relay_check (candidate data v) h else Ok tt) (vw_hosts v)).

(** *** Activation *)

(** What a failing activation leaves to be undone: whether anything changed. *)
Definition attempt (A : Type) : Type := (fallible A * bool)%type.

(** After the transaction: the files, the hosts, the proxy and the server. *)
Definition publish_update (who : requester) (now : Z) (f : faults) (revision : string) (id : Z) : act X (view X) :=
  do* fresh := (query (get_view who id)) in
  do* _ := build f revision fresh in
  do* fresh := record_revision f revision fresh in
  do* _ := (if Nat.eqb (length (vw_hosts fresh)) 0 then done_with []
            else on_node (fun env => @bulkGenerateConfigGroups _ env now (host_stages (vw_hosts fresh)) false true)) in
  do* _ := manage_proxy (ft_proxy f) (vw_row fresh) in
  do* _ := on_node (fun env => @reload _ env) in
  do* _ := audit (ft_audit f) "updated" id in
  done_with fresh.

Definition updateUnlocked (who : requester) (now : Z) (f : faults) (revision : string) (id : Z) (data : fields) (previous : view X)
    : site X -> attempt (view X) * site X :=
  fun s =>
    match (let? _ := rq_can who "access_lists:update" in let? data := validateListInput data in
           throw InternalValidationError "Access List could not be updated, IDs do not match" when (negb (al_id (vw_row previous) =? id)) ;;
           let? _ := relay_checks data previous in Ok data) with
    | Throw e => ((Throw e, false), s)
    | Ok data =>
        match transaction (ft_transaction f) (update_rows id data) s with
        | (Throw e, s1) => ((Throw e, false), s1)
        | (Ok _, s1) =>
            let '(r, s2) := publish_update who now f revision id s1 in
            ((r, true), s2)
        end
    end.

(** Deleting: every host that uses the list, deleted ones included, is detached. *)
Definition detach (id : Z) s : site X :=
  set_node (set_hosts "proxy_host" (patch_where (uses id) (with_list 0 false) (nd_hosts (st_node s) "proxy_host")) (st_node s)) s.

Definition remove_list (now : Z) (f : faults) (previous : view X) : act X bool :=
  let id := al_id (vw_row previous) in
  do* _ := unless (ft_meta f) in
  do* _ := update_state (fun s => set_lists (patch_where (is_list id) deleted_row (st_lists s)) s) in
  do* _ := unless (ft_transaction f) in
  do* _ := update_state (detach id) in
  do* _ := on_node (fun env => @bulkGenerateConfigGroups _ env now (host_stages (map (with_list 0 false) (vw_hosts previous))) false true) in
  do* _ := on_node (fun env => @reload _ env) in
  do* _ := update_state (on_tree (delete (list_file id))) in
  do* _ := unless (ft_proxy f) in
  do* _ := update_state (stop_proxy id) in
  do* _ := audit (ft_audit f) "deleted" id in
  done_with true.

Definition deleteUnlocked (who : requester) (now : Z) (f : faults) (id : Z) (previous : view X) : site X -> attempt bool * site X :=
  fun s =>
    match rq_can who "access_lists:delete" with
    | Throw e => ((Throw e, false), s)
    | Ok _ =>
        let '(r, s1) := remove_list now f previous s in
        ((r, true), s1)
    end.

(** The rows of a list and of its hosts, back as they were. *)
Definition restore_list_row (previous r : list_row) : list_row :=
  MkList (al_id r) (al_owner previous) false (al_name previous) (al_satisfy_any previous) (al_pass_auth previous)
    (al_mtls_enabled previous) (al_mtls_use_internal previous) (al_mtls_certificate previous) (al_meta previous).

Definition restore_host (previous h : host (guarded X)) : host (guarded X) :=
  MkNHost (n_id h) (n_is_deleted h) (n_enabled h) (n_meta previous)
    (MkGuarded (gb_list (n_body previous)) (gb_relay (n_body previous)) (gb_rest (n_body h))).

Definition undo_rows (v : view X) s : site X :=
  let id := al_id (vw_row v) in
  let s := set_lists (patch_where (is_list id) (restore_list_row (vw_row v)) (st_lists s)) s in
  let s := set_auths (List.filter (fun a => negb (of_list id a)) (st_auths s) ++ vw_items v) s in
  let s := set_clients (List.filter (fun c => negb (rule_of id c)) (st_clients s) ++ vw_clients v) s in
  set_node (set_hosts "proxy_host"
    (fold_left (fun rows h => patch_where (by_id (n_id h)) (restore_host h) rows) (vw_hosts v) (nd_hosts (st_node s) "proxy_host")) (st_node s)) s.

Definition captured_paths (v : view X) : list string :=
  let files := accessListFiles (al_meta (vw_row v)) (list_file (al_id (vw_row v))) in
  [lf_auth files; lf_ca files; list_file (al_id (vw_row v)); (list_file (al_id (vw_row v)) ++ ".crt")%string]
  ++ map (fun h => getConfigName "proxy_host" (n_id h)) (vw_hosts v).

Definition reload_failed (e : error) : error :=
  ConfigurationError ("Access-list activation failed; previous files and database restored, reload failed: " ++ e_message e).

(** The handler of a failed activation. *)
Definition undo (f : faults) (v : view X) (files : list (string * option string)) (e : error) : act X unit :=
  do* _ := unless (ft_undo f) in
  do* _ := update_state (undo_rows v) in
  do* _ := update_state (on_tree (restore_files files)) in
  do* _ := manage_proxy (ft_undo_proxy f) (vw_row v) in
  fun s => match on_node (fun env => @reload _ env) s with
           | (Ok _, s') => (Throw e, s')
           | (Throw e', s') => (Throw (reload_failed e'), s')
           end.

Definition activateList {A} (who : requester) (f : faults) (id : Z) (check : view X -> fallible unit)
    (operation : view X -> site X -> attempt A * site X) : act X A :=
  fun s =>
    match (let? v := get_view who id s in let? _ := check v in Ok v) with
    | Throw e => (Throw e, s)
    | Ok v =>
        let files := capture_files (captured_paths v) (nd_files (st_node s)) in
        match operation v s with
        | ((Ok a, _), s1) => (Ok a, s1)
        | ((Throw e, false), s1) => (Throw e, s1)
        | ((Throw e, true), s1) => let '(r, s2) := undo f v files e s1 in (match r with Ok _ => Throw e | Throw e' => Throw e' end, s2)
        end
    end.

(** [{ ...previous, ...data }] of the columns [validateCaBundle] reads. *)
Definition merged_mtls (data : fields) (r : list_row) : mtls :=
  let given k := includes_key (map fst data) k in
  MkMtls (if given "mtls_enabled" then js_truthy (field_of "mtls_enabled" data) else al_mtls_enabled r)
    (if given "mtls_use_internal" then js_truthy (field_of "mtls_use_internal" data) else al_mtls_use_internal r)
    (if given "mtls_certificate" then match field_of "mtls_certificate" data with VStr pem => Some pem | _ => None end
     else Some (al_mtls_certificate r)).

Definition update (who : requester) (now : Z) (f : faults) (revision : string) (id : Z) (data : fields) : act X (view X) :=
  fun s =>
    match (let? _ := rq_can who "access_lists:update" in validateListInput data) with
    | Throw e => (Throw e, s)
    | Ok data => activateList who f id (fun v => validateCaBundle (merged_mtls data (vw_row v))) (updateUnlocked who now f revision id data) s
    end.

Definition delete_list (who : requester) (now : Z) (f : faults) (id : Z) : act X bool :=
  activateList who f id (fun _ => Ok tt) (deleteUnlocked who now f id).

(** *** Creation *)

Definition mtls_input (data : fields) : mtls :=
  MkMtls (js_truthy (field_of "mtls_enabled" data)) (js_truthy (field_of "mtls_use_internal" data))
    (match field_of "mtls_certificate" data with VStr pem => Some pem | _ => None end).

Definition insert_rows (who : requester) (data : fields) s : site X :=
  let id := st_next s in
  let row := patched_row data (MkList id (rq_user who) false "" false false false false "" []) in
  let s := taken (set_lists (st_lists s ++ [row]) s) in
  let s := fold_left (insert_auth id) (credentials_of data) s in
  fold_left (insert_client id) (array_or [] (field_of "clients" data)) s.

Definition createUnlocked (who : requester) (now : Z) (f : faults) (revision : string) (data : fields) : site X -> fallible (view X) * option Z * site X :=
  fun s =>
    match (let? _ := rq_can who "access_lists:create" in validateListInput data) with
    | Throw e => (Throw e, None, s)
    | Ok data =>
        match ft_transaction f with
        | Some e => (Throw e, None, s)
        | None =>
            let id := st_next s in
            let '(r, s2) :=
              (do* fresh := (query (get_view who id)) in
               do* _ := build f revision fresh in
               do* fresh := record_revision f revision fresh in
               do* _ := (if Nat.eqb (length (vw_hosts fresh)) 0 then done_with []
                         else on_node (fun env => @bulkGenerateConfigGroups _ env now (host_stages (vw_hosts fresh)) true true)) in
               do* _ := (if is_oauth2 (vw_row fresh) then do* _ := unless (ft_proxy f) in update_state (start_proxy id) else done_with tt) in
               do* _ := audit (ft_audit f) "created" id in
               done_with fresh) (insert_rows who data s) in
            (r, Some id, s2)
        end
    end.

(** A failing creation removes its rows and its unversioned files. *)
Definition remove_rows (id : Z) s : site X :=
  set_lists (List.filter (fun r => negb (is_list id r)) (st_lists s))
    (set_auths (List.filter (fun a => negb (of_list id a)) (st_auths s))
      (set_clients (List.filter (fun c => negb (rule_of id c)) (st_clients s)) s)).

Definition create (who : requester) (now : Z) (f : faults) (revision : string) (data : fields) : act X (view X) :=
  fun s =>
    match (let? _ := rq_can who "access_lists:create" in validateCaBundle (mtls_input data)) with
    | Throw e => (Throw e, s)
    | Ok _ =>
        match createUnlocked who now f revision data s with
        | (Ok v, _, s1) => (Ok v, s1)
        | (Throw e, None, s1) => (Throw e, s1)
        | (Throw e, Some id, s1) =>
            match ft_undo f with
            | Some e' => (Throw e', s1)
            | None => (Throw e, on_tree (delete (list_file id ++ ".crt")%string) (on_tree (delete (list_file id)) (remove_rows id s1)))
            end
        end
    end.

(** *** Reading *)

Definition getAll (who : requester) s : fallible (list list_row) :=
  let? all := rq_can who "access_lists:list" in
  Ok (select_where (fun r => negb (al_deleted r) && (all || (al_owner r =? rq_user who))) (st_lists s)).

Definition getCount (user : Z) (all : bool) s : Z :=
  Z.of_nat (length (select_where (fun r => negb (al_deleted r) && (all || (al_owner r =? user))) (st_lists s))).
End Handlers.

(** ** Files *)

(** The contents of the regular files of a file system. *)
Definition regular_content (e : entry) : option string := match e with Regular content _ => Some content | _ => None end.
Definition contents (fs : filesystem) : file_tree := omap regular_content fs.
Definition regular_only (fs : filesystem) : Prop := forall p e, fs !! p = Some e -> exists content mode, e = Regular content mode.

Section Files.
Context `{Posix}.

Lemma capture_regular fs p : regular_only fs ->
  exists mode, capture_one p fs = Ok (MkSnapshot p (contents fs !! p) mode None).
Proof.
  intros Hr. unfold capture_one, contents. rewrite lookup_omap. destruct (fs !! p) as [e|] eqn:E; [|by eexists].
  destruct (Hr p e E) as (content & mode & ->). unfold stat, MAX_LINKS. rewrite E. by eexists.
Qed.

Lemma restore_regular s fs : regular_only fs -> sn_symlink s = None ->
  exists fs', restore_one s fs = (Ok tt, fs') /\ regular_only fs' /\
    contents fs' = restore_file (contents fs) (sn_path s, sn_content s).
Proof.
  intros Hr Hs. unfold restore_one, restore_file. simpl. destruct (sn_content s) as [content|] eqn:Ec.
  - destruct (capture_regular fs (sn_path s) Hr) as [mode ->].
    destruct (same_snapshot _ s) eqn:Esame; eexists; (split; [done|]).
    + split; [done|]. unfold same_snapshot in Esame. apply andb_true_iff in Esame as [[Hc%bool_decide_eq_true _]%andb_true_iff _].
      simpl in Hc. rewrite Ec in Hc. by rewrite insert_id.
    + assert (exists m, published s content = Regular content m) as [m ->] by (unfold published; rewrite Hs; by eexists). split.
      * intros p e. destruct (decide (p = sn_path s)) as [->|Hne]; [rewrite lookup_insert_eq; intros [= <-]; eauto|].
        rewrite lookup_insert_ne by done. apply Hr.
      * unfold contents. by rewrite (omap_insert_Some _ _ _ _ content).
  - unfold is_directory. destruct (fs !! sn_path s) as [e|] eqn:E.
    + destruct (Hr _ _ E) as (c & m & ->). eexists. split; [done|]. split; [|by unfold contents; rewrite omap_delete].
      intros p e Hp. apply lookup_delete_Some in Hp as [_ Hp]. eauto.
    + eexists. split; [done|]. split; [|by unfold contents; rewrite omap_delete].
      intros p e Hp. apply lookup_delete_Some in Hp as [_ Hp]. eauto.
Qed.

(** On regular files, [captureConfigurationFiles] and [restoreConfigurationFiles]
    are capturing and restoring contents. *)
Lemma captured_contents fs paths snaps : regular_only fs -> captureConfigurationFiles paths fs = Ok snaps ->
  map (fun s => (sn_path s, sn_content s)) snaps = capture_files paths (contents fs) /\ Forall (fun s => sn_symlink s = None) snaps.
Proof.
  intros Hr. unfold captureConfigurationFiles, capture_files. rewrite rmapM_ok. generalize (distinct [] paths).
  intros ps Hf. induction Hf as [|p s ps snaps Hs _ IH]; [by split|]. destruct (capture_regular fs p Hr) as [mode Hc]. rewrite Hc in Hs. injection Hs as <-.
  destruct IH as [IHm IHs]. simpl. split; [by rewrite IHm|by constructor].
Qed.

Lemma restored_contents snaps fs : regular_only fs -> Forall (fun s => sn_symlink s = None) snaps ->
  exists fs', restoreConfigurationFiles snaps fs = (Ok tt, fs') /\
    contents fs' = restore_files (map (fun s => (sn_path s, sn_content s)) snaps) (contents fs).
Proof.
  intros Hr Hs. revert fs Hr. induction Hs as [|s snaps Hs _ IH]; intros fs Hr; [by eexists|].
  cbn [restoreConfigurationFiles map]. destruct (restore_regular s fs Hr Hs) as (fs1 & -> & Hr1 & Hc).
  destruct (IH fs1 Hr1) as (fs2 & -> & Hc2). eexists. split; [done|]. rewrite Hc2, Hc. done.
Qed.
End Files.

Section Restored.
Implicit Types (t : file_tree) (paths : list string).

Lemma restore_other_file t p path o : p <> path -> restore_file t (path, o) !! p = t !! p.
Proof. intros Hne. unfold restore_file. simpl. destruct o; [by rewrite lookup_insert_ne|by rewrite lookup_delete_ne]. Qed.
Lemma restore_own_file t path o : restore_file t (path, o) !! path = o.
Proof. unfold restore_file. simpl. destruct o; [by rewrite lookup_insert_eq|by rewrite lookup_delete_eq]. Qed.

Lemma restore_files_lookup paths t0 t p : List.NoDup paths ->
  restore_files (map (fun q => (q, t0 !! q)) paths) t !! p = if existsb (String.eqb p) paths then t0 !! p else t !! p.
Proof.
  revert t. induction paths as [|q paths IH]; intros t Hnd; [done|]. inversion Hnd as [|? ? Hq Hnd']; subst. simpl.
  unfold restore_files in *. simpl. rewrite IH by done. destruct (existsb (String.eqb p) paths) eqn:E; [by rewrite orb_true_r|].
  destruct (String.eqb_spec p q) as [->|Hne]; simpl; [apply restore_own_file|by apply restore_other_file].
Qed.

Lemma restored_lookup paths t0 t p : 
  restore_files (capture_files paths t0) t !! p = if existsb (String.eqb p) paths then t0 !! p else t !! p.
Proof.
  unfold capture_files. rewrite restore_files_lookup by apply distinct_nodup.
  assert (existsb (String.eqb p) (distinct [] paths) = existsb (String.eqb p) paths) as ->; [|done].
  apply eq_true_iff_eq. rewrite !existsb_eqb_In, distinct_in. simpl. tauto.
Qed.
End Restored.

(** ** What an operation on a list can touch *)

Section Frame.
Context {X : Type} `{ListEnv X}.
Implicit Types (s : site X) (h : host (guarded X)).

Definition guards (id : Z) h : bool := uses id h && negb (n_is_deleted h).

(** Of the hosts, only those that use the list: their status, the list itself and
    the relay that depends on it; none is switched on. *)
Record host_within (id : Z) h h' : Prop := {
  hw_id : n_id h' = n_id h;
  hw_deleted : n_is_deleted h' = n_is_deleted h;
  hw_rest : gb_rest (n_body h') = gb_rest (n_body h);
  hw_enabled : n_enabled h' = true -> n_enabled h = true;
  hw_status : guards id h = false -> n_meta h' = n_meta h /\ n_enabled h' = n_enabled h;
  hw_body : uses id h = false -> n_body h' = n_body h
}.

Definition list_within (id : Z) (r r' : list_row) : Prop := al_id r' = al_id r /\ (al_id r <> id -> r' = r).

Definition proxy_hosts s : list (host (guarded X)) := nd_hosts (st_node s) "proxy_host".
Definition host_files (id : Z) s : list string := map (fun h => getConfigName "proxy_host" (n_id h)) (list_hosts id s).

(** Of everything else, the rows of the list, the inactive files, the files of its
    hosts and its own proxy. *)
Record within (id : Z) s0 s : Prop := {
  wi_lists : Forall2 (list_within id) (st_lists s0) (st_lists s);
  wi_auths : List.filter (fun a => negb (of_list id a)) (st_auths s) = List.filter (fun a => negb (of_list id a)) (st_auths s0);
  wi_clients : List.filter (fun c => negb (rule_of id c)) (st_clients s) = List.filter (fun c => negb (rule_of id c)) (st_clients s0);
  wi_hosts : Forall2 (host_within id) (proxy_hosts s0) (proxy_hosts s);
  wi_files : forall p, is_active_name p = true -> ~ In p (host_files id s0) -> nd_files (st_node s) !! p = nd_files (st_node s0) !! p;
  wi_proxies : forall i, i <> id -> (In i (st_proxies s) <-> In i (st_proxies s0))
}.

Lemma Forall2_same {A} (R : A -> A -> Prop) xs : (forall x, R x x) -> Forall2 R xs xs.
Proof. intros Hr. induction xs; by constructor. Qed.

Lemma within_refl id s : within id s s.
Proof. constructor; try done; by apply Forall2_same. Qed.

Definition frames {A} (id : Z) s0 (m : act X A) : Prop := through (within id s0) m.

Lemma within_set_lists id s0 s f : (forall r, al_id (f r) = al_id r) -> within id s0 s ->
  within id s0 (set_lists (patch_where (is_list id) f (st_lists s)) s).
Proof.
  intros Hf [Hl Ha Hc Hh Hp Ho]. constructor; try done. cbn [set_lists st_lists]. unfold patch_where. apply Forall2_fmap_r.
  eapply Forall2_impl; [exact Hl|]. intros r r' [Hi Hr]. cbn. unfold is_list. destruct (al_id r' =? id) eqn:E; [|done].
  boolify. split; [by rewrite Hf|]. intros Hne. congruence.
Qed.

Lemma within_tree id s0 s f : (forall p t, is_active_name p = true -> ~ In p (host_files id s0) -> f t !! p = t !! p) ->
  within id s0 s -> within id s0 (on_tree f s).
Proof. intros Hf [Hl Ha Hc Hh Hp Ho]. constructor; try done. intros p Hpa Hpn. cbn. rewrite Hf by done. by apply Hp. Qed.

Lemma within_insert id s0 s path content : is_active_name path = false -> within id s0 s -> within id s0 (on_tree (insert path content) s).
Proof. intros Hn. apply within_tree. intros p t Hp _. rewrite lookup_insert_ne; [done|]. intros ->. congruence. Qed.

Lemma within_remove id s0 s path : is_active_name path = false -> within id s0 s -> within id s0 (on_tree (delete path) s).
Proof. intros Hn. apply within_tree. intros p t Hp _. rewrite lookup_delete_ne; [done|]. intros ->. congruence. Qed.

Lemma frames_publish id s0 path content : is_active_name path = false -> frames id s0 (publish path content).
Proof.
  intros Hn. apply through_then; [apply through_read|]. intros [c|]; [destruct (String.eqb c content); [apply through_done|apply through_throws]|].
  apply through_update. intros s. by apply within_insert.
Qed.

Lemma in_filter_ne i id ids : i <> id -> In i (List.filter (fun j => negb (j =? id)) ids) <-> In i ids.
Proof. intros Hne. rewrite filter_In. destruct (i =? id) eqn:E; boolify; [done|]. simpl. tauto. Qed.

Lemma within_stopped id s0 s : within id s0 s -> within id s0 (stop_proxy id s).
Proof. intros [Hl Ha Hc Hh Hp Ho]. constructor; try done. intros i Hi. cbn. rewrite in_filter_ne by done. by apply Ho. Qed.
Lemma within_started id s0 s : within id s0 s -> within id s0 (start_proxy id s).
Proof.
  intros [Hl Ha Hc Hh Hp Ho]. constructor; try done. intros i Hi. cbn. rewrite in_filter_ne by done. rewrite <- Ho by done.
  split; [intros [->|?]; done|by right].
Qed.

Lemma frames_proxy id s0 fault r : al_id r = id -> frames id s0 (manage_proxy fault r).
Proof.
  intros <-. apply through_then; [apply through_unless|]. intros _. apply through_update. intros s. destruct (is_oauth2 r); [apply within_started|apply within_stopped].
Qed.

(** *** Hosts *)

Lemma guarded_by id s h : In h (list_hosts id s) <-> In h (proxy_hosts s) /\ guards id h = true.
Proof. unfold list_hosts, select_where, guards. by rewrite filter_In. Qed.

(** A host that uses the list now did before. *)
Lemma guarded_before id s0 s h' : within id s0 s -> In h' (list_hosts id s) -> In (n_id h') (map n_id (list_hosts id s0)).
Proof.
  intros Hw [Hin Hg]%guarded_by. destruct (Forall2_in_r _ _ _ _ (wi_hosts _ _ _ Hw) Hin) as (h & Hh & Hr).
  rewrite (hw_id _ _ _ Hr). apply in_map, guarded_by. split; [done|]. unfold guards in *. rewrite (hw_deleted _ _ _ Hr) in Hg.
  apply andb_true_iff in Hg as [Hu ->]. destruct (uses id h) eqn:E; [done|]. unfold uses in *. rewrite (hw_body _ _ _ Hr E) in Hu. congruence.
Qed.

Definition ids_ok s : Prop := List.NoDup (map n_id (proxy_hosts s)) /\ Forall (fun h => 0 <= n_id h) (proxy_hosts s).

Lemma same_id {A} (f : A -> Z) xs x y : List.NoDup (map f xs) -> In x xs -> In y xs -> f x = f y -> x = y.
Proof.
  induction xs as [|z xs IH]; [done|]. simpl. intros Hnd. inversion Hnd as [|? ? Hz Hnd']; subst. intros [<-|Hx] [<-|Hy] Hf; try done.
  - destruct Hz. rewrite Hf. by apply in_map.
  - destruct Hz. rewrite <- Hf. by apply in_map.
  - by apply IH.
Qed.

(** What a batch of hosts of the list does stays within. *)
Lemma within_node id s0 s n : ids_ok s0 ->
  rows_within (map n_id (list_hosts id s0)) (proxy_hosts s) n ->
  (forall p, is_active_name p = true -> ~ In p (host_files id s0) -> nd_files n !! p = nd_files (st_node s) !! p) ->
  within id s0 s -> within id s0 (set_node n s).
Proof.
  intros [Hnd _] Hr Hf [Hl Ha Hc Hh Hp Ho]. constructor; try done.
  - cbn [set_node st_node proxy_hosts]. unfold proxy_hosts at 2. cbn [set_node st_node].
    assert (Hout : Forall2 (fun h h' => host_within id h h' /\ (In (n_id h) (map n_id (list_hosts id s0)) -> guards id h = true)) (proxy_hosts s0) (proxy_hosts s)).
    { apply Forall2_same_length_lookup_2; [by eapply Forall2_length|]. intros i h h' Hi Hi'. split; [by eapply Forall2_lookup_lr|].
      intros (h2 & He & [Hin Hg]%guarded_by)%in_map_iff. replace h with h2; [done|].
      apply (same_id n_id (proxy_hosts s0)); try done. by eapply list_elem_of_In, list_elem_of_lookup_2. }
    unfold rows_within in Hr. revert Hr Hout. generalize (map n_id (list_hosts id s0)), (nd_hosts n "proxy_host"), (proxy_hosts s0), (proxy_hosts s).
    clear. intros ids rows hs hs' Hr Hout. revert rows Hr.
    induction Hout as [|h h' hs hs' [[Hid Hd Hrest He Hs Hb] Hg] _ IH]; intros rows Hr; inversion Hr as [|? h2 ? rows' (Ri & Rd & Rb & Re & Ro) Hr']; subst; constructor; [|by apply IH].
    constructor; [congruence|congruence|congruence|auto| |].
    + intros Hng. destruct (Hs Hng) as [<- <-]. rewrite Ro; [done|]. rewrite Hid. intros Hin. specialize (Hg Hin). congruence.
    + intros Hu. rewrite Rb. auto.
  - intros p Hpa Hpn. cbn. rewrite Hf by done. by apply Hp.
Qed.

Lemma frames_bulk id s0 now hosts opt_reload : ids_ok s0 -> List.NoDup (map n_id hosts) ->
  (forall h, In h hosts -> In (n_id h) (map n_id (list_hosts id s0))) ->
  frames id s0 (on_node (fun env => @bulkGenerateConfigGroups _ env now (host_stages hosts) opt_reload true)).
Proof.
  intros Hok Hnd Hin s r s' Hw. unfold on_node. destruct (bulkGenerateConfigGroups _ _ _ _ _) as [r' n] eqn:Eb. intros [= <- <-].
  assert (Hcfg : map (@cfg (guarded X)) (host_stages hosts) = map (fun h => getConfigName "proxy_host" (n_id h)) hosts).
  { unfold host_stages. rewrite map_map. apply map_ext. intros h. unfold cfg. simpl. apply config_file_name. }
  assert (Hincl : forall h, In h hosts -> exists h0, In h0 (proxy_hosts s0) /\ n_id h0 = n_id h /\ In (getConfigName "proxy_host" (n_id h)) (host_files id s0)).
  { intros h Hh. destruct (proj1 (in_map_iff _ _ _) (Hin h Hh)) as (h0 & He & Hh0). exists h0. rewrite <- He. split; [by apply guarded_by in Hh0 as [? _]|].
    split; [done|]. unfold host_files. by apply (in_map (fun h => getConfigName "proxy_host" (n_id h))). }
  apply within_node; try done.
  - refine (@within_bulk _ (site_env s) _ _ now _ opt_reload true _ _ _ _ _ Eb).
    + apply Forall_forall. unfold host_stages. intros st (h & <- & Hh)%list_elem_of_In%in_map_iff. split; [done|]. by apply Hin.
    + apply within_start.
  - intros p Hp Hpn. eapply (@bulk_other_files _ (site_env s)); [|exact Eb|done|].
    + rewrite Hcfg. rewrite <- (map_map n_id (getConfigName "proxy_host")). apply List.NoDup_map_NoDup_ForallPairs; [|done].
      intros i1 i2 (h1 & <- & H1)%in_map_iff (h2 & <- & H2)%in_map_iff He. destruct (Hincl h1 H1) as (g1 & G1 & E1 & _). destruct (Hincl h2 H2) as (g2 & G2 & E2 & _).
      destruct Hok as [_ Hpos]. rewrite Forall_forall in Hpos. apply (config_file_inj "proxy_host"); [done|..|by rewrite !config_file_name].
      * rewrite <- E1. by apply Hpos, list_elem_of_In.
      * rewrite <- E2. by apply Hpos, list_elem_of_In.
    + rewrite Hcfg. intros (h & <- & Hh)%in_map_iff. apply Hpn. by destruct (Hincl h Hh) as (_ & _ & _ & ?).
Qed.

Lemma frames_reload id s0 : ids_ok s0 -> frames id s0 (on_node (fun env => @reload _ env)).
Proof.
  intros Hok s r s' Hw. unfold on_node. destruct (reload (st_node s)) as [r' n] eqn:El. intros [= <- <-].
  apply (@reload_spec _ (site_env s)) in El as (Hf & Hh & _). apply within_node; try done; [|by intros p _ _; rewrite Hf].
  unfold rows_within, proxy_hosts. rewrite Hh. apply within_start.
Qed.
End Frame.

(** ** The names of published files *)

Lemma ends_with_append p a b : (String.length p <= String.length b)%nat -> ends_with p (a ++ b) = ends_with p b.
Proof.
  intros Hl. induction a as [|c a IH]; [done|]. change (String c a ++ b)%string with (String c (a ++ b)). cbn [ends_with]. rewrite IH.
  destruct (String.eqb_spec p (String c (a ++ b))) as [->|]; [|done]. exfalso. clear -Hl. assert (String.length b <= String.length (a ++ b))%nat by (clear; induction a; simpl; lia). simpl in Hl. lia.
Qed.

Lemma revision_inactive base revision : is_revision revision = true -> is_active_name (base ++ "." ++ revision) = false.
Proof.
  intros [Hh Hl]%andb_true_iff. boolify. unfold is_active_name. rewrite <- append_assoc, ends_with_append by (change (String.length ".conf") with 5%nat; apply Nat2Z.inj_le; change (Z.of_nat (String.length revision)) with (strlen revision); lia).
  destruct (ends_with ".conf" revision) eqn:E; [|done]. apply ends_with_spec in E as [q ->].
  rewrite all_chars_append in Hh. by apply andb_true_iff in Hh as [_ ?].
Qed.

Lemma crt_inactive base : is_active_name (base ++ ".crt") = false.
Proof. apply ends_with_false. by rewrite last_char_append. Qed.

Lemma last_char_all p s : all_chars p s = true -> s <> "" -> exists c, last_char s = Some c /\ p c = true.
Proof.
  induction s as [|c s IH]; [done|]. simpl. intros [Hc Hs]%andb_true_iff _. destruct s as [|d s]; [by exists c|]. by apply IH.
Qed.

Lemma list_file_inactive {X} `{ListEnv X} id : 0 <= id -> is_active_name (list_file id) = false.
Proof.
  intros Hid. apply ends_with_false. unfold list_file.
  destruct (last_char_all is_digit (show_Z id) (show_Z_digits id Hid)) as (c & Hc & Hd); [intros E; pose proof (f_equal read_Z E) as E0; rewrite read_show in E0 by done; by rewrite E0 in E|].
  destruct (show_Z id) as [|d r] eqn:E; [done|]. rewrite <- append_assoc, last_char_append, Hc. intros [= ->]. done.
Qed.

(** ** The handlers stay within *)

Section Confined.
Context {X : Type} `{ListEnv X} `{IpLib} `{CredentialLib} `{X509} `{TrafficPolicy.Platform}.
Implicit Types (s : site X) (v : view X).

Lemma get_view_spec who id s v : get_view who id s = Ok v ->
  In (vw_row v) (st_lists s) /\ al_id (vw_row v) = id /\ al_deleted (vw_row v) = false /\
  vw_items v = select_where (of_list id) (st_auths s) /\ vw_clients v = select_where (rule_of id) (st_clients s) /\ vw_hosts v = list_hosts id s.
Proof.
  unfold get_view. destruct (rq_can who _) as [all|]; [|done]. simpl. destruct (first_where _ _) as [row|] eqn:E; [|done]. intros [= <-].
  apply first_where_Some in E as [Hin Hp]. apply andb_true_iff in Hp as [[Hi Hd]%andb_true_iff _]. unfold is_list in Hi. boolify.
  destruct (al_deleted row) eqn:Ed; [done|]. by split_and!.
Qed.

Lemma paths_of_revision revision base : is_revision revision = true ->
  accessListFiles [("authorization_revision", VStr revision)] base = MkFiles (base ++ "." ++ revision) (base ++ ("." ++ revision) ++ ".crt").
Proof. intros Hr. unfold accessListFiles. simpl. by rewrite Hr. Qed.

Lemma frames_build id s0 f revision v : is_revision revision = true -> al_id (vw_row v) = id -> frames id s0 (build f revision v).
Proof.
  intros Hr Hid. unfold build. apply through_then; [apply through_result|intros _]. rewrite (paths_of_revision _ _ Hr). cbn [lf_auth lf_ca].
  apply through_then; [apply through_unless|intros _]. apply through_then; [by apply frames_publish, revision_inactive|intros _].
  destruct (String.eqb _ ""); [apply through_done|]. apply through_then; [apply through_unless|intros _].
  apply frames_publish. rewrite <- (append_assoc (list_file _) ("." ++ revision) ".crt"). apply crt_inactive.
Qed.

Lemma frames_audit id s0 fault what i : frames id s0 (audit fault what i).
Proof. apply through_then; [apply through_unless|intros _]. apply through_update. by intros s [? ? ? ? ? ?]. Qed.

Lemma within_set_auths id s0 s rows :
  List.filter (fun a => negb (of_list id a)) rows = List.filter (fun a => negb (of_list id a)) (st_auths s) ->
  within id s0 s -> within id s0 (set_auths rows s).
Proof. intros He [? Ha ? ? ? ?]. constructor; try done. cbn. by rewrite He. Qed.
Lemma within_set_clients id s0 s rows :
  List.filter (fun c => negb (rule_of id c)) rows = List.filter (fun c => negb (rule_of id c)) (st_clients s) ->
  within id s0 s -> within id s0 (set_clients rows s).
Proof. intros He [? ? Hc ? ? ?]. constructor; try done. cbn. by rewrite He. Qed.

Lemma within_taken id s0 s : within id s0 s -> within id s0 (taken s).
Proof. by intros [? ? ? ? ? ?]. Qed.

Lemma within_fold {C} id s0 (g : site X -> C -> site X) xs s : (forall s x, within id s0 s -> within id s0 (g s x)) ->
  within id s0 s -> within id s0 (fold_left g xs s).
Proof. intros Hg. revert s. induction xs as [|x xs IH]; intros s Hw; [done|]. simpl. auto. Qed.

Lemma filter_twice {A} (p q : A -> bool) xs : (forall x, p x = true -> q x = true) -> List.filter p (List.filter q xs) = List.filter p xs.
Proof.
  intros Hpq. induction xs as [|x xs IH]; [done|]. simpl. destruct (q x) eqn:Eq; simpl; [by rewrite IH|].
  destruct (p x) eqn:Ep; [apply Hpq in Ep; congruence|done].
Qed.

Lemma within_insert_auth id s0 s c : within id s0 s -> within id s0 (insert_auth id s c).
Proof.
  intros Hw. unfold insert_auth. apply within_set_auths; [|by apply within_taken]. rewrite List.filter_app. simpl. unfold of_list. simpl.
  rewrite Z.eqb_refl. by rewrite app_nil_r.
Qed.
Lemma within_insert_client id s0 s c : within id s0 s -> within id s0 (insert_client id s c).
Proof.
  intros Hw. unfold insert_client. apply within_set_clients; [|by apply within_taken]. rewrite List.filter_app. simpl. unfold rule_of. simpl.
  rewrite Z.eqb_refl. by rewrite app_nil_r.
Qed.

Lemma within_write_items id s0 items s : within id s0 s -> within id s0 (write_items id items s).
Proof.
  intros Hw. unfold write_items. apply within_fold; [intros; by apply within_insert_auth|]. apply within_set_auths; [|done].
  apply filter_twice. by intros a ->.
Qed.
Lemma within_write_clients id s0 rules s : within id s0 s -> within id s0 (write_clients id rules s).
Proof.
  intros Hw. unfold write_clients. apply within_fold; [intros; by apply within_insert_client|]. apply within_set_clients; [|done].
  by apply filter_twice.
Qed.

Lemma within_update_rows id s0 data s s' : within id s0 s -> update_rows id data s = Ok s' -> within id s0 s'.
Proof.
  intros Hw. unfold update_rows. destruct (if js_truthy _ then _ else _) as [data'|]; [|done]. simpl. intros [= <-].
  assert (within id s0 (set_lists (patch_where (is_list id) (patched_row data') (st_lists s)) s)) as Hw1 by by apply within_set_lists.
  destruct (field_of "items" data'), (field_of "clients" data'); auto using within_write_items, within_write_clients.
Qed.

Lemma within_detach id s0 s : within id s0 s -> within id s0 (detach id s).
Proof.
  intros [Hl Ha Hc Hh Hp Ho]. constructor; try done. unfold detach, proxy_hosts, set_hosts, patch_where. cbn. apply Forall2_fmap_r.
  eapply Forall2_impl; [exact Hh|]. intros h h' [Hid Hd Hr He Hs Hb]. cbn. destruct (uses id h') eqn:E; [|done].
  constructor; try done. intros Hu. specialize (Hb Hu). unfold uses in *. rewrite Hb in E. congruence.
Qed.

Lemma list_hosts_nodup id s : ids_ok s -> List.NoDup (map n_id (list_hosts id s)).
Proof. intros [Hnd _]. by apply NoDup_map_select. Qed.

Lemma host_files_nodup id s : ids_ok s -> List.NoDup (host_files id s).
Proof.
  intros Hok. unfold host_files. rewrite <- (map_map n_id (getConfigName "proxy_host")). apply List.NoDup_map_NoDup_ForallPairs; [|by apply list_hosts_nodup].
  destruct Hok as [_ Hpos]. rewrite Forall_forall in Hpos.
  intros i1 i2 (h1 & <- & [G1 _]%guarded_by)%in_map_iff (h2 & <- & [G2 _]%guarded_by)%in_map_iff He.
  apply (config_file_inj "proxy_host"); [done|by apply Hpos, list_elem_of_In|by apply Hpos, list_elem_of_In|by rewrite !config_file_name].
Qed.

Lemma within_ids id s0 s : within id s0 s -> ids_ok s0 -> ids_ok s.
Proof.
  intros [_ _ _ Hh _ _] [Hnd Hpos]. assert (map n_id (proxy_hosts s) = map n_id (proxy_hosts s0)) as He.
  { clear -Hh. induction Hh as [|h h' hs hs' Hw _ IH]; [done|]. simpl. rewrite IH. f_equal. apply (hw_id _ _ _ Hw). }
  split; [by rewrite He|]. apply (Forall_map n_id (fun i => 0 <= i)). rewrite He. by apply Forall_map.
Qed.

Lemma frames_view {C} who id s0 (k : view X -> act X C) : ids_ok s0 ->
  (forall v, al_id (vw_row v) = id -> List.NoDup (map n_id (vw_hosts v)) ->
     (forall h, In h (vw_hosts v) -> In (n_id h) (map n_id (list_hosts id s0))) -> frames id s0 (k v)) ->
  frames id s0 (and_then (query (get_view who id)) k).
Proof.
  intros Hok Hk s r s' Hw. unfold and_then, query. destruct (get_view who id s) as [v|e] eqn:Ev; [|by intros [= <- <-]].
  apply get_view_spec in Ev as (_ & Hid & _ & _ & _ & Hhosts). apply Hk; try done.
  - rewrite Hhosts. by apply list_hosts_nodup, (within_ids id s0).
  - rewrite Hhosts. intros h. by apply guarded_before.
Qed.

Lemma frames_record {C} id s0 f revision v (k : view X -> act X C) : al_id (vw_row v) = id ->
  (forall v', al_id (vw_row v') = id -> vw_hosts v' = vw_hosts v -> frames id s0 (k v')) ->
  frames id s0 (and_then (record_revision f revision v) k).
Proof.
  intros <- Hk s r s' Hw. unfold record_revision, and_then, unless. destruct (ft_meta f); [by intros [= <- <-]|].
  unfold update_state, done_with. apply Hk; try done. by apply within_set_lists.
Qed.

Lemma frames_publish_update who now f revision id s0 : is_revision revision = true -> ids_ok s0 ->
  frames id s0 (publish_update who now f revision id).
Proof.
  intros Hrev Hok. apply frames_view; [done|]. intros v Hid Hnd Hin. apply through_then; [by apply frames_build|intros _].
  apply frames_record; [done|]. intros v' Hid' Hh'. apply through_then.
  { destruct (Nat.eqb _ 0); [apply through_done|]. apply frames_bulk; by rewrite ?Hh'. }
  intros _. apply through_then; [by apply frames_proxy|intros _]. apply through_then; [by apply frames_reload|intros _].
  apply through_then; [apply frames_audit|intros _]. apply through_done.
Qed.

Lemma frames_remove_list now f v id s0 : ids_ok s0 -> 0 <= id -> al_id (vw_row v) = id -> vw_hosts v = list_hosts id s0 ->
  frames id s0 (remove_list now f v).
Proof.
  intros Hok Hpos <- Hh. unfold remove_list. apply through_then; [apply through_unless|intros _].
  apply through_then; [apply through_update; intros s; by apply within_set_lists|intros _].
  apply through_then; [apply through_unless|intros _]. apply through_then; [apply through_update; intros s; apply within_detach|intros _].
  apply through_then; [|intros _].
  { assert (map n_id (map (with_list 0 false) (vw_hosts v)) = map n_id (vw_hosts v)) as He by (rewrite map_map; by apply map_ext).
    apply frames_bulk; [done|rewrite He, Hh; by apply list_hosts_nodup|]. intros h Hin. rewrite <- Hh, <- He. by apply in_map. }
  apply through_then; [by apply frames_reload|intros _].
  apply through_then; [apply through_update; intros s; by apply within_remove, list_file_inactive|intros _].
  apply through_then; [apply through_unless|intros _]. apply through_then; [apply through_update; intros s; apply within_stopped|intros _].
  apply through_then; [apply frames_audit|intros _]. apply through_done.
Qed.
Lemma update_within who now f revision id data v s a s1 : is_revision revision = true -> ids_ok s ->
  updateUnlocked who now f revision id data v s = (a, s1) -> within id s s1 /\ (is_ok (fst a) = false -> snd a = false -> s1 = s).
Proof.
  intros Hrev Hok. unfold updateUnlocked. destruct (let? _ := _ in _) as [data'|e]; [|by intros [= <- <-]; split; [apply within_refl|]].
  unfold transaction. destruct (ft_transaction f); [by intros [= <- <-]; split; [apply within_refl|]|].
  destruct (update_rows id data' s) as [s2|e] eqn:Er; [|by intros [= <- <-]; split; [apply within_refl|]].
  apply (within_update_rows id s) in Er; [|apply within_refl].
  destruct (publish_update who now f revision id s2) as [r s3] eqn:Ep. intros [= <- <-]. split; [|done].
  by eapply frames_publish_update; [| |exact Er|exact Ep].
Qed.

Lemma delete_within who now f id v s a s1 : 0 <= id -> ids_ok s -> get_view who id s = Ok v ->
  deleteUnlocked who now f id v s = (a, s1) -> within id s s1 /\ (is_ok (fst a) = false -> snd a = false -> s1 = s).
Proof.
  intros Hpos Hok (_ & Hid & _ & _ & _ & Hh)%get_view_spec. unfold deleteUnlocked.
  destruct (rq_can who _); [|by intros [= <- <-]; split; [apply within_refl|]].
  destruct (remove_list now f v s) as [r s2] eqn:Er. intros [= <- <-]. split; [|done].
  by eapply frames_remove_list; [exact Hok|exact Hpos|exact Hid|exact Hh|apply within_refl|exact Er].
Qed.
End Confined.

(** ** Undoing a failed activation *)

Section Undo.
Context {X : Type} `{ListEnv X} `{IpLib} `{CredentialLib} `{X509} `{TrafficPolicy.Platform}.
Implicit Types (s : site X) (v : view X) (h : host (guarded X)).

(** A host as before, but that it may have been switched off; of a deleted one
    the reference to the list may be gone. *)
Record host_back h h' : Prop := {
  hb_id : n_id h' = n_id h;
  hb_deleted : n_is_deleted h' = n_is_deleted h;
  hb_rest : gb_rest (n_body h') = gb_rest (n_body h);
  hb_enabled : n_enabled h' = true -> n_enabled h = true;
  hb_live : n_is_deleted h = false -> n_meta h' = n_meta h /\ n_body h' = n_body h
}.

Record put_back (id : Z) s0 s : Prop := {
  pb_lists : st_lists s = st_lists s0;
  pb_auths : st_auths s ≡ₚ st_auths s0;
  pb_clients : st_clients s ≡ₚ st_clients s0;
  pb_hosts : Forall2 host_back (proxy_hosts s0) (proxy_hosts s);
  pb_files : active_files (nd_files (st_node s)) = active_files (nd_files (st_node s0));
  pb_proxies : forall i, i <> id -> (In i (st_proxies s) <-> In i (st_proxies s0))
}.

Lemma filter_parts {A} (p : A -> bool) xs : List.filter (fun x => negb (p x)) xs ++ List.filter p xs ≡ₚ xs.
Proof. induction xs as [|x xs IH]; [done|]. simpl. destruct (p x); simpl; [by rewrite <- Permutation_middle, IH|by rewrite IH]. Qed.

Lemma fold_patches (hs rows : list (host (guarded X))) :
  fold_left (fun rows h => patch_where (by_id (n_id h)) (restore_host h) rows) hs rows =
    map (fun r => fold_left (fun r h => if by_id (n_id h) r then restore_host h r else r) hs r) rows.
Proof.
  revert rows. induction hs as [|h hs IH]; intros rows; simpl; [by rewrite map_id|]. rewrite IH. unfold patch_where. by rewrite map_map.
Qed.

Lemma restored_once hs r : let r' := fold_left (fun r h => if by_id (n_id h) r then restore_host h r else r) hs r in
  n_id r' = n_id r /\ n_is_deleted r' = n_is_deleted r /\ n_enabled r' = n_enabled r /\ gb_rest (n_body r') = gb_rest (n_body r) /\
  ((r' = r /\ ~ In (n_id r) (map n_id hs)) \/
   exists h, In h hs /\ n_id h = n_id r /\ n_meta r' = n_meta h /\ gb_list (n_body r') = gb_list (n_body h) /\ gb_relay (n_body r') = gb_relay (n_body h)).
Proof.
  revert r. induction hs as [|h hs IH]; intros r; simpl; [split_and!; try done; left; tauto|].
  destruct (by_id (n_id h) r) eqn:E; unfold by_id in E; boolify.
  - destruct (IH (restore_host h r)) as (Hi & Hd & He & Hr & Hcase). split_and!; try done. right.
    destruct Hcase as [[Heq _]|(g & Hg & Hgi & Hm & Hl & Hy)]; [|exists g; split_and!; try done; by right].
    exists h. rewrite Heq. split_and!; try done. by left.
  - destruct (IH r) as (Hi & Hd & He & Hr & Hcase). split_and!; try done.
    destruct Hcase as [[Heq Hn]|(g & Hg & ?)]; [left; split; [done|]|right; exists g; split; [by right|done]]. intros [?|?]; [congruence|done].
Qed.

Lemma undo_puts_back id s0 s v : List.NoDup (map al_id (st_lists s0)) -> ids_ok s0 ->
  In (vw_row v) (st_lists s0) -> al_id (vw_row v) = id -> al_deleted (vw_row v) = false ->
  vw_items v = select_where (of_list id) (st_auths s0) -> vw_clients v = select_where (rule_of id) (st_clients s0) -> vw_hosts v = list_hosts id s0 ->
  within id s0 s ->
  put_back id s0 (on_tree (restore_files (capture_files (captured_paths v) (nd_files (st_node s0)))) (undo_rows v s)).
Proof.
  intros Hnd [Hndh Hpos] Hrow Hid Hdel Hitems Hclients Hhosts [Hl Ha Hc Hh Hp Ho]. constructor; [..|exact Ho].
  - cbn. rewrite Hid. clear -Hl Hnd Hrow Hid Hdel.
    assert (Hall : Forall (fun r => al_id r = id -> r = vw_row v) (st_lists s0)).
    { apply List.Forall_forall. intros r Hr Hi. apply (same_id al_id (st_lists s0)); done || congruence. }
    clear Hnd Hrow. induction Hl as [|r r' rs rs' [Hi Ho] _ IH]; [done|]. inversion Hall as [|? ? Hr Hall']; subst. simpl. rewrite IH by done. f_equal.
    unfold is_list. destruct (al_id r' =? al_id (vw_row v)) eqn:E; boolify; [|apply Ho; congruence].
    rewrite Hr by congruence. unfold restore_list_row. destruct (vw_row v); simpl in *. by subst.
  - cbn. rewrite Hid, Ha, Hitems. apply filter_parts.
  - cbn. rewrite Hid, Hc, Hclients. apply filter_parts.
  - unfold proxy_hosts at 2. cbn. rewrite fold_patches. apply Forall2_fmap_r.
    assert (Huniq : Forall (fun h => forall g, In g (list_hosts id s0) -> n_id g = n_id h -> g = h) (proxy_hosts s0)).
    { apply List.Forall_forall. intros h Hin g [Hg _]%guarded_by He. by apply (same_id n_id (proxy_hosts s0)). }
    assert (Hin : Forall (fun h => guards id h = true -> In (n_id h) (map n_id (list_hosts id s0))) (proxy_hosts s0)).
    { apply List.Forall_forall. intros h Hin Hg. by apply in_map, guarded_by. }
    rewrite Hhosts. unfold proxy_hosts in *. revert Huniq Hin. clear -Hh. generalize (list_hosts id s0). intros hs Huniq Hin.
    induction Hh as [|h h' xs xs' [Hi Hd Hr He Hs Hb] _ IH]; inversion Huniq as [|? ? Hu Huniq']; inversion Hin as [|? ? Hg Hin']; subst; constructor; [|by apply IH].
    cbn. destruct (restored_once hs h') as (Ri & Rd & Re & Rr & Hcase). constructor; try congruence; [by rewrite Re|].
    intros Hlive. destruct Hcase as [[-> Hn]|(g & Hgin & Hgi & Hm & Hgl & Hgr)].
    + rewrite Hi in Hn. destruct (guards id h) eqn:E; [by destruct Hn; auto|]. split; [by apply Hs|]. apply Hb.
      unfold guards in E. rewrite Hlive in E. by destruct (uses id h).
    + rewrite Hi in Hgi. specialize (Hu g Hgin Hgi). subst g. split; [done|]. rewrite Hr in Rr.
      destruct (n_body h), (n_body (fold_left _ _ _)); simpl in *. congruence.
  - apply active_files_eq. intros p Hpa. unfold on_tree. cbn [set_node st_node set_files nd_files]. rewrite restored_lookup. destruct (existsb _ _) eqn:E; [done|]. apply Hp; [done|].
    intros Hin. apply not_true_iff_false in E. apply E, existsb_eqb_In. unfold captured_paths. rewrite !in_app_iff. right. by rewrite Hhosts.
Qed.

(** A site at rest: identifiers are unique, the files are valid and the server runs them. *)
Record at_rest s : Prop := {
  ar_lists : List.NoDup (map al_id (st_lists s));
  ar_hosts : ids_ok s;
  ar_valid : guarded_verdict (active_files (nd_files (st_node s))) = None;
  ar_serving : nd_running (st_node s) = active_files (nd_files (st_node s))
}.

(** Nothing that can be observed changed, and the server runs what it ran. *)
Definition kept (id : Z) s0 s : Prop := put_back id s0 s /\ nd_running (st_node s) = nd_running (st_node s0).

Lemma kept_itself id s : kept id s s.
Proof. split; [|done]. constructor; try done. apply Forall2_same. by intros h. Qed.

Lemma undo_spec who f v id e s0 s r s' : get_view who id s0 = Ok v -> at_rest s0 -> within id s0 s ->
  ft_undo f = None -> ft_undo_proxy f = None ->
  undo f v (capture_files (captured_paths v) (nd_files (st_node s0))) e s = (r, s') ->
  r = Throw e /\ kept id s0 s' /\ (In id (st_proxies s') <-> is_oauth2 (vw_row v) = true).
Proof.
  intros (Hrow & Hid & Hdel & Hi & Hc & Hh)%get_view_spec [Hnd Hok Hv Hs] Hw Hf Hfp.
  pose proof (undo_puts_back id s0 s v Hnd Hok Hrow Hid Hdel Hi Hc Hh Hw) as Hback.
  unfold undo, manage_proxy, and_then, unless, update_state. rewrite Hf, Hfp. set (s1 := on_tree _ _) in *. clearbody s1.
  set (s2 := (if is_oauth2 (vw_row v) then _ else _) s1).
  assert (put_back id s0 s2 /\ st_node s2 = st_node s1 /\ (In id (st_proxies s2) <-> is_oauth2 (vw_row v) = true)) as (Hback2 & Hnode & Hproxy).
  { destruct Hback as [B1 B2 B3 B4 B5 B6]. subst s2. rewrite Hid. destruct (is_oauth2 (vw_row v)); (split; [|split; [done|]]).
    - constructor; try done. intros i Hne. cbn. rewrite in_filter_ne by done. rewrite <- B6 by done. split; [intros [->|?]; done|by right].
    - split; [done|]. by left.
    - constructor; try done. intros i Hne. cbn. rewrite in_filter_ne by done. by apply B6.
    - cbn. rewrite filter_In, Z.eqb_refl. split; [by intros [_ ?]|done]. }
  clearbody s2. destruct Hback2 as [B1 B2 B3 B4 B5 B6].
  unfold on_node. destruct (reload (st_node s2)) as [rr n] eqn:El. apply (@reload_spec _ (site_env s2)) in El as (Ef & Eh & El).
  destruct rr as [u|e']; [|destruct El as [El _]; cbn in El; rewrite B5 in El; done].
  intros [= <- <-]. split; [done|]. destruct El as [_ Erun]. split; [|done]. split; [|cbn; by rewrite Erun, B5, <- Hs].
  constructor; try done; [unfold proxy_hosts; cbn; by rewrite Eh|cbn; by rewrite Ef].
Qed.

(** An activation whose operation stays within, and says truly when it changed nothing. *)
Lemma activation_spec {A} who f id check (operation : view X -> site X -> attempt A * site X) s r s' : at_rest s ->
  ft_undo f = None -> ft_undo_proxy f = None ->
  (forall v a s1, get_view who id s = Ok v -> operation v s = (a, s1) -> within id s s1 /\ (is_ok (fst a) = false -> snd a = false -> s1 = s)) ->
  activateList who f id check operation s = (r, s') -> is_ok r = false ->
  kept id s s' /\ (s' = s \/ exists v, get_view who id s = Ok v /\ (In id (st_proxies s') <-> is_oauth2 (vw_row v) = true)).
Proof.
  intros Har Hf Hfp Hop. unfold activateList. destruct (get_view who id s) as [v|e] eqn:Ev; simpl.
  2: { intros [= <- <-] _. split; [apply kept_itself|by left]. }
  destruct (check v) as [[]|e]; simpl; [|intros [= <- <-] _; split; [apply kept_itself|by left]].
  destruct (operation v s) as [[[a|e] changed] s1] eqn:Eo; destruct (Hop v _ _ eq_refl Eo) as [Hw Hsame].
  { by intros [= <- <-]. }
  destruct changed; [|intros [= <- <-] _; rewrite (Hsame eq_refl eq_refl); split; [apply kept_itself|by left]].
  destruct (undo f v _ e s1) as [ru s2] eqn:Eu. destruct (undo_spec _ _ _ _ _ _ _ _ _ Ev Har Hw Hf Hfp Eu) as (-> & Hk & Hp).
  intros [= <- <-] _. split; [done|]. right. by exists v.
Qed.

(** C28: an update or a deletion of an access list that fails, at whatever step -
    a refused request, the database, a file, the configuration of a host, the
    server, the OAuth2 proxy or the audit log - and whose undoing does not fail in
    turn, puts back the list, its users and rules, all active configuration files
    and what the server runs.  Every host that is not deleted has its list, its
    relay, its status and its other columns again; none is switched on, but one
    that was switched off because of a retired binding stays so.  And if anything
    had changed, the list's OAuth2 proxy runs exactly when the list uses one. *)
Theorem failed_change_keeps_the_list who now f revision id data s :
  at_rest s -> 0 <= id -> is_revision revision = true -> ft_undo f = None -> ft_undo_proxy f = None ->
  (forall r s', update who now f revision id data s = (r, s') -> is_ok r = false ->
     kept id s s' /\ (s' = s \/ exists v, get_view who id s = Ok v /\ (In id (st_proxies s') <-> is_oauth2 (vw_row v) = true))) /\
  (forall r s', delete_list who now f id s = (r, s') -> is_ok r = false ->
     kept id s s' /\ (s' = s \/ exists v, get_view who id s = Ok v /\ (In id (st_proxies s') <-> is_oauth2 (vw_row v) = true))).
Proof.
  intros Har Hpos Hrev Hf Hfp. pose proof (ar_hosts _ Har) as Hok. split; intros r s'.
  - unfold update. destruct (let? _ := _ in _) as [data'|e]; [|intros [= <- <-] _; split; [apply kept_itself|by left]].
    apply activation_spec; try done. intros v res s1 _. apply update_within; done.
  - apply activation_spec; try done. intros v res s1 Hv. by apply delete_within with (who := who).
Qed.
End Undo.

(** ** What a successful update leaves *)

Section Success.
Context {X : Type} `{ListEnv X} `{IpLib} `{CredentialLaws} `{X509} `{TrafficPolicy.Platform}.
Implicit Types (s : site X) (v : view X).

Definition list_users (id : Z) s : list credential := map (fun a => MkCredential (au_user a) (au_password a)) (select_where (of_list id) (st_auths s)).
Definition list_rules (id : Z) s : list (string * string) := map (fun c => (cl_address c, cl_directive c)) (select_where (rule_of id) (st_clients s)).

(** The users asked for: those without a new password keep the old one, if they
    had any; the others get the new one, hashed; nobody else is left. *)
Definition users_after (data : fields) (old : list credential) : list credential :=
  match field_of "items" data with
  | VArr _ =>
      let items := credentials_of data in
      List.filter (fun u => existsb (String.eqb (cr_username u)) (map cr_username (List.filter (fun c => String.eqb (cr_password c) "") items))) old
      ++ map (fun c => MkCredential (cr_username c) (stored_password (cr_password c))) (List.filter (fun c => negb (String.eqb (cr_password c) "")) items)
  | _ => old
  end.

Definition rules_after (data : fields) (old : list (string * string)) : list (string * string) :=
  match field_of "clients" data with
  | VArr rules => map (fun r => (str_or "" (get "address" r), str_or "" (get "directive" r))) (List.filter (fun r => js_truthy (get "address" r)) rules)
  | _ => old
  end.

Lemma users_inserted id cs s : list_users id (fold_left (insert_auth id) cs s) =
  list_users id s ++ map (fun c => MkCredential (cr_username c) (stored_password (cr_password c))) cs.
Proof.
  revert s. induction cs as [|c cs IH]; intros s; simpl; [by rewrite app_nil_r|]. rewrite IH. unfold list_users, select_where, insert_auth at 1.
  cbn [set_auths st_auths taken]. rewrite List.filter_app, map_app. simpl. unfold of_list at 2. simpl. rewrite Z.eqb_refl. simpl. by rewrite <- app_assoc.
Qed.

Lemma rules_inserted id rs s : list_rules id (fold_left (insert_client id) rs s) =
  list_rules id s ++ map (fun r => (str_or "" (get "address" r), str_or "" (get "directive" r))) rs.
Proof.
  revert s. induction rs as [|r rs IH]; intros s; simpl; [by rewrite app_nil_r|]. rewrite IH. unfold list_rules, select_where, insert_client at 1.
  cbn [set_clients st_clients taken]. rewrite List.filter_app, map_app. simpl. unfold rule_of at 2. simpl. rewrite Z.eqb_refl. simpl. by rewrite <- app_assoc.
Qed.

Lemma insert_auth_clients id cs s : st_clients (fold_left (insert_auth id) cs s) = st_clients s.
Proof. revert s. induction cs as [|c cs IH]; intros s; [done|]. simpl. by rewrite IH. Qed.
Lemma insert_client_auths id rs s : st_auths (fold_left (insert_client id) rs s) = st_auths s.
Proof. revert s. induction rs as [|r rs IH]; intros s; [done|]. simpl. by rewrite IH. Qed.
Lemma insert_auth_node id cs s : st_node (fold_left (insert_auth id) cs s) = st_node s.
Proof. revert s. induction cs as [|c cs IH]; intros s; [done|]. simpl. by rewrite IH. Qed.
Lemma insert_client_node id rs s : st_node (fold_left (insert_client id) rs s) = st_node s.
Proof. revert s. induction rs as [|r rs IH]; intros s; [done|]. simpl. by rewrite IH. Qed.

Lemma written_users id items s : list_users id (write_items id items s) =
  List.filter (fun u => existsb (String.eqb (cr_username u)) (map cr_username (List.filter (fun c => String.eqb (cr_password c) "") items))) (list_users id s)
  ++ map (fun c => MkCredential (cr_username c) (stored_password (cr_password c))) (List.filter (fun c => negb (String.eqb (cr_password c) "")) items).
Proof.
  unfold write_items. rewrite users_inserted. f_equal. unfold list_users, select_where. cbn [set_auths st_auths].
  induction (st_auths s) as [|a rows IH]; [done|]. simpl. destruct (of_list id a) eqn:E; simpl.
  - destruct (existsb _ _) eqn:Ek; simpl; [|done]. rewrite E. simpl. by rewrite IH.
  - by rewrite E.
Qed.

Lemma written_rules id rules s : list_rules id (write_clients id rules s) =
  map (fun r => (str_or "" (get "address" r), str_or "" (get "directive" r))) (List.filter (fun r => js_truthy (get "address" r)) rules).
Proof.
  unfold write_clients. rewrite rules_inserted. unfold list_rules at 1, select_where. cbn [set_clients st_clients].
  assert (List.filter (rule_of id) (List.filter (fun c => negb (rule_of id c)) (st_clients s)) = []) as ->; [|done].
  induction (st_clients s) as [|c rows IH]; [done|]. simpl. destruct (rule_of id c) eqn:E; simpl; [done|]. by rewrite E.
Qed.

Lemma update_rows_tables id data s s1 : update_rows id data s = Ok s1 ->
  list_users id s1 = users_after data (list_users id s) /\ list_rules id s1 = rules_after data (list_rules id s) /\ st_node s1 = st_node s.
Proof.
  unfold update_rows. destruct (if js_truthy _ then _ else _) as [data'|] eqn:Ed; [|done]. simpl. intros [= <-].
  assert (forall k, k <> "meta" -> field_of k data' = field_of k data) as Hk.
  { intros k Hk. destruct (js_truthy _); [|by injection Ed as <-]. destruct (first_where _ _); [|done]. injection Ed as <-. by apply field_of_set_ne. }
  assert (credentials_of data' = credentials_of data) as Hcr by (unfold credentials_of; by rewrite Hk).
  unfold users_after, rules_after. rewrite !Hk, Hcr by done. set (s0 := set_lists _ s).
  assert (forall rules t, list_users id (write_clients id rules t) = list_users id t) as Hu.
  { intros rules t. unfold list_users, write_clients. by rewrite insert_client_auths. }
  assert (forall items t, list_rules id (write_items id items t) = list_rules id t) as Hr.
  { intros items t. unfold list_rules, write_items. by rewrite insert_auth_clients. }
  assert (forall rules t, st_node (write_clients id rules t) = st_node t) as Hnc by (intros; unfold write_clients; by rewrite insert_client_node).
  assert (forall items t, st_node (write_items id items t) = st_node t) as Hni by (intros; unfold write_items; by rewrite insert_auth_node).
  split_and!.
  - destruct (field_of "items" data), (field_of "clients" data); rewrite ?Hu, ?written_users; done.
  - destruct (field_of "items" data), (field_of "clients" data); rewrite ?written_rules, ?Hr; done.
  - destruct (field_of "items" data), (field_of "clients" data); rewrite ?Hnc, ?Hni; done.
Qed.

Definition tables s : list list_row * list auth_row * list client_row := (st_lists s, st_auths s, st_clients s).

Lemma publish_ok path content s (u : unit) s' : is_active_name path = false -> publish path content s = (Ok u, s') ->
  nd_files (st_node s') !! path = Some content /\ (forall p, p <> path -> nd_files (st_node s') !! p = nd_files (st_node s) !! p) /\
  tables s' = tables s /\ nd_hosts (st_node s') = nd_hosts (st_node s).
Proof.
  intros Hp. unfold publish, and_then, read_state. destruct (nd_files (st_node s) !! path) as [c|] eqn:E.
  - destruct (String.eqb_spec c content) as [->|]; [|done]. by intros [= _ <-].
  - intros [= _ <-]. cbn. split_and!; [by rewrite lookup_insert_eq|intros p Hne; by rewrite lookup_insert_ne|done|done].
Qed.

Lemma ca_name_apart base a : (base ++ a ++ ".crt")%string <> (base ++ a)%string.
Proof. rewrite <- (append_nil_r a) at 2. intros He. do 2 apply append_inj_r in He. done. Qed.

(** The credential file of a version is there with the users of the list. *)
Lemma build_ok f revision v s (u : unit) s' : is_revision revision = true -> build f revision v s = (Ok u, s') ->
  nd_files (st_node s') !! (list_file (al_id (vw_row v)) ++ "." ++ revision)%string =
    Some (credential_text (map (fun a => MkCredential (au_user a) (au_password a)) (vw_items v))) /\
  (forall p, is_active_name p = true -> nd_files (st_node s') !! p = nd_files (st_node s) !! p) /\
  tables s' = tables s /\ nd_hosts (st_node s') = nd_hosts (st_node s).
Proof.
  intros Hr. unfold build. rewrite (paths_of_revision _ _ Hr). cbn [lf_auth lf_ca].
  pose proof (revision_inactive (list_file (al_id (vw_row v))) revision Hr) as Ha.
  intros (u1 & s1 & [= _ <-] & (u2 & s2 & ->%unless_ok & (u3 & s3 & Hp & Hrest)%then_ok)%then_ok)%then_ok.
  apply publish_ok in Hp as (Hf & Ho & Ht & Hh); [|done].
  assert (forall p, is_active_name p = true -> nd_files (st_node s3) !! p = nd_files (st_node s) !! p) as Hact.
  { intros p Hp. apply Ho. intros ->. congruence. }
  destruct (String.eqb _ ""); [by injection Hrest as _ <-|].
  apply then_ok in Hrest as (u4 & s4 & ->%unless_ok & Hp). pose proof (crt_inactive (list_file (al_id (vw_row v)) ++ "." ++ revision)) as Hc.
  rewrite <- (append_assoc (list_file _) ("." ++ revision) ".crt") in Hp.
  apply publish_ok in Hp as (_ & Ho' & Ht' & Hh'); [|done]. split_and!.
  - rewrite Ho'; [done|]. intros He. apply (ca_name_apart (list_file (al_id (vw_row v))) ("." ++ revision)). symmetry. etransitivity; [exact He|apply append_assoc].
  - intros p Hp. rewrite Ho'; [by apply Hact|]. intros ->. congruence.
  - by rewrite Ht'.
  - by rewrite Hh'.
Qed.

Lemma record_ok f revision v s v' s' : record_revision f revision v s = (Ok v', s') ->
  vw_hosts v' = vw_hosts v /\ al_id (vw_row v') = al_id (vw_row v) /\
  st_auths s' = st_auths s /\ st_clients s' = st_clients s /\ st_node s' = st_node s.
Proof.
  unfold record_revision. intros (u & s1 & ->%unless_ok & (u2 & s2 & [= _ <-] & [= <- <-])%then_ok)%then_ok. done.
Qed.

Lemma proxy_ok fault r s (u : unit) s' : manage_proxy fault r s = (Ok u, s') -> tables s' = tables s /\ st_node s' = st_node s.
Proof. unfold manage_proxy. intros (u1 & s1 & ->%unless_ok & [= _ <-])%then_ok. by destruct (is_oauth2 r). Qed.

Lemma audit_ok fault what id s (u : unit) s' : audit fault what id s = (Ok u, s') -> tables s' = tables s /\ st_node s' = st_node s.
Proof. unfold audit. by intros (u1 & s1 & ->%unless_ok & [= _ <-])%then_ok. Qed.

Lemma env_tables s s' : tables s' = tables s -> site_env s' = site_env s.
Proof. unfold tables, site_env. by intros [= -> -> ->]. Qed.

(** The credential file belongs to no host. *)
Lemma credential_file_unowned base revision ht id : is_revision revision = true -> ~ owns ht id (base ++ "." ++ revision).
Proof.
  intros Hr Ho. pose proof (revision_inactive base revision Hr) as Ha. apply andb_true_iff in Hr as [Hh Hl]. boolify.
  destruct (last_char_all _ _ Hh) as (c & Hc & Hx); [by intros ->|]. destruct revision as [|d r]; [done|].
  assert (last_char (base ++ "." ++ String d r) = Some c) as He by (by rewrite <- append_assoc, last_char_append).
  destruct Ho as [Ho|[Ho|Ho]]; [rewrite Ho in Ha; by rewrite config_file_active in Ha| |];
    rewrite Ho in He; unfold backup_file, error_file in He; rewrite last_char_append in He; injection He as <-; done.
Qed.

(** when an update of an access list succeeds, the list has exactly the
    users and the rules that were asked for - a user without a new password
    keeps the old hash -, its credential file is the text of exactly these
    users, every host that uses the list has been rendered
    with the new tables, and the server has accepted all active files and runs
    them. *)
Theorem updated_list_is_published who now f revision id data s v s' :
  at_rest s -> is_revision revision = true ->
  update who now f revision id data s = (Ok v, s') ->
  exists data' stages, (exists data1, validateListInput data = Ok data1 /\ validateListInput data1 = Ok data') /\
    list_users id s' = users_after data' (list_users id s) /\ list_rules id s' = rules_after data' (list_rules id s) /\
    nd_files (st_node s') !! (list_file id ++ "." ++ revision)%string = Some (credential_text (list_users id s')) /\
    map cfg stages = host_files id s /\ Forall (@rendered _ (site_env s') now (nd_files (st_node s'))) stages /\
    guarded_verdict (active_files (nd_files (st_node s'))) = None /\ nd_running (st_node s') = active_files (nd_files (st_node s')).
Proof.
  intros [_ Hok Hv _] Hrev. unfold update. destruct (rq_can who _) as [all|]; [|done]. simpl.
  destruct (validateListInput data) as [data1|] eqn:Ed1; [|done]. unfold activateList.
  destruct (get_view who id s) as [previous|] eqn:Ev; [|done]. simpl. destruct (validateCaBundle _) as [[]|]; [|done]. simpl.
  destruct (updateUnlocked _ _ _ _ _ _ _ s) as [[[v1|e] changed] s3] eqn:Eu; [|destruct changed; [destruct (undo _ _ _ _ _) as [[]]|]; done].
  intros [= -> ->]. unfold updateUnlocked in Eu. destruct (rq_can who "access_lists:update"); [|done]. simpl in Eu.
  destruct (validateListInput data1) as [data2|] eqn:Ed2; [|done]. simpl in Eu. destruct (throw_if _ _) as [[]|]; [|done]. simpl in Eu.
  destruct (relay_checks _ _) as [[]|]; [|done]. simpl in Eu. unfold transaction in Eu. destruct (ft_transaction f); [done|].
  destruct (update_rows id data2 s) as [s1|] eqn:Er; [|done]. apply update_rows_tables in Er as (Hu & Hc & Hn).
  destruct (publish_update who now f revision id s1) as [r s4] eqn:Ep. injection Eu as -> _ ->. 
  unfold publish_update in Ep. apply then_ok in Ep as (fresh & sf & Ef & Ep). injection Ef as Ef <-.
  apply get_view_spec in Ef as (_ & Hid & _ & Hitems & _ & Hhosts).
  assert (vw_hosts fresh = list_hosts id s) as Hh by (unfold list_hosts in *; by rewrite Hhosts, Hn). clear Hhosts.
  apply then_ok in Ep as (u1 & s5 & (Hfile & Hact & Htab & Hnodes)%build_ok & Ep); [|done].
  apply then_ok in Ep as (v2 & s6 & (Hh2 & _ & Ha6 & Hc6 & Hn6)%record_ok & Ep).
  apply then_ok in Ep as (metas & s7 & Eb & Ep). apply then_ok in Ep as (u2 & s8 & (Ht8 & Hn8)%proxy_ok & Ep).
  apply then_ok in Ep as (u3 & s9 & El & Ep). apply then_ok in Ep as (u4 & s10 & (Ht10 & Hn10)%audit_ok & Ep). injection Ep as _ <-.
  unfold on_node in El. destruct (reload (st_node s8)) as [rl n9] eqn:Erl. injection El as -> <-.
  apply (@reload_spec _ (site_env s8)) in Erl as (Hf9 & _ & Hv9 & Hr9).
  assert (site_env s10 = site_env s6 /\ list_users id s10 = list_users id s1 /\ list_rules id s10 = list_rules id s1 /\ st_node s10 = n9) as (Henv & Hus & Hru & Hnode).
  { assert (tables s7 = tables s6) as Ht7.
    { destruct (Nat.eqb _ 0); [by injection Eb as _ <-|]. unfold on_node in Eb. destruct (bulkGenerateConfigGroups _ _ _ _ _); by injection Eb as _ <-. }
    assert (tables s10 = tables s6) as Ht by (rewrite Ht10; etransitivity; [exact Ht8|exact Ht7]).
    split_and!; [by apply env_tables| | |by rewrite Hn10].
    - unfold list_users. injection Ht as _ -> _. rewrite Ha6. by injection Htab as _ -> _.
    - unfold list_rules. injection Ht as _ _ ->. rewrite Hc6. by injection Htab as _ _ ->. }
  assert (exists stages, map (@cfg (guarded X)) stages = host_files id s /\ Forall (@rendered _ (site_env s6) now (nd_files (st_node s7))) stages /\
    nd_files (st_node s7) !! (list_file id ++ "." ++ revision)%string = nd_files (st_node s5) !! (list_file id ++ "." ++ revision)%string) as (stages & Hcfg & Hren & Hkeep).
  { rewrite Hh2, Hh in Eb. destruct (Nat.eqb (length (list_hosts id s)) 0) eqn:E0.
    - injection Eb as _ <-. exists []. split_and!; [|by constructor|by rewrite Hn6]. unfold host_files. boolify. by destruct (list_hosts id s).
    - unfold on_node in Eb. destruct (bulkGenerateConfigGroups _ _ _ _ _) as [rb nb] eqn:Ebulk. injection Eb as -> <-. cbn.
      assert (Hcfgs : map (@cfg (guarded X)) (host_stages (list_hosts id s)) = host_files id s).
      { unfold host_stages, host_files. rewrite map_map. apply map_ext. intros h. unfold cfg. simpl. apply config_file_name. }
      pose proof Ebulk as Ebulk'. eapply (@bulk_unowned_file _ (site_env s6)) in Ebulk'; [|apply Forall_forall; intros st _; by apply credential_file_unowned|reflexivity].
      apply (@batch_outcome _ (site_env s6)) in Ebulk as [(stages & Hm & _ & Hr & _)|(_ & _ & Hbad)].
      + exists stages. rewrite Hm. split_and!; try done. unfold file_is in Ebulk'. by rewrite Ebulk', Hn6.
      + by specialize (Hbad eq_refl).
      + rewrite Hcfgs. by apply host_files_nodup.
      + unfold valid_files. cbn. rewrite Hn6. erewrite active_files_eq; [exact Hv|]. intros p Hp. rewrite Hact by done. by rewrite Hn. }
  rewrite Henv, Hnode, Hf9, Hn8. exists data2, stages. split; [by exists data1|]. rewrite Hus, Hru.
  split; [done|]. split; [done|]. split; [|split_and!; try done; [by rewrite Hn8 in Hv9|by rewrite Hn8 in Hr9]].
  etransitivity; [exact Hkeep|]. rewrite <- Hid. etransitivity; [exact Hfile|]. f_equal. rewrite Hitems. by rewrite <- Hid.
Qed.
End Success.

(** ** A site at work *)

Module DemoLists.
Import DemoInput.

#[local] Instance platform : TrafficPolicy.Platform := {| TrafficPolicy.isIP _ := false; TrafficPolicy.JSON_parse _ := None |}.

(** Hosts are rendered as the users and rules of their list; the server refuses a
    file that names the address 10.6.6.6. *)
#[local] Instance env : ListEnv unit := {|
  render_guarded _ auths clients _ _ h :=
    Ok (join "," (map au_user (select_where (of_list (gb_list (n_body h))) auths) ++ map cl_address (select_where (rule_of (gb_list (n_body h))) clients)));
  guarded_verdict t := if existsb (fun kv => includes "10.6.6.6" (snd kv)) (map_to_list t) then Some "refused" else None;
  relay_check _ _ := Ok tt;
  data_root := "/data"
|}.

Definition who : requester := MkRequester (fun _ => Ok true) 1.
Definition no_faults : faults := MkFaults None None None None None None None None.
Definition revision : string := String.concat "" (repeat "0123456789abcdef" 4).

Definition row : list_row := MkList 1 1 false "staff" false false false false "" [].
Definition the_host : host (guarded unit) := MkNHost 5 false true (Meta false (Some true) None) (MkGuarded 1 false tt).
Definition files : file_tree := {[ getConfigName "proxy_host" 5 := "ann,10.0.0.0/8" ]}.
Definition the_site : site unit :=
  MkSite [row] [MkAuth 2 1 "ann" stored] [MkClient 3 1 "10.0.0.0/8" "allow"] 10
    (MkNode files files (fun t => if String.eqb t "proxy_host" then [the_host] else [])) [] [] 0.

Definition good : fields :=
  [("items", VArr [VObj [("username", VStr "ann")]; VObj [("username", VStr "bob"); ("password", VStr "p")]]);
   ("clients", VArr [VObj [("address", VStr "10.1.0.0/16"); ("directive", VStr "allow")]])].
Definition bad : fields := [("clients", VArr [VObj [("address", VStr "10.6.6.6"); ("directive", VStr "allow")]])].

Lemma the_site_rests : at_rest the_site.
Proof.
  constructor.
  - repeat constructor; simpl; tauto.
  - split; [repeat constructor; simpl; tauto|]. repeat constructor. simpl. lia.
  - vm_compute. reflexivity.
  - vm_compute. reflexivity.
Qed.

Lemma failed_change_witness :
  let '(r, s') := update who 0 no_faults revision 1 bad the_site in is_ok r = false /\ kept 1 the_site s' /\ st_clients s' = st_clients the_site.
Proof.
  destruct (update who 0 no_faults revision 1 bad the_site) as [r s'] eqn:E.
  assert (is_ok r = false) as Hr by (change r with (fst (r, s')); rewrite <- E; vm_compute; reflexivity).
  split; [exact Hr|]. split.
  - apply (failed_change_keeps_the_list who 0 no_faults revision 1 bad the_site the_site_rests ltac:(lia) eq_refl eq_refl eq_refl) in E; [apply E|exact Hr].
  - change s' with (snd (r, s')). rewrite <- E. vm_compute. reflexivity.
Defined.

Lemma published_update_witness :
  let '(r, s') := update who 0 no_faults revision 1 good the_site in
  is_ok r = true /\ list_users 1 s' = [MkCredential "ann" stored; MkCredential "bob" ("$2b$13$" ++ hash53)] /\
  nd_running (st_node s') !! getConfigName "proxy_host" 5 = Some "ann,bob,10.1.0.0/16".
Proof.
  destruct (update who 0 no_faults revision 1 good the_site) as [r s'] eqn:E.
  assert (is_ok r = true) as Hr by (change r with (fst (r, s')); rewrite <- E; vm_compute; reflexivity).
  destruct r as [v|]; [|done]. split; [done|]. split.
  - destruct (updated_list_is_published who 0 no_faults revision 1 good the_site v s' the_site_rests eq_refl) as (data' & stages & (data1 & Hd1 & Hd2) & Hu & _); [exact E|].
    rewrite Hu. vm_compute in Hd1. injection Hd1 as <-. vm_compute in Hd2. injection Hd2 as <-. vm_compute. reflexivity.
  - change s' with (snd (Ok v : fallible (view unit), s')). rewrite <- E. vm_compute. reflexivity.
Defined.
(** A host deleted earlier loses its reference to the list although the deletion of
    the list fails and is undone. *)
Definition deleted_host : host (guarded unit) := MkNHost 6 true false (Meta false None None) (MkGuarded 1 false tt).
Definition site_with_deleted : site unit := set_node (set_hosts "proxy_host" [the_host; deleted_host] (st_node the_site)) the_site.
Definition audit_fails : faults := MkFaults None None None None None (Some (NativeError "disk full")) None None.

Example deleted_host_stays_detached :
  let s' := snd (delete_list who 0 audit_fails 1 site_with_deleted) in
  map (fun h => (n_id h, gb_list (n_body h))) (proxy_hosts s') = [(5, 1); (6, 0)] /\ st_lists s' = [row].
Proof. vm_compute. by split. Qed.

(** A failing creation removes the list but not the proxy it had started. *)
Definition with_oauth : fields := [("name", VStr "sso"); ("meta", VObj [("auth_type", VStr "oauth2_proxy")])].

Example failed_creation_leaves_the_proxy :
  let '(r, s') := create who 0 audit_fails revision with_oauth the_site in
  is_ok r = false /\ st_lists s' = [row] /\ st_proxies s' = [10].
Proof. vm_compute. by split_and!. Qed.
End DemoLists.
