(* ===== verification/ProxyHosts.v ===== *)
(** Changing a proxy host: the handlers of src/backend/internal/proxy-host.js, the
    revisions and the rollback of src/backend/internal/host-revisions.js and
    src/backend/lib/host-rollback.js, and the rules of src/backend/internal/host.js,
    over the claim registry of [DomainClaims] and the service of [Nginx].

    The configuration lock serialises the handlers, so each is one sequence of
    steps.  The registry's world is the node: host rows, files and server. *)

From Stdlib Require Import Sorting.Sorted.
From stdpp Require Import gmap.
From S2P Require Import Prelude JsString JsValue JsObject Errors Steps DomainClaims Nginx NginxRows ConfigFiles AccessListInput AccessLists.
#[local] Open Scope string_scope.
#[local] Open Scope list_scope.
#[local] Open Scope Z_scope.

(** ** Data *)

(** The columns of a host the handlers read; [co_rest] is every other. *)
Record columns (X : Type) : Type := MkColumns {
  co_owner : Z;
  co_domains : list string;
  co_certificate : Z;
  co_ssl_forced : bool;
  co_hsts_enabled : bool;
  co_hsts_subdomains : bool;
  co_list : Z;
  co_rest : X
}.
Arguments MkColumns {X} _ _ _ _ _ _ _ _.
Arguments co_owner {X} _.
Arguments co_domains {X} _.
Arguments co_certificate {X} _.
Arguments co_ssl_forced {X} _.
Arguments co_hsts_enabled {X} _.
Arguments co_hsts_subdomains {X} _.
Arguments co_list {X} _.
Arguments co_rest {X} _.

Abbreviation proxy_row X := (host (columns X)).

(** The full state of a host: its row and the files it is configured with. *)
Record host_state (X : Type) : Type := MkState { hs_host : proxy_row X; hs_files : list (string * option string) }.
Arguments MkState {X} _ _.
Arguments hs_host {X} _.
Arguments hs_files {X} _.

Record revision (X : Type) : Type := MkRevision { rv_id : Z; rv_host : Z; rv_actor : Z; rv_action : string; rv_state : host_state X }.
Arguments MkRevision {X} _ _ _ _ _.
Arguments rv_id {X} _.
Arguments rv_host {X} _.
Arguments rv_actor {X} _.
Arguments rv_action {X} _.
Arguments rv_state {X} _.

Record shop (X : Type) : Type := MkShop {
  sh_registry : registry (node (columns X));
  sh_revisions : list (revision X);
  sh_next : Z;
  sh_audit : list (string * Z)
}.
Arguments MkShop {X} _ _ _ _.
Arguments sh_registry {X} _.
Arguments sh_revisions {X} _.
Arguments sh_next {X} _.
Arguments sh_audit {X} _.

(** A request: what is absent stays as it is.  [rq_new_certificate] asks for a
    certificate for the names of the host; [rq_other] is the rest. *)
Record request (R : Type) : Type := MkRequest {
  rq_domains : option (list string);
  rq_certificate : option Z;
  rq_new_certificate : bool;
  rq_ssl_forced : option bool;
  rq_hsts_enabled : option bool;
  rq_hsts_subdomains : option bool;
  rq_list : option Z;
  rq_other : R
}.
Arguments MkRequest {R} _ _ _ _ _ _ _ _.
Arguments rq_domains {R} _.
Arguments rq_certificate {R} _.
Arguments rq_new_certificate {R} _.
Arguments rq_ssl_forced {R} _.
Arguments rq_hsts_enabled {R} _.
Arguments rq_hsts_subdomains {R} _.
Arguments rq_list {R} _.
Arguments rq_other {R} _.

(** What other components promise the handlers: the checks of a request against
    the present host (references, firewall, upload relay), the check of the
    firewall lists it names, the columns [prepareProxyHostPolicies] and the rest of
    the request leave (enabled, status and the others), whether a host that is
    switched on can work; the same checks for a version that is brought back, and
    whether the rows of its access list and certificate are as they were; a new certificate; the metadata of an access list and
    the kind of a certificate; the fingerprints of a state and of files; the errors of the
    database that are worth another attempt; and where the data lies. *)
Class HostRules (X R : Type) : Type := {
  check_request : request R -> option (proxy_row X) -> fallible unit;
  check_lists : request R -> option (proxy_row X) -> fallible unit;
  prepared : R -> option (proxy_row X) -> fallible (bool * host_meta * X);
  check_enable : proxy_row X -> fallible unit;
  check_restored : proxy_row X -> proxy_row X -> fallible unit;
  check_shared : proxy_row X -> fallible unit;
  quick_certificate : list string -> fallible Z;
  list_meta : Z -> fields;
  certificate_provider : Z -> string;
  fingerprint : host_state X -> string;
  files_fingerprint : list (string * option string) -> string;
  retryable : error -> bool;
  files_root : string
}.

Record host_faults : Type := MkHostFaults {
  hf_baseline : option error;
  hf_write : option error;
  hf_record : option error;
  hf_release : option error;
  hf_audit : option error;
  hf_conflicts : list error
}.

(** ** Rules *)

(** A name that can stand in a configuration as one word. *)
Definition name_char (c : ascii) : bool :=
  negb (is_space c || is_control c || any_char (Ascii.eqb c) ";{}'#" || (code c =? 34)).
Definition server_name (d : string) : bool := negb (String.eqb d "") && all_chars name_char d.

Definition domain_names_error : error :=
  ValidationError "Domain names must be nonempty Nginx server names without whitespace or directives".

Definition validateDomainNames (domains : list string) : fallible unit :=
  throw domain_names_error
    when (Nat.ltb (length domains) 1 || Nat.ltb 99 (length domains) || negb (forallb server_name domains)) ;;
  Ok tt.

(** The settings of encryption of a host, made consistent. *)
Record ssl_settings : Type := MkSsl { ss_certificate : Z; ss_forced : bool; ss_hsts : bool; ss_subdomains : bool }.

Definition cleanSslHstsData {X R} (newCert : bool) (rq : request R) (existing : option (columns X)) : ssl_settings :=
  let pick {A} (given : option A) (old : columns X -> A) (d : A) := match given with Some a => a | None => from_option old d existing end in
  let certificate := pick (rq_certificate rq) co_certificate 0 in
  let bare := (certificate =? 0) && negb newCert in
  let forced := if bare then false else pick (rq_ssl_forced rq) co_ssl_forced false in
  MkSsl certificate forced
    (if forced then pick (rq_hsts_enabled rq) co_hsts_enabled false else false)
    (if bare then false else pick (rq_hsts_subdomains rq) co_hsts_subdomains false).

(** Whether another live host of some kind has the name. *)
Definition _checkHostnameRecordsTaken (hostname : string) (rows : list (Z * list string)) (ignoreId : Z) : bool :=
  existsb (fun row => negb (fst row =? ignoreId) && existsb (fun d => String.eqb (to_lower d) (to_lower hostname)) (snd row)) rows.

(** The live hosts of the three kinds, with their names. *)
Definition isHostnameTaken (hostname : string) (hosts : list (string * list (Z * list string))) (ignore_type : string) (ignore_id : Z) : bool :=
  existsb (fun t => _checkHostnameRecordsTaken hostname (snd t) (if String.eqb (fst t) ignore_type then ignore_id else 0)) hosts.

Definition _getHostsWithDomains (rows : list (Z * list string)) (domainNames : list string) : list (Z * list string) :=
  List.filter (fun row => existsb (fun d => existsb (String.eqb (to_lower d)) (map to_lower domainNames)) (snd row)) rows.

Definition getHostsWithDomains (hosts : list (string * list (Z * list string))) (domainNames : list string) : list (string * list (Z * list string)) :=
  map (fun t => (fst t, _getHostsWithDomains (snd t) domainNames)) hosts.

(** ** Reading *)

Section Reading.
Context {X : Type}.
Implicit Types (s : shop X) (h : proxy_row X).

Definition node_of_shop s : node (columns X) := rg_world (sh_registry s).
Definition set_registry (r : registry (node (columns X))) s : shop X := MkShop r (sh_revisions s) (sh_next s) (sh_audit s).
Definition set_shop_node (n : node (columns X)) s : shop X :=
  set_registry (MkRegistry (rg_claims (sh_registry s)) (rg_owners (sh_registry s)) (rg_locks (sh_registry s)) n) s.
Definition logged (what : string) (id : Z) s : shop X := MkShop (sh_registry s) (sh_revisions s) (sh_next s) (sh_audit s ++ [(what, id)]).

Definition rows_of s : list (proxy_row X) := nd_hosts (node_of_shop s) "proxy_host".
Definition live_host (id : Z) h : bool := by_id id h && negb (n_is_deleted h).
Definition may_see (all : bool) (who : requester) h : bool := all || (co_owner (n_body h) =? rq_user who).

(** [get]: the live host, if the user may see it. *)
Definition get_host (who : requester) (id : Z) s : fallible (proxy_row X) :=
  let? all := rq_can who "proxy_hosts:get" in
  match first_where (fun h => live_host id h && may_see all who h) (rows_of s) with
  | Some h => Ok h
  | None => Throw (ItemNotFoundError (Some id))
  end.

Definition getAll (who : requester) s : fallible (list (proxy_row X)) :=
  let? all := rq_can who "proxy_hosts:list" in
  Ok (rev (select_where (fun h => negb (n_is_deleted h) && may_see all who h) (rows_of s))).

Definition getCount (user : Z) (all : bool) s : Z :=
  Z.of_nat (length (select_where (fun h => negb (n_is_deleted h) && (all || (co_owner (n_body h) =? user))) (rows_of s))).
End Reading.

(** ** Revisions and restoring *)

Section Revisions.
Context {X R : Type} `{NginxEnv (columns X)} `{HostRules X R} `{KeyHash}.
Implicit Types (s : shop X) (h : proxy_row X).

(** The files a host is configured with: its own, those of its access list and
    those of its certificate. *)
Definition state_paths h : list string :=
  let c := n_body h in
  [getConfigName "proxy_host" (n_id h)]
  ++ (if co_list c =? 0 then []
      else let files := accessListFiles (list_meta (co_list c)) (files_root ++ "/access/" ++ show_Z (co_list c)) in [lf_auth files; lf_ca files])
  ++ (let provider := certificate_provider (co_certificate c) in
      if existsb (String.eqb provider) ["custom"; "internal"; "letsencrypt"]
      then let base := if String.eqb provider "letsencrypt" then "/data/tls/certbot/live" else ("/data/tls/" ++ provider)%string in
           [(base ++ "/npm-" ++ show_Z (co_certificate c) ++ "/fullchain.pem")%string; (base ++ "/npm-" ++ show_Z (co_certificate c) ++ "/privkey.pem")%string]
      else []).

Definition captureHostState (id : Z) s : fallible (host_state X) :=
  match first_where (live_host id) (rows_of s) with
  | Some h => Ok (MkState h (capture_files (state_paths h) (nd_files (node_of_shop s))))
  | None => Throw (ItemNotFoundError (Some id))
  end.

(** The newest version of a host comes first. *)
Fixpoint insert_version (r : revision X) (sorted : list (revision X)) : list (revision X) :=
  match sorted with
  | [] => [r]
  | q :: sorted' => if rv_id q <=? rv_id r then r :: sorted else q :: insert_version r sorted'
  end.
Fixpoint newest_first (rows : list (revision X)) : list (revision X) :=
  match rows with [] => [] | r :: rows' => insert_version r (newest_first rows') end.
Definition versions (id : Z) (rows : list (revision X)) : list (revision X) := newest_first (select_where (fun r => rv_host r =? id) rows).

(** Keep the newest hundred versions of a host. *)
Definition prune (id : Z) (rows : list (revision X)) : list (revision X) :=
  match nth_error (versions id rows) 99 with
  | Some boundary => delete_where (fun r => (rv_host r =? id) && (rv_id r <? rv_id boundary)) rows
  | None => rows
  end.

(** [record]: a state equal to the newest version is not stored again. *)
Definition record (who : requester) (fault : option error) (id : Z) (action : string) : step (shop X) Z :=
  do* state := query (captureHostState id) in
  do* _ := unless fault in
  do* rows := read_state sh_revisions in
  match versions id rows with
  | latest :: _ =>
      if String.eqb (fingerprint (rv_state latest)) (fingerprint state) then done_with (rv_id latest)
      else fun s => (Ok (sh_next s), MkShop (sh_registry s) (prune id (rows ++ [MkRevision (sh_next s) id (rq_user who) action state])) (sh_next s + 1) (sh_audit s))
  | [] => fun s => (Ok (sh_next s), MkShop (sh_registry s) (prune id (rows ++ [MkRevision (sh_next s) id (rq_user who) action state])) (sh_next s + 1) (sh_audit s))
  end.

(** [authorize]: like [get], for the permission asked for. *)
Definition authorize (who : requester) (permission : string) (id : Z) s : fallible (proxy_row X) :=
  let? all := rq_can who ("proxy_hosts:" ++ permission)%string in
  match first_where (live_host id) (rows_of s) with
  | Some h => throw ItemNotFoundError (Some id) when (negb (may_see all who h)) ;; Ok h
  | None => Throw (ItemNotFoundError (Some id))
  end.

Definition list_versions (who : requester) (id : Z) s : fallible (list (Z * Z * string)) :=
  let? _ := authorize who "get" id s in
  Ok (map (fun r => (rv_id r, rv_actor r, rv_action r)) (firstn 100 (versions id (sh_revisions s)))).

(** One transaction over the claims and the host rows. *)
Definition with_claims (op : claim_options) (fault : option error) (write : node (columns X) -> fallible (option Z * node (columns X))) : step (shop X) unit :=
  fun s => match withHostDomainClaims op (fun n => match fault with Some e => Throw e | None => write n end) (sh_registry s) with
           | Ok (_, r) => (Ok tt, set_registry r s)
           | Throw e => (Throw e, s)
           end.

Definition patch_row (id : Z) (f : proxy_row X -> proxy_row X) (n : node (columns X)) : node (columns X) :=
  set_hosts "proxy_host" (patch_where (by_id id) f (nd_hosts n "proxy_host")) n.

(** The compensation meets a conflict with a writer of a status at most twice. *)
Fixpoint retried {A} (attempt : nat) (conflicts : list error) (m : step (shop X) A) : step (shop X) A :=
  match conflicts with
  | [] => m
  | e :: conflicts' => if Nat.leb 2 attempt || negb (retryable e) then throws e else retried (S attempt) conflicts' m
  end.

Definition restoreHostState (f : host_faults) (state : host_state X) : step (shop X) unit :=
  do* h := of_result (retireHostRuntime (hs_host state)) in
  do* removed := of_result (hasActiveRetiredHostBindings (n_meta (hs_host state))) in
  let own := getConfigName "proxy_host" (n_id h) in
  let files := if removed then map (fun file => if String.eqb (fst file) own then (fst file, None) else file) (hs_files state) else hs_files state in
  do* _ := retried 0 (hf_conflicts f)
    (with_claims (MkOptions "proxy" (Some (n_id h)) (if n_is_deleted h then [] else co_domains (n_body h)) []) None
       (fun n => Ok (Some (n_id h), patch_row (n_id h) (fun _ => h) n))) in
  update_state (fun s => set_shop_node (set_files (restore_files files (nd_files (node_of_shop s))) (node_of_shop s)) s).

Definition on_server {A} (m : action (columns X) A) : step (shop X) A :=
  fun s => let '(r, n) := m (node_of_shop s) in (r, set_shop_node n s).

Definition rollback_failed : error := InternalError "Host change failed; rollback failed and the host state requires verification".

(** The failed change is undone; its error is the answer, unless undoing fails. *)
Definition rethrowAfterHostRollback {A} (f : host_faults) (previous : host_state X) (original : error) : step (shop X) A :=
  fun s => match (do* _ := restoreHostState f previous in on_server reload) s with
           | (Ok _, s') => (Throw original, s')
           | (Throw _, s') => (Throw rollback_failed, s')
           end.
End Revisions.

(** ** The handlers *)

Section Handlers.
Context {X R : Type} `{NginxEnv (columns X)} `{HostRules X R} `{KeyHash}.
Implicit Types (s : shop X) (h : proxy_row X) (rq : request R).

(** The row of a host with the columns of a request. *)
Definition requested_row (id owner : Z) (domains : list string) (ssl : ssl_settings) (list : Z) (other : bool * host_meta * X) : proxy_row X :=
  let '(enabled, meta, rest) := other in
  MkNHost id false enabled meta (MkColumns owner domains (ss_certificate ssl) (ss_forced ssl) (ss_hsts ssl) (ss_subdomains ssl) list rest).

Definition with_certificate (certificate : option Z) rq : request R :=
  MkRequest (rq_domains rq) certificate (rq_new_certificate rq) (rq_ssl_forced rq) (rq_hsts_enabled rq) (rq_hsts_subdomains rq) (rq_list rq) (rq_other rq).

(** The transaction of an update: the row as it is now, if the user may change it. *)
Definition write_update (who : requester) (all : bool) (id : Z) (domains : list string) (ssl : ssl_settings) rq (n : node (columns X))
    : fallible (option Z * node (columns X)) :=
  match find_host "proxy_host" id n with
  | Some c =>
      throw ItemNotFoundError (Some id) when (n_is_deleted c || negb (may_see all who c)) ;;
      let? other := prepared (rq_other rq) (Some c) in
      let row := requested_row id (co_owner (n_body c)) domains ssl (default (co_list (n_body c)) (rq_list rq)) other in
      Ok (Some id, patch_row id (fun _ => row) n)
  | None => Throw (ItemNotFoundError (Some id))
  end.

(** An activation that did not bring the host up. *)
Definition not_activated (enabled : bool) (m : host_meta) : bool :=
  match m with Meta _ online err => truthy err || (enabled && bool_decide (online = Some false)) | UnreadableMeta => true end.

Definition known_offline (m : host_meta) : bool := match m with Meta _ (Some false) _ => true | _ => false end.

(** The written update goes live, and the names it gave up become free. *)
Definition activate_update (who : requester) (now : Z) (f : host_faults) (id : Z) (domains : list string) (skip : bool) : step (shop X) (proxy_row X) :=
  do* row := query (get_host who id) in
  if skip then done_with row
  else
    do* meta := on_server (configureHost now "proxy_host" row false) in
    do* _ := of_result (throw ConfigurationError "Host activation failed; previous configuration restored" when (not_activated (n_enabled row) meta) ;; Ok tt) in
    do* _ := record who (hf_record f) id "updated" in
    do* _ := with_claims (MkOptions "proxy" (Some id) domains []) (hf_release f) (fun n => Ok (None, n)) in
    done_with row.

Definition audit (f : host_faults) (what : string) (id : Z) : step (shop X) unit :=
  do* _ := unless (hf_audit f) in update_state (logged what id).

Definition update_host (who : requester) (now : Z) (f : host_faults) (id : Z) rq (skip : bool) : step (shop X) (proxy_row X) :=
  do* _ := of_result (rq_can who "proxy_hosts:update") in
  do* _ := of_result (match rq_domains rq with Some ds => validateDomainNames ds | None => Ok tt end) in
  do* row := query (get_host who id) in
  do* _ := of_result (check_request rq (Some row)) in
  do* certificate := of_result (if rq_new_certificate rq then rmap Some (quick_certificate (default (co_domains (n_body row)) (rq_domains rq))) else Ok (rq_certificate rq)) in
  do* all := of_result (rq_can who "proxy_hosts:update") in
  do* _ := query (get_host who id) in
  do* previous := query (captureHostState id) in
  let old := hs_host previous in
  do* _ := (if skip || known_offline (n_meta old) then done_with 0 else record who (hf_baseline f) id "baseline") in
  let domains := default (co_domains (n_body old)) (rq_domains rq) in
  let rq := with_certificate certificate rq in
  let ssl := cleanSslHstsData (rq_new_certificate rq) rq (Some (n_body old)) in
  do* _ := of_result (check_lists rq (Some old)) in
  do* _ := with_claims (MkOptions "proxy" (Some id) domains (if skip then [] else co_domains (n_body old))) (hf_write f) (write_update who all id domains ssl rq) in
  do* row := catching (activate_update who now f id domains skip) (rethrowAfterHostRollback f previous) in
  do* _ := audit f "updated" id in
  done_with row.

Definition set_enabled (b : bool) (id : Z) s : shop X := set_shop_node (patch_row id (with_enabled b) (node_of_shop s)) s.

Definition activate_enabled (who : requester) (now : Z) (f : host_faults) (row : proxy_row X) : step (shop X) unit :=
  do* _ := unless (hf_write f) in
  do* _ := update_state (set_enabled true (n_id row)) in
  do* meta := on_server (configureHost now "proxy_host" (with_enabled true row) false) in
  do* _ := of_result (throw ConfigurationError "Host activation failed" when (not_activated true meta) ;; Ok tt) in
  do* _ := record who (hf_record f) (n_id row) "enabled" in
  done_with tt.

Definition enable (who : requester) (now : Z) (f : host_faults) (id : Z) : step (shop X) bool :=
  do* _ := of_result (rq_can who "proxy_hosts:update") in
  do* row := query (get_host who id) in
  do* _ := of_result (throw ValidationError "Host is already enabled" when (n_enabled row) ;; check_enable row) in
  do* _ := query (get_host who id) in
  do* previous := query (captureHostState id) in
  do* _ := record who (hf_baseline f) id "baseline" in
  do* _ := catching (activate_enabled who now f row) (rethrowAfterHostRollback f previous) in
  do* _ := audit f "enabled" id in
  done_with true.

Definition deactivate (who : requester) (f : host_faults) (id : Z) : step (shop X) unit :=
  do* _ := unless (hf_write f) in
  do* _ := update_state (set_enabled false id) in
  do* _ := on_server (on_files (deleteConfig "proxy_host" id)) in
  do* _ := on_server reload in
  do* _ := record who (hf_record f) id "disabled" in
  done_with tt.

Definition disable (who : requester) (f : host_faults) (id : Z) : step (shop X) bool :=
  do* _ := of_result (rq_can who "proxy_hosts:update") in
  do* row := query (get_host who id) in
  do* _ := of_result (throw ValidationError "Host is already disabled" when (negb (n_enabled row)) ;; Ok tt) in
  do* _ := query (get_host who id) in
  do* previous := query (captureHostState id) in
  do* _ := record who (hf_baseline f) id "baseline" in
  do* _ := catching (deactivate who f id) (rethrowAfterHostRollback f previous) in
  do* _ := audit f "disabled" id in
  done_with true.

Definition mark_deleted (id : Z) (n : node (columns X)) : node (columns X) :=
  patch_row id (fun h => MkNHost (n_id h) true (n_enabled h) (n_meta h) (n_body h)) n.

Definition remove_config (f : host_faults) (id : Z) : step (shop X) unit :=
  do* _ := on_server (on_files (deleteConfig "proxy_host" id)) in
  do* _ := on_server reload in
  with_claims (MkOptions "proxy" (Some id) [] []) (hf_release f) (fun n => Ok (None, n)).

Definition delete_host (who : requester) (f : host_faults) (id : Z) : step (shop X) bool :=
  do* _ := of_result (rq_can who "proxy_hosts:delete") in
  do* row := query (get_host who id) in
  do* _ := query (get_host who id) in
  do* previous := query (captureHostState id) in
  do* _ := on_server (on_files (backupConfig "proxy_host" id)) in
  do* _ := with_claims (MkOptions "proxy" (Some id) [] (co_domains (n_body (hs_host previous)))) (hf_write f) (fun n => Ok (None, mark_deleted id n)) in
  do* _ := catching (remove_config f id) (rethrowAfterHostRollback f previous) in
  do* _ := on_server (on_files (deleteBackupConfig "proxy_host" id)) in
  do* _ := audit f "deleted" id in
  done_with true.

(** *** Bringing a version back *)

Definition loadRevision (id revisionId : Z) s : fallible (revision X) :=
  match first_where (fun r => (rv_id r =? revisionId) && (rv_host r =? id)) (sh_revisions s) with
  | Some r => Ok r
  | None => Throw (ItemNotFoundError (Some revisionId))
  end.

(** The files of the access list and the certificate must be as they were. *)
Definition assertReferencesCurrent (target : host_state X) (id : Z) s : fallible unit :=
  let references := List.filter (fun file => negb (String.eqb (fst file) (getConfigName "proxy_host" id))) (hs_files target) in
  throw ValidationError "A referenced certificate or access list changed; restore that shared resource separately"
    when (negb (String.eqb (files_fingerprint (capture_files (map fst references) (nd_files (node_of_shop s)))) (files_fingerprint references))) ;;
  check_shared (hs_host target).

(** The version as it would be now: the owner stays. *)
Definition restored_candidate (target current : proxy_row X) : fallible (proxy_row X) :=
  let? meta := sanitizeHostMeta (n_meta target) in
  let c := n_body target in
  Ok (MkNHost (n_id current) (n_is_deleted current) (n_enabled target) meta
        (MkColumns (co_owner (n_body current)) (co_domains c) (co_certificate c) (co_ssl_forced c) (co_hsts_enabled c) (co_hsts_subdomains c) (co_list c) (co_rest c))).

Definition host_names (host_type : string) s : list (Z * list string) :=
  map (fun h => (n_id h, co_domains (n_body h))) (select_where (fun h => negb (n_is_deleted h)) (nd_hosts (node_of_shop s) host_type)).
Definition all_names s : list (string * list (Z * list string)) :=
  [("proxy", host_names "proxy_host" s); ("redirection", host_names "redirection_host" s); ("dead", host_names "dead_host" s)].

(** A name the host does not have now must be free. *)
Definition names_free (id : Z) (domains current : list string) s : fallible unit :=
  throw ValidationError "A revision domain is now assigned to another host"
    when (existsb (fun d => negb (existsb (fun c => String.eqb (to_lower c) (to_lower d)) current) && isHostnameTaken d (all_names s) "proxy" id) domains) ;;
  Ok tt.

Definition activate_restored (who : requester) (now : Z) (f : host_faults) (id : Z) (candidate : proxy_row X) (previous : list string) : step (shop X) Z :=
  do* _ := with_claims (MkOptions "proxy" (Some id) (co_domains (n_body candidate)) previous) (hf_write f)
    (fun n => Ok (Some id, patch_row id (fun c => MkNHost (n_id c) (n_is_deleted c) (n_enabled candidate) (n_meta candidate) (n_body candidate)) n)) in
  do* meta := on_server (configureHost now "proxy_host" candidate false) in
  do* _ := of_result (throw ConfigurationError "Revision activation failed; previous host configuration restored"
    when (match meta with Meta _ _ err => truthy err | UnreadableMeta => true end) ;; Ok tt) in
  do* revision := record who (hf_record f) id "restored" in
  do* _ := with_claims (MkOptions "proxy" (Some id) (co_domains (n_body candidate)) []) (hf_release f) (fun n => Ok (None, n)) in
  done_with revision.

Definition restore_revision (who : requester) (now : Z) (f : host_faults) (id revisionId : Z) (expected : string) : step (shop X) Z :=
  do* _ := query (authorize who "update" id) in
  do* current := query (captureHostState id) in
  do* _ := of_result (throw ValidationError "Host changed since the restore plan was loaded; review a new plan"
    when (negb (String.eqb expected (fingerprint current))) ;; Ok tt) in
  do* stored := query (loadRevision id revisionId) in
  do* target := of_result (retireHostRuntime (hs_host (rv_state stored))) in
  do* _ := query (assertReferencesCurrent (MkState target (hs_files (rv_state stored))) id) in
  do* candidate := of_result (restored_candidate target (hs_host current)) in
  do* _ := of_result (check_restored candidate (hs_host current)) in
  do* _ := of_result (validateDomainNames (co_domains (n_body candidate))) in
  do* _ := query (names_free id (co_domains (n_body candidate)) (co_domains (n_body (hs_host current)))) in
  do* revision := catching (activate_restored who now f id candidate (co_domains (n_body (hs_host current)))) (rethrowAfterHostRollback f current) in
  do* _ := audit f "restored" id in
  done_with revision.

(** *** Creating *)

(** A new host: when it cannot be activated, it is deleted again. *)
Definition activate_created (who : requester) (now : Z) (f : host_faults) (row : proxy_row X) : step (shop X) unit :=
  do* meta := on_server (configureHost now "proxy_host" row false) in
  do* _ := of_result (throw ConfigurationError "Host activation failed" when (not_activated (n_enabled row) meta) ;; Ok tt) in
  do* _ := record who (hf_record f) (n_id row) "created" in
  done_with tt.

Definition undo_created (f : host_faults) (id : Z) (files : list (string * option string)) (e : error) : step (shop X) unit :=
  do* _ := with_claims (MkOptions "proxy" (Some id) [] []) (hf_release f) (fun n => Ok (None, mark_deleted id n)) in
  do* _ := update_state (fun s => set_shop_node (set_files (restore_files files (nd_files (node_of_shop s))) (node_of_shop s)) s) in
  do* _ := on_server reload in
  throws e.

Definition create_host (who : requester) (now : Z) (f : host_faults) rq : step (shop X) (proxy_row X) :=
  do* _ := of_result (rq_can who "proxy_hosts:create") in
  do* _ := of_result (check_request rq None) in
  do* other := of_result (prepared (rq_other rq) None) in
  let domains := default [] (rq_domains rq) in
  do* _ := of_result (validateDomainNames domains) in
  do* certificate := of_result (if rq_new_certificate rq then rmap Some (quick_certificate domains) else Ok (rq_certificate rq)) in
  let ssl := cleanSslHstsData (rq_new_certificate rq) (with_certificate certificate rq) (None : option (columns X)) in
  do* id := read_state sh_next in
  let row := requested_row id (rq_user who) domains ssl (default 0 (rq_list rq)) other in
  do* _ := of_result (check_lists rq None) in
  do* _ := with_claims (MkOptions "proxy" None domains []) (hf_write f)
    (fun n => Ok (Some id, set_hosts "proxy_host" (nd_hosts n "proxy_host" ++ [row]) n)) in
  do* _ := update_state (fun s => MkShop (sh_registry s) (sh_revisions s) (id + 1) (sh_audit s)) in
  do* row := query (get_host who id) in
  do* files := read_state (fun s => capture_files [getConfigName "proxy_host" id] (nd_files (node_of_shop s))) in
  do* _ := catching (activate_created who now f row) (undo_created f id files) in
  do* _ := audit f "created" id in
  done_with row.
End Handlers.

(** ** What a change of one host can touch *)

Section Beside.
Context {X : Type} `{NginxEnv (columns X)}.
Implicit Types (n : node (columns X)) (h : proxy_row X).

(** Only the row and the files of one proxy host may differ. *)
Record beside (id : Z) n0 n : Prop := {
  bs_rows : Forall2 (fun h h' => n_id h' = n_id h /\ (n_id h <> id -> h' = h)) (nd_hosts n0 "proxy_host") (nd_hosts n "proxy_host");
  bs_types : forall t, t <> "proxy_host" -> nd_hosts n t = nd_hosts n0 t;
  bs_files : forall p, is_active_name p = true -> p <> config_file "proxy_host" id -> nd_files n !! p = nd_files n0 !! p
}.

Lemma beside_start id n : beside id n n.
Proof. constructor; [|done..]. apply Forall2_same_length_lookup_2; [done|]. intros i x y Hx Hy. by assert (x = y) as -> by congruence. Qed.

Lemma beside_patch id n0 f n : (forall r, n_id r = id -> n_id (f r) = id) -> beside id n0 n -> beside id n0 (patch_host "proxy_host" id f n).
Proof.
  intros Hf [Hr Ht Hp]. unfold patch_host, set_hosts. constructor; cbn; [|intros t Hne; by destruct (String.eqb_spec t "proxy_host"); [|apply Ht]|done].
  apply Forall2_fmap_r. eapply Forall2_impl; [exact Hr|]. intros h h' [Hi Ho]. cbn. unfold by_id.
  destruct (n_id h' =? id) eqn:E; [|done]. boolify. rewrite Hf by done. split; [congruence|]. intros Hne. congruence.
Qed.

Lemma beside_hosts id n0 n n' : nd_hosts n' = nd_hosts n -> (forall p, is_active_name p = true -> p <> config_file "proxy_host" id -> nd_files n' !! p = nd_files n !! p) ->
  beside id n0 n -> beside id n0 n'.
Proof. intros Hh Hf [Hr Ht Hp]. constructor; rewrite ?Hh; [done..|]. intros p Ha Hne. by rewrite Hf, Hp. Qed.

Lemma beside_files id n0 (f : file_tree -> file_tree) : (forall t p, is_active_name p = true -> p <> config_file "proxy_host" id -> f t !! p = t !! p) ->
  preserves (beside id n0) (on_files f).
Proof. intros Hf n r n' Hn [= <- <-]. apply (beside_hosts id n0 n); [done| |done]. intros. by apply Hf. Qed.

Lemma beside_unowned id n0 (f : file_tree -> file_tree) : (forall t p, ~ owns "proxy_host" id p -> f t !! p = t !! p) ->
  preserves (beside id n0) (on_files f).
Proof. intros Hf. apply beside_files. intros t p Ha Hne. apply Hf. intros [?|[?|?]]; [done|by eapply active_backup|by eapply active_error]. Qed.

Lemma beside_error id n0 : preserves (beside id n0) (on_files (renameConfigAsError "proxy_host" id)).
Proof. apply beside_unowned. intros t p Hp. unfold owns in Hp. apply lookup_rename_other; naive_solver. Qed.
Lemma beside_restore id n0 : preserves (beside id n0) (on_files (restoreConfig "proxy_host" id)).
Proof. apply beside_unowned. intros t p Hp. unfold owns in Hp. apply lookup_rename_other; naive_solver. Qed.
Lemma beside_backup id n0 : preserves (beside id n0) (on_files (backupConfig "proxy_host" id)).
Proof. apply beside_unowned. intros t p Hp. unfold owns in Hp. apply lookup_backup_other; naive_solver. Qed.
Lemma beside_clear id n0 : preserves (beside id n0) (on_files (deleteBackupConfig "proxy_host" id)).
Proof. apply beside_unowned. intros t p Hp. unfold owns in Hp. apply lookup_delete_ne. naive_solver. Qed.
Lemma beside_delete id n0 : preserves (beside id n0) (on_files (deleteConfig "proxy_host" id)).
Proof. apply beside_unowned. intros t p Hp. unfold owns in Hp. unfold deleteConfig. rewrite !lookup_delete_ne by naive_solver. done. Qed.

Lemma beside_reload id n0 : preserves (beside id n0) reload.
Proof. intros n r n' Hn (Hf & Hh & _)%reload_spec. apply (beside_hosts id n0 n); [done| |done]. intros. by rewrite Hf. Qed.
Lemma beside_test id n0 : preserves (beside id n0) test.
Proof. by intros n r n' Hn [-> _]%test_spec. Qed.

Lemma beside_status id n0 h on e : n_id h = id -> preserves (beside id n0) (updateHostStatus "proxy_host" h on e).
Proof.
  intros Hid n r n' Hn. unfold updateHostStatus. destruct (sanitizeHostMeta _); intros [= <- <-]; [|done].
  destruct (find_host _ (n_id h) n); [|done]. rewrite Hid. by apply beside_patch.
Qed.

Lemma beside_stage id n0 now h : n_id h = id -> preserves (beside id n0) (stageHost now "proxy_host" h).
Proof.
  intros Hid n r n' Hn Hs. pose proof (stageHost_spec _ _ _ _ _ _ Hs) as (_ & Hfile & _).
  unfold stageHost in Hs.
  assert (forall r1 n1, retire_bindings "proxy_host" h n = (r1, n1) -> beside id n0 n1) as Hret.
  { intros r1 n1. unfold retire_bindings. destruct (find_host _ _ n) as [c|] eqn:Ec; [|by intros [= <- <-]].
    destruct (_ && _); [|by intros [= <- <-]]. destruct (hasActiveRetiredHostBindings _) as [[]|]; [|by intros [= <- <-]..].
    destruct (retireHostRuntime c); intros [= <- <-]; [|done].
    apply first_where_Some in Ec as [_ Hc]. unfold by_id in Hc. boolify. rewrite Hc, Hid. by apply beside_patch. }
  apply bind_ok in Hs as [(h' & n1 & Hr & Hs)|(e & Hr & _)]; [|by eapply Hret]. pose proof (Hret _ _ Hr) as Hn1.
  apply retire_bindings_frame in Hr as (_ & _ & Hid'). specialize (Hid' h' eq_refl).
  assert (forall r2 n2, stage_files now "proxy_host" h' n1 = (r2, n2) -> beside id n0 n2) as Hst.
  { intros r2 n2 (_ & Hh & Hf & _)%stage_files_spec. apply (beside_hosts id n0 n1); [done| |done]. intros p Ha Hne. apply Hf.
    rewrite Hid', Hid. intros [?|[?|?]]; [done|by eapply active_backup|by eapply active_error]. }
  apply bind_ok in Hs as [(u & n2 & Hs & [= _ <-])|(e & Hs & _)]; by eapply Hst.
Qed.

Lemma stage_id now h n h' n' : stageHost now "proxy_host" h n = (Ok h', n') -> n_id h' = n_id h.
Proof. by intros (_ & _ & Hid & _)%stageHost_spec. Qed.

(** Configuring a host, however it ends. *)
Lemma beside_configure id n0 now h skip_reload : n_id h = id -> preserves (beside id n0) (configureHost now "proxy_host" h skip_reload).
Proof.
  intros Hid n r n' Hn Hc. unfold configureHost in Hc. apply bind_ok in Hc as [(h' & n1 & Hs & Hc)|(e & Hs & _)];
    [|by eapply beside_stage in Hs]. pose proof (stage_id _ _ _ _ _ Hs) as Hid'. rewrite Hid in Hid'. subst id.
  eapply (beside_stage (n_id h)) in Hs; [|done|exact Hn]. rewrite <- Hid' in Hs |- *. clear Hid' Hn.
  refine (preserves_catch _ _ _ _ _ n1 r n' Hs Hc).
  - apply preserves_bind; [destruct skip_reload; [apply beside_test|apply beside_reload]|intros u].
    apply preserves_bind; [by apply beside_status|intros m]. apply preserves_bind; [apply beside_clear|]. by intros u' m1 r1 m1' Hm [= <- <-].
  - intros e. apply preserves_bind; [apply beside_error|intros _]. apply preserves_bind; [apply beside_restore|intros _].
    apply preserves_bind; [destruct skip_reload; [by intros m1 r1 m1' Hm [= <- <-]|apply beside_reload]|intros u]. by apply beside_status.
Qed.
End Beside.

(** ** Undoing a change *)

Section Undoing.
Context {X R : Type} `{NginxEnv (columns X)} `{HostRules X R} `{KeyHash}.
Implicit Types (s : shop X) (h : proxy_row X).

Abbreviation names_of id r := (map ow_name (select_where (owned_by "proxy" id) (rg_owners r))).

(** A live host whose claims are its names, on a node that serves its files. *)
Record at_rest (id : Z) h s : Prop := {
  rs_host : first_where (live_host id) (rows_of s) = Some h;
  rs_ids : List.NoDup (map n_id (rows_of s));
  rs_meta : hasActiveRetiredHostBindings (n_meta h) = Ok false;
  rs_registry : registry_inv (sh_registry s);
  rs_locks : rg_locks (sh_registry s) = 1%nat;
  rs_claims : forall d, In d (names_of id (sh_registry s)) <-> In d (map to_lower (co_domains (n_body h)));
  rs_names : is_owner_id id = true /\ ~ In "" (co_domains (n_body h));
  rs_valid : valid_files (node_of_shop s);
  rs_serves : nd_running (node_of_shop s) = active_files (nd_files (node_of_shop s))
}.

(** Nothing a visitor or another host could notice has changed. *)
Record kept s0 s : Prop := {
  kp_rows : forall t, nd_hosts (node_of_shop s) t = nd_hosts (node_of_shop s0) t;
  kp_files : active_files (nd_files (node_of_shop s)) = active_files (nd_files (node_of_shop s0));
  kp_running : nd_running (node_of_shop s) = nd_running (node_of_shop s0);
  kp_claims : forall type id key, holds (sh_registry s) type id key <-> holds (sh_registry s0) type id key
}.

Lemma kept_same s0 s : sh_registry s = sh_registry s0 -> kept s0 s.
Proof. unfold node_of_shop. intros He. by constructor; unfold node_of_shop; rewrite He. Qed.

(** While a change is under way: the rest is untouched, and the host still holds
    its old names. *)
Record changing (id : Z) (names : list string) s0 s : Prop := {
  ch_node : beside id (node_of_shop s0) (node_of_shop s);
  ch_registry : registry_inv (sh_registry s);
  ch_locks : rg_locks (sh_registry s) = 1%nat;
  ch_others : delete_where (owned_by "proxy" id) (rg_owners (sh_registry s)) = delete_where (owned_by "proxy" id) (rg_owners (sh_registry s0));
  ch_names : forall d, In d names -> In (to_lower d) (names_of id (sh_registry s))
}.

Lemma at_rest_same id h s s' : sh_registry s' = sh_registry s -> at_rest id h s -> at_rest id h s'.
Proof.
  unfold node_of_shop. intros He [H1a H2a H3a H4a H5a H6a H7a H8a H9a].
  constructor; unfold rows_of, node_of_shop; rewrite ?He; assumption.
Qed.

Lemma changing_node id names s0 s n : beside id (node_of_shop s0) n -> changing id names s0 s -> changing id names s0 (set_shop_node n s).
Proof. intros Hn [_ Hr Hl Ho Hm]. constructor; [exact Hn|by destruct Hr|exact Hl|exact Ho|exact Hm]. Qed.

Lemma changing_same id names s0 s s' : sh_registry s' = sh_registry s -> changing id names s0 s -> changing id names s0 s'.
Proof. unfold node_of_shop. intros He [Hn Hr Hl Ho Hm]. by constructor; unfold node_of_shop; rewrite ?He. Qed.

Lemma changing_server {A} id names s0 (m : action (columns X) A) : preserves (beside id (node_of_shop s0)) m ->
  through (changing id names s0) (on_server m).
Proof.
  intros Hm s r s' Hs. unfold on_server. destruct (m (node_of_shop s)) as [r1 n1] eqn:E. intros [= <- <-].
  apply changing_node; [|done]. eapply Hm; [|exact E]. by apply ch_node in Hs.
Qed.

Lemma record_registry who fault id what s r s' : record who fault id what s = (r, s') -> sh_registry s' = sh_registry s.
Proof.
  unfold record, and_then, query, unless, read_state. destruct (captureHostState id s); [|by intros [= _ <-]].
  destruct fault; [by intros [= _ <-]|]. destruct (versions id _) as [|latest vs]; [by intros [= _ <-]|].
  destruct (String.eqb _ _); by intros [= _ <-].
Qed.

Lemma changing_record id names s0 who fault id' what : through (changing id names s0) (record who fault id' what).
Proof. intros s r s' Hs Hr%record_registry. by apply (changing_same _ _ _ s). Qed.

(** The claims of the host after a transaction of its own. *)
Lemma claims_set domains retained id names s0 s (write : node (columns X) -> fallible (option Z * node (columns X))) s' result r' :
  changing id names s0 s -> withHostDomainClaims (MkOptions "proxy" (Some id) domains retained) write (sh_registry s) = Ok (result, r') ->
  (forall n1, write (node_of_shop s) = Ok (result, n1) -> beside id (node_of_shop s0) n1) -> s' = set_registry r' s ->
  registry_inv r' /\ rg_locks r' = 1%nat /\ beside id (node_of_shop s0) (rg_world r') /\
  delete_where (owned_by "proxy" id) (rg_owners r') = delete_where (owned_by "proxy" id) (rg_owners (sh_registry s0)) /\
  forall d, In d (names_of id r') <-> In d (map to_lower (domains ++ retained)).
Proof.
  intros [Hn Hr Hl Ho Hm] Hw Hwrite ->. split; [eapply registry_kept; [exact Hr|exact Hw|done]|].
  split; [by apply claims_inversion in Hw as (id' & world & claims & owners & _ & _ & _ & _ & _ & ->)|].
  apply owners_after in Hw as (id' & [[= <-]|[? _]] & (w & Hww & Hrw) & Hnames & Hin & Hdel); [|done]. rewrite Hrw. simpl in *.
  split; [by apply Hwrite|]. split; [congruence|]. intros d. rewrite Hnames, Hin, in_map_iff.
  split; intros (x & ?Hx & ?Hd); exists x; by split.
Qed.

Lemma changing_claims id names s0 s domains retained fault write r s' :
  (forall n n1 o, beside id (node_of_shop s0) n -> write n = Ok (o, n1) -> beside id (node_of_shop s0) n1) ->
  (forall d, In d names -> In d (domains ++ retained)) ->
  changing id names s0 s -> with_claims (MkOptions "proxy" (Some id) domains retained) fault write s = (r, s') ->
  changing id names s0 s' /\ (is_ok r = false -> s' = s).
Proof.
  intros Hwrite Hsub Hs. unfold with_claims. destruct (withHostDomainClaims _ _ _) as [[o r']|e] eqn:Ew; intros [= <- <-]; [|done].
  split; [|done]. edestruct claims_set as (Hi & Hl & Hn & Ho & Hnames); [exact Hs|exact Ew| |reflexivity|].
  - intros n1. destruct fault; [done|]. apply Hwrite. by apply ch_node in Hs.
  - constructor; try done. intros d Hd. apply Hnames, in_map. auto.
Qed.
(** Who holds what is decided by the names of one host and the rows of the others. *)
Lemma same_claims id (r r0 : registry (node (columns X))) type id' key : registry_inv r -> registry_inv r0 ->
  delete_where (owned_by "proxy" id) (rg_owners r) = delete_where (owned_by "proxy" id) (rg_owners r0) ->
  (forall d, In d (names_of id r) <-> In d (names_of id r0)) -> holds r type id' key <-> holds r0 type id' key.
Proof.
  assert (forall q q0 : registry (node (columns X)), registry_inv q -> registry_inv q0 ->
    delete_where (owned_by "proxy" id) (rg_owners q) = delete_where (owned_by "proxy" id) (rg_owners q0) ->
    (forall d, In d (names_of id q) -> In d (names_of id q0)) -> holds q type id' key -> holds q0 type id' key) as Hdir.
  { intros q q0 Hq Hq0 Hdel Hn (o & Ho & Hb & Hk). destruct (owned_by "proxy" id o) eqn:E.
    - assert (In (ow_name o) (names_of id q)) as Hin by (apply in_map, in_select; done).
      apply Hn, in_map_iff in Hin as (o0 & He & [Ho0 Hb0]%in_select). exists o0. split; [done|].
      apply owned_by_spec in E as [Et Ei], Hb0 as [Et0 Ei0], Hb as [<- <-]. split; [apply owned_by_spec; split; congruence|].
      rewrite (ri_hashed _ Hq0), He, <- (ri_hashed _ Hq) by done. done.
    - assert (In o (delete_where (owned_by "proxy" id) (rg_owners q))) as Hin by (by apply in_delete).
      rewrite Hdel in Hin. apply in_delete in Hin as [Hin _]. by exists o. }
  intros Hr Hr0 Hd Hn. split; apply Hdir; try done; intros d; apply Hn.
Qed.

Lemma retried_ok {A} attempt conflicts (m : step (shop X) A) : (attempt + length conflicts <= 2)%nat -> forallb retryable conflicts = true ->
  retried attempt conflicts m = m.
Proof.
  revert attempt. induction conflicts as [|e conflicts IH]; intros attempt Hn Hc; [done|]. simpl in *. boolify.
  replace (Nat.leb 2 attempt || negb (retryable e)) with false; [apply IH; [lia|done]|].
  symmetry. apply orb_false_iff. split; [|by apply negb_false_iff]. apply Nat.leb_gt. lia.
Qed.

Lemma retire_same h : hasActiveRetiredHostBindings (n_meta h) = Ok false -> retireHostRuntime h = Ok h.
Proof. unfold retireHostRuntime. by destruct h as [id d e [[] on err|] b]. Qed.

Lemma rows_back id h (rows0 rows : list (proxy_row X)) : (forall x, In x rows0 -> n_id x = id -> x = h) ->
  Forall2 (fun x y => n_id y = n_id x /\ (n_id x <> id -> y = x)) rows0 rows -> patch_where (by_id id) (fun _ => h) rows = rows0.
Proof.
  intros Hh Hr. unfold patch_where. induction Hr as [|x y rows0 rows [Hi Ho] _ IH]; [done|]. simpl. rewrite IH by (intros; apply Hh; [by right|done]).
  f_equal. unfold by_id. rewrite Hi. destruct (Z.eqb_spec (n_id x) id); [symmetry; apply Hh; [by left|done]|by apply Ho].
Qed.

Lemma at_rest_row id h s : at_rest id h s -> In h (rows_of s) /\ n_id h = id /\ n_is_deleted h = false.
Proof. intros Hs. destruct Hs as [Hh _ _ _ _ _ _ _ _]. apply first_where_Some in Hh as [Hin Hl]. unfold live_host, by_id in Hl. by boolify. Qed.

Lemma at_rest_only id h s : at_rest id h s -> forall x, In x (rows_of s) -> n_id x = id -> x = h.
Proof.
  intros Hs x Hx Hid. destruct (at_rest_row _ _ _ Hs) as (Hin & Hi & _). pose proof (rs_ids _ _ _ Hs) as Hnd.
  apply list_elem_of_In, list_elem_of_lookup in Hx as [i Hx]. apply list_elem_of_In, list_elem_of_lookup in Hin as [j Hin].
  assert (i = j) as ->; [|congruence].
  apply (NoDup_lookup (map n_id (rows_of s)) i j id); [by apply NoDup_ListNoDup|rewrite list_lookup_fmap, Hx; by simpl; f_equal|rewrite list_lookup_fmap, Hin; by simpl; f_equal].
Qed.

(** Undoing finds the old names still there for the host, and gives everything back. *)
Lemma host_is_restored id h f s0 s : at_rest id h s0 -> (forall a b, key_hash a = key_hash b -> a = b) ->
  (length (hf_conflicts f) <= 2)%nat -> forallb retryable (hf_conflicts f) = true ->
  changing id (co_domains (n_body h)) s0 s ->
  exists r', registry_inv r' /\
    restoreHostState f (MkState h (capture_files (state_paths h) (nd_files (node_of_shop s0)))) s =
      (Ok tt, set_shop_node (set_files (restore_files (capture_files (state_paths h) (nd_files (node_of_shop s0))) (nd_files (node_of_shop s)))
        (rg_world r')) (set_registry r' s)) /\
    rg_world r' = patch_row id (fun _ => h) (node_of_shop s) /\
    (forall d, In d (names_of id r') <-> In d (map to_lower (co_domains (n_body h)))) /\
    delete_where (owned_by "proxy" id) (rg_owners r') = delete_where (owned_by "proxy" id) (rg_owners (sh_registry s0)).
Proof.
  intros Hs0 Hinj Hlen Hretry Hc. destruct (at_rest_row _ _ _ Hs0) as (Hin & Hid & Hd). pose proof (rs_meta _ _ _ Hs0) as Hm.
  destruct (rs_names _ _ _ Hs0) as [Hown Hempty].
  set (op := MkOptions "proxy" (Some id) (co_domains (n_body h)) []).
  set (write := fun n : node (columns X) => (Ok (Some id, patch_row id (fun _ => h) n) : fallible (option Z * node (columns X)))).
  destruct (unopposed_names_are_granted op write (sh_registry s) (Some id) (patch_row id (fun _ => h) (node_of_shop s))) as [r' Hr']; try done.
  - by apply ch_registry in Hc.
  - unfold valid_options, op. cbn [op_hostType op_hostId op_domainNames op_retained]. rewrite Hown, app_nil_r. apply andb_true_iff.
    split; [done|]. apply negb_true_iff, not_true_is_false. by rewrite existsb_eqb_In.
  - by apply ch_locks in Hc.
  - intros o d _ Hdin Hname. simpl in Hdin. rewrite app_nil_r in Hdin. unfold conflicting, existing_names. simpl. apply andb_false_iff. right.
    apply negb_false_iff, existsb_eqb_In. rewrite Hname. by apply (ch_names _ _ _ _ Hc).
  - destruct (claims_set (co_domains (n_body h)) [] id (co_domains (n_body h)) s0 s write (set_registry r' s) (Some id) r') as (Hi & _ & _ & Ho & Hn); try done.
    { intros n1 [= <-]. apply beside_patch; [done|]. by apply ch_node in Hc. }
    assert (rg_world r' = patch_row id (fun _ => h) (node_of_shop s)) as Hw
      by (apply owners_after in Hr' as (id' & _ & (w & Hw1 & Hw2) & _); unfold write in Hw1; by injection Hw1 as <-).
    exists r'. split_and!; try done; [|intros d; rewrite Hn; by rewrite app_nil_r].
    unfold restoreHostState, of_result, and_then. cbn [hs_host hs_files]. rewrite (retire_same _ Hm), Hm.
    rewrite retried_ok by done. rewrite Hid, Hd. unfold with_claims. fold op.
    change (withHostDomainClaims op (fun n => Ok (Some id, patch_row id (fun _ => h) n)) (sh_registry s)) with (withHostDomainClaims op write (sh_registry s)).
    rewrite Hr'. unfold update_state. change (node_of_shop (set_registry r' s)) with (rg_world r'). by rewrite Hw.
Qed.

Lemma rollback_keeps {A} id h f e s0 s (r : fallible A) s' : at_rest id h s0 -> (forall a b, key_hash a = key_hash b -> a = b) ->
  (length (hf_conflicts f) <= 2)%nat -> forallb retryable (hf_conflicts f) = true -> changing id (co_domains (n_body h)) s0 s ->
  rethrowAfterHostRollback f (MkState h (capture_files (state_paths h) (nd_files (node_of_shop s0)))) e s = (r, s') -> kept s0 s'.
Proof.
  intros Hs0 Hinj Hlen Hretry Hc. destruct (host_is_restored id h f s0 s Hs0 Hinj Hlen Hretry Hc) as (r' & Hi & Hres & Hw & Hn & Ho).
  unfold rethrowAfterHostRollback, and_then. rewrite Hres. unfold on_server.
  set (s1 := set_shop_node _ _). set (n1 := node_of_shop s1).
  destruct (ch_node _ _ _ _ Hc) as [Hrows Htypes Hfiles].
  assert (active_files (nd_files n1) = active_files (nd_files (node_of_shop s0))) as Ha.
  { apply active_files_eq. intros p Hp.
    change (restore_files (capture_files (state_paths h) (nd_files (node_of_shop s0))) (nd_files (node_of_shop s)) !! p = nd_files (node_of_shop s0) !! p).
    rewrite restored_lookup. destruct (existsb (String.eqb p) (state_paths h)) eqn:E; [done|].
    apply Hfiles; [done|]. intros ->. rewrite <- not_true_iff_false in E. apply E, existsb_eqb_In. unfold state_paths. left.
    destruct (at_rest_row _ _ _ Hs0) as (_ & <- & _). symmetry. apply config_file_name. }
  assert (reload n1 = (Ok tt, MkNode (nd_files n1) (active_files (nd_files n1)) (nd_hosts n1))) as ->.
  { pose proof (rs_valid _ _ _ Hs0) as Hv. unfold valid_files in Hv. rewrite <- Ha in Hv. unfold reload, bind, test. by rewrite Hv. }
  intros [= <- <-]. constructor.
  - intros t. change (nd_hosts (rg_world r') t = nd_hosts (node_of_shop s0) t). rewrite Hw. cbn.
    destruct (String.eqb_spec t "proxy_host") as [->|Hne]; [|by apply Htypes]. apply rows_back; [exact (at_rest_only _ _ _ Hs0)|exact Hrows].
  - exact Ha.
  - rewrite (rs_serves _ _ _ Hs0). exact Ha.
  - intros type id' key. change (holds r' type id' key <-> holds (sh_registry s0) type id' key).
    apply (same_claims id); [done|by apply rs_registry in Hs0|done|]. intros d. rewrite Hn. symmetry. apply (rs_claims _ _ _ Hs0).
Qed.
End Undoing.

(** ** Failing changes *)

Section Failing.
Context {X R : Type} `{NginxEnv (columns X)} `{HostRules X R} `{KeyHash}.
Implicit Types (s : shop X) (h : proxy_row X) (rq : request R).

(** The changes of an existing host. *)
Inductive change : Type := Update (rq : request R) | Enable | Disable | Delete | Restore (revisionId : Z) (expected : string).

Definition apply_change (who : requester) (now : Z) (f : host_faults) (id : Z) (c : change) : step (shop X) unit :=
  match c with
  | Update rq => do* _ := update_host who now f id rq false in done_with tt
  | Enable => do* _ := enable who now f id in done_with tt
  | Disable => do* _ := disable who f id in done_with tt
  | Delete => do* _ := delete_host who f id in done_with tt
  | Restore revisionId expected => do* _ := restore_revision who now f id revisionId expected in done_with tt
  end.

Lemma get_host_id who id s h s' : query (get_host who id) s = (Ok h, s') -> n_id h = id /\ n_is_deleted h = false.
Proof.
  unfold query, get_host. destruct (rq_can who _); [|done]. simpl. destruct (first_where _ _) as [h'|] eqn:E; [|done].
  intros [= -> <-]. apply first_where_Some in E as [_ Hl]. unfold live_host, by_id in Hl. by boolify.
Qed.

Lemma patch_row_beside id n0 (f : proxy_row X -> proxy_row X) n : (forall r, n_id r = id -> n_id (f r) = id) ->
  beside id n0 n -> beside id n0 (patch_row id f n).
Proof. apply beside_patch. Qed.

Section OneChange.
Context (id : Z) (h : proxy_row X) (f : host_faults) (s0 : shop X).
Context (Hrest : at_rest id h s0) (Hhash : forall a b, key_hash a = key_hash b -> a = b).
Context (Hconflicts : (length (hf_conflicts f) <= 2)%nat) (Hretry : forallb retryable (hf_conflicts f) = true).

Abbreviation under_way := (changing id (co_domains (n_body h)) s0).
Abbreviation untouched := (fun s => sh_registry s = sh_registry s0).
Definition quiet s : Prop := kept s0 s /\ under_way s.

Lemma quiet_start s : sh_registry s = sh_registry s0 -> quiet s.
Proof.
  intros Hs. split; [by apply kept_same|]. apply (changing_same _ _ _ s0); [done|]. constructor; try by destruct Hrest.
  - apply beside_start.
  - intros d Hd. apply (rs_claims _ _ _ Hrest). by apply in_map.
Qed.

Lemma quiet_kept s : quiet s -> kept s0 s.
Proof. by intros [Hk _]. Qed.
Lemma untouched_kept s : sh_registry s = sh_registry s0 -> kept s0 s.
Proof. apply kept_same. Qed.

Lemma untouched_record who fault what : through untouched (record who fault id what).
Proof. intros s r s' Hs Hr%record_registry. congruence. Qed.

Lemma captured s : sh_registry s = sh_registry s0 -> captureHostState id s = Ok (MkState h (capture_files (state_paths h) (nd_files (node_of_shop s0)))).
Proof. intros Hs. unfold captureHostState, rows_of, node_of_shop. rewrite Hs. by rewrite (rs_host _ _ _ Hrest : first_where _ (nd_hosts (rg_world (sh_registry s0)) "proxy_host") = _). Qed.

(** The transaction of a change: it fails as a whole, or the change is under way. *)
Lemma write_fails {A} domains retained fault write s (k : unit -> step (shop X) A) : quiet s ->
  (forall n n1 o, beside id (node_of_shop s0) n -> write n = Ok (o, n1) -> beside id (node_of_shop s0) n1) ->
  (forall d, In d (co_domains (n_body h)) -> In d (domains ++ retained)) ->
  (forall s1, under_way s1 -> fails_with (kept s0) s1 (k tt)) ->
  fails_with (kept s0) s (do* u := with_claims (MkOptions "proxy" (Some id) domains retained) fault write in k u).
Proof.
  intros [Hk Hs] Hw Hsub Hk' e s'. unfold and_then. destruct (with_claims _ fault write s) as [r s1] eqn:E.
  eapply changing_claims in E as [Hs1 Hf]; [|exact Hw|exact Hsub|exact Hs].
  destruct r as [[]|e1]; [by apply Hk'|]. intros [= _ <-]. by rewrite Hf.
Qed.

(** What fails after it is undone. *)
Lemma caught_fails {A C} s (m : step (shop X) A) (k : A -> step (shop X) C) : under_way s -> fails_with under_way s m ->
  (forall a s1 e s', k a s1 <> (Throw e, s')) ->
  fails_with (kept s0) s (do* a := catching m (rethrowAfterHostRollback f (MkState h (capture_files (state_paths h) (nd_files (node_of_shop s0))))) in k a).
Proof.
  intros Hs Hm Hk e s'. unfold and_then, catching. destruct (m s) as [[a|e1] s1] eqn:E; [by intros ?%Hk|].
  destruct (rethrowAfterHostRollback _ _ _ _) as [r s2] eqn:Er. apply (rollback_keeps id h f e1 s0 s1 r s2) in Er; [|done..|by eapply Hm].
  destruct r; [by intros ?%Hk|]. by intros [= _ <-].
Qed.

(** The names are given up at the very end. *)
Lemma release_fails {A} domains fault s (k : unit -> step (shop X) A) : under_way s -> (forall a s1 e s', k a s1 <> (Throw e, s')) ->
  fails_with under_way s (do* u := with_claims (MkOptions "proxy" (Some id) domains []) fault (fun n => Ok (None, n)) in k u).
Proof.
  intros Hs Hk e s'. unfold and_then, with_claims. destruct (withHostDomainClaims _ _ _) as [[o r']|e1]; [by intros ?%Hk|by intros [= _ <-]].
Qed.

#[local] Hint Resolve changing_record untouched_record quiet_kept untouched_kept : shield.

(** One step of a change under way. *)
Ltac next_change := eapply (then_fails under_way); [by eauto with shield|by eauto with shield|by eauto with shield|intros ? ?s ?Hr ?Hs].

Lemma under_way_server {A} (m : action (columns X) A) : preserves (beside id (node_of_shop s0)) m -> through under_way (on_server m).
Proof. apply changing_server. Qed.

Lemma under_way_enabled b : through under_way (update_state (set_enabled b id)).
Proof. apply through_update. intros s Hs. apply changing_node; [|done]. apply patch_row_beside; [done|]. by apply ch_node in Hs. Qed.

#[local] Hint Resolve under_way_server under_way_enabled beside_configure beside_delete beside_reload : shield.

Lemma update_body_fails who now domains s : under_way s -> fails_with under_way s (activate_update who now f id domains false).
Proof.
  intros Hs. unfold activate_update. next_change. apply get_host_id in Hr as [Hid _].
  do 3 next_change. by apply release_fails.
Qed.

Lemma enable_body_fails who now row s : n_id row = id -> under_way s -> fails_with under_way s (activate_enabled who now f row).
Proof. intros Hid Hs. unfold activate_enabled. rewrite Hid. next_change. do 4 next_change. done. Qed.

Lemma disable_body_fails who s : under_way s -> fails_with under_way s (deactivate who f id).
Proof. intros Hs. unfold deactivate. do 5 next_change. done. Qed.

Lemma delete_body_fails s : under_way s -> fails_with under_way s (remove_config f id).
Proof.
  intros Hs. unfold remove_config. do 2 next_change. intros e s'. unfold with_claims.
  destruct (withHostDomainClaims _ _ _) as [[o r']|e1]; [done|by intros [= _ <-]].
Qed.

(** One step before the change. *)
Ltac next_before := eapply (then_fails untouched); [by eauto with shield|by eauto with shield|by eauto with shield|intros ? ?s ?Hr ?Hs].

(** The handlers end with an entry of the audit log. *)
Lemma audited_done {A} what (a : A) s e s' : hf_audit f = None -> (do* _ := audit f what id in done_with a) s <> (Throw e, s').
Proof. intros Ha. unfold audit, and_then, unless. by rewrite Ha. Qed.

Lemma update_fails who now rq s : hf_audit f = None -> sh_registry s = sh_registry s0 ->
  fails_with (kept s0) s (update_host who now f id rq false).
Proof.
  intros Ha Hs. unfold update_host. do 8 next_before. injection Hr6 as Hr6 _. rewrite captured in Hr6 by done. injection Hr6 as <-. cbn [hs_host].
  eapply (then_fails untouched); [done|by eauto with shield| |intros u s9 _ Hs9].
  { destruct (_ || _); [apply through_done|apply untouched_record]. }
  next_before. apply write_fails; [by apply quiet_start| | |].
  - intros n n1 o Hn. unfold write_update. destruct (find_host _ id n) as [c|]; [|done]. destruct (throw_if _ _); [|done]. simpl.
    destruct (prepared _ _) as [[[en m] x]|]; [|done]. simpl. intros [= _ <-]. by apply patch_row_beside.
  - intros d Hd. apply in_app_iff. by right.
  - intros ? ?. apply caught_fails; [done|by apply update_body_fails|]. intros. by apply audited_done.
Qed.

Ltac capture := match goal with Hr : query (captureHostState id) _ = (Ok _, _) |- _ =>
  injection Hr as Hr _; rewrite captured in Hr by done; injection Hr as <- end.

Lemma enable_fails who now s : hf_audit f = None -> sh_registry s = sh_registry s0 -> fails_with (kept s0) s (enable who now f id).
Proof.
  intros Ha Hs. unfold enable. do 2 next_before. apply get_host_id in Hr0 as [Hid _]. do 3 next_before. capture. next_before.
  apply caught_fails; [by apply quiet_start|apply enable_body_fails; [done|by apply quiet_start]|]. intros. by apply audited_done.
Qed.

Lemma disable_fails who s : hf_audit f = None -> sh_registry s = sh_registry s0 -> fails_with (kept s0) s (disable who f id).
Proof.
  intros Ha Hs. unfold disable. do 5 next_before. capture. next_before.
  apply caught_fails; [by apply quiet_start|apply disable_body_fails; by apply quiet_start|]. intros. by apply audited_done.
Qed.

Lemma quiet_backup : through quiet (on_server (on_files (backupConfig "proxy_host" id))).
Proof.
  intros s r s' [[Kr Kf Kn Kc] Hs] Hb. split; [|by eapply (under_way_server _ (beside_backup id _)) in Hb].
  injection Hb as _ <-. constructor; [done| |done|done]. rewrite <- Kf. apply active_files_eq. intros p Hp.
  apply lookup_backup_other. by apply active_backup.
Qed.

Lemma delete_fails who s : hf_audit f = None -> sh_registry s = sh_registry s0 -> fails_with (kept s0) s (delete_host who f id).
Proof.
  intros Ha Hs. unfold delete_host. do 4 next_before. capture.
  eapply (then_fails quiet); [by apply quiet_start|apply quiet_kept|apply quiet_backup|intros u s5 _ Hs5].
  apply write_fails; [done| |intros d Hd; apply in_app_iff; by right|].
  - intros n n1 o Hn [= _ <-]. by apply patch_row_beside.
  - intros s6 Hs6. apply caught_fails; [done|by apply delete_body_fails|].
    intros b s7 e s'. unfold and_then at 1. unfold on_server, on_files. by apply audited_done.
Qed.

Lemma restore_body_fails who now candidate s : n_id candidate = id -> under_way s ->
  fails_with under_way s (activate_restored who now f id candidate (co_domains (n_body h))).
Proof.
  intros Hid Hs. unfold activate_restored. intros e s'. unfold and_then at 1. destruct (with_claims _ (hf_write f) _ s) as [r s1] eqn:E.
  eapply changing_claims in E as [Hs1 Hf]; [| |intros d Hd; apply in_app_iff; by right|exact Hs].
  2: { intros n n1 o Hn [= _ <-]. by apply patch_row_beside. }
  destruct r as [[]|e1]; [|by intros [= _ <-]]. revert e s'. do 3 next_change. by apply release_fails.
Qed.

Lemma restore_fails who now revisionId expected s : hf_audit f = None -> sh_registry s = sh_registry s0 ->
  fails_with (kept s0) s (restore_revision who now f id revisionId expected).
Proof.
  intros Ha Hs. unfold restore_revision. do 2 next_before. capture. do 8 next_before. cbn [hs_host] in *. pose proof (at_rest_row _ _ _ Hrest) as (_ & Hid & _).
  match goal with Hc : of_result (restored_candidate _ h) _ = (Ok ?c, _) |- _ => rename c into candidate; rename Hc into Hcand end.
  assert (n_id candidate = id) as Hcid by (injection Hcand as Hcand _; unfold restored_candidate in Hcand; destruct (sanitizeHostMeta _); [|done]; by injection Hcand as <-).
  apply caught_fails; [by apply quiet_start|apply restore_body_fails; [done|by apply quiet_start]|]. intros. by apply audited_done.
Qed.
End OneChange.

End Failing.

(** ** Accepted changes *)

Section Accepted.
Context {X R : Type} `{NginxEnv (columns X)} `{HostRules X R} `{KeyHash}.
Implicit Types (s : shop X) (h : proxy_row X) (rq : request R) (n : node (columns X)).

Lemma refused_status skip_reload h e n m n' en : refuseStaged "proxy_host" skip_reload h e n = (Ok m, n') -> not_activated en m = true.
Proof.
  unfold refuseStaged. intros [(u & n1 & _ & Hc)|(e1 & _ & ?)]%bind_ok; [|done].
  apply bind_ok in Hc as [(u1 & n2 & _ & Hc)|(e1 & _ & ?)]; [|done]. apply bind_ok in Hc as [(u2 & n3 & _ & Hc)|(e1 & _ & ?)]; [|done].
  revert Hc. unfold updateHostStatus. destruct (sanitizeHostMeta _); [|done]. by intros [= <- _].
Qed.

Lemma activated_row skip_reload h n m n' c : activateStaged "proxy_host" skip_reload h n = (Ok m, n') -> find_host "proxy_host" (n_id h) n = Some c ->
  exists c', find_host "proxy_host" (n_id h) n' = Some c' /\ hasActiveRetiredHostBindings (n_meta c') = Ok false /\ n_body c' = n_body c /\ n_is_deleted c' = n_is_deleted c.
Proof.
  intros Ha Hc. unfold activateStaged in Ha. apply bind_ok in Ha as [(u & n1 & Hl & Ha)|(e & _ & ?)]; [|done].
  assert (find_host "proxy_host" (n_id h) n1 = Some c) as Hc1.
  { destruct skip_reload; [by apply test_spec in Hl as [-> _]|]. apply reload_spec in Hl as (_ & Hh & _). unfold find_host in *. by rewrite Hh. }
  apply bind_ok in Ha as [(m1 & n2 & Hu & [= _ <-])|(e & _ & ?)]; [|done]. revert Hu. unfold updateHostStatus. rewrite Hc1.
  destruct (sanitizeHostMeta (n_meta c)); [|done]. intros [= _ <-]. eexists. split; [by apply find_patch|].
  pose proof (first_where_Some _ _ _ Hc1) as [_ Hid]. by rewrite Hid.
Qed.

(** A host that could be activated is served as its row says. *)
Lemma configure_accepted now h n m n' c en : find_host "proxy_host" (n_id h) n = Some c -> n_is_deleted c = false ->
  configureHost now "proxy_host" h false n = (Ok m, n') -> not_activated en m = false ->
  valid_files n' /\ nd_running n' = active_files (nd_files n') /\
  (exists staged, n_id staged = n_id h /\ n_body staged = n_body c /\ rendered now (nd_files n') ("proxy_host", staged)) /\
  exists c', find_host "proxy_host" (n_id h) n' = Some c' /\ hasActiveRetiredHostBindings (n_meta c') = Ok false /\ n_body c' = n_body c /\ n_is_deleted c' = false.
Proof.
  intros Hc Hd Hconf Hm. unfold configureHost in Hconf. apply bind_ok in Hconf as [(h' & n1 & Hs & Hconf)|(e & _ & ?)]; [|done].
  pose proof (stage_id _ _ _ _ _ Hs) as Hid. pose proof (stageHost_body _ _ _ _ _ _ _ Hs Hc) as Hb.
  assert (row_is "proxy_host" (n_id h) (n_body c) (n_is_deleted c) n1) as (c1 & Hc1 & Hb1 & Hd1) by (eapply row_stage; [|exact Hs]; by exists c).
  apply stageHost_spec in Hs as (_ & _ & _ & (text & Ht & Hl) & _). unfold catch in Hconf.
  destruct (activateStaged _ _ _ _) as [[m1|e] n2] eqn:Ea; [|by rewrite (refused_status _ _ _ _ _ _ en Hconf) in Hm].
  injection Hconf as <- <-. rewrite <- Hid in Hc1 |- *. destruct (activated_row _ _ _ _ _ _ Ea Hc1) as (c' & Hc' & Hm' & Hb' & Hd').
  apply activate_spec in Ea as (Hv & Hf & Hr). split_and!.
  - unfold valid_files. by rewrite (active_files_eq _ _ Hf).
  - exact Hr.
  - exists h'. split_and!; [done|done|]. exists text. split; [done|]. rewrite Hf; [done|]. apply config_file_active.
  - exists c'. split_and!; congruence.
Qed.

Abbreviation names_of id r := (map ow_name (select_where (owned_by "proxy" id) (rg_owners r))).

Lemma first_where_stricter {A} (p q : A -> bool) (l : list A) x : first_where p l = Some x -> q x = true -> (forall y, q y = true -> p y = true) ->
  first_where q l = Some x.
Proof.
  unfold first_where. induction l as [|y l IH]; [done|]. simpl. intros Hf Hq Hqp. destruct (p y) eqn:E; [injection Hf as ->; by rewrite Hq|].
  destruct (q y) eqn:Eq; [apply Hqp in Eq; congruence|auto].
Qed.

Lemma at_rest_found id h s : at_rest id h s -> find_host "proxy_host" id (node_of_shop s) = Some h.
Proof.
  intros Hs. destruct (at_rest_row _ _ _ Hs) as (Hin & Hid & _). unfold find_host. fold (rows_of s).
  destruct (first_where (by_id id) (rows_of s)) as [x|] eqn:E.
  - apply first_where_Some in E as [Hx Hb]. f_equal. apply (at_rest_only _ _ _ Hs); [done|]. unfold by_id in Hb. by boolify.
  - apply (first_where_None _ _ _ E) in Hin. unfold by_id in Hin. by boolify.
Qed.

(** One transaction of the host, when it succeeds. *)
Lemma written id names s0 s domains retained fault write u s' : changing id names s0 s ->
  with_claims (MkOptions "proxy" (Some id) domains retained) fault write s = (Ok u, s') ->
  (forall o n1, write (node_of_shop s) = Ok (o, n1) -> beside id (node_of_shop s0) n1) ->
  changing id [] s0 s' /\ (forall d, In d (names_of id (sh_registry s')) <-> In d (map to_lower (domains ++ retained))) /\
  exists o, write (node_of_shop s) = Ok (o, node_of_shop s').
Proof.
  intros Hs Hw Hb. unfold with_claims in Hw. destruct (withHostDomainClaims _ _ _) as [[o r']|e] eqn:Ew; [|done]. injection Hw as _ <-.
  destruct fault as [e|]; [by apply claims_inversion in Ew as (? & ? & ? & ? & _ & _ & _ & ? & _)|].
  destruct (claims_set domains retained id names s0 s write (set_registry r' s) o r') as (Hi & Hl & Hn & Ho & Hnames); try done; [by intros; eapply Hb|].
  split; [by constructor|]. split; [done|]. exists o.
  by apply claims_inversion in Ew as (? & world & ? & ? & _ & _ & _ & Hw & _ & ->).
Qed.

Lemma beside_ids id n0 n : beside id n0 n -> map n_id (nd_hosts n "proxy_host") = map n_id (nd_hosts n0 "proxy_host").
Proof. intros [Hr _ _]. revert Hr. generalize (nd_hosts n "proxy_host") as l, (nd_hosts n0 "proxy_host") as l0. intros l l0 Hr.
  induction Hr as [|x y l0 l [Hi _] _ IH]; [done|]. simpl. by rewrite Hi, IH.
Qed.

(** A host at rest again, once its row, its names and the server have settled. *)
Lemma settled id h s0 c s : at_rest id h s0 -> changing id [] s0 s ->
  find_host "proxy_host" id (node_of_shop s) = Some c -> n_is_deleted c = false -> hasActiveRetiredHostBindings (n_meta c) = Ok false ->
  (forall d, In d (names_of id (sh_registry s)) <-> In d (map to_lower (co_domains (n_body c)))) -> ~ In "" (co_domains (n_body c)) ->
  valid_files (node_of_shop s) -> nd_running (node_of_shop s) = active_files (nd_files (node_of_shop s)) -> at_rest id c s.
Proof.
  intros Hs [Hrows Hr Hl _ _] Hc Hd Hm Hn He Hv Hrun. constructor; try done.
  - eapply first_where_stricter; [exact Hc| |].
    + apply first_where_Some in Hc as [_ Hb]. unfold live_host. by rewrite Hb, Hd.
    + intros y. unfold live_host. by intros [? _]%andb_true_iff.
  - assert (map n_id (rows_of s) = map n_id (rows_of s0)) as ->; [|by apply rs_ids in Hs].
    by apply (beside_ids id).
  - split; [|done]. apply (rs_names _ _ _ Hs).
Qed.

Lemma named_domains domains : validateDomainNames domains = Ok tt -> ~ In "" domains.
Proof.
  unfold validateDomainNames, throw_if. destruct (_ || _ || _) eqn:E; [done|]. intros _ Hin. apply orb_false_iff in E as [_ E].
  apply negb_false_iff in E. rewrite forallb_forall in E. by apply E in Hin.
Qed.

Lemma get_host_row who id h s row s' : at_rest id h s -> query (get_host who id) s = (Ok row, s') -> row = h /\ s' = s.
Proof.
  intros Hs Hq. assert (s' = s) as -> by (by injection Hq). split; [|done]. pose proof (get_host_id _ _ _ _ _ Hq) as [Hid _]. revert Hq.
  unfold query, get_host. destruct (rq_can who _); [|done]. simpl. destruct (first_where _ _) as [x|] eqn:E; [|done]. intros [= ->].
  apply first_where_Some in E as [Hin _]. by apply (at_rest_only _ _ _ Hs).
Qed.

Lemma other_claims id names s0 s type id' key : changing id names s0 s -> (type, id') <> ("proxy", id) ->
  holds (sh_registry s) type id' key <-> holds (sh_registry s0) type id' key.
Proof.
  intros [_ _ _ Ho _] Hne.
  assert (forall r : registry (node (columns X)), holds r type id' key <->
    exists o, In o (delete_where (owned_by "proxy" id) (rg_owners r)) /\ owned_by type id' o = true /\ ow_key o = key) as Hd.
  { intros r. unfold holds. split; intros (o & Hin & Hb & Hk); exists o; (split; [|done]); [|by apply in_delete in Hin as [? _]].
    apply in_delete. split; [done|]. apply not_true_is_false. intros [Ht Hi]%owned_by_spec. apply owned_by_spec in Hb as [<- <-]. congruence. }
  by rewrite !Hd, Ho.
Qed.

(** The steps before the transaction. *)
Lemma update_begins who now f id h rq s row s' : at_rest id h s -> update_host who now f id rq false s = (Ok row, s') ->
  let domains := default (co_domains (n_body h)) (rq_domains rq) in
  exists certificate all s1,
    (if rq_new_certificate rq then rmap Some (quick_certificate domains) else Ok (rq_certificate rq)) = Ok certificate /\
    ~ In "" domains /\ sh_registry s1 = sh_registry s /\
    (do* _ := with_claims (MkOptions "proxy" (Some id) domains (co_domains (n_body h))) (hf_write f)
       (write_update who all id domains (cleanSslHstsData (rq_new_certificate rq) (with_certificate certificate rq) (Some (n_body h))) (with_certificate certificate rq)) in
     do* row := catching (activate_update who now f id domains false)
       (rethrowAfterHostRollback f (MkState h (capture_files (state_paths h) (nd_files (node_of_shop s))))) in
     do* _ := audit f "updated" id in done_with row) s1 = (Ok row, s').
Proof.
  intros Hs Hu domains. unfold update_host in Hu. apply then_ok in Hu as (a0 & s1 & [= _ <-] & Hu). apply then_ok in Hu as (u & s1 & Hv & Hu).
  assert (~ In "" domains) as Hne.
  { injection Hv as Hv _. unfold domains. destruct (rq_domains rq) as [ds|]; simpl; [destruct u; by apply named_domains|]. apply (rs_names _ _ _ Hs). }
  injection Hv as _ <-. apply then_ok in Hu as (x & s1 & Hg & Hu). destruct (get_host_row _ _ _ _ _ _ Hs Hg) as [-> ->].
  apply then_ok in Hu as (u1 & s1 & [= _ <-] & Hu). apply then_ok in Hu as (certificate & s1 & [= Hcert <-] & Hu).
  apply then_ok in Hu as (all & s1 & [= _ <-] & Hu). apply then_ok in Hu as (x1 & s1 & Hg1 & Hu). injection Hg1 as _ <-.
  apply then_ok in Hu as (previous & s1 & Hp & Hu). injection Hp as Hp <-. rewrite (captured _ _ _ Hs) in Hp by done. injection Hp as <-.
  apply then_ok in Hu as (v & s1 & Hb & Hu). apply then_ok in Hu as (u2 & s2 & [= _ <-] & Hu).
  exists certificate, all, s1. split_and!; [done|done| |exact Hu]. destruct (_ || _); [by injection Hb as _ <-|by apply record_registry in Hb].
Qed.

Lemma never_ok {A} f (previous : host_state X) e s (a : A) s' : rethrowAfterHostRollback f previous e s <> (Ok a, s').
Proof. unfold rethrowAfterHostRollback. by destruct (and_then _ _ s) as [[]]. Qed.

Lemma audit_registry f what id s (u : unit) s' : audit f what id s = (Ok u, s') -> sh_registry s' = sh_registry s.
Proof. unfold audit. by intros (u1 & s1 & ->%unless_ok & [= _ <-])%then_ok. Qed.

(** Going live: the written row is served, and only the requested names stay. *)
Lemma update_activates who now f id h domains s0 s row s' c : at_rest id h s0 -> changing id [] s0 s ->
  find_host "proxy_host" id (node_of_shop s) = Some c -> n_is_deleted c = false -> co_domains (n_body c) = domains -> ~ In "" domains ->
  activate_update who now f id domains false s = (Ok row, s') ->
  changing id [] s0 s' /\ exists h', at_rest id h' s' /\ n_body h' = n_body c /\
    exists staged, n_id staged = id /\ n_body staged = n_body c /\ rendered now (nd_files (node_of_shop s')) ("proxy_host", staged).
Proof.
  intros Hrest Hs Hc Hd Hdom Hne Ha. unfold activate_update in Ha. apply then_ok in Ha as (x & s1 & Hg & Ha).
  pose proof (get_host_id _ _ _ _ _ Hg) as [Hid _]. injection Hg as _ <-. apply then_ok in Ha as (meta & s2 & Hconf & Ha).
  pose proof Hconf as Hs2. apply changing_server with (id := id) (names := []) (s0 := s0) in Hs2; [|by apply beside_configure|done].
  unfold on_server in Hconf. destruct (configureHost now "proxy_host" x false (node_of_shop s)) as [rc n2] eqn:Ec. injection Hconf as -> Hs2e.
  assert (node_of_shop s2 = n2) as Hn2 by (by rewrite <- Hs2e). apply then_ok in Ha as (u & s3 & Hact & Ha). injection Hact as Hact <-.
  destruct (not_activated (n_enabled x) meta) eqn:En; [done|]. rewrite <- Hid in Hc.
  destruct (configure_accepted now x _ _ _ _ _ Hc Hd Ec En) as (Hv & Hr & (staged & Hsid & Hsb & Hren) & c' & Hc' & Hm' & Hb' & Hd').
  apply then_ok in Ha as (v & s3 & Hrec & Ha). apply record_registry in Hrec. apply then_ok in Ha as (u1 & s4 & Hw & [= _ <-]).
  eapply written in Hw as (Hs4 & Hnames & o & Hwr); [|by eapply changing_same|by intros o n1 [= _ <-]; unfold node_of_shop; rewrite Hrec; apply ch_node in Hs2].
  injection Hwr as _ Hn4. assert (node_of_shop s4 = n2) as Hn by (rewrite <- Hn4; unfold node_of_shop in *; by rewrite Hrec).
  split; [done|]. exists c'. rewrite Hn. split; [|split; [done|by exists staged; split; [congruence|]]].
  rewrite app_nil_r in Hnames. rewrite Hid in Hc'.
  apply (settled id h s0); rewrite ?Hn; try done; rewrite Hb', Hdom; done.
Qed.

(** C32: when an update of a proxy host succeeds, the row has the requested names,
    the settings of encryption made consistent with them, and keeps its owner; the
    active configuration has been rendered from that row, and the server accepted
    all active files and runs them; the host holds exactly its new names, nobody
    else has lost or gained one, no other row and no other active file has changed,
    and the host is ready for the next change. *)
Theorem accepted_update_is_live who now f id h rq s row s' :
  at_rest id h s -> update_host who now f id rq false s = (Ok row, s') ->
  let domains := default (co_domains (n_body h)) (rq_domains rq) in
  exists certificate other h',
    (if rq_new_certificate rq then rmap Some (quick_certificate domains) else Ok (rq_certificate rq)) = Ok certificate /\
    prepared (rq_other rq) (Some h) = Ok other /\
    n_body h' = n_body (requested_row id (co_owner (n_body h)) domains
      (cleanSslHstsData (rq_new_certificate rq) (with_certificate certificate rq) (Some (n_body h))) (default (co_list (n_body h)) (rq_list rq)) other) /\
    at_rest id h' s' /\
    (exists staged, n_id staged = id /\ n_body staged = n_body h' /\ rendered now (nd_files (node_of_shop s')) ("proxy_host", staged)) /\
    beside id (node_of_shop s) (node_of_shop s') /\
    forall type id' key, (type, id') <> ("proxy", id) -> holds (sh_registry s') type id' key <-> holds (sh_registry s) type id' key.
Proof.
  intros Hs Hu domains. apply (update_begins _ _ _ _ _ _ _ _ _ Hs) in Hu as (certificate & all & s1 & Hcert & Hne & Hs1 & Hu).
  fold domains in Hcert, Hne, Hu. pose proof (quiet_start id h s Hs s1 Hs1) as [_ Hch].
  apply then_ok in Hu as (u & s2 & Hw & Hu).
  assert (find_host "proxy_host" id (node_of_shop s1) = Some h) as Hfound by (unfold node_of_shop; rewrite Hs1; by apply at_rest_found).
  eapply written in Hw as (Hs2 & Hnames & o & Hwr); [|exact Hch|].
  2: { intros o n1. unfold write_update. rewrite Hfound. destruct (throw_if _ _); [|done]. simpl. destruct (prepared _ _) as [[[en m] x]|]; [|done]. simpl.
    intros [= _ <-]. apply patch_row_beside; [done|]. by apply ch_node in Hch. }
  unfold write_update in Hwr. rewrite Hfound in Hwr. destruct (throw_if _ _); [|done]. simpl in Hwr.
  destruct (prepared (rq_other rq) (Some h)) as [other|] eqn:Ep; [|done]. simpl in Hwr. injection Hwr as _ Hn2.
  set (row0 := requested_row _ _ _ _ _ _) in Hn2. destruct other as [[en m] x] eqn:Eo.
  apply then_ok in Hu as (row1 & s3 & Ha & Hu). apply then_ok in Hu as (u1 & s4 & Haud%audit_registry & [= -> ->]).
  unfold catching in Ha. destruct (activate_update _ _ _ _ _ _ s2) as [[b|e] s5] eqn:Eact; [|by apply never_ok in Ha]. injection Ha as -> ->.
  apply (update_activates who now f id h domains s s2 row s3 row0) in Eact as (Hs3 & h' & Hh' & Hb' & staged & Hsid & Hsb & Hren); try done.
  2: { rewrite <- Hn2. etransitivity; [by apply find_patch|]. pose proof (first_where_Some _ _ _ Hfound) as [_ Hb]. by rewrite Hb. }
  assert (changing id [] s s') as Hs' by (by apply (changing_same _ _ _ s3)).
  exists certificate, (en, m, x), h'. split_and!; try done.
  - by apply (at_rest_same _ _ s3).
  - exists staged. rewrite Hb'. split_and!; try done. unfold node_of_shop. by rewrite Haud.
  - by apply ch_node in Hs'.
  - intros type id' key. by apply (other_claims id []).
Qed.
End Accepted.

(** ** The history of a host *)

Section History.
Context {X : Type}.
Implicit Types (rows sorted : list (revision X)) (r q : revision X) (p : revision X -> bool).

Definition newer r q : Prop := rv_id q < rv_id r.

Lemma in_insert_version r x sorted : In x (insert_version r sorted) <-> x = r \/ In x sorted.
Proof. induction sorted as [|q sorted IH]; simpl; [naive_solver|]. destruct (rv_id q <=? rv_id r); simpl; rewrite ?IH; naive_solver. Qed.

Lemma in_newest x rows : In x (newest_first rows) <-> In x rows.
Proof. induction rows as [|r rows IH]; [done|]. simpl. rewrite in_insert_version, IH. naive_solver. Qed.

Lemma insert_sorted r sorted : StronglySorted newer sorted -> (forall q, In q sorted -> rv_id q <> rv_id r) -> StronglySorted newer (insert_version r sorted).
Proof.
  induction 1 as [|q sorted Hs IH Hq]; intros Hne; simpl; [repeat constructor|]. destruct (Z.leb_spec (rv_id q) (rv_id r)) as [Hle|Hlt].
  - assert (newer r q) as Hn by (unfold newer; specialize (Hne q (or_introl eq_refl)); lia). constructor; [by constructor|]. constructor; [done|].
    eapply Forall_impl; [exact Hq|]. unfold newer in *. intros; lia.
  - constructor; [apply IH; intros; apply Hne; by right|]. apply Forall_forall. intros x Hx%list_elem_of_In. rewrite in_insert_version in Hx. destruct Hx as [->|Hx]; [done|].
    rewrite Forall_forall in Hq. by apply Hq, list_elem_of_In.
Qed.

Lemma newest_sorted rows : List.NoDup (map rv_id rows) -> StronglySorted newer (newest_first rows).
Proof.
  induction rows as [|r rows IH]; intros Hnd; [constructor|]. inversion Hnd as [|? ? Hni Hnd']; subst. apply insert_sorted; [auto|].
  intros q Hq He. rewrite in_newest in Hq. apply Hni. rewrite <- He. by apply in_map.
Qed.

Lemma newest_last rows r : (forall q, In q rows -> rv_id q < rv_id r) -> newest_first (rows ++ [r]) = r :: newest_first rows.
Proof.
  induction rows as [|x rows IH]; intros Hr; [done|]. simpl. rewrite IH by (intros; apply Hr; by right). simpl.
  destruct (Z.leb_spec (rv_id r) (rv_id x)) as [Hle|]; [|done]. specialize (Hr x (or_introl eq_refl)). lia.
Qed.

(** Only what comes after can be dropped from the end. *)
Lemma insert_filter p r sorted : StronglySorted newer sorted -> List.filter p (insert_version r sorted) =
  if p r then insert_version r (List.filter p sorted) else List.filter p sorted.
Proof.
  induction 1 as [|q sorted Hs IH Hq]; simpl; [by destruct (p r)|]. destruct (Z.leb_spec (rv_id q) (rv_id r)) as [Hle|Hlt]; simpl.
  - destruct (p r) eqn:Er; [|done]. destruct (p q); simpl; [by destruct (Z.leb_spec (rv_id q) (rv_id r)); [|lia]|].
    destruct (List.filter p sorted) as [|y l] eqn:Ef; [done|]. simpl.
    assert (In y (List.filter p sorted)) as [Hy _]%filter_In by (rewrite Ef; by left). rewrite Forall_forall in Hq.
    specialize (Hq y (proj2 (list_elem_of_In _ _) Hy)). unfold newer in Hq. by destruct (Z.leb_spec (rv_id y) (rv_id r)); [|lia].
  - rewrite IH. destruct (p q), (p r); simpl; try done. by destruct (Z.leb_spec (rv_id q) (rv_id r)); [lia|].
Qed.

Lemma newest_filter p rows : List.NoDup (map rv_id rows) -> newest_first (List.filter p rows) = List.filter p (newest_first rows).
Proof.
  induction rows as [|r rows IH]; intros Hnd; [done|]. inversion Hnd as [|? ? Hni Hnd']; subst. simpl. rewrite insert_filter by by apply newest_sorted.
  destruct (p r); simpl; by rewrite IH.
Qed.

Lemma sorted_prefix n sorted q : StronglySorted newer sorted -> nth_error sorted n = Some q ->
  List.filter (fun r => negb (rv_id r <? rv_id q)) sorted = firstn (S n) sorted.
Proof.
  revert n. induction sorted as [|x sorted IH]; intros n Hs Hn; [by destruct n|]. inversion Hs as [|? ? Hs' Hx]; subst. rewrite Forall_forall in Hx. destruct n as [|n].
  - injection Hn as ->. simpl. rewrite Z.ltb_irrefl. simpl. f_equal. apply (delete_all (fun r => rv_id r <? rv_id q)). intros y Hy. specialize (Hx y (proj2 (list_elem_of_In _ _) Hy)).
    unfold newer in Hx. by apply Z.ltb_lt.
  - simpl in Hn. assert (newer x q) as Hq by (apply Hx, list_elem_of_In; by eapply nth_error_In). unfold newer in Hq.
    assert (rv_id x <? rv_id q = false) as El by (apply Z.ltb_ge; lia). cbn [List.filter]. rewrite El. simpl. f_equal. by apply IH.
Qed.

Lemma filter_sub p p' rows : (forall r, In r rows -> p r = true -> p' r = true) -> List.filter p (List.filter p' rows) = List.filter p rows.
Proof.
  induction rows as [|r rows IH]; intros Hp; [done|]. simpl. rewrite <- IH by (intros; apply Hp; [by right|done]).
  destruct (p' r) eqn:E'; simpl; [done|]. destruct (p r) eqn:E; [|done]. by rewrite (Hp r (or_introl eq_refl) E) in E'.
Qed.

Lemma filter_swap p p' rows : List.filter p (List.filter p' rows) = List.filter p' (List.filter p rows).
Proof. induction rows as [|r rows IH]; [done|]. simpl. destruct (p r) eqn:E, (p' r) eqn:E'; simpl; rewrite ?E, ?E', ?IH; done. Qed.

Lemma nodup_filter p rows : List.NoDup (map rv_id rows) -> List.NoDup (map rv_id (List.filter p rows)).
Proof.
  induction rows as [|r rows IH]; intros Hnd; [constructor|]. inversion Hnd as [|? ? Hni Hnd']; subst. simpl. destruct (p r); [|auto].
  constructor; [|auto]. intros (q & He & [Hq _]%filter_In)%in_map_iff. apply Hni. rewrite <- He. by apply in_map.
Qed.

(** Only what is older than the hundredth version goes. *)
Lemma pruned id rows : List.NoDup (map rv_id rows) -> versions id (prune id rows) = firstn 100 (versions id rows) /\
  (forall id', id' <> id -> versions id' (prune id rows) = versions id' rows) /\ exists p, prune id rows = List.filter p rows.
Proof.
  intros Hnd. unfold prune. destruct (nth_error (versions id rows) 99) as [b|] eqn:Eb.
  2: { apply nth_error_None in Eb. split_and!; [|done|exists (fun _ => true); symmetry; apply (select_all (fun _ => true)); done]. symmetry. apply firstn_all2. lia. }
  split_and!; [| |by eexists].
  - rewrite <- (sorted_prefix 99 (versions id rows) b) by (try done; apply newest_sorted; by apply nodup_filter).
    unfold versions, select_where, delete_where. rewrite <- newest_filter by by apply nodup_filter. f_equal.
    rewrite filter_swap. apply filter_ext_in. intros r [_ Hr]%filter_In. by rewrite Hr.
  - intros id' Hne. unfold versions, select_where, delete_where. f_equal. apply filter_sub. intros r _ Hr. boolify.
    apply negb_true_iff, andb_false_iff. left. apply Z.eqb_neq. congruence.
Qed.
End History.

Section Versions.
Context {X R : Type} `{HostRules X R}.
Implicit Types (s : shop X).

(** Versions are numbered once, in the order they are stored. *)
Definition numbered s : Prop := List.NoDup (map rv_id (sh_revisions s)) /\ forall r, In r (sh_revisions s) -> rv_id r < sh_next s.

(** A version is stored in front of the others. *)
Lemma stored_first id v (rows : list (revision X)) : List.NoDup (map rv_id rows) -> (forall r, In r rows -> rv_id r < rv_id v) -> rv_host v = id ->
  let rows' := prune id (rows ++ [v]) in
  versions id rows' = firstn 100 (v :: versions id rows) /\ (forall id', id' <> id -> versions id' rows' = versions id' rows) /\
  List.NoDup (map rv_id rows') /\ forall r, In r rows' -> rv_id r <= rv_id v.
Proof.
  intros Hnd Hlt Hh rows'.
  assert (List.NoDup (map rv_id (rows ++ [v]))) as Hnd'.
  { rewrite map_app. apply List.NoDup_app; [done|repeat constructor; simpl; tauto|]. intros x (r & <- & Hr)%in_map_iff [He|[]].
    specialize (Hlt r Hr). lia. }
  destruct (pruned id (rows ++ [v]) Hnd') as (Hv & Ho & p & Hp). subst rows'. split_and!.
  - rewrite Hv. f_equal. unfold versions, select_where. rewrite List.filter_app. simpl. rewrite Hh, Z.eqb_refl. apply newest_last.
    intros q [Hq _]%filter_In. auto.
  - intros id' Hne. rewrite Ho by done. unfold versions, select_where. rewrite List.filter_app. simpl.
    destruct (Z.eqb_spec (rv_host v) id'); [congruence|]. by rewrite app_nil_r.
  - rewrite Hp. by apply nodup_filter.
  - intros r Hr. rewrite Hp in Hr. apply filter_In in Hr as [Hr _]. apply in_app_iff in Hr as [Hr|[<-|[]]]; [specialize (Hlt r Hr); lia|lia].
Qed.

(** storing a version of a host puts it in front of the others, unless the
    host looks exactly as in its newest version, which is then returned and
    nothing is stored; after that the newest hundred versions of the host are there
    and no older one, and the histories of the other hosts stay. *)
Theorem history_keeps_the_newest who fault id action s v s' : numbered s -> record who fault id action s = (Ok v, s') ->
  exists state, captureHostState id s = Ok state /\ numbered s' /\
    ((exists latest older, versions id (sh_revisions s) = latest :: older /\ fingerprint (rv_state latest) = fingerprint state /\ v = rv_id latest /\ s' = s) \/
     versions id (sh_revisions s') = firstn 100 (MkRevision v id (rq_user who) action state :: versions id (sh_revisions s))) /\
    forall id', id' <> id -> versions id' (sh_revisions s') = versions id' (sh_revisions s).
Proof.
  intros [Hnd Hlt]. unfold record. intros (state & s1 & [= Hstate <-] & (u & s2 & ->%unless_ok & (rows & s3 & [= <- <-] & Hr)%then_ok)%then_ok)%then_ok.
  exists state. split; [done|]. set (new := MkRevision (sh_next s) id (rq_user who) action state) in *.
  assert (s' = MkShop (sh_registry s) (prune id (sh_revisions s ++ [new])) (sh_next s + 1) (sh_audit s) -> v = sh_next s -> numbered s' /\
    versions id (sh_revisions s') = firstn 100 (MkRevision v id (rq_user who) action state :: versions id (sh_revisions s)) /\
    forall id', id' <> id -> versions id' (sh_revisions s') = versions id' (sh_revisions s)) as Hstored.
  { intros -> ->. destruct (stored_first id new (sh_revisions s) Hnd Hlt eq_refl) as (Hv & Ho & Hnd' & Hle). split_and!; [|done|done].
    split; [done|]. intros q Hq. specialize (Hle q Hq). cbn in *. lia. }
  destruct (versions id (sh_revisions s)) as [|latest older] eqn:Ev.
  - injection Hr as <- <-. destruct Hstored as (Hn & Hv & Ho); [done..|]. split_and!; [done|by right|done].
  - destruct (String.eqb_spec (fingerprint (rv_state latest)) (fingerprint state)) as [He|Hne].
    + injection Hr as <- <-. split_and!; [done|left; by exists latest, older|done].
    + injection Hr as <- <-. destruct Hstored as (Hn & Hv & Ho); [done..|]. split_and!; [done|by right|done].
Qed.
End Versions.

(** ** A host at work *)

Module DemoHosts.
Definition has_bad (t : file_tree) : bool := existsb (fun kv => includes "bad" (snd kv)) (map_to_list t).

(** A host is rendered as its names; the server refuses a file that mentions bad. *)
#[local] Instance server : NginxEnv (columns unit) := {|
  render_text _ _ h := Ok (join " " (co_domains (n_body h)));
  nginx_verdict t := if has_bad t then Some "refused" else None
|}.

#[local] Existing Instance plain_keys.

#[local] Instance rules : HostRules unit unit := {|
  check_request _ _ := Ok tt;
  check_lists _ _ := Ok tt;
  prepared _ current := Ok (true, Meta false None None, tt);
  check_enable _ := Ok tt;
  check_restored _ _ := Ok tt;
  check_shared _ := Ok tt;
  quick_certificate _ := Ok 9;
  list_meta _ := [];
  certificate_provider _ := "";
  fingerprint state := join " " (co_domains (n_body (hs_host state)));
  files_fingerprint files := join " " (map (fun file => default "" (snd file)) files);
  retryable _ := true;
  files_root := "/data"
|}.

Definition who : requester := MkRequester (fun _ => Ok true) 1.
Definition no_faults : host_faults := MkHostFaults None None None None None [].
Definition body (domains : list string) : columns unit := MkColumns 1 domains 0 false false false 0 tt.
Definition the_row : proxy_row unit := MkNHost 1 false true (Meta false (Some true) None) (body ["A.example"; "b.example"]).
Definition files : file_tree := {[ getConfigName "proxy_host" 1 := "A.example b.example" ]}.
Definition the_shop : shop unit :=
  MkShop (MkRegistry [MkClaim "a.example" "a.example"; MkClaim "b.example" "b.example"; MkClaim "c.example" "c.example"]
    [MkOwner "a.example" "a.example" "proxy" 1; MkOwner "b.example" "b.example" "proxy" 1; MkOwner "c.example" "c.example" "dead" 2] 1
    (MkNode files files (fun t => if String.eqb t "proxy_host" then [the_row] else []))) [] 20 [].

Definition to_names (domains : list string) : request unit := MkRequest (Some domains) None false (Some true) (Some true) None None tt.

Lemma the_shop_rests : at_rest 1 the_row the_shop.
Proof.
  constructor; [reflexivity|repeat constructor; simpl; tauto|reflexivity| |reflexivity| |split; [reflexivity|simpl; intuition discriminate]|
    vm_compute; reflexivity|vm_compute; reflexivity].
  - constructor; simpl.
    + repeat constructor; simpl; intuition discriminate.
    + repeat constructor; simpl; intuition discriminate.
    + by intros o [<-|[<-|[<-|[]]]].
    + by intros o [<-|[<-|[<-|[]]]].
    + intros o [<-|[<-|[<-|[]]]]; simpl; auto.
    + intros c [<-|[<-|[<-|[]]]]; eexists; simpl; eauto.
  - intros d. simpl. tauto.
Qed.


(** A rename without a certificate: encryption is switched off, [a.example] is free. *)
Lemma accepted_update_is_live_witness :
  let '(r, s') := update_host who 0 no_faults 1 (to_names ["b.example"; "D.example"]) false the_shop in
  is_ok r = true /\ ~ holds (sh_registry s') "proxy" 1 "a.example" /\
  nd_running (node_of_shop s') !! getConfigName "proxy_host" 1 = Some "b.example D.example" /\
  exists h', at_rest 1 h' s' /\ n_body h' = body ["b.example"; "D.example"].
Proof.
  destruct (update_host who 0 no_faults 1 (to_names ["b.example"; "D.example"]) false the_shop) as [r s'] eqn:E.
  assert (is_ok r = true) as Hr by (change r with (fst (r, s')); rewrite <- E; vm_compute; reflexivity).
  destruct r as [row|]; [|done]. split; [done|].
  destruct (accepted_update_is_live who 0 no_faults 1 the_row (to_names ["b.example"; "D.example"]) the_shop row s' the_shop_rests E)
    as (certificate & other & h' & Hcert & Hother & Hbody & Hrest & _). injection Hcert as <-. injection Hother as <-.
  change (n_body h' = body ["b.example"; "D.example"]) in Hbody.
  split; [|split; [|exists h'; split; [exact Hrest|exact Hbody]]].
  - intros (o & Ho & Hb & Hk). assert (In (ow_name o) ["b.example"; "d.example"]) as Hin.
    { change ["b.example"; "d.example"] with (map to_lower (co_domains (body ["b.example"; "D.example"]))). rewrite <- Hbody.
      apply (rs_claims _ _ _ Hrest (ow_name o)). apply in_map, in_select. split; assumption. }
    rewrite (ri_hashed _ (rs_registry _ _ _ Hrest) o Ho) in Hk. simpl in Hin, Hk.
    destruct Hin as [He|[He|[]]]; rewrite <- He in Hk; discriminate.
  - change s' with (snd (Ok row : fallible (proxy_row unit), s')). rewrite <- E. vm_compute. reflexivity.
Defined.

Definition full_history : shop unit :=
  MkShop (sh_registry the_shop) (map (fun k => MkRevision (Z.of_nat k) 1 1 "updated" (MkState (MkNHost 1 false true (Meta false None None) (body [show_Z (Z.of_nat k)])) [])) (seq 1 100)) 101 [].

(** The hundred-and-first version takes the place of the first. *)
Lemma history_keeps_the_newest_witness :
  let '(r, s') := record who None 1 "updated" full_history in
  r = Ok 101 /\ map rv_id (versions 1 (sh_revisions s')) = rev (map Z.of_nat (seq 2 100)).
Proof.
  destruct (record who None 1 "updated" full_history) as [r s'] eqn:E.
  assert (r = Ok 101) as -> by (change r with (fst (r, s')); rewrite <- E; vm_compute; reflexivity).
  split; [reflexivity|].
  destruct (history_keeps_the_newest who None 1 "updated" full_history 101 s') as (state & Hstate & _ & [(latest & older & Hv & _ & Hid & _)|Hv] & _).
  - split; [|intros r Hr; vm_compute in Hr; repeat (destruct Hr as [<-|Hr]; [vm_compute; reflexivity|]); destruct Hr].
    apply NoDup_ListNoDup. refine (bool_decide_unpack _ _). vm_compute. exact I.
  - exact E.
  - vm_compute in Hv. injection Hv as <- _. vm_compute in Hid. discriminate.
  - rewrite Hv. vm_compute in Hstate. injection Hstate as <-. vm_compute. reflexivity.
Defined.
End DemoHosts.
