(* ===== verification/CertificateHosts.v ===== *)
(** Hosts that refer to a missing certificate, in
    src/backend/internal/certificate.js ([cleanUpMissingCertificatesUnlocked]):
    their references are removed, their configurations are generated anew and
    activated together; when anything fails, every row and file is put back.

    The world is the [node] of Nginx, with the TLS columns of a host's row.  The
    run holds the configuration lock, so it is one state function.  The database
    may refuse any statement of the forward part ([cleanup_faults]); the
    statements of the rollback are taken to succeed. *)

From S2P Require Import Prelude JsString Errors Nginx.
From stdpp Require Import gmap strings.
#[local] Open Scope string_scope.
#[local] Open Scope list_scope.
#[local] Open Scope Z_scope.

(** ** Data *)

(** The TLS columns; a stream has the first one only. *)
Record tls (X : Type) : Type := MkTls {
  tls_certificate : Z;
  tls_forced : bool;
  tls_http2 : bool;
  tls_hsts : bool;
  tls_subdomains : bool;
  tls_rest : X
}.
Arguments MkTls {X} _ _ _ _ _ _.
Arguments tls_certificate {X} _.
Arguments tls_forced {X} _.
Arguments tls_http2 {X} _.
Arguments tls_hsts {X} _.
Arguments tls_subdomains {X} _.
Arguments tls_rest {X} _.

(** Statements that the database refuses: listing the hosts of a type, patching
    a host, reading it again, writing its status. *)
Record cleanup_faults : Type := MkCleanupFaults {
  cf_hosts : string -> option error;
  cf_patch : string -> Z -> option error;
  cf_read : string -> Z -> option error;
  cf_status : string -> Z -> option error
}.

Definition no_cleanup_faults : cleanup_faults :=
  MkCleanupFaults (fun _ => None) (fun _ _ => None) (fun _ _ => None) (fun _ _ => None).

Definition hostTypes : list string := ["proxy_host"; "redirection_host"; "dead_host"; "stream"].

(** ** Operations *)

Section Cleanup.
Context {X : Type} `{NginxEnv (tls X)}.
Implicit Types (h : host (tls X)) (n : node (tls X)) (b : tls X).

Definition with_tls b h : host (tls X) := MkNHost (n_id h) (n_is_deleted h) (n_enabled h) (n_meta h) b.

(** [patch]: what is written to a host whose certificate is missing. *)
Definition detach (type : string) b : tls X :=
  if String.eqb type "stream" then MkTls 0 (tls_forced b) (tls_http2 b) (tls_hsts b) (tls_subdomains b) (tls_rest b)
  else MkTls 0 false false false false (tls_rest b).

(** [previous]: the patched columns as they were, written over [b]. *)
Definition put_back (type : string) (previous b : tls X) : tls X :=
  if String.eqb type "stream"
  then MkTls (tls_certificate previous) (tls_forced b) (tls_http2 b) (tls_hsts b) (tls_subdomains b) (tls_rest b)
  else MkTls (tls_certificate previous) (tls_forced previous) (tls_http2 previous) (tls_hsts previous) (tls_subdomains previous) (tls_rest b).

(** The hosts listed, and those of them that are not skipped. *)
Definition refers h : bool := (0 <? tls_certificate (n_body h)) && negb (n_is_deleted h).
Definition stale (active : list Z) h : bool := refers h && negb (existsb (Z.eqb (tls_certificate (n_body h))) active).

Definition unless_fault (fault : option error) : action (tls X) unit :=
  fun n => (match fault with Some e => Throw e | None => Ok tt end, n).
Definition patch_tls (type : string) (id : Z) (f : tls X -> tls X) : action (tls X) unit :=
  fun n => (Ok tt, patch_host type id (fun r => with_tls (f (n_body r)) r) n).

(** One host, once it is backed up and known as affected. *)
Definition detach_host (now : Z) (f : cleanup_faults) (type : string) (id : Z) : action (tls X) unit :=
  bind (unless_fault (cf_patch f type id)) (fun _ =>
  bind (patch_tls type id (detach type)) (fun _ =>
  bind (unless_fault (cf_read f type id)) (fun _ n =>
  match find_host type id n with
  | Some updatedHost =>
      if n_enabled updatedHost then generateConfig now type updatedHost n
      else on_files (deleteConfig type id) n
  | None => (Throw (NativeError "Cannot read properties of undefined (reading 'enabled')"), n)
  end))).

(** The inner loop; on an exception the hosts affected so far are known. *)
Fixpoint detach_all (now : Z) (f : cleanup_faults) (type : string) (hosts : list (host (tls X))) (affected : list (@stage (tls X))) n
    : list (@stage (tls X)) * option error * node (tls X) :=
  match hosts with
  | [] => (affected, None, n)
  | h :: hosts' =>
      let n1 := set_files (backupConfig type (n_id h) (nd_files n)) n in
      match detach_host now f type (n_id h) n1 with
      | (Ok _, n2) => detach_all now f type hosts' (affected ++ [(type, h)]) n2
      | (Throw e, n2) => (affected ++ [(type, h)], Some e, n2)
      end
  end.

(** The outer loop. *)
Fixpoint detach_types (now : Z) (f : cleanup_faults) (active : list Z) (types : list string) (affected : list (@stage (tls X))) n
    : list (@stage (tls X)) * option error * node (tls X) :=
  match types with
  | [] => (affected, None, n)
  | type :: types' =>
      match cf_hosts f type with
      | Some e => (affected, Some e, n)
      | None =>
          match detach_all now f type (select_where (stale active) (nd_hosts n type)) affected n with
          | (affected', None, n') => detach_types now f active types' affected' n'
          | stopped => stopped
          end
      end
  end.

(** The new status of an affected host. *)
Definition publish (f : cleanup_faults) (a : @stage (tls X)) : action (tls X) unit :=
  bind (unless_fault (cf_status f (fst a) (n_id (snd a)))) (fun _ =>
  bind (updateHostStatus (fst a) (snd a) (n_enabled (snd a)) None) (fun _ => ret tt)).

Definition not_written (affected : list (@stage (tls X))) : list (@stage (tls X) * bool) := map (fun x => (x, false)) affected.

(** With each host, whether its status was written. *)
Fixpoint publish_all (f : cleanup_faults) (affected : list (@stage (tls X))) n : list (@stage (tls X) * bool) * option error * node (tls X) :=
  match affected with
  | [] => ([], None, n)
  | a :: affected' =>
      match publish f a n with
      | (Ok _, n1) => let '(written, e, n2) := publish_all f affected' n1 in ((a, true) :: written, e, n2)
      | (Throw e, n1) => (not_written affected, Some e, n1)
      end
  end.

Definition previous_online (m : host_meta) : option bool := match m with Meta _ on _ => on | UnreadableMeta => None end.
Definition previous_err (m : host_meta) : option string := match m with Meta _ _ err => err | UnreadableMeta => None end.

(** [updateHostStatus] with the status a host had. *)
Definition restoreHostStatus (type : string) h : action (tls X) unit :=
  fun n =>
    let current := find_host type (n_id h) n in
    match sanitizeHostMeta (match current with Some c => n_meta c | None => n_meta h end) with
    | Throw e => (Throw e, n)
    | Ok _ =>
        (Ok tt, match current with
                | Some _ => patch_host type (n_id h) (with_meta (Meta false (previous_online (n_meta h)) (previous_err (n_meta h)))) n
                | None => n
                end)
    end.

(** The rollback of one host; its exceptions are only logged. *)
Definition restore_host (w : @stage (tls X) * bool) : action (tls X) unit :=
  let '((type, h), statusWritten) := w in
  bind (on_files (deleteConfig type (n_id h))) (fun _ =>
  bind (on_files (restoreConfig type (n_id h))) (fun _ =>
  bind (patch_tls type (n_id h) (put_back type (n_body h))) (fun _ =>
  if statusWritten then restoreHostStatus type h else ret tt))).

Definition cleanup_failed (e : error) (written : list (@stage (tls X) * bool)) : action (tls X) unit :=
  fun n =>
    let '(_, n1) := all_settled restore_host (rev written) n in
    (Throw e, match written with [] => n1 | _ => snd (reload n1) end).

(** [cleanUpMissingCertificatesUnlocked], for the certificates that are there. *)
Definition cleanUpMissingCertificates (now : Z) (f : cleanup_faults) (active : list Z) : action (tls X) unit :=
  fun n =>
    match detach_types now f active hostTypes [] n with
    | (affected, Some e, n1) => cleanup_failed e (not_written affected) n1
    | ([], None, n1) => (Ok tt, n1)
    | (affected, None, n1) =>
        match reload n1 with
        | (Throw e, n2) => cleanup_failed e (not_written affected) n2
        | (Ok _, n2) =>
            match publish_all f affected n2 with
            | (written, Some e, n3) => cleanup_failed e written n3
            | (_, None, n3) =>
                (Ok tt, snd (all_settled (fun a : @stage (tls X) => on_files (deleteBackupConfig (fst a) (n_id (snd a)))) affected n3))
            end
        end
    end.
End Cleanup.

(** ** Which hosts, and their files *)

Section Keys.
Context {X : Type}.
Implicit Types (s : @stage (tls X)).

Definition key s : string * Z := (fst s, n_id (snd s)).
Definition known s : Prop := In (fst s) hostTypes /\ 0 <= n_id (snd s).

Lemma cfg_inj s s' : known s -> known s' -> cfg s = cfg s' -> key s = key s'.
Proof.
  destruct s as [t h], s' as [t' h']. unfold known, cfg, key. cbn [fst snd]. intros [Ht Hi] [Ht' Hi'] Heq.
  assert (t = t') as <-.
  { clear Hi Hi'. revert Heq. generalize (n_id h), (n_id h'). intros i i'. unfold config_file, getConfigName.
    cbn in Ht, Ht'. repeat destruct Ht as [<-|Ht]; repeat destruct Ht' as [<-|Ht']; try done. }
  f_equal. apply (config_file_inj t); [|done..]. intros ->. cbn in Ht. naive_solver.
Qed.

Lemma keys_cfg (l : list (@stage (tls X))) : Forall known l -> List.NoDup (map key l) -> List.NoDup (map cfg l).
Proof.
  intros Hk. induction l as [|s l IH]; intros Hnd; [constructor|]. inversion Hk as [|? ? Hs Hk']; subst.
  cbn [map] in *. inversion Hnd as [|? ? Hni Hnd']; subst. constructor; [|auto].
  intros (s' & Heq & Hin)%in_map_iff. apply Hni. rewrite Forall_forall in Hk'.
  rewrite <- (cfg_inj s' s); [by apply in_map| |done|done]. by apply Hk', list_elem_of_In.
Qed.
End Keys.

(** Deleting the new configuration and moving the backup in its place. *)
Definition revert (type : string) (id : Z) (t : file_tree) : file_tree := restoreConfig type id (deleteConfig type id t).

Lemma lookup_delete_config type id (t : file_tree) p : p <> config_file type id -> p <> error_file type id -> deleteConfig type id t !! p = t !! p.
Proof. intros Hc He. unfold deleteConfig. by rewrite !lookup_delete_ne. Qed.

Lemma lookup_revert_own type id (t : file_tree) : revert type id t !! config_file type id = t !! backup_file type id.
Proof.
  unfold revert, restoreConfig.
  assert (deleteConfig type id t !! backup_file type id = t !! backup_file type id) as Hb.
  { apply lookup_delete_config; [apply not_eq_sym, config_backup|apply backup_error_file]. }
  unfold rename_file. rewrite Hb. destruct (t !! backup_file type id) eqn:E; [by rewrite lookup_insert_eq|].
  unfold deleteConfig. rewrite lookup_delete_ne by apply not_eq_sym, config_error. by rewrite lookup_delete_eq.
Qed.

Lemma lookup_revert_other type id (t : file_tree) p : ~ owns type id p -> revert type id t !! p = t !! p.
Proof.
  unfold owns. intros Hp. unfold revert, restoreConfig. rewrite lookup_rename_other by naive_solver. apply lookup_delete_config; naive_solver.
Qed.

(** ** What happens to the rows *)

Section Rows.
Context {X : Type}.
Implicit Types (h : host (tls X)) (n : node (tls X)) (affected : list (@stage (tls X))).

(** Every row of [n] against the row of [n0] at its place. *)
Definition rows_rel (P : string -> host (tls X) -> host (tls X) -> Prop) n0 n : Prop :=
  forall type, Forall2 (P type) (nd_hosts n0 type) (nd_hosts n type).

Lemma rows_rel_impl (P Q : string -> host (tls X) -> host (tls X) -> Prop) n0 n :
  (forall type h h', In h (nd_hosts n0 type) -> P type h h' -> Q type h h') -> rows_rel P n0 n -> rows_rel Q n0 n.
Proof.
  intros Hpq Hr type. specialize (Hr type). specialize (Hpq type). induction Hr; [constructor|].
  constructor; [apply Hpq; [by left|done]|]. apply IHHr. intros ? ? Hin. apply Hpq. by right.
Qed.

Lemma rows_rel_hosts P n0 n n' : nd_hosts n' = nd_hosts n -> rows_rel P n0 n -> rows_rel P n0 n'.
Proof. unfold rows_rel. by intros ->. Qed.

Lemma rows_rel_patch (P Q : string -> host (tls X) -> host (tls X) -> Prop) n0 n type0 id f :
  rows_rel P n0 n -> (forall type h h', In h (nd_hosts n0 type) -> P type h h' -> n_id h' = n_id h /\
    Q type h (if String.eqb type type0 && (n_id h =? id) then f h' else h')) ->
  rows_rel Q n0 (patch_host type0 id f n).
Proof.
  intros Hr Hq type. unfold patch_host, set_hosts. cbn [nd_hosts]. specialize (Hr type). specialize (Hq type).
  destruct (String.eqb_spec type type0) as [->|Hne].
  - unfold patch_where. induction Hr as [|h h' l l' Hp Hr IH]; [constructor|]. cbn. constructor.
    + destruct (Hq h h' (or_introl eq_refl) Hp) as [Hid Hq']. unfold by_id. by rewrite Hid.
    + apply IH. intros ? ? Hin. apply Hq. by right.
  - induction Hr as [|h h' l l' Hp Hr IH]; [constructor|]. constructor; [by apply Hq; [left|]|].
    apply IH. intros ? ? Hin. apply Hq. by right.
Qed.

Lemma rows_rel_find P n0 n type id h : rows_rel P n0 n -> (forall h h', P type h h' -> n_id h' = n_id h) ->
  find_host type id n0 = Some h -> exists h', find_host type id n = Some h' /\ P type h h'.
Proof.
  intros Hr Hid. unfold find_host, first_where. specialize (Hr type). induction Hr as [|x x' l l' Hp Hr IH]; [done|].
  cbn. unfold by_id at 1 3. rewrite (Hid _ _ Hp). destruct (n_id x =? id); [|done]. intros [= <-]. eauto.
Qed.

Lemma rows_same n0 n : rows_rel (fun _ h h' => h' = h) n0 n -> forall type, nd_hosts n type = nd_hosts n0 type.
Proof. intros Hr type. specialize (Hr type). induction Hr; congruence. Qed.

Lemma rows_start P n0 : (forall type h, P type h h) -> rows_rel P n0 n0.
Proof. intros Hp type. induction (nd_hosts n0 type); by constructor. Qed.

(** The affected hosts are rows of [n0], each once. *)
Record of_rows n0 affected : Prop := {
  or_known : Forall known affected;
  or_rows : Forall (fun s => In (snd s) (nd_hosts n0 (fst s))) affected;
  or_keys : List.NoDup (map key affected)
}.

Definition keyed n0 : Prop := forall type, In type hostTypes ->
  List.NoDup (map n_id (nd_hosts n0 type)) /\ forall h, In h (nd_hosts n0 type) -> 0 <= n_id h.

(** Rows while hosts are being detached: the affected ones have the new columns. *)
Definition forward affected (type : string) h h' : Prop :=
  h' = if decide ((type, n_id h) ∈ map key affected) then with_tls (detach type (n_body h)) h else h.

(** Metadata that differs in the bindings of the retired filters only. *)
Definition alike (m m' : host_meta) : Prop := m' = m \/ exists on err, m = Meta true on err /\ m' = Meta false on err.

Record kept h h' : Prop := { kp_id : n_id h' = n_id h; kp_deleted : n_is_deleted h' = n_is_deleted h; kp_enabled : n_enabled h' = n_enabled h }.

(** Rows while the hosts of [written] still await their rollback. *)
Definition backward (written : list (@stage (tls X) * bool)) (type : string) h h' : Prop :=
  kept h h' /\
  (~ In (type, n_id h) (map (fun w => key (fst w)) written) -> n_body h' = n_body h /\ alike (n_meta h) (n_meta h')) /\
  (forall w, In w written -> key (fst w) = (type, n_id h) ->
     put_back type (n_body h) (n_body h') = n_body h /\
     if snd w then exists a on err on' err', n_meta h = Meta a on err /\ n_meta h' = Meta false on' err'
     else n_meta h' = n_meta h).

Lemma put_back_same type (b : tls X) : put_back type b b = b.
Proof. unfold put_back. destruct b. by destruct (String.eqb _ _). Qed.
Lemma put_back_detach type (b : tls X) : put_back type b (detach type b) = b.
Proof. unfold put_back, detach. destruct b. by destruct (String.eqb _ _). Qed.

Lemma kept_self h : kept h h.
Proof. by constructor. Qed.
Lemma kept_tls h b : kept h (with_tls b h).
Proof. by constructor. Qed.
End Rows.

(** ** Detaching the hosts *)

Section Forward.
Context {X : Type} `{NginxEnv (tls X)}.
Implicit Types (h : host (tls X)) (n : node (tls X)) (affected : list (@stage (tls X))).

(** The row of an affected host, and what its configuration file must hold. *)
Definition detached_row (s : @stage (tls X)) : host (tls X) := with_tls (detach (fst s) (n_body (snd s))) (snd s).
Definition replaced now (t : file_tree) (s : @stage (tls X)) : Prop :=
  if n_enabled (snd s) then exists text, renderConfig now (fst s) (detached_row s) = Ok text /\ t !! cfg s = Some text
  else t !! cfg s = None.

Lemma detach_host_spec now f type id n c r n' : find_host type id n = Some c -> detach_host now f type id n = (r, n') ->
  let n1 := patch_host type id (fun x => with_tls (detach type (n_body x)) x) n in
  nd_running n' = nd_running n /\
  (forall p, p <> config_file type id -> p <> error_file type id -> nd_files n' !! p = nd_files n !! p) /\
  match r with
  | Ok _ => nd_hosts n' = nd_hosts n1 /\ replaced now (nd_files n') (type, c)
  | Throw _ => nd_hosts n' = nd_hosts n \/ nd_hosts n' = nd_hosts n1
  end.
Proof.
  intros Hc Hd n1. unfold detach_host in Hd. apply bind_ok in Hd as [(u & m & Hu & Hd)|(e & Hu & ->)].
  2: { unfold unless_fault in Hu. injection Hu as _ <-. eauto. }
  assert (m = n) as -> by (unfold unless_fault in Hu; by injection Hu).
  unfold bind at 1, patch_tls in Hd. fold n1 in Hd.
  assert (find_host type id n1 = Some (detached_row (type, c))) as Hf.
  { unfold n1. rewrite (find_patch _ _ _ _ _ _ Hc) by done.
    unfold find_host in Hc. apply first_where_Some in Hc as [_ Hc]. by rewrite Hc. }
  apply bind_ok in Hd as [(u' & m & Hu' & Hd)|(e & Hu' & ->)].
  2: { unfold unless_fault in Hu'. injection Hu' as _ <-. eauto. }
  assert (m = n1) as -> by (unfold unless_fault in Hu'; by injection Hu').
  rewrite Hf in Hd. unfold replaced. cbn [fst snd]. assert (n_id c = id) as Hid.
  { unfold find_host in Hc. apply first_where_Some in Hc as [_ Hc]. unfold by_id in Hc. by boolify. }
  unfold cfg. cbn [fst snd]. rewrite Hid. change (n_enabled (detached_row (type, c))) with (n_enabled c) in Hd.
  destruct (n_enabled c); [|].
  - unfold generateConfig in Hd. destruct (renderConfig now type (detached_row (type, c))) as [text|e] eqn:E; injection Hd as <- <-; [|by eauto].
    change (n_id (detached_row (type, c))) with (n_id c). cbn [nd_files nd_running set_files nd_hosts]. rewrite Hid, <- config_file_name. split_and!; try done.
    + intros p Hp _. by rewrite lookup_insert_ne.
    + exists text. by rewrite lookup_insert_eq.
  - injection Hd as <- <-. cbn [nd_files nd_running set_files nd_hosts]. split_and!; try done.
    + intros p Hp He. by apply lookup_delete_config.
    + unfold deleteConfig. rewrite lookup_delete_ne by apply not_eq_sym, config_error. by rewrite lookup_delete_eq.
Qed.

(** All affected hosts are detached and backed up; [part]: the last one perhaps
    not entirely. *)
Record detaching now n0 affected n : Prop := {
  dt_rows : of_rows n0 affected;
  dt_staged : staged (nd_files n0) affected (nd_files n);
  dt_texts : Forall (replaced now (nd_files n)) affected;
  dt_hosts : rows_rel (forward affected) n0 n;
  dt_running : nd_running n = nd_running n0
}.
Record part n0 (written : list (@stage (tls X) * bool)) n : Prop := {
  pt_rows : of_rows n0 (map fst written);
  pt_staged : staged (nd_files n0) (map fst written) (nd_files n);
  pt_hosts : rows_rel (backward written) n0 n
}.

Lemma detaching_nil now n : detaching now n [] n.
Proof.
  constructor; [repeat constructor|constructor; [by intros ? []|done]|constructor| |done].
  apply rows_start. intros type h. unfold forward. by rewrite decide_False by (cbn; set_solver).
Qed.

Lemma find_row n0 affected n type h : keyed n0 -> In type hostTypes -> rows_rel (forward affected) n0 n -> In h (nd_hosts n0 type) ->
  (type, n_id h) ∉ map key affected -> find_host type (n_id h) n = Some h.
Proof.
  intros Hk Ht Hr Hin Hni. assert (find_host type (n_id h) n0 = Some h) as Hf by (apply find_by_key; [by apply Hk|done]).
  destruct (rows_rel_find (forward affected) n0 n type (n_id h) h Hr) as (h' & -> & ->); [|done|].
  - intros x x' ->. by destruct (decide _).
  - by rewrite decide_False.
Qed.

Lemma of_rows_app n0 affected type h : of_rows n0 affected -> keyed n0 -> In type hostTypes -> In h (nd_hosts n0 type) ->
  (type, n_id h) ∉ map key affected -> of_rows n0 (affected ++ [(type, h)]).
Proof.
  intros [Hk Hr Hnd] Hn0 Ht Hin Hni. constructor.
  - apply Forall_app. split; [done|]. constructor; [|done]. split; [done|]. by apply (Hn0 type Ht).
  - apply Forall_app. split; [done|]. by constructor.
  - apply key_fresh_app; [done|]. cbn. by rewrite <- list_elem_of_In.
Qed.

Lemma row_of n0 affected s type h : keyed n0 -> of_rows n0 affected -> In s affected -> In h (nd_hosts n0 type) -> key s = (type, n_id h) -> s = (type, h).
Proof.
  intros Hk [Hkn Hr _] Hin Hh Hs. destruct s as [t x]. unfold key in Hs. cbn in Hs. injection Hs as -> Hid.
  rewrite Forall_forall in Hkn, Hr. assert ((type, x) ∈ affected) as He by by apply list_elem_of_In.
  destruct (Hkn _ He) as [Ht _]. specialize (Hr _ He). cbn in Hr, Ht. f_equal. by apply (key_unique n_id (nd_hosts n0 type)); [apply Hk|..].
Qed.

(** Each row is as it was, or that of an affected host with its new columns. *)
Definition detached_or_not affected (type : string) h h' : Prop :=
  h' = h \/ (In (type, n_id h) (map key affected) /\ h' = detached_row (type, h)).

Lemma map_key_written affected : map (fun w => key (fst w)) (not_written affected) = map key affected.
Proof. unfold not_written. rewrite map_map. by apply map_ext. Qed.
Lemma map_not_written affected : map fst (not_written affected) = affected.
Proof. unfold not_written. rewrite map_map. apply map_id. Qed.

Lemma detached_backward affected n0 n : rows_rel (detached_or_not affected) n0 n -> rows_rel (backward (not_written affected)) n0 n.
Proof.
  apply rows_rel_impl. intros type h h' _ Hh. split_and!.
  - destruct Hh as [->|[_ ->]]; [apply kept_self|apply kept_tls].
  - rewrite map_key_written. intros Hni. destruct Hh as [->|[Hin _]]; [|done]. split; [done|by left].
  - intros w (s & <- & Hin)%in_map_iff _. cbn [snd].
    destruct Hh as [->|[_ ->]]; cbn; [by rewrite put_back_same|by rewrite put_back_detach].
Qed.

Lemma forward_detached affected n0 n : rows_rel (forward affected) n0 n -> rows_rel (detached_or_not affected) n0 n.
Proof.
  apply rows_rel_impl. intros type h h' _ ->. unfold detached_or_not, detached_row. cbn [fst snd]. destruct (decide _) as [Hin|]; [right|by left].
  split; [by apply list_elem_of_In|done].
Qed.

Lemma detached_app affected s n0 n : rows_rel (detached_or_not affected) n0 n -> rows_rel (detached_or_not (affected ++ [s])) n0 n.
Proof.
  apply rows_rel_impl. intros type h h' _ [->|[Hin ->]]; [by left|right]. rewrite map_app, in_app_iff. auto.
Qed.

Abbreviation detached_node type id n := (patch_host type id (fun x => with_tls (detach type (n_body x)) x) n).

Lemma decide_other {A} (k k' : string * Z) l (a b : A) : k <> k' -> (if decide (k ∈ l ++ [k']) then a else b) = (if decide (k ∈ l) then a else b).
Proof.
  intros Hne. assert (k ∈ l ++ [k'] <-> k ∈ l) as Hiff by (rewrite elem_of_app, list_elem_of_singleton; tauto).
  destruct (decide (k ∈ l)); [by rewrite decide_True by tauto|by rewrite decide_False by tauto].
Qed.

(** The row of the host that is detached next. *)
Lemma forward_patch affected n0 n type h : keyed n0 -> In type hostTypes -> In h (nd_hosts n0 type) -> (type, n_id h) ∉ map key affected ->
  rows_rel (forward affected) n0 n -> rows_rel (forward (affected ++ [(type, h)])) n0 (detached_node type (n_id h) n).
Proof.
  intros Hk Ht Hin Hni Hr. eapply rows_rel_patch; [exact Hr|]. intros type' x x' Hx Hf. unfold forward in Hf.
  assert (n_id x' = n_id x) as Hid by (rewrite Hf; by destruct (decide _)). split; [done|].
  unfold forward. rewrite map_app. cbn [map key fst snd].
  destruct (String.eqb_spec type' type) as [->|Hne]; cbn [andb]; [destruct (Z.eqb_spec (n_id x) (n_id h)) as [Heq|Hne]|].
  - assert (x = h) as -> by (apply (key_unique n_id (nd_hosts n0 type)); [by apply Hk|done..]).
    rewrite decide_True by (apply elem_of_app; right; by apply list_elem_of_singleton). by rewrite Hf, decide_False.
  - rewrite decide_other by (intros [=]; congruence). done.
  - rewrite decide_other by (intros [=]; congruence). done.
Qed.

Lemma detach_one now f n0 affected n type h r n' : keyed n0 -> In type hostTypes -> In h (nd_hosts n0 type) -> (type, n_id h) ∉ map key affected ->
  detaching now n0 affected n -> detach_host now f type (n_id h) (set_files (backupConfig type (n_id h) (nd_files n)) n) = (r, n') ->
  match r with
  | Ok _ => detaching now n0 (affected ++ [(type, h)]) n'
  | Throw _ => part n0 (not_written (affected ++ [(type, h)])) n' /\ nd_running n' = nd_running n0
  end.
Proof.
  intros Hk Ht Hin Hni [Hor Hst Htx Hho Hru] Hd.
  pose proof (of_rows_app _ _ _ _ Hor Hk Ht Hin Hni) as Hor'.
  apply (detach_host_spec now f type (n_id h) _ h) in Hd as (Hru' & Hfs & Hd);
    [|by apply (find_row n0 affected)]. cbn [nd_running set_files nd_files] in *.
  assert (forall p, ~ owns type (n_id h) p -> nd_files n' !! p = nd_files n !! p) as Hother.
  { unfold owns. intros p Hp. rewrite Hfs by naive_solver. apply lookup_backup_other. naive_solver. }
  assert (nd_files n' !! backup_file type (n_id h) = nd_files n !! config_file type (n_id h)) as Hback.
  { rewrite Hfs; [apply lookup_backup_own|apply not_eq_sym, config_backup|apply backup_error_file]. }
  assert (~ In (cfg (type, h)) (map cfg affected)) as Hcfg.
  { pose proof (keys_cfg _ (or_known _ _ Hor') (or_keys _ _ Hor')) as Hnd. rewrite map_app in Hnd. cbn in Hnd.
    apply NoDup_remove_2 in Hnd. by rewrite app_nil_r in Hnd. }
  assert (staged (nd_files n0) (affected ++ [(type, h)]) (nd_files n')) as Hst' by (by eapply staged_app).
  destruct r as [u|e].
  - destruct Hd as [Hhosts Htext]. constructor; try done; [| |congruence].
    + apply Forall_app. split; [|by constructor]. rewrite Forall_forall in Htx |- *. intros s Hs. specialize (Htx s Hs).
      unfold replaced in *. rewrite Hother; [done|]. apply (owns_cfg (type, h)); [apply config_file_active|].
      intros Heq. apply Hcfg. rewrite <- Heq. by apply in_map, list_elem_of_In.
    + eapply rows_rel_hosts; [exact Hhosts|]. by apply forward_patch.
  - split; [|congruence]. constructor; [by rewrite map_not_written..|]. apply detached_backward.
    destruct Hd as [Hd|Hd]; (eapply rows_rel_hosts; [exact Hd|]).
    + by apply detached_app, forward_detached.
    + by apply forward_detached, forward_patch.
Qed.
End Forward.

(** ** The loops *)

Section Loops.
Context {X : Type} `{NginxEnv (tls X)}.
Implicit Types (h : host (tls X)) (n : node (tls X)) (affected : list (@stage (tls X))).

Lemma detaching_part now n0 affected n : detaching now n0 affected n -> part n0 (not_written affected) n.
Proof.
  intros [Hor Hst _ Hho _]. constructor; [by rewrite map_not_written..|]. by apply detached_backward, forward_detached.
Qed.

Lemma detach_all_spec now f n0 type hosts affected n affected' eo n' : keyed n0 -> In type hostTypes ->
  (forall h, In h hosts -> In h (nd_hosts n0 type)) -> List.NoDup (map key (affected ++ map (pair type) hosts)) ->
  detaching now n0 affected n -> detach_all now f type hosts affected n = (affected', eo, n') ->
  match eo with
  | None => affected' = affected ++ map (pair type) hosts /\ detaching now n0 affected' n'
  | Some _ => part n0 (not_written affected') n' /\ nd_running n' = nd_running n0
  end.
Proof.
  intros Hk Ht. revert affected n. induction hosts as [|h hosts IH]; intros affected n Hin Hnd Hd.
  { intros [= <- <- <-]. cbn [map]. by rewrite app_nil_r. }
  assert ((type, n_id h) ∉ map key affected) as Hni.
  { rewrite map_app in Hnd. apply NoDup_remove_2 in Hnd. rewrite list_elem_of_In. intros Hx. apply Hnd, in_app_iff. by left. }
  cbn [detach_all]. destruct (detach_host _ _ _ _ _) as [[u|e] n1] eqn:E;
    apply (detach_one now f n0 affected n type h _ _ Hk Ht (Hin h (or_introl eq_refl)) Hni Hd) in E.
  - intros Hs. replace (affected ++ map (pair type) (h :: hosts)) with ((affected ++ [(type, h)]) ++ map (pair type) hosts) in * by by rewrite <- app_assoc.
    eapply IH; [|exact Hnd|exact E|exact Hs]. intros x Hx. apply Hin. by right.
  - by intros [= <- <- <-].
Qed.

(** The hosts to be detached, in the order in which they are. *)
Definition stale_hosts (active : list Z) (types : list string) n : list (@stage (tls X)) :=
  flat_map (fun type => map (pair type) (select_where (stale active) (nd_hosts n type))) types.

Lemma in_stale active types n type h : In (type, h) (stale_hosts active types n) <-> In type types /\ In h (nd_hosts n type) /\ stale active h = true.
Proof.
  unfold stale_hosts. rewrite in_flat_map. split.
  - intros (t & Ht & Hin). apply in_map_iff in Hin as (x & [= <- <-] & Hx). by apply in_select in Hx.
  - intros (Ht & Hh & Hs). exists type. split; [done|]. apply in_map. by apply in_select.
Qed.

Lemma stale_keys active types n : keyed n -> (forall t, In t types -> In t hostTypes) -> List.NoDup types -> List.NoDup (map key (stale_hosts active types n)).
Proof.
  intros Hk Hin Hnd. unfold stale_hosts. induction types as [|t types IH]; [constructor|]. inversion Hnd as [|? ? Hni Hnd']; subst.
  cbn [flat_map]. rewrite map_app. apply NoDup_ListNoDup, NoDup_app. split_and!.
  - apply NoDup_ListNoDup. rewrite map_map. apply NoDup_map_select.
    apply (NoDup_map_inv snd). rewrite map_map. apply Hk, Hin. by left.
  - intros k Hx Hy. apply list_elem_of_In in Hx, Hy. apply in_map_iff in Hx as (s & <- & Hx), Hy as (s' & Hs & Hy).
    apply in_map_iff in Hx as (x & <- & Hx). destruct s' as [t' x']. apply in_stale in Hy as [Ht' _]. by injection Hs as -> _.
  - apply NoDup_ListNoDup. apply IH; [|done]. intros t' Ht'. apply Hin. by right.
Qed.

Lemma forward_untouched affected n0 n type : rows_rel (forward affected) n0 n -> (forall s, In s affected -> fst s <> type) -> nd_hosts n type = nd_hosts n0 type.
Proof.
  intros Hr Hni. specialize (Hr type). induction Hr as [|x x' l l' Hx Hr IH]; [done|]. f_equal; [|done].
  unfold forward in Hx. rewrite decide_False in Hx; [done|]. intros Hin. apply list_elem_of_In, in_map_iff in Hin as (s & Hs & Hin).
  injection Hs as Ht _. by apply (Hni s).
Qed.

Lemma detach_types_spec now f active n0 types done_ n affected' eo n' : keyed n0 -> List.NoDup (done_ ++ types) -> (forall t, In t (done_ ++ types) -> In t hostTypes) ->
  detaching now n0 (stale_hosts active done_ n0) n -> detach_types now f active types (stale_hosts active done_ n0) n = (affected', eo, n') ->
  match eo with
  | None => affected' = stale_hosts active (done_ ++ types) n0 /\ detaching now n0 affected' n'
  | Some _ => part n0 (not_written affected') n' /\ nd_running n' = nd_running n0
  end.
Proof.
  intros Hk. revert done_ n. induction types as [|t types IH]; intros done_ n Hnd Hin Hd.
  { intros [= <- <- <-]. by rewrite app_nil_r. }
  assert (stale_hosts active (done_ ++ [t]) n0 = stale_hosts active done_ n0 ++ map (pair t) (select_where (stale active) (nd_hosts n0 t))) as Happ
    by (unfold stale_hosts; rewrite flat_map_app; cbn [flat_map]; by rewrite app_nil_r).
  cbn [detach_types]. destruct (cf_hosts f t) as [e|].
  { intros [= <- <- <-]. split; [by eapply detaching_part|by destruct Hd]. }
  assert (nd_hosts n t = nd_hosts n0 t) as ->.
  { eapply forward_untouched; [by destruct Hd|]. intros [t' x] (Ht' & _)%in_stale Heq. cbn in Heq. subst t'.
    apply NoDup_remove_2 in Hnd. apply Hnd, in_app_iff. by left. }
  destruct (detach_all _ _ _ _ _ _) as [[affected1 eo1] n1] eqn:E.
  apply (detach_all_spec now f n0) in E; [|done|apply Hin, in_app_iff; right; by left|by intros h [? _]%in_select| |done].
  - replace (done_ ++ t :: types) with ((done_ ++ [t]) ++ types) in * by by rewrite <- app_assoc.
    destruct eo1 as [e|].
    + intros [= <- <- <-]. done.
    + destruct E as [-> Hd1]. rewrite <- Happ in *. intros Hs. eapply IH; [exact Hnd|exact Hin|exact Hd1|exact Hs].
  - rewrite <- Happ. apply stale_keys; [done| |].
    + intros t' Ht'. apply Hin. rewrite in_app_iff in Ht' |- *. cbn in *. tauto.
    + replace (done_ ++ t :: types) with ((done_ ++ [t]) ++ types) in Hnd by by rewrite <- app_assoc.
      apply NoDup_ListNoDup in Hnd. apply NoDup_app in Hnd as [Hnd _]. by apply NoDup_ListNoDup.
Qed.
End Loops.

(** ** The new status *)

Section Publishing.
Context {X : Type} `{NginxEnv (tls X)}.
Implicit Types (h : host (tls X)) (n : node (tls X)) (affected pub rest : list (@stage (tls X))).

Definition new_status h : host_meta := Meta false (Some (n_enabled h)) None.
Definition readable h : Prop := exists a on err, n_meta h = Meta a on err.

(** Rows while the status of the affected hosts is written; [pub] have it. *)
Definition published pub affected (type : string) h h' : Prop :=
  ((type, n_id h) ∈ map key pub -> readable h) /\
  h' = if decide ((type, n_id h) ∈ map key pub) then with_meta (new_status h) (detached_row (type, h))
       else if decide ((type, n_id h) ∈ map key affected) then detached_row (type, h) else h.

Lemma forward_published affected n0 n : rows_rel (forward affected) n0 n -> rows_rel (published [] affected) n0 n.
Proof.
  apply rows_rel_impl. intros type h h' _ ->. unfold published. cbn [map].
  assert ((type, n_id h) ∉ @nil (string * Z)) as Hni by apply not_elem_of_nil. split; [done|]. by rewrite (decide_False (P := _ ∈ [])).
Qed.

Lemma published_backward pub rest n0 n : List.NoDup (map key (pub ++ rest)) -> rows_rel (published pub (pub ++ rest)) n0 n ->
  rows_rel (backward (map (fun s => (s, true)) pub ++ not_written rest)) n0 n.
Proof.
  intros Hnd. rewrite map_app in Hnd. apply NoDup_ListNoDup, NoDup_app in Hnd as (_ & Hdis & _).
  apply rows_rel_impl. intros type h h' _ [Hread ->].
  assert (map (fun w => key (fst w)) (map (fun s => (s, true)) pub ++ not_written rest) = map key (pub ++ rest)) as Hkeys.
  { rewrite !map_app, map_key_written. f_equal. rewrite map_map. by apply map_ext. }
  unfold backward. rewrite Hkeys. split_and!.
  - destruct (decide _) as [_|_]; [by constructor|]. destruct (decide _) as [_|_]; [apply kept_tls|apply kept_self].
  - intros Hni. rewrite decide_False, decide_False; [split; [done|by left]| |]; rewrite list_elem_of_In; [done|].
    intros Hx. apply Hni. rewrite map_app, in_app_iff. by left.
  - intros w [Hw|Hw]%in_app_iff Hkey; apply in_map_iff in Hw as (s & <- & Hs); cbn [fst snd] in *.
    + assert ((type, n_id h) ∈ map key pub) as Hp by (rewrite <- Hkey; by apply list_elem_of_In, in_map).
      rewrite decide_True by done. destruct (Hread Hp) as (a & on & err & Hm). cbn. rewrite put_back_detach. split; [done|].
      by exists a, on, err, (Some (n_enabled h)), None.
    + assert ((type, n_id h) ∈ map key rest) as Hr by (rewrite <- Hkey; by apply list_elem_of_In, in_map).
      rewrite decide_False by naive_solver. rewrite decide_True by (rewrite map_app; apply elem_of_app; by right).
      cbn. by rewrite put_back_detach.
Qed.

Lemma publish_one f pub rest n0 n type h r n' : keyed n0 -> of_rows n0 (pub ++ (type, h) :: rest) -> rows_rel (published pub (pub ++ (type, h) :: rest)) n0 n ->
  publish f (type, h) n = (r, n') ->
  nd_files n' = nd_files n /\ nd_running n' = nd_running n /\
  match r with
  | Ok _ => rows_rel (published (pub ++ [(type, h)]) (pub ++ (type, h) :: rest)) n0 n'
  | Throw _ => n' = n
  end.
Proof.
  intros Hk Hor Hr Hp. unfold publish in Hp. apply bind_ok in Hp as [(u & m & Hu & Hp)|(e & Hu & ->)].
  2: { unfold unless_fault in Hu. by injection Hu as _ <-. }
  assert (m = n) as -> by (unfold unless_fault in Hu; by injection Hu). clear Hu. cbn [fst snd] in Hp.
  assert (In (type, h) (pub ++ (type, h) :: rest)) as Hmem by (apply in_app_iff; right; by left).
  assert (In type hostTypes /\ In h (nd_hosts n0 type)) as [Ht Hin].
  { destruct Hor as [Hkn Hro _]. rewrite Forall_forall in Hkn, Hro. apply list_elem_of_In in Hmem. split; [by apply (Hkn _ Hmem)|by apply (Hro _ Hmem)]. }
  assert ((type, n_id h) ∉ map key pub) as Hni.
  { pose proof (or_keys _ _ Hor) as Hnd. rewrite map_app in Hnd. apply NoDup_remove_2 in Hnd. rewrite list_elem_of_In. intros Hx. apply Hnd, in_app_iff. by left. }
  assert (find_host type (n_id h) n = Some (detached_row (type, h))) as Hf.
  { assert (find_host type (n_id h) n0 = Some h) as Hf0 by (apply find_by_key; [by apply Hk|done]).
    destruct (rows_rel_find (published pub (pub ++ (type, h) :: rest)) n0 n type (n_id h) h Hr) as (h' & -> & _ & ->); [|done|].
    - intros x x' [_ ->]. by repeat case_decide.
    - rewrite decide_False by done. rewrite decide_True; [done|]. by apply list_elem_of_In, (in_map key _ (type, h)). }
  assert (forall r2 n2, updateHostStatus type h (n_enabled h) None n = (r2, n2) ->
    nd_files n2 = nd_files n /\ nd_running n2 = nd_running n /\
    match r2 with Ok _ => rows_rel (published (pub ++ [(type, h)]) (pub ++ (type, h) :: rest)) n0 n2 | Throw _ => n2 = n end) as Hup.
  { unfold updateHostStatus. rewrite Hf. intros r2 n2. change (n_meta (detached_row (type, h))) with (n_meta h).
    destruct (n_meta h) as [a on err|] eqn:Em; cbn [sanitizeHostMeta]; intros [= <- <-]; [|done]. split_and!; [done..|].
    eapply rows_rel_patch; [exact Hr|]. intros type' x x' Hx [Hread ->]. split; [by repeat case_decide|].
    unfold published. rewrite map_app. cbn [map].
    destruct (String.eqb_spec type' type) as [->|Hne]; cbn [andb]; [destruct (Z.eqb_spec (n_id x) (n_id h)) as [Heq|Hne]|].
    - assert (x = h) as -> by (apply (key_unique n_id (nd_hosts n0 type)); [by apply Hk|done..]).
      split; [intros _; unfold readable; eauto|]. rewrite (decide_False (P := _ ∈ map key pub)) by done.
      rewrite (decide_True (P := _ ∈ map key pub ++ _)) by (apply elem_of_app; right; by apply list_elem_of_singleton).
      by rewrite decide_True by by apply list_elem_of_In, (in_map key _ (type, h)).
    - rewrite (decide_other (type, n_id x)) by (intros [=]; congruence). split; [|done].
      rewrite elem_of_app, list_elem_of_singleton. intros [?|[=]]; [auto|congruence].
    - rewrite (decide_other (type', n_id x)) by (intros [=]; congruence). split; [|done].
      rewrite elem_of_app, list_elem_of_singleton. intros [?|[=]]; [auto|congruence]. }
  apply bind_ok in Hp as [(m2 & n2 & Hu & Hp)|(e & Hu & ->)]; apply Hup in Hu; [by injection Hp as <- <-|done].
Qed.

Lemma publish_all_spec f n0 rest pub n written eo n' : keyed n0 -> of_rows n0 (pub ++ rest) -> rows_rel (published pub (pub ++ rest)) n0 n ->
  publish_all f rest n = (written, eo, n') ->
  nd_files n' = nd_files n /\ nd_running n' = nd_running n /\ map fst written = rest /\
  match eo with
  | None => rows_rel (published (pub ++ rest) (pub ++ rest)) n0 n'
  | Some _ => rows_rel (backward (map (fun s => (s, true)) pub ++ written)) n0 n'
  end.
Proof.
  intros Hk. revert pub n written. induction rest as [|[type h] rest IH]; intros pub n written Hor Hr.
  { rewrite app_nil_r in *. by intros [= <- <- <-]. }
  cbn [publish_all]. destruct (publish f (type, h) n) as [[u|e] n1] eqn:E; destruct (publish_one _ _ _ _ _ _ _ _ _ Hk Hor Hr E) as (Hf & Hru & E1).
  - destruct (publish_all f rest n1) as [[ws eo1] n2] eqn:E2. intros [= <- <- <-].
    assert (forall a : @stage (tls X), pub ++ a :: rest = (pub ++ [a]) ++ rest) as Hsplit by (intros a; by rewrite <- app_assoc).
    rewrite Hsplit in Hor, E1 |- *. destruct (IH _ _ _ Hor E1 E2) as (Hf2 & Hru2 & Hmap & Hrows). rewrite Hf2, Hru2. split_and!; try done; [cbn; by rewrite Hmap|].
    destruct eo1; [|done]. rewrite map_app, <- app_assoc in Hrows. done.
  - intros [= <- <- <-]. subst n1. split; [done|]. split; [done|]. split; [exact (map_not_written ((type, h) :: rest))|]. apply (published_backward pub ((type, h) :: rest)); [exact (or_keys _ _ Hor)|exact Hr].
Qed.
End Publishing.

(** ** The rollback *)

Section Rollback.
Context {X : Type} `{NginxEnv (tls X)}.
Implicit Types (h : host (tls X)) (n : node (tls X)) (ws : list (@stage (tls X) * bool)).

(** The row being restored has its columns back; the others await their turn. *)
Definition columns_back ws type0 (id : Z) (flag : bool) (type : string) h h' : Prop :=
  if String.eqb type type0 && (n_id h =? id)
  then kept h h' /\ n_body h' = n_body h /\
       if flag then exists a on err on' err', n_meta h = Meta a on err /\ n_meta h' = Meta false on' err' else n_meta h' = n_meta h
  else backward ws type h h'.

Lemma backward_columns ws n0 n type h flag : keyed n0 -> of_rows n0 (map fst (((type, h), flag) :: ws)) ->
  rows_rel (backward (((type, h), flag) :: ws)) n0 n ->
  rows_rel (columns_back ws type (n_id h) flag) n0 (patch_host type (n_id h) (fun r => with_tls (put_back type (n_body h) (n_body r)) r) n).
Proof.
  intros Hk Hor Hr. eapply rows_rel_patch; [exact Hr|]. intros type' x x' Hx (Hkept & Hout & Hin). split; [by destruct Hkept|].
  unfold columns_back. destruct (String.eqb type' type && (n_id x =? n_id h)) eqn:E.
  - apply andb_true_iff in E as [->%String.eqb_eq Hid%Z.eqb_eq].
    assert (((type, h) : @stage (tls X)) = (type, x)) as [= <-].
    { apply (row_of n0 (map fst (((type, h), flag) :: ws))); [done..|by left|done|]. unfold key. cbn. congruence. }
    destruct (Hin ((type, h), flag) (or_introl eq_refl) eq_refl) as [Hb Hm]. split; [destruct Hkept; by constructor|]. done.
  - assert ((type', n_id x) <> (type, n_id h)) as Hne.
    { intros [= -> Heq]. by rewrite String.eqb_refl, Heq, Z.eqb_refl in E. }
    split_and!; [done| |].
    + intros Hni. apply Hout. cbn. intros [Heq|?]; [|done]. by apply Hne.
    + intros w Hw. apply Hin. by right.
Qed.

Lemma columns_backward ws n0 n type h : keyed n0 -> ~ In (type, n_id h) (map (fun w => key (fst w)) ws) -> In type hostTypes -> In h (nd_hosts n0 type) ->
  rows_rel (columns_back ws type (n_id h) false) n0 n -> rows_rel (backward ws) n0 n.
Proof.
  intros Hk Hni Ht Hin. apply rows_rel_impl. intros type' x x' Hx. unfold columns_back.
  destruct (String.eqb type' type && (n_id x =? n_id h)) eqn:E; [|done].
  apply andb_true_iff in E as [->%String.eqb_eq Hid%Z.eqb_eq]. intros (Hkept & Hb & Hm). split_and!; [done|split; [done|by left]|].
  intros w Hw Hkey. destruct Hni. rewrite <- Hid, <- Hkey. by apply (in_map (fun w => key (fst w))).
Qed.

Lemma status_backward ws n0 n type h r n' : keyed n0 -> ~ In (type, n_id h) (map (fun w => key (fst w)) ws) -> In type hostTypes -> In h (nd_hosts n0 type) ->
  rows_rel (columns_back ws type (n_id h) true) n0 n -> restoreHostStatus type h n = (r, n') ->
  rows_rel (backward ws) n0 n' /\ nd_files n' = nd_files n /\ nd_running n' = nd_running n.
Proof.
  intros Hk Hni Ht Hin Hr. unfold restoreHostStatus.
  assert (find_host type (n_id h) n0 = Some h) as Hf by (apply find_by_key; [by apply Hk|done]).
  assert (columns_back ws type (n_id h) true type h = fun h' => kept h h' /\ n_body h' = n_body h /\
    exists a on err on' err', n_meta h = Meta a on err /\ n_meta h' = Meta false on' err') as Hown by (unfold columns_back; by rewrite String.eqb_refl, Z.eqb_refl).
  destruct (rows_rel_find (columns_back ws type (n_id h) true) n0 n type (n_id h) h Hr) as (h' & -> & Hh); [|done|].
  { intros x x'. unfold columns_back. destruct (_ && _); [by intros [[-> _ _] _]|by intros [[-> _ _] _]]. }
  rewrite Hown in Hh. destruct Hh as (_ & _ & a & on & err & on' & err' & Hm & Hm'). rewrite Hm', Hm. cbn [sanitizeHostMeta previous_online previous_err].
  intros [= <- <-]. split; [|done]. eapply rows_rel_patch; [exact Hr|]. intros type' x x' Hx. unfold columns_back.
  destruct (String.eqb type' type && (n_id x =? n_id h)) eqn:E.
  - apply andb_true_iff in E as [->%String.eqb_eq Hid%Z.eqb_eq]. intros (Hkept & Hb & _). split; [by destruct Hkept|]. split_and!.
    + destruct Hkept. by constructor.
    + intros _. cbn. split; [done|]. assert (x = h) as -> by (apply (key_unique n_id (nd_hosts n0 type)); [by apply Hk|done..]).
      rewrite Hm. destruct a; [right; eauto|by left].
    + intros w Hw Hkey. destruct Hni. rewrite <- Hid, <- Hkey. by apply (in_map (fun w => key (fst w))).
  - intros Hb. split; [by destruct Hb as [[? _ _] _]|done].
Qed.

Lemma restore_host_outcome ws n0 n type h flag r n' : keyed n0 -> of_rows n0 (map fst (((type, h), flag) :: ws)) ->
  rows_rel (backward (((type, h), flag) :: ws)) n0 n -> restore_host ((type, h), flag) n = (r, n') ->
  rows_rel (backward ws) n0 n' /\ nd_files n' = revert type (n_id h) (nd_files n) /\ nd_running n' = nd_running n.
Proof.
  intros Hk Hor Hr. unfold restore_host. unfold bind at 1 2 3, on_files, patch_tls. cbn [nd_files set_files].
  change (restoreConfig type (n_id h) (deleteConfig type (n_id h) (nd_files n))) with (revert type (n_id h) (nd_files n)).
  set (n1 := patch_host _ _ _ _).
  assert (rows_rel (columns_back ws type (n_id h) flag) n0 n1) as H1.
  { eapply rows_rel_hosts; [|by apply backward_columns]. done. }
  assert (~ In (type, n_id h) (map (fun w => key (fst w)) ws) /\ In type hostTypes /\ In h (nd_hosts n0 type)) as (Hni & Ht & Hin).
  { destruct Hor as [Hkn Hro Hnd]. cbn in Hkn, Hro, Hnd. inversion Hkn as [|? ? [Ht _] _]; subst. inversion Hro; subst. inversion Hnd as [|? ? Hni _]; subst.
    rewrite map_map in Hni. done. }
  destruct flag.
  - intros Hs. by apply (status_backward ws n0) in Hs as (? & -> & ->).
  - intros [= <- <-]. split; [|done]. by eapply columns_backward.
Qed.

Lemma restore_all_spec ws n0 n rs n' : keyed n0 -> of_rows n0 (map fst ws) -> staged (nd_files n0) (map fst ws) (nd_files n) ->
  rows_rel (backward ws) n0 n -> all_settled restore_host ws n = (rs, n') ->
  rows_rel (backward []) n0 n' /\ nd_running n' = nd_running n /\ forall p, is_active_name p = true -> nd_files n' !! p = nd_files n0 !! p.
Proof.
  intros Hk. revert n rs. induction ws as [|[[type h] flag] ws IH]; intros n rs Hor [Hb Ho] Hr.
  { intros [= <- <-]. split; [exact Hr|]. split; [done|]. intros p Hp. apply Ho; [done|by intros []]. }
  cbn [all_settled]. destruct (restore_host _ n) as [r n1] eqn:E. destruct (all_settled _ ws n1) as [rs' n2] eqn:Es. intros [= <- <-].
  destruct (restore_host_outcome _ _ _ _ _ _ _ _ Hk Hor Hr E) as (Hr1 & Hf1 & Hru1).
  pose proof (keys_cfg _ (or_known _ _ Hor) (or_keys _ _ Hor)) as Hnd. cbn in Hnd. inversion Hnd as [|? ? Hni _]; subst.
  assert (of_rows n0 (map fst ws)) as Hor1.
  { destruct Hor as [Hkn Hro Hky]. cbn in Hkn, Hro, Hky. inversion Hkn; inversion Hro; inversion Hky; subst. by constructor. }
  destruct (IH n1 rs' Hor1) as (HR & Hru & Hp); [|done|done|split_and!; [done|congruence|done]]. constructor.
  - intros s Hs. rewrite Hf1, lookup_revert_other; [apply Hb; by right|].
    apply (owns_backup (type, h)). intros Heq. apply Hni. rewrite Heq. by apply in_map.
  - intros p Hp Hnp. rewrite Hf1. destruct (decide (p = cfg (type, h))) as [->|Hne].
    + unfold cfg at 1. cbn [fst snd]. rewrite lookup_revert_own. apply (Hb (type, h)). by left.
    + rewrite lookup_revert_other by by apply (owns_cfg (type, h)). apply Ho; [done|]. cbn. intros [Heq|Hx]; [by apply Hne|done].
Qed.

Lemma part_rev n0 ws n : part n0 ws n -> part n0 (rev ws) n.
Proof.
  intros [[Hkn Hro Hnd] [Hb Ho] Hr]. constructor.
  - rewrite map_rev. constructor; [by apply Forall_rev..|]. rewrite map_rev. by apply NoDup_rev.
  - rewrite map_rev. constructor.
    + intros s Hs%in_rev. auto.
    + intros p Hp Hni. apply Ho; [done|]. intros Hx. apply Hni. rewrite map_rev. by apply -> in_rev.
  - eapply rows_rel_impl; [|exact Hr]. intros type h h' _ (Hkept & Hout & Hin). split_and!; [done| |].
    + intros Hni. apply Hout. intros Hx. apply Hni. rewrite map_rev. by apply -> in_rev.
    + intros w Hw%in_rev. auto.
Qed.
End Rollback.

(** ** The outcome *)

Section Outcome.
Context {X : Type} `{NginxEnv (tls X)}.
Implicit Types (h : host (tls X)) (n : node (tls X)).

(** A row after a successful run. *)
Definition settled (active : list Z) (type : string) h : host (tls X) :=
  if existsb (String.eqb type) hostTypes && stale active h then with_meta (new_status h) (detached_row (type, h)) else h.

(** The same row, but for the bindings of the retired filters. *)
Definition same_row h h' : Prop := kept h h' /\ n_body h' = n_body h /\ alike (n_meta h) (n_meta h').

Lemma cleanup_failed_spec e ws n0 n r n' : keyed n0 -> part n0 ws n -> cleanup_failed e ws n = (r, n') ->
  r = Throw e /\ rows_rel (fun _ => same_row) n0 n' /\ active_files (nd_files n') = active_files (nd_files n0) /\
  (nd_running n' = if ws then nd_running n else if nginx_verdict (active_files (nd_files n0)) then nd_running n else active_files (nd_files n0)).
Proof.
  intros Hk Hp%part_rev. unfold cleanup_failed. destruct (all_settled restore_host (rev ws) n) as [rs n1] eqn:E. intros [= <- <-].
  destruct Hp as [Hor Hst Hr]. destruct (restore_all_spec _ _ _ _ _ Hk Hor Hst Hr E) as (HR & Hru & Hact%active_files_eq).
  assert (rows_rel (fun _ => same_row) n0 n1) as HR1.
  { eapply rows_rel_impl; [|exact HR]. intros type h h' _ (Hkept & Hout & _). split; [done|]. apply Hout. by intros []. }
  split; [done|]. destruct ws as [|w ws]; [by rewrite Hact, Hru|]. destruct (reload n1) as [r2 n2] eqn:El. cbn [snd].
  apply reload_spec in El as (Hf & Hh & Hl). rewrite Hf, Hact. split; [by eapply rows_rel_hosts|]. split; [done|]. rewrite Hact in Hl.
  destruct r2 as [u|e2]; [destruct Hl as [-> ->]; done|]. destruct Hl as [Hbad ->]. destruct (nginx_verdict _); [by rewrite Hru|done].
Qed.

Lemma backups_removed (affected : list (@stage (tls X))) n :
  let n' := snd (all_settled (fun a : @stage (tls X) => on_files (deleteBackupConfig (fst a) (n_id (snd a)))) affected n) in
  nd_hosts n' = nd_hosts n /\ nd_running n' = nd_running n /\ forall p, is_active_name p = true -> nd_files n' !! p = nd_files n !! p.
Proof. destruct (all_settled _ affected n) as [rs n'] eqn:E. by apply cleanup_all_frame in E as (Hr & Hh & Hp). Qed.

Lemma existsb_type type : existsb (String.eqb type) hostTypes = true <-> In type hostTypes.
Proof.
  rewrite existsb_exists. split; [by intros (x & Hx & ->%String.eqb_eq)|]. intros Hx. exists type. by rewrite String.eqb_refl.
Qed.

Lemma published_settled active n0 n : keyed n0 ->
  rows_rel (published (stale_hosts active hostTypes n0) (stale_hosts active hostTypes n0)) n0 n ->
  forall type, nd_hosts n type = map (settled active type) (nd_hosts n0 type).
Proof.
  intros Hk Hr type. specialize (Hr type).
  assert (forall h, In h (nd_hosts n0 type) -> ((type, n_id h) ∈ map key (stale_hosts active hostTypes n0) <-> existsb (String.eqb type) hostTypes && stale active h = true)) as Hiff.
  { intros h Hh. rewrite andb_true_iff, existsb_type, list_elem_of_In, in_map_iff. split.
    - intros ([t x] & Heq & (Ht & Hx & Hs)%in_stale). injection Heq as -> Hid. split; [done|].
      by rewrite (key_unique n_id (nd_hosts n0 type) h x) by (try apply Hk; done).
    - intros [Ht Hs]. exists (type, h). split; [done|]. by apply in_stale. }
  revert Hiff. induction Hr as [|x x' l l' Hx Hr IH]; intros Hiff; [done|]. cbn [map]. f_equal; [|apply IH; intros h Hh; apply Hiff; by right].
  destruct Hx as [_ ->]. unfold settled. specialize (Hiff x (or_introl eq_refl)).
  destruct (existsb _ _ && _).
  - by rewrite decide_True by tauto.
  - assert ((type, n_id x) ∉ map key (stale_hosts active hostTypes n0)) as Hni by (rewrite Hiff; discriminate).
    by rewrite !decide_False.
Qed.

Lemma settled_refers active type h : In type hostTypes -> refers (settled active type h) = true -> In (tls_certificate (n_body (settled active type h))) active.
Proof.
  intros Ht. unfold settled. rewrite (proj2 (existsb_type type) Ht). cbn [andb]. destruct (stale active h) eqn:E.
  - unfold refers, detached_row, detach. cbn. by destruct (String.eqb type "stream").
  - intros Hr. unfold stale in E. rewrite Hr in E. cbn in E. apply negb_false_iff in E.
    apply existsb_exists in E as (x & Hx & ->%Z.eqb_eq). done.
Qed.

(** Everything a run may leave behind. *)
Definition cleaned (now : Z) (active : list Z) (r : fallible unit) n n' : Prop :=
  match r with
  | Ok _ =>
      (forall type, nd_hosts n' type = map (settled active type) (nd_hosts n type)) /\
      (forall type h, In type hostTypes -> In h (nd_hosts n' type) -> refers h = true -> In (tls_certificate (n_body h)) active) /\
      Forall (replaced now (nd_files n')) (stale_hosts active hostTypes n) /\
      (forall p, is_active_name p = true -> ~ In p (map cfg (stale_hosts active hostTypes n)) -> nd_files n' !! p = nd_files n !! p) /\
      (if stale_hosts active hostTypes n then nd_running n' = nd_running n else valid_files n' /\ nd_running n' = active_files (nd_files n'))
  | Throw _ =>
      rows_rel (fun _ => same_row) n n' /\ active_files (nd_files n') = active_files (nd_files n) /\
      (valid_files n -> nd_running n' = nd_running n \/ nd_running n' = active_files (nd_files n))
  end.

Lemma failed_cleaned now active e ws n0 n r n' : keyed n0 -> part n0 ws n -> (ws = [] -> nd_running n = nd_running n0) ->
  cleanup_failed e ws n = (r, n') -> cleaned now active r n0 n'.
Proof.
  intros Hk Hp Hru Hc. destruct (cleanup_failed_spec _ _ _ _ _ _ Hk Hp Hc) as (-> & HR & Hact & Hrun). split_and!; [done..|].
  unfold valid_files. intros Hv. rewrite Hrun, Hv. destruct ws; [left; by apply Hru|by right].
Qed.

Lemma cleanup_outcome now f active n r n' : keyed n -> cleanUpMissingCertificates now f active n = (r, n') -> cleaned now active r n n'.
Proof.
  intros Hk. unfold cleanUpMissingCertificates. destruct (detach_types now f active hostTypes [] n) as [[affected eo] n1] eqn:E.
  apply (detach_types_spec now f active n hostTypes [] n) in E; [|done|apply NoDup_ListNoDup; by apply (bool_decide_unpack _)|done|apply detaching_nil].
  destruct eo as [e|].
  { destruct E as [Hp Hru]. intros Hc. eapply failed_cleaned; [done|exact Hp|done|]. by destruct affected. }
  cbn [app] in E. destruct E as [Haff Hd]. pose proof (detaching_part _ _ _ _ Hd) as Hpart. pose proof Hd as [Hor Hst Htx Hho Hru].
  destruct affected as [|a affected].
  { intros [= <- <-]. unfold cleaned. rewrite <- Haff. 
    assert (forall type, nd_hosts n1 type = map (settled active type) (nd_hosts n type)) as Hset.
    { apply published_settled; [done|]. rewrite <- Haff. by apply forward_published. }
    split_and!; try done; [|by apply (sg_other _ _ _ Hst)]. intros type h Ht. rewrite Hset. intros (x & <- & _)%in_map_iff. by apply settled_refers. }
  destruct (reload n1) as [[u|e] n2] eqn:El; apply reload_spec in El as (Hf2 & Hh2 & Hl).
  2: { destruct Hl as [_ ->]. intros Hc. by eapply failed_cleaned. }
  destruct Hl as [Hv Hr2]. assert (rows_rel (published [] (a :: affected)) n n2) as Hpub by (eapply rows_rel_hosts; [exact Hh2|by apply forward_published]).
  destruct (publish_all f (a :: affected) n2) as [[ws eo] n3] eqn:Ep.
  destruct (publish_all_spec f n (a :: affected) [] n2 ws eo n3 Hk Hor Hpub Ep) as (Hf3 & Hr3 & Hmap & Hrows).
  destruct eo as [e|].
  { intros Hc. refine (failed_cleaned _ _ _ _ _ _ _ _ Hk _ _ Hc); [|by destruct ws]. constructor; [by rewrite Hmap|by rewrite Hmap, Hf3, Hf2|exact Hrows]. }
  cbn [app] in Hrows. destruct (backups_removed (a :: affected) n3) as (Hh4 & Hr4 & Hp4). revert Hh4 Hr4 Hp4. generalize (snd (all_settled (fun x : @stage (tls X) => on_files (deleteBackupConfig (fst x) (n_id (snd x)))) (a :: affected) n3)). intros n4 Hh4 Hr4 Hp4 [= <- <-].
  assert (forall p, is_active_name p = true -> nd_files n4 !! p = nd_files n1 !! p) as Hact.
  { intros p Ha. by rewrite Hp4, Hf3, Hf2. }
  pose proof (active_files_eq _ _ Hact) as Hfiles.
  assert (forall type, nd_hosts n4 type = map (settled active type) (nd_hosts n type)) as Hset.
  { rewrite Hh4. apply published_settled; [done|]. by rewrite <- Haff. }
  unfold cleaned. rewrite <- Haff. split_and!.
  - exact Hset.
  - intros type h Ht. rewrite Hset. intros (x & <- & _)%in_map_iff. by apply settled_refers.
  - rewrite Forall_forall in Htx |- *. intros s Hs. specialize (Htx s Hs). unfold replaced in *. by rewrite Hact by apply config_file_active.
  - intros p Hp Hni. rewrite Hact by done. by apply (sg_other _ _ _ Hst).
  - unfold valid_files. by rewrite Hfiles.
  - rewrite Hfiles. congruence.
Qed.

End Outcome.

(** ** A concrete node *)

Module DemoCertificateHosts.
Definition rendered_text (h : host (tls string)) : string :=
  if tls_certificate (n_body h) =? 0 then ("plain " ++ tls_rest (n_body h))%string else ("tls " ++ tls_rest (n_body h))%string.
#[export] Instance demo_nginx : NginxEnv (tls string) := {|
  render_text := fun _ _ h => Ok (rendered_text h);
  nginx_verdict := fun t => if decide (map_Exists (fun _ c => c = "plain bad") t) then Some "test failed" else None
|}.

Definition demo_row (id certificate : Z) (rest : string) : host (tls string) :=
  MkNHost id false true (Meta false (Some true) None) (MkTls certificate true true false false rest).
Definition demo_node (rest : string) : node (tls string) :=
  let files : file_tree := {["/data/nginx/proxy_host/1.conf" := "tls a"; "/data/nginx/stream/1.conf" := "tls s"]} in
  MkNode files files (fun t => if String.eqb t "proxy_host" then [demo_row 1 7 rest; demo_row 2 3 "kept"] else if String.eqb t "stream" then [demo_row 1 7 "s"] else []).

Lemma demo_keyed rest : keyed (demo_node rest).
Proof.
  intros type Ht. cbn in Ht. repeat destruct Ht as [<-|Ht]; try done; cbn; (split; [repeat constructor; cbn; lia|]);
    intros h Hh; repeat destruct Hh as [<-|Hh]; try done.
Qed.

End DemoCertificateHosts.
