(* ===== verification/CertificateStore.v ===== *)
(** Certificates: src/backend/internal/certificate.js with the Certbot lock of
    src/backend/internal/certbot.js.

    The state [vault] is the certificate table, the directories below /data/tls
    and the [node] of Nginx whose hosts refer to certificates.  Operations on one
    certificate exclude each other ([withCertificateLock]) and what touches
    files of the server holds the configuration lock, so a request is one step;
    [certificate_step] has the requests of all clients, the beginning and end of
    a Certbot run of the renewal timer, and edits of hosts.  The database may
    refuse a statement, a directory may not be written; restoring a directory
    is taken to succeed.  The .der files of OCSP responses are left out. *)

From stdpp Require Import gmap strings.
From S2P Require Import Prelude JsString Errors Steps Nginx CertificateHosts AccessLists.
#[local] Open Scope string_scope.
#[local] Open Scope list_scope.
#[local] Open Scope Z_scope.

(** ** Data *)

(** [certData]: what openssl tells of a certificate; instants are seconds. *)
Record cert_info : Type := MkInfo { ci_cn : option string; ci_sans : list string; ci_from : Z; ci_to : Z }.

(** The metadata column. *)
Record cert_meta : Type := MkCertMeta {
  cm_certificate : option string;
  cm_key : option string;
  cm_intermediate : option string;
  cm_dns_challenge : bool;
  cm_info : option cert_info;
  cm_dns_credentials : option string
}.

Record certificate : Type := MkCert {
  ct_id : Z;
  ct_owner : Z;
  ct_provider : string;
  ct_deleted : bool;
  ct_name : string;
  ct_names : list string;
  ct_expires : Z;
  ct_meta : cert_meta
}.

(** Directories by path, files by name. *)
Abbreviation dirs := (gmap string (gmap string string)).

Record vault (X : Type) : Type := MkVault {
  vt_certs : list certificate;
  vt_next : Z;
  vt_dirs : dirs;
  vt_node : node (tls X);
  vt_processing : bool;
  vt_audit : list (string * Z)
}.
Arguments MkVault {X} _ _ _ _ _ _.
Arguments vt_certs {X} _.
Arguments vt_next {X} _.
Arguments vt_dirs {X} _.
Arguments vt_node {X} _.
Arguments vt_processing {X} _.
Arguments vt_audit {X} _.

(** What is outside: openssl, the key checks of node:crypto, Certbot (the files
    it obtains for a certificate) and the private PKI, the template engine, and
    Nginx, which reads the certificates when it tests its configuration. *)
Class Toolbox (X : Type) : Type := {
  openssl : string -> fallible cert_info;
  createPrivateKey : string -> fallible unit;
  checkPair : string -> string -> fallible bool;
  certbot_obtain : certificate -> fallible (gmap string string);
  pki_lead : certificate -> fallible (gmap string string);
  tls_render : Z -> string -> host (tls X) -> fallible string;
  tls_verdict : file_tree -> dirs -> option string
}.

Definition server_env {X} `{Toolbox X} (d : dirs) : NginxEnv (tls X) :=
  {| render_text := tls_render; nginx_verdict := fun t => tls_verdict t d |}.

(** ** Paths *)

Definition getLiveCertPath (id : Z) : string := ("/data/tls/certbot/live/npm-" ++ show_Z id)%string.
Definition internal_dir (id : Z) : string := ("/data/tls/internal/npm-" ++ show_Z id)%string.
Definition custom_dir (id : Z) : string := ("/data/tls/custom/npm-" ++ show_Z id)%string.

(** ** What is shown of the metadata *)

(** A text that is there is shown as [true]. *)
Inductive shown : Type := Hidden | Absent | Empty.
Definition cleaned_text (remove : bool) (t : option string) : shown :=
  match t with None => Absent | Some s => if String.eqb s "" then Empty else if remove then Absent else Hidden end.
Record clean_meta : Type := MkClean { cl_certificate : shown; cl_key : shown; cl_intermediate : shown; cl_dns_challenge : bool; cl_info : option cert_info }.
Definition cleanMeta (remove : bool) (m : cert_meta) : clean_meta :=
  MkClean (cleaned_text remove (cm_certificate m)) (cleaned_text remove (cm_key m)) (cleaned_text remove (cm_intermediate m)) (cm_dns_challenge m) (cm_info m).

(** ** Uploads *)

(** The files of a request under the allowed names; others are ignored. *)
Inductive uploaded : Type := Several | One (content : string).
Record upload_files : Type := MkUploads { fl_certificate : option uploaded; fl_key : option uploaded; fl_intermediate : option uploaded }.

Definition file_text (name : string) (u : option uploaded) : fallible (option string) :=
  match u with
  | None => Ok None
  | Some Several => Throw (ValidationError ("Exactly one " ++ name ++ " file must be uploaded")%string)
  | Some (One content) => Ok (Some content)
  end.

(** [.filter(Boolean)], then a set in order of insertion. *)
Definition distinct (l : list string) : list string :=
  rev (fold_left (fun seen x => if existsb (String.eqb x) seen then seen else x :: seen) l []).
Definition truthy_names (l : list string) : list string := select_where (fun s => negb (String.eqb s "")) l.

Definition newline : string := String (ascii_of_nat 10) "".
(** The text of fullchain.pem. *)
Definition full_chain (certificate : string) (intermediate : option string) : string :=
  match intermediate with Some i => (certificate ++ newline ++ i)%string | None => certificate end.
Definition pair_files (chain key : string) : gmap string string := {["fullchain.pem" := chain; "privkey.pem" := key]}.

(** ** Operations *)

(** The statements of one request that fail. *)
Record cert_faults : Type := MkCertFaults {
  xf_write : option error;
  xf_backup : option error;
  xf_install : option error;
  xf_patch : option error;
  xf_mark : option error;
  xf_list : option error;
  xf_cleanup : cleanup_faults;
  xf_certbot : option error;
  xf_remove : option error;
  xf_audit : option error
}.
Definition no_cert_faults : cert_faults := MkCertFaults None None None None None None no_cleanup_faults None None None.

Section Operations.
Context {X : Type} `{Toolbox X}.
Implicit Types (v : vault X) (c : certificate).

Definition set_certs (certs : list certificate) v : vault X := MkVault certs (vt_next v) (vt_dirs v) (vt_node v) (vt_processing v) (vt_audit v).
Definition set_dirs (d : dirs) v : vault X := MkVault (vt_certs v) (vt_next v) d (vt_node v) (vt_processing v) (vt_audit v).
Definition set_vault_node (n : node (tls X)) v : vault X := MkVault (vt_certs v) (vt_next v) (vt_dirs v) n (vt_processing v) (vt_audit v).
Definition set_processing (b : bool) v : vault X := MkVault (vt_certs v) (vt_next v) (vt_dirs v) (vt_node v) b (vt_audit v).

Definition patch_cert (id : Z) (f : certificate -> certificate) v : vault X := set_certs (patch_where (fun c => ct_id c =? id) f (vt_certs v)) v.
Definition on_server {A} (m : NginxEnv (tls X) -> action (tls X) A) : step (vault X) A :=
  fun v => let '(r, n) := m (server_env (vt_dirs v)) (vt_node v) in (r, set_vault_node n v).
Definition reload_server : step (vault X) unit := on_server (fun env => @reload _ env).
Definition log_audit (f : cert_faults) (what : string) (id : Z) : step (vault X) unit :=
  do* _ := unless (xf_audit f) in
  update_state (fun v => MkVault (vt_certs v) (vt_next v) (vt_dirs v) (vt_node v) (vt_processing v) (vt_audit v ++ [(what, id)])).

(** [get]: a live certificate the user may see. *)
Definition live_cert (id : Z) c : bool := (ct_id c =? id) && negb (ct_deleted c).
Definition get_certificate (who : requester) (id : Z) v : fallible certificate :=
  let? all := rq_can who "certificates:get" in
  match first_where (fun c => live_cert id c && (all || (ct_owner c =? rq_user who))) (vt_certs v) with
  | Some c => Ok c
  | None => Throw (ItemNotFoundError (Some id))
  end.

(** [getCertificateInfo]; every error is an invalid certificate. *)
Definition getCertificateInfo (now : Z) (content : string) (throwExpired : bool) : fallible cert_info :=
  match (let? info := openssl content in throw ValidationError "Certificate has expired" when (throwExpired && (ci_to info <? now)) ;; Ok info) with
  | Ok info => Ok info
  | Throw e => Throw (ValidationError ("Certificate is not valid (" ++ e_message e ++ ")")%string)
  end.

Definition checkPrivateKey (key : string) : fallible unit :=
  match createPrivateKey key with
  | Ok _ => Ok tt
  | Throw e => Throw (ValidationError ("Certificate Key is not valid (" ++ e_message e ++ ")")%string)
  end.

(** [validate]: what openssl tells of the certificate, if there is one. *)
Definition validate (now : Z) (files : upload_files) : fallible (option cert_info) :=
  let? certificate := file_text "certificate" (fl_certificate files) in
  let? key := file_text "certificate_key" (fl_key files) in
  let? intermediate := file_text "intermediate_certificate" (fl_intermediate files) in
  let? _ := match key with Some k => checkPrivateKey k | None => Ok tt end in
  let? info := match certificate with Some t => let? i := getCertificateInfo now t true in Ok (Some i) | None => Ok None end in
  let? _ := match intermediate with Some t => let? _ := getCertificateInfo now t true in Ok tt | None => Ok tt end in
  Ok info.

(** The uploaded texts over the stored ones. *)
Definition over (u : option uploaded) (old : option string) : option string := match u with Some (One t) => Some t | _ => old end.
Definition merge_uploads (files : upload_files) (m : cert_meta) : cert_meta :=
  MkCertMeta (over (fl_certificate files) (cm_certificate m)) (over (fl_key files) (cm_key m)) (over (fl_intermediate files) (cm_intermediate m))
    (cm_dns_challenge m) (cm_info m) (cm_dns_credentials m).

(** The checks of an upload on the merged texts: certificate and key. *)
Definition checked_pair (m : cert_meta) : fallible (string * string) :=
  match cm_key m with
  | None | Some "" => Throw (ValidationError "Certificate key file was not provided")
  | Some key =>
      let certificate := match cm_certificate m with Some t => t | None => "" end in
      match (let? good := checkPair certificate key in throw ValidationError "Certificate and private key do not match" when (negb good) ;; Ok tt) with
      | Ok _ => Ok (certificate, key)
      | Throw e => Throw (ValidationError ("Certificate/key validation failed (" ++ e_message e ++ ")")%string)
      end
  end.

Definition rename_dir (a b : string) (d : dirs) : dirs := match d !! a with Some files => <[b := files]> (delete a d) | None => d end.
Definition change_dirs (f : dirs -> dirs) : step (vault X) unit := update_state (fun v => set_dirs (f (vt_dirs v)) v).

(** The handler of a failed swap: the previous directory comes back and, if the
    new one had been installed, is loaded again. *)
Definition undo_swap (installed hadPrevious : bool) (dir backup : string) (e : error) : step (vault X) unit :=
  do* _ := if installed then change_dirs (delete dir) else done_with tt in
  do* _ := if hadPrevious then change_dirs (rename_dir backup dir) else done_with tt in
  do* _ := if installed then catching reload_server (fun _ => done_with tt) else done_with tt in
  throws e.

(** Under the configuration lock: the staged directory takes the place of the
    current one and is activated. *)
Definition swap_dirs (f : cert_faults) (dir staging backup : string) (activate : step (vault X) unit) : step (vault X) bool :=
  do* hadPrevious := read_state (fun v => match vt_dirs v !! dir with Some _ => true | None => false end) in
  do* _ := unless (xf_backup f) in
  do* _ := change_dirs (rename_dir dir backup) in
  do* _ := match xf_install f with
           | Some e => undo_swap false hadPrevious dir backup e
           | None => do* _ := change_dirs (rename_dir staging dir) in catching activate (undo_swap true hadPrevious dir backup)
           end in
  done_with hadPrevious.

(** [writeCustomCert]; [suffix] and [uuid] are the random parts of names. *)
Definition writeCustomCert (f : cert_faults) (suffix uuid : string) c (chain key : string) (activate : step (vault X) unit) : step (vault X) unit :=
  if String.eqb (ct_provider c) "letsencrypt" || String.eqb (ct_provider c) "internal"
  then throws (ValidationError "Refusing to write certbot/internal certs here")
  else
    let dir := custom_dir (ct_id c) in
    let staging := (dir ++ ".staging-" ++ suffix)%string in
    let backup := (dir ++ ".backup-" ++ uuid)%string in
    fun v =>
      let '(r, v1) := (do* _ := change_dirs (<[staging := ∅]>) in
                       do* _ := unless (xf_write f) in
                       do* _ := change_dirs (<[staging := pair_files chain key]>) in
                       swap_dirs f dir staging backup activate) v in
      let v2 := set_dirs (delete staging (vt_dirs v1)) v1 in
      match r with
      | Ok hadPrevious => (Ok tt, if hadPrevious then set_dirs (delete backup (vt_dirs v2)) v2 else v2)
      | Throw e => (Throw e, v2)
      end.

Definition with_upload (info : cert_info) (m : cert_meta) c : certificate :=
  MkCert (ct_id c) (ct_owner c) (ct_provider c) (ct_deleted c) (ct_name c)
    (distinct (truthy_names (match ci_cn info with Some cn => cn :: ci_sans info | None => ci_sans info end))) (ci_to info) m.

(** [upload] *)
Definition upload (who : requester) (now : Z) (f : cert_faults) (suffix uuid : string) (id : Z) (files : upload_files) : step (vault X) clean_meta :=
  do* _ := of_result (rq_can who "certificates:update") in
  do* row := query (get_certificate who id) in
  do* _ := of_result (throw ValidationError "Cannot upload certificates for this type of provider" when (negb (String.eqb (ct_provider row) "other")) ;; Ok tt) in
  do* validations := of_result (validate now files) in
  match validations with
  | None => throws (ValidationError "Certificate file was not provided")
  | Some info =>
      let m := merge_uploads files (ct_meta row) in
      do* checked := of_result (checked_pair m) in
      do* _ := writeCustomCert f suffix uuid row (full_chain (fst checked) (cm_intermediate m)) (snd checked)
                 (do* _ := reload_server in
                  do* _ := unless (xf_patch f) in
                  update_state (patch_cert id (with_upload info m))) in
      do* _ := log_audit f "updated" id in
      done_with (cleanMeta false m)
  end.

(** ** Deleting *)

Definition active_ids v : list Z := map ct_id (select_where (fun c => negb (ct_deleted c)) (vt_certs v)).
Definition mark (b : bool) c : certificate := MkCert (ct_id c) (ct_owner c) (ct_provider c) b (ct_name c) (ct_names c) (ct_expires c) (ct_meta c).

Definition cleanup (now : Z) (f : cert_faults) : step (vault X) unit :=
  do* _ := unless (xf_list f) in
  do* active := read_state active_ids in
  on_server (fun env => @cleanUpMissingCertificates X env now (xf_cleanup f) active).

(** [detachCertificate] *)
Definition detachCertificate (now : Z) (f : cert_faults) (id : Z) : step (vault X) unit :=
  do* _ := unless (xf_mark f) in
  do* _ := update_state (patch_cert id (mark true)) in
  catching (cleanup now f) (fun e => do* _ := update_state (patch_cert id (mark false)) in throws e).

(** [runCertbot]: one Certbot at a time; [prepare] runs under its lock. *)
Definition runCertbot (f : cert_faults) (prepare work : step (vault X) unit) : step (vault X) unit :=
  fun v =>
    if vt_processing v then (Throw (ValidationError "Another Certbot process is currently running. Please try again later."), v)
    else let '(r, v') := (do* _ := prepare in do* _ := unless (xf_certbot f) in work) (set_processing true v) in (r, set_processing false v').

(** Detaching the hosts of a certificate and removing its files. *)
Definition remove_certificate (now : Z) (f : cert_faults) (row : certificate) : step (vault X) unit :=
  if String.eqb (ct_provider row) "letsencrypt"
  then runCertbot f (detachCertificate now f (ct_id row)) (change_dirs (delete (getLiveCertPath (ct_id row))))
  else do* _ := detachCertificate now f (ct_id row) in
       do* _ := unless (xf_remove f) in
       change_dirs (delete (if String.eqb (ct_provider row) "internal" then internal_dir (ct_id row) else custom_dir (ct_id row))).

(** [delete] *)
Definition delete_certificate (who : requester) (now : Z) (f : cert_faults) (id : Z) : step (vault X) bool :=
  do* _ := of_result (rq_can who "certificates:delete") in
  do* row := query (get_certificate who id) in
  do* _ := remove_certificate now f row in
  do* _ := log_audit f "deleted" id in
  done_with true.

(** ** Creating, renewing, renaming *)

Record new_cert : Type := MkNewCert { nw_provider : string; nw_name : string; nw_names : list string; nw_meta : cert_meta }.

Definition with_info (info : cert_info) (m : cert_meta) c : certificate :=
  MkCert (ct_id c) (ct_owner c) (ct_provider c) (ct_deleted c) (ct_name c) (ct_names c) (ci_to info) m.

Definition file_of (d : option (gmap string string)) (name : string) : string := match d ≫= (fun files => files !! name) with Some t => t | None => "" end.
(** [getCertificateInfoFromFile]; a file that is not there is an invalid certificate. *)
Definition info_of_file (now : Z) (dir : string) : step (vault X) cert_info :=
  do* d := read_state (fun v => vt_dirs v !! dir) in of_result (getCertificateInfo now (file_of d "fullchain.pem") false).

(** Issuing the certificate of a new row. *)
Definition issue (now : Z) (f : cert_faults) c : step (vault X) unit :=
  if String.eqb (ct_provider c) "letsencrypt" then
    do* _ := runCertbot f (done_with tt) (do* files := of_result (certbot_obtain c) in change_dirs (<[getLiveCertPath (ct_id c) := files]>)) in
    do* info := info_of_file now (getLiveCertPath (ct_id c)) in
    do* _ := unless (xf_patch f) in
    let m := ct_meta c in
    update_state (patch_cert (ct_id c) (with_info info (MkCertMeta (cm_certificate m) (cm_key m) (cm_intermediate m) (cm_dns_challenge m) (Some info) (cm_dns_credentials m))))
  else if String.eqb (ct_provider c) "internal" then
    let dir := internal_dir (ct_id c) in
    do* files := of_result (pki_lead c) in
    do* _ := change_dirs (<[dir := files]>) in
    do* info := info_of_file now dir in
    do* _ := unless (xf_patch f) in
    let m := ct_meta c in
    update_state (patch_cert (ct_id c) (with_info info (MkCertMeta (Some (dir ++ "/fullchain.pem")%string) (Some (dir ++ "/privkey.pem")%string) (cm_intermediate m) (cm_dns_challenge m) (cm_info m) (cm_dns_credentials m))))
  else done_with tt.

Definition insert_cert c v : vault X := MkVault (vt_certs v ++ [c]) (vt_next v + 1) (vt_dirs v) (vt_node v) (vt_processing v) (vt_audit v).

(** [create] *)
Definition create_certificate (who : requester) (now : Z) (f : cert_faults) (data : new_cert) : step (vault X) Z :=
  do* _ := of_result (rq_can who "certificates:create") in
  let managed := String.eqb (nw_provider data) "letsencrypt" || String.eqb (nw_provider data) "internal" in
  do* _ := of_result (throw ValidationError "At least one domain name is required for certificate creation"
    when (managed && match nw_names data with [] => true | _ => false end) ;; Ok tt) in
  do* id := read_state vt_next in
  let c := MkCert id (rq_user who) (nw_provider data) false (if managed then join ", " (nw_names data) else nw_name data) (nw_names data) now (nw_meta data) in
  do* _ := update_state (insert_cert c) in
  do* _ := catching (issue now f c) (fun e =>
    do* _ := update_state (fun v => set_certs (delete_where (fun x => ct_id x =? id) (vt_certs v)) v) in
    do* _ := if String.eqb (nw_provider data) "internal" then change_dirs (delete (internal_dir id)) else done_with tt in
    throws (MkError (e_class e) (e_message e) true (e_status e))) in
  do* _ := log_audit f "created" id in
  done_with id.

(** [renew] *)
Definition renew (who : requester) (now : Z) (f : cert_faults) (id : Z) : step (vault X) Z :=
  do* _ := of_result (rq_can who "certificates:update") in
  do* c := query (get_certificate who id) in
  if String.eqb (ct_provider c) "letsencrypt" then
    do* _ := runCertbot f (done_with tt) (do* files := of_result (certbot_obtain c) in change_dirs (<[getLiveCertPath id := files]>)) in
    do* info := info_of_file now (getLiveCertPath id) in
    do* _ := unless (xf_patch f) in
    do* _ := update_state (patch_cert id (fun x => with_info info (ct_meta x) x)) in
    do* _ := reload_server in
    do* _ := log_audit f "renewed" id in
    done_with (ci_to info)
  else throws (ValidationError "Only Certbot certificates can be renewed").

(** The columns of an update that are given; a provider is that of the row. *)
Record cert_patch : Type := MkCertPatch {
  pt_provider : option string;
  pt_owner : option Z;
  pt_deleted : option bool;
  pt_name : option string;
  pt_names : option (list string);
  pt_expires : option Z;
  pt_meta : option cert_meta
}.
Definition apply_patch (p : cert_patch) c : certificate :=
  MkCert (ct_id c) (default (ct_owner c) (pt_owner p)) (ct_provider c) (default (ct_deleted c) (pt_deleted p)) (default (ct_name c) (pt_name p))
    (default (ct_names c) (pt_names p)) (default (ct_expires c) (pt_expires p)) (default (ct_meta c) (pt_meta p)).

(** [update] *)
Definition update_certificate (who : requester) (f : cert_faults) (id : Z) (p : cert_patch) : step (vault X) unit :=
  do* _ := of_result (rq_can who "certificates:update") in
  do* row := query (get_certificate who id) in
  do* _ := of_result (throw ValidationError "Certificate provider cannot be changed. Create a new certificate instead."
    when (match pt_provider p with Some provider => negb (String.eqb provider (ct_provider row)) | None => false end) ;; Ok tt) in
  do* _ := unless (xf_patch f) in
  do* _ := update_state (patch_cert id (apply_patch p)) in
  log_audit f "updated" id.
End Operations.

(** ** The system *)

Section System.
Context {X : Type} `{Toolbox X}.
Implicit Types (v : vault X) (c : certificate).

(** PUT takes a provider and a name; the tool of the assistant passes on every
    column that the model names. *)
Inductive cert_request : Type :=
| RCreate (data : new_cert)
| RUpload (suffix uuid : string) (id : Z) (files : upload_files)
| RDelete (id : Z)
| RRenew (id : Z)
| RUpdate (id : Z) (provider name : option string)
| RAssistant (id : Z) (p : cert_patch)
| RCleanUp.

Definition forget {A} (m : step (vault X) A) : step (vault X) unit := do* _ := m in done_with tt.
Definition handle (who : requester) (now : Z) (f : cert_faults) (r : cert_request) : step (vault X) unit :=
  match r with
  | RCreate data => forget (create_certificate who now f data)
  | RUpload suffix uuid id files => forget (upload who now f suffix uuid id files)
  | RDelete id => forget (delete_certificate who now f id)
  | RRenew id => forget (renew who now f id)
  | RUpdate id provider name => update_certificate who f id (MkCertPatch provider None None name None None None)
  | RAssistant id p => update_certificate who f id p
  | RCleanUp => cleanup now f
  end.

(** Random names are new. *)
Definition new_names (r : cert_request) v : Prop :=
  match r with
  | RUpload suffix uuid id _ =>
      vt_dirs v !! (custom_dir id ++ ".staging-" ++ suffix)%string = None /\ vt_dirs v !! (custom_dir id ++ ".backup-" ++ uuid)%string = None
  | _ => True
  end.

(** Requests, the Certbot runs of the timer and what they renew, and whatever
    happens to hosts and to the configuration meanwhile; of the requests, those
    that are [allowed]. *)
Inductive certificate_step (allowed : cert_request -> Prop) : vault X -> vault X -> Prop :=
| step_request who now f r v : allowed r -> new_names r v -> certificate_step allowed v (snd (handle who now f r v))
| step_certbot b v : certificate_step allowed v (set_processing b v)
| step_renewed c files v : In c (vt_certs v) -> ct_provider c = "letsencrypt" ->
    certificate_step allowed v (set_dirs (<[getLiveCertPath (ct_id c) := files]> (vt_dirs v)) v)
| step_hosts n v : certificate_step allowed v (set_vault_node n v).

(** Every request but one of the assistant that writes the metadata itself. *)
Definition keeps_metadata (r : cert_request) : Prop := match r with RAssistant _ p => pt_meta p = None | _ => True end.
End System.

(** ** Paths do not meet *)

Lemma custom_dir_inj i j : 0 <= i -> 0 <= j -> custom_dir i = custom_dir j -> i = j.
Proof. unfold custom_dir. intros Hi Hj Heq%append_inj_r. by apply show_Z_inj. Qed.

Lemma show_no_dot i : 0 <= i -> has_char "."%char (show_Z i) = false.
Proof. intros Hi. by apply (all_chars_no _ is_digit); [apply show_Z_digits|]. Qed.

(** A directory beside those of the certificates: its name has a dot. *)
Lemma custom_dir_side i j (ext : string) : 0 <= i -> 0 <= j -> has_char "."%char ext = true -> (custom_dir i ++ ext)%string <> custom_dir j.
Proof.
  intros Hi Hj Hext Heq. unfold custom_dir in Heq. rewrite append_assoc in Heq || rewrite <- append_assoc in Heq. apply append_inj_r in Heq.
  apply (f_equal (has_char "."%char)) in Heq. by rewrite has_char_append, Hext, orb_true_r, show_no_dot in Heq.
Qed.

Lemma live_custom i j : getLiveCertPath i <> custom_dir j.
Proof. done. Qed.
Lemma internal_custom i j : internal_dir i <> custom_dir j.
Proof. done. Qed.

(** ** Uploads *)

Section Uploads.
Context {X : Type} `{Toolbox X}.
Implicit Types (v : vault X) (c : certificate).

Lemma reload_server_spec v r v' : reload_server v = (r, v') ->
  vt_certs v' = vt_certs v /\ vt_next v' = vt_next v /\ vt_dirs v' = vt_dirs v /\ vt_processing v' = vt_processing v /\ vt_audit v' = vt_audit v /\
  nd_files (vt_node v') = nd_files (vt_node v) /\ nd_hosts (vt_node v') = nd_hosts (vt_node v) /\
  match r with
  | Ok _ => tls_verdict (active_files (nd_files (vt_node v))) (vt_dirs v) = None /\ nd_running (vt_node v') = active_files (nd_files (vt_node v))
  | Throw _ => vt_node v' = vt_node v
  end.
Proof.
  unfold reload_server, on_server. destruct (@reload _ (server_env (vt_dirs v)) (vt_node v)) as [r1 n1] eqn:E.
  intros [= <- <-]. apply (@reload_spec _ (server_env (vt_dirs v))) in E as (Hf & Hh & Hr). cbn. split_and!; try done.
  destruct r1; [done|]. by destruct Hr.
Qed.

(** Nothing but the server may have changed, and that only by loading its files. *)
Record undisturbed v v' : Prop := {
  ud_certs : vt_certs v' = vt_certs v;
  ud_next : vt_next v' = vt_next v;
  ud_dirs : vt_dirs v' = vt_dirs v;
  ud_files : nd_files (vt_node v') = nd_files (vt_node v);
  ud_hosts : nd_hosts (vt_node v') = nd_hosts (vt_node v);
  ud_running : nd_running (vt_node v') = nd_running (vt_node v) \/ nd_running (vt_node v') = active_files (nd_files (vt_node v))
}.

Lemma undisturbed_refl v : undisturbed v v.
Proof. constructor; auto. Qed.

(** A pair of files in place: accepted by the server with the old directory still
    kept aside, then published in the table. *)
Record installed (id : Z) (chain key backup : string) (f : certificate -> certificate) v v' : Prop := {
  in_certs : vt_certs v' = patch_where (fun c => ct_id c =? id) f (vt_certs v);
  in_next : vt_next v' = vt_next v;
  in_dirs : vt_dirs v' = <[custom_dir id := pair_files chain key]> (vt_dirs v);
  in_files : nd_files (vt_node v') = nd_files (vt_node v);
  in_hosts : nd_hosts (vt_node v') = nd_hosts (vt_node v);
  in_accepted : exists d, delete backup d = vt_dirs v' /\ tls_verdict (active_files (nd_files (vt_node v'))) d = None;
  in_running : nd_running (vt_node v') = active_files (nd_files (vt_node v'))
}.

(** *** Moving directories *)

Definition aside (B : string) (old : option (gmap string string)) (d : dirs) : dirs := match old with Some files => <[B := files]> d | None => d end.

Lemma moved_aside d D S B files : D <> S -> D <> B -> S <> B ->
  rename_dir D B (<[S := files]> d) = <[S := files]> (aside B (d !! D) (delete D d)).
Proof.
  intros HDS HDB HSB. unfold rename_dir. rewrite lookup_insert_ne by done. unfold aside. destruct (d !! D) as [old|] eqn:E.
  - rewrite delete_insert_ne by done. by rewrite insert_insert_ne.
  - by rewrite delete_id.
Qed.

Lemma moved_in d S D files : d !! S = None -> rename_dir S D (<[S := files]> d) = <[D := files]> d.
Proof. intros HS. unfold rename_dir. rewrite lookup_insert_eq. by rewrite delete_insert_id. Qed.

Lemma aside_lookup d D S B : D <> S -> S <> B -> d !! S = None -> aside B (d !! D) (delete D d) !! S = None.
Proof.
  intros HDS HSB HS. unfold aside. destruct (d !! D); [rewrite lookup_insert_ne by done|]; by rewrite lookup_delete_ne.
Qed.

(** The directory kept aside goes away, or comes back. *)
Lemma aside_dropped d D B files : D <> B -> d !! B = None ->
  delete B (<[D := files]> (aside B (d !! D) (delete D d))) = <[D := files]> d.
Proof.
  intros HDB HB. rewrite delete_insert_ne by done. unfold aside.
  destruct (d !! D) eqn:E; [rewrite delete_insert_eq|]; rewrite (delete_id _ B) by (rewrite lookup_delete_ne by done; done); apply insert_delete_eq.
Qed.

Lemma aside_back d D B : D <> B -> d !! B = None ->
  match d !! D with Some _ => rename_dir B D (aside B (d !! D) (delete D d)) | None => aside B (d !! D) (delete D d) end = d.
Proof.
  intros HDB HB. unfold aside, rename_dir. destruct (d !! D) as [old|] eqn:E; [|by rewrite delete_id].
  rewrite lookup_insert_eq, delete_insert_id by by rewrite lookup_delete_ne. by rewrite insert_delete_id.
Qed.

(** *** The outcome of a write *)

Lemma undo_swap_spec installed_ hadPrevious dir backup e v r v' : undo_swap installed_ hadPrevious dir backup e v = (r, v') ->
  let d1 := if installed_ then delete dir (vt_dirs v) else vt_dirs v in
  let d2 := if hadPrevious then rename_dir backup dir d1 else d1 in
  r = Throw e /\ (d2 = vt_dirs v' /\ vt_certs v' = vt_certs v /\ vt_next v' = vt_next v /\
  nd_files (vt_node v') = nd_files (vt_node v) /\ nd_hosts (vt_node v') = nd_hosts (vt_node v) /\
  (nd_running (vt_node v') = nd_running (vt_node v) \/ nd_running (vt_node v') = active_files (nd_files (vt_node v)))).
Proof.
  unfold undo_swap, and_then, change_dirs, update_state, done_with, throws, catching.
  destruct installed_, hadPrevious; cbn; [| |intros [= <- <-]; cbn; auto 8..];
    destruct (reload_server _) as [r1 v3] eqn:E; apply reload_server_spec in E; cbn in E;
    destruct E as (Hc3 & Hn3 & Hd3 & _ & _ & Hf3 & Hh3 & Hr3); intros Heq;
    (assert (r = Throw e /\ v' = v3) as [-> ->] by (destruct r1; by injection Heq));
    rewrite Hd3, Hc3, Hn3, Hf3, Hh3; (split_and!; [done..|]); destruct r1; [right; apply Hr3|left; by rewrite Hr3|right; apply Hr3|left; by rewrite Hr3].
Qed.

Lemma longer (a b : string) : b <> "" -> a <> (a ++ b)%string.
Proof.
  intros Hb Heq. apply (f_equal String.length) in Heq. pose proof (length_append a b) as Hl. destruct b as [|x b]; [done|].
  cbn [String.length] in Hl. lia.
Qed.

Definition activate_pair (f : cert_faults) (id : Z) (g : certificate -> certificate) : step (vault X) unit :=
  do* _ := reload_server in do* _ := unless (xf_patch f) in update_state (patch_cert id g).

Lemma activate_outcome f id g v r v' : activate_pair f id g v = (r, v') ->
  vt_dirs v' = vt_dirs v /\ vt_next v' = vt_next v /\ nd_files (vt_node v') = nd_files (vt_node v) /\ nd_hosts (vt_node v') = nd_hosts (vt_node v) /\
  match r with
  | Ok _ => vt_certs v' = patch_where (fun c => ct_id c =? id) g (vt_certs v) /\
      tls_verdict (active_files (nd_files (vt_node v))) (vt_dirs v) = None /\ nd_running (vt_node v') = active_files (nd_files (vt_node v))
  | Throw _ => vt_certs v' = vt_certs v /\
      (nd_running (vt_node v') = nd_running (vt_node v) \/ nd_running (vt_node v') = active_files (nd_files (vt_node v)))
  end.
Proof.
  unfold activate_pair, and_then, unless, update_state. destruct (reload_server v) as [r1 v1] eqn:E.
  apply reload_server_spec in E as (Hc & Hn & Hd & _ & _ & Hf & Hh & Hr).
  destruct r1 as [u|e]; [destruct Hr as [Hv Hr]; destruct (xf_patch f); intros [= <- <-]|intros [= <- <-]];
    cbn; rewrite ?Hc, ?Hn, ?Hd, ?Hf, ?Hh, ?Hr; by auto 8.
Qed.

(** The state of the directories when the new one is in place. *)
Definition swapped d (D B : string) files : dirs := <[D := files]> (aside B (d !! D) (delete D d)).

Lemma swap_outcome f D S B id g files d v r v' : D <> S -> D <> B -> S <> B -> d !! S = None -> d !! B = None -> vt_dirs v = <[S := files]> d ->
  swap_dirs f D S B (activate_pair f id g) v = (r, v') ->
  vt_next v' = vt_next v /\ nd_files (vt_node v') = nd_files (vt_node v) /\ nd_hosts (vt_node v') = nd_hosts (vt_node v) /\
  match r with
  | Ok hadPrevious => hadPrevious = (match d !! D with Some _ => true | None => false end) /\ vt_dirs v' = swapped d D B files /\
      vt_certs v' = patch_where (fun c => ct_id c =? id) g (vt_certs v) /\
      tls_verdict (active_files (nd_files (vt_node v))) (swapped d D B files) = None /\ nd_running (vt_node v') = active_files (nd_files (vt_node v))
  | Throw _ => delete S (vt_dirs v') = d /\ vt_certs v' = vt_certs v /\
      (nd_running (vt_node v') = nd_running (vt_node v) \/ nd_running (vt_node v') = active_files (nd_files (vt_node v)))
  end.
Proof.
  intros HDS HDB HSB HS HB Hv. unfold swap_dirs, read_state, and_then at 1 2 3, unless, change_dirs, update_state.
  destruct (xf_backup f) as [e|]; [intros [= <- <-]; rewrite Hv; split_and!; [done..| |done|by left]; by apply delete_insert_id|].
  set (w := set_dirs _ v).
  assert (vt_dirs w = <[S := files]> (aside B (d !! D) (delete D d))) as Hw by (unfold w; cbn; rewrite Hv; by apply moved_aside).
  assert ((match vt_dirs v !! D with Some _ => true | None => false end) = match d !! D with Some _ => true | None => false end) as -> by (by rewrite Hv, lookup_insert_ne).
  pose proof (aside_lookup d D S B HDS HSB HS) as HA. pose proof (aside_back d D B HDB HB) as Hback.
  unfold and_then at 1. destruct (xf_install f) as [e|].
  - destruct (undo_swap false _ D B e w) as [r1 w1] eqn:E. apply undo_swap_spec in E as (-> & Hd & Hc & Hn & Hf & Hh & Hr).
    intros [= <- <-]. split_and!; [done..| |done|done]. rewrite <- Hd, Hw. unfold rename_dir in *.
    destruct (d !! D); cbn in *; [|by rewrite delete_insert_id].
    rewrite lookup_insert_ne, lookup_insert_eq by done. rewrite lookup_insert_eq in Hback.
    rewrite (delete_insert_ne _ B S) by done. rewrite insert_insert_ne by done. rewrite Hback. by apply delete_insert_id.
  - unfold and_then at 1, catching. set (w2 := set_dirs _ w).
    assert (vt_dirs w2 = swapped d D B files) as Hw2 by (change (vt_dirs w2) with (rename_dir S D (vt_dirs w)); rewrite Hw; by apply moved_in).
    destruct (activate_pair f id g w2) as [r2 w3] eqn:E. apply activate_outcome in E as (Hd3 & Hn3 & Hf3 & Hh3 & Hr3).
    destruct r2 as [u|e].
    + intros [= <- <-]. destruct Hr3 as (Hc & Hvd & Hr). rewrite Hw2 in Hvd. split_and!; try done. congruence.
    + destruct Hr3 as [Hc3 Hr3]. destruct (undo_swap true _ D B e w3) as [r4 w4] eqn:E4. apply undo_swap_spec in E4 as (-> & Hd & Hc & Hn & Hf & Hh & Hr).
      intros [= <- <-]. rewrite Hn, Hf, Hh, Hc, Hn3, Hf3, Hh3, Hc3. split_and!; try done.
      * rewrite <- Hd, Hd3, Hw2. unfold swapped. rewrite delete_insert_id.
        -- destruct (d !! D) eqn:ED; rewrite Hback; by apply delete_id.
        -- unfold aside. destruct (d !! D); [rewrite lookup_insert_ne by done|]; apply lookup_delete_eq.
      * rewrite Hf3 in Hr. destruct Hr as [->| ->]; [exact Hr3|by right].
Qed.

Lemma write_outcome f suffix uuid c chain key (g : certificate -> certificate) v r v' :
  let D := custom_dir (ct_id c) in let S := (D ++ ".staging-" ++ suffix)%string in let B := (D ++ ".backup-" ++ uuid)%string in
  ct_provider c = "other" -> vt_dirs v !! S = None -> vt_dirs v !! B = None ->
  writeCustomCert f suffix uuid c chain key (activate_pair f (ct_id c) g) v = (r, v') ->
  match r with
  | Ok _ => installed (ct_id c) chain key B g v v'
  | Throw _ => undisturbed v v'
  end.
Proof.
  intros D S B Hp HS HB. 
  assert (D <> S /\ D <> B /\ S <> B) as (HDS & HDB & HSB).
  { unfold S, B. split_and!; [by apply longer..|]. by intros Heq%append_inj_r. }
  unfold writeCustomCert. rewrite Hp. cbn [String.eqb Ascii.eqb Bool.eqb orb]. fold D. fold S. fold B.
  unfold and_then at 1 2 3, change_dirs, update_state, unless.
  destruct (xf_write f) as [e|].
  { intros [= <- <-]. cbn. assert (delete S (<[S := ∅]> (vt_dirs v)) = vt_dirs v) as Hd by by apply delete_insert_id.
    constructor; cbn; auto. }
  set (w := set_dirs _ (set_dirs _ v)).
  assert (vt_dirs w = <[S := pair_files chain key]> (vt_dirs v)) as Hw by apply insert_insert_eq.
  destruct (swap_dirs _ _ _ _ _ w) as [r1 w1] eqn:E.
  apply (swap_outcome f D S B _ _ _ _ _ _ _ HDS HDB HSB HS HB Hw) in E as (Hn & Hf & Hh & Hr).
  destruct r1 as [hadPrevious|e]; intros [= <- <-].
  - destruct Hr as (Hp1 & Hd & Hc & Hv & Hru).
    assert (delete S (swapped (vt_dirs v) D B (pair_files chain key)) = swapped (vt_dirs v) D B (pair_files chain key)) as HdS.
    { apply delete_id. unfold swapped. rewrite lookup_insert_ne by done. by apply aside_lookup. }
    pose proof (aside_dropped (vt_dirs v) D B (pair_files chain key) HDB HB) as HdB. fold (swapped (vt_dirs v) D B (pair_files chain key)) in HdB.
    set (v' := if hadPrevious then _ else _).
    assert (vt_dirs v' = <[D := pair_files chain key]> (vt_dirs v) /\ vt_certs v' = vt_certs w1 /\ vt_next v' = vt_next w1 /\ vt_node v' = vt_node w1) as (Hd' & Hc' & Hn' & Ho').
    { split; [|by unfold v'; destruct hadPrevious]. rewrite <- HdB.
      assert (vt_dirs v' = if hadPrevious then delete B (delete S (vt_dirs w1)) else delete S (vt_dirs w1)) as -> by (unfold v'; by destruct hadPrevious).
      rewrite Hp1, Hd, HdS. unfold swapped. destruct (vt_dirs v !! D) as [old|] eqn:ED; [done|]. unfold aside. rewrite delete_insert_ne by done. by rewrite (delete_id _ B) by (rewrite lookup_delete_ne by done; done). }
    constructor; rewrite ?Hc', ?Hn', ?Ho'; try done; [|by rewrite Hru, Hf].
    exists (swapped (vt_dirs v) D B (pair_files chain key)). split; [by rewrite Hd'|]. by rewrite Hf.
  - destruct Hr as (Hd & Hc & Hru). constructor; done.
Qed.

Lemma get_certificate_spec who id v c : get_certificate who id v = Ok c -> In c (vt_certs v) /\ ct_id c = id /\ ct_deleted c = false.
Proof.
  unfold get_certificate. destruct (rq_can who _) as [all|]; [|done]. cbn [rbind]. destruct (first_where _ _) as [x|] eqn:E; [|done].
  intros [= <-]. apply first_where_Some in E as [Hin Hb]. unfold live_cert in Hb. apply andb_true_iff in Hb as [[Hid Hd]%andb_true_iff _].
  split; [done|]. by boolify.
Qed.

Lemma validate_certificate now files info : validate now files = Ok (Some info) -> exists t, fl_certificate files = Some (One t).
Proof.
  unfold validate. destruct (fl_certificate files) as [[|t]|]; cbn; [done|eauto|].
  destruct (file_text _ (fl_key files)) as [k|]; [|done]. cbn. destruct (file_text _ (fl_intermediate files)) as [i|]; [|done]. cbn.
  destruct (match k with Some k => checkPrivateKey k | None => Ok tt end); [|done]. cbn. by destruct (match i with Some t => _ | None => _ end).
Qed.

Lemma checked_pair_spec m certificate key : checked_pair m = Ok (certificate, key) ->
  cm_key m = Some key /\ certificate = (match cm_certificate m with Some t => t | None => "" end) /\ checkPair certificate key = Ok true.
Proof.
  unfold checked_pair. destruct (cm_key m) as [[|a k]|]; [done| |done]. destruct (checkPair _ _) as [[]|] eqn:E; cbn; [|done..]. by intros [= <- <-].
Qed.

Lemma log_audit_outcome f what id v r v' : log_audit f what id v = (r, v') ->
  vt_certs v' = vt_certs v /\ vt_next v' = vt_next v /\ vt_dirs v' = vt_dirs v /\ vt_node v' = vt_node v.
Proof. unfold log_audit, and_then, unless, update_state. destruct (xf_audit f); by intros [= <- <-]. Qed.

Lemma upload_outcome who now f suffix uuid id files v r v' :
  vt_dirs v !! (custom_dir id ++ ".staging-" ++ suffix)%string = None -> vt_dirs v !! (custom_dir id ++ ".backup-" ++ uuid)%string = None ->
  upload who now f suffix uuid id files v = (r, v') ->
  (exists row info certificate key,
     In row (vt_certs v) /\ ct_id row = id /\ ct_provider row = "other" /\ ct_deleted row = false /\ validate now files = Ok (Some info) /\
     let m := merge_uploads files (ct_meta row) in
     cm_key m = Some key /\ cm_certificate m = Some certificate /\ checkPair certificate key = Ok true /\
     installed id (full_chain certificate (cm_intermediate m)) key (custom_dir id ++ ".backup-" ++ uuid)%string (with_upload info m) v v') \/
  (undisturbed v v' /\ is_ok r = false).
Proof.
  intros HS HB. unfold upload, of_result, query. unfold and_then at 1. destruct (rq_can who "certificates:update"); [|intros [= <- <-]; right; by split; [apply undisturbed_refl|]].
  unfold and_then at 1. destruct (get_certificate who id v) as [row|e] eqn:Eg; [|intros [= <- <-]; right; by split; [apply undisturbed_refl|]].
  apply get_certificate_spec in Eg as (Hin & Hid & Hlive). subst id.
  unfold and_then at 1. destruct (String.eqb_spec (ct_provider row) "other") as [Hp|Hp]; cbn [negb]; [|intros [= <- <-]; right; by split; [apply undisturbed_refl|]].
  unfold and_then at 1. destruct (validate now files) as [[info|]|e] eqn:Ev; [|intros [= <- <-]; right; by split; [apply undisturbed_refl|]..].
  unfold and_then at 1. destruct (checked_pair _) as [[certificate key]|e] eqn:Ec; [|intros [= <- <-]; right; by split; [apply undisturbed_refl|]].
  apply checked_pair_spec in Ec as (Hk & Hc & Hpair). cbn [fst snd]. fold (activate_pair f (ct_id row) (with_upload info (merge_uploads files (ct_meta row)))).
  assert (cm_certificate (merge_uploads files (ct_meta row)) = Some certificate) as Hcert.
  { destruct (validate_certificate _ _ _ Ev) as [t Ht]. rewrite Hc. cbn. by rewrite Ht. }
  unfold and_then at 1. destruct (writeCustomCert _ _ _ _ _ _ _ _) as [r1 v1] eqn:E.
  apply (write_outcome f suffix uuid row _ _ _ v r1 v1 Hp HS HB) in E. destruct r1 as [u|e]; [|intros [= <- <-]; by right].
  intros Heq. left. exists row, info, certificate, key. split_and!; try done.
  unfold and_then in Heq. destruct (log_audit f "updated" (ct_id row) v1) as [r2 v2] eqn:El.
  apply log_audit_outcome in El as (Hc2 & Hn2 & Hd2 & Ho2). assert (v' = v2) as -> by (destruct r2; by injection Heq).
  destruct E. constructor; rewrite ?Hc2, ?Hn2, ?Hd2, ?Ho2; done.
Qed.

(** C11: Uploading a certificate is all or nothing.  Either the directory of the
    certificate holds exactly the new chain and key, which belong to a pair that
    was checked, the server has accepted its configuration with them and loaded
    it, the row describes them and no other row or directory has changed; or
    rows, directories, files and hosts are all as they were.  A normal return
    means the first. *)
Theorem upload_replaces_the_pair_or_nothing who now f suffix uuid id files v r v' :
  vt_dirs v !! (custom_dir id ++ ".staging-" ++ suffix)%string = None -> vt_dirs v !! (custom_dir id ++ ".backup-" ++ uuid)%string = None ->
  upload who now f suffix uuid id files v = (r, v') ->
  (exists row info certificate key,
     In row (vt_certs v) /\ ct_id row = id /\ ct_provider row = "other" /\ ct_deleted row = false /\ validate now files = Ok (Some info) /\
     let m := merge_uploads files (ct_meta row) in
     cm_key m = Some key /\ cm_certificate m = Some certificate /\ checkPair certificate key = Ok true /\
     installed id (full_chain certificate (cm_intermediate m)) key (custom_dir id ++ ".backup-" ++ uuid)%string (with_upload info m) v v') \/
  (undisturbed v v' /\ is_ok r = false).
Proof. apply upload_outcome. Qed.
End Uploads.

(** ** Deletion *)

Section Deletion.
Context {X : Type} `{Toolbox X}.
Implicit Types (v : vault X) (c : certificate).

Definition cert_dir c : string :=
  if String.eqb (ct_provider c) "letsencrypt" then getLiveCertPath (ct_id c)
  else if String.eqb (ct_provider c) "internal" then internal_dir (ct_id c) else custom_dir (ct_id c).

(** Hosts and files as a run of the cleanup with this result leaves them. *)
Definition cleaned_vault (now : Z) (active : list Z) (r : fallible unit) v v' : Prop :=
  @cleaned X (server_env (vt_dirs v)) now active r (vt_node v) (vt_node v').

Lemma same_cleaned now active e v : cleaned_vault now active (Throw e) v v.
Proof.
  split_and!; [|done|by left]. apply rows_start. intros _ h. split; [apply kept_self|]. split; [done|by left].
Qed.

Lemma cleanup_spec now f v r v' : keyed (vt_node v) -> cleanup now f v = (r, v') ->
  vt_certs v' = vt_certs v /\ vt_next v' = vt_next v /\ vt_dirs v' = vt_dirs v /\ cleaned_vault now (active_ids v) r v v'.
Proof.
  intros Hk. unfold cleanup, and_then, unless, read_state, on_server. destruct (xf_list f) as [e|]; [intros [= <- <-]; split_and!; [done..|apply same_cleaned]|].
  destruct (@cleanUpMissingCertificates _ _ _ _ _ _) as [r1 n1] eqn:E. intros [= <- <-]. split_and!; [done..|].
  by eapply (@cleanup_outcome X (server_env (vt_dirs v))).
Qed.

Lemma mark_back (certs : list certificate) id c : List.NoDup (map ct_id certs) -> In c certs -> ct_id c = id -> ct_deleted c = false ->
  patch_where (fun x => ct_id x =? id) (mark false) (patch_where (fun x => ct_id x =? id) (mark true) certs) = certs.
Proof.
  intros Hnd Hin Hid Hd. unfold patch_where. rewrite map_map. rewrite <- (map_id certs) at 2. apply map_ext_in. intros x Hx.
  destruct (ct_id x =? id) eqn:E; [|by rewrite E]. cbn. rewrite E. apply Z.eqb_eq in E.
  assert (x = c) as -> by (apply (key_unique ct_id certs); [done..|congruence]). destruct c. cbn in *. by subst.
Qed.

Lemma detach_spec now f id c v r v' : keyed (vt_node v) -> List.NoDup (map ct_id (vt_certs v)) -> In c (vt_certs v) -> ct_id c = id -> ct_deleted c = false ->
  detachCertificate now f id v = (r, v') ->
  vt_next v' = vt_next v /\ vt_dirs v' = vt_dirs v /\
  exists active, ~ In id active /\ cleaned_vault now active r v v' /\
  match r with
  | Ok _ => vt_certs v' = patch_where (fun x => ct_id x =? id) (mark true) (vt_certs v) /\ active = active_ids v'
  | Throw _ => vt_certs v' = vt_certs v
  end.
Proof.
  intros Hk Hnd Hin Hid Hd. unfold detachCertificate, and_then, unless, update_state, catching, throws.
  destruct (xf_mark f) as [e|]; [intros [= <- <-]; split_and!; [done..|]; exists []; split_and!; [by intros []|apply same_cleaned|done]|].
  set (w := patch_cert id (mark true) v). destruct (cleanup now f w) as [r1 w1] eqn:E.
  apply cleanup_spec in E as (Hc & Hn & Hdir & Hcl); [|done].
  assert (~ In id (active_ids w)) as Hni.
  { unfold active_ids. intros (x & Hx & Hs)%in_map_iff. apply in_select in Hs as [Hx2 Hlive].
    apply in_patch in Hx2 as [(x0 & _ & _ & ->)|[_ Hne]]; [done|]. apply Z.eqb_neq in Hne. done. }
  destruct r1 as [u|e]; intros [= <- <-]; cbn; rewrite ?Hc, ?Hn, ?Hdir; (split_and!; [done..|]); exists (active_ids w); (split; [done|]); (split; [exact Hcl|]).
  - split; [done|]. unfold active_ids. by rewrite Hc.
  - by eapply mark_back.
Qed.

(** What an attempt to remove a certificate leaves behind. *)
Definition removed_or_kept (now : Z) c (ok : bool) v v' : Prop :=
  (vt_certs v' = vt_certs v /\ vt_dirs v' = vt_dirs v /\ ok = false /\ exists active e, cleaned_vault now active (Throw e) v v') \/
  (vt_certs v' = patch_where (fun x => ct_id x =? ct_id c) (mark true) (vt_certs v) /\ cleaned_vault now (active_ids v') (Ok tt) v v' /\
   ~ In (ct_id c) (active_ids v') /\
   (vt_dirs v' = vt_dirs v /\ ok = false \/ vt_dirs v' = delete (cert_dir c) (vt_dirs v))).

Lemma kept now c v : removed_or_kept now c false v v.
Proof. left. split_and!; [done..|]. exists [], (NativeError ""). apply same_cleaned. Qed.

(** Removing the files once the hosts are detached. *)
Lemma remove_files now f c v v1 r2 v2 fault : detachCertificate now f (ct_id c) v = (Ok tt, v1) -> keyed (vt_node v) ->
  List.NoDup (map ct_id (vt_certs v)) -> In c (vt_certs v) -> ct_deleted c = false ->
  and_then (unless fault) (fun _ => change_dirs (delete (cert_dir c))) v1 = (r2, v2) -> removed_or_kept now c (is_ok r2) v v2.
Proof.
  intros E Hk Hnd Hin Hd. apply (detach_spec now f (ct_id c) c) in E as (Hn & Hdir & active & Hni & Hcl & Hc & ->); [|done..].
  unfold and_then, unless, change_dirs, update_state. destruct fault; intros [= <- <-]; right; cbn.
  - split; [done|]. split; [exact Hcl|]. split; [done|]. by left.
  - split; [done|]. split; [exact Hcl|]. split; [done|]. right. by rewrite Hdir.
Qed.

Lemma remove_outcome now f c v r v' : keyed (vt_node v) -> List.NoDup (map ct_id (vt_certs v)) -> In c (vt_certs v) -> ct_deleted c = false ->
  remove_certificate now f c v = (r, v') -> removed_or_kept now c (is_ok r) v v'.
Proof.
  intros Hk Hnd Hin Hd. unfold remove_certificate.
  assert (forall w e w1, vt_certs w = vt_certs v -> vt_dirs w = vt_dirs v -> vt_node w = vt_node v ->
    detachCertificate now f (ct_id c) w = (Throw e, w1) -> removed_or_kept now c false v w1) as Hfail.
  { intros w e w1 Hc Hdd Ho E. apply (detach_spec now f (ct_id c) c) in E as (Hn & Hdir & active & _ & Hcl & Hcs); [|by rewrite ?Hc, ?Ho..|done|done].
    left. rewrite Hcs, Hdir. split_and!; [done..|]. exists active, e. unfold cleaned_vault in *. by rewrite Hdd, Ho in Hcl. }
  destruct (String.eqb (ct_provider c) "letsencrypt") eqn:Ep.
  - unfold runCertbot. destruct (vt_processing v); [intros [= <- <-]; apply kept|].
    unfold and_then at 1. destruct (detachCertificate _ _ _ _) as [[[]|e] v1] eqn:E.
    + destruct (and_then _ _ v1) as [r2 v2] eqn:E2. intros [= <- <-].
      assert (getLiveCertPath (ct_id c) = cert_dir c) as Hpath by (unfold cert_dir; by rewrite Ep). rewrite Hpath in E2.
      by eapply (remove_files now f c (set_processing true v)) in E2.
    + intros [= <- <-]. by eapply (Hfail (set_processing true v)) in E.
  - unfold and_then at 1. destruct (detachCertificate _ _ _ _) as [[[]|e] v1] eqn:E; [|intros [= <- <-]; by eapply (Hfail v)].
    assert ((if String.eqb (ct_provider c) "internal" then internal_dir (ct_id c) else custom_dir (ct_id c)) = cert_dir c) as -> by (unfold cert_dir; by rewrite Ep).
    intros E2. by eapply remove_files in E2.
Qed.

End Deletion.

(** ** What the custom directories hold *)

(** Going through the steps of an operation that all keep an invariant. *)
Ltac through_steps :=
  repeat first [solve [auto 2 with shield nocore] | apply through_then; [|intros ?] | apply through_catching; [|intros ?]
    | apply through_result | apply through_unless | apply through_done | apply through_throws | apply through_read | apply through_query].

Section Pairs.
Context {X : Type} `{Toolbox X}.
Implicit Types (v : vault X) (c : certificate).

(** The files of a custom certificate, as its row has them. *)
Definition holds_pair (certs : list certificate) (id : Z) (files : gmap string string) : Prop :=
  exists c certificate key, In c certs /\ ct_id c = id /\ ct_provider c = "other" /\
    cm_certificate (ct_meta c) = Some certificate /\ cm_key (ct_meta c) = Some key /\ checkPair certificate key = Ok true /\
    files = pair_files (full_chain certificate (cm_intermediate (ct_meta c))) key.

Record vault_ok v : Prop := {
  vo_ids : List.NoDup (map ct_id (vt_certs v));
  vo_range : forall c, In c (vt_certs v) -> 0 <= ct_id c < vt_next v;
  vo_next : 0 <= vt_next v;
  vo_pairs : forall id files, 0 <= id -> vt_dirs v !! custom_dir id = Some files -> holds_pair (vt_certs v) id files
}.

(** The state matters through its rows and directories only. *)
Lemma ok_same v v' : vt_certs v' = vt_certs v -> vt_next v' = vt_next v -> vt_dirs v' = vt_dirs v -> vault_ok v -> vault_ok v'.
Proof. intros Hc Hn Hd [Hi Hr Hx Hp]. constructor; rewrite ?Hc, ?Hn, ?Hd; done. Qed.

(** Rows of one certificate whose texts may change: those of no custom one. *)
Definition only (id : Z) (P : string -> Prop) v : Prop := forall c, In c (vt_certs v) -> ct_id c = id -> P (ct_provider c).

Lemma ok_patch id (f : certificate -> certificate) v : (forall c, ct_id (f c) = ct_id c /\ ct_provider (f c) = ct_provider c) ->
  (forall c, In c (vt_certs v) -> ct_id c = id -> ct_provider c = "other" -> ct_meta (f c) = ct_meta c) ->
  vault_ok v -> vault_ok (patch_cert id f v).
Proof.
  intros Hf Hm [Hi Hr Hn Hp]. constructor; cbn; [| |done|].
  - rewrite map_patch; [done|]. apply Hf.
  - intros c [(c0 & Hin & _ & ->)|[Hin _]]%in_patch; [rewrite (proj1 (Hf c0))|]; by apply Hr.
  - intros i files Hi0 Hl. destruct (Hp i files Hi0 Hl) as (c & t & k & Hin & Hid & Hpr & Ht & Hk & Hpair & ->).
    destruct (Z.eq_dec i id) as [->|Hne].
    + assert (ct_meta (f c) = ct_meta c) as Hmc by by apply Hm.
      exists (f c), t, k. rewrite (proj1 (Hf c)), (proj2 (Hf c)), Hmc. split_and!; try done.
      apply in_patch. left. exists c. split; [done|]. split; [by apply Z.eqb_eq|done].
    + exists c, t, k. split_and!; try done. apply in_patch. right. split; [done|]. apply Z.eqb_neq. congruence.
Qed.

Lemma ok_dirs (f : dirs -> dirs) v : (forall id d, f d !! custom_dir id = d !! custom_dir id \/ f d !! custom_dir id = None) -> vault_ok v -> vault_ok (set_dirs (f (vt_dirs v)) v).
Proof.
  intros Hf [Hi Hr Hn Hp]. constructor; cbn [vt_certs vt_next vt_dirs set_dirs]; try done. intros id files Hid. destruct (Hf id (vt_dirs v)) as [->| ->]; [|done]. by apply Hp.
Qed.

Lemma keeps_delete path id (d : dirs) : delete path d !! custom_dir id = d !! custom_dir id \/ delete path d !! custom_dir id = None.
Proof. destruct (decide (path = custom_dir id)) as [->|Hne]; [right; apply lookup_delete_eq|left; by apply lookup_delete_ne]. Qed.
Lemma keeps_live i files id (d : dirs) : <[getLiveCertPath i := files]> d !! custom_dir id = d !! custom_dir id \/ <[getLiveCertPath i := files]> d !! custom_dir id = None.
Proof. left. apply lookup_insert_ne, live_custom. Qed.
Lemma keeps_internal i files id (d : dirs) : <[internal_dir i := files]> d !! custom_dir id = d !! custom_dir id \/ <[internal_dir i := files]> d !! custom_dir id = None.
Proof. left. apply lookup_insert_ne, internal_custom. Qed.

(** What an operation on certificate [id] keeps: the state is in order, and the
    certificate is of a kind that has no custom directory. *)
Definition managed (id : Z) v : Prop := vault_ok v /\ only id (fun p => p <> "other") v.

Lemma through_server {A} (P : vault X -> Prop) (m : NginxEnv (tls X) -> action (tls X) A) : (forall n v, P v -> P (set_vault_node n v)) -> through P (on_server m).
Proof. intros Hp v r v' Hv. unfold on_server. destruct (m _ _) as [r1 n1]. intros [= <- <-]. by apply Hp. Qed.

Lemma ok_server {A} (m : NginxEnv (tls X) -> action (tls X) A) : through vault_ok (on_server m).
Proof. apply through_server. intros n v. by apply (ok_same v). Qed.
Lemma managed_server {A} id (m : NginxEnv (tls X) -> action (tls X) A) : through (managed id) (on_server m).
Proof. apply through_server. intros n v [Hok Ho]. split; [by apply (ok_same v)|done]. Qed.

Lemma ok_change f : (forall id d, f d !! custom_dir id = d !! custom_dir id \/ f d !! custom_dir id = None) -> through vault_ok (change_dirs f).
Proof. intros Hf. apply through_update. intros v. by apply ok_dirs. Qed.
Lemma managed_change id f : (forall id d, f d !! custom_dir id = d !! custom_dir id \/ f d !! custom_dir id = None) -> through (managed id) (change_dirs f).
Proof. intros Hf. apply through_update. intros v [Hok Ho]. split; [by apply ok_dirs|done]. Qed.

Lemma ok_certbot (P : vault X -> Prop) f prepare work : (forall b v, P v -> P (set_processing b v)) -> through P prepare -> through P work -> through P (runCertbot f prepare work).
Proof.
  intros Hb Hpr Hw v r v' Hv. unfold runCertbot. destruct (vt_processing v); [by intros [= <- <-]|].
  destruct (and_then prepare _ _) as [r1 v1] eqn:E. intros [= <- <-]. apply Hb.
  assert (through P (do* _ := prepare in do* _ := unless (xf_certbot f) in work)) as Ht by (through_steps; done). eapply Ht; [|exact E]. by apply Hb.
Qed.
Lemma ok_processing b v : vault_ok v -> vault_ok (set_processing b v).
Proof. by apply (ok_same v). Qed.
Lemma managed_processing id b v : managed id v -> managed id (set_processing b v).
Proof. intros [Hok Ho]. split; [by apply (ok_same v)|done]. Qed.
Lemma ok_audit f what id : through vault_ok (log_audit f what id).
Proof. intros v r v' Hok (Hc & Hn & Hd & _)%log_audit_outcome. by apply (ok_same v). Qed.
Lemma managed_audit f what i id : through (managed id) (log_audit f what i).
Proof. intros v r v' [Hok Ho] (Hc & Hn & Hd & _)%log_audit_outcome. split; [by apply (ok_same v)|]. unfold only. by rewrite Hc. Qed.
End Pairs.
#[export] Hint Resolve ok_server managed_server ok_change managed_change ok_processing managed_processing ok_audit managed_audit keeps_delete keeps_live keeps_internal : shield.

Section Custom.
Context {X : Type} `{Toolbox X}.
Implicit Types (v : vault X) (c : certificate).

Lemma managed_patch id (f : certificate -> certificate) : (forall c, ct_id (f c) = ct_id c /\ ct_provider (f c) = ct_provider c) ->
  through (managed (X := X) id) (update_state (patch_cert id f)).
Proof.
  intros Hf. apply through_update. intros v [Hok Ho]. split.
  - apply ok_patch; [done| |done]. intros c Hin Hid Hp. by destruct (Ho c Hin Hid).
  - intros c Hin Hid. cbn in Hin. apply in_patch in Hin as [(c0 & Hin & _ & ->)|[Hin _]]; [|by apply Ho].
    destruct (Hf c0) as [Hi Hp]. rewrite Hp. apply Ho; congruence.
Qed.

Lemma managed_drop id v : managed id v -> managed id (set_certs (delete_where (fun x => ct_id x =? id) (vt_certs v)) v).
Proof.
  intros [[Hi Hr Hn Hp] Ho]. split; [constructor; cbn [vt_certs vt_next vt_dirs set_certs]|].
  - by apply NoDup_map_delete.
  - intros c [Hin _]%in_delete. by apply Hr.
  - done.
  - intros i files Hi0 Hl. destruct (Hp i files Hi0 Hl) as (c & t & k & Hin & Hid & Hpr & Hrest).
    exists c, t, k. split_and!; try done; try apply Hrest. apply in_delete. split; [done|]. apply Z.eqb_neq. intros Heq. by apply (Ho c).
  - intros c [Hin _]%in_delete. by apply Ho.
Qed.

(** *** Each operation *)

Lemma then_read {A C} (f : vault X -> A) (k : A -> step (vault X) C) v : and_then (read_state f) k v = k (f v) v.
Proof. done. Qed.
Lemma then_update {C} f (k : unit -> step (vault X) C) v : and_then (update_state f) k v = k tt (f v).
Proof. done. Qed.

Lemma managed_then {A} id (m : step (vault X) A) v r v' : through (managed id) m -> managed id v -> m v = (r, v') -> vault_ok v'.
Proof. intros Hm Hv Heq. by apply (Hm v r v' Hv). Qed.

Lemma ok_cleanup now f : through (vault_ok (X := X)) (cleanup now f).
Proof. unfold cleanup. through_steps. Qed.

Lemma ok_mark id b : through (vault_ok (X := X)) (update_state (patch_cert id (mark b))).
Proof. apply through_update. intros v. by apply ok_patch. Qed.
Hint Resolve ok_mark ok_cleanup : shield.

Lemma ok_detach now f id : through (vault_ok (X := X)) (detachCertificate now f id).
Proof. unfold detachCertificate. through_steps. Qed.

Lemma ok_delete who now f id : through (vault_ok (X := X)) (delete_certificate who now f id).
Proof.
  pose proof (ok_detach now f). unfold delete_certificate, remove_certificate. through_steps.
  destruct (String.eqb _ _); [apply ok_certbot; [intros b v; apply ok_processing|done|]|through_steps];
    apply ok_change; intros; apply keeps_delete.
Qed.

Lemma managed_info id now dir : through (managed (X := X) id) (info_of_file now dir).
Proof. unfold info_of_file. through_steps. Qed.

Lemma managed_obtain id f (files : fallible (gmap string string)) : through (managed (X := X) id)
  (runCertbot f (done_with tt) (do* x := of_result files in change_dirs (<[getLiveCertPath id := x]>))).
Proof.
  apply ok_certbot; [intros b v; apply managed_processing|through_steps|through_steps].
Qed.

Lemma managed_issue now f c : ct_provider c <> "other" -> through (managed (X := X) (ct_id c)) (issue now f c).
Proof.
  intros Hp. unfold issue. destruct (String.eqb (ct_provider c) "letsencrypt"); [|destruct (String.eqb (ct_provider c) "internal"); [|through_steps]];
    through_steps; try apply managed_obtain; try apply managed_info; try by apply managed_patch.
Qed.

Lemma ok_insert v c : ct_id c = vt_next v -> vault_ok v -> vault_ok (insert_cert c v).
Proof.
  intros Hid [Hi Hr Hn Hp]. constructor; cbn [vt_certs vt_next vt_dirs insert_cert].
  - apply key_fresh_app; [done|]. intros (x & Heq & Hin)%in_map_iff. specialize (Hr x Hin). lia.
  - intros x [Hin|[<-|[]]]%in_app_iff; [specialize (Hr x Hin)|]; lia.
  - lia.
  - intros i files Hi0 Hl. destruct (Hp i files Hi0 Hl) as (x & t & k & Hin & Hrest). exists x, t, k. split; [|done]. apply in_app_iff. by left.
Qed.

Lemma ok_create who now f data : through (vault_ok (X := X)) (create_certificate who now f data).
Proof.
  unfold create_certificate. apply through_then; [apply through_result|intros _]. apply through_then; [apply through_result|intros _].
  intros v r v' Hok. rewrite then_read, then_update.
  set (c := MkCert _ _ _ _ _ _ _ _). assert (vault_ok (insert_cert c v)) as Hok1 by by apply ok_insert.
  assert (forall m : step (vault X) unit, through vault_ok m -> through vault_ok (do* _ := m in do* _ := log_audit f "created" (vt_next v) in done_with (vt_next v))) as Htail
    by (intros m Hm; through_steps; done).
  destruct (String.eqb_spec (nw_provider data) "letsencrypt") as [Hl|Hl]; [|destruct (String.eqb_spec (nw_provider data) "internal") as [Hn|Hn]].
  3: { apply Htail; [|done]. unfold issue. change (ct_provider c) with (nw_provider data).
       destruct (String.eqb_spec (nw_provider data) "letsencrypt"), (String.eqb_spec (nw_provider data) "internal"); try done. 
       intros w rr w' Hw. cbn. by intros [= <- <-]. }
  all: assert (managed (vt_next v) (insert_cert c v)) as Hm;
    [split; [done|]; intros x [Hin|[<-|[]]]%in_app_iff Hid; [pose proof (vo_range _ Hok x Hin); lia|cbn; congruence]|].
  all: apply managed_then with (id := vt_next v); [|done]; pose proof (managed_issue now f c) as Hissue;
    through_steps; try (apply Hissue; cbn; congruence); try (apply through_update, managed_drop).
  rewrite Hl. cbn [String.eqb]. through_steps.
Qed.

Lemma ok_renew who now f id : through (vault_ok (X := X)) (renew who now f id).
Proof.
  unfold renew. apply through_then; [apply through_result|intros _]. intros v r v' Hok. unfold and_then at 1, query.
  destruct (get_certificate who id v) as [c|e] eqn:Eg; [|by intros [= <- <-]]. apply get_certificate_spec in Eg as (Hin & Hid & _).
  destruct (String.eqb_spec (ct_provider c) "letsencrypt") as [Hp|Hp]; [|by intros [= <- <-]].
  assert (managed id v) as Hm.
  { split; [done|]. intros x Hx Hxid. by rewrite (key_unique ct_id (vt_certs v) x c) by (try apply Hok; try done; congruence); rewrite Hp. }
  apply managed_then with (id := id); [|done].
  through_steps; try apply managed_obtain; try apply managed_info; first [by apply managed_patch|apply managed_server].
Qed.

Lemma ok_update who f id p : pt_meta p = None -> through (vault_ok (X := X)) (update_certificate who f id p).
Proof.
  intros Hp. unfold update_certificate. through_steps. apply through_update. intros v. apply ok_patch; [done|].
  intros c _ _ _. cbn. by rewrite Hp.
Qed.

(** An upload puts a pair in place that fits the row. *)
Lemma ok_upload who now f suffix uuid id files v r v' : new_names (RUpload suffix uuid id files) v -> vault_ok v ->
  upload who now f suffix uuid id files v = (r, v') -> vault_ok v'.
Proof.
  intros [HS HB] Hok Heq. pose proof Hok as [Hi Hr Hn Hp].
  destruct (upload_outcome _ _ _ _ _ _ _ _ _ _ HS HB Heq) as [(row & info & t & k & Hin & Hid & Hpr & _ & _ & Hk & Ht & Hpair & [Hc Hnx Hd _ _ _ _])|[[Hc Hnx Hd _ _ _] _]].
  2: { by apply (ok_same v). }
  set (m := merge_uploads files (ct_meta row)) in *. constructor.
  - rewrite Hc, map_patch; [done|]. done.
  - intros c Hx. rewrite Hc in Hx. rewrite Hnx. apply in_patch in Hx as [(c0 & Hx & _ & ->)|[Hx _]]; [cbn|]; by apply Hr.
  - lia.
  - intros i x Hi0 Hl. rewrite Hd in Hl. destruct (Z.eq_dec i id) as [->|Hne].
    + rewrite lookup_insert_eq in Hl. injection Hl as <-. exists (with_upload info m row), t, k. split_and!; try done.
      rewrite Hc. apply in_patch. left. exists row. split; [done|]. split; [by apply Z.eqb_eq|done].
    + assert (0 <= id) as Hid0 by (rewrite <- Hid; by apply Hr). rewrite lookup_insert_ne in Hl by (intros Hx; by apply custom_dir_inj in Hx).
      destruct (Hp i x Hi0 Hl) as (c & t' & k' & Hcin & Hcid & Hrest). exists c, t', k'. split; [|done].
      rewrite Hc. apply in_patch. right. split; [done|]. apply Z.eqb_neq. congruence.
Qed.

Lemma certificate_step_ok v v' : certificate_step keeps_metadata v v' -> vault_ok v -> vault_ok v'.
Proof.
  assert (forall A (m : step (vault X) A), through vault_ok m -> through vault_ok (forget m)) as Hforget by (intros A m Hm; unfold forget; through_steps; done).
  intros Hs Hok. destruct Hs as [who now f r v Hall Hn|b v|c files v _ _|n v].
  - destruct r as [data|suffix uuid id files|id|id|id provider name|id p|]; cbn [handle].
    + eapply (Hforget _ _ (ok_create who now f data) v); [done|apply surjective_pairing].
    + unfold forget, and_then. destruct (upload who now f suffix uuid id files v) as [r1 v1] eqn:E.
      eapply ok_upload in E; [|done..]. by destruct r1.
    + eapply (Hforget _ _ (ok_delete who now f id) v); [done|apply surjective_pairing].
    + eapply (Hforget _ _ (ok_renew who now f id) v); [done|apply surjective_pairing].
    + eapply (ok_update who f id (MkCertPatch provider None None name None None None) eq_refl v); [done|apply surjective_pairing].
    + eapply (ok_update who f id p Hall v); [done|apply surjective_pairing].
    + eapply (ok_cleanup now f v); [done|apply surjective_pairing].
  - by apply ok_processing.
  - apply (ok_dirs (<[getLiveCertPath (ct_id c) := files]>)); [|done]. intros. apply keeps_live.
  - by apply (ok_same v).
Qed.

(** C10: At every moment of every history of requests, failures, renewals and
    edits of hosts, what lies in the directory of a custom certificate is the
    chain and the key that its row has, and they are a pair that was checked;
    a directory without a row, a chain beside the key of another upload, or
    half of a pair is never left behind, and no number is given twice.  The one
    exception is the tool of the assistant: it writes any column it is told to,
    and where it writes the metadata the row no longer tells what lies there
    (assistant_breaks_the_pair), so such requests are left out. *)
Theorem custom_certificates_always_match v0 v id files :
  vt_certs v0 = [] -> 0 <= vt_next v0 -> (forall i, 0 <= i -> vt_dirs v0 !! custom_dir i = None) ->
  rtc (certificate_step keeps_metadata) v0 v -> 0 <= id ->
  List.NoDup (map ct_id (vt_certs v)) /\ (vt_dirs v !! custom_dir id = Some files -> holds_pair (vt_certs v) id files).
Proof.
  intros Hc Hn Hd Hr Hid. assert (vault_ok v) as [Hi _ _ Hp].
  { assert (vault_ok v0) as Hok by (constructor; rewrite ?Hc; [constructor|by intros ? []|done|]; intros i x Hi Hl; by rewrite (Hd i Hi) in Hl).
    clear Hc Hn Hd. induction Hr as [|v1 v2 v3 Hs _ IH]; [done|]. apply IH. by apply (certificate_step_ok v1). }
  split; [done|]. by apply Hp.
Qed.
End Custom.

(** ** A concrete store *)

Module DemoCertificateStore.
Definition demo_info : cert_info := MkInfo (Some "example.org") ["example.org"; "www.example.org"] 0 1000.
#[export] Instance demo_tools : Toolbox string := {|
  openssl := fun t => if starts_with "cert " t then Ok demo_info else Throw (NativeError "no start line");
  createPrivateKey := fun _ => Ok tt;
  checkPair := fun t k => Ok (String.eqb t ("cert " ++ k)%string);
  certbot_obtain := fun c => Ok {["fullchain.pem" := "cert " +:+ show_Z (ct_id c)]};
  pki_lead := fun c => Ok {["fullchain.pem" := "cert pki"]};
  tls_render := fun _ _ h => Ok (DemoCertificateHosts.rendered_text h);
  tls_verdict := fun t _ => if decide (map_Exists (fun _ c => c = "plain bad") t) then Some "test failed" else None
|}.
Definition admin : requester := MkRequester (fun _ => Ok true) 1.
Definition no_meta : cert_meta := MkCertMeta None None None false None None.
Definition demo_vault (rest : string) : vault string := MkVault [] 7 ∅ (DemoCertificateHosts.demo_node rest) false [].
Definition own : new_cert := MkNewCert "other" "own" [] no_meta.
Definition encrypted : new_cert := MkNewCert "letsencrypt" "" ["example.org"] no_meta.
Definition demo_files : upload_files := MkUploads (Some (One "cert k")) (Some (One "k")) None.

Definition created (data : new_cert) (rest : string) : vault string := snd (handle admin 10 no_cert_faults (RCreate data) (demo_vault rest)).
Definition filled : vault string := snd (handle admin 20 no_cert_faults (RUpload "s" "u" 7 demo_files) (created own "a")).

Lemma upload_witness :
  let '(r, v') := upload admin 20 no_cert_faults "s" "u" 7 demo_files (created own "a") in
  is_ok r = true /\ vt_dirs v' !! custom_dir 7 = Some (pair_files "cert k" "k").
Proof.
  destruct (upload admin 20 no_cert_faults "s" "u" 7 demo_files (created own "a")) as [r v'] eqn:E.
  assert (is_ok r = true) as Hr by (transitivity (is_ok (fst (upload admin 20 no_cert_faults "s" "u" 7 demo_files (created own "a")))); [by rewrite E|vm_compute; reflexivity]).
  split; [exact Hr|].
  destruct (upload_replaces_the_pair_or_nothing admin 20 no_cert_faults "s" "u" 7 demo_files (created own "a") r v')
    as [(row & info & t & k & Hrow & _ & _ & _ & _ & Hk & Ht & _ & Hin)|[_ Hf]]; [reflexivity|reflexivity|exact E| |congruence].
  destruct Hin as [_ _ Hd _ _ _ _]. injection Hk as <-. injection Ht as <-. rewrite Hd, lookup_insert_eq.
  vm_compute in Hrow. destruct Hrow as [<-|[]]. reflexivity.
Defined.


Lemma always_match_witness : holds_pair (vt_certs filled) 7 (pair_files "cert k" "k").
Proof.
  refine (proj2 (custom_certificates_always_match (demo_vault "a") filled 7 (pair_files "cert k" "k") eq_refl _ _ _ _) _).
  - vm_compute. discriminate.
  - intros i _. exact (lookup_empty _).
  - apply (rtc_l _ _ (created own "a")); [exact (step_request keeps_metadata admin 10 no_cert_faults (RCreate own) (demo_vault "a") I I)|].
    apply (rtc_l _ _ filled); [|apply rtc_refl].
    refine (step_request keeps_metadata admin 20 no_cert_faults (RUpload "s" "u" 7 demo_files) (created own "a") I _). split; reflexivity.
  - lia.
  - vm_compute. reflexivity.
Defined.

(** The assistant writes other metadata: the files stay what they are. *)
Definition other_metadata : cert_patch := MkCertPatch None None None None None None (Some (MkCertMeta (Some "cert other") (Some "other") None false None None)).
Example assistant_breaks_the_pair :
  let v := snd (handle admin 30 no_cert_faults (RAssistant 7 other_metadata) filled) in
  vt_dirs v !! custom_dir 7 = Some (pair_files "cert k" "k") /\ map (fun c => cm_key (ct_meta c)) (vt_certs v) = [Some "other"].
Proof. vm_compute. auto. Qed.

(** A revocation that fails after the hosts are detached: the deletion throws,
    but the certificate stays deleted, its hosts stay without TLS, its keys stay
    on disk, and a second deletion does not find it. *)
Definition revocation_fails : cert_faults := MkCertFaults None None None None None None no_cleanup_faults (Some (CommandError "revoke")) None None.
Example failed_revocation_is_not_undone :
  let v := created encrypted "a" in
  let '(r, v') := delete_certificate admin 30 revocation_fails 7 v in
  is_ok r = false /\ map ct_deleted (vt_certs v') = [true] /\ vt_dirs v' !! getLiveCertPath 7 = vt_dirs v !! getLiveCertPath 7 /\
  map (fun h => tls_certificate (n_body h)) (nd_hosts (vt_node v') "proxy_host") = [0; 0] /\
  fst (delete_certificate admin 40 no_cert_faults 7 v') = Throw (ItemNotFoundError (Some 7)).
Proof. vm_compute. auto 8. Qed.
End DemoCertificateStore.
