(* ===== verification/Archives.v ===== *)
(** Archives of an instance: src/backend/lib/instance-backup.js - the names and
    links an archive may hold, its manifest, and unpacking it.

    A path is the list of its components.  The file system is the kernel's: a
    component that is a symbolic link is followed, [..] leads to the parent.
    What reads the manifest is a parameter; the payload is what the cipher and the
    compression let through. *)

From stdpp Require Import gmap strings.
From S2P Require Import Prelude JsString FirewallPreview Errors Steps.
#[local] Open Scope string_scope.
#[local] Open Scope list_scope.
#[local] Open Scope Z_scope.

(** ** Names *)

Definition STORE : string := "instance-backups".
Definition MAX_FILES : Z := 30000.
Definition MAX_BACKUP_BYTES : Z := 8 * 1024 ^ 3.
Definition MAX_MANIFEST : Z := 16 * 1024 ^ 2.

(** Hexadecimal digits in groups of 8, 4, 4, 4 and 12. *)
Definition validId (id : string) : bool :=
  (strlen id =? 36) && forallb (all_chars is_hex_lower) (split_on "-" id) &&
  bool_decide (map (fun w => strlen w) (split_on "-" id) = [8; 4; 4; 4; 12]).

Definition archive_file (suffix store id : string) : fallible string :=
  throw NativeError "Invalid backup identifier" when (negb (validId id)) ;;
  let filename := (store ++ "/" ++ id ++ suffix)%string in
  throw NativeError "Backup path escapes its store" when (negb (starts_with (store ++ "/") filename)) ;;
  Ok filename.
Definition backupArchivePath : string -> string -> fallible string := archive_file ".spmb".
Definition backupMetadataPath : string -> string -> fallible string := archive_file ".json".

Definition NUL : ascii := ascii_of_nat 0.
Definition backslash : ascii := ascii_of_nat 92.

(** A component that means nothing but itself. *)
Definition plain_part (part : string) : bool := negb (String.eqb part "" || String.eqb part "." || String.eqb part "..").

(** A name that is not text is refused like an invalid one. *)
Definition safePath (name : option string) : fallible string :=
  match name with
  | Some n =>
      throw NativeError "Invalid archive path"
        when (String.eqb n "" || has_char backslash n || has_char NUL n || starts_with "/" n || negb (forallb plain_part (split_on "/" n))) ;;
      Ok n
  | None => Throw (NativeError "Invalid archive path")
  end.

(** [path.posix.dirname(name).split("/")] *)
Definition dirname_parts (name : string) : list string :=
  match removelast (split_on "/" name) with [] => ["."] | ps => ps end.

(** [path.posix.normalize] of a relative path, by components: what [..] cannot
    undo stays in front. *)
Definition normalize_part (acc : list string) (part : string) : list string :=
  if String.eqb part "" || String.eqb part "." then acc
  else if String.eqb part ".." then
    match last acc with
    | Some p => if String.eqb p ".." then acc ++ [".."] else removelast acc
    | None => [".."]
    end
  else acc ++ [part].
Definition normalize_parts (parts : list string) : list string := fold_left normalize_part parts [].

Definition safeLink (name : string) (target : option string) : fallible string :=
  match target with
  | Some t =>
      throw NativeError "Unsafe archive link" when (has_char NUL t || has_char backslash t || starts_with "/" t) ;;
      throw NativeError "Archive link escapes instance"
        when (match normalize_parts (dirname_parts name ++ split_on "/" t) with p :: _ => String.eqb p ".." || String.eqb p STORE | [] => false end) ;;
      Ok t
  | None => Throw (NativeError "Unsafe archive link")
  end.

(** ** Entries *)

(** An entry as parsed; [None] where a value is missing or of another type. *)
Record entry : Type := MkEntry {
  en_name : option string;
  en_type : string;
  en_target : option string;
  en_size : option Z;
  en_sha256 : string;
  en_mode : Z
}.

(** [Map.set] and [Map.get]: the last value of a key counts. *)
Definition map_set (m : list (string * string)) (kv : string * string) : list (string * string) :=
  if existsb (fun e => String.eqb (fst e) (fst kv)) m then map (fun e => if String.eqb (fst e) (fst kv) then kv else e) m else m ++ [kv].
Definition map_of (kvs : list (string * string)) : list (string * string) := fold_left map_set kvs [].
Fixpoint map_get (k : string) (m : list (string * string)) : option string :=
  match m with
  | [] => None
  | e :: m' => if String.eqb (fst e) k then Some (snd e) else map_get k m'
  end.

(** One link, component by component; [hops] more links may be followed. *)
Fixpoint walk (links : list (string * string)) (hops : nat) : list string -> list string -> fallible (list string) :=
  fix inner (pending resolved : list string) : fallible (list string) :=
    match pending with
    | [] => Ok resolved
    | part :: pending' =>
        if String.eqb part "" || String.eqb part "." then inner pending' resolved
        else if String.eqb part ".." then
          match resolved with
          | [] => Throw (NativeError "Archive link escapes instance through another link")
          | _ => inner pending' (removelast resolved)
          end
        else
          let next := join "/" (resolved ++ [part]) in
          if String.eqb next STORE then Throw (NativeError "Archive link enters its backup store")
          else match map_get next links with
               | Some target =>
                   match hops with
                   | O => Throw (NativeError "Archive link cycle or excessive link depth")
                   | S hops' => walk links hops' (split_on "/" target ++ pending') resolved
                   end
               | None => inner pending' (resolved ++ [part])
               end
    end.

Definition checked_link (e : entry) : fallible (string * string) :=
  let? name := safePath (en_name e) in
  let? target := safeLink name (en_target e) in
  Ok (name, target).

Definition links_of (entries : list entry) : fallible (list (string * string)) :=
  rmap map_of (rmapM checked_link (List.filter (fun e => String.eqb (en_type e) "symlink") entries)).

Definition validateLinkGraph (entries : list entry) : fallible unit :=
  let? links := links_of entries in
  rmap (fun _ => tt) (rmapM (fun link => walk links 40 (dirname_parts (fst link) ++ split_on "/" (snd link)) []) links).

(** ** The file system *)

Abbreviation path := (list string).
Inductive fnode : Type := NDir | NFile (content : string) (mode : Z) | NLink (target : string).
Abbreviation tree := (gmap (list string) fnode).

Definition is_dir (fs : tree) (p : path) : bool := match p with [] => true | _ => match fs !! p with Some NDir => true | _ => false end end.
Definition start_of (target : string) (cur : path) : path := if starts_with "/" target then [] else cur.

(** The kernel's walk from [cur], following every link. *)
Fixpoint resolve (hops : nat) (fs : tree) : path -> path -> option path :=
  fix inner (pending cur : path) : option path :=
    match pending with
    | [] => Some cur
    | part :: pending' =>
        if String.eqb part "" || String.eqb part "." then inner pending' cur
        else if String.eqb part ".." then inner pending' (removelast cur)
        else match fs !! (cur ++ [part]) with
             | Some NDir => inner pending' (cur ++ [part])
             | Some (NFile _ _) => match pending' with [] => Some (cur ++ [part]) | _ => None end
             | Some (NLink t) => match hops with O => None | S hops' => resolve hops' fs (split_on "/" t ++ pending') (start_of t cur) end
             | None => None
             end
    end.

Definition ENOENT : error := NativeError "ENOENT".
Definition ENOTDIR : error := NativeError "ENOTDIR".
Definition EEXIST : error := NativeError "EEXIST".

(** Creating an entry that must not exist: links are followed up to its directory. *)
Definition create_at (fs : tree) (p : path) (node : fnode) : fallible (path * tree) :=
  match last p, resolve 40 fs (removelast p) [] with
  | Some name, Some d =>
      throw ENOTDIR when (negb (is_dir fs d)) ;;
      match fs !! (d ++ [name]) with Some _ => Throw EEXIST | None => Ok (d ++ [name], <[d ++ [name] := node]> fs) end
  | _, _ => Throw ENOENT
  end.

(** [mkdir] with [recursive]: what is missing is made. *)
Fixpoint mkdirp (fs : tree) (pending cur : path) : fallible tree :=
  match pending with
  | [] => Ok fs
  | part :: pending' =>
      match fs !! (cur ++ [part]) with
      | None => mkdirp (<[cur ++ [part] := NDir]> fs) pending' (cur ++ [part])
      | Some NDir => mkdirp fs pending' (cur ++ [part])
      | Some (NFile _ _) => Throw ENOTDIR
      | Some (NLink t) => match resolve 40 fs (split_on "/" t) (start_of t cur) with Some d => if is_dir fs d then mkdirp fs pending' d else Throw ENOTDIR | None => Throw ENOENT end
      end
  end.

(** ** Unpacking *)

(** The files so far, the names seen, the bytes declared and the payload left. *)
Record unpacking : Type := MkUnpacking { up_fs : tree; up_names : list string; up_total : Z; up_payload : string }.

Definition CHUNK : Z := 64 * 1024.

Section Unpacking.
Context `{Sha256}.
Implicit Types (u : unpacking).

Definition on_tree {A} (f : tree -> fallible (A * tree)) : step unpacking A :=
  fun u => match f (up_fs u) with
           | Ok (a, fs) => (Ok a, MkUnpacking fs (up_names u) (up_total u) (up_payload u))
           | Throw e => (Throw e, u)
           end.

(** The directories above a name, the nearest first. *)
Definition above (parts : path) : list path := rev (map (fun n => firstn n parts) (seq 1 (length parts - 1))).

Definition parents_ok (parents : list (string * string)) (name : string) : bool :=
  forallb (fun ps => bool_decide (map_get (join "/" ps) parents = Some "directory")) (above (split_on "/" name)).

Definition parents_of (entries : list entry) : list (string * string) :=
  map_of (omap (fun e => match en_name e with Some n => Some (n, en_type e) | None => None end) entries).

(** The chunks of a file that are there; a payload that ends too early leaves
    what was written. *)
Definition read_chunks (p : path) (size : Z) : step unpacking string :=
  fun u =>
    let have := strlen (up_payload u) in
    let n := if size <=? have then size else have / CHUNK * CHUNK in
    let content := take_str (Z.to_nat n) (up_payload u) in
    let u' := MkUnpacking (<[p := NFile content 384]> (up_fs u)) (up_names u) (up_total u) (drop_str (Z.to_nat n) (up_payload u)) in
    if size <=? have then (Ok content, u') else (Throw (NativeError "Truncated backup payload"), u').

Definition unpack_file (target : path) (e : entry) : step unpacking unit :=
  match en_size e with
  | Some size =>
      do* _ := of_result (throw NativeError "Invalid file metadata"
        when ((size <? 0) || negb ((strlen (en_sha256 e) =? 64) && all_chars is_hex_lower (en_sha256 e))) ;; Ok tt) in
      do* _ := update_state (fun u => MkUnpacking (up_fs u) (up_names u) (up_total u + size) (up_payload u)) in
      do* total := read_state up_total in
      do* _ := of_result (throw NativeError "Backup exceeds its size limit" when (MAX_BACKUP_BYTES <? total) ;; Ok tt) in
      do* p := on_tree (fun fs => create_at fs target (NFile "" 384)) in
      do* content := read_chunks p size in
      do* _ := of_result (throw NativeError "Backup file hash mismatch" when (negb (String.eqb (sha256 content) (en_sha256 e))) ;; Ok tt) in
      update_state (fun u => MkUnpacking (<[p := NFile content (Z.land (en_mode e) 511)]> (up_fs u)) (up_names u) (up_total u) (up_payload u))
  | None => throws (NativeError "Invalid file metadata")
  end.

Definition unpack_entry (data : path) (parents : list (string * string)) (e : entry) : step unpacking unit :=
  do* name := of_result (safePath (en_name e)) in
  do* names := read_state up_names in
  let parts := split_on "/" name in
  do* _ := of_result (throw NativeError "Invalid duplicate or reserved archive entry"
    when (existsb (String.eqb name) names || bool_decide (hd_error parts = Some STORE)) ;; Ok tt) in
  do* _ := of_result (throw NativeError "Archive writes through an invalid parent" when (negb (parents_ok parents name)) ;; Ok tt) in
  do* _ := update_state (fun u => MkUnpacking (up_fs u) (up_names u ++ [name]) (up_total u) (up_payload u)) in
  let target := data ++ parts in
  if String.eqb (en_type e) "directory" then on_tree (fun fs => rmap (pair tt) (mkdirp fs target []))
  else if String.eqb (en_type e) "symlink" then
    do* t := of_result (safeLink name (en_target e)) in
    do* _ := of_result (throw ENOENT when (String.eqb t "") ;; Ok tt) in
    do* _ := on_tree (fun fs => create_at fs target (NLink t)) in
    done_with tt
  else if String.eqb (en_type e) "file" then unpack_file target e
  else throws (NativeError "Unsupported archive entry").

Fixpoint unpack_all (data : path) (parents : list (string * string)) (entries : list entry) : step unpacking unit :=
  match entries with
  | [] => done_with tt
  | e :: entries' => do* _ := unpack_entry data parents e in unpack_all data parents entries'
  end.

(** From the entries of a manifest to the end of the payload. *)
Definition unpack (data : path) (entries : list entry) : step unpacking unit :=
  do* _ := on_tree (fun fs => create_at fs data NDir) in
  do* _ := of_result (validateLinkGraph entries) in
  do* _ := unpack_all data (parents_of entries) entries in
  do* rest := read_state up_payload in
  of_result (throw NativeError "Unexpected backup payload data" when (negb (String.eqb rest "")) ;; Ok tt).

(** The manifest as parsed; what is not an array is not there. *)
Record manifest : Type := MkManifest {
  mf_format : Z;
  mf_version : string;
  mf_entries : option (list entry);
  mf_engine : string;
  mf_migrations : option (list (option string))
}.

Definition declared (entries : list entry) : Z :=
  fold_left (fun sum e => sum + (if String.eqb (en_type e) "file" then match en_size e with Some n => if 0 <=? n then n else 0 | None => 0 end else 0)) entries 0.

Definition is_installed (installed : list string) (name : option string) : bool :=
  match name with Some n => existsb (String.eqb n) installed | None => false end.

Definition check_manifest (version : string) (installed : list string) (m : manifest) : fallible (list entry) :=
  match mf_entries m with
  | Some entries =>
      throw NativeError "Backup version or manifest is incompatible with this installation"
        when (negb (mf_format m =? 1) || negb (String.eqb (mf_version m) version) || (MAX_FILES <? Z.of_nat (length entries)) ||
              negb (existsb (String.eqb (mf_engine m)) ["sqlite"; "mysql"; "postgres"])) ;;
      throw NativeError "Backup database migration history is incompatible with this installation"
        when (negb (match mf_migrations m with Some names => forallb (is_installed installed) names | None => false end)) ;;
      throw NativeError "Backup exceeds its size limit" when (MAX_BACKUP_BYTES <? declared entries) ;;
      Ok entries
  | None => Throw (NativeError "Backup version or manifest is incompatible with this installation")
  end.

Definition read_payload (size : Z) : step unpacking string :=
  fun u =>
    if size <=? strlen (up_payload u)
    then (Ok (take_str (Z.to_nat size) (up_payload u)), MkUnpacking (up_fs u) (up_names u) (up_total u) (drop_str (Z.to_nat size) (up_payload u)))
    else (Throw (NativeError "Truncated backup payload"), u).

(** [Buffer.readUInt32BE] *)
Definition readUInt32BE (s : string) : Z := fold_left (fun n c => n * 256 + Z.of_nat (nat_of_ascii c)) (String.list_ascii_of_string s) 0.

(** From the length of the manifest to its entries, with the parser. *)
Definition read_manifest (parse : string -> fallible manifest) (version : string) (installed : list string) : step unpacking (list entry) :=
  do* size := read_payload 4 in
  let length := readUInt32BE size in
  do* _ := of_result (throw NativeError "Manifest exceeds its size limit" when (MAX_MANIFEST <? length) ;; Ok tt) in
  do* text := read_payload length in
  do* m := of_result (parse text) in
  of_result (check_manifest version installed m).

Definition open_payload (parse : string -> fallible manifest) (version : string) (installed : list string) (data : path) : step unpacking unit :=
  do* entries := read_manifest parse version installed in
  unpack data entries.
End Unpacking.

(** ** Names and their components *)

Lemma throw_if_Ok {E} (c : bool) (e : E) u : throw_if c e = Ok u -> c = false.
Proof. unfold throw_if. by destruct c. Qed.


Definition plain (p : path) : Prop := Forall (fun part => plain_part part = true /\ has_char "/" part = false) p.

Lemma safe_name name n : safePath name = Ok n -> name = Some n /\ plain (split_on "/" n) /\ split_on "/" n <> [].
Proof.
  unfold safePath. destruct name as [m|]; [|done]. intros Hs. ok_inv Hs. injection Hs as ->. split; [done|].
  apply orb_false_iff in G as [_ G]. apply negb_false_iff in G. rewrite forallb_forall in G. split; [|apply split_on_nonempty].
  apply Forall_forall. intros part Hin. split; [by apply G, list_elem_of_In|]. pose proof (split_on_no_sep "/" n) as Hf.
  rewrite Forall_forall in Hf. by apply Hf.
Qed.

Lemma plain_cons part p : plain (part :: p) <-> (plain_part part = true /\ has_char "/" part = false) /\ plain p.
Proof. unfold plain. by rewrite Forall_cons. Qed.
Lemma plain_app p q : plain (p ++ q) <-> plain p /\ plain q.
Proof. unfold plain. by rewrite Forall_app. Qed.

Lemma plain_cases part : plain_part part = true -> (String.eqb part "" || String.eqb part ".") = false /\ String.eqb part ".." = false.
Proof. unfold plain_part. by destruct (String.eqb part ""), (String.eqb part "."), (String.eqb part ".."). Qed.

(** A plain path is its name, split. *)
Lemma split_plain p : plain p -> p <> [] -> split_on "/" (join "/" p) = p.
Proof. intros Hp Hn. apply (split_join "/"); [done|]. eapply Forall_impl; [exact Hp|]. by intros part [_ ?]. Qed.

Lemma join_inj p q : plain p -> plain q -> p <> [] -> q <> [] -> join "/" p = join "/" q -> p = q.
Proof. intros Hp Hq Hp' Hq' He. by rewrite <- (split_plain p), He, split_plain. Qed.

(** ** Maps *)

Lemma map_get_set m kv k : map_get k (map_set m kv) = if String.eqb (fst kv) k then Some (snd kv) else map_get k m.
Proof.
  assert (forall l, existsb (fun e => String.eqb (fst e) (fst kv)) l = false -> map_get k (l ++ [kv]) = if String.eqb (fst kv) k then match map_get k l with Some v => Some v | None => Some (snd kv) end else map_get k l) as Happ.
  { induction l as [|e l IH]; simpl; [by destruct (String.eqb (fst kv) k)|]. intros [Hne Hl]%orb_false_iff. rewrite (IH Hl).
    by destruct (String.eqb (fst e) k), (String.eqb (fst kv) k). }
  unfold map_set. destruct (existsb _ m) eqn:E.
  - clear Happ. induction m as [|e m IH]; [done|]. simpl in *. destruct (String.eqb_spec (fst e) (fst kv)) as [He|Hne]; simpl.
    + rewrite He. destruct (String.eqb_spec (fst kv) k) as [->|Hk]; [done|]. destruct (existsb (fun e => String.eqb (fst e) (fst kv)) m) eqn:Em; [by rewrite IH; destruct (String.eqb_spec (fst kv) k)|].
      clear IH E. induction m as [|e' m IH]; [done|]. simpl in *. apply orb_false_iff in Em as [He' Em]. rewrite He'. by rewrite IH.
    + rewrite (IH E). destruct (String.eqb_spec (fst e) k), (String.eqb_spec (fst kv) k); congruence.
  - rewrite (Happ m E). destruct (String.eqb_spec (fst kv) k) as [Hk|]; [|done]. clear Happ. induction m as [|e m IH]; [done|]. simpl in *.
    apply orb_false_iff in E as [He E]. rewrite Hk in He, IH, E. rewrite He. by apply IH.
Qed.

(** The last value of a key counts. *)
Lemma map_get_of k kvs m : map_get k (fold_left map_set kvs m) = match last (List.filter (fun kv => String.eqb (fst kv) k) kvs) with Some kv => Some (snd kv) | None => map_get k m end.
Proof.
  revert m. induction kvs as [|kv kvs IH]; intros m; [done|]. simpl. rewrite IH, map_get_set. destruct (String.eqb (fst kv) k) eqn:E; [|done].
  destruct (List.filter _ kvs) as [|x l] eqn:Ef; [done|]. rewrite last_cons_cons. destruct (last (x :: l)) eqn:El; [done|by apply last_None in El].
Qed.

Lemma map_of_in k v kvs : map_get k (map_of kvs) = Some v -> In (k, v) kvs.
Proof.
  unfold map_of. rewrite map_get_of. destruct (last _) as [kv|] eqn:E; [|done]. intros [= <-].
  apply last_Some_elem_of in E. apply list_elem_of_In, filter_In in E as [Hin Hk]. destruct kv as [k' v']. apply String.eqb_eq in Hk. simpl in *. by subst k'.
Qed.

Lemma map_of_get k v kvs : In (k, v) kvs -> (forall v', In (k, v') kvs -> v' = v) -> map_get k (map_of kvs) = Some v.
Proof.
  intros Hin Hu. unfold map_of. rewrite map_get_of. destruct (last _) as [kv|] eqn:E.
  - apply last_Some_elem_of in E. apply list_elem_of_In, filter_In in E as [Hi Hk]. destruct kv as [k' v']. apply String.eqb_eq in Hk. simpl in *. subst k'. f_equal. auto.
  - apply last_None in E. assert (In (k, v) (List.filter (fun kv => String.eqb (fst kv) k) kvs)) as Hf; [|by rewrite E in Hf].
    apply filter_In. split; [done|]. apply String.eqb_refl.
Qed.

(** ** Where an archive is unpacked *)

Section Walking.
Implicit Types (fs : tree) (p q cur : path).

Lemma prefix_split (p q r s : path) : p ++ q = r ++ s -> (exists m, p = r ++ m /\ s = m ++ q) \/ (exists m, r = p ++ m /\ q = m ++ s).
Proof.
  revert r. induction p as [|x p IH]; intros [|y r] He; simpl in *; [by right; exists []|by right; exists (y :: r)|left; by exists (x :: p)|].
  injection He as -> He. destruct (IH _ He) as [(m & -> & ->) | (m & -> & ->)]; [left|right]; by exists m.
Qed.

Lemma resolve_nil hops fs cur : resolve hops fs [] cur = Some cur.
Proof. by destruct hops. Qed.
Lemma resolve_cons hops fs part p cur : resolve hops fs (part :: p) cur =
  if String.eqb part "" || String.eqb part "." then resolve hops fs p cur
  else if String.eqb part ".." then resolve hops fs p (removelast cur)
  else match fs !! (cur ++ [part]) with
       | Some NDir => resolve hops fs p (cur ++ [part])
       | Some (NFile _ _) => match p with [] => Some (cur ++ [part]) | _ => None end
       | Some (NLink t) => match hops with O => None | S hops' => resolve hops' fs (split_on "/" t ++ p) (start_of t cur) end
       | None => None
       end.
Proof. by destruct hops. Qed.

(** A walk over directories ends where it says, or finds one of them missing. *)
Lemma resolve_dirs hops fs p cur : plain p -> (forall q r, p = q ++ r -> q <> [] -> fs !! (cur ++ q) = None \/ fs !! (cur ++ q) = Some NDir) ->
  resolve hops fs p cur = None \/ resolve hops fs p cur = Some (cur ++ p).
Proof.
  revert cur. induction p as [|part p IH]; intros cur Hp Hd; [rewrite resolve_nil, app_nil_r; by right|].
  apply plain_cons in Hp as [[Hpart _] Hp]. apply plain_cases in Hpart as [He Hu]. rewrite resolve_cons, He, Hu.
  destruct (Hd [part] p eq_refl ltac:(done)) as [-> | ->]; [by left|].
  destruct (IH (cur ++ [part])) as [IHr|IHr]; [done| |by left|right; by rewrite IHr, <- app_assoc].
  intros q r -> Hq. rewrite <- app_assoc. by apply (Hd (part :: q) r).
Qed.

Lemma last_removelast p : p <> [] -> exists name, p = removelast p ++ [name] /\ last p = Some name.
Proof. intros Hp. destruct (exists_last Hp) as (l & x & ->). exists x. rewrite List.removelast_last, last_snoc. done. Qed.

(** Creating below directories: the entry gets the name it was asked for. *)
Lemma create_dirs fs p node p' fs' : plain p -> p <> [] ->
  (forall q r, p = q ++ r -> q <> [] -> r <> [] -> fs !! q = None \/ fs !! q = Some NDir) ->
  create_at fs p node = Ok (p', fs') -> p' = p /\ fs !! p = None /\ fs' = <[p := node]> fs.
Proof.
  intros Hp Hn Hd. destruct (last_removelast p Hn) as (name & Hs & Hl). unfold create_at. rewrite Hl.
  destruct (resolve_dirs 40 fs (removelast p) []) as [-> | ->]; [| |done|].
  - rewrite Hs in Hp. by apply plain_app in Hp as [? _].
  - intros q r Hqr Hq. simpl. apply (Hd q (r ++ [name])); [|done|by destruct r]. by rewrite Hs, Hqr, <- app_assoc at 1.
  - simpl. intros Hc. ok_inv Hc. rewrite <- Hs in Hc. destruct (fs !! p) eqn:E; [done|]. by injection Hc as <- <-.
Qed.

(** Making directories leaves everything else alone. *)
Lemma mkdirp_dirs fs p cur : plain p -> (forall q r, p = q ++ r -> q <> [] -> fs !! (cur ++ q) = None \/ fs !! (cur ++ q) = Some NDir) ->
  exists fs', mkdirp fs p cur = Ok fs' /\ (forall q r, p = q ++ r -> q <> [] -> fs' !! (cur ++ q) = Some NDir) /\
    forall x, fs' !! x = fs !! x \/ exists q r, p = q ++ r /\ q <> [] /\ x = cur ++ q.
Proof.
  revert fs cur. induction p as [|part p IH]; intros fs cur Hp Hd; simpl.
  - exists fs. split_and!; [done| |by left]. by intros [|] r.
  - apply plain_cons in Hp as [_ Hp].
    assert (forall fs1, fs1 !! (cur ++ [part]) = Some NDir -> (forall x, x <> cur ++ [part] -> fs1 !! x = fs !! x) ->
      exists fs', mkdirp fs1 p (cur ++ [part]) = Ok fs' /\ (forall q r, part :: p = q ++ r -> q <> [] -> fs' !! (cur ++ q) = Some NDir) /\
        forall x, fs' !! x = fs !! x \/ exists q r, part :: p = q ++ r /\ q <> [] /\ x = cur ++ q) as Hstep.
    { intros fs1 H1 Hsame. destruct (IH fs1 (cur ++ [part])) as (fs' & He & Hin & Hout); [done| |].
      - intros q r -> Hq. rewrite Hsame; [rewrite <- app_assoc; by apply (Hd (part :: q) r)|].
        intros Heq%(f_equal length). rewrite !length_app in Heq. simpl in Heq. destruct q; [done|simpl in Heq; lia].
      - exists fs'. split_and!; [done| |].
        + intros [|x q] r Heq Hq; [done|]. injection Heq as <- Heq. destruct q as [|y q].
          * destruct (Hout (cur ++ [part])) as [->|(q' & r' & _ & Hq' & Hc)]; [done|].
            apply (f_equal length) in Hc. rewrite !length_app in Hc. destruct q'; [done|simpl in Hc; lia].
          * replace (cur ++ part :: y :: q) with ((cur ++ [part]) ++ y :: q) by by rewrite <- app_assoc. by apply (Hin (y :: q) r).
        + intros x. destruct (decide (x = cur ++ [part])) as [->|Hne]; [right; by exists [part], p|].
          destruct (Hout x) as [->|(q & r & -> & Hq & ->)]; [left; by apply Hsame|right; exists (part :: q), r; by rewrite <- app_assoc]. }
    destruct (Hd [part] p eq_refl ltac:(done)) as [-> | Hdir].
    + apply Hstep; [by rewrite lookup_insert_eq|]. intros x Hx. by rewrite lookup_insert_ne.
    + rewrite Hdir. by apply Hstep.
Qed.
End Walking.

Section Confined.
Context `{Sha256} (data : path) (entries : list entry) (fs0 : tree).
Context (Hplain : plain data) (Hdata : data <> []) (Hnames : List.NoDup (map en_name entries)).
Implicit Types (fs : tree) (p q : path) (e : entry) (u : unpacking).

Definition node_kind e (n : fnode) : Prop :=
  match n with
  | NDir => en_type e = "directory"
  | NLink t => en_type e = "symlink" /\ en_target e = Some t
  | NFile _ _ => en_type e = "file"
  end.

(** Outside nothing has changed; inside there is nothing but entries. *)
Record inside fs : Prop := {
  in_outside : forall p, (forall q, p <> data ++ q) -> fs !! p = fs0 !! p;
  in_data : forall q r, data = q ++ r -> q <> [] -> fs !! q = Some NDir;
  in_kinds : forall q n, q <> [] -> fs !! (data ++ q) = Some n -> exists e, In e entries /\ en_name e = Some (join "/" q) /\ plain q /\ node_kind e n
}.

Lemma same_entry e e' : In e entries -> In e' entries -> en_name e = en_name e' -> e = e'.
Proof.
  intros He He' Hn. apply list_elem_of_In, list_elem_of_lookup in He as [i Hi]. apply list_elem_of_In, list_elem_of_lookup in He' as [j Hj].
  assert (i = j) as ->; [|congruence].
  apply (NoDup_lookup (map en_name entries) i j (en_name e)); [by apply NoDup_ListNoDup| |]; rewrite list_lookup_fmap; [by rewrite Hi|by rewrite Hj, Hn].
Qed.

Lemma parents_declared name ps : map_get name (parents_of entries) = Some ps -> exists e, In e entries /\ en_name e = Some name /\ en_type e = ps.
Proof.
  intros Hin%map_of_in. apply list_elem_of_In, list_elem_of_omap in Hin as (e & He%list_elem_of_In & Hp). exists e.
  destruct (en_name e) as [n|]; [|done]. by injection Hp as -> ->.
Qed.

Lemma in_above parts q r : parts = q ++ r -> q <> [] -> r <> [] -> In q (above parts).
Proof.
  intros -> Hq Hr. unfold above. apply in_rev. rewrite rev_involutive. apply in_map_iff. exists (length q).
  rewrite firstn_app, firstn_all, Nat.sub_diag. simpl. split; [by rewrite app_nil_r|]. apply in_seq. rewrite length_app.
  destruct q; [done|]. destruct r; [done|]. simpl. lia.
Qed.

(** The directories above an entry are directories, or not yet there. *)
Lemma above_dirs fs e name : inside fs -> In e entries -> en_name e = Some name -> parents_ok (parents_of entries) name = true ->
  plain (split_on "/" name) -> forall q r, data ++ split_on "/" name = q ++ r -> q <> [] -> r <> [] -> fs !! q = None \/ fs !! q = Some NDir.
Proof.
  intros Hin He Hn Hpar Hp q r Heq Hq Hr. destruct (prefix_split _ _ _ _ Heq) as [(m & Hm & _)|(m & -> & Hm)]; [right; by apply (in_data _ Hin q m)|].
  destruct m as [|x m]; [right; rewrite app_nil_r; apply (in_data _ Hin data []); [by rewrite app_nil_r|done]|].
  destruct (fs !! (data ++ x :: m)) as [n|] eqn:En; [|by left]. right. f_equal.
  destruct (in_kinds _ Hin (x :: m) n ltac:(done) En) as (e' & He' & Hn' & _ & Hk).
  unfold parents_ok in Hpar. rewrite forallb_forall in Hpar. specialize (Hpar (x :: m) (in_above _ _ _ Hm ltac:(done) Hr)). apply bool_decide_eq_true in Hpar.
  apply parents_declared in Hpar as (e2 & He2 & Hn2 & Ht2). assert (e2 = e') as -> by (apply same_entry; congruence). 
  destruct n; simpl in Hk; [done|congruence|destruct Hk; congruence].
Qed.

Lemma insert_inside fs q e n : inside fs -> In e entries -> en_name e = Some (join "/" q) -> plain q -> q <> [] -> node_kind e n ->
  inside (<[data ++ q := n]> fs).
Proof.
  intros [Ho Hd Hk] He Hn Hq Hq' Hkind. constructor.
  - intros p Hp. rewrite lookup_insert_ne; [by apply Ho|]. intros <-. by apply (Hp q).
  - intros q' r Heq Hne. rewrite lookup_insert_ne; [by apply (Hd q' r)|]. intros Hc. rewrite Heq in Hc. apply (f_equal length) in Hc. rewrite !length_app in Hc.
    destruct q; [done|simpl in Hc; lia].
  - intros q' n' Hq'' Hl. destruct (decide (q' = q)) as [->|Hne].
    + rewrite lookup_insert_eq in Hl. injection Hl as <-. by exists e.
    + rewrite lookup_insert_ne in Hl by (intros Hc%app_inv_head; done). by apply Hk.
Qed.

Lemma inside_start fs : (forall q r, data = q ++ r -> q <> [] -> r <> [] -> fs0 !! q = Some NDir) -> (forall q, fs0 !! (data ++ q) = None) ->
  fs = <[data := NDir]> fs0 -> inside fs.
Proof.
  intros Hd Hn ->. constructor.
  - intros p Hp. rewrite lookup_insert_ne; [done|]. intros <-. by apply (Hp []); rewrite app_nil_r.
  - intros q r Heq Hq. destruct r as [|x r]; [rewrite app_nil_r in Heq; subst q; by rewrite lookup_insert_eq|].
    rewrite lookup_insert_ne; [by apply (Hd q (x :: r))|]. intros Hc. rewrite Heq in Hc. apply (f_equal length) in Hc. rewrite length_app in Hc. simpl in Hc. lia.
  - intros q n Hq. rewrite lookup_insert_ne; [by rewrite Hn|]. intros Hc%(f_equal length). rewrite length_app in Hc. destruct q; [done|simpl in Hc; lia].
Qed.

(** Every directory an entry needs is made below the data directory. *)
Lemma mkdirp_inside fs e name : inside fs -> In e entries -> en_name e = Some name -> en_type e = "directory" ->
  parents_ok (parents_of entries) name = true -> plain (split_on "/" name) ->
  exists fs', mkdirp fs (data ++ split_on "/" name) [] = Ok fs' /\ inside fs' /\ fs' !! (data ++ split_on "/" name) = Some NDir /\
    forall p n, fs !! p = Some n -> fs' !! p = Some n.
Proof.
  intros Hin He Hn Ht Hpar Hp.
  assert (forall q r, data ++ split_on "/" name = q ++ r -> q <> [] -> fs !! q = None \/ fs !! q = Some NDir) as Hd.
  { intros q [|x r] Heq Hq; [|by apply (above_dirs fs e name Hin He Hn Hpar Hp q (x :: r))]. rewrite app_nil_r in Heq. subst q.
    destruct (fs !! (data ++ split_on "/" name)) as [n|] eqn:En; [|by left]. right. f_equal.
    destruct (in_kinds _ Hin _ n (split_on_nonempty "/" name) En) as (e' & He' & Hn' & _ & Hk). rewrite join_split in Hn'.
    assert (e' = e) as -> by (apply same_entry; congruence). destruct n; simpl in Hk; [done|congruence|destruct Hk; congruence]. }
  destruct (mkdirp_dirs fs (data ++ split_on "/" name) []) as (fs' & Hm & Hdirs & Hout); [by apply plain_app|done|]. simpl in Hdirs, Hout.
  assert (forall p n, fs !! p = Some n -> fs' !! p = Some n) as Hkeep.
  { intros p n Hl. destruct (Hout p) as [->|(q & r & Heq & Hq & ->)]; [done|]. rewrite (Hdirs q r Heq Hq). destruct (Hd q r Heq Hq); congruence. }
  exists fs'. split_and!; [done| |apply (Hdirs _ []); [by rewrite app_nil_r|by destruct data]|done]. constructor.
  - intros p Hp'. rewrite <- (in_outside _ Hin p Hp'). destruct (Hout p) as [->|(q & r & Heq & Hq & ->)]; [done|].
    rewrite (Hdirs q r Heq Hq). destruct (prefix_split _ _ _ _ Heq) as [(m & Hm' & _)|(m & -> & _)]; [by rewrite (in_data _ Hin q m)|by destruct (Hp' m)].
  - intros q r Heq Hq. apply Hkeep. by apply (in_data _ Hin q r).
  - intros q n Hq Hl. destruct (Hout (data ++ q)) as [He'|(q1 & r & Heq & Hq1 & Hc)]; [rewrite He' in Hl; by apply (in_kinds _ Hin q n)|].
    rewrite Hc, (Hdirs q1 r Heq Hq1) in Hl. injection Hl as <-. subst q1. rewrite <- app_assoc in Heq. apply app_inv_head in Heq.
    assert (plain q) as Hpq by (rewrite Heq in Hp; by apply plain_app in Hp as [? _]).
    destruct r as [|x r].
    + rewrite app_nil_r in Heq. exists e. split_and!; [done| |done|done]. by rewrite <- Heq, join_split.
    + unfold parents_ok in Hpar. rewrite forallb_forall in Hpar. specialize (Hpar q (in_above _ _ _ Heq Hq ltac:(done))). apply bool_decide_eq_true in Hpar.
      apply parents_declared in Hpar as (e2 & He2 & Hn2 & Ht2). by exists e2.
Qed.

(** An entry that is there as the manifest describes it. *)
Definition placed fs e : Prop :=
  exists name n, en_name e = Some name /\ fs !! (data ++ split_on "/" name) = Some n /\ node_kind e n /\
    match n with NFile content mode => sha256 content = en_sha256 e /\ en_size e = Some (strlen content) /\ mode = Z.land (en_mode e) 511 | _ => True end.

Lemma placed_kept fs fs' e : (forall p n, fs !! p = Some n -> fs' !! p = Some n) -> placed fs e -> placed fs' e.
Proof. intros Hk (name & n & Hn & Hl & Hr). exists name, n. split; [done|]. split; [by apply Hk|done]. Qed.

Lemma placed_insert fs e e' name n : In e entries -> In e' entries -> e' <> e -> en_name e = Some name -> placed fs e' -> placed (<[data ++ split_on "/" name := n]> fs) e'.
Proof.
  intros He He' Hne Hn (name' & n' & Hn' & Hl & Hr). exists name', n'. split; [done|]. split; [|done]. rewrite lookup_insert_ne; [done|].
  intros Hc%app_inv_head%(f_equal (join "/")). rewrite !join_split in Hc. apply Hne, same_entry; congruence.
Qed.

Lemma create_inside fs e name n p fs' : inside fs -> In e entries -> en_name e = Some name -> node_kind e n ->
  parents_ok (parents_of entries) name = true -> plain (split_on "/" name) ->
  create_at fs (data ++ split_on "/" name) n = Ok (p, fs') ->
  p = data ++ split_on "/" name /\ inside fs' /\ fs' !! p = Some n /\ forall e', In e' entries -> e' <> e -> placed fs e' -> placed fs' e'.
Proof.
  intros Hin He Hn Hk Hpar Hp Hc. apply create_dirs in Hc as (-> & _ & ->); [|by apply plain_app|by destruct data|by apply (above_dirs fs e name)].
  split_and!; [done|apply (insert_inside fs _ e); try done; [by rewrite join_split|apply split_on_nonempty]|by rewrite lookup_insert_eq|].
  intros e' He' Hne. by apply placed_insert with (e := e).
Qed.

Lemma take_str_exact n s : Z.of_nat n <= strlen s -> strlen (take_str n s) = Z.of_nat n.
Proof.
  revert s. induction n as [|n IH]; intros s Hn; [by destruct s|]. destruct s as [|c s]; [simpl in Hn; lia|].
  change (strlen (take_str (S n) (String c s))) with (Z.of_nat (S (String.length (take_str n s)))). change (strlen (String c s)) with (Z.of_nat (S (String.length s))) in Hn.
  specialize (IH s). simpl in *. lia.
Qed.

(** What one entry leaves behind. *)
Definition entry_done e u (r : fallible unit) u' : Prop :=
  inside (up_fs u') /\ (r = Ok tt -> placed (up_fs u') e) /\ forall e', In e' entries -> e' <> e -> placed (up_fs u) e' -> placed (up_fs u') e'.

Lemma file_done e name u r u' : inside (up_fs u) -> In e entries -> en_name e = Some name -> en_type e = "file" ->
  parents_ok (parents_of entries) name = true -> plain (split_on "/" name) ->
  unpack_file (data ++ split_on "/" name) e u = (r, u') -> entry_done e u r u'.
Proof.
  intros Hin He Hn Ht Hpar Hp. assert (forall err : error, entry_done e u (Throw err) u) as Hfail by (intros err; by split_and!).
  unfold unpack_file. destruct (en_size e) as [size|] eqn:Es; [|by intros [= <- <-]]. unfold and_then, of_result, update_state, read_state. cbn [up_total].
  destruct (throw_if _ _) eqn:Em; cbn [rbind]; [|by intros [= <- <-]].
  apply throw_if_Ok in Em. apply orb_false_iff in Em as [Hsize _]. apply Z.ltb_ge in Hsize.
  destruct (throw_if _ _); cbn [rbind]; [|by intros [= <- <-]]. unfold on_tree. cbn [up_fs up_names up_total up_payload].
  destruct (create_at (up_fs u) _ _) as [[p fs1]|] eqn:Ec; [|by intros [= <- <-]].
  apply (create_inside _ e name) in Ec as (-> & Hin1 & _ & Hkeep); try done.
  assert (forall c m, inside (<[data ++ split_on "/" name := NFile c m]> fs1)) as Hins.
  { intros c m. apply (insert_inside fs1 _ e); try done; [by rewrite join_split|apply split_on_nonempty]. }
  assert (forall c m e', In e' entries -> e' <> e -> placed fs1 e' -> placed (<[data ++ split_on "/" name := NFile c m]> fs1) e') as Hkeep1
    by (intros c m e' He' Hne; by apply placed_insert with (e := e)).
  unfold read_chunks. cbn [up_fs up_names up_total up_payload]. destruct (size <=? strlen (up_payload u)) eqn:Elen.
  - destruct (throw_if _ _) as [[]|e0] eqn:Eh; cbn [rbind]; intros [= <- <-]; unfold entry_done; cbn [up_fs].
    + rewrite insert_insert_eq. split_and!; [apply Hins| |intros e' He' Hne Hpl; apply Hkeep1; auto]. intros _. exists name. eexists.
      split; [done|]. split; [by rewrite lookup_insert_eq|]. split; [done|]. apply throw_if_Ok in Eh. apply negb_false_iff, String.eqb_eq in Eh.
      split_and!; [done| |done]. rewrite Es. f_equal. rewrite take_str_exact; apply Z.leb_le in Elen; lia.
    + split_and!; [apply Hins|done|intros e' He' Hne Hpl; apply Hkeep1; auto].
  - intros [= <- <-]. unfold entry_done. cbn [up_fs]. split_and!; [apply Hins|done|intros e' He' Hne Hpl; apply Hkeep1; auto].
Qed.

Lemma unpack_entry_done e u r u' : inside (up_fs u) -> In e entries -> unpack_entry data (parents_of entries) e u = (r, u') -> entry_done e u r u'.
Proof.
  intros Hin He. assert (forall err : error, entry_done e u (Throw err) u) as Hfail by (intros err; by split_and!).
  unfold unpack_entry, and_then, of_result, read_state, update_state. destruct (safePath (en_name e)) as [name|] eqn:En; [|by intros [= <- <-]].
  apply safe_name in En as (Hn & Hp & _). destruct (throw_if (_ || _) _); cbn [rbind]; [|by intros [= <- <-]].
  destruct (throw_if _ _) eqn:Epar; cbn [rbind]; [|by intros [= <- <-]]. apply throw_if_Ok, negb_false_iff in Epar.
  set (u1 := MkUnpacking _ _ _ _).
  destruct (String.eqb_spec (en_type e) "directory") as [Ht|_].
  { unfold on_tree. subst u1. cbn [up_fs up_names up_total up_payload]. destruct (mkdirp_inside (up_fs u) e name) as (fs' & -> & Hin' & Hl & Hkeep); try done. cbn. intros [= <- <-].
    split_and!; [done| |intros e' _ _; by apply placed_kept]. intros _. exists name, NDir. by split_and!. }
  destruct (String.eqb_spec (en_type e) "symlink") as [Ht|_].
  { destruct (safeLink name (en_target e)) as [t|] eqn:El; [|intros [= <- <-]; by split_and!]. unfold on_tree. subst u1. cbn [up_fs up_names up_total up_payload].
    assert (en_target e = Some t) as Htt by (unfold safeLink in El; destruct (en_target e); [|done]; destruct (throw_if _ _); [|done]; simpl in El; destruct (throw_if _ _); [|done]; by injection El as ->).
    destruct (throw_if _ _); cbn [rbind]; [|intros [= <- <-]; by split_and!]. cbn [up_fs up_names up_total up_payload].
    destruct (create_at (up_fs u) _ _) as [[p fs1]|] eqn:Ec; [|intros [= <- <-]; by split_and!].
    apply (create_inside _ e name) in Ec as (-> & Hin1 & Hl & Hkeep); try done. cbn. intros [= <- <-]. split_and!; [done| |done].
    intros _. exists name, (NLink t). by split_and!. }
  destruct (String.eqb_spec (en_type e) "file") as [Ht|_]; [|intros [= <- <-]; by split_and!].
  intros Hf. apply (file_done e name u1) in Hf as (Hin' & Hpl & Hkeep); try done.
Qed.

Lemma unpack_all_done es u r u' : List.NoDup es -> (forall e, In e es -> In e entries) -> inside (up_fs u) ->
  unpack_all data (parents_of entries) es u = (r, u') ->
  inside (up_fs u') /\ (r = Ok tt -> forall e, In e es -> placed (up_fs u') e) /\
  forall e, In e entries -> ~ In e es -> placed (up_fs u) e -> placed (up_fs u') e.
Proof.
  revert u. induction es as [|e es IH]; intros u Hnd Hes Hin; cbn [unpack_all]; [by intros [= <- <-]|]. inversion Hnd as [|? ? Hni Hnd']; subst.
  unfold and_then. destruct (unpack_entry data (parents_of entries) e u) as [[[]|err] u1] eqn:Eu;
    (apply unpack_entry_done in Eu as (Hin1 & Hpl & Hkeep); [|done|apply Hes; by left]).
  - intros Ha. apply IH in Ha as (Hin2 & Hpl2 & Hkeep2); [|done|intros; apply Hes; by right|done]. split_and!; [done| |].
    + intros Hr e' [<-|He']; [apply Hkeep2; [apply Hes; by left|done|by apply Hpl]|by apply Hpl2].
    + intros e' He' Hn Hp. apply Hkeep2; [done|by intros ?; apply Hn; right|]. apply Hkeep; [done|intros ->; apply Hn; by left|done].
  - intros [= <- <-]. split_and!; [done|done|]. intros e' He' Hn Hp. apply Hkeep; [done|intros ->; apply Hn; by left|done].
Qed.

Lemma entries_nodup : List.NoDup entries.
Proof. revert Hnames. generalize entries as es. intros es. induction es as [|e es IH]; intros Hn; [constructor|]. inversion Hn as [|? ? Hni Hn']; subst.
  constructor; [|auto]. intros He. apply Hni. by apply in_map. Qed.

Lemma unpack_done u r u' : up_fs u = fs0 -> (forall q s, data = q ++ s -> q <> [] -> s <> [] -> fs0 !! q = Some NDir) -> (forall q, fs0 !! (data ++ q) = None) ->
  unpack data entries u = (r, u') ->
  (forall p, (forall q, p <> data ++ q) -> up_fs u' !! p = fs0 !! p) /\
  (r = Ok tt -> inside (up_fs u') /\ (forall e, In e entries -> placed (up_fs u') e) /\ validateLinkGraph entries = Ok tt).
Proof.
  intros Hfs Hd Hn. unfold unpack, and_then at 1, on_tree. rewrite Hfs. destruct (create_at fs0 data NDir) as [[p fs1]|] eqn:Ec; [|intros [= <- <-]; by rewrite Hfs].
  apply create_dirs in Ec as (-> & _ & ->); [|done|done|intros q s Hq Hq' Hs; right; by apply (Hd q s)]. cbn [up_fs up_names up_total up_payload].
  pose proof (inside_start _ Hd Hn eq_refl) as Hin. unfold and_then at 1, of_result at 1. destruct (validateLinkGraph entries) as [[]|] eqn:Eg; [|intros [= <- <-]; split; [apply (in_outside _ Hin)|done]].
  set (u1 := MkUnpacking _ _ _ _). unfold and_then at 1. destruct (unpack_all _ _ _ u1) as [[[]|err] u2] eqn:Ea;
    apply unpack_all_done in Ea as (Hin2 & Hpl & _); try done; try apply entries_nodup.
  - intros Hr. assert (u' = u2) as -> by (unfold and_then, read_state, of_result in Hr; by injection Hr as _ <-). split; [apply (in_outside _ Hin2)|].
    intros _. split_and!; [done|by apply Hpl|done].
  - intros [= <- <-]. split; [apply (in_outside _ Hin2)|done].
Qed.
End Confined.

(** ** Where links lead *)

(** The kernel opening a path: one component at a time. *)
Inductive kernel (fs : tree) : path * path -> path * path -> Prop :=
| k_skip cur part rest : part = "" \/ part = "." -> kernel fs (cur, part :: rest) (cur, rest)
| k_up cur rest : kernel fs (cur, ".." :: rest) (removelast cur, rest)
| k_link cur part rest t : plain_part part = true -> fs !! (cur ++ [part]) = Some (NLink t) ->
    kernel fs (cur, part :: rest) (start_of t cur, split_on "/" t ++ rest)
| k_enter cur part rest n : plain_part part = true -> fs !! (cur ++ [part]) = Some n -> (forall t, n <> NLink t) ->
    kernel fs (cur, part :: rest) (cur ++ [part], rest).

Section Links.
Implicit Types (links : list (string * string)) (p q a : path).

Lemma walk_nil links hops q : walk links hops [] q = Ok q.
Proof. by destruct hops. Qed.

Lemma walk_cons links hops part a q : walk links hops (part :: a) q =
  if String.eqb part "" || String.eqb part "." then walk links hops a q
  else if String.eqb part ".." then
    match q with [] => Throw (NativeError "Archive link escapes instance through another link") | _ => walk links hops a (removelast q) end
  else if String.eqb (join "/" (q ++ [part])) STORE then Throw (NativeError "Archive link enters its backup store")
  else match map_get (join "/" (q ++ [part])) links with
       | Some target => match hops with O => Throw (NativeError "Archive link cycle or excessive link depth") | S hops' => walk links hops' (split_on "/" target ++ a) q end
       | None => walk links hops a (q ++ [part])
       end.
Proof. by destruct hops. Qed.

(** Over components that are no links a walk goes straight. *)
Lemma walk_through links hops p a acc r : plain p -> (forall q s, p = q ++ s -> q <> [] -> map_get (join "/" (acc ++ q)) links = None) ->
  walk links hops (p ++ a) acc = Ok r -> walk links hops a (acc ++ p) = Ok r.
Proof.
  revert acc. induction p as [|part p IH]; intros acc Hp Hl; [by rewrite app_nil_r|]. apply plain_cons in Hp as [[Hpart _] Hp].
  apply plain_cases in Hpart as [He Hu]. simpl. rewrite walk_cons, He, Hu. destruct (String.eqb _ STORE); [done|].
  rewrite (Hl [part] p) by done. intros Hw. replace (acc ++ part :: p) with ((acc ++ [part]) ++ p) by by rewrite <- app_assoc.
  apply IH; [done| |done]. intros q s -> Hq. rewrite <- app_assoc. by apply (Hl (part :: q) s).
Qed.

Lemma map_get_in k v links : map_get k links = Some v -> In (k, v) links.
Proof. induction links as [|[k' v'] links IH]; [done|]. simpl. destruct (String.eqb_spec k' k) as [->|]; [intros [= ->]; by left|right; auto]. Qed.

Lemma checked_link_spec e k v : checked_link e = Ok (k, v) ->
  safePath (en_name e) = Ok k /\ en_target e = Some v /\ starts_with "/" v = false.
Proof.
  unfold checked_link. destruct (safePath (en_name e)) as [n|]; [|done]. simpl. unfold safeLink. destruct (en_target e) as [t|]; [|done].
  destruct (throw_if _ _) eqn:E; [|done]. apply throw_if_Ok in E. apply orb_false_iff in E as [_ E]. simpl. destruct (throw_if _ _); [|done]. by intros [= -> ->].
Qed.

(** The links of the graph are the link entries. *)
Lemma links_entries entries links k v : links_of entries = Ok links -> map_get k links = Some v ->
  exists e, In e entries /\ en_type e = "symlink" /\ en_name e = Some k /\ en_target e = Some v /\ starts_with "/" v = false.
Proof.
  unfold links_of. destruct (rmapM _ _) as [kvs|] eqn:E; [|done]. intros [= <-] Hin%map_of_in. apply rmapM_ok in E.
  destruct (Forall2_in_r _ _ _ _ E Hin) as (e & [He Ht]%filter_In & Hc). apply checked_link_spec in Hc as (Hn & Htt & Hs).
  apply safe_name in Hn as (Hn & _). exists e. apply String.eqb_eq in Ht. by split_and!.
Qed.

Lemma entry_link entries links e k v : links_of entries = Ok links -> List.NoDup (map en_name entries) -> In e entries ->
  en_type e = "symlink" -> en_name e = Some k -> en_target e = Some v -> map_get k links = Some v /\ starts_with "/" v = false.
Proof.
  intros Hl Hnd He Ht Hn Hv. unfold links_of in Hl. destruct (rmapM _ _) as [kvs|] eqn:E; [|done]. injection Hl as <-. apply rmapM_ok in E.
  assert (exists kv, In kv kvs /\ checked_link e = Ok kv) as ([k' v'] & Hin & Hc).
  { assert (In e (List.filter (fun e => String.eqb (en_type e) "symlink") entries)) as Hf by (apply filter_In; split; [done|by apply String.eqb_eq]).
    clear He. induction E as [|x y xs ys Hxy E IH]; [done|]. destruct Hf as [<-|Hf]; [exists y; split; [by left|done]|].
    destruct (IH Hf) as (kv & ? & ?). exists kv. split; [by right|done]. }
  apply checked_link_spec in Hc as (Hs & Ht' & Hrel). apply safe_name in Hs as (Hn' & _). assert (k' = k) as -> by congruence. assert (v' = v) as -> by congruence.
  split; [|done]. apply map_of_get; [done|]. intros v2 Hin2. destruct (Forall2_in_r _ _ _ _ E Hin2) as (e2 & [He2 _]%filter_In & Hc2).
  apply checked_link_spec in Hc2 as (Hs2 & Ht2 & _). apply safe_name in Hs2 as (Hn2 & _).
  assert (e2 = e) as -> by (apply (same_entry entries Hnd); congruence). congruence.
Qed.

Lemma graph_walks entries links k v : validateLinkGraph entries = Ok tt -> links_of entries = Ok links -> map_get k links = Some v ->
  exists r, walk links 40 (dirname_parts k ++ split_on "/" v) [] = Ok r.
Proof.
  unfold validateLinkGraph. intros Hg Hl Hin%map_get_in. rewrite Hl in Hg. simpl in Hg. destruct (rmapM _ links) as [rs|] eqn:E; [|done].
  apply rmapM_ok in E. apply list_elem_of_In, list_elem_of_lookup in Hin as [i Hi]. destruct (Forall2_lookup_l _ _ _ _ _ E Hi) as (y & _ & Hy). by exists y.
Qed.
End Links.

Section Closed.
Context `{Sha256} (data : path) (entries : list entry) (fs0 fs : tree) (links : list (string * string)).
Context (Hplain : plain data) (Hnames : List.NoDup (map en_name entries)).
Context (Hin : inside data entries fs0 fs) (Hplaced : forall e, In e entries -> placed data fs e).
Context (Hgraph : validateLinkGraph entries = Ok tt) (Hlinks : links_of entries = Ok links).
Implicit Types (p q a : path).

(** The kernel finds a link exactly where the graph has one. *)
Lemma kernel_link q t : plain q -> q <> [] -> fs !! (data ++ q) = Some (NLink t) <-> map_get (join "/" q) links = Some t.
Proof.
  intros Hq Hne. split.
  - intros Hl. destruct (in_kinds _ _ _ _ Hin q _ Hne Hl) as (e & He & Hn & _ & Ht & Htt). by eapply entry_link.
  - intros Hg. destruct (links_entries _ _ _ _ Hlinks Hg) as (e & He & Ht & Hn & Htt & _).
    destruct (Hplaced e He) as (name & n & Hn' & Hl & Hk & _). assert (name = join "/" q) as -> by congruence. rewrite split_plain in Hl by done.
    destruct n; simpl in Hk; [congruence..|]. destruct Hk as [_ Hk]. congruence.
Qed.

(** On the way: what is left of a link that was followed, then of the path. *)
Definition on_the_way (st : path * path) : Prop :=
  exists q a b hops r, st.1 = data ++ q /\ st.2 = a ++ b /\ plain q /\ plain b /\ Forall (fun part => has_char "/" part = false) a /\
    (forall q1 s, q = q1 ++ s -> q1 <> [] -> map_get (join "/" q1) links = None) /\ walk links hops a q = Ok r.

(** Following a link leads into a walk that was checked. *)
Lemma link_checked q part t : plain (q ++ [part]) -> (forall q1 s, q = q1 ++ s -> q1 <> [] -> map_get (join "/" q1) links = None) ->
  map_get (join "/" (q ++ [part])) links = Some t -> exists r, walk links 40 (split_on "/" t) q = Ok r.
Proof.
  intros Hp Hno Hg. destruct (graph_walks _ _ _ _ Hgraph Hlinks Hg) as (r & Hr). exists r. unfold dirname_parts in Hr.
  rewrite split_plain, List.removelast_last in Hr by (try done; by destruct q). destruct q as [|x q].
  { change (walk links 40 ("." :: split_on "/" t) [] = Ok r) in Hr. by rewrite walk_cons in Hr. }
  apply (walk_through links 40 (x :: q) _ []); [by apply plain_app in Hp as [? _]|done|done].
Qed.

Lemma relative_target q t : map_get (join "/" q) links = Some t -> start_of t (data ++ removelast q) = data ++ removelast q.
Proof. intros Hg. destruct (links_entries _ _ _ _ Hlinks Hg) as (e & _ & _ & _ & _ & Hs). unfold start_of. by rewrite Hs. Qed.

Lemma split_slashless t : Forall (fun part => has_char "/" part = false) (split_on "/" t).
Proof. apply split_on_no_sep. Qed.

Lemma way_extended q part n : plain (q ++ [part]) -> fs !! (data ++ q ++ [part]) = Some n -> (forall t, n <> NLink t) ->
  (forall q1 s, q = q1 ++ s -> q1 <> [] -> map_get (join "/" q1) links = None) ->
  forall q1 s, q ++ [part] = q1 ++ s -> q1 <> [] -> map_get (join "/" q1) links = None.
Proof.
  intros Hp Hl Hnl Hno q1 s Heq Hq1. destruct (prefix_split _ _ _ _ Heq) as [(m & Hm & _)|(m & -> & Hm)]; [by apply (Hno q1 m)|].
  destruct m as [|x m]; [rewrite app_nil_r in Hq1 |- *; apply (Hno q []); [by rewrite app_nil_r|done]|]. injection Hm as <- Hm. destruct m; [|done].
  destruct (map_get (join "/" (q ++ [part])) links) as [t|] eqn:Eg; [|done]. apply kernel_link in Eg; [|done|by destruct q]. congruence.
Qed.

Lemma kernel_keeps st st' : on_the_way st -> kernel fs st st' -> on_the_way st'.
Proof.
  intros (q & a & b & hops & r & H1 & H2 & Hq & Hb & Ha & Hno & Hw) Hk. destruct Hk as [cur part rest Hpart|cur rest|cur part rest t Hpart Hl|cur part rest n Hpart Hl Hnl];
    cbn [fst snd] in H1, H2; subst cur.
  - destruct a as [|x a]; simpl in H2; [subst b; apply plain_cons in Hb as [[Hx _] _]; by destruct Hpart; subst part|]. injection H2 as <- ->.
    rewrite walk_cons in Hw. replace (String.eqb part "" || String.eqb part ".") with true in Hw by (by destruct Hpart; subst part).
    exists q, a, b, hops, r. apply Forall_cons in Ha as [_ Ha]. by split_and!.
  - destruct a as [|x a]; simpl in H2; [subst b; by apply plain_cons in Hb as [[Hx _] _]|]. injection H2 as <- ->.
    rewrite walk_cons in Hw. simpl in Hw. destruct q as [|y q]; [done|]. apply Forall_cons in Ha as [_ Ha].
    exists (removelast (y :: q)), a, b, hops, r. cbn [fst snd]. rewrite removelast_app by done. destruct (last_removelast (y :: q)) as (name & Hs & _); [done|].
    split_and!; try done; [rewrite Hs in Hq; by apply plain_app in Hq as [? _]|]. intros q1 s Heq Hq1. apply (Hno q1 (s ++ [name])); [|done].
    rewrite Hs, Heq at 1. by rewrite <- app_assoc.
  - rewrite <- app_assoc in Hl. destruct (plain_cases _ Hpart) as [He Hu].
    assert (Hslash : has_char "/" part = false).
    { destruct a as [|x a]; simpl in H2; [subst b; by apply plain_cons in Hb as [[_ ?] _]|]. injection H2 as <- _. by apply Forall_cons in Ha as [? _]. }
    assert (plain (q ++ [part])) as Hqp by (apply plain_app; split; [done|apply plain_cons; split; [done|constructor]]).
    apply kernel_link in Hl; [|done|by destruct q]. pose proof (relative_target _ _ Hl) as Hst. rewrite List.removelast_last in Hst. cbn [fst snd]. unfold on_the_way. cbn [fst snd]. rewrite Hst.
    destruct a as [|x a]; simpl in H2.
    + subst b. apply plain_cons in Hb as [_ Hb]. destruct (link_checked q part t Hqp Hno Hl) as (r' & Hr').
      exists q, (split_on "/" t), rest, 40%nat, r'. split_and!; try done. apply split_slashless.
    + injection H2 as <- ->. rewrite walk_cons, He, Hu in Hw. destruct (String.eqb _ STORE); [done|]. rewrite Hl in Hw. destruct hops as [|hops]; [done|].
      apply Forall_cons in Ha as [_ Ha]. exists q, (split_on "/" t ++ a), b, hops, r. split_and!; try done; [by rewrite <- app_assoc|].
      apply Forall_app. split; [apply split_slashless|done].
  - rewrite <- app_assoc in Hl. destruct (plain_cases _ Hpart) as [He Hu].
    assert (Hslash : has_char "/" part = false).
    { destruct a as [|x a]; simpl in H2; [subst b; by apply plain_cons in Hb as [[_ ?] _]|]. injection H2 as <- _. by apply Forall_cons in Ha as [? _]. }
    assert (plain (q ++ [part])) as Hqp by (apply plain_app; split; [done|apply plain_cons; split; [done|constructor]]).
    pose proof (way_extended q part n Hqp Hl Hnl Hno) as Hno'. destruct a as [|x a]; simpl in H2.
    + subst b. apply plain_cons in Hb as [_ Hb]. exists (q ++ [part]), [], rest, hops, (q ++ [part]). rewrite walk_nil. split_and!; try done. by rewrite <- app_assoc.
    + injection H2 as <- ->. rewrite walk_cons, He, Hu in Hw. destruct (String.eqb _ STORE); [done|]. rewrite (Hno' _ []) in Hw by (by rewrite ?app_nil_r || by destruct q).
      apply Forall_cons in Ha as [_ Ha]. exists (q ++ [part]), a, b, hops, r. split_and!; try done. by rewrite <- app_assoc.
Qed.

Lemma kernel_stays p cur rest : plain p -> rtc (kernel fs) (data, p) (cur, rest) -> exists q, cur = data ++ q.
Proof.
  intros Hp Hr. assert (on_the_way (cur, rest)) as (q & a & b & hops & r & H1 & _); [|by exists q].
  assert (on_the_way (data, p)) as Hstart.
  { exists [], [], p, O, []. cbn [fst snd]. split_and!; [by rewrite app_nil_r|done|constructor|done|constructor|by intros [|]|apply walk_nil]. }
  revert Hstart Hr. generalize (data, p) as st, (cur, rest) as st'. intros st st' Hs Hr. induction Hr as [|st st1 st' Hk _ IH]; [done|]. apply IH. by eapply kernel_keeps.
Qed.
End Closed.

(** ** What opening an archive can do *)

Section Safety.
Context `{Sha256} (parse : string -> fallible manifest) (version : string) (installed : list string).
Context (data : path) (u : unpacking).

Lemma manifest_keeps r u1 : read_manifest parse version installed u = (r, u1) -> up_fs u1 = up_fs u.
Proof.
  unfold read_manifest, and_then, of_result, read_payload. repeat case_match; intros; by simplify_eq.
Qed.

Context (Hplain : plain data) (Hdata : data <> []).
Context (Hnames : forall entries u1, read_manifest parse version installed u = (Ok entries, u1) -> List.NoDup (map en_name entries)).
Context (Hdirs : forall q s, data = q ++ s -> q <> [] -> s <> [] -> up_fs u !! q = Some NDir) (Hempty : forall q, up_fs u !! (data ++ q) = None).

Lemma opened r u' : open_payload parse version installed data u = (r, u') ->
  (forall p, (forall q, p <> data ++ q) -> up_fs u' !! p = up_fs u !! p) /\
  (r = Ok tt -> exists entries u1, read_manifest parse version installed u = (Ok entries, u1) /\ List.NoDup (map en_name entries) /\
    inside data entries (up_fs u) (up_fs u') /\ (forall e, In e entries -> placed data (up_fs u') e) /\ validateLinkGraph entries = Ok tt).
Proof.
  unfold open_payload, and_then. destruct (read_manifest _ _ _ u) as [[entries|err] u1] eqn:Em; pose proof (manifest_keeps _ _ Em) as Hk.
  - intros Hu. apply (unpack_done data entries (up_fs u)) in Hu as [Ho Hok]; try done; [|by eapply Hnames]. split; [done|]. intros Hr.
    exists entries, u1. split; [done|]. split; [by eapply Hnames|by apply Hok].
  - intros [= <- <-]. by rewrite Hk.
Qed.

(** C36: opening an archive whose entries have different names changes nothing
    outside its own directory, whatever its manifest, its links and its payload
    are and even when it fails; when it succeeds every entry is there as the
    manifest describes it, each file with its size and hash, and there is nothing
    else. *)
Theorem archive_stays_in_its_directory r u' : open_payload parse version installed data u = (r, u') ->
  (forall p, (forall q, p <> data ++ q) -> up_fs u' !! p = up_fs u !! p) /\
  (r = Ok tt -> exists entries u1, read_manifest parse version installed u = (Ok entries, u1) /\
    (forall e, In e entries -> placed data (up_fs u') e) /\
    forall q n, q <> [] -> up_fs u' !! (data ++ q) = Some n -> exists e, In e entries /\ en_name e = Some (join "/" q) /\ node_kind e n).
Proof.
  intros Hu%opened. destruct Hu as [Ho Hok]. split; [done|]. intros Hr. destruct (Hok Hr) as (entries & u1 & Hm & Hn & Hin & Hpl & _).
  exists entries, u1. split_and!; [done|done|]. intros q n Hq Hl. destruct (in_kinds _ _ _ _ Hin q n Hq Hl) as (e & He & Hne & _ & Hk). by exists e.
Qed.

(** C37: after an archive has been unpacked, no path below its directory leads out
    of it: whoever opens one, following whatever links the archive brought, stays
    inside at every step. *)
Theorem restored_links_lead_inside u' p cur rest : open_payload parse version installed data u = (Ok tt, u') -> plain p ->
  rtc (kernel (up_fs u')) (data, p) (cur, rest) -> exists q, cur = data ++ q.
Proof.
  intros Hu Hp Hr. apply opened in Hu as [_ Hok]. destruct (Hok eq_refl) as (entries & u1 & _ & Hn & Hin & Hpl & Hg).
  destruct (links_of entries) as [links|] eqn:El; [|unfold validateLinkGraph in Hg; by rewrite El in Hg]. by eapply kernel_stays.
Qed.
End Safety.

(** ** Archives, good and bad *)

Module DemoArchives.
Definition hash64 : string := String.concat "" (repeat "0123456789abcdef" 4).
#[local] Instance sha : Sha256 := {| sha256 _ := hash64 |}.

Definition data : path := ["data"; STORE; ".restore-x"; "data"].
Definition host_fs : tree := {[ ["data"] := NDir; ["data"; STORE] := NDir; ["data"; STORE; ".restore-x"] := NDir ]}.
(** The parser is the function that knows the demonstration's manifests. *)
Definition start (manifest_text payload : string) : unpacking :=
  MkUnpacking host_fs [] 0 (String (ascii_of_nat 0) (String (ascii_of_nat 0) (String (ascii_of_nat 0) (String (ascii_of_nat (String.length manifest_text)) (manifest_text ++ payload)%string)))).

Definition dir (name : string) : entry := MkEntry (Some name) "directory" None None "" 448.
Definition link (name target : string) : entry := MkEntry (Some name) "symlink" (Some target) None "" 0.
Definition file (name : string) (size : Z) : entry := MkEntry (Some name) "file" None (Some size) hash64 420.

Definition good : list entry := [dir "nginx"; file "nginx/a.conf" 3; link "nginx/current" "../nginx/a.conf"; dir "tls"; file "tls/key" 2].

(** An archive that names [a] three times: the link graph is checked with the last
    link of that name, the parents with the last kind, but a file is written
    through the first link, beside the data directory. *)
Definition repeated : list entry :=
  [dir "k"; link "k/c" ".."; link "a" "k/c/.."; file "a/evil" 1; link "a" "k"; dir "a"].

Definition parsed (text : string) : fallible manifest :=
  let m entries := Ok (MkManifest 1 "3.0" (Some entries) "sqlite" (Some [Some "20180618015850_initial.js"])) in
  if String.eqb text "good" then m good else if String.eqb text "repeated" then m repeated else Throw (NativeError "Unexpected token").
Definition open_demo := open_payload parsed "3.0" ["20180618015850_initial.js"] data.

Lemma data_plain : plain data.
Proof. repeat constructor. Qed.
Lemma host_dirs q s : data = q ++ s -> q <> [] -> s <> [] -> host_fs !! q = Some NDir.
Proof.
  intros Hq Hn Hs. unfold data in Hq. do 4 (destruct q as [|? q]; [try done; injection Hq as ?; subst; vm_compute; reflexivity|]).
  injection Hq as ? ? ? ? Hq. destruct q; [|done]. destruct s; done.
Qed.
Lemma host_empty q : host_fs !! (data ++ q) = None.
Proof.
  unfold host_fs, data. rewrite lookup_insert_ne by done. rewrite lookup_insert_ne by done. by rewrite lookup_singleton_ne by done.
Qed.
Lemma good_names : List.NoDup (map en_name good).
Proof. repeat constructor; simpl; intuition discriminate. Qed.

Lemma good_manifest entries u1 : read_manifest parsed "3.0" ["20180618015850_initial.js"] (start "good" "abcde") = (Ok entries, u1) -> List.NoDup (map en_name entries).
Proof. intros E. assert (entries = good) as -> by (vm_compute in E; by injection E as <- _). exact good_names. Qed.

Lemma archive_stays_witness :
  let '(r, u') := open_demo (start "good" "abcde") in
  r = Ok tt /\ up_fs u' !! (data ++ ["nginx"; "a.conf"]) = Some (NFile "abc" 420) /\
  (exists entries u1, read_manifest parsed "3.0" ["20180618015850_initial.js"] (start "good" "abcde") = (Ok entries, u1) /\ forall e, In e entries -> placed data (up_fs u') e) /\
  up_fs u' !! ["data"; STORE] = Some NDir.
Proof.
  destruct (open_demo (start "good" "abcde")) as [r u'] eqn:E.
  assert (r = Ok tt) as -> by (change r with (fst (r, u')); rewrite <- E; vm_compute; reflexivity).
  destruct (archive_stays_in_its_directory parsed "3.0" _ data _ data_plain ltac:(discriminate) good_manifest host_dirs host_empty (Ok tt) u' E) as [Ho Hok].
  split; [reflexivity|]. split; [|split].
  - change u' with (snd (Ok tt : fallible unit, u')). rewrite <- E. vm_compute. reflexivity.
  - destruct (Hok eq_refl) as (entries & u1 & Hm & Hp & _). exists entries, u1. split; [exact Hm|exact Hp].
  - rewrite Ho; [vm_compute; reflexivity|]. intros q Hq. discriminate.
Defined.

(** Opening [nginx/current] follows its link, and stays inside. *)
Lemma restored_links_witness :
  let '(r, u') := open_demo (start "good" "abcde") in
  r = Ok tt /\ rtc (kernel (up_fs u')) (data, ["nginx"; "current"]) (data ++ ["nginx"], [".."; "nginx"; "a.conf"]) /\
  exists q, data ++ ["nginx"] = data ++ q.
Proof.
  destruct (open_demo (start "good" "abcde")) as [r u'] eqn:E.
  assert (r = Ok tt) as -> by (change r with (fst (r, u')); rewrite <- E; vm_compute; reflexivity).
  assert (rtc (kernel (up_fs u')) (data, ["nginx"; "current"]) (data ++ ["nginx"], [".."; "nginx"; "a.conf"])) as Hr.
  { change u' with (snd (Ok tt : fallible unit, u')). rewrite <- E.
    eapply rtc_l; [eapply (k_enter _ _ _ _ NDir); [reflexivity|vm_compute; reflexivity|discriminate]|].
    eapply rtc_l; [eapply (k_link _ _ _ _ "../nginx/a.conf"); [reflexivity|vm_compute; reflexivity]|]. apply rtc_refl. }
  split; [reflexivity|]. split; [exact Hr|].
  refine (restored_links_lead_inside parsed "3.0" _ data _ data_plain _ good_manifest host_dirs host_empty u' ["nginx"; "current"] _ _ E _ Hr);
    [discriminate|repeat constructor].
Defined.

Example repeated_names_escape :
  let '(r, u') := open_demo (start "repeated" "x") in
  r = Throw (NativeError "Invalid duplicate or reserved archive entry") /\ validateLinkGraph repeated = Ok tt /\
  up_fs u' !! ["data"; STORE; ".restore-x"; "evil"] = Some (NFile "x" 420).
Proof. vm_compute. by split_and!. Qed.
End DemoArchives.
