(* ===== verification/Backups.v ===== *)
(** Creating an archive: [copyData] and [create] of
    src/backend/lib/instance-backup.js up to the encryption, and the round trip
    with opening it.

    The instance is a tree as a directory listing gives it; nothing changes it while
    it is copied.  The dump of the database and the encoder of the manifest are
    arguments. *)

From stdpp Require Import gmap strings.
From S2P Require Import Prelude JsString FirewallPreview Errors Steps Archives.
#[local] Open Scope string_scope.
#[local] Open Scope list_scope.
#[local] Open Scope Z_scope.

(** ** The instance *)

#[local] Set Warnings "-register-all".
Inductive item : Type :=
| IFile (content : string) (mode : Z)
| ILink (target : string)
| IDir (mode : Z) (children : list (string * item))
| ISpecial.

(** What is copied so far: the entries, with the contents of the files. *)
Record copying : Type := MkCopying { cp_copied : list (entry * string); cp_total : Z }.

Definition add_entry (e : entry) (content : string) (c : copying) : copying := MkCopying (cp_copied c ++ [(e, content)]) (cp_total c).

(** ** Links *)

(** [path.resolve] of an absolute path, by components. *)
Definition absolute_part (acc : list string) (part : string) : list string :=
  if String.eqb part "" || String.eqb part "." then acc else if String.eqb part ".." then removelast acc else acc ++ [part].
Definition absolute (p : string) : list string := fold_left absolute_part (split_on "/" p) [].

(** [path.relative] *)
Fixpoint relative_parts (from to : list string) : list string :=
  match from, to with
  | f :: from', t :: to' => if String.eqb f t then relative_parts from' to' else map (fun _ => "..") from ++ to
  | _, _ => map (fun _ => "..") from ++ to
  end.
Definition path_relative (from to : string) : string := join "/" (relative_parts (absolute from) (absolute to)).

Section Creating.
Context `{Sha256} (directory : string).
Implicit Types (c : copying) (it : item).

(** The target a link is stored with. *)
Definition stored_target (name target : string) : fallible string :=
  if starts_with "/" target then
    throw NativeError "Instance contains a link outside its data directory" when (negb (starts_with (directory ++ "/") target)) ;;
    Ok (path_relative (join "/" (removelast (split_on "/" (directory ++ "/" ++ name)))) target)
  else Ok target.

(** [/^shieldpm\/database\.sqlite(?:-wal|-shm)?$/] *)
Definition database_file (name : string) : bool :=
  existsb (String.eqb name) ["shieldpm/database.sqlite"; "shieldpm/database.sqlite-wal"; "shieldpm/database.sqlite-shm"].

Definition mode_bits (mode : Z) : Z := Z.land mode 511.

(** One item of a directory, and what is below it. *)
Fixpoint copy_item (name : string) (it : item) (c : copying) : fallible copying :=
  if database_file name then Ok c
  else
    let? _ := safePath (Some name) in
    throw NativeError "Instance contains too many files" when (MAX_FILES <=? Z.of_nat (length (cp_copied c))) ;;
    match it with
    | IDir mode children =>
        (fix all (cs : list (string * item)) (c : copying) : fallible copying :=
          match cs with
          | [] => Ok c
          | (n, i) :: cs' => let? c := copy_item (name ++ "/" ++ n) i c in all cs' c
          end) children (add_entry (MkEntry (Some name) "directory" None None "" (mode_bits mode)) "" c)
    | ILink target =>
        let? link := stored_target name target in
        let? _ := safeLink name (Some link) in
        throw ENOENT when (String.eqb link "") ;;
        Ok (add_entry (MkEntry (Some name) "symlink" (Some link) None "" 0) "" c)
    | IFile content mode =>
        let total := cp_total c + strlen content in
        throw NativeError "Instance exceeds backup size limit" when (MAX_BACKUP_BYTES <? total) ;;
        Ok (add_entry (MkEntry (Some name) "file" None (Some (strlen content)) (sha256 content) (mode_bits mode)) content (MkCopying (cp_copied c) total))
    | ISpecial => Ok c
    end.

Definition left_out (name : string) : bool := String.eqb name STORE || String.eqb name ".database".

Fixpoint copy_all (root : list (string * item)) (c : copying) : fallible copying :=
  match root with
  | [] => Ok c
  | (n, i) :: root' => let? c := if left_out n then Ok c else copy_item n i c in copy_all root' c
  end.

Definition copyData (root : list (string * item)) : fallible (list (entry * string)) :=
  let? c := copy_all root (MkCopying [] 0) in
  let? _ := validateLinkGraph (map fst (cp_copied c)) in
  Ok (cp_copied c).

(** ** The payload *)

(** [writeUInt32BE] *)
Definition writeUInt32BE (n : Z) : string :=
  let digit k := ascii_of_nat (Z.to_nat (n / 256 ^ k mod 256)) in
  String (digit 3) (String (digit 2) (String (digit 1) (String (digit 0) ""))).

Record database : Type := MkDatabase { da_engine : string; da_file : string; da_dump : string; da_migrations : list string }.

Definition database_entries (d : database) : list (entry * string) :=
  [(MkEntry (Some ".database") "directory" None None "" 448, "");
   (MkEntry (Some (".database/" ++ da_file d)%string) "file" None (Some (strlen (da_dump d))) (sha256 (da_dump d)) 384, da_dump d)].

Definition contents (copied : list (entry * string)) : string := String.concat "" (map snd (List.filter (fun ec => String.eqb (en_type (fst ec)) "file") copied)).

Definition manifest_for (version : string) (copied : list (entry * string)) (d : database) : manifest :=
  MkManifest 1 version (Some (map fst copied)) (da_engine d) (Some (map Some (da_migrations d))).

(** [create] up to the encryption, with the number of archives there are. *)
Definition create (encode : manifest -> string) (version : string) (archives : nat) (root : list (string * item)) (d : database) : fallible string :=
  throw NativeError "Archive limit reached; remove an older encrypted backup first" when (Nat.leb 50 archives) ;;
  let? copied := copyData root in
  let copied := copied ++ database_entries d in
  let encoded := encode (manifest_for version copied d) in
  throw NativeError "Manifest exceeds its size limit" when (MAX_MANIFEST <? strlen encoded) ;;
  let payload := (writeUInt32BE (strlen encoded) ++ encoded ++ contents copied)%string in
  throw NativeError "Backup exceeds its size limit" when (MAX_BACKUP_BYTES <? strlen payload) ;;
  Ok payload.
End Creating.

(** ** What is copied *)

Section ItemInduction.
Context (Q : item -> Prop) (R : list (string * item) -> Prop).
Context (Hfile : forall content mode, Q (IFile content mode)) (Hlink : forall target, Q (ILink target)) (Hspecial : Q ISpecial).
Context (Hdir : forall mode children, R children -> Q (IDir mode children)) (Hnil : R []) (Hcons : forall n i cs, Q i -> R cs -> R ((n, i) :: cs)).

Fixpoint item_ind' (it : item) : Q it :=
  match it with
  | IFile content mode => Hfile content mode
  | ILink target => Hlink target
  | ISpecial => Hspecial
  | IDir mode children =>
      Hdir mode children ((fix all (cs : list (string * item)) : R cs :=
        match cs with [] => Hnil | (n, i) :: cs' => Hcons n i cs' (item_ind' i) (all cs') end) children)
  end.

Lemma items_ind cs : R cs.
Proof. induction cs as [|[n i] cs IH]; [done|]. apply Hcons; [apply item_ind'|done]. Qed.
End ItemInduction.

Section Listing.
Context `{Sha256} (directory : string).
Implicit Types (P p q : path) (it i : item) (cs : list (string * item)) (c : copying) (L : list (path * item)).

(** The paths below [P] that are copied, in their order. *)
Fixpoint flat P it : list (path * item) :=
  if database_file (join "/" P) then []
  else match it with
       | IDir mode cs => (P, it) :: (fix all (cs : list (string * item)) := match cs with [] => [] | (n, i) :: cs' => flat (P ++ [n]) i ++ all cs' end) cs
       | ISpecial => []
       | _ => [(P, it)]
       end.
Definition flat_list P : list (string * item) -> list (path * item) :=
  fix all (cs : list (string * item)) := match cs with [] => [] | (n, i) :: cs' => flat (P ++ [n]) i ++ all cs' end.

Lemma flat_eq P it : flat P it =
  if database_file (join "/" P) then []
  else match it with IDir mode cs => (P, it) :: flat_list P cs | ISpecial => [] | _ => [(P, it)] end.
Proof. by destruct it. Qed.

(** A listing of a directory has no name twice and no name with a slash. *)
Fixpoint item_ok it : Prop :=
  match it with
  | IDir _ cs => List.NoDup (map fst cs) /\ (fix all (cs : list (string * item)) := match cs with [] => True | (n, i) :: cs' => has_char "/" n = false /\ item_ok i /\ all cs' end) cs
  | _ => True
  end.
Definition children_ok : list (string * item) -> Prop :=
  fix all (cs : list (string * item)) : Prop := match cs with [] => True | (n, i) :: cs' => has_char "/" n = false /\ item_ok i /\ all cs' end.
Definition listing_ok cs : Prop := List.NoDup (map fst cs) /\ children_ok cs.
Lemma item_ok_dir mode cs : item_ok (IDir mode cs) <-> listing_ok cs.
Proof. done. Qed.

Lemma flat_under P it p i : In (p, i) (flat P it) -> exists q, p = P ++ q.
Proof.
  revert P. revert it. apply (item_ind' (fun it => forall P, In (p, i) (flat P it) -> exists q, p = P ++ q) (fun cs => forall P, In (p, i) (flat_list P cs) -> exists q, p = P ++ q)).
  - intros content mode P. rewrite flat_eq. destruct (database_file _); [done|]. intros [[= <- _]|[]]. exists []. by rewrite app_nil_r.
  - intros target P. rewrite flat_eq. destruct (database_file _); [done|]. intros [[= <- _]|[]]. exists []. by rewrite app_nil_r.
  - intros P. rewrite flat_eq. by destruct (database_file _).
  - intros mode cs IH P. rewrite flat_eq. destruct (database_file _); [done|]. intros [[= <- _]|Hin]; [exists []; by rewrite app_nil_r|auto].
  - done.
  - intros n j cs IHi IHcs P. cbn [flat_list]. intros [Hin|Hin]%in_app_iff; [|auto]. apply IHi in Hin as (q & ->). exists ([n] ++ q). by rewrite <- app_assoc.
Qed.

Lemma flat_list_under P cs p i : In (p, i) (flat_list P cs) -> exists n q, In n (map fst cs) /\ p = P ++ n :: q.
Proof.
  induction cs as [|[n j] cs IH]; [done|]. cbn [flat_list map fst]. intros [Hin|Hin]%in_app_iff.
  - apply flat_under in Hin as (q & ->). exists n, q. split; [by left|by rewrite <- app_assoc].
  - destruct (IH Hin) as (m & q & Hm & ->). exists m, q. split; [by right|done].
Qed.

Lemma in_paths p L : In p (map fst L) -> exists i, In (p, i) L.
Proof. intros ([p' i] & <- & Hin)%in_map_iff. by exists i. Qed.

(** No path twice. *)
Lemma flat_nodup : (forall it, item_ok it -> forall P, List.NoDup (map fst (flat P it))) /\ (forall cs, listing_ok cs -> forall P, List.NoDup (map fst (flat_list P cs))).
Proof.
  set (Q := fun it => item_ok it -> forall P, List.NoDup (map fst (flat P it))). set (R := fun cs => listing_ok cs -> forall P, List.NoDup (map fst (flat_list P cs))).
  assert (forall n i cs, Q i -> R cs -> R ((n, i) :: cs)) as Hcons.
  { intros n i cs IHi IHcs [Hnd (Hn & Hi & Hcs)] P. cbn [flat_list]. inversion Hnd as [|? ? Hni Hnd']; subst. rewrite map_app.
    apply NoDup_ListNoDup, NoDup_app. split_and!; [apply NoDup_ListNoDup, IHi, Hi| |apply NoDup_ListNoDup, IHcs; by split].
    intros p (j & Hj)%list_elem_of_In%in_paths (k & Hk)%list_elem_of_In%in_paths. apply flat_under in Hj as (q & ->). apply flat_list_under in Hk as (m & r & Hm & He).
    rewrite <- app_assoc in He. apply app_inv_head in He. injection He as -> _. done. }
  assert (forall it, Q it) as HQ.
  { apply (item_ind' Q R); try done.
    - intros content mode _ P. rewrite flat_eq. destruct (database_file _); [constructor|]. repeat constructor. by intros [].
    - intros target _ P. rewrite flat_eq. destruct (database_file _); [constructor|]. repeat constructor. by intros [].
    - intros _ P. rewrite flat_eq. destruct (database_file _); constructor.
    - intros mode cs IH Hok P. rewrite flat_eq. destruct (database_file _); [constructor|]. cbn [map fst]. constructor; [|apply IH, (item_ok_dir mode), Hok].
      intros (i & Hin)%in_paths. apply flat_list_under in Hin as (n & q & _ & He). apply (f_equal length) in He. rewrite length_app in He. simpl in He. lia.
    - intros _ P. constructor. }
  split; [done|]. intros cs. apply (items_ind Q R); [intros; apply HQ|intros; apply HQ|apply HQ|intros mode cs' _; apply HQ|intros _ P; constructor|done].
Qed.

(** What a path is below comes before it, down to a base. *)
Definition parents_first (base : path -> Prop) L : Prop :=
  forall L1 p i L2 q r, L = L1 ++ (p, i) :: L2 -> p = q ++ r -> r <> [] -> base q \/ exists mode cs, In (q, IDir mode cs) L1.

Lemma parents_app (base : path -> Prop) L L' : parents_first base L -> parents_first (fun q => base q \/ exists mode cs, In (q, IDir mode cs) L) L' -> parents_first base (L ++ L').
Proof.
  intros HL HL' L1 p i L2 q r Heq Hp Hr. apply app_eq_app in Heq as (l & [[-> Hl]|[-> Hl]]).
  - destruct l as [|x l]; [|injection Hl as <- ->].
    + rewrite app_nil_r in *. destruct (HL' [] p i L2 q r (eq_sym Hl) Hp Hr) as [?|(? & ? & [])]; done.
    + by apply (HL L1 p i l q r).
  - destruct (HL' l p i L2 q r Hl Hp Hr) as [[?|(mode & cs & Hin)]|(mode & cs & Hin)]; [by left|right; exists mode, cs; apply in_app_iff; by left|right; exists mode, cs; apply in_app_iff; by right].
Qed.

Lemma parents_weaken (base base' : path -> Prop) L : (forall q, base q -> base' q) -> parents_first base L -> parents_first base' L.
Proof. intros Hb HL L1 p i L2 q r Heq Hp Hr. destruct (HL L1 p i L2 q r Heq Hp Hr); auto. Qed.

Definition above_path P q : Prop := exists s, P = q ++ s /\ s <> [].
Definition on_path P q : Prop := exists s, P = q ++ s.

Lemma single_parents P i : parents_first (above_path P) [(P, i)].
Proof. intros L1 p j L2 q r Heq Hp Hr. destruct L1 as [|? [|? ?]]; [|done..]. injection Heq as <- <- _. left. by exists r. Qed.

Lemma above_child P n q : above_path (P ++ [n]) q -> on_path P q.
Proof.
  intros (s & Hs & Hne). destruct (exists_last Hne) as (s' & x & ->). rewrite app_assoc in Hs. apply app_inj_tail in Hs as [-> _]. by exists s'.
Qed.

Lemma flat_parents it P : parents_first (above_path P) (flat P it).
Proof.
  revert P. revert it. apply (item_ind' (fun it => forall P, parents_first (above_path P) (flat P it)) (fun cs => forall P, parents_first (on_path P) (flat_list P cs))).
  - intros content mode P. rewrite flat_eq. destruct (database_file _); [by intros [|? ?]|]. apply single_parents.
  - intros target P. rewrite flat_eq. destruct (database_file _); [by intros [|? ?]|]. apply single_parents.
  - intros P. rewrite flat_eq. by destruct (database_file _); intros [|? ?].
  - intros mode cs IH P. rewrite flat_eq. destruct (database_file _); [by intros [|? ?]|]. apply (parents_app _ [_]); [apply single_parents|].
    eapply parents_weaken, IH. intros q (s & ->). destruct s as [|x s]; [right; exists mode, cs; rewrite app_nil_r; by left|left; by exists (x :: s)].
  - intros P. by intros [|? ?].
  - intros n i cs IHi IHcs P. cbn [flat_list]. apply parents_app.
    + eapply parents_weaken, IHi. apply above_child.
    + eapply parents_weaken, IHcs. by left.
Qed.

Lemma flat_list_parents cs P : parents_first (on_path P) (flat_list P cs).
Proof.
  induction cs as [|[n i] cs IH]; [by intros [|? ?]|]. cbn [flat_list]. apply parents_app.
  - eapply parents_weaken, flat_parents. apply above_child.
  - eapply parents_weaken, IH. by left.
Qed.

(** *** The copy is the listing *)

(** The entry of a path, and its content. *)
Definition target_of p (target : string) : string := match stored_target directory (join "/" p) target with Ok link => link | Throw _ => "" end.
Definition pair_of (x : path * item) : entry * string :=
  let '(p, it) := x in
  let name := Some (join "/" p) in
  match it with
  | IFile content mode => (MkEntry name "file" None (Some (strlen content)) (sha256 content) (mode_bits mode), content)
  | ILink target => (MkEntry name "symlink" (Some (target_of p target)) None "" 0, "")
  | IDir mode _ => (MkEntry name "directory" None None "" (mode_bits mode), "")
  | ISpecial => (MkEntry name "" None None "" 0, "")
  end.

(** What the copy has made sure of. *)
Definition checked (x : path * item) : Prop :=
  plain (fst x) /\ fst x <> [] /\ safePath (Some (join "/" (fst x))) = Ok (join "/" (fst x)) /\
  match snd x with
  | ILink target => safeLink (join "/" (fst x)) (Some (target_of (fst x) target)) = Ok (target_of (fst x) target) /\ target_of (fst x) target <> ""
  | ISpecial => False
  | _ => True
  end.

Definition slashless p : Prop := Forall (fun part => has_char "/" part = false) p.

Lemma safe_path p v : slashless p -> p <> [] -> safePath (Some (join "/" p)) = Ok v -> plain p /\ safePath (Some (join "/" p)) = Ok (join "/" p).
Proof.
  intros Hs Hn E. pose proof E as E'. apply safe_name in E' as (He & Hp & _). injection He as <-.
  rewrite split_join in Hp; [done|done|]. exact Hs.
Qed.

Definition copy_list (name : string) : list (string * item) -> copying -> fallible copying :=
  fix all (cs : list (string * item)) (c : copying) : fallible copying :=
    match cs with
    | [] => Ok c
    | (n, i) :: cs' => let? c := copy_item directory (name ++ "/" ++ n) i c in all cs' c
    end.

Lemma copy_item_eq name it c : copy_item directory name it c =
  if database_file name then Ok c
  else
    let? _ := safePath (Some name) in
    throw NativeError "Instance contains too many files" when (MAX_FILES <=? Z.of_nat (length (cp_copied c))) ;;
    match it with
    | IDir mode children => copy_list name children (add_entry (MkEntry (Some name) "directory" None None "" (mode_bits mode)) "" c)
    | ILink target =>
        let? link := stored_target directory name target in
        let? _ := safeLink name (Some link) in
        throw ENOENT when (String.eqb link "") ;;
        Ok (add_entry (MkEntry (Some name) "symlink" (Some link) None "" 0) "" c)
    | IFile content mode =>
        let total := cp_total c + strlen content in
        throw NativeError "Instance exceeds backup size limit" when (MAX_BACKUP_BYTES <? total) ;;
        Ok (add_entry (MkEntry (Some name) "file" None (Some (strlen content)) (sha256 content) (mode_bits mode)) content (MkCopying (cp_copied c) total))
    | ISpecial => Ok c
    end.
Proof. by destruct it. Qed.

Lemma join_child p n : p <> [] -> join "/" (p ++ [n]) = (join "/" p ++ "/" ++ n)%string.
Proof.
  induction p as [|x p IH]; [done|]. intros _. destruct p as [|y p]; [done|]. change (join "/" ((x :: y :: p) ++ [n])) with (x ++ "/" ++ join "/" ((y :: p) ++ [n]))%string.
  rewrite IH by done. change (join "/" (x :: y :: p)) with (x ++ "/" ++ join "/" (y :: p))%string. by rewrite !append_assoc.
Qed.

(** One step of the copy: its entries are those of the listing, in order. *)
Definition copies c c' L : Prop := cp_copied c' = cp_copied c ++ map pair_of L /\ Forall checked L.

Lemma copies_app c1 c2 c3 L L' : copies c1 c2 L -> copies c2 c3 L' -> copies c1 c3 (L ++ L').
Proof. intros [H1 F1] [H2 F2]. split; [by rewrite H2, H1, map_app, app_assoc|by apply Forall_app]. Qed.

Lemma copy_item_spec it : item_ok it -> forall p c c', slashless p -> p <> [] -> copy_item directory (join "/" p) it c = Ok c' -> copies c c' (flat p it).
Proof.
  revert it. set (Q := fun it => item_ok it -> forall p c c', slashless p -> p <> [] -> copy_item directory (join "/" p) it c = Ok c' -> copies c c' (flat p it)).
  set (R := fun cs => listing_ok cs -> forall p c c', slashless p -> p <> [] -> copy_list (join "/" p) cs c = Ok c' -> copies c c' (flat_list p cs)).
  assert (forall c, copies c c []) as Hnone by (intros c; split; [by rewrite app_nil_r|done]).
  assert (forall it p, checked (p, it) -> forall c c', cp_copied c' = cp_copied c ++ [pair_of (p, it)] -> copies c c' [(p, it)]) as Hone by (intros it p Hc c c' He; split; [done|by constructor]).
  apply (item_ind' Q R).
  - intros content mode _ p c c' Hs Hn. rewrite copy_item_eq, flat_eq. destruct (database_file _); [by intros [= <-]|]. intros Hc. ok_inv Hc. ok_inv Hc. ok_inv Hc. injection Hc as <-.
    apply (Hone (IFile content mode)); [|done]. destruct (safe_path p v Hs Hn E). by split_and!.
  - intros target _ p c c' Hs Hn. rewrite copy_item_eq, flat_eq. destruct (database_file _); [by intros [= <-]|]. intros Hc. ok_inv Hc. ok_inv Hc. ok_inv Hc. ok_inv Hc. ok_inv Hc. injection Hc as <-.
    assert (target_of p target = v0) as Ht by (unfold target_of; by rewrite E0).
    apply (Hone (ILink target)); [|cbn [pair_of]; by rewrite Ht]. destruct (safe_path p v Hs Hn E). split_and!; [done..|]. cbn. rewrite Ht. split; [|by apply String.eqb_neq].
    rewrite E1. unfold safeLink in E1. ok_all E1. by injection E1 as ->.
  - intros _ p c c' Hs Hn. rewrite copy_item_eq, flat_eq. destruct (database_file _); [by intros [= <-]|]. intros Hc. ok_inv Hc. ok_inv Hc. by injection Hc as <-.
  - intros mode cs IH Hok p c c' Hs Hn. rewrite copy_item_eq, flat_eq. destruct (database_file _); [by intros [= <-]|]. intros Hc. ok_inv Hc. ok_inv Hc.
    change ((p, IDir mode cs) :: flat_list p cs) with ([(p, IDir mode cs)] ++ flat_list p cs).
    eapply copies_app; [|eapply IH; [done..|exact Hc]].
    apply (Hone (IDir mode cs)); [|done]. destruct (safe_path p v Hs Hn E). by split_and!.
  - intros _ p c c' _ _ [= <-]. done.
  - intros n i cs IHi IHcs [Hnd (Hsl & Hi & Hcs)] p c c' Hs Hn. cbn [copy_list flat_list]. intros Hc. rewrite <- join_child in Hc by done. ok_inv Hc.
    apply (copies_app c v c'); [|apply IHcs; try done; by inversion Hnd]. apply IHi; [done|apply Forall_app; split; [done|by constructor]|by destruct p|done].
Qed.

Definition kept_children root : list (string * item) := List.filter (fun ni => negb (left_out (fst ni))) root.

Lemma copy_all_spec root c c' : listing_ok root -> copy_all directory root c = Ok c' -> copies c c' (flat_list [] (kept_children root)).
Proof.
  revert c. induction root as [|[n i] root IH]; intros c [Hnd Hok]; cbn [copy_all]; [intros [= <-]; split; [by rewrite app_nil_r|done]|].
  destruct Hok as (Hsl & Hi & Hcs). inversion Hnd as [|? ? _ Hnd']; subst. unfold kept_children. cbn [List.filter fst]. destruct (left_out n); cbn [negb rbind]; [intros Hc; by apply IH|].
  intros Hc. ok_inv Hc. cbn [flat_list]. apply (copies_app c v c'); [|by apply IH]. apply (copy_item_spec i Hi [n]); [by constructor|done|exact E].
Qed.
End Listing.

(** ** Unpacking what was created *)

Section Kernel.
Implicit Types (fs : tree) (p q cur : path).

Lemma resolve_all hops fs p cur : plain p -> (forall q r, p = q ++ r -> q <> [] -> fs !! (cur ++ q) = Some NDir) -> resolve hops fs p cur = Some (cur ++ p).
Proof.
  revert cur. induction p as [|part p IH]; intros cur Hp Hd; [by rewrite resolve_nil, app_nil_r|].
  apply plain_cons in Hp as [[Hpart _] Hp]. apply plain_cases in Hpart as [He Hu]. rewrite resolve_cons, He, Hu, (Hd [part] p) by done.
  rewrite (IH (cur ++ [part])), <- app_assoc; [done|done|]. intros q r -> Hq. rewrite <- app_assoc. by apply (Hd (part :: q) r).
Qed.

Lemma create_new fs p n : plain p -> p <> [] -> (forall q r, p = q ++ r -> q <> [] -> r <> [] -> fs !! q = Some NDir) -> fs !! p = None ->
  create_at fs p n = Ok (p, <[p := n]> fs).
Proof.
  intros Hp Hn Hd Hnone. destruct (last_removelast p Hn) as (name & Hs & Hl). unfold create_at. rewrite Hl.
  assert (forall q r, removelast p = q ++ r -> q <> [] -> fs !! q = Some NDir) as Hd'.
  { intros q r Hqr Hq. apply (Hd q (r ++ [name])); [|done|by destruct r]. by rewrite Hs, Hqr, <- app_assoc at 1. }
  rewrite resolve_all; [|rewrite Hs in Hp; by apply plain_app in Hp as [? _]|done]. simpl.
  assert (is_dir fs (removelast p) = true) as ->.
  { destruct (removelast p) as [|x l] eqn:E; [done|]. cbn [is_dir]. by rewrite (Hd' (x :: l) []) by (by rewrite ?app_nil_r). }
  simpl. by rewrite <- Hs, Hnone.
Qed.

Lemma mkdirp_new fs p cur : p <> [] -> (forall q r, p = q ++ r -> q <> [] -> r <> [] -> fs !! (cur ++ q) = Some NDir) -> fs !! (cur ++ p) = None ->
  mkdirp fs p cur = Ok (<[cur ++ p := NDir]> fs).
Proof.
  revert cur. induction p as [|part p IH]; intros cur Hn Hd Hnone; [done|]. cbn [mkdirp]. destruct p as [|x p].
  - by rewrite Hnone.
  - rewrite (Hd [part] (x :: p)) by done. rewrite (IH (cur ++ [part])), <- app_assoc; [done|done| |by rewrite <- app_assoc].
    intros q r Heq Hq Hr. rewrite <- app_assoc. apply (Hd (part :: q) r); [by rewrite Heq|done|done].
Qed.
End Kernel.

Section RoundTrip.
Context `{Sha256} (directory : string) (data : path) (L : list (path * item)).
Context (Hplain : plain data) (Hdata : data <> []).
Context (Hsha : forall s, (strlen (sha256 s) =? 64) && all_chars is_hex_lower (sha256 s) = true).
Context (Hchecked : Forall (checked directory) L) (Hnd : List.NoDup (map fst L)) (Hpar : parents_first (on_path []) L).
Context (Hstore : forall p i, In (p, i) L -> hd_error p <> Some STORE).
Implicit Types (p q : path) (i : item) (u : unpacking).

Definition node_of (x : path * item) : fnode :=
  match snd x with
  | IFile content mode => NFile content (mode_bits mode)
  | ILink target => NLink (target_of directory (fst x) target)
  | _ => NDir
  end.

Definition size_of (x : path * item) : Z := match snd x with IFile content _ => strlen content | _ => 0 end.
Definition size_all : list (path * item) -> Z := fold_right (fun x n => size_of x + n) 0.
Context (Hsize : size_all L <= MAX_BACKUP_BYTES).

Definition created_entries : list entry := map (fun x => fst (pair_of directory x)) L.
Definition remaining : list (path * item) -> string := fold_right (fun x s => match snd x with IFile content _ => (content ++ s)%string | _ => s end) "".

Lemma size_all_app A B : size_all (A ++ B) = size_all A + size_all B.
Proof. unfold size_all. induction A as [|x A IH]; [done|]. cbn [app fold_right]. rewrite IH. lia. Qed.
Lemma size_all_nonneg A : 0 <= size_all A.
Proof. unfold size_all. induction A as [|x A IH]; [done|]. cbn [fold_right]. unfold size_of at 1. destruct (snd x); lia. Qed.

Lemma checked_in p i : In (p, i) L -> checked directory (p, i).
Proof. intros Hin. rewrite Forall_forall in Hchecked. by apply Hchecked, list_elem_of_In. Qed.

Lemma same_path p q i j : In (p, i) L -> In (q, j) L -> join "/" p = join "/" q -> p = q /\ i = j.
Proof.
  intros Hp Hq He. destruct (checked_in _ _ Hp) as (Hpp & Hpn & _). destruct (checked_in _ _ Hq) as (Hqp & Hqn & _). apply join_inj in He; [|done..]. subst q. split; [done|].
  pose proof (key_unique fst L _ _ Hnd Hp Hq eq_refl) as He. by injection He.
Qed.

Lemma created_type p i : en_name (fst (pair_of directory (p, i))) = Some (join "/" p).
Proof. by destruct i. Qed.

Lemma parent_listed q mode cs : In (q, IDir mode cs) L -> map_get (join "/" q) (parents_of created_entries) = Some "directory".
Proof.
  intros Hin. unfold parents_of. apply map_of_get.
  - apply list_elem_of_In, list_elem_of_omap. exists (fst (pair_of directory (q, IDir mode cs))). split; [|done]. apply list_elem_of_In. unfold created_entries. by apply (in_map (fun x => fst (pair_of directory x))).
  - intros v Hv. apply list_elem_of_In, list_elem_of_omap in Hv as (e & He%list_elem_of_In & Hev). unfold created_entries in He. apply in_map_iff in He as ([p i] & <- & Hp).
    rewrite created_type in Hev. injection Hev as Hname <-. destruct (same_path p q _ _ Hp Hin Hname) as [-> ->]. done.
Qed.

Lemma parents_there L1 p i L2 : L = L1 ++ (p, i) :: L2 -> parents_ok (parents_of created_entries) (join "/" p) = true.
Proof.
  intros HL. assert (In (p, i) L) as Hin by (rewrite HL; apply in_app_iff; right; by left). destruct (checked_in _ _ Hin) as (Hp & Hn & _).
  unfold parents_ok. rewrite split_plain by done. apply forallb_forall. intros q Hq. unfold above in Hq. apply in_rev, in_map_iff in Hq as (k & <- & Hk%in_seq).
  apply bool_decide_eq_true. destruct (Hpar L1 p i L2 (firstn k p) (skipn k p) HL) as [(s & Hs)|(mode & cs & Hd)].
  - by rewrite firstn_skipn.
  - intros Hc%(f_equal length). rewrite length_skipn in Hc. simpl in Hc. lia.
  - apply (f_equal length) in Hs. rewrite length_app, length_firstn in Hs. simpl in Hs. destruct p; [done|simpl in *; lia].
  - apply (parent_listed _ mode cs). rewrite HL. apply in_app_iff. by left.
Qed.

(** What is there after the first entries. *)
Record unpacked (L1 L2 : list (path * item)) u : Prop := {
  un_data : forall q r, data = q ++ r -> q <> [] -> up_fs u !! q = Some NDir;
  un_there : forall x, In x L1 -> up_fs u !! (data ++ fst x) = Some (node_of x);
  un_none : forall p, p <> [] -> ~ In p (map fst L1) -> up_fs u !! (data ++ p) = None;
  un_names : up_names u = map (fun x => join "/" (fst x)) L1;
  un_total : up_total u = size_all L1;
  un_rest : up_payload u = remaining L2
}.

Lemma unpacked_insert L1 p i L2 u u' : In (p, i) L -> ~ In p (map fst L1) -> unpacked L1 ((p, i) :: L2) u ->
  up_fs u' = <[data ++ p := node_of (p, i)]> (up_fs u) -> up_names u' = up_names u ++ [join "/" p] -> up_total u' = up_total u + size_of (p, i) -> up_payload u' = remaining L2 ->
  unpacked (L1 ++ [(p, i)]) L2 u'.
Proof.
  intros Hin Hni [Hd Ht Hno Hna Hto Hre] Hf Hn Htot Hr. destruct (checked_in _ _ Hin) as (_ & Hne & _). simpl in Hne. constructor.
  - intros q r Heq Hq. rewrite Hf, lookup_insert_ne; [by apply (Hd q r)|]. intros Hc. rewrite Heq in Hc. apply (f_equal length) in Hc. rewrite !length_app in Hc. destruct p; [done|simpl in Hc; lia].
  - intros x [Hx|[<-|[]]]%in_app_iff; rewrite Hf; [|by rewrite lookup_insert_eq]. rewrite lookup_insert_ne; [by apply Ht|]. intros Hc%app_inv_head. apply Hni. rewrite Hc. by apply in_map.
  - intros q Hq Hnq. rewrite Hf, lookup_insert_ne.
    + apply Hno; [done|]. intros Hc. apply Hnq. rewrite map_app. apply in_app_iff. by left.
    + intros Hc%app_inv_head. apply Hnq. rewrite map_app. apply in_app_iff. right. by left.
  - rewrite Hn, Hna, map_app. done.
  - rewrite Htot, Hto, size_all_app. unfold size_all. cbn [fold_right]. lia.
  - done.
Qed.

Lemma entry_unpacked L1 p i L2 u : L = L1 ++ (p, i) :: L2 -> unpacked L1 ((p, i) :: L2) u ->
  exists u', unpack_entry data (parents_of created_entries) (fst (pair_of directory (p, i))) u = (Ok tt, u') /\ unpacked (L1 ++ [(p, i)]) L2 u'.
Proof.
  intros HL Hu. assert (In (p, i) L) as Hin by (rewrite HL; apply in_app_iff; right; by left). destruct (checked_in _ _ Hin) as (Hp & Hn & Hsafe & Hk). cbn [fst snd] in Hp, Hn, Hk, Hsafe.
  assert (~ In p (map fst L1)) as Hni.
  { rewrite HL, map_app in Hnd. cbn [map fst] in Hnd. apply NoDup_remove_2 in Hnd. intros Hc. apply Hnd, in_app_iff. by left. }
  assert (existsb (String.eqb (join "/" p)) (up_names u) || bool_decide (hd_error (split_on "/" (join "/" p)) = Some STORE) = false) as Hfresh.
  { rewrite (un_names _ _ _ Hu), split_plain by done. apply orb_false_iff. split; [|apply bool_decide_eq_false; by apply (Hstore p i)].
    destruct (existsb _ _) eqn:E; [|done]. apply existsb_exists in E as (s & ([q j] & <- & Hq)%in_map_iff & He%String.eqb_eq). destruct Hni.
    destruct (same_path p q i j) as [-> _]; [done|rewrite HL; apply in_app_iff; by left|done|]. by apply (in_map fst) in Hq. }
  assert (forall q r, data ++ p = q ++ r -> q <> [] -> r <> [] -> up_fs u !! q = Some NDir) as Hdirs.
  { intros q r Heq Hq Hr. destruct (prefix_split _ _ _ _ Heq) as [(m & Hm & _)|(m & -> & Hm)]; [by apply (un_data _ _ _ Hu q m)|].
    destruct m as [|x m]; [rewrite app_nil_r; apply (un_data _ _ _ Hu data []); by rewrite ?app_nil_r|].
    destruct (Hpar L1 p i L2 (x :: m) r HL Hm Hr) as [(s & Hs)|(mode & cs & Hd)]; [done|]. apply (un_there _ _ _ Hu) in Hd. exact Hd. }
  pose proof (un_none _ _ _ Hu p Hn Hni) as Hnone. assert (plain (data ++ p)) as Hpp by (by apply plain_app). assert (data ++ p <> []) as Hpn by (by destruct data).
  unfold unpack_entry, and_then, of_result, read_state, update_state. rewrite created_type, Hsafe, Hfresh, (parents_there L1 p i L2 HL), split_plain by done. cbn [throw_if negb rbind].
  destruct i as [content mode|target|mode cs|]; [| | |done].
  - cbn [pair_of fst en_type String.eqb Ascii.eqb Bool.eqb unpack_file en_size en_sha256 en_mode].
    change (String.eqb "file" "directory") with false. change (String.eqb "file" "symlink") with false. change (String.eqb "file" "file") with true. cbn iota.
    unfold unpack_file. cbn [en_size en_sha256 en_mode]. unfold and_then, of_result, read_state, update_state. rewrite Hsha. replace (strlen content <? 0) with false by (symmetry; apply Z.ltb_ge; lia).
    cbn [orb negb throw_if rbind up_total up_fs up_names up_payload].
    replace (MAX_BACKUP_BYTES <? up_total u + strlen content) with false.
    2:{ symmetry. apply Z.ltb_ge. rewrite (un_total _ _ _ Hu). rewrite HL, size_all_app in Hsize. unfold size_all at 2 in Hsize. cbn [fold_right] in Hsize. fold (size_all L2) in Hsize. pose proof (size_all_nonneg L2). unfold size_of in Hsize. simpl in Hsize. lia. }
    cbn [throw_if rbind]. unfold on_tree. cbn [up_total up_fs up_names up_payload]. rewrite (create_new _ _ _ Hpp Hpn Hdirs Hnone).
    unfold read_chunks. cbn [up_total up_fs up_names up_payload]. rewrite (un_rest _ _ _ Hu). cbn [remaining fold_right snd]. fold (remaining L2).
    replace (strlen content <=? strlen (content ++ remaining L2)) with true by (symmetry; apply Z.leb_le; rewrite length_append; lia).
    rewrite Nat2Z.id, take_str_app, drop_str_app, String.eqb_refl. cbn [negb throw_if rbind up_total up_fs up_names up_payload]. eexists. split; [reflexivity|].
    apply (unpacked_insert L1 p _ L2 u); try done. cbn [up_fs]. rewrite !insert_insert_eq. unfold mode_bits. rewrite <- Z.land_assoc, Z.land_diag. done.
  - cbn [pair_of fst en_type en_target]. change (String.eqb "symlink" "directory") with false. change (String.eqb "symlink" "symlink") with true. cbn iota.
    destruct Hk as [Hl Hne]. rewrite Hl, (proj2 (String.eqb_neq _ _) Hne). cbn [throw_if rbind]. unfold on_tree. cbn [up_total up_fs up_names up_payload]. rewrite (create_new _ _ _ Hpp Hpn Hdirs Hnone).
    eexists. split; [reflexivity|]. apply (unpacked_insert L1 p _ L2 u); try done; [cbn; lia|]. cbn [up_payload]. by rewrite (un_rest _ _ _ Hu).
  - cbn [pair_of fst en_type]. change (String.eqb "directory" "directory") with true. cbn iota. unfold on_tree. cbn [up_total up_fs up_names up_payload].
    rewrite (mkdirp_new _ _ [] Hpn Hdirs Hnone). cbn [rmap rbind]. eexists. split; [reflexivity|]. apply (unpacked_insert L1 p _ L2 u); try done; [cbn; lia|]. cbn [up_payload]. by rewrite (un_rest _ _ _ Hu).
Qed.

Lemma all_unpacked L1 L2 u : L = L1 ++ L2 -> unpacked L1 L2 u ->
  exists u', unpack_all data (parents_of created_entries) (map (fun x => fst (pair_of directory x)) L2) u = (Ok tt, u') /\ unpacked L [] u'.
Proof.
  revert L1 u. induction L2 as [|[p i] L2 IH]; intros L1 u HL Hu; cbn [map unpack_all].
  - rewrite app_nil_r in HL. subst L1. by exists u.
  - destruct (entry_unpacked L1 p i L2 u HL Hu) as (u1 & He & Hu1). destruct (IH (L1 ++ [(p, i)]) u1) as (u' & Ha & Hu'); [by rewrite <- app_assoc|done|].
    exists u'. split; [|done]. unfold and_then at 1. by rewrite He.
Qed.

Lemma archive_unpacked fs payload : validateLinkGraph created_entries = Ok tt ->
  (forall q r, data = q ++ r -> q <> [] -> r <> [] -> fs !! q = Some NDir) -> (forall q, fs !! (data ++ q) = None) -> payload = remaining L ->
  exists u', unpack data created_entries (MkUnpacking fs [] 0 payload) = (Ok tt, u') /\ unpacked L [] u'.
Proof.
  intros Hg Hd Hno ->. unfold unpack, and_then at 1, on_tree. cbn [up_fs up_names up_total up_payload]. rewrite (create_new fs data NDir Hplain Hdata Hd); [|specialize (Hno []); by rewrite app_nil_r in Hno].
  unfold and_then at 1, of_result at 1. rewrite Hg. destruct (all_unpacked [] L (MkUnpacking (<[data := NDir]> fs) [] 0 (remaining L))) as (u' & Ha & Hu'); [done| |].
  { constructor; cbn [up_fs up_names up_total up_payload]; try done.
    - intros q r Heq Hq. destruct r as [|x r]; [rewrite app_nil_r in Heq; subst q; by rewrite lookup_insert_eq|].
      rewrite lookup_insert_ne; [by apply (Hd q (x :: r))|]. intros Hc. rewrite Heq in Hc. apply (f_equal length) in Hc. rewrite length_app in Hc. simpl in Hc. lia.
    - intros p Hp _. rewrite lookup_insert_ne; [done|]. intros Hc%(f_equal length). rewrite length_app in Hc. destruct p; [done|simpl in Hc; lia]. }
  exists u'. split; [|done]. unfold and_then at 1. unfold created_entries at 2. rewrite Ha. unfold and_then, read_state, of_result. by rewrite (un_rest _ _ _ Hu').
Qed.
End RoundTrip.

(** ** The header of the payload *)

Lemma big_endian n : 0 <= n < 2 ^ 32 -> readUInt32BE (writeUInt32BE n) = n.
Proof.
  intros Hn. unfold readUInt32BE, writeUInt32BE. cbn [String.list_ascii_of_string fold_left].
  assert (forall k, Z.of_nat (nat_of_ascii (ascii_of_nat (Z.to_nat (n / 256 ^ k mod 256)))) = n / 256 ^ k mod 256) as Hd.
  { intros k. pose proof (Z.mod_pos_bound (n / 256 ^ k) 256). rewrite nat_ascii_embedding by lia. lia. }
  rewrite !Hd. change (256 ^ 0) with 1. change (256 ^ 1) with 256. change (256 ^ 2) with (256 * 256). change (256 ^ 3) with (256 * 256 * 256). rewrite Z.div_1_r.
  rewrite <- !Z.div_div by lia. pose proof (Z.div_mod n 256). pose proof (Z.div_mod (n / 256) 256). pose proof (Z.div_mod (n / 256 / 256) 256).
  assert (0 <= n / 256 / 256 / 256 < 256) as Hq; [|rewrite (Z.mod_small _ _ Hq); lia]. rewrite !Z.div_div by lia. split; [apply Z.div_pos; lia|apply Z.div_lt_upper_bound; lia].
Qed.

Section Payload.
Context `{Sha256} (directory : string).

Lemma read_front size text rest fs names total : size = strlen text ->
  read_payload size (MkUnpacking fs names total (text ++ rest)) = (Ok text, MkUnpacking fs names total rest).
Proof.
  intros ->. unfold read_payload. cbn [up_payload up_fs up_names up_total]. replace (strlen text <=? strlen (text ++ rest)) with true by (symmetry; apply Z.leb_le; rewrite length_append; lia).
  by rewrite Nat2Z.id, take_str_app, drop_str_app.
Qed.

Lemma header_read parse version installed encoded rest m fs : strlen encoded <= MAX_MANIFEST -> parse encoded = Ok m ->
  read_manifest parse version installed (MkUnpacking fs [] 0 (writeUInt32BE (strlen encoded) ++ encoded ++ rest)) =
  (check_manifest version installed m, MkUnpacking fs [] 0 rest).
Proof.
  intros Hlen Hp. unfold MAX_MANIFEST in Hlen. unfold read_manifest, and_then at 1. rewrite read_front by done. rewrite big_endian by lia.
  unfold and_then at 1, of_result at 1. replace (MAX_MANIFEST <? strlen encoded) with false by (symmetry; apply Z.ltb_ge; unfold MAX_MANIFEST; lia). cbn [throw_if rbind].
  unfold and_then at 1. rewrite read_front by done. unfold and_then, of_result. by rewrite Hp.
Qed.

Lemma concat_first x xs : String.concat "" (x :: xs) = (x ++ String.concat "" xs)%string.
Proof. destruct xs; simpl; [by rewrite append_nil_r|done]. Qed.

Lemma contents_remaining L : Forall (checked directory) L -> contents (map (pair_of directory) L) = remaining L.
Proof.
  intros Hc. induction Hc as [|[p i] L Hx _ IH]; [done|]. unfold contents in *. cbn [map List.filter remaining fold_right snd]. destruct Hx as (_ & _ & _ & Hx). cbn [snd] in Hx.
  destruct i as [content mode|target|mode cs|]; [| | |done].
  - change (String.eqb (en_type (fst (pair_of directory (p, IFile content mode)))) "file") with true. cbn iota. cbn [map snd pair_of]. rewrite concat_first. by f_equal.
  - exact IH.
  - exact IH.
Qed.

Lemma declared_size L : Forall (checked directory) L -> declared (map (fun x => fst (pair_of directory x)) L) = size_all L.
Proof.
  intros Hc. unfold declared. assert (forall n, fold_left (fun sum e => sum + (if String.eqb (en_type e) "file" then match en_size e with Some n => if 0 <=? n then n else 0 | None => 0 end else 0)) (map (fun x => fst (pair_of directory x)) L) n = n + size_all L) as Hf; [|by rewrite Hf].
  induction Hc as [|[p i] L Hx _ IH]; intros n; [cbn; lia|]. cbn [map fold_left]. rewrite IH. unfold size_all. cbn [fold_right]. fold (size_all L). destruct Hx as (_ & _ & _ & Hx). cbn [snd] in Hx.
  destruct i as [content mode|target|mode cs|]; [|cbn; lia|cbn; lia|done]. cbn [pair_of fst en_type en_size size_of snd]. change (String.eqb "file" "file") with true. cbn iota.
  replace (0 <=? strlen content) with true by (symmetry; apply Z.leb_le; lia). lia.
Qed.

Lemma remaining_size L : strlen (remaining L) = size_all L.
Proof.
  unfold size_all. induction L as [|[p i] L IH]; [done|]. cbn [remaining fold_right snd size_of]. destruct i; cbn [size_of snd]; [|exact IH..]. rewrite length_append. fold (remaining L). unfold size_all in *. lia.
Qed.
End Payload.

(** ** The round trip *)

Section Archive.
Context `{Sha256} (directory : string) (encode : manifest -> string) (parse : string -> fallible manifest) (version : string) (installed : list string).
Implicit Types (root : list (string * item)) (d : database) (p q : path) (it : item).

Definition item_named (n : string) (cs : list (string * item)) : option item := option_map snd (List.find (fun ni => String.eqb (fst ni) n) cs).

(** What a directory has at a path. *)
Fixpoint item_at p cs : option item :=
  match p with
  | [] => None
  | n :: p' =>
      match p' with
      | [] => item_named n cs
      | _ => match item_named n cs with Some (IDir _ cs') => item_at p' cs' | _ => None end
      end
  end.

(** What an archive is to keep: neither the store, the database's own directory
    and files, nor sockets and devices. *)
Definition persistent p it : Prop :=
  (exists n q, p = n :: q /\ left_out n = false) /\ (forall q r, p = q ++ r -> q <> [] -> database_file (join "/" q) = false) /\ it <> ISpecial.

Lemma named_in n cs it : item_named n cs = Some it -> In (n, it) cs.
Proof. unfold item_named. destruct (List.find _ cs) as [[m j]|] eqn:E; [|done]. intros [= ->]. apply find_some in E as [Hin He%String.eqb_eq]. simpl in He. by subst m. Qed.

Lemma flat_list_in P n it cs x : In (n, it) cs -> In x (flat (P ++ [n]) it) -> In x (flat_list P cs).
Proof. induction cs as [|[m j] cs IH]; [done|]. intros [[= -> ->]|Hin] Hx; cbn [flat_list]; apply in_app_iff; [by left|right; by apply IH]. Qed.

Lemma item_listed p cs it P : item_at p cs = Some it -> it <> ISpecial -> (forall q r, p = q ++ r -> q <> [] -> database_file (join "/" (P ++ q)) = false) -> In (P ++ p, it) (flat_list P cs).
Proof.
  revert cs P. induction p as [|n p IH]; intros cs P Hat Hsp Hdb; [done|]. assert (database_file (join "/" (P ++ [n])) = false) as Hn by (by apply (Hdb [n] p)).
  cbn [item_at] in Hat. destruct p as [|m p].
  - apply named_in in Hat. eapply flat_list_in; [done|]. rewrite flat_eq, Hn. destruct it; first [done|by left].
  - destruct (item_named n cs) as [[| |mode cs'|]|] eqn:En; try done. apply named_in in En. eapply flat_list_in; [done|]. rewrite flat_eq, Hn. right.
    replace (P ++ n :: m :: p) with ((P ++ [n]) ++ m :: p) by by rewrite <- app_assoc. apply IH; [done|done|]. intros q r Heq Hq. rewrite <- app_assoc. apply (Hdb (n :: q) r); [by rewrite Heq|done].
Qed.

Definition database_item d : string * item := (".database", IDir 448 [(da_file d, IFile (da_dump d) 384)]).
Definition stored_children root d : list (string * item) := kept_children root ++ [database_item d].

(** The name of the dump, by the engine. *)
Definition dump_named d : Prop := da_file d = "database.sqlite" \/ da_file d = "database.dump".

Lemma flat_list_app P A B : flat_list P (A ++ B) = flat_list P A ++ flat_list P B.
Proof. induction A as [|[n i] A IH]; [done|]. cbn [app flat_list]. by rewrite <- app_assoc, <- IH. Qed.

Lemma database_flat d : dump_named d -> flat_list [] [database_item d] = [([".database"], snd (database_item d)); ([".database"; da_file d], IFile (da_dump d) 384)].
Proof. unfold database_item. by intros [-> | ->]. Qed.

Lemma database_pairs d : dump_named d -> map (pair_of directory) (flat_list [] [database_item d]) = database_entries d.
Proof. intros Hd. rewrite database_flat by done. done. Qed.

Lemma database_checked d : dump_named d -> Forall (checked directory) (flat_list [] [database_item d]).
Proof.
  intros Hd. rewrite database_flat by done. unfold checked, plain. destruct Hd as [-> | ->]; repeat (constructor; cbn [fst snd]; try done).
Qed.

Lemma kept_ok root : listing_ok root -> listing_ok (kept_children root).
Proof.
  intros [Hnd Hok]. unfold kept_children. induction root as [|[n i] root IH]; [done|]. inversion Hnd as [|? ? Hni Hnd']; subst. destruct Hok as (Hs & Hi & Hok). destruct (IH Hnd' Hok) as [IHn IHo].
  cbn [List.filter fst]. destruct (negb (left_out n)); [|done]. split; [|done]. cbn [map fst]. constructor; [|done]. intros ([m j] & <- & [Hin _]%filter_In)%in_map_iff. apply Hni. by apply (in_map fst) in Hin.
Qed.

Lemma kept_name n root : In n (map fst (kept_children root)) -> left_out n = false.
Proof. intros ([m j] & <- & [_ Hk]%filter_In)%in_map_iff. by apply negb_true_iff. Qed.

Lemma children_app A B : children_ok A -> children_ok B -> children_ok (A ++ B).
Proof. induction A as [|[n i] A IH]; [done|]. intros (? & ? & ?) ?. cbn. split_and!; try done. by apply IH. Qed.

Lemma stored_ok root d : listing_ok root -> dump_named d -> listing_ok (stored_children root d).
Proof.
  intros Hok Hd. destruct (kept_ok root Hok) as [Hnd Hc]. unfold stored_children. split.
  - rewrite map_app. apply NoDup_ListNoDup, NoDup_app. split_and!; [by apply NoDup_ListNoDup| |by apply NoDup_singleton].
    intros n Hn ->%list_elem_of_singleton. apply list_elem_of_In, kept_name in Hn. done.
  - apply children_app; [done|]. cbn. split_and!; try done; [repeat constructor; by intros []|by destruct Hd as [-> | ->]].
Qed.

Lemma stored_top root d p i : In (p, i) (flat_list [] (stored_children root d)) -> hd_error p <> Some STORE.
Proof.
  intros Hin. apply flat_list_under in Hin as (n & q & Hn & ->). cbn. intros [= ->]. unfold stored_children in Hn. rewrite map_app in Hn. apply in_app_iff in Hn as [Hn|[Hn|[]]]; [by apply kept_name in Hn|done].
Qed.

Lemma same_links entries d : validateLinkGraph (entries ++ map fst (database_entries d)) = validateLinkGraph entries.
Proof. unfold validateLinkGraph, links_of. rewrite List.filter_app. cbn. by rewrite app_nil_r. Qed.

(** What [create] has made, when it succeeds. *)
Definition listed root d : list (path * item) := flat_list [] (stored_children root d).
Definition created_manifest root d : manifest := manifest_for version (map (pair_of directory) (listed root d)) d.

Lemma created archives root d payload : listing_ok root -> dump_named d -> create directory encode version archives root d = Ok payload ->
  Forall (checked directory) (listed root d) /\ validateLinkGraph (created_entries directory (listed root d)) = Ok tt /\
  strlen (encode (created_manifest root d)) <= MAX_MANIFEST /\ size_all (listed root d) <= MAX_BACKUP_BYTES /\
  payload = (writeUInt32BE (strlen (encode (created_manifest root d))) ++ encode (created_manifest root d) ++ remaining (listed root d))%string.
Proof.
  intros Hok Hd Hc. unfold create in Hc. ok_inv Hc. ok_inv Hc. rename v into copied. unfold copyData in E. ok_inv E. rename v into c. ok_inv E. injection E as <-. destruct v.
  apply copy_all_spec in E0 as [Hcp Hch]; [|done]. cbn [cp_copied app] in Hcp.
  assert (Forall (checked directory) (listed root d)) as Hall by (unfold listed, stored_children; rewrite flat_list_app; apply Forall_app; split; [done|by apply database_checked]).
  assert (cp_copied c ++ database_entries d = map (pair_of directory) (listed root d)) as Hpairs
    by (unfold listed, stored_children; rewrite flat_list_app, map_app, database_pairs, Hcp by done; done).
  rewrite Hpairs in Hc. change (manifest_for version (map (pair_of directory) (listed root d)) d) with (created_manifest root d) in Hc. rewrite contents_remaining in Hc by done.
  ok_inv Hc. ok_inv Hc. injection Hc as <-. apply Z.ltb_ge in G0. split_and!; [done| |done| |done].
  - unfold created_entries. rewrite <- map_map, <- Hpairs, map_app, same_links. by rewrite E1.
  - apply Z.ltb_ge in G1. rewrite !Nat2Z.inj_succ, length_append, remaining_size in G1. lia.
Qed.

Context (Hsha : forall s, (strlen (sha256 s) =? 64) && all_chars is_hex_lower (sha256 s) = true).

(** C33: an archive that was created, with at most MAX_FILES entries, can be
    opened by the same version of the program and gives the instance back: every
    file with its content and its mode, every directory, every link and the dump of
    the database, and nothing else.  (The count of the entries leaves out the two of
    the database, so an archive of one or two more is written and then refused:
    full_archive_is_refused.) *)
Theorem backup_round_trip archives root d payload data fs :
  listing_ok root -> dump_named d -> In (da_engine d) ["sqlite"; "mysql"; "postgres"] -> (forall m, In m (da_migrations d) -> In m installed) ->
  parse (encode (created_manifest root d)) = Ok (created_manifest root d) ->
  create directory encode version archives root d = Ok payload -> Z.of_nat (length (listed root d)) <= MAX_FILES ->
  plain data -> data <> [] -> (forall q r, data = q ++ r -> q <> [] -> r <> [] -> fs !! q = Some NDir) -> (forall q, fs !! (data ++ q) = None) ->
  exists u, open_payload parse version installed data (MkUnpacking fs [] 0 payload) = (Ok tt, u) /\
    (forall p it, item_at p root = Some it -> persistent p it -> up_fs u !! (data ++ p) = Some (node_of directory (p, it))) /\
    up_fs u !! (data ++ [".database"; da_file d]) = Some (NFile (da_dump d) 384) /\
    forall p, p <> [] -> up_fs u !! (data ++ p) <> None -> In p (map fst (listed root d)).
Proof.
  intros Hok Hd Heng Hmig Hparse Hc Hfiles Hplain Hdata Hdirs Hempty. apply created in Hc as (Hch & Hg & Hlen & Hsize & ->); [|done|done].
  unfold open_payload, and_then. rewrite (header_read parse version installed _ _ _ fs Hlen Hparse).
  assert (check_manifest version installed (created_manifest root d) = Ok (created_entries directory (listed root d))) as ->.
  { unfold check_manifest. cbn [mf_entries created_manifest manifest_for mf_format mf_version mf_engine mf_migrations]. rewrite String.eqb_refl, !length_map.
    replace (MAX_FILES <? Z.of_nat (length (listed root d))) with false by (symmetry; by apply Z.ltb_ge). apply existsb_eqb_In in Heng. rewrite Heng. cbn [negb orb Z.eqb Pos.eqb throw_if rbind].
    assert (forallb (is_installed installed) (map Some (da_migrations d)) = true) as ->
      by (apply forallb_forall; intros o (m & <- & Hm)%in_map_iff; by apply existsb_eqb_In, Hmig).
    cbn [negb throw_if rbind]. rewrite map_map, (declared_size directory) by done. by replace (MAX_BACKUP_BYTES <? size_all (listed root d)) with false by (symmetry; by apply Z.ltb_ge). }
  destruct (flat_nodup) as [_ Hnd]. destruct (archive_unpacked directory data (listed root d) Hplain Hdata Hsha Hch (Hnd _ (stored_ok root d Hok Hd) [])) with (fs := fs) (payload := remaining (listed root d))
    as (u & Hu & [_ Hthere Hnone _ _ _]); try done; [apply flat_list_parents|intros p i; apply stored_top|].
  exists u. split; [done|]. split_and!.
  - intros p it Hat ((n & q & -> & Hl) & Hdb & Hsp). apply (Hthere (n :: q, it)). apply (item_listed (n :: q) _ it []); [|done|done].
    assert (item_named n (stored_children root d) = item_named n root) as Hsame; [|cbn [item_at] in *; by rewrite Hsame].
    unfold stored_children, kept_children, item_named. f_equal. clear -Hl. induction root as [|[m j] root IH].
    + cbn [List.filter app List.find]. unfold database_item. cbn [fst]. destruct (String.eqb_spec ".database" n) as [<-|]; [done|done].
    + cbn [List.filter fst List.find]. destruct (String.eqb_spec m n) as [->|Hne].
      * rewrite Hl. cbn [negb app List.find fst]. by rewrite String.eqb_refl.
      * destruct (negb (left_out m)); cbn [app List.find fst]; [rewrite (proj2 (String.eqb_neq _ _) Hne)|]; exact IH.
  - apply (Hthere ([".database"; da_file d], IFile (da_dump d) 384)). unfold listed, stored_children. rewrite flat_list_app, database_flat by done. apply in_app_iff. right. right. by left.
  - intros p Hp Hn. destruct (in_dec (fun a b : path => decide (a = b)) p (map fst (listed root d))) as [?|Hni]; [done|]. destruct Hn. by apply Hnone.
Qed.

(** An instance that fills the limit: the entries of the database come on top, and
    no version of the program opens the archive. *)
Lemma full_archive_is_refused archives root d payload data fs :
  listing_ok root -> dump_named d -> parse (encode (created_manifest root d)) = Ok (created_manifest root d) ->
  create directory encode version archives root d = Ok payload -> MAX_FILES < Z.of_nat (length (listed root d)) ->
  open_payload parse version installed data (MkUnpacking fs [] 0 payload) =
  (Throw (NativeError "Backup version or manifest is incompatible with this installation"), MkUnpacking fs [] 0 (remaining (listed root d))).
Proof.
  intros Hok Hd Hparse Hc Hfiles. apply created in Hc as (Hch & Hg & Hlen & Hsize & ->); [|done|done].
  unfold open_payload, and_then. rewrite (header_read parse version installed _ _ _ fs Hlen Hparse). unfold check_manifest. cbn [mf_entries created_manifest manifest_for].
  rewrite !length_map. replace (MAX_FILES <? Z.of_nat (length (listed root d))) with true by (symmetry; by apply Z.ltb_lt). rewrite orb_true_r. done.
Qed.
End Archive.

(** ** An instance and its archive *)

Module DemoBackups.
#[local] Instance sha : Sha256 := {| sha256 _ := String.concat "" (repeat "0123456789abcdef" 4) |}.

Definition root : list (string * item) := [
  ("instance-backups", IDir 448 [("old.spmb", IFile "..." 384)]);
  ("nginx", IDir 493 [("a.conf", IFile "abc" 420); ("current", ILink "/data/nginx/a.conf"); ("up", ILink "../tls/./key")]);
  ("shieldpm", IDir 493 [("database.sqlite", IFile "live" 420); ("keys.json", IFile "{}" 33152)]);
  ("sock", ISpecial);
  ("tls", IDir 448 [("key", IFile "k" 384)])
].
Definition db : database := MkDatabase "sqlite" "database.sqlite" "snapshot" ["initial.js"].
Definition instance_manifest : manifest := created_manifest "/data" "3.0" root db.
Definition encode (_ : manifest) : string := "manifest".
Definition parse (_ : string) : fallible manifest := Ok instance_manifest.
Definition payload : string := match create "/data" encode "3.0" 0 root db with Ok p => p | Throw _ => "" end.

Definition data : path := ["new"; "data"].
Definition host : tree := {[ ["new"] := NDir ]}.

Lemma sha_ok s : (strlen (sha256 s) =? 64) && all_chars is_hex_lower (sha256 s) = true.
Proof. vm_compute. reflexivity. Qed.

Lemma root_ok : listing_ok root.
Proof. repeat (split || constructor || intros [] || discriminate || intros [?|?]); try discriminate; simpl in *; intuition discriminate. Qed.

Lemma new_host_empty q : host !! (data ++ q) = None.
Proof. unfold host, data. by rewrite lookup_singleton_ne. Qed.

Lemma new_host_dirs q r : data = q ++ r -> q <> [] -> r <> [] -> host !! q = Some NDir.
Proof.
  intros Hq Hn Hr. unfold data in Hq. destruct q as [|a [|b q]]; [done| |]; injection Hq as ?; subst; [vm_compute; reflexivity|]. destruct q; [|done]. by destruct r.
Qed.

Lemma two_parts a b : database_file a = false -> database_file (a ++ "/" ++ b) = false -> forall q r, [a; b] = q ++ r -> q <> [] -> database_file (join "/" q) = false.
Proof.
  intros Ha Hb q r Hq Hn. destruct q as [|x q]; [congruence|]. injection Hq as <- Hq. destruct q as [|y q]; [exact Ha|].
  injection Hq as <- Hq. destruct q; [exact Hb|discriminate].
Qed.

Lemma backup_witness :
  exists u, open_payload parse "3.0" ["initial.js"; "later.js"] data (MkUnpacking host [] 0 payload) = (Ok tt, u) /\
    up_fs u !! ["new"; "data"; "nginx"; "current"] = Some (NLink "a.conf") /\ up_fs u !! ["new"; "data"; "shieldpm"; "keys.json"] = Some (NFile "{}" 384).
Proof.
  destruct (backup_round_trip "/data" encode parse "3.0" ["initial.js"; "later.js"] sha_ok 0 root db payload data host root_ok
    ltac:(left; reflexivity) ltac:(left; reflexivity) ltac:(intros m [<-|[]]; left; reflexivity) eq_refl) as (u & Hu & Hitems & _);
    [vm_compute; reflexivity|vm_compute; discriminate|repeat constructor|discriminate|exact new_host_dirs|exact new_host_empty|].
  exists u. split; [exact Hu|]. split.
  - change (up_fs u !! (data ++ ["nginx"; "current"]) = Some (NLink "a.conf")). rewrite (Hitems ["nginx"; "current"] (ILink "/data/nginx/a.conf")); [vm_compute; reflexivity|reflexivity|].
    split; [exists "nginx", ["current"]; split; [reflexivity|reflexivity]|]. split; [|discriminate].
    apply two_parts; reflexivity.
  - change (up_fs u !! (data ++ ["shieldpm"; "keys.json"]) = Some (NFile "{}" 384)). rewrite (Hitems ["shieldpm"; "keys.json"] (IFile "{}" 33152)); [vm_compute; reflexivity|reflexivity|].
    split; [exists "shieldpm", ["keys.json"]; split; [reflexivity|reflexivity]|]. split; [|discriminate].
    apply two_parts; reflexivity.
Defined.
End DemoBackups.
