(* ===== verification/Restores.v ===== *)
(** Activating a restored instance across crashes: [apply], [rollback], [commit],
    [cancel] and [describeData] of src/backend/lib/instance-backup.js, as
    src/backend/backup-restore.js runs them before the backend starts.

    The top level of the data directory is a map from names to trees; the store of
    the archives is not part of it.  A rename, the creation of a directory and the
    replacement of a JSON file happen at once; the removal of a tree can be
    interrupted.  A process can die between any two of them. *)

From stdpp Require Import gmap strings.
From S2P Require Import Prelude JsString FirewallPreview Errors Archives.
#[local] Open Scope string_scope.
#[local] Open Scope list_scope.
#[local] Open Scope Z_scope.

(** ** Data *)

(** A directory is the sorted list of its entries. *)
Inductive node : Type :=
| File (content : string)
| Link (target : string)
| Directory (children : list (string * node))
| Device.

Abbreviation level := (gmap string node).

Inductive phase : Type := PPending | PRejected | PActivating | PActivated.
#[global] Instance phase_eq_dec : EqDecision phase.
Proof. solve_decision. Defined.
#[global] Instance entry_eq_dec : EqDecision entry.
Proof. solve_decision. Defined.

(** pending.json; the work directory is that of the state. *)
Record pending_restore : Type := MkPending { pd_phase : phase; pd_previous : list string; pd_installed : list string }.

(** verified.json: the version of the archive and what was staged. *)
Record verified : Type := MkVerified { vr_version : string; vr_entries : list entry }.

(** The data directory, the work directory with its staged and its previous data,
    and the two records. *)
Record disk : Type := MkDisk {
  dk_live : level;
  dk_staged : level;
  dk_previous : option level;
  dk_pending : option pending_restore;
  dk_verified : verified
}.

(** What runs: nothing; one of the loops of [apply] or [rollback]; the backend,
    after a restore was activated or not; or a start that failed. *)
Inductive control : Type :=
| Off
| Prepared
| MovingOut (todo : list string)
| MovingIn (todo : list string)
| Clearing (again : bool) (todo : list string)
| Returning (again : bool) (todo : list string)
| Replacing (again : bool) (name : string) (todo : list string)
| Closing (again : bool)
| Served (activated : bool)
| FailedStart.

Definition set_live (l : level) (d : disk) : disk := MkDisk l (dk_staged d) (dk_previous d) (dk_pending d) (dk_verified d).
Definition set_staged (l : level) (d : disk) : disk := MkDisk (dk_live d) l (dk_previous d) (dk_pending d) (dk_verified d).
Definition set_previous (l : option level) (d : disk) : disk := MkDisk (dk_live d) (dk_staged d) l (dk_pending d) (dk_verified d).
Definition set_pending (p : option pending_restore) (d : disk) : disk := MkDisk (dk_live d) (dk_staged d) (dk_previous d) p (dk_verified d).
Definition with_phase (ph : phase) (p : pending_restore) : pending_restore := MkPending ph (pd_previous p) (pd_installed p).

(** ** Describing what is staged *)

Section Describing.
Context `{Sha256}.

Fixpoint describe (name : string) (n : node) : fallible (list entry) :=
  match n with
  | File content => Ok [MkEntry (Some name) "file" None (Some (strlen content)) (sha256 content) 0]
  | Link target => let? t := safeLink name (Some target) in Ok [MkEntry (Some name) "symlink" (Some t) None "" 0]
  | Directory children =>
      let? below := (fix all (cs : list (string * node)) : fallible (list entry) :=
        match cs with
        | [] => Ok []
        | (child, c) :: cs' => let? first := describe (name ++ "/" ++ child)%string c in let? others := all cs' in Ok (first ++ others)
        end) children in
      Ok (MkEntry (Some name) "directory" None None "" 0 :: below)
  | Device => Throw (NativeError "Unexpected file in restore staging directory")
  end.

Definition describeData (l : level) : fallible (list entry) :=
  let? entries := rmap (fun es => List.concat es) (rmapM (fun e => describe (fst e) (snd e)) (map_to_list l)) in
  let? _ := validateLinkGraph entries in
  Ok entries.
End Describing.

(** ** The steps of a start *)

Definition names_in (l : level) : list string := map fst (map_to_list l).

Section Starting.
Context `{Sha256} (version : string).
Implicit Types (d : disk) (c : control).

Definition is_safe (name : string) : bool := is_ok (safePath (Some name)).

(** [rename(join(from, name), join(to, name))] *)
Definition move (name : string) (from to : level) : option (level * level) :=
  match from !! name with Some n => Some (delete name from, <[name := n]> to) | None => None end.

(** [rollback]: the installed names the old instance did not have are removed first.
    [again] when a later start undoes what an earlier one did; otherwise the start fails. *)
Definition roll_back (again : bool) d : control :=
  let p := default (MkPending PActivating [] []) (dk_pending d) in
  Clearing again (List.filter (fun n => negb (existsb (String.eqb n) (pd_previous p))) (pd_installed p)).

(** [apply] up to its first change. *)
Definition begin_apply d : control * disk :=
  match dk_pending d with
  | None => (Served false, d)
  | Some p =>
      match pd_phase p with
      | PActivated | PActivating => (roll_back true d, d)
      | PRejected => (Served false, d)
      | PPending =>
          match (if String.eqb (vr_version (dk_verified d)) version then describeData (dk_staged d) else Ok []) with
          | Throw _ => (FailedStart, d)
          | Ok entries =>
              if String.eqb (vr_version (dk_verified d)) version && bool_decide (entries = vr_entries (dk_verified d)) then
                match dk_previous d with
                | Some _ => (FailedStart, d)
                | None => (Prepared, set_previous (Some ∅) d)
                end
              else (Served false, set_pending (Some (with_phase PRejected p)) d)
          end
      end
  end.

(** What the process does next; [None] when it has nothing to do. *)
Definition next c d : option (control * disk) :=
  match c with
  | Off => Some (begin_apply d)
  | Prepared =>
      match dk_pending d with
      | Some p => Some (MovingOut (names_in (dk_live d)), set_pending (Some (MkPending PActivating (names_in (dk_live d)) (names_in (dk_staged d)))) d)
      | None => Some (FailedStart, d)
      end
  | MovingOut (n :: todo) =>
      match dk_previous d with
      | Some previous =>
          match move n (dk_live d) previous with
          | Some (live, previous) => Some (MovingOut todo, set_live live (set_previous (Some previous) d))
          | None => Some (roll_back false d, d)
          end
      | None => Some (FailedStart, d)
      end
  | MovingOut [] => Some (MovingIn (from_option pd_installed [] (dk_pending d)), d)
  | MovingIn (n :: todo) =>
      match move n (dk_staged d) (dk_live d) with
      | Some (staged, live) => Some (MovingIn todo, set_live live (set_staged staged d))
      | None => Some (roll_back false d, d)
      end
  | MovingIn [] =>
      match dk_pending d with
      | Some p => Some (Served true, set_pending (Some (with_phase PActivated p)) d)
      | None => Some (FailedStart, d)
      end
  | Clearing again (n :: todo) => if is_safe n then Some (Clearing again todo, set_live (delete n (dk_live d)) d) else Some (FailedStart, d)
  | Clearing again [] => match dk_previous d with Some previous => Some (Returning again (names_in previous), d) | None => Some (FailedStart, d) end
  | Returning again (n :: todo) => if is_safe n then Some (Replacing again n todo, set_live (delete n (dk_live d)) d) else Some (FailedStart, d)
  | Replacing again n todo =>
      match dk_previous d with
      | Some previous =>
          match move n previous (dk_live d) with
          | Some (previous, live) => Some (Returning again todo, set_live live (set_previous (Some previous) d))
          | None => Some (FailedStart, d)
          end
      | None => Some (FailedStart, d)
      end
  | Returning again [] => Some (Closing again, d)
  | Closing again => Some (if again then Served false else FailedStart, set_pending None d)
  | Served _ | FailedStart => None
  end.

(** A start that nothing interrupts. *)
Fixpoint run (fuel : nat) c d : control * disk :=
  match fuel with
  | O => (c, d)
  | S fuel' => match next c d with Some (c', d') => run fuel' c' d' | None => (c, d) end
  end.

(** ** The running instance *)

(** [cancel], [commit]: what the backend does to a restore. *)
Definition cancel d : fallible disk :=
  match dk_pending d with
  | None => Ok d
  | Some p =>
      throw NativeError "An activated restore cannot be canceled through the running instance"
        when (negb (bool_decide (pd_phase p = PPending) || bool_decide (pd_phase p = PRejected))) ;;
      Ok (MkDisk (dk_live d) ∅ None None (dk_verified d))
  end.

Definition commit d : bool * disk :=
  match dk_pending d with
  | Some p => if bool_decide (pd_phase p = PActivated) then (true, set_pending None d) else (false, d)
  | None => (false, d)
  end.

(** The end of [verify] with [schedule]. *)
Definition schedule (staged : level) (entries : list entry) (v : string) d : fallible disk :=
  match dk_pending d with
  | Some _ => Throw (NativeError "A restore is already pending; cancel it first")
  | None => Ok (MkDisk (dk_live d) staged None (Some (MkPending PPending [] [])) (MkVerified v entries))
  end.

(** ** Crashes and failures *)

(** A configuration: what runs, the disk, and the names the activated instance
    has changed. *)
Definition config : Type := (control * disk * gset string)%type.

Inductive restore_step : config -> config -> Prop :=
| rs_run c d made c' d' : next c d = Some (c', d') -> restore_step (c, d, made) (c', d', made)
(** The machine dies. *)
| rs_crash c d made : restore_step (c, d, made) (Off, d, made)
(** It dies while a tree is removed: anything can be left of it. *)
| rs_torn_clear again n todo d made left_over : restore_step (Clearing again (n :: todo), d, made) (Off, set_live (<[n := left_over]> (dk_live d)) d, made)
| rs_torn_return again n todo d made left_over : restore_step (Returning again (n :: todo), d, made) (Off, set_live (<[n := left_over]> (dk_live d)) d, made)
(** A step of [apply] throws. *)
| rs_move_fails c d made : match c with MovingOut _ | MovingIn _ => True | _ => False end -> restore_step (c, d, made) (roll_back false d, d, made)
(** A step of [rollback], or one before the first change, throws. *)
| rs_fails c d made : match c with Served _ => False | MovingOut _ | MovingIn _ => False | _ => True end -> restore_step (c, d, made) (FailedStart, d, made)
(** The activated instance works on its data. *)
| rs_work d made live made' : made ⊆ made' -> (forall n, n ∉ made' -> live !! n = dk_live d !! n) ->
    restore_step (Served true, d, made) (Served true, set_live live d, made').

Lemma run_reaches fuel c d made : rtc restore_step (c, d, made) ((run fuel c d).1, (run fuel c d).2, made).
Proof.
  revert c d. induction fuel as [|fuel IH]; intros c d; cbn [run]; [apply rtc_refl|].
  destruct (next c d) as [[c' d']|] eqn:E; [|apply rtc_refl]. eapply rtc_l; [by apply rs_run|]. apply IH.
Qed.

(** A start that dies after some steps, and the next one. *)
Lemma crash_and_run fuel fuel' d made :
  let d1 := (run fuel Off d).2 in
  rtc restore_step (Off, d, made) (Off, d1, made) /\ rtc restore_step (Off, d, made) ((run fuel' Off d1).1, (run fuel' Off d1).2, made).
Proof.
  assert (rtc restore_step (Off, d, made) (Off, (run fuel Off d).2, made)) as Hr by (eapply rtc_r; [apply run_reaches|apply rs_crash]).
  cbv zeta. split; [exact Hr|]. etransitivity; [exact Hr|apply run_reaches].
Qed.
End Starting.

(** ** What a served instance has *)

Section Outcome.
Context `{Sha256} (version : string) (old new : level) (description : verified).
Context (Hold : forall n x, old !! n = Some x -> is_safe n = true) (Hnew : forall n x, new !! n = Some x -> is_safe n = true).
Implicit Types (d : disk) (c : control) (made : gset string).

Lemma in_names (l : level) n : In n (names_in l) <-> exists x, l !! n = Some x.
Proof.
  unfold names_in. rewrite in_map_iff. split.
  - intros ([n' x] & <- & Hin%list_elem_of_In%elem_of_map_to_list). by exists x.
  - intros (x & Hx). exists (n, x). split; [done|]. by apply list_elem_of_In, elem_of_map_to_list.
Qed.

Lemma names_nodup (l : level) : List.NoDup (names_in l).
Proof. apply NoDup_ListNoDup. unfold names_in. apply NoDup_fst_map_to_list. Qed.

(** A restore that has begun: the two lists, what was moved away, and where every
    old tree is. *)
Record begun made d (p : pending_restore) (previous : level) : Prop := {
  bg_pending : dk_pending d = Some p;
  bg_previous : dk_previous d = Some previous;
  bg_phase : pd_phase p = PActivating \/ pd_phase p = PActivated;
  bg_old : pd_previous p = names_in old;
  bg_new : pd_installed p = names_in new;
  bg_moved : forall n x, previous !! n = Some x -> old !! n = Some x;
  bg_safe : forall n x, old !! n = Some x -> previous !! n = Some x \/ (previous !! n = None /\ dk_live d !! n = Some x);
  bg_others : forall n x, old !! n = None -> dk_live d !! n = Some x -> In n (names_in new) \/ n ∈ made
}.

(** The old data are back: every old tree, and nothing but what the activated
    instance has made itself. *)
Definition restored made (live : level) : Prop :=
  (forall n x, old !! n = Some x -> live !! n = Some x) /\ (forall n x, old !! n = None -> live !! n = Some x -> n ∈ made).

(** The disk between two processes. *)
Definition disk_ok made d : Prop :=
  match dk_pending d with
  | None => restored made (dk_live d)
  | Some p =>
      match pd_phase p with
      | PPending => dk_live d = old /\ dk_staged d = new /\ dk_verified d = description /\ (dk_previous d = None \/ dk_previous d = Some ∅)
      | PRejected => dk_live d = old
      | PActivating | PActivated => exists previous, begun made d p previous
      end
  end.

(** Nothing of the new data is left where the old had nothing. *)
Definition cleared made (todo : list string) d : Prop :=
  forall n, In n (names_in new) -> old !! n = None -> dk_live d !! n = None \/ In n todo.

Definition control_ok c made d : Prop :=
  match c with
  | Off | FailedStart => True
  | Prepared => dk_live d = old /\ dk_staged d = new /\ dk_previous d = Some ∅ /\ exists p, dk_pending d = Some p /\ pd_phase p = PPending
  | MovingOut todo => exists p previous, begun made d p previous /\ pd_phase p = PActivating /\ dk_staged d = new /\ List.NoDup todo /\
      (forall n, In n todo -> exists x, old !! n = Some x) /\
      forall n, (In n todo -> dk_live d !! n = old !! n /\ previous !! n = None) /\ (~ In n todo -> dk_live d !! n = None /\ previous !! n = old !! n)
  | MovingIn todo => exists p, begun made d p old /\ pd_phase p = PActivating /\ List.NoDup todo /\ (forall n, In n todo -> exists x, new !! n = Some x) /\
      forall n, (In n todo -> dk_live d !! n = None /\ dk_staged d !! n = new !! n) /\ (~ In n todo -> dk_live d !! n = new !! n)
  | Clearing _ todo => exists p previous, begun made d p previous /\ cleared made todo d /\ forall n, In n todo -> In n (names_in new) /\ old !! n = None
  | Returning _ todo => exists p previous, begun made d p previous /\ cleared made [] d /\ List.NoDup todo /\ forall n, In n todo <-> exists x, previous !! n = Some x
  | Replacing _ name todo => exists p previous, begun made d p previous /\ cleared made [] d /\ List.NoDup (name :: todo) /\ dk_live d !! name = None /\
      forall n, In n (name :: todo) <-> exists x, previous !! n = Some x
  | Closing _ => exists p previous, begun made d p previous /\ cleared made [] d /\ forall n, previous !! n = None
  | Served true => (exists p, begun made d p old /\ pd_phase p = PActivated) /\ forall n, n ∉ made -> dk_live d !! n = new !! n
  | Served false => restored made (dk_live d)
  end.

Definition config_ok (cfg : config) : Prop := let '(c, d, made) := cfg in disk_ok made d /\ control_ok c made d.

Lemma begun_disk made d p previous : begun made d p previous -> disk_ok made d.
Proof. intros Hb. unfold disk_ok. rewrite (bg_pending _ _ _ _ Hb). destruct (bg_phase _ _ _ _ Hb) as [-> | ->]; by exists previous. Qed.

Lemma begun_live made made' d p previous live : begun made d p previous ->
  (forall n x, old !! n = Some x -> previous !! n = None -> live !! n = Some x) ->
  (forall n x, old !! n = None -> live !! n = Some x -> In n (names_in new) \/ n ∈ made') -> begun made' (set_live live d) p previous.
Proof.
  intros [H1 H2 H3 H4 H5 H6 H7 H8] Hl Ho. constructor; try done. intros n x Hx. destruct (previous !! n) as [y|] eqn:E.
  - left. apply H6 in E. congruence.
  - right. split; [done|]. by apply Hl.
Qed.

(** A rollback starts from any restore that has begun. *)
Lemma roll_back_ok again made d p previous : begun made d p previous -> control_ok (roll_back again d) made d.
Proof.
  intros Hb. unfold roll_back. rewrite (bg_pending _ _ _ _ Hb). cbn [from_option id control_ok]. exists p, previous. split; [done|].
  rewrite (bg_old _ _ _ _ Hb), (bg_new _ _ _ _ Hb). split.
  - intros n Hn Hno. right. apply filter_In. split; [done|]. apply negb_true_iff, not_true_is_false. rewrite existsb_eqb_In, in_names. intros (x & Hx). congruence.
  - intros n [Hn Hf]%filter_In. split; [done|]. destruct (old !! n) as [x|] eqn:E; [|done]. apply negb_true_iff in Hf. rewrite <- not_true_iff_false in Hf.
    destruct Hf. apply existsb_eqb_In, in_names. by exists x.
Qed.

Lemma begin_ok made d c' d' : disk_ok made d -> begin_apply version d = (c', d') -> disk_ok made d' /\ control_ok c' made d'.
Proof.
  intros Hd. pose proof Hd as Hd'. unfold disk_ok in Hd. unfold begin_apply. destruct (dk_pending d) as [p|] eqn:Ep; [|by intros [= <- <-]].
  destruct (pd_phase p) eqn:Eph.
  - destruct Hd as (Hl & Hs & Hv & Hp). destruct (if String.eqb _ version then _ else _) as [entries|]; [|by intros [= <- <-]].
    destruct (_ && _); [|intros [= <- <-]; split; [done|]; cbn; rewrite Hl; split; congruence].
    destruct (dk_previous d); [by intros [= <- <-]|]. intros [= <- <-]. unfold disk_ok. cbn. rewrite Ep, Eph. split_and!; try done; [by right|].
    exists p. done.
  - intros [= <- <-]. split; [done|]. cbn. rewrite Hd. split; congruence.
  - destruct Hd as (previous & Hb). intros [= <- <-]. split; [done|]. by eapply roll_back_ok.
  - destruct Hd as (previous & Hb). intros [= <- <-]. split; [done|]. by eapply roll_back_ok.
Qed.

Lemma prepared_ok made d c' d' : control_ok Prepared made d -> next version Prepared d = Some (c', d') -> disk_ok made d' /\ control_ok c' made d'.
Proof.
  intros (Hl & Hs & Hp & p & Hpend & Hph). cbn [next]. rewrite Hpend. intros [= <- <-].
  set (p' := MkPending PActivating (names_in (dk_live d)) (names_in (dk_staged d))).
  assert (begun made (set_pending (Some p') d) p' ∅) as Hb.
  { constructor; [done|done|by left|exact (f_equal names_in Hl)|exact (f_equal names_in Hs)| | |]; intros n x; rewrite ?lookup_empty; [done| |].
    - intros Hx. right. split; [done|]. cbn. by rewrite Hl.
    - cbn. rewrite Hl. congruence. }
  split; [by eapply begun_disk|]. exists p', ∅. split_and!; [done|done|done|apply names_nodup| |].
  - intros n Hn. rewrite Hl, in_names in Hn. done.
  - intros n. cbn. rewrite Hl, in_names, lookup_empty. split; [done|]. intros Hn. destruct (old !! n) as [x|] eqn:E; [destruct Hn; by exists x|done].
Qed.

Lemma moving_out_ok made todo d c' d' : control_ok (MovingOut todo) made d -> next version (MovingOut todo) d = Some (c', d') -> disk_ok made d' /\ control_ok c' made d'.
Proof.
  intros (p & previous & Hb & Hph & Hs & Hnd & Hin & Hn). destruct todo as [|n todo]; cbn [next].
  - intros [= <- <-]. split; [by eapply begun_disk|].
    assert (previous = old) as -> by (apply map_eq; intros m; destruct (Hn m) as [_ Hm]; apply Hm; tauto). exists p.
    rewrite (bg_pending _ _ _ _ Hb). cbn [from_option]. rewrite (bg_new _ _ _ _ Hb), Hs. split_and!; [done|done|apply names_nodup|by intros m ?%in_names|].
    intros m. destruct (Hn m) as [_ Hm]. destruct Hm as [Hm _]; [tauto|]. split; [done|]. intros Hni. rewrite Hm. destruct (new !! m) as [x|] eqn:E; [|done].
    destruct Hni. apply in_names. by exists x.
  - inversion Hnd as [|? ? Hni Hnd']; subst. rewrite (bg_previous _ _ _ _ Hb). destruct (Hin n (or_introl eq_refl)) as (x & Hx).
    destruct (Hn n) as [[Hl Hpn] _]; [by left|]. unfold move. rewrite Hl, Hx. intros [= <- <-].
    set (previous' := <[n := x]> previous). set (d' := set_live _ _).
    assert (begun made d' p previous') as Hb'.
    { destruct Hb as [H1 H2 H3 H4 H5 H6 H7 H8]. constructor; try done.
      - intros m y. unfold previous'. destruct (decide (m = n)) as [->|Hne]; [rewrite lookup_insert_eq; congruence|rewrite lookup_insert_ne by done; apply H6].
      - intros m y Hy. unfold previous', d'. cbn. destruct (decide (m = n)) as [->|Hne]; [left; rewrite lookup_insert_eq; congruence|].
        rewrite lookup_insert_ne, lookup_delete_ne by done. by apply H7.
      - intros m y Hy. unfold d'. cbn. destruct (decide (m = n)) as [->|Hne]; [congruence|]. rewrite lookup_delete_ne by done. by apply H8. }
    split; [by eapply begun_disk|]. exists p, previous'. split_and!; try done; [intros m Hm; apply Hin; by right|].
    intros m. unfold d', previous'. cbn. destruct (Hn m) as [Hm1 Hm2]. destruct (decide (m = n)) as [->|Hne].
    + rewrite lookup_delete_eq, lookup_insert_eq. split; [done|]. by rewrite Hx.
    + rewrite lookup_delete_ne, lookup_insert_ne by done. split; [intros Hm; apply Hm1; by right|]. intros Hm. apply Hm2. intros [?|?]; [by subst|done].
Qed.

Lemma moving_in_ok made todo d c' d' : control_ok (MovingIn todo) made d -> next version (MovingIn todo) d = Some (c', d') -> disk_ok made d' /\ control_ok c' made d'.
Proof.
  intros (p & Hb & Hph & Hnd & Hin & Hn). destruct todo as [|n todo]; cbn [next].
  - rewrite (bg_pending _ _ _ _ Hb). intros [= <- <-]. set (p' := with_phase PActivated p).
    assert (begun made (set_pending (Some p') d) p' old) as Hb' by (destruct Hb; constructor; try done; by right).
    split; [by eapply begun_disk|]. split; [by exists p'|]. intros m _. destruct (Hn m) as [_ Hm]. apply Hm. tauto.
  - inversion Hnd as [|? ? Hni Hnd']; subst. destruct (Hin n (or_introl eq_refl)) as (x & Hx). destruct (Hn n) as [[Hl Hst] _]; [by left|].
    unfold move. rewrite Hst, Hx. intros [= <- <-]. set (d' := set_live _ _).
    assert (begun made d' p old) as Hb'.
    { destruct Hb as [H1 H2 H3 H4 H5 H6 H7 H8]. constructor; try done.
      - intros m y Hy. by left.
      - intros m y Hy. unfold d'. cbn. destruct (decide (m = n)) as [->|Hne]; [intros _; left; apply in_names; by exists x|]. rewrite lookup_insert_ne by done. by apply H8. }
    split; [by eapply begun_disk|]. exists p. split_and!; try done; [intros m Hm; apply Hin; by right|].
    intros m. unfold d'. cbn. destruct (Hn m) as [Hm1 Hm2]. destruct (decide (m = n)) as [->|Hne].
    + rewrite lookup_insert_eq. split; [done|]. by rewrite Hx.
    + rewrite lookup_insert_ne, lookup_delete_ne by done. split; [intros Hm; apply Hm1; by right|]. intros Hm. apply Hm2. intros [?|?]; [by subst|done].
Qed.

Lemma clearing_ok made again todo d c' d' : control_ok (Clearing again todo) made d -> next version (Clearing again todo) d = Some (c', d') -> disk_ok made d' /\ control_ok c' made d'.
Proof.
  intros (p & previous & Hb & Hc & Hin). destruct todo as [|n todo]; cbn [next].
  - rewrite (bg_previous _ _ _ _ Hb). intros [= <- <-]. split; [by eapply begun_disk|]. exists p, previous. split_and!; [done|done|apply names_nodup|apply in_names].
  - destruct (Hin n (or_introl eq_refl)) as [Hn Hno]. rewrite in_names in Hn. destruct Hn as (x & Hx). rewrite (Hnew n x Hx). intros [= <- <-].
    assert (begun made (set_live (delete n (dk_live d)) d) p previous) as Hb'.
    { apply (begun_live made); [done| |].
      - intros m y Hy Hp. rewrite lookup_delete_ne by congruence. destruct (bg_safe _ _ _ _ Hb m y Hy) as [?|[_ ?]]; [congruence|done].
      - intros m y Hy. destruct (decide (m = n)) as [->|Hne]; [by rewrite lookup_delete_eq|]. rewrite lookup_delete_ne by done. by apply (bg_others _ _ _ _ Hb). }
    split; [by eapply begun_disk|]. exists p, previous. split_and!; [done| |intros m Hm; apply Hin; by right].
    intros m Hm Hmo. cbn. destruct (decide (m = n)) as [->|Hne]; [left; apply lookup_delete_eq|]. rewrite lookup_delete_ne by done.
    destruct (Hc m Hm Hmo) as [?|[?|?]]; [by left|congruence|by right].
Qed.

Lemma returning_ok made again todo d c' d' : control_ok (Returning again todo) made d -> next version (Returning again todo) d = Some (c', d') -> disk_ok made d' /\ control_ok c' made d'.
Proof.
  intros (p & previous & Hb & Hc & Hnd & Hin). destruct todo as [|n todo]; cbn [next].
  - intros [= <- <-]. split; [by eapply begun_disk|]. exists p, previous. split_and!; [done|done|]. intros n. destruct (previous !! n) as [x|] eqn:E; [|done].
    by destruct (proj2 (Hin n) (ex_intro _ x E)).
  - destruct (proj1 (Hin n) (or_introl eq_refl)) as (x & Hx). pose proof (bg_moved _ _ _ _ Hb n x Hx) as Ho. rewrite (Hold n x Ho). intros [= <- <-].
    assert (begun made (set_live (delete n (dk_live d)) d) p previous) as Hb'.
    { apply (begun_live made); [done| |].
      - intros m y Hy Hp. rewrite lookup_delete_ne by congruence. destruct (bg_safe _ _ _ _ Hb m y Hy) as [?|[_ ?]]; [congruence|done].
      - intros m y Hy. rewrite lookup_delete_ne by congruence. by apply (bg_others _ _ _ _ Hb). }
    split; [by eapply begun_disk|]. exists p, previous. split_and!; [done| |done|apply lookup_delete_eq|done].
    intros m Hm Hmo. cbn. destruct (Hc m Hm Hmo) as [?|[]]. left. rewrite lookup_delete_ne by congruence. done.
Qed.

Lemma replacing_ok made again n todo d c' d' : control_ok (Replacing again n todo) made d -> next version (Replacing again n todo) d = Some (c', d') -> disk_ok made d' /\ control_ok c' made d'.
Proof.
  intros (p & previous & Hb & Hc & Hnd & Hl & Hin). cbn [next]. rewrite (bg_previous _ _ _ _ Hb).
  destruct (proj1 (Hin n) (or_introl eq_refl)) as (x & Hx). pose proof (bg_moved _ _ _ _ Hb n x Hx) as Ho. unfold move. rewrite Hx. intros [= <- <-].
  inversion Hnd as [|? ? Hni Hnd']; subst. set (previous' := delete n previous). set (d' := set_live _ _).
  assert (begun made d' p previous') as Hb'.
  { destruct Hb as [H1 H2 H3 H4 H5 H6 H7 H8]. constructor; try done.
    - intros m y. unfold previous'. rewrite lookup_delete_Some. intros [_ ?]. by apply H6.
    - intros m y Hy. unfold previous', d'. cbn. destruct (decide (m = n)) as [->|Hne]; [right; rewrite lookup_delete_eq, lookup_insert_eq; split; congruence|].
      rewrite lookup_delete_ne, lookup_insert_ne by done. by apply H7.
    - intros m y Hy. unfold d'. cbn. rewrite lookup_insert_ne by congruence. by apply H8. }
  split; [by eapply begun_disk|]. exists p, previous'. split_and!; [done| |done|].
  - intros m Hm Hmo. unfold d'. cbn. destruct (Hc m Hm Hmo) as [?|[]]. left. rewrite lookup_insert_ne by congruence. done.
  - intros m. unfold previous'. split.
    + intros Hm. destruct (proj1 (Hin m) (or_intror Hm)) as (y & Hy). exists y. rewrite lookup_delete_ne; [done|]. intros ->. done.
    + intros (y & [Hne Hy]%lookup_delete_Some). destruct (proj2 (Hin m) (ex_intro _ y Hy)) as [?|?]; [congruence|done].
Qed.

Lemma closing_ok made again d c' d' : control_ok (Closing again) made d -> next version (Closing again) d = Some (c', d') -> disk_ok made d' /\ control_ok c' made d'.
Proof.
  intros (p & previous & Hb & Hc & Hn). cbn [next]. intros [= <- <-].
  assert (restored made (dk_live d)) as Hr.
  { split.
    - intros n x Hx. destruct (bg_safe _ _ _ _ Hb n x Hx) as [?|[_ ?]]; [by rewrite Hn in *|done].
    - intros n x Hx Hl. destruct (bg_others _ _ _ _ Hb n x Hx Hl) as [Hi|?]; [|done]. destruct (Hc n Hi Hx) as [?|[]]. congruence. }
  split; [done|]. by destruct again.
Qed.

Lemma restore_step_ok cfg cfg' : config_ok cfg -> restore_step version cfg cfg' -> config_ok cfg'.
Proof.
  intros Hok Hs. destruct Hs as [c d made c' d' Hn|c d made|again n todo d made x|again n todo d made x|c d made Hc|c d made Hc|d made live made' Hsub Hsame];
    destruct Hok as [Hd Hctl].
  - destruct c; [apply (begin_ok _ d); [done|by injection Hn]|by eapply prepared_ok|by eapply moving_out_ok|by eapply moving_in_ok|by eapply clearing_ok|
      by eapply returning_ok|by eapply replacing_ok|by eapply closing_ok|done|done].
  - by split.
  - split; [|done]. destruct Hctl as (p & previous & Hb & _ & Hin). destruct (Hin n (or_introl eq_refl)) as [Hn Hno]. eapply begun_disk, (begun_live made); [done| |].
    + intros m y Hy Hp. rewrite lookup_insert_ne by congruence. destruct (bg_safe _ _ _ _ Hb m y Hy) as [?|[_ ?]]; [congruence|done].
    + intros m y Hy. destruct (decide (m = n)) as [->|Hne]; [by left|]. rewrite lookup_insert_ne by done. by apply (bg_others _ _ _ _ Hb).
  - split; [|done]. destruct Hctl as (p & previous & Hb & _ & _ & Hin). destruct (proj1 (Hin n) (or_introl eq_refl)) as (y0 & Hy0). pose proof (bg_moved _ _ _ _ Hb n y0 Hy0) as Ho.
    eapply begun_disk, (begun_live made); [done| |].
    + intros m y Hy Hp. rewrite lookup_insert_ne by congruence. destruct (bg_safe _ _ _ _ Hb m y Hy) as [?|[_ ?]]; [congruence|done].
    + intros m y Hy. rewrite lookup_insert_ne by congruence. by apply (bg_others _ _ _ _ Hb).
  - split; [done|]. destruct c; try done; [destruct Hctl as (p & previous & Hb & _)|destruct Hctl as (p & Hb & _)]; by eapply roll_back_ok.
  - by split.
  - destruct Hctl as ((p & Hb & Hph) & Hl). assert (begun made' (set_live live d) p old) as Hb'.
    { apply (begun_live made); [done|congruence|]. intros n x Hx Hln. destruct (decide (n ∈ made')) as [?|Hni]; [by right|].
      rewrite Hsame in Hln by done. destruct (bg_others _ _ _ _ Hb n x Hx Hln) as [?|?]; [by left|right; set_solver]. }
    split; [by eapply begun_disk|]. split; [by exists p|]. intros n Hn. cbn. rewrite Hsame by done. apply Hl. set_solver.
Qed.

(** *** Every start ends *)

(** A bound for the steps left. *)
Definition steps_left c : nat :=
  let o := length (names_in old) in
  let n := length (names_in new) in
  match c with
  | Served _ | FailedStart => 0
  | Closing _ => 1
  | Returning _ todo => 2 * length todo + 2
  | Replacing _ _ todo => 2 * length todo + 3
  | Clearing _ todo => length todo + 2 * o + 3
  | MovingIn todo => length todo + 1
  | MovingOut todo => length todo + n + 2
  | Prepared => o + n + 3
  | Off => 2 * o + n + 4
  end.

(** A start that has not failed, and a rollback that is not the end of a failure. *)
Definition on_course c : Prop :=
  match c with
  | FailedStart => False
  | Clearing again _ | Returning again _ | Replacing again _ _ | Closing again => again = true
  | _ => True
  end.

Lemma fewer_names (l l' : level) : (forall n x, l !! n = Some x -> l' !! n = Some x) -> (length (names_in l) <= length (names_in l'))%nat.
Proof.
  intros Hsub. apply NoDup_incl_length; [apply names_nodup|]. intros n. rewrite !in_names. intros (x & Hx). exists x. auto.
Qed.

Lemma clearing_length d made p previous : begun made d p previous ->
  (length (List.filter (fun n => negb (existsb (String.eqb n) (pd_previous p))) (pd_installed p)) <= length (names_in new))%nat.
Proof. intros Hb. rewrite (bg_new _ _ _ _ Hb). apply filter_length_le. Qed.

Lemma next_progress c made d c' d' : disk_ok made d -> control_ok c made d -> c <> Off -> on_course c -> next version c d = Some (c', d') ->
  on_course c' /\ (steps_left c' < steps_left c)%nat.
Proof.
  intros Hd Hc Hoff Hon. destruct c as [| |todo|todo|again todo|again todo|again n todo|again|b|]; cbn [next]; try done.
  - destruct Hc as (Hl & _ & _ & p & -> & _). intros [= <- <-]. split; [done|]. cbn [steps_left]. rewrite Hl. lia.
  - destruct Hc as (p & previous & Hb & _ & Hs & _ & Hin & Hn). destruct todo as [|n todo].
    + intros [= <- <-]. split; [done|]. rewrite (bg_pending _ _ _ _ Hb). cbn [steps_left from_option length]. rewrite (bg_new _ _ _ _ Hb). lia.
    + rewrite (bg_previous _ _ _ _ Hb). destruct (Hin n (or_introl eq_refl)) as (x & Hx). destruct (Hn n) as [[Hl _] _]; [by left|].
      unfold move. rewrite Hl, Hx. intros [= <- <-]. split; [done|]. simpl. lia.
  - destruct Hc as (p & Hb & _ & _ & Hin & Hn). destruct todo as [|n todo].
    + rewrite (bg_pending _ _ _ _ Hb). intros [= <- <-]. split; [done|]. simpl. lia.
    + destruct (Hin n (or_introl eq_refl)) as (x & Hx). destruct (Hn n) as [[_ Hst] _]; [by left|]. unfold move. rewrite Hst, Hx.
      intros [= <- <-]. split; [done|]. simpl. lia.
  - destruct Hc as (p & previous & Hb & _ & Hin). destruct todo as [|n todo].
    + rewrite (bg_previous _ _ _ _ Hb). intros [= <- <-]. split; [done|]. pose proof (fewer_names previous old (bg_moved _ _ _ _ Hb)) as Hf. cbn [steps_left length]. lia.
    + destruct (Hin n (or_introl eq_refl)) as [Hn _]. rewrite in_names in Hn. destruct Hn as (x & Hx). rewrite (Hnew n x Hx). intros [= <- <-]. split; [done|]. simpl. lia.
  - destruct Hc as (p & previous & Hb & _ & _ & Hin). destruct todo as [|n todo]; [intros [= <- <-]; split; [done|simpl; lia]|].
    destruct (proj1 (Hin n) (or_introl eq_refl)) as (x & Hx). rewrite (Hold n x (bg_moved _ _ _ _ Hb n x Hx)). intros [= <- <-]. split; [done|]. simpl. lia.
  - destruct Hc as (p & previous & Hb & _ & _ & _ & Hin). destruct (proj1 (Hin n) (or_introl eq_refl)) as (x & Hx). rewrite (bg_previous _ _ _ _ Hb).
    unfold move. rewrite Hx. intros [= <- <-]. split; [done|]. simpl. lia.
  - simpl in Hon. subst again. intros [= <- <-]. split; [done|]. simpl. lia.
Qed.

Lemma next_not_off c d c' d' : next version c d = Some (c', d') -> c' <> Off.
Proof.
  destruct c as [| |[|n todo]|[|n todo]|again [|n todo]|again [|n todo]|again n todo|again|b|]; cbn [next]; try done; unfold begin_apply, roll_back;
    repeat case_match; intros; simplify_eq; done.
Qed.

Lemma run_ends fuel c made d : disk_ok made d -> control_ok c made d -> c <> Off -> on_course c -> (steps_left c <= fuel)%nat ->
  exists b d', run version fuel c d = (Served b, d') /\ disk_ok made d' /\ control_ok (Served b) made d'.
Proof.
  revert c d. induction fuel as [|fuel IH]; intros c d Hd Hc Hoff Hon Hle; cbn [run].
  - destruct c; cbn [steps_left] in Hle; try lia; try done. by exists activated, d.
  - destruct (next version c d) as [[c' d']|] eqn:E.
    + destruct (next_progress c made d c' d' Hd Hc Hoff Hon E) as [Hon' Hlt].
      assert (config_ok (c', d', made)) as [Hd' Hc'] by (apply (restore_step_ok (c, d, made)); [by split|by apply rs_run]).
      apply IH; try done; [by eapply next_not_off|lia].
    + destruct c as [| |[|]|[|]|? [|]|? [|]| | |b|]; cbn [next] in E; try done; try (by repeat case_match). by exists b, d.
Qed.
End Outcome.

(** ** Properties *)

Section Properties.
Context `{Sha256} (version : string) (d0 : disk) (p0 : pending_restore).
Context (Hpending : dk_pending d0 = Some p0) (Hphase : pd_phase p0 = PPending) (Hfresh : dk_previous d0 = None).
Context (Hold : forall n x, dk_live d0 !! n = Some x -> is_safe n = true) (Hnew : forall n x, dk_staged d0 !! n = Some x -> is_safe n = true).
Implicit Types (made : gset string).

Lemma scheduled_ok : config_ok (dk_live d0) (dk_staged d0) (dk_verified d0) (Off, d0, ∅).
Proof. split; [|done]. unfold disk_ok. rewrite Hpending, Hphase. split_and!; try done. by left. Qed.

Lemma reachable_ok cfg : rtc (restore_step version) (Off, d0, ∅) cfg -> config_ok (dk_live d0) (dk_staged d0) (dk_verified d0) cfg.
Proof.
  intros Hr. pose proof scheduled_ok as Hs. revert Hs Hr. generalize (Off, d0, ∅ : gset string) as cfg0. intros cfg0 Hs Hr.
  induction Hr as [|cfg0 cfg1 cfg2 Hstep _ IH]; [done|]. apply IH. by eapply restore_step_ok.
Qed.

(** C34: once a restore is scheduled, the instance is never served with half of it.
    Whatever crashes - between any two steps or in the middle of the removal of a
    tree - and whatever failing step, new start or work of the activated instance
    comes in between: when the instance is served with the restore, its data are
    exactly the restored ones and the old data are kept aside; when it is served
    without, its data are exactly the old ones - up to what the activated instance
    has changed itself in a name the old instance did not have. This is until the
    backend, once it is ready, has confirmed the restore. *)
Theorem served_instance_is_old_or_new b d made : rtc (restore_step version) (Off, d0, ∅) (Served b, d, made) ->
  if b then dk_previous d = Some (dk_live d0) /\ (forall n, n ∉ made -> dk_live d !! n = dk_staged d0 !! n)
  else (forall n x, dk_live d0 !! n = Some x -> dk_live d !! n = Some x) /\ (forall n, n ∉ made -> dk_live d !! n = dk_live d0 !! n).
Proof.
  intros Hr%reachable_ok. destruct Hr as [_ Hc]. destruct b; cbn in Hc.
  - destruct Hc as [(p & Hb & _) Hl]. split; [by apply bg_previous in Hb|done].
  - destruct Hc as [Ho Hn]. split; [done|]. intros n Hni. destruct (dk_live d0 !! n) as [x|] eqn:E; [by apply Ho|].
    destruct (dk_live d !! n) as [x|] eqn:El; [|done]. by destruct (Hni (Hn n x E El)).
Qed.

(** C35: a start that nothing interrupts ends, after a number of steps that the
    names of the old and the new data bound, whatever crash or failure came before:
    it undoes or leaves alone a restore that had begun, and serves the instance;
    only a restore that has not begun can make it fail. *)
Theorem uninterrupted_start_ends d made : rtc (restore_step version) (Off, d0, ∅) (Off, d, made) ->
  let fuel := (2 * size (dk_live d0) + size (dk_staged d0) + 4)%nat in
  (exists b d', run version fuel Off d = (Served b, d')) \/
  (exists p, run version fuel Off d = (FailedStart, d) /\ dk_pending d = Some p /\ pd_phase p = PPending).
Proof.
  intros Hr%reachable_ok fuel. destruct Hr as [Hd _]. subst fuel.
  assert (forall l : level, length (names_in l) = size l) as Hsize by (intros l; unfold names_in; by rewrite length_map, length_map_to_list).
  destruct (begin_apply version d) as [c' d'] eqn:E. replace (2 * size (dk_live d0) + size (dk_staged d0) + 4)%nat with (S (2 * size (dk_live d0) + size (dk_staged d0) + 3)) by lia.
  cbn [run next]. rewrite E. pose proof (begin_ok version _ _ _ _ _ _ _ Hd E) as [Hd' Hc'].
  assert (c' = FailedStart \/ on_course c') as [->|Hon].
  { revert E. unfold begin_apply, roll_back. repeat case_match; intros [= <- <-]; auto; by right. }
  - right. revert E. unfold begin_apply, roll_back. destruct (dk_pending d) as [p|] eqn:Ep; [|done]. destruct (pd_phase p) eqn:Eph; try done.
    intros E. exists p. split; [|done]. assert (d' = d) as -> by (repeat case_match; by simplify_eq). by destruct (2 * size (dk_live d0) + size (dk_staged d0) + 3)%nat.
  - left. destruct (run_ends version _ _ (dk_verified d0) Hold Hnew (2 * size (dk_live d0) + size (dk_staged d0) + 3) c' made d') as (b & d2 & Hrun & _); try done.
    + intros ->. revert E. unfold begin_apply, roll_back. by repeat case_match.
    + revert E. unfold begin_apply, roll_back. destruct (dk_pending d) as [p|] eqn:Ep; [|intros [= <- <-]; simpl; lia].
      unfold disk_ok in Hd. rewrite Ep in Hd.
      destruct (pd_phase p) eqn:Eph; [repeat case_match; intros [= <- <-]; simpl; rewrite ?Hsize; lia|intros [= <- <-]; simpl; lia|..];
        destruct Hd as (previous & Hb); intros [= <- <-]; cbn [steps_left from_option id]; pose proof (clearing_length _ _ _ _ _ _ Hb); rewrite !Hsize in *; lia.
    + by exists b, d2.
Qed.
End Properties.

(** ** A restore that is scheduled, and crashes *)

Module DemoRestores.
#[local] Instance sha : Sha256 := {| sha256 s := ("#" ++ s)%string |}.

Definition live : level := <["nginx" := Directory [("a.conf", File "old site")]]> (<["shieldpm" := File "old rows"]> (<["stale" := File "x"]> ∅)).
Definition staged : level := <["nginx" := Directory [("a.conf", File "new site"); ("b", Link "a.conf")]]> (<["shieldpm" := File "new rows"]> (<["tls" := Directory []]> ∅)).
Definition staged_entries : list entry := match describeData staged with Ok es => es | Throw _ => [] end.

(** The disk once [verify] has scheduled the restore of an archive. *)
Definition d0 : disk :=
  match schedule staged staged_entries "3.0" (MkDisk live ∅ None None (MkVerified "" [])) with Ok d => d | Throw _ => MkDisk live ∅ None None (MkVerified "" []) end.
Definition start (steps : nat) (d : disk) : control * disk := run "3.0" steps Off d.

Definition all_safe (l : level) : bool := forallb is_safe (names_in l).
Lemma all_safe_names l : all_safe l = true -> forall n x, l !! n = Some x -> is_safe n = true.
Proof. intros Ha n x Hx. unfold all_safe in Ha. rewrite forallb_forall in Ha. apply Ha, in_names. by exists x. Qed.

Lemma live_safe n x : dk_live d0 !! n = Some x -> is_safe n = true.
Proof. apply all_safe_names. vm_compute. reflexivity. Qed.
Lemma staged_safe n x : dk_staged d0 !! n = Some x -> is_safe n = true.
Proof. apply all_safe_names. vm_compute. reflexivity. Qed.

(** It is served with the new data; or, when the machine dies after the seventh
    step, with the old data. *)
Lemma served_old_or_new_witness :
  let done_ := start 100 d0 in
  let died := start 7 d0 in
  let again := start 100 died.2 in
  done_.1 = Served true /\ dk_live done_.2 = staged /\ dk_previous done_.2 = Some live /\
  dk_live died.2 <> live /\ dk_live died.2 <> staged /\ again.1 = Served false /\ dk_live again.2 = live /\
  (forall n, n ∉ (∅ : gset string) -> dk_live done_.2 !! n = dk_staged d0 !! n) /\
  (forall n, n ∉ (∅ : gset string) -> dk_live again.2 !! n = dk_live d0 !! n).
Proof.
  cbv zeta. split; [vm_compute; reflexivity|]. split; [vm_compute; reflexivity|]. split; [vm_compute; reflexivity|].
  split; [vm_compute; discriminate|]. split; [vm_compute; discriminate|]. split; [vm_compute; reflexivity|]. split; [vm_compute; reflexivity|].
  split.
  - apply (served_instance_is_old_or_new "3.0" d0 (MkPending PPending [] []) eq_refl eq_refl eq_refl
      live_safe staged_safe true (start 100 d0).2 ∅).
    pose proof (run_reaches "3.0" 100 Off d0 ∅) as Hr. replace (Served true) with (run "3.0" 100 Off d0).1 by (vm_compute; reflexivity). exact Hr.
  - apply (served_instance_is_old_or_new "3.0" d0 (MkPending PPending [] []) eq_refl eq_refl eq_refl
      live_safe staged_safe false (start 100 (start 7 d0).2).2 ∅).
    destruct (crash_and_run "3.0" 7 100 d0 ∅) as [_ Hr]. replace (Served false) with (run "3.0" 100 Off (run "3.0" 7 Off d0).2).1 by (vm_compute; reflexivity). exact Hr.
Defined.

(** The same two starts, within their bound. *)
Lemma uninterrupted_start_witness :
  (start (2 * size live + size staged + 4) (start 7 d0).2).1 = Served false /\
  ((exists b d', start (2 * size live + size staged + 4) (start 7 d0).2 = (Served b, d')) \/
   (exists p, start (2 * size live + size staged + 4) (start 7 d0).2 = (FailedStart, (start 7 d0).2) /\ dk_pending (start 7 d0).2 = Some p /\ pd_phase p = PPending)).
Proof.
  split; [vm_compute; reflexivity|].
  refine (uninterrupted_start_ends "3.0" d0 (MkPending PPending [] []) eq_refl eq_refl eq_refl
      live_safe staged_safe (start 7 d0).2 ∅ _).
  exact (proj1 (crash_and_run "3.0" 7 100 d0 ∅)).
Defined.

(** The machine dies when the directory for the old data is there and the record
    still says that nothing has begun: no later start succeeds, and only canceling
    the restore, which needs a running instance, would help. *)
Example interrupted_start_is_stuck fuel :
  let d := (start 1 d0).2 in
  dk_live d = live /\ run "3.0" (S fuel) Off d = (FailedStart, d) /\ is_ok (cancel d) = true.
Proof.
  cbv zeta. split; [vm_compute; reflexivity|]. split; [|vm_compute; reflexivity].
  assert (forall d : disk, run "3.0" fuel FailedStart d = (FailedStart, d)) as Hstop by (intros d; by destruct fuel).
  cbn [run next]. assert (begin_apply "3.0" (start 1 d0).2 = (FailedStart, (start 1 d0).2)) as -> by (vm_compute; reflexivity). apply Hstop.
Qed.
End DemoRestores.
