(* ===== verification/DbMigrate.v ===== *)
(** Moving an SQLite database to a database server,
    src/backend/lib/db-migrate.js: the schemas are compared, the tables ordered
    so that parents precede children, and the rows of each table are read in
    pages, converted and inserted in one transaction of the destination.

    The source is one snapshot and is only read.  The destination enforces its
    primary and foreign keys row by row, and the server may refuse any batch.
    Rows are lists of named cells; an integer column is read as text, as the
    query casts it.  Columns with fractions do not occur in the schema. *)

From Stdlib Require Import Sorting.Sorted.
From stdpp Require Import gmap strings sorting.
From S2P Require Import Prelude JsString Errors.
#[local] Open Scope string_scope.
#[local] Open Scope list_scope.
#[local] Open Scope Z_scope.

(** ** Data *)

(** A cell of SQLite, and what is bound for the destination. *)
Inductive scell : Type := SNull | SInt (n : Z) | SText (s : string) | SBlob (s : string).
Inductive dcell : Type := DNull | DBool (b : bool) | DDate (ms : Z) | DInt (n : Z) | DText (s : string) | DBlob (s : string).

#[export] Instance scell_eq_dec : EqDecision scell.
Proof. solve_decision. Defined.
#[export] Instance dcell_eq_dec : EqDecision dcell.
Proof. solve_decision. Defined.

Abbreviation srow := (list (string * scell)).
Abbreviation drow := (list (string * dcell)).

(** [PRAGMA table_info], [PRAGMA foreign_key_list], and a table; its rows are in
    the order of its key, as every query asks for them. *)
Record column : Type := MkColumn { cl_name : string; cl_type : string; cl_pk : bool }.
Record fkey : Type := MkFkey { fk_from : string; fk_table : string; fk_to : string }.
Record stable : Type := MkTable { st_name : string; st_columns : list column; st_fkeys : list fkey; st_rows : list srow }.
Record source : Type := MkSource { so_tables : list stable; so_migrations : option (list string) }.

(** [columnInfo] of the destination, its tables with their storage engine. *)
Record dcolumn : Type := MkDcolumn { dc_name : string; dc_type : string; dc_nullable : bool }.
Record dtable : Type := MkDtable { dt_name : string; dt_engine : string; dt_columns : list dcolumn }.
Abbreviation db := (gmap string (list drow)).
(** [ds_next] is the next value of the sequence of a table that has one. *)
Record destination : Type := MkDest { ds_tables : list dtable; ds_migrations : list string; ds_rows : db; ds_next : gmap string Z }.

Inductive client : Type := Mysql | Postgres.

(** What [readSchema] collects of a table. *)
Record table : Type := MkInfo {
  ti_name : string;
  ti_columns : list dcolumn;
  ti_source : list column;
  ti_key : string;
  ti_self : list string;
  ti_deps : list string;
  ti_fkeys : list fkey
}.

Definition cell_of (name : string) (r : srow) : scell := match first_where (fun c => String.eqb (fst c) name) r with Some c => snd c | None => SNull end.
Definition dcell_of (name : string) (r : drow) : dcell := match first_where (fun c => String.eqb (fst c) name) r with Some c => snd c | None => DNull end.
Definition rows_in (d : db) (t : string) : list drow := match d !! t with Some rows => rows | None => [] end.

(** ** Comparing schemas *)

Definition INTERNAL_TABLES : list string := ["migrations"; "migrations_lock"; "knex_migrations"; "knex_migrations_lock"].
Definition isApplicationTable (name : string) : bool := negb (starts_with "sqlite_" name) && negb (existsb (String.eqb name) INTERNAL_TABLES).
Definition schemaError : error :=
  NativeError "SQLite schema differs from the destination. Start this ShieldPM version with SQLite first, then retry.".

(** [.sort()] of names *)
Fixpoint insert_name (x : string) (l : list string) : list string :=
  match l with [] => [x] | y :: l' => if String.ltb y x then y :: insert_name x l' else x :: l end.
Definition sort_names (l : list string) : list string := fold_right insert_name [] l.
Definition same_names (a b : list string) : bool := bool_decide (sort_names a = sort_names b).
Definition distinct_names (l : list string) : list string := rev (fold_left (fun seen x => if existsb (String.eqb x) seen then seen else x :: seen) l []).

Definition read_table (t : stable) (d : dtable) : fallible table :=
  throw schemaError when (negb (same_names (map cl_name (st_columns t)) (map dc_name (dt_columns d)))) ;;
  match select_where cl_pk (st_columns t) with
  | [key] =>
      let self := distinct_names (map fk_from (select_where (fun k => String.eqb (fk_table k) (st_name t)) (st_fkeys t))) in
      throw NativeError ("Cannot safely import non-nullable self references in " ++ st_name t)%string
        when (existsb (fun c => negb (dc_nullable c) && existsb (String.eqb (dc_name c)) self) (dt_columns d)) ;;
      Ok (MkInfo (st_name t) (dt_columns d) (st_columns t) (cl_name key) self
            (map fk_table (select_where (fun k => negb (String.eqb (fk_table k) (st_name t))) (st_fkeys t))) (st_fkeys t))
  | _ => Throw (NativeError ("Cannot safely paginate table " ++ st_name t ++ ": expected one primary key")%string)
  end.

(** The tables in an order in which every dependency comes first. *)
Definition is_ready (visited : list string) (t : table) : bool :=
  negb (existsb (String.eqb (ti_name t)) visited) && forallb (fun dep => existsb (String.eqb dep) visited) (ti_deps t).
Fixpoint order_loop (fuel : nat) (tables ordered : list table) : fallible (list table) :=
  match fuel with
  | O => Ok ordered
  | S fuel' =>
      match first_where (is_ready (map ti_name ordered)) tables with
      | Some next => order_loop fuel' tables (ordered ++ [next])
      | None => Throw (NativeError "Cannot safely import cyclic or missing foreign key dependencies")
      end
  end.
(** The loop runs while fewer tables are ordered than there are. *)
Definition order_tables (tables : list table) : fallible (list table) := order_loop (length tables) tables [].

Definition named_table (name : string) (l : list stable) : option stable := first_where (fun t => String.eqb (st_name t) name) l.
Definition named_dtable (name : string) (l : list dtable) : option dtable := first_where (fun t => String.eqb (dt_name t) name) l.

Definition readSchema (c : client) (src : source) (dst : destination) : fallible (list table) :=
  let sourceTables := sort_names (select_where isApplicationTable (map st_name (so_tables src))) in
  throw NativeError "SQLite import requires transactional InnoDB tables in the destination"
    when (match c with Mysql => existsb (fun t => isApplicationTable (dt_name t) && negb (String.eqb (to_lower (dt_engine t)) "innodb")) (ds_tables dst) | Postgres => false end) ;;
  let targetTables := sort_names (select_where isApplicationTable (map dt_name (ds_tables dst))) in
  throw schemaError when (negb (bool_decide (sourceTables = targetTables)) || negb (existsb (String.eqb "user") sourceTables)) ;;
  match so_migrations src with
  | None => Throw schemaError
  | Some migrations =>
      throw schemaError when (negb (same_names migrations (ds_migrations dst))) ;;
      let? tables := rmapM (fun name => match named_table name (so_tables src), named_dtable name (ds_tables dst) with
                                        | Some t, Some d => read_table t d | _, _ => Throw schemaError end) sourceTables in
      order_tables tables
  end.

(** ** Reading in pages *)

(** [/int/i]: the column is read as text. *)
Definition int_type (type : string) : bool := includes "int" (to_lower type).
Definition cast_text (v : scell) : scell := match v with SInt n => SText (show_Z n) | SBlob s => SText s | _ => v end.
Definition selected (columns : list column) (r : srow) : srow :=
  map (fun c => (cl_name c, if int_type (cl_type c) then cast_text (cell_of (cl_name c) r) else cell_of (cl_name c) r)) columns.

(** Comparing with a bound value, which takes the affinity of the column. *)
Definition is_digits (s : string) : bool := negb (String.eqb s "") && all_chars is_digit s.
Definition int_text (s : string) : option Z :=
  match s with
  | EmptyString => None
  | String c d => if Ascii.eqb c "-"%char then (if is_digits d then Some (- read_Z d) else None)
                  else if is_digits s then Some (read_Z s) else None
  end.
Definition with_affinity (type : string) (v : scell) : scell :=
  match v with SText s => if int_type type then match int_text s with Some n => SInt n | None => v end else v | _ => v end.
Definition cell_lt (a b : scell) : bool :=
  match a, b with
  | SInt x, SInt y => x <? y
  | SText x, SText y | SBlob x, SBlob y => String.ltb x y
  | SInt _, (SText _ | SBlob _) | SText _, SBlob _ => true
  | _, _ => false
  end.

Definition type_of (columns : list column) (name : string) : string :=
  match first_where (fun c => String.eqb (cl_name c) name) columns with Some c => cl_type c | None => "" end.
Definition batch_size (columns : list column) : nat := Z.to_nat (Z.max 1 (Z.min 200 (900 / Z.of_nat (length columns)))).

(** One page: the rows after [lastId], in the order of the key. *)
Definition page (t : table) (rows : list srow) (lastId : option scell) : list srow :=
  firstn (batch_size (ti_source t))
    (match lastId with
     | None => rows
     | Some v => select_where (fun r => cell_lt (with_affinity (type_of (ti_source t) (ti_key t)) v) (cell_of (ti_key t) r)) rows
     end).
(** [readBatches]; the fuel is one page for each row and the empty one. *)
Fixpoint read_loop (fuel : nat) (t : table) (rows : list srow) (lastId : option scell) : list (list srow) :=
  match fuel with
  | O => []
  | S fuel' =>
      match rev (page t rows lastId) with
      | [] => []
      | r :: _ => map (selected (ti_source t)) (page t rows lastId) ::
                  read_loop fuel' t rows (Some (cell_of (ti_key t) (selected (ti_source t) r)))
      end
  end.
Definition readBatches (t : table) (rows : list srow) : list (list srow) := read_loop (S (length rows)) t rows None.

(** ** Converting rows *)

Definition dtype_of (columns : list dcolumn) (name : string) : string :=
  match first_where (fun c => String.eqb (dc_name c) name) columns with Some c => to_lower (dc_type c) | None => "" end.
Definition boolean_type (type : string) : bool := String.eqb type "boolean" || String.eqb type "bool".
Definition date_type (type : string) : bool := starts_with "datetime" type || starts_with "timestamp" type.

(** A value that is bound as it is. *)
Definition raw (v : scell) : dcell := match v with SNull => DNull | SInt n => DInt n | SText s => DText s | SBlob s => DBlob s end.
(** Instants a [Date] can hold. *)
Definition date_cell (name : string) (ms : Z) : fallible dcell :=
  if Z.abs ms <=? 8640000000000000 then Ok (DDate ms) else Throw (NativeError ("Invalid SQLite date in column " ++ name)%string).

Definition convert_cell (name type : string) (v : scell) : fallible dcell :=
  match v with
  | SNull => Ok DNull
  | _ =>
      if boolean_type type then
        if bool_decide (v = SInt 1) || bool_decide (v = SText "1") then Ok (DBool true)
        else if bool_decide (v = SInt 0) || bool_decide (v = SText "0") then Ok (DBool false)
        else Throw (NativeError ("Invalid SQLite boolean in column " ++ name)%string)
      else if date_type type then
        match v with
        | SInt n => date_cell name n
        | SText s | SBlob s => match int_text s with Some n => date_cell name n | None => Ok (raw v) end
        | SNull => Ok DNull
        end
      else Ok (raw v)
  end.

Definition convertRow (columns : list dcolumn) (r : srow) : fallible drow :=
  rmapM (fun c => let? v := convert_cell (fst c) (dtype_of columns (fst c)) (snd c) in Ok (fst c, v)) r.

Definition is_self (t : table) (name : string) : bool := existsb (String.eqb name) (ti_self t).
(** The references of a table to itself are filled in later. *)
Definition without_self (t : table) (r : drow) : drow := map (fun c => if is_self t (fst c) then (fst c, DNull) else c) r.
Definition with_self (t : table) (read : srow) (r : drow) : drow := map (fun c => if is_self t (fst c) then (fst c, raw (cell_of (fst c) read)) else c) r.

(** ** Writing *)

Definition is_setting (t : table) : bool := String.eqb (ti_name t) "setting".
Definition has_key (t : table) (k : dcell) (r : drow) : bool := bool_decide (dcell_of (ti_key t) r = k).

(** A foreign key of the destination: null, or the key of a parent. *)
Definition reference_ok (d : db) (r : drow) (k : fkey) : bool :=
  match dcell_of (fk_from k) r with
  | DNull => true
  | v => existsb (fun p => bool_decide (dcell_of (fk_to k) p = v)) (rows_in d (fk_table k))
  end.
Definition constraint_error : error := NativeError "constraint failed".

Definition insert_row (t : table) (d : db) (r : drow) : fallible db :=
  throw constraint_error when (negb (forallb (reference_ok d r) (ti_fkeys t))) ;;
  if existsb (has_key t (dcell_of (ti_key t) r)) (rows_in d (ti_name t)) then
    if is_setting t then Ok (<[ti_name t := patch_where (has_key t (dcell_of (ti_key t) r)) (fun _ => r) (rows_in d (ti_name t))]> d)
    else Throw constraint_error
  else Ok (<[ti_name t := rows_in d (ti_name t) ++ [r]]> d).

Fixpoint insert_rows (t : table) (d : db) (rows : list drow) : fallible db :=
  match rows with [] => Ok d | r :: rows' => let? d' := insert_row t d r in insert_rows t d' rows' end.

(** What the server refuses: a page of a table, setting a sequence, and whether
    MySQL would replace the key zero. *)
Record target_server : Type := MkServer { sv_client : client; sv_refuses : string -> nat -> option error; sv_zero : bool; sv_sequence : string -> bool; sv_setval : string -> option error }.

Definition zero_key (sv : target_server) (t : table) (rows : list drow) : bool :=
  match sv_client sv with
  | Mysql => existsb (fun r => bool_decide (dcell_of (ti_key t) r = DText "0")) rows && int_type (dtype_of (ti_columns t) (ti_key t)) && negb (sv_zero sv)
  | Postgres => false
  end.

Definition import_page (sv : target_server) (t : table) (n : nat) (d : db) (batch : list srow) : fallible db :=
  let? rows := rmapM (fun r => let? c := convertRow (ti_columns t) r in Ok (without_self t c)) batch in
  throw NativeError "MySQL requires NO_AUTO_VALUE_ON_ZERO in sql_mode to preserve imported zero IDs" when (zero_key sv t rows) ;;
  match sv_refuses sv (ti_name t) n with Some e => Throw e | None => insert_rows t d rows end.

Fixpoint import_pages (sv : target_server) (t : table) (n : nat) (d : db) (batches : list (list srow)) : fallible db :=
  match batches with [] => Ok d | b :: batches' => let? d' := import_page sv t n d b in import_pages sv t (S n) d' batches' end.

(** The second pass: the references of a row to its own table. *)
Definition update_self (t : table) (d : db) (r : srow) : fallible db :=
  if forallb (fun name => bool_decide (cell_of name r = SNull)) (ti_self t) then Ok d
  else
    let d' := <[ti_name t := patch_where (has_key t (raw (cell_of (ti_key t) r))) (with_self t r) (rows_in d (ti_name t))]> d in
    throw constraint_error when (negb (forallb (fun row => forallb (reference_ok d' row) (ti_fkeys t))
      (select_where (has_key t (raw (cell_of (ti_key t) r))) (rows_in d' (ti_name t))))) ;;
    Ok d'.
Fixpoint update_all (t : table) (d : db) (rows : list srow) : fallible db :=
  match rows with [] => Ok d | r :: rows' => let? d' := update_self t d r in update_all t d' rows' end.

(** The highest number among the keys of a table. *)
Definition key_number (v : dcell) : Z := match v with DInt n => n | DText s => match int_text s with Some n => n | None => 0 end | _ => 0 end.
Definition highest_key (t : table) (rows : list drow) : Z := fold_right (fun r m => Z.max (key_number (dcell_of (ti_key t) r)) m) 0 rows.
Definition resetSequence (sv : target_server) (t : table) (d : db) (next : gmap string Z) : fallible (gmap string Z) :=
  match sv_client sv with
  | Postgres =>
      if sv_sequence sv (ti_name t) then
        match sv_setval sv (ti_name t) with
        | Some e => Throw e
        | None => Ok (<[ti_name t := highest_key t (rows_in d (ti_name t)) + 1]> next)
        end
      else Ok next
  | Mysql => Ok next
  end.

Definition import_table (sv : target_server) (t : table) (rows : list srow) (d : db) : fallible db :=
  let batches := readBatches t rows in
  let? d1 := import_pages sv t 0 d batches in
  let? d2 := match ti_self t with [] => Ok d1 | _ => update_all t d1 (concat batches) end in
  throw NativeError ("Row count mismatch importing " ++ ti_name t)%string
    when (negb (is_setting t) && negb (length (rows_in d2 (ti_name t)) =? length (concat batches))%nat) ;;
  Ok d2.

Definition rows_of_table (src : source) (t : table) : list srow := match named_table (ti_name t) (so_tables src) with Some x => st_rows x | None => [] end.

(** The rows, or an exception, and the sequences it has set until then. *)
Fixpoint import_tables (sv : target_server) (src : source) (tables : list table) (d : db) (next : gmap string Z) : fallible db * gmap string Z :=
  match tables with
  | [] => (Ok d, next)
  | t :: tables' =>
      match (let? d' := import_table sv t (rows_of_table src t) d in let? next' := resetSequence sv t d' next in Ok (d', next')) with
      | Ok (d', next') => import_tables sv src tables' d' next'
      | Throw e => (Throw e, next)
      end
  end.

Definition check_empty (d : db) (t : table) : fallible unit :=
  throw NativeError ("Destination table " ++ ti_name t ++ " is not empty; refusing to overwrite existing data")%string
    when (negb (is_setting t) && negb (length (rows_in d (ti_name t)) =? 0)%nat) ;; Ok tt.

(** A transaction of the destination: the rows are committed or rolled back, while
    what [setval] did to a sequence is never undone. *)
Definition in_transaction (body : db -> gmap string Z -> fallible db * gmap string Z) (dst : destination) : fallible unit * destination :=
  let '(r, next) := body (ds_rows dst) (ds_next dst) in
  let with_rows d := MkDest (ds_tables dst) (ds_migrations dst) d next in
  match r with Ok d => (Ok tt, with_rows d) | Throw e => (Throw e, with_rows (ds_rows dst)) end.

Definition importSqliteDatabase (sv : target_server) (src : source) (dst : destination) : fallible unit * destination :=
  in_transaction (fun d next =>
    match (let? tables := readSchema (sv_client sv) src dst in let? _ := rmapM (check_empty d) tables in Ok tables) with
    | Ok tables => import_tables sv src tables d next
    | Throw e => (Throw e, next)
    end) dst.

(** [migrateFromSqliteToNewDb]; [migrate_up] brings the schema of the destination
    up to date, [code] is the code of an error of the driver. *)
Definition migrateFromSqliteToNewDb (sv : target_server) (code : error -> option string) (migrate_up : destination -> fallible unit * destination)
    (sqlite : bool) (file : option source) (dst : destination) : fallible unit * destination :=
  match sqlite, file with
  | false, Some src =>
      match rows_in (ds_rows dst) "user" with
      | _ :: _ => (Ok tt, dst)
      | [] =>
          match migrate_up dst with
          | (Throw e, dst') => (Throw e, dst')
          | (Ok _, dst') =>
              match importSqliteDatabase sv src dst' with
              | (Ok _, dst'') => (Ok tt, dst'')
              | (Throw e, dst'') =>
                  (Throw (match code e with
                          | Some c => NativeError ("SQLite import failed (" ++ c ++ "); source preserved and imported rows rolled back")%string
                          | None => e end), dst'')
              end
          end
      end
  | _, _ => (Ok tt, dst)
  end.

(** ** Pages *)

Lemma ltb_asym a b : String.ltb a b = true -> String.ltb b a = false.
Proof. unfold String.ltb. rewrite (String.compare_antisym b a). by destruct (String.compare a b). Qed.

Lemma ltb_irrefl a : String.ltb a a = false.
Proof. destruct (String.ltb a a) eqn:E; [|done]. pose proof (ltb_asym _ _ E). congruence. Qed.

Lemma cell_lt_asym a b : cell_lt a b = true -> cell_lt b a = false.
Proof. destruct a, b; cbn; try done; [intros; boolify; lia|apply ltb_asym..]. Qed.
Lemma cell_lt_irrefl a : cell_lt a a = false.
Proof. destruct (cell_lt a a) eqn:E; [|done]. pose proof (cell_lt_asym _ _ E). congruence. Qed.

Lemma show_digits_text n : 0 <= n -> is_digits (show_Z n) = true.
Proof.
  intros Hn. unfold is_digits. rewrite show_Z_digits by done. rewrite andb_true_r, negb_true_iff. apply String.eqb_neq. intros E.
  assert (n = 0) as -> by (rewrite <- (read_show n Hn), E; done). done.
Qed.

(** Reading a printed number back, with its sign. *)
Lemma int_text_show n : int_text (show_Z n) = Some n.
Proof.
  destruct (Z.le_gt_cases 0 n) as [Hn|Hn].
  - pose proof (show_digits_text n Hn) as Hd. unfold int_text. rewrite Hd, read_show by done.
    destruct (show_Z n) as [|c s] eqn:E; [done|]. destruct (Ascii.eqb_spec c "-"%char) as [->|]; [done|done].
  - assert (show_Z n = String "-"%char (show_Z (- n))) as ->.
    { unfold show_Z. rewrite Z.abs_opp. replace (n <? 0) with true by (symmetry; apply Z.ltb_lt; lia).
      by replace (- n <? 0) with false by (symmetry; apply Z.ltb_ge; lia). }
    cbn [int_text]. rewrite Ascii.eqb_refl, show_digits_text, read_show by lia. f_equal. lia.
Qed.

(** A key that a comparison finds again: no null, and in a column read as text
    a number or a text that is none. *)
Definition key_fits (type : string) (k : scell) : Prop :=
  match k with
  | SNull => False
  | SInt _ => True
  | SText s => int_type type = true -> int_text s = None
  | SBlob _ => int_type type = false
  end.

Lemma key_read_back type k : key_fits type k -> with_affinity type (if int_type type then cast_text k else k) = k.
Proof.
  unfold with_affinity. destruct k as [|n|s|s]; cbn [key_fits]; destruct (int_type type) eqn:E; cbn [cast_text]; try done.
  - by rewrite int_text_show.
  - intros H. by rewrite H.
Qed.

Lemma first_where_names (columns : list column) c : List.NoDup (map cl_name columns) -> In c columns -> first_where (fun x => String.eqb (cl_name x) (cl_name c)) columns = Some c.
Proof.
  induction columns as [|x l IH]; [done|]. cbn. intros Hnd [->|Hin]; inversion Hnd as [|? ? Hni Hnd']; subst; [by rewrite String.eqb_refl|].
  destruct (String.eqb_spec (cl_name x) (cl_name c)) as [Heq|]; [|by apply IH]. destruct Hni. rewrite Heq. by apply in_map.
Qed.

(** A cell of a row as it is read. *)
Lemma selected_cell columns r c : List.NoDup (map cl_name columns) -> In c columns ->
  cell_of (cl_name c) (selected columns r) = if int_type (cl_type c) then cast_text (cell_of (cl_name c) r) else cell_of (cl_name c) r.
Proof.
  unfold selected, cell_of at 1. induction columns as [|x l IH]; [done|]. cbn. intros Hnd [->|Hin]; inversion Hnd as [|? ? Hni Hnd']; subst; [by rewrite String.eqb_refl|].
  destruct (String.eqb_spec (cl_name x) (cl_name c)) as [Heq|]; [destruct Hni; rewrite Heq; by apply in_map|]. by apply IH.
Qed.

Lemma batch_size_pos columns : (1 <= batch_size columns)%nat.
Proof. unfold batch_size. lia. Qed.

Lemma select_none {A} (p : A -> bool) l : (forall x, In x l -> p x = false) -> List.filter p l = [].
Proof. induction l as [|x l IH]; intros Hp; [done|]. cbn. rewrite (Hp x) by by left. apply IH. intros y Hy. apply Hp. by right. Qed.

Section Pages.
Context (t : table).
Implicit Types (rows : list srow).

Definition key_column (c : column) : Prop := In c (ti_source t) /\ cl_name c = ti_key t /\ List.NoDup (map cl_name (ti_source t)).
Definition key_before (a b : srow) : Prop := cell_lt (cell_of (ti_key t) a) (cell_of (ti_key t) b) = true.

(** Rows in the order of their keys, all of which can be found again. *)
Record in_order (c : column) rows : Prop := {
  io_sorted : StronglySorted key_before rows;
  io_keys : Forall (fun r => key_fits (cl_type c) (cell_of (ti_key t) r)) rows
}.

Lemma rows_after c past x rest : key_column c -> in_order c (past ++ x :: rest) ->
  select_where (fun r => cell_lt (with_affinity (type_of (ti_source t) (ti_key t)) (cell_of (ti_key t) (selected (ti_source t) x))) (cell_of (ti_key t) r)) (past ++ x :: rest) = rest.
Proof.
  intros (Hin & Hname & Hnd) [Hs Hk]. unfold type_of. rewrite <- Hname, (first_where_names _ c), selected_cell by done.
  rewrite Forall_app in Hk. destruct Hk as [_ Hk]. inversion Hk as [|? ? Hx _]; subst. rewrite <- Hname in Hx. rewrite key_read_back by done.
  apply StronglySorted_app in Hs as (Hbefore & Hpast & Hrest).
  assert (select_where (fun r => cell_lt (cell_of (cl_name c) x) (cell_of (cl_name c) r)) (x :: rest) = rest) as Hafter.
  { inversion Hrest as [|? ? _ Hall]; subst. unfold select_where. cbn. rewrite cell_lt_irrefl. apply select_all. intros r Hr.
    rewrite Forall_forall in Hall. specialize (Hall r). unfold key_before in Hall. rewrite <- Hname in Hall. apply Hall. by apply list_elem_of_In. }
  unfold select_where in *. rewrite List.filter_app, Hafter.
  assert (List.filter (fun r => cell_lt (cell_of (cl_name c) x) (cell_of (cl_name c) r)) past = []) as ->; [|done].
  apply select_none. intros r Hr. apply cell_lt_asym. specialize (Hbefore r x). unfold key_before in Hbefore. rewrite Hname. apply Hbefore; [by apply list_elem_of_In|by left].
Qed.

Lemma pages_of fuel c past rest lastId : key_column c -> in_order c (past ++ rest) -> (length rest < fuel)%nat ->
  match lastId with None => past = [] | Some v => exists before x, past = before ++ [x] /\ v = cell_of (ti_key t) (selected (ti_source t) x) end ->
  concat (read_loop fuel t (past ++ rest) lastId) = map (selected (ti_source t)) rest.
Proof.
  intros Hc. revert past rest lastId. induction fuel as [|fuel IH]; intros past rest lastId Ho Hf Hlast; [lia|]. cbn [read_loop].
  assert (page t (past ++ rest) lastId = firstn (batch_size (ti_source t)) rest) as ->.
  { unfold page. f_equal. destruct lastId as [v|]; [|by rewrite Hlast]. destruct Hlast as (before & x & -> & ->). rewrite <- app_assoc in *. by apply (rows_after c). }
  pose proof (batch_size_pos (ti_source t)) as Hb. pose proof (firstn_skipn (batch_size (ti_source t)) rest) as Hsplit.
  destruct (rev (firstn (batch_size (ti_source t)) rest)) as [|r l] eqn:E.
  - apply (f_equal (@rev _)) in E. rewrite rev_involutive in E. cbn in E. destruct rest; [done|]. by destruct (batch_size (ti_source t)); [lia|].
  - apply (f_equal (@rev _)) in E. rewrite rev_involutive in E. cbn [rev] in E. cbn [concat].
    assert (past ++ rest = (past ++ firstn (batch_size (ti_source t)) rest) ++ skipn (batch_size (ti_source t)) rest) as Hall by (by rewrite <- app_assoc, Hsplit).
    rewrite Hall, IH.
    + by rewrite <- map_app, Hsplit.
    + by rewrite <- Hall.
    + rewrite length_skipn. destruct rest; [by rewrite firstn_nil in E; destruct (rev l)|]. cbn [length] in *. lia.
    + exists (past ++ rev l), r. by rewrite E, app_assoc.
Qed.

(** Together the pages are the table, each row once and in order. *)
Lemma readBatches_rows c rows : key_column c -> in_order c rows -> concat (readBatches t rows) = map (selected (ti_source t)) rows.
Proof. intros Hc Ho. unfold readBatches. apply (pages_of _ c [] rows None); [done|done|lia|done]. Qed.
End Pages.

(** ** The order of the tables *)

Section Order.
Implicit Types (t : table) (tables ordered l : list table).

(** Every dependency of a table stands before it. *)
Definition deps_first l : Prop := forall l1 t l2, l = l1 ++ t :: l2 -> forall dep, In dep (ti_deps t) -> In dep (map ti_name l1).

Record partial_order tables ordered : Prop := {
  po_names : List.NoDup (map ti_name ordered);
  po_tables : incl ordered tables;
  po_deps : deps_first ordered
}.

Lemma existsb_name x (l : list string) : existsb (String.eqb x) l = true <-> In x l.
Proof. rewrite existsb_exists. split; [by intros (y & Hy & ->%String.eqb_eq)|]. intros Hx. exists x. by rewrite String.eqb_refl. Qed.

Lemma is_ready_spec visited t : is_ready visited t = true <-> ~ In (ti_name t) visited /\ forall dep, In dep (ti_deps t) -> In dep visited.
Proof.
  unfold is_ready. rewrite andb_true_iff, negb_true_iff, <- not_true_iff_false, existsb_name, forallb_forall.
  split; intros [Hn Hd]; (split; [done|]); intros dep Hdep; [apply existsb_name|apply existsb_name]; auto.
Qed.

Lemma deps_first_app l t : deps_first l -> (forall dep, In dep (ti_deps t) -> In dep (map ti_name l)) -> deps_first (l ++ [t]).
Proof.
  intros Hl Ht l1 x l2 Heq dep Hdep. destruct (decide (l2 = [])) as [->|Hne].
  - apply app_inj_tail in Heq as [-> ->]. auto.
  - destruct (exists_last Hne) as (l3 & y & ->). rewrite app_comm_cons, app_assoc in Heq. apply app_inj_tail in Heq as [-> ->]. by apply (Hl l1 x l3).
Qed.

Lemma partial_next tables ordered t : partial_order tables ordered -> first_where (is_ready (map ti_name ordered)) tables = Some t -> partial_order tables (ordered ++ [t]).
Proof.
  intros [Hn Hi Hd] [Hin [Hni Hdeps]%is_ready_spec]%first_where_Some. constructor.
  - by apply key_fresh_app.
  - intros x [Hx|[<-|[]]]%in_app_iff; auto.
  - by apply deps_first_app.
Qed.

Lemma order_loop_ok fuel tables ordered l : partial_order tables ordered -> order_loop fuel tables ordered = Ok l ->
  partial_order tables l /\ length l = (length ordered + fuel)%nat.
Proof.
  revert ordered. induction fuel as [|fuel IH]; intros ordered Hp; cbn [order_loop]; [intros [= <-]; split; [done|lia]|].
  destruct (first_where _ tables) as [t|] eqn:E; [|done]. intros Ho. apply IH in Ho as [Hl Hlen]; [|by apply partial_next].
  split; [done|]. rewrite Hlen, length_app. cbn. lia.
Qed.

Lemma ordered_all tables l : List.NoDup (map ti_name tables) -> order_tables tables = Ok l -> Permutation l tables /\ deps_first l.
Proof.
  intros Hnd Ho. apply order_loop_ok in Ho as [[Hn Hi Hd] Hlen].
  - split; [|done]. apply NoDup_Permutation_bis; [by eapply NoDup_map_inv|cbn in Hlen; lia|done].
  - constructor; [constructor|by intros ? []|]. by intros [] ? ? ?.
Qed.

(** A measure that goes down along dependencies. *)
Definition measured tables (rank : string -> nat) : Prop :=
  forall t dep, In t tables -> In dep (ti_deps t) -> In dep (map ti_name tables) /\ (rank dep < rank (ti_name t))%nat.

Lemma ready_below tables rank visited n t : measured tables rank -> In t tables -> ~ In (ti_name t) visited -> (rank (ti_name t) < n)%nat ->
  exists x, In x tables /\ is_ready visited x = true.
Proof.
  intros Hm. revert t. induction n as [|n IH]; intros t Hin Hni Hr; [lia|].
  destruct (forallb (fun dep => existsb (String.eqb dep) visited) (ti_deps t)) eqn:E.
  - exists t. split; [done|]. unfold is_ready. rewrite E, andb_true_r, negb_true_iff, <- not_true_iff_false. by rewrite existsb_name.
  - apply not_true_iff_false in E. rewrite forallb_forall in E.
    assert (exists dep, In dep (ti_deps t) /\ ~ In dep visited) as (dep & Hdep & Hv).
    { destruct (List.Exists_dec (fun dep => ~ In dep visited) (ti_deps t)) as [He|He].
      - intros dep. destruct (in_dec String.string_dec dep visited); [right; tauto|by left].
      - by apply List.Exists_exists in He.
      - destruct E. intros dep Hdep. apply existsb_name. destruct (in_dec String.string_dec dep visited); [done|].
        destruct He. apply List.Exists_exists. eauto. }
    destruct (Hm t dep Hin Hdep) as [(x & <- & Hx)%in_map_iff Hlt]. apply (IH x); [done|done|lia].
Qed.

Lemma order_loop_runs fuel tables ordered rank : measured tables rank -> List.NoDup (map ti_name tables) -> partial_order tables ordered ->
  (length ordered + fuel <= length tables)%nat -> exists l, order_loop fuel tables ordered = Ok l.
Proof.
  intros Hm Hnd. revert ordered. induction fuel as [|fuel IH]; intros ordered Hp Hlen; cbn [order_loop]; [eauto|].
  assert (exists t, In t tables /\ ~ In (ti_name t) (map ti_name ordered)) as (t & Hin & Hni).
  { destruct (List.Exists_dec (fun t => ~ In (ti_name t) (map ti_name ordered)) tables) as [He|He].
    - intros t. destruct (in_dec String.string_dec (ti_name t) (map ti_name ordered)); [right; tauto|by left].
    - by apply List.Exists_exists in He.
    - exfalso. assert (incl (map ti_name tables) (map ti_name ordered)) as Hincl.
      { intros n (t & <- & Ht)%in_map_iff. destruct (in_dec String.string_dec (ti_name t) (map ti_name ordered)); [done|].
        destruct He. apply List.Exists_exists. eauto. }
      pose proof (NoDup_incl_length Hnd Hincl) as Hl. rewrite !length_map in Hl. lia. }
  destruct (ready_below tables rank (map ti_name ordered) (S (rank (ti_name t))) t Hm Hin Hni (Nat.lt_succ_diag_r _)) as (x & Hx & Hready).
  destruct (first_where _ tables) as [y|] eqn:E.
  - apply IH; [by apply partial_next|]. rewrite length_app. cbn. lia.
  - by rewrite (first_where_None _ _ _ E Hx) in Hready.
Qed.

(** The place of a name in a list. *)
Fixpoint place (x : string) (l : list string) : nat := match l with [] => 0 | y :: l' => if String.eqb x y then 0 else S (place x l') end.

Lemma place_in x (l : list string) : In x l -> (place x l < length l)%nat.
Proof. induction l as [|y l IH]; [done|]. cbn. destruct (String.eqb_spec x y); [lia|]. intros [->|Hin]; [done|]. specialize (IH Hin). lia. Qed.
Lemma place_app x (l l' : list string) : In x l -> place x (l ++ l') = place x l.
Proof. induction l as [|y l IH]; [done|]. cbn. destruct (String.eqb_spec x y); [done|]. intros [->|Hin]; [done|]. by rewrite IH. Qed.
Lemma place_new x (l l' : list string) : ~ In x l -> place x (l ++ x :: l') = length l.
Proof.
  induction l as [|y l IH]; cbn; [by rewrite String.eqb_refl|]. intros Hni. destruct (String.eqb_spec x y) as [->|]; [destruct Hni; by left|].
  rewrite IH; [done|]. intros Hx. apply Hni. by right.
Qed.

Lemma ordered_measure tables l : List.NoDup (map ti_name tables) -> order_tables tables = Ok l -> measured tables (fun x => place x (map ti_name l)).
Proof.
  intros Hnd Ho. destruct (ordered_all _ _ Hnd Ho) as [Hperm Hd]. intros t dep Hin Hdep.
  apply (Permutation_in _ (Permutation_sym Hperm)) in Hin. apply in_split in Hin as (l1 & l2 & ->).
  specialize (Hd l1 t l2 eq_refl dep Hdep). split.
  - apply (Permutation_in _ (Permutation_map ti_name Hperm)). rewrite map_app, in_app_iff. by left.
  - rewrite map_app. cbn [map]. rewrite place_app, place_new; [by apply place_in| |done].
    apply (Permutation_NoDup (Permutation_map ti_name (Permutation_sym Hperm))) in Hnd. rewrite map_app in Hnd. cbn in Hnd. apply NoDup_remove_2 in Hnd.
    intros Hx. apply Hnd, in_app_iff. by left.
Qed.

(** C40: The tables are put in order exactly when their foreign keys to other
    tables allow it, that is when some measure goes down along all of them and
    none leads to a table that is not there.  The order then has every table
    once, each after the tables it refers to. *)
Theorem table_order_exists_iff_acyclic tables : List.NoDup (map ti_name tables) ->
  ((exists l, order_tables tables = Ok l) <-> exists rank, measured tables rank) /\
  forall l, order_tables tables = Ok l -> Permutation l tables /\ deps_first l.
Proof.
  intros Hnd. split; [|intros l; by apply ordered_all]. split.
  - intros (l & Ho). eexists. by apply ordered_measure.
  - intros (rank & Hm). eapply order_loop_runs; [done|done| |cbn; lia]. constructor; [constructor|by intros ? []|]. by intros [] ? ? ?.
Qed.
End Order.

(** ** Cells of converted rows *)

Section Cells.
Implicit Types (t : table) (r : srow) (x : drow).

Definition plain_type (columns : list dcolumn) (name : string) : Prop :=
  boolean_type (dtype_of columns name) = false /\ date_type (dtype_of columns name) = false.

Lemma convert_plain columns name v : plain_type columns name -> convert_cell name (dtype_of columns name) v = Ok (raw v).
Proof. intros [Hb Hd]. unfold convert_cell. rewrite Hb, Hd. by destruct v. Qed.

Lemma convertRow_names columns r x : convertRow columns r = Ok x -> map fst x = map fst r.
Proof.
  unfold convertRow. intros Hr%rmapM_ok. induction Hr as [|c d r x Hc Hr IH]; [done|]. cbn. rewrite IH. f_equal.
  by destruct (convert_cell _ _ _); [injection Hc as <-|].
Qed.

(** A plain column keeps its value. *)
Lemma converted_cell columns name r x : plain_type columns name -> convertRow columns r = Ok x -> dcell_of name x = raw (cell_of name r).
Proof.
  intros Hp. unfold convertRow. intros Hr%rmapM_ok. unfold dcell_of, cell_of. induction Hr as [|[n v] d r x Hc Hr IH]; [done|].
  cbn [fst snd] in Hc. destruct (convert_cell n (dtype_of columns n) v) as [w|] eqn:E; [|done]. injection Hc as <-. cbn.
  destruct (String.eqb_spec n name) as [->|]; [|done]. rewrite convert_plain in E by done. by injection E as <-.
Qed.

Lemma map_cells f name x : (forall c, fst (f c) = fst c) -> dcell_of name (map f x) = match first_where (fun c => String.eqb (fst c) name) x with Some c => snd (f c) | None => DNull end.
Proof.
  intros Hf. unfold dcell_of. induction x as [|c x IH]; [done|]. cbn. rewrite Hf. by destruct (String.eqb (fst c) name).
Qed.

Lemma without_self_cell t name x : dcell_of name (without_self t x) = if is_self t name then DNull else dcell_of name x.
Proof.
  unfold without_self. rewrite map_cells by (intros c; by destruct (is_self t (fst c))). unfold dcell_of.
  destruct (first_where _ x) as [c|] eqn:E; [|by destruct (is_self t name)]. apply first_where_Some in E as [_ <-%String.eqb_eq].
  by destruct (is_self t (fst c)).
Qed.

Lemma with_self_cell t r name x : is_self t name = false -> dcell_of name (with_self t r x) = dcell_of name x.
Proof.
  intros Hs. unfold with_self. rewrite map_cells by (intros c; by destruct (is_self t (fst c))). unfold dcell_of.
  destruct (first_where _ x) as [c|] eqn:E; [|done]. apply first_where_Some in E as [_ Heq%String.eqb_eq]. by rewrite Heq, Hs.
Qed.

Lemma first_named {A B} name (r : list (string * A)) (x : list (string * B)) : map fst x = map fst r -> first_where (fun c => String.eqb (fst c) name) x = None -> first_where (fun c => String.eqb (fst c) name) r = None.
Proof.
  revert x. induction r as [|c r IH]; intros [|d x] Hn; cbn in *; try done. injection Hn as -> Hn. destruct (String.eqb (fst c) name); [done|]. by apply IH.
Qed.

Lemma with_self_own t columns r name x : is_self t name = true -> convertRow columns r = Ok x -> dcell_of name (with_self t r x) = raw (cell_of name r).
Proof.
  intros Hs Hc. unfold with_self. rewrite map_cells by (intros c; by destruct (is_self t (fst c))).
  destruct (first_where _ x) as [c|] eqn:E; [apply first_where_Some in E as [_ Heq%String.eqb_eq]; by rewrite Heq, Hs|].
  apply convertRow_names in Hc. unfold cell_of. by rewrite (first_named name r x).
Qed.

Lemma with_without t r x : with_self t r (without_self t x) = with_self t r x.
Proof. unfold with_self, without_self. rewrite map_map. apply map_ext. intros c. by destruct (is_self t (fst c)) eqn:E; cbn; rewrite E. Qed.

Lemma with_self_idem t r x : with_self t r (with_self t r x) = with_self t r x.
Proof. unfold with_self. rewrite map_map. apply map_ext. intros c. by destruct (is_self t (fst c)) eqn:E; cbn; rewrite E. Qed.

(** When all references to the own table are null, there is nothing to fill in. *)
Lemma no_references t r x : forallb (fun name => bool_decide (cell_of name r = SNull)) (ti_self t) = true -> with_self t r x = without_self t x.
Proof.
  intros Hall. rewrite forallb_forall in Hall. unfold with_self, without_self. apply map_ext. intros c. destruct (is_self t (fst c)) eqn:E; [|done].
  apply existsb_name, Hall, bool_decide_eq_true_1 in E. by rewrite E.
Qed.

Lemma no_self t r x : ti_self t = [] -> with_self t r x = x.
Proof. intros Hs. unfold with_self, is_self. rewrite Hs. cbn. apply map_id. Qed.
End Cells.

(** ** Writing one table *)

Section Writing.
Context (t : table).
Implicit Types (d : db) (rows : list drow).

Lemma rows_in_insert d name rows name' : rows_in (<[name := rows]> d) name' = if String.eqb name name' then rows else rows_in d name'.
Proof. unfold rows_in. destruct (String.eqb_spec name name') as [->|]; [by rewrite lookup_insert_eq|by rewrite lookup_insert_ne]. Qed.

Lemma rows_in_own d name rows : rows_in (<[name := rows]> d) name = rows.
Proof. by rewrite rows_in_insert, String.eqb_refl. Qed.

(** All tables but this one are as they were. *)
Definition elsewhere d d' : Prop := forall name, name <> ti_name t -> rows_in d' name = rows_in d name.

Lemma elsewhere_refl d : elsewhere d d.
Proof. done. Qed.
Lemma elsewhere_trans d d1 d2 : elsewhere d d1 -> elsewhere d1 d2 -> elsewhere d d2.
Proof. intros H1 H2 name Hn. by rewrite H2, H1. Qed.
Lemma elsewhere_insert d rows : elsewhere d (<[ti_name t := rows]> d).
Proof. intros name Hn. rewrite rows_in_insert. by destruct (String.eqb_spec (ti_name t) name). Qed.

Abbreviation keys rows := (map (dcell_of (ti_key t)) rows).

Lemma has_key_in k rows : existsb (has_key t k) rows = true <-> In k (keys rows).
Proof.
  rewrite existsb_exists, in_map_iff. unfold has_key. split; intros (r & H1 & H2).
  - exists r. by apply bool_decide_eq_true_1 in H2.
  - exists r. split; [done|]. by apply bool_decide_eq_true_2.
Qed.

Lemma insert_rows_ok d rows d' : is_setting t = false -> List.NoDup (keys (rows_in d (ti_name t))) -> insert_rows t d rows = Ok d' ->
  rows_in d' (ti_name t) = rows_in d (ti_name t) ++ rows /\ List.NoDup (keys (rows_in d' (ti_name t))) /\ elsewhere d d'.
Proof.
  intros Hs. revert d. induction rows as [|r rows IH]; intros d Hnd; cbn [insert_rows]; [intros [= <-]; by rewrite app_nil_r|].
  unfold insert_row. destruct (forallb _ _); cbn; [|done]. rewrite Hs. destruct (existsb _ _) eqn:E; cbn; [done|]. intros Hr.
  apply IH in Hr as (Hrows & Hnd' & Hel); rewrite rows_in_own in *.
  - rewrite Hrows, <- app_assoc. split_and!; [done| |by eapply elsewhere_trans; [apply elsewhere_insert|]]. by rewrite <- app_assoc in Hrows; rewrite Hrows in Hnd'.
  - apply key_fresh_app; [done|]. by rewrite <- has_key_in, E.
Qed.

(** What the first pass writes for a row that was read. *)
Definition first_pass (r : srow) (x : drow) : Prop := exists c, convertRow (ti_columns t) r = Ok c /\ x = without_self t c.
(** The row of the destination in the end. *)
Definition moved (r : srow) (x : drow) : Prop := exists c, convertRow (ti_columns t) r = Ok c /\ x = with_self t r c.

Lemma import_page_rows sv n d batch d' : import_page sv t n d batch = Ok d' -> exists rows, Forall2 first_pass batch rows /\ insert_rows t d rows = Ok d'.
Proof.
  unfold import_page. destruct (rmapM _ batch) as [rows|] eqn:E; [|done]. cbn. destruct (zero_key _ _ _); [done|]. cbn.
  destruct (sv_refuses sv _ _); [done|]. intros Hi. exists rows. split; [|done]. apply rmapM_ok in E. eapply Forall2_impl; [exact E|].
  intros r x. cbn. destruct (convertRow _ r) as [c|] eqn:Ec; [|done]. intros [= <-]. by exists c.
Qed.

Lemma insert_rows_app d rows rows' : insert_rows t d (rows ++ rows') = rbind (insert_rows t d rows) (fun d1 => insert_rows t d1 rows').
Proof. revert d. induction rows as [|r rows IH]; intros d; [done|]. cbn. destruct (insert_row t d r); cbn; [apply IH|done]. Qed.

Lemma import_pages_rows sv n d batches d' : import_pages sv t n d batches = Ok d' ->
  exists rows, Forall2 first_pass (concat batches) rows /\ insert_rows t d rows = Ok d'.
Proof.
  revert n d. induction batches as [|b batches IH]; intros n d; cbn [import_pages concat]; [intros [= <-]; exists []; by split; [constructor|]|].
  destruct (import_page sv t n d b) as [d1|] eqn:E; cbn; [|done]. intros Hp.
  apply import_page_rows in E as (rows1 & Hf1 & Hi1). apply IH in Hp as (rows2 & Hf2 & Hi2).
  exists (rows1 ++ rows2). split; [by apply Forall2_app|]. by rewrite insert_rows_app, Hi1.
Qed.

(** A server that takes every page. *)
Definition accepting (sv : target_server) : Prop := (forall n, sv_refuses sv (ti_name t) n = None) /\ sv_zero sv = true /\ sv_setval sv (ti_name t) = None.

Lemma import_page_runs sv n d batch : accepting sv -> (forall r, In r batch -> exists c, convertRow (ti_columns t) r = Ok c) ->
  exists rows, Forall2 first_pass batch rows /\ import_page sv t n d batch = insert_rows t d rows.
Proof.
  intros (Hr & Hz & _) Hc. assert (exists rows, rmapM (fun r => let? c := convertRow (ti_columns t) r in Ok (without_self t c)) batch = Ok rows) as (rows & E).
  { clear -Hc. induction batch as [|r batch IH]; [by eexists|]. cbn. destruct (Hc r) as (c & ->); [by left|]. cbn.
    destruct IH as (rows & ->); [intros y Hy; apply Hc; by right|]. by eexists. }
  exists rows. split.
  - apply rmapM_ok in E. eapply Forall2_impl; [exact E|]. intros r x. cbn. destruct (convertRow _ r) as [c|] eqn:Ec; [|done]. intros [= <-]. by exists c.
  - unfold import_page. rewrite E. cbn. unfold zero_key. rewrite Hr, Hz. by destruct (sv_client sv); rewrite ?andb_false_r.
Qed.

Lemma import_pages_runs sv n d batches : accepting sv -> (forall r, In r (concat batches) -> exists c, convertRow (ti_columns t) r = Ok c) ->
  exists rows, Forall2 first_pass (concat batches) rows /\ forall d', insert_rows t d rows = Ok d' -> import_pages sv t n d batches = Ok d'.
Proof.
  intros Ha. revert n d. induction batches as [|b batches IH]; intros n d Hc; cbn [import_pages concat] in *; [exists []; by split; [constructor|]|].
  destruct (import_page_runs sv n d b Ha) as (rows & Hf & Hp); [intros r Hr; apply Hc, in_app_iff; by left|].
  destruct (insert_rows t d rows) as [d1|e] eqn:E.
  - destruct (IH (S n) d1) as (rows' & Hf' & Hi); [intros r Hr; apply Hc, in_app_iff; by right|]. exists (rows ++ rows').
    split; [by apply Forall2_app|]. intros d'. rewrite insert_rows_app, E, Hp. cbn. apply Hi.
  - destruct (IH (S n) d) as (rows' & Hf' & _); [intros r Hr; apply Hc, in_app_iff; by right|]. exists (rows ++ rows').
    split; [by apply Forall2_app|]. intros d'. by rewrite insert_rows_app, E.
Qed.

(** Rows of the settings: those of the source win, the others stay. *)
Lemma merge_rows_ok d rows d' : is_setting t = true -> List.NoDup (keys rows) -> insert_rows t d rows = Ok d' ->
  (forall x, In x (rows_in d' (ti_name t)) <-> In x rows \/ (In x (rows_in d (ti_name t)) /\ ~ In (dcell_of (ti_key t) x) (keys rows))) /\ elsewhere d d'.
Proof.
  intros Hs. revert d. induction rows as [|r rows IH]; intros d Hnd; cbn [insert_rows]; [intros [= <-]; split; [|done]; intros x; cbn; tauto|].
  cbn [map] in Hnd. inversion Hnd as [|? ? Hni Hnd']; subst. unfold insert_row. destruct (forallb _ _); cbn; [|done]. rewrite Hs.
  assert (forall d1, (forall x, In x (rows_in d1 (ti_name t)) <-> x = r \/ (In x (rows_in d (ti_name t)) /\ dcell_of (ti_key t) x <> dcell_of (ti_key t) r)) -> elsewhere d d1 ->
    insert_rows t d1 rows = Ok d' -> (forall x, In x (rows_in d' (ti_name t)) <-> (r = x \/ In x rows) \/ (In x (rows_in d (ti_name t)) /\ ~ (dcell_of (ti_key t) r = dcell_of (ti_key t) x \/ In (dcell_of (ti_key t) x) (keys rows)))) /\ elsewhere d d') as Hstep.
  { intros d1 H1 He Hi. apply IH in Hi as [Hrows He']; [|done]. split; [|by eapply elsewhere_trans]. intros x. rewrite Hrows, H1.
    assert (x = r -> ~ In (dcell_of (ti_key t) x) (keys rows)) by (by intros ->). intuition congruence. }
  destruct (existsb _ _) eqn:E; cbn; apply Hstep; try apply elsewhere_insert; intros x; rewrite rows_in_own.
  - unfold has_key in *. rewrite in_patch. apply existsb_exists in E as (y & Hy & Heq). split.
    + intros [(z & _ & _ & ->)|[Hx Hn]]; [by left|right]. split; [done|]. intros Hxr. apply bool_decide_eq_false_1 in Hn. by apply Hn.
    + intros [->|[Hx Hn]]; [left; eauto|right]. split; [done|]. by apply bool_decide_eq_false_2.
  - rewrite in_app_iff. cbn. assert (In x (rows_in d (ti_name t)) -> dcell_of (ti_key t) x <> dcell_of (ti_key t) r) as Hfresh.
    { intros Hx Heq. apply not_true_iff_false in E. apply E, has_key_in. rewrite <- Heq. by apply in_map. }
    split; [intros [Hx|[<-|[]]]; auto|]. intros [->|[Hx _]]; auto.
Qed.

(** *** The second pass *)

Context (Hkey : is_self t (ti_key t) = false) (Hplain : plain_type (ti_columns t) (ti_key t)).

Lemma first_pass_key r x : first_pass r x -> dcell_of (ti_key t) x = raw (cell_of (ti_key t) r).
Proof. intros (c & Hc & ->). rewrite without_self_cell, Hkey. by eapply converted_cell. Qed.
Lemma moved_key r x : moved r x -> dcell_of (ti_key t) x = raw (cell_of (ti_key t) r).
Proof. intros (c & Hc & ->). rewrite with_self_cell by done. by eapply converted_cell. Qed.

Lemma patched_at l1 x l2 k f : List.NoDup (keys (l1 ++ x :: l2)) -> dcell_of (ti_key t) x = k -> patch_where (has_key t k) f (l1 ++ x :: l2) = l1 ++ f x :: l2.
Proof.
  intros Hnd Hx. unfold patch_where. rewrite map_app. cbn [map]. rewrite map_app in Hnd. cbn in Hnd. apply NoDup_remove_2 in Hnd.
  assert (forall y, In y l1 \/ In y l2 -> (if has_key t k y then f y else y) = y) as Hother.
  { intros y Hy. unfold has_key. rewrite bool_decide_eq_false_2; [done|]. intros Heq. apply Hnd. rewrite Hx, <- Heq. apply in_app_iff.
    destruct Hy; [left|right]; by apply in_map. }
  unfold has_key at 2. rewrite bool_decide_eq_true_2 by done. f_equal; [|f_equal].
  - rewrite <- (map_id l1) at 2. apply map_ext_in. auto.
  - rewrite <- (map_id l2) at 2. apply map_ext_in. auto.
Qed.

(** One update: the row that was inserted for [r] is replaced. *)
Lemma update_self_ok r x l1 l2 d d1 : first_pass r x -> rows_in d (ti_name t) = l1 ++ x :: l2 -> List.NoDup (keys (l1 ++ x :: l2)) -> update_self t d r = Ok d1 ->
  exists y, moved r y /\ rows_in d1 (ti_name t) = l1 ++ y :: l2 /\ elsewhere d d1 /\ List.NoDup (keys (l1 ++ y :: l2)).
Proof.
  intros Hx Hrows Hnd Hu. pose proof Hx as (c & Hc & Hxc). exists (with_self t r c).
  assert (moved r (with_self t r c)) as Hm by by exists c. split; [done|].
  assert (keys (l1 ++ with_self t r c :: l2) = keys (l1 ++ x :: l2)) as Hk.
  { rewrite !map_app. cbn. by rewrite (moved_key r _ Hm), (first_pass_key r x Hx). }
  rewrite Hk. unfold update_self in Hu. destruct (forallb (fun name => bool_decide (cell_of name r = SNull)) (ti_self t)) eqn:En.
  - injection Hu as <-. by rewrite no_references, <- Hxc.
  - destruct (forallb _ _) in Hu; [|done]. cbn in Hu. injection Hu as <-. rewrite rows_in_own, Hrows. split_and!; [|apply elsewhere_insert|done].
    rewrite patched_at; [|done|by apply first_pass_key]. by rewrite Hxc, with_without.
Qed.

Lemma update_all_ok reads rest d d' : forall done_, Forall2 first_pass reads rest -> rows_in d (ti_name t) = done_ ++ rest -> List.NoDup (keys (done_ ++ rest)) ->
  update_all t d reads = Ok d' -> exists rows, Forall2 moved reads rows /\ rows_in d' (ti_name t) = done_ ++ rows /\ elsewhere d d'.
Proof.
  intros done_ Hf. revert done_ d. induction Hf as [|r x reads rest Hx Hf IH]; intros done_ d Hrows Hnd; cbn [update_all].
  { intros [= <-]. exists []. by split_and!; [constructor|..]. }
  destruct (update_self t d r) as [d1|] eqn:E; cbn; [|done]. intros Hu.
  apply (update_self_ok r x done_ rest) in E as (y & Hy & Hd1 & He1 & Hnd1); [|done..].
  destruct (IH (done_ ++ [y]) d1) as (rows & Hm & Hrows' & He); rewrite <- ?app_assoc; [done..|].
  exists (y :: rows). split_and!; [by constructor|by rewrite <- app_assoc in Hrows'|by eapply elsewhere_trans].
Qed.

(** *** Writing succeeds *)

(** Rows that were read can be converted and refer to rows that are there: those
    of other tables are in the destination, those of their own table are read
    too. *)
Record consistent d (reads : list srow) : Prop := {
  cs_convert : forall r, In r reads -> exists c, convertRow (ti_columns t) r = Ok c;
  cs_plain : forall k, In k (ti_fkeys t) -> plain_type (ti_columns t) (fk_from k);
  cs_parent : forall k r, In k (ti_fkeys t) -> fk_table k <> ti_name t -> In r reads -> cell_of (fk_from k) r <> SNull ->
    exists p, In p (rows_in d (fk_table k)) /\ dcell_of (fk_to k) p = raw (cell_of (fk_from k) r);
  cs_own : forall k, In k (ti_fkeys t) -> fk_table k = ti_name t -> is_self t (fk_from k) = true /\ is_self t (fk_to k) = false /\ plain_type (ti_columns t) (fk_to k) /\
    forall r, In r reads -> cell_of (fk_from k) r <> SNull -> exists p, In p reads /\ cell_of (fk_to k) p = cell_of (fk_from k) r
}.

Lemma consistent_elsewhere d d' reads : elsewhere d d' -> consistent d reads -> consistent d' reads.
Proof. intros He [H1 H2 H3 H4]. split; [done..| |done]. intros k r Hk Hn. rewrite He by done. by apply H3. Qed.

Lemma reference_found d x k : (dcell_of (fk_from k) x = DNull \/ exists p, In p (rows_in d (fk_table k)) /\ dcell_of (fk_to k) p = dcell_of (fk_from k) x) -> reference_ok d x k = true.
Proof.
  unfold reference_ok. intros [->|(p & Hp & Heq)]; [done|]. destruct (dcell_of (fk_from k) x) eqn:E; [done|..]; rewrite <- E; apply existsb_exists; exists p; by rewrite bool_decide_eq_true_2 by by rewrite E.
Qed.

(** A row on its way: as the first pass wrote it, or as it will be. *)
Definition carried (r : srow) (x : drow) : Prop := first_pass r x \/ moved r x.
Lemma carried_plain r x name : carried r x -> plain_type (ti_columns t) name -> is_self t name = false -> dcell_of name x = raw (cell_of name r).
Proof.
  intros [(c & Hc & ->)|(c & Hc & ->)] Hp Hs; [rewrite without_self_cell, Hs|rewrite with_self_cell by done]; by eapply converted_cell.
Qed.
Lemma carried_cell r x name : carried r x -> plain_type (ti_columns t) name -> dcell_of name x = DNull \/ dcell_of name x = raw (cell_of name r).
Proof.
  intros Hx Hp. destruct (is_self t name) eqn:E; [|right; by apply carried_plain]. destruct Hx as [(c & Hc & ->)|(c & Hc & ->)].
  - left. by rewrite without_self_cell, E.
  - right. by eapply with_self_own.
Qed.

Lemma parent_reference d reads r x k : consistent d reads -> In r reads -> carried r x -> In k (ti_fkeys t) -> fk_table k <> ti_name t -> reference_ok d x k = true.
Proof.
  intros Hcs Hr Hx Hk Hn. apply reference_found. destruct (carried_cell r x (fk_from k) Hx) as [E|E]; [by apply (cs_plain d reads)|by left|].
  destruct (decide (cell_of (fk_from k) r = SNull)) as [Hnull|Hnull]; [left; by rewrite E, Hnull|right]. rewrite E. by apply (cs_parent d reads).
Qed.

Lemma first_pass_reference d reads r x : consistent d reads -> In r reads -> first_pass r x -> forallb (reference_ok d x) (ti_fkeys t) = true.
Proof.
  intros Hcs Hr Hx. apply forallb_forall. intros k Hk. destruct (decide (fk_table k = ti_name t)) as [Heq|Hn]; [|by eapply parent_reference; [| |left| |]].
  apply reference_found. left. destruct (cs_own d reads Hcs k Hk Heq) as [Hs _]. destruct Hx as (c & _ & ->). by rewrite without_self_cell, Hs.
Qed.

Lemma carried_reference d reads x : consistent d reads -> Forall2 carried reads (rows_in d (ti_name t)) -> In x (rows_in d (ti_name t)) -> forallb (reference_ok d x) (ti_fkeys t) = true.
Proof.
  intros Hcs Hall Hx. apply forallb_forall. intros k Hk. destruct (Forall2_in_r _ _ _ x Hall Hx) as (r & Hr & Hrx).
  destruct (decide (fk_table k = ti_name t)) as [Heq|Hn]; [|by eapply parent_reference]. apply reference_found.
  destruct (cs_own d reads Hcs k Hk Heq) as (Hs & Hto & Hpl & Href). destruct (carried_cell r x (fk_from k) Hrx) as [E|E]; [by apply (cs_plain d reads)|by left|].
  destruct (decide (cell_of (fk_from k) r = SNull)) as [Hnull|Hnull]; [left; by rewrite E, Hnull|right].
  destruct (Href r Hr Hnull) as (p & Hp & Hpr). destruct (Forall2_in_l _ _ _ p Hall Hp) as (y & Hy & Hpy). exists y. rewrite Heq. split; [done|].
  by rewrite (carried_plain p y), Hpr.
Qed.

Lemma insert_rows_runs all reads rows d : consistent d all -> (forall r, In r reads -> In r all) -> Forall2 first_pass reads rows ->
  (is_setting t = false -> List.NoDup (keys (rows_in d (ti_name t) ++ rows))) -> exists d', insert_rows t d rows = Ok d'.
Proof.
  intros Hcs Hin Hf. revert d Hcs. induction Hf as [|r x reads rows Hx Hf IH]; intros d Hcs Hnd; cbn [insert_rows]; [by eexists|]. unfold insert_row.
  rewrite (first_pass_reference d all r x) by (try done; apply Hin; by left). cbn. destruct (existsb _ _) eqn:E.
  - destruct (is_setting t) eqn:Es; cbn.
    + apply IH; [intros y Hy; apply Hin; by right| |done]. eapply consistent_elsewhere; [apply elsewhere_insert|done].
    + specialize (Hnd eq_refl). rewrite map_app in Hnd. cbn in Hnd. apply NoDup_remove_2 in Hnd. destruct Hnd. apply in_app_iff. left. by apply has_key_in.
  - cbn. apply IH; [intros y Hy; apply Hin; by right| |].
    + eapply consistent_elsewhere; [apply elsewhere_insert|done].
    + intros Hs. rewrite rows_in_own, <- app_assoc. by apply Hnd.
Qed.

Lemma update_self_runs d pre r post l1 x l2 : consistent d (pre ++ r :: post) -> Forall2 carried pre l1 -> Forall2 carried post l2 -> first_pass r x ->
  rows_in d (ti_name t) = l1 ++ x :: l2 -> List.NoDup (keys (l1 ++ x :: l2)) -> exists d1, update_self t d r = Ok d1.
Proof.
  intros Hcs H1 H2 Hx Hrows Hnd. unfold update_self. destruct (forallb _ (ti_self t)); [by eexists|]. rewrite Hrows.
  rewrite patched_at by (try done; by apply first_pass_key). set (d' := <[ti_name t := _]> d).
  assert (rows_in d' (ti_name t) = l1 ++ with_self t r x :: l2) as Hd' by apply rows_in_own.
  rewrite (proj2 (forallb_forall _ _)); [by eexists|]. intros y Hy. unfold select_where in Hy. apply filter_In in Hy as [Hy _].
  apply (carried_reference d' (pre ++ r :: post)); [|rewrite Hd'|done].
  - eapply consistent_elsewhere; [apply elsewhere_insert|done].
  - apply Forall2_app; [done|]. constructor; [|done]. right. destruct Hx as (c & Hc & ->). exists c. by rewrite with_without.
Qed.

Lemma update_all_runs reads pre rest done_ d : consistent d (pre ++ reads) -> Forall2 carried pre done_ -> Forall2 first_pass reads rest ->
  rows_in d (ti_name t) = done_ ++ rest -> List.NoDup (keys (done_ ++ rest)) -> exists d', update_all t d reads = Ok d'.
Proof.
  intros Hcs Hd Hf. revert pre done_ d Hcs Hd. induction Hf as [|r x reads rest Hx Hf IH]; intros pre done_ d Hcs Hd Hrows Hnd; cbn [update_all]; [by eexists|].
  destruct (update_self_runs d pre r reads done_ x rest) as (d1 & E); [done|done| |done..|].
  { eapply Forall2_impl; [exact Hf|]. by left. }
  rewrite E. cbn. apply (update_self_ok r x done_ rest) in E as (y & Hy & Hd1 & He1 & Hnd1); [|done..].
  apply (IH (pre ++ [r]) (done_ ++ [y])); rewrite <- ?app_assoc; [by eapply consistent_elsewhere| |done..].
  apply Forall2_app; [done|]. constructor; [by right|constructor].
Qed.

End Writing.

(** ** One table *)

Lemma raw_inj v w : raw v = raw w -> v = w.
Proof. destruct v, w; cbn; congruence. Qed.

Section OneTable.
Context (t : table).
Implicit Types (rows : list srow) (d : db).

(** What is asked of a table and its rows: one key column, bound as it is read,
    that refers to no row of its own table, and rows in its order. *)
Record table_ok rows : Prop := {
  to_key : exists c, key_column t c /\ in_order t c rows;
  to_self : is_self t (ti_key t) = false;
  to_plain : plain_type (ti_columns t) (ti_key t);
  to_setting : is_setting t = true -> ti_self t = []
}.

Lemma selected_keys_distinct c rows : key_column t c -> in_order t c rows -> List.NoDup (map (fun r => raw (cell_of (ti_key t) (selected (ti_source t) r))) rows).
Proof.
  intros (Hin & Hname & Hnd) [Hs Hk]. induction Hs as [|x l Hs IH Hall]; [constructor|]. inversion Hk as [|? ? Hx Hl]; subst. cbn. constructor; [|by apply IH].
  intros (y & Heq & Hy)%in_map_iff. apply list_elem_of_In in Hy. rewrite Forall_forall in Hall, Hl. specialize (Hall y Hy). specialize (Hl y Hy).
  apply raw_inj in Heq. rewrite <- Hname in *. rewrite !selected_cell in Heq by done.
  apply (f_equal (with_affinity (cl_type c))) in Heq. rewrite !key_read_back in Heq by done. unfold key_before in Hall. rewrite <- Hname, Heq in Hall. by rewrite cell_lt_irrefl in Hall.
Qed.

(** What a table holds when its rows have been moved. *)
Definition transferred rows d d' : Prop :=
  let reads := map (selected (ti_source t)) rows in
  if is_setting t then
    exists cs, Forall2 (moved t) reads cs /\
      forall x, In x (rows_in d' (ti_name t)) <-> In x cs \/ (In x (rows_in d (ti_name t)) /\ ~ In (dcell_of (ti_key t) x) (map (dcell_of (ti_key t)) cs))
  else Forall2 (moved t) reads (rows_in d' (ti_name t)).

Lemma first_pass_keys rows c cs : table_ok rows -> key_column t c -> in_order t c rows -> Forall2 (first_pass t) (map (selected (ti_source t)) rows) cs ->
  List.NoDup (map (dcell_of (ti_key t)) cs).
Proof.
  intros [_ Hself Hplain _] Hc Ho Hf. pose proof (selected_keys_distinct c rows Hc Ho) as Hnd. rewrite <- map_map with (f := selected (ti_source t)) (g := fun r => raw (cell_of (ti_key t) r)) in Hnd.
  replace (map (dcell_of (ti_key t)) cs) with (map (fun r => raw (cell_of (ti_key t) r)) (map (selected (ti_source t)) rows)); [done|].
  clear Hnd Ho. induction Hf as [|r x reads cs Hx Hf IH]; [done|]. cbn. by rewrite (first_pass_key t Hself Hplain r x Hx), IH.
Qed.

Lemma moved_first reads cs : ti_self t = [] -> Forall2 (first_pass t) reads cs -> Forall2 (moved t) reads cs.
Proof.
  intros Hs Hf. eapply Forall2_impl; [exact Hf|]. intros r x (c & Hc & ->). exists c. split; [done|].
  rewrite <- (with_without t r c). symmetry. by apply no_self.
Qed.

Lemma import_table_ok sv rows d d' : table_ok rows -> (is_setting t = false -> rows_in d (ti_name t) = []) -> import_table sv t rows d = Ok d' ->
  transferred rows d d' /\ elsewhere t d d'.
Proof.
  intros Hok Hempty. pose proof Hok as [(c & Hc & Ho) Hself Hplain Hset]. unfold import_table. rewrite (readBatches_rows t c rows Hc Ho).
  destruct (import_pages sv t 0 d (readBatches t rows)) as [d1|] eqn:E; cbn [rbind]; [|done].
  apply import_pages_rows in E as (cs & Hf & Hi). rewrite (readBatches_rows t c rows Hc Ho) in Hf.
  pose proof (first_pass_keys rows c cs Hok Hc Ho Hf) as Hnd.
  assert (forall d2, (match ti_self t with [] => Ok d1 | _ => update_all t d1 (map (selected (ti_source t)) rows) end) = Ok d2 ->
    transferred rows d d2 /\ elsewhere t d d2) as Hmain.
  { intros d2. unfold transferred. destruct (is_setting t) eqn:Es.
    - rewrite (Hset eq_refl). intros [= <-]. apply merge_rows_ok in Hi as [Hrows He]; [|done..]. split; [|done].
      exists cs. split; [by apply moved_first; [apply Hset|]|done].
    - apply insert_rows_ok in Hi as (Hrows & Hnd1 & He); [|done|by rewrite (Hempty eq_refl); constructor].
      rewrite (Hempty eq_refl) in Hrows. cbn in Hrows. destruct (ti_self t) as [|n l] eqn:El.
      + intros [= <-]. rewrite Hrows. split; [by apply moved_first|done].
      + intros Hu. apply (update_all_ok t Hself Hplain _ cs d1 d2 []) in Hu as (fs & Hm & Hfs & He2); [|done|by rewrite Hrows|done].
        rewrite Hfs. split; [done|by eapply elsewhere_trans]. }
  destruct (match ti_self t with [] => Ok d1 | _ => update_all t d1 _ end) as [d2|] eqn:E2; cbn [rbind]; [|done].
  destruct (_ && _); cbn [rbind throw_if]; [done|]. intros [= <-]. by apply Hmain.
Qed.
(** A consistent table is imported by a server that takes its pages. *)
Lemma import_table_runs sv rows d : table_ok rows -> (is_setting t = false -> rows_in d (ti_name t) = []) -> accepting t sv ->
  consistent t d (map (selected (ti_source t)) rows) -> exists d', import_table sv t rows d = Ok d'.
Proof.
  intros Hok Hempty Ha Hcs. pose proof Hok as [(c & Hc & Ho) Hself Hplain Hset]. unfold import_table. set (reads := map (selected (ti_source t)) rows) in *.
  pose proof (readBatches_rows t c rows Hc Ho) as Hreads. fold reads in Hreads.
  destruct (import_pages_runs t sv 0 d (readBatches t rows) Ha) as (cs & Hf & Hi); [rewrite Hreads; apply (cs_convert t d reads Hcs)|].
  rewrite Hreads in *. pose proof (first_pass_keys rows c cs Hok Hc Ho Hf) as Hnd.
  destruct (insert_rows_runs t reads reads cs d Hcs) as (d1 & E); [done|done|intros Hs; by rewrite (Hempty Hs)|].
  rewrite (Hi d1 E). cbn [rbind]. destruct (is_setting t) eqn:Es.
  { rewrite (Hset eq_refl). cbn [rbind throw_if andb]. by eexists. }
  apply insert_rows_ok in E as (Hrows & Hnd1 & He); [|done|by rewrite (Hempty eq_refl); constructor]. rewrite (Hempty eq_refl) in Hrows. cbn in Hrows.
  assert (exists d2, (match ti_self t with [] => Ok d1 | _ => update_all t d1 reads end) = Ok d2 /\ length (rows_in d2 (ti_name t)) = length reads) as (d2 & E2 & Hlen).
  { destruct (ti_self t) as [|n l] eqn:El; [exists d1; rewrite Hrows; split; [done|symmetry; by eapply Forall2_length]|].
    destruct (update_all_runs t Hself Hplain reads [] cs [] d1) as (d2 & E2); [by eapply consistent_elsewhere|constructor|done..|by rewrite Hrows in Hnd1|].
    exists d2. split; [done|]. apply (update_all_ok t Hself Hplain _ cs d1 d2 []) in E2 as (fs & Hm & Hfs & _); [|done|by rewrite Hrows|done].
    rewrite Hfs. symmetry. by eapply Forall2_length. }
  rewrite E2. cbn [rbind]. rewrite Hlen, Nat.eqb_refl. cbn. by eexists.
Qed.
End OneTable.

(** ** All tables *)

Section AllTables.
Context (sv : target_server) (src : source).
Implicit Types (d : db) (t : table) (tables : list table).

Lemma transferred_ext t rows d d' e e' : rows_in e (ti_name t) = rows_in d (ti_name t) -> rows_in e' (ti_name t) = rows_in d' (ti_name t) ->
  transferred t rows d d' -> transferred t rows e e'.
Proof. unfold transferred. by intros -> ->. Qed.

Lemma highest_key_above t rows x : In x rows -> key_number (dcell_of (ti_key t) x) <= highest_key t rows.
Proof. unfold highest_key. induction rows as [|y rows IH]; [done|]. cbn. intros [->|Hin]; [lia|]. specialize (IH Hin). lia. Qed.

(** The next value of a sequence is above all keys of its table. *)
Definition sequence_above t d (next : gmap string Z) : Prop :=
  sv_client sv = Postgres -> sv_sequence sv (ti_name t) = true ->
  exists n, next !! ti_name t = Some n /\ forall x, In x (rows_in d (ti_name t)) -> key_number (dcell_of (ti_key t) x) < n.

Lemma reset_spec t d next next' : resetSequence sv t d next = Ok next' ->
  sequence_above t d next' /\ (forall name, name <> ti_name t -> next' !! name = next !! name) /\
  (next' !! ti_name t = next !! ti_name t \/ next' !! ti_name t = Some (highest_key t (rows_in d (ti_name t)) + 1)).
Proof.
  unfold resetSequence, sequence_above. destruct (sv_client sv) eqn:Ec; [intros [= <-]; by split_and!; [|..|left]|].
  destruct (sv_sequence sv (ti_name t)) eqn:Es; [|intros [= <-]; by split_and!; [|..|left]].
  destruct (sv_setval sv (ti_name t)); [done|]. intros [= <-]. split_and!; [intros _ _|intros name Hn; by rewrite lookup_insert_ne|right; apply lookup_insert_eq].
  eexists. split; [apply lookup_insert_eq|]. intros x Hx. pose proof (highest_key_above t _ x Hx). lia.
Qed.

Definition all_moved tables d d' (next' : gmap string Z) : Prop :=
  (forall t, In t tables -> transferred t (rows_of_table src t) d d' /\ sequence_above t d' next') /\
  (forall name, ~ In name (map ti_name tables) -> rows_in d' name = rows_in d name).

Lemma import_tables_ok tables d next d' next' : List.NoDup (map ti_name tables) -> (forall t, In t tables -> table_ok t (rows_of_table src t)) ->
  (forall t, In t tables -> is_setting t = false -> rows_in d (ti_name t) = []) -> import_tables sv src tables d next = (Ok d', next') ->
  all_moved tables d d' next' /\ (forall name, ~ In name (map ti_name tables) -> next' !! name = next !! name).
Proof.
  revert d next. induction tables as [|t tables IH]; intros d next Hnd Hok He; cbn [import_tables]; [intros [= <- <-]; split; [split; [by intros ? []|done]|done]|].
  cbn in Hnd. inversion Hnd as [|? ? Hni Hnd']; subst. destruct (import_table sv t _ d) as [d1|] eqn:E; cbn [rbind]; [|done].
  destruct (resetSequence sv t d1 next) as [next1|] eqn:Er; cbn [rbind]; [|done]. intros Hi.
  apply import_table_ok in E as (Ht & Hel); [|apply Hok; by left|apply He; by left]. apply reset_spec in Er as (Habove & Hother & _).
  assert (forall x, In x tables -> ti_name x <> ti_name t) as Hne by (intros x Hx Heq; apply Hni; rewrite <- Heq; by apply in_map).
  apply IH in Hi as [[Hm Hout] Hnext]; [|done|intros x Hx; apply Hok; by right|].
  2: { intros x Hx Hs. rewrite Hel by by apply Hne. apply He; [by right|done]. }
  split; [split|].
  - intros x [<-|Hx].
    + split; [by eapply transferred_ext; [| |exact Ht]; [done|apply Hout]|]. intros Hc Hs.
      destruct (Habove Hc Hs) as (n & Hn & Hall). exists n. by rewrite Hnext, Hout.
    + destruct (Hm x Hx) as [Htr Hsq]. split; [|done]. eapply transferred_ext; [|done|exact Htr]. symmetry. by apply Hel, Hne.
  - intros name Hn. cbn in Hn. rewrite Hout by tauto. apply Hel. intros ->. tauto.
  - intros name Hn. cbn in Hn. rewrite Hnext by tauto. apply Hother. intros ->. tauto.
Qed.

(** *** Sequences after a failure *)

(** A sequence that was set is above all keys the table had, so that it still is
    when the rows have been rolled back. *)
Definition sequences_kept tables d (next next' : gmap string Z) : Prop := forall name,
  next' !! name = next !! name \/
  exists t n, In t tables /\ ti_name t = name /\ next' !! name = Some n /\ forall x, In x (rows_in d name) -> key_number (dcell_of (ti_key t) x) < n.

Lemma transferred_above t rows d d' x : (is_setting t = false -> rows_in d (ti_name t) = []) -> transferred t rows d d' ->
  In x (rows_in d (ti_name t)) -> key_number (dcell_of (ti_key t) x) < highest_key t (rows_in d' (ti_name t)) + 1.
Proof.
  intros He. unfold transferred. destruct (is_setting t) eqn:Es; [|by rewrite (He eq_refl)]. intros (cs & _ & Hin) Hx.
  destruct (List.in_dec dcell_eq_dec (dcell_of (ti_key t) x) (map (dcell_of (ti_key t)) cs)) as [Hk|Hk].
  - apply in_map_iff in Hk as (c & Hck & Hc). pose proof (highest_key_above t _ c (proj2 (Hin c) (or_introl Hc))). rewrite <- Hck. lia.
  - pose proof (highest_key_above t _ x (proj2 (Hin x) (or_intror (conj Hx Hk)))). lia.
Qed.

Lemma import_tables_sequences tables d next r next' : List.NoDup (map ti_name tables) -> (forall t, In t tables -> table_ok t (rows_of_table src t)) ->
  (forall t, In t tables -> is_setting t = false -> rows_in d (ti_name t) = []) -> import_tables sv src tables d next = (r, next') -> sequences_kept tables d next next'.
Proof.
  revert d next. induction tables as [|t tables IH]; intros d next Hnd Hok He; cbn [import_tables]; [intros [= _ <-] name; by left|].
  cbn in Hnd. inversion Hnd as [|? ? Hni Hnd']; subst. destruct (import_table sv t _ d) as [d1|] eqn:E; cbn [rbind]; [|intros [= _ <-] name; by left].
  destruct (resetSequence sv t d1 next) as [next1|] eqn:Er; cbn [rbind]; [|intros [= _ <-] name; by left]. intros Hi.
  apply import_table_ok in E as (Ht & Hel); [|apply Hok; by left|apply He; by left]. apply reset_spec in Er as (_ & Hother & Hown).
  assert (forall x, In x tables -> ti_name x <> ti_name t) as Hne by (intros x Hx Heq; apply Hni; rewrite <- Heq; by apply in_map).
  apply IH in Hi; [|done|intros x Hx; apply Hok; by right|].
  2: { intros x Hx Hs. rewrite Hel by by apply Hne. apply He; [by right|done]. }
  intros name. destruct (Hi name) as [Hsame|(u & n & Hu & Hun & Hn & Hall)].
  - destruct (decide (name = ti_name t)) as [->|Hnt]; [|left; by rewrite Hsame, Hother].
    destruct Hown as [Ho|Ho]; [left; by rewrite Hsame|right]. exists t, (highest_key t (rows_in d1 (ti_name t)) + 1).
    split_and!; [by left|done|by rewrite Hsame|]. intros x Hx. eapply transferred_above; [|exact Ht|exact Hx]. apply He. by left.
  - right. exists u, n. split_and!; [by right|done|done|]. intros x Hx. apply Hall. rewrite Hel; [done|]. rewrite <- Hun. by apply Hne.
Qed.

(** *** The names of the tables *)

Lemma insert_name_perm x l : Permutation (insert_name x l) (x :: l).
Proof. induction l as [|y l IH]; [done|]. cbn. destruct (String.ltb y x); [|done]. rewrite IH. apply perm_swap. Qed.
Lemma sort_names_perm l : Permutation (sort_names l) l.
Proof. induction l as [|x l IH]; [done|]. cbn. by rewrite insert_name_perm, IH. Qed.

Lemma read_table_name (t : stable) (d : dtable) x : read_table t d = Ok x -> ti_name x = st_name t.
Proof.
  unfold read_table. destruct (negb _); cbn; [done|]. destruct (select_where cl_pk _) as [|key [|]]; [done| |done]. destruct (existsb _ _); cbn; [done|]. by intros [= <-].
Qed.

Lemma distinct_names_in x (l : list string) : In x (distinct_names l) <-> In x l.
Proof.
  unfold distinct_names. rewrite <- in_rev. assert (forall seen, In x (fold_left (fun seen y => if existsb (String.eqb y) seen then seen else y :: seen) l seen) <-> In x seen \/ In x l) as H.
  { induction l as [|y l IH]; intros seen; cbn; [tauto|]. rewrite IH. destruct (existsb (String.eqb y) seen) eqn:E; cbn; [|tauto].
    apply existsb_name in E. split; [tauto|]. intros [|[<-|]]; tauto. }
  rewrite H. cbn. tauto.
Qed.

(** The foreign keys of a table that was read: a reference to its own table is
    noted as such, and any other is a dependency. *)
Definition shaped t : Prop := forall k, In k (ti_fkeys t) ->
  (fk_table k = ti_name t -> is_self t (fk_from k) = true) /\ (fk_table k <> ti_name t -> In (fk_table k) (ti_deps t)).

Lemma read_table_shaped (t : stable) (d : dtable) x : read_table t d = Ok x -> shaped x.
Proof.
  unfold read_table. destruct (negb _); cbn; [done|]. destruct (select_where cl_pk _) as [|key [|]]; [done| |done]. destruct (existsb _ _); cbn; [done|].
  intros [= <-] k Hk. cbn in *. split.
  - intros Heq. apply existsb_name, distinct_names_in, in_map, filter_In. split; [done|]. by apply String.eqb_eq.
  - intros Hn. apply in_map, filter_In. split; [done|]. by apply negb_true_iff, String.eqb_neq.
Qed.

Lemma readSchema_tables c dst tables : List.NoDup (map st_name (so_tables src)) -> readSchema c src dst = Ok tables ->
  List.NoDup (map ti_name tables) /\ deps_first tables /\ forall t, In t tables -> shaped t.
Proof.
  intros Hnd. unfold readSchema. set (names := sort_names _).
  assert (List.NoDup names) as Hnames.
  { apply (Permutation_NoDup (Permutation_sym (sort_names_perm _))). unfold select_where. by apply List.NoDup_filter. }
  destruct (match c with Mysql => _ | Postgres => false end); cbn; [done|]. destruct (_ || _); cbn; [done|].
  destruct (so_migrations src) as [m|]; [|done]. destruct (negb _); cbn; [done|].
  destruct (rmapM _ names) as [infos|] eqn:E; cbn; [|done]. intros Ho. apply rmapM_ok in E.
  assert (map ti_name infos = names) as Hmap.
  { clear Hnames Ho. induction E as [|n x names' infos Hx E IH]; [done|]. cbn. rewrite IH. f_equal.
    destruct (named_table n (so_tables src)) as [y|] eqn:En; [|done]. destruct (named_dtable n _); [|done]. apply read_table_name in Hx. rewrite Hx.
    apply first_where_Some in En as [_ Heq]. by apply String.eqb_eq. }
  apply ordered_all in Ho as [Hperm Hd]; [|by rewrite Hmap]. split_and!; [|done|].
  - apply (Permutation_NoDup (Permutation_map ti_name (Permutation_sym Hperm))). by rewrite Hmap.
  - intros t Ht. apply (Permutation_in _ Hperm) in Ht. destruct (Forall2_in_r _ _ _ t E Ht) as (n & _ & Hn).
    destruct (named_table n (so_tables src)); [|done]. destruct (named_dtable n _); [|done]. by eapply read_table_shaped.
Qed.

Lemma check_empty_ok d tables u : rmapM (check_empty d) tables = Ok u -> forall t, In t tables -> is_setting t = false -> rows_in d (ti_name t) = [].
Proof.
  intros Hc%rmapM_ok. induction Hc as [|t v tables u Ht Hc IH]; [by intros ? []|]. intros x [<-|Hx] Hs; [|by apply IH].
  unfold check_empty in Ht. rewrite Hs in Ht. cbn in Ht. by destruct (rows_in d (ti_name t)).
Qed.

(** *** Success *)

Definition reads_of t : list srow := map (selected (ti_source t)) (rows_of_table src t).

(** A table that can be imported with the others: its rows can be converted, and
    each of its references that is not null is the plain key of a row of the
    source. *)
Record importable tables t : Prop := {
  ip_convert : forall r, In r (reads_of t) -> exists c, convertRow (ti_columns t) r = Ok c;
  ip_plain : forall k, In k (ti_fkeys t) -> plain_type (ti_columns t) (fk_from k);
  ip_refs : forall k, In k (ti_fkeys t) -> exists u, In u tables /\ ti_name u = fk_table k /\ plain_type (ti_columns u) (fk_to k) /\ is_self u (fk_to k) = false /\
    forall r, In r (reads_of t) -> cell_of (fk_from k) r <> SNull -> exists p, In p (reads_of u) /\ cell_of (fk_to k) p = cell_of (fk_from k) r
}.

(** All rows of a table have arrived. *)
Definition arrived d t : Prop := forall p, In p (reads_of t) -> exists x, In x (rows_in d (ti_name t)) /\ moved t p x.

Lemma transferred_arrived t d d' : transferred t (rows_of_table src t) d d' -> arrived d' t.
Proof.
  unfold transferred, arrived. fold (reads_of t). destruct (is_setting t).
  - intros (cs & Hf & Hin) p Hp. destruct (Forall2_in_l _ _ _ p Hf Hp) as (x & Hx & Hm). exists x. split; [|done]. apply Hin. by left.
  - intros Hf p Hp. by apply (Forall2_in_l _ _ _ p Hf).
Qed.

Lemma ready_table tables pre t post d : tables = pre ++ t :: post -> List.NoDup (map ti_name tables) -> deps_first tables -> shaped t -> importable tables t ->
  (forall u, In u pre -> arrived d u) -> consistent t d (reads_of t).
Proof.
  intros Heq Hnd Hd Hsh [Hc Hp Hr] Ha. assert (In t tables) as Ht by (rewrite Heq; apply in_app_iff; right; by left). split; [done..| |].
  - intros k r Hk Hn Hin Hnull. destruct (Hr k Hk) as (u & Hu & Hname & Hpl & Hself & Href). destruct (Href r Hin Hnull) as (p & Hpu & Hpc).
    destruct (Hsh k Hk) as [_ Hdep]. apply (Hd pre t post Heq) in Hdep; [|done]. apply in_map_iff in Hdep as (v & Hv & Hvp).
    assert (v = u) as -> by (apply (key_unique ti_name tables); [done|rewrite Heq; apply in_app_iff; by left|done|congruence]).
    destruct (Ha u Hvp p Hpu) as (x & Hx & Hm). exists x. rewrite <- Hv. split; [done|]. rewrite <- Hpc. apply (carried_plain u); [by right|done|done].
  - intros k Hk Hown. destruct (Hr k Hk) as (u & Hu & Hname & Hpl & Hself & Href). destruct (Hsh k Hk) as [Hs _].
    assert (u = t) as -> by (apply (key_unique ti_name tables); [done..|congruence]). by split_and!; [apply Hs|..].
Qed.

Lemma import_tables_runs tables pre post d next : tables = pre ++ post -> List.NoDup (map ti_name tables) -> deps_first tables ->
  (forall t, In t tables -> shaped t /\ table_ok t (rows_of_table src t) /\ importable tables t /\ accepting t sv) ->
  (forall u, In u pre -> arrived d u) -> (forall t, In t post -> is_setting t = false -> rows_in d (ti_name t) = []) ->
  exists d' next', import_tables sv src post d next = (Ok d', next').
Proof.
  intros Heq Hnd Hd Hall. revert pre d next Heq. induction post as [|t post IH]; intros pre d next Heq Ha He; cbn [import_tables]; [by eexists _, _|].
  destruct (Hall t) as (Hsh & Hok & Him & Hac); [rewrite Heq; apply in_app_iff; right; by left|].
  destruct (import_table_runs t sv (rows_of_table src t) d) as (d1 & E); [done|apply He; by left|done|by eapply ready_table|].
  assert (exists next1, resetSequence sv t d1 next = Ok next1) as (next1 & Er).
  { unfold resetSequence. destruct (sv_client sv); [by eexists|]. destruct (sv_sequence sv _); [|by eexists]. destruct Hac as (_ & _ & ->). by eexists. }
  rewrite E. cbn [rbind]. rewrite Er. cbn [rbind]. apply import_table_ok in E as (Htr & Hel); [|done|apply He; by left].
  assert (forall x, In x pre \/ In x post -> ti_name x <> ti_name t) as Hne.
  { intros x Hx Hxt. rewrite Heq, map_app in Hnd. apply NoDup_remove_2 in Hnd. apply Hnd. rewrite <- Hxt, <- map_app. apply in_map, in_app_iff. tauto. }
  apply (IH (pre ++ [t])); [by rewrite <- app_assoc| |].
  - intros u [Hu|[<-|[]]]%in_app_iff; [|by eapply transferred_arrived]. intros p Hp. rewrite Hel by (apply Hne; by left). by apply Ha.
  - intros x Hx Hs. rewrite Hel by (apply Hne; by right). apply He; [by right|done].
Qed.

Lemma check_empty_runs d tables : (forall t, In t tables -> is_setting t = false -> rows_in d (ti_name t) = []) -> exists u, rmapM (check_empty d) tables = Ok u.
Proof.
  induction tables as [|t tables IH]; intros He; [by eexists|]. cbn. unfold check_empty at 1. destruct IH as (u & E); [intros x Hx; apply He; by right|]. rewrite E.
  destruct (is_setting t) eqn:Es; cbn; [by eexists|]. rewrite (He t) by (done || by left). cbn. by eexists.
Qed.

(** C38: A consistent database is moved.  When the schemas agree, the tables of
    the destination other than the settings are empty, every row can be
    converted, every reference that is not null is the key of some row, and the
    server takes what it is given, the import succeeds, references of a table to
    itself and to the tables before it included, and all rows have arrived. *)
Theorem consistent_database_is_imported dst tables : List.NoDup (map st_name (so_tables src)) -> readSchema (sv_client sv) src dst = Ok tables ->
  (forall t, In t tables -> table_ok t (rows_of_table src t) /\ importable tables t /\ accepting t sv /\ (is_setting t = false -> rows_in (ds_rows dst) (ti_name t) = [])) ->
  exists dst', importSqliteDatabase sv src dst = (Ok tt, dst') /\ forall t, In t tables -> arrived (ds_rows dst') t.
Proof.
  intros Hnd Hs Hall. pose proof (readSchema_tables _ _ _ Hnd Hs) as (Hnames & Hd & Hsh).
  destruct (check_empty_runs (ds_rows dst) tables) as (u & Eu); [apply Hall|].
  destruct (import_tables_runs tables [] tables (ds_rows dst) (ds_next dst)) as (d & next & E); [done..| | |intros t Ht; by apply Hall|].
  { intros t Ht. split; [by apply Hsh|]. split_and!; by apply Hall. }
  { by intros ? []. }
  unfold importSqliteDatabase, in_transaction. rewrite Hs. cbn [rbind]. rewrite Eu. cbn [rbind]. rewrite E. eexists. split; [done|].
  apply import_tables_ok in E as [[Hm _] _]; [|done|intros t Ht; by apply Hall|intros t Ht; by apply Hall].
  intros t Ht. cbn. by eapply transferred_arrived, Hm.
Qed.

(** C39: Moving a database is all or nothing.  When it succeeds, every table of
    the destination holds exactly the rows of the source, each converted to the
    types of its columns, with the references of a table to itself filled in; of
    the settings, those of the source have replaced the destination's and the
    others have stayed; no other table has changed, and the next value of every
    sequence is above all keys.  When it throws, at whatever statement, all rows
    are as they were; only sequences of its tables may have been set, which a
    rollback does not undo, and these are above all keys that are there.  The
    tables have one plain key each, in whose order they are read. *)
Theorem import_is_exact_or_nothing dst r dst' : List.NoDup (map st_name (so_tables src)) ->
  (forall tables t, readSchema (sv_client sv) src dst = Ok tables -> In t tables -> table_ok t (rows_of_table src t)) ->
  importSqliteDatabase sv src dst = (r, dst') ->
  match r with
  | Ok _ => exists tables, readSchema (sv_client sv) src dst = Ok tables /\ all_moved tables (ds_rows dst) (ds_rows dst') (ds_next dst')
  | Throw _ => ds_rows dst' = ds_rows dst /\ ds_tables dst' = ds_tables dst /\ ds_migrations dst' = ds_migrations dst /\
      exists tables, (tables = [] \/ readSchema (sv_client sv) src dst = Ok tables) /\ sequences_kept tables (ds_rows dst) (ds_next dst) (ds_next dst')
  end.
Proof.
  intros Hnd Hok. unfold importSqliteDatabase, in_transaction.
  destruct (readSchema _ src dst) as [tables|e] eqn:E; cbn [rbind]; [|intros [= <- <-]; split_and!; [done..|]; exists []; split; [by left|]; intros name; by left].
  destruct (rmapM _ tables) as [u|e] eqn:Ec; cbn [rbind]; [|intros [= <- <-]; split_and!; [done..|]; exists []; split; [by left|]; intros name; by left].
  destruct (import_tables _ _ _ _ _) as [[d|e] next] eqn:Ei; intros [= <- <-].
  - exists tables. split; [done|]. apply import_tables_ok in Ei as [Hm _]; [exact Hm|by eapply readSchema_tables|intros t; by apply Hok|by eapply check_empty_ok].
  - split_and!; [done..|]. exists tables. split; [by right|]. eapply import_tables_sequences; [by eapply readSchema_tables|intros t; by apply Hok|by eapply check_empty_ok|exact Ei].
Qed.
End AllTables.

(** ** An example *)

Module DemoDbMigrate.

Definition users : stable := MkTable "user" [MkColumn "id" "integer" true; MkColumn "name" "varchar(255)" false; MkColumn "is_deleted" "boolean" false; MkColumn "created_on" "datetime" false]
  [] [[("id", SInt 1); ("name", SText "ada"); ("is_deleted", SInt 0); ("created_on", SInt 1700000000000)];
      [("id", SInt 12); ("name", SText "bob"); ("is_deleted", SText "1"); ("created_on", SText "2024-01-01 00:00:00")]].
(** Notes answer other notes, of a later number too. *)
Definition notes : stable := MkTable "note" [MkColumn "id" "integer" true; MkColumn "owner_id" "integer" false; MkColumn "answers" "integer" false]
  [MkFkey "owner_id" "user" "id"; MkFkey "answers" "note" "id"]
  [[("id", SInt 3); ("owner_id", SInt 12); ("answers", SInt 20)]; [("id", SInt 20); ("owner_id", SInt 1); ("answers", SNull)]].
Definition settings : stable := MkTable "setting" [MkColumn "id" "varchar(255)" true; MkColumn "value" "varchar(255)" false] [] [[("id", SText "default-site"); ("value", SText "404")]].
Definition src : source := MkSource [notes; settings; users; MkTable "migrations" [] [] []] (Some ["b"; "a"]).

Definition dtables : list dtable :=
  [MkDtable "user" "InnoDB" [MkDcolumn "name" "varchar" false; MkDcolumn "id" "integer" false; MkDcolumn "is_deleted" "Boolean" false; MkDcolumn "created_on" "timestamp" false];
   MkDtable "setting" "InnoDB" [MkDcolumn "id" "varchar" false; MkDcolumn "value" "varchar" false];
   MkDtable "note" "InnoDB" [MkDcolumn "id" "integer" false; MkDcolumn "owner_id" "integer" true; MkDcolumn "answers" "integer" true]].
Definition defaults : list drow := [[("id", DText "default-site"); ("value", DText "welcome")]; [("id", DText "oidc"); ("value", DText "")]].
Definition dst : destination := MkDest dtables ["a"; "b"] {[ "setting" := defaults ]} ∅.
Definition sv : target_server := MkServer Postgres (fun _ _ => None) true (fun t => negb (String.eqb t "setting")) (fun _ => None).
(** A server that loses the connection at the notes. *)
Definition broken : target_server := MkServer Postgres (fun t _ => if String.eqb t "note" then Some (NativeError "connection lost") else None) true (fun t => negb (String.eqb t "setting")) (fun _ => None).

Definition tables : list table := match readSchema Postgres src dst with Ok l => l | Throw _ => [] end.
Definition imported : destination := snd (importSqliteDatabase sv src dst).

Lemma src_names : List.NoDup (map st_name (so_tables src)).
Proof. cbn. repeat constructor; cbn; intuition discriminate. Qed.

Lemma demo_table_ok t : In t tables -> table_ok t (rows_of_table src t).
Proof.
  intros Hin. vm_compute in Hin. destruct Hin as [<-|[<-|[<-|[]]]]; (split; [|done|done|done]);
    [exists (MkColumn "id" "varchar(255)" true)|exists (MkColumn "id" "integer" true)|exists (MkColumn "id" "integer" true)];
    (split; [split_and!; [by left|done|cbn; repeat constructor; cbn; intuition discriminate]|]);
    split; vm_compute; repeat constructor; by intros.
Qed.

Definition table_named (name : string) : table := default (MkInfo "" [] [] "" [] [] []) (first_where (fun t => String.eqb (ti_name t) name) tables).

(** Every row that is read refers to one that is read. *)
Definition found_in (name from to : string) (r : srow) : bool :=
  bool_decide (cell_of from r = SNull) || existsb (fun p => bool_decide (cell_of to p = cell_of from r)) (reads_of src (table_named name)).
Lemma found_in_spec name from to reads : forallb (found_in name from to) reads = true ->
  forall r, In r reads -> cell_of from r <> SNull -> exists p, In p (reads_of src (table_named name)) /\ cell_of to p = cell_of from r.
Proof.
  intros Hall r Hr Hn. rewrite forallb_forall in Hall. apply Hall, orb_true_iff in Hr as [Hr|Hr]; [by apply bool_decide_eq_true_1 in Hr|].
  apply existsb_exists in Hr as (p & Hp & Heq). exists p. by apply bool_decide_eq_true_1 in Heq.
Qed.

Lemma demo_converts t r : In t tables -> In r (reads_of src t) -> exists c, convertRow (ti_columns t) r = Ok c.
Proof.
  intros Hin Hr. vm_compute in Hin. destruct Hin as [<-|[<-|[<-|[]]]]; vm_compute in Hr; decompose [or] Hr; subst; try done; eexists; vm_compute; reflexivity.
Qed.

Lemma demo_importable t : In t tables -> importable src tables t.
Proof.
  intros Hin. split; [intros r; by apply demo_converts|..]; vm_compute in Hin; destruct Hin as [<-|[<-|[<-|[]]]]; intros k Hk; cbn in Hk; decompose [or] Hk; subst; try done.
  - exists (table_named "user"). split_and!; [vm_compute; tauto|done|done|done|]. by apply found_in_spec; vm_compute.
  - exists (table_named "note"). split_and!; [vm_compute; tauto|done|done|done|]. by apply found_in_spec; vm_compute.
Qed.

Definition moved_notes : list drow :=
  [[("id", DText "3"); ("owner_id", DText "12"); ("answers", DText "20")]; [("id", DText "20"); ("owner_id", DText "1"); ("answers", DNull)]].

Lemma consistent_database_witness :
  map ti_name tables = ["setting"; "user"; "note"] /\ rows_in (ds_rows imported) "note" = moved_notes /\
  exists dst', importSqliteDatabase sv src dst = (Ok tt, dst') /\ forall t, In t tables -> arrived src (ds_rows dst') t.
Proof.
  split; [vm_compute; reflexivity|]. split; [vm_compute; reflexivity|].
  refine (consistent_database_is_imported sv src dst tables src_names _ _); [vm_compute; reflexivity|].
  intros t Ht. refine (conj (demo_table_ok t Ht) (conj (demo_importable t Ht) (conj (conj (fun _ => eq_refl) (conj eq_refl eq_refl)) _))).
  vm_compute in Ht. destruct Ht as [<-|[<-|[<-|[]]]]; vm_compute; try reflexivity; discriminate.
Defined.

Lemma demo_tables_ok c l t : readSchema c src dst = Ok l -> In t l -> table_ok t (rows_of_table src t).
Proof. intros Hl. assert (l = tables) as -> by (destruct c; vm_compute in Hl; injection Hl as <-; vm_compute; reflexivity). apply demo_table_ok. Qed.

(** The import succeeds; a server that fails at the last table leaves nothing. *)
Lemma import_exact_witness :
  (rows_in (ds_rows imported) "setting" = [[("id", DText "default-site"); ("value", DText "404")]; [("id", DText "oidc"); ("value", DText "")]] /\
   rows_in (ds_rows imported) "user" = [[("id", DText "1"); ("name", DText "ada"); ("is_deleted", DBool false); ("created_on", DDate 1700000000000)];
     [("id", DText "12"); ("name", DText "bob"); ("is_deleted", DBool true); ("created_on", DText "2024-01-01 00:00:00")]] /\
   ds_next imported !! "note" = Some 21) /\
  (exists l, readSchema Postgres src dst = Ok l /\ all_moved sv src l (ds_rows dst) (ds_rows imported) (ds_next imported)) /\
  fst (importSqliteDatabase broken src dst) = Throw (NativeError "connection lost") /\
  ds_next (snd (importSqliteDatabase broken src dst)) !! "user" = Some 13 /\ ds_rows (snd (importSqliteDatabase broken src dst)) = ds_rows dst.
Proof.
  split; [split; [vm_compute; reflexivity|split; vm_compute; reflexivity]|]. split.
  - refine (import_is_exact_or_nothing sv src dst (Ok tt) imported src_names (fun l t => demo_tables_ok Postgres l t) _). vm_compute. reflexivity.
  - split; [vm_compute; reflexivity|]. split; [vm_compute; reflexivity|].
    refine (proj1 (import_is_exact_or_nothing broken src dst (Throw (NativeError "connection lost")) _ src_names (fun l t => demo_tables_ok Postgres l t) _)). vm_compute. reflexivity.
Defined.

(** Two tables that refer to each other have no order. *)
Definition bare (name : string) (deps : list string) : table := MkInfo name [] [] "id" [] deps [].
Lemma table_order_witness :
  order_tables [bare "c" ["b"]; bare "b" ["a"]; bare "a" []] = Ok [bare "a" []; bare "b" ["a"]; bare "c" ["b"]] /\
  ((exists l, order_tables [bare "b" ["a"]; bare "a" ["b"]] = Ok l) <-> exists rank, measured [bare "b" ["a"]; bare "a" ["b"]] rank) /\
  forall l, order_tables [bare "b" ["a"]; bare "a" ["b"]] = Ok l -> Permutation l [bare "b" ["a"]; bare "a" ["b"]] /\ deps_first l.
Proof.
  split; [vm_compute; reflexivity|]. refine (table_order_exists_iff_acyclic [bare "b" ["a"]; bare "a" ["b"]] _). cbn. repeat constructor; cbn; intuition discriminate.
Defined.

End DemoDbMigrate.
